(* ===== verification/_CoqProject ===== *)
-Q . S2P
Prelude.v
Locks.v
Pmm.v
Frames.v
Vmm.v
VmmTree.v
VmmSpec.v
VmmMap.v
VmmTheorems.v
Kmalloc.v
KmallocTheorems.v
Blocks.v
Bytes.v
DList.v
CString.v
Format.v
Hashmap.v
HashmapTheorems.v
Rtc.v
Vfs.v
VfsTheorems.v
VfsCreate.v
Kernel.v
Stack.v
Proc.v
Sched.v
SchedTheorems.v
SleepQueue.v
SleepTheorems.v
Rangemap.v
Fd.v
FdTheorems.v
Pipe.v
PipeTheorems.v
Echfs.v
EchfsBlocks.v
EchfsFiles.v
EchfsAlloc.v
EchfsDir.v
EchfsOps.v
EchfsTheorems.v
Ahci.v
AhciCommand.v
AhciTheorems.v
UserMemory.v
UserMemoryTheorems.v
Pci.v
Arrays.v
KeyMap.v
Futex.v
ProcCalls.v
ForkTheorems.v
ExecveTheorems.v
Syscalls.v
SyscallTheorems.v
Urm.v
Ipc.v
Ps2.v
Screen.v
DevFs.v
Interrupts.v
InterruptTheorems.v
Acpi.v
Apic.v
Spaces.v
Buffers.v
Elf.v
ElfHeaders.v
ElfTheorems.v
Launch.v
Debug.v
Random.v
Tss.v
Mbr.v
AhciPorts.v
Dbg.v
IpcCalls.v
Smp.v
Timer.v
