(* ===== verification/Prelude.v ===== *)
(** * DripOS: a verification library

    DripOS is a 64-bit x86 kernel in C.  This library models its core as Rocq
    functions, translated from the sources (paths below are relative to
    src/src), and proves the theorems that make the parts correct.

    ** How the code is modelled

    A C function that changes state is a function in the monad [stM S] of this
    file: it takes a state and gives [Ok] of a result and a new state, or
    [Crash] of a reason: [Fault] (an access outside what is mapped or allocated,
    or a division by zero), [Panic] (a failed assertion), [Deadlock] (a spin on
    a lock that nobody can release) and [Hang] (an endless loop the code enters
    on purpose, or fuel that ran out).  A theorem that an operation equals [Ok]
    says that it terminates, accesses only what it may, and never locks twice.
    Integers are [Z] in the range of their C type; [u8] to [u64], [s32] and
    [s64] are the wraps, written wherever an operation can leave the range.
    Structures are records, with the update notation [r <| f := v |>]; heaps map
    addresses to structures, and [0] is the null pointer.  A lock is its word;
    the model runs one processor, what others may do in between is an argument
    where it matters.  Hardware and callbacks are classes or arguments.

    Loops whose bound the code knows are structural recursions on that bound.
    Loops that follow pointers or poll hardware take fuel: the number of
    allocated nodes plus one for lists ([DList.v], [Rangemap.v], [SleepQueue.v]),
    the number of blocks for the chains of a file ([EchfsFiles.v]), more than
    the controller's patience for polling ([AhciTheorems.v]).  The theorems show
    that this much is enough: they give results, not only what a result would be.

    ** The parts and their files

    - Physical memory, mm/pmm.c: [Pmm.v] (state [pmm_state], the bitmap and the
      counters).  [Frames.v] is the interface its clients use, with the bitmap
      allocator as an instance.
    - Virtual memory, mm/vmm.c: [Vmm.v] has the operations over any allocator
      with that interface; [VmmTree.v] the processor's page walk and the
      invariant of an address space; [VmmSpec.v] and [VmmMap.v] what the
      operations do to translations; [VmmTheorems.v] the results.
    - Kernel heap, klibc/stdlib.c: [Kmalloc.v] and [KmallocTheorems.v], on the
      virtual memory manager.  [Blocks.v] is what the heap's users see of it.
    - Strings, numbers, paths (klibc/string.c, klibc/math.c): [CString.v].
      Formatted output (drivers/tty/tty.c, drivers/serial.c, klibc/logger.c):
      [Format.v].  Byte ranges and packed structures: [Bytes.v].
    - Containers: [DList.v] (klibc/linked_list.h), [Hashmap.v] and
      [HashmapTheorems.v] (klibc/hashmap.c, klibc/strhashmap.c), [Rangemap.v]
      (klibc/rangemap.c),
      [Arrays.v] (klibc/vector.c, klibc/dynarray.c);
      [KeyMap.v] is the interface of the integer hash map for its clients.
    - Locks and the interrupt flag, klibc/lock.c: [Locks.v].  The real-time
      clock, drivers/rtc.c: [Rtc.v].
    - Processes and threads: [Kernel.v] is the state that the files of proc/ and
      fs/fd.c share; [Stack.v] the first stack of a process; [Proc.v] the
      tables of proc/process_management.c; [Sched.v] and [SchedTheorems.v] the
      scheduler; [SleepQueue.v] and [SleepTheorems.v] sleeping, events and the
      timer.
    - Files: [Vfs.v], [VfsTheorems.v] and [VfsCreate.v] are the tree of
      fs/vfs/vfs.c; [Fd.v] and [FdTheorems.v] descriptors and the calls through
      a node's function pointers (fs/fd.c); [Pipe.v] and [PipeTheorems.v] pipes.
    - The echFS file system, fs/filesystems/echfs.c: [Echfs.v] over the class
      [Volume] (the device's descriptor), [EchfsBlocks.v] the block cache,
      [EchfsFiles.v] chains and contents, [EchfsAlloc.v] allocation,
      [EchfsDir.v] names, [EchfsOps.v] the operations behind the VFS,
      [EchfsTheorems.v] the results on a device that keeps [VolumeLaws].
    - Disks, drivers/pci_drivers/ahci.c: [Ahci.v] over the classes [Hba] (the
      controller's registers) and [FrameAlloc]; [AhciCommand.v] the meaning of a
      command; [AhciTheorems.v] the results on a controller that keeps [HbaLaws].
    - The PCI bus, drivers/pci.c: [Pci.v] over the class [PciPorts] (the two
      configuration ports), with the results on a bus that keeps [PciLaws].
    - Calls of user programs: [UserMemory.v] and [UserMemoryTheorems.v] are the
      memory calls of proc/sched_syscalls.c and proc/syscalls.c; [Futex.v] the
      futexes; [ProcCalls.v] fork, execve and new threads, with [ForkTheorems.v]
      and [ExecveTheorems.v]; [Syscalls.v] and [SyscallTheorems.v] the table of
      handlers and the handlers of proc/syscalls.c.
    - The resource manager, proc/urm.c: [Urm.v] is the protocol of its threads, a
      step relation over the globals they share, and its invariant.
    - Inter-process communication, proc/ipc.c: [Ipc.v], registration of handles and
      the meeting of clients and server as a step relation.
    - Devices: [Ps2.v] is the keyboard's buffer and the mouse (drivers/ps2.c),
      [Screen.v] drawing (drivers/vesa.c), [DevFs.v] the device file system
      (fs/devfs/devfs.c), on the tree of [Vfs.v] and the interface of [KeyMap.v].
    - Interrupts: [Interrupts.v] and [InterruptTheorems.v] are the descriptor table
      and the dispatcher (sys/int), which calls the scheduler, the timer and the
      drivers; [Acpi.v] finds the firmware's tables (sys/acpi/rsdt.c, parse_madt),
      [Apic.v] is the rest of sys/apic.c over the class [IoApics] (the
      controllers' registers).
    - Programs: [Spaces.v] is the page tree of a new address space and how much
      memory is enough; [Buffers.v] the buffers of kmalloc and kcalloc with their
      bytes, on the heap of [Kmalloc.v]; [Elf.v] loads a program (proc/exec_formats/elf.c),
      [ElfHeaders.v] what it reads through the interface [serves] of an open file,
      which the calls of [Fd.v] implement, [ElfTheorems.v] the result; [Launch.v]
      the wrappers that start processes, flat binaries, and what the workers of
      the resource manager do (proc/scheduler.c, proc/exec_formats/raw_binary.c,
      proc/urm.c).
    - Several processors: [Smp.v] starts them (sys/smp.c, over [Tss.v], sys/tss.c)
      and drives their schedulers; [Debug.v] is watchpoints and stack traces
      (klibc/debug.c).
    - Around them: [IpcCalls.v] is the system calls of IPC and the screen's server;
      [Mbr.v] the partition table; [AhciPorts.v] brings up a disk controller over
      the class [Controller]; [Dbg.v] the debug server (dripdbg/debug.c);
      [Random.v] klibc/math.c; [Timer.v] the rest of drivers/pit.c.
    The files from [Pci.v] on that have no file of theorems hold their own.

    ** What the theorems show

    - Memory: allocation is first fit and disjoint from what is in use, freeing
      undoes it, and no page ever has two owners; building tables changes no translation, and mapping, unmapping
      and remapping change exactly the pages they name; heap blocks are disjoint,
      writable, and framed by unmapped pages, and freeing returns their pages.
    - Library code: the converters are inverse, paths normalise to what their
      segments mean, formatted output is that of a reference definition and stays
      on the screen, hash maps implement finite maps, range maps find the lowest
      free area and never overlap.
    - Execution: a switch saves and restores whole contexts, the scheduler picks
      the next ready thread in cyclic order and lets none that stays ready wait
      longer than one round; sleepers wake at their tick; new threads start with the registers and the stack
      their program expects.
    - Files: path lookup and creation keep the tree well formed and find what
      the names mean; descriptors are the lowest free ones; system calls on them
      reach the node's function or fail with the documented error; a pipe is a
      queue of bytes; the cache of echFS is transparent, its files are read,
      written and extended as the chains say; disk transfers move exactly the
      bytes they name.
    - User programs: memory calls map and unmap exactly the pages they name and
      nothing of the kernel's; a futex wakes one waiter of its own queue and
      compares and blocks in one step; fork copies the process and its files;
      execve frees what it copied when it fails; every system call number reaches
      its handler; requests to the resource manager arrive unchanged, one at a
      time and in order, however its threads are interleaved; at most one client is
      connected to a port, and its server works on that client's request.
    - Devices and containers: the PCI scan ends and lists exactly the functions
      that can be reached; vectors implement lists; an element of a dynamic array
      lives as long as a reader refers to it; the keyboard's buffer is a queue, the
      pointer stays on the screen, scrolling and characters change exactly their
      pixels, and a registered device is found with its own data.
    - Interrupts: every vector leads to its entry point and its handler on the
      right stack; firmware tables are found and parsed as they are laid out, and
      redirection entries are read back in every bit that software sets; every
      processor is started with exactly the protocol's interrupts, the kernel's
      tables and entry point, and a stack of its own.
    - Programs: a well-formed ELF file without interpreter is loaded byte for byte
      into an address space of its own, with a cleared stack, and nothing else is
      mapped; the
      threads of the old program are freed once.
    - Bring-up: a disk port whose engine stops gets its cleared memory where the
      controller can reach it; the
      partition table and the debug server's answers are those of the drive and of
      the thread; a stack trace ends whatever the stack holds.
    - Lemmas that carry no claim but are listed among the findings show, on concrete
      or general inputs, where the code departs from what it means to do.

    ** Not modelled

    Assembly entry code, the instructions behind port and register accesses, the
    display's modes, and the order of initialisation (kernel.c), which only calls
    what the other files define.  Diagnostic output inside
    operations is left out.  Other processors are present only through arguments.  Structures
    that the code reaches by typed pointers (threads, processes, nodes, pipes,
    descriptors, IPC handles, copies of strings) are entries of heaps of their own, with new addresses from
    [kbrk]; the pages that kmalloc takes for these are not counted, those of
    buffers of bytes are ([Buffers.v]).  The time a [hlt] waits and what
    interrupts do meanwhile are left out, also of the one in
    add_new_child_thread, between the strings of the first stack ([hlt] in
    [Stack.v]).  The address of the loader's array on the kernel stack is the
    argument [elf_magic].  The page walk uses the code's address mask and has no
    1 GiB pages; [mmu_walk] in [VmmTree.v] is the processor's, and where they agree.
    The sound
    driver (drivers/pci_drivers/intel_hda.c) is not in the table of drivers, and
    klibc/queue.h is not used by any file.

    This file holds what all others share: integers, the monad and its
    notations, the tactics [mstep], [mrun], [zbool] and [dlia], record updates,
    and lemmas on lists and arithmetic. *)

From Stdlib Require Export ZArith Lia.
From stdpp Require Export base tactics strings numbers option gmap list.
#[global] Open Scope Z_scope.

(** ** Machine integers

    A value of a [w]-bit C type is the [Z] in its range; every arithmetic
    operation of the source that can leave the range is followed by the wrap
    written here. *)

Abbreviation U8_MOD := 256.
Abbreviation U16_MOD := 65536.
Abbreviation U32_MOD := 4294967296.
Abbreviation U64_MOD := 18446744073709551616.

Definition u8 (z : Z) : Z := z mod U8_MOD.
Definition u16 (z : Z) : Z := z mod U16_MOD.
Definition u32 (z : Z) : Z := z mod U32_MOD.
Definition u64 (z : Z) : Z := z mod U64_MOD.

Definition s32 (z : Z) : Z :=
  let r := z mod U32_MOD in if r <? 2147483648 then r else r - U32_MOD.
Definition s64 (z : Z) : Z :=
  let r := z mod U64_MOD in if r <? 9223372036854775808 then r else r - U64_MOD.

Definition is_u8 (z : Z) : Prop := 0 ≤ z < U8_MOD.
Definition is_u32 (z : Z) : Prop := 0 ≤ z < U32_MOD.
Definition is_u64 (z : Z) : Prop := 0 ≤ z < U64_MOD.

(** A page is 4 KiB. *)
Abbreviation PAGE := 4096.

(** ** Results and the state monad

    Kernel code either returns or stops for good.  [Hang] is a deliberate
    [hlt] loop, [Panic] a failed [assert], [Deadlock] a spin on a lock whose
    holder is the spinning code itself, and [Fault] an access outside the
    object it names. *)

Inductive crash : Type := Hang | Panic | Deadlock | Fault.

Inductive res (A : Type) : Type :=
| Ok (a : A)
| Crash (c : crash).
Arguments Ok {A} _.
Arguments Crash {A} _.

#[export] Instance res_ret : MRet res := λ A a, Ok a.
#[export] Instance res_bind : MBind res := λ A B k m,
  match m with Ok a => k a | Crash c => Crash c end.

Definition stM (S A : Type) : Type := S → res (A * S).

#[export] Instance stM_ret S : MRet (stM S) := λ A a s, Ok (a, s).
#[export] Instance stM_bind S : MBind (stM S) := λ A B k m s,
  match m s with
  | Ok (a, s') => k a s'
  | Crash c => Crash c
  end.

Definition get {S} : stM S S := λ s, Ok (s, s).
Definition gets {S A} (f : S → A) : stM S A := λ s, Ok (f s, s).
Definition modify {S} (f : S → S) : stM S unit := λ s, Ok (tt, f s).
Definition crashM {S A} (c : crash) : stM S A := λ _, Crash c.

(** [assert(b)] of stdlib.h. *)
Definition assertM {S} (b : bool) : stM S unit :=
  if b then mret tt else crashM Panic.

(** Run an operation of a component on the part of the state it owns. *)
Definition zoom {S T A} (g : S → T) (p : T → S → S) (m : stM T A) : stM S A :=
  λ s, match m (g s) with
       | Ok (a, t) => Ok (a, p t s)
       | Crash c => Crash c
       end.

(** An element of an array; outside its bounds the access is a [Fault]. *)
Definition idx {A} (l : list A) (i : Z) : option A :=
  if (0 <=? i) then l !! Z.to_nat i else None.
Definition of_opt {S A} (o : option A) : stM S A :=
  match o with Some a => mret a | None => crashM Fault end.
Definition upd {A} (l : list A) (i : Z) (a : A) : list A := <[Z.to_nat i := a]> l.

(** Unsigned division, which traps on zero. *)
Definition udiv {S} (a b : Z) : stM S Z := if b =? 0 then crashM Fault else mret (a / b).

(** [for (i = start; i < start + n; i++) body] *)
Fixpoint for_loop {S} (n : nat) (i : Z) (body : Z → stM S unit) : stM S unit :=
  match n with
  | O => mret tt
  | Datatypes.S n' => body i ;; for_loop n' (i + 1) body
  end.

Definition zlen {A} (l : list A) : Z := Z.of_nat (length l).

Declare Scope drip_scope.
Delimit Scope drip_scope with drip.

(** ** Record update

    [r <| f := v |>] is [r] with the field [f] set to [v], for a record type
    with an [Eta] instance that lists its fields. *)

Class Eta (R : Type) := eta : R → R.
Class SetField {R T : Type} (proj : R → T) := set_field : (T → T) → R → R.
Arguments set_field {R T} proj {_} _ _.
Ltac derive_set_field :=
  match goal with
  | |- @SetField ?R ?T ?proj =>
      let i := constr:(_ : Eta R) in
      let e := eval red in i in
      let g := eval pattern proj in e in
      match g with ?k _ =>
        let s := constr:(λ f : T → T, k (λ r, f (proj r))) in
        let s := eval cbv beta in s in exact s
      end
  end.
#[export] Hint Extern 0 (SetField _) => derive_set_field : typeclass_instances.
Notation "r <| f := v |>" := (set_field f (λ _, v) r)
  (at level 12, left associativity, format "r  <| f  :=  v |>") : drip_scope.

(** ** Automation *)

Notation "m @ s ⇓ r" := (m s = Ok r)
  (at level 70, s at level 9, r at level 69) : drip_scope.
Notation "m @ s ⇑ c" := (m s = Crash c)
  (at level 70, s at level 9, c at level 69) : drip_scope.
#[global] Open Scope drip_scope.

Create HintDb drip discriminated.
Create Rewrite HintDb drip.

(** Linear arithmetic with division and remainder by constants. *)
Ltac dlia := Z.div_mod_to_equations; lia.

(** Reduce the boolean tests of a branch to facts about integers. *)
Ltac zbool :=
  repeat match goal with
  | H : (_ =? _) = true |- _ => apply Z.eqb_eq in H
  | H : (_ =? _) = false |- _ => apply Z.eqb_neq in H
  | H : (_ <? _) = true |- _ => apply Z.ltb_lt in H
  | H : (_ <? _) = false |- _ => apply Z.ltb_ge in H
  | H : (_ <=? _) = true |- _ => apply Z.leb_le in H
  | H : (_ <=? _) = false |- _ => apply Z.leb_gt in H
  | H : (_ && _)%bool = true |- _ => apply andb_true_iff in H as [? ?]
  | H : (_ || _)%bool = false |- _ => apply orb_false_iff in H as [? ?]
  | H : negb _ = true |- _ => apply negb_true_iff in H
  | H : negb _ = false |- _ => apply negb_false_iff in H
  end.

(** ** Generic lemmas *)

Lemma bind_ok {S A B} (m : stM S A) (k : A → stM S B) s a s' :
  m s = Ok (a, s') → (m ≫= k) s = k a s'.
Proof. intros H. unfold mbind, stM_bind. by rewrite H. Qed.

Lemma bind_crash {S A B} (m : stM S A) (k : A → stM S B) s c :
  m s = Crash c → (m ≫= k) s = Crash c.
Proof. intros H. unfold mbind, stM_bind. by rewrite H. Qed.

Lemma bind_inv {S A B} (m : stM S A) (k : A → stM S B) s b s'' :
  (m ≫= k) s = Ok (b, s'') → ∃ a s', m s = Ok (a, s') ∧ k a s' = Ok (b, s'').
Proof.
  unfold mbind, stM_bind. destruct (m s) as [[a s']|c] eqn:E; [|done]. eauto.
Qed.

(** Run the first action of a [bind] when it computes by itself. *)
Ltac mstep := erewrite bind_ok; [|reflexivity]; cbv beta.
(** Run it with an equation. *)
Ltac mrun H := rewrite (bind_ok _ _ _ _ _ H); cbv beta.

(** Total correctness of a counted loop: an invariant indexed by the counter
    that every iteration re-establishes. *)
Lemma for_loop_inv {S} (I : Z → S → Prop) (body : Z → stM S unit) n : ∀ i s,
  I i s →
  (∀ j t, i ≤ j < i + Z.of_nat n → I j t →
     ∃ t', body j t = Ok (tt, t') ∧ I (j + 1) t') →
  ∃ s', for_loop n i body s = Ok (tt, s') ∧ I (i + Z.of_nat n) s'.
Proof.
  induction n as [|n IH]; intros i s Hi Hstep; simpl.
  - exists s. split; [done|]. by rewrite Z.add_0_r.
  - destruct (Hstep i s) as (t & Hb & Ht); [lia|done|].
    rewrite (bind_ok _ _ _ _ _ Hb).
    destruct (IH (i + 1) t Ht) as (s' & Hl & Hs').
    { intros j u Hj Hu. apply Hstep; [lia|done]. }
    exists s'. split; [done|].
    by replace (i + Z.of_nat (Datatypes.S n)) with (i + 1 + Z.of_nat n) by lia.
Qed.

Lemma zoom_ok {S T A} (g : S → T) (p : T → S → S) (m : stM T A) s a t :
  m (g s) = Ok (a, t) → zoom g p m s = Ok (a, p t s).
Proof. intros H. unfold zoom. by rewrite H. Qed.

Lemma of_opt_ok {S A} (o : option A) (a : A) (s : S) : o = Some a → of_opt o s = Ok (a, s).
Proof. by intros ->. Qed.

Lemma udiv_ok {S} a b (s : S) : b ≠ 0 → udiv a b s = Ok (a / b, s).
Proof. intros Hb. unfold udiv. by rewrite (proj2 (Z.eqb_neq _ _) Hb). Qed.

Lemma idx_Some {A} (l : list A) i a :
  idx l i = Some a → 0 ≤ i < zlen l ∧ l !! Z.to_nat i = Some a.
Proof.
  unfold idx, zlen. destruct (0 <=? i) eqn:E; [|done]. intros H. zbool.
  pose proof (lookup_lt_Some _ _ _ H). split; [lia|done].
Qed.

Lemma idx_lt {A} (l : list A) i : 0 ≤ i < zlen l → is_Some (idx l i).
Proof.
  intros H. unfold idx, zlen in *. destruct (0 <=? i) eqn:E; zbool; [|lia].
  apply lookup_lt_is_Some. lia.
Qed.

Lemma upd_twice {A} (l : list A) i x y : upd (upd l i x) i y = upd l i y.
Proof. unfold upd. apply list_insert_insert_eq. Qed.

Lemma idx_upd_eq {A} (l : list A) i a :
  0 ≤ i < zlen l → idx (upd l i a) i = Some a.
Proof.
  intros H. unfold idx, upd, zlen in *. destruct (0 <=? i) eqn:E; zbool; [|lia].
  apply list_lookup_insert_eq. lia.
Qed.

Lemma idx_upd_ne {A} (l : list A) i j a :
  0 ≤ i → i ≠ j → idx (upd l i a) j = idx l j.
Proof.
  intros Hi H. unfold idx, upd. destruct (0 <=? j) eqn:E; zbool; [|done].
  apply list_lookup_insert_ne. lia.
Qed.

Lemma zlen_upd {A} (l : list A) i (a : A) : zlen (upd l i a) = zlen l.
Proof. unfold zlen, upd. by rewrite length_insert. Qed.

Lemma idx_ext {A} (l1 l2 : list A) :
  zlen l1 = zlen l2 → (∀ i, 0 ≤ i < zlen l1 → idx l1 i = idx l2 i) → l1 = l2.
Proof.
  intros Hlen H. apply list_eq. intros k.
  destruct (decide (Z.of_nat k < zlen l1)) as [Hk|Hk].
  - specialize (H (Z.of_nat k)). unfold idx in H.
    destruct (0 <=? Z.of_nat k) eqn:E; zbool; [|lia].
    rewrite Nat2Z.id in H. apply H. unfold zlen in *. lia.
  - unfold zlen in *. rewrite !lookup_ge_None_2 by lia. done.
Qed.

Lemma zlen_nonneg {A} (l : list A) : 0 ≤ zlen l.
Proof. unfold zlen. lia. Qed.

Lemma zlen_app {A} (a b : list A) : zlen (a ++ b) = zlen a + zlen b.
Proof. unfold zlen. rewrite length_app. lia. Qed.
Lemma zlen_cons {A} (x : A) l : zlen (x :: l) = zlen l + 1.
Proof. unfold zlen. cbn. lia. Qed.
Lemma zlen_nil {A} : zlen (@nil A) = 0.
Proof. done. Qed.

Lemma u64_small z : is_u64 z → u64 z = z.
Proof. intros H. apply Z.mod_small. exact H. Qed.

Lemma u64_range z : is_u64 (u64 z).
Proof. unfold is_u64, u64. apply Z.mod_pos_bound. lia. Qed.

Lemma u64_add_l a b : u64 (u64 a + b) = u64 (a + b).
Proof. unfold u64. by rewrite Zplus_mod_idemp_l. Qed.

Lemma u64_sub_add a b : is_u64 a → u64 (u64 (a - b) + b) = a.
Proof.
  intros H. rewrite u64_add_l. replace (a - b + b) with a by lia.
  by apply u64_small.
Qed.

Lemma u64_add_sub a b : is_u64 a → u64 (u64 (a + b) - b) = a.
Proof.
  intros H. unfold u64. rewrite Zminus_mod_idemp_l.
  replace (a + b - b) with a by lia. by apply Z.mod_small.
Qed.

Lemma existsb_map {A B} (f : B → bool) (g : A → B) l :
  existsb f (map g l) = existsb (λ a, f (g a)) l.
Proof. induction l as [|a l IH]; cbn; [done|]. by rewrite IH. Qed.

Lemma forallb_map {A B} (f : B → bool) (g : A → B) l :
  forallb f (map g l) = forallb (λ a, f (g a)) l.
Proof. induction l as [|a l IH]; cbn; [done|]. by rewrite IH. Qed.

Lemma forallb_ext {A} (f g : A → bool) l :
  (∀ a, f a = g a) → forallb f l = forallb g l.
Proof. intros H. induction l as [|a l IH]; cbn; [done|]. by rewrite IH, H. Qed.

Lemma filter_all {A} (P : A → Prop) `{∀ x, Decision (P x)} (l : list A) : (∀ x, x ∈ l → P x) → filter P l = l.
Proof.
  induction l as [|x l IH]; intros Hl; [done|]. rewrite filter_cons_True by (apply Hl; left).
  f_equal. apply IH. intros y Hy. apply Hl. by right.
Qed.

Lemma filter_none {A} (P : A → Prop) `{∀ x, Decision (P x)} (l : list A) : (∀ x, x ∈ l → ¬ P x) → filter P l = [].
Proof.
  induction l as [|x l IH]; intros Hl; [done|]. rewrite filter_cons_False by (apply Hl; left).
  apply IH. intros y Hy. apply Hl. by right.
Qed.

#[export] Hint Rewrite @zlen_upd : drip.
#[export] Hint Resolve u64_range zlen_nonneg : drip.

(** Disjoint bit fields. *)
Lemma lor_disjoint k a p : 0 ≤ k → a mod 2 ^ k = 0 → 0 ≤ p < 2 ^ k → Z.lor a p = a + p.
Proof.
  intros Hk Ha Hp. assert (Z.land a p = 0) as H0.
  { replace a with (Z.shiftl (a / 2 ^ k) k)
      by (rewrite Z.shiftl_mul_pow2 by lia; pose proof (Z.div_mod a (2 ^ k)); lia).
    apply Z.bits_inj'. intros n Hn. rewrite Z.land_spec, Z.bits_0.
    destruct (decide (n < k)); [by rewrite Z.shiftl_spec_low by lia|].
    replace p with (p mod 2 ^ k) by (apply Z.mod_small; lia).
    rewrite Z.mod_pow2_bits_high by lia. apply andb_false_r. }
  rewrite <- Z.lxor_lor by done. by rewrite Z.add_nocarry_lxor.
Qed.
