(* ===== verification/Locks.v ===== *)
(** * Spinlocks, atomic counters and the interrupt flag

    Models klibc/lock.h, klibc/lock.c and the routines of asm/locks.asm they
    call.  A lock is its [lock_dat] word; the three name fields of [lock_t]
    are written for diagnostics only and never read by the kernel's logic.
    The code that holds the processor is the only one that runs, so a spin on
    a taken lock never ends: it is [Deadlock]. *)

From S2P Require Import Prelude.

(** The processor state that lock.c touches, and the messages the code prints
    (by their format string). *)
Record cpu : Type := mk_cpu {
  if_flag : bool;
  console : list string
}.

(** [spinlock_lock]: [lock bts], and spin when the bit was already set. *)
Definition spinlock_lock (lock_dat : Z) : res Z :=
  if Z.testbit lock_dat 0 then Crash Deadlock else Ok (Z.lor lock_dat 1).

(** [spinlock_unlock]: [lock btr]. *)
Definition spinlock_unlock (lock_dat : Z) : Z := Z.ldiff lock_dat 1.

(** [spinlock_check_and_lock]: the old bit, and the word with the bit set. *)
Definition spinlock_check_and_lock (lock_dat : Z) : Z * Z :=
  (if Z.testbit lock_dat 0 then 1 else 0, Z.lor lock_dat 1).

(** [atomic_inc]/[atomic_dec]: the new word, and whether it is nonzero (the
    complement of ZF). *)
Definition atomic_inc (data : Z) : Z * Z :=
  let r := u32 (data + 1) in (if r =? 0 then 0 else 1, r).
Definition atomic_dec (data : Z) : Z * Z :=
  let r := u32 (data - 1) in (if r =? 0 then 0 else 1, r).

(** [check_interrupts]: bit 9 of RFLAGS. *)
Definition check_interrupts (c : cpu) : Z := if if_flag c then 1 else 0.

(** [interrupt_lock]: save the flag, then [cli]. *)
Definition interrupt_lock (c : cpu) : Z * cpu :=
  (check_interrupts c, mk_cpu false (console c)).

(** [interrupt_unlock]: [sti] when the saved state had interrupts on. *)
Definition interrupt_unlock (state : Z) (c : cpu) : cpu :=
  if state =? 0 then c else mk_cpu true (console c).

(** Printing a message. *)
Definition say (msg : string) (c : cpu) : cpu :=
  mk_cpu (if_flag c) (console c ++ [msg]).

Definition unlocked (lock_dat : Z) : Prop := Z.testbit lock_dat 0 = false.

#[export] Instance unlocked_dec l : Decision (unlocked l).
Proof. unfold unlocked. apply _. Defined.

Lemma lock_unlock l : unlocked l → spinlock_unlock (Z.lor l 1) = l.
Proof.
  unfold unlocked, spinlock_unlock. intros H. apply Z.bits_inj'. intros n Hn.
  rewrite Z.ldiff_spec, Z.lor_spec.
  destruct (decide (n = 0)) as [->|Hne].
  - by rewrite H.
  - assert (Z.testbit 1 n = false) as ->.
    { apply (Z.bits_above_log2 1 n); simpl; lia. }
    by rewrite orb_false_r, andb_true_r.
Qed.

Lemma spinlock_lock_free l : unlocked l → spinlock_lock l = Ok (Z.lor l 1).
Proof. unfold unlocked, spinlock_lock. by intros ->. Qed.

Lemma spinlock_lock_held l : spinlock_lock (Z.lor l 1) = Crash Deadlock.
Proof. unfold spinlock_lock. rewrite Z.lor_spec. by rewrite orb_true_r. Qed.

Lemma interrupt_lock_unlock c :
  let '(st, c') := interrupt_lock c in interrupt_unlock st c' = c.
Proof. destruct c as [[] cs]; reflexivity. Qed.

Lemma atomic_dec_inc n :
  is_u32 n → n + 1 < U32_MOD → snd (atomic_dec (snd (atomic_inc n))) = n.
Proof.
  unfold is_u32, atomic_dec, atomic_inc, u32. simpl. intros H1 H2.
  rewrite (Z.mod_small (n + 1)) by lia. rewrite Z.mod_small; lia.
Qed.
