(* ===== verification/Pmm.v ===== *)
(** * The physical memory manager (mm/pmm.c)

    The allocator keeps one bit per 4 KiB page in a bitmap ([1] = in use) and
    three byte counters.  The state is the file's globals; every operation of
    the file is a definition below.  [pmm_memory_setup] is modelled up to the
    point where the bitmap is complete (lines 39-92); the address-space switch
    that follows it belongs to the virtual memory manager. *)

From S2P Require Import Prelude Locks.

Record pmm_state : Type := mk_pmm {
  bitmap : list Z;
  bitmap_max_page : Z;
  total_memory : Z;
  used_memory : Z;
  available_memory : Z;
  pmm_lock : Z;
  cur_pain : Z;
  pmm_cpu : cpu
}.

Definition set_bitmap (b : list Z) (s : pmm_state) : pmm_state :=
  mk_pmm b (bitmap_max_page s) (total_memory s) (used_memory s)
    (available_memory s) (pmm_lock s) (cur_pain s) (pmm_cpu s).
Definition set_counters (used avail : Z) (s : pmm_state) : pmm_state :=
  mk_pmm (bitmap s) (bitmap_max_page s) (total_memory s) used avail
    (pmm_lock s) (cur_pain s) (pmm_cpu s).
Definition set_pmm_lock (l : Z) (s : pmm_state) : pmm_state :=
  mk_pmm (bitmap s) (bitmap_max_page s) (total_memory s) (used_memory s)
    (available_memory s) l (cur_pain s) (pmm_cpu s).
Definition set_pmm_cpu (c : cpu) (s : pmm_state) : pmm_state :=
  mk_pmm (bitmap s) (bitmap_max_page s) (total_memory s) (used_memory s)
    (available_memory s) (pmm_lock s) (cur_pain s) c.

(** ** Bits *)

Definition pmm_set_bit (page : Z) : stM pmm_state unit :=
  s ← get;
  b ← of_opt (idx (bitmap s) (page / 8));
  modify (set_bitmap (upd (bitmap s) (page / 8) (Z.lor b (Z.shiftl 1 (page mod 8))))).

Definition pmm_clear_bit (page : Z) : stM pmm_state unit :=
  s ← get;
  b ← of_opt (idx (bitmap s) (page / 8));
  modify (set_bitmap (upd (bitmap s) (page / 8)
            (Z.land b (Z.lnot (Z.shiftl 1 (page mod 8)))))).

Definition pmm_get_bit (page : Z) : stM pmm_state Z :=
  s ← get;
  b ← of_opt (idx (bitmap s) (page / 8));
  mret (Z.land b (Z.shiftl 1 (page mod 8))).

(** ** Searching for a run of free pages *)

Fixpoint find_free_page_loop (n : nat) (i found_pages first_page pages : Z)
  : stM pmm_state Z :=
  match n with
  | O => crashM Hang
  | S n' =>
      b ← pmm_get_bit i;
      let '(found_pages, first_page) :=
        if b =? 0
        then (u64 (found_pages + 1), if first_page =? 0 then i else first_page)
        else (0, 0) in
      if found_pages =? pages then mret first_page
      else find_free_page_loop n' (i + 1) found_pages first_page pages
  end.

Definition find_free_page (pages : Z) : stM pmm_state Z :=
  s ← get;
  find_free_page_loop (Z.to_nat (bitmap_max_page s)) 0 0 0 pages.

(** ** Allocation *)

Definition pmm_enter : stM pmm_state Z :=
  s ← get;
  let '(state, c) := interrupt_lock (pmm_cpu s) in
  match spinlock_lock (pmm_lock s) with
  | Ok l => modify (λ s, set_pmm_lock l (set_pmm_cpu c s)) ;; mret state
  | Crash k => crashM k
  end.

Definition pmm_leave (state : Z) : stM pmm_state unit :=
  modify (λ s, set_pmm_cpu (interrupt_unlock state (pmm_cpu s))
                 (set_pmm_lock (spinlock_unlock (pmm_lock s)) s)).

Definition pmm_say (msg : string) : stM pmm_state unit :=
  modify (λ s, set_pmm_cpu (say msg (pmm_cpu s)) s).

(** [(size + 0x1000 - 1) / 0x1000] *)
Definition pages_of (size : Z) : Z := u64 (size + PAGE - 1) / PAGE.

Definition pmm_alloc (size : Z) : stM pmm_state Z :=
  state ← pmm_enter;
  let pages := pages_of size in
  free_page ← find_free_page pages;
  for_loop (Z.to_nat pages) 0 (λ i, pmm_set_bit (u64 (free_page + i))) ;;
  modify (λ s, set_counters (u64 (used_memory s + pages * PAGE))
                 (u64 (available_memory s - pages * PAGE)) s) ;;
  pmm_leave state ;;
  s ← get;
  let addr := u64 (free_page * PAGE) in
  (if (addr <=? cur_pain s) && (cur_pain s <? u64 (addr + size))
   then pmm_say "idot lmao, caller: %lx\n" else mret tt) ;;
  mret addr.

Definition pmm_unalloc (addr size : Z) : stM pmm_state unit :=
  s ← get;
  (if (addr <=? cur_pain s) && (cur_pain s <? u64 (addr + size))
   then pmm_say "idot lmao, caller: %lx\n" else mret tt) ;;
  (if negb (addr mod PAGE =? 0)
   then pmm_say "pmm_unalloc freeing bad address, caller: %lx, addr: %lx\n"
   else mret tt) ;;
  state ← pmm_enter;
  let page := Z.land addr (Z.lnot 4095) / PAGE in
  let pages := pages_of size in
  (if bitmap_max_page s <? u64 (page + pages)
   then pmm_say "REEEEEEEEEEEEEEEEEEEEEEEEEEEEEEEEEEEEEEEEEEEEEEEE\n" ;;
        pmm_say "trying to free bad memory: %lx. Size: %lx\n" ;;
        crashM Hang
   else mret tt) ;;
  for_loop (Z.to_nat pages) 0 (λ i, pmm_clear_bit (u64 (page + i))) ;;
  modify (λ s, set_counters (u64 (used_memory s - pages * PAGE))
                 (u64 (available_memory s + pages * PAGE)) s) ;;
  pmm_leave state.

Definition pmm_get_free_mem : stM pmm_state Z := gets available_memory.
Definition pmm_get_used_mem : stM pmm_state Z := gets used_memory.
Definition pmm_get_total_mem : stM pmm_state Z := gets total_memory.

(** ** Building the bitmap at boot *)

(** An entry of the bootloader's memory map (stivale.h). *)
Record e820_entry := mk_e820 { e_addr : Z; e_len : Z; e_type : Z }.
Definition STIVALE_MEMORY_AVAILABLE : Z := 1.

(** [ROUND_UP(N, S)] of klibc/math.h, at type [uint64_t]. *)
Definition ROUND_UP (N S : Z) : Z := u64 (u64 (N + S - 1) / S * S).

(** Lines 68-79: free every page of the usable blocks above 1 MiB. *)
Fixpoint setup_blocks (mmap : list e820_entry) : stM pmm_state unit :=
  match mmap with
  | [] => mret tt
  | e :: mmap' =>
      let rounded_block_start := ROUND_UP (e_addr e) PAGE in
      let rounded_block_end := ROUND_UP (u64 (e_addr e + e_len e)) PAGE in
      let rounded_block_len := u64 (rounded_block_end - rounded_block_start) in
      (if (e_type e =? STIVALE_MEMORY_AVAILABLE) && (1048576 <=? e_addr e)
       then for_loop (Z.to_nat (rounded_block_len / PAGE)) 0
              (λ i, pmm_clear_bit (u64 (rounded_block_start / PAGE + i))) ;;
            modify (λ s, set_counters (used_memory s)
                           (u64 (available_memory s + rounded_block_len)) s)
       else mret tt) ;;
      setup_blocks mmap'
  end.

Definition set_total (t : Z) (s : pmm_state) : pmm_state :=
  mk_pmm (bitmap s) (bitmap_max_page s) t (used_memory s)
    (available_memory s) (pmm_lock s) (cur_pain s) (pmm_cpu s).
Definition set_max_page (m : Z) (s : pmm_state) : pmm_state :=
  mk_pmm (bitmap s) m (total_memory s) (used_memory s)
    (available_memory s) (pmm_lock s) (cur_pain s) (pmm_cpu s).

Definition KERNEL_VMA_OFFSET : Z := 18446744071562067968. (* 0xFFFFFFFF80000000 *)

(** The bitmap starts at the first page after the kernel image, or after the
    bootloader's information block when that lies higher (lines 43-48). *)
Definition bitmap_address (kernel_end info info_size : Z) : Z :=
  let b := Z.land (u64 (kernel_end + PAGE - 1)) (U64_MOD - PAGE) in
  if b <? u64 (info + info_size) then u64 (info + info_size) else b.

(** Bytes of the bitmap (lines 56-59); [start] and [end_] are the first and
    last entries of the memory map. *)
Definition bitmap_size (start end_ : e820_entry) : Z :=
  let mem_length := ROUND_UP (u64 (u64 (e_addr end_ + e_len end_) - e_addr start)) PAGE in
  u64 (mem_length / PAGE + 8 - 1) / 8.

Definition pmm_setup_bitmap (mmap : list e820_entry)
    (kernel_start kernel_end info info_size : Z) : stM pmm_state unit :=
  start ← of_opt (mmap !! 0%nat);
  end_ ← of_opt (mmap !! (length mmap - 1)%nat);
  let bitmap_bytes := bitmap_size start end_ in
  let bitmap_at := bitmap_address kernel_end info info_size in
  modify (set_bitmap (replicate (Z.to_nat bitmap_bytes) 255)) ;;
  setup_blocks mmap ;;
  modify (λ s, set_total (available_memory s) s) ;;
  let kernel_bitmap_len := u64 (u64 (bitmap_at + bitmap_bytes) - kernel_start) in
  let kernel_bitmap_start_page := u64 (kernel_start - KERNEL_VMA_OFFSET) / PAGE in
  let kernel_bitmap_pages := u64 (kernel_bitmap_len + PAGE - 1) / PAGE in
  for_loop (Z.to_nat kernel_bitmap_pages) 0
    (λ i, pmm_set_bit (u64 (kernel_bitmap_start_page + i))) ;;
  modify (set_max_page (u64 (bitmap_bytes * 8))).

(** * Abstraction: the set of pages in use *)

Definition page_used (s : pmm_state) (p : Z) : bool :=
  match idx (bitmap s) (p / 8) with
  | Some b => Z.testbit b (p mod 8)
  | None => true
  end.

(** Pages [p, p + n) exist and are free. *)
Definition run_free (s : pmm_state) (p n : Z) : Prop :=
  0 ≤ p ∧ p + n ≤ bitmap_max_page s ∧
  ∀ k, p ≤ k < p + n → page_used s k = false.

(** What the allocator promises: the lowest run of [n] free pages. *)
Definition first_fit (s : pmm_state) (n p : Z) : Prop :=
  run_free s p n ∧ ∀ q, q < p → ¬ run_free s q n.

Record pmm_wf (s : pmm_state) : Prop := mk_pmm_wf {
  wf_bytes : Forall is_u8 (bitmap s);
  wf_max : bitmap_max_page s = 8 * zlen (bitmap s);
  wf_addr : bitmap_max_page s * PAGE < U64_MOD;
  wf_page0 : page_used s 0 = true;
  wf_used : is_u64 (used_memory s);
  wf_avail : is_u64 (available_memory s);
  wf_total : is_u64 (total_memory s);
  wf_sum : u64 (used_memory s + available_memory s) = total_memory s
}.

(** ** Bit-level lemmas *)

Lemma testbit_pow2 k i : 0 ≤ k → 0 ≤ i → Z.testbit (Z.shiftl 1 k) i = (i =? k).
Proof.
  intros Hk Hi. rewrite Z.shiftl_1_l. destruct (i =? k) eqn:E; zbool.
  - subst. by apply Z.pow2_bits_true.
  - apply Z.pow2_bits_false. lia.
Qed.

Lemma land_pow2_zero b k :
  0 ≤ k → (Z.land b (Z.shiftl 1 k) =? 0) = negb (Z.testbit b k).
Proof.
  intros Hk. rewrite Z.shiftl_1_l. destruct (Z.testbit b k) eqn:E; simpl.
  - apply Z.eqb_neq. intros H.
    assert (Z.testbit (Z.land b (2 ^ k)) k = true) as Ht.
    { by rewrite Z.land_spec, E, Z.pow2_bits_true. }
    rewrite H, Z.bits_0 in Ht. done.
  - apply Z.eqb_eq. apply Z.bits_inj'. intros n Hn.
    rewrite Z.land_spec, Z.bits_0. destruct (decide (n = k)) as [->|Hne].
    + by rewrite E.
    + rewrite Z.pow2_bits_false by lia. by rewrite andb_false_r.
Qed.

Lemma is_u8_testbit b : is_u8 b ↔ 0 ≤ b ∧ ∀ n, 8 ≤ n → Z.testbit b n = false.
Proof.
  unfold is_u8. split.
  - intros [H1 H2]. split; [done|]. intros n Hn.
    destruct (decide (b = 0)) as [->|Hb]; [by rewrite Z.bits_0|].
    apply Z.bits_above_log2; [lia|].
    assert (Z.log2 b < 8) by (apply Z.log2_lt_pow2; simpl; lia). lia.
  - intros [H1 H2]. split; [done|].
    destruct (decide (b < 256)) as [|Hb]; [done|].
    assert (8 ≤ Z.log2 b) by (apply Z.log2_le_pow2; simpl; lia).
    pose proof (Z.bit_log2 b ltac:(lia)) as Hbit. by rewrite H2 in Hbit.
Qed.

Lemma is_u8_lor b k : is_u8 b → 0 ≤ k < 8 → is_u8 (Z.lor b (Z.shiftl 1 k)).
Proof.
  rewrite !is_u8_testbit. intros [Hb Ht] Hk. split.
  - apply Z.lor_nonneg. split; [done|]. apply Z.shiftl_nonneg. lia.
  - intros n Hn. rewrite Z.lor_spec, Ht, testbit_pow2 by lia.
    destruct (n =? k) eqn:E; zbool; [lia|done].
Qed.

Lemma is_u8_land b m : is_u8 b → is_u8 (Z.land b m).
Proof.
  rewrite !is_u8_testbit. intros [Hb Ht]. split.
  - apply Z.land_nonneg. by left.
  - intros n Hn. by rewrite Z.land_spec, Ht.
Qed.

Lemma page_index_ne p q : p ≠ q → p / 8 = q / 8 → p mod 8 ≠ q mod 8.
Proof. intros H1 H2 H3. apply H1. dlia. Qed.

(** ** The three bit operations *)

Section bits.
Context (s : pmm_state) (Hb : Forall is_u8 (bitmap s)).

Lemma bitmap_byte p :
  0 ≤ p < 8 * zlen (bitmap s) →
  ∃ b, idx (bitmap s) (p / 8) = Some b ∧ is_u8 b.
Proof.
  intros Hp. destruct (idx_lt (bitmap s) (p / 8)) as [b Hi]; [dlia|].
  exists b. split; [done|]. apply idx_Some in Hi as [_ Hl].
  by eapply Forall_lookup_1.
Qed.

Lemma pmm_get_bit_ok p :
  0 ≤ p < 8 * zlen (bitmap s) →
  ∃ b, pmm_get_bit p s = Ok (b, s) ∧ (b =? 0) = negb (page_used s p).
Proof.
  intros Hp. destruct (bitmap_byte p Hp) as (b & Hi & _).
  unfold pmm_get_bit, page_used, mbind, stM_bind, get. cbn. rewrite Hi. cbn.
  eexists. split; [done|]. apply land_pow2_zero. dlia.
Qed.

Lemma page_used_upd p q b :
  0 ≤ p < 8 * zlen (bitmap s) →
  page_used (set_bitmap (upd (bitmap s) (p / 8) b) s) q =
    if q / 8 =? p / 8 then Z.testbit b (q mod 8) else page_used s q.
Proof.
  intros Hp. unfold page_used. cbn [bitmap set_bitmap].
  destruct (q / 8 =? p / 8) eqn:E; zbool.
  - rewrite E, idx_upd_eq; [done|dlia].
  - rewrite idx_upd_ne; [done|dlia|congruence].
Qed.

Lemma pmm_set_bit_ok p :
  0 ≤ p < 8 * zlen (bitmap s) →
  ∃ bm, pmm_set_bit p s = Ok (tt, set_bitmap bm s) ∧
    zlen bm = zlen (bitmap s) ∧ Forall is_u8 bm ∧
    ∀ q, page_used (set_bitmap bm s) q = (page_used s q || (q =? p))%bool.
Proof.
  intros Hp. destruct (bitmap_byte p Hp) as (b & Hi & Hu).
  unfold pmm_set_bit, mbind, stM_bind, get. cbn. rewrite Hi. cbn.
  eexists. split; [reflexivity|]. split; [apply zlen_upd|]. split.
  { apply Forall_insert; [done|]. apply is_u8_lor; [done|dlia]. }
  intros q. rewrite page_used_upd by done.
  destruct (q / 8 =? p / 8) eqn:E; zbool.
  - rewrite Z.lor_spec, testbit_pow2 by dlia.
    unfold page_used. rewrite E, Hi. f_equal.
    destruct (q =? p) eqn:E2; zbool.
    + subst. apply Z.eqb_refl.
    + apply Z.eqb_neq. by apply page_index_ne.
  - destruct (q =? p) eqn:E2; zbool; [congruence|]. by rewrite orb_false_r.
Qed.

Lemma pmm_clear_bit_ok p :
  0 ≤ p < 8 * zlen (bitmap s) →
  ∃ bm, pmm_clear_bit p s = Ok (tt, set_bitmap bm s) ∧
    zlen bm = zlen (bitmap s) ∧ Forall is_u8 bm ∧
    ∀ q, page_used (set_bitmap bm s) q = (page_used s q && negb (q =? p))%bool.
Proof.
  intros Hp. destruct (bitmap_byte p Hp) as (b & Hi & Hu).
  unfold pmm_clear_bit, mbind, stM_bind, get. cbn -[Z.lnot]. rewrite Hi. cbn -[Z.lnot].
  eexists. split; [reflexivity|]. split; [apply zlen_upd|]. split.
  { apply Forall_insert; [done|]. by apply is_u8_land. }
  intros q. rewrite page_used_upd by done.
  destruct (q / 8 =? p / 8) eqn:E; zbool.
  - rewrite Z.land_spec, Z.lnot_spec, testbit_pow2 by dlia.
    unfold page_used. rewrite E, Hi. f_equal. f_equal.
    destruct (q =? p) eqn:E2; zbool.
    + subst. apply Z.eqb_refl.
    + apply Z.eqb_neq. by apply page_index_ne.
  - destruct (q =? p) eqn:E2; zbool; [congruence|]. by rewrite andb_true_r.
Qed.

End bits.

(** ** The search *)

(** State of the scan before page [i]: a run of [found] free pages ends at
    [i - 1], it cannot be extended to the left, and no run of [n] pages ends
    at or before [i]. *)
Definition scan_inv (s : pmm_state) (n i found first : Z) : Prop :=
  0 ≤ found < n ∧ found ≤ i ∧
  first = (if found =? 0 then 0 else i - found) ∧
  (∀ k, i - found ≤ k < i → page_used s k = false) ∧
  (0 < i → found < i ∧ page_used s (i - found - 1) = true) ∧
  (∀ q, q + n ≤ i → ¬ run_free s q n).

Lemma scan_step_free s n i found first :
  scan_inv s n i found first → page_used s 0 = true →
  0 ≤ i < bitmap_max_page s → page_used s i = false → found + 1 < n →
  scan_inv s n (i + 1) (found + 1) (if first =? 0 then i else first).
Proof.
  intros (H1 & H2 & H3 & H4 & H5 & H6) H0 Hi Hf Hn.
  assert (0 < i) as Hpos.
  { destruct (decide (i = 0)) as [->|]; [congruence|lia]. }
  destruct (H5 Hpos) as [Hlt Hu].
  split_and!; try lia.
  - destruct (found + 1 =? 0) eqn:E1; zbool; [lia|].
    destruct (found =? 0) eqn:E2; zbool.
    + subst. rewrite Z.eqb_refl. lia.
    + destruct (first =? 0) eqn:E3; zbool; lia.
  - intros k Hk. destruct (decide (k = i)) as [->|]; [done|]. apply H4. lia.
  - intros _. split; [lia|].
    by replace (i + 1 - (found + 1) - 1) with (i - found - 1) by lia.
  - intros q Hq Hrun. destruct (decide (q + n ≤ i)) as [|Hgt]; [by eapply H6|].
    destruct Hrun as (Hq0 & _ & Hrun).
    rewrite Hrun in Hu by lia. done.
Qed.

Lemma scan_step_used s n i found first :
  scan_inv s n i found first → 0 ≤ i → page_used s i = true →
  scan_inv s n (i + 1) 0 0.
Proof.
  intros (H1 & H2 & H3 & H4 & H5 & H6) Hi Hu.
  split; [lia|]. split; [lia|]. split; [done|]. split; [intros; lia|]. split.
  - intros _. split; [lia|]. by replace (i + 1 - 0 - 1) with i by lia.
  - intros q Hq Hrun. destruct (decide (q + n ≤ i)) as [|Hgt]; [by eapply H6|].
    destruct Hrun as (Hq0 & _ & Hrun). rewrite Hrun in Hu by lia. done.
Qed.

Lemma find_free_page_loop_ok s pages fuel : ∀ i found first,
  pmm_wf s → 0 < pages → i + Z.of_nat fuel = bitmap_max_page s →
  0 ≤ i → scan_inv s pages i found first →
  (∃ p, find_free_page_loop fuel i found first pages s = Ok (p, s) ∧
        first_fit s pages p) ∨
  (find_free_page_loop fuel i found first pages s = Crash Hang ∧
   ∀ q, ¬ run_free s q pages).
Proof.
  induction fuel as [|fuel IH]; intros i found first Hwf Hp Hi Hi0 Hinv.
  - right. split; [done|]. intros q Hq. destruct Hinv as (_ & _ & _ & _ & _ & H6).
    apply (H6 q); [|done]. destruct Hq as (_ & Hq & _). lia.
  - destruct (pmm_get_bit_ok s (wf_bytes _ Hwf) i) as (b & Hb & Hu).
    { rewrite <- (wf_max _ Hwf). lia. }
    cbn [find_free_page_loop].
    rewrite (bind_ok _ _ _ _ _ Hb), Hu.
    pose proof (wf_addr _ Hwf). pose proof Hinv as (H1 & H2 & H3 & H4 & H5 & H6).
    destruct (page_used s i) eqn:E; cbn [negb]; cbv beta iota zeta.
    + destruct (0 =? pages) eqn:E2; zbool; [lia|].
      apply IH; [done|done|lia|lia|]. by eapply scan_step_used.
    + assert (u64 (found + 1) = found + 1) as ->
        by (apply u64_small; unfold is_u64; lia).
      destruct (found + 1 =? pages) eqn:E2; zbool.
      * left. eexists. split; [reflexivity|].
        assert (0 < i) as Hpos.
        { destruct (decide (i = 0)) as [->|]; [|lia].
          pose proof (wf_page0 _ Hwf). congruence. }
        destruct (H5 Hpos) as [Hlt _].
        assert ((if first =? 0 then i else first) = i + 1 - pages) as ->.
        { destruct (found =? 0) eqn:E3; zbool; subst first.
          - rewrite Z.eqb_refl. lia.
          - destruct (i - found =? 0) eqn:E4; zbool; lia. }
        split.
        -- split_and!; [lia|lia|]. intros k Hk.
           destruct (decide (k = i)) as [->|]; [done|]. apply H4. lia.
        -- intros q Hq. apply H6. lia.
      * apply IH; [done|done|lia|lia|].
        apply scan_step_free; [done|by apply wf_page0|lia|done|lia].
Qed.

Lemma scan_inv_start s n : 0 < n → scan_inv s n 0 0 0.
Proof.
  intros Hn. split; [lia|]. split; [done|]. split; [done|].
  split; [intros; lia|]. split; [intros; lia|]. intros q Hq (Hq0 & _). lia.
Qed.

Lemma find_free_page_ok s pages :
  pmm_wf s → 0 < pages →
  (∃ p, find_free_page pages s = Ok (p, s) ∧ first_fit s pages p) ∨
  (find_free_page pages s = Crash Hang ∧ ∀ q, ¬ run_free s q pages).
Proof.
  intros Hwf Hp. unfold find_free_page, mbind, stM_bind, get. cbn.
  apply find_free_page_loop_ok; [done|done| |lia|by apply scan_inv_start].
  pose proof (wf_max _ Hwf). pose proof (zlen_nonneg (bitmap s)). lia.
Qed.

(** ** Marking a range *)

Lemma set_range_ok s p n :
  Forall is_u8 (bitmap s) → 0 ≤ p → 0 ≤ n → p + n ≤ 8 * zlen (bitmap s) →
  8 * zlen (bitmap s) < U64_MOD →
  ∃ bm, for_loop (Z.to_nat n) 0 (λ i, pmm_set_bit (u64 (p + i))) s
          = Ok (tt, set_bitmap bm s) ∧
    zlen bm = zlen (bitmap s) ∧ Forall is_u8 bm ∧
    ∀ q, page_used (set_bitmap bm s) q =
         (page_used s q || ((p <=? q) && (q <? p + n)))%bool.
Proof.
  intros Hb Hp Hn Hmax Hlim.
  destruct (for_loop_inv (λ j t, ∃ bm, t = set_bitmap bm s ∧
      zlen bm = zlen (bitmap s) ∧ Forall is_u8 bm ∧
      ∀ q, page_used t q = (page_used s q || ((p <=? q) && (q <? p + j)))%bool)
      (λ i, pmm_set_bit (u64 (p + i))) (Z.to_nat n) 0 s)
    as (s' & Hl & bm & -> & Hlen & Hu8 & Hq).
  - exists (bitmap s). split_and!; [by destruct s|done|done|].
    intros q. destruct (p <=? q) eqn:E1, (q <? p + 0) eqn:E2; zbool;
      rewrite ?orb_false_r; try done; lia.
  - intros j t Hj (bm & -> & Hlen & Hu8 & Hq).
    rewrite u64_small by (unfold is_u64; lia).
    destruct (pmm_set_bit_ok (set_bitmap bm s) Hu8 (p + j))
      as (bm' & Hs & Hlen' & Hu8' & Hq').
    { cbn. lia. }
    eexists. split; [exact Hs|]. exists bm'. split_and!; [done|by rewrite Hlen'|done|].
    intros q. rewrite Hq', Hq, <- orb_assoc. f_equal.
    destruct (p <=? q) eqn:E1, (q <? p + j) eqn:E2, (q =? p + j) eqn:E3,
      (q <? p + (j + 1)) eqn:E4; zbool; try done; lia.
  - exists bm. split_and!; [done|done|done|]. intros q. rewrite Hq.
    by rewrite Z.add_0_l, Z2Nat.id by lia.
Qed.

Lemma clear_range_ok s p n :
  Forall is_u8 (bitmap s) → 0 ≤ p → 0 ≤ n → p + n ≤ 8 * zlen (bitmap s) →
  8 * zlen (bitmap s) < U64_MOD →
  ∃ bm, for_loop (Z.to_nat n) 0 (λ i, pmm_clear_bit (u64 (p + i))) s
          = Ok (tt, set_bitmap bm s) ∧
    zlen bm = zlen (bitmap s) ∧ Forall is_u8 bm ∧
    ∀ q, page_used (set_bitmap bm s) q =
         (page_used s q && negb ((p <=? q) && (q <? p + n)))%bool.
Proof.
  intros Hb Hp Hn Hmax Hlim.
  destruct (for_loop_inv (λ j t, ∃ bm, t = set_bitmap bm s ∧
      zlen bm = zlen (bitmap s) ∧ Forall is_u8 bm ∧
      ∀ q, page_used t q = (page_used s q && negb ((p <=? q) && (q <? p + j)))%bool)
      (λ i, pmm_clear_bit (u64 (p + i))) (Z.to_nat n) 0 s)
    as (s' & Hl & bm & -> & Hlen & Hu8 & Hq).
  - exists (bitmap s). split_and!; [by destruct s|done|done|].
    intros q. destruct (p <=? q) eqn:E1, (q <? p + 0) eqn:E2; zbool;
      cbn; rewrite ?andb_true_r; try done; lia.
  - intros j t Hj (bm & -> & Hlen & Hu8 & Hq).
    rewrite u64_small by (unfold is_u64; lia).
    destruct (pmm_clear_bit_ok (set_bitmap bm s) Hu8 (p + j))
      as (bm' & Hs & Hlen' & Hu8' & Hq').
    { cbn. lia. }
    eexists. split; [exact Hs|]. exists bm'. split_and!; [done|by rewrite Hlen'|done|].
    intros q. rewrite Hq', Hq, <- andb_assoc. f_equal.
    destruct (p <=? q) eqn:E1, (q <? p + j) eqn:E2, (q =? p + j) eqn:E3,
      (q <? p + (j + 1)) eqn:E4; zbool; try done; lia.
  - exists bm. split_and!; [done|done|done|]. intros q. rewrite Hq.
    by rewrite Z.add_0_l, Z2Nat.id by lia.
Qed.

(** The bitmap is determined by the pages it marks. *)
Lemma bitmap_ext s bm1 bm2 :
  Forall is_u8 bm1 → Forall is_u8 bm2 → zlen bm1 = zlen bm2 →
  (∀ q, 0 ≤ q < 8 * zlen bm1 →
        page_used (set_bitmap bm1 s) q = page_used (set_bitmap bm2 s) q) →
  bm1 = bm2.
Proof.
  intros H1 H2 Hlen Hq. apply idx_ext; [done|]. intros i Hi.
  destruct (idx_lt bm1 i Hi) as [b1 Hb1].
  destruct (idx_lt bm2 i) as [b2 Hb2]; [lia|].
  rewrite Hb1, Hb2. f_equal.
  assert (is_u8 b1 ∧ is_u8 b2) as [Hu1 Hu2].
  { apply idx_Some in Hb1 as [_ Hb1], Hb2 as [_ Hb2].
    split; [exact (Forall_lookup_1 _ _ _ _ H1 Hb1)|exact (Forall_lookup_1 _ _ _ _ H2 Hb2)]. }
  apply is_u8_testbit in Hu1 as [? Hu1], Hu2 as [? Hu2].
  apply Z.bits_inj'. intros n Hn.
  destruct (decide (n < 8)) as [Hn8|]; [|rewrite Hu1, Hu2; [done|lia|lia]].
  specialize (Hq (8 * i + n)). unfold page_used in Hq. cbn in Hq.
  replace ((8 * i + n) / 8) with i in Hq by dlia.
  replace ((8 * i + n) mod 8) with n in Hq by dlia.
  rewrite Hb1, Hb2 in Hq. apply Hq. lia.
Qed.

(** ** Entering and leaving the critical section *)

Lemma pmm_enter_ok s :
  unlocked (pmm_lock s) →
  pmm_enter s = Ok (check_interrupts (pmm_cpu s),
    set_pmm_lock (Z.lor (pmm_lock s) 1)
      (set_pmm_cpu (mk_cpu false (console (pmm_cpu s))) s)).
Proof.
  intros H. unfold pmm_enter. mstep. unfold interrupt_lock.
  rewrite (spinlock_lock_free _ H). reflexivity.
Qed.

Lemma pmm_enter_deadlock s :
  ¬ unlocked (pmm_lock s) → pmm_enter s = Crash Deadlock.
Proof.
  intros H. unfold pmm_enter. mstep. unfold interrupt_lock, spinlock_lock.
  unfold unlocked in H. destruct (Z.testbit _ 0); [done|]. by exfalso.
Qed.

Lemma pages_of_exact size :
  0 ≤ size → size + PAGE - 1 < U64_MOD → pages_of size = (size + PAGE - 1) / PAGE.
Proof. intros H1 H2. unfold pages_of. by rewrite u64_small by (unfold is_u64; lia). Qed.

Lemma pages_of_pos size :
  0 < size → size + PAGE - 1 < U64_MOD → 0 < pages_of size.
Proof. intros H1 H2. rewrite pages_of_exact by lia. dlia. Qed.

Lemma pages_of_page : pages_of PAGE = 1.
Proof. reflexivity. Qed.

(** The state after [n] pages from [p] changed hands: [bm] is the new bitmap,
    [d] the bytes that moved from "available" to "used". *)
Definition pmm_after (s s' : pmm_state) (d : Z) (bm : list Z) : Prop :=
  ∃ msgs, s' = mk_pmm bm (bitmap_max_page s) (total_memory s)
    (u64 (used_memory s + d)) (u64 (available_memory s - d)) (pmm_lock s)
    (cur_pain s) (mk_cpu (if_flag (pmm_cpu s)) (console (pmm_cpu s) ++ msgs)).

Lemma u64_move a b d : u64 (u64 (a + d) + u64 (b - d)) = u64 (a + b).
Proof.
  unfold u64. rewrite <- Zplus_mod. f_equal. lia.
Qed.

Lemma pmm_after_wf s s' d bm :
  pmm_wf s → pmm_after s s' d bm → Forall is_u8 bm →
  zlen bm = zlen (bitmap s) → page_used s' 0 = true → pmm_wf s'.
Proof.
  intros Hwf (msgs & ->) Hu8 Hlen H0. destruct Hwf. split; cbn in *; try done.
  - by rewrite Hlen.
  - apply u64_range.
  - apply u64_range.
  - by rewrite u64_move.
Qed.

(** Both outcomes of an allocation of a positive size. *)
Lemma pmm_alloc_spec s size :
  pmm_wf s → unlocked (pmm_lock s) → 0 < size → size + PAGE - 1 < U64_MOD →
  (∃ p s' bm, pmm_alloc size s = Ok (p * PAGE, s') ∧
     first_fit s (pages_of size) p ∧
     pmm_after s s' (pages_of size * PAGE) bm ∧ pmm_wf s' ∧
     ∀ q, page_used s' q =
          (page_used s q || ((p <=? q) && (q <? p + pages_of size)))%bool) ∨
  (pmm_alloc size s = Crash Hang ∧ ∀ q, ¬ run_free s q (pages_of size)).
Proof.
  intros Hwf Hl H1 H2. pose proof (pages_of_pos size H1 H2) as Hpos.
  set (n := pages_of size) in *.
  unfold pmm_alloc. mrun (pmm_enter_ok s Hl).
  set (s1 := set_pmm_lock _ _).
  assert (pmm_wf s1) as Hwf1 by (destruct Hwf; by split).
  fold n. destruct (find_free_page_ok s1 n Hwf1 Hpos) as [(p & Hf & Hfit)|[Hf Hno]].
  2:{ right. split; [by rewrite (bind_crash _ _ _ _ Hf)|exact Hno]. }
  left. mrun Hf. destruct Hfit as [(Hp0 & Hpm & Hpf) Hmin].
  assert (bitmap_max_page s = 8 * zlen (bitmap s)) as Hm by apply Hwf.
  pose proof (wf_addr _ Hwf) as Ha. cbn in Hpm.
  destruct (set_range_ok s1 p n) as (bm & Hset & Hlen & Hu8 & Hq);
    [apply Hwf|lia|lia|cbn; lia|cbn; lia|].
  mrun Hset. do 3 mstep. cbv zeta.
  rewrite (u64_small (p * PAGE)) by (unfold is_u64; lia).
  match goal with |- context [if ?c then pmm_say _ else _] => destruct c end;
    (eexists p, _, bm; split; [reflexivity|]; split; [done|];
     match goal with |- pmm_after ?a ?b ?d ?e ∧ _ =>
       assert (pmm_after a b d e) as Haft end;
     [unfold pmm_after; cbn; rewrite lock_unlock by done;
      destruct s as [? ? ? ? ? ? ? [[] ?]]; cbn;
      (exists []; by rewrite app_nil_r) || (eexists [_]; reflexivity)|];
     split; [done|]; split;
     [eapply pmm_after_wf; [exact Hwf|exact Haft|exact Hu8|exact Hlen|];
      pose proof (Hq 0) as H0; unfold page_used in H0 |- *; cbn in H0 |- *; rewrite H0;
      pose proof (wf_page0 _ Hwf) as Hz; unfold page_used in Hz; cbn in Hz; by rewrite Hz
     |intros q; exact (Hq q)]).
Qed.

(** An optional diagnostic only extends the console. *)
Lemma pmm_say_if (b : bool) msg s :
  ∃ msgs, (if b then pmm_say msg else mret tt) s =
    Ok (tt, set_pmm_cpu (mk_cpu (if_flag (pmm_cpu s)) (console (pmm_cpu s) ++ msgs)) s).
Proof.
  destruct b.
  - by exists [msg].
  - exists []. destruct s as [? ? ? ? ? ? ? [? ?]]. cbn. by rewrite app_nil_r.
Qed.

Lemma page_of_addr p : 0 ≤ p → Z.land (p * PAGE) (Z.lnot 4095) / PAGE = p.
Proof.
  intros Hp. replace (p * PAGE) with (Z.shiftl p 12) by (rewrite Z.shiftl_mul_pow2; lia).
  replace (Z.land (Z.shiftl p 12) (Z.lnot 4095)) with (Z.shiftl p 12).
  - rewrite Z.shiftl_mul_pow2 by lia. apply Z.div_mul. lia.
  - apply Z.bits_inj'. intros n Hn. rewrite Z.land_spec, Z.lnot_spec by done.
    destruct (decide (n < 12)).
    + rewrite Z.shiftl_spec_low by lia. done.
    + replace 4095 with (Z.ones 12) by done.
      rewrite Z.ones_spec_high by lia. by rewrite andb_true_r.
Qed.

(** Both outcomes of freeing [size] bytes at page [p]. *)
Lemma pmm_unalloc_spec s p size :
  pmm_wf s → unlocked (pmm_lock s) → 0 < p → p < 2 ^ 52 →
  0 ≤ size → size + PAGE - 1 < U64_MOD →
  if decide (p + pages_of size ≤ bitmap_max_page s) then
    ∃ s' bm, pmm_unalloc (p * PAGE) size s = Ok (tt, s') ∧
      pmm_after s s' (- (pages_of size * PAGE)) bm ∧ pmm_wf s' ∧
      ∀ q, page_used s' q =
           (page_used s q && negb ((p <=? q) && (q <? p + pages_of size)))%bool
  else pmm_unalloc (p * PAGE) size s = Crash Hang.
Proof.
  intros Hwf Hl Hp Hp52 Hs1 Hs2.
  assert (0 ≤ pages_of size < 2 ^ 52) as Hn by (rewrite pages_of_exact by lia; dlia).
  unfold pmm_unalloc. mstep.
  destruct (pmm_say_if ((p * PAGE <=? cur_pain s) && (cur_pain s <? u64 (p * PAGE + size)))
              "idot lmao, caller: %lx\n" s) as [m1 E1].
  mrun E1. clear E1. set (s1 := set_pmm_cpu _ s).
  destruct (pmm_say_if (negb (p * PAGE mod PAGE =? 0))
    "pmm_unalloc freeing bad address, caller: %lx, addr: %lx\n" s1) as [m2 E2].
  mrun E2. clear E2. set (s2 := set_pmm_cpu _ s1).
  mrun (pmm_enter_ok s2 Hl). cbv zeta. rewrite page_of_addr by lia.
  rewrite (u64_small (p + _)) by (unfold is_u64; lia).
  set (s3 := set_pmm_lock _ _).
  case_decide as Hin.
  2:{ destruct (_ <? _) eqn:E; zbool; [|lia]. reflexivity. }
  destruct (_ <? _) eqn:E; zbool; [lia|]. mstep.
  assert (bitmap_max_page s = 8 * zlen (bitmap s)) as Hm by apply Hwf.
  pose proof (wf_addr _ Hwf) as Ha.
  destruct (clear_range_ok s3 p (pages_of size)) as (bm & Hset & Hlen & Hu8 & Hq);
    [apply Hwf|lia|lia|cbn; lia|cbn; lia|].
  mrun Hset. mstep. eexists _, bm. split; [reflexivity|].
  match goal with |- pmm_after ?a ?b ?d ?e ∧ _ => assert (pmm_after a b d e) as Haft end.
  { exists (m1 ++ m2). cbn. rewrite lock_unlock by done.
    destruct s as [? ? ? ? ? ? ? [[] ?]]; cbn; by rewrite app_assoc, Z.sub_opp_r. }
  split; [done|]. split; [|exact Hq].
  eapply pmm_after_wf; [exact Hwf|exact Haft|exact Hu8|exact Hlen|].
  pose proof (Hq 0) as H0. unfold page_used in H0 |- *. cbn in H0 |- *. rewrite H0.
  pose proof (wf_page0 _ Hwf) as Hz. unfold page_used in Hz. cbn in Hz. rewrite Hz.
  destruct (p <=? 0) eqn:E0; zbool; [lia|done].
Qed.

(** ** The bitmap built at boot *)

Definition usable (e : e820_entry) : bool :=
  ((e_type e =? STIVALE_MEMORY_AVAILABLE) && (1048576 <=? e_addr e))%bool.

(** First page at or above [a]. *)
Definition page_up (a : Z) : Z := (a + PAGE - 1) / PAGE.

Definition covers (q : Z) (e : e820_entry) : bool :=
  (usable e && ((page_up (e_addr e) <=? q) && (q <? page_up (e_addr e + e_len e))))%bool.

(** An entry whose pages fit a bitmap of [n] bits. *)
Definition entry_fits (n : Z) (e : e820_entry) : Prop :=
  0 ≤ e_addr e ∧ 0 ≤ e_len e ∧ e_addr e + e_len e + PAGE - 1 < U64_MOD ∧
  page_up (e_addr e + e_len e) ≤ n.

Lemma round_up_page a : 0 ≤ a → a + PAGE - 1 < U64_MOD → ROUND_UP a PAGE = page_up a * PAGE.
Proof.
  intros H1 H2. unfold ROUND_UP, page_up.
  rewrite (u64_small (a + PAGE - 1)) by (unfold is_u64; lia).
  rewrite u64_small; [done|]. unfold is_u64. dlia.
Qed.

Lemma page_up_mono a b : a ≤ b → page_up a ≤ page_up b.
Proof. intros H. unfold page_up. apply Z.div_le_mono; lia. Qed.

Lemma setup_blocks_ok mmap : ∀ s,
  Forall is_u8 (bitmap s) → 8 * zlen (bitmap s) < U64_MOD →
  Forall (entry_fits (8 * zlen (bitmap s))) mmap → is_u64 (available_memory s) →
  ∃ bm av, setup_blocks mmap s =
      Ok (tt, set_counters (used_memory s) av (set_bitmap bm s)) ∧
    is_u64 av ∧ zlen bm = zlen (bitmap s) ∧ Forall is_u8 bm ∧
    ∀ q, page_used (set_bitmap bm s) q =
         (page_used s q && negb (existsb (covers q) mmap))%bool.
Proof.
  induction mmap as [|e mmap IH]; intros s Hb Hlim Hfit Hav.
  - exists (bitmap s), (available_memory s). split_and!; try done.
    + by destruct s.
    + intros q. rewrite andb_true_r. by destruct s.
  - apply Forall_cons in Hfit as [(Ha & Hl & Hend & Hup) Hfit].
    cbn [setup_blocks existsb].
    rewrite (u64_small (e_addr e + e_len e)) by (unfold is_u64; lia).
    rewrite !round_up_page by lia.
    pose proof (page_up_mono (e_addr e) (e_addr e + e_len e) ltac:(lia)) as Hmono.
    assert (0 ≤ page_up (e_addr e)) by (unfold page_up; dlia).
    assert (page_up (e_addr e + e_len e) * PAGE < U64_MOD) by (unfold page_up; dlia).
    rewrite (u64_small (page_up (e_addr e + e_len e) * PAGE - _)) by (unfold is_u64; lia).
    rewrite <- Z.mul_sub_distr_r, !Z.div_mul by lia.
    fold (usable e). destruct (usable e) eqn:Eu.
    + destruct (clear_range_ok s (page_up (e_addr e))
                  (page_up (e_addr e + e_len e) - page_up (e_addr e)))
        as (bm & Hc & Hlen & Hu8 & Hq); [done|lia|lia|lia|lia|].
      match goal with |- context [set_counters (used_memory _) (u64 (_ + ?d))] =>
        set (delta := d) end.
      match goal with |- context [((?m ;; ?k) ;; setup_blocks mmap) s] =>
        assert ((m ;; k) s = Ok (tt, set_counters (used_memory s)
          (u64 (available_memory s + delta)) (set_bitmap bm s))) as E
          by (by rewrite (bind_ok _ _ _ _ _ Hc)) end.
      mrun E. clear E.
      set (s1 := set_counters _ _ _).
      destruct (IH s1) as (bm2 & av & Hs & Hav2 & Hlen2 & Hu82 & Hq2).
      { exact Hu8. } { cbn. lia. } { cbn. by rewrite Hlen. } { cbn. apply u64_range. }
      exists bm2, av. split; [exact Hs|]. split; [done|].
      split; [rewrite Hlen2; exact Hlen|]. split; [done|].
      intros q. transitivity (page_used (set_bitmap bm2 s1) q); [done|].
      rewrite Hq2. transitivity (page_used (set_bitmap bm s) q && negb (existsb (covers q) mmap))%bool;
        [done|]. rewrite Hq, <- andb_assoc. f_equal. rewrite negb_orb.
      unfold covers at 2. rewrite Eu. cbn.
      by replace (page_up (e_addr e) + (page_up (e_addr e + e_len e) - page_up (e_addr e)))
        with (page_up (e_addr e + e_len e)) by lia.
    + mstep. destruct (IH s Hb Hlim Hfit Hav) as (bm & av & Hs & Hrest & Hl2 & Hu & Hq).
      exists bm, av. split_and!; try done. intros q. rewrite Hq.
      unfold covers at 2. by rewrite Eu.
Qed.

(** * Properties *)

(** C1: [pmm_alloc] is a first-fit allocator.  From a well-formed state with
    the lock free and a run of free pages long enough, it returns the address
    of the lowest such run, marks exactly that run as used, moves its bytes
    from the available to the used counter, and leaves the lock, the interrupt
    flag and the well-formedness of the state as they were. *)
Theorem pmm_alloc_first_fit s size r :
  pmm_wf s → unlocked (pmm_lock s) → 0 < size → size + PAGE - 1 < U64_MOD →
  run_free s r (pages_of size) →
  ∃ p s', pmm_alloc size s = Ok (p * PAGE, s') ∧
    first_fit s (pages_of size) p ∧ p ≤ r ∧
    (∀ q, page_used s' q =
          (page_used s q || ((p <=? q) && (q <? p + pages_of size)))%bool) ∧
    used_memory s' = u64 (used_memory s + pages_of size * PAGE) ∧
    available_memory s' = u64 (available_memory s - pages_of size * PAGE) ∧
    pmm_lock s' = pmm_lock s ∧ if_flag (pmm_cpu s') = if_flag (pmm_cpu s) ∧
    pmm_wf s'.
Proof.
  intros Hwf Hl H1 H2 Hr.
  destruct (pmm_alloc_spec s size Hwf Hl H1 H2)
    as [(p & s' & bm & Ha & Hfit & Haft & Hwf' & Hq)|[_ Hno]].
  2:{ by destruct (Hno r). }
  exists p, s'. destruct Haft as [msgs Hs']. rewrite Hs' in *. split_and!; try done.
  apply Z.nlt_ge. intros Hlt. by apply (proj2 Hfit r Hlt).
Qed.

(** When no run of free pages is long enough, [pmm_alloc] never returns:
    it prints an error and halts the processor with the lock still held. *)
Theorem pmm_alloc_exhausted s size :
  pmm_wf s → unlocked (pmm_lock s) → 0 < size → size + PAGE - 1 < U64_MOD →
  (∀ r, ¬ run_free s r (pages_of size)) → pmm_alloc size s = Crash Hang.
Proof.
  intros Hwf Hl H1 H2 Hno.
  destruct (pmm_alloc_spec s size Hwf Hl H1 H2) as [(p & ? & ? & _ & Hfit & _)|[? _]].
  - exfalso. apply (Hno p). apply Hfit.
  - done.
Qed.

(** Freeing what was just allocated restores the allocator: the bitmap,
    the three counters and the lock are those from before the allocation. *)
Theorem pmm_alloc_unalloc s size addr s1 :
  pmm_wf s → unlocked (pmm_lock s) → 0 < size → size + PAGE - 1 < U64_MOD →
  pmm_alloc size s = Ok (addr, s1) →
  ∃ s2, pmm_unalloc addr size s1 = Ok (tt, s2) ∧
    bitmap s2 = bitmap s ∧ used_memory s2 = used_memory s ∧
    available_memory s2 = available_memory s ∧ total_memory s2 = total_memory s ∧
    pmm_lock s2 = pmm_lock s ∧ pmm_wf s2.
Proof.
  intros Hwf Hl H1 H2 Ha.
  destruct (pmm_alloc_spec s size Hwf Hl H1 H2)
    as [(p & s' & bm & Ha' & Hfit & Haft & Hwf' & Hq)|[? _]]; [|congruence].
  rewrite Ha in Ha'. injection Ha' as -> ->.
  pose proof (pages_of_pos size H1 H2) as Hpos.
  destruct Hfit as [(Hp0 & Hpm & Hpf) _]. pose proof (wf_addr _ Hwf) as Haddr.
  destruct Haft as [msgs Hs'].
  assert (0 < p).
  { destruct (decide (p = 0)) as [->|]; [|lia].
    pose proof (wf_page0 _ Hwf) as H0. rewrite Hpf in H0; [done|lia]. }
  pose proof (pmm_unalloc_spec s' p size Hwf') as Hu.
  rewrite decide_True in Hu by (rewrite Hs'; exact Hpm).
  destruct Hu as (s2 & bm2 & Hu & [msgs2 Hs2] & Hwf2 & Hq2);
    [by rewrite Hs'|lia|lia|lia|done|].
  exists s2. split; [done|]. split_and!; [| | | | |exact Hwf2];
    rewrite Hs2, Hs'; cbn; try done.
  - pose proof (wf_bytes _ Hwf2) as Hb2. pose proof (wf_max _ Hwf2) as Hm2.
    pose proof (wf_max _ Hwf) as Hm. rewrite Hs2, Hs' in Hb2, Hm2. cbn in *.
    apply (bitmap_ext s); [done|apply Hwf|lia|].
    intros q Hqr. specialize (Hq2 q). rewrite Hq in Hq2.
    transitivity (page_used s2 q); [by rewrite Hs2|].
    transitivity (page_used s q); [|by destruct s]. rewrite Hq2.
    destruct ((p <=? q) && (q <? p + pages_of size))%bool eqn:E.
    + zbool. rewrite Hpf by lia. done.
    + by rewrite orb_false_r, andb_true_r.
  - by rewrite Z.add_opp_r, u64_add_sub by apply Hwf.
  - by rewrite Z.sub_opp_r, u64_sub_add by apply Hwf.
Qed.

(** The state before [pmm_memory_setup]: every global at its initial value. *)
Definition pmm_boot (cp : cpu) : pmm_state := mk_pmm [] 0 0 0 0 0 0 cp.

(** Pages that hold the kernel image and the bitmap itself, counted as the code counts them: from the page of the kernel's start as many as
    the length takes.  That is all of them when the kernel starts at a page; otherwise the last one can be left out. *)
Definition kernel_pages (mmap : list e820_entry) (kstart kend info isize q : Z) : bool :=
  match mmap !! 0%nat, mmap !! (length mmap - 1)%nat with
  | Some a, Some z =>
      let first := (kstart - KERNEL_VMA_OFFSET) / PAGE in
      let len := bitmap_address kend info isize + bitmap_size a z - kstart in
      (first <=? q) && (q <? first + page_up len)
  | _, _ => false
  end.

(** What the bootloader hands over: a memory map that starts at address 0 and
    whose last entry ends highest, a kernel loaded in the top 2 GiB, and a
    bitmap that fits below the end of that window. *)
Record boot_ok (mmap : list e820_entry) (kstart kend info isize : Z) : Prop := mk_boot_ok {
  bo_first : e_addr <$> mmap !! 0%nat = Some 0;
  bo_fits : ∀ a z, mmap !! 0%nat = Some a → mmap !! (length mmap - 1)%nat = Some z →
    Forall (entry_fits (8 * bitmap_size a z)) mmap ∧
    0 < bitmap_size a z ∧ 8 * bitmap_size a z * PAGE < U64_MOD ∧
    (let at_ := bitmap_address kend info isize in
     KERNEL_VMA_OFFSET ≤ kstart ≤ at_ ∧ at_ + bitmap_size a z + PAGE - 1 < U64_MOD ∧
     (kstart - KERNEL_VMA_OFFSET) / PAGE + page_up (at_ + bitmap_size a z - kstart)
       ≤ 8 * bitmap_size a z)
}.

Lemma page_used_full n p s : page_used (set_bitmap (replicate n 255) s) p = true.
Proof.
  unfold page_used, idx. cbn. destruct (0 <=? p / 8); [|done].
  destruct (replicate n 255 !! _) eqn:E; [|done].
  apply lookup_replicate in E as [-> _].
  replace 255 with (Z.ones 8) by done. apply Z.ones_spec_low. dlia.
Qed.

Lemma Forall_u8_full n : Forall is_u8 (replicate n 255).
Proof. apply Forall_replicate. unfold is_u8. lia. Qed.

(** C2: after the boot-time setup the allocator is well formed, and a page is
    free exactly when a usable block above 1 MiB covers it and it holds
    neither the kernel image nor the bitmap, for a kernel that starts at a page ([kernel_pages] counts the pages as the code does); all memory counts as available. *)
Theorem pmm_setup_correct mmap kstart kend info isize cp :
  boot_ok mmap kstart kend info isize →
  ∃ s, pmm_setup_bitmap mmap kstart kend info isize (pmm_boot cp) = Ok (tt, s) ∧
    pmm_wf s ∧ unlocked (pmm_lock s) ∧ used_memory s = 0 ∧
    (∀ q, page_used s q = false ↔
          0 ≤ q < bitmap_max_page s ∧ existsb (covers q) mmap = true ∧
          kernel_pages mmap kstart kend info isize q = false).
Proof.
  intros [Hfirst Hfits]. destruct (mmap !! 0%nat) as [a|] eqn:Ea; [|done].
  destruct (lookup_lt_is_Some_2 mmap (length mmap - 1)%nat) as [z Ez].
  { apply lookup_lt_Some in Ea. lia. }
  destruct (Hfits a z eq_refl Ez) as (Hf & Hpos & Hlim & [Hk1 Hk2] & Hk3 & Hk4).
  assert (0 ≤ kstart) by (unfold KERNEL_VMA_OFFSET in *; lia).
  unfold kernel_pages. rewrite Ea, Ez.
  unfold pmm_setup_bitmap. rewrite Ea, Ez. do 3 mstep. cbv zeta.
  set (n := bitmap_size a z) in *. set (at_ := bitmap_address kend info isize) in *.
  set (s0 := set_bitmap _ _).
  assert (zlen (bitmap s0) = n) as Hlen0
    by (cbn; unfold zlen; rewrite length_replicate; lia).
  destruct (setup_blocks_ok mmap s0) as (bm & av & Hs & Hav & Hlen & Hu8 & Hq);
    [apply Forall_u8_full|lia|by rewrite Hlen0|done|].
  mrun Hs. mstep. set (s1 := set_total _ _).
  rewrite (u64_small (at_ + n)), (u64_small (at_ + n - kstart)) by (unfold is_u64; lia).
  rewrite (u64_small (at_ + n - kstart + PAGE - 1)) by (unfold is_u64; lia).
  rewrite (u64_small (kstart - _)) by (unfold is_u64, KERNEL_VMA_OFFSET in *; lia).
  fold (page_up (at_ + n - kstart)).
  assert (0 ≤ page_up (at_ + n - kstart)) by (unfold page_up; dlia).
  assert (0 ≤ (kstart - KERNEL_VMA_OFFSET) / PAGE) by dlia.
  destruct (set_range_ok s1 ((kstart - KERNEL_VMA_OFFSET) / PAGE)
              (page_up (at_ + n - kstart))) as (bm2 & Hk & Hlen2 & Hu82 & Hq2);
    [exact Hu8|done|done|cbn; lia|cbn; lia|].
  mrun Hk. eexists. split; [reflexivity|].
  rewrite (u64_small (n * 8)) by (unfold is_u64; lia).
  set (kp := λ q, ((kstart - KERNEL_VMA_OFFSET) / PAGE <=? q) &&
    (q <? (kstart - KERNEL_VMA_OFFSET) / PAGE + page_up (at_ + n - kstart))).
  assert (∀ q, page_used (set_max_page (n * 8) (set_bitmap bm2 s1)) q =
               (negb (existsb (covers q) mmap) || kp q)%bool) as Hfin.
  { intros q. transitivity (page_used (set_bitmap bm2 s1) q); [done|].
    rewrite Hq2. f_equal. transitivity (page_used (set_bitmap bm s0) q); [done|].
    rewrite Hq. unfold s0. by rewrite page_used_full, andb_true_l. }
  assert (∀ q, existsb (covers q) mmap = true → 256 ≤ q < 8 * n) as Hcov.
  { intros q (e & Hin & Hc)%existsb_exists. apply list_elem_of_In in Hin.
    eapply Forall_forall in Hf; [|exact Hin]. destruct Hf as (? & ? & ? & ?).
    unfold covers, usable, page_up in *. zbool. split; [|lia]. dlia. }
  split_and!; try done.
  - split; cbn; try done.
    + rewrite Hlen2. cbn. lia.
    + lia.
    + rewrite Hfin. destruct (existsb (covers 0) mmap) eqn:E; [|done].
      apply Hcov in E. lia.
    + by rewrite Z.add_0_l, u64_small.
  - intros q. rewrite Hfin. cbn. fold (kp q).
    destruct (existsb (covers q) mmap) eqn:E; cbn.
    + apply Hcov in E. split; [intros ->; split_and!; [lia|lia|done|done]|tauto].
    + split; [done|]. by intros (_ & ? & _).
Qed.

(** [find_free_page] uses page number 0 as "no run started yet", so when
    page 0 itself is free the run it returns is shifted by one: here pages 0
    and 1 are free, page 2 is in use, and the two pages it hands out are 1
    and 2.  Well-formedness therefore requires page 0 to be in use, which the
    boot-time setup establishes. *)
Theorem find_free_page_page0_shift cp :
  let s := mk_pmm [252] 8 0 0 0 0 0 cp in
  run_free s 0 2 ∧ page_used s 2 = true ∧ find_free_page 2 s = Ok (1, s).
Proof.
  split_and!; [|done|done]. split_and!; [done|done|].
  intros k Hk. assert (k = 0 ∨ k = 1) as [-> | ->] by lia; done.
Qed.

(** ** Witnesses *)

Definition cpu0 : cpu := mk_cpu true [].

(** Sixteen pages, of which 0-4 and 8-15 are in use. *)
Definition pmm_demo : pmm_state := mk_pmm [31; 255] 16 12288 0 12288 0 0 cpu0.

Lemma pmm_demo_wf : pmm_wf pmm_demo.
Proof.
  split; try done.
  by repeat constructor.
Qed.

Lemma pmm_alloc_first_fit_witness :
  ∃ p s', pmm_alloc 8000 pmm_demo = Ok (p * PAGE, s') ∧ p = 5.
Proof.
  destruct (pmm_alloc_first_fit pmm_demo 8000 5 pmm_demo_wf eq_refl ltac:(lia) ltac:(lia))
    as (p & s' & Ha & _).
  { split_and!; [done|done|]. intros k Hk.
    assert (k = 5 ∨ k = 6) as [-> | ->] by (change (pages_of 8000) with 2 in Hk; lia); done. }
  exists p, s'. split; [done|]. vm_compute in Ha. injection Ha as Ha _.
  assert (20480 = p * PAGE) as E by exact Ha. lia.
Defined.

Lemma pmm_alloc_exhausted_witness : pmm_alloc 16384 pmm_demo = Crash Hang.
Proof.
  apply (pmm_alloc_exhausted pmm_demo 16384 pmm_demo_wf eq_refl); [lia|lia|].
  intros r (H0 & H1 & H2). change (pages_of 16384) with 4 in *. cbn in H1.
  assert (∀ k, In k [0; 1; 2; 3; 4; 8; 9; 10; 11; 12; 13; 14; 15] →
               page_used pmm_demo k = true) as Hu.
  { intros k Hk. repeat destruct Hk as [<-|Hk]; done. }
  assert (∃ k, r ≤ k < r + 4 ∧ In k [0; 1; 2; 3; 4; 8; 9; 10; 11; 12; 13; 14; 15])
    as (k & Hk & Hin).
  { destruct (decide (r ≤ 4)); [exists r|exists (Z.max r 8)]; (split; [lia|]);
      cbn; lia. }
  specialize (H2 k Hk). by rewrite (Hu k Hin) in H2.
Defined.

Lemma pmm_alloc_unalloc_witness : ∃ s1 s2,
  pmm_alloc 8000 pmm_demo = Ok (20480, s1) ∧
  pmm_unalloc 20480 8000 s1 = Ok (tt, s2) ∧ bitmap s2 = [31; 255].
Proof.
  edestruct (pmm_alloc_unalloc pmm_demo 8000) as (s2 & Hu & Hb & _);
    [exact pmm_demo_wf|reflexivity|lia|lia|vm_compute; reflexivity|].
  eexists _, s2. split; [vm_compute; reflexivity|]. split; [exact Hu|exact Hb].
Defined.

(** 4 MiB of memory: low memory, one usable block, and a kernel at 2 MiB. *)
Definition mmap_demo : list e820_entry :=
  [mk_e820 0 1048576 2; mk_e820 1048576 3145728 1].

Lemma pmm_setup_correct_witness : ∃ s,
  pmm_setup_bitmap mmap_demo (KERNEL_VMA_OFFSET + 2097152)
    (KERNEL_VMA_OFFSET + 2105344) 0 64 (pmm_boot cpu0) = Ok (tt, s) ∧
  page_used s 256 = false ∧ page_used s 512 = true.
Proof.
  destruct (pmm_setup_correct mmap_demo (KERNEL_VMA_OFFSET + 2097152)
    (KERNEL_VMA_OFFSET + 2105344) 0 64 cpu0) as (s & Hs & _).
  { split; [done|]. intros a z [= <-] [= <-].
    split_and!; try done. repeat constructor; done. }
  exists s. split; [exact Hs|]. vm_compute in Hs. injection Hs as <-. done.
Defined.
