(* ===== verification/Frames.v ===== *)
(** * The interface between the physical memory manager and its clients

    The virtual memory manager, the kernel heap and the drivers call
    [pmm_alloc] and [pmm_unalloc] (mm/pmm.h) and rely on what is stated here,
    not on the bitmap.  [FrameAlloc] is the operations and the view of the
    allocator's state, [FrameAllocLaws] the promises, and the physical memory
    manager of Pmm.v is an instance.  Page numbers are physical addresses
    divided by 4096. *)

From S2P Require Import Prelude Locks Pmm.

(** Physical memory that the direct map at 0xFFFF800000000000 can reach. *)
Definition PHYS_PAGES : Z := 34359738368. (* 2^47 / 4096 *)

Class FrameAlloc (F : Type) : Type := {
  fa_alloc : Z → stM F Z;
  fa_free : Z → Z → stM F unit;
  fa_cpu : F → cpu;
  fa_set_cpu : cpu → F → F;
  fa_used : F → Z → bool;
  fa_size : F → Z;
  fa_inv : F → Prop
}.

Definition in_run (p n q : Z) : bool := (p <=? q) && (q <? p + n).

(** [n] free pages from page [p] on. *)
Definition free_run `{FrameAlloc F} (s : F) (p n : Z) : Prop :=
  ∀ k, p ≤ k < p + n → fa_used s k = false.

(** At least [n] pages are free. *)
Definition has_room `{FrameAlloc F} (s : F) (n : nat) : Prop :=
  ∃ l : list Z, NoDup l ∧ length l = n ∧ Forall (λ p, fa_used s p = false) l.

Class FrameAllocLaws (F : Type) `{FrameAlloc F} : Prop := {
  fa_alloc_spec s size :
    fa_inv s → 0 < size → size + PAGE - 1 < U64_MOD →
    (∃ p s', fa_alloc size s = Ok (p * PAGE, s') ∧ free_run s p (pages_of size) ∧
       fa_inv s' ∧ fa_size s' = fa_size s ∧
       if_flag (fa_cpu s') = if_flag (fa_cpu s) ∧
       ∀ q, fa_used s' q = (fa_used s q || in_run p (pages_of size) q)%bool) ∨
    (fa_alloc size s = Crash Hang ∧ ∀ p, ¬ free_run s p (pages_of size));
  fa_free_spec s p size :
    fa_inv s → 0 < p → 0 ≤ size → size + PAGE - 1 < U64_MOD →
    p + pages_of size ≤ fa_size s →
    ∃ s', fa_free (p * PAGE) size s = Ok (tt, s') ∧
      fa_inv s' ∧ fa_size s' = fa_size s ∧
      if_flag (fa_cpu s') = if_flag (fa_cpu s) ∧
      ∀ q, fa_used s' q = (fa_used s q && negb (in_run p (pages_of size) q))%bool;
  fa_used_bound s p : fa_inv s → fa_used s p = false → 0 < p < fa_size s;
  fa_size_bound s : fa_inv s → fa_size s ≤ PHYS_PAGES;
  fa_set_cpu_id s : fa_set_cpu (fa_cpu s) s = s;
  fa_set_cpu_twice s c d : fa_set_cpu c (fa_set_cpu d s) = fa_set_cpu c s;
  fa_cpu_set s c : fa_cpu (fa_set_cpu c s) = c;
  fa_used_set_cpu s c p : fa_used (fa_set_cpu c s) p = fa_used s p;
  fa_size_set_cpu s c : fa_size (fa_set_cpu c s) = fa_size s;
  fa_inv_set_cpu s c : fa_inv s → fa_inv (fa_set_cpu c s)
}.

(** ** The physical memory manager implements the interface *)

#[export] Instance pmm_FrameAlloc : FrameAlloc pmm_state := {
  fa_alloc := pmm_alloc;
  fa_free := pmm_unalloc;
  fa_cpu := pmm_cpu;
  fa_set_cpu := set_pmm_cpu;
  fa_used := page_used;
  fa_size := bitmap_max_page;
  fa_inv := λ s, pmm_wf s ∧ unlocked (pmm_lock s) ∧ bitmap_max_page s ≤ PHYS_PAGES
}.

Lemma page_used_bound s p :
  pmm_wf s → page_used s p = false → 0 < p < bitmap_max_page s.
Proof.
  intros Hwf Hu. assert (p ≠ 0) by (intros ->; by rewrite (wf_page0 _ Hwf) in Hu).
  unfold page_used in Hu. destruct (idx (bitmap s) (p / 8)) as [b|] eqn:E; [|done].
  apply idx_Some in E as [E _]. rewrite (wf_max _ Hwf). dlia.
Qed.

Lemma free_run_run_free (s : pmm_state) p n :
  pmm_wf s → 0 < n → free_run s p n → run_free s p n.
Proof.
  intros Hwf Hn H. pose proof (page_used_bound s p Hwf (H p ltac:(lia))).
  pose proof (page_used_bound s (p + n - 1) Hwf (H (p + n - 1) ltac:(lia))).
  split_and!; [lia|lia|exact H].
Qed.

#[export] Instance pmm_FrameAllocLaws : FrameAllocLaws pmm_state.
Proof.
  split.
  - intros s size (Hwf & Hl & Hb) H1 H2. pose proof (pages_of_pos _ H1 H2).
    destruct (pmm_alloc_spec s size Hwf Hl H1 H2)
      as [(p & s' & bm & Ha & [(_ & _ & Hr) _] & Haft & Hwf' & Hq)|[Ha Hno]].
    + left. exists p, s'. destruct Haft as (msgs & ->). cbn.
      split_and!; try done.
    + right. split; [done|]. intros p Hr. eapply Hno. by apply free_run_run_free.
  - intros s p size (Hwf & Hl & Hb) Hp H1 H2 Hs.
    assert (0 ≤ pages_of size) by (rewrite pages_of_exact by lia; dlia).
    pose proof (pmm_unalloc_spec s p size Hwf Hl Hp) as Hsp. unfold PHYS_PAGES in Hb.
    cbn in Hs. rewrite decide_True in Hsp by done.
    destruct Hsp as (s' & bm & Ha & Haft & Hwf' & Hq); [lia|lia|lia|].
    exists s'. destruct Haft as (msgs & ->). cbn. split_and!; try done.
  - intros s p (Hwf & _) Hu. by apply page_used_bound.
  - by intros s (_ & _ & H).
  - by intros [].
  - done.
  - done.
  - done.
  - done.
  - intros s c ([] & Hl & Hb). split_and!; [by split|done|done].
Qed.

(** ** Consequences for clients that allocate single pages *)

Section frames.
Context `{FrameAllocLaws F}.
Implicit Types s : F.

Lemma has_room_le s n m : (m ≤ n)%nat → has_room s n → has_room s m.
Proof.
  intros Hle (l & Hnd & Hlen & Hall). exists (take m l). split_and!.
  - eapply sublist_NoDup; [done|apply sublist_take].
  - rewrite length_take. lia.
  - by apply Forall_take.
Qed.

(** A run of [n] pages leaves room for the rest. *)
Lemma has_room_run s s' p (n k : nat) :
  has_room s (n + k) →
  (∀ q, fa_used s' q = (fa_used s q || in_run p (Z.of_nat n) q)%bool) → has_room s' k.
Proof.
  intros (l & Hnd & Hlen & Hall) Hq. set (P := λ q, in_run p (Z.of_nat n) q = true).
  assert (length (filter P l) ≤ n)%nat as Hle.
  { replace n with (length (seqZ p (Z.of_nat n))) at 1 by (rewrite length_seqZ; lia).
    apply submseteq_length, NoDup_submseteq; [by apply NoDup_filter|].
    intros x [Hx _]%list_elem_of_filter. unfold P, in_run in Hx. zbool. apply elem_of_seqZ. lia. }
  apply (has_room_le _ (length (filter (λ q, ¬ P q) l))).
  { pose proof (Permutation_length (filter_app_complement P l)) as Hc.
    rewrite length_app in Hc. lia. }
  exists (filter (λ q, ¬ P q) l). split_and!; [by apply NoDup_filter|done|].
  apply Forall_forall. intros x [Hx Hin]%list_elem_of_filter.
  rewrite Hq. eapply Forall_forall in Hall; [|exact Hin]. rewrite Hall.
  unfold P in Hx. by apply not_true_is_false in Hx.
Qed.

Lemma in_run_first p n : 0 < n → in_run p n p = true.
Proof.
  intros Hn. apply andb_true_iff. split; [apply Z.leb_le|apply Z.ltb_lt]; lia.
Qed.

Lemma in_run_1 p q : in_run p 1 q = (q =? p).
Proof.
  unfold in_run.
  destruct (p <=? q) eqn:?, (q <? p + 1) eqn:?, (q =? p) eqn:?; zbool; done || lia.
Qed.

Lemma has_room_take s s' n p :
  has_room s (S n) → (∀ q, fa_used s' q = (fa_used s q || (q =? p))%bool) →
  has_room s' n.
Proof.
  intros Hr Hq. apply (has_room_run s s' p 1 n Hr). intros q. by rewrite Hq, in_run_1.
Qed.

(** A client that leaves a page free can allocate one. *)
Lemma fa_alloc_page s n :
  fa_inv s → has_room s (S n) →
  ∃ p s', fa_alloc PAGE s = Ok (p * PAGE, s') ∧ fa_used s p = false ∧
    0 < p < PHYS_PAGES ∧
    fa_inv s' ∧ if_flag (fa_cpu s') = if_flag (fa_cpu s) ∧ has_room s' n ∧
    fa_size s' = fa_size s ∧
    (∀ q, fa_used s' q = (fa_used s q || (q =? p))%bool).
Proof.
  intros Hi Hr. destruct (fa_alloc_spec s PAGE Hi)
    as [(p & s' & Ha & Hf & Hi' & Hsz & Hc & Hq)|[_ Hno]]; [lia|lia| |].
  - rewrite pages_of_page in *. assert (fa_used s p = false) as Hp by (apply Hf; lia).
    assert (∀ q, fa_used s' q = (fa_used s q || (q =? p))%bool) as Hq'.
    { intros q. by rewrite Hq, in_run_1. }
    pose proof (fa_used_bound s p Hi Hp). pose proof (fa_size_bound s Hi).
    exists p, s'. split_and!; try done; [lia|lia|]. by eapply has_room_take.
  - exfalso. destruct Hr as ([|p l] & _ & Hlen & Hall); [done|].
    apply Forall_cons in Hall as [Hp _]. apply (Hno p). rewrite pages_of_page.
    intros k Hk. by replace k with p by lia.
Qed.
End frames.

(** ** Owners of pages

    A client keeps the blocks it was given and frees blocks of its own, in any order. *)

Inductive mem_op : Type := OAlloc (size : Z) | OFree (n : nat).

(** One call, on the list of the client's blocks: first page and size. *)
Definition mem_step (o : mem_op) (live : list (Z * Z)) : stM pmm_state (list (Z * Z)) :=
  match o with
  | OAlloc size => addr ← pmm_alloc size; mret ((addr / PAGE, size) :: live)
  | OFree n =>
      match live !! n with
      | Some b => pmm_unalloc (b.1 * PAGE) b.2 ;; mret (delete n live)
      | None => mret live
      end
  end.
Fixpoint mem_run (ops : list mem_op) (live : list (Z * Z)) : stM pmm_state (list (Z * Z)) :=
  match ops with
  | [] => mret live
  | o :: ops' => live ← mem_step o live; mem_run ops' live
  end.

Definition in_block (b : Z * Z) (q : Z) : bool := in_run b.1 (pages_of b.2) q.
(** The number of owners of a page: the blocks it belongs to, and [B], the rest of the system. *)
Definition owners (B : Z → bool) (live : list (Z * Z)) (q : Z) : nat :=
  (if B q then 1 else 0) + length (List.filter (λ b, in_block b q) live).
Definition size_ok (size : Z) : Prop := 0 < size ∧ size + PAGE - 1 < U64_MOD.
Definition mem_op_ok (o : mem_op) : Prop := match o with OAlloc size => size_ok size | OFree _ => True end.

(** Every page has at most one owner and is marked used exactly when it has one. *)
Record owned_ok (B : Z → bool) (live : list (Z * Z)) (s : pmm_state) : Prop := {
  ow_inv : fa_inv s;
  ow_once : ∀ q, (owners B live q ≤ 1)%nat;
  ow_used : ∀ q, page_used s q = bool_decide (owners B live q = 1%nat);
  ow_blocks : Forall (λ b, size_ok b.2 ∧ 0 < b.1 ∧ b.1 + pages_of b.2 ≤ bitmap_max_page s) live
}.

Lemma owners_cons B b live q : owners B (b :: live) q = ((if in_block b q then 1 else 0) + owners B live q)%nat.
Proof. unfold owners. cbn [List.filter]. destruct (in_block b q); cbn; lia. Qed.

Lemma owners_delete B live n b q : live !! n = Some b → owners B live q = ((if in_block b q then 1 else 0) + owners B (delete n live) q)%nat.
Proof.
  intros Hn. rewrite <-owners_cons. unfold owners. f_equal. revert n Hn. induction live as [|c live IH]; intros n Hn; [done|].
  destruct n as [|n]; cbn [lookup list_lookup] in Hn; [by injection Hn as ->|]. change (delete (S n) (c :: live)) with (c :: delete n live).
  specialize (IH n Hn). cbn [List.filter] in IH |- *. destruct (in_block c q), (in_block b q); cbn [length] in *; lia.
Qed.

Lemma mem_step_ok B o live s : owned_ok B live s → mem_op_ok o →
  (∃ live' s', mem_step o live s = Ok (live', s') ∧ owned_ok B live' s') ∨
  (mem_step o live s = Crash Hang ∧ ∃ size, o = OAlloc size ∧ ∀ p, ¬ free_run s p (pages_of size)).
Proof.
  intros [Hi Honce Hu Hb] Ho. destruct o as [size|n]; cbn [mem_step mem_op_ok] in *.
  - destruct Ho as [H0 Hm]. destruct (fa_alloc_spec s size Hi H0 Hm) as [(p & s' & E & Hfr & Hi' & Hsz & _ & Hu')|[E Hno]].
    2: { right. split; [by apply bind_crash|by exists size]. }
    left. exists ((p, size) :: live), s'. pose proof (pages_of_pos size H0 Hm) as Hp. split.
    { mrun E. by rewrite Z.div_mul by lia. }
    pose proof (fa_used_bound s p Hi (Hfr p ltac:(lia))). pose proof (fa_used_bound s (p + pages_of size - 1) Hi (Hfr (p + pages_of size - 1) ltac:(lia))).
    assert (∀ q, in_block (p, size) q = true → owners B live q = 0%nat) as Hz.
    { intros q Hq. assert (fa_used s q = false) as Hf by (apply Hfr; unfold in_block, in_run in Hq; cbn [fst snd] in Hq; zbool; lia).
      specialize (Honce q). specialize (Hu q). cbn in Hf. rewrite Hf in Hu. symmetry in Hu. apply bool_decide_eq_false in Hu. lia. }
    split; [done| | |].
    + intros q. rewrite owners_cons. destruct (in_block (p, size) q) eqn:Eq; [rewrite Hz by done; lia|apply Honce].
    + intros q. rewrite owners_cons. cbn in Hu'. rewrite Hu', Hu. change (in_run p (pages_of size) q) with (in_block (p, size) q).
      destruct (in_block (p, size) q) eqn:Eq; [rewrite Hz by done; by rewrite orb_true_r|by rewrite orb_false_r].
    + cbn in Hsz. constructor; cbn [fst snd fa_size pmm_FrameAlloc] in *; [split_and!; [by split|lia|lia]|]. by rewrite Hsz.
  - left. destruct (live !! n) as [b|] eqn:En; [|by exists live, s]. rewrite Forall_forall in Hb.
    destruct (Hb b) as ([H0 Hm] & Hp & Hend); [by eapply list_elem_of_lookup_2|].
    destruct (fa_free_spec s b.1 b.2 Hi Hp ltac:(lia) Hm Hend) as (s' & E & Hi' & Hsz & _ & Hu'). exists (delete n live), s'.
    split; [by mrun E|]. assert (∀ q, owners B live q = ((if in_block b q then 1 else 0) + owners B (delete n live) q)%nat) as Hd by (intros q; by apply owners_delete).
    split; [done| | |].
    + intros q. specialize (Honce q). rewrite Hd in Honce. lia.
    + intros q. cbn in Hu'. rewrite Hu', Hu, Hd. change (in_run b.1 (pages_of b.2) q) with (in_block b q). specialize (Honce q). rewrite Hd in Honce.
      destruct (in_block b q); cbn [negb]; [|by rewrite andb_true_r]. rewrite andb_false_r. symmetry. apply bool_decide_eq_false. lia.
    + cbn in Hsz. rewrite Forall_forall. intros c Hc. rewrite Hsz. apply Hb. rewrite (delete_Permutation live n b En). by right.
Qed.

(** C3: the allocator keeps its pages well owned.  Whatever sequence of allocations and of frees of its own blocks a client
    makes, after each of them every page has at most one owner, a block of the client or the rest of the system, is marked used
    exactly when it has one, and the allocator is well formed; the sequence can only stop at an allocation for which there is
    no run of free pages. *)
Theorem pmm_ownership B ops : ∀ live s, owned_ok B live s → Forall mem_op_ok ops →
  (∃ live' s', mem_run ops live s = Ok (live', s') ∧ owned_ok B live' s') ∨
  (∃ ops1 size ops2 live1 s1, ops = ops1 ++ OAlloc size :: ops2 ∧ mem_run ops1 live s = Ok (live1, s1) ∧ owned_ok B live1 s1 ∧
    (∀ p, ¬ free_run s1 p (pages_of size)) ∧ mem_run ops live s = Crash Hang).
Proof.
  induction ops as [|o ops IH]; intros live s Hok Hops; [left; by exists live, s|]. apply Forall_cons in Hops as [Ho Hops]. cbn [mem_run].
  destruct (mem_step_ok B o live s Hok Ho) as [(live1 & s1 & E1 & Hok1)|(E & size & -> & Hno)].
  - destruct (IH live1 s1 Hok1 Hops) as [(live' & s' & E & Hok')|(ops1 & size & ops2 & live2 & s2 & -> & E & Hok2 & Hno & Ec)].
    + left. exists live', s'. by mrun E1.
    + right. exists (o :: ops1), size, ops2, live2, s2. cbn [mem_run]. split; [done|]. mrun E1. mrun E1. done.
  - right. exists [], size, ops, live, s. split_and!; try done. by apply bind_crash.
Qed.

Lemma pmm_ownership_witness : ∃ live' s', mem_run [OAlloc 4096; OAlloc 5000; OFree 1] [] pmm_demo = Ok (live', s') ∧
  owned_ok (page_used pmm_demo) live' s' ∧ live' = [(6, 5000)].
Proof.
  destruct (pmm_ownership (page_used pmm_demo) [OAlloc 4096; OAlloc 5000; OFree 1] [] pmm_demo) as [(live' & s' & E & Hok)|(ops1 & size & ops2 & live1 & s1 & _ & _ & _ & _ & E)].
  - split; [split_and!; [exact pmm_demo_wf|done|done]| | |constructor].
    + intros q. unfold owners. cbn. destruct (page_used pmm_demo q); lia.
    + intros q. unfold owners. cbn. by destruct (page_used pmm_demo q).
  - repeat constructor.
  - exists live', s'. split; [exact E|]. split; [exact Hok|]. vm_compute in E. by injection E as <- _.
  - vm_compute in E. discriminate E.
Defined.
