(* ===== verification/Vmm.v ===== *)
(** * The virtual memory manager (mm/vmm.c, mm/vmm.h)

    The state is physical memory as 64-bit words, the physical page allocator
    behind the interface of Frames.v, CR3, the file's globals, and the log of
    [invlpg] instructions.  A page table is named, as in the code, by its
    address in the direct map at 0xFFFF800000000000; the code reads and writes
    it through that map.  [walk] is the translation the processor does.

    Definitions come first, in the order of the file; then the invariant of a
    page-table tree and the proofs. *)

From S2P Require Import Prelude Locks Pmm Frames.

(** ** Constants (vmm.h) *)

Definition VMM_4K_PERM_MASK : Z := 18446744073709547520. (* ~0xfff, sign-extended *)
Definition VMM_PRESENT : Z := 1.
Definition VMM_WRITE : Z := 2.
Definition VMM_USER : Z := 4.
Definition VMM_HUGE : Z := 128.
Definition NORMAL_VMA_OFFSET : Z := 18446603336221196288. (* 0xFFFF800000000000 *)
Definition NOT_MAPPED : Z := 18446744073709551615. (* 0xFFFFFFFFFFFFFFFF *)

Definition GET_HIGHER_HALF (lower_half : Z) : Z := u64 (lower_half + NORMAL_VMA_OFFSET).
Definition GET_LOWER_HALF (higher_half : Z) : Z := u64 (higher_half - NORMAL_VMA_OFFSET).

Record pt_off_t : Type := mk_off { p4_off : Z; p3_off : Z; p2_off : Z; p1_off : Z }.
Record pt_ptr_t : Type := mk_ptr { ptr_p3 : Z; ptr_p2 : Z; ptr_p1 : Z }.

(** ** State *)

Record vmm_state (F : Type) : Type := mk_vmm {
  frames : F;
  mem : Z → Z;
  cr3 : Z;
  vmm_spinlock : Z;
  flushed : list Z;
  base_kernel_cr3 : Z;
  vmm_complete : Z
}.
Arguments mk_vmm {F} _ _ _ _ _ _ _.
Arguments frames {F} _.
Arguments mem {F} _ _.
Arguments cr3 {F} _.
Arguments vmm_spinlock {F} _.
Arguments flushed {F} _.
Arguments base_kernel_cr3 {F} _.
Arguments vmm_complete {F} _.

Definition mem_upd (m : Z → Z) (a w : Z) : Z → Z := λ b, if b =? a then w else m b.

(** A test of a flag: [e & flag]. *)
Definition has (e flag : Z) : bool := negb (Z.land e flag =? 0).

(** ** Page-table offsets *)

Definition vmm_virt_to_offs (addr : Z) : pt_off_t :=
  mk_off (Z.shiftr (Z.land addr (Z.shiftl 511 39)) 39)
         (Z.shiftr (Z.land addr (Z.shiftl 511 30)) 30)
         (Z.shiftr (Z.land addr (Z.shiftl 511 21)) 21)
         (Z.shiftr (Z.land addr (Z.shiftl 511 12)) 12).

Definition vmm_offs_to_virt (offs : pt_off_t) : Z :=
  let addr := 0 in
  let addr := Z.lor addr (u64 (Z.shiftl (p4_off offs) 39)) in
  let addr := Z.lor addr (u64 (Z.shiftl (p3_off offs) 30)) in
  let addr := Z.lor addr (u64 (Z.shiftl (p2_off offs) 21)) in
  Z.lor addr (u64 (Z.shiftl (p1_off offs) 12)).

Section ops.
Context {F : Type} `{!FrameAlloc F}.
Abbreviation vM := (stM (vmm_state F)).
Implicit Types s : vmm_state F.

Definition set_frames (f : F) s : vmm_state F :=
  mk_vmm f (mem s) (cr3 s) (vmm_spinlock s) (flushed s) (base_kernel_cr3 s) (vmm_complete s).
Definition set_mem (m : Z → Z) s : vmm_state F :=
  mk_vmm (frames s) m (cr3 s) (vmm_spinlock s) (flushed s) (base_kernel_cr3 s) (vmm_complete s).
Definition set_lock (l : Z) s : vmm_state F :=
  mk_vmm (frames s) (mem s) (cr3 s) l (flushed s) (base_kernel_cr3 s) (vmm_complete s).
Definition set_cr3 (c : Z) s : vmm_state F :=
  mk_vmm (frames s) (mem s) c (vmm_spinlock s) (flushed s) (base_kernel_cr3 s) (vmm_complete s).
Definition set_flushed (l : list Z) s : vmm_state F :=
  mk_vmm (frames s) (mem s) (cr3 s) (vmm_spinlock s) l (base_kernel_cr3 s) (vmm_complete s).
Definition set_boot (b c : Z) s : vmm_state F :=
  mk_vmm (frames s) (mem s) (cr3 s) (vmm_spinlock s) (flushed s) b c.

Definition vmm_get_base : vM Z := gets cr3.
Definition vmm_set_base (new : Z) : vM unit := modify (set_cr3 new).
Definition vmm_invlpg (new : Z) : vM unit :=
  modify (λ s, set_flushed (flushed s ++ [new]) s).

(** Calls into the physical memory manager. *)
Definition vmm_pmm_alloc (size : Z) : vM Z := zoom frames set_frames (fa_alloc size).
Definition vmm_pmm_unalloc (addr size : Z) : vM unit :=
  zoom frames set_frames (fa_free addr size).

(** [interrupt_lock(); lock(vmm_spinlock)] and the reverse. *)
Definition vmm_lock : vM unit :=
  s ← get;
  match spinlock_lock (vmm_spinlock s) with
  | Ok l => modify (set_lock l)
  | Crash k => crashM k
  end.
Definition vmm_unlock : vM unit :=
  modify (λ s, set_lock (spinlock_unlock (vmm_spinlock s)) s).
Definition vmm_cli : vM Z :=
  s ← get;
  let '(state, c) := interrupt_lock (fa_cpu (frames s)) in
  modify (λ s, set_frames (fa_set_cpu c (frames s)) s) ;; mret state.
Definition vmm_sti (state : Z) : vM unit :=
  modify (λ s, set_frames (fa_set_cpu (interrupt_unlock state (fa_cpu (frames s)))
                             (frames s)) s).

(** ** Reading page tables *)

Definition get_entry (cur_table offset : Z) : vM Z :=
  gets (λ s, mem s (GET_LOWER_HALF (cur_table + 8 * offset))).

Definition set_entry (cur_table offset w : Z) : vM unit :=
  modify (λ s, set_mem (mem_upd (mem s) (GET_LOWER_HALF (cur_table + 8 * offset)) w) s).

Definition traverse_page_table (cur_table offset : Z) : vM Z :=
  e ← get_entry cur_table offset;
  mret (GET_HIGHER_HALF (Z.land e VMM_4K_PERM_MASK)).

Definition virt_to_phys (virt p4 : Z) : vM Z :=
  let page4k_offset := Z.land virt 4095 in
  let page2m_offset := Z.land virt 2097151 in
  let offs := vmm_virt_to_offs virt in
  let p4 := GET_HIGHER_HALF p4 in
  p3 ← traverse_page_table p4 (p4_off offs);
  if NORMAL_VMA_OFFSET <? p3 then
    p2 ← traverse_page_table p3 (p3_off offs);
    e2 ← get_entry p2 (p2_off offs);
    if has e2 VMM_HUGE then
      mret (u64 (Z.land e2 VMM_4K_PERM_MASK + page2m_offset))
    else if NORMAL_VMA_OFFSET <? p2 then
      p1 ← traverse_page_table p2 (p2_off offs);
      if NORMAL_VMA_OFFSET <? p1 then
        e1 ← get_entry p1 (p1_off offs);
        if has e1 VMM_PRESENT
        then mret (u64 (Z.land e1 VMM_4K_PERM_MASK + page4k_offset))
        else mret NOT_MAPPED
      else mret NOT_MAPPED
    else mret NOT_MAPPED
  else mret NOT_MAPPED.

Definition kernel_address (virt : Z) : vM Z :=
  base ← vmm_get_base;
  phys ← virt_to_phys virt base;
  if negb (phys =? NOT_MAPPED) then mret (GET_HIGHER_HALF phys) else mret 0.

(** ** Building page tables *)

(** [memset(page, 0, 0x1000)] on the page at physical address [p]. *)
Definition zero_page (p : Z) : vM unit :=
  modify (λ s, set_mem (λ a, if (p <=? a) && (a <? p + PAGE) then 0 else mem s a) s).

Definition vmm_ensure_table (table offset : Z) : vM unit :=
  e ← get_entry table offset;
  if negb (has e VMM_PRESENT) then
    new_table ← vmm_pmm_alloc PAGE;
    zero_page (GET_LOWER_HALF (GET_HIGHER_HALF new_table)) ;;
    set_entry table offset
      (Z.lor (Z.lor (Z.lor new_table VMM_PRESENT) VMM_WRITE) VMM_USER)
  else mret tt.

Fixpoint remap_loop (n : nat) (new_pml1_virt i cur_pos perms : Z) : vM unit :=
  match n with
  | O => mret tt
  | S n' =>
      set_entry new_pml1_virt i (Z.lor cur_pos perms) ;;
      remap_loop n' new_pml1_virt (i + 1) (u64 (cur_pos + PAGE)) perms
  end.

Definition vmm_remap_to_4k (p2 offset : Z) : vM unit :=
  new_pml1 ← vmm_pmm_alloc PAGE;
  let new_pml1_virt := u64 (new_pml1 + NORMAL_VMA_OFFSET) in
  e ← get_entry p2 offset;
  let represented_range := Z.land e VMM_4K_PERM_MASK in
  let perms := Z.land e 4095 in
  zero_page (GET_LOWER_HALF new_pml1_virt) ;;
  remap_loop 512 new_pml1_virt 0 represented_range perms ;;
  set_entry p2 offset (Z.lor (Z.lor (Z.lor new_pml1 VMM_PRESENT) VMM_WRITE) VMM_USER) ;;
  vmm_invlpg represented_range.

Definition is_mapped (data : Z) : vM Z :=
  state ← vmm_cli;
  vmm_lock ;;
  base ← vmm_get_base;
  phys_addr ← virt_to_phys data base;
  if phys_addr =? NOT_MAPPED
  then vmm_unlock ;; vmm_sti state ;; mret 0
  else vmm_unlock ;; vmm_sti state ;; mret 1.

(** The number of pages [range_mapped] and [range_mapped_in_userspace] test. *)
Definition range_pages (data size : Z) : Z :=
  let cur_addr := Z.land data VMM_4K_PERM_MASK in
  let end_addr := Z.land (u64 (data + size)) VMM_4K_PERM_MASK in
  let rounded_size := u64 (end_addr - cur_addr) in
  u64 (rounded_size + PAGE - 1) / PAGE.

Fixpoint range_loop (test : Z → vM Z) (n : nat) (cur_addr : Z) : vM Z :=
  match n with
  | O => mret 1
  | S n' =>
      b ← test cur_addr;
      if b =? 0 then mret 0 else range_loop test n' (u64 (cur_addr + PAGE))
  end.

Definition range_mapped (data size : Z) : vM Z :=
  range_loop is_mapped (Z.to_nat (range_pages data size)) (Z.land data VMM_4K_PERM_MASK).

Definition vmm_get_table (offs : pt_off_t) (p4 : Z) : vM pt_ptr_t :=
  let p4 := GET_HIGHER_HALF p4 in
  vmm_ensure_table p4 (p4_off offs) ;;
  p3 ← traverse_page_table p4 (p4_off offs);
  vmm_ensure_table p3 (p3_off offs) ;;
  p2 ← traverse_page_table p3 (p3_off offs);
  p2_entry ← get_entry p2 (p2_off offs);
  if negb (has p2_entry VMM_HUGE) && has p2_entry VMM_PRESENT then
    p1 ← traverse_page_table p2 (p2_off offs);
    mret (mk_ptr p3 p2 p1)
  else
    (if has p2_entry VMM_HUGE && has p2_entry VMM_PRESENT
     then vmm_remap_to_4k p2 (p2_off offs) else mret tt) ;;
    vmm_ensure_table p2 (p2_off offs) ;;
    p1 ← traverse_page_table p2 (p2_off offs);
    mret (mk_ptr p3 p2 p1).

(** ** Mapping, remapping and unmapping *)

Fixpoint map_loop (n : nat) (cur_virt cur_phys p4 perms ret : Z) : vM Z :=
  match n with
  | O => mret ret
  | S n' =>
      let offs := vmm_virt_to_offs cur_virt in
      ptrs ← vmm_get_table offs p4;
      e ← get_entry (ptr_p1 ptrs) (p1_off offs);
      if negb (has e VMM_PRESENT) then
        set_entry (ptr_p1 ptrs) (p1_off offs) (Z.lor cur_phys perms) ;;
        vmm_invlpg cur_virt ;;
        map_loop n' (u64 (cur_virt + PAGE)) (u64 (cur_phys + PAGE)) p4 perms ret
      else map_loop n' (u64 (cur_virt + PAGE)) (u64 (cur_phys + PAGE)) p4 perms 1
  end.

Definition vmm_map_pages (phys virt p4 count perms : Z) : vM Z :=
  state ← vmm_cli;
  vmm_lock ;;
  ret ← map_loop (Z.to_nat count) (Z.land virt VMM_4K_PERM_MASK)
          (Z.land phys VMM_4K_PERM_MASK) p4 perms 0;
  vmm_unlock ;; vmm_sti state ;; mret ret.

Fixpoint vmm_remap_loop (n : nat) (cur_virt cur_phys p4 perms : Z) : vM unit :=
  match n with
  | O => mret tt
  | S n' =>
      let offs := vmm_virt_to_offs cur_virt in
      ptrs ← vmm_get_table offs p4;
      set_entry (ptr_p1 ptrs) (p1_off offs) (Z.lor cur_phys (Z.lor perms VMM_PRESENT)) ;;
      vmm_invlpg cur_virt ;;
      vmm_remap_loop n' (u64 (cur_virt + PAGE)) (u64 (cur_phys + PAGE)) p4 perms
  end.

Definition vmm_remap_pages (phys virt p4 count perms : Z) : vM Z :=
  state ← vmm_cli;
  vmm_lock ;;
  vmm_remap_loop (Z.to_nat count) (Z.land virt VMM_4K_PERM_MASK)
    (Z.land phys VMM_4K_PERM_MASK) p4 perms ;;
  vmm_unlock ;; vmm_sti state ;; mret 0.

Fixpoint unmap_loop (n : nat) (cur_virt p4 ret : Z) : vM Z :=
  match n with
  | O => mret ret
  | S n' =>
      let offs := vmm_virt_to_offs cur_virt in
      ptrs ← vmm_get_table offs p4;
      e ← get_entry (ptr_p1 ptrs) (p1_off offs);
      ret ← (if has e VMM_PRESENT
             then set_entry (ptr_p1 ptrs) (p1_off offs) 0 ;; mret ret
             else mret 1);
      vmm_invlpg cur_virt ;;
      unmap_loop n' (u64 (cur_virt + PAGE)) p4 ret
  end.

Definition vmm_unmap_pages (virt p4 count : Z) : vM Z :=
  state ← vmm_cli;
  vmm_lock ;;
  ret ← unmap_loop (Z.to_nat count) virt p4 0;
  vmm_unlock ;; vmm_sti state ;; mret ret.

(** The bits [vmm_set_pat_pages] adds to an entry. *)
Definition pat_bits (pat_entry : Z) : Z :=
  let bit1 := if Z.land pat_entry 1 =? 1 then 1 else 0 in
  let bit2 := if Z.land pat_entry 2 =? 2 then 1 else 0 in
  let bit3 := if Z.land pat_entry 4 =? 4 then 1 else 0 in
  Z.lor (Z.lor (Z.shiftl bit1 3) (Z.shiftl bit2 4)) (Z.shiftl bit3 7).

Fixpoint set_pat_loop (n : nat) (cur_virt virt p4 pat_entry : Z) : vM unit :=
  match n with
  | O => mret tt
  | S n' =>
      let p4_offset := GET_HIGHER_HALF p4 in
      let offs := vmm_virt_to_offs cur_virt in
      phys ← virt_to_phys virt p4;
      (if negb (phys =? NOT_MAPPED) then
         p3 ← traverse_page_table p4_offset (p4_off offs);
         if negb (p3 =? 0) then
           p2 ← traverse_page_table p3 (p3_off offs);
           if negb (p2 =? 0) then
             p1 ← traverse_page_table p2 (p2_off offs);
             cur_data ← get_entry p1 (p1_off offs);
             set_entry p1 (p1_off offs) (Z.lor cur_data (pat_bits pat_entry))
           else mret tt
         else mret tt
       else mret tt) ;;
      vmm_invlpg cur_virt ;;
      set_pat_loop n' (u64 (cur_virt + PAGE)) virt p4 pat_entry
  end.

Definition vmm_set_pat_pages (virt p4 count pat_entry : Z) : vM unit :=
  state ← vmm_cli;
  vmm_lock ;;
  set_pat_loop (Z.to_nat count) virt virt p4 pat_entry ;;
  vmm_unlock ;; vmm_sti state.

(** ** Address spaces *)

Definition vmm_fork_higher_half (old : Z) : vM Z :=
  state ← vmm_cli;
  vmm_lock ;;
  let old_p4 := GET_HIGHER_HALF old in
  ret ← vmm_pmm_alloc PAGE;
  let new_p4 := GET_HIGHER_HALF ret in
  zero_page (GET_LOWER_HALF new_p4) ;;
  for_loop 256 256 (λ i, e ← get_entry old_p4 i; set_entry new_p4 i e) ;;
  vmm_unlock ;; vmm_sti state ;; mret ret.

(** Visit the present entries of a table, [n] of them from [i] on. *)
Definition present_entries (n : nat) (table : Z) (body : Z → Z → vM unit) : vM unit :=
  for_loop n 0 (λ i,
    e ← get_entry table i;
    if has e VMM_PRESENT then body i (Z.land e VMM_4K_PERM_MASK) else mret tt).

(** [memcpy64(src, dst, 0x200)] between two pages of the direct map. *)
Definition copy_page (src dst : Z) : vM unit :=
  for_loop 512 0 (λ i, e ← get_entry src i; set_entry dst i e).

Definition vmm_fork (old : Z) : vM Z :=
  ret ← vmm_fork_higher_half old;
  let table := GET_HIGHER_HALF old in
  state ← vmm_cli;
  vmm_lock ;;
  present_entries 256 table (λ w e4,
    let table_z := GET_HIGHER_HALF e4 in
    present_entries 512 table_z (λ z e3,
      let table_y := GET_HIGHER_HALF e3 in
      present_entries 512 table_y (λ y e2,
        let table_x := GET_HIGHER_HALF e2 in
        present_entries 512 table_x (λ x _,
          let virt := vmm_offs_to_virt (mk_off w z y x) in
          phys ← virt_to_phys virt (GET_LOWER_HALF table);
          new_phys ← vmm_pmm_alloc PAGE;
          copy_page (GET_HIGHER_HALF phys) (GET_HIGHER_HALF new_phys) ;;
          vmm_unlock ;;
          e ← get_entry table_x x;
          vmm_map_pages new_phys virt ret 1 (Z.land e 4095) ;;
          vmm_lock)))) ;;
  vmm_unlock ;; vmm_sti state ;; mret ret.

(** Like [present_entries], leaving all loops as soon as the body says so. *)
Fixpoint search_entries (n : nat) (i table : Z) (body : Z → Z → vM bool) : vM bool :=
  match n with
  | O => mret false
  | S n' =>
      e ← get_entry table i;
      found ← (if has e VMM_PRESENT
               then body i (Z.land e VMM_4K_PERM_MASK) else mret false);
      if found : bool then mret true else search_entries n' (i + 1) table body
  end.

Definition is_mapped_in_userspace (phys_address : Z) : vM Z :=
  base ← vmm_get_base;
  let table := GET_HIGHER_HALF base in
  state ← vmm_cli;
  vmm_lock ;;
  found ← search_entries 256 0 table (λ w e4,
    let table_z := GET_HIGHER_HALF e4 in
    search_entries 512 0 table_z (λ z e3,
      let table_y := GET_HIGHER_HALF e3 in
      search_entries 512 0 table_y (λ y e2,
        let table_x := GET_HIGHER_HALF e2 in
        search_entries 512 0 table_x (λ x _,
          let virt := vmm_offs_to_virt (mk_off w z y x) in
          phys ← virt_to_phys virt (GET_LOWER_HALF table);
          e ← get_entry table_x x;
          mret ((phys =? phys_address) && has e VMM_USER)))));
  if found : bool then vmm_unlock ;; mret 1
  else vmm_unlock ;; vmm_sti state ;; mret 0.

Definition range_mapped_in_userspace (data size : Z) : vM Z :=
  range_loop is_mapped_in_userspace (Z.to_nat (range_pages data size))
    (Z.land data VMM_4K_PERM_MASK).

Definition vmm_deconstruct_address_space (old : Z) : vM unit :=
  let table := GET_HIGHER_HALF old in
  state ← vmm_cli;
  vmm_lock ;;
  present_entries 256 table (λ _ e4,
    let table_z := GET_HIGHER_HALF e4 in
    present_entries 512 table_z (λ _ e3,
      let table_y := GET_HIGHER_HALF e3 in
      present_entries 512 table_y (λ _ e2,
        let table_x := GET_HIGHER_HALF e2 in
        present_entries 512 table_x (λ _ e1, vmm_pmm_unalloc e1 PAGE) ;;
        vmm_pmm_unalloc (GET_LOWER_HALF table_x) PAGE) ;;
      vmm_pmm_unalloc (GET_LOWER_HALF table_y) PAGE) ;;
    vmm_pmm_unalloc (GET_LOWER_HALF table_z) PAGE) ;;
  vmm_pmm_unalloc old PAGE ;;
  vmm_unlock ;; vmm_sti state.

Definition vmm_map (phys virt count perms : Z) : vM Z :=
  base ← vmm_get_base; vmm_map_pages phys virt base count perms.
Definition vmm_remap (phys virt count perms : Z) : vM Z :=
  base ← vmm_get_base; vmm_remap_pages phys virt base count perms.
Definition vmm_unmap (virt count : Z) : vM Z :=
  base ← vmm_get_base; vmm_unmap_pages virt base count.
Definition vmm_set_pat (virt count pat_entry : Z) : vM unit :=
  base ← vmm_get_base; vmm_set_pat_pages virt base count pat_entry.

(** The end of [pmm_memory_setup] (mm/pmm.c): leave the bootloader's address
    space for a new one that maps physical memory up to [mem_end] at the
    direct map, and shares the kernel's own top entry. *)
Definition pmm_switch_address_space (mem_end : Z) : vM unit :=
  new_cr3 ← vmm_pmm_alloc PAGE;
  zero_page (GET_LOWER_HALF (GET_HIGHER_HALF new_cr3)) ;;
  let page_count := u64 (mem_end + PAGE - 1) / PAGE in
  vmm_map_pages 0 NORMAL_VMA_OFFSET new_cr3 page_count (Z.lor VMM_PRESENT VMM_WRITE) ;;
  base ← vmm_get_base;
  e ← get_entry (GET_HIGHER_HALF base) 511;
  set_entry (GET_HIGHER_HALF new_cr3) 511 e ;;
  vmm_set_base new_cr3 ;;
  modify (λ s, set_boot (cr3 s) 1 s).

End ops.
