(* ===== verification/VmmTree.v ===== *)
(** * Page-table trees: address arithmetic, the processor's walk, the invariant

    [walk] is the translation the processor does on the tables in physical
    memory, with the masks of the code.  [tree_ok] is the invariant of an address space: a finite map [T]
    names the frame that holds each table by the table's place in the tree (its
    level and the address prefix it translates), frames are not shared between
    places, and every entry of an upper table is zero, a table of the tree, or
    (in a page directory) an aligned 2 MiB page. *)

From S2P Require Import Prelude Locks Pmm Frames Vmm.

(** ** Flags and masks *)

Lemma has_testbit e k : 0 ≤ k → has e (2 ^ k) = Z.testbit e k.
Proof.
  intros Hk. unfold has. rewrite <- Z.shiftl_1_l, land_pow2_zero by done.
  apply negb_involutive.
Qed.

Lemma has_present e : has e VMM_PRESENT = Z.testbit e 0.
Proof. exact (has_testbit e 0 ltac:(lia)). Qed.
Lemma has_huge e : has e VMM_HUGE = Z.testbit e 7.
Proof. exact (has_testbit e 7 ltac:(lia)). Qed.
Lemma has_user e : has e VMM_USER = Z.testbit e 2.
Proof. exact (has_testbit e 2 ltac:(lia)). Qed.

Lemma land_4095 e : Z.land e 4095 = e mod 4096.
Proof. exact (Z.land_ones e 12 ltac:(lia)). Qed.
Lemma land_2M e : Z.land e 2097151 = e mod 2097152.
Proof. exact (Z.land_ones e 21 ltac:(lia)). Qed.

Lemma land_mask e : is_u64 e → Z.land e VMM_4K_PERM_MASK = 4096 * (e / 4096).
Proof.
  intros He. replace VMM_4K_PERM_MASK with (Z.ldiff (Z.ones 64) (Z.ones 12)) by done.
  replace (4096 * (e / 4096)) with (Z.shiftl (Z.shiftr e 12) 12)
    by (rewrite Z.shiftl_mul_pow2, Z.shiftr_div_pow2 by lia; change (2 ^ 12) with 4096; lia).
  apply Z.bits_inj'. intros n Hn. rewrite Z.land_spec, Z.ldiff_spec.
  destruct (decide (n < 12)).
  - rewrite (Z.ones_spec_low 12) by lia. rewrite Z.shiftl_spec_low by lia.
    by rewrite !andb_false_r.
  - rewrite (Z.ones_spec_high 12) by lia. rewrite Z.shiftl_spec, Z.shiftr_spec by lia.
    replace (n - 12 + 12) with n by lia. destruct (decide (n < 64)).
    + rewrite Z.ones_spec_low by lia. by rewrite andb_true_r.
    + assert (Z.testbit e n = false) as ->; [|by rewrite andb_false_l].
      replace e with (e mod 2 ^ 64) by (apply Z.mod_small; exact He).
      apply Z.mod_pow2_bits_high. lia.
Qed.

Lemma lor_low a p : a mod 4096 = 0 → 0 ≤ p < 4096 → Z.lor a p = a + p.
Proof. intros Ha Hp. by apply (lor_disjoint 12). Qed.

Lemma testbit_page a p k : a mod 4096 = 0 → 0 ≤ k < 12 →
  Z.testbit (a + p) k = Z.testbit p k.
Proof.
  intros Ha Hk. rewrite <- (Z.mod_pow2_bits_low (a + p) 12) by lia.
  rewrite <- (Z.mod_pow2_bits_low p 12) by lia. f_equal.
  change (2 ^ 12) with 4096. dlia.
Qed.

(** An entry made of a page address and flag bits. *)
Lemma page_entry a p : a mod 4096 = 0 → 0 ≤ a < U64_MOD → 0 ≤ p < 4096 →
  let e := Z.lor a p in
  is_u64 e ∧ Z.land e VMM_4K_PERM_MASK = a ∧ e mod 4096 = p ∧
  ∀ k, 0 ≤ k < 12 → Z.testbit e k = Z.testbit p k.
Proof.
  intros Ha Ha2 Hp. cbn zeta. rewrite lor_low by done.
  assert (is_u64 (a + p)) by (unfold is_u64; dlia).
  rewrite land_mask by done. split_and!; [done|dlia|dlia|].
  intros k Hk. by apply testbit_page.
Qed.

(** ** Levels: 0 is a page table, 3 the top table *)

Definition blk (l : nat) : Z :=
  match l with
  | 0%nat => 4096 | 1%nat => 2097152 | 2%nat => 1073741824 | 3%nat => 549755813888
  | _ => 281474976710656
  end.

(** The entry of a level-[l] table that translates [v], and the place of the
    level-[l] table itself. *)
Definition pt_index (l : nat) (v : Z) : Z := (v / blk l) mod 512.
Definition vpfx (l : nat) (v : Z) : Z := (v mod 281474976710656) / blk (S l).

(** The page number of a 48-bit virtual address. *)
Definition vpn (v : Z) : Z := (v / PAGE) mod 68719476736.

Lemma pt_index_range l v : 0 ≤ pt_index l v < 512.
Proof. unfold pt_index. dlia. Qed.

Lemma vpfx_step l v : (l < 3)%nat →
  vpfx l v = vpfx (S l) v * 512 + pt_index (S l) v.
Proof.
  intros Hl. unfold vpfx, pt_index.
  destruct l as [|[|[|]]]; [..|lia]; cbn [blk]; dlia.
Qed.

Lemma vpfx_up l v : (l < 3)%nat → vpfx l v / 512 = vpfx (S l) v.
Proof. intros Hl. rewrite vpfx_step by done. pose proof (pt_index_range (S l) v). dlia. Qed.

Lemma vpfx_root v : vpfx 3 v = 0.
Proof. unfold vpfx. cbn [blk]. dlia. Qed.

Lemma vpn_split v : vpn v = vpfx 0 v * 512 + pt_index 0 v.
Proof. unfold vpn, vpfx, pt_index. cbn [blk]. dlia. Qed.

Lemma vpn_page v k : vpn (u64 (v + 4096 * k)) = (vpn v + k) mod 68719476736.
Proof. unfold vpn, u64. dlia. Qed.

Lemma offs_field v k : 0 ≤ k →
  Z.shiftr (Z.land v (Z.shiftl 511 k)) k = (v / 2 ^ k) mod 512.
Proof.
  intros Hk. rewrite Z.shiftr_land, Z.shiftr_shiftl_l by lia.
  rewrite Z.sub_diag, Z.shiftl_0_r. change 511 with (Z.ones 9).
  rewrite Z.land_ones by lia. by rewrite Z.shiftr_div_pow2 by lia.
Qed.

Lemma offs_index v :
  vmm_virt_to_offs v =
    mk_off (pt_index 3 v) (pt_index 2 v) (pt_index 1 v) (pt_index 0 v).
Proof. unfold vmm_virt_to_offs. by rewrite !offs_field by lia. Qed.

(** ** The processor's translation

    [walk] reads the tables with the masks of the code: it keeps bits 52 to 63 of
    an entry and knows no 1 GiB pages.  [mmu_walk] is what the processor itself
    does; the two agree where the entries on the way are [plain], as those are that the code writes (it sets no such bits and no
    large page above a page directory). *)

Fixpoint walk (m : Z → Z) (l : nat) (t v : Z) : option (Z * Z) :=
  let e := m (t + 8 * pt_index l v) in
  if has e VMM_PRESENT then
    match l with
    | O => Some (Z.land e VMM_4K_PERM_MASK + v mod 4096, e mod 4096)
    | S l' =>
        if (l' =? 0)%nat && has e VMM_HUGE
        then Some (Z.land e VMM_4K_PERM_MASK + v mod 2097152, e mod 4096)
        else walk m l' (Z.land e VMM_4K_PERM_MASK) v
    end
  else None.

(** Bits 12 to 51 of an entry are an address; in the entry of a 2 MiB page or a 1 GiB page, those from the page's size on. *)
Definition entry_address (size e : Z) : Z := (e mod 4503599627370496) / size * size.
Fixpoint mmu_walk (m : Z → Z) (l : nat) (t v : Z) : option (Z * Z) :=
  let e := m (t + 8 * pt_index l v) in
  if has e VMM_PRESENT then
    match l with
    | O => Some (entry_address 4096 e + v mod 4096, e mod 4096)
    | S l' =>
        if (l' <? 2)%nat && has e VMM_HUGE
        then Some (entry_address (blk l) e + v mod blk l, e mod 4096)
        else mmu_walk m l' (entry_address 4096 e) v
    end
  else None.

(** No entry on the way has bits above 51, or is a large page other than an aligned one of 2 MiB. *)
Fixpoint plain_path (m : Z → Z) (l : nat) (t v : Z) : Prop :=
  let e := m (t + 8 * pt_index l v) in
  0 ≤ e < 4503599627370496 ∧
  match l with
  | O => True
  | S l' => if has e VMM_HUGE then l' = 0%nat ∧ (e / 4096 * 4096) mod 2097152 = 0 else plain_path m l' (Z.land e VMM_4K_PERM_MASK) v
  end.

Lemma mmu_walk_plain m v l : ∀ t, plain_path m l t v → mmu_walk m l t v = walk m l t v.
Proof.
  induction l as [|l IH]; intros t; cbn [plain_path mmu_walk walk]; cbv zeta; set (e := m _); intros [He Hp];
    pose proof (land_mask e ltac:(unfold is_u64; lia)) as El; unfold entry_address; rewrite (Z.mod_small e) by lia; destruct (has e VMM_PRESENT); try done.
  - rewrite El. do 2 f_equal. lia.
  - destruct (has e VMM_HUGE).
    + destruct Hp as [-> Ha]. cbn [Nat.ltb Nat.leb Nat.eqb andb]. rewrite El. cbn [blk]. do 2 f_equal. dlia.
    + rewrite !andb_false_r. rewrite Z.mul_comm, <-El. by apply IH.
Qed.

(** The physical address and the flags of [v] in the address space [root]. *)
Definition translate {F} (s : vmm_state F) (root v : Z) : option (Z * Z) :=
  walk (mem s) 3 root v.

(** ** The invariant *)

Abbreviation tree := (gmap (nat * Z) Z).

Definition entry_ok (T : tree) (l : nat) (pr e : Z) : Prop :=
  match T !! (l, pr) with
  | Some f => Z.land e VMM_4K_PERM_MASK = f ∧ has e VMM_PRESENT = true ∧
              (l = 0%nat → has e VMM_HUGE = false)
  | None => e = 0 ∨
      (l = 0%nat ∧ has e VMM_PRESENT = true ∧ has e VMM_HUGE = true ∧
       Z.land e VMM_4K_PERM_MASK mod 2097152 = 0)
  end.

Section tree.
Context {F : Type} `{!FrameAlloc F} `{!FrameAllocLaws F}.
Implicit Types (s : vmm_state F) (T : tree).

Record tree_ok (T : tree) (root : Z) (s : vmm_state F) : Prop := mk_tree_ok {
  t_alloc : fa_inv (frames s);
  t_mem : ∀ a, is_u64 (mem s a);
  t_root : T !! (3%nat, 0) = Some root;
  t_frame : ∀ l pr f, T !! (l, pr) = Some f →
    (l ≤ 3)%nat ∧ f mod 4096 = 0 ∧ 0 < f < 140737488355328 ∧
    fa_used (frames s) (f / 4096) = true;
  t_inj : ∀ r1 r2 f, T !! r1 = Some f → T !! r2 = Some f → r1 = r2;
  t_up : ∀ l pr f, T !! (l, pr) = Some f → (l < 3)%nat → is_Some (T !! (S l, pr / 512));
  t_entry : ∀ l pr f i, T !! (S l, pr) = Some f → 0 ≤ i < 512 →
    entry_ok T l (pr * 512 + i) (mem s (f + 8 * i))
}.

Lemma lower_entry f i : 0 ≤ f → 0 ≤ i < 512 → f + 4096 ≤ U64_MOD →
  GET_LOWER_HALF (GET_HIGHER_HALF f + 8 * i) = f + 8 * i.
Proof.
  intros Hf Hi Hb. unfold GET_LOWER_HALF, GET_HIGHER_HALF, u64, NORMAL_VMA_OFFSET. dlia.
Qed.

Lemma lower_higher f : is_u64 f → GET_LOWER_HALF (GET_HIGHER_HALF f) = f.
Proof. intros H. unfold GET_LOWER_HALF, GET_HIGHER_HALF. by apply u64_add_sub. Qed.

(** The walk of [v] reaches the level-[l] table of [v] when there is one. *)
Lemma walk_reach T root s v : tree_ok T root s → ∀ l t,
  T !! (l, vpfx l v) = Some t → walk (mem s) 3 root v = walk (mem s) l t v.
Proof.
  intros Hok. assert (∀ d l t, (l + d = 3)%nat →
    T !! (l, vpfx l v) = Some t → walk (mem s) 3 root v = walk (mem s) l t v) as H.
  { induction d as [|d IH]; intros l t Hl Ht.
    - replace l with 3%nat in * by lia. rewrite vpfx_root in Ht.
      pose proof (t_root _ _ _ Hok). by simplify_eq.
    - destruct (t_up _ _ _ Hok _ _ _ Ht ltac:(lia)) as [t' Ht'].
      rewrite vpfx_up in Ht' by lia. rewrite (IH (S l) t' ltac:(lia) Ht').
      pose proof (t_entry _ _ _ Hok _ _ _ _ Ht' (pt_index_range (S l) v)) as He.
      rewrite <- vpfx_step in He by lia. unfold entry_ok in He. rewrite Ht in He.
      destruct He as (Hf & Hp & Hh). cbn [walk]. rewrite Hp, Hf.
      destruct l; [|done]. by rewrite Hh. }
  intros l t Ht. destruct (t_frame _ _ _ Hok _ _ _ Ht) as [Hl _].
  by apply (H (3 - l)%nat); [lia|].
Qed.

(** The walk of [v] depends only on the entries on its path. *)
Lemma walk_agree T root s m' v : tree_ok T root s →
  (∀ l f, T !! (l, vpfx l v) = Some f →
     m' (f + 8 * pt_index l v) = mem s (f + 8 * pt_index l v)) →
  ∀ l t, T !! (l, vpfx l v) = Some t → walk m' l t v = walk (mem s) l t v.
Proof.
  intros Hok Hag l. induction l as [|l IH]; intros t Ht; cbn [walk];
    rewrite (Hag _ _ Ht); [done|].
  destruct (t_frame _ _ _ Hok _ _ _ Ht) as [Hl _].
  pose proof (t_entry _ _ _ Hok _ _ _ _ Ht (pt_index_range (S l) v)) as He.
  rewrite <- vpfx_step in He by lia. unfold entry_ok in He.
  destruct (T !! (l, vpfx l v)) as [f|] eqn:E.
  - destruct He as (Hf & Hp & Hh). rewrite Hp, Hf. destruct l; [by rewrite Hh, IH|].
    cbn. by apply IH.
  - destruct He as [->|(-> & Hp & Hh & _)]; [done|]. by rewrite Hp, Hh.
Qed.

(** Two frames of the tree, or two entries of a frame, do not overlap. *)
Lemma entry_addr T root s l pr f l' pr' f' i i' : tree_ok T root s →
  T !! (l, pr) = Some f → T !! (l', pr') = Some f' → 0 ≤ i < 512 → 0 ≤ i' < 512 →
  f + 8 * i = f' + 8 * i' → l = l' ∧ pr = pr' ∧ f = f' ∧ i = i'.
Proof.
  intros Hok H1 H2 Hi Hi' Heq.
  destruct (t_frame _ _ _ Hok _ _ _ H1) as (_ & Ha & _).
  destruct (t_frame _ _ _ Hok _ _ _ H2) as (_ & Ha' & _).
  assert (f = f') by dlia. subst f'.
  pose proof (t_inj _ _ _ Hok _ _ _ H1 H2). simplify_eq. lia.
Qed.
End tree.
