(* ===== verification/VmmSpec.v ===== *)
(** * What the operations of the virtual memory manager do to translations

    Building tables ([vmm_ensure_table], [vmm_remap_to_4k], [vmm_get_table])
    changes no translation; mapping, remapping and unmapping change exactly the
    pages they name.  The proofs are against the allocator interface of
    Frames.v and the invariant of VmmTree.v. *)

From S2P Require Import Prelude Locks Pmm Frames Vmm VmmTree.

Section spec.
Context {F : Type} `{!FrameAlloc F} `{!FrameAllocLaws F}.
Implicit Types (s : vmm_state F) (T : tree).

(** Everything but memory, the allocator and the flush log is unchanged. *)
Definition same_regs (s s' : vmm_state F) : Prop :=
  cr3 s' = cr3 s ∧ vmm_spinlock s' = vmm_spinlock s ∧
  base_kernel_cr3 s' = base_kernel_cr3 s ∧ vmm_complete s' = vmm_complete s ∧
  if_flag (fa_cpu (frames s')) = if_flag (fa_cpu (frames s)) ∧
  fa_size (frames s') = fa_size (frames s).

(** The tree grew by at most [n] tables. *)
Record grows (n : nat) (root : Z) (T : tree) s (T' : tree) s' : Prop := mk_grows {
  g_ok : tree_ok T' root s';
  g_sub : T ⊆ T';
  g_new : ∀ r f, T' !! r = Some f → T !! r = Some f ∨ fa_used (frames s) (f / 4096) = false;
  g_used : ∀ p, fa_used (frames s) p = true → fa_used (frames s') p = true;
  g_room : ∀ k, has_room (frames s) (n + k) → has_room (frames s') k;
  g_data : ∀ a, fa_used (frames s) (a / 4096) = true →
    (∀ r, T !! r ≠ Some (4096 * (a / 4096))) → mem s' a = mem s a;
  g_flush : ∃ l, flushed s' = flushed s ++ l;
  g_regs : same_regs s s'
}.

Lemma same_regs_refl s : same_regs s s.
Proof. done. Qed.
Lemma same_regs_trans s1 s2 s3 : same_regs s1 s2 → same_regs s2 s3 → same_regs s1 s3.
Proof. unfold same_regs. intuition congruence. Qed.

Lemma grows_refl n root T s : tree_ok T root s → grows n root T s T s.
Proof.
  intros H. split; auto.
  - intros k. apply has_room_le. lia.
  - exists []. by rewrite app_nil_r.
  - done.
Qed.

Lemma grows_trans n1 n2 root T1 s1 T2 s2 T3 s3 :
  grows n1 root T1 s1 T2 s2 → grows n2 root T2 s2 T3 s3 →
  grows (n1 + n2) root T1 s1 T3 s3.
Proof.
  intros G1 G2. split.
  - apply (g_ok _ _ _ _ _ _ G2).
  - etrans; [apply (g_sub _ _ _ _ _ _ G1)|apply (g_sub _ _ _ _ _ _ G2)].
  - intros r f Hr. destruct (g_new _ _ _ _ _ _ G2 r f Hr) as [H2|H2].
    + by apply (g_new _ _ _ _ _ _ G1).
    + right. destruct (fa_used (frames s1) (f / 4096)) eqn:E; [|done].
      by rewrite (g_used _ _ _ _ _ _ G1 _ E) in H2.
  - intros p Hp. by apply (g_used _ _ _ _ _ _ G2), (g_used _ _ _ _ _ _ G1).
  - intros k Hk. apply (g_room _ _ _ _ _ _ G2), (g_room _ _ _ _ _ _ G1).
    by rewrite Nat.add_assoc.
  - intros a Ha HT. rewrite <- (g_data _ _ _ _ _ _ G1 a Ha HT).
    apply (g_data _ _ _ _ _ _ G2); [by apply (g_used _ _ _ _ _ _ G1)|].
    intros r Hr. destruct (g_new _ _ _ _ _ _ G1 r _ Hr) as [H2|H2]; [by eapply HT|].
    replace (4096 * (a / 4096) / 4096) with (a / 4096) in H2 by dlia. congruence.
  - destruct (g_flush _ _ _ _ _ _ G1) as [l1 E1], (g_flush _ _ _ _ _ _ G2) as [l2 E2].
    exists (l1 ++ l2). by rewrite E2, E1, app_assoc.
  - eapply same_regs_trans; [apply (g_regs _ _ _ _ _ _ G1)|apply (g_regs _ _ _ _ _ _ G2)].
Qed.

Lemma grows_weaken n m root T s T' s' :
  (n ≤ m)%nat → grows n root T s T' s' → grows m root T s T' s'.
Proof.
  intros Hle []. split; auto. intros k Hk. apply g_room0.
  eapply has_room_le; [|exact Hk]. lia.
Qed.

(** ** Table accesses *)

Section access.
Context (T : tree) (root : Z) s (Hok : tree_ok T root s).
Context (l : nat) (pr f i : Z) (Hf : T !! (l, pr) = Some f) (Hi : 0 ≤ i < 512).

Lemma table_addr : GET_LOWER_HALF (GET_HIGHER_HALF f + 8 * i) = f + 8 * i.
Proof.
  destruct (t_frame _ _ _ Hok _ _ _ Hf) as (_ & _ & Hb & _). apply lower_entry; lia.
Qed.

Lemma get_entry_ok : get_entry (GET_HIGHER_HALF f) i s = Ok (mem s (f + 8 * i), s).
Proof. unfold get_entry, gets. by rewrite table_addr. Qed.

Lemma set_entry_ok w : set_entry (GET_HIGHER_HALF f) i w s =
  Ok (tt, set_mem (mem_upd (mem s) (f + 8 * i) w) s).
Proof. unfold set_entry, modify. by rewrite table_addr. Qed.

Lemma traverse_ok : traverse_page_table (GET_HIGHER_HALF f) i s =
  Ok (GET_HIGHER_HALF (Z.land (mem s (f + 8 * i)) VMM_4K_PERM_MASK), s).
Proof. unfold traverse_page_table. by mrun get_entry_ok. Qed.
End access.

Lemma set_entry_ok' f i w s : 0 ≤ f → f + 4096 ≤ U64_MOD → 0 ≤ i < 512 →
  set_entry (GET_HIGHER_HALF f) i w s = Ok (tt, set_mem (mem_upd (mem s) (f + 8 * i) w) s).
Proof. intros H1 H2 H3. unfold set_entry, modify. by rewrite lower_entry by lia. Qed.

(** ** Hanging a new table into the tree *)

Definition table_entry (nf : Z) : Z :=
  Z.lor (Z.lor (Z.lor nf VMM_PRESENT) VMM_WRITE) VMM_USER.

Lemma table_entry_ok p : 0 < p < PHYS_PAGES → let e := table_entry (p * PAGE) in
  is_u64 e ∧ Z.land e VMM_4K_PERM_MASK = p * PAGE ∧
  has e VMM_PRESENT = true ∧ has e VMM_HUGE = false.
Proof.
  unfold PHYS_PAGES. intros Hp. unfold table_entry. rewrite <- !Z.lor_assoc.
  destruct (page_entry (p * PAGE) 7) as (H1 & H2 & _ & H3); [dlia|lia|lia|].
  cbn zeta in *. rewrite has_present, has_huge.
  change (Z.lor VMM_PRESENT (Z.lor VMM_WRITE VMM_USER)) with 7.
  split_and!; [done|done|by rewrite H3|by rewrite H3].
Qed.

Section install.
Context (T : tree) (root : Z) s s' (Hok : tree_ok T root s).
Context (l : nat) (pr t i np : Z) (Ht : T !! (S l, pr) = Some t) (Hi : 0 ≤ i < 512).
Context (Hnone : T !! (l, pr * 512 + i) = None).
Context (Hnp : 0 < np < PHYS_PAGES) (Hfree : fa_used (frames s) np = false).
Context (Hinv : fa_inv (frames s')).
Context (Hused : ∀ q, fa_used (frames s') q = (fa_used (frames s) q || (q =? np))%bool).
Context (Hmem : ∀ a, is_u64 (mem s' a)).
Context (Hold : ∀ a, a / 4096 ≠ np → a ≠ t + 8 * i → mem s' a = mem s a).
Context (Hent : mem s' (t + 8 * i) = table_entry (np * PAGE)).
Context (Hnew : (l ≠ 0)%nat → ∀ j, 0 ≤ j < 512 → mem s' (np * PAGE + 8 * j) = 0).
Context (Hwalk : ∀ v, vpfx l v = pr * 512 + i →
  walk (mem s') l (np * PAGE) v = walk (mem s) (S l) t v).

Let T' : tree := <[(l, pr * 512 + i) := np * PAGE]> T.

Lemma install_fresh r f : T !! r = Some f → f / 4096 ≠ np.
Proof.
  destruct r as [l0 pr0]. intros Hr E.
  destruct (t_frame _ _ _ Hok _ _ _ Hr) as (_ & _ & _ & Hu). congruence.
Qed.

Lemma install_entries l0 pr0 f j :
  T' !! (S l0, pr0) = Some f → 0 ≤ j < 512 →
  entry_ok T' l0 (pr0 * 512 + j) (mem s' (f + 8 * j)).
Proof.
  intros Hl Hj. unfold entry_ok. unfold T' in Hl.
  destruct (decide ((l, pr * 512 + i) = (S l0, pr0))) as [E|E].
  - rewrite <- E, lookup_insert_eq in Hl. injection Hl as <-. injection E as El <-.
    rewrite Hnew by lia. unfold T'. rewrite lookup_insert_ne by (intros [=]; lia).
    destruct (T !! (l0, _)) as [f|] eqn:E; [|by left].
    destruct (t_frame _ _ _ Hok _ _ _ Ht) as [Hl3 _].
    destruct (t_up _ _ _ Hok _ _ _ E) as [f' Hf']; [lia|]. rewrite <- El in Hf'.
    replace (((pr * 512 + i) * 512 + j) / 512) with (pr * 512 + i) in Hf' by dlia.
    congruence.
  - rewrite lookup_insert_ne in Hl by done. pose proof (install_fresh _ _ Hl) as Hfr.
    destruct (t_frame _ _ _ Hok _ _ _ Hl) as (_ & Ha & _).
    destruct (decide (f + 8 * j = t + 8 * i)) as [Ea|Ea].
    + destruct (entry_addr _ _ _ _ _ _ _ _ _ _ _ Hok Hl Ht Hj Hi Ea) as (? & -> & -> & ->).
      assert (l0 = l) as -> by congruence. unfold T'. rewrite lookup_insert_eq, Hent.
      destruct (table_entry_ok np Hnp) as (_ & ? & ? & ?). done.
    + rewrite Hold by (done || dlia).
      unfold T'. rewrite lookup_insert_ne.
      { by apply (t_entry _ _ _ Hok). }
      intros [= -> Hp]. apply Ea. assert (pr0 = pr) as -> by lia.
      assert (j = i) as -> by lia. rewrite Ht in Hl. by injection Hl as ->.
Qed.

Lemma install_tree : tree_ok T' root s'.
Proof.
  destruct (t_frame _ _ _ Hok _ _ _ Ht) as [Hl3 _]. split.
  - done.
  - done.
  - unfold T'. rewrite lookup_insert_ne by (intros [=]; lia). apply (t_root _ _ _ Hok).
  - intros l0 pr0 f Hl. unfold T' in Hl. rewrite Hused.
    apply lookup_insert_Some in Hl as [[[= <- <-] <-]|[_ Hl]].
    + unfold PHYS_PAGES in Hnp. split_and!; [lia|dlia|lia|lia|].
      replace (np * PAGE / 4096) with np by dlia. by rewrite Z.eqb_refl, orb_true_r.
    + destruct (t_frame _ _ _ Hok _ _ _ Hl) as (? & ? & ? & ->). done.
  - intros r1 r2 f H1 H2. unfold T' in H1, H2.
    apply lookup_insert_Some in H1 as [[<- <-]|[? H1]];
      apply lookup_insert_Some in H2 as [[<- E]|[? H2]]; try done.
    + exfalso. apply (install_fresh _ _ H2). dlia.
    + subst f. exfalso. apply (install_fresh _ _ H1). dlia.
    + by apply (t_inj _ _ _ Hok _ _ f).
  - intros l0 pr0 f Hl Hlt. unfold T' in *. apply lookup_insert_is_Some'. right.
    apply lookup_insert_Some in Hl as [[[= <- <-] <-]|[_ Hl]].
    + replace ((pr * 512 + i) / 512) with pr by dlia. by exists t.
    + by apply (t_up _ _ _ Hok _ _ f).
  - intros. by apply install_entries.
Qed.

Lemma install_walk v : walk (mem s') 3 root v = walk (mem s) 3 root v.
Proof.
  destruct (t_frame _ _ _ Hok _ _ _ Ht) as [Hl3 _].
  destruct (decide (vpfx l v = pr * 512 + i)) as [Hv|Hv].
  - pose proof install_tree as Hok'.
    rewrite (walk_reach _ _ _ v Hok' l (np * PAGE))
      by (unfold T'; rewrite Hv; apply lookup_insert_eq).
    rewrite (walk_reach _ _ _ v Hok (S l) t); [by apply Hwalk|].
    rewrite <- vpfx_up, Hv by lia. by replace ((pr * 512 + i) / 512) with pr by dlia.
  - apply (walk_agree _ _ _ _ _ Hok).
    + intros l0 f Hl. destruct (t_frame _ _ _ Hok _ _ _ Hl) as (_ & Ha & _).
      pose proof (install_fresh _ _ Hl). pose proof (pt_index_range l0 v).
      apply Hold; [dlia|]. intros E.
      destruct (entry_addr _ _ _ _ _ _ _ _ _ _ _ Hok Hl Ht (pt_index_range _ _) Hi E)
        as (-> & Hp & _ & <-).
      apply Hv. rewrite vpfx_step by lia. by rewrite Hp.
    + rewrite vpfx_root. apply (t_root _ _ _ Hok).
Qed.

Lemma install_grows :
  (∀ k, has_room (frames s) (S k) → has_room (frames s') k) →
  (∃ fl, flushed s' = flushed s ++ fl) → same_regs s s' → grows 1 root T s T' s'.
Proof.
  intros Hroom Hfl Hregs. split; try done.
  - exact install_tree.
  - by apply insert_subseteq.
  - intros r f Hr. apply lookup_insert_Some in Hr as [[_ <-]|[_ Hr]]; [right|by left].
    by replace (np * PAGE / 4096) with np by dlia.
  - intros p Hp. by rewrite Hused, Hp.
  - intros a Ha HT. apply Hold; [by intros E; congruence|].
    intros ->. destruct (t_frame _ _ _ Hok _ _ _ Ht) as (_ & Hal & _).
    apply (HT (S l, pr)). rewrite Ht. f_equal. dlia.
Qed.
End install.

(** ** Making tables *)

Definition quiet (n : nat) (root : Z) (T : tree) s (T' : tree) s' : Prop :=
  grows n root T s T' s' ∧ ∀ v, translate s' root v = translate s root v.

Lemma quiet_trans n1 n2 root T1 s1 T2 s2 T3 s3 :
  quiet n1 root T1 s1 T2 s2 → quiet n2 root T2 s2 T3 s3 →
  quiet (n1 + n2) root T1 s1 T3 s3.
Proof.
  intros [G1 W1] [G2 W2]. split; [by eapply grows_trans|]. intros v. by rewrite W2.
Qed.

Lemma walk_empty m l t v : (∀ j, 0 ≤ j < 512 → m (t + 8 * j) = 0) → walk m l t v = None.
Proof.
  intros H. destruct l; cbn [walk]; by rewrite H by apply pt_index_range.
Qed.

(** A page from the allocator, seen from the tree. *)
Lemma alloc_table T root s :
  tree_ok T root s → has_room (frames s) 1 →
  ∃ np fr, vmm_pmm_alloc PAGE s = Ok (np * PAGE, set_frames fr s) ∧
    0 < np < PHYS_PAGES ∧ fa_used (frames s) np = false ∧ fa_inv fr ∧
    (∀ q, fa_used fr q = (fa_used (frames s) q || (q =? np))%bool) ∧
    (∀ k, has_room (frames s) (S k) → has_room fr k) ∧
    if_flag (fa_cpu fr) = if_flag (fa_cpu (frames s)) ∧ fa_size fr = fa_size (frames s).
Proof.
  intros Hok Hr. destruct (fa_alloc_page (frames s) 0 (t_alloc _ _ _ Hok) Hr)
    as (np & fr & Ha & Hu & Hb & Hi & Hc & _ & Hsz & Hq).
  exists np, fr. split_and!; try done; try lia.
  - unfold vmm_pmm_alloc. by rewrite (zoom_ok _ _ _ _ _ _ Ha).
  - intros k Hk. by eapply has_room_take.
Qed.

Lemma page_lower np : 0 < np < PHYS_PAGES →
  GET_LOWER_HALF (GET_HIGHER_HALF (np * PAGE)) = np * PAGE.
Proof. unfold PHYS_PAGES. intros H. apply lower_higher. unfold is_u64. lia. Qed.

Lemma in_page np a : ((np * PAGE <=? a) && (a <? np * PAGE + PAGE)) = (a / 4096 =? np).
Proof.
  destruct (np * PAGE <=? a) eqn:?, (a <? np * PAGE + PAGE) eqn:?, (a / 4096 =? np) eqn:?;
    zbool; try done; exfalso; dlia.
Qed.

Lemma ensure_present T root s l pr t i f :
  tree_ok T root s → T !! (S l, pr) = Some t → 0 ≤ i < 512 →
  T !! (l, pr * 512 + i) = Some f →
  vmm_ensure_table (GET_HIGHER_HALF t) i s = Ok (tt, s).
Proof.
  intros Hok Ht Hi E. unfold vmm_ensure_table.
  mrun (get_entry_ok _ _ _ Hok _ _ _ _ Ht Hi).
  pose proof (t_entry _ _ _ Hok _ _ _ _ Ht Hi) as He. unfold entry_ok in He.
  rewrite E in He. destruct He as (_ & Hp & _). by rewrite Hp.
Qed.

Lemma ensure_ok T root s l pr t i :
  tree_ok T root s → T !! (S l, pr) = Some t → 0 ≤ i < 512 →
  (is_Some (T !! (l, pr * 512 + i)) ∨ mem s (t + 8 * i) = 0) →
  has_room (frames s) 1 →
  ∃ T' s' f, vmm_ensure_table (GET_HIGHER_HALF t) i s = Ok (tt, s') ∧
    quiet 1 root T s T' s' ∧ T' !! (l, pr * 512 + i) = Some f.
Proof.
  intros Hok Ht Hi Hcase Hroom.
  destruct (T !! (l, pr * 512 + i)) as [f|] eqn:E.
  { exists T, s, f. split; [by eapply ensure_present|]. split; [|done].
    split; [by apply grows_refl|done]. }
  destruct Hcase as [[? [=]]|Hz]. unfold vmm_ensure_table.
  mrun (get_entry_ok _ _ _ Hok _ _ _ _ Ht Hi). rewrite Hz.
  change (has 0 VMM_PRESENT) with false. cbn [negb].
  destruct (alloc_table _ _ _ Hok Hroom) as (np & fr & Ha & Hnp & Hu & Hinv & Hq & Hrm & Hc & Hsz).
  mrun Ha. rewrite page_lower by done. mstep. fold (table_entry (np * PAGE)).
  destruct (t_frame _ _ _ Hok _ _ _ Ht) as (Hl3 & Hal & Hb & Htu).
  rewrite set_entry_ok' by lia. eexists (<[_ := np * PAGE]> T), _, _.
  split; [reflexivity|]. split; [|apply lookup_insert_eq].
  set (s' := set_mem _ _).
  assert (t / 4096 ≠ np) as Hne by (intros <-; congruence).
  assert (∀ a, a / 4096 = np → mem s' a = 0) as Hzero.
  { intros a Hp. cbn. unfold mem_upd. rewrite in_page, Hp, Z.eqb_refl.
    destruct (a =? t + 8 * i) eqn:E2; zbool; [|done]. exfalso. apply Hne. dlia. }
  assert (mem s' (t + 8 * i) = table_entry (np * PAGE)) as Hent
    by (cbn; unfold mem_upd; by rewrite Z.eqb_refl).
  assert (∀ a, a / 4096 ≠ np → a ≠ t + 8 * i → mem s' a = mem s a) as Hold.
  { intros a H1 H2. cbn. unfold mem_upd. rewrite in_page.
    destruct (a =? t + 8 * i) eqn:E2, (a / 4096 =? np) eqn:E3; zbool; done. }
  assert (∀ a, is_u64 (mem s' a)) as Hmem.
  { intros a. destruct (decide (a / 4096 = np)) as [H1|H1]; [by rewrite Hzero|].
    destruct (decide (a = t + 8 * i)) as [->|H2]; [|rewrite Hold by done; apply Hok].
    rewrite Hent. by apply table_entry_ok. }
  assert (∀ j, 0 ≤ j < 512 → mem s' (np * PAGE + 8 * j) = 0) as Hnew
    by (intros j Hj; apply Hzero; dlia).
  assert (∀ v, vpfx l v = pr * 512 + i →
    walk (mem s') l (np * PAGE) v = walk (mem s) (S l) t v) as Hwalk.
  { intros v Hv. rewrite walk_empty by done. cbn [walk].
    replace (pt_index (S l) v) with i; [by rewrite Hz|].
    pose proof (vpfx_step l v ltac:(lia)). pose proof (pt_index_range (S l) v). lia. }
  split.
  - eapply install_grows; try done. by exists []; rewrite app_nil_r.
  - intros v. unfold translate. eapply install_walk; done.
Qed.

Lemma is_u64_ones z : is_u64 z ↔ z = Z.land z (Z.ones 64).
Proof.
  rewrite Z.land_ones by lia. unfold is_u64. change (2 ^ 64) with U64_MOD.
  split; intros H; [by rewrite Z.mod_small|rewrite H; dlia].
Qed.

Lemma is_u64_lor a b : is_u64 a → is_u64 b → is_u64 (Z.lor a b).
Proof. rewrite !is_u64_ones, Z.land_lor_distr_l. by intros <- <-. Qed.

Lemma remap_loop_ok nf perms n : ∀ i pos s,
  0 ≤ nf → nf + 4096 ≤ U64_MOD → 0 ≤ i → i + Z.of_nat n ≤ 512 → is_u64 pos → is_u64 perms →
  ∃ m', remap_loop n (GET_HIGHER_HALF nf) i pos perms s = Ok (tt, set_mem m' s) ∧
    (∀ j, i ≤ j < i + Z.of_nat n →
       m' (nf + 8 * j) = Z.lor (u64 (pos + 4096 * (j - i))) perms) ∧
    (∀ a, (∀ j, i ≤ j < i + Z.of_nat n → a ≠ nf + 8 * j) → m' a = mem s a) ∧
    ((∀ a, is_u64 (mem s a)) → ∀ a, is_u64 (m' a)).
Proof.
  induction n as [|n IH]; intros i pos s H1 H2 H3 H4 Hpos Hperms.
  - exists (mem s). split; [by destruct s|]. split_and!; [lia|done|done].
  - cbn [remap_loop].
    rewrite (bind_ok _ _ _ _ _ (set_entry_ok' nf i _ s H1 H2 ltac:(lia))).
    set (s1 := set_mem _ s). destruct (IH (i + 1) (u64 (pos + PAGE)) s1)
      as (m' & Hm & Hin & Hout & Hu); [lia..|apply u64_range|done|].
    exists m'. split; [exact Hm|]. split_and!.
    + intros j Hj. destruct (decide (j = i)) as [->|Hne].
      * rewrite Hout by lia. cbn. unfold mem_upd. rewrite Z.eqb_refl.
        by rewrite Z.sub_diag, Z.mul_0_r, Z.add_0_r, u64_small.
      * rewrite Hin by lia. rewrite u64_add_l. do 2 f_equal. lia.
    + intros a Ha. rewrite Hout by (intros j Hj; apply Ha; lia). cbn. unfold mem_upd.
      destruct (a =? nf + 8 * i) eqn:E; zbool; [|done]. exfalso. by apply (Ha i); [lia|].
    + intros Hms. apply Hu. intros a. cbn. unfold mem_upd. destruct (_ =? _); [|done].
      by apply is_u64_lor.
Qed.

(** One page of a 2 MiB page, as the processor translates it. *)
Lemma huge_page_walk m nf e v :
  is_u64 e → has e VMM_PRESENT = true → Z.land e VMM_4K_PERM_MASK mod 2097152 = 0 →
  (∀ j, 0 ≤ j < 512 → m (nf + 8 * j) =
     Z.lor (u64 (Z.land e VMM_4K_PERM_MASK + 4096 * j)) (Z.land e 4095)) →
  walk m 0 nf v = Some (Z.land e VMM_4K_PERM_MASK + v mod 2097152, e mod 4096).
Proof.
  intros He Hp Hal Hm. pose proof (pt_index_range 0 v) as Hi.
  cbn [walk]. rewrite Hm by done. rewrite land_mask in * by done. rewrite land_4095.
  rewrite u64_small by (unfold is_u64 in *; dlia).
  destruct (page_entry (4096 * (e / 4096) + 4096 * pt_index 0 v) (e mod 4096))
    as (_ & Hf & Hlow & Hbit); [dlia|unfold is_u64 in *; dlia|dlia|]. cbn zeta in *.
  rewrite has_present in *. rewrite Hbit, Hf, Hlow by lia.
  change (e mod 4096) with (e mod 2 ^ 12) at 1. rewrite Z.mod_pow2_bits_low, Hp by lia.
  f_equal. f_equal. unfold pt_index. cbn [blk]. dlia.
Qed.

(** The memory [vmm_remap_to_4k] leaves behind. *)
Lemma remap_state s t i np fr :
  (∀ a, is_u64 (mem s a)) → 0 < np < PHYS_PAGES → 0 ≤ i < 512 → t / 4096 ≠ np →
  t mod 4096 = 0 → 0 < t < 140737488355328 →
  vmm_pmm_alloc PAGE s = Ok (np * PAGE, set_frames fr s) →
  let e := mem s (t + 8 * i) in
  ∃ s', vmm_remap_to_4k (GET_HIGHER_HALF t) i s = Ok (tt, s') ∧
    frames s' = fr ∧ flushed s' = flushed s ++ [Z.land e VMM_4K_PERM_MASK] ∧
    (cr3 s', vmm_spinlock s', base_kernel_cr3 s', vmm_complete s') =
      (cr3 s, vmm_spinlock s, base_kernel_cr3 s, vmm_complete s) ∧
    (∀ a, is_u64 (mem s' a)) ∧ mem s' (t + 8 * i) = table_entry (np * PAGE) ∧
    (∀ j, 0 ≤ j < 512 → mem s' (np * PAGE + 8 * j) =
       Z.lor (u64 (Z.land e VMM_4K_PERM_MASK + 4096 * j)) (Z.land e 4095)) ∧
    (∀ a, a / 4096 ≠ np → a ≠ t + 8 * i → mem s' a = mem s a).
Proof.
  intros Hu Hnp Hi Hne Hal Hb Ha e. unfold vmm_remap_to_4k. mrun Ha.
  fold (GET_HIGHER_HALF (np * PAGE)).
  unfold get_entry at 1, gets. rewrite (bind_ok _ _ _ _ _ eq_refl). cbv beta zeta.
  rewrite lower_entry by lia. rewrite page_lower by done. mstep.
  change (mem (set_frames fr s)) with (mem s). fold e. set (s1 := set_mem _ _).
  assert (is_u64 e) as He by apply Hu.
  destruct (remap_loop_ok (np * PAGE) (Z.land e 4095) 512 0 (Z.land e VMM_4K_PERM_MASK) s1)
    as (m' & Hm & Hin & Hout & Hmu); try (unfold PHYS_PAGES in Hnp; lia).
  { rewrite land_mask by done. unfold is_u64 in *. dlia. }
  { rewrite land_4095. unfold is_u64 in *. dlia. }
  mrun Hm. rewrite (bind_ok _ _ _ _ _ (set_entry_ok' t i _ _ ltac:(lia) ltac:(lia) Hi)).
  fold (table_entry (np * PAGE)). eexists. split; [reflexivity|]. cbn [frames flushed mem].
  split_and!; try done.
  - intros a. cbn. unfold mem_upd. destruct (_ =? _); [by apply table_entry_ok|].
    apply Hmu. intros b. cbn. destruct (_ && _)%bool; [done|apply Hu].
  - cbn. unfold mem_upd. by rewrite Z.eqb_refl.
  - intros j Hj. cbn. unfold mem_upd.
    destruct (_ =? _) eqn:E2; zbool; [exfalso; apply Hne; dlia|].
    rewrite Hin by lia. by rewrite Z.sub_0_r.
  - intros a H1 H2. cbn. unfold mem_upd. destruct (_ =? _) eqn:E2; zbool; [done|].
    rewrite Hout by (intros j Hj ->; apply H1; dlia). cbn. rewrite in_page.
    destruct (_ =? _) eqn:E3; zbool; done.
Qed.

Lemma remap_ok T root s pr t i :
  tree_ok T root s → T !! (1%nat, pr) = Some t → 0 ≤ i < 512 →
  T !! (0%nat, pr * 512 + i) = None → has (mem s (t + 8 * i)) VMM_PRESENT = true →
  has_room (frames s) 1 →
  ∃ T' s' f, vmm_remap_to_4k (GET_HIGHER_HALF t) i s = Ok (tt, s') ∧
    quiet 1 root T s T' s' ∧ T' !! (0%nat, pr * 512 + i) = Some f.
Proof.
  intros Hok Ht Hi E Hpres Hroom.
  pose proof (t_entry _ _ _ Hok _ _ _ _ Ht Hi) as He. unfold entry_ok in He.
  rewrite E in He. destruct He as [Hz|(_ & _ & Hh & Hal)]; [by rewrite Hz in Hpres|].
  destruct (alloc_table _ _ _ Hok Hroom) as (np & fr & Ha & Hnp & Hu & Hinv & Hq & Hrm & Hc & Hsz).
  destruct (t_frame _ _ _ Hok _ _ _ Ht) as (Hl3 & Hal4 & Hb & Htu).
  destruct (remap_state s t i np fr (t_mem _ _ _ Hok) Hnp Hi) as
    (s' & Hrun & <- & Hfl & Hregs & Hmem & Hent & Hnew & Hold); try done.
  { intros <-. congruence. }
  injection Hregs as ? ? ? ?.
  exists (<[(0%nat, pr * 512 + i) := np * PAGE]> T), s', (np * PAGE).
  split; [exact Hrun|]. split; [|apply lookup_insert_eq].
  assert (∀ v, vpfx 0 v = pr * 512 + i →
    walk (mem s') 0 (np * PAGE) v = walk (mem s) 1 t v) as Hwalk.
  { intros v Hv. rewrite (huge_page_walk _ _ (mem s (t + 8 * i))); try done; [|apply Hok].
    cbn [walk Nat.eqb]. replace (pt_index 1 v) with i; [by rewrite Hpres, Hh|].
    pose proof (vpfx_step 0 v ltac:(lia)). pose proof (pt_index_range 1 v). lia. }
  split.
  - eapply install_grows; try done. by eexists.
  - intros v. unfold translate. eapply install_walk; done.
Qed.

Lemma traverse_child T root s l pr t i f :
  tree_ok T root s → T !! (S l, pr) = Some t → 0 ≤ i < 512 →
  T !! (l, pr * 512 + i) = Some f →
  traverse_page_table (GET_HIGHER_HALF t) i s = Ok (GET_HIGHER_HALF f, s).
Proof.
  intros Hok Ht Hi Hf. rewrite (traverse_ok _ _ _ Hok _ _ _ _ Ht Hi).
  pose proof (t_entry _ _ _ Hok _ _ _ _ Ht Hi) as He. unfold entry_ok in He.
  rewrite Hf in He. destruct He as (-> & _). done.
Qed.

Lemma upper_entry_case T root s l pr t i :
  tree_ok T root s → T !! (S (S l), pr) = Some t → 0 ≤ i < 512 →
  is_Some (T !! (S l, pr * 512 + i)) ∨ mem s (t + 8 * i) = 0.
Proof.
  intros Hok Ht Hi. pose proof (t_entry _ _ _ Hok _ _ _ _ Ht Hi) as He.
  unfold entry_ok in He. destruct (T !! (S l, _)); [left; by eexists|].
  destruct He as [?|(? & _)]; [by right|done].
Qed.

(** One level of [vmm_get_table]: make the table and step into it. *)
Lemma descend T root s l v t :
  tree_ok T root s → (S (S l) ≤ 3)%nat → T !! (S (S l), vpfx (S (S l)) v) = Some t →
  has_room (frames s) 1 →
  ∃ T' s' f, vmm_ensure_table (GET_HIGHER_HALF t) (pt_index (S (S l)) v) s = Ok (tt, s') ∧
    traverse_page_table (GET_HIGHER_HALF t) (pt_index (S (S l)) v) s' =
      Ok (GET_HIGHER_HALF f, s') ∧
    quiet 1 root T s T' s' ∧ T' !! (S l, vpfx (S l) v) = Some f.
Proof.
  intros Hok Hl Ht Hroom. pose proof (pt_index_range (S (S l)) v) as Hi.
  destruct (ensure_ok _ _ _ _ _ _ _ Hok Ht Hi (upper_entry_case _ _ _ _ _ _ _ Hok Ht Hi) Hroom)
    as (T' & s' & f & He & Hq & Hf).
  exists T', s', f. split; [done|]. rewrite vpfx_step by lia. split_and!; [|done|done].
  destruct Hq as [G _]. eapply traverse_child; [apply G| |done|done].
  eapply lookup_weaken; [exact Ht|apply G].
Qed.

(** The last level: an existing page table, a split 2 MiB page, or a new table. *)
Lemma descend_last T root s v t :
  tree_ok T root s → T !! (1%nat, vpfx 1 v) = Some t → has_room (frames s) 1 →
  let e := mem s (t + 8 * pt_index 1 v) in
  ∃ T' s' f,
    (if negb (has e VMM_HUGE) && has e VMM_PRESENT then mret tt
     else (if has e VMM_HUGE && has e VMM_PRESENT
           then vmm_remap_to_4k (GET_HIGHER_HALF t) (pt_index 1 v) else mret tt) ;;
          vmm_ensure_table (GET_HIGHER_HALF t) (pt_index 1 v)) s = Ok (tt, s') ∧
    traverse_page_table (GET_HIGHER_HALF t) (pt_index 1 v) s' = Ok (GET_HIGHER_HALF f, s') ∧
    quiet 1 root T s T' s' ∧ T' !! (0%nat, vpfx 0 v) = Some f.
Proof.
  intros Hok Ht Hroom e. pose proof (pt_index_range 1 v) as Hi.
  pose proof (t_entry _ _ _ Hok _ _ _ _ Ht Hi) as He. unfold entry_ok in He. fold e in He.
  rewrite (vpfx_step 0) by lia.
  assert (∀ T' s' f, quiet 1 root T s T' s' → T' !! (0%nat, vpfx 1 v * 512 + pt_index 1 v) = Some f →
    T' !! (1%nat, vpfx 1 v) = Some t ∧ tree_ok T' root s' ∧
    traverse_page_table (GET_HIGHER_HALF t) (pt_index 1 v) s' = Ok (GET_HIGHER_HALF f, s'))
    as Hfin.
  { intros T' s' f [G _] Hf. assert (T' !! (1%nat, vpfx 1 v) = Some t) as Ht'
      by (eapply lookup_weaken; [exact Ht|apply G]).
    split_and!; [done|apply G|]. by eapply traverse_child; [apply G|..]. }
  destruct (T !! (0%nat, _)) as [f|] eqn:E.
  - destruct He as (_ & Hp & Hh). rewrite Hp, Hh by done. cbn [negb andb].
    assert (quiet 1 root T s T s) as Hq by (split; [by apply grows_refl|done]).
    exists T, s, f. split; [done|]. split; [by eapply Hfin|done].
  - destruct He as [Hz|(_ & Hp & Hh & _)].
    + destruct (ensure_ok _ _ _ _ _ _ _ Hok Ht Hi (or_intror Hz) Hroom)
        as (T' & s' & f & Hrun & Hq & Hf).
      exists T', s', f. rewrite Hz. split; [exact Hrun|]. split; [by eapply Hfin|done].
    + destruct (remap_ok _ _ _ _ _ _ Hok Ht Hi E Hp Hroom) as (T' & s' & f & Hrun & Hq & Hf).
      exists T', s', f. rewrite Hp, Hh. cbn [negb andb].
      destruct (Hfin _ _ _ Hq Hf) as (Ht' & Hok' & Htr).
      split; [|done]. mrun Hrun. by eapply ensure_present.
Qed.

Lemma get_table_ok T root s v :
  tree_ok T root s → has_room (frames s) 3 →
  ∃ T' s' p f, vmm_get_table (vmm_virt_to_offs v) root s = Ok (p, s') ∧
    ptr_p1 p = GET_HIGHER_HALF f ∧
    quiet 3 root T s T' s' ∧ T' !! (0%nat, vpfx 0 v) = Some f.
Proof.
  intros Hok Hroom. unfold vmm_get_table. rewrite offs_index. cbn [p4_off p3_off p2_off p1_off].
  cbv zeta. pose proof (t_root _ _ _ Hok) as Hr. rewrite <- (vpfx_root v) in Hr.
  destruct (descend T root s 1 v root Hok ltac:(lia) Hr) as (T1 & s1 & f3 & E1 & R1 & Q1 & F1).
  { eapply has_room_le; [|exact Hroom]. lia. }
  mrun E1. mrun R1. pose proof (g_room _ _ _ _ _ _ (proj1 Q1) 2 Hroom) as Hroom1.
  destruct (descend T1 root s1 0 v f3 (g_ok _ _ _ _ _ _ (proj1 Q1)) ltac:(lia) F1)
    as (T2 & s2 & f2 & E2 & R2 & Q2 & F2).
  { eapply has_room_le; [|exact Hroom1]. lia. }
  mrun E2. mrun R2. pose proof (g_room _ _ _ _ _ _ (proj1 Q2) 1 Hroom1) as Hroom2.
  pose proof (g_ok _ _ _ _ _ _ (proj1 Q2)) as Hok2.
  mrun (get_entry_ok _ _ _ Hok2 _ _ _ _ F2 (pt_index_range 1 v)).
  destruct (descend_last _ _ _ v _ Hok2 F2 Hroom2) as (T3 & s3 & f1 & E3 & R3 & Q3 & F3).
  cbn zeta in E3. exists T3, s3, (mk_ptr (GET_HIGHER_HALF f3) (GET_HIGHER_HALF f2) (GET_HIGHER_HALF f1)), f1.
  assert (quiet 3 root T s T3 s3) by (eapply (quiet_trans 1 2), (quiet_trans 1 1); done).
  split; [|done]. destruct (negb _ && _).
  - injection E3 as <-. by mrun R3.
  - apply bind_inv in E3 as ([] & s' & E3 & E4). mrun E3. mrun E4. by mrun R3.
Qed.

(** ** Writing one entry of a page table *)

(** The translation a page-table entry gives. *)
Definition leaf (e v : Z) : option (Z * Z) :=
  if has e VMM_PRESENT
  then Some (Z.land e VMM_4K_PERM_MASK + v mod 4096, e mod 4096) else None.

Lemma leaf_entry T root s v f :
  tree_ok T root s → T !! (0%nat, vpfx 0 v) = Some f →
  translate s root v = leaf (mem s (f + 8 * pt_index 0 v)) v.
Proof. intros Hok Hf. unfold translate. by rewrite (walk_reach _ _ _ _ Hok _ _ Hf). Qed.

Section leaf_write.
Context (T : tree) (root : Z) s (Hok : tree_ok T root s).
Context (pr f i w : Z) (Hf : T !! (0%nat, pr) = Some f) (Hi : 0 ≤ i < 512) (Hw : is_u64 w).
Let s' := set_mem (mem_upd (mem s) (f + 8 * i) w) s.

Lemma leaf_write_tree : tree_ok T root s'.
Proof.
  destruct Hok as [H1 H2 H3 H4 H5 H6 H7]. split; try done.
  - intros a. cbn. unfold mem_upd. by destruct (_ =? _).
  - intros l pr0 f0 j Hl Hj. cbn. unfold mem_upd.
    destruct (_ =? _) eqn:E; zbool; [|by apply H7].
    by destruct (entry_addr _ _ _ _ _ _ _ _ _ _ _ Hok Hl Hf Hj Hi E).
Qed.

Lemma leaf_write_grows : grows 0 root T s T s'.
Proof.
  split; auto.
  - exact leaf_write_tree.
  - intros a Ha HT. cbn. unfold mem_upd. destruct (_ =? _) eqn:E; zbool; [|done].
    exfalso. apply (HT (0%nat, pr)). rewrite Hf. f_equal.
    destruct (t_frame _ _ _ Hok _ _ _ Hf) as (_ & Hal & _). dlia.
  - exists []. by rewrite app_nil_r.
  - done.
Qed.

Lemma leaf_write_translate v :
  translate s' root v = if vpn v =? pr * 512 + i then leaf w v else translate s root v.
Proof.
  pose proof (pt_index_range 0 v). rewrite vpn_split.
  destruct (_ =? _) eqn:E; zbool.
  - assert (vpfx 0 v = pr ∧ pt_index 0 v = i) as [Hp Hx] by lia.
    rewrite (leaf_entry T root s' v f leaf_write_tree) by by rewrite Hp.
    rewrite Hx. cbn. unfold mem_upd. by rewrite Z.eqb_refl.
  - apply (walk_agree _ _ _ _ _ Hok); [|rewrite vpfx_root; apply Hok].
    intros l g Hg. cbn. unfold mem_upd. destruct (_ =? _) eqn:E2; zbool; [|done].
    destruct (entry_addr _ _ _ _ _ _ _ _ _ _ _ Hok Hg Hf (pt_index_range _ _) Hi E2)
      as (-> & <- & _ & <-). done.
Qed.
End leaf_write.

Lemma flush_grows n root T s T' s' a :
  grows n root T s T' s' → grows n root T s T' (set_flushed (flushed s' ++ [a]) s').
Proof.
  intros []. split; auto.
  - destruct g_ok0. by split.
  - destruct g_flush0 as [l El]. exists (l ++ [a]). cbn. by rewrite El, app_assoc.
Qed.

(** Nothing is allocated when the page table exists. *)
Lemma get_table_present T root s v f :
  tree_ok T root s → T !! (0%nat, vpfx 0 v) = Some f →
  ∃ p, vmm_get_table (vmm_virt_to_offs v) root s = Ok (p, s) ∧ ptr_p1 p = GET_HIGHER_HALF f.
Proof.
  intros Hok F0. unfold vmm_get_table. rewrite offs_index. cbn [p4_off p3_off p2_off p1_off].
  cbv zeta. pose proof (t_root _ _ _ Hok) as F3. rewrite <- (vpfx_root v) in F3.
  destruct (t_up _ _ _ Hok _ _ _ F0 ltac:(lia)) as [f1 F1]. rewrite vpfx_up in F1 by lia.
  destruct (t_up _ _ _ Hok _ _ _ F1 ltac:(lia)) as [f2 F2]. rewrite vpfx_up in F2 by lia.
  pose proof (pt_index_range 3 v) as Hi3. pose proof (pt_index_range 2 v) as Hi2.
  pose proof (pt_index_range 1 v) as Hi1.
  pose proof (t_entry _ _ _ Hok _ _ _ _ F1 Hi1) as He. unfold entry_ok in He.
  rewrite (vpfx_step 0) in F0 by lia. rewrite F0 in He. destruct He as (_ & Hp & Hh).
  pose proof (get_entry_ok _ _ _ Hok _ _ _ _ F1 Hi1) as Hget.
  rewrite (vpfx_step 1) in F1 at 1 by lia. rewrite (vpfx_step 2) in F2 at 1 by lia.
  mrun (ensure_present _ _ _ _ _ _ _ _ Hok F3 Hi3 F2).
  mrun (traverse_child _ _ _ _ _ _ _ _ Hok F3 Hi3 F2).
  rewrite <- (vpfx_step 2) in F2 by lia.
  mrun (ensure_present _ _ _ _ _ _ _ _ Hok F2 Hi2 F1).
  mrun (traverse_child _ _ _ _ _ _ _ _ Hok F2 Hi2 F1).
  rewrite <- (vpfx_step 1) in F1 by lia.
  mrun Hget. rewrite Hp, Hh by done. cbn [negb andb].
  mrun (traverse_child _ _ _ _ _ _ _ _ Hok F1 Hi1 F0). by eexists.
Qed.

(** Frames one page can cost: none when its page table is known to exist. *)
Definition cost (have : bool) : nat := if have then 0 else 3.

Lemma get_table_cost T root s v have :
  tree_ok T root s → (have = true → is_Some (T !! (0%nat, vpfx 0 v))) →
  has_room (frames s) (cost have) →
  ∃ T' s' p f, vmm_get_table (vmm_virt_to_offs v) root s = Ok (p, s') ∧
    ptr_p1 p = GET_HIGHER_HALF f ∧
    quiet (cost have) root T s T' s' ∧ T' !! (0%nat, vpfx 0 v) = Some f.
Proof.
  intros Hok Hhave Hroom. destruct have; [|by apply get_table_ok].
  destruct (Hhave eq_refl) as [f Hf].
  destruct (get_table_present _ _ _ _ _ Hok Hf) as (p & Hg & Hp).
  exists T, s, p, f. split_and!; [done|done| |done]. split; [by apply grows_refl|done].
Qed.

(** What the three loops do with one page: find its entry, then overwrite it. *)
Lemma touch_page T root s V have :
  tree_ok T root s → (have = true → is_Some (T !! (0%nat, vpfx 0 V))) →
  has_room (frames s) (cost have) →
  ∃ T1 s1 p e, vmm_get_table (vmm_virt_to_offs V) root s = Ok (p, s1) ∧
    is_Some (T1 !! (0%nat, vpfx 0 V)) ∧
    grows (cost have) root T s T1 s1 ∧ (∀ v, translate s1 root v = translate s root v) ∧
    get_entry (ptr_p1 p) (p1_off (vmm_virt_to_offs V)) s1 = Ok (e, s1) ∧
    (∀ v, vpn v = vpn V → translate s root v = leaf e v) ∧
    ∀ w, is_u64 w → ∃ s2,
      set_entry (ptr_p1 p) (p1_off (vmm_virt_to_offs V)) w s1 = Ok (tt, s2) ∧
      grows (cost have) root T s T1 s2 ∧
      ∀ v, translate s2 root v = if vpn v =? vpn V then leaf w v else translate s root v.
Proof.
  intros Hok Hhave Hroom. destruct (get_table_cost _ _ _ V have Hok Hhave Hroom)
    as (T1 & s1 & p & f & Hg & Hp & [G W] & Hf).
  pose proof (g_ok _ _ _ _ _ _ G) as Hok1. pose proof (pt_index_range 0 V) as Hi.
  rewrite offs_index in *. cbn [p1_off].
  exists T1, s1, p, (mem s1 (f + 8 * pt_index 0 V)). rewrite Hp.
  split; [done|]. split; [by eexists|]. split; [done|]. split; [done|].
  split; [by eapply get_entry_ok|]. split.
  - intros v Hv. rewrite !vpn_split in Hv. pose proof (pt_index_range 0 v).
    assert (vpfx 0 v = vpfx 0 V ∧ pt_index 0 v = pt_index 0 V) as [E1 E2] by lia.
    rewrite <- W, <- E2.
    apply (leaf_entry T1 root s1); [done|]. by rewrite E1.
  - intros w Hw. eexists. split; [by eapply set_entry_ok|]. split.
    + apply (grows_weaken (cost have + 0)); [lia|]. eapply grows_trans; [exact G|].
      by eapply leaf_write_grows.
    + intros v. rewrite (leaf_write_translate _ _ _ Hok1 _ _ _ _ Hf Hi Hw), (vpn_split V).
      by rewrite W.
Qed.

(** ** Frames a run of pages can cost *)

Fixpoint need (n : nat) (V : Z) (have : bool) : nat :=
  match n with
  | O => 0
  | S n' => cost have + need n' (u64 (V + PAGE)) (negb (pt_index 0 (u64 (V + PAGE)) =? 0))
  end.

(** Three tables for the first page and for every 2 MiB boundary after it. *)
Definition run_room (n : nat) : nat := 3 * (n / 512 + 2).

Lemma need_bound n : ∀ V have, (0 < n)%nat →
  Z.of_nat (need n V have) ≤
    Z.of_nat (cost have) + 3 * ((pt_index 0 V + Z.of_nat n - 1) / 512).
Proof.
  induction n as [|n IH]; intros V have Hn; [lia|]. cbn [need].
  pose proof (pt_index_range 0 V).
  assert (pt_index 0 (u64 (V + PAGE)) = (pt_index 0 V + 1) mod 512) as Hnext
    by (unfold pt_index, u64; cbn [blk]; dlia).
  destruct (decide (n = 0%nat)) as [->|Hn0]; [cbn [need]; dlia|].
  specialize (IH (u64 (V + PAGE)) (negb (pt_index 0 (u64 (V + PAGE)) =? 0)) ltac:(lia)).
  rewrite Hnext in *. destruct ((pt_index 0 V + 1) mod 512 =? 0) eqn:E; zbool;
    cbn [negb cost] in *; dlia.
Qed.

Lemma need_room n V : (need n V false ≤ run_room n)%nat.
Proof.
  destruct (decide (n = 0%nat)) as [->|Hn]; [cbn; lia|].
  pose proof (need_bound n V false ltac:(lia)) as Hb. cbn [cost] in Hb.
  pose proof (pt_index_range 0 V). unfold run_room.
  apply Nat2Z.inj_le. rewrite Nat2Z.inj_mul, Nat2Z.inj_add, Nat2Z.inj_div. dlia.
Qed.

(** The next page has a table when it does not start a new one. *)
Lemma next_have T V :
  is_Some (T !! (0%nat, vpfx 0 V)) →
  negb (pt_index 0 (u64 (V + PAGE)) =? 0) = true →
  is_Some (T !! (0%nat, vpfx 0 (u64 (V + PAGE)))).
Proof.
  intros HT Hne. zbool. replace (vpfx 0 (u64 (V + PAGE))) with (vpfx 0 V); [done|].
  unfold vpfx, pt_index, u64 in *. cbn [blk] in *. dlia.
Qed.
End spec.
