(* ===== verification/VmmMap.v ===== *)
(** * Mapping, remapping and unmapping pages: the specifications

    Each operation takes the interrupt flag and the VMM lock, runs a loop over
    the pages, and releases both.  The theorems give the translation of every
    address afterwards, the return code, and what is preserved. *)

From S2P Require Import Prelude Locks Pmm Frames Vmm VmmTree VmmSpec.

(** How many pages [v] lies above [V], modulo the 2^36 pages of an address space. *)
Definition page_off (V v : Z) : Z := (vpn v - vpn V) mod 68719476736.

Lemma page_off_self v : page_off v v = 0.
Proof. unfold page_off. by rewrite Z.sub_diag. Qed.

Lemma page_off_0 V v : page_off V v = 0 ↔ vpn v = vpn V.
Proof. unfold page_off, vpn. split; intros; dlia. Qed.

Lemma page_off_next V v :
  page_off (u64 (V + PAGE)) v =
    if page_off V v =? 0 then 68719476735 else page_off V v - 1.
Proof.
  unfold page_off. replace (V + PAGE) with (V + 4096 * 1) by lia. rewrite vpn_page.
  assert (0 ≤ vpn v < 68719476736) by (unfold vpn; dlia).
  assert (0 ≤ vpn V < 68719476736) by (unfold vpn; dlia).
  destruct (_ =? _) eqn:E; zbool; dlia.
Qed.

Lemma page_off_range V v : 0 ≤ page_off V v < 68719476736.
Proof. unfold page_off. dlia. Qed.

Lemma page_off_later V k : 0 < k < 68719476736 → page_off V (u64 (V + 4096 * k)) = k.
Proof.
  intros Hk. unfold page_off. rewrite vpn_page.
  assert (0 ≤ vpn V < 68719476736) by (unfold vpn; dlia). dlia.
Qed.

(** Replace the value at the pages [V, V + n), by their distance from [V]. *)
Definition over {A} (n V v : Z) (g : Z → A) (old : A) : A :=
  if page_off V v <? n then g (page_off V v) else old.

Lemma over_0 {A} V v g (old : A) : over 0 V v g old = old.
Proof. unfold over. pose proof (page_off_range V v). by destruct (_ <? _) eqn:E; zbool; [lia|]. Qed.

Lemma over_1 {A} V v g (old : A) : over 1 V v g old = if vpn v =? vpn V then g 0 else old.
Proof.
  unfold over. pose proof (page_off_range V v).
  destruct (vpn v =? vpn V) eqn:E; zbool.
  - apply page_off_0 in E. by rewrite E.
  - rewrite <- page_off_0 in E. by destruct (_ <? _) eqn:E2; zbool; [lia|].
Qed.

Lemma over_next {A} n V v g (old : A) : 0 ≤ n < 68719476736 →
  over n (u64 (V + PAGE)) v (λ k, g (k + 1)) (over 1 V v g old) = over (n + 1) V v g old.
Proof.
  intros Hn. unfold over. pose proof (page_off_range V v). rewrite page_off_next.
  destruct (page_off V v =? 0) eqn:E0; zbool.
  - rewrite E0. cbn. destruct (_ <? n) eqn:?, (0 <? n + 1) eqn:?; zbool; (lia || done).
  - destruct (page_off V v <? 1) eqn:?; zbool; [lia|].
    destruct (page_off V v - 1 <? n) eqn:?, (page_off V v <? n + 1) eqn:?; zbool; try lia; [|done].
    by rewrite Z.sub_add.
Qed.

Section spec.
Context {F : Type} `{!FrameAlloc F} `{!FrameAllocLaws F}.
Implicit Types (s : vmm_state F) (T : tree).

(** ** The critical section *)

Definition entered s : vmm_state F :=
  set_lock (Z.lor (vmm_spinlock s) 1)
    (set_frames (fa_set_cpu (snd (interrupt_lock (fa_cpu (frames s)))) (frames s)) s).

Definition left_ (state : Z) s : vmm_state F :=
  set_frames (fa_set_cpu (interrupt_unlock state (fa_cpu (frames s))) (frames s))
    (set_lock (spinlock_unlock (vmm_spinlock s)) s).

Lemma enter_ok {A} (k : Z → stM (vmm_state F) A) s :
  unlocked (vmm_spinlock s) →
  (state ← vmm_cli; vmm_lock ;; k state) s =
    k (check_interrupts (fa_cpu (frames s))) (entered s).
Proof.
  intros Hl. unfold vmm_cli, vmm_lock, mbind, stM_bind. cbn.
  by rewrite spinlock_lock_free.
Qed.

Lemma leave_ok {A} (state : Z) (r : A) s :
  (vmm_unlock ;; vmm_sti state ;; mret r) s = Ok (r, left_ state s).
Proof. reflexivity. Qed.

(** Taking an allocator state with another processor state. *)
Lemma set_cpu_tree T root s c :
  tree_ok T root s → tree_ok T root (set_frames (fa_set_cpu c (frames s)) s).
Proof.
  intros []. split; cbn; try done.
  - by apply fa_inv_set_cpu.
  - intros l pr f Hf. rewrite fa_used_set_cpu. eauto.
Qed.

Lemma has_room_set_cpu (fr : F) c n : has_room (fa_set_cpu c fr) n ↔ has_room fr n.
Proof.
  unfold has_room. f_equiv. intros l. do 2 (apply and_iff_compat_l).
  apply Forall_proper; [|done]. intros p. by rewrite fa_used_set_cpu.
Qed.

Lemma entered_tree T root s : tree_ok T root s → tree_ok T root (entered s).
Proof. intros H. apply (set_cpu_tree _ _ _ (snd (interrupt_lock (fa_cpu (frames s))))) in H.
  destruct H. by split. Qed.

Lemma leave_grows n T root s T' s1 :
  unlocked (vmm_spinlock s) → grows n root T (entered s) T' s1 →
  grows n root T s T' (left_ (check_interrupts (fa_cpu (frames s))) s1).
Proof.
  intros Hl [Gok Gsub Gnew Gused Groom Gdata Gfl Gregs]. unfold left_, entered in *. cbn in *. split; cbn.
  - set (c := interrupt_unlock _ _).
    pose proof (set_cpu_tree _ _ _ c Gok) as []. by split.
  - done.
  - intros r f Hr. destruct (Gnew r f Hr); [by left|right].
    by rewrite fa_used_set_cpu in *.
  - intros p Hp. rewrite fa_used_set_cpu. apply Gused. by rewrite fa_used_set_cpu.
  - intros k. rewrite has_room_set_cpu. intros Hk. apply Groom. by rewrite has_room_set_cpu.
  - intros a Ha HT. apply Gdata; [by rewrite fa_used_set_cpu|done].
  - done.
  - destruct Gregs as (? & Hs & ? & ? & Hif & Hsz). unfold same_regs. cbn in *.
    rewrite fa_size_set_cpu in *. rewrite fa_cpu_set in *. rewrite Hs, lock_unlock by done. cbn in Hif.
    split_and!; try done. unfold interrupt_unlock, check_interrupts.
    by destruct (if_flag (fa_cpu (frames s))).
Qed.

(** ** The loops *)

Section map.
Context (root perms : Z) (Hperms : 0 ≤ perms < 4096) (Hpres : has perms VMM_PRESENT = true).

(** The translation of [v] after mapping [n] pages from [V] to [P]: pages that
    were mapped keep their translation. *)
Definition mapped (old : option (Z * Z)) (n V P v : Z) : option (Z * Z) :=
  match old with
  | Some x => Some x
  | None => if page_off V v <? n
            then Some (P + 4096 * page_off V v + v mod 4096, perms) else None
  end.

Lemma leaf_page P v : P mod 4096 = 0 → 0 ≤ P < U64_MOD →
  leaf (Z.lor P perms) v = Some (P + v mod 4096, perms).
Proof.
  intros HP Hr. destruct (page_entry P perms HP Hr Hperms) as (_ & Hf & Hm & Hb).
  cbn zeta in *. unfold leaf. rewrite Hf, Hm. rewrite has_present in *.
  by rewrite Hb, Hpres by lia.
Qed.

Lemma map_step T s V P ret n have :
  tree_ok T root s → (have = true → is_Some (T !! (0%nat, vpfx 0 V))) →
  has_room (frames s) (cost have) → P mod 4096 = 0 → 0 ≤ P < U64_MOD →
  ∃ T' s', map_loop (S n) V P root perms ret s =
      map_loop n (u64 (V + PAGE)) (u64 (P + PAGE)) root perms
        (match translate s root V with Some _ => 1 | None => ret end) s' ∧
    is_Some (T' !! (0%nat, vpfx 0 V)) ∧ grows (cost have) root T s T' s' ∧
    ∀ v, translate s' root v = mapped (translate s root v) 1 V P v.
Proof.
  intros Hok Hhave Hroom HP Hr.
  destruct (touch_page _ _ _ V have Hok Hhave Hroom)
    as (T1 & s1 & p & e & Hg & Hs1 & G & W & He & Hl & Hset).
  cbn [map_loop]. mrun Hg. mrun He. rewrite (Hl V eq_refl). unfold leaf.
  destruct (has e VMM_PRESENT) eqn:Hep; cbn [negb].
  - exists T1, s1. split; [done|]. split; [done|]. split; [done|].
    intros v. rewrite W. unfold mapped.
    destruct (translate s root v) as [x|] eqn:Ev; [done|].
    destruct (page_off V v <? 1) eqn:E; zbool; [|done].
    pose proof (page_off_range V v). assert (page_off V v = 0) as Hz by lia.
    apply page_off_0 in Hz. rewrite (Hl v Hz) in Ev. unfold leaf in Ev. by rewrite Hep in Ev.
  - destruct (page_entry P perms HP Hr Hperms) as (Hu & _). cbn zeta in Hu.
    destruct (Hset _ Hu) as (s2 & Hs2 & G2 & W2). mrun Hs2. mstep.
    eexists T1, _. split; [reflexivity|]. split; [done|]. split; [by apply flush_grows|].
    intros v. change (translate (set_flushed _ s2) root v) with (translate s2 root v).
    rewrite W2. unfold mapped. pose proof (page_off_range V v).
    destruct (vpn v =? vpn V) eqn:E; zbool.
    + pose proof (proj2 (page_off_0 V v) E) as Hz. rewrite (Hl v E). unfold leaf at 2.
      rewrite Hep, Hz, leaf_page by done. cbn. do 2 f_equal. lia.
    + assert (page_off V v ≠ 0) by (by rewrite page_off_0).
      destruct (translate s root v); [done|]. by destruct (_ <? _) eqn:E2; zbool; [lia|].
Qed.

Lemma mapped_next old n V P v :
  0 ≤ n < 68719476736 → P mod 4096 = 0 → 0 ≤ P → P + PAGE * (n + 1) ≤ U64_MOD →
  mapped (mapped old 1 V P v) n (u64 (V + PAGE)) (u64 (P + PAGE)) v = mapped old (n + 1) V P v.
Proof.
  intros Hn HP HP0 HPn. unfold mapped. destruct old; [done|].
  pose proof (page_off_range V v). rewrite page_off_next.
  destruct (page_off V v <? 1) eqn:E1; zbool.
  - assert (page_off V v = 0) as -> by lia. by destruct (0 <? n + 1) eqn:E; zbool; [|lia].
  - destruct (page_off V v =? 0) eqn:E0; zbool; [lia|].
    destruct (page_off V v - 1 <? n) eqn:E2, (page_off V v <? n + 1) eqn:E3; zbool; try lia; [|done].
    rewrite u64_small by (unfold is_u64; lia). do 2 f_equal. lia.
Qed.

(** The pages of the run that were mapped already decide the return code. *)
Definition map_ret s (n : nat) (V ret : Z) : Z :=
  if existsb (λ k, bool_decide (is_Some (translate s root (u64 (V + PAGE * Z.of_nat k))))) (seq 0 n)
  then 1 else ret.

Lemma map_ret_step s s' n V P ret :
  is_u64 V → Z.of_nat n < 68719476736 →
  (∀ v, translate s' root v = mapped (translate s root v) 1 V P v) →
  map_ret s' n (u64 (V + PAGE)) (match translate s root V with Some _ => 1 | None => ret end) =
  map_ret s (S n) V ret.
Proof.
  intros HV Hn HW. unfold map_ret. cbn [seq existsb].
  replace (V + PAGE * Z.of_nat 0) with V by lia. rewrite (u64_small V) by done.
  assert (existsb (λ k, bool_decide (is_Some (translate s' root
            (u64 (u64 (V + PAGE) + PAGE * Z.of_nat k))))) (seq 0 n) =
          existsb (λ k, bool_decide (is_Some (translate s root
            (u64 (V + PAGE * Z.of_nat k))))) (seq 1 n)) as ->.
  { rewrite <- seq_shift, existsb_map.
    apply eq_true_iff_eq. rewrite !existsb_exists. f_equiv. intros k.
    enough (In k (seq 0 n) → translate s' root (u64 (u64 (V + PAGE) + PAGE * Z.of_nat k)) =
      translate s root (u64 (V + PAGE * Z.of_nat (S k)))) as He.
    { split; intros [Hk Hb]; (split; [done|]); rewrite He in * by done; exact Hb. }
    intros [_ Hk]%in_seq. rewrite u64_add_l, HW.
    replace (V + PAGE + PAGE * Z.of_nat k) with (V + 4096 * Z.of_nat (S k)) by lia.
    unfold mapped. destruct (translate s root _); [done|].
    rewrite page_off_later by lia. by destruct (_ <? 1) eqn:E; zbool; [lia|]. }
  destruct (translate s root V) as [x|] eqn:E.
  - rewrite bool_decide_eq_true_2 by by eexists. cbn [orb]. by destruct (existsb _ _).
  - rewrite bool_decide_eq_false_2 by by intros []. done.
Qed.

Lemma map_loop_ok n : ∀ T s V P ret have,
  tree_ok T root s → (have = true → is_Some (T !! (0%nat, vpfx 0 V))) →
  has_room (frames s) (need n V have) → Z.of_nat n ≤ 68719476736 → is_u64 V →
  P mod 4096 = 0 → 0 ≤ P → P + PAGE * Z.of_nat n ≤ U64_MOD →
  ∃ T' s', map_loop n V P root perms ret s = Ok (map_ret s n V ret, s') ∧
    grows (need n V have) root T s T' s' ∧
    ∀ v, translate s' root v = mapped (translate s root v) (Z.of_nat n) V P v.
Proof.
  induction n as [|n IH]; intros T s V P ret have Hok Hhave Hroom Hn HV HP HP0 HPn.
  - exists T, s. split; [done|]. split; [by apply grows_refl|].
    intros v. unfold mapped. pose proof (page_off_range V v).
    destruct (translate s root v); [done|]. by destruct (_ <? _) eqn:E; zbool; [lia|].
  - destruct (map_step T s V P ret n have Hok Hhave) as (T1 & s1 & -> & Hs1 & G1 & W1);
      [eapply has_room_le; [|exact Hroom]; cbn; lia|done|lia|].
    destruct (IH T1 s1 (u64 (V + PAGE)) (u64 (P + PAGE))
      (match translate s root V with Some _ => 1 | None => ret end) _
      (g_ok _ _ _ _ _ _ G1) (next_have _ _ Hs1) (g_room _ _ _ _ _ _ G1 _ Hroom))
      as (T2 & s2 & -> & G2 & W2); [lia|apply u64_range|unfold u64; dlia| | |].
    { apply u64_range. }
    { destruct (decide (n = 0%nat)) as [->|]; [pose proof (u64_range (P + PAGE)); unfold is_u64 in *; lia|].
      rewrite u64_small by (unfold is_u64; lia). lia. }
    exists T2, s2. split; [rewrite (map_ret_step s s1 n V P ret) by (done || lia); done|]. split.
    + by eapply grows_trans.
    + intros v. rewrite W2, W1. rewrite mapped_next by (done || lia).
      by replace (Z.of_nat n + 1) with (Z.of_nat (S n)) by lia.
Qed.
End map.

Section remap_unmap.
Context (root : Z).

Lemma flushed_next n T s T' s' (V : Z) l :
  grows n root T s T' s' → flushed s = l ++ [V] → V ∈ flushed s'.
Proof.
  intros G E. destruct (g_flush _ _ _ _ _ _ G) as [l' ->]. rewrite E.
  apply elem_of_app. left. apply elem_of_app. right. by left.
Qed.

(** The pages [V, V + n) were invalidated. *)
Definition all_flushed s (n : nat) (V : Z) : Prop :=
  ∀ k, (k < n)%nat → u64 (V + PAGE * Z.of_nat k) ∈ flushed s.

Lemma all_flushed_next s n V : is_u64 V →
  V ∈ flushed s → all_flushed s n (u64 (V + PAGE)) → all_flushed s (S n) V.
Proof.
  intros HV H1 H2 [|k] Hk.
  - rewrite Z.mul_0_r, Z.add_0_r, u64_small by done. done.
  - specialize (H2 k ltac:(lia)). rewrite u64_add_l in H2.
    by replace (V + PAGE * Z.of_nat (S k)) with (V + PAGE + PAGE * Z.of_nat k) by lia.
Qed.

Lemma remap_pages_loop_ok perms n (Hperms : 0 ≤ perms < 4096) : ∀ T s V P have,
  tree_ok T root s → (have = true → is_Some (T !! (0%nat, vpfx 0 V))) →
  has_room (frames s) (need n V have) → Z.of_nat n ≤ 68719476736 → is_u64 V →
  P mod 4096 = 0 → 0 ≤ P → P + PAGE * Z.of_nat n ≤ U64_MOD →
  ∃ T' s', vmm_remap_loop n V P root perms s = Ok (tt, s') ∧
    grows (need n V have) root T s T' s' ∧ all_flushed s' n V ∧
    ∀ v, translate s' root v = over (Z.of_nat n) V v
      (λ k, Some (P + 4096 * k + v mod 4096, Z.lor perms VMM_PRESENT)) (translate s root v).
Proof.
  assert (0 ≤ Z.lor perms VMM_PRESENT < 4096) as Hp'.
  { assert (perms = Z.land perms (Z.ones 12)) as E
      by (rewrite Z.land_ones by lia; symmetry; by apply Z.mod_small).
    rewrite E. change VMM_PRESENT with (Z.land VMM_PRESENT (Z.ones 12)).
    rewrite <- Z.land_lor_distr_l, Z.land_ones by lia. dlia. }
  assert (has (Z.lor perms VMM_PRESENT) VMM_PRESENT = true) as Hpp
    by (rewrite has_present, Z.lor_spec; by rewrite orb_true_r).
  induction n as [|n IH]; intros T s V P have Hok Hhave Hroom Hn HV HP HP0 HPn.
  { exists T, s. split; [done|]. split; [by apply grows_refl|]. split; [by intros ? ?%Nat.nlt_0_r|].
    intros v. by rewrite over_0. }
  destruct (touch_page _ _ _ V have Hok Hhave) as (T1 & s1 & p & e & Hg & Hs1 & _ & _ & _ & _ & Hset);
    [eapply has_room_le; [|exact Hroom]; cbn; lia|].
  cbn [vmm_remap_loop]. mrun Hg.
  destruct (page_entry P _ HP ltac:(lia) Hp') as (Hu & _). cbn zeta in Hu.
  destruct (Hset _ Hu) as (s2 & Hs2 & G2 & W2). mrun Hs2. mstep.
  apply (flush_grows _ _ _ _ _ _ V) in G2. set (s3 := set_flushed _ s2) in *.
  destruct (IH T1 s3 (u64 (V + PAGE)) (u64 (P + PAGE)) _ (g_ok _ _ _ _ _ _ G2)
      (next_have _ _ Hs1) (g_room _ _ _ _ _ _ G2 _ Hroom)) as (T4 & s4 & -> & G4 & Hfl & W4);
    [lia|apply u64_range|unfold u64; dlia|apply u64_range| |].
  { destruct (decide (n = 0%nat)) as [->|]; [pose proof (u64_range (P + PAGE)); unfold is_u64 in *; lia|].
    rewrite u64_small by (unfold is_u64; lia). lia. }
  exists T4, s4. split; [done|]. split; [by eapply grows_trans|]. split.
  { apply all_flushed_next; [done| |done]. by eapply flushed_next. }
  intros v. rewrite W4. change (translate s3 root v) with (translate s2 root v).
  rewrite W2, (leaf_page _ Hp' Hpp) by (done || lia).
  replace (Z.of_nat (S n)) with (Z.of_nat n + 1) by lia.
  rewrite <- over_next by lia. rewrite over_1. replace (P + 4096 * 0) with P by lia.
  unfold over. destruct (_ <? Z.of_nat n) eqn:E; [|done]. zbool.
  pose proof (page_off_range (u64 (V + PAGE)) v). rewrite u64_small by (unfold is_u64; lia).
  do 2 f_equal. lia.
Qed.

(** Whether some page of the run was not mapped decides the return code. *)
Definition unmap_ret s (n : nat) (V ret : Z) : Z :=
  if forallb (λ k, bool_decide (is_Some (translate s root (u64 (V + PAGE * Z.of_nat k))))) (seq 0 n)
  then ret else 1.

Lemma unmap_ret_step s s' n V ret :
  is_u64 V → Z.of_nat n < 68719476736 →
  (∀ v, translate s' root v = over 1 V v (λ _, None) (translate s root v)) →
  unmap_ret s' n (u64 (V + PAGE)) (match translate s root V with Some _ => ret | None => 1 end) =
  unmap_ret s (S n) V ret.
Proof.
  intros HV Hn HW. unfold unmap_ret. cbn [seq forallb].
  replace (V + PAGE * Z.of_nat 0) with V by lia. rewrite (u64_small V) by done.
  rewrite <- seq_shift.
  assert (forallb (λ k, bool_decide (is_Some (translate s' root
            (u64 (u64 (V + PAGE) + PAGE * Z.of_nat k))))) (seq 0 n) =
          forallb (λ k, bool_decide (is_Some (translate s root
            (u64 (V + PAGE * Z.of_nat k))))) (map S (seq 0 n))) as ->.
  { apply eq_true_iff_eq. rewrite !forallb_forall.
    setoid_rewrite in_map_iff.
    assert (∀ k, In k (seq 0 n) → translate s' root (u64 (u64 (V + PAGE) + PAGE * Z.of_nat k)) =
      translate s root (u64 (V + PAGE * Z.of_nat (S k)))) as He.
    { intros k [_ Hk]%in_seq. rewrite u64_add_l, HW.
      replace (V + PAGE + PAGE * Z.of_nat k) with (V + 4096 * Z.of_nat (S k)) by lia.
      unfold over. rewrite page_off_later by lia. by destruct (_ <? 1) eqn:E; zbool; [lia|]. }
    split.
    - intros H x (k & <- & Hk). rewrite <- He by done. by apply H.
    - intros H k Hk. rewrite He by done. apply H. by exists k. }
  destruct (translate s root V) as [x|] eqn:E.
  - rewrite bool_decide_eq_true_2 by by eexists. done.
  - rewrite bool_decide_eq_false_2 by by intros []. cbn. by destruct (forallb _ _).
Qed.

Lemma unmap_loop_ok n : ∀ T s V ret have,
  tree_ok T root s → (have = true → is_Some (T !! (0%nat, vpfx 0 V))) →
  has_room (frames s) (need n V have) → Z.of_nat n ≤ 68719476736 → is_u64 V →
  ∃ T' s', unmap_loop n V root ret s = Ok (unmap_ret s n V ret, s') ∧
    grows (need n V have) root T s T' s' ∧ all_flushed s' n V ∧
    ∀ v, translate s' root v = over (Z.of_nat n) V v (λ _, None) (translate s root v).
Proof.
  induction n as [|n IH]; intros T s V ret have Hok Hhave Hroom Hn HV.
  { exists T, s. split; [done|]. split; [by apply grows_refl|]. split; [by intros ? ?%Nat.nlt_0_r|].
    intros v. by rewrite over_0. }
  destruct (touch_page _ _ _ V have Hok Hhave) as (T1 & s1 & p & e & Hg & Hs1 & G1 & W1 & He & Hl & Hset);
    [eapply has_room_le; [|exact Hroom]; cbn; lia|].
  cbn [unmap_loop]. mrun Hg. mrun He.
  assert (∃ s2, (if has e VMM_PRESENT
      then set_entry (ptr_p1 p) (p1_off (vmm_virt_to_offs V)) 0 ;; mret ret else mret 1) s1 =
      Ok (match translate s root V with Some _ => ret | None => 1 end, s2) ∧
      grows (cost have) root T s T1 s2 ∧
      ∀ v, translate s2 root v = over 1 V v (λ _, None) (translate s root v))
    as (s2 & Hs2 & G2 & W2).
  { rewrite (Hl V eq_refl). unfold leaf. destruct (has e VMM_PRESENT) eqn:Hep.
    - destruct (Hset 0 ltac:(done)) as (s2 & Hs2 & G2 & W2). exists s2.
      split; [by mrun Hs2|]. split; [done|]. intros v. by rewrite W2, over_1.
    - exists s1. split; [done|]. split; [done|]. intros v. rewrite W1, over_1.
      destruct (_ =? _) eqn:E; zbool; [|done]. rewrite (Hl v E). unfold leaf. by rewrite Hep. }
  mrun Hs2. mstep.
  apply (flush_grows _ _ _ _ _ _ V) in G2. set (s3 := set_flushed _ s2) in *.
  destruct (IH T1 s3 (u64 (V + PAGE)) (match translate s root V with Some _ => ret | None => 1 end)
      _ (g_ok _ _ _ _ _ _ G2) (next_have _ _ Hs1) (g_room _ _ _ _ _ _ G2 _ Hroom))
    as (T4 & s4 & -> & G4 & Hfl & W4); [lia|apply u64_range|].
  exists T4, s4. split; [rewrite (unmap_ret_step s s3) by (done || lia); done|].
  split; [by eapply grows_trans|]. split.
  { apply all_flushed_next; [done| |done]. by eapply flushed_next. }
  intros v. rewrite W4. change (translate s3 root v) with (translate s2 root v).
  rewrite W2. replace (Z.of_nat (S n)) with (Z.of_nat n + 1) by lia.
  by rewrite (over_next _ V v (λ _, None)) by lia.
Qed.
End remap_unmap.
End spec.
