(* ===== verification/VmmTheorems.v ===== *)
(** * The virtual memory manager: theorems and witnesses

    The claims about mm/vmm.c, and about the end of [pmm_memory_setup], for any
    allocator that keeps the promises of Frames.v; the witnesses run them on
    the bitmap allocator of Pmm.v. *)

From S2P Require Import Prelude Locks Pmm Frames Vmm VmmTree VmmSpec VmmMap.

Section helpers.
Context {F : Type} `{!FrameAlloc F} `{!FrameAllocLaws F}.
Implicit Types (s : vmm_state F) (T : tree).

Lemma vpn_mask v : is_u64 v → vpn (Z.land v VMM_4K_PERM_MASK) = vpn v.
Proof. intros Hv. rewrite land_mask by done. unfold vpn. dlia. Qed.

Lemma page_off_mask V v : is_u64 V → page_off (Z.land V VMM_4K_PERM_MASK) v = page_off V v.
Proof. intros HV. unfold page_off. by rewrite vpn_mask. Qed.

Lemma mask_aligned v : is_u64 v →
  Z.land v VMM_4K_PERM_MASK mod 4096 = 0 ∧ 0 ≤ Z.land v VMM_4K_PERM_MASK ∧
  is_u64 (Z.land v VMM_4K_PERM_MASK).
Proof. intros Hv. rewrite land_mask by done. unfold is_u64 in *. split_and!; dlia. Qed.

Lemma entered_room s n : has_room (frames s) n → has_room (frames (entered s)) n.
Proof. cbn. by rewrite has_room_set_cpu. Qed.

Lemma map_pages_ok T root s phys virt count perms :
  tree_ok T root s → unlocked (vmm_spinlock s) → is_u64 virt → is_u64 phys →
  0 ≤ count ≤ 68719476736 → Z.land phys VMM_4K_PERM_MASK + PAGE * count ≤ U64_MOD →
  0 ≤ perms < 4096 → has perms VMM_PRESENT = true →
  has_room (frames s) (run_room (Z.to_nat count)) →
  ∃ T' s', vmm_map_pages phys virt root count perms s =
      Ok (map_ret root s (Z.to_nat count) (Z.land virt VMM_4K_PERM_MASK) 0, s') ∧
    grows (run_room (Z.to_nat count)) root T s T' s' ∧
    ∀ v, translate s' root v =
      mapped perms (translate s root v) count virt (Z.land phys VMM_4K_PERM_MASK) v.
Proof.
  intros Hok Hl Hv Hp Hc Hend Hperms Hpres Hroom.
  unfold vmm_map_pages. rewrite enter_ok by done. set (n := Z.to_nat count) in *.
  destruct (mask_aligned phys Hp) as (Hpa & Hp0 & _). destruct (mask_aligned virt Hv) as (_ & _ & Hvu).
  destruct (map_loop_ok root perms Hperms Hpres n T (entered s) (Z.land virt VMM_4K_PERM_MASK)
    (Z.land phys VMM_4K_PERM_MASK) 0 false) as (T' & s' & E & G & W); try done; try lia.
  { by apply entered_tree. }
  { apply entered_room. eapply has_room_le; [apply need_room|done]. }
  mrun E. rewrite leave_ok. eexists T', _. split; [reflexivity|]. split.
  - apply (grows_weaken (need n (Z.land virt VMM_4K_PERM_MASK) false)); [apply need_room|].
    by apply leave_grows.
  - intros v. change (translate (left_ _ s') root v) with (translate s' root v).
    rewrite W. unfold mapped. rewrite page_off_mask by done.
    by replace (Z.of_nat n) with count by lia.
Qed.

Lemma unmap_pages_ok T root s virt count :
  tree_ok T root s → unlocked (vmm_spinlock s) → is_u64 virt → 0 ≤ count ≤ 68719476736 →
  has_room (frames s) (run_room (Z.to_nat count)) →
  ∃ T' s', vmm_unmap_pages virt root count s =
      Ok (unmap_ret root s (Z.to_nat count) virt 0, s') ∧
    grows (run_room (Z.to_nat count)) root T s T' s' ∧
    all_flushed s' (Z.to_nat count) virt ∧
    ∀ v, translate s' root v =
      if page_off virt v <? count then None else translate s root v.
Proof.
  intros Hok Hl Hv Hc Hroom.
  unfold vmm_unmap_pages. rewrite enter_ok by done. set (n := Z.to_nat count) in *.
  destruct (unmap_loop_ok root n T (entered s) virt 0 false)
    as (T' & s' & E & G & Hfl & W); try done; try lia.
  { by apply entered_tree. }
  { apply entered_room. eapply has_room_le; [apply need_room|done]. }
  mrun E. rewrite leave_ok. eexists T', _. split; [reflexivity|]. split; [|split].
  - apply (grows_weaken (need n virt false)); [apply need_room|]. by apply leave_grows.
  - exact Hfl.
  - intros v. change (translate (left_ _ s') root v) with (translate s' root v).
    rewrite W. unfold over. by replace (Z.of_nat n) with count by lia.
Qed.

Lemma remap_pages_ok T root s phys virt count perms :
  tree_ok T root s → unlocked (vmm_spinlock s) → is_u64 virt → is_u64 phys →
  0 ≤ count ≤ 68719476736 → Z.land phys VMM_4K_PERM_MASK + PAGE * count ≤ U64_MOD →
  0 ≤ perms < 4096 → has_room (frames s) (run_room (Z.to_nat count)) →
  ∃ T' s', vmm_remap_pages phys virt root count perms s = Ok (0, s') ∧
    grows (run_room (Z.to_nat count)) root T s T' s' ∧
    all_flushed s' (Z.to_nat count) (Z.land virt VMM_4K_PERM_MASK) ∧
    ∀ v, translate s' root v =
      if page_off virt v <? count
      then Some (Z.land phys VMM_4K_PERM_MASK + 4096 * page_off virt v + v mod 4096,
                 Z.lor perms VMM_PRESENT)
      else translate s root v.
Proof.
  intros Hok Hl Hv Hp Hc Hend Hperms Hroom.
  unfold vmm_remap_pages. rewrite enter_ok by done. set (n := Z.to_nat count) in *.
  destruct (mask_aligned phys Hp) as (Hpa & Hp0 & _). destruct (mask_aligned virt Hv) as (_ & _ & Hvu).
  destruct (remap_pages_loop_ok root perms n Hperms T (entered s) (Z.land virt VMM_4K_PERM_MASK)
    (Z.land phys VMM_4K_PERM_MASK) false) as (T' & s' & E & G & Hfl & W); try done; try lia.
  { by apply entered_tree. }
  { apply entered_room. eapply has_room_le; [apply need_room|done]. }
  mrun E. rewrite leave_ok. eexists T', _. split; [reflexivity|]. split; [|split].
  - apply (grows_weaken (need n (Z.land virt VMM_4K_PERM_MASK) false)); [apply need_room|].
    by apply leave_grows.
  - exact Hfl.
  - intros v. change (translate (left_ _ s') root v) with (translate s' root v).
    rewrite W. unfold over. rewrite page_off_mask by done.
    by replace (Z.of_nat n) with count by lia.
Qed.

(** ** [virt_to_phys] *)

Lemma table_above f : 0 < f < 140737488355328 → (NORMAL_VMA_OFFSET <? GET_HIGHER_HALF f) = true.
Proof.
  intros Hf. apply Z.ltb_lt. unfold GET_HIGHER_HALF, u64, NORMAL_VMA_OFFSET. dlia.
Qed.

(** The code reads through a zero entry as a table at physical address 0. *)
Definition frame0_plain s : Prop := ∀ i, 0 ≤ i < 512 → has (mem s (8 * i)) VMM_HUGE = false.

Lemma virt_to_phys_ok T root s v :
  tree_ok T root s → frame0_plain s →
  virt_to_phys v root s =
    Ok (match translate s root v with Some (pa, _) => pa | None => NOT_MAPPED end, s).
Proof.
  intros Hok H0. unfold virt_to_phys. cbv zeta. rewrite offs_index, land_4095, land_2M.
  cbn [p4_off p3_off p2_off p1_off].
  pose proof (pt_index_range 3 v) as Hi3. pose proof (pt_index_range 2 v) as Hi2.
  pose proof (pt_index_range 1 v) as Hi1. pose proof (pt_index_range 0 v) as Hi0.
  pose proof (t_root _ _ _ Hok) as F3. rewrite <- (vpfx_root v) in F3.
  mrun (traverse_ok _ _ _ Hok _ _ _ _ F3 Hi3). unfold translate. cbn [walk].
  pose proof (t_entry _ _ _ Hok _ _ _ _ F3 Hi3) as E3. unfold entry_ok in E3.
  rewrite <- vpfx_step in E3 by lia.
  destruct (T !! (2%nat, vpfx 2 v)) as [f2|] eqn:F2.
  2:{ destruct E3 as [->|(? & _)]; [|done]. reflexivity. }
  destruct E3 as (-> & -> & _). cbn [andb Nat.eqb].
  rewrite table_above by by apply (t_frame _ _ _ Hok _ _ _ F2).
  mrun (traverse_ok _ _ _ Hok _ _ _ _ F2 Hi2).
  pose proof (t_entry _ _ _ Hok _ _ _ _ F2 Hi2) as E2. unfold entry_ok in E2.
  rewrite <- vpfx_step in E2 by lia.
  destruct (T !! (1%nat, vpfx 1 v)) as [f1|] eqn:F1.
  2:{ destruct E2 as [->|(? & _)]; [|done]. change (Z.land 0 VMM_4K_PERM_MASK) with 0.
      unfold get_entry, gets. rewrite (bind_ok _ _ _ _ _ eq_refl). cbv beta.
      rewrite lower_entry by lia. rewrite Z.add_0_l, H0 by done. reflexivity. }
  destruct E2 as (-> & -> & _).
  rewrite table_above by by apply (t_frame _ _ _ Hok _ _ _ F1).
  mrun (get_entry_ok _ _ _ Hok _ _ _ _ F1 Hi1).
  pose proof (t_entry _ _ _ Hok _ _ _ _ F1 Hi1) as E1. unfold entry_ok in E1.
  rewrite <- vpfx_step in E1 by lia. pose proof (t_mem _ _ _ Hok (f1 + 8 * pt_index 1 v)) as U1.
  destruct (T !! (0%nat, vpfx 0 v)) as [f0|] eqn:F0.
  - destruct E1 as (E & -> & Hh). rewrite Hh by done. cbn [andb Nat.eqb].
    mrun (traverse_ok _ _ _ Hok _ _ _ _ F1 Hi1). rewrite E.
    rewrite table_above by by apply (t_frame _ _ _ Hok _ _ _ F0).
    mrun (get_entry_ok _ _ _ Hok _ _ _ _ F0 Hi0).
    pose proof (t_mem _ _ _ Hok (f0 + 8 * pt_index 0 v)) as U0.
    destruct (has (mem s (f0 + _)) VMM_PRESENT); [|done].
    rewrite u64_small; [done|]. rewrite land_mask by done. unfold is_u64 in *. dlia.
  - destruct E1 as [Hz|(_ & -> & -> & Hal)].
    { rewrite Hz. change (has 0 VMM_HUGE) with false. cbv iota.
      mrun (traverse_ok _ _ _ Hok _ _ _ _ F1 Hi1). rewrite Hz. reflexivity. }
    cbn [andb Nat.eqb]. rewrite u64_small; [done|]. rewrite land_mask in * by done.
    unfold is_u64 in *. dlia.
Qed.

(** ** Read-only operations *)

Lemma left_entered s : unlocked (vmm_spinlock s) →
  left_ (check_interrupts (fa_cpu (frames s))) (entered s) = s.
Proof.
  intros Hl. unfold left_, entered. cbn. rewrite fa_cpu_set, fa_set_cpu_twice, lock_unlock by done.
  pose proof (interrupt_lock_unlock (fa_cpu (frames s))) as Hc. cbn in Hc.
  rewrite Hc, fa_set_cpu_id. by destruct s.
Qed.

Definition is_mapped_spec s (v : Z) : Z :=
  match translate s (cr3 s) v with
  | Some (pa, _) => if pa =? NOT_MAPPED then 0 else 1
  | None => 0
  end.

Lemma is_mapped_ok T s v :
  tree_ok T (cr3 s) s → unlocked (vmm_spinlock s) → frame0_plain s →
  is_mapped v s = Ok (is_mapped_spec s v, s).
Proof.
  intros Hok Hl H0. unfold is_mapped. rewrite enter_ok by done. mstep.
  change (cr3 (entered s)) with (cr3 s).
  mrun (virt_to_phys_ok T (cr3 s) (entered s) v (entered_tree _ _ _ Hok) H0).
  change (translate (entered s)) with (translate s). unfold is_mapped_spec.
  destruct (translate s (cr3 s) v) as [[pa fl]|]; [destruct (pa =? NOT_MAPPED)|];
    cbv iota; try rewrite Z.eqb_refl; by rewrite leave_ok, left_entered.
Qed.

Lemma range_loop_ok (test : Z → stM (vmm_state F) Z) (spec : Z → Z) s n : ∀ a,
  (∀ v, test v s = Ok (spec v, s)) → is_u64 a →
  range_loop test n a s =
    Ok (if forallb (λ k, negb (spec (u64 (a + PAGE * Z.of_nat k)) =? 0)) (seq 0 n)
        then 1 else 0, s).
Proof.
  induction n as [|n IH]; intros a Ht Ha; [done|].
  cbn [range_loop seq forallb]. mrun (Ht a).
  replace (a + PAGE * Z.of_nat 0) with a by lia. rewrite (u64_small a) by done.
  destruct (spec a =? 0); [done|]. rewrite IH by (done || apply u64_range).
  cbn [negb andb]. rewrite <- seq_shift, forallb_map.
  rewrite (forallb_ext _ (λ k, negb (spec (u64 (a + PAGE * Z.of_nat (S k))) =? 0))); [done|].
  intros k. rewrite u64_add_l. by replace (a + PAGE + PAGE * Z.of_nat k) with (a + PAGE * Z.of_nat (S k)) by lia.
Qed.

(** [search_entries] only reads when its body only reads. *)
Definition reads {A} (m : stM (vmm_state F) A) : Prop :=
  ∀ s a s', m s = Ok (a, s') → s' = s.

Lemma reads_bind {A B} (m : stM (vmm_state F) A) (k : A → stM (vmm_state F) B) :
  reads m → (∀ a, reads (k a)) → reads (m ≫= k).
Proof.
  intros Hm Hk s b s' H. apply bind_inv in H as (a & s1 & H1 & H2).
  apply Hm in H1 as ->. by eapply Hk.
Qed.

Lemma reads_ret {A} (a : A) : reads (mret a).
Proof. by intros s b s' [= _ <-]. Qed.
Lemma reads_gets {A} (f : vmm_state F → A) : reads (gets f).
Proof. by intros s b s' [= _ <-]. Qed.

Lemma reads_traverse t i : reads (traverse_page_table t i).
Proof. apply reads_bind; [apply reads_gets|]. intros. apply reads_ret. Qed.

Lemma reads_virt_to_phys v p4 : reads (virt_to_phys v p4).
Proof.
  unfold virt_to_phys, get_entry. cbv zeta.
  repeat first [apply reads_ret | apply reads_traverse | apply reads_gets
    | apply reads_bind; [|intros ?] | case_match ].
Qed.

Lemma reads_search n body : (∀ i e, reads (body i e)) → ∀ i t, reads (search_entries n i t body).
Proof.
  intros Hb. induction n as [|n IH]; intros i t; cbn [search_entries]; [apply reads_ret|].
  apply reads_bind; [apply reads_gets|]. intros e. apply reads_bind.
  - destruct (has e VMM_PRESENT); [apply Hb|apply reads_ret].
  - intros []; [apply reads_ret|apply IH].
Qed.

(** ** A new top table *)

Lemma fresh_tree root s :
  fa_inv (frames s) → (∀ a, is_u64 (mem s a)) → root mod 4096 = 0 →
  0 < root < 140737488355328 → fa_used (frames s) (root / 4096) = true →
  (∀ i, 0 ≤ i < 512 → mem s (root + 8 * i) = 0) → tree_ok {[(3%nat, 0) := root]} root s.
Proof.
  intros Hi Hm Ha Hb Hu Hz. split; try done.
  - intros l pr f [[= <- <-] <-]%lookup_singleton_Some. done.
  - by intros r1 r2 f [<- _]%lookup_singleton_Some [<- _]%lookup_singleton_Some.
  - intros l pr f [[= <- <-] <-]%lookup_singleton_Some. lia.
  - intros l pr f i [[= <- <-] <-]%lookup_singleton_Some Hi512. unfold entry_ok.
    rewrite lookup_singleton_ne by done. left. by apply Hz.
Qed.

Lemma copy_loop_ok s old new : 0 ≤ old → old + 4096 ≤ U64_MOD → 0 ≤ new →
  new + 4096 ≤ U64_MOD → old mod 4096 = 0 → new mod 4096 = 0 → old ≠ new →
  ∃ m, for_loop 256 256 (λ i, e ← get_entry (GET_HIGHER_HALF old) i;
      set_entry (GET_HIGHER_HALF new) i e) s = Ok (tt, set_mem m s) ∧
    (∀ i, 256 ≤ i < 512 → m (new + 8 * i) = mem s (old + 8 * i)) ∧
    (∀ a, (∀ i, 256 ≤ i < 512 → a ≠ new + 8 * i) → m a = mem s a).
Proof.
  intros Ho1 Ho2 Hn1 Hn2 Ha1 Ha2 Hne. destruct (for_loop_inv (λ j t, ∃ m, t = set_mem m s ∧
      (∀ i, 256 ≤ i < j → m (new + 8 * i) = mem s (old + 8 * i)) ∧
      (∀ a, (∀ i, 256 ≤ i < j → a ≠ new + 8 * i) → m a = mem s a))
    (λ i, e ← get_entry (GET_HIGHER_HALF old) i; set_entry (GET_HIGHER_HALF new) i e)
    256 256 s) as (s' & Hr & m & -> & H1 & H2).
  - exists (mem s). split; [by destruct s|]. split; [lia|done].
  - intros j t Hj (m & -> & Hin & Hout). unfold get_entry, gets, set_entry, modify.
    rewrite (bind_ok _ _ _ _ _ eq_refl). cbv beta. rewrite !lower_entry by lia. cbn.
    eexists. split; [reflexivity|]. eexists. split; [reflexivity|]. unfold mem_upd. split.
    + intros i Hi. destruct (_ =? _) eqn:E; zbool.
      * assert (i = j) as -> by lia. apply Hout. intros k Hk. dlia.
      * apply Hin. split; [lia|]. destruct (decide (i = j)); [subst; lia|lia].
    + intros a Ha. destruct (_ =? _) eqn:E; zbool; [by exfalso; apply (Ha j); [lia|]|].
      apply Hout. intros i Hi. apply Ha. lia.
  - exists m. split; [exact Hr|]. split; [intros i Hi; apply H1; lia|].
    intros a Ha. apply H2. intros i Hi. apply Ha. lia.
Qed.

(** A tree survives writes outside its frames and allocations. *)
Lemma tree_frame T root s s' :
  tree_ok T root s → fa_inv (frames s') → (∀ a, is_u64 (mem s' a)) →
  (∀ p, fa_used (frames s) p = true → fa_used (frames s') p = true) →
  (∀ a, fa_used (frames s) (a / 4096) = true → mem s' a = mem s a) →
  tree_ok T root s' ∧ ∀ l v t, T !! (l, vpfx l v) = Some t →
    walk (mem s') l t v = walk (mem s) l t v.
Proof.
  intros Hok Hi Hm Hu Hold.
  assert (∀ l pr f i, T !! (l, pr) = Some f → 0 ≤ i < 512 →
    mem s' (f + 8 * i) = mem s (f + 8 * i)) as Hsame.
  { intros l pr f i Hf Hi512. apply Hold.
    destruct (t_frame _ _ _ Hok _ _ _ Hf) as (_ & Ha & _ & Hused).
    by replace ((f + 8 * i) / 4096) with (f / 4096) by dlia. }
  split.
  - destruct Hok as [H1 H2 H3 H4 H5 H6 H7]. split; try done.
    + intros l pr f Hf. destruct (H4 l pr f Hf) as (? & ? & ? & ?). auto.
    + intros l pr f i Hf Hi512. rewrite (Hsame _ _ _ _ Hf Hi512). by apply H7.
  - intros l v t Ht. apply (walk_agree _ _ _ _ _ Hok); [|done].
    intros l0 f Hf. by apply (Hsame _ _ _ _ Hf), pt_index_range.
Qed.

(** The state [vmm_fork_higher_half] leaves, before the lock is released. *)
Lemma fork_body s old :
  (∀ a, is_u64 (mem s a)) → fa_inv (frames s) → has_room (frames s) 1 →
  old mod 4096 = 0 → 0 < old < 140737488355328 → fa_used (frames s) (old / 4096) = true →
  ∃ np fr m, (ret ← vmm_pmm_alloc PAGE;
      zero_page (GET_LOWER_HALF (GET_HIGHER_HALF ret)) ;;
      for_loop 256 256 (λ i, e ← get_entry (GET_HIGHER_HALF old) i;
        set_entry (GET_HIGHER_HALF ret) i e) ;; mret ret) s =
      Ok (np * PAGE, set_mem m (set_frames fr s)) ∧
    0 < np < PHYS_PAGES ∧ fa_used (frames s) np = false ∧ fa_inv fr ∧
    (∀ q, fa_used fr q = (fa_used (frames s) q || (q =? np))%bool) ∧
    if_flag (fa_cpu fr) = if_flag (fa_cpu (frames s)) ∧ fa_size fr = fa_size (frames s) ∧
    (∀ a, is_u64 (m a)) ∧ (∀ a, a / 4096 ≠ np → m a = mem s a) ∧
    (∀ i, 0 ≤ i < 512 → m (np * PAGE + 8 * i) = if i <? 256 then 0 else mem s (old + 8 * i)).
Proof.
  intros Hm Hinv Hroom Hal Hb Hu.
  destruct (fa_alloc_page (frames s) 0 Hinv Hroom) as (np & fr & Ha & Hfree & Hnp & Hi & Hc & _ & Hsz & Hq).
  assert (old / 4096 ≠ np) as Hne by (intros <-; congruence).
  unfold vmm_pmm_alloc. mrun (zoom_ok frames set_frames _ _ _ _ Ha).
  rewrite page_lower by done. mstep. set (s1 := set_mem _ _).
  destruct (copy_loop_ok s1 old (np * PAGE)) as (m & Hrun & Hin & Hout);
    [lia|lia|lia|unfold PHYS_PAGES in Hnp; lia|done|dlia|intros ->; apply Hne; dlia|].
  mrun Hrun. exists np, fr, m. split; [reflexivity|]. clear Hrun.
  do 6 (split; [done|]). split_and!.
  - intros a. destruct (decide (a / 4096 = np)) as [Hp|Hp].
    + destruct (decide (256 ≤ (a - np * PAGE) / 8 < 512 ∧ (a - np * PAGE) mod 8 = 0))
        as [[Hr H8]|Hno].
      * replace a with (np * PAGE + 8 * ((a - np * PAGE) / 8)) by dlia.
        rewrite Hin by done. cbn. rewrite in_page. by destruct (_ =? _).
      * rewrite Hout by (intros j Hj ->; apply Hno; split; dlia).
        cbn. rewrite in_page. by destruct (_ =? _).
    + rewrite Hout by (intros i Hr ->; apply Hp; dlia). cbn. rewrite in_page. by destruct (_ =? _).
  - intros a Hp. rewrite Hout by (intros i Hr ->; apply Hp; dlia). cbn. rewrite in_page.
    by destruct (_ =? _) eqn:E; zbool.
  - intros i Hr. destruct (i <? 256) eqn:E; zbool.
    + rewrite Hout by lia. cbn. rewrite in_page.
      by destruct (_ =? _) eqn:E2; zbool; [|exfalso; apply E2; dlia].
    + rewrite Hin by lia. cbn. rewrite in_page. destruct (_ =? _) eqn:E2; zbool; [|done].
      exfalso. apply Hne. dlia.
Qed.

(** The call: one page more is in use, and it holds the upper half of the old top table. *)
Lemma fork_run T root s :
  tree_ok T root s → unlocked (vmm_spinlock s) → has_room (frames s) 1 →
  ∃ np s', vmm_fork_higher_half root s = Ok (np * PAGE, s') ∧ 0 < np < PHYS_PAGES ∧
    fa_used (frames s) np = false ∧ fa_inv (frames s') ∧ same_regs s s' ∧
    (∀ p, fa_used (frames s') p = (fa_used (frames s) p || (p =? np))%bool) ∧
    (∀ a, is_u64 (mem s' a)) ∧ (∀ a, a / 4096 ≠ np → mem s' a = mem s a) ∧
    (∀ i, 0 ≤ i < 512 → mem s' (np * PAGE + 8 * i) = if i <? 256 then 0 else mem s (root + 8 * i)).
Proof.
  intros Hok Hl Hroom. pose proof (t_root _ _ _ Hok) as Hr.
  destruct (t_frame _ _ _ Hok _ _ _ Hr) as (_ & Hal & Hb & Hu).
  destruct (fork_body (entered s) root) as
    (np & fr & m & Hrun & Hnp & Hfree & Hinv & Hq & Hif & Hsz & Hmu & Hold & Hnew); try done.
  { apply Hok. } { apply fa_inv_set_cpu, Hok. } { by apply entered_room. }
  { cbn. by rewrite fa_used_set_cpu. }
  unfold vmm_fork_higher_half. rewrite enter_ok by done. cbv zeta.
  apply bind_inv in Hrun as (ret & s1 & H1 & Hrun). mrun H1.
  apply bind_inv in Hrun as ([] & s2 & H2 & Hrun). mrun H2.
  apply bind_inv in Hrun as ([] & s3 & H3 & Hrun). mrun H3.
  injection Hrun as -> ->. rewrite leave_ok. clear H1 H2 H3.
  cbn [frames entered set_lock set_frames] in *. rewrite fa_used_set_cpu in Hfree.
  eexists np, _. split; [reflexivity|]. split_and!; try done; try lia.
  - apply fa_inv_set_cpu, Hinv.
  - unfold same_regs. cbn. rewrite fa_size_set_cpu in *. rewrite fa_cpu_set in *. rewrite lock_unlock by done.
    split_and!; try done. cbn in Hif.
    unfold interrupt_unlock, check_interrupts. by destruct (if_flag (fa_cpu (frames s))).
  - intros p. cbn. rewrite fa_used_set_cpu, Hq. by rewrite fa_used_set_cpu.
Qed.

Lemma fork_higher_half_ok T root s :
  tree_ok T root s → unlocked (vmm_spinlock s) → has_room (frames s) 1 →
  ∃ r s', vmm_fork_higher_half root s = Ok (r, s') ∧
    tree_ok T root s' ∧ same_regs s s' ∧ fa_used (frames s) (r / 4096) = false ∧
    (∀ v, translate s' root v = translate s root v) ∧
    (∀ v, translate s' r v = if pt_index 3 v <? 256 then None else translate s root v).
Proof.
  intros Hok Hl Hroom. pose proof (t_root _ _ _ Hok) as Hr.
  destruct (fork_run T root s Hok Hl Hroom) as (np & s' & E & Hnp & Hfree & Hinv & Hregs & Hus & Hmu & Hold & Hnew).
  exists (np * PAGE), s'. split; [exact E|].
  destruct (tree_frame T root s s' Hok) as [Hok' Hw]; [done|done|intros p Hp; by rewrite Hus, Hp| |].
  { intros a Ha. apply Hold. intros Ea. congruence. }
  split_and!; [done|done|by replace (np * PAGE / 4096) with np by dlia| |].
  - intros v. apply (Hw 3%nat v root). by rewrite vpfx_root.
  - intros v. pose proof (pt_index_range 3 v) as Hi. unfold translate. cbn [walk]. rewrite Hnew by done.
    destruct (pt_index 3 v <? 256); [done|]. destruct (has _ VMM_PRESENT) eqn:Hp; [|done]. cbn [andb Nat.eqb].
    pose proof (t_entry _ _ _ Hok _ _ _ _ Hr Hi) as He. unfold entry_ok in He.
    destruct (T !! (2%nat, _)) as [f|] eqn:Hf.
    + destruct He as (-> & _). apply (Hw 2%nat v f). rewrite (vpfx_step 2), vpfx_root by lia. done.
    + destruct He as [He|(? & _)]; [by rewrite He in Hp|done].
Qed.

(** ** The kernel's first address space *)

Lemma new_space s n :
  (∀ a, is_u64 (mem s a)) → fa_inv (frames s) → has_room (frames s) (S n) →
  ∃ np s1, (r ← vmm_pmm_alloc PAGE; zero_page (GET_LOWER_HALF (GET_HIGHER_HALF r)) ;; mret r) s =
      Ok (np * PAGE, s1) ∧
    tree_ok {[(3%nat, 0) := np * PAGE]} (np * PAGE) s1 ∧ has_room (frames s1) n ∧
    0 < np < PHYS_PAGES ∧ fa_used (frames s) np = false ∧
    (∀ q, fa_used (frames s) q = true → fa_used (frames s1) q = true) ∧
    (∀ a, a / 4096 ≠ np → mem s1 a = mem s a) ∧ (∀ v, translate s1 (np * PAGE) v = None) ∧
    vmm_spinlock s1 = vmm_spinlock s ∧ cr3 s1 = cr3 s.
Proof.
  intros Hm Hinv Hroom.
  destruct (fa_alloc_page (frames s) n Hinv Hroom) as (np & fr & Ha & Hfree & Hnp & Hi & _ & Hr & _ & Hq).
  unfold vmm_pmm_alloc. mrun (zoom_ok frames set_frames _ _ _ _ Ha).
  rewrite page_lower by done. mstep. eexists np, _. split; [reflexivity|].
  set (s1 := set_mem _ _).
  assert (∀ a, mem s1 a = if a / 4096 =? np then 0 else mem s a) as Hm1
    by (intros a; cbn; by rewrite in_page).
  assert (∀ i, 0 ≤ i < 512 → mem s1 (np * PAGE + 8 * i) = 0) as Hz.
  { intros i Hi512. rewrite Hm1. by destruct (_ =? _) eqn:E; zbool; [|exfalso; apply E; dlia]. }
  split_and!; try done; try lia.
  - unfold PHYS_PAGES in Hnp. apply fresh_tree; [done| |dlia|lia| |done].
    + intros a. rewrite Hm1. destruct (_ =? _); [done|apply Hm].
    + cbn. replace (np * PAGE / 4096) with np by dlia. by rewrite Hq, Z.eqb_refl, orb_true_r.
  - intros q Hu. cbn. by rewrite Hq, Hu.
  - intros a Hp. rewrite Hm1. by destruct (_ =? _) eqn:E; zbool.
  - intros v. by apply walk_empty.
Qed.

(** Writing the top table's last entry leaves all lower addresses alone. *)
Lemma top_entry_write T root s w v :
  tree_ok T root s → pt_index 3 v ≠ 511 →
  translate (set_mem (mem_upd (mem s) (root + 8 * 511) w) s) root v = translate s root v.
Proof.
  intros Hok Hv. apply (walk_agree _ _ _ _ _ Hok); [|rewrite vpfx_root; apply Hok].
  intros l f Hf. cbn. unfold mem_upd. destruct (_ =? _) eqn:E; [|done]. zbool.
  pose proof (t_root _ _ _ Hok) as Hr.
  destruct (entry_addr _ _ _ _ _ _ _ _ _ _ 511 Hok Hf Hr (pt_index_range l v) ltac:(lia) E)
    as (-> & _ & _ & ?). done.
Qed.

Lemma direct_map_addr p : 0 ≤ p < 140187732541440 →
  pt_index 3 (NORMAL_VMA_OFFSET + p) ≠ 511 ∧
  page_off NORMAL_VMA_OFFSET (NORMAL_VMA_OFFSET + p) = p / 4096 ∧
  (NORMAL_VMA_OFFSET + p) mod 4096 = p mod 4096.
Proof.
  intros Hp. unfold pt_index, page_off, vpn, NORMAL_VMA_OFFSET. cbn [blk].
  split_and!; dlia.
Qed.

Lemma switch_ok s mem_end :
  (∀ a, is_u64 (mem s a)) → fa_inv (frames s) → unlocked (vmm_spinlock s) →
  0 ≤ mem_end ≤ 140187732541440 →
  let n := (mem_end + PAGE - 1) / PAGE in
  has_room (frames s) (S (run_room (Z.to_nat n))) →
  cr3 s mod 4096 = 0 → 0 ≤ cr3 s < 140737488355328 → fa_used (frames s) (cr3 s / 4096) = true →
  ∃ s', pmm_switch_address_space mem_end s = Ok (tt, s') ∧
    base_kernel_cr3 s' = cr3 s' ∧ vmm_complete s' = 1 ∧
    (∀ p, 0 ≤ p < n * PAGE → translate s' (cr3 s') (NORMAL_VMA_OFFSET + p) = Some (p, 3)) ∧
    mem s' (cr3 s' + 8 * 511) = mem s (cr3 s + 8 * 511).
Proof.
  intros Hm Hinv Hl Hme n Hroom Hca Hcb Hcu.
  destruct (new_space s _ Hm Hinv Hroom)
    as (np & s1 & Hrun & Hok & Hroom1 & Hnp & Hfree & Hus & Hold & Hnone & Hlk & Hcr).
  unfold pmm_switch_address_space. unfold PHYS_PAGES in Hnp.
  apply bind_inv in Hrun as (r & s0 & H1 & Hrun). mrun H1.
  apply bind_inv in Hrun as ([] & s0' & H2 & Hrun). mrun H2. injection Hrun as -> ->. clear H1 H2.
  cbv zeta. rewrite u64_small by (unfold is_u64; lia). fold n.
  assert (0 ≤ n ≤ 34225520640) as Hn by (unfold n; dlia). clearbody n.
  destruct (map_pages_ok _ _ s1 0 NORMAL_VMA_OFFSET n (Z.lor VMM_PRESENT VMM_WRITE) Hok)
    as (T' & s2 & Hmap & G & W); try done; [by rewrite Hlk|lia|change (Z.land 0 VMM_4K_PERM_MASK) with 0; lia|].
  rewrite (bind_ok _ _ _ _ _ Hmap). mstep.
  destruct (g_regs _ _ _ _ _ _ G) as (Hc2 & _).
  unfold get_entry, gets. rewrite (bind_ok _ _ _ _ _ eq_refl). cbv beta.
  rewrite Hc2, Hcr, lower_entry by lia. unfold set_entry, modify.
  rewrite lower_entry by lia. rewrite (bind_ok _ _ _ _ _ eq_refl). mstep.
  eexists. split; [reflexivity|]. cbn [cr3 base_kernel_cr3 vmm_complete set_boot set_cr3 mem].
  split_and!; try done.
  - intros p Hp. destruct (direct_map_addr p) as (Hd1 & Hd2 & Hd3); [lia|].
    etrans; [apply (top_entry_write T'); [apply G|done]|].
    rewrite W, Hnone. unfold mapped. rewrite Hd2, Hd3.
    destruct (_ <? n) eqn:E; zbool; [|exfalso; dlia]. f_equal. f_equal.
    change (Z.land 0 VMM_4K_PERM_MASK) with 0. dlia.
  - cbn [set_mem mem]. unfold mem_upd at 1. rewrite Z.eqb_refl.
    assert (cr3 s / 4096 ≠ np) by (intros <-; congruence).
    assert ((cr3 s + 8 * 511) / 4096 = cr3 s / 4096) as E by dlia.
    rewrite (g_data _ _ _ _ _ _ G); [apply Hold; by rewrite E|rewrite E; by apply Hus|].
    intros r [_ Hr]%lookup_singleton_Some. dlia.
Qed.
End helpers.

(** ** Offsets *)

Lemma offs_to_virt_sum o :
  0 ≤ p4_off o < 512 → 0 ≤ p3_off o < 512 → 0 ≤ p2_off o < 512 → 0 ≤ p1_off o < 512 →
  vmm_offs_to_virt o = p4_off o * 549755813888 + p3_off o * 1073741824 +
    p2_off o * 2097152 + p1_off o * 4096.
Proof.
  intros H4 H3 H2 H1. unfold vmm_offs_to_virt. cbv zeta. rewrite !Z.shiftl_mul_pow2 by lia.
  change (2 ^ 39) with 549755813888. change (2 ^ 30) with 1073741824.
  change (2 ^ 21) with 2097152. change (2 ^ 12) with 4096.
  rewrite !u64_small by (unfold is_u64; lia). rewrite Z.lor_0_l.
  rewrite (lor_disjoint 39 (p4_off o * _)) by (change (2 ^ 39) with 549755813888; dlia).
  rewrite (lor_disjoint 30 (_ + _)) by (change (2 ^ 30) with 1073741824; dlia).
  by rewrite (lor_disjoint 21 (_ + _)) by (change (2 ^ 21) with 2097152; dlia).
Qed.

Section claims.
Context {F : Type} `{!FrameAlloc F} `{!FrameAllocLaws F}.
Implicit Types (s : vmm_state F) (T : tree).

(** C4: mapping [count] pages returns, keeps the page-table invariant, restores
    lock and interrupt flag, and gives every address exactly the translation it
    should have: a page that was mapped keeps its translation (and makes the
    return code 1), an unmapped page of the run gets its frame and the flags,
    and no other address changes.  Memory in use that is not a page table is
    not written.  Frames for three tables per 2 MiB are enough. *)
Theorem vmm_map_pages_correct T root s phys virt count perms :
  tree_ok T root s → unlocked (vmm_spinlock s) → is_u64 virt → is_u64 phys →
  0 ≤ count ≤ 68719476736 → Z.land phys VMM_4K_PERM_MASK + PAGE * count ≤ U64_MOD →
  0 ≤ perms < 4096 → has perms VMM_PRESENT = true →
  has_room (frames s) (run_room (Z.to_nat count)) →
  ∃ T' s' ret, vmm_map_pages phys virt root count perms s = Ok (ret, s') ∧
    tree_ok T' root s' ∧ same_regs s s' ∧
    (ret = 1 ↔ ∃ k, (k < Z.to_nat count)%nat ∧
       is_Some (translate s root (u64 (Z.land virt VMM_4K_PERM_MASK + PAGE * Z.of_nat k)))) ∧
    (∀ v, translate s' root v =
       match translate s root v with
       | Some x => Some x
       | None =>
           if page_off virt v <? count
           then Some (Z.land phys VMM_4K_PERM_MASK + 4096 * page_off virt v + v mod 4096, perms)
           else None
       end) ∧
    (∀ a, fa_used (frames s) (a / 4096) = true →
       (∀ r, T !! r ≠ Some (4096 * (a / 4096))) → mem s' a = mem s a).
Proof.
  intros Hok Hl Hv Hp Hc Hend Hperms Hpres Hroom.
  destruct (map_pages_ok T root s phys virt count perms) as (T' & s' & E & G & W); try done.
  eexists T', s', _. split; [exact E|]. destruct G. split_and!; try done.
  unfold map_ret. destruct (existsb _ _) eqn:Ex.
  - apply existsb_exists in Ex as (k & Hk%in_seq & Hs). apply bool_decide_eq_true in Hs.
    split; [|done]. intros _. exists k. split; [lia|done].
  - split; [done|]. intros (k & Hk & Hs). exfalso.
    assert (existsb (λ k, bool_decide (is_Some (translate s root
      (u64 (Z.land virt VMM_4K_PERM_MASK + PAGE * Z.of_nat k))))) (seq 0 (Z.to_nat count)) = true)
      as Ht; [|congruence].
    apply existsb_exists. exists k. split; [apply in_seq; lia|]. by apply bool_decide_eq_true.
Qed.

(** C5: unmapping removes exactly the pages of the run: afterwards none of them
    translates, every other address translates as before (also inside a 2 MiB
    page that had to be split), and each page of the run was invalidated. *)
Theorem vmm_unmap_pages_correct T root s virt count :
  tree_ok T root s → unlocked (vmm_spinlock s) → is_u64 virt → 0 ≤ count ≤ 68719476736 →
  has_room (frames s) (run_room (Z.to_nat count)) →
  ∃ T' s' ret, vmm_unmap_pages virt root count s = Ok (ret, s') ∧
    tree_ok T' root s' ∧ same_regs s s' ∧
    (∀ v, translate s' root v = if page_off virt v <? count then None else translate s root v) ∧
    (∀ k, (k < Z.to_nat count)%nat → u64 (virt + PAGE * Z.of_nat k) ∈ flushed s').
Proof.
  intros. destruct (unmap_pages_ok T root s virt count) as (T' & s' & E & G & Hfl & W); try done.
  eexists T', s', _. split; [exact E|]. destruct G. by split_and!.
Qed.

(** Remapping gives every page of the run the new frame and flags whatever
    it was before, changes no other translation, and invalidates the run. *)
Theorem vmm_remap_pages_correct T root s phys virt count perms :
  tree_ok T root s → unlocked (vmm_spinlock s) → is_u64 virt → is_u64 phys →
  0 ≤ count ≤ 68719476736 → Z.land phys VMM_4K_PERM_MASK + PAGE * count ≤ U64_MOD →
  0 ≤ perms < 4096 → has_room (frames s) (run_room (Z.to_nat count)) →
  ∃ T' s', vmm_remap_pages phys virt root count perms s = Ok (0, s') ∧
    tree_ok T' root s' ∧ same_regs s s' ∧
    (∀ v, translate s' root v =
       if page_off virt v <? count
       then Some (Z.land phys VMM_4K_PERM_MASK + 4096 * page_off virt v + v mod 4096,
                  Z.lor perms VMM_PRESENT)
       else translate s root v) ∧
    (∀ k, (k < Z.to_nat count)%nat →
       u64 (Z.land virt VMM_4K_PERM_MASK + PAGE * Z.of_nat k) ∈ flushed s').
Proof.
  intros. destruct (remap_pages_ok T root s phys virt count perms)
    as (T' & s' & E & G & Hfl & W); try done.
  exists T', s'. split; [exact E|]. destruct G. by split_and!.
Qed.

(** Making the tables on the path of an address, splitting a 2 MiB page
    where there is one, changes no translation at all. *)
Theorem vmm_get_table_transparent T root s v :
  tree_ok T root s → has_room (frames s) 3 →
  ∃ T' s' p f, vmm_get_table (vmm_virt_to_offs v) root s = Ok (p, s') ∧
    tree_ok T' root s' ∧ ptr_p1 p = GET_HIGHER_HALF f ∧ T' !! (0%nat, vpfx 0 v) = Some f ∧
    ∀ v', translate s' root v' = translate s root v'.
Proof.
  intros Hok Hroom. destruct (get_table_ok T root s v Hok Hroom)
    as (T' & s' & p & f & E & Hp & [G W] & Hf).
  exists T', s', p, f. destruct G. by split_and!.
Qed.

(** C6: [virt_to_phys] is the processor's translation, in every branch (missing
    tables, 2 MiB pages, 4 KiB pages), as long as no word of physical page 0
    looks like a 2 MiB entry: the code reads that page when a third-level entry
    is missing.  The walk takes addresses with the code's mask, which keeps bits 52 to 63, and has no 1 GiB pages; on entries without either it is the
    processor's own (mmu_walk_plain in VmmTree.v). *)
Theorem virt_to_phys_correct T root s v :
  tree_ok T root s → frame0_plain s →
  virt_to_phys v root s =
    Ok (match translate s root v with Some (pa, _) => pa | None => NOT_MAPPED end, s).
Proof. apply virt_to_phys_ok. Qed.

(** [range_mapped] tests the pages from that of [data] up to, not
    including, that of [data + size], and answers 1 exactly when all of them
    are mapped; a range inside one page is never tested. *)
Theorem range_mapped_spec T s data size :
  tree_ok T (cr3 s) s → unlocked (vmm_spinlock s) → frame0_plain s →
  0 ≤ data → 0 ≤ size → data + size < U64_MOD →
  range_mapped data size s =
    Ok (if forallb (λ k, negb (is_mapped_spec s (u64 (4096 * (data / 4096) + PAGE * Z.of_nat k)) =? 0))
             (seq 0 (Z.to_nat ((data + size) / 4096 - data / 4096)))
        then 1 else 0, s).
Proof.
  intros Hok Hl H0 Hd Hs He. unfold range_mapped, range_pages. cbv zeta.
  rewrite (u64_small (data + size)) by (unfold is_u64; lia).
  rewrite !land_mask by (unfold is_u64; lia).
  rewrite (u64_small (_ - 4096 * _)), u64_small by (unfold is_u64; dlia).
  replace ((4096 * ((data + size) / 4096) - 4096 * (data / 4096) + PAGE - 1) / PAGE)
    with ((data + size) / 4096 - data / 4096) by dlia.
  apply range_loop_ok; [|unfold is_u64; dlia]. intros v. by apply (is_mapped_ok T).
Qed.

(** Whenever [is_mapped_in_userspace] answers 1 it has left interrupts
    disabled, whatever they were before; when it answers 0 the state is as it
    was. *)
Theorem is_mapped_in_userspace_interrupts s phys ret s' :
  unlocked (vmm_spinlock s) → is_mapped_in_userspace phys s = Ok (ret, s') →
  (ret = 1 ∧ if_flag (fa_cpu (frames s')) = false ∧ vmm_spinlock s' = vmm_spinlock s) ∨
  (ret = 0 ∧ s' = s).
Proof.
  intros Hl H. unfold is_mapped_in_userspace in H.
  apply bind_inv in H as (base & s1 & [= <- <-] & H). cbv zeta in H.
  rewrite enter_ok in H by done. apply bind_inv in H as (found & s1 & Hs & H).
  apply reads_search in Hs as ->.
  2:{ intros. repeat (apply reads_search; intros). apply reads_bind; [apply reads_virt_to_phys|].
      intros. apply reads_bind; [apply reads_gets|]. intros. apply reads_ret. }
  destruct found.
  - left. injection H as <- <-. cbn. by rewrite fa_cpu_set, lock_unlock.
  - right. rewrite leave_ok in H. injection H as <- <-. by rewrite left_entered.
Qed.

(** A forked top table shares the higher half (every kernel address
    translates as in the old space), has an empty lower half, is a frame nobody
    used, and the old address space is untouched. *)
Theorem vmm_fork_higher_half_correct T root s :
  tree_ok T root s → unlocked (vmm_spinlock s) → has_room (frames s) 1 →
  ∃ r s', vmm_fork_higher_half root s = Ok (r, s') ∧
    tree_ok T root s' ∧ same_regs s s' ∧ fa_used (frames s) (r / 4096) = false ∧
    (∀ v, translate s' root v = translate s root v) ∧
    (∀ v, translate s' r v = if pt_index 3 v <? 256 then None else translate s root v).
Proof. apply fork_higher_half_ok. Qed.

(** The address space built at boot maps all of physical memory: address
    0xFFFF800000000000 + p translates to p, writable, for every p below the end
    of memory (rounded up to a page), and the kernel image's top-level entry is
    carried over from the bootloader. *)
Theorem pmm_switch_address_space_correct s mem_end :
  (∀ a, is_u64 (mem s a)) → fa_inv (frames s) → unlocked (vmm_spinlock s) →
  0 ≤ mem_end ≤ 140187732541440 →
  has_room (frames s) (S (run_room (Z.to_nat ((mem_end + PAGE - 1) / PAGE)))) →
  cr3 s mod 4096 = 0 → 0 ≤ cr3 s < 140737488355328 → fa_used (frames s) (cr3 s / 4096) = true →
  ∃ s', pmm_switch_address_space mem_end s = Ok (tt, s') ∧
    base_kernel_cr3 s' = cr3 s' ∧ vmm_complete s' = 1 ∧
    (∀ p, 0 ≤ p < (mem_end + PAGE - 1) / PAGE * PAGE →
       translate s' (cr3 s') (NORMAL_VMA_OFFSET + p) = Some (p, 3)) ∧
    mem s' (cr3 s' + 8 * 511) = mem s (cr3 s + 8 * 511).
Proof. intros. by apply switch_ok. Qed.
End claims.

(** Splitting an address into table offsets and joining them again gives
    the 48-bit page address, and every quadruple of offsets survives the
    reverse trip. *)
Theorem vmm_offs_round_trip :
  (∀ v, vmm_offs_to_virt (vmm_virt_to_offs v) = v mod 281474976710656 - v mod 4096) ∧
  (∀ o, 0 ≤ p4_off o < 512 → 0 ≤ p3_off o < 512 → 0 ≤ p2_off o < 512 → 0 ≤ p1_off o < 512 →
     vmm_virt_to_offs (vmm_offs_to_virt o) = o).
Proof.
  split.
  - intros v. rewrite offs_index. rewrite offs_to_virt_sum by apply pt_index_range.
    cbn [p4_off p3_off p2_off p1_off].
    pose proof (vpn_split v). pose proof (vpfx_step 0 v ltac:(lia)).
    pose proof (vpfx_step 1 v ltac:(lia)). pose proof (vpfx_step 2 v ltac:(lia)).
    pose proof (vpfx_root v). assert (vpn v * 4096 = v mod 281474976710656 - v mod 4096)
      by (unfold vpn; dlia). lia.
  - intros o H4 H3 H2 H1. rewrite offs_to_virt_sum, offs_index by done.
    destruct o as [o4 o3 o2 o1]. cbn [p4_off p3_off p2_off p1_off] in *.
    unfold pt_index. cbn [blk]. f_equal; dlia.
Qed.

(** ** Witnesses *)

(** 128 KiB of memory, an empty top table in page 1, the rest free. *)
Definition vm_pmm : pmm_state := mk_pmm [3; 0; 0; 0] 32 122880 0 122880 0 0 cpu0.
Definition vm_demo : vmm_state pmm_state := mk_vmm vm_pmm (λ _, 0) 4096 0 [] 0 0.
Definition vm_tree : tree := {[(3%nat, 0) := 4096]}.

Lemma vm_pmm_inv : fa_inv vm_pmm.
Proof. split_and!; [split; try done; by repeat constructor|done|done]. Qed.

Lemma vm_demo_ok : tree_ok vm_tree 4096 vm_demo.
Proof. by apply fresh_tree; [apply vm_pmm_inv|..]. Qed.

Lemma vm_demo_room n : (n ≤ 10)%nat → has_room vm_pmm n.
Proof.
  intros Hn. apply (has_room_le _ 10); [done|].
  exists [2; 3; 4; 5; 6; 7; 8; 9; 10; 11]. split_and!; [|done|by repeat constructor].
  apply (bool_decide_unpack _). by vm_compute.
Qed.

Lemma vmm_map_pages_correct_witness : ∃ s' ret,
  vmm_map_pages 16384 4194304 4096 2 3 vm_demo = Ok (ret, s') ∧
  translate s' 4096 4198400 = Some (20480, 3).
Proof.
  destruct (vmm_map_pages_correct vm_tree 4096 vm_demo 16384 4194304 2 3)
    as (T' & s' & ret & E & _ & _ & _ & W & _);
    [exact vm_demo_ok|reflexivity|done|done|lia|vm_compute; discriminate|lia|reflexivity
    |apply vm_demo_room; vm_compute; lia|].
  exists s', ret. split; [exact E|]. rewrite W. reflexivity.
Defined.

Lemma vmm_unmap_pages_correct_witness : ∃ s' ret,
  vmm_unmap_pages 4194304 4096 1 vm_demo = Ok (ret, s') ∧ translate s' 4096 4194304 = None.
Proof.
  destruct (vmm_unmap_pages_correct vm_tree 4096 vm_demo 4194304 1)
    as (T' & s' & ret & E & _ & _ & W & _);
    [exact vm_demo_ok|reflexivity|done|lia|apply vm_demo_room; vm_compute; lia|].
  exists s', ret. split; [exact E|]. rewrite W. reflexivity.
Defined.

Lemma vmm_remap_pages_correct_witness : ∃ s',
  vmm_remap_pages 16384 4194304 4096 1 2 vm_demo = Ok (0, s') ∧
  translate s' 4096 4194305 = Some (16385, 3).
Proof.
  destruct (vmm_remap_pages_correct vm_tree 4096 vm_demo 16384 4194304 1 2)
    as (T' & s' & E & _ & _ & W & _);
    [exact vm_demo_ok|reflexivity|done|done|lia|vm_compute; discriminate|lia
    |apply vm_demo_room; vm_compute; lia|].
  exists s'. split; [exact E|]. rewrite W. reflexivity.
Defined.

Lemma vmm_get_table_transparent_witness : ∃ s' p,
  vmm_get_table (vmm_virt_to_offs 4194304) 4096 vm_demo = Ok (p, s') ∧
  translate s' 4096 4194304 = None.
Proof.
  destruct (vmm_get_table_transparent vm_tree 4096 vm_demo 4194304 vm_demo_ok)
    as (T' & s' & p & f & E & _ & _ & _ & W).
  { apply vm_demo_room. lia. }
  exists s', p. split; [exact E|]. rewrite W. reflexivity.
Defined.

Lemma virt_to_phys_correct_witness :
  virt_to_phys 4194304 4096 vm_demo = Ok (NOT_MAPPED, vm_demo).
Proof.
  rewrite (virt_to_phys_correct vm_tree 4096 vm_demo 4194304 vm_demo_ok ltac:(done)).
  reflexivity.
Defined.

Lemma range_mapped_spec_witness :
  range_mapped 4194304 5000 vm_demo = Ok (0, vm_demo) ∧
  range_mapped 4194304 4095 vm_demo = Ok (1, vm_demo).
Proof.
  split; rewrite (range_mapped_spec vm_tree) by (apply vm_demo_ok || done || lia);
    vm_compute; reflexivity.
Defined.

(** Page 5 is mapped for user code at address 0: the tables are pages 1 to 4. *)
Definition vm_user : vmm_state pmm_state :=
  mk_vmm vm_pmm (λ a, if a =? 4096 then 8199 else if a =? 8192 then 12295
                      else if a =? 12288 then 16391 else if a =? 16384 then 20487 else 0)
    4096 0 [] 0 0.

Lemma is_mapped_in_userspace_interrupts_witness : ∃ s',
  is_mapped_in_userspace 20480 vm_user = Ok (1, s') ∧
  if_flag (fa_cpu (frames vm_user)) = true ∧ if_flag (fa_cpu (frames s')) = false.
Proof.
  assert (match is_mapped_in_userspace 20480 vm_user with Ok (r, _) => r | Crash _ => 2 end = 1)
    as Hr by (vm_compute; reflexivity).
  destruct (is_mapped_in_userspace 20480 vm_user) as [[ret s']|] eqn:E; [|discriminate Hr].
  destruct (is_mapped_in_userspace_interrupts vm_user 20480 ret s' eq_refl E)
    as [(_ & H & _)|[Hz _]]; clear E; [|congruence].
  exists s'. split; [by rewrite Hr|]. split; [reflexivity|exact H].
Defined.

Lemma vmm_fork_higher_half_correct_witness : ∃ r s',
  vmm_fork_higher_half 4096 vm_demo = Ok (r, s') ∧ translate s' r 4096 = None.
Proof.
  destruct (vmm_fork_higher_half_correct vm_tree 4096 vm_demo vm_demo_ok eq_refl)
    as (r & s' & E & _ & _ & _ & _ & W).
  { apply vm_demo_room. lia. }
  exists r, s'. split; [exact E|]. rewrite W. reflexivity.
Defined.

Lemma pmm_switch_address_space_correct_witness : ∃ s',
  pmm_switch_address_space 131072 vm_demo = Ok (tt, s') ∧
  translate s' (cr3 s') (NORMAL_VMA_OFFSET + 70000) = Some (70000, 3).
Proof.
  destruct (pmm_switch_address_space_correct vm_demo 131072) as (s' & E & _ & _ & W & _);
    [done|apply vm_pmm_inv|reflexivity|lia|apply vm_demo_room; vm_compute; lia
    |reflexivity|cbn; lia|reflexivity|].
  exists s'. split; [exact E|]. apply W. split; [lia|vm_compute; reflexivity].
Defined.

Lemma vmm_offs_round_trip_witness :
  vmm_virt_to_offs (vmm_offs_to_virt (mk_off 256 1 2 511)) = mk_off 256 1 2 511.
Proof. apply (proj2 vmm_offs_round_trip); cbn; lia. Defined.
