(* ===== verification/Kmalloc.v ===== *)
(** * The kernel heap (klibc/stdlib.c)

    An allocation is a run of pages from the physical memory manager, used
    through the direct map.  Its first page holds the size and a signature and
    its last page nothing: both are unmapped, so that an access just outside
    the allocation faults.  Loads and stores of the heap code go through the
    processor's translation ([kload], [kstore]); a store into an unmapped page
    is a [Fault]. *)

From S2P Require Import Prelude Locks Pmm Frames Vmm VmmTree VmmSpec VmmMap VmmTheorems.

Definition MALLOC_SIGNATURE : Z := 17366147567552885555. (* 0xf100f333f100f333 *)

Section ops.
Context {F : Type} `{!FrameAlloc F}.
Abbreviation vM := (stM (vmm_state F)).

(** A 64-bit load and store at a virtual address. *)
Definition kload (v : Z) : vM Z :=
  s ← get;
  match translate s (cr3 s) v with
  | Some (pa, _) => mret (mem s pa)
  | None => crashM Fault
  end.
Definition kstore (v w : Z) : vM unit :=
  s ← get;
  match translate s (cr3 s) v with
  | Some (pa, _) => modify (set_mem (mem_upd (mem s) pa w))
  | None => crashM Fault
  end.

(** Bytes of a little-endian word. *)
Definition word_byte (w i : Z) : Z := (w / 2 ^ (8 * i)) mod 256.
Definition word_set_byte (w i b : Z) : Z := w - word_byte w i * 2 ^ (8 * i) + b * 2 ^ (8 * i).

Definition kload8 (v : Z) : vM Z :=
  s ← get;
  match translate s (cr3 s) v with
  | Some (pa, _) => mret (word_byte (mem s (pa - pa mod 8)) (pa mod 8))
  | None => crashM Fault
  end.
Definition kstore8 (v b : Z) : vM unit :=
  s ← get;
  match translate s (cr3 s) v with
  | Some (pa, _) =>
      let a := pa - pa mod 8 in
      modify (set_mem (mem_upd (mem s) a (word_set_byte (mem s a) (pa mod 8) b)))
  | None => crashM Fault
  end.

(** [memset] and [memcpy] of klibc/string.c on virtual addresses. *)
Definition kmemset (dst data count : Z) : vM unit :=
  for_loop (Z.to_nat count) 0 (λ i, kstore8 (u64 (dst + i)) data).
Definition kmemcpy (src dst count : Z) : vM unit :=
  for_loop (Z.to_nat count) 0 (λ i, b ← kload8 (u64 (src + i)); kstore8 (u64 (dst + i)) b).

Definition kmalloc (size : Z) : vM Z :=
  state ← vmm_cli;
  p ← vmm_pmm_alloc (u64 (size + 8192));
  let size_data := u64 (p + NORMAL_VMA_OFFSET) in
  let page_count := u64 (u64 (size + 8192) + PAGE - 1) / PAGE in
  let last_page := u64 (size_data + (page_count - 1) * PAGE) in
  vmm_unmap last_page 1 ;;
  kstore size_data (u64 (size + 8192)) ;;
  kstore (u64 (size_data + 8)) MALLOC_SIGNATURE ;;
  vmm_unmap size_data 1 ;;
  vmm_sti state ;;
  (if negb (size_data mod PAGE =? 0) then crashM Panic else mret tt) ;;
  mret (u64 (size_data + PAGE)).

Definition kfree (addr : Z) : vM unit :=
  assertM (addr mod PAGE =? 0) ;;
  m ← is_mapped addr;
  assertM (negb (m =? 0)) ;;
  state ← vmm_cli;
  let size_data := u64 (addr - PAGE) in
  vmm_map (GET_LOWER_HALF size_data) size_data 1 (Z.lor VMM_PRESENT VMM_WRITE) ;;
  size ← kload size_data;
  let page_count := u64 (u64 (size - PAGE) + PAGE - 1) / PAGE in
  let last_page := u64 (addr + (page_count - 1) * PAGE) in
  vmm_map (GET_LOWER_HALF last_page) last_page 1 (Z.lor VMM_PRESENT VMM_WRITE) ;;
  signature ← kload (u64 (addr - 4088));
  if negb (signature =? MALLOC_SIGNATURE) then crashM Panic
  else
    base ← vmm_get_base;
    phys ← virt_to_phys size_data base;
    (if negb (phys =? NOT_MAPPED)
     then size ← kload size_data; vmm_pmm_unalloc phys size else mret tt) ;;
    vmm_sti state.

Definition unmap_alloc (addr : Z) : vM unit :=
  state ← vmm_cli;
  let size_data := u64 (addr - PAGE) in
  vmm_map (GET_LOWER_HALF size_data) size_data 1 (Z.lor VMM_PRESENT VMM_WRITE) ;;
  size ← kload size_data;
  let page_count := u64 (u64 (size - PAGE) + PAGE - 1) / PAGE in
  vmm_unmap size_data page_count ;;
  vmm_sti state.

Definition remap_alloc (addr : Z) : vM unit :=
  state ← vmm_cli;
  let size_data := u64 (addr - PAGE) in
  vmm_map (GET_LOWER_HALF size_data) size_data 1 (Z.lor VMM_PRESENT VMM_WRITE) ;;
  size ← kload size_data;
  let page_count := u64 (u64 (size - PAGE) + PAGE - 1) / PAGE in
  vmm_map (GET_LOWER_HALF addr) addr (u64 (page_count - 1)) (Z.lor VMM_PRESENT VMM_WRITE) ;;
  vmm_sti state.

Definition kcalloc (size : Z) : vM Z :=
  state ← vmm_cli;
  buffer ← kmalloc size;
  kmemset buffer 0 size ;;
  vmm_sti state ;;
  mret buffer.

Definition krealloc (addr new_size : Z) : vM Z :=
  state ← vmm_cli;
  new_buffer ← kcalloc new_size;
  if addr =? 0 then vmm_sti state ;; mret new_buffer
  else
    let size_data := u64 (addr - PAGE) in
    vmm_map (GET_LOWER_HALF size_data) size_data 1 (Z.lor VMM_PRESENT VMM_WRITE) ;;
    size ← kload size_data;
    kmemcpy addr new_buffer (u64 (size - 8192)) ;;
    kfree addr ;;
    vmm_sti state ;;
    mret new_buffer.
End ops.

(** * The heap invariant *)

(** The address of a page in the direct map. *)
Definition kpage (pg : Z) : Z := NORMAL_VMA_OFFSET + pg * PAGE.

Lemma kpage_off a b o : 0 ≤ a < PHYS_PAGES → 0 ≤ b < PHYS_PAGES → 0 ≤ o < 4096 →
  page_off (kpage a) (kpage b + o) = (b - a) mod 68719476736.
Proof.
  unfold PHYS_PAGES, page_off, vpn, kpage, NORMAL_VMA_OFFSET. intros Ha Hb Ho. dlia.
Qed.

Lemma kpage_u64 pg : 0 ≤ pg < PHYS_PAGES →
  u64 (pg * PAGE + NORMAL_VMA_OFFSET) = kpage pg ∧ is_u64 (kpage pg) ∧
  GET_LOWER_HALF (kpage pg) = pg * PAGE ∧ kpage pg mod 4096 = 0.
Proof.
  unfold PHYS_PAGES, kpage, GET_LOWER_HALF, is_u64, u64, NORMAL_VMA_OFFSET. intros H.
  split_and!; dlia.
Qed.

Section heap.
Context {F : Type} `{!FrameAlloc F} `{!FrameAllocLaws F}.
Implicit Types (s : vmm_state F) (T : tree).

(** Page [pg] is mapped at its place in the direct map. *)
Definition direct s (pg : Z) : Prop :=
  ∀ o, 0 ≤ o < 4096 → ∃ fl, translate s (cr3 s) (kpage pg + o) = Some (pg * PAGE + o, fl).

(** The current address space is well formed and maps every free page. *)
Record heap_ok (T : tree) s : Prop := mk_heap_ok {
  h_tree : tree_ok T (cr3 s) s;
  h_lock : unlocked (vmm_spinlock s);
  h_plain : frame0_plain s;
  h_direct : ∀ pg, fa_used (frames s) pg = false → direct s pg
}.

Lemma frame0_used s : fa_inv (frames s) → fa_used (frames s) 0 = true.
Proof.
  intros Hi. destruct (fa_used (frames s) 0) eqn:E; [done|].
  apply (fa_used_bound _ _ Hi) in E. lia.
Qed.

(** Page 0 is nobody's table, so building tables does not write it. *)
Lemma grows_plain n root T s T' s' :
  tree_ok T root s → grows n root T s T' s' → frame0_plain s → frame0_plain s'.
Proof.
  intros Hok G H0 i Hi. rewrite (g_data _ _ _ _ _ _ G); [by apply H0| |].
  - replace (8 * i / 4096) with 0 by dlia. apply frame0_used, Hok.
  - intros [l pr] Hr. destruct (t_frame _ _ _ Hok _ _ _ Hr) as (_ & _ & Hb & _). dlia.
Qed.


(** ** Steps *)

(** A store into a page in use that is not a table. *)
Lemma data_write T root s a w :
  tree_ok T root s → is_u64 w → (∀ r, T !! r ≠ Some (4096 * (a / 4096))) →
  let s' := set_mem (mem_upd (mem s) a w) s in
  tree_ok T root s' ∧ ∀ v, translate s' root v = translate s root v.
Proof.
  intros Hok Hw HT s'.
  assert (∀ l pr f i, T !! (l, pr) = Some f → 0 ≤ i < 512 →
    mem s' (f + 8 * i) = mem s (f + 8 * i)) as Hsame.
  { intros l pr f i Hf Hi. cbn. unfold mem_upd. destruct (_ =? _) eqn:E; [|done]. zbool.
    exfalso. apply (HT (l, pr)). rewrite Hf. f_equal.
    destruct (t_frame _ _ _ Hok _ _ _ Hf) as (_ & Ha & _). dlia. }
  split.
  - destruct Hok as [H1 H2 H3 H4 H5 H6 H7]. split; try done.
    + intros b. cbn. unfold mem_upd. by destruct (_ =? _).
    + intros l pr f i Hf Hi. rewrite (Hsame _ _ _ _ Hf Hi). by apply H7.
  - intros v. apply (walk_agree _ _ _ _ _ Hok); [|rewrite vpfx_root; apply Hok].
    intros l f Hf. by apply (Hsame _ _ _ _ Hf), pt_index_range.
Qed.

Lemma kload_ok s v pa fl : translate s (cr3 s) v = Some (pa, fl) → kload v s = Ok (mem s pa, s).
Proof. intros H. unfold kload. mstep. by rewrite H. Qed.

Lemma kstore_ok s v pa fl w : translate s (cr3 s) v = Some (pa, fl) →
  kstore v w s = Ok (tt, set_mem (mem_upd (mem s) pa w) s).
Proof. intros H. unfold kstore. mstep. by rewrite H. Qed.

Lemma page_off_lt_1 {A} V v (a b : A) :
  (if page_off V v <? 1 then a else b) = if page_off V v =? 0 then a else b.
Proof.
  pose proof (page_off_range V v).
  destruct (page_off V v <? 1) eqn:?, (page_off V v =? 0) eqn:?; zbool; (done || lia).
Qed.

Lemma unmap_one T s v k :
  tree_ok T (cr3 s) s → unlocked (vmm_spinlock s) → is_u64 v → has_room (frames s) (6 + k) →
  ∃ T' s' ret, vmm_unmap v 1 s = Ok (ret, s') ∧ grows 6 (cr3 s) T s T' s' ∧
    has_room (frames s') k ∧
    ∀ x, translate s' (cr3 s) x = if page_off v x =? 0 then None else translate s (cr3 s) x.
Proof.
  intros Hok Hl Hv Hroom. unfold vmm_unmap, vmm_get_base. mstep.
  destruct (unmap_pages_ok T (cr3 s) s v 1 Hok Hl Hv) as (T' & s' & E & G & _ & W); [lia| |].
  { eapply has_room_le; [|exact Hroom]. change (run_room (Z.to_nat 1)) with 6%nat. lia. }
  eexists T', s', _. split; [exact E|]. split; [exact G|]. split; [by apply (g_room _ _ _ _ _ _ G)|].
  intros x. by rewrite W, page_off_lt_1.
Qed.

Lemma map_one T s pg k :
  tree_ok T (cr3 s) s → unlocked (vmm_spinlock s) → 0 ≤ pg < PHYS_PAGES →
  has_room (frames s) (6 + k) →
  ∃ T' s' ret, vmm_map (GET_LOWER_HALF (kpage pg)) (kpage pg) 1 (Z.lor VMM_PRESENT VMM_WRITE) s =
      Ok (ret, s') ∧ grows 6 (cr3 s) T s T' s' ∧ has_room (frames s') k ∧
    ∀ x, translate s' (cr3 s) x =
      match translate s (cr3 s) x with
      | Some y => Some y
      | None => if page_off (kpage pg) x =? 0 then Some (pg * PAGE + x mod 4096, 3) else None
      end.
Proof.
  intros Hok Hl Hpg Hroom. destruct (kpage_u64 pg Hpg) as (_ & Hv & Hlow & _).
  unfold vmm_map, vmm_get_base. mstep. rewrite Hlow. unfold PHYS_PAGES in Hpg.
  assert (is_u64 (pg * PAGE)) as Hu by (unfold is_u64; lia).
  destruct (map_pages_ok T (cr3 s) s (pg * PAGE) (kpage pg) 1 (Z.lor VMM_PRESENT VMM_WRITE) Hok Hl Hv Hu)
    as (T' & s' & E & G & W); [lia|rewrite land_mask by done; dlia|done|done| |].
  { eapply has_room_le; [|exact Hroom]. change (run_room (Z.to_nat 1)) with 6%nat. lia. }
  eexists T', s', _. split; [exact E|]. split; [exact G|]. split; [by apply (g_room _ _ _ _ _ _ G)|].
  intros x. rewrite W. unfold mapped. destruct (translate s (cr3 s) x); [done|].
  rewrite page_off_lt_1. destruct (_ =? _) eqn:Ex; [|done]. zbool. rewrite Ex, land_mask by done.
  f_equal. f_equal. dlia.
Qed.

(** The state between [vmm_cli] and [vmm_sti]. *)
Definition cli s : vmm_state F :=
  set_frames (fa_set_cpu (snd (interrupt_lock (fa_cpu (frames s)))) (frames s)) s.
Definition sti (state : Z) s : vmm_state F :=
  set_frames (fa_set_cpu (interrupt_unlock state (fa_cpu (frames s))) (frames s)) s.

Lemma cli_ok s : vmm_cli s = Ok (check_interrupts (fa_cpu (frames s)), cli s).
Proof. reflexivity. Qed.
Lemma sti_ok st s : vmm_sti st s = Ok (tt, sti st s).
Proof. reflexivity. Qed.

Lemma used_cli s p : fa_used (frames (cli s)) p = fa_used (frames s) p.
Proof. apply fa_used_set_cpu. Qed.

(** A run of pages from the allocator. *)
Lemma alloc_run T root s size :
  tree_ok T root s → 0 < size → size + PAGE - 1 < U64_MOD →
  (∃ q, free_run (frames s) q (pages_of size)) →
  ∃ p fr, vmm_pmm_alloc size s = Ok (p * PAGE, set_frames fr s) ∧
    free_run (frames s) p (pages_of size) ∧ 0 < p ∧ p + pages_of size ≤ fa_size (frames s) ∧
    fa_size fr = fa_size (frames s) ∧ tree_ok T root (set_frames fr s) ∧
    if_flag (fa_cpu fr) = if_flag (fa_cpu (frames s)) ∧
    ∀ q, fa_used fr q = (fa_used (frames s) q || in_run p (pages_of size) q)%bool.
Proof.
  intros Hok H1 H2 [q Hfr]. pose proof (t_alloc _ _ _ Hok) as Hinv.
  pose proof (pages_of_pos _ H1 H2) as Hn.
  destruct (fa_alloc_spec (frames s) size Hinv H1 H2)
    as [(p & fr & Ha & Hf & Hi & Hsz & Hc & Hq)|[_ Hno]]; [|by exfalso; eapply Hno].
  exists p, fr. split; [unfold vmm_pmm_alloc; by rewrite (zoom_ok _ _ _ _ _ _ Ha)|].
  pose proof (fa_used_bound _ _ Hinv (Hf p ltac:(lia))).
  pose proof (fa_used_bound _ _ Hinv (Hf (p + pages_of size - 1) ltac:(lia))).
  split_and!; try done; try lia.
  eapply (tree_frame T root s); try done; [apply Hok|].
  intros x Hx. cbn. by rewrite Hq, Hx.
Qed.

(** An allocation of pages [p, p + n): its first and last page do not
    translate, every other address does as before, and the first page holds the
    header. *)
Record guarded (p n size : Z) s (T : tree) s' (T' : tree) : Prop := mk_guarded {
  gd_tree : tree_ok T' (cr3 s) s';
  gd_regs : same_regs s s';
  gd_plain : frame0_plain s → frame0_plain s';
  gd_used : ∀ q, fa_used (frames s) q = true → fa_used (frames s') q = true;
  gd_new : ∀ r f, T' !! r = Some f → T !! r = Some f ∨ fa_used (frames s) (f / 4096) = false;
  gd_walk : ∀ v, translate s' (cr3 s) v =
    if (page_off (kpage p) v =? 0) || (page_off (kpage p) v =? n - 1)
    then None else translate s (cr3 s) v;
  gd_size : mem s' (p * PAGE) = size;
  gd_sig : mem s' (p * PAGE + 8) = MALLOC_SIGNATURE
}.

Lemma page_off_shift p n v : 0 ≤ p → 0 < n → p + n ≤ PHYS_PAGES →
  (page_off (kpage (p + n - 1)) v =? 0) = (page_off (kpage p) v =? n - 1).
Proof.
  unfold PHYS_PAGES, page_off, vpn, kpage, NORMAL_VMA_OFFSET. intros H1 H2 H3.
  destruct (_ =? 0) eqn:E1, (_ =? n - 1) eqn:E2; zbool; try done; exfalso; dlia.
Qed.

(** Writing the two header words of a page that is in use and not a table. *)
Lemma header_write T s p fl1 fl2 size :
  tree_ok T (cr3 s) s → 0 < p → (∀ r, T !! r ≠ Some (4096 * p)) → is_u64 size →
  translate s (cr3 s) (kpage p) = Some (p * PAGE, fl1) →
  translate s (cr3 s) (u64 (kpage p + 8)) = Some (p * PAGE + 8, fl2) →
  ∃ s', (kstore (kpage p) size ;; kstore (u64 (kpage p + 8)) MALLOC_SIGNATURE) s = Ok (tt, s') ∧
    tree_ok T (cr3 s) s' ∧ (∀ v, translate s' (cr3 s) v = translate s (cr3 s) v) ∧
    (∃ m, s' = set_mem m s) ∧ mem s' (p * PAGE) = size ∧
    mem s' (p * PAGE + 8) = MALLOC_SIGNATURE ∧ ∀ a, a / 4096 ≠ p → mem s' a = mem s a.
Proof.
  intros Hok Hp HT Hu E1 E2.
  destruct (data_write T (cr3 s) s (p * PAGE) size Hok Hu) as [Hok1 W1].
  { by replace (p * PAGE / 4096) with p by dlia. }
  mrun (kstore_ok _ _ _ _ size E1). set (s1 := set_mem _ s) in *.
  destruct (data_write T (cr3 s) s1 (p * PAGE + 8) MALLOC_SIGNATURE Hok1) as [Hok2 W2]; [done| |].
  { by replace ((p * PAGE + 8) / 4096) with p by dlia. }
  rewrite (kstore_ok _ _ (p * PAGE + 8) fl2) by (rewrite W1; exact E2).
  eexists. split; [reflexivity|]. split; [exact Hok2|]. split; [intros v; by rewrite W2, W1|].
  split; [by eexists|]. cbn. unfold mem_upd. split_and!.
  - destruct (_ =? p * PAGE + 8) eqn:E; zbool; [lia|]. by rewrite Z.eqb_refl.
  - by rewrite Z.eqb_refl.
  - intros a Ha. destruct (a =? p * PAGE + 8) eqn:?, (a =? p * PAGE) eqn:?; zbool; try done;
      exfalso; apply Ha; dlia.
Qed.

Lemma guard_run T s p n size k :
  tree_ok T (cr3 s) s → unlocked (vmm_spinlock s) → 0 < p → 2 ≤ n → p + n ≤ PHYS_PAGES →
  fa_used (frames s) p = true → (∀ r, T !! r ≠ Some (4096 * p)) → direct s p →
  has_room (frames s) (12 + k) → is_u64 size →
  ∃ T' s' ret, (vmm_unmap (kpage (p + n - 1)) 1 ;; kstore (kpage p) size ;;
      kstore (u64 (kpage p + 8)) MALLOC_SIGNATURE ;; vmm_unmap (kpage p) 1) s = Ok (ret, s') ∧
    guarded p n size s T s' T' ∧ has_room (frames s') k.
Proof.
  intros Hok Hl Hp Hn Hpn Hu HT Hd Hroom Hsz.
  destruct (kpage_u64 (p + n - 1) ltac:(lia)) as (_ & Hlu & _).
  destruct (kpage_u64 p ltac:(lia)) as (_ & Hku & _ & _).
  destruct (unmap_one T s (kpage (p + n - 1)) (6 + k) Hok Hl Hlu Hroom) as (T2 & s2 & r2 & E2 & G2 & Hr2 & W2).
  mrun E2. destruct (g_regs _ _ _ _ _ _ G2) as (Hc2 & Hl2 & Hb2 & Hv2 & Hf2 & Hz2).
  pose proof (g_ok _ _ _ _ _ _ G2) as Hok2.
  assert (∀ r, T2 !! r ≠ Some (4096 * p)) as HT2.
  { intros r Hr. destruct (g_new _ _ _ _ _ _ G2 _ _ Hr) as [H|H]; [by eapply HT|].
    replace (4096 * p / 4096) with p in H by dlia. congruence. }
  assert (∀ o, 0 ≤ o < 4096 → ∃ fl, translate s2 (cr3 s2) (kpage p + o) = Some (p * PAGE + o, fl)) as Hd2.
  { intros o Ho. destruct (Hd o Ho) as [fl Hfl]. exists fl. rewrite Hc2, W2, page_off_shift by lia.
    rewrite kpage_off by lia. destruct (_ =? n - 1) eqn:E; [|done]. zbool. exfalso.
    rewrite Z.sub_diag, Z.mod_0_l in E by lia. lia. }
  destruct (Hd2 0 ltac:(lia)) as [fl1 Hfl1]. destruct (Hd2 8 ltac:(lia)) as [fl2 Hfl2].
  rewrite !Z.add_0_r in Hfl1.
  assert (u64 (kpage p + 8) = kpage p + 8) as E8
    by (apply u64_small; unfold is_u64, kpage, NORMAL_VMA_OFFSET, PHYS_PAGES in *; lia).
  destruct (header_write T2 s2 p fl1 fl2 size) as (s3 & E3 & Hok3 & W3 & (m3 & Es3) & Hm1 & Hm2 & Hm3);
    [by rewrite Hc2|done|done|done|done|by rewrite E8|].
  apply bind_inv in E3 as ([] & s3' & E3 & E4). mrun E3. mrun E4.
  destruct (unmap_one T2 s3 (kpage p) k) as (T5 & s5 & r5 & E5 & G5 & Hr5 & W5);
    [by subst s3|subst s3; cbn; by rewrite Hl2|done|subst s3; exact Hr2|].
  exists T5, s5, r5. split; [exact E5|]. split; [|exact Hr5].
  assert (cr3 s3 = cr3 s) as Hc3 by by subst s3. rewrite Hc3 in *. rewrite Hc2 in *.
  assert (frames s3 = frames s2) as Hf3 by by subst s3.
  assert (∀ q, fa_used (frames s) q = true → fa_used (frames s3) q = true) as Hu3
    by (intros q Hq; rewrite Hf3; by apply (g_used _ _ _ _ _ _ G2)).
  assert (∀ a, a / 4096 = p → mem s5 a = mem s3 a) as Hm5.
  { intros a Ha. apply (g_data _ _ _ _ _ _ G5); rewrite Ha; [by apply Hu3|done]. }
  split.
  - apply (g_ok _ _ _ _ _ _ G5).
  - destruct (g_regs _ _ _ _ _ _ G5) as (Hc5 & Hl5 & Hb5 & Hv5 & Hf5 & Hz5). subst s3. cbn in *.
    unfold same_regs. split_and!; congruence.
  - intros H0. eapply grows_plain; [exact Hok3|exact G5|]. intros i Hi. rewrite Hm3 by dlia.
    by apply (grows_plain _ _ _ _ _ _ Hok G2).
  - intros q Hq. apply (g_used _ _ _ _ _ _ G5), Hu3, Hq.
  - intros r f Hr. destruct (g_new _ _ _ _ _ _ G5 _ _ Hr) as [H|H].
    + by apply (g_new _ _ _ _ _ _ G2).
    + right. destruct (fa_used (frames s) (f / 4096)) eqn:E; [|done].
      by rewrite (Hu3 _ E) in H.
  - intros v. rewrite W5, W3, W2, page_off_shift by lia.
    destruct (page_off (kpage p) v =? 0); [done|]. done.
  - rewrite Hm5 by dlia. exact Hm1.
  - rewrite Hm5 by dlia. exact Hm2.
Qed.

(** The pages of an allocation of [size] bytes, header and guard included. *)
Definition alloc_pages (size : Z) : Z := pages_of (size + 8192).

Record allocation (size p : Z) s (T : tree) s' (T' : tree) : Prop := mk_allocation {
  al_free : free_run (frames s) p (alloc_pages size);
  al_bound : 0 < p ∧ 2 ≤ alloc_pages size ∧ p + alloc_pages size ≤ fa_size (frames s) ∧
    size ≤ (alloc_pages size - 2) * PAGE;
  al_heap : heap_ok T' s';
  al_regs : same_regs s s';
  al_used : ∀ q, (fa_used (frames s) q || in_run p (alloc_pages size) q)%bool = true →
    fa_used (frames s') q = true;
  al_new : ∀ r f, T' !! r = Some f → T !! r = Some f ∨
    (fa_used (frames s) (f / 4096) || in_run p (alloc_pages size) (f / 4096))%bool = false;
  al_walk : ∀ v, translate s' (cr3 s) v =
    if (page_off (kpage p) v =? 0) || (page_off (kpage p) v =? alloc_pages size - 1)
    then None else translate s (cr3 s) v;
  al_size : mem s' (p * PAGE) = size + 8192;
  al_sig : mem s' (p * PAGE + 8) = MALLOC_SIGNATURE
}.

Lemma alloc_pages_bound size : 0 ≤ size → size + 12288 ≤ U64_MOD →
  2 ≤ alloc_pages size ∧ size ≤ (alloc_pages size - 2) * PAGE.
Proof. intros. unfold alloc_pages. rewrite pages_of_exact by lia. split; dlia. Qed.

(** After the header is written, the allocation is complete and the heap
    invariant holds again. *)
Lemma guarded_allocation T s size p fr s5 T5 :
  heap_ok T s → 0 ≤ size → size + 12288 ≤ U64_MOD →
  let n := alloc_pages size in
  free_run (frames s) p n → 0 < p → p + n ≤ fa_size (frames s) →
  if_flag (fa_cpu fr) = false → fa_size fr = fa_size (frames s) →
  (∀ q, fa_used fr q = (fa_used (frames s) q || in_run p n q)%bool) →
  guarded p n (size + 8192) (set_frames fr (cli s)) T s5 T5 →
  allocation size p s T (sti (check_interrupts (fa_cpu (frames s))) s5) T5.
Proof.
  intros [Hok Hl H0 Hdir] Hs1 Hs2 n Hfree Hp Hpn Hif Hfsz Hused [G1 G2 G3 G4 G5 G6 G7 G8].
  destruct (alloc_pages_bound size Hs1 Hs2) as [Hn Hsz]. fold n in Hn, Hsz.
  pose proof (fa_size_bound _ (t_alloc _ _ _ Hok)) as Hsb.
  destruct G2 as (Rc & Rl & Rb & Rv & Rf & Rz). cbn in Rc, Rl, Rb, Rv, Rf, Rz, G1, G6.
  split; fold n; try done.
  - split; cbn.
    + rewrite Rc. by apply set_cpu_tree.
    + by rewrite Rl.
    + exact (G3 H0).
    + intros pg Hpg o Ho. rewrite fa_used_set_cpu in Hpg.
      assert (fa_used fr pg = false) as Hfr.
      { destruct (fa_used fr pg) eqn:E; [|done]. by rewrite (G4 pg E) in Hpg. }
      rewrite Hused in Hfr. apply orb_false_iff in Hfr as [Hs Hr].
      pose proof (fa_used_bound _ _ (t_alloc _ _ _ Hok) Hs) as Hb.
      pose proof (fa_size_bound _ (t_alloc _ _ _ Hok)) as Hb2.
      destruct (Hdir pg Hs o Ho) as [fl Hfl]. exists fl.
      change (translate (sti _ s5)) with (translate s5). cbn. rewrite Rc, G6.
      rewrite kpage_off by lia.
      assert (((pg - p) mod 68719476736 =? 0) = false) as ->.
      { apply Z.eqb_neq. unfold in_run in Hr. unfold PHYS_PAGES in *. intros E.
        destruct (p <=? pg) eqn:?, (pg <? p + n) eqn:?; zbool; try done; dlia. }
      assert (((pg - p) mod 68719476736 =? n - 1) = false) as ->.
      { apply Z.eqb_neq. unfold in_run in Hr. unfold PHYS_PAGES in *. intros E.
        destruct (p <=? pg) eqn:?, (pg <? p + n) eqn:?; zbool; try done; dlia. }
      exact Hfl.
  - unfold same_regs. cbn. rewrite fa_cpu_set, fa_size_set_cpu. rewrite Hif in Rf. rewrite Hfsz in Rz.
    split_and!; try done. unfold interrupt_unlock, check_interrupts.
    by destruct (if_flag (fa_cpu (frames s))).
  - intros q Hq. cbn. rewrite fa_used_set_cpu. apply G4. cbn. by rewrite Hused.
  - intros r f Hr. destruct (G5 r f Hr) as [H|H]; [by left|right]. by rewrite <- Hused.
Qed.

Lemma kmalloc_ok T s size k0 :
  heap_ok T s → 0 ≤ size → size + 12288 ≤ U64_MOD →
  has_room (frames s) (Z.to_nat (alloc_pages size) + (12 + k0)) →
  (∃ q, free_run (frames s) q (alloc_pages size)) →
  ∃ p T' s', kmalloc size s = Ok (kpage (p + 1), s') ∧ allocation size p s T s' T' ∧
    has_room (frames s') k0.
Proof.
  intros Hh Hs1 Hs2 Hroom [q Hq]. destruct (alloc_pages_bound size Hs1 Hs2) as [Hn Hsz].
  pose proof (set_cpu_tree _ _ _ (snd (interrupt_lock (fa_cpu (frames s)))) (h_tree _ _ Hh)
    : tree_ok T (cr3 s) (cli s)) as Hok0.
  unfold kmalloc. mrun (cli_ok s). rewrite (u64_small (size + 8192)) by (unfold is_u64; lia).
  destruct (alloc_run T (cr3 s) (cli s) (size + 8192)) as
    (p & fr & Ha & Hfree & Hp & Hpn & Hfsz & Hok1 & Hif & Hused); [done|lia|lia| |].
  { exists q. intros k Hk. rewrite used_cli. by apply Hq. }
  mrun Ha. cbv zeta. change (pages_of (size + 8192)) with (alloc_pages size) in *.
  pose proof (fa_size_bound _ (t_alloc _ _ _ (h_tree _ _ Hh))) as Hsb.
  cbn in Hpn, Hfsz. rewrite fa_size_set_cpu in Hpn, Hfsz.
  assert (p + alloc_pages size ≤ PHYS_PAGES) as Hphys by lia.
  change (u64 (size + 8192 + PAGE - 1) / PAGE) with (alloc_pages size).
  destruct (kpage_u64 p ltac:(lia)) as (-> & Hku & _ & Hkm).
  assert (free_run (frames s) p (alloc_pages size)) as Hfree'
    by (intros k Hk; rewrite <- used_cli; by apply Hfree).
  assert (∀ k, fa_used fr k = (fa_used (frames s) k || in_run p (alloc_pages size) k)%bool) as Hused'
    by (intros k; by rewrite Hused, used_cli).
  assert (u64 (kpage p + (alloc_pages size - 1) * PAGE) = kpage (p + alloc_pages size - 1)) as ->.
  { unfold kpage, u64, NORMAL_VMA_OFFSET, PHYS_PAGES in *. dlia. }
  set (s1 := set_frames fr (cli s)) in *.
  destruct (guard_run T s1 p (alloc_pages size) (size + 8192) k0) as (T5 & s5 & ret & E5 & G5 & Hr5);
    [exact Hok1|apply Hh|done|done|done| | | | | |].
  { cbn. rewrite Hused', in_run_first by lia. apply orb_true_r. }
  { intros [l pr] Hr. destruct (t_frame _ _ _ (h_tree _ _ Hh) _ _ _ Hr) as (_ & _ & _ & Hu).
    replace (4096 * p / 4096) with p in Hu by dlia. by rewrite Hfree' in Hu by lia. }
  { intros o Ho. apply (h_direct _ _ Hh); [apply Hfree'; lia|done]. }
  { eapply (has_room_run (frames (cli s)) fr p (Z.to_nat (alloc_pages size))).
    - apply has_room_set_cpu. exact Hroom.
    - by rewrite Z2Nat.id by lia. }
  { unfold is_u64. lia. }
  apply bind_inv in E5 as (r1 & s2 & E1 & E5). mrun E1.
  apply bind_inv in E5 as ([] & s3 & E2 & E5). mrun E2.
  apply bind_inv in E5 as ([] & s4 & E3 & E4). mrun E3. mrun E4. mrun (sti_ok (check_interrupts (fa_cpu (frames s))) s5).
  rewrite Hkm. cbn [Z.eqb negb]. mstep.
  exists p, T5, (sti (check_interrupts (fa_cpu (frames s))) s5). split.
  { assert (u64 (kpage p + PAGE) = kpage (p + 1)) as ->; [|reflexivity].
    unfold kpage, u64, NORMAL_VMA_OFFSET, PHYS_PAGES in *. dlia. }
  split; [|by apply has_room_set_cpu]. eapply guarded_allocation; try done. cbn in Hif. by rewrite fa_cpu_set in Hif.
Qed.

(** ** Freeing *)

(** [s] holds an allocation of [size] bytes at page [p]. *)
Record owned (size p : Z) s (T : tree) : Prop := mk_owned {
  ow_size : 0 ≤ size ∧ size + 12288 ≤ U64_MOD;
  ow_bound : 0 < p ∧ p + alloc_pages size ≤ fa_size (frames s);
  ow_used : ∀ q, in_run p (alloc_pages size) q = true → fa_used (frames s) q = true;
  ow_table : ∀ r f, T !! r = Some f → in_run p (alloc_pages size) (f / 4096) = false;
  ow_body : ∀ q, p < q < p + alloc_pages size - 1 → direct s q;
  ow_first : ∀ o, 0 ≤ o < 4096 → translate s (cr3 s) (kpage p + o) = None;
  ow_last : ∀ o, 0 ≤ o < 4096 →
    translate s (cr3 s) (kpage (p + alloc_pages size - 1) + o) = None;
  ow_header : mem s (p * PAGE) = size + 8192;
  ow_signature : mem s (p * PAGE + 8) = MALLOC_SIGNATURE
}.

Lemma kpage_off' a b o : 0 ≤ a < PHYS_PAGES → a ≤ b < PHYS_PAGES → 0 ≤ o < 4096 →
  page_off (kpage a) (kpage b + o) = b - a.
Proof.
  intros Ha Hb Ho. rewrite kpage_off by lia. apply Z.mod_small.
  unfold PHYS_PAGES in *. lia.
Qed.

Lemma allocation_owned size p s T s' T' :
  heap_ok T s → 0 ≤ size → size + 12288 ≤ U64_MOD →
  allocation size p s T s' T' → owned size p s' T'.
Proof.
  intros Hh H1 H2 [Hf (Hb & Hn & Hpn & Hsz) Hh' Hr Hu Hnew Hw Hm1 Hm2].
  pose proof (fa_size_bound _ (t_alloc _ _ _ (h_tree _ _ Hh))) as Hsb.
  destruct Hr as (Rc & _ & _ & _ & _ & Rz). split; try done.
  - by rewrite Rz.
  - intros q Hq. apply Hu. by rewrite Hq, orb_true_r.
  - intros r f Hr. destruct (Hnew r f Hr) as [Hold|Hold].
    + destruct r as [l pr]. destruct (t_frame _ _ _ (h_tree _ _ Hh) _ _ _ Hold) as (_ & _ & _ & Hused).
      destruct (in_run _ _ _) eqn:E; [|done]. unfold in_run in E. zbool. by rewrite Hf in Hused.
    + by apply orb_false_iff in Hold as [_ ?].
  - intros q Hq o Ho. destruct (h_direct _ _ Hh q) with (o := o) as [fl Hfl]; [apply Hf; lia|done|].
    exists fl. rewrite Rc, Hw, kpage_off' by lia.
    destruct (q - p =? 0) eqn:?, (q - p =? alloc_pages size - 1) eqn:?; zbool; try lia. exact Hfl.
  - intros o Ho. rewrite Rc, Hw, kpage_off' by lia. by rewrite Z.sub_diag.
  - intros o Ho. rewrite Rc, Hw, kpage_off' by lia.
    replace (p + alloc_pages size - 1 - p) with (alloc_pages size - 1) by lia.
    by rewrite Z.eqb_refl, orb_true_r.
Qed.

(** Freeing pages that hold no table keeps the tree. *)
Lemma tree_free T root s fr p n :
  tree_ok T root s → fa_inv fr →
  (∀ q, fa_used fr q = (fa_used (frames s) q && negb (in_run p n q))%bool) →
  (∀ r f, T !! r = Some f → in_run p n (f / 4096) = false) →
  tree_ok T root (set_frames fr s).
Proof.
  intros [H1 H2 H3 H4 H5 H6 H7] Hi Hq HT. split; try done.
  intros l pr f Hf. destruct (H4 l pr f Hf) as (? & ? & ? & Hu). split_and!; try done; try lia.
  cbn. by rewrite Hq, Hu, (HT _ _ Hf).
Qed.

(** Both guard pages mapped again: the state in which the run is given back. *)
Record unguarded (size p : Z) s (T : tree) s' (T' : tree) : Prop := mk_unguarded {
  un_tree : tree_ok T' (cr3 s) s';
  un_regs : same_regs s s';
  un_plain : frame0_plain s';
  un_used : ∀ q, fa_used (frames s) q = true → fa_used (frames s') q = true;
  un_table : ∀ r f, T' !! r = Some f → in_run p (alloc_pages size) (f / 4096) = false;
  un_body : ∀ q, p ≤ q < p + alloc_pages size → direct s' q;
  un_walk : ∀ v y, translate s (cr3 s) v = Some y → translate s' (cr3 s) v = Some y;
  un_walk_none : ∀ v, translate s (cr3 s) v = None → page_off (kpage p) v ≠ 0 →
    page_off (kpage p) v ≠ alloc_pages size - 1 → translate s' (cr3 s) v = None;
  un_header : mem s' (p * PAGE) = size + 8192 ∧ mem s' (p * PAGE + 8) = MALLOC_SIGNATURE
}.

(** The first half of [kfree], from [vmm_cli] to the signature. *)
Definition kfree_open (addr : Z) : stM (vmm_state F) Z :=
  let size_data := u64 (addr - PAGE) in
  vmm_map (GET_LOWER_HALF size_data) size_data 1 (Z.lor VMM_PRESENT VMM_WRITE) ;;
  size ← kload size_data;
  let page_count := u64 (u64 (size - PAGE) + PAGE - 1) / PAGE in
  let last_page := u64 (addr + (page_count - 1) * PAGE) in
  vmm_map (GET_LOWER_HALF last_page) last_page 1 (Z.lor VMM_PRESENT VMM_WRITE) ;;
  kload (u64 (addr - 4088)).

Lemma kfree_open_ok size p s T :
  tree_ok T (cr3 s) s → unlocked (vmm_spinlock s) → frame0_plain s → owned size p s T →
  has_room (frames s) 12 →
  ∃ s' T', kfree_open (kpage (p + 1)) s = Ok (MALLOC_SIGNATURE, s') ∧
    unguarded size p s T s' T'.
Proof.
  intros Hok Hl H0 [[Hz1 Hz2] [Hp Hpn] Hu HT Hd Hf Hla Hm1 Hm2] Hroom.
  destruct (alloc_pages_bound size Hz1 Hz2) as [Hn Hsz]. set (n := alloc_pages size) in *.
  pose proof (fa_size_bound _ (t_alloc _ _ _ Hok)) as Hsb.
  unfold kfree_open. cbv zeta.
  assert (u64 (kpage (p + 1) - PAGE) = kpage p) as ->
    by (unfold kpage, u64, NORMAL_VMA_OFFSET, PHYS_PAGES in *; dlia).
  destruct (map_one T s p 6 Hok Hl ltac:(lia) Hroom) as (T1 & s1 & r1 & E1 & G1 & Hr1 & W1).
  mrun E1. destruct (g_regs _ _ _ _ _ _ G1) as (Rc1 & Rl1 & Rb1 & Rv1 & Rf1 & Rz1).
  pose proof (g_ok _ _ _ _ _ _ G1) as Hok1.
  assert (∀ a, in_run p n (a / 4096) = true → mem s1 a = mem s a) as Hmem1.
  { intros a Ha. apply (g_data _ _ _ _ _ _ G1); [by apply Hu|]. intros r Hr.
    apply HT in Hr. replace (4096 * (a / 4096) / 4096) with (a / 4096) in Hr by dlia. congruence. }
  assert (∀ o, 0 ≤ o < 4096 → translate s1 (cr3 s) (kpage p + o) = Some (p * PAGE + o, 3)) as Hfst.
  { intros o Ho. rewrite W1, Hf, kpage_off', Z.sub_diag by lia. cbn.
    replace ((kpage p + o) mod 4096) with o; [done|]. unfold kpage, NORMAL_VMA_OFFSET. dlia. }
  pose proof (Hfst 0 ltac:(lia)) as Ht0. rewrite !Z.add_0_r in Ht0.
  rewrite (bind_ok _ _ _ _ _ (kload_ok s1 (kpage p) (p * PAGE) 3 ltac:(by rewrite Rc1))). cbv beta.
  assert (in_run p n p = true) as Hin by (apply in_run_first; lia).
  rewrite (Hmem1 (p * PAGE)) by (by replace (p * PAGE / 4096) with p by dlia). rewrite Hm1.
  assert (u64 (kpage (p + 1) + (u64 (u64 (size + 8192 - PAGE) + PAGE - 1) / PAGE - 1) * PAGE) =
    kpage (p + n - 1)) as ->.
  { unfold n, alloc_pages. rewrite pages_of_exact by lia.
    rewrite (u64_small (size + 8192 - PAGE)), (u64_small (_ + PAGE - 1)) by (unfold is_u64; lia).
    assert (size < 140737488355328) by (unfold PHYS_PAGES in *; lia).
    rewrite u64_small; unfold is_u64, kpage, NORMAL_VMA_OFFSET, PHYS_PAGES in *; dlia. }
  destruct (map_one T1 s1 (p + n - 1) 0) as (T2 & s2 & r2 & E2 & G2 & _ & W2);
    [by rewrite Rc1|by rewrite Rl1|lia|done|]. rewrite Rc1 in G2, W2.
  mrun E2. destruct (g_regs _ _ _ _ _ _ G2) as (Rc2 & Rl2 & Rb2 & Rv2 & Rf2 & Rz2).
  assert (∀ r f, T1 !! r = Some f → in_run p n (f / 4096) = false) as HT1.
  { intros r f Hr. destruct (g_new _ _ _ _ _ _ G1 _ _ Hr) as [H|H]; [by eapply HT|].
    destruct (in_run p n (f / 4096)) eqn:E; [|done]. by rewrite (Hu _ E) in H. }
  assert (∀ a, in_run p n (a / 4096) = true → mem s2 a = mem s a) as Hmem2.
  { intros a Ha. rewrite <- Hmem1 by done. apply (g_data _ _ _ _ _ _ G2).
    - by apply (g_used _ _ _ _ _ _ G1), Hu.
    - intros r Hr. apply HT1 in Hr.
      replace (4096 * (a / 4096) / 4096) with (a / 4096) in Hr by dlia. congruence. }
  assert (∀ v y, translate s1 (cr3 s) v = Some y → translate s2 (cr3 s) v = Some y) as Hkeep2
    by (intros v y Hv; by rewrite W2, Hv).
  assert (∀ v y, translate s (cr3 s) v = Some y → translate s1 (cr3 s) v = Some y) as Hkeep1
    by (intros v y Hv; by rewrite W1, Hv).
  assert (u64 (kpage (p + 1) - 4088) = kpage p + 8) as ->
    by (unfold kpage, u64, NORMAL_VMA_OFFSET, PHYS_PAGES in *; dlia).
  rewrite (kload_ok s2 (kpage p + 8) (p * PAGE + 8) 3)
    by (rewrite Rc2, Rc1; by apply Hkeep2, Hfst; lia).
  rewrite (Hmem2 (p * PAGE + 8)) by (by replace ((p * PAGE + 8) / 4096) with p by dlia).
  rewrite Hm2. exists s2, T2. split; [reflexivity|]. split; fold n.
  - apply G2.
  - eapply same_regs_trans; [apply G1|apply G2].
  - eapply grows_plain; [exact Hok1|exact G2|]. exact (grows_plain _ _ _ _ _ _ Hok G1 H0).
  - intros q Hq. by apply (g_used _ _ _ _ _ _ G2), (g_used _ _ _ _ _ _ G1).
  - intros r f Hr. destruct (g_new _ _ _ _ _ _ G2 _ _ Hr) as [H|H]; [by eapply HT1|].
    destruct (in_run p n (f / 4096)) eqn:E; [|done].
    by rewrite (g_used _ _ _ _ _ _ G1 _ (Hu _ E)) in H.
  - intros q Hq o Ho. rewrite Rc2, Rc1. destruct (decide (q = p)) as [->|Hne].
    { exists 3. by apply Hkeep2, Hfst. }
    destruct (decide (q = p + n - 1)) as [->|Hne2].
    + exists 3. rewrite W2, W1, Hla, kpage_off' by lia.
      destruct (p + n - 1 - p =? 0) eqn:E; zbool; [lia|]. rewrite kpage_off', Z.sub_diag by lia. cbn.
      replace ((kpage (p + n - 1) + o) mod 4096) with o; [done|]. unfold kpage, NORMAL_VMA_OFFSET. dlia.
    + destruct (Hd q ltac:(lia) o Ho) as [fl Hfl]. exists fl. by apply Hkeep2, Hkeep1.
  - intros v y Hv. by apply Hkeep2, Hkeep1.
  - intros v Hv Hn1 Hn2. rewrite W2, W1, Hv, page_off_shift by lia.
    apply Z.eqb_neq in Hn1, Hn2. by rewrite Hn1, Hn2.
  - rewrite !Hmem2 by (replace ((p * PAGE + 8) / 4096) with p by dlia;
      replace (p * PAGE / 4096) with p by dlia; done). done.
Qed.

Lemma cli_owned size p s T : owned size p s T → owned size p (cli s) T.
Proof.
  intros []. split; cbn; try done.
  - by rewrite fa_size_set_cpu.
  - intros q Hq. rewrite fa_used_set_cpu. auto.
Qed.

Lemma direct_phys size p s T s' T' : unguarded size p s T s' T' →
  0 ≤ size → size + 12288 ≤ U64_MOD →
  ∃ fl, translate s' (cr3 s') (kpage p) = Some (p * PAGE, fl).
Proof.
  intros U H1 H2. destruct (alloc_pages_bound size H1 H2) as [Hn _].
  destruct (un_body _ _ _ _ _ _ U p ltac:(lia) 0 ltac:(lia)) as [fl Hfl]. exists fl.
  by rewrite !Z.add_0_r in Hfl.
Qed.

(** Giving the run back restores the heap invariant. *)
Lemma free_heap size p s T s2 T2 fr :
  heap_ok T s → owned size p s T → unguarded size p (cli s) T s2 T2 →
  fa_inv fr → fa_size fr = fa_size (frames s2) → if_flag (fa_cpu fr) = if_flag (fa_cpu (frames s2)) →
  (∀ q, fa_used fr q = (fa_used (frames s2) q && negb (in_run p (alloc_pages size) q))%bool) →
  let s' := sti (check_interrupts (fa_cpu (frames s))) (set_frames fr s2) in
  heap_ok T2 s' ∧ same_regs s s' ∧
  (∀ q, in_run p (alloc_pages size) q = true → fa_used (frames s') q = false) ∧
  (∀ q, in_run p (alloc_pages size) q = false → fa_used (frames s) q = true →
     fa_used (frames s') q = true).
Proof.
  intros Hh Ho [U1 (Rc & Rl & Rb & Rv & Rf & Rz) U3 U4 U5 U6 U7 U8 U9] Hi Hsz Hif Hq s'. cbn in *.
  split; [split|split].
  - cbn. rewrite Rc. apply set_cpu_tree. by eapply tree_free.
  - cbn. rewrite Rl. apply Hh.
  - exact U3.
  - intros pg Hpg. cbn in Hpg. rewrite fa_used_set_cpu, Hq in Hpg.
    intros o Ho'. change (translate s') with (translate s2). cbn.
    destruct (in_run p (alloc_pages size) pg) eqn:E.
    + unfold in_run in E. zbool. destruct (U6 pg ltac:(lia) o Ho') as [fl Hfl]. by exists fl.
    + rewrite andb_true_r in Hpg. destruct (h_direct _ _ Hh pg) with (o := o) as [fl Hfl]; [|done|].
      * destruct (fa_used (frames s) pg) eqn:E2; [|done].
        rewrite U4 in Hpg; [done|]. by rewrite fa_used_set_cpu.
      * exists fl. rewrite Rc. by apply U7.
  - unfold same_regs. cbn. rewrite fa_cpu_set, fa_size_set_cpu in *. rewrite Hsz, Rz.
    split_and!; try done. rewrite <- Hif in Rf. cbn in Rf.
    unfold interrupt_unlock, check_interrupts. by destruct (if_flag (fa_cpu (frames s))).
  - split; intros q Hr; [|intros Hu]; cbn; rewrite fa_used_set_cpu, Hq, Hr.
    + apply andb_false_r.
    + rewrite U4; [done|]. by rewrite fa_used_set_cpu.
Qed.

Lemma kfree_ok size p s T :
  heap_ok T s → owned size p s T → 0 < size → has_room (frames s) 12 →
  ∃ T' s', kfree (kpage (p + 1)) s = Ok (tt, s') ∧ heap_ok T' s' ∧ same_regs s s' ∧
    (∀ q, in_run p (alloc_pages size) q = true → fa_used (frames s') q = false) ∧
    (∀ q, in_run p (alloc_pages size) q = false → fa_used (frames s) q = true →
       fa_used (frames s') q = true).
Proof.
  intros Hh Ho Hsz Hroom. pose proof Ho as [[Hz1 Hz2] [Hp Hpn] _ _ Hd _ _ _ _].
  destruct (alloc_pages_bound size Hz1 Hz2) as [Hn Hn2].
  pose proof (fa_size_bound _ (t_alloc _ _ _ (h_tree _ _ Hh))) as Hsb.
  destruct (kpage_u64 (p + 1) ltac:(lia)) as (_ & _ & _ & Hal).
  unfold kfree. rewrite Hal. mstep.
  mrun (is_mapped_ok T s (kpage (p + 1)) (h_tree _ _ Hh) (h_lock _ _ Hh) (h_plain _ _ Hh)).
  destruct (Hd (p + 1) ltac:(lia) 0 ltac:(lia)) as [fl0 Hfl0]. rewrite !Z.add_0_r in Hfl0.
  unfold is_mapped_spec. rewrite Hfl0.
  assert (((p + 1) * PAGE =? NOT_MAPPED) = false) as -> by
    (apply Z.eqb_neq; unfold NOT_MAPPED, PHYS_PAGES in *; lia).
  mstep. mrun (cli_ok s).
  destruct (kfree_open_ok size p (cli s) T) as (s2 & T2 & E & U);
    [by apply set_cpu_tree, Hh|apply Hh|exact (h_plain _ _ Hh)|by apply cli_owned
    |by apply has_room_set_cpu|].
  unfold kfree_open in E. cbv zeta in *.
  apply bind_inv in E as (r1 & t1 & E1 & E). mrun E1.
  apply bind_inv in E as (sz & t2 & E2 & E). mrun E2.
  apply bind_inv in E as (r3 & t3 & E3 & E). mrun E3. mrun E. rewrite Z.eqb_refl. cbn [negb].
  unfold vmm_get_base. mstep. clear E1 E2 E3 E.
  assert (u64 (kpage (p + 1) - PAGE) = kpage p) as ->
    by (unfold kpage, u64, NORMAL_VMA_OFFSET, PHYS_PAGES in *; dlia).
  destruct (direct_phys _ _ _ _ _ _ U Hz1 Hz2) as [fl Hfl].
  pose proof (un_regs _ _ _ _ _ _ U) as (Rc & _ & _ & _ & _ & Rz). cbn in Rc, Rz.
  rewrite fa_size_set_cpu in Rz.
  pose proof (un_tree _ _ _ _ _ _ U) as Ut. cbn in Ut. rewrite <- Rc in Ut.
  mrun (virt_to_phys_ok T2 (cr3 s2) s2 (kpage p) Ut (un_plain _ _ _ _ _ _ U)). rewrite Hfl.
  assert ((p * PAGE =? NOT_MAPPED) = false) as ->
    by (apply Z.eqb_neq; unfold NOT_MAPPED, PHYS_PAGES in *; lia). cbn [negb].
  destruct (fa_free_spec (frames s2) p (size + 8192)) as (fr & Hfree & Hi & Hs & Hif & Hq);
    [apply Ut|lia|lia|lia|rewrite Rz; exact Hpn|].
  erewrite bind_ok.
  2:{ mrun (kload_ok s2 (kpage p) (p * PAGE) fl Hfl). rewrite (proj1 (un_header _ _ _ _ _ _ U)).
      unfold vmm_pmm_unalloc. apply (zoom_ok frames set_frames _ _ _ _ Hfree). }
  rewrite sti_ok.
  destruct (free_heap size p s T s2 T2 fr Hh Ho U Hi Hs Hif Hq) as (H1 & H2 & H3 & H4).
  eexists T2, _. split; [reflexivity|]. done.
Qed.
End heap.
