(* ===== verification/KmallocTheorems.v ===== *)
(** * The kernel heap: theorems and witnesses *)

From S2P Require Import Prelude Locks Pmm Frames Vmm VmmTree VmmSpec VmmMap VmmTheorems Kmalloc.

Section claims.
Context {F : Type} `{!FrameAlloc F} `{!FrameAllocLaws F}.
Implicit Types (s : vmm_state F) (T : tree).

(** C7: an allocation is fresh memory between two guard pages.  [kmalloc]
    returns the second page of a run that was free; every byte of the buffer is
    mapped to that run; the page before the buffer and the last page of the run
    do not translate, so an overrun faults; no other address changes its
    translation; the heap invariant, the lock and the interrupt flag are as
    before. *)
Theorem kmalloc_guarded T s size :
  heap_ok T s → 0 ≤ size → size + 12288 ≤ U64_MOD →
  has_room (frames s) (Z.to_nat (alloc_pages size) + 12) →
  (∃ q, free_run (frames s) q (alloc_pages size)) →
  ∃ p T' s', kmalloc size s = Ok (kpage (p + 1), s') ∧
    heap_ok T' s' ∧ same_regs s s' ∧ free_run (frames s) p (alloc_pages size) ∧
    (∀ q, in_run p (alloc_pages size) q = true → fa_used (frames s') q = true) ∧
    (∀ i, 0 ≤ i < size → ∃ fl,
       translate s' (cr3 s') (kpage (p + 1) + i) = Some ((p + 1) * PAGE + i, fl)) ∧
    (∀ o, 0 ≤ o < 4096 → translate s' (cr3 s') (kpage (p + 1) - PAGE + o) = None ∧
       translate s' (cr3 s') (kpage (p + alloc_pages size - 1) + o) = None) ∧
    (∀ v, page_off (kpage p) v ≠ 0 → page_off (kpage p) v ≠ alloc_pages size - 1 →
       translate s' (cr3 s) v = translate s (cr3 s) v).
Proof.
  intros Hh H1 H2 Hroom Hq.
  destruct (kmalloc_ok T s size 0 Hh H1 H2 Hroom Hq) as (p & T' & s' & E & A & _).
  pose proof (allocation_owned _ _ _ _ _ _ Hh H1 H2 A) as O.
  destruct A as [Hf (Hb & Hn & Hpn & Hsz) Hh' Hr Hu Hnew Hw Hm1 Hm2].
  exists p, T', s'. split_and!; try done.
  - intros q Hin. apply Hu. by rewrite Hin, orb_true_r.
  - intros i Hi. destruct (ow_body _ _ _ _ O (p + 1 + i / PAGE) ltac:(dlia) (i mod PAGE) ltac:(dlia)) as [fl Hfl].
    exists fl. replace (kpage (p + 1) + i) with (kpage (p + 1 + i / PAGE) + i mod PAGE)
      by (unfold kpage; dlia). rewrite Hfl. f_equal. f_equal. dlia.
  - intros o Ho. split; [|by apply (ow_last _ _ _ _ O)].
    replace (kpage (p + 1) - PAGE + o) with (kpage p + o) by (unfold kpage; lia).
    by apply (ow_first _ _ _ _ O).
  - intros v Hv1 Hv2. rewrite Hw. apply Z.eqb_neq in Hv1, Hv2. by rewrite Hv1, Hv2.
Qed.

(** Freeing a nonempty allocation succeeds, gives back exactly its pages,
    guard pages included, and restores the heap invariant. *)
Theorem kfree_kmalloc T s size :
  heap_ok T s → 0 < size → size + 12288 ≤ U64_MOD →
  has_room (frames s) (Z.to_nat (alloc_pages size) + 24) →
  (∃ q, free_run (frames s) q (alloc_pages size)) →
  ∃ p s1 T2 s2, kmalloc size s = Ok (kpage (p + 1), s1) ∧
    kfree (kpage (p + 1)) s1 = Ok (tt, s2) ∧ heap_ok T2 s2 ∧ same_regs s s2 ∧
    (∀ q, in_run p (alloc_pages size) q = true →
       fa_used (frames s) q = false ∧ fa_used (frames s2) q = false) ∧
    (∀ q, in_run p (alloc_pages size) q = false → fa_used (frames s) q = true →
       fa_used (frames s2) q = true).
Proof.
  intros Hh H1 H2 Hroom Hq.
  assert (0 ≤ size) as H0 by lia.
  destruct (kmalloc_ok T s size 12 Hh H0 H2 Hroom Hq) as (p & T' & s' & E & A & Hroom1).
  pose proof (allocation_owned _ _ _ _ _ _ Hh H0 H2 A) as O.
  destruct (kfree_ok size p s' T' (al_heap _ _ _ _ _ _ A) O H1 Hroom1)
    as (T2 & s2 & E2 & Hh2 & Hr2 & Hin & Hout).
  exists p, s', T2, s2. split_and!; try done.
  - eapply same_regs_trans; [apply A|exact Hr2].
  - intros q Hi. split; [|by apply Hin]. unfold in_run in Hi. zbool.
    by apply (al_free _ _ _ _ _ _ A).
  - intros q Hi Hu. apply Hout; [done|]. apply (al_used _ _ _ _ _ _ A). by rewrite Hu.
Qed.

(** An allocation of zero bytes cannot be freed: its buffer address is the
    unmapped guard page, so [kfree] stops at its mapping assertion. *)
Theorem kfree_kmalloc_zero T s :
  heap_ok T s → has_room (frames s) 14 → (∃ q, free_run (frames s) q 2) →
  ∃ a s1, kmalloc 0 s = Ok (a, s1) ∧ kfree a s1 = Crash Panic.
Proof.
  intros Hh Hroom Hq.
  assert (0 + 12288 ≤ U64_MOD) as H2 by lia.
  destruct (kmalloc_ok T s 0 0 Hh (Z.le_refl 0) H2 Hroom Hq) as (p & T' & s' & E & A & _).
  pose proof (allocation_owned _ _ _ _ _ _ Hh (Z.le_refl 0) H2 A) as O.
  pose proof (al_heap _ _ _ _ _ _ A) as Hh'.
  pose proof (fa_size_bound _ (t_alloc _ _ _ (h_tree _ _ Hh))) as Hsb.
  destruct (al_bound _ _ _ _ _ _ A) as (Hp & Hn & Hpn & _).
  exists (kpage (p + 1)), s'. split; [exact E|]. clear E.
  destruct (kpage_u64 (p + 1) ltac:(lia)) as (_ & _ & _ & Hal).
  unfold kfree. rewrite Hal. mstep.
  mrun (is_mapped_ok T' s' (kpage (p + 1)) (h_tree _ _ Hh') (h_lock _ _ Hh') (h_plain _ _ Hh')).
  unfold is_mapped_spec. change (alloc_pages 0) with 2 in *.
  pose proof (ow_last _ _ _ _ O 0 ltac:(lia)) as Hl. change (alloc_pages 0) with 2 in Hl.
  replace (kpage (p + 2 - 1) + 0) with (kpage (p + 1)) in Hl by (unfold kpage; lia).
  by rewrite Hl.
Qed.
End claims.

(** ** Witnesses *)

(** 256 KiB of memory, mapped at the direct map by one 2 MiB page; the tables
    are in pages 1 to 3. *)
Definition heap_pmm : pmm_state := mk_pmm [15; 0; 0; 0; 0; 0; 0; 0] 64 245760 0 245760 0 0 cpu0.
Definition heap_mem (a : Z) : Z :=
  if a =? 6144 then 8195 else if a =? 8192 then 12291 else if a =? 12288 then 131 else 0.
Definition heap_demo : vmm_state pmm_state := mk_vmm heap_pmm heap_mem 4096 0 [] 0 0.
Definition heap_tree : tree :=
  {[(3%nat, 0) := 4096; (2%nat, 256) := 8192; (1%nat, 131072) := 12288]}.

Lemma heap_tree_cases r f : heap_tree !! r = Some f →
  (r = (3%nat, 0) ∧ f = 4096) ∨ (r = (2%nat, 256) ∧ f = 8192) ∨
  (r = (1%nat, 131072) ∧ f = 12288).
Proof.
  unfold heap_tree. intros [[<- <-]|[_ H]]%lookup_insert_Some; [by left|].
  apply lookup_insert_Some in H as [[<- <-]|[_ H]]; [right; by left|].
  apply lookup_singleton_Some in H as [<- <-]. right. by right.
Qed.

Lemma heap_tree_none r : r ≠ (3%nat, 0) → r ≠ (2%nat, 256) → r ≠ (1%nat, 131072) →
  heap_tree !! r = None.
Proof.
  intros. destruct (heap_tree !! r) as [f|] eqn:E; [|done].
  apply heap_tree_cases in E as [[-> _]|[[-> _]|[-> _]]]; done.
Qed.

Lemma heap_mem_other a : a ≠ 6144 → a ≠ 8192 → a ≠ 12288 → heap_mem a = 0.
Proof.
  intros. unfold heap_mem.
  destruct (a =? 6144) eqn:?, (a =? 8192) eqn:?, (a =? 12288) eqn:?; zbool; done.
Qed.

Lemma heap_demo_entry l pr f i : heap_tree !! (S l, pr) = Some f → 0 ≤ i < 512 →
  entry_ok heap_tree l (pr * 512 + i) (heap_mem (f + 8 * i)).
Proof.
  intros H Hi. unfold entry_ok.
  apply heap_tree_cases in H as [[[= -> ->] ->]|[[[= -> ->] ->]|[[= -> ->] ->]]].
  - destruct (decide (i = 256)) as [->|Hne]; [by vm_compute|].
    rewrite heap_tree_none by (intros [=]; lia). left. apply heap_mem_other; lia.
  - destruct (decide (i = 0)) as [->|Hne]; [by vm_compute|].
    rewrite heap_tree_none by (intros [=]; lia). left. apply heap_mem_other; lia.
  - rewrite heap_tree_none by (intros [=]; lia). destruct (decide (i = 0)) as [->|Hne].
    + right. by vm_compute.
    + left. apply heap_mem_other; lia.
Qed.

Lemma heap_demo_tree : tree_ok heap_tree 4096 heap_demo.
Proof.
  split.
  - split_and!; [split; try done; by repeat constructor|done|done].
  - intros a. cbn. unfold heap_mem. repeat destruct (_ =? _); done.
  - done.
  - intros l pr f [[[= -> ->] ->]|[[[= -> ->] ->]|[[= -> ->] ->]]]%heap_tree_cases; cbn;
      split_and!; lia || done.
  - intros r1 r2 f [[-> ->]|[[-> ->]|[-> ->]]]%heap_tree_cases
      [[-> E]|[[-> E]|[-> E]]]%heap_tree_cases; done.
  - intros l pr f [[[= -> ->] ->]|[[[= -> ->] ->]|[[= -> ->] ->]]]%heap_tree_cases Hl;
      [lia|by exists 4096|by exists 8192].
  - apply heap_demo_entry.
Qed.

Lemma heap_demo_ok : heap_ok heap_tree heap_demo.
Proof.
  split; [exact heap_demo_tree|done| |].
  - intros i Hi. cbn. rewrite heap_mem_other by lia. done.
  - intros pg Hpg o Ho. apply (fa_used_bound heap_pmm) in Hpg; [|apply heap_demo_tree].
    cbn in Hpg. exists 131. unfold translate. cbn [cr3 heap_demo mem].
    set (v := kpage pg + o).
    assert (pt_index 3 v = 256 ∧ pt_index 2 v = 0 ∧ pt_index 1 v = 0 ∧ v mod 2097152 = pg * PAGE + o)
      as (E3 & E2 & E1 & E0).
    { unfold v, pt_index, kpage, NORMAL_VMA_OFFSET. cbn [blk]. split_and!; dlia. }
    cbn [walk]. rewrite E3, E2, E1, E0. reflexivity.
Qed.

Lemma heap_demo_room : has_room heap_pmm 27.
Proof.
  exists (seqZ 4 27). split_and!; [apply NoDup_seqZ|done|].
  apply Forall_forall. intros x Hx%elem_of_seqZ.
  assert (∃ k, x = 4 + Z.of_nat k ∧ (k < 27)%nat) as (k & -> & Hk)
    by (exists (Z.to_nat (x - 4)); lia).
  by repeat (destruct k as [|k]; [reflexivity|]); lia.
Qed.

Lemma heap_demo_run : ∃ q, free_run heap_pmm q 3.
Proof.
  exists 4. intros k Hk. assert (k = 4 ∨ k = 5 ∨ k = 6) as [-> | [-> | ->]] by lia; done.
Qed.

Lemma kmalloc_guarded_witness : ∃ a s', kmalloc 100 heap_demo = Ok (a, s') ∧
  translate s' (cr3 s') (a - PAGE) = None.
Proof.
  destruct (kmalloc_guarded heap_tree heap_demo 100 heap_demo_ok ltac:(lia) ltac:(lia))
    as (p & T' & s' & E & _ & _ & _ & _ & _ & Hg & _).
  { eapply has_room_le; [|exact heap_demo_room]. vm_compute. lia. }
  { exact heap_demo_run. }
  exists (kpage (p + 1)), s'. split; [exact E|].
  destruct (Hg 0 ltac:(lia)) as [H _]. by rewrite Z.add_0_r in H.
Defined.

Lemma kfree_kmalloc_witness : ∃ a s1 s2,
  kmalloc 100 heap_demo = Ok (a, s1) ∧ kfree a s1 = Ok (tt, s2).
Proof.
  destruct (kfree_kmalloc heap_tree heap_demo 100 heap_demo_ok ltac:(lia) ltac:(lia))
    as (p & s1 & T2 & s2 & E & E2 & _).
  { eapply has_room_le; [|exact heap_demo_room]. vm_compute. lia. }
  { exact heap_demo_run. }
  exists (kpage (p + 1)), s1, s2. split; [exact E|exact E2].
Defined.

Lemma kfree_kmalloc_zero_witness : ∃ a s1,
  kmalloc 0 heap_demo = Ok (a, s1) ∧ kfree a s1 = Crash Panic.
Proof.
  apply (kfree_kmalloc_zero heap_tree heap_demo heap_demo_ok).
  - eapply has_room_le; [|exact heap_demo_room]. lia.
  - exists 4. intros k Hk. assert (k = 4 ∨ k = 5) as [-> | ->] by lia; done.
Defined.
