(* ===== verification/Blocks.v ===== *)
(** * Heap blocks as arrays

    What the users of the kernel heap see of it: [kmalloc] of klibc/stdlib.c
    gives whole pages followed by a page that is not mapped, so the elements of
    a block up to the end of its last page can be accessed and nothing beyond
    them; [kcalloc] clears the requested part only, and [krealloc] copies as
    many bytes as the old block was asked for, whatever the new size.  The
    contents of memory that was never written are the argument [junk]. *)

From S2P Require Import Prelude.

Record block (A : Type) : Type := mk_block {
  b_size : Z;     (** the number of elements that was asked for *)
  b_data : list A (** the elements that can be accessed *)
}.
Arguments mk_block {A} _ _.
Arguments b_size {A} _.
Arguments b_data {A} _.

Section blocks.
Context {A : Type} (zero : A) (esize : Z) (junk : Z → list A).

(** The number of elements up to the end of the last page. *)
Definition capacity (n : Z) : Z := ((n * esize + PAGE - 1) / PAGE * PAGE) / esize.

Definition kmalloc_block (n : Z) : block A :=
  mk_block n (resize (Z.to_nat (capacity n)) zero (junk n)).

Definition kcalloc_block (n : Z) : block A :=
  mk_block n (replicate (Z.to_nat n) zero ++ resize (Z.to_nat (capacity n - n)) zero (junk n)).

(** [None] is the null pointer. *)
Definition krealloc_block (o : option (block A)) (n : Z) : res (block A) :=
  match o with
  | None => Ok (kcalloc_block n)
  | Some b =>
      if b_size b <=? capacity n
      then Ok (mk_block n (take (Z.to_nat (b_size b)) (b_data b)
                           ++ drop (Z.to_nat (b_size b)) (b_data (kcalloc_block n))))
      else Crash Fault
  end.

(** A block as the allocator gives it. *)
Definition block_ok (b : block A) : Prop :=
  0 ≤ b_size b ∧ zlen (b_data b) = capacity (b_size b).

Hypothesis esize_pos : 0 < esize.
Hypothesis esize_div : PAGE mod esize = 0.

Lemma capacity_ge n : 0 ≤ n → n ≤ capacity n.
Proof.
  intros Hn. unfold capacity. apply Z.div_le_lower_bound; [done|].
  rewrite Z.mul_comm. pose proof (Z.div_mod (n * esize + PAGE - 1) PAGE ltac:(lia)) as E.
  pose proof (Z.mod_pos_bound (n * esize + PAGE - 1) PAGE ltac:(lia)). lia.
Qed.

Lemma capacity_mono n m : 0 ≤ n ≤ m → capacity n ≤ capacity m.
Proof.
  intros H. unfold capacity. apply Z.div_le_mono; [done|]. apply Z.mul_le_mono_nonneg_r; [lia|].
  apply Z.div_le_mono; nia.
Qed.

Lemma kmalloc_block_ok n : 0 ≤ n → block_ok (kmalloc_block n).
Proof.
  intros Hn. pose proof (capacity_ge n Hn). split; [done|]. unfold zlen. cbn.
  rewrite length_resize. lia.
Qed.

Lemma kcalloc_block_ok n : 0 ≤ n → block_ok (kcalloc_block n).
Proof.
  intros Hn. pose proof (capacity_ge n Hn). split; [done|]. unfold zlen. cbn.
  rewrite length_app, length_replicate, length_resize. lia.
Qed.

(** A block grows: the old elements stay, the rest of what was asked for is cleared. *)
Lemma krealloc_grow b n :
  block_ok b → b_size b ≤ n →
  ∃ b', krealloc_block (Some b) n = Ok b' ∧ block_ok b' ∧ b_size b' = n ∧
    take (Z.to_nat n) (b_data b') =
      take (Z.to_nat (b_size b)) (b_data b) ++ replicate (Z.to_nat (n - b_size b)) zero.
Proof.
  intros [H0 Hl] Hn. pose proof (capacity_ge n ltac:(lia)) as Hc. pose proof (capacity_ge _ H0) as Hc'.
  unfold krealloc_block. rewrite (proj2 (Z.leb_le _ _)) by lia. eexists. split; [done|].
  assert (length (b_data b) = Z.to_nat (capacity (b_size b))) as Hl' by (unfold zlen in Hl; lia).
  split_and!; [|done|].
  - split; cbn [b_size b_data]; [lia|]. unfold zlen. rewrite length_app, length_take, length_drop. cbn.
    rewrite length_app, length_replicate, length_resize. lia.
  - cbn [b_data b_size kcalloc_block]. rewrite take_app, take_take, length_take, Hl'.
    rewrite (Nat.min_r (Z.to_nat n)) by lia. f_equal.
    rewrite drop_app_le by (rewrite length_replicate; lia). rewrite drop_replicate.
    rewrite take_app_le by (rewrite length_replicate; lia).
    rewrite take_replicate. f_equal. lia.
Qed.

Lemma krealloc_null n : 0 ≤ n → ∃ b', krealloc_block None n = Ok b' ∧ block_ok b' ∧ b_size b' = n ∧
  take (Z.to_nat n) (b_data b') = replicate (Z.to_nat n) zero.
Proof.
  intros Hn. eexists. split_and!; [done|by apply kcalloc_block_ok|done|]. cbn.
  rewrite take_app_le by (by rewrite length_replicate). rewrite take_replicate. f_equal. lia.
Qed.
End blocks.
