(* ===== verification/Bytes.v ===== *)
(** * Byte ranges and little-endian words

    Packed structures and on-disk data are lists of bytes; a field is a range
    of them.  [slice] reads a range, [splice] overwrites one, and both are
    described by the elements they leave where. *)

From S2P Require Import Prelude.

Definition slice {A} (l : list A) (off n : Z) : list A := take (Z.to_nat n) (drop (Z.to_nat off) l).
Definition splice {A} (l : list A) (off : Z) (d : list A) : list A :=
  take (Z.to_nat off) l ++ d ++ drop (Z.to_nat off + length d) l.

(** The [n] low bytes of a word, and the word some bytes make. *)
Fixpoint le_bytes (n : nat) (v : Z) : list Z :=
  match n with
  | O => []
  | S n' => v mod 256 :: le_bytes n' (v / 256)
  end.
Definition le_word (l : list Z) : Z := foldr (λ b acc, b + 256 * acc) 0 l.

(** A field of [n] bytes of a structure. *)
Definition fld (off n : Z) (l : list Z) : Z := le_word (slice l off n).
Definition set_fld (off n v : Z) (l : list Z) : list Z := splice l off (le_bytes (Z.to_nat n) v).

Section ranges.
Context {A : Type}.
Implicit Types l d : list A.

Lemma idx_take l n i : idx (take n l) i = if i <? Z.of_nat n then idx l i else None.
Proof.
  unfold idx. destruct (0 <=? i) eqn:E; zbool; [|by destruct (i <? _)].
  destruct (i <? Z.of_nat n) eqn:E'; zbool.
  - apply lookup_take_lt. lia.
  - apply lookup_take_ge. lia.
Qed.

Lemma idx_drop l n i : 0 ≤ i → idx (drop n l) i = idx l (Z.of_nat n + i).
Proof.
  intros Hi. unfold idx. rewrite !(proj2 (Z.leb_le _ _)) by lia.
  rewrite lookup_drop. f_equal. lia.
Qed.

Lemma idx_neg l i : i < 0 → idx l i = None.
Proof. intros Hi. unfold idx. by rewrite (proj2 (Z.leb_gt _ _)). Qed.

Lemma idx_app_range l d i : idx (l ++ d) i = if i <? zlen l then idx l i else idx d (i - zlen l).
Proof.
  unfold idx, zlen. destruct (i <? _) eqn:E; destruct (0 <=? i) eqn:E'; zbool; try done.
  - apply lookup_app_l. lia.
  - rewrite (proj2 (Z.leb_le _ _)) by lia. rewrite lookup_app_r by lia. f_equal. lia.
  - lia.
Qed.

Lemma idx_slice l off n i : 0 ≤ off → 0 ≤ i < n → idx (slice l off n) i = idx l (off + i).
Proof.
  intros Ho Hi. unfold slice. rewrite idx_take, (proj2 (Z.ltb_lt _ _)) by lia.
  rewrite idx_drop by lia. f_equal. lia.
Qed.

Lemma zlen_slice l off n : 0 ≤ off → 0 ≤ n → off + n ≤ zlen l → zlen (slice l off n) = n.
Proof. intros Ho Hn Hl. unfold zlen, slice in *. rewrite length_take, length_drop. lia. Qed.

Lemma zlen_splice l off d : 0 ≤ off → off + zlen d ≤ zlen l → zlen (splice l off d) = zlen l.
Proof.
  intros Ho Hl. unfold zlen, splice in *. rewrite !length_app, length_take, length_drop. lia.
Qed.

Lemma idx_splice l off d i : 0 ≤ off → off + zlen d ≤ zlen l →
  idx (splice l off d) i = if (off <=? i) && (i <? off + zlen d) then idx d (i - off) else idx l i.
Proof.
  intros Ho Hl. unfold splice. rewrite idx_app_range.
  assert (zlen (take (Z.to_nat off) l) = off) as ->.
  { unfold zlen in *. rewrite length_take. lia. }
  destruct (i <? off) eqn:E; zbool.
  - rewrite (proj2 (Z.leb_gt _ _)) by lia. cbn [andb].
    rewrite idx_take. by rewrite (proj2 (Z.ltb_lt _ _)) by lia.
  - rewrite (proj2 (Z.leb_le _ _)) by lia. cbn [andb]. rewrite idx_app_range.
    destruct (i <? off + zlen d) eqn:E'; zbool.
    + by rewrite (proj2 (Z.ltb_lt _ _)) by lia.
    + rewrite (proj2 (Z.ltb_ge _ _)) by lia. rewrite idx_drop by lia.
      f_equal. unfold zlen. lia.
Qed.

Lemma slice_splice_eq l off d : 0 ≤ off → off + zlen d ≤ zlen l → slice (splice l off d) off (zlen d) = d.
Proof.
  intros Ho Hl. pose proof (zlen_nonneg d). apply idx_ext.
  { apply zlen_slice; [done|done|]. by rewrite zlen_splice. }
  rewrite zlen_slice by (rewrite ?zlen_splice; done). intros i Hi.
  rewrite idx_slice, idx_splice by done.
  rewrite (proj2 (Z.leb_le _ _)), (proj2 (Z.ltb_lt _ _)) by lia. cbn [andb]. f_equal. lia.
Qed.

Lemma slice_splice_ne l off d a n : 0 ≤ off → off + zlen d ≤ zlen l → 0 ≤ a → 0 ≤ n → a + n ≤ zlen l →
  a + n ≤ off ∨ off + zlen d ≤ a → slice (splice l off d) a n = slice l a n.
Proof.
  intros Ho Hl Ha Hn Hal Hd. apply idx_ext.
  { by rewrite !zlen_slice by (rewrite ?zlen_splice; done). }
  rewrite zlen_slice by (rewrite ?zlen_splice; done). intros i Hi.
  rewrite !idx_slice, idx_splice by done.
  destruct (off <=? a + i) eqn:E, (a + i <? off + zlen d) eqn:E'; zbool; cbn [andb]; try done. lia.
Qed.

Lemma slice_slice l a n b m : 0 ≤ a → 0 ≤ b → 0 ≤ m → b + m ≤ n → a + n ≤ zlen l →
  slice (slice l a n) b m = slice l (a + b) m.
Proof.
  intros Ha Hb Hm Hn Hl. apply idx_ext.
  { rewrite !zlen_slice; rewrite ?zlen_slice; lia. }
  rewrite zlen_slice by (rewrite ?zlen_slice; lia). intros i Hi.
  rewrite !idx_slice by lia. f_equal. lia.
Qed.

(** A range around the bytes that are overwritten. *)
Lemma slice_splice_in l off d a n : 0 ≤ a ≤ off → off + zlen d ≤ a + n → a + n ≤ zlen l →
  slice (splice l off d) a n = splice (slice l a n) (off - a) d.
Proof.
  intros Ha Hd Hl. pose proof (zlen_nonneg d). apply idx_ext.
  { rewrite zlen_slice by (rewrite ?zlen_splice; lia). rewrite zlen_splice; rewrite ?zlen_slice; lia. }
  rewrite zlen_slice by (rewrite ?zlen_splice; lia). intros i Hi.
  rewrite idx_slice by lia. rewrite !idx_splice by (rewrite ?zlen_slice; lia). rewrite idx_slice by lia.
  destruct (off <=? a + i) eqn:E, (a + i <? off + zlen d) eqn:E'; zbool; cbn [andb].
  all: destruct (off - a <=? i) eqn:F, (i <? off - a + zlen d) eqn:F'; zbool; cbn [andb]; try lia; try done.
  f_equal. lia.
Qed.

(** Overwriting a range with one that was changed inside. *)
Lemma splice_splice_slice l off d a n : 0 ≤ a ≤ off → off + zlen d ≤ a + n → a + n ≤ zlen l →
  splice l a (splice (slice l a n) (off - a) d) = splice l off d.
Proof.
  intros Ha Hd Hl. pose proof (zlen_nonneg d).
  assert (zlen (splice (slice l a n) (off - a) d) = n) as Hn by (rewrite zlen_splice; rewrite ?zlen_slice; lia).
  apply idx_ext; [rewrite (zlen_splice l a), (zlen_splice l off) by (rewrite ?Hn; lia); done|]. intros i Hi.
  rewrite (idx_splice l a), (idx_splice l off) by (rewrite ?Hn; lia). rewrite Hn.
  destruct (a <=? i) eqn:E, (i <? a + n) eqn:E'; zbool; cbn [andb].
  - rewrite idx_splice by (rewrite ?zlen_slice; lia). rewrite idx_slice by lia.
    destruct (off - a <=? i - a) eqn:F, (i - a <? off - a + zlen d) eqn:F'; zbool; cbn [andb].
    all: destruct (off <=? i) eqn:G, (i <? off + zlen d) eqn:G'; zbool; cbn [andb]; try lia; f_equal; lia.
  - destruct (off <=? i) eqn:G, (i <? off + zlen d) eqn:G'; zbool; cbn [andb]; try lia; done.
  - destruct (off <=? i) eqn:G, (i <? off + zlen d) eqn:G'; zbool; cbn [andb]; try lia; done.
  - lia.
Qed.

Lemma splice_app l off d1 d2 : 0 ≤ off → off + zlen d1 + zlen d2 ≤ zlen l →
  splice (splice l off d1) (off + zlen d1) d2 = splice l off (d1 ++ d2).
Proof.
  intros Ho Hl. pose proof (zlen_nonneg d1). pose proof (zlen_nonneg d2).
  assert (zlen (splice l off d1) = zlen l) as Hz by (apply zlen_splice; lia).
  apply idx_ext; [rewrite !zlen_splice; rewrite ?Hz, ?zlen_app; lia|]. intros i Hi.
  rewrite (idx_splice (splice l off d1)), (idx_splice l off d1), (idx_splice l off (d1 ++ d2)) by (rewrite ?Hz, ?zlen_app; lia).
  rewrite zlen_app, idx_app_range.
  destruct (off <=? i) eqn:E1, (off + zlen d1 <=? i) eqn:E2, (i <? off + zlen d1 + zlen d2) eqn:E3,
    (i <? off + zlen d1) eqn:E4, (i <? off + (zlen d1 + zlen d2)) eqn:E5, (i - off <? zlen d1) eqn:E6; zbool; cbn [andb];
    try lia; try done. f_equal. lia.
Qed.

Lemma slice_all l : slice l 0 (zlen l) = l.
Proof. unfold slice, zlen. rewrite Nat2Z.id. cbn. apply firstn_all. Qed.

Lemma slice_app_l l1 l2 off n : 0 ≤ off → 0 ≤ n → off + n ≤ zlen l1 → slice (l1 ++ l2) off n = slice l1 off n.
Proof.
  intros Ho Hn Hl. unfold slice, zlen in *. rewrite drop_app_le by lia. apply take_app_le.
  rewrite length_drop. lia.
Qed.

Lemma slice_mid l1 l2 l3 off n : zlen l1 = off → zlen l2 = n → slice (l1 ++ l2 ++ l3) off n = l2.
Proof.
  intros <- <-. unfold slice, zlen. rewrite !Nat2Z.id, drop_app_length. apply take_app_length.
Qed.

Lemma splice_mid l1 l2 l3 d : zlen l2 = zlen d → splice (l1 ++ l2 ++ l3) (zlen l1) d = l1 ++ d ++ l3.
Proof.
  intros Hd. unfold splice, zlen in *. rewrite Nat2Z.id, take_app_length. f_equal. f_equal.
  rewrite <-drop_drop, drop_app_length. replace (length d) with (length l2) by lia. apply drop_app_length.
Qed.

Lemma slice_app l a n m : 0 ≤ a → 0 ≤ n → 0 ≤ m → slice l a n ++ slice l (a + n) m = slice l a (n + m).
Proof.
  intros Ha Hn Hm. unfold slice. rewrite (Z2Nat.inj_add n m), (Z2Nat.inj_add a n) by lia.
  rewrite <-drop_drop. apply take_take_drop.
Qed.
End ranges.

(** ** Words *)

Lemma le_bytes_length n : ∀ v, length (le_bytes n v) = n.
Proof. induction n as [|n IH]; intros v; cbn; [done|]. by rewrite IH. Qed.

Lemma zlen_le_bytes n v : 0 ≤ n → zlen (le_bytes (Z.to_nat n) v) = n.
Proof. intros Hn. unfold zlen. rewrite le_bytes_length. lia. Qed.

Lemma le_bytes_u8 n : ∀ v, Forall is_u8 (le_bytes n v).
Proof.
  induction n as [|n IH]; intros v; cbn; constructor; [|done]. unfold is_u8. apply Z.mod_pos_bound. lia.
Qed.

Lemma le_word_bytes n : ∀ v, 0 ≤ v < 256 ^ Z.of_nat n → le_word (le_bytes n v) = v.
Proof.
  induction n as [|n IH]; intros v Hv; cbn [le_bytes le_word foldr]; [cbn in Hv; lia|].
  fold (le_word (le_bytes n (v / 256))).
  rewrite Nat2Z.inj_succ, Z.pow_succ_r in Hv by lia.
  rewrite IH; [rewrite Z.add_comm; symmetry; apply Z.div_mod; lia|].
  split; [apply Z.div_pos; lia|apply Z.div_lt_upper_bound; lia].
Qed.

Lemma le_word_range l : Forall is_u8 l → 0 ≤ le_word l < 256 ^ zlen l.
Proof.
  induction 1 as [|b l Hb Hl IH]; cbn [le_word foldr]; [change (256 ^ zlen []) with 1; lia|].
  fold (le_word l). rewrite zlen_cons, Z.pow_add_r, Z.pow_1_r by (try apply zlen_nonneg; lia).
  unfold is_u8 in Hb. lia.
Qed.

Lemma fld_set_eq off n v l : 0 ≤ off → 0 ≤ n → off + n ≤ zlen l → 0 ≤ v < 256 ^ n →
  fld off n (set_fld off n v l) = v.
Proof.
  intros Ho Hn Hl Hv. unfold fld, set_fld.
  pose proof (slice_splice_eq l off (le_bytes (Z.to_nat n) v)) as E. rewrite zlen_le_bytes in E by done.
  rewrite E by done. apply le_word_bytes. by rewrite Z2Nat.id.
Qed.

Lemma fld_set_ne off n v l a m : 0 ≤ off → 0 ≤ n → off + n ≤ zlen l → 0 ≤ a → 0 ≤ m → a + m ≤ zlen l →
  a + m ≤ off ∨ off + n ≤ a → fld a m (set_fld off n v l) = fld a m l.
Proof.
  intros Ho Hn Hl Ha Hm Hal Hd. unfold fld, set_fld. f_equal.
  apply slice_splice_ne; rewrite ?zlen_le_bytes; done.
Qed.

Lemma zlen_set_fld off n v l : 0 ≤ off → 0 ≤ n → off + n ≤ zlen l → zlen (set_fld off n v l) = zlen l.
Proof. intros Ho Hn Hl. unfold set_fld. apply zlen_splice; rewrite ?zlen_le_bytes; done. Qed.
