(* ===== verification/DList.v ===== *)
(** * Intrusive doubly linked lists (klibc/linked_list.h)

    The macros of linked_list.h work on any structure that has [next] and
    [prev] pointers: [Node] is that interface.  A heap maps the address of an
    allocated structure to its contents, [0] is the null pointer, and an access
    to an address that is not allocated is a [Fault].  [dseg h p l q] says that
    the structures at the addresses [l] are linked in that order, the first
    one pointing back to [p] and the last one forward to [q]. *)

From S2P Require Import Prelude.

Class Node (N : Type) := {
  next : N → Z;
  prev : N → Z;
  set_next : Z → N → N;
  set_prev : Z → N → N
}.

Class NodeLaws (N : Type) `{Node N} := {
  next_set_next x (e : N) : next (set_next x e) = x;
  prev_set_next x (e : N) : prev (set_next x e) = prev e;
  next_set_prev x (e : N) : next (set_prev x e) = next e;
  prev_set_prev x (e : N) : prev (set_prev x e) = x;
  set_next_set_next x y (e : N) : set_next x (set_next y e) = set_next x e;
  set_prev_set_prev x y (e : N) : set_prev x (set_prev y e) = set_prev x e;
  set_prev_set_next x y (e : N) : set_prev x (set_next y e) = set_next y (set_prev x e)
}.

Section dlist.
Context {N : Type} `{NodeLaws N}.
Implicit Types h : gmap Z N.

Definition load (a : Z) : stM (gmap Z N) N := h ← get; of_opt (h !! a).
Definition store (a : Z) (e : N) : stM (gmap Z N) unit := modify (λ h, <[a := e]> h).

Definition UNCHAIN_LINKED_LIST (elem : Z) : stM (gmap Z N) unit :=
  e ← load elem;
  (if negb (prev e =? 0) then p ← load (prev e); store (prev e) (set_next (next e) p)
   else mret tt) ;;
  e ← load elem;
  if negb (next e =? 0) then n ← load (next e); store (next e) (set_prev (prev e) n)
  else mret tt.

Definition CHAIN_LINKED_LIST (after new_elem : Z) : stM (gmap Z N) unit :=
  a ← load after;
  e ← load new_elem; store new_elem (set_next (next a) e) ;;
  e ← load new_elem; store new_elem (set_prev after e) ;;
  e ← load new_elem;
  (if negb (next e =? 0) then n ← load (next e); store (next e) (set_prev new_elem n)
   else mret tt) ;;
  a ← load after; store after (set_next new_elem a).

(** ** Linked segments *)

Fixpoint dseg (h : gmap Z N) (p : Z) (l : list Z) (q : Z) : Prop :=
  match l with
  | [] => True
  | a :: l' => a ≠ 0 ∧ (∃ e, h !! a = Some e ∧ prev e = p ∧ next e = default q (head l'))
               ∧ dseg h a l' q
  end.

Definition payload (e : N) : N := set_next 0 (set_prev 0 e).

(** The two heaps differ in links only. *)
Definition same_payload (h h' : gmap Z N) : Prop :=
  ∀ a, payload <$> h' !! a = payload <$> h !! a.

Definition alter_nz (f : N → N) (a : Z) (h : gmap Z N) : gmap Z N :=
  if a =? 0 then h else alter f a h.

Lemma dseg_frame h h' p l q :
  (∀ a, a ∈ l → h' !! a = h !! a) → dseg h p l q → dseg h' p l q.
Proof.
  revert p. induction l as [|a l IH]; intros p Hag Hd; [done|]. destruct Hd as (Ha & (e & He & ?) & Hd).
  split; [done|]. split; [exists e; rewrite Hag; [done|left]|].
  apply IH; [|done]. intros b Hb. apply Hag. by right.
Qed.

Lemma dseg_links h h' p l q :
  (∀ a e, a ∈ l → h !! a = Some e →
     ∃ e', h' !! a = Some e' ∧ next e' = next e ∧ prev e' = prev e) →
  dseg h p l q → dseg h' p l q.
Proof.
  revert p. induction l as [|a l IH]; intros p Hag Hd; [done|].
  destruct Hd as (Ha & (e & He & Hp & Hn) & Hd). split; [done|]. split.
  - destruct (Hag a e) as (e' & ? & ? & ?); [left|done|]. exists e'. split_and!; congruence.
  - apply IH; [|done]. intros b eb Hb. apply Hag. by right.
Qed.

Lemma dseg_app h p l1 l2 q :
  dseg h p (l1 ++ l2) q ↔
  dseg h p l1 (default q (head l2)) ∧ dseg h (default p (last l1)) l2 q.
Proof.
  revert p. induction l1 as [|a l1 IH]; intros p; [simpl; tauto|].
  assert (default p (last (a :: l1)) = default a (last l1)) as ->.
  { rewrite last_cons. by destruct (last l1). }
  assert (default q (head (l1 ++ l2)) = default (default q (head l2)) (head l1)) as Hh.
  { by destruct l1. }
  simpl. rewrite IH, Hh. tauto.
Qed.

Lemma dseg_nonzero h p l q : dseg h p l q → 0 ∉ l.
Proof.
  revert p. induction l as [|a l IH]; intros p Hd; [set_solver|].
  destruct Hd as (? & _ & Hd). apply IH in Hd. set_solver.
Qed.

Lemma dseg_elem h p l q a : dseg h p l q → a ∈ l → is_Some (h !! a).
Proof.
  revert p. induction l as [|b l IH]; intros p Hd Ha; [set_solver|].
  destruct Hd as (? & (e & He & _) & Hd). apply elem_of_cons in Ha as [->|Ha]; eauto.
Qed.

Lemma dseg_mid h p l1 a l2 q :
  dseg h p (l1 ++ a :: l2) q →
  ∃ e, h !! a = Some e ∧ prev e = default p (last l1) ∧ next e = default q (head l2).
Proof. rewrite dseg_app. intros (_ & _ & He & _). exact He. Qed.

Lemma alter_nz_ne f a b h : a ≠ b → alter_nz f a h !! b = h !! b.
Proof. intros. unfold alter_nz. destruct (a =? 0); [done|]. by rewrite lookup_alter_ne. Qed.

Lemma dseg_set_next h p l q x :
  p = 0 → NoDup l → dseg h p l q →
  dseg (alter_nz (set_next x) (default p (last l)) h) p l x.
Proof.
  intros -> Hnd. destruct (last l) as [b|] eqn:Hl; simpl.
  - apply last_Some in Hl as [l' ->]. rewrite !dseg_app. simpl.
    apply NoDup_app in Hnd as (_ & Hnd & _). intros (Hd & Hb & (e & He & ? & ?) & _).
    assert (alter_nz (set_next x) b h !! b = Some (set_next x e)) as Hb'.
    { unfold alter_nz. destruct (b =? 0) eqn:E; zbool; [done|]. by rewrite lookup_alter_eq, He. }
    split_and!; [|done| |done].
    + eapply dseg_frame; [|exact Hd]. intros a Ha. apply alter_nz_ne.
      intros ->. specialize (Hnd _ Ha). set_solver.
    + eexists. split; [exact Hb'|]. by rewrite prev_set_next, next_set_next.
  - apply last_None in Hl as ->. done.
Qed.

Lemma dseg_set_prev h p l q x :
  q = 0 → NoDup l → dseg h p l q →
  dseg (alter_nz (set_prev x) (default q (head l)) h) x l q.
Proof.
  intros ->. destruct l as [|b l]; [done|]. simpl.
  intros [Hb Hnd]%NoDup_cons (Hz & (e & He & ? & ?) & Hd).
  assert (alter_nz (set_prev x) b h !! b = Some (set_prev x e)) as Hb'.
  { unfold alter_nz. destruct (b =? 0) eqn:E; zbool; [done|]. by rewrite lookup_alter_eq, He. }
  split_and!; [done| |].
  - eexists. split; [exact Hb'|]. by rewrite prev_set_prev, next_set_prev.
  - eapply dseg_frame; [|exact Hd]. intros a Ha. apply alter_nz_ne. set_solver.
Qed.

Lemma payload_set_next x e : payload (set_next x e) = payload e.
Proof. unfold payload. by rewrite set_prev_set_next, set_next_set_next. Qed.

Lemma payload_set_prev x e : payload (set_prev x e) = payload e.
Proof. unfold payload. by rewrite set_prev_set_prev. Qed.

Lemma same_payload_refl h : same_payload h h.
Proof. intros a. done. Qed.

Lemma same_payload_trans h1 h2 h3 :
  same_payload h1 h2 → same_payload h2 h3 → same_payload h1 h3.
Proof. intros H1 H2 a. by rewrite H2, H1. Qed.

Lemma same_payload_alter f a h :
  (∀ e, payload (f e) = payload e) → same_payload h (alter_nz f a h).
Proof.
  intros Hf b. unfold alter_nz. destruct (a =? 0); [done|].
  destruct (decide (a = b)) as [->|]; [|by rewrite lookup_alter_ne].
  rewrite lookup_alter_eq. destruct (h !! b); simpl; [by rewrite Hf|done].
Qed.

Lemma insert_as_alter f a h e : a ≠ 0 → h !! a = Some e → <[a := f e]> h = alter_nz f a h.
Proof.
  intros Ha He. unfold alter_nz. destruct (a =? 0) eqn:E; zbool; [done|].
  apply map_eq. intros b. destruct (decide (a = b)) as [->|].
  - by rewrite lookup_insert_eq, lookup_alter_eq, He.
  - by rewrite lookup_insert_ne, lookup_alter_ne.
Qed.

(** ** The macros *)

Lemma load_ok a h e : h !! a = Some e → load a h = Ok (e, h).
Proof. intros He. unfold load. mstep. by rewrite He. Qed.

(** [if (e->prev) e->prev->next = x], and its mirror image. *)
Lemma link_ok f a h :
  (a = 0 ∨ is_Some (h !! a)) →
  (if negb (a =? 0) then p ← load a; store a (f p) else mret tt) h = Ok (tt, alter_nz f a h).
Proof.
  unfold alter_nz. destruct (a =? 0) eqn:E; zbool; [done|]. intros [?|[e He]]; [done|]. simpl.
  mrun (load_ok _ _ _ He). unfold store, modify.
  rewrite (insert_as_alter f _ _ _ E He). unfold alter_nz. by rewrite (proj2 (Z.eqb_neq _ _) E).
Qed.

Lemma last_ok h l q : dseg h 0 l q →
  default 0 (last l) = 0 ∨ is_Some (h !! default 0 (last l)).
Proof.
  intros Hd. destruct (last l) as [b|] eqn:Hl; [right|by left].
  eapply dseg_elem; [exact Hd|]. apply last_Some in Hl as [l' ->]. set_solver.
Qed.

Lemma head_ok h l p : dseg h p l 0 →
  default 0 (head l) = 0 ∨ is_Some (h !! default 0 (head l)).
Proof.
  intros Hd. destruct l as [|b l]; [by left|right]. eapply dseg_elem; [exact Hd|]. left.
Qed.

(** Both neighbours of [a] are linked to each other. *)
Definition unlink (l1 l2 : list Z) (h : gmap Z N) : gmap Z N :=
  alter_nz (set_prev (default 0 (last l1))) (default 0 (head l2))
    (alter_nz (set_next (default 0 (head l2))) (default 0 (last l1)) h).

Lemma unlink_ok h l1 a l2 :
  NoDup (l1 ++ a :: l2) → dseg h 0 (l1 ++ a :: l2) 0 →
  dseg (unlink l1 l2 h) 0 (l1 ++ l2) 0 ∧ same_payload h (unlink l1 l2 h)
  ∧ (∀ b, b ∉ l1 ++ l2 → unlink l1 l2 h !! b = h !! b).
Proof.
  intros Hnd Hd. pose proof (dseg_nonzero _ _ _ _ Hd) as Hz.
  apply dseg_app in Hd as [Hd1 (Ha & _ & Hd2)].
  apply NoDup_app in Hnd as (Hnd1 & Hx & [Ha2 Hnd2]%NoDup_cons).
  assert (∀ b, b ∈ l1 → b ≠ a ∧ b ∉ l2) as Hdis by (intros b Hb; specialize (Hx b Hb); set_solver).
  unfold unlink. set (h1 := alter_nz (set_next (default 0 (head l2))) (default 0 (last l1)) h).
  assert (∀ b, b ∉ l1 → b ≠ 0 → h1 !! b = h !! b) as F1.
  { intros b Hb Hb0. apply alter_nz_ne. destruct (last l1) as [c|] eqn:Hl; simpl; [|done].
    intros ->. apply last_Some in Hl as [l' ->]. set_solver. }
  assert (dseg h1 a l2 0) as Hd2'.
  { eapply dseg_frame; [|exact Hd2]. intros b Hb. apply F1; set_solver. }
  set (h2 := alter_nz (set_prev (default 0 (last l1))) (default 0 (head l2)) h1).
  assert (∀ b, b ∉ l2 → b ≠ 0 → h2 !! b = h1 !! b) as F2.
  { intros b Hb Hb0. apply alter_nz_ne. destruct l2; simpl; set_solver. }
  split_and!.
  - apply dseg_app. split.
    + eapply dseg_frame; [|by apply (dseg_set_next h 0 l1 a)]. intros b Hb. apply F2; [by apply Hdis|].
      set_solver.
    + by apply (dseg_set_prev h1 a l2 0).
  - eapply same_payload_trans; apply same_payload_alter; intros;
      [apply payload_set_next|apply payload_set_prev].
  - intros b Hb. destruct (decide (b = 0)) as [->|Hb0]; [|rewrite F2, F1; set_solver].
    unfold h2, h1, alter_nz. repeat case_match; zbool; try done; by rewrite !lookup_alter_ne by done.
Qed.

(** The neighbours of [a] are allocated, and are not [a]. *)
Lemma neighbours_ok h l1 a l2 :
  NoDup (l1 ++ a :: l2) → dseg h 0 (l1 ++ a :: l2) 0 →
  (default 0 (last l1) = 0 ∨ is_Some (h !! default 0 (last l1))) ∧
  (default 0 (head l2) = 0 ∨ is_Some (h !! default 0 (head l2))) ∧
  default 0 (last l1) ≠ a ∧ default 0 (head l2) ≠ a ∧
  (default 0 (head l2) = 0 ∨ default 0 (last l1) ≠ default 0 (head l2)).
Proof.
  intros Hnd Hd. apply dseg_app in Hd as [Hd1 (Ha & _ & Hd2)].
  apply NoDup_app in Hnd as (_ & Hx & [Ha2 _]%NoDup_cons).
  assert (∀ b, last l1 = Some b → b ≠ a ∧ b ∉ l2) as Hl.
  { intros b [k ->]%last_Some. specialize (Hx b ltac:(set_solver)). set_solver. }
  split_and!; [by eapply last_ok|by eapply head_ok| | |].
  - destruct (last l1) as [b|]; simpl; [by apply Hl|done].
  - destruct l2; simpl; set_solver.
  - destruct l2 as [|c l2]; simpl; [by left|right]. destruct (last l1) as [b|]; simpl.
    + specialize (Hl b eq_refl). set_solver.
    + destruct Hd2 as (? & _). done.
Qed.

Lemma alter_nz_some f a b h : is_Some (h !! b) → is_Some (alter_nz f a h !! b).
Proof.
  intros [z Hz]. unfold alter_nz. destruct (a =? 0); [by eexists|].
  destruct (decide (a = b)) as [->|]; [rewrite lookup_alter_eq, Hz|rewrite lookup_alter_ne by done];
    by eexists.
Qed.

Lemma unchain_ok h l1 a l2 :
  NoDup (l1 ++ a :: l2) → dseg h 0 (l1 ++ a :: l2) 0 →
  ∃ h', UNCHAIN_LINKED_LIST a h = Ok (tt, h')
    ∧ dseg h' 0 (l1 ++ l2) 0
    ∧ same_payload h h'
    ∧ (∀ b, b ∉ l1 ++ l2 → h' !! b = h !! b).
Proof.
  intros Hnd Hd. exists (unlink l1 l2 h). split; [|by eapply unlink_ok].
  destruct (dseg_mid _ _ _ _ _ _ Hd) as (e & He & Hp & Hn).
  destruct (neighbours_ok _ _ _ _ Hnd Hd) as (Hl & Hh & Hla & _ & _).
  unfold UNCHAIN_LINKED_LIST. mrun (load_ok _ _ _ He). rewrite Hp, Hn. mrun (link_ok (set_next (default 0 (head l2))) _ _ Hl).
  erewrite bind_ok; [|apply load_ok; by rewrite alter_nz_ne]. cbv beta. rewrite Hp, Hn. apply link_ok.
  destruct Hh; [by left|right; by apply alter_nz_some].
Qed.

Lemma chain_ok h l1 a l2 n e :
  NoDup (l1 ++ a :: l2) → dseg h 0 (l1 ++ a :: l2) 0 →
  n ∉ l1 ++ a :: l2 → n ≠ 0 → h !! n = Some e →
  ∃ h', CHAIN_LINKED_LIST a n h = Ok (tt, h')
    ∧ dseg h' 0 (l1 ++ a :: n :: l2) 0
    ∧ same_payload h h'
    ∧ (∀ b, b ∉ l1 ++ a :: n :: l2 → h' !! b = h !! b).
Proof.
  intros Hnd Hd Hn Hn0 He. destruct (dseg_mid _ _ _ _ _ _ Hd) as (ea & Hea & Hp & Hx).
  pose proof (dseg_nonzero _ _ _ _ Hd) as Hz.
  replace (l1 ++ a :: l2) with ((l1 ++ [a]) ++ l2) in Hd, Hnd by by rewrite <-app_assoc.
  apply dseg_app in Hd as [Hd1 Hd2]. rewrite last_snoc in Hd2. simpl in Hd2.
  apply NoDup_app in Hnd as (Hnd1 & Hdis & Hnd2).
  assert (a ∉ l2) as Ha2 by (apply Hdis; set_solver).
  set (en := set_prev a (set_next (default 0 (head l2)) e)).
  set (h1 := <[n := en]> h).
  assert (∀ b, b ≠ n → h1 !! b = h !! b) as F1 by (intros; by apply lookup_insert_ne).
  assert (h1 !! n = Some en) as Hen by apply lookup_insert_eq.
  set (h2 := alter_nz (set_prev n) (default 0 (head l2)) h1).
  assert (∀ b, b ∉ l2 → b ≠ 0 → h2 !! b = h1 !! b) as F2.
  { intros b Hb Hb0. apply alter_nz_ne. destruct l2; simpl; set_solver. }
  assert (h2 !! a = Some ea) as Hea2 by (rewrite F2, F1; set_solver).
  set (h3 := alter_nz (set_next n) a h2).
  assert (∀ b, b ≠ a → h3 !! b = h2 !! b) as F3 by (intros; by apply alter_nz_ne).
  assert (dseg h1 a l2 0) as Hd2'.
  { eapply dseg_frame; [|exact Hd2]. intros b Hb. apply F1. set_solver. }
  assert (dseg h2 0 (l1 ++ [a]) (default 0 (head l2))) as Hd1'.
  { eapply dseg_frame; [|exact Hd1]. intros b Hb.
    rewrite F2, F1; [done|set_solver|by apply Hdis|set_solver]. }
  exists h3. split_and!.
  - unfold CHAIN_LINKED_LIST. mrun (load_ok _ _ _ Hea). mrun (load_ok _ _ _ He).
    mstep. erewrite bind_ok; [|apply load_ok, lookup_insert_eq]. cbv beta. mstep.
    rewrite insert_insert_eq, Hx. fold en. fold h1. mrun (load_ok _ _ _ Hen).
    assert (next en = default 0 (head l2)) as ->
      by (unfold en; by rewrite next_set_prev, next_set_next).
    mrun (link_ok (set_prev n) _ _ (head_ok _ _ _ Hd2')). fold h2.
    mrun (load_ok _ _ _ Hea2). unfold store, modify.
    rewrite (insert_as_alter (set_next n) a h2 ea ltac:(set_solver) Hea2). done.
  - replace (l1 ++ a :: n :: l2) with ((l1 ++ [a]) ++ n :: l2) by by rewrite <-app_assoc.
    apply dseg_app. rewrite last_snoc. split.
    + pose proof (dseg_set_next h2 0 _ _ n eq_refl Hnd1 Hd1') as Hr.
      rewrite last_snoc in Hr. exact Hr.
    + split; [done|]. split.
      * exists en. rewrite F3, F2, Hen by set_solver. split; [done|]. unfold en.
        by rewrite prev_set_prev, next_set_prev, next_set_next.
      * eapply dseg_frame; [|by apply (dseg_set_prev h1 a l2 0)]. intros b Hb. apply F3. set_solver.
  - eapply same_payload_trans; [eapply same_payload_trans|].
    + intros b. destruct (decide (b = n)) as [->|]; [|by rewrite F1].
      rewrite Hen, He. unfold en. simpl. by rewrite payload_set_prev, payload_set_next.
    + apply same_payload_alter. intros. apply payload_set_prev.
    + apply same_payload_alter. intros. apply payload_set_next.
  - intros b Hb. destruct (decide (b = 0)) as [->|Hb0]; [|rewrite F3, F2, F1; set_solver].
    unfold h3, h2, alter_nz. repeat case_match; zbool; try done; rewrite ?lookup_alter_ne by done;
      by apply F1.
Qed.
End dlist.
