(* ===== verification/CString.v ===== *)
(** * Strings and buffers (klibc/string.c, klibc/math.c)

    A buffer is a list of bytes and the state of the operations below; an
    access outside it is a [Fault].  A C string at offset [b] of a buffer is the
    bytes from [b] up to the first zero.  Functions with two pointer arguments
    get the buffer they only read as an argument. *)

From S2P Require Import Prelude.

Abbreviation bM := (stM (list Z)).

(** A literal's bytes, without the terminator. *)
Definition chars (s : string) : list Z :=
  (fix go (s : string) := match s with
   | EmptyString => []
   | String c s' => Z.of_N (Ascii.N_of_ascii c) :: go s'
   end) s.

Definition SLASH : Z := 47. (* '/' *)
Definition ZERO_CHAR : Z := 48. (* '0' *)
Definition MINUS : Z := 45. (* '-' *)

Definition ld (i : Z) : bM Z := s ← get; of_opt (idx s i).
Definition st (i v : Z) : bM unit :=
  s ← get; _ ← of_opt (idx s i); modify (λ s, upd s i v).

(** ** Length, copy, comparison *)

Fixpoint strlen_loop (n : nat) (i : Z) : bM Z :=
  match n with
  | O => crashM Fault
  | S n' => c ← ld i; if c =? 0 then mret i else strlen_loop n' (i + 1)
  end.

(** [strlen(buffer + b)] *)
Definition strlen (b : Z) : bM Z :=
  s ← get; e ← strlen_loop (S (length s)) b; mret (e - b).

(** The part of an operation that reads another buffer. *)
Definition reading {A} (src : list Z) (m : bM A) : bM A :=
  λ s, match m src with Ok (a, _) => Ok (a, s) | Crash c => Crash c end.

(** [strcpy(src + a, dst + b)] *)
Definition strcpy (src : list Z) (a b : Z) : bM unit :=
  len ← reading src (strlen a);
  for_loop (Z.to_nat len) 0 (λ i, c ← reading src (ld (a + i)); st (b + i) c) ;;
  st (b + len) 0.

Fixpoint strcmp_loop (n : nat) (s2 : list Z) (i : Z) : bM Z :=
  match n with
  | O => crashM Fault
  | S n' =>
      c1 ← ld i; c2 ← reading s2 (ld i);
      if (c1 =? 0) || (c2 =? 0) then mret 0
      else if negb (c1 =? c2) then mret 1
      else strcmp_loop n' s2 (i + 1)
  end.

Definition strcmp (s2 : list Z) : bM Z :=
  l1 ← strlen 0; l2 ← reading s2 (strlen 0);
  if negb (l1 =? l2) then mret 1
  else s ← get; strcmp_loop (S (length s)) s2 0.

Fixpoint strncmp_loop (n : nat) (s2 : list Z) (i : Z) : bM Z :=
  match n with
  | O => mret 0
  | S n' =>
      c1 ← ld i; c2 ← reading s2 (ld i);
      if negb (c1 =? c2) then mret 1 else strncmp_loop n' s2 (i + 1)
  end.
Definition strncmp (s2 : list Z) (len : Z) : bM Z := strncmp_loop (Z.to_nat len) s2 0.

(** ** Reversing and numbers *)

Fixpoint reverse_loop (n : nat) (start_index end_index : Z) : bM unit :=
  match n with
  | O => crashM Fault
  | S n' =>
      if start_index <? end_index then
        temp_buffer ← ld start_index;
        c ← ld end_index;
        st start_index c ;;
        st end_index temp_buffer ;;
        reverse_loop n' (start_index + 1) (end_index - 1)
      else mret tt
  end.

Definition reverse : bM unit :=
  len ← strlen 0;
  end_index ← (if 0 <? len then l ← strlen 0; mret (l - 1) else mret 0);
  s ← get;
  reverse_loop (S (length s)) 0 end_index.

(** [while (n > 0)] of [itoa] and [utoa]: 20 digits are enough for 64 bits. *)
Fixpoint digits_loop (fuel : nat) (n i : Z) : bM Z :=
  match fuel with
  | O => crashM Fault
  | S fuel' =>
      if 0 <? n then st i (n mod 10 + ZERO_CHAR) ;; digits_loop fuel' (n / 10) (i + 1)
      else mret i
  end.
Definition DIGITS_FUEL : nat := 21.

(** [abs] of klibc/math.c, with the wrap of a two's complement negation. *)
Definition abs (n : Z) : Z := if n <? 0 then s64 (- n) else n.

Definition itoa (n : Z) : bM unit :=
  let n_inv := abs n in
  let abs_n := u64 n_inv in
  i ← (if abs_n =? 0 then st 0 ZERO_CHAR ;; mret 1 else mret 0);
  i ← digits_loop DIGITS_FUEL abs_n i;
  i ← (if negb (n_inv =? n) then st i MINUS ;; mret (i + 1) else mret i);
  st i 0 ;;
  reverse.

Definition utoa (n : Z) : bM unit :=
  i ← (if n =? 0 then st 0 ZERO_CHAR ;; mret 1 else mret 0);
  i ← digits_loop DIGITS_FUEL n i;
  st i 0 ;;
  reverse.

(** A [char] is signed. *)
Definition schar (c : Z) : Z := if c <? 128 then c else c - 256.

Fixpoint atou_loop (n : nat) (i result : Z) : bM Z :=
  match n with
  | O => crashM Fault
  | S n' =>
      c ← ld i;
      if c =? 0 then mret result
      else atou_loop n' (i + 1) (u64 (u64 (result * 10) + (schar c - ZERO_CHAR)))
  end.
Definition atou : bM Z := s ← get; atou_loop (S (length s)) 0 0.

Definition hex_digit (tmp : Z) : Z := if 10 <=? tmp then tmp - 10 + 65 else tmp + ZERO_CHAR.

(** [for (i = 60; i > 0; i -= 4)] writes 15 digits from position 2 on. *)
Definition htoa (in_ : Z) : bM unit :=
  st 0 ZERO_CHAR ;;
  st 1 120 ;;
  for_loop 15 0 (λ k, st (2 + k) (hex_digit (Z.land (Z.shiftr in_ (60 - 4 * k)) 15))) ;;
  st 17 (hex_digit (Z.land in_ 15)) ;;
  st 18 0.

(** ** Concatenation and paths *)

Fixpoint strcat_loop (n : nat) (src : list Z) (e i : Z) : bM Z :=
  match n with
  | O => crashM Fault
  | S n' =>
      c ← reading src (ld i);
      if c =? 0 then mret e
      else st e c ;; strcat_loop n' src (e + 1) (i + 1)
  end.
Definition strcat (src : list Z) : bM unit :=
  l ← strlen 0;
  e ← strcat_loop (S (length src)) src l 0;
  st e 0.

Definition path_join (src : list Z) : bM unit :=
  l ← strlen 0;
  c ← ld (l - 1);
  d ← reading src (ld 0);
  (if negb (c =? SLASH) && negb (d =? SLASH) then strcat [SLASH; 0] else mret tt) ;;
  strcat src.

(** [while ( *tmp != '/') tmp--;] *)
Fixpoint find_slash (n : nat) (tmp : Z) : bM Z :=
  match n with
  | O => crashM Fault
  | S n' => c ← ld tmp; if c =? SLASH then mret tmp else find_slash n' (tmp - 1)
  end.

Definition last_slash : bM Z :=
  l ← strlen 0; s ← get; find_slash (S (length s)) (l - 1).

Definition path_cut (tmp : Z) : bM unit :=
  if tmp =? 0 then st (tmp + 1) 0 else st tmp 0.

Definition path_remove_elem : bM unit := tmp ← last_slash; path_cut tmp.

Definition ptr_to_end_path_elem : bM Z := tmp ← last_slash; mret (tmp + 1).

(** The path is cut in place; the result is the output buffer. *)
Definition get_path_elem (output : list Z) : bM (list Z) :=
  tmp ← last_slash;
  path ← get;
  out ← (match strcpy path (tmp + 1) 0 output with
         | Ok (_, o) => mret o
         | Crash c => crashM c
         end);
  path_cut tmp ;;
  mret out.

(** ** Memory *)

Definition memcpy (src : list Z) (count : Z) : bM unit :=
  for_loop (Z.to_nat count) 0 (λ i, c ← reading src (ld i); st i c).
(** The 32-bit and 64-bit variants do the same on buffers of wider elements. *)
Definition memcpy32 (src : list Z) (count : Z) : bM unit :=
  for_loop (Z.to_nat count) 0 (λ i, c ← reading src (ld i); st i c).
Definition memcpy64 (src : list Z) (count : Z) : bM unit :=
  for_loop (Z.to_nat count) 0 (λ i, c ← reading src (ld i); st i c).
Definition memset (data count : Z) : bM unit :=
  for_loop (Z.to_nat count) 0 (λ i, st i data).
Definition memset32 (data count : Z) : bM unit :=
  for_loop (Z.to_nat count) 0 (λ i, st i data).

Definition endian_reverse (word_count : Z) : bM unit :=
  for_loop (Z.to_nat word_count) 0 (λ i,
    temp ← ld (2 * i);
    c ← ld (2 * i + 1);
    st (2 * i) c ;;
    st (2 * i + 1) temp).

(** [normalize_path] of klibc/stdlib.c, on a zeroed buffer of 4097 bytes. *)
Definition normalize_path (path : list Z) : res (list Z) :=
  match (c ← reading path (ld 0);
         (if negb (c =? SLASH) then strcat [SLASH; 0] else mret tt) ;;
         strcat path ;;
         l ← strlen 0;
         e ← ld (l - 1);
         if negb (e =? SLASH) then strcat [SLASH; 0] else mret tt) (replicate 4097 0) with
  | Ok (_, b) => Ok b
  | Crash c => Crash c
  end.

(** * Specifications *)

(** [buf] holds the string [s] at offset [b]. *)
Definition str_at (buf : list Z) (b : Z) (s : list Z) : Prop :=
  ∃ pre rest, buf = pre ++ s ++ 0 :: rest ∧ zlen pre = b ∧ Forall (λ c, c ≠ 0) s.

(** Writing at an offset inside a buffer. *)
Lemma upd_app {A} (pre : list A) x post v :
  upd (pre ++ x :: post) (zlen pre) v = pre ++ v :: post.
Proof.
  unfold upd, zlen. rewrite Nat2Z.id. rewrite insert_app_r_alt by lia.
  by rewrite Nat.sub_diag.
Qed.

Lemma idx_app {A} (pre : list A) x post : idx (pre ++ x :: post) (zlen pre) = Some x.
Proof.
  unfold idx, zlen. destruct (_ <=? _) eqn:E; zbool; [|lia].
  rewrite Nat2Z.id, lookup_app_r by lia. by rewrite Nat.sub_diag.
Qed.

Lemma ld_app pre x post : ld (zlen pre) (pre ++ x :: post) = Ok (x, pre ++ x :: post).
Proof. unfold ld. mstep. by rewrite idx_app. Qed.

Lemma st_app pre x post v : st (zlen pre) v (pre ++ x :: post) = Ok (tt, pre ++ v :: post).
Proof. unfold st. mstep. rewrite idx_app. mstep. unfold modify. by rewrite upd_app. Qed.

Lemma ld_0 x post : ld 0 (x :: post) = Ok (x, x :: post).
Proof. exact (ld_app [] x post). Qed.

Lemma strlen_loop_ok s rest : ∀ n pre, Forall (λ c, c ≠ 0) s → (length s < n)%nat →
  strlen_loop n (zlen pre) (pre ++ s ++ 0 :: rest) =
    Ok (zlen pre + zlen s, pre ++ s ++ 0 :: rest).
Proof.
  induction s as [|c s IH]; intros n pre Hs Hn; (destruct n as [|n]; [cbn in Hn; lia|]).
  - cbn [strlen_loop app]. mrun (ld_app pre 0 rest). cbn. by rewrite Z.add_0_r.
  - apply Forall_cons in Hs as [Hc Hs]. cbn [strlen_loop]. rewrite <- app_comm_cons.
    mrun (ld_app pre c (s ++ 0 :: rest)). apply Z.eqb_neq in Hc. rewrite Hc.
    replace (zlen pre + 1) with (zlen (pre ++ [c])) by by rewrite zlen_app.
    replace (pre ++ c :: s ++ 0 :: rest) with ((pre ++ [c]) ++ s ++ 0 :: rest)
      by by rewrite <- app_assoc.
    rewrite IH by (done || (cbn in Hn; lia)). rewrite zlen_app, (zlen_cons c s), zlen_cons, zlen_nil.
    do 2 f_equal. lia.
Qed.

Lemma strlen_ok pre s rest : Forall (λ c, c ≠ 0) s →
  strlen (zlen pre) (pre ++ s ++ 0 :: rest) = Ok (zlen s, pre ++ s ++ 0 :: rest).
Proof.
  intros Hs. unfold strlen. mstep.
  mrun (strlen_loop_ok s rest (S (length (pre ++ s ++ 0 :: rest))) pre Hs
          ltac:(rewrite !length_app; cbn; lia)).
  unfold mret, stM_ret. do 2 f_equal. lia.
Qed.

Lemma strlen_ok0 s rest : Forall (λ c, c ≠ 0) s →
  strlen 0 (s ++ 0 :: rest) = Ok (zlen s, s ++ 0 :: rest).
Proof. exact (strlen_ok [] s rest). Qed.

(** ** Reversal *)

Lemma reverse_loop_ok n : ∀ pre mid post, (length mid < n)%nat →
  reverse_loop n (zlen pre) (zlen pre + zlen mid - 1) (pre ++ mid ++ post) =
    Ok (tt, pre ++ rev mid ++ post).
Proof.
  induction n as [|n IH]; intros pre mid post Hn; [lia|]. cbn [reverse_loop].
  destruct mid as [|x mid].
  - destruct (_ <? _) eqn:E; zbool; [rewrite zlen_nil in E; lia|done].
  - destruct mid as [|y mid _] using rev_ind.
    + destruct (_ <? _) eqn:E; zbool; [rewrite zlen_cons, zlen_nil in E; lia|done].
    + rewrite zlen_cons, zlen_app, zlen_cons, zlen_nil.
      destruct (_ <? _) eqn:E; zbool; [|pose proof (zlen_nonneg mid); lia].
      replace (zlen pre + (zlen mid + (0 + 1) + 1) - 1) with (zlen (pre ++ x :: mid))
        by (rewrite zlen_app, zlen_cons; lia).
      replace (pre ++ (x :: mid ++ [y]) ++ post) with (pre ++ x :: mid ++ y :: post)
        by (by rewrite <- app_comm_cons, <- app_assoc).
      mrun (ld_app pre x (mid ++ y :: post)).
      replace (pre ++ x :: mid ++ y :: post) with ((pre ++ x :: mid) ++ y :: post)
        by (by rewrite <- app_assoc, <- app_comm_cons).
      mrun (ld_app (pre ++ x :: mid) y post).
      replace ((pre ++ x :: mid) ++ y :: post) with (pre ++ x :: mid ++ y :: post)
        by (by rewrite <- app_assoc, <- app_comm_cons).
      mrun (st_app pre x (mid ++ y :: post) y).
      replace (zlen (pre ++ x :: mid)) with (zlen (pre ++ y :: mid))
        by by rewrite !zlen_app, !zlen_cons.
      replace (pre ++ y :: mid ++ y :: post) with ((pre ++ y :: mid) ++ y :: post)
        by (by rewrite <- app_assoc, <- app_comm_cons).
      mrun (st_app (pre ++ y :: mid) y post x).
      replace (zlen pre + 1) with (zlen (pre ++ [y])) by by rewrite zlen_app.
      replace (zlen (pre ++ y :: mid) - 1) with (zlen (pre ++ [y]) + zlen mid - 1)
        by (rewrite !zlen_app, !zlen_cons, zlen_nil; lia).
      replace ((pre ++ y :: mid) ++ x :: post) with ((pre ++ [y]) ++ mid ++ x :: post)
        by (by rewrite <- !app_assoc).
      rewrite IH by (cbn in Hn; rewrite length_app in Hn; cbn in Hn; lia).
      cbn [rev]. rewrite rev_app_distr. cbn. by rewrite <- !app_assoc.
Qed.

Lemma reverse_ok s rest : Forall (λ c, c ≠ 0) s →
  reverse (s ++ 0 :: rest) = Ok (tt, rev s ++ 0 :: rest).
Proof.
  intros Hs. unfold reverse. mrun (strlen_ok0 s rest Hs).
  assert ((if 0 <? zlen s then l ← strlen 0; mret (l - 1) else mret 0) (s ++ 0 :: rest) =
    Ok (if 0 <? zlen s then zlen s - 1 else 0, s ++ 0 :: rest)) as Hend.
  { destruct (0 <? zlen s); [|done]. by mrun (strlen_ok0 s rest Hs). }
  mrun Hend. mstep. destruct (0 <? zlen s) eqn:E; zbool.
  - apply (reverse_loop_ok _ [] s (0 :: rest)). rewrite length_app. lia.
  - pose proof (zlen_nonneg s). destruct s; [done|]. rewrite zlen_cons in *.
    pose proof (zlen_nonneg s). lia.
Qed.

(** ** Numbers *)

(** Decimal digits, least significant first. *)
Fixpoint rdigits (fuel : nat) (n : Z) : list Z :=
  match fuel with
  | O => []
  | S fuel' => if 0 <? n then (n mod 10 + ZERO_CHAR) :: rdigits fuel' (n / 10) else []
  end.

(** The decimal numeral of a 64-bit number. *)
Definition decimal (n : Z) : list Z :=
  if n =? 0 then [ZERO_CHAR] else rev (rdigits 20 n).

(** The value of a string of digits. *)
Definition dvalue (s : list Z) : Z := fold_left (λ r c, r * 10 + (c - ZERO_CHAR)) s 0.

Definition is_digit (c : Z) : Prop := ZERO_CHAR ≤ c ≤ 57.

Lemma rdigits_digits fuel : ∀ n, Forall is_digit (rdigits fuel n).
Proof.
  induction fuel as [|fuel IH]; intros n; cbn [rdigits]; [constructor|].
  destruct (0 <? n) eqn:E; [|constructor]. constructor; [|apply IH].
  unfold is_digit, ZERO_CHAR. dlia.
Qed.

Lemma rdigits_value fuel : ∀ n, 0 ≤ n < 10 ^ Z.of_nat fuel →
  fold_right (λ c r, r * 10 + (c - ZERO_CHAR)) 0 (rdigits fuel n) = n.
Proof.
  induction fuel as [|fuel IH]; intros n Hn; cbn [rdigits fold_right].
  - cbn in Hn. lia.
  - destruct (0 <? n) eqn:E; zbool; [|cbn; lia]. cbn [fold_right]. rewrite IH.
    + dlia.
    + rewrite Nat2Z.inj_succ, Z.pow_succ_r in Hn by lia. dlia.
Qed.

Lemma dvalue_rev s : dvalue (rev s) = fold_right (λ c r, r * 10 + (c - ZERO_CHAR)) 0 s.
Proof. unfold dvalue. by rewrite <- fold_left_rev_right, rev_involutive. Qed.

Lemma u64_digits n : is_u64 n → 0 ≤ n < 10 ^ Z.of_nat 20.
Proof.
  unfold is_u64. change (10 ^ Z.of_nat 20) with 100000000000000000000. lia.
Qed.

Lemma decimal_value n : is_u64 n → dvalue (decimal n) = n.
Proof.
  intros Hn. unfold decimal. destruct (n =? 0) eqn:E; zbool; [by subst|].
  rewrite dvalue_rev. apply rdigits_value. by apply u64_digits.
Qed.

Lemma decimal_digits n : Forall is_digit (decimal n).
Proof.
  unfold decimal. destruct (n =? 0).
  - repeat constructor; unfold is_digit, ZERO_CHAR; lia.
  - apply Forall_rev, rdigits_digits.
Qed.

Lemma rdigits_length fuel : ∀ n, (length (rdigits fuel n) ≤ fuel)%nat.
Proof.
  induction fuel as [|fuel IH]; intros n; cbn [rdigits]; [cbn; lia|].
  destruct (0 <? n); cbn; [|lia]. specialize (IH (n / 10)). lia.
Qed.

Lemma digit_nonzero s : Forall is_digit s → Forall (λ c, c ≠ 0) s.
Proof. intros H. eapply Forall_impl; [exact H|]. unfold is_digit, ZERO_CHAR. lia. Qed.

(** The loop writes the digits; [20] of them always suffice. *)
Lemma digits_loop_ok fuel : ∀ n pre buf, 0 ≤ n < 10 ^ Z.of_nat fuel →
  (length (rdigits fuel n) ≤ length buf)%nat →
  digits_loop (S fuel) n (zlen pre) (pre ++ buf) =
    Ok (zlen pre + zlen (rdigits fuel n),
        pre ++ rdigits fuel n ++ drop (length (rdigits fuel n)) buf).
Proof.
  induction fuel as [|fuel IH]; intros n pre buf Hn Hb.
  - assert (n = 0) as -> by (cbn in Hn; lia). cbn. by rewrite Z.add_0_r, drop_0.
  - remember (S fuel) as fl. cbn [digits_loop]. subst fl. cbn [rdigits] in *.
    destruct (0 <? n) eqn:E; zbool.
    2:{ cbn. by rewrite Z.add_0_r, drop_0. }
    destruct buf as [|b buf]; [cbn in Hb; lia|].
    mrun (st_app pre b buf (n mod 10 + ZERO_CHAR)).
    replace (zlen pre + 1) with (zlen (pre ++ [n mod 10 + ZERO_CHAR])) by by rewrite zlen_app.
    replace (pre ++ (n mod 10 + ZERO_CHAR) :: buf) with ((pre ++ [n mod 10 + ZERO_CHAR]) ++ buf)
      by by rewrite <- app_assoc.
    rewrite IH.
    + rewrite zlen_app, !zlen_cons, zlen_nil. cbn [length drop]. rewrite <- app_assoc. cbn.
      do 2 f_equal. lia.
    + rewrite Nat2Z.inj_succ, Z.pow_succ_r in Hn by lia. dlia.
    + cbn in Hb. lia.
Qed.

(** A buffer that starts with [s] and its terminator. *)
Definition holds (s buf out : list Z) : Prop := out = s ++ 0 :: drop (S (length s)) buf.

Lemma put_end pre buf : (0 < length buf)%nat →
  st (zlen pre) 0 (pre ++ buf) = Ok (tt, pre ++ 0 :: drop 1 buf).
Proof. destruct buf as [|b buf]; [cbn; lia|]. intros _. cbn [drop]. apply st_app. Qed.

Lemma utoa_ok n buf : is_u64 n → (21 ≤ length buf)%nat →
  ∃ out, utoa n buf = Ok (tt, out) ∧ holds (decimal n) buf out.
Proof.
  intros Hn Hb. unfold utoa, decimal, DIGITS_FUEL. destruct (n =? 0) eqn:E; zbool.
  - subst n. destruct buf as [|b0 [|b1 buf]]; [cbn in Hb; lia..|]. eexists. split; [|reflexivity].
    rewrite (bind_ok _ _ _ 1 (ZERO_CHAR :: b1 :: buf)) by (by mrun (st_app [] b0 (b1 :: buf) ZERO_CHAR)).
    mstep. mrun (put_end [ZERO_CHAR] (b1 :: buf) ltac:(cbn; lia)). cbn [drop].
    exact (reverse_ok [ZERO_CHAR] buf ltac:(by repeat constructor)).
  - mstep. pose proof (rdigits_length 20 n) as Hl.
    pose proof (digits_loop_ok 20 n [] buf (u64_digits n Hn) ltac:(lia)) as Hd.
    cbn [app zlen length] in Hd. change (Z.of_nat 0) with 0 in Hd. mrun Hd. rewrite Z.add_0_l.
    mrun (put_end (rdigits 20 n) (drop (length (rdigits 20 n)) buf) ltac:(rewrite length_drop; lia)).
    rewrite reverse_ok by apply digit_nonzero, rdigits_digits.
    eexists. split; [reflexivity|]. unfold holds. rewrite length_rev, drop_drop. do 3 f_equal. lia.
Qed.

Lemma dvalue_wrap s : ∀ z,
  u64 (fold_left (λ r c, r * 10 + (c - ZERO_CHAR)) s (u64 z)) =
  u64 (fold_left (λ r c, r * 10 + (c - ZERO_CHAR)) s z).
Proof.
  induction s as [|c s IH]; intros z; cbn [fold_left].
  - unfold u64. by rewrite Zmod_mod.
  - rewrite <- IH, <- (IH (z * 10 + _)). do 2 f_equal. unfold u64.
    by rewrite <- Zplus_mod_idemp_l, Zmult_mod_idemp_l, Zplus_mod_idemp_l.
Qed.

Lemma atou_loop_ok s rest : ∀ n pre r, Forall is_digit s → (length s < n)%nat → is_u64 r →
  atou_loop n (zlen pre) r (pre ++ s ++ 0 :: rest) =
    Ok (u64 (fold_left (λ r c, r * 10 + (c - ZERO_CHAR)) s r), pre ++ s ++ 0 :: rest).
Proof.
  induction s as [|c s IH]; intros n pre r Hs Hn Hr; (destruct n as [|n]; [cbn in Hn; lia|]).
  - cbn [atou_loop app fold_left]. mrun (ld_app pre 0 rest). by rewrite (u64_small r).
  - apply Forall_cons in Hs as [Hc Hs]. cbn [atou_loop]. rewrite <- app_comm_cons.
    mrun (ld_app pre c (s ++ 0 :: rest)). unfold is_digit, ZERO_CHAR in Hc.
    destruct (c =? 0) eqn:E; zbool; [lia|].
    replace (zlen pre + 1) with (zlen (pre ++ [c])) by by rewrite zlen_app.
    replace (pre ++ c :: s ++ 0 :: rest) with ((pre ++ [c]) ++ s ++ 0 :: rest)
      by by rewrite <- app_assoc.
    rewrite IH by (done || apply u64_range || (cbn in Hn; lia)). unfold schar.
    destruct (c <? 128) eqn:E2; zbool; [|lia]. by rewrite u64_add_l, dvalue_wrap.
Qed.

Lemma atou_ok s rest : Forall is_digit s →
  atou (s ++ 0 :: rest) = Ok (u64 (dvalue s), s ++ 0 :: rest).
Proof.
  intros Hs. unfold atou. mstep.
  apply (atou_loop_ok s rest _ []); [done| |done]. rewrite length_app. cbn. lia.
Qed.

(** The signed numeral.  The most negative number has no representable absolute
    value, and is printed without its sign. *)
Definition sdecimal (n : Z) : list Z :=
  if n <? 0 then
    if n =? -9223372036854775808 then decimal 9223372036854775808
    else MINUS :: decimal (- n)
  else decimal n.

Lemma abs_ok n : -9223372036854775808 ≤ n < 9223372036854775808 →
  abs n = if n =? -9223372036854775808 then n else Z.abs n.
Proof.
  intros Hn. unfold abs, s64. destruct (n <? 0) eqn:E; zbool.
  - destruct (n =? _) eqn:E2; zbool; [by subst|]. rewrite Z.mod_small by lia.
    destruct (- n <? _) eqn:E3; zbool; lia.
  - destruct (n =? _) eqn:E2; zbool; lia.
Qed.

(** The common end of [itoa]: [k] sign characters after the digits. *)
Lemma finish_number ds buf (neg : bool) : Forall is_digit ds → (length ds + 1 < length buf)%nat →
  ∃ out, (i ← (if neg then st (zlen ds) MINUS ;; mret (zlen ds + 1) else mret (zlen ds));
          st i 0 ;; reverse) (ds ++ drop (length ds) buf) = Ok (tt, out) ∧
    holds ((if neg then [MINUS] else []) ++ rev ds) buf out.
Proof.
  intros Hd Hb. destruct neg.
  - destruct (drop (length ds) buf) as [|b rest] eqn:Eb.
    { apply (f_equal length) in Eb. rewrite length_drop in Eb. cbn in Eb. lia. }
    rewrite (bind_ok _ _ _ (zlen ds + 1) (ds ++ MINUS :: rest)) by (by mrun (st_app ds b rest MINUS)).
    replace (ds ++ MINUS :: rest) with ((ds ++ [MINUS]) ++ rest) by by rewrite <- app_assoc.
    replace (zlen ds + 1) with (zlen (ds ++ [MINUS])) by by rewrite zlen_app.
    assert (length rest = length buf - length ds - 1)%nat as Hr.
    { apply (f_equal length) in Eb. rewrite length_drop in Eb. cbn in Eb. lia. }
    mrun (put_end (ds ++ [MINUS]) rest ltac:(lia)).
    rewrite reverse_ok.
    2:{ apply Forall_app. split; [by apply digit_nonzero|by repeat constructor]. }
    eexists. split; [reflexivity|]. unfold holds. rewrite rev_app_distr. cbn.
    rewrite length_rev. do 3 f_equal. replace rest with (drop 1 (drop (length ds) buf)) by by rewrite Eb.
    rewrite !drop_drop. f_equal. lia.
  - mstep. mrun (put_end ds (drop (length ds) buf) ltac:(rewrite length_drop; lia)).
    rewrite reverse_ok by by apply digit_nonzero.
    eexists. split; [reflexivity|]. unfold holds. cbn. rewrite length_rev, drop_drop. do 3 f_equal. lia.
Qed.

Lemma itoa_ok n buf : -9223372036854775808 ≤ n < 9223372036854775808 → (23 ≤ length buf)%nat →
  ∃ out, itoa n buf = Ok (tt, out) ∧ holds (sdecimal n) buf out.
Proof.
  intros Hn Hb. unfold itoa, DIGITS_FUEL. rewrite abs_ok by done. cbv zeta.
  destruct (n =? 0) eqn:E0; zbool.
  - subst n. set (m := u64 _). change m with 0. clear m. change (0 =? 0) with true. cbv iota.
    destruct buf as [|b0 buf]; [cbn in Hb; lia|].
    rewrite (bind_ok _ _ _ 1 (ZERO_CHAR :: buf)) by (by mrun (st_app [] b0 buf ZERO_CHAR)).
    mstep. destruct (finish_number [ZERO_CHAR] (b0 :: buf) false) as (out & Hr & Ho);
      [repeat constructor; unfold is_digit, ZERO_CHAR; lia|cbn; cbn in Hb; lia|].
    exists out. split; [exact Hr|exact Ho].
  - set (m := u64 _). assert (is_u64 m) as Hm by apply u64_range.
    assert (m ≠ 0 ∧ m = if n =? -9223372036854775808 then 9223372036854775808 else Z.abs n) as [Hm0 Hmv].
    { unfold m. destruct (n =? _) eqn:E; zbool; [subst; done|].
      rewrite u64_small by (unfold is_u64; lia). lia. }
    destruct (m =? 0) eqn:E; zbool; [lia|]. mstep.
    pose proof (rdigits_length 20 m) as Hl.
    pose proof (digits_loop_ok 20 m [] buf (u64_digits m Hm) ltac:(lia)) as Hd.
    cbn [app zlen length] in Hd. change (Z.of_nat 0) with 0 in Hd. mrun Hd. rewrite Z.add_0_l.
    destruct (finish_number (rdigits 20 m) buf
      (negb ((if n =? -9223372036854775808 then n else Z.abs n) =? n))) as (out & Hr & Ho);
      [apply rdigits_digits|lia|].
    exists out. split; [exact Hr|]. unfold sdecimal, decimal.
    destruct (n =? -9223372036854775808) eqn:E2; zbool.
    + subst n. cbn [Z.ltb Z.compare]. rewrite Z.eqb_refl in Ho. rewrite Hmv in Ho. exact Ho.
    + destruct (n <? 0) eqn:E3; zbool.
      * replace (- n) with m by lia. destruct (m =? 0) eqn:E4; zbool; [lia|].
        destruct (Z.abs n =? n) eqn:E5; zbool; [lia|]. exact Ho.
      * destruct (n =? 0) eqn:E4; zbool; [lia|].
        destruct (Z.abs n =? n) eqn:E5; zbool; [|lia]. by replace m with n in Ho by lia.
Qed.

(** ** Hexadecimal *)

Definition hex_nibble (n : Z) (k : nat) : Z := (n / 16 ^ (15 - Z.of_nat k)) mod 16.
Definition hexadecimal (n : Z) : list Z :=
  ZERO_CHAR :: 120 :: map (λ k, hex_digit (hex_nibble n k)) (seq 0 16).

(** The value of a hexadecimal digit character. *)
Definition hex_value (c : Z) : Z := if c <? 58 then c - ZERO_CHAR else c - 55.

Lemma hex_value_digit d : 0 ≤ d < 16 → hex_value (hex_digit d) = d.
Proof.
  intros Hd. unfold hex_value, hex_digit, ZERO_CHAR.
  destruct (10 <=? d) eqn:E; zbool; destruct (_ <? 58) eqn:E2; zbool; lia.
Qed.

Lemma htoa_nibble n k : (k < 15)%nat →
  Z.land (Z.shiftr n (60 - 4 * Z.of_nat k)) 15 = hex_nibble n k.
Proof.
  intros Hk. unfold hex_nibble. change 15 with (Z.ones 4) at 1.
  rewrite Z.land_ones, Z.shiftr_div_pow2 by lia. f_equal. f_equal.
  change 16 with (2 ^ 4). rewrite <- Z.pow_mul_r by lia. f_equal. lia.
Qed.

Lemma htoa_ok n buf : is_u64 n → (19 ≤ length buf)%nat →
  ∃ out, htoa n buf = Ok (tt, out) ∧ holds (hexadecimal n) buf out.
Proof.
  intros Hn Hb. do 2 (destruct buf as [|? buf]; [cbn in Hb; lia|]). cbn in Hb.
  unfold htoa. mrun (st_app [] z (z0 :: buf) ZERO_CHAR). mrun (st_app [ZERO_CHAR] z0 buf 120).
  set (f := λ k, hex_digit (hex_nibble n k)).
  destruct (for_loop_inv (λ j t, t = ([ZERO_CHAR; 120] ++ map f (seq 0 (Z.to_nat j))) ++
      drop (Z.to_nat j) buf)
    (λ k, st (2 + k) (hex_digit (Z.land (Z.shiftr n (60 - 4 * k)) 15))) 15 0
    ([ZERO_CHAR] ++ 120 :: buf)) as (t & Hl & ->).
  { by rewrite drop_0. }
  { intros j t Hj ->.
    destruct (drop (Z.to_nat j) buf) as [|b rest] eqn:Eb.
    { apply (f_equal length) in Eb. rewrite length_drop in Eb. cbn in Eb. lia. }
    replace (2 + j) with (zlen ([ZERO_CHAR; 120] ++ map f (seq 0 (Z.to_nat j))))
      by (rewrite zlen_app; unfold zlen; rewrite length_map, length_seq; cbn; lia).
    rewrite st_app. eexists. split; [reflexivity|].
    replace (Z.to_nat (j + 1)) with (S (Z.to_nat j)) by lia.
    rewrite seq_S, map_app. cbn [map]. rewrite Nat.add_0_l.
    change (f (Z.to_nat j)) with (hex_digit (hex_nibble n (Z.to_nat j))).
    rewrite <- (htoa_nibble n (Z.to_nat j)) by lia. rewrite Z2Nat.id by lia.
    replace rest with (drop 1 (drop (Z.to_nat j) buf)) by by rewrite Eb.
    rewrite drop_drop, app_assoc, <- !app_assoc. cbn. do 4 f_equal. f_equal. lia. }
  mrun Hl. change (Z.to_nat (0 + Z.of_nat 15)) with 15%nat.
  do 15 (destruct buf as [|? buf]; [cbn in Hb; lia|]). cbn [drop].
  do 2 (destruct buf as [|? buf]; [cbn in Hb; lia|]).
  mrun (st_app ([ZERO_CHAR; 120] ++ map f (seq 0 15)) z16 (z17 :: buf) (hex_digit (Z.land n 15))).
  replace (([ZERO_CHAR; 120] ++ map f (seq 0 15)) ++ hex_digit (Z.land n 15) :: z17 :: buf)
    with (hexadecimal n ++ z17 :: buf).
  - change (st 18 0) with (st (zlen (hexadecimal n)) 0).
    rewrite (st_app (hexadecimal n) z17 buf 0). eexists. split; [reflexivity|]. done.
  - unfold hexadecimal. fold f. rewrite (seq_S 15 0), map_app, <- !app_assoc. cbn [app map].
    assert (f (0 + 15)%nat = hex_digit (Z.land n 15)) as ->; [|reflexivity].
    unfold f, hex_nibble. change (16 ^ (15 - Z.of_nat (0 + 15))) with 1.
    rewrite Z.div_1_r. change 15 with (Z.ones 4). by rewrite Z.land_ones by lia.
Qed.

Definition hvalue (s : list Z) : Z := fold_left (λ r c, r * 16 + hex_value c) s 0.

Lemma hexadecimal_prefix n k : is_u64 n → (k ≤ 16)%nat →
  hvalue (map (λ k, hex_digit (hex_nibble n k)) (seq 0 k)) = n / 16 ^ (16 - Z.of_nat k).
Proof.
  intros Hn. induction k as [|k IH]; intros Hk.
  - cbn [seq map]. change (16 ^ (16 - Z.of_nat 0)) with U64_MOD. unfold hvalue. cbn [fold_left].
    symmetry. apply Z.div_small. exact Hn.
  - rewrite seq_S, map_app. unfold hvalue in *. rewrite fold_left_app, IH by lia.
    cbn [map fold_left]. rewrite Nat.add_0_l, hex_value_digit
      by (unfold hex_nibble; apply Z.mod_pos_bound; lia).
    unfold hex_nibble. replace (16 - Z.of_nat k) with (Z.succ (15 - Z.of_nat k)) by lia.
    rewrite Z.pow_succ_r by lia. replace (16 - Z.of_nat (S k)) with (15 - Z.of_nat k) by lia.
    rewrite (Z.mul_comm 16), <- Z.div_div by lia.
    pose proof (Z.div_mod (n / 16 ^ (15 - Z.of_nat k)) 16). lia.
Qed.

Lemma hexadecimal_value n : is_u64 n → hvalue (drop 2 (hexadecimal n)) = n.
Proof.
  intros Hn. etrans; [exact (hexadecimal_prefix n 16 Hn ltac:(lia))|]. apply Z.div_1_r.
Qed.

(** ** Concatenation *)

Lemma strcat_loop_ok s r2 : ∀ n pre i0 buf,
  Forall (λ c, c ≠ 0) s → (length s < n)%nat → (length s ≤ length buf)%nat →
  strcat_loop n (i0 ++ s ++ 0 :: r2) (zlen pre) (zlen i0) (pre ++ buf) =
    Ok (zlen (pre ++ s), (pre ++ s) ++ drop (length s) buf).
Proof.
  induction s as [|c s IH]; intros n pre i0 buf Hs Hn Hb; (destruct n as [|n]; [cbn in Hn; lia|]).
  - cbn [strcat_loop app]. unfold reading at 1. rewrite ld_app.
    rewrite (bind_ok _ _ _ _ _ eq_refl). cbn. by rewrite app_nil_r.
  - apply Forall_cons in Hs as [Hc Hs]. cbn [strcat_loop]. rewrite <- app_comm_cons.
    unfold reading at 1. rewrite ld_app, (bind_ok _ _ _ _ _ eq_refl). cbv beta.
    apply Z.eqb_neq in Hc. rewrite Hc. destruct buf as [|b buf]; [cbn in Hb; lia|].
    mrun (st_app pre b buf c).
    replace (zlen pre + 1) with (zlen (pre ++ [c])) by by rewrite zlen_app.
    replace (zlen i0 + 1) with (zlen (i0 ++ [c])) by by rewrite zlen_app.
    replace (i0 ++ c :: s ++ 0 :: r2) with ((i0 ++ [c]) ++ s ++ 0 :: r2) by by rewrite <- app_assoc.
    replace (pre ++ c :: buf) with ((pre ++ [c]) ++ buf) by by rewrite <- app_assoc.
    rewrite IH by (done || (cbn in Hn, Hb; lia)). by rewrite <- !app_assoc.
Qed.

Lemma strcat_ok d rest s r2 :
  Forall (λ c, c ≠ 0) d → Forall (λ c, c ≠ 0) s → (length s ≤ length rest)%nat →
  strcat (s ++ 0 :: r2) (d ++ 0 :: rest) =
    Ok (tt, (d ++ s) ++ 0 :: drop (length s) rest).
Proof.
  intros Hd Hs Hl. unfold strcat. mrun (strlen_ok0 d rest Hd).
  pose proof (strcat_loop_ok s r2 (S (length (s ++ 0 :: r2))) d [] (0 :: rest) Hs
    ltac:(rewrite length_app; lia) ltac:(cbn; lia)) as Hc. cbn [app] in Hc.
  change (zlen []) with 0 in Hc. mrun Hc.
  rewrite put_end by (rewrite length_drop; cbn; lia).
  rewrite drop_drop. replace (length s + 1)%nat with (S (length s)) by lia. done.
Qed.

Lemma strcat_zeros d s r2 n :
  Forall (λ c, c ≠ 0) d → Forall (λ c, c ≠ 0) s → (length s < n)%nat →
  strcat (s ++ 0 :: r2) (d ++ replicate n 0) = Ok (tt, (d ++ s) ++ replicate (n - length s) 0).
Proof.
  intros Hd Hs Hn. destruct n as [|n]; [lia|]. cbn [replicate].
  rewrite strcat_ok by (done || (rewrite length_replicate; lia)).
  rewrite drop_replicate. do 3 f_equal.
  replace (S n - length s)%nat with (S (n - length s)) by lia. done.
Qed.

(** ** Normalised paths *)

(** A path with exactly the slashes [normalize_path] adds. *)
Definition norm (p : list Z) : list Z :=
  let q := if bool_decide (head p = Some SLASH) then p else SLASH :: p in
  if bool_decide (last q = Some SLASH) then q else q ++ [SLASH].

Lemma slash_nonzero : Forall (λ c, c ≠ 0) [SLASH].
Proof. repeat constructor. done. Qed.

Lemma ld_last d c rest : ld (zlen (d ++ [c]) - 1) ((d ++ [c]) ++ rest) = Ok (c, (d ++ [c]) ++ rest).
Proof.
  replace (zlen (d ++ [c]) - 1) with (zlen d) by (rewrite zlen_app, zlen_cons, zlen_nil; lia).
  rewrite <- app_assoc. apply ld_app.
Qed.

Lemma last_slash_dec q : q ≠ [] → ∃ d c, q = d ++ [c] ∧
  bool_decide (last q = Some SLASH) = (c =? SLASH).
Proof.
  destruct q as [|c d _] using rev_ind; [done|]. intros _. exists d, c. split; [done|].
  rewrite last_snoc. destruct (c =? SLASH) eqn:E; zbool.
  - subst. by apply bool_decide_eq_true.
  - apply bool_decide_eq_false. congruence.
Qed.

Lemma normalize_path_ok p rest : Forall (λ c, c ≠ 0) p → (length p ≤ 4094)%nat →
  normalize_path (p ++ 0 :: rest) = Ok (norm p ++ replicate (4097 - length (norm p)) 0).
Proof.
  intros Hp Hl. unfold normalize_path, norm.
  set (q := if bool_decide (head p = Some SLASH) then p else SLASH :: p).
  assert (∃ c, reading (p ++ 0 :: rest) (ld 0) (replicate 4097 0) = Ok (c, replicate 4097 0) ∧
    negb (c =? SLASH) = negb (bool_decide (head p = Some SLASH))) as (c & Hc & Hcs).
  { unfold reading. destruct p as [|c p].
    - cbn [app]. rewrite ld_0. by exists 0.
    - rewrite <- app_comm_cons, ld_0. exists c. split; [done|].
      cbn [head]. f_equal. destruct (c =? SLASH) eqn:E; zbool.
      + subst. by rewrite bool_decide_eq_true_2.
      + rewrite bool_decide_eq_false_2; [done|congruence]. }
  rewrite (bind_ok _ _ _ _ _ Hc), Hcs. clear Hc Hcs c.
  assert ((( if negb (bool_decide (head p = Some SLASH)) then strcat [SLASH; 0] else mret tt) ;;
    strcat (p ++ 0 :: rest)) (replicate 4097 0) = Ok (tt, q ++ replicate (4097 - length q) 0)) as Hq.
  { unfold q. destruct (bool_decide _); cbn [negb].
    - mstep. apply (strcat_zeros [] p rest 4097); [constructor|done|lia].
    - pose proof (strcat_zeros [] [SLASH] [] 4097 ltac:(constructor) slash_nonzero ltac:(cbn; lia)) as H1.
      mrun H1. exact (strcat_zeros [SLASH] p rest 4096 slash_nonzero Hp ltac:(lia)). }
  apply bind_inv in Hq as ([] & s1 & H1 & H2). mrun H1. mrun H2. clear H1 H2 s1.
  assert (Forall (λ c, c ≠ 0) q) as Hqz
    by (unfold q; case_bool_decide; [done|by constructor]).
  assert (q ≠ [] ∧ (length q ≤ 4095)%nat) as [Hqn Hql].
  { unfold q. case_bool_decide; split; [by destruct p|lia|done|cbn; lia]. }
  replace (replicate (4097 - length q) 0) with (0 :: replicate (4096 - length q) 0)
    by (by replace (4097 - length q)%nat with (S (4096 - length q)) by lia).
  mrun (strlen_ok0 q (replicate (4096 - length q) 0) Hqz).
  destruct (last_slash_dec q Hqn) as (d & e & Eq & ->).
  pose proof (ld_last d e (0 :: replicate (4096 - length q) 0)) as Hld. rewrite <- Eq in Hld.
  mrun Hld.
  destruct (e =? SLASH); cbn [negb].
  - unfold mret, stM_ret. by replace (4097 - length q)%nat with (S (4096 - length q)) by lia.
  - rewrite (strcat_ok q _ [SLASH] [] Hqz slash_nonzero) by (rewrite length_replicate; cbn; lia).
    rewrite drop_replicate, length_app. cbn [length].
    by replace (4097 - (length q + 1))%nat with (S (4096 - length q - 1)) by lia.
Qed.

Lemma norm_idem p : norm (norm p) = norm p.
Proof.
  assert (head (norm p) = Some SLASH ∧ last (norm p) = Some SLASH) as [H1 H2].
  { unfold norm. cbv zeta. case_bool_decide as E1; case_bool_decide as E2; try done;
      rewrite last_snoc; (split; [|done]); by destruct p. }
  unfold norm at 1. rewrite (bool_decide_eq_true_2 _ H1). by rewrite (bool_decide_eq_true_2 _ H2).
Qed.

(** ** The last element of a path *)

Lemma find_slash_ok e rest d : ∀ n, Forall (λ c, c ≠ SLASH) e → (length e < n)%nat →
  find_slash n (zlen d + zlen e) (d ++ SLASH :: e ++ rest) = Ok (zlen d, d ++ SLASH :: e ++ rest).
Proof.
  revert rest. induction e as [|c e IH] using rev_ind; intros rest n He Hn;
    (destruct n as [|n]; [lia|]); cbn [find_slash].
  - rewrite zlen_nil, Z.add_0_r. cbn [app]. by mrun (ld_app d SLASH rest).
  - apply Forall_app in He as [He Hc]. apply Forall_cons in Hc as [Hc _].
    rewrite length_app in Hn. cbn in Hn. rewrite zlen_app, zlen_cons, zlen_nil.
    replace (d ++ SLASH :: (e ++ [c]) ++ rest) with ((d ++ SLASH :: e) ++ c :: rest)
      by (by rewrite <- !app_assoc).
    replace (zlen d + (zlen e + (0 + 1))) with (zlen (d ++ SLASH :: e))
      by (rewrite zlen_app, zlen_cons; lia).
    mrun (ld_app (d ++ SLASH :: e) c rest). apply Z.eqb_neq in Hc. rewrite Hc.
    replace (zlen (d ++ SLASH :: e) - 1) with (zlen d + zlen e)
      by (rewrite zlen_app, zlen_cons; lia).
    rewrite <- app_assoc, <- app_comm_cons. apply (IH (c :: rest)); [done|lia].
Qed.

Lemma last_slash_ok d e rest :
  Forall (λ c, c ≠ 0) d → Forall (λ c, c ≠ 0) e → Forall (λ c, c ≠ SLASH) e →
  last_slash (d ++ SLASH :: e ++ 0 :: rest) = Ok (zlen d, d ++ SLASH :: e ++ 0 :: rest).
Proof.
  intros Hd He1 He2. unfold last_slash.
  pose proof (strlen_ok0 (d ++ SLASH :: e) rest) as Hs.
  rewrite <- app_assoc, <- app_comm_cons in Hs.
  mrun (Hs ltac:(apply Forall_app; split; [done|by constructor])). mstep.
  replace (zlen (d ++ SLASH :: e) - 1) with (zlen d + zlen e) by (rewrite zlen_app, zlen_cons; lia).
  apply find_slash_ok; [done|]. rewrite length_app. cbn. rewrite length_app. lia.
Qed.

Lemma strcpy_ok pre s rest dst :
  Forall (λ c, c ≠ 0) s → (length s < length dst)%nat →
  ∃ out, strcpy (pre ++ s ++ 0 :: rest) (zlen pre) 0 dst = Ok (tt, out) ∧ holds s dst out.
Proof.
  intros Hs Hl. unfold strcpy.
  assert (reading (pre ++ s ++ 0 :: rest) (strlen (zlen pre)) dst = Ok (zlen s, dst)) as Hlen
    by (unfold reading; by rewrite strlen_ok).
  mrun Hlen.
  replace (Z.to_nat (zlen s)) with (length s) by (unfold zlen; lia).
  destruct (for_loop_inv (λ j t, t = take (Z.to_nat j) s ++ drop (Z.to_nat j) dst)
    (λ i, c ← reading (pre ++ s ++ 0 :: rest) (ld (zlen pre + i)); st (0 + i) c) (length s) 0 dst)
    as (t & Hr & ->).
  - by rewrite drop_0.
  - intros j t Hj ->. destruct (lookup_lt_is_Some_2 s (Z.to_nat j)) as [c Hc]; [lia|].
    pose proof (take_drop_middle s _ _ Hc) as Es.
    assert (zlen (take (Z.to_nat j) s) = j) as Ht by (unfold zlen; rewrite length_take; lia).
    assert (∀ t, reading (pre ++ s ++ 0 :: rest) (ld (zlen pre + j)) t = Ok (c, t)) as Hrd.
    { intros t. unfold reading. rewrite <- Es, <- app_assoc, <- app_comm_cons, app_assoc.
      replace (zlen pre + j) with (zlen (pre ++ take (Z.to_nat j) s)) by (rewrite zlen_app; lia).
      by rewrite ld_app. }
    mrun (Hrd (take (Z.to_nat j) s ++ drop (Z.to_nat j) dst)).
    destruct (drop (Z.to_nat j) dst) as [|b r] eqn:Eb.
    { apply (f_equal length) in Eb. rewrite length_drop in Eb. cbn in Eb. lia. }
    replace (0 + j) with (zlen (take (Z.to_nat j) s)) by lia. rewrite st_app.
    eexists. split; [reflexivity|]. replace (Z.to_nat (j + 1)) with (S (Z.to_nat j)) by lia.
    rewrite (take_S_r _ _ _ Hc), <- app_assoc. cbn. do 2 f_equal.
    replace (S (Z.to_nat j)) with (Z.to_nat j + 1)%nat by lia. by rewrite <- drop_drop, Eb.
  - mrun Hr. rewrite !Z.add_0_l, Nat2Z.id. rewrite take_ge by lia.
    rewrite put_end by (rewrite length_drop; lia). eexists. split; [reflexivity|].
    unfold holds. rewrite drop_drop. do 3 f_equal. lia.
Qed.

Lemma path_cut_ok d e rest : 
  path_cut (zlen d) (d ++ SLASH :: e ++ 0 :: rest) =
    Ok (tt, match d with [] => SLASH :: 0 :: drop 1 (e ++ 0 :: rest)
            | _ => d ++ 0 :: e ++ 0 :: rest end).
Proof.
  unfold path_cut. destruct d as [|c d].
  - destruct (e ++ 0 :: rest) as [|x l] eqn:E; [by destruct e|].
    exact (st_app [SLASH] x l 0).
  - destruct (_ =? 0) eqn:E; zbool; [rewrite zlen_cons in E; pose proof (zlen_nonneg d); lia|].
    apply st_app.
Qed.

(** ** Theorems *)

(** Printing a 64-bit number and reading it back gives the number, for
    every number and every buffer with room for the longest numeral; the loops
    of both functions end. *)
Theorem utoa_atou_round_trip n buf : is_u64 n → (21 ≤ length buf)%nat →
  ∃ out, utoa n buf = Ok (tt, out) ∧ atou out = Ok (n, out).
Proof.
  intros Hn Hb. destruct (utoa_ok n buf Hn Hb) as (out & Hr & ->). eexists. split; [exact Hr|].
  rewrite atou_ok by apply decimal_digits. by rewrite decimal_value, u64_small.
Qed.

(** Signed and hexadecimal printing are exact: [itoa] writes the decimal
    numeral with its sign (the most negative number alone loses it), [htoa]
    writes [0x] and sixteen digits whose value is the number, and both leave
    the rest of the buffer alone. *)
Theorem itoa_htoa_exact n m buf :
  -9223372036854775808 ≤ n < 9223372036854775808 → is_u64 m → (23 ≤ length buf)%nat →
  (∃ out, itoa n buf = Ok (tt, out) ∧ holds (sdecimal n) buf out) ∧
  (∃ out, htoa m buf = Ok (tt, out) ∧ holds (hexadecimal m) buf out) ∧
  hvalue (drop 2 (hexadecimal m)) = m ∧
  (n ≠ -9223372036854775808 → dvalue (decimal (Z.abs n)) = Z.abs n).
Proof.
  intros Hn Hm Hb. split_and!.
  - by apply itoa_ok.
  - apply htoa_ok; [done|lia].
  - by apply hexadecimal_value.
  - intros _. apply decimal_value. unfold is_u64. lia.
Qed.

(** [normalize_path] returns the path with one slash added in front and
    one behind where they are missing, for every path that fits its buffer, and
    normalising twice changes nothing. *)
Theorem normalize_path_correct p rest :
  Forall (λ c, c ≠ 0) p → (length p ≤ 4094)%nat →
  normalize_path (p ++ 0 :: rest) = Ok (norm p ++ replicate (4097 - length (norm p)) 0) ∧
  head (norm p) = Some SLASH ∧ last (norm p) = Some SLASH ∧ norm (norm p) = norm p.
Proof.
  intros Hp Hl. split; [by apply normalize_path_ok|]. split; [|split; [|apply norm_idem]];
    unfold norm; cbv zeta; case_bool_decide; case_bool_decide; try done;
    rewrite ?last_snoc; (done || by destruct p).
Qed.

(** Splitting off the last element of a path: the element goes to the
    output buffer, and the path keeps what is before its last slash (the slash
    itself when it is the first character). *)
Theorem get_path_elem_correct d e rest output :
  Forall (λ c, c ≠ 0) d → Forall (λ c, c ≠ 0) e → Forall (λ c, c ≠ SLASH) e →
  (length e < length output)%nat →
  ∃ out path, get_path_elem output (d ++ SLASH :: e ++ 0 :: rest) = Ok (out, path) ∧
    holds e output out ∧
    ∃ rest', path = (match d with [] => [SLASH] | _ => d end) ++ 0 :: rest'.
Proof.
  intros Hd He1 He2 Ho. unfold get_path_elem.
  mrun (last_slash_ok d e rest Hd He1 He2). mstep.
  replace (d ++ SLASH :: e ++ 0 :: rest) with ((d ++ [SLASH]) ++ e ++ 0 :: rest)
    by by rewrite <- app_assoc.
  replace (zlen d + 1) with (zlen (d ++ [SLASH])) by by rewrite zlen_app.
  destruct (strcpy_ok (d ++ [SLASH]) e rest output He1 Ho) as (out & Hr & Hh). rewrite Hr. mstep.
  rewrite <- app_assoc. cbn [app]. mrun (path_cut_ok d e rest). eexists out, _.
  split; [reflexivity|]. split; [done|]. destruct d; by eexists.
Qed.

(** ** Witnesses *)

Lemma utoa_atou_round_trip_witness : ∃ out,
  utoa 18446744073709551615 (replicate 21 7) = Ok (tt, out) ∧
  atou out = Ok (18446744073709551615, out).
Proof. apply utoa_atou_round_trip; [done|]. rewrite length_replicate. lia. Defined.

Lemma itoa_htoa_exact_witness : ∃ out, itoa (-42) (replicate 23 7) = Ok (tt, out) ∧
  holds (chars "-42") (replicate 23 7) out.
Proof.
  destruct (itoa_htoa_exact (-42) 0 (replicate 23 7)) as [H _];
    [lia|done|rewrite length_replicate; lia|exact H].
Defined.

Lemma normalize_path_correct_witness : ∃ b,
  normalize_path (chars "dev/tty" ++ [0]) = Ok (chars "/dev/tty/" ++ b).
Proof.
  destruct (normalize_path_correct (chars "dev/tty") []) as [H _]; [by repeat constructor|cbn; lia|].
  eexists. rewrite H. reflexivity.
Defined.

Lemma get_path_elem_correct_witness : ∃ out path,
  get_path_elem (replicate 8 0) (chars "/dev/tty" ++ [0]) = Ok (out, path) ∧
  take 3 out = chars "tty" ∧ take 4 path = chars "/dev".
Proof.
  destruct (get_path_elem_correct (chars "/dev") (chars "tty") [] (replicate 8 0))
    as (out & path & E & Hh & rest' & Hp); [by repeat constructor..|cbn; lia|].
  exists out, path. split; [exact E|]. rewrite Hh, Hp. done.
Defined.
