(* ===== verification/Format.v ===== *)
(** * Formatted output (drivers/tty/tty.c, drivers/serial.c, klibc/logger.c)

    [kprintf], [kprintf_yieldless], [safe_kprintf], [sprintf], [log], [warn],
    [error] and [log_alloc] contain the same loop over a message.  [format] is
    that loop: it returns the characters in the order the code emits them.  The
    two families differ in one case: after a long directive, [%s] prints
    nothing in the terminal functions.  The terminal is a cursor and the trace of
    its calls into the framebuffer driver; the serial port is the list of bytes
    sent to COM1.  The functions are modelled as compiled with logging on. *)

From S2P Require Import Prelude Locks CString.

(** ** The formatting loop *)

(** A variadic argument: a 64-bit slot, or a string. *)
Inductive arg : Type := AWord (w : Z) | AStr (s : list Z).

Definition CH_percent : Z := 37.
Definition CH_l : Z := 108.
Definition CH_x : Z := 120.
Definition CH_d : Z := 100.
Definition CH_u : Z := 117.
Definition CH_s : Z := 115.
Definition CH_newline : Z := 10.

(** The string in a buffer, up to its terminator. *)
Fixpoint cstr (b : list Z) : list Z :=
  match b with
  | [] => []
  | c :: b' => if c =? 0 then [] else c :: cstr b'
  end.

(** [char data_buf[32]; conv(data, data_buf); print(data_buf)] *)
Definition print_buf (conv : bM unit) : res (list Z) :=
  match conv (replicate 32 0) with
  | Ok (_, b) => Ok (cstr b)
  | Crash c => Crash c
  end.

Definition va_word (args : list arg) : res (Z * list arg) :=
  match args with AWord w :: args' => Ok (w, args') | _ => Crash Fault end.

(** The [switch] on the directive: the characters it prints and the remaining
    arguments. *)
Definition directive (tty big : bool) (d : Z) (args : list arg) : res (list Z * list arg) :=
  if d =? CH_x then
    '(w, args) ← va_word args;
    out ← print_buf (htoa (if big then w else u32 w));
    mret (out, args)
  else if d =? CH_d then
    '(w, args) ← va_word args;
    out ← print_buf (itoa (if big then s64 w else s32 w));
    mret (out, args)
  else if d =? CH_u then
    '(w, args) ← va_word args;
    out ← print_buf (utoa (if big then w else u32 w));
    mret (out, args)
  else if d =? CH_s then
    match args with
    | AStr s :: args' => Ok (if tty && big then [] else s, args')
    | AWord _ :: args' => if tty && big then Ok ([], args') else Crash Fault
    | [] => Crash Fault
    end
  else Ok ([], args).

(** The message from the current index on; the terminator is part of it, and
    reading past the end of the buffer is a [Fault]. *)
Fixpoint format (tty : bool) (msg : list Z) (args : list arg) (big : bool) : res (list Z) :=
  match msg with
  | [] => Crash Fault
  | c :: rest =>
      if c =? 0 then Ok []
      else if c =? CH_percent then
        match rest with
        | [] => Crash Fault
        | d :: rest1 =>
            if d =? CH_l then
              match rest1 with
              | [] => Crash Fault
              | d2 :: rest2 =>
                  '(out, args) ← directive tty true d2 args;
                  more ← format tty rest2 args true;
                  mret (out ++ more)
              end
            else
              '(out, args) ← directive tty big d args;
              more ← format tty rest1 args big;
              mret (out ++ more)
        end
      else more ← format tty rest args big; mret (c :: more)
  end.

(** ** The terminal *)

(** Calls into the framebuffer driver (drivers/vesa.c). *)
Inductive draw : Type :=
| Glyph (c x y : Z)
| Scroll (rows : Z)
| Fill
| Flip.

Record tty_t : Type := mk_tty {
  c_pos_x : Z;
  c_pos_y : Z;
  rows : Z;
  cols : Z;
  tty_lock : Z;
  kb_in_buffer : list Z;
  kb_in_buffer_index : Z;
  drawn : list draw
}.

Definition tty_move (x y : Z) (t : tty_t) : tty_t :=
  mk_tty x y (rows t) (cols t) (tty_lock t) (kb_in_buffer t) (kb_in_buffer_index t) (drawn t).
Definition tty_draw (d : draw) (t : tty_t) : tty_t :=
  mk_tty (c_pos_x t) (c_pos_y t) (rows t) (cols t) (tty_lock t) (kb_in_buffer t)
    (kb_in_buffer_index t) (drawn t ++ [d]).
Definition tty_set_lock (l : Z) (t : tty_t) : tty_t :=
  mk_tty (c_pos_x t) (c_pos_y t) (rows t) (cols t) l (kb_in_buffer t)
    (kb_in_buffer_index t) (drawn t).
Definition tty_set_kb (b : list Z) (i : Z) (t : tty_t) : tty_t :=
  mk_tty (c_pos_x t) (c_pos_y t) (rows t) (cols t) (tty_lock t) b i (drawn t).

Abbreviation tM := (stM tty_t).

Definition tty_acquire : tM unit :=
  t ← get;
  match spinlock_lock (tty_lock t) with
  | Ok l => modify (tty_set_lock l)
  | Crash c => crashM c
  end.
Definition tty_release : tM unit := modify (λ t, tty_set_lock (spinlock_unlock (tty_lock t)) t).

Definition tty_out (c : Z) : tM unit :=
  t ← get;
  (if c =? CH_newline then modify (λ t, tty_move 0 (u64 (c_pos_y t + 1)) t)
   else
     modify (tty_draw (Glyph c (u64 (c_pos_x t * 8)) (u64 (c_pos_y t * 8)))) ;;
     modify (λ t, tty_move (u64 (c_pos_x t + 1)) (c_pos_y t) t) ;;
     t ← get;
     if c_pos_x t =? cols t then modify (λ t, tty_move 0 (u64 (c_pos_y t + 1)) t) else mret tt) ;;
  t ← get;
  if c_pos_y t =? rows t
  then modify (tty_draw (Scroll 8)) ;; modify (λ t, tty_move (c_pos_x t) (u64 (c_pos_y t - 1)) t)
  else mret tt.

Fixpoint kprint (s : list Z) : tM unit :=
  match s with
  | [] => mret tt
  | c :: s' => tty_out c ;; kprint s'
  end.

Definition tty_seek_no_lock (x y : Z) : tM unit :=
  t ← get; if (x <? cols t) && (y <? rows t) then modify (tty_move x y) else mret tt.

Definition tty_clear : tM unit :=
  tty_acquire ;; modify (tty_draw Fill) ;; tty_seek_no_lock 0 0 ;; tty_release.

(** [tty_init]: the size comes from the framebuffer driver. *)
Definition tty_init (width height font_width font_height : Z) : tM unit :=
  modify (λ t, mk_tty 0 0 (height / font_height) (width / font_width) 0 (replicate 4096 0) 0 (drawn t)) ;;
  tty_clear.

Definition tty_in (c : Z) : tM unit :=
  tty_acquire ;;
  t ← get;
  _ ← of_opt (idx (kb_in_buffer t) (kb_in_buffer_index t));
  modify (λ t, tty_set_kb (upd (kb_in_buffer t) (kb_in_buffer_index t) c)
                 (u64 (kb_in_buffer_index t + 1)) t) ;;
  tty_release.

Definition tty_get_char : tM Z :=
  tty_acquire ;;
  t ← get;
  if kb_in_buffer_index t =? 0 then tty_release ;; mret 0
  else
    ret ← of_opt (idx (kb_in_buffer t) (kb_in_buffer_index t - 1));
    modify (λ t, tty_set_kb (kb_in_buffer t) (kb_in_buffer_index t - 1) t) ;;
    tty_release ;;
    mret ret.

Definition tty_dev_write (buf : list Z) (count : Z) : tM Z :=
  tty_acquire ;;
  for_loop (Z.to_nat count) 0 (λ i, c ← of_opt (idx buf i); tty_out c) ;;
  modify (tty_draw Flip) ;;
  tty_release ;;
  mret count.

(** [tty_dev_read] fills the caller's buffer. *)
Fixpoint tty_dev_read (count : nat) : tM (list Z) :=
  match count with
  | O => mret []
  | S n => c ← tty_get_char; cs ← tty_dev_read n; mret (c :: cs)
  end.

Definition print_formatted (message : list Z) (args : list arg) : tM unit :=
  match format true message args false with
  | Ok out => kprint out
  | Crash c => crashM c
  end.

Definition kprintf (message : list Z) (args : list arg) : tM unit :=
  tty_acquire ;; print_formatted message args ;; modify (tty_draw Flip) ;; tty_release.
Definition kprintf_yieldless (message : list Z) (args : list arg) : tM unit :=
  tty_acquire ;; print_formatted message args ;; modify (tty_draw Flip) ;; tty_release.
Definition safe_kprintf (message : list Z) (args : list arg) : tM unit :=
  tty_acquire ;; print_formatted message args ;; modify (tty_draw Flip) ;; tty_release.

(** ** The serial port and the logger *)

Record serial : Type := mk_serial { com1 : list Z; log_lock : Z }.
Abbreviation sM := (stM serial).

Definition write_serial (data : Z) : sM unit :=
  modify (λ s, mk_serial (com1 s ++ [data]) (log_lock s)).
Definition sprint (s : list Z) : sM unit :=
  (fix go (s : list Z) : sM unit :=
     match s with [] => mret tt | c :: s' => write_serial c ;; go s' end) s.
Definition serial_write_buf (buffer : list Z) (count : Z) : sM unit :=
  for_loop (Z.to_nat count) 0 (λ i, c ← of_opt (idx buffer i); write_serial c).

Definition sprintf (message : list Z) (args : list arg) : sM unit :=
  match format false message args false with
  | Ok out => sprint out
  | Crash c => crashM c
  end.

Definition log_acquire : sM unit :=
  s ← get;
  match spinlock_lock (log_lock s) with
  | Ok l => modify (λ s, mk_serial (com1 s) l)
  | Crash c => crashM c
  end.
Definition log_release : sM unit :=
  modify (λ s, mk_serial (com1 s) (spinlock_unlock (log_lock s))).

Definition ESC : Z := 27.
Definition LOG_RESET : list Z := ESC :: chars "[0m" ++ [CH_newline].

Definition log (message : list Z) (args : list arg) : sM unit :=
  log_acquire ;; sprint (ESC :: chars "[34m[LOG]" ++ ESC :: chars "[32m ") ;;
  sprintf message args ;; sprint LOG_RESET ;; log_release.
Definition warn (message : list Z) (args : list arg) : sM unit :=
  log_acquire ;; sprint (ESC :: chars "[36m[WARN]" ++ ESC :: chars "[33m ") ;;
  sprintf message args ;; sprint LOG_RESET ;; log_release.
Definition error (message : list Z) (args : list arg) : sM unit :=
  log_acquire ;; sprint (ESC :: chars "[91m[ERROR]" ++ ESC :: chars "[31m ") ;;
  sprintf message args ;; sprint LOG_RESET ;; log_release.
Definition log_alloc (message : list Z) (args : list arg) : sM unit :=
  log_acquire ;; sprintf message args ;; log_release.

(** * What the loop prints *)

(** A message as a sequence of literal characters and directives. *)
Inductive item : Type := Lit (c : Z) | Conv (long : bool) (d : Z).

Definition item_ok (i : item) : Prop :=
  match i with
  | Lit c => c ≠ 0 ∧ c ≠ CH_percent
  | Conv _ d => d ≠ CH_l ∧ d ≠ 0
  end.

Definition encode_item (i : item) : list Z :=
  match i with
  | Lit c => [c]
  | Conv long d => CH_percent :: (if long then [CH_l] else []) ++ [d]
  end.
Definition encode (its : list item) : list Z := concat (map encode_item its).

(** The text of a directive, in closed form. *)
Definition rendered (tty big : bool) (d : Z) (args : list arg) : res (list Z * list arg) :=
  if d =? CH_x then
    '(w, args) ← va_word args; mret (hexadecimal (if big then w else u32 w), args)
  else if d =? CH_d then
    '(w, args) ← va_word args; mret (sdecimal (if big then s64 w else s32 w), args)
  else if d =? CH_u then
    '(w, args) ← va_word args; mret (decimal (if big then w else u32 w), args)
  else if d =? CH_s then
    match args with
    | AStr s :: args' => Ok (if tty && big then [] else s, args')
    | AWord _ :: args' => if tty && big then Ok ([], args') else Crash Fault
    | [] => Crash Fault
    end
  else Ok ([], args).

(** The text of a message: a directive is long when it or one before it is. *)
Fixpoint text (tty : bool) (its : list item) (args : list arg) (big : bool) : res (list Z) :=
  match its with
  | [] => Ok []
  | Lit c :: its' => more ← text tty its' args big; mret (c :: more)
  | Conv long d :: its' =>
      '(out, args) ← rendered tty (big || long) d args;
      more ← text tty its' args (big || long);
      mret (out ++ more)
  end.

Definition arg_ok (a : arg) : Prop := match a with AWord w => is_u64 w | AStr _ => True end.

Lemma cstr_holds s buf out : Forall (λ c, c ≠ 0) s → holds s buf out → cstr out = s.
Proof.
  intros Hs ->. induction Hs as [|c s Hc Hs IH]; [done|]. cbn [app cstr].
  apply Z.eqb_neq in Hc. rewrite Hc. f_equal.
  clear -Hs. generalize (drop (S (length (c :: s))) buf). intros r.
  induction Hs as [|d s Hd Hs IH]; [done|]. cbn [app cstr]. apply Z.eqb_neq in Hd.
  by rewrite Hd, IH.
Qed.

Lemma hexadecimal_nonzero n : Forall (λ c, c ≠ 0) (hexadecimal n).
Proof.
  unfold hexadecimal. do 2 (constructor; [done|]). apply Forall_map, Forall_true. intros k. cbn.
  unfold hex_digit, ZERO_CHAR, hex_nibble. destruct (_ <=? _) eqn:E; zbool; dlia.
Qed.

Lemma sdecimal_nonzero n : Forall (λ c, c ≠ 0) (sdecimal n).
Proof.
  assert (∀ m, Forall (λ c, c ≠ 0) (decimal m)) as Hd
    by (intros m; apply digit_nonzero, decimal_digits).
  unfold sdecimal. destruct (n <? 0); [destruct (n =? _)|]; [done| |done].
  by constructor.
Qed.

Lemma s64_range w : -9223372036854775808 ≤ s64 w < 9223372036854775808.
Proof. unfold s64. destruct (_ <? _) eqn:E; zbool; dlia. Qed.
Lemma s32_range w : -9223372036854775808 ≤ s32 w < 9223372036854775808.
Proof. unfold s32. destruct (_ <? _) eqn:E; zbool; dlia. Qed.
Lemma u32_u64 w : is_u64 (u32 w).
Proof. unfold is_u64, u32. dlia. Qed.

Lemma print_htoa n : is_u64 n → print_buf (htoa n) = Ok (hexadecimal n).
Proof.
  intros Hn. unfold print_buf. destruct (htoa_ok n (replicate 32 0) Hn) as (out & -> & Ho);
    [rewrite length_replicate; lia|].
  by rewrite (cstr_holds _ _ _ (hexadecimal_nonzero n) Ho).
Qed.
Lemma print_itoa n : -9223372036854775808 ≤ n < 9223372036854775808 →
  print_buf (itoa n) = Ok (sdecimal n).
Proof.
  intros Hn. unfold print_buf. destruct (itoa_ok n (replicate 32 0) Hn) as (out & -> & Ho);
    [rewrite length_replicate; lia|].
  by rewrite (cstr_holds _ _ _ (sdecimal_nonzero n) Ho).
Qed.
Lemma print_utoa n : is_u64 n → print_buf (utoa n) = Ok (decimal n).
Proof.
  intros Hn. unfold print_buf. destruct (utoa_ok n (replicate 32 0) Hn) as (out & -> & Ho);
    [rewrite length_replicate; lia|].
  by rewrite (cstr_holds _ _ _ (digit_nonzero _ (decimal_digits n)) Ho).
Qed.

(** The conversions never overrun their 32-byte buffer. *)
Lemma directive_rendered tty big d args : Forall arg_ok args →
  directive tty big d args = rendered tty big d args.
Proof.
  intros Ha. unfold directive, rendered.
  destruct (d =? CH_x); [|destruct (d =? CH_d); [|destruct (d =? CH_u); [|done]]];
    (destruct args as [|[w|s] args]; try done); apply Forall_cons in Ha as [Hw _]; cbn in Hw;
    unfold mbind, res_bind; cbn.
  - rewrite print_htoa by (destruct big; [done|apply u32_u64]). done.
  - rewrite print_itoa by (destruct big; [apply s64_range|apply s32_range]). done.
  - rewrite print_utoa by (destruct big; [done|apply u32_u64]). done.
Qed.

Lemma rendered_args tty big d args out args' :
  rendered tty big d args = Ok (out, args') → Forall arg_ok args → Forall arg_ok args'.
Proof.
  unfold rendered, mbind, res_bind, va_word, mret, res_ret. intros H Ha.
  destruct args as [|a args]; [repeat destruct (_ =? _); by simplify_eq|].
  apply Forall_cons in Ha as [Hw Ha].
  repeat destruct (_ =? _); repeat case_match; simplify_eq; try done; by constructor.
Qed.

Lemma format_text tty its rest : ∀ args big,
  Forall item_ok its → Forall arg_ok args →
  format tty (encode its ++ 0 :: rest) args big = text tty its args big.
Proof.
  induction its as [|i its IH]; intros args big His Ha; [done|].
  apply Forall_cons in His as [Hi His]. destruct i as [c|long d]; cbn in Hi.
  - destruct Hi as [H1 H2]. cbn [encode concat map encode_item app format text].
    apply Z.eqb_neq in H1, H2. rewrite H1, H2. fold (encode its). by rewrite IH.
  - destruct Hi as [H1 H2]. apply Z.eqb_neq in H1.
    destruct long; cbn [encode concat map encode_item app format text];
      fold (encode its); change (CH_percent =? 0) with false; change (CH_percent =? CH_percent) with true;
      change (CH_l =? CH_l) with true; cbv iota; rewrite ?orb_true_r, ?orb_false_r, ?H1;
      rewrite directive_rendered by done;
      destruct (rendered tty _ d args) as [[out args']|] eqn:E; try done;
      unfold mbind, res_bind; rewrite IH; try done; by eapply rendered_args.
Qed.

(** ** The cursor *)

(** The cursor is on the screen, and so is every character drawn. *)
Record tty_ok (t : tty_t) : Prop := mk_tty_ok {
  to_size : 0 < cols t ∧ 0 < rows t ∧ cols t * 8 < U64_MOD ∧ rows t * 8 < U64_MOD;
  to_x : 0 ≤ c_pos_x t < cols t;
  to_y : 0 ≤ c_pos_y t < rows t;
  to_drawn : Forall (λ d, match d with
    | Glyph _ x y => 0 ≤ x ∧ x + 8 ≤ cols t * 8 ∧ 0 ≤ y ∧ y + 8 ≤ rows t * 8
    | _ => True end) (drawn t)
}.

Lemma tty_out_ok c t : tty_ok t → ∃ t', tty_out c t = Ok (tt, t') ∧ tty_ok t' ∧
  (rows t', cols t', tty_lock t', kb_in_buffer t', kb_in_buffer_index t') =
  (rows t, cols t, tty_lock t, kb_in_buffer t, kb_in_buffer_index t).
Proof.
  intros [(Hc & Hr & Hc8 & Hr8) Hx Hy Hd].
  assert (∀ d, match d with
      | Glyph _ x y => 0 ≤ x ∧ x + 8 ≤ cols t * 8 ∧ 0 ≤ y ∧ y + 8 ≤ rows t * 8
      | _ => True end → ∀ l, Forall (λ d, match d with
      | Glyph _ x y => 0 ≤ x ∧ x + 8 ≤ cols t * 8 ∧ 0 ≤ y ∧ y + 8 ≤ rows t * 8
      | _ => True end) l → Forall (λ d, match d with
      | Glyph _ x y => 0 ≤ x ∧ x + 8 ≤ cols t * 8 ∧ 0 ≤ y ∧ y + 8 ≤ rows t * 8
      | _ => True end) (l ++ [d])) as Hadd
    by (intros d Hd1 l Hl; apply Forall_app; split; [done|by constructor]).
  unfold tty_out, mbind, stM_bind, get, modify, mret, stM_ret.
  destruct (c =? CH_newline); cbn.
  - rewrite (u64_small (c_pos_y t + 1)) by (unfold is_u64; lia).
    destruct (c_pos_y t + 1 =? rows t) eqn:E; zbool;
      (eexists; split; [reflexivity|]; split; [|done]); split; cbn; try done; try lia.
    + rewrite u64_small by (unfold is_u64; lia). lia.
    + by apply Hadd.
  - rewrite (u64_small (c_pos_x t + 1)), (u64_small (c_pos_x t * 8)), (u64_small (c_pos_y t * 8))
      by (unfold is_u64; lia).
    destruct (c_pos_x t + 1 =? cols t) eqn:E1; zbool; cbn.
    + rewrite (u64_small (c_pos_y t + 1)) by (unfold is_u64; lia).
      destruct (c_pos_y t + 1 =? rows t) eqn:E; zbool;
        (eexists; split; [reflexivity|]; split; [|done]); split; cbn; try done; try lia.
      * rewrite u64_small by (unfold is_u64; lia). lia.
      * apply Hadd; [done|]. apply Hadd; [lia|done].
      * apply Hadd; [lia|done].
    + destruct (c_pos_y t =? rows t) eqn:E; zbool; [lia|].
      eexists; split; [reflexivity|]; split; [|done]. split; cbn; try done; try lia.
      apply Hadd; [lia|done].
Qed.

Lemma kprint_ok s : ∀ t, tty_ok t → ∃ t', kprint s t = Ok (tt, t') ∧ tty_ok t' ∧
  (rows t', cols t', tty_lock t', kb_in_buffer t', kb_in_buffer_index t') =
  (rows t, cols t, tty_lock t, kb_in_buffer t, kb_in_buffer_index t).
Proof.
  induction s as [|c s IH]; intros t Ht; cbn [kprint]; [by exists t|].
  destruct (tty_out_ok c t Ht) as (t1 & E1 & H1 & Eq1). mrun E1.
  destruct (IH t1 H1) as (t2 & E2 & H2 & Eq2). exists t2. by rewrite Eq2, Eq1.
Qed.

(** ** Theorems *)

(** Every printing function of the kernel prints exactly the text of its
    message: literals unchanged, [%x] as [0x] and sixteen digits, [%d] and [%u]
    in decimal, at 64 bits when the directive or any directive before it is
    long and at 32 bits otherwise; no conversion overruns its buffer.  In the
    terminal functions a [%s] after a long directive prints nothing. *)
Theorem format_correct tty its rest args :
  Forall item_ok its → Forall arg_ok args →
  format tty (encode its ++ 0 :: rest) args false = text tty its args false.
Proof. apply format_text. Qed.


(** A keyboard buffer with [k] unread characters. *)
Definition kb_holds (t : tty_t) (typed : list Z) : Prop :=
  kb_in_buffer_index t = zlen typed ∧ take (length typed) (kb_in_buffer t) = typed ∧
  length (kb_in_buffer t) = 4096%nat ∧ unlocked (tty_lock t).

Fixpoint type_keys (s : list Z) : stM tty_t unit :=
  match s with [] => mret tt | c :: s' => tty_in c ;; type_keys s' end.

Lemma tty_in_ok c t typed : kb_holds t typed → (length typed < 4096)%nat →
  ∃ t', tty_in c t = Ok (tt, t') ∧ kb_holds t' (typed ++ [c]).
Proof.
  intros (Hi & Ht & Hlen & Hl) Hn. unfold tty_in, tty_acquire. erewrite bind_ok.
  2:{ mstep. by rewrite spinlock_lock_free. }
  mstep. cbn [kb_in_buffer kb_in_buffer_index tty_set_lock].
  destruct (idx_lt (kb_in_buffer t) (kb_in_buffer_index t)) as [b Hb].
  { rewrite Hi. unfold zlen. lia. }
  rewrite Hb. mstep. mstep. eexists. split; [reflexivity|]. unfold kb_holds. cbn.
  rewrite Hi, lock_unlock, u64_small by (done || unfold is_u64, zlen; lia).
  unfold upd, zlen. rewrite Nat2Z.id, length_insert, !length_app. cbn. split_and!; [lia| |done|done].
  rewrite Nat.add_1_r. erewrite take_S_r by (apply list_lookup_insert_eq; lia).
  by rewrite take_insert_ge, Ht by lia.
Qed.

Lemma type_keys_ok s : ∀ t typed, kb_holds t typed → (length typed + length s ≤ 4096)%nat →
  ∃ t', type_keys s t = Ok (tt, t') ∧ kb_holds t' (typed ++ s).
Proof.
  induction s as [|c s IH]; intros t typed Ht Hn; cbn [type_keys].
  - exists t. rewrite app_nil_r. done.
  - cbn in Hn. destruct (tty_in_ok c t typed Ht ltac:(lia)) as (t1 & E1 & H1). mrun E1.
    destruct (IH t1 (typed ++ [c]) H1) as (t2 & E2 & H2); [rewrite length_app; cbn; lia|].
    exists t2. by rewrite <- app_assoc in H2.
Qed.

Lemma tty_get_char_ok c t typed : kb_holds t (typed ++ [c]) →
  ∃ t', tty_get_char t = Ok (c, t') ∧ kb_holds t' typed.
Proof.
  intros (Hi & Ht & Hlen & Hl). rewrite zlen_app, zlen_cons, zlen_nil in Hi.
  pose proof (zlen_nonneg typed). unfold tty_get_char, tty_acquire. erewrite bind_ok.
  2:{ mstep. by rewrite spinlock_lock_free. }
  mstep. cbn [kb_in_buffer kb_in_buffer_index tty_set_lock].
  destruct (kb_in_buffer_index t =? 0) eqn:E; zbool; [lia|].
  assert (kb_in_buffer t !! length typed = Some c) as Hc.
  { rewrite <- (lookup_take_lt _ (length (typed ++ [c]))) by (rewrite length_app; cbn; lia).
    rewrite Ht, lookup_app_r by lia. by rewrite Nat.sub_diag. }
  assert (idx (kb_in_buffer t) (kb_in_buffer_index t - 1) = Some c) as ->.
  { rewrite Hi. unfold idx. destruct (_ <=? _) eqn:E2; zbool; [|lia].
    replace (Z.to_nat (zlen typed + (0 + 1) - 1)) with (length typed) by (unfold zlen; lia). done. }
  mstep. mstep. mstep. eexists. split; [reflexivity|]. unfold kb_holds. cbn.
  rewrite lock_unlock by done. split_and!; [lia| |done|done].
  apply (f_equal (take (length typed))) in Ht. rewrite length_app, take_take in Ht.
  replace (length typed `min` (length typed + length [c]))%nat with (length typed) in Ht by lia.
  by rewrite take_app_length in Ht.
Qed.

(** The keyboard buffer is a stack: after typing a text of at most 4096
    characters into an empty buffer, reading that many characters returns the
    text backwards, and the buffer is empty again. *)
Theorem keyboard_lifo t s : kb_holds t [] → (length s ≤ 4096)%nat →
  ∃ t1 t2, type_keys s t = Ok (tt, t1) ∧
    tty_dev_read (length s) t1 = Ok (rev s, t2) ∧ kb_holds t2 [].
Proof.
  intros Ht Hs. destruct (type_keys_ok s t [] Ht) as (t1 & E1 & H1); [done|].
  assert (∃ t2, tty_dev_read (length s) t1 = Ok (rev s, t2) ∧ kb_holds t2 []) as (t2 & E2 & H2).
  { clear E1 Ht Hs. revert t1 H1. cbn [app]. induction s as [|c s IH] using rev_ind; intros t1 H1.
    - by exists t1.
    - destruct (tty_get_char_ok c t1 s H1) as (t' & Eg & H'). destruct (IH t' H') as (t2 & E2 & H2).
      exists t2. split; [|done]. rewrite length_app, Nat.add_comm. cbn [length Nat.add tty_dev_read].
      mrun Eg. mrun E2. by rewrite rev_app_distr. }
  by exists t1, t2.
Qed.

(** ** Witnesses *)

Definition tty_demo : tty_t := mk_tty 79 24 25 80 0 (replicate 4096 0) 0 [].

Lemma format_correct_witness :
  format true (chars "a%lu%s" ++ [0]) [AWord 7; AStr (chars "bc")] false = Ok (chars "a7") ∧
  format true (chars "a%u%s" ++ [0]) [AWord 7; AStr (chars "bc")] false = Ok (chars "a7bc").
Proof.
  split.
  - refine (format_correct true [Lit 97; Conv true CH_u; Conv false CH_s] [] [AWord 7; AStr (chars "bc")] _ _);
      repeat constructor; done.
  - refine (format_correct true [Lit 97; Conv false CH_u; Conv false CH_s] [] [AWord 7; AStr (chars "bc")] _ _);
      repeat constructor; done.
Defined.


Lemma keyboard_lifo_witness : ∃ t1 t2, type_keys (chars "ls") tty_demo = Ok (tt, t1) ∧
  tty_dev_read 2 t1 = Ok (chars "sl", t2).
Proof.
  destruct (keyboard_lifo tty_demo (chars "ls")) as (t1 & t2 & E1 & E2 & _); [done|cbn; lia|].
  exists t1, t2. split; [exact E1|exact E2].
Defined.
