(* ===== verification/Hashmap.v ===== *)
(** * Hash maps over doubly linked buckets (klibc/hashmap.c, klibc/strhashmap.c)

    The two files differ in the type of keys, in the hash, and in one line: the
    string map frees an element when its last reference goes.  [Section table]
    is their common code over a heap of elements; [hashmap_*] and
    [strhashmap_*] are its two instances.  Elements are named by address, [0] is
    the null pointer, and an access to an address that is not allocated (or was
    freed) is a [Fault].  [kcalloc] is an allocator of unused addresses. *)

From S2P Require Import Prelude Locks CString DList.

Definition HASHMAP_BUCKET_SIZE : Z := 200.

Section table.
Context {K : Type} `{!EqDecision K} (bucket_of : K → Z) (frees : bool).

Record hashmap_elem : Type := mk_elem {
  e_key : K;
  e_data : Z;
  e_next : Z;
  e_prev : Z;
  ref_count : Z
}.

Record hashmap : Type := mk_hashmap {
  buckets : list Z;
  heap : gmap Z hashmap_elem;
  brk : Z;
  hashmap_lock : Z
}.

Definition set_data (d : Z) (e : hashmap_elem) : hashmap_elem :=
  mk_elem (e_key e) d (e_next e) (e_prev e) (ref_count e).
Definition set_ref (r : Z) (e : hashmap_elem) : hashmap_elem :=
  mk_elem (e_key e) (e_data e) (e_next e) (e_prev e) r.

#[export] Instance elem_node : Node hashmap_elem := {
  next := e_next;
  prev := e_prev;
  set_next n e := mk_elem (e_key e) (e_data e) n (e_prev e) (ref_count e);
  set_prev p e := mk_elem (e_key e) (e_data e) (e_next e) p (ref_count e)
}.
#[export] Instance elem_node_laws : NodeLaws hashmap_elem.
Proof. split; intros; reflexivity. Qed.

Definition set_heap (h : gmap Z hashmap_elem) (s : hashmap) : hashmap :=
  mk_hashmap (buckets s) h (brk s) (hashmap_lock s).
Definition set_buckets (b : list Z) (s : hashmap) : hashmap :=
  mk_hashmap b (heap s) (brk s) (hashmap_lock s).
Definition set_hlock (l : Z) (s : hashmap) : hashmap :=
  mk_hashmap (buckets s) (heap s) (brk s) l.

Abbreviation hM := (stM hashmap).

Definition on_heap {A} (m : stM (gmap Z hashmap_elem) A) : hM A := zoom heap set_heap m.

Definition hm_acquire : hM unit :=
  s ← get;
  match spinlock_lock (hashmap_lock s) with
  | Ok l => modify (set_hlock l)
  | Crash c => crashM c
  end.
Definition hm_release : hM unit :=
  modify (λ s, set_hlock (spinlock_unlock (hashmap_lock s)) s).

(** [kcalloc(sizeof(hashmap_elem_t))], then the first stores to it. *)
Definition new_elem (e : hashmap_elem) : hM Z :=
  s ← get;
  modify (λ s, mk_hashmap (buckets s) (<[brk s := e]> (heap s)) (brk s + 1) (hashmap_lock s)) ;;
  mret (brk s).

(** ** Operations *)

Definition get_bucket (key : K) : hM Z := s ← get; of_opt (idx (buckets s) (bucket_of key)).

Fixpoint find_loop (n : nat) (key : K) (cur_elem : Z) : stM (gmap Z hashmap_elem) Z :=
  match n with
  | O => crashM Hang
  | S n' =>
      if cur_elem =? 0 then mret 0
      else
        e ← load cur_elem;
        found ← (if decide (e_key e = key) then
                   let '(nonzero, r) := atomic_inc (ref_count e) in
                   store cur_elem (set_ref r e) ;; mret (negb (nonzero =? 0))
                 else mret false);
        if found : bool then mret cur_elem else find_loop n' key (e_next e)
  end.

Definition get_elem_dat (key : K) : hM Z :=
  hm_acquire ;;
  cur_elem ← get_bucket key;
  s ← get;
  ret ← on_heap (find_loop (S (size (heap s))) key cur_elem);
  hm_release ;;
  mret ret.

Definition unref_elem (elem : Z) : hM unit :=
  e ← on_heap (load elem);
  let '(nonzero, r) := atomic_dec (ref_count e) in
  on_heap (store elem (set_ref r e)) ;;
  if nonzero =? 0 then
    on_heap (UNCHAIN_LINKED_LIST elem) ;;
    if frees then modify (λ s, set_heap (delete elem (heap s)) s) else mret tt
  else mret tt.

Definition remove_elem (key : K) : hM unit :=
  elem ← get_elem_dat key;
  if negb (elem =? 0) then unref_elem elem ;; unref_elem elem else mret tt.

Definition get_elem (key : K) : hM Z :=
  elem ← get_elem_dat key;
  if negb (elem =? 0) then e ← on_heap (load elem); unref_elem elem ;; mret (e_data e)
  else mret 0.

Definition set_elem (key : K) (data : Z) : hM unit :=
  elem ← get_elem_dat key;
  hm_acquire ;;
  (if negb (elem =? 0) then
     e ← on_heap (load elem); on_heap (store elem (set_data data e)) ;; unref_elem elem
   else
     elem ← new_elem (mk_elem key data 0 0 1);
     head ← get_bucket key;
     if negb (head =? 0) then on_heap (CHAIN_LINKED_LIST head elem)
     else modify (λ s, set_buckets (upd (buckets s) (bucket_of key) elem) s)) ;;
  hm_release.

(** [delete_hashmap]: the two walks over a bucket, and the arguments of the
    calls of [kfree] in their order ([map] is the address of the structure,
    which starts with its bucket array). *)
Fixpoint to_last (n : nat) (cur_element : Z) : stM (gmap Z hashmap_elem) Z :=
  match n with
  | O => crashM Hang
  | S n' =>
      e ← load cur_element;
      if negb (e_next e =? 0) then to_last n' (e_next e) else mret cur_element
  end.

Fixpoint free_back (n : nat) (cur_element : Z) : stM (gmap Z hashmap_elem) (list Z) :=
  match n with
  | O => crashM Hang
  | S n' =>
      e ← load cur_element;
      if negb (e_prev e =? 0) then
        p ← load (e_prev e);
        rest ← free_back n' (e_prev e);
        mret (e_next p :: rest)
      else mret []
  end.

Fixpoint delete_buckets (bs : list Z) : hM (list Z) :=
  match bs with
  | [] => mret []
  | elements :: bs' =>
      s ← get;
      freed ← (if negb (elements =? 0) then
                 on_heap (cur_element ← to_last (S (size (heap s))) elements;
                          free_back (S (size (heap s))) cur_element)
               else mret []);
      rest ← delete_buckets bs';
      mret (freed ++ rest)
  end.

Definition delete_hashmap (map : Z) : hM (list Z) :=
  s ← get;
  freed ← delete_buckets (buckets s);
  mret (freed ++ [map; map]).

Definition init_hashmap : hashmap :=
  mk_hashmap (replicate (Z.to_nat HASHMAP_BUCKET_SIZE) 0) ∅ 1 0.
End table.

Arguments hashmap_elem : clear implicits.
Arguments hashmap : clear implicits.

(** ** The two maps *)

Definition get_bucket_from_hash (hash : Z) : Z := hash mod HASHMAP_BUCKET_SIZE.
Definition hashmap_get_elem (key : Z) : stM (hashmap Z) Z :=
  get_elem get_bucket_from_hash false key.
Definition hashmap_set_elem (key data : Z) : stM (hashmap Z) unit :=
  set_elem get_bucket_from_hash false key data.
Definition hashmap_remove_elem (key : Z) : stM (hashmap Z) unit :=
  remove_elem get_bucket_from_hash false key.

(** A string key is the characters of the string, without its terminator. *)
Definition get_hash_from_str (str : list Z) : Z :=
  fold_left (λ hash c, u64 (u64 (u64 (Z.shiftl hash 5) + hash) + schar c)) str 5381.
Definition str_bucket (key : list Z) : Z := get_hash_from_str key mod HASHMAP_BUCKET_SIZE.
Definition init_strhashmap : hashmap (list Z) := init_hashmap.
Definition strhashmap_get_elem_dat (key : list Z) : stM (hashmap (list Z)) Z :=
  get_elem_dat str_bucket key.
Definition strhashmap_unref_elem (elem : Z) : stM (hashmap (list Z)) unit :=
  unref_elem true elem.
Definition strhashmap_get_elem (key : list Z) : stM (hashmap (list Z)) Z :=
  get_elem str_bucket true key.
Definition strhashmap_set_elem (key : list Z) (data : Z) : stM (hashmap (list Z)) unit :=
  set_elem str_bucket true key data.
Definition strhashmap_remove_elem (key : list Z) : stM (hashmap (list Z)) unit :=
  remove_elem str_bucket true key.
