(* ===== verification/HashmapTheorems.v ===== *)
(** * The hash maps implement finite maps

    [hm_ok Ls s m]: the bucket [b] of [s] is the linked list [Ls b], no two
    elements of which have the same key, and together they hold the finite map
    [m].  The operations are shown to act on [m]. *)

From S2P Require Import Prelude Locks CString DList Hashmap.

Section rep.
Context {K : Type} `{Countable K} (bucket_of : K → Z) (frees : bool).
Hypothesis bucket_range : ∀ k, 0 ≤ bucket_of k < HASHMAP_BUCKET_SIZE.

Abbreviation table := (hashmap K).
Abbreviation theap := (gmap Z (hashmap_elem K)).
Implicit Types h : gmap Z (hashmap_elem K).
Implicit Types s : hashmap K.
Implicit Types m : gmap K Z.

(** A live element: key, data, and the one reference of the table itself. *)
Definition entry h (a : Z) (k : K) (d : Z) : Prop :=
  ∃ e, h !! a = Some e ∧ e_key e = k ∧ e_data e = d ∧ ref_count e = 1.

(** The list [l] is the bucket [b] of a table that holds [m]. *)
Record bucket_ok h (b : Z) (l : list Z) m : Prop := {
  b_seg : dseg h 0 l 0;
  b_nodup : NoDup l;
  b_elem a : a ∈ l → ∃ k d, entry h a k d ∧ bucket_of k = b;
  b_keys a a' k d d' : a ∈ l → a' ∈ l → entry h a k d → entry h a' k d' → a = a';
  b_map k d : bucket_of k = b → m !! k = Some d ↔ ∃ a, a ∈ l ∧ entry h a k d
}.

Record hm_ok (Ls : Z → list Z) s m : Prop := {
  o_len : zlen (buckets s) = HASHMAP_BUCKET_SIZE;
  o_head b : 0 ≤ b < HASHMAP_BUCKET_SIZE → idx (buckets s) b = Some (default 0 (head (Ls b)));
  o_bucket b : 0 ≤ b < HASHMAP_BUCKET_SIZE → bucket_ok (heap s) b (Ls b) m;
  o_brk a : is_Some (heap s !! a) → 0 < a < brk s;
  o_brk0 : 0 < brk s;
  o_lock : unlocked (hashmap_lock s)
}.

Definition hm_rep s m : Prop := ∃ Ls, hm_ok Ls s m.

(** ** Entries *)

Lemma entry_det h a k d k' d' : entry h a k d → entry h a k' d' → k = k' ∧ d = d'.
Proof. intros (e & ? & ? & ? & ?) (e' & ? & ? & ? & ?). by simplify_eq. Qed.

Lemma entry_payload h h' a k d : same_payload h h' → entry h a k d → entry h' a k d.
Proof.
  intros Hs (e & He & Hk & Hd & Hr). specialize (Hs a). rewrite He in Hs. simpl in Hs.
  destruct (h' !! a) as [e'|] eqn:He'; [|done]. simpl in Hs. exists e'.
  destruct e, e'; simplify_eq/=. done.
Qed.

Lemma same_payload_sym h h' : same_payload h h' → same_payload h' h.
Proof. intros Hs a. by rewrite Hs. Qed.

Lemma entry_frame h h' a k d : h' !! a = h !! a → entry h a k d → entry h' a k d.
Proof. intros Ha (e & He & ?). exists e. by rewrite Ha. Qed.

Lemma bucket_ok_frame h h' b l m m' :
  (∀ a, a ∈ l → h' !! a = h !! a) → (∀ k, bucket_of k = b → m' !! k = m !! k) →
  bucket_ok h b l m → bucket_ok h' b l m'.
Proof.
  intros Hf Hm [Hs Hn He Hk Hmap].
  assert (∀ a k d, a ∈ l → entry h' a k d ↔ entry h a k d) as Hen.
  { intros a k d Ha. split; apply entry_frame; [symmetry|]; auto. }
  split; [by eapply dseg_frame|done| | |].
  - intros a Ha. destruct (He a Ha) as (k & d & Hkd & ?). exists k, d. by rewrite Hen.
  - intros a a' k d d' Ha Ha'. rewrite !Hen by done. by apply Hk.
  - intros k d Hb. rewrite Hm, Hmap by done. apply exist_proper. intros a.
    split; intros [Ha E]; (split; [done|]); by apply Hen.
Qed.

Lemma o_map Ls s m k d : hm_ok Ls s m →
  m !! k = Some d ↔ ∃ a, a ∈ Ls (bucket_of k) ∧ entry (heap s) a k d.
Proof. intros Hok. by apply (o_bucket _ _ _ Hok _ (bucket_range k)). Qed.

(** A change of one bucket. *)
Lemma hm_replace Ls s m b0 l' h' bs' brk' lk' m' :
  hm_ok Ls s m → 0 ≤ b0 < HASHMAP_BUCKET_SIZE →
  bucket_ok h' b0 l' m' →
  (∀ b a, 0 ≤ b < HASHMAP_BUCKET_SIZE → b ≠ b0 → a ∈ Ls b → h' !! a = heap s !! a) →
  (∀ k, bucket_of k ≠ b0 → m' !! k = m !! k) →
  bs' = upd (buckets s) b0 (default 0 (head l')) →
  (∀ a, is_Some (h' !! a) → 0 < a < brk') → 0 < brk' → unlocked lk' →
  hm_ok (λ b, if decide (b = b0) then l' else Ls b) (mk_hashmap bs' h' brk' lk') m'.
Proof.
  intros Hok Hb0 Hl' Hf Hm' -> Hbrk Hbrk0 Hlk. pose proof (o_len _ _ _ Hok) as Hlen.
  split; simpl; [by rewrite zlen_upd| | |done..].
  - intros b Hb. case_decide as E; [subst; apply idx_upd_eq; lia|].
    rewrite idx_upd_ne by (lia || done). by apply Hok.
  - intros b Hb. case_decide as E; [by subst|]. eapply bucket_ok_frame; [| |by apply Hok].
    + intros a Ha. by eapply Hf.
    + intros k Hk. apply Hm'. congruence.
Qed.

(** Buckets are disjoint: an element's key says which one it is in. *)
Lemma bucket_disjoint Ls s m b b' a :
  hm_ok Ls s m → 0 ≤ b < HASHMAP_BUCKET_SIZE → 0 ≤ b' < HASHMAP_BUCKET_SIZE →
  a ∈ Ls b → a ∈ Ls b' → b = b'.
Proof.
  intros Hok Hb Hb' Ha Ha'.
  destruct (b_elem _ _ _ _ (o_bucket _ _ _ Hok _ Hb) _ Ha) as (k & d & E & <-).
  destruct (b_elem _ _ _ _ (o_bucket _ _ _ Hok _ Hb') _ Ha') as (k' & d' & E' & <-).
  by destruct (entry_det _ _ _ _ _ _ E E') as [-> _].
Qed.

Lemma other_bucket Ls s m b k a :
  hm_ok Ls s m → 0 ≤ b < HASHMAP_BUCKET_SIZE → b ≠ bucket_of k → a ∈ Ls b →
  a ∉ Ls (bucket_of k).
Proof.
  intros Hok Hb Hne Ha Ha'. apply Hne.
  exact (bucket_disjoint _ _ _ _ _ _ Hok Hb (bucket_range k) Ha Ha').
Qed.

Lemma listed_alloc Ls s m b a :
  hm_ok Ls s m → 0 ≤ b < HASHMAP_BUCKET_SIZE → a ∈ Ls b → is_Some (heap s !! a) ∧ a ≠ brk s.
Proof.
  intros Hok Hb Ha. assert (is_Some (heap s !! a)) as Hs.
  { eapply dseg_elem; [|exact Ha]. by apply (o_bucket _ _ _ Hok). }
  split; [done|]. apply (o_brk _ _ _ Hok) in Hs. lia.
Qed.

(** ** The search *)

Lemma bucket_length h b l m : bucket_ok h b l m → (length l ≤ size h)%nat.
Proof.
  intros Hb. rewrite <-size_dom, <-(size_list_to_set (C := gset Z)) by apply Hb.
  apply subseteq_size. intros a Ha. apply elem_of_list_to_set in Ha.
  apply elem_of_dom. eapply dseg_elem; [apply Hb|done].
Qed.

Lemma find_loop_hit k l1 : ∀ h p a l2 e n,
  dseg h p (l1 ++ a :: l2) 0 → (length l1 < n)%nat →
  (∀ b eb, b ∈ l1 → h !! b = Some eb → e_key eb ≠ k) →
  h !! a = Some e → e_key e = k → 0 ≤ ref_count e < 100 →
  find_loop n k (default 0 (head (l1 ++ a :: l2))) h =
    Ok (a, <[a := set_ref (ref_count e + 1) e]> h).
Proof.
  induction l1 as [|c l1 IH]; intros h p a l2 e n Hd Hn Hne He Hk Hr;
    (destruct n as [|n]; [simpl in Hn; lia|]); simpl.
  - destruct Hd as (Ha & _). rewrite (proj2 (Z.eqb_neq _ _) Ha). mrun (load_ok _ _ _ He).
    rewrite decide_True by done. unfold atomic_inc, u32. rewrite Z.mod_small by lia.
    rewrite (proj2 (Z.eqb_neq (ref_count e + 1) 0)) by lia. done.
  - destruct Hd as (Hc & (ec & Hec & _ & Hx) & Hd).
    rewrite (proj2 (Z.eqb_neq _ _) Hc). mrun (load_ok _ _ _ Hec).
    rewrite decide_False by (eapply Hne; [left|done]). mstep.
    change (e_next ec) with (next ec). rewrite Hx. eapply IH; [done|simpl in Hn; lia| |done..].
    intros b eb Hb. apply Hne. by right.
Qed.

Lemma find_loop_miss k l : ∀ h p n,
  dseg h p l 0 → (length l < n)%nat →
  (∀ b eb, b ∈ l → h !! b = Some eb → e_key eb ≠ k) →
  find_loop n k (default 0 (head l)) h = Ok (0, h).
Proof.
  induction l as [|c l IH]; intros h p n Hd Hn Hne; (destruct n as [|n]; [simpl in Hn; lia|]);
    simpl; [done|].
  destruct Hd as (Hc & (ec & Hec & _ & Hx) & Hd).
  rewrite (proj2 (Z.eqb_neq _ _) Hc). mrun (load_ok _ _ _ Hec).
  rewrite decide_False by (eapply Hne; [left|done]). mstep.
  change (e_next ec) with (next ec). rewrite Hx. eapply IH; [done|simpl in Hn; lia|].
  intros b eb Hb. apply Hne. by right.
Qed.

Lemma on_heap_ok {A} (f : stM (gmap Z (hashmap_elem K)) A) s a h' :
  f (heap s) = Ok (a, h') → on_heap f s = Ok (a, set_heap h' s).
Proof. intros Hf. unfold on_heap. by rewrite (zoom_ok _ _ _ _ _ _ Hf). Qed.

Lemma get_elem_dat_run s k l a h' :
  unlocked (hashmap_lock s) → idx (buckets s) (bucket_of k) = Some (default 0 (head l)) →
  find_loop (S (size (heap s))) k (default 0 (head l)) (heap s) = Ok (a, h') →
  get_elem_dat bucket_of k s = Ok (a, set_heap h' s).
Proof.
  intros Hl Hb Hf. unfold get_elem_dat, hm_acquire.
  erewrite bind_ok; [|mstep; by rewrite (spinlock_lock_free _ Hl)]. cbv beta.
  unfold get_bucket. erewrite bind_ok; [|mstep; simpl; by rewrite Hb]. cbv beta. mstep.
  erewrite bind_ok; [|by apply on_heap_ok]. cbv beta.
  unfold hm_release. mstep. unfold mret, stM_ret, set_hlock, set_heap. simpl.
  by rewrite (lock_unlock _ Hl).
Qed.

Lemma bucket_split h b l m k a d :
  bucket_ok h b l m → a ∈ l → entry h a k d →
  ∃ l1 l2, l = l1 ++ a :: l2 ∧ ∀ c ec, c ∈ l1 → h !! c = Some ec → e_key ec ≠ k.
Proof.
  intros Hb Ha Hk. apply list_elem_of_split in Ha as (l1 & l2 & ->). exists l1, l2. split; [done|].
  intros c ec Hc Hec Hck. pose proof (b_nodup _ _ _ _ Hb) as Hnd.
  destruct (b_elem _ _ _ _ Hb c) as (k' & d' & E & _); [set_solver|].
  assert (k' = k) as -> by (destruct E as (e & ? & ? & _); by simplify_eq).
  assert (c = a) as -> by (eapply (b_keys _ _ _ _ Hb); [| |exact E|exact Hk]; set_solver).
  apply NoDup_app in Hnd as (_ & Hx & _). eapply Hx; [exact Hc|left].
Qed.

Lemma get_elem_dat_hit Ls s m k d a e :
  hm_ok Ls s m → a ∈ Ls (bucket_of k) → entry (heap s) a k d → heap s !! a = Some e →
  get_elem_dat bucket_of k s = Ok (a, set_heap (<[a := set_ref 2 e]> (heap s)) s).
Proof.
  intros Hok Ha Hk He. pose proof (o_bucket _ _ _ Hok _ (bucket_range k)) as Hb.
  destruct (bucket_split _ _ _ _ _ _ _ Hb Ha Hk) as (l1 & l2 & El & Hne).
  eapply (get_elem_dat_run _ _ (Ls (bucket_of k)));
    [apply Hok|apply Hok, bucket_range|].
  pose proof (bucket_length _ _ _ _ Hb) as Hlen. pose proof (b_seg _ _ _ _ Hb) as Hseg.
  rewrite El in Hseg, Hlen |- *. rewrite length_app in Hlen. simpl in Hlen.
  destruct Hk as (e' & He' & Hke & _ & Hr). assert (e' = e) as -> by congruence.
  rewrite (find_loop_hit k l1 (heap s) 0 a l2 e); [by rewrite Hr|done|lia|done..|lia].
Qed.

Lemma get_elem_dat_miss Ls s m k :
  hm_ok Ls s m → m !! k = None → get_elem_dat bucket_of k s = Ok (0, s).
Proof.
  intros Hok Hm. pose proof (o_bucket _ _ _ Hok _ (bucket_range k)) as Hb.
  erewrite (get_elem_dat_run _ _ (Ls (bucket_of k)) 0 (heap s));
    [by destruct s|apply Hok|apply Hok, bucket_range|].
  pose proof (bucket_length _ _ _ _ Hb) as Hlen.
  apply (find_loop_miss _ _ _ 0); [apply Hb|lia|].
  intros b eb Hbl Heb Hk. destruct (b_elem _ _ _ _ Hb _ Hbl) as (k' & d & E & _).
  assert (k' = k) as -> by (destruct E as (e & ? & ? & _); by simplify_eq).
  assert (m !! k = Some d) by (apply (o_map _ _ _ _ _ Hok); eauto). congruence.
Qed.

(** ** Lookup *)

Lemma unref_live a e s :
  heap s !! a = Some e → ref_count e = 2 →
  unref_elem frees a s = Ok (tt, set_heap (<[a := set_ref 1 e]> (heap s)) s).
Proof.
  intros He Hr. unfold unref_elem.
  erewrite bind_ok; [|apply on_heap_ok, load_ok, He]. cbv beta.
  unfold atomic_dec. rewrite Hr. change (u32 (2 - 1)) with 1. simpl. reflexivity.
Qed.

Lemma insert_ref_id h a k d e :
  entry h a k d → h !! a = Some e → <[a := set_ref 1 e]> h = h.
Proof.
  intros (e' & He' & _ & _ & Hr) He. assert (e' = e) as -> by congruence.
  apply insert_id. rewrite He. destruct e; simpl in *. by subst.
Qed.

Lemma get_elem_ok Ls s m k :
  hm_ok Ls s m → get_elem bucket_of frees k s = Ok (default 0 (m !! k), s).
Proof.
  intros Hok. unfold get_elem. destruct (m !! k) as [d|] eqn:Hm; simpl.
  - apply (o_map _ _ _ _ _ Hok) in Hm as (a & Ha & Hk). pose proof Hk as (e & He & _ & Hd & _).
    mrun (get_elem_dat_hit _ _ _ _ _ _ _ Hok Ha Hk He).
    assert (0 < a) by (apply (o_brk _ _ _ Hok); eauto).
    rewrite (proj2 (Z.eqb_neq a 0)) by lia. simpl.
    erewrite bind_ok; [|apply on_heap_ok, load_ok, lookup_insert_eq]. cbv beta.
    erewrite bind_ok; [|apply unref_live; [apply lookup_insert_eq|done]]. cbv beta.
    unfold set_heap. simpl. rewrite insert_insert_eq, <-Hd.
    change (set_ref 1 (set_ref 2 e)) with (set_ref 1 e).
    rewrite (insert_ref_id _ _ _ _ _ Hk He). by destruct s.
  - mrun (get_elem_dat_miss _ _ _ _ Hok Hm). done.
Qed.

(** ** Update *)

Lemma bucket_set_data h l m k d d0 a e :
  bucket_ok h (bucket_of k) l m → a ∈ l → entry h a k d0 → h !! a = Some e →
  bucket_ok (<[a := set_data d e]> h) (bucket_of k) l (<[k := d]> m).
Proof.
  intros [Hs Hn Hel Hks Hmap] Ha Hk He. set (h' := <[a := set_data d e]> h).
  pose proof Hk as (e' & He' & Hke & Hde & Hre). assert (e' = e) as -> by congruence.
  assert (entry h' a k d) as Hk' by (exists (set_data d e); split; [apply lookup_insert_eq|done]).
  assert (∀ b, b ≠ a → h' !! b = h !! b) as F by (intros; by apply lookup_insert_ne).
  assert (∀ b k' d', b ≠ a → entry h' b k' d' ↔ entry h b k' d') as G.
  { intros. split; apply entry_frame; [symmetry|]; by apply F. }
  split; [|done| | |].
  - eapply dseg_links; [|done]. intros c ec Hc Hec. destruct (decide (c = a)) as [->|].
    + exists (set_data d e). split; [apply lookup_insert_eq|]. by simplify_eq.
    + exists ec. by rewrite F.
  - intros c Hc. destruct (decide (c = a)) as [->|]; [by eauto|].
    destruct (Hel c Hc) as (k' & d' & E & ?). exists k', d'. by rewrite G.
  - assert (∀ x k' dx, entry h' x k' dx → ∃ dy, entry h x k' dy) as G'.
    { intros x k' dx Ex. destruct (decide (x = a)) as [->|Hx]; [|apply G in Ex; eauto].
      destruct (entry_det _ _ _ _ _ _ Ex Hk') as [-> _]. eauto. }
    intros c c' k' dc dc' Hc Hc' E E'. destruct (G' _ _ _ E), (G' _ _ _ E').
    by eapply (Hks c c').
  - intros k' d' Hb. destruct (decide (k' = k)) as [->|Hne].
    + rewrite lookup_insert_eq. split; [intros [= ->]; eauto|]. intros (c & Hc & E).
      destruct (decide (c = a)) as [->|Hca]; [by destruct (entry_det _ _ _ _ _ _ E Hk') as [_ ->]|].
      apply G in E; [|done]. by destruct (Hca (Hks _ _ _ _ _ Hc Ha E Hk)).
    + rewrite lookup_insert_ne, Hmap by done. apply exist_proper. intros c.
      destruct (decide (c = a)) as [->|Hca]; [|by rewrite G].
      split; intros [_ E]; exfalso; apply Hne;
        [by apply (entry_det _ _ _ _ _ _ E Hk)|by apply (entry_det _ _ _ _ _ _ E Hk')].
Qed.

(** A new element [n] of key [k] anywhere in the list. *)
Lemma bucket_insert h h' l l' m k d n :
  bucket_ok h (bucket_of k) l m → m !! k = None →
  dseg h' 0 l' 0 → NoDup l' → (∀ a, a ∈ l' ↔ a = n ∨ a ∈ l) →
  (∀ a k' d', a ∈ l → entry h' a k' d' ↔ entry h a k' d') → entry h' n k d →
  bucket_ok h' (bucket_of k) l' (<[k := d]> m).
Proof.
  intros [Hs Hn Hel Hks Hmap] Hm Hd Hnd Hl' G Hk.
  assert (∀ a d', a ∈ l → ¬ entry h' a k d') as Hno.
  { intros a d' Ha E. apply G in E; [|done].
    assert (m !! k = Some d') by (apply Hmap; eauto). congruence. }
  split; [done..| | |].
  - intros a [->|Ha]%Hl'; [by eauto|]. destruct (Hel a Ha) as (k' & d' & E & ?).
    exists k', d'. by rewrite G.
  - intros a a' k' d1 d2 [->|Ha]%Hl' [->|Ha']%Hl' E E'; [done| | |].
    + destruct (entry_det _ _ _ _ _ _ E Hk) as [-> _]. by destruct (Hno a' d2).
    + destruct (entry_det _ _ _ _ _ _ E' Hk) as [-> _]. by destruct (Hno a d1).
    + apply G in E, E'; [|done..]. by eapply Hks.
  - intros k' d' Hb. destruct (decide (k' = k)) as [->|Hne].
    + rewrite lookup_insert_eq. split; [intros [= ->]; exists n; split; [by apply Hl'; left|done]|].
      intros (a & [->|Ha]%Hl' & E); [by destruct (entry_det _ _ _ _ _ _ E Hk) as [_ ->]|].
      by destruct (Hno _ _ Ha E).
    + rewrite lookup_insert_ne, Hmap by done. apply exist_proper. intros a. rewrite Hl'.
      split; [intros [Ha E]; split; [by right|by apply G]|].
      intros [[->|Ha] E]; [|split; [done|by apply G]].
      by destruct (entry_det _ _ _ _ _ _ E Hk) as [-> _].
Qed.

(** The element of key [k] goes. *)
Lemma bucket_delete h h' l l' m k d a :
  bucket_ok h (bucket_of k) l m → a ∈ l → entry h a k d →
  dseg h' 0 l' 0 → NoDup l' → (∀ b, b ∈ l' ↔ b ≠ a ∧ b ∈ l) →
  (∀ b k' d', b ∈ l' → entry h' b k' d' ↔ entry h b k' d') →
  bucket_ok h' (bucket_of k) l' (delete k m).
Proof.
  intros [Hs Hn Hel Hks Hmap] Ha Hk Hd Hnd Hl' G. split; [done..| | |].
  - intros b Hb. destruct (Hel b) as (k' & d' & E & ?); [by apply Hl'|]. exists k', d'. by rewrite G.
  - intros b b' k' d1 d2 Hb Hb' E E'. apply G in E, E'; [|done..].
    by eapply (Hks b b'); [apply Hl'|apply Hl'|..].
  - intros k' d' Hbk. destruct (decide (k' = k)) as [->|Hne].
    + rewrite lookup_delete_eq. split; [done|]. intros (b & Hb & E). apply G in E; [|done].
      apply Hl' in Hb as [Hba Hb]. by destruct (Hba (Hks _ _ _ _ _ Hb Ha E Hk)).
    + rewrite lookup_delete_ne, Hmap by done. apply exist_proper. intros b. split; intros [Hb E].
      * assert (b ∈ l') as Hb'; [|split; [done|by apply G]]. apply Hl'. split; [|done].
        intros ->. by destruct (entry_det _ _ _ _ _ _ E Hk) as [-> _].
      * pose proof (proj1 (Hl' b) Hb) as [_ ?]. split; [done|by apply G].
Qed.

Lemma hm_acquire_ok s :
  unlocked (hashmap_lock s) → hm_acquire s = Ok (tt, set_hlock (Z.lor (hashmap_lock s) 1) s).
Proof. intros Hl. unfold hm_acquire. mstep. by rewrite (spinlock_lock_free _ Hl). Qed.

Lemma upd_head Ls s m b : hm_ok Ls s m → 0 ≤ b < HASHMAP_BUCKET_SIZE →
  upd (buckets s) b (default 0 (head (Ls b))) = buckets s.
Proof.
  intros Hok Hb. pose proof (idx_Some _ _ _ (o_head _ _ _ Hok _ Hb)) as [_ Hi].
  unfold upd. by apply list_insert_id.
Qed.

Lemma set_elem_old Ls s m k d d0 :
  hm_ok Ls s m → m !! k = Some d0 →
  ∃ s', set_elem bucket_of frees k d s = Ok (tt, s') ∧ hm_rep s' (<[k := d]> m).
Proof.
  intros Hok Hm. apply (o_map _ _ _ _ _ Hok) in Hm as (a & Ha & Hk).
  pose proof Hk as (e & He & _ & _ & Hr). unfold set_elem.
  mrun (get_elem_dat_hit _ _ _ _ _ _ _ Hok Ha Hk He).
  assert (0 < a) by (apply (o_brk _ _ _ Hok); eauto).
  erewrite bind_ok; [|by apply hm_acquire_ok, Hok]. cbv beta.
  rewrite (proj2 (Z.eqb_neq a 0)) by lia. simpl.
  erewrite bind_ok; [|
    erewrite bind_ok; [|apply on_heap_ok, load_ok, lookup_insert_eq]; cbv beta;
    mstep; apply unref_live; [apply lookup_insert_eq|done]]. cbv beta.
  unfold hm_release, modify, set_heap, set_hlock. simpl. rewrite !insert_insert_eq, (lock_unlock _ (o_lock _ _ _ Hok)).
  eexists. split; [reflexivity|]. eexists.
  apply (hm_replace Ls s m (bucket_of k) (Ls (bucket_of k)));
    [done|apply bucket_range| | | |by rewrite (upd_head _ _ _ _ Hok)| |apply (o_brk0 _ _ _ Hok)|apply Hok].
  - change (set_ref 1 (set_data d (set_ref 2 e))) with (set_data d (set_ref 1 e)).
    assert (set_ref 1 e = e) as -> by (destruct e; simpl in *; by subst).
    by eapply bucket_set_data; [apply Hok, bucket_range|..].
  - intros b c Hb Hne Hc. apply lookup_insert_ne. intros <-.
    by apply (other_bucket _ _ _ _ _ _ Hok Hb Hne Hc).
  - intros k' Hk'. apply lookup_insert_ne. congruence.
  - intros b Hb. apply (o_brk _ _ _ Hok). destruct (decide (b = a)) as [->|]; [eauto|].
    by rewrite lookup_insert_ne in Hb.
Qed.

(** A bucket [l'] of a heap [h'] that has the new element. *)
Lemma hm_insert Ls s m k d l' h' bs' :
  hm_ok Ls s m → m !! k = None →
  let h1 := <[brk s := mk_elem k d 0 0 1]> (heap s) in
  same_payload h1 h' → (∀ a, a ∉ l' → h' !! a = h1 !! a) →
  dseg h' 0 l' 0 → NoDup l' → (∀ a, a ∈ l' ↔ a = brk s ∨ a ∈ Ls (bucket_of k)) →
  bs' = upd (buckets s) (bucket_of k) (default 0 (head l')) →
  hm_rep (mk_hashmap bs' h' (brk s + 1) (hashmap_lock s)) (<[k := d]> m).
Proof.
  intros Hok Hm h1 Hpay Hf Hd Hnd Hl' Hbs. pose proof (o_brk0 _ _ _ Hok) as Hn0.
  assert (∀ a k' d', a ≠ brk s → entry h' a k' d' ↔ entry (heap s) a k' d') as G.
  { intros a k' d' Ha. assert (h1 !! a = heap s !! a) as E by by apply lookup_insert_ne.
    split; intros Hk.
    - eapply entry_frame; [symmetry; exact E|]. by eapply entry_payload, Hk; apply same_payload_sym.
    - eapply entry_payload; [exact Hpay|]. by eapply entry_frame. }
  eexists. eapply (hm_replace Ls s m (bucket_of k) l'); [done|apply bucket_range| | | |done| |lia|apply Hok].
  - eapply (bucket_insert (heap s) h' (Ls (bucket_of k))); [apply Hok, bucket_range|done..| |].
    + intros a k' d' Ha. apply G. eapply listed_alloc; [done|apply bucket_range|done].
    + eapply entry_payload; [exact Hpay|]. eexists. split; [apply lookup_insert_eq|done].
  - intros b a Hbr Hne Ha. destruct (listed_alloc _ _ _ _ _ Hok Hbr Ha) as [_ ?].
    rewrite Hf; [by apply lookup_insert_ne|]. rewrite Hl'. intros [?|?]; [done|].
    by apply (other_bucket _ _ _ _ _ _ Hok Hbr Hne Ha).
  - intros k' Hk'. apply lookup_insert_ne. congruence.
  - intros a Ha. assert (is_Some (h1 !! a)) as [Ea|[_ Ea]]%lookup_insert_is_Some; [|lia|].
    + specialize (Hpay a). destruct Ha as [e' He']. rewrite He' in Hpay. simpl in Hpay.
      destruct (h1 !! a); [eauto|done].
    + apply (o_brk _ _ _ Hok) in Ea. lia.
Qed.

Lemma set_elem_new Ls s m k d :
  hm_ok Ls s m → m !! k = None →
  ∃ s', set_elem bucket_of frees k d s = Ok (tt, s') ∧ hm_rep s' (<[k := d]> m).
Proof.
  intros Hok Hm. unfold set_elem. mrun (get_elem_dat_miss _ _ _ _ Hok Hm).
  erewrite bind_ok; [|by apply hm_acquire_ok, Hok]. cbv beta. simpl.
  set (h1 := <[brk s := mk_elem k d 0 0 1]> (heap s)).
  destruct (o_bucket _ _ _ Hok _ (bucket_range k)) as [Hseg Hnd _ _ _].
  pose proof (o_head _ _ _ Hok _ (bucket_range k)) as Hhd.
  assert (brk s ∉ Ls (bucket_of k)) as Hnl.
  { intros Hin. by destruct (listed_alloc _ _ _ _ _ Hok (bucket_range k) Hin). }
  assert (dseg h1 0 (Ls (bucket_of k)) 0) as Hseg1.
  { eapply dseg_frame; [|done]. intros a Ha. apply lookup_insert_ne. by intros <-. }
  pose proof (o_brk0 _ _ _ Hok) as Hn0. pose proof (hm_insert Ls s m k d) as Hfin.
  unfold get_bucket, hm_release. destruct (Ls (bucket_of k)) as [|a l] eqn:El; simpl in Hhd.
  - erewrite bind_ok; [|mstep; erewrite bind_ok; [|mstep; simpl; by rewrite Hhd]; cbv beta;
      simpl; reflexivity]. cbv beta. unfold modify. simpl.
    eexists. split; [reflexivity|]. unfold set_hlock, set_buckets. simpl.
    rewrite (lock_unlock _ (o_lock _ _ _ Hok)). fold h1.
    apply (Hfin [brk s]); [done..| | | |by intros a; set_solver|done].
    + done.
    + split; [lia|]. split; [|done]. eexists. split; [apply lookup_insert_eq|done].
    + apply NoDup_singleton.
  - destruct (chain_ok h1 [] a l (brk s) _ Hnd Hseg1 Hnl ltac:(lia) (lookup_insert_eq _ _ _))
      as (h2 & Ec & Hd2 & Hp2 & Hf2).
    assert (a ≠ 0) as Ha0 by apply Hseg.
    erewrite bind_ok; [|mstep; erewrite bind_ok; [|mstep; simpl; by rewrite Hhd]; cbv beta;
      rewrite (proj2 (Z.eqb_neq a 0)) by done; simpl; apply on_heap_ok; exact Ec].
    cbv beta. unfold modify. simpl. eexists. split; [reflexivity|].
    unfold set_hlock, set_heap. simpl. rewrite (lock_unlock _ (o_lock _ _ _ Hok)).
    apply (Hfin (a :: brk s :: l)); [done..| |by intros b; set_solver|].
    + apply NoDup_cons in Hnd as [? ?]. apply NoDup_cons. split; [set_solver|].
      apply NoDup_cons. split; [set_solver|done].
    + simpl. symmetry. pose proof (upd_head _ _ _ _ Hok (bucket_range k)) as Hu. by rewrite El in Hu.
Qed.

Lemma set_elem_ok s m k d :
  hm_rep s m →
  ∃ s', set_elem bucket_of frees k d s = Ok (tt, s') ∧ hm_rep s' (<[k := d]> m).
Proof.
  intros [Ls Hok]. destruct (m !! k) eqn:Hm; eauto using set_elem_old, set_elem_new.
Qed.

(** ** Removal *)

(** The second [unref] of a removal: the element leaves its list. *)
Lemma unref_last s l1 a l2 e :
  let l := l1 ++ a :: l2 in
  NoDup l → dseg (heap s) 0 l 0 → heap s !! a = Some e → ref_count e = 1 →
  ∃ h', unref_elem frees a s = Ok (tt, set_heap h' s)
    ∧ dseg h' 0 (l1 ++ l2) 0
    ∧ h' !! a = (if frees then None else Some (set_ref 0 e))
    ∧ (∀ b k d, b ≠ a → entry h' b k d ↔ entry (heap s) b k d)
    ∧ (∀ b, b ∉ l → h' !! b = heap s !! b)
    ∧ (∀ b, is_Some (h' !! b) → is_Some (heap s !! b)).
Proof.
  intros l Hnd Hd He Hr. set (h1 := <[a := set_ref 0 e]> (heap s)).
  assert (h1 !! a = Some (set_ref 0 e)) as Ha1 by apply lookup_insert_eq.
  assert (dseg h1 0 l 0) as Hd1.
  { eapply dseg_links; [|exact Hd]. intros b eb _ Hb. destruct (decide (b = a)) as [->|].
    - exists (set_ref 0 e). split; [done|]. by simplify_eq.
    - exists eb. unfold h1. by rewrite lookup_insert_ne. }
  destruct (unchain_ok h1 l1 a l2 Hnd Hd1) as (h2 & Eu & Hd2 & Hp2 & Hf2).
  assert (a ∉ l1 ++ l2) as Hal.
  { apply NoDup_app in Hnd as (_ & Hx & [Hn _]%NoDup_cons). intros [Hl|Hl]%elem_of_app; [|done].
    by apply (Hx a Hl); left. }
  assert (∀ b k d, b ≠ a → entry h2 b k d ↔ entry (heap s) b k d) as G.
  { intros b k d Hb. assert (h1 !! b = heap s !! b) as E by by apply lookup_insert_ne.
    split; intros Hk.
    - eapply entry_frame; [symmetry; exact E|]. by eapply entry_payload, Hk; apply same_payload_sym.
    - eapply entry_payload; [exact Hp2|]. by eapply entry_frame. }
  assert (∀ b, is_Some (h2 !! b) → is_Some (heap s !! b)) as Hdom.
  { intros b [eb Eb]. specialize (Hp2 b). rewrite Eb in Hp2. destruct (decide (b = a)) as [->|]; [eauto|].
    unfold h1 in Hp2. rewrite lookup_insert_ne in Hp2 by done. destruct (heap s !! b); [eauto|done]. }
  assert (∀ b, b ∉ l → h2 !! b = heap s !! b) as Hfr.
  { intros b Hb. rewrite Hf2 by set_solver. apply lookup_insert_ne. set_solver. }
  assert (unref_elem frees a s =
            Ok (tt, set_heap (if frees then delete a h2 else h2) s)) as Eq.
  { unfold unref_elem. erewrite bind_ok; [|apply on_heap_ok, load_ok, He]. cbv beta.
    unfold atomic_dec. rewrite Hr. change (u32 (1 - 1)) with 0. simpl.
    erewrite bind_ok; [|by apply on_heap_ok]. cbv beta. simpl. fold h1.
    erewrite bind_ok; [|apply on_heap_ok; simpl; exact Eu]. cbv beta. by destruct frees. }
  exists (if frees then delete a h2 else h2). split; [exact Eq|]. destruct frees; split_and!.
  - eapply dseg_frame; [|exact Hd2]. intros b Hb. apply lookup_delete_ne. set_solver.
  - apply lookup_delete_eq.
  - intros b k d Hb. rewrite <-G by done. split; apply entry_frame; [symmetry|];
      by apply lookup_delete_ne.
  - intros b Hb. rewrite lookup_delete_ne by set_solver. by apply Hfr.
  - intros b [_ Hb]%lookup_delete_is_Some. by apply Hdom.
  - done.
  - by rewrite Hf2.
  - done.
  - done.
  - done.
Qed.

(** The calls of a removal of a key that is there. *)
Lemma remove_elem_run Ls s m k d a :
  hm_ok Ls s m → a ∈ Ls (bucket_of k) → entry (heap s) a k d →
  remove_elem bucket_of frees k s = unref_elem frees a s.
Proof.
  intros Hok Ha Hk. pose proof Hk as (e & He & _ & _ & Hr). unfold remove_elem.
  mrun (get_elem_dat_hit _ _ _ _ _ _ _ Hok Ha Hk He).
  assert (0 < a) by (apply (o_brk _ _ _ Hok); eauto).
  rewrite (proj2 (Z.eqb_neq a 0)) by lia. simpl.
  erewrite bind_ok; [|apply unref_live; [apply lookup_insert_eq|done]]. cbv beta.
  unfold set_heap. simpl. rewrite insert_insert_eq.
  change (set_ref 1 (set_ref 2 e)) with (set_ref 1 e).
  rewrite (insert_ref_id _ _ _ _ _ Hk He). by destruct s.
Qed.

(** The element of [k] is the first of its bucket. *)
Definition at_head s k : Prop :=
  ∃ a e, idx (buckets s) (bucket_of k) = Some a ∧ heap s !! a = Some e ∧ e_key e = k.

Lemma remove_elem_ok s m k :
  hm_rep s m → ¬ at_head s k →
  ∃ s', remove_elem bucket_of frees k s = Ok (tt, s') ∧ hm_rep s' (delete k m).
Proof.
  intros [Ls Hok] Hh. destruct (m !! k) as [d|] eqn:Hm.
  - apply (o_map _ _ _ _ _ Hok) in Hm as (a & Ha & Hk). pose proof Hk as (e & He & Hek & _ & Hr).
    rewrite (remove_elem_run _ _ _ _ _ _ Hok Ha Hk).
    pose proof (o_bucket _ _ _ Hok _ (bucket_range k)) as Hb.
    pose proof (o_head _ _ _ Hok _ (bucket_range k)) as Hhd.
    destruct (list_elem_of_split _ _ Ha) as (l1 & l2 & El).
    pose proof (b_nodup _ _ _ _ Hb) as Hnd. pose proof (b_seg _ _ _ _ Hb) as Hs.
    rewrite El in Hnd, Hs.
    destruct (unref_last s l1 a l2 e Hnd Hs He Hr) as (h' & Eu & Hd' & _ & G & Hf & Hdom).
    exists (set_heap h' s). split; [exact Eu|]. eexists.
    apply (hm_replace Ls s m (bucket_of k) (l1 ++ l2));
      [done|apply bucket_range| | | | | |apply (o_brk0 _ _ _ Hok)|apply Hok].
    + pose proof Hnd as (N1 & N2 & [N3 N4]%NoDup_cons)%NoDup_app.
      eapply (bucket_delete (heap s) h' (Ls (bucket_of k))); [done..| | |].
      * apply NoDup_app. split_and!; [done| |done]. intros b Hb1 Hb2. by apply (N2 b Hb1); right.
      * intros b. rewrite El, !elem_of_app, elem_of_cons. split; [|naive_solver].
        intros Hbl. assert (b ≠ a); [|tauto]. intros ->. destruct Hbl as [Hb1|Hb2]; [|done].
        by apply (N2 a Hb1); left.
      * intros b k' d' Hbl. apply G. intros ->. apply elem_of_app in Hbl as [Hb1|Hb2]; [|done].
        by apply (N2 a Hb1); left.
    + intros b c Hbr Hne Hc. apply Hf. rewrite <-El. by eapply other_bucket.
    + intros k' Hk'. apply lookup_delete_ne. congruence.
    + simpl. destruct l1 as [|c l1].
      * destruct Hh. exists a, e. rewrite Hhd, El. done.
      * rewrite <-(upd_head _ _ _ _ Hok (bucket_range k)) at 1. by rewrite El.
    + intros b Hb'. by apply (o_brk _ _ _ Hok), Hdom.
  - unfold remove_elem. mrun (get_elem_dat_miss _ _ _ _ Hok Hm). simpl.
    exists s. split; [done|]. rewrite delete_id by done. by exists Ls.
Qed.

Lemma remove_head_run s m k d :
  hm_rep s m → m !! k = Some d → at_head s k →
  ∃ s', remove_elem bucket_of frees k s = Ok (tt, s') ∧
    if frees then get_elem bucket_of frees k s' = Crash Fault
    else ∃ s'', get_elem bucket_of frees k s' = Ok (d, s'').
Proof.
  intros [Ls Hok] Hm (a & e & Hhd & He & Hek).
  rewrite (o_head _ _ _ Hok _ (bucket_range k)) in Hhd.
  destruct (o_bucket _ _ _ Hok _ (bucket_range k)) as [Hs Hnd Hel _ _].
  assert (0 < a) as Ha0 by (apply (o_brk _ _ _ Hok); eauto).
  destruct (Ls (bucket_of k)) as [|a' l2] eqn:El; simpl in Hhd; [injection Hhd; lia|]. injection Hhd as ->. subst k.
  destruct (Hel a) as (k' & d' & Hk & _); [left|].
  assert (k' = e_key e ∧ ref_count e = 1 ∧ d' = e_data e) as (-> & Hr & ->)
    by (destruct Hk as (e' & ? & ? & ? & ?); by simplify_eq).
  assert (d = e_data e) as ->.
  { assert (m !! e_key e = Some (e_data e)); [|congruence]. apply (o_map _ _ _ _ _ Hok).
    exists a. split; [rewrite El; left|done]. }
  rewrite (remove_elem_run Ls s m _ (e_data e) a Hok); [|rewrite El; left|done].
  destruct (unref_last s [] a l2 e Hnd Hs He Hr) as (h' & Eu & Hd' & Ha' & _ & _ & _).
  exists (set_heap h' s). split; [exact Eu|].
  assert (∀ r h'', find_loop (S (size h')) (e_key e) a h' = Ok (r, h'') →
    get_elem_dat bucket_of (e_key e) (set_heap h' s) = Ok (r, set_heap h'' (set_heap h' s))) as Hrun.
  { intros r h'' Hf. eapply (get_elem_dat_run (set_heap h' s) _ [a]); [apply Hok| |exact Hf].
    simpl. rewrite (o_head _ _ _ Hok _ (bucket_range _)). by rewrite El. }
  unfold get_elem. destruct frees.
  - apply bind_crash. unfold get_elem_dat. erewrite bind_ok; [|apply hm_acquire_ok; apply Hok].
    cbv beta. unfold get_bucket. erewrite bind_ok;
      [|mstep; simpl; by rewrite (o_head _ _ _ Hok _ (bucket_range _)), El]. cbv beta. mstep.
    apply bind_crash. unfold on_heap, zoom. simpl. rewrite (proj2 (Z.eqb_neq a 0)) by lia.
    rewrite (bind_crash _ _ _ Fault); [done|]. unfold load. mstep. by rewrite Ha'.
  - erewrite bind_ok; [|apply Hrun; simpl; rewrite (proj2 (Z.eqb_neq a 0)) by lia;
      erewrite bind_ok; [|by apply load_ok]; cbv beta; rewrite decide_True by done; reflexivity].
    cbv beta. rewrite (proj2 (Z.eqb_neq a 0)) by lia. simpl.
    erewrite bind_ok; [|apply on_heap_ok, load_ok, lookup_insert_eq]. cbv beta.
    set (e1 := set_ref (u32 1) (set_ref 0 e)). set (s2 := set_heap (<[a := e1]> h') (set_heap h' s)).
    assert (∃ s'', unref_elem false a s2 = Ok (tt, s'')) as [s'' E''];
      [|exists s''; by rewrite (bind_ok _ _ _ _ _ E'')].
    destruct Hs as (_ & (e' & He' & Hp & Hx) & Hs). assert (e' = e) as -> by congruence.
    eexists. unfold unref_elem. erewrite bind_ok; [|apply on_heap_ok, load_ok, lookup_insert_eq].
    cbv beta. change (atomic_dec (ref_count e1)) with (0, 0). cbv iota. mstep. simpl.
    erewrite bind_ok; [reflexivity|]. apply on_heap_ok. unfold s2. simpl. rewrite !insert_insert_eq.
    unfold UNCHAIN_LINKED_LIST.
    erewrite bind_ok; [|apply load_ok, lookup_insert_eq]. cbv beta. simpl in Hp |- *. rewrite Hp.
    simpl. mstep. erewrite bind_ok; [|apply load_ok, lookup_insert_eq]. cbv beta. simpl.
    simpl in Hx. rewrite Hx. apply link_ok. destruct (head_ok _ _ _ Hd') as [|[en Hen]]; [by left|right].
    simpl in Hen. apply lookup_insert_is_Some'. by right; exists en.
Qed.

(** ** Sequences of operations *)

Inductive hm_op : Type :=
| OpGet (k : K)
| OpSet (k : K) (d : Z).

(** The results of the lookups, in their order. *)
Fixpoint hm_run (ops : list hm_op) : stM table (list Z) :=
  match ops with
  | [] => mret []
  | OpGet k :: ops' => d ← get_elem bucket_of frees k; r ← hm_run ops'; mret (d :: r)
  | OpSet k d :: ops' => set_elem bucket_of frees k d ;; hm_run ops'
  end.

Fixpoint map_run (ops : list hm_op) (m : gmap K Z) : list Z :=
  match ops with
  | [] => []
  | OpGet k :: ops' => default 0 (m !! k) :: map_run ops' m
  | OpSet k d :: ops' => map_run ops' (<[k := d]> m)
  end.

Lemma hm_run_ok ops : ∀ s m,
  hm_rep s m → ∃ s', hm_run ops s = Ok (map_run ops m, s').
Proof.
  induction ops as [|[k|k d] ops IH]; intros s m Hr; simpl; [by exists s| |].
  - destruct Hr as [Ls Hok]. mrun (get_elem_ok _ _ _ k Hok).
    destruct (IH s m) as [s' E]; [by exists Ls|]. exists s'. by mrun E.
  - destruct (set_elem_ok _ _ k d Hr) as (s1 & E1 & Hr1). mrun E1. by apply IH.
Qed.

Lemma hm_rep_init : hm_rep init_hashmap ∅.
Proof.
  exists (λ _, []). split; try done.
  - intros b Hb. unfold idx, init_hashmap, HASHMAP_BUCKET_SIZE in *. cbn [buckets].
    destruct (0 <=? b) eqn:E; zbool; [|lia]. by rewrite lookup_replicate_2 by lia.
  - intros b Hb. split; [done|constructor|set_solver..|].
    intros k d _. rewrite lookup_empty. split; [done|]. intros (a & Ha & _). set_solver.
  - intros a [e He]. cbn [heap init_hashmap] in He. by rewrite lookup_empty in He.
Qed.

(** ** Deletion *)

Lemma to_last_ok l : ∀ h p a n,
  dseg h p (a :: l) 0 → (length l < n)%nat →
  to_last n a h = Ok (default a (last l), h).
Proof.
  induction l as [|b l IH]; intros h p a n (Ha & (e & He & _ & Hx) & Hd) Hn;
    (destruct n as [|n]; [simpl in Hn; lia|]); simpl; mrun (load_ok _ _ _ He);
    change (e_next e) with (next e); rewrite Hx; simpl; [done|].
  rewrite (proj2 (Z.eqb_neq b 0)) by apply Hd. simpl. rewrite (IH h a b n Hd) by (simpl in Hn; lia).
  change (match l with [] => Some b | _ :: _ => last l end) with (last (b :: l)).
  rewrite last_cons. by destruct (last l).
Qed.

Lemma free_back_ok l : ∀ h a q n,
  dseg h 0 (l ++ [a]) q → (length l < n)%nat →
  free_back n a h = Ok (rev (tail (l ++ [a])), h).
Proof.
  induction l as [|b l IH] using rev_ind; intros h a q n Hd Hn;
    (destruct n as [|n]; [simpl in Hn; lia|]);
    pose proof (dseg_mid _ _ _ _ _ _ Hd) as (e & He & Hp & Hx); simpl.
  - mrun (load_ok _ _ _ He). change (e_prev e) with (prev e). by rewrite Hp.
  - mrun (load_ok _ _ _ He). change (e_prev e) with (prev e). rewrite Hp, last_snoc. simpl.
    rewrite <-app_assoc in Hd. simpl in Hd.
    pose proof (dseg_mid _ _ _ _ _ _ Hd) as (eb & Heb & _ & Hxb).
    pose proof (dseg_nonzero _ _ _ _ Hd) as Hz.
    rewrite (proj2 (Z.eqb_neq b 0)) by set_solver. simpl. mrun (load_ok _ _ _ Heb).
    rewrite length_app in Hn. simpl in Hn.
    erewrite bind_ok; [|apply (IH _ _ a); [|lia]].
    + unfold mret, stM_ret. change (e_next eb) with (next eb). rewrite Hxb. simpl.
      assert (tail ((l ++ [b]) ++ [a]) = tail (l ++ [b]) ++ [a]) as -> by by destruct l.
      by rewrite rev_app_distr.
    + replace (l ++ b :: [a]) with ((l ++ [b]) ++ [a]) in Hd by by rewrite <-app_assoc.
      by apply dseg_app in Hd as [? _].
Qed.

Lemma delete_buckets_ok Ls s m n : ∀ b,
  hm_ok Ls s m → 0 ≤ b → b + Z.of_nat n ≤ HASHMAP_BUCKET_SIZE →
  delete_buckets (map (λ b, default 0 (head (Ls b))) (seqZ b (Z.of_nat n))) s =
    Ok (flat_map (λ b, rev (tail (Ls b))) (seqZ b (Z.of_nat n)), s).
Proof.
  induction n as [|n IH]; intros b Hok Hb Hn; [done|].
  rewrite seqZ_cons by lia. replace (Z.pred (Z.of_nat (S n))) with (Z.of_nat n) by lia.
  cbn [map flat_map delete_buckets]. mstep.
  destruct (o_bucket _ _ _ Hok b ltac:(lia)) as [Hs _ _ _ _].
  pose proof (bucket_length _ _ _ _ (o_bucket _ _ _ Hok b ltac:(lia))) as Hlen.
  assert ((if negb (default 0 (head (Ls b)) =? 0)
           then on_heap (c ← to_last (S (size (heap s))) (default 0 (head (Ls b)));
                         free_back (S (size (heap s))) c) else mret []) s =
          Ok (rev (tail (Ls b)), s)) as E.
  { destruct (Ls b) as [|a l] eqn:El; [done|]. cbn [hd_error from_option id].
    rewrite (proj2 (Z.eqb_neq a 0)) by apply Hs. change (negb false) with true. cbv iota.
    rewrite (on_heap_ok _ _ (rev l) (heap s)); [by destruct s|].
    simpl in Hlen. mrun (to_last_ok l _ _ _ (S (size (heap s))) Hs ltac:(lia)).
    destruct (exists_last (l := a :: l)) as (l' & z & Ez); [done|].
    assert (default a (last l) = z) as ->.
    { assert (last (a :: l) = Some z) as Hl by (rewrite Ez; apply last_snoc).
      rewrite last_cons in Hl. destruct (last l); simpl; congruence. }
    rewrite Ez in Hs. rewrite (free_back_ok _ _ _ _ _ Hs); [by rewrite <-Ez|].
    assert (length (a :: l) = length (l' ++ [z])) as Hlz by by rewrite Ez.
    rewrite length_app in Hlz. simpl in Hlz. lia. }
  mrun E. erewrite bind_ok; [|apply IH; [done|lia..]]. done.
Qed.

(** [delete_hashmap] frees the elements of every bucket but the first, and the
    map itself twice ([buckets] is at its start). *)
Lemma delete_hashmap_frees Ls s m map_addr :
  hm_ok Ls s m →
  delete_hashmap map_addr s =
    Ok (flat_map (λ b, rev (tail (Ls b))) (seqZ 0 HASHMAP_BUCKET_SIZE) ++ [map_addr; map_addr], s).
Proof.
  intros Hok. unfold delete_hashmap. mstep.
  assert (buckets s = map (λ b, default 0 (head (Ls b))) (seqZ 0 (Z.of_nat 200))) as ->.
  { apply idx_ext; rewrite (o_len _ _ _ Hok); [done|]. intros i Hi.
    rewrite (o_head _ _ _ Hok i Hi). unfold idx, HASHMAP_BUCKET_SIZE in *.
    destruct (0 <=? i) eqn:E; zbool; [|lia]. rewrite list_lookup_fmap, lookup_seqZ_lt by lia.
    simpl. by rewrite Z2Nat.id by lia. }
  mrun (delete_buckets_ok Ls s m 200 0 Hok ltac:(lia) ltac:(done)). done.
Qed.
End rep.

Arguments OpGet {K} _.
Arguments OpSet {K} _ _.
Arguments hm_op : clear implicits.

Lemma hash_bucket_range k : 0 ≤ get_bucket_from_hash k < HASHMAP_BUCKET_SIZE.
Proof. apply Z.mod_pos_bound. unfold HASHMAP_BUCKET_SIZE. lia. Qed.

Lemma str_bucket_range k : 0 ≤ str_bucket k < HASHMAP_BUCKET_SIZE.
Proof. apply Z.mod_pos_bound. unfold HASHMAP_BUCKET_SIZE. lia. Qed.

(** ** Theorems *)

(** C9: any sequence of insertions and lookups on a new hash map, with integer
    or string keys, terminates, and every lookup returns what a finite map
    updated by the same insertions holds (0 for a key that is not there). *)
Theorem hashmap_refines_map :
  (∀ ops, ∃ s', hm_run get_bucket_from_hash false ops init_hashmap = Ok (map_run ops ∅, s')) ∧
  (∀ ops, ∃ s', hm_run str_bucket true ops init_hashmap = Ok (map_run ops ∅, s')).
Proof.
  split; intros ops; eapply hm_run_ok; auto using hm_rep_init, hash_bucket_range, str_bucket_range.
Qed.

(** Removing a key whose element is not the first of its bucket deletes the
    key from the map the table holds; the other keys are as before. *)
Theorem hashmap_remove_not_head (s : hashmap Z) m k :
  hm_rep get_bucket_from_hash s m → ¬ at_head get_bucket_from_hash s k →
  ∃ s', hashmap_remove_elem k s = Ok (tt, s') ∧
    hm_rep get_bucket_from_hash s' (delete k m).
Proof. apply remove_elem_ok, hash_bucket_range. Qed.

(** Removing a key whose element is the first of its bucket does not take
    it out of the table: the bucket keeps pointing at the element.  The integer
    map still returns the old data afterwards; in the string map, which frees the
    element, the next lookup of the key reads freed memory. *)
Theorem hashmap_remove_head :
  (∀ s m k d, hm_rep get_bucket_from_hash s m → m !! k = Some d →
     at_head get_bucket_from_hash s k →
     ∃ s' s'', hashmap_remove_elem k s = Ok (tt, s') ∧ hashmap_get_elem k s' = Ok (d, s'')) ∧
  (∀ s m k d, hm_rep str_bucket s m → m !! k = Some d → at_head str_bucket s k →
     ∃ s', strhashmap_remove_elem k s = Ok (tt, s') ∧
       strhashmap_get_elem k s' = Crash Fault).
Proof.
  split; intros s m k d Hr Hm Hh.
  - destruct (remove_head_run _ false hash_bucket_range _ _ _ _ Hr Hm Hh)
      as (s' & E & s'' & E'). eauto.
  - exact (remove_head_run _ true str_bucket_range _ _ _ _ Hr Hm Hh).
Qed.

(** *** Witnesses *)

(** Two keys of the same bucket; one key of the string map. *)
Definition final {S A} (s0 : S) (r : res (A * S)) : S :=
  match r with Ok (_, s) => s | Crash _ => s0 end.
Definition two_keys : hashmap Z :=
  final init_hashmap
    ((hashmap_set_elem 1 5 ;; hashmap_set_elem 201 6) init_hashmap).
Definition one_string : hashmap (list Z) :=
  final init_hashmap (strhashmap_set_elem [97] 7 init_hashmap).

Lemma two_keys_rep : hm_rep get_bucket_from_hash two_keys (<[201 := 6]> (<[1 := 5]> ∅)).
Proof.
  destruct (set_elem_ok _ false hash_bucket_range _ _ 1 5 (hm_rep_init _ hash_bucket_range)) as (s1 & E1 & R1).
  destruct (set_elem_ok _ false hash_bucket_range _ _ 201 6 R1) as (s2 & E2 & R2).
  unfold two_keys, hashmap_set_elem. mrun E1. rewrite E2. exact R2.
Qed.

Lemma one_string_rep : hm_rep str_bucket one_string (<[[97] := 7]> ∅).
Proof.
  destruct (set_elem_ok _ true str_bucket_range _ _ [97] 7 (hm_rep_init _ str_bucket_range)) as (s1 & E1 & R1).
  unfold one_string, strhashmap_set_elem. rewrite E1. exact R1.
Qed.

Lemma two_keys_heads :
  ¬ at_head get_bucket_from_hash two_keys 201 ∧ at_head get_bucket_from_hash two_keys 1.
Proof.
  split.
  - intros (a & e & Ha & He & Hk).
    assert (idx (buckets two_keys) (get_bucket_from_hash 201) = Some 1) as E1 by (vm_compute; reflexivity).
    assert ((e_key <$> heap two_keys !! 1) = Some 1) as E2 by (vm_compute; reflexivity).
    rewrite E1 in Ha. injection Ha as <-. rewrite He in E2. simpl in E2. congruence.
  - exists 1. eexists. split; [vm_compute; reflexivity|]. split; [vm_compute; reflexivity|reflexivity].
Qed.

Lemma one_string_head : at_head str_bucket one_string [97].
Proof. exists 1. eexists. split; [vm_compute; reflexivity|]. split; [vm_compute; reflexivity|reflexivity]. Qed.

Lemma hashmap_remove_not_head_witness :
  ∃ s', hashmap_remove_elem 201 two_keys = Ok (tt, s') ∧
    hm_rep get_bucket_from_hash s' (delete 201 (<[201 := 6]> (<[1 := 5]> ∅))).
Proof. apply (hashmap_remove_not_head two_keys); [apply two_keys_rep|apply two_keys_heads]. Defined.

Lemma hashmap_remove_head_witness :
  (∃ s' s'', hashmap_remove_elem 1 two_keys = Ok (tt, s') ∧ hashmap_get_elem 1 s' = Ok (5, s'')) ∧
  (∃ s', strhashmap_remove_elem [97] one_string = Ok (tt, s') ∧
     strhashmap_get_elem [97] s' = Crash Fault).
Proof.
  split.
  - apply (proj1 hashmap_remove_head two_keys _ 1 5 two_keys_rep); [reflexivity|apply two_keys_heads].
  - apply (proj2 hashmap_remove_head one_string _ [97] 7 one_string_rep); [reflexivity|apply one_string_head].
Defined.
