(* ===== verification/Rtc.v ===== *)
(** * The real-time clock (drivers/rtc.c)

    The clock chip is reached through ports 0x70 (register number) and 0x71
    (register contents).  It is hardware: [CmosChip] is its port interface with
    the observations its data sheet speaks of, and [CmosLaws] what the data sheet
    promises.  The driver is executed against any chip; [chip] is one.  The
    kernel leaves the chip in its 24-hour binary mode. *)

From S2P Require Import Prelude.

Class CmosChip (D : Type) := {
  port_inb : Z → stM D Z;
  port_outb : Z → Z → stM D unit;
  reg : D → Z → Z;     (** register contents *)
  sel : D → Z;         (** selected register *)
  uip : D → nat        (** reads of register A until the current update is over *)
}.

(** Between updates the registers hold still; an update that is under way shows
    in bit 7 of register A and ends. *)
Class CmosLaws (D : Type) `{CmosChip D} := {
  cmos_select v (d : D) : ∃ d', port_outb 112 v d = Ok (tt, d') ∧
    sel d' = v ∧ uip d' = uip d ∧ ∀ r, reg d' r = reg d r;
  cmos_delay (d : D) : ∃ z d', port_inb 128 d = Ok (z, d') ∧
    sel d' = sel d ∧ uip d' = uip d ∧ ∀ r, reg d' r = reg d r;
  cmos_status (d : D) : sel d = 10 → ∃ z d', port_inb 113 d = Ok (z, d') ∧
    sel d' = 10 ∧ Z.testbit z 7 = negb (Nat.eqb (uip d) 0) ∧ uip d' = pred (uip d) ∧
    (uip d = 0%nat → ∀ r, reg d' r = reg d r);
  cmos_read (d : D) : sel d ≠ 10 → uip d = 0%nat → ∃ d',
    port_inb 113 d = Ok (reg d (sel d), d') ∧
    sel d' = sel d ∧ uip d' = 0%nat ∧ ∀ r, reg d' r = reg d r;
  cmos_write v (d : D) : sel d ≠ 10 → is_u8 v → uip d = 0%nat → ∃ d', port_outb 113 v d = Ok (tt, d') ∧
    sel d' = sel d ∧ uip d' = 0%nat ∧ ∀ r, reg d' r = if r =? sel d then v else reg d r;
  cmos_byte (d : D) r : is_u8 (reg d r)
}.

Record rtc_time_t : Type := mk_rtc_time {
  seconds : Z;
  minutes : Z;
  hours : Z;
  weekday : Z;
  day_of_month : Z;
  month : Z;
  year : Z;
  century : Z
}.

Section driver.
Context {D : Type} `{CmosChip D}.

Definition io_wait : stM D unit :=
  port_inb 128 ;; port_inb 128 ;; port_inb 128 ;; port_inb 128 ;; mret tt.

(** [while (port_inb(0x71) & (1<<7)) hlt] *)
Fixpoint update_wait (n : nat) : stM D unit :=
  match n with
  | O => crashM Hang
  | S n' => a ← port_inb 113; if negb (Z.land a 128 =? 0) then update_wait n' else mret tt
  end.

Definition rtc_ready : stM D unit :=
  port_outb 112 10 ;; io_wait ;; d ← get; update_wait (S (uip d)).

Definition rtc_get (r : Z) : stM D Z := port_outb 112 r ;; io_wait ;; port_inb 113.
Definition rtc_put (r v : Z) : stM D unit := port_outb 112 r ;; io_wait ;; port_outb 113 (u8 v).

Definition read_rtc : stM D rtc_time_t :=
  rtc_ready ;;
  seconds ← rtc_get 0;
  minutes ← rtc_get 2;
  hours ← rtc_get 4;
  weekday ← rtc_get 6;
  day_of_month ← rtc_get 7;
  month ← rtc_get 8;
  year ← rtc_get 9;
  mret (mk_rtc_time seconds minutes hours weekday day_of_month month year 20).

Definition write_rtc (to_write : rtc_time_t) : stM D unit :=
  rtc_ready ;;
  rtc_put 0 (seconds to_write) ;;
  rtc_put 2 (minutes to_write) ;;
  rtc_put 4 (hours to_write) ;;
  rtc_put 6 (weekday to_write) ;;
  rtc_put 7 (day_of_month to_write) ;;
  rtc_put 8 (month to_write) ;;
  rtc_put 9 (year to_write).

Definition months_start (time : rtc_time_t) : Z :=
  let leap := if Z.rem (year time) 4 =? 0 then 1 else 0 in
  match month time with
  | 1 => 0
  | 2 => 31
  | 3 => 59 + leap
  | 4 => 90 + leap
  | 5 => 120 + leap
  | 6 => 151 + leap
  | 7 => 181 + leap
  | 8 => 212 + leap
  | 9 => 243 + leap
  | 10 => 273 + leap
  | 11 => 304 + leap
  | 12 => 334 + leap
  | _ => 0
  end.

Definition rtc_time_to_seconds (time : rtc_time_t) : Z :=
  let sec := u64 (0 + seconds time) in
  let sec := u64 (sec + minutes time * 60) in
  let sec := u64 (sec + hours time * 60 * 60) in
  let day_of_year := u64 (day_of_month time - 1) in
  let day_of_year := u64 (day_of_year + months_start time) in
  let sec := u64 (sec + u64 (day_of_year * 24 * 60 * 60)) in
  let yr := u64 (year time + century time * 100) in
  let days_in_years := u64 (u64 (yr * 365) + yr / 4) in
  u64 (sec + u64 (days_in_years * 24 * 60 * 60)).

Definition get_time_since_epoch : stM D Z :=
  current_time ← read_rtc;
  let epoch_time := mk_rtc_time 0 0 0 5 1 1 70 19 in
  let current_seconds := rtc_time_to_seconds current_time in
  let epoch_seconds := rtc_time_to_seconds epoch_time in
  mret (u64 (current_seconds - epoch_seconds)).
End driver.

(** ** The calendar *)

Definition leap_year (y : Z) : bool :=
  ((y mod 4 =? 0) && negb (y mod 100 =? 0) || (y mod 400 =? 0))%bool.

Definition month_days (y m : Z) : Z :=
  match m with
  | 2 => if leap_year y then 29 else 28
  | 4 | 6 | 9 | 11 => 30
  | _ => 31
  end.

Definition sum_over (f : Z → Z) (start : Z) (n : Z) : Z :=
  foldr (λ x acc, f x + acc) 0 (seqZ start n).

(** Days from 1970-01-01 to the day [d] of the month [m] of the year [y]. *)
Definition days_since_epoch (y m d : Z) : Z :=
  sum_over (λ y', if leap_year y' then 366 else 365) 1970 (y - 1970)
  + sum_over (month_days y) 1 (m - 1) + (d - 1).

Definition unix_time (t : rtc_time_t) : Z :=
  let y := year t + century t * 100 in
  days_since_epoch y (month t) (day_of_month t) * 86400
  + hours t * 3600 + minutes t * 60 + seconds t.

Definition valid_time (t : rtc_time_t) : Prop :=
  0 ≤ seconds t < 60 ∧ 0 ≤ minutes t < 60 ∧ 0 ≤ hours t < 24 ∧
  1 ≤ month t ≤ 12 ∧ 1 ≤ day_of_month t ≤ month_days (year t + century t * 100) (month t) ∧
  0 ≤ year t ≤ 99 ∧ century t = 20.
#[export] Instance valid_time_dec t : Decision (valid_time t).
Proof. unfold valid_time. apply _. Defined.

(** What the code adds to the calendar's answer. *)
Definition leap_error (t : rtc_time_t) : Z :=
  if leap_year (year t + century t * 100) then 86400 else 0.

Definition rtc_days (t : rtc_time_t) : Z :=
  let yr := year t + century t * 100 in months_start t + yr * 365 + yr / 4.

(** Every month of the century, checked one by one. *)
Definition month_ok (y m : Z) : bool :=
  let t := mk_rtc_time 0 0 0 0 1 m y 20 in
  rtc_days t - rtc_days (mk_rtc_time 0 0 0 5 1 1 70 19) =?
  days_since_epoch (y + 2000) m 1 + (if leap_year (y + 2000) then 1 else 0).

Lemma months_ok : forallb (λ y, forallb (month_ok y) (seqZ 1 12)) (seqZ 0 100) = true.
Proof. vm_compute. reflexivity. Qed.

Lemma month_ok_all y m : 0 ≤ y ≤ 99 → 1 ≤ m ≤ 12 → month_ok y m = true.
Proof.
  intros Hy Hm. pose proof months_ok as Hall. rewrite forallb_forall in Hall.
  assert (In y (seqZ 0 100)) as Hiy by (apply list_elem_of_In, elem_of_seqZ; lia).
  specialize (Hall y Hiy). rewrite forallb_forall in Hall.
  apply Hall, list_elem_of_In, elem_of_seqZ. lia.
Qed.

Lemma month_days_bound y m : month_days y m ≤ 31.
Proof. unfold month_days. repeat case_match; lia. Qed.

Lemma months_start_bound t : 0 ≤ months_start t ≤ 335.
Proof. unfold months_start. repeat case_match; lia. Qed.

Lemma seconds_ok t : valid_time t →
  u64 (rtc_time_to_seconds t - rtc_time_to_seconds (mk_rtc_time 0 0 0 5 1 1 70 19)) =
    unix_time t + leap_error t.
Proof.
  intros (Hs & Hmi & Hh & Hm & Hd & Hy & Hc).
  pose proof (month_days_bound (year t + century t * 100) (month t)) as Hmd.
  pose proof (months_start_bound t) as Hms.
  pose proof (month_ok_all _ _ Hy Hm) as Hok. unfold month_ok in Hok. apply Z.eqb_eq in Hok.
  change (rtc_days (mk_rtc_time 0 0 0 5 1 1 70 19)) with 719542 in Hok.
  assert (months_start (mk_rtc_time 0 0 0 0 1 (month t) (year t) 20) = months_start t) as Em
    by reflexivity.
  unfold rtc_days in Hok. cbn [year century month] in Hok. rewrite Em in Hok.
  unfold unix_time, leap_error. rewrite Hc.
  change (20 * 100) with 2000. unfold days_since_epoch in *.
  set (S1 := sum_over _ 1970 _) in *. set (S2 := sum_over _ 1 _) in *.
  change (rtc_time_to_seconds (mk_rtc_time 0 0 0 5 1 1 70 19)) with 62168428800.
  assert (rtc_time_to_seconds t =
    (months_start t + (day_of_month t - 1) + (year t + 2000) * 365 + (year t + 2000) / 4) * 86400
    + hours t * 3600 + minutes t * 60 + seconds t) as ->.
  { unfold rtc_time_to_seconds. cbv zeta. rewrite Hc. change (20 * 100) with 2000.
    generalize dependent (months_start t). intros. clear Hok Em S1 S2.
    assert (∀ z, 0 ≤ z < 1000000000000 → u64 z = z) as U by (intros; apply u64_small; unfold is_u64; lia).
    rewrite (U (0 + seconds t)), (U (day_of_month t - 1)), (U (year t + 2000)) by lia.
    rewrite (U (0 + seconds t + minutes t * 60)), (U ((year t + 2000) * 365)) by lia.
    rewrite (U (0 + seconds t + minutes t * 60 + hours t * 60 * 60)) by lia.
    rewrite (U (day_of_month t - 1 + z)), (U ((year t + 2000) * 365 + (year t + 2000) / 4)) by dlia.
    rewrite (U ((day_of_month t - 1 + z) * 24 * 60 * 60)) by lia.
    rewrite (U (((year t + 2000) * 365 + (year t + 2000) / 4) * 24 * 60 * 60)) by dlia.
    rewrite (U (0 + seconds t + minutes t * 60 + hours t * 60 * 60
                + (day_of_month t - 1 + z) * 24 * 60 * 60)) by lia.
    rewrite U by dlia. lia. }
  rewrite u64_small; [|unfold is_u64; clear S1 S2 Hok Em; dlia].
  destruct (leap_year (year t + 2000)); dlia.
Qed.

(** ** The driver *)

Section driver_lemmas.
Context {D : Type} `{CmosLaws D}.

(** The chip as the driver leaves it between two registers. *)
Definition quiet (d d' : D) : Prop :=
  sel d' = sel d ∧ uip d' = uip d ∧ ∀ r, reg d' r = reg d r.

Lemma io_wait_ok d : ∃ d', io_wait d = Ok (tt, d') ∧ quiet d d'.
Proof.
  unfold io_wait.
  destruct (cmos_delay d) as (z1 & d1 & E1 & ? & ? & R1). mrun E1.
  destruct (cmos_delay d1) as (z2 & d2 & E2 & ? & ? & R2). mrun E2.
  destruct (cmos_delay d2) as (z3 & d3 & E3 & ? & ? & R3). mrun E3.
  destruct (cmos_delay d3) as (z4 & d4 & E4 & ? & ? & R4). mrun E4.
  exists d4. split; [done|]. split_and!; [congruence..|]. intros r. by rewrite R4, R3, R2, R1.
Qed.

Lemma land_128 z : (Z.land z 128 =? 0) = negb (Z.testbit z 7).
Proof.
  change 128 with (2 ^ 7). destruct (Z.testbit z 7) eqn:E; simpl.
  - apply Z.eqb_neq. intros Hz. assert (Z.testbit (Z.land z (2 ^ 7)) 7 = false) as F
      by (rewrite Hz; apply Z.bits_0).
    rewrite Z.land_spec, E, Z.pow2_bits_true in F by lia. done.
  - apply Z.eqb_eq, Z.bits_inj'. intros n Hn. rewrite Z.land_spec, Z.bits_0.
    destruct (decide (n = 7)) as [->|]; [by rewrite E|].
    rewrite Z.pow2_bits_false by lia. by rewrite andb_false_r.
Qed.

Lemma update_wait_ok n : ∀ d, sel d = 10 → (uip d < n)%nat →
  ∃ d', update_wait n d = Ok (tt, d') ∧ uip d' = 0%nat ∧
    (uip d = 0%nat → ∀ r, reg d' r = reg d r).
Proof.
  induction n as [|n IH]; intros d Hs Hn; [lia|]. simpl.
  destruct (cmos_status d Hs) as (z & d1 & E & Hs1 & Hb & Hu & Hr). mrun E.
  rewrite land_128, Hb, negb_involutive. destruct (uip d) as [|u] eqn:Eu; simpl in Hu |- *.
  - exists d1. split_and!; [done..|]. auto.
  - destruct (IH d1 Hs1) as (d2 & E2 & Hu2 & _); [lia|]. by exists d2.
Qed.

Lemma rtc_ready_ok d : ∃ d', rtc_ready d = Ok (tt, d') ∧ uip d' = 0%nat ∧
  (uip d = 0%nat → ∀ r, reg d' r = reg d r).
Proof.
  unfold rtc_ready. destruct (cmos_select 10 d) as (d1 & E1 & S1 & U1 & R1). mrun E1.
  destruct (io_wait_ok d1) as (d2 & E2 & S2 & U2 & R2). mrun E2. mstep.
  destruct (update_wait_ok (S (uip d2)) d2) as (d3 & E3 & U3 & R3); [congruence|lia|].
  exists d3. split_and!; [done..|]. intros Hu r. rewrite R3, R2, R1; congruence.
Qed.

Lemma rtc_get_ok r d : r ≠ 10 → uip d = 0%nat →
  ∃ d', rtc_get r d = Ok (reg d r, d') ∧ uip d' = 0%nat ∧ ∀ r, reg d' r = reg d r.
Proof.
  intros Hr Hu. unfold rtc_get.
  destruct (cmos_select r d) as (d1 & E1 & S1 & U1 & R1). mrun E1.
  destruct (io_wait_ok d1) as (d2 & E2 & S2 & U2 & R2). mrun E2.
  destruct (cmos_read d2) as (d3 & E3 & S3 & U3 & R3); [congruence..|].
  exists d3. split_and!; [|done|intros r'; by rewrite R3, R2, R1].
  rewrite E3, R2, R1. do 2 f_equal. congruence.
Qed.

Lemma rtc_put_ok r v d : r ≠ 10 → uip d = 0%nat →
  ∃ d', rtc_put r v d = Ok (tt, d') ∧ uip d' = 0%nat ∧
    ∀ r', reg d' r' = if r' =? r then u8 v else reg d r'.
Proof.
  intros Hr Hu. unfold rtc_put.
  destruct (cmos_select r d) as (d1 & E1 & S1 & U1 & R1). mrun E1.
  destruct (io_wait_ok d1) as (d2 & E2 & S2 & U2 & R2). mrun E2.
  destruct (cmos_write (u8 v) d2) as (d3 & E3 & S3 & U3 & R3);
    [congruence|apply Z.mod_pos_bound; lia|congruence|].
  exists d3. split_and!; [done..|]. intros r'. rewrite R3, R2, R1. by replace (sel d2) with r by congruence.
Qed.

(** The time in the registers. *)
Definition clock (d : D) : rtc_time_t :=
  mk_rtc_time (reg d 0) (reg d 2) (reg d 4) (reg d 6) (reg d 7) (reg d 8) (reg d 9) 20.

Lemma read_rtc_ok d : ∃ d', read_rtc d = Ok (clock d', d') ∧ uip d' = 0%nat ∧
  (uip d = 0%nat → ∀ r, reg d' r = reg d r).
Proof.
  unfold read_rtc, clock. destruct (rtc_ready_ok d) as (d0 & E0 & U0 & R0). mrun E0.
  destruct (rtc_get_ok 0 d0) as (d1 & E1 & U1 & R1); [lia|done|]. mrun E1.
  destruct (rtc_get_ok 2 d1) as (d2 & E2 & U2 & R2); [lia|done|]. mrun E2.
  destruct (rtc_get_ok 4 d2) as (d3 & E3 & U3 & R3); [lia|done|]. mrun E3.
  destruct (rtc_get_ok 6 d3) as (d4 & E4 & U4 & R4); [lia|done|]. mrun E4.
  destruct (rtc_get_ok 7 d4) as (d5 & E5 & U5 & R5); [lia|done|]. mrun E5.
  destruct (rtc_get_ok 8 d5) as (d6 & E6 & U6 & R6); [lia|done|]. mrun E6.
  destruct (rtc_get_ok 9 d6) as (d7 & E7 & U7 & R7); [lia|done|]. mrun E7.
  exists d7. assert (∀ r, reg d7 r = reg d0 r) as R.
  { intros r. by rewrite R7, R6, R5, R4, R3, R2, R1. }
  split_and!; [|done|intros Hu r; rewrite R; auto].
  rewrite !R, !R6, !R5, !R4, !R3, !R2, !R1. done.
Qed.

(** The parts of a time that the chip can hold. *)
Definition fits (t : rtc_time_t) : Prop :=
  is_u8 (seconds t) ∧ is_u8 (minutes t) ∧ is_u8 (hours t) ∧ is_u8 (weekday t) ∧
  is_u8 (day_of_month t) ∧ is_u8 (month t) ∧ is_u8 (year t) ∧ century t = 20.

Lemma write_rtc_ok t d : fits t →
  ∃ d', write_rtc t d = Ok (tt, d') ∧ uip d' = 0%nat ∧ clock d' = t.
Proof.
  intros Hf. unfold write_rtc. destruct (rtc_ready_ok d) as (d0 & E0 & U0 & _). mrun E0.
  destruct (rtc_put_ok 0 (seconds t) d0) as (d1 & E1 & U1 & R1); [lia|done|]. mrun E1.
  destruct (rtc_put_ok 2 (minutes t) d1) as (d2 & E2 & U2 & R2); [lia|done|]. mrun E2.
  destruct (rtc_put_ok 4 (hours t) d2) as (d3 & E3 & U3 & R3); [lia|done|]. mrun E3.
  destruct (rtc_put_ok 6 (weekday t) d3) as (d4 & E4 & U4 & R4); [lia|done|]. mrun E4.
  destruct (rtc_put_ok 7 (day_of_month t) d4) as (d5 & E5 & U5 & R5); [lia|done|]. mrun E5.
  destruct (rtc_put_ok 8 (month t) d5) as (d6 & E6 & U6 & R6); [lia|done|]. mrun E6.
  destruct (rtc_put_ok 9 (year t) d6) as (d7 & E7 & U7 & R7); [lia|done|]. exists d7.
  split_and!; [done..|]. destruct t as [s mi h w dm mo y c]. unfold clock, fits in *. simpl in *.
  destruct Hf as (? & ? & ? & ? & ? & ? & ? & ->).
  rewrite !R7, !R6, !R5, !R4, !R3, !R2, !R1. simpl. unfold u8, is_u8 in *.
  rewrite !Z.mod_small by lia. done.
Qed.

(** Reading the clock returns, once no update is under way, the time in
    its registers; the seconds since the epoch computed from it are the ones of
    the Gregorian calendar, except that the whole of a leap year is one day
    ahead (the leap day of the current year is counted from its first of
    January). *)
Theorem rtc_epoch_seconds (d : D) :
  ∃ d', get_time_since_epoch d =
      Ok (u64 (rtc_time_to_seconds (clock d') - rtc_time_to_seconds (mk_rtc_time 0 0 0 5 1 1 70 19)), d')
    ∧ uip d' = 0%nat
    ∧ (uip d = 0%nat → clock d' = clock d)
    ∧ (valid_time (clock d') →
       get_time_since_epoch d = Ok (unix_time (clock d') + leap_error (clock d'), d')).
Proof.
  destruct (read_rtc_ok d) as (d' & E & U & R). exists d'.
  unfold get_time_since_epoch. mrun E. split_and!; [done..| |].
  - intros Hu. unfold clock. by rewrite !R.
  - intros Hv. by rewrite <-(seconds_ok _ Hv).
Qed.

(** A time written to the clock is the time read from it. *)
Theorem rtc_round_trip t (d : D) :
  fits t → ∃ d', (write_rtc t ;; read_rtc) d = Ok (t, d').
Proof.
  intros Hf. destruct (write_rtc_ok t d Hf) as (d1 & E1 & U1 & C1). mrun E1.
  destruct (read_rtc_ok d1) as (d2 & E2 & _ & R2). exists d2. rewrite E2.
  rewrite <-C1. unfold clock. by rewrite !R2.
Qed.
End driver_lemmas.

(** ** A chip

    Reads of register A count an update down; other accesses are immediate. *)

Record chip : Type := mk_chip {
  ch_regs : Z → Z;
  ch_sel : Z;
  ch_uip : nat
}.

Definition chip_reg (d : chip) (r : Z) : Z := u8 (ch_regs d r).

#[export] Instance chip_cmos : CmosChip chip := {
  port_inb p := d ← get;
    if (p =? 113) && (ch_sel d =? 10) then
      modify (λ d, mk_chip (ch_regs d) (ch_sel d) (pred (ch_uip d))) ;;
      mret (if Nat.eqb (ch_uip d) 0 then 0 else 128)
    else if p =? 113 then mret (chip_reg d (ch_sel d)) else mret 0;
  port_outb p v :=
    if p =? 112 then modify (λ d, mk_chip (ch_regs d) v (ch_uip d))
    else if p =? 113 then modify (λ d, mk_chip (λ r, if r =? ch_sel d then v else ch_regs d r) (ch_sel d) (ch_uip d))
    else mret tt;
  reg := chip_reg;
  sel := ch_sel;
  uip := ch_uip
}.

#[export] Instance chip_laws : CmosLaws chip.
Proof.
  split.
  - intros v d. eexists. split; [reflexivity|done].
  - intros d. eexists _, _. split; [reflexivity|done].
  - intros d Hs. simpl in Hs. eexists _, _. split.
    { simpl. mstep. rewrite Hs. reflexivity. }
    simpl. split_and!; [done| |done|done]. by destruct (ch_uip d).
  - intros d Hs Hu. simpl in Hs, Hu. eexists. split.
    { simpl. mstep. rewrite (proj2 (Z.eqb_neq _ _) Hs). reflexivity. }
    simpl. done.
  - intros v d Hs Hv Hu. eexists. split; [reflexivity|]. simpl. split_and!; [done..|].
    intros r. unfold chip_reg. simpl. case_match; [|done]. apply Z.mod_small. exact Hv.
  - intros d r. apply Z.mod_pos_bound. lia.
Qed.

(** 15:04:05 on 2020-02-29, with an update under way. *)
Definition some_chip : chip :=
  mk_chip (λ r, nth (Z.to_nat r) [5; 0; 4; 0; 15; 0; 7; 29; 2; 20] 0) 0 3.

Lemma rtc_epoch_seconds_witness :
  ∃ d', get_time_since_epoch some_chip = Ok (unix_time (clock d') + leap_error (clock d'), d') ∧
    valid_time (clock d') ∧ unix_time (clock d') = 1582988645.
Proof.
  destruct (rtc_epoch_seconds some_chip) as (d' & E & U & _ & Hv). exists d'.
  assert (snd <$> (match get_time_since_epoch some_chip with Ok p => Some p | Crash _ => None end) =
          Some d') as Hd by (rewrite E; reflexivity).
  vm_compute in Hd. injection Hd as <-.
  assert (valid_time (clock (mk_chip (λ r, nth (Z.to_nat r) [5; 0; 4; 0; 15; 0; 7; 29; 2; 20] 0) 9 0))) as V
    by (apply (bool_decide_unpack _); vm_compute; exact I).
  split; [apply Hv; exact V|]. split; [exact V|]. vm_compute. reflexivity.
Defined.

Lemma rtc_round_trip_witness :
  ∃ d', (write_rtc (mk_rtc_time 59 59 23 4 31 12 21 20) ;; read_rtc) some_chip =
    Ok (mk_rtc_time 59 59 23 4 31 12 21 20, d').
Proof. apply (rtc_round_trip (mk_rtc_time 59 59 23 4 31 12 21 20) some_chip). vm_compute. intuition congruence. Defined.
