(* ===== verification/Vfs.v ===== *)
(** * The tree of the virtual file system (fs/vfs/vfs.c)

    Nodes live in a heap under their addresses, [0] is the null pointer.  A
    string is the list of its bytes without the terminator; where the code
    writes into a buffer of its own, the buffer is a block of bytes
    ([Blocks.v]), a C string its bytes up to the first zero.  A function pointer
    is a number: which function it names matters to the callers in
    [Fd.v] only.  [cleanup_split_path] frees the strings and their array;
    of it only the [kfree] of a null array shows, which fails an assertion. *)

From S2P Require Import Prelude Locks CString Blocks.

Record vfs_ops_t : Type := mk_ops {
  o_open : Z;
  o_post_open : Z;
  o_close : Z;
  o_read : Z;
  o_write : Z;
  o_seek : Z
}.
#[export] Instance eta_vfs_ops_t : Eta vfs_ops_t :=
  λ r, mk_ops (o_open r) (o_post_open r) (o_close r) (o_read r) (o_write r) (o_seek r).

Record vfs_fs_descriptor_t : Type := mk_desc {
  d_fs_root : Z;
  d_fs_ops : vfs_ops_t;
  d_file_exists : Z
}.

Record vfs_node_t : Type := mk_node {
  n_name : option (list Z);
  n_ops : vfs_ops_t;
  node_handle : Z;
  create_handle : Z;
  filesystem_descriptor : Z;
  n_parent : Z;
  fs_root : Z;
  children : list Z;
  unid : Z
}.
#[export] Instance eta_vfs_node_t : Eta vfs_node_t :=
  λ r, mk_node (n_name r) (n_ops r) (node_handle r) (create_handle r) (filesystem_descriptor r)
    (n_parent r) (fs_root r) (children r) (unid r).

Record fs_t : Type := mk_fs {
  vnodes : gmap Z vfs_node_t;
  descs : gmap Z vfs_fs_descriptor_t;
  root_node : Z;
  vfs_lock : Z;
  current_unid : Z;
  vbrk : Z
}.
#[export] Instance eta_fs_t : Eta fs_t :=
  λ r, mk_fs (vnodes r) (descs r) (root_node r) (vfs_lock r) (current_unid r) (vbrk r).

Abbreviation fM := (stM fs_t).

Definition null_vfs_ops : vfs_ops_t := mk_ops 0 0 0 0 0 0.

Definition node_at (a : Z) : fM vfs_node_t := s ← get; of_opt (vnodes s !! a).
Definition put_node (a : Z) (e : vfs_node_t) : fM unit :=
  modify (λ s, s <| vnodes := <[a := e]> (vnodes s) |>).
Definition upd_vnode (a : Z) (f : vfs_node_t → vfs_node_t) : fM unit := e ← node_at a; put_node a (f e).

Definition vfs_acquire : fM unit :=
  s ← get;
  match spinlock_lock (vfs_lock s) with
  | Ok l => modify (λ s, s <| vfs_lock := l |>)
  | Crash c => crashM c
  end.
Definition vfs_release : fM unit := modify (λ s, s <| vfs_lock := spinlock_unlock (vfs_lock s) |>).

Definition of_res {S A} (r : res A) : stM S A := λ s, match r with Ok a => Ok (a, s) | Crash c => Crash c end.
(** An operation on a buffer. *)
Definition on_buf {S A} (m : bM A) (b : list Z) : stM S (A * list Z) := of_res (m b).

(** A string as the functions of klibc/string.c get it. *)
Definition c_str (s : list Z) : list Z := s ++ [0].
(** The string a buffer holds; reading past the end of the block is a fault. *)
Fixpoint cstring (b : list Z) : option (list Z) :=
  match b with
  | [] => None
  | c :: b' => if c =? 0 then Some [] else (λ s, c :: s) <$> cstring b'
  end.

(** [strcmp(a, b)] *)
Definition strcmp_of {S} (a b : list Z) : stM S Z := '(r, _) ← on_buf (strcmp (c_str b)) (c_str a); mret r.

(** ** Nodes *)

Fixpoint search_loop (l : list Z) (name : list Z) (i : Z) : fM (Z * Z) :=
  match l with
  | [] => mret (0, 0)
  | cur :: l' =>
      if negb (cur =? 0) then
        e ← node_at cur;
        cname ← of_opt (n_name e);
        r ← strcmp_of cname name;
        if r =? 0 then mret (1, i) else search_loop l' name (i + 1)
      else search_loop l' name (i + 1)
  end.

(** Whether a child has the name, and its index. *)
Definition search_node_name (node : Z) (name : list Z) : fM (Z * Z) :=
  vfs_acquire ;;
  e ← node_at node;
  r ← search_loop (children e) name 0;
  vfs_release ;;
  mret r.

Definition vfs_new_node (name : list Z) (ops : vfs_ops_t) : fM Z :=
  s ← get;
  let node := vbrk s in
  modify (λ s, s <| vbrk := node + 65536 |> <| current_unid := u64 (current_unid s + 1) |>) ;;
  put_node node (mk_node (Some name) ops 0 0 0 0 0 (replicate 10 0) (current_unid s)) ;;
  mret node.

(** [vfs_init], with the address of [dummy_node_handle]. *)
Definition vfs_init (dummy_node_handle : Z) : fM unit :=
  s ← get;
  let node := vbrk s in
  modify (λ s, s <| vbrk := node + 65536 |> <| root_node := node |>) ;;
  put_node node (mk_node None null_vfs_ops dummy_node_handle 0 0 0 0 (replicate 10 0) 0).

(** The index of the first null entry. *)
Fixpoint free_child (l : list Z) (i : Z) : option Z :=
  match l with
  | [] => None
  | c :: l' => if c =? 0 then Some i else free_child l' (i + 1)
  end.

Definition vfs_add_child (parent child : Z) : fM unit :=
  vfs_acquire ;;
  p ← node_at parent;
  (match free_child (children p) 0 with
   | Some i => upd_vnode parent (λ p, p <| children := upd (children p) i child |>)
   | None => upd_vnode parent (λ p, p <| children := children p ++ child :: replicate 9 0 |>)
   end) ;;
  upd_vnode child (λ c, c <| n_parent := parent |>) ;;
  vfs_release.

(** ** Paths *)

(** The [while ( *path_ptr)] loop of [split_path_elements]. *)
Fixpoint split_loop (p : list Z) (out : list (list Z)) (starting_new : bool) : res (list (list Z)) :=
  match p with
  | [] => Ok out
  | c :: p' =>
      let fresh := starting_new && negb (bool_decide (p' = [])) in
      let out := if fresh then out ++ [[]] else out in
      let starting_new := if fresh then false else starting_new in
      if c =? SLASH then
        if starting_new then Crash Panic else split_loop p' out true
      else if bool_decide (out = []) then Crash Fault
      else split_loop p' (alter (λ e, e ++ [c]) (length out - 1)%nat out) starting_new
  end.

Definition split_path_elements (path : list Z) : res (list (list Z)) :=
  match path with
  | c :: p => if c =? SLASH then split_loop p [] true else split_loop path [] true
  | [] => split_loop path [] true
  end.

Definition cleanup_split_path {S} (path : list (list Z)) : stM S unit :=
  assertM (negb (bool_decide (path = []))).

Fixpoint walk_loop (split_list : list (list Z)) (cur_node : Z) : fM Z :=
  match split_list with
  | [] => mret cur_node
  | name :: rest =>
      '(found, node_index) ← search_node_name cur_node name;
      if found =? 0 then mret 0
      else
        vfs_acquire ;;
        e ← node_at cur_node;
        next ← of_opt (idx (children e) node_index);
        vfs_release ;;
        walk_loop rest next
  end.

Definition get_node_from_path (path : list Z) : fM Z :=
  r ← strcmp_of path [SLASH];
  if r =? 0 then gets root_node
  else
    split_list ← of_res (split_path_elements path);
    root ← gets root_node;
    node ← walk_loop split_list root;
    cleanup_split_path split_list ;;
    mret node.

(** [remove_node] calls itself for every child while it holds the lock. *)
Fixpoint remove_node (n : nat) (node : Z) : fM unit :=
  match n with
  | O => crashM Hang
  | S n' =>
      vfs_acquire ;;
      e ← node_at node;
      upd_vnode (n_parent e) (λ p, p <| children := (λ c, if c =? node then 0 else c) <$> children p |>) ;;
      for_loop (length (children e)) 0 (λ i,
        e ← node_at node;
        c ← of_opt (idx (children e) i);
        if negb (c =? 0) then remove_node n' c else mret tt) ;;
      modify (λ s, s <| vnodes := delete node (vnodes s) |>) ;;
      vfs_release
  end.

(** [while (cur_node != root_node)] of [get_mountpoint_of_node]. *)
Fixpoint mountpoint_loop (n : nat) (cur_node : Z) : fM Z :=
  match n with
  | O => crashM Hang
  | S n' =>
      root ← gets root_node;
      if cur_node =? root then mret cur_node
      else
        e ← node_at cur_node;
        if negb (filesystem_descriptor e =? 0) then mret cur_node
        else mountpoint_loop n' (n_parent e)
  end.

Definition get_mountpoint_of_node (node : Z) : fM Z :=
  vfs_acquire ;;
  s ← get;
  r ← mountpoint_loop (S (size (vnodes s))) node;
  vfs_release ;;
  mret r.

(** The loop of [set_child_ops] and of [set_child_fs_root], which differ in what is
    [wrong] with a node and how it is put right. *)
Fixpoint set_child_loop (n : nat) (wrong : vfs_node_t → bool) (put_right : vfs_node_t → vfs_node_t)
    (node current_work : Z) : fM unit :=
  match n with
  | O => crashM Hang
  | S n' =>
      e ← node_at current_work;
      c ← (fix go l := match l with
           | [] => mret 0
           | c :: l' => if negb (c =? 0) then ce ← node_at c; if wrong ce then mret c else go l' else go l'
           end) (children e);
      if negb (c =? 0) then set_child_loop n' wrong put_right node c
      else if current_work =? node then mret tt
      else
        upd_vnode current_work put_right ;;
        set_child_loop n' wrong put_right node (n_parent e)
  end.

Definition set_child_ops (n : nat) (node : Z) (ops : vfs_ops_t) : fM unit :=
  set_child_loop n (λ e, negb (o_open (n_ops e) =? o_open ops)) (λ e, e <| n_ops := ops |>) node node.

Definition set_child_fs_root (n : nat) (node root : Z) : fM unit :=
  set_child_loop n (λ e, negb (fs_root e =? root)) (λ e, e <| fs_root := root |>) node node.

(** ** Paths in buffers *)

Section buffers.
(** What memory that was never written holds. *)
Context (junk : Z → list Z).

Abbreviation kcalloc := (kcalloc_block 0 1 junk).
Abbreviation krealloc := (krealloc_block 0 1 junk).

Fixpoint join_loop {S} (path : list (list Z)) (ret : option (block Z)) (cur_length : Z) : stM S (option (block Z)) :=
  match path with
  | [] => mret ret
  | e :: path' =>
      let cur_length := cur_length + (zlen e + 1) in
      b ← of_res (krealloc ret (cur_length + 1));
      '(_, d) ← on_buf (strcat (c_str [SLASH])) (b_data b);
      '(_, d) ← on_buf (strcat (c_str e)) d;
      join_loop path' (Some (mk_block (b_size b) d)) cur_length
  end.

(** The joined path; [path_length] is at least 1 in every call. *)
Definition join_split_path {S} (path : list (list Z)) (path_length : Z) : stM S (list Z) :=
  r ← join_loop (take (Z.to_nat path_length) path) None 0;
  match r with
  | Some b => of_opt (cstring (b_data b))
  | None => crashM Fault
  end.

(** [for (i = length - 1; i >= 0; i--)] with [i + 1 = k]. *)
Fixpoint mountpoint_of_path_loop (k : nat) (path_elements : list (list Z)) : fM Z :=
  match k with
  | O => cleanup_split_path path_elements ;; gets root_node
  | Datatypes.S k' =>
      cur_path ← join_split_path path_elements (Z.of_nat k);
      node ← get_node_from_path cur_path;
      if negb (node =? 0) then cleanup_split_path path_elements ;; get_mountpoint_of_node node
      else mountpoint_of_path_loop k' path_elements
  end.

Definition get_mountpoint_of_path (path : list Z) : fM Z :=
  path_elements ← of_res (split_path_elements path);
  mountpoint_of_path_loop (length path_elements) path_elements.

(** One round of [get_full_path]: the name backwards, a slash and a terminator. *)
Definition put_reversed (name : list Z) (path_index : Z) : bM unit :=
  for_loop (length name - 1) 0 (λ k,
    c ← of_opt (idx name (zlen name - 1 - k)); st (path_index + k) c) ;;
  c ← of_opt (idx name 0);
  st (path_index + (zlen name - 1)) c ;;
  st (path_index + zlen name) SLASH ;;
  st (path_index + zlen name + 1) 0.

Fixpoint full_path_loop (n : nat) (cur_node : Z) (path : option (block Z)) (path_index : Z) : fM (option (block Z)) :=
  match n with
  | O => crashM Hang
  | Datatypes.S n' =>
      root ← gets root_node;
      if cur_node =? root then mret path
      else
        assertM (negb (cur_node =? 0)) ;;
        e ← node_at cur_node;
        assertM (negb (bool_decide (n_name e = None))) ;;
        name ← of_opt (n_name e);
        b ← of_res (krealloc path (path_index + zlen name + 1));
        '(_, d) ← on_buf (put_reversed name path_index) (b_data b);
        full_path_loop n' (n_parent e) (Some (mk_block (b_size b) d)) (path_index + zlen name + 1)
  end.

(** The buffer with the full path of a node. *)
Definition get_full_path (node : Z) : fM (list Z) :=
  assertM (negb (node =? 0)) ;;
  vfs_acquire ;;
  root ← gets root_node;
  s ← get;
  r ← full_path_loop (Datatypes.S (size (vnodes s))) node (if node =? root then Some (kcalloc 1) else None) 0;
  vfs_release ;;
  match r with
  | Some b => '(_, d) ← on_buf reverse (b_data b); mret d
  | None => crashM Fault
  end.

(** The path in the file system of a mount point, normalised, in its buffer. *)
Definition get_mountpoint_relative_path (mountpoint : Z) (path : list Z) : fM (list Z) :=
  mountpoint_path ← get_full_path mountpoint;
  mp_normalized ← of_res (normalize_path mountpoint_path);
  path_normalized ← of_res (normalize_path (c_str path));
  '(len, _) ← on_buf (strlen 0) mp_normalized;
  of_res (normalize_path (drop (Z.to_nat len) path_normalized)).

(** A node that is not there yet; the first one that was missing. *)
Definition add_missing (cur_node : Z) (name : list Z) (ops : vfs_ops_t) (root first_missing : Z) : fM Z :=
  '(found, _) ← search_node_name cur_node name;
  if found =? 0 then
    new_node ← vfs_new_node name ops;
    upd_vnode new_node (λ e, e <| fs_root := root |>) ;;
    vfs_add_child cur_node new_node ;;
    mret (if first_missing =? 0 then new_node else first_missing)
  else mret first_missing.

(** From [next_elem], with the rest of the path and the two buffers. *)
Fixpoint create_loop (path : list Z) (i : Z) (temp_buffer current_full_path : list Z)
    (ops : vfs_ops_t) (root first_missing : Z) : fM Z :=
  match path with
  | [] =>
      full ← of_opt (cstring current_full_path);
      cur_node ← get_node_from_path full;
      if cur_node =? 0 then mret first_missing
      else name ← of_opt (cstring temp_buffer); add_missing cur_node name ops root first_missing
  | c :: path' =>
      if c =? SLASH then
        full ← of_opt (cstring current_full_path);
        cur_node ← get_node_from_path full;
        if cur_node =? 0 then mret first_missing
        else
          name ← of_opt (cstring temp_buffer);
          first_missing ← add_missing cur_node name ops root first_missing;
          '(_, current_full_path) ← on_buf (path_join temp_buffer) current_full_path;
          create_loop path' 0 temp_buffer current_full_path ops root first_missing
      else
        '(_, temp_buffer) ← on_buf (st i c ;; st (i + 1) 0) temp_buffer;
        create_loop path' (i + 1) temp_buffer current_full_path ops root first_missing
  end.

(** [path], after the leading slash is skipped, without its last slash; the string of the
    caller is cut with it.  With nothing left the character before it is looked at. *)
Definition cut_slash (path : list Z) : list Z :=
  if bool_decide (last path = Some SLASH) then removelast path else path.

(** The first missing node, and what is left in the caller's buffer. *)
Definition create_missing_nodes_from_path (path : list Z) (ops : vfs_ops_t) (root : Z) : fM (Z * list Z) :=
  let temp_buffer := b_data (kcalloc (zlen path)) in
  '(_, current_full_path) ← on_buf (st 0 SLASH) (b_data (kcalloc (zlen path)));
  let slash := bool_decide (head path = Some SLASH) in
  let rest := cut_slash (if slash then tail path else path) in
  r ← create_loop rest 0 temp_buffer current_full_path ops root 0;
  mret (r, cut_slash path).
End buffers.
