(* ===== verification/VfsTheorems.v ===== *)
(** * Correctness of the VFS tree

    [vtree_ok] is the shape of the node heap; [resolve] follows a list of names from
    a node.  The routines that take path strings are related to it. *)

From S2P Require Import Prelude Locks CString Blocks Vfs.

Implicit Types s : fs_t.
Implicit Types es : list (list Z).

Abbreviation nonzero := (Forall (λ c : Z, c ≠ 0)).

(** ** Comparing strings *)

Lemma reading_ok {A} src (m : bM A) (d : list Z) a t : m src = Ok (a, t) → reading src m d = Ok (a, d).
Proof. intros E. unfold reading. by rewrite E. Qed.

Lemma strcmp_loop_ok ra rb (a : list Z) : ∀ n pre b,
  nonzero a → nonzero b → length a = length b → (length a < n)%nat →
  ∃ r, strcmp_loop n (pre ++ b ++ 0 :: rb) (zlen pre) (pre ++ a ++ 0 :: ra) = Ok (r, pre ++ a ++ 0 :: ra) ∧ (r = 0 ↔ a = b).
Proof.
  induction a as [|x a IH]; intros n pre b Ha Hb Hl Hn; destruct b as [|y b]; try done;
    (destruct n as [|n]; [simpl in Hn; lia|]); cbn [strcmp_loop app].
  - mrun (ld_app pre 0 ra). mrun (reading_ok _ _ (pre ++ 0 :: ra) _ _ (ld_app pre 0 rb)). by exists 0.
  - mrun (ld_app pre x (a ++ 0 :: ra)).
    mrun (reading_ok _ _ (pre ++ x :: a ++ 0 :: ra) _ _ (ld_app pre y (b ++ 0 :: rb))).
    apply Forall_cons in Ha as [Hx Ha]. apply Forall_cons in Hb as [Hy Hb].
    rewrite (proj2 (Z.eqb_neq x 0)), (proj2 (Z.eqb_neq y 0)) by done. cbn [orb].
    destruct (x =? y) eqn:E; zbool; cbn [negb].
    + subst y. destruct (IH n (pre ++ [x]) b Ha Hb) as (r & Er & Hr); [by injection Hl|simpl in Hn; lia|].
      rewrite zlen_app, <-!app_assoc in Er. exists r. split; [exact Er|]. rewrite Hr. split; congruence.
    + exists 1. split; [done|]. split; congruence.
Qed.

(** Two strings in buffers. *)
Lemma strcmp_buf_ok a ra b rb : nonzero a → nonzero b →
  ∃ r, strcmp (b ++ 0 :: rb) (a ++ 0 :: ra) = Ok (r, a ++ 0 :: ra) ∧ (r = 0 ↔ a = b).
Proof.
  intros Ha Hb. unfold strcmp. mrun (strlen_ok0 a ra Ha). mrun (reading_ok _ _ (a ++ 0 :: ra) _ _ (strlen_ok0 b rb Hb)).
  destruct (zlen a =? zlen b) eqn:El; zbool; cbn [negb].
  - mstep. apply (strcmp_loop_ok ra rb a _ [] b Ha Hb); [unfold zlen in El; lia|]. rewrite length_app. simpl. lia.
  - exists 1. split; [done|]. split; congruence.
Qed.

Lemma strcmp_of_ok {S} (a b : list Z) (s : S) :
  nonzero a → nonzero b → ∃ r, strcmp_of a b s = Ok (r, s) ∧ (r = 0 ↔ a = b).
Proof.
  intros Ha Hb. unfold strcmp_of, on_buf, of_res. destruct (strcmp_buf_ok a [] b [] Ha Hb) as (r & E & Hr).
  exists r. split; [|done]. unfold mbind, stM_bind, c_str. by rewrite E.
Qed.

Lemma strcmp_of_eqb {S} (a b : list Z) (s : S) (A : Type) (k1 k2 : stM S A) :
  nonzero a → nonzero b →
  (r ← strcmp_of a b; if r =? 0 then k1 else k2) s = (if bool_decide (a = b) then k1 else k2) s.
Proof.
  intros Ha Hb. destruct (strcmp_of_ok a b s Ha Hb) as (r & E & Hr). mrun E.
  destruct (r =? 0) eqn:Er; zbool.
  - rewrite bool_decide_true by tauto. done.
  - rewrite bool_decide_false by tauto. done.
Qed.

(** ** Splitting paths *)

(** A path element: not empty, no slash, no terminator. *)
Definition elem_ok (e : list Z) : Prop := e ≠ [] ∧ nonzero e ∧ SLASH ∉ e.

(** The elements joined, each behind a slash. *)
Fixpoint join es : list Z :=
  match es with
  | [] => []
  | e :: es' => SLASH :: e ++ join es'
  end.

(** What is left of the path is long enough that a new element is started for it. *)
Definition long_end es : Prop := match last es with Some e => (1 < length e)%nat | None => True end.

Lemma split_elem e : ∀ cur out rest,
  SLASH ∉ e →
  split_loop (e ++ rest) (out ++ [cur]) false = split_loop rest (out ++ [cur ++ e]) false.
Proof.
  induction e as [|c e IH]; intros cur out rest Hs; [by rewrite app_nil_r|]. cbn [app split_loop andb].
  rewrite (proj2 (Z.eqb_neq c SLASH)) by set_solver.
  rewrite bool_decide_false by (by destruct out).
  assert (alter (λ e0, e0 ++ [c]) (length (out ++ [cur]) - 1)%nat (out ++ [cur]) = out ++ [cur ++ [c]]) as ->.
  { rewrite length_app. cbn [length]. replace (length out + 1 - 1)%nat with (length out + 0)%nat by lia.
    rewrite alter_app_r. done. }
  rewrite IH by set_solver. by rewrite <-app_assoc.
Qed.

Lemma split_start c p out :
  c ≠ SLASH → p ≠ [] → split_loop (c :: p) out true = split_loop p (out ++ [[c]]) false.
Proof.
  intros Hc Hp. cbn [split_loop]. rewrite (bool_decide_false (p = [])) by done. cbn [negb andb].
  rewrite (proj2 (Z.eqb_neq c SLASH)) by done. rewrite bool_decide_false by (by destruct out).
  rewrite length_app. cbn [length]. replace (length out + 1 - 1)%nat with (length out + 0)%nat by lia.
  by rewrite alter_app_r.
Qed.

(** The elements, from the start of one of them, with or without a slash at the end. *)
Lemma split_elems es : ∀ e out (slash : bool),
  Forall elem_ok (e :: es) → slash = true ∨ long_end (e :: es) →
  split_loop (e ++ join es ++ (if slash then [SLASH] else [])) out true = Ok (out ++ e :: es).
Proof.
  induction es as [|e2 es IH]; intros e out slash He Hl; apply Forall_cons in He as [(Hne & Hz & Hs) He];
    destruct e as [|c e]; try done; cbn [app];
    (rewrite split_start; [|set_solver| ]).
  - rewrite split_elem by set_solver. destruct slash; [|done]. reflexivity.
  - destruct Hl as [->|Hl]; [by destruct e|]. destruct e; [unfold long_end in Hl; simpl in Hl; lia|done].
  - rewrite split_elem by set_solver. cbn [app join split_loop andb]. rewrite Z.eqb_refl.
    rewrite <-app_assoc, IH; [by rewrite <-app_assoc|done|]. destruct Hl as [|Hl]; [by left|right].
    unfold long_end in *. by rewrite last_cons_cons in Hl.
  - by destruct e.
Qed.

Lemma split_path_ok es (slash : bool) :
  Forall elem_ok es → es ≠ [] → slash = true ∨ long_end es →
  split_path_elements (join es ++ (if slash then [SLASH] else [])) = Ok es.
Proof.
  intros He Hn Hl. destruct es as [|e es]; [done|]. cbn [join app split_path_elements]. rewrite Z.eqb_refl.
  rewrite <-app_assoc. by rewrite split_elems.
Qed.

Lemma join_nonzero es : Forall elem_ok es → nonzero (join es).
Proof.
  induction es as [|e es IH]; intros He; [by constructor|]. apply Forall_cons in He as [(_ & Hz & _) He].
  cbn [join]. constructor; [done|]. apply Forall_app. auto.
Qed.

(** A path whose last element is one character: the character goes to the element before, and
    with no element before it the array is accessed before its start. *)
Lemma split_short_last es e c :
  Forall elem_ok (es ++ [e]) → c ≠ SLASH → split_path_elements (join (es ++ [e]) ++ [SLASH; c]) =
    Ok (es ++ [e ++ [c]]).
Proof.
  intros He Hc. assert (∀ es e0 out, Forall elem_ok (e0 :: es) →
    split_loop (e0 ++ join es ++ [SLASH; c]) out true = split_loop [c] (out ++ e0 :: es) true) as Hgo.
  { clear -Hc. induction es as [|e2 es IH]; intros e out He; apply Forall_cons in He as [(Hne & Hz & Hs) He];
      destruct e as [|x e]; try done; cbn [app]; (rewrite split_start; [|set_solver|by destruct e]);
      rewrite split_elem by set_solver; cbn [app join split_loop andb]; rewrite Z.eqb_refl; [done|].
    rewrite <-app_assoc, IH by done. by rewrite <-app_assoc. }
  assert (∃ x xs, es ++ [e] = x :: xs) as (x & xs & E) by (destruct es; eauto).
  rewrite E in He |- *. cbn [join app split_path_elements]. rewrite Z.eqb_refl, <-app_assoc, Hgo by done.
  cbn [app]. rewrite <-E. cbn [split_loop]. rewrite bool_decide_true by done. cbn [negb andb].
  rewrite (proj2 (Z.eqb_neq c SLASH)) by done. rewrite bool_decide_false by (by destruct es).
  rewrite length_app. cbn [length]. replace (length es + 1 - 1)%nat with (length es + 0)%nat by lia.
  by rewrite alter_app_r.
Qed.

Lemma split_one_char c : c ≠ SLASH → split_path_elements [SLASH; c] = Crash Fault.
Proof.
  intros Hc. unfold split_path_elements. rewrite Z.eqb_refl. cbn [split_loop].
  rewrite bool_decide_true by done. cbn [negb andb]. by rewrite (proj2 (Z.eqb_neq c SLASH)).
Qed.

(** ** The tree *)

Definition name_of s (c : Z) : option (list Z) := e ← vnodes s !! c; n_name e.

(** [c] is the child of [a] called [nm]. *)
Definition child s (a : Z) (nm : list Z) (c : Z) : Prop :=
  ∃ e, vnodes s !! a = Some e ∧ c ∈ children e ∧ c ≠ 0 ∧ name_of s c = Some nm.

(** [b] is reached from [a] by the names [es]. *)
Fixpoint at_path s (a : Z) es (b : Z) : Prop :=
  match es with
  | [] => a = b
  | e :: es' => ∃ c, child s a e c ∧ at_path s c es' b
  end.

Record vtree_ok s : Prop := {
  t_root : is_Some (vnodes s !! root_node s);
  t_null : vnodes s !! 0 = None;
  t_child a e c : vnodes s !! a = Some e → c ∈ children e → c ≠ 0 →
    c ≠ root_node s ∧ ∃ ce nm, vnodes s !! c = Some ce ∧ n_name ce = Some nm ∧ elem_ok nm ∧ n_parent ce = a;
  t_distinct a nm c1 c2 : child s a nm c1 → child s a nm c2 → c1 = c2;
  t_brk : 0 < vbrk s ∧ ∀ a, is_Some (vnodes s !! a) → a < vbrk s
}.

Lemma name_of_some s c e nm : vnodes s !! c = Some e → n_name e = Some nm → name_of s c = Some nm.
Proof. intros He Hn. unfold name_of. by rewrite He. Qed.

Lemma at_path_app s es1 es2 : ∀ a b,
  at_path s a (es1 ++ es2) b ↔ ∃ c, at_path s a es1 c ∧ at_path s c es2 b.
Proof.
  induction es1 as [|e es1 IH]; intros a b; simpl; [naive_solver|]. setoid_rewrite IH. naive_solver.
Qed.

Lemma at_path_ext s s' es : ∀ a b, vnodes s' = vnodes s → at_path s a es b → at_path s' a es b.
Proof.
  induction es as [|e es IH]; intros a b E; simpl; [done|]. intros (c & Hc & Hp). exists c.
  split; [|by apply IH]. unfold child, name_of in *. by rewrite E.
Qed.

Lemma at_path_fun s es : ∀ a b1 b2, vtree_ok s → at_path s a es b1 → at_path s a es b2 → b1 = b2.
Proof.
  induction es as [|e es IH]; intros a b1 b2 Ht; simpl; [congruence|].
  intros (c1 & H1 & P1) (c2 & H2 & P2). assert (c1 = c2) as -> by (by eapply t_distinct). by eapply IH.
Qed.

Lemma at_path_alloc s es : ∀ a b, vtree_ok s → is_Some (vnodes s !! a) → at_path s a es b → is_Some (vnodes s !! b).
Proof.
  induction es as [|e es IH]; intros a b Ht Ha; simpl; [by intros <-|].
  intros (c & (ea & Hea & Hc & Hc0 & _) & Hp). apply (IH c b Ht); [|done].
  destruct (t_child _ Ht _ _ _ Hea Hc Hc0) as (_ & ce & _ & -> & _). by eexists.
Qed.

(** ** Looking a name up *)

Lemma vfs_acquire_ok s :
  unlocked (vfs_lock s) → vfs_acquire s = Ok (tt, s <| vfs_lock := Z.lor (vfs_lock s) 1 |>).
Proof. intros Hl. unfold vfs_acquire. mstep. by rewrite (spinlock_lock_free _ Hl). Qed.

Lemma vfs_release_ok s :
  unlocked (vfs_lock s) → vfs_release (s <| vfs_lock := Z.lor (vfs_lock s) 1 |>) = Ok (tt, s).
Proof.
  intros Hl. unfold vfs_release, modify. do 2 f_equal. destruct s. cbn in *. by rewrite lock_unlock.
Qed.

Lemma node_at_ok s a e : vnodes s !! a = Some e → node_at a s = Ok (e, s).
Proof. intros He. unfold node_at. mstep. by rewrite He. Qed.

Lemma upd_vnode_ok s a e f :
  vnodes s !! a = Some e → upd_vnode a f s = Ok (tt, s <| vnodes := <[a := f e]> (vnodes s) |>).
Proof. intros He. unfold upd_vnode. mrun (node_at_ok _ _ _ He). reflexivity. Qed.

Lemma of_res_ok {S A} (r : res A) (a : A) (s : S) : r = Ok a → of_res r s = Ok (a, s).
Proof. by intros ->. Qed.

Lemma search_loop_ok s nm l : ∀ i,
  nonzero nm →
  (∀ c, c ∈ l → c ≠ 0 → ∃ ce cn, vnodes s !! c = Some ce ∧ n_name ce = Some cn ∧ nonzero cn) →
  (∃ k c, idx l k = Some c ∧ c ≠ 0 ∧ name_of s c = Some nm ∧ search_loop l nm i s = Ok ((1, i + k), s)) ∨
  ((∀ c, c ∈ l → c ≠ 0 → name_of s c ≠ Some nm) ∧ search_loop l nm i s = Ok ((0, 0), s)).
Proof.
  induction l as [|c l IH]; intros i Hnm Hl; cbn [search_loop]; [right; split; [set_solver|done]|].
  assert (∀ k z, idx l k = Some z → idx (c :: l) (k + 1) = Some z) as Hidx.
  { intros k z Hk. apply idx_Some in Hk as [Hr Hk]. unfold idx. rewrite (proj2 (Z.leb_le _ _)) by lia.
    by replace (Z.to_nat (k + 1)) with (S (Z.to_nat k)) by lia. }
  destruct (IH (i + 1) Hnm) as [(k & z & Hk & Hz & Hn & E)|[Hno E]].
  { intros z Hz. apply Hl. by right. }
  1,2: destruct (c =? 0) eqn:Ec; zbool; cbn [negb].
  - left. exists (k + 1), z. split_and!; [by apply Hidx|done|done|]. rewrite E. do 3 f_equal. lia.
  - destruct (Hl c ltac:(left) Ec) as (ce & cn & Hce & Hcn & Hnz).
    mrun (node_at_ok _ _ _ Hce). mrun (of_opt_ok _ _ s Hcn). rewrite strcmp_of_eqb by done.
    case_bool_decide; left.
    + subst. exists 0, c. split_and!; [done|done|by eapply name_of_some|]. by rewrite Z.add_0_r.
    + exists (k + 1), z. split_and!; [by apply Hidx|done|done|]. rewrite E. do 3 f_equal. lia.
  - right. split; [|done]. intros z [->|Hz]%elem_of_cons; [done|by apply Hno].
  - destruct (Hl c ltac:(left) Ec) as (ce & cn & Hce & Hcn & Hnz).
    mrun (node_at_ok _ _ _ Hce). mrun (of_opt_ok _ _ s Hcn). rewrite strcmp_of_eqb by done.
    case_bool_decide.
    + left. subst. exists 0, c. split_and!; [done|done|by eapply name_of_some|]. by rewrite Z.add_0_r.
    + right. split; [|done]. intros z [->|Hz]%elem_of_cons Hz0; [|by apply Hno].
      rewrite (name_of_some _ _ _ _ Hce Hcn). congruence.
Qed.

Lemma search_node_name_ok s a e nm :
  vtree_ok s → unlocked (vfs_lock s) → vnodes s !! a = Some e → nonzero nm →
  (∃ k c, idx (children e) k = Some c ∧ child s a nm c ∧ search_node_name a nm s = Ok ((1, k), s)) ∨
  ((∀ c, ¬ child s a nm c) ∧ search_node_name a nm s = Ok ((0, 0), s)).
Proof.
  intros Ht Hl He Hnm. unfold search_node_name. set (s1 := s <| vfs_lock := Z.lor (vfs_lock s) 1 |>).
  destruct (search_loop_ok s1 nm (children e) 0 Hnm) as [(k & c & Hk & Hc & Hn & E)|[Hno E]].
  { intros c Hc Hc0. destruct (t_child _ Ht _ _ _ He Hc Hc0) as (_ & ce & cn & Hce & Hcn & (_ & Hz & _) & _). eauto. }
  all: assert (node_at a s1 = Ok (e, s1)) as En by (by apply node_at_ok).
  - left. exists k, c. split_and!; [done| |].
    + exists e. split_and!; [done| |done|done]. apply idx_Some in Hk as [_ Hk]. by eapply list_elem_of_lookup_2.
    + mrun (vfs_acquire_ok s Hl). fold s1. mrun En. mrun E. by mrun (vfs_release_ok s Hl).
  - right. split.
    + intros c (e' & He' & Hc & Hc0 & Hn). simplify_eq. by apply (Hno c).
    + mrun (vfs_acquire_ok s Hl). fold s1. mrun En. mrun E. by mrun (vfs_release_ok s Hl).
Qed.

Lemma walk_loop_ok s es : ∀ a,
  vtree_ok s → unlocked (vfs_lock s) → is_Some (vnodes s !! a) → Forall elem_ok es →
  (∃ b, at_path s a es b ∧ walk_loop es a s = Ok (b, s)) ∨
  ((∀ b, ¬ at_path s a es b) ∧ walk_loop es a s = Ok (0, s)).
Proof.
  induction es as [|nm es IH]; intros a Ht Hl [e He] Hes; cbn [walk_loop]; [left; by exists a|].
  apply Forall_cons in Hes as [(_ & Hz & _) Hes].
  destruct (search_node_name_ok s a e nm Ht Hl He Hz) as [(k & c & Hk & Hc & E)|[Hno E]]; mrun E; cbn [Z.eqb].
  - mrun (vfs_acquire_ok s Hl). set (s1 := s <| vfs_lock := Z.lor (vfs_lock s) 1 |>).
    assert (node_at a s1 = Ok (e, s1)) as En by (by apply node_at_ok). mrun En.
    mrun (of_opt_ok _ _ s1 Hk). mrun (vfs_release_ok s Hl).
    destruct (IH c Ht Hl) as [(b & Hb & Ew)|[Hno Ew]]; [|done| |].
    + destruct Hc as (e' & He' & Hin & Hc0 & _). destruct (t_child _ Ht _ _ _ He' Hin Hc0) as (_ & ce & _ & -> & _).
      by eexists.
    + left. exists b. split; [by exists c|done].
    + right. split; [|done]. intros b (c' & Hc' & Hb). apply (Hno b).
      by rewrite (t_distinct _ Ht _ _ _ _ Hc Hc').
  - right. split; [|done]. intros b (c & Hc & _). by apply (Hno c).
Qed.

Lemma join_not_root es (slash : bool) :
  Forall elem_ok es → es ≠ [] → join es ++ (if slash then [SLASH] else []) ≠ [SLASH].
Proof.
  intros He Hn. destruct es as [|e es]; [done|]. apply Forall_cons in He as [(Hne & _) _].
  destruct e as [|c e]; [done|]. by cbn [join app].
Qed.

Lemma get_node_ok s es (slash : bool) :
  vtree_ok s → unlocked (vfs_lock s) → Forall elem_ok es → es ≠ [] → slash = true ∨ long_end es →
  (∃ b, at_path s (root_node s) es b ∧
     get_node_from_path (join es ++ (if slash then [SLASH] else [])) s = Ok (b, s)) ∨
  ((∀ b, ¬ at_path s (root_node s) es b) ∧
     get_node_from_path (join es ++ (if slash then [SLASH] else [])) s = Ok (0, s)).
Proof.
  intros Ht Hl He Hn Hs. unfold get_node_from_path. rewrite strcmp_of_eqb.
  2: { apply Forall_app. split; [by apply join_nonzero|]. destruct slash; repeat constructor; done. }
  2: { apply slash_nonzero. }
  rewrite bool_decide_false by (by apply join_not_root).
  mrun (of_res_ok _ _ s (split_path_ok es slash He Hn Hs)). mstep. unfold cleanup_split_path.
  rewrite (bool_decide_false (es = [])) by done. cbn [negb].
  destruct (walk_loop_ok s es (root_node s) Ht Hl (t_root _ Ht) He) as [(b & Hb & E)|[Hno E]]; mrun E; eauto.
Qed.

Lemma get_node_root s : get_node_from_path [SLASH] s = Ok (root_node s, s).
Proof. reflexivity. Qed.

(** ** The full path of a node *)

(** A node that is not the root has one parent and one name, so one path. *)
Lemma at_path_inj s es1 : ∀ es2 b,
  vtree_ok s → at_path s (root_node s) es1 b → at_path s (root_node s) es2 b → es1 = es2.
Proof.
  assert (∀ es nm b, vtree_ok s → at_path s (root_node s) (es ++ [nm]) b →
    ∃ p, at_path s (root_node s) es p ∧ child s p nm b ∧ b ≠ root_node s ∧
      ∀ eb, vnodes s !! b = Some eb → n_parent eb = p) as Hsnoc.
  { intros es nm b Ht Hb. apply at_path_app in Hb as (p & Hp & c & Hc & <-). exists p.
    destruct Hc as (ep & Hep & Hin & Hc0 & Hnm). destruct (t_child _ Ht _ _ _ Hep Hin Hc0) as (Hr & ce & cn & Hce & _ & _ & Hpar).
    split_and!; [done|by exists ep|done|congruence]. }
  induction es1 as [|nm1 es1 IH] using rev_ind; intros es2 b Ht H1 H2;
    destruct es2 as [|nm2 es2 _] using rev_ind; [done| | |].
  - apply Hsnoc in H2 as (? & _ & _ & Hr & _); [|done]. simpl in H1. congruence.
  - apply Hsnoc in H1 as (? & _ & _ & Hr & _); [|done]. simpl in H2. congruence.
  - apply Hsnoc in H1 as (p1 & P1 & C1 & _ & E1); [|done]. apply Hsnoc in H2 as (p2 & P2 & C2 & _ & E2); [|done].
    destruct C1 as (e1 & _ & _ & _ & N1), C2 as (e2 & _ & _ & _ & N2).
    unfold name_of in N1. destruct (vnodes s !! b) as [eb|] eqn:Eb; [|done].
    assert (p1 = p2) as -> by (by rewrite <-(E1 eb), <-(E2 eb)).
    rewrite (IH es2 p2 Ht P1 P2). do 2 f_equal. unfold name_of in N2. rewrite Eb in N2. simpl in *. congruence.
Qed.

(** So the nodes of a path are distinct, and a path is shorter than the heap is large. *)
Lemma at_path_length s es b : vtree_ok s → at_path s (root_node s) es b → (length es < size (vnodes s))%nat.
Proof.
  intros Ht Hb. assert (∃ l, length l = S (length es) ∧ NoDup l ∧ ∀ x, x ∈ l → is_Some (vnodes s !! x) ∧
    ∃ es', at_path s (root_node s) es' x ∧ (length es' ≤ length es)%nat) as (l & Hl & Hnd & Hal).
  { revert b Hb. induction es as [|nm es IH] using rev_ind; intros b Hb.
    - simpl in Hb. subst b. exists [root_node s]. split_and!; [done|apply NoDup_singleton|].
      intros x ->%list_elem_of_singleton. split; [apply Ht|by exists []].
    - pose proof Hb as (p & Hp & _)%at_path_app. destruct (IH p Hp) as (l & Hl & Hnd & Hal).
      rewrite length_app. cbn [length]. exists (b :: l). split_and!; [simpl; lia| |].
      + apply NoDup_cons. split; [|done]. intros (_ & es' & He' & Hle)%Hal.
        rewrite (at_path_inj s es' _ b Ht He' Hb), length_app in Hle. simpl in Hle. lia.
      + intros x [->|Hx]%elem_of_cons.
        * split; [eapply at_path_alloc; [done|apply Ht|exact Hb]|]. eexists. split; [exact Hb|].
          rewrite length_app. simpl. lia.
        * destruct (Hal x Hx) as (? & es' & ? & ?). split; [done|]. exists es'. split; [done|lia]. }
  enough (length l ≤ size (vnodes s))%nat by lia.
  rewrite <-size_dom, <-(size_list_to_set (C := gset Z)) by done.
  apply subseteq_size. intros a Ha. apply elem_of_list_to_set in Ha. apply elem_of_dom. by apply Hal.
Qed.

Lemma join_app es1 es2 : join (es1 ++ es2) = join es1 ++ join es2.
Proof. induction es1 as [|e es IH]; [done|]. cbn [app join]. by rewrite IH, <-app_assoc. Qed.

Lemma rev_at {A} (l : list A) k : 0 ≤ k < zlen l → idx l (zlen l - 1 - k) = rev l !! Z.to_nat k.
Proof.
  unfold zlen, idx. intros Hk. rewrite (proj2 (Z.leb_le _ _)) by lia.
  revert k Hk. induction l as [|x l IH] using rev_ind; intros k Hk; [simpl in Hk; lia|].
  rewrite rev_app_distr, length_app in *. cbn [length rev app] in *.
  destruct (decide (k = 0)) as [->|].
  - rewrite lookup_app_r by lia. by replace (_ - _)%nat with 0%nat by lia.
  - rewrite lookup_app_l by lia. replace (Z.to_nat k) with (S (Z.to_nat (k - 1))) by lia. cbn [lookup list_lookup].
    rewrite <-IH by lia. f_equal. lia.
Qed.

(** Writing characters one after the other. *)
Lemma write_loop_ok (get_char : Z → option Z) (w : list Z) pre tl :
  (∀ k, 0 ≤ k < zlen w → get_char k = w !! Z.to_nat k) → (length w ≤ length tl)%nat →
  for_loop (length w) 0 (λ k, c ← of_opt (get_char k); st (zlen pre + k) c) (pre ++ tl) =
    Ok (tt, (pre ++ w) ++ drop (length w) tl).
Proof.
  intros Hw Hl.
  destruct (for_loop_inv (λ k d, d = (pre ++ take (Z.to_nat k) w) ++ drop (Z.to_nat k) tl)
    (λ k, c ← of_opt (get_char k); st (zlen pre + k) c) (length w) 0 (pre ++ tl)) as (d & E & ->).
  - by rewrite take_0, app_nil_r.
  - intros j d Hj ->. destruct (lookup_lt_is_Some_2 w (Z.to_nat j)) as [c Hc]; [lia|].
    rewrite (bind_ok _ _ _ _ _ (of_opt_ok _ c _ (eq_trans (Hw j ltac:(unfold zlen; lia)) Hc))).
    destruct (lookup_lt_is_Some_2 tl (Z.to_nat j)) as [x Hx]; [lia|].
    rewrite (drop_S tl x _ Hx).
    assert (zlen pre + j = zlen (pre ++ take (Z.to_nat j) w)) as ->.
    { rewrite zlen_app. unfold zlen. rewrite length_take. lia. }
    rewrite st_app. eexists. split; [done|]. replace (Z.to_nat (j + 1)) with (S (Z.to_nat j)) by lia.
    rewrite (take_S_r _ _ _ Hc), <-!app_assoc. done.
  - rewrite E. rewrite Z.add_0_l, Nat2Z.id, firstn_all. done.
Qed.

Lemma put_reversed_ok (nm pre tl : list Z) :
  nm ≠ [] → (length nm + 2 ≤ length tl)%nat →
  put_reversed nm (zlen pre) (pre ++ tl) =
    Ok (tt, (pre ++ rev nm ++ [SLASH]) ++ 0 :: drop (length nm + 2) tl).
Proof.
  intros Hnm Hl. destruct nm as [|c nm]; [done|]. unfold put_reversed. cbn [length] in *.
  replace (S (length nm) - 1)%nat with (length (rev nm)) by (rewrite length_rev; lia).
  assert (∀ k, 0 ≤ k < zlen (rev nm) → idx (c :: nm) (zlen (c :: nm) - 1 - k) = rev nm !! Z.to_nat k) as Hrev.
  { intros k Hk. unfold zlen in Hk. rewrite length_rev in Hk. rewrite rev_at by (unfold zlen; cbn [length]; lia).
    cbn [rev]. rewrite lookup_app_l; [done|rewrite length_rev; lia]. }
  mrun (write_loop_ok (λ k, idx (c :: nm) (zlen (c :: nm) - 1 - k)) (rev nm) pre tl Hrev
    ltac:(rewrite length_rev; lia)).
  rewrite length_rev. mstep.
  assert (∃ x y z tl', drop (length nm) tl = x :: y :: z :: tl' ∧ tl' = drop (S (length nm) + 2) tl)
    as (x & y & z & tl' & Etl & Htl').
  { destruct (drop (length nm) tl) as [|x [|y [|z tl']]] eqn:E; apply (f_equal length) in E as El;
      rewrite length_drop in El; cbn [length] in El; try lia. exists x, y, z, tl'. split; [done|].
    replace (S (length nm) + 2)%nat with (length nm + 3)%nat by lia. rewrite <-drop_drop, E. done. }
  rewrite Etl. rewrite <-Htl'. set (q := pre ++ rev nm).
  assert (zlen pre + (zlen (c :: nm) - 1) = zlen q) as ->.
  { unfold q. rewrite zlen_app, zlen_cons. unfold zlen. rewrite length_rev. lia. }
  mrun (st_app q x (y :: z :: tl') c).
  replace (q ++ c :: y :: z :: tl') with ((q ++ [c]) ++ y :: z :: tl') by by rewrite <-app_assoc.
  assert (zlen pre + zlen (c :: nm) = zlen (q ++ [c])) as ->.
  { unfold q. rewrite !zlen_app, !zlen_cons, zlen_nil. unfold zlen. rewrite length_rev. lia. }
  mrun (st_app (q ++ [c]) y (z :: tl') SLASH).
  replace ((q ++ [c]) ++ SLASH :: z :: tl') with (((q ++ [c]) ++ [SLASH]) ++ z :: tl') by by rewrite <-app_assoc.
  replace (zlen (q ++ [c]) + 1) with (zlen ((q ++ [c]) ++ [SLASH])) by (by rewrite (zlen_app (q ++ [c]))).
  rewrite st_app. unfold q. cbn [rev]. by rewrite <-!app_assoc.
Qed.

Section buffers.
Context (junk : Z → list Z).

(** The buffer of [get_full_path] after the elements [d] (the last ones of the path). *)
Definition path_buf (o : option (block Z)) (d : list (list Z)) : Prop :=
  match o with
  | None => d = []
  | Some b => b_size b = zlen (join d) ∧ zlen (b_data b) = PAGE ∧ ∃ rest, b_data b = rev (join d) ++ 0 :: rest
  end.

Lemma capacity_page n : 1 ≤ n ≤ PAGE → capacity 1 n = PAGE.
Proof. intros Hn. unfold capacity. rewrite Z.mul_1_r, Z.div_1_r. dlia. Qed.

Lemma krealloc_path o d n :
  path_buf o d → zlen (join d) < n ≤ PAGE →
  ∃ tl, krealloc_block 0 1 junk o n = Ok (mk_block n (rev (join d) ++ tl)) ∧ zlen (rev (join d) ++ tl) = PAGE.
Proof.
  pose proof (zlen_nonneg (join d)) as H0. intros Hp Hn.
  pose proof (kcalloc_block_ok 0 1 junk ltac:(lia) n ltac:(lia)) as [_ Hc].
  cbn [b_size kcalloc_block] in Hc. rewrite capacity_page in Hc by lia. destruct o as [b|]; simpl in Hp.
  - destruct Hp as (Hs & Hl & rest & Ed). unfold krealloc_block.
    rewrite capacity_page by lia. rewrite Hs, (proj2 (Z.leb_le _ _)) by lia. rewrite Ed.
    assert (Z.to_nat (zlen (join d)) = length (rev (join d))) as El by (rewrite length_rev; unfold zlen; lia).
    rewrite El, take_app_length. eexists. split; [done|].
    unfold zlen in *. rewrite length_app, length_drop, length_rev in *. lia.
  - subst d. exists (b_data (kcalloc_block 0 1 junk n)). split; [done|exact Hc].
Qed.

Lemma full_path_loop_ok s es : ∀ n b o d,
  vtree_ok s → Forall elem_ok es → at_path s (root_node s) es b → path_buf o d →
  (length (join es) + length (join d) ≤ 4094)%nat → (length es < n)%nat →
  ∃ o', full_path_loop junk n b o (zlen (join d)) s = Ok (o', s) ∧ path_buf o' (es ++ d) ∧ (es ≠ [] → o' ≠ None).
Proof.
  induction es as [|nm es IH] using rev_ind; intros n b o d Ht He Hb Hp Hlen Hn;
    (destruct n as [|n]; [simpl in Hn; lia|]); cbn [full_path_loop]; mstep.
  - simpl in Hb. subst b. rewrite Z.eqb_refl. by exists o.
  - apply at_path_app in Hb as (p & Hp' & c & (ep & Hep & Hc & Hc0 & Hnm) & <-).
    apply Forall_app in He as [He [(Hne & Hz & Hsl) _]%Forall_cons].
    destruct (t_child _ Ht _ _ _ Hep Hc Hc0) as (Hroot & ce & cn & Hce & Hcn & _ & Hpar).
    rewrite (name_of_some _ _ _ _ Hce Hcn) in Hnm. injection Hnm as ->.
    rewrite (proj2 (Z.eqb_neq c (root_node s))), (proj2 (Z.eqb_neq c 0)) by done. cbn [negb]. mstep.
    mrun (node_at_ok _ _ _ Hce). rewrite bool_decide_false by congruence. cbn [negb]. mstep.
    mrun (of_opt_ok _ _ s Hcn). rewrite join_app, !length_app in Hlen. cbn [join length] in Hlen.
    rewrite app_nil_r in Hlen.
    destruct (krealloc_path o d (zlen (join d) + zlen nm + 1) Hp) as (tl & Ek & Hl).
    { unfold zlen. lia. }
    mrun (of_res_ok _ _ s Ek). cbn [b_data b_size]. pose proof Hl as Hl'. unfold zlen in Hl'.
    rewrite length_app, length_rev in Hl'.
    pose proof (put_reversed_ok nm (rev (join d)) tl Hne ltac:(lia)) as Er.
    assert (zlen (rev (join d)) = zlen (join d)) as Ez by (unfold zlen; by rewrite length_rev).
    rewrite Ez in Er. unfold on_buf. mrun (of_res_ok _ _ s Er). rewrite Hpar.
    replace (zlen (join d) + zlen nm + 1) with (zlen (join (nm :: d)))
      by (cbn [join]; rewrite zlen_cons, zlen_app; lia).
    destruct (IH n p (Some (mk_block (zlen (join (nm :: d)))
      ((rev (join d) ++ rev nm ++ [SLASH]) ++ 0 :: drop (length nm + 2) tl))) (nm :: d)) as (o' & Eo & Hp'' & Hne');
      [done|done|done| | |rewrite length_app in Hn; simpl in Hn; lia|].
    + assert (rev (join d) ++ rev nm ++ [SLASH] = rev (join (nm :: d))) as ->.
      { cbn [join rev]. by rewrite rev_app_distr, <-app_assoc. }
      split; [done|]. split; [|by eexists]. cbn [b_data]. unfold zlen. rewrite length_app, length_rev. cbn [length].
      rewrite length_drop. cbn [join length]. rewrite length_app. lia.
    + cbn [join length]. rewrite length_app. lia.
    + exists o'. rewrite <-(app_assoc es [nm] d). split_and!; [exact Eo|exact Hp''|]. intros _ ->. simpl in Hp''. by destruct es.
Qed.


(** The buffer holds the path of the node, from the root. *)
Lemma get_full_path_ok s es b :
  vtree_ok s → unlocked (vfs_lock s) → Forall elem_ok es → at_path s (root_node s) es b →
  (length (join es) ≤ 4094)%nat →
  ∃ rest, get_full_path junk b s = Ok (join es ++ 0 :: rest, s).
Proof.
  intros Ht Hl He Hb Hlen. pose proof (at_path_length _ _ _ Ht Hb) as Hsz.
  assert (b ≠ 0) as Hb0.
  { intros ->. destruct (at_path_alloc _ _ _ _ Ht (t_root _ Ht) Hb) as [x Hx]. by rewrite (t_null _ Ht) in Hx. }
  unfold get_full_path. rewrite (proj2 (Z.eqb_neq b 0)) by done. cbn [negb]. mstep. mrun (vfs_acquire_ok s Hl).
  set (s1 := s <| vfs_lock := Z.lor (vfs_lock s) 1 |>). mstep. mstep.
  change (root_node s1) with (root_node s). change (vnodes s1) with (vnodes s).
  assert (vtree_ok s1) as Ht1 by (destruct Ht; split; done).
  destruct (b =? root_node s) eqn:Er; zbool.
  - subst b. rewrite (at_path_inj s es [] (root_node s) Ht Hb eq_refl). cbn [join app].
    cbn [full_path_loop]. rewrite bind_ok with (a := Some (kcalloc_block 0 1 junk 1)) (s' := s1).
    2: { mstep. change (root_node s1) with (root_node s). by rewrite Z.eqb_refl. }
    mrun (vfs_release_ok s Hl). cbn [b_data kcalloc_block]. unfold on_buf.
    pose proof (reverse_ok [] (resize (Z.to_nat (capacity 1 1 - 1)) 0 (junk 1)) ltac:(constructor)) as E.
    cbn [app] in E. eexists. mrun (of_res_ok _ _ s E). reflexivity.
  - destruct (full_path_loop_ok s1 es (S (size (vnodes s))) b None [] Ht1 He
      (at_path_ext s s1 _ _ _ eq_refl Hb) eq_refl ltac:(simpl; lia) ltac:(lia))
      as (o' & Eo & Hp & Hne). change (zlen (join [])) with 0 in Eo. mrun Eo. mrun (vfs_release_ok s Hl).
    rewrite app_nil_r in Hp. destruct o' as [blk|].
    + destruct Hp as (_ & _ & rest & Ed). rewrite Ed. unfold on_buf.
      pose proof (reverse_ok (rev (join es)) rest ltac:(by apply Forall_rev, join_nonzero)) as E.
      rewrite rev_involutive in E. exists rest. mrun (of_res_ok _ _ s E). reflexivity.
    + exfalso. apply Hne; [|done]. intros ->. by simpl in Hb.
Qed.
End buffers.

(** ** Adding nodes *)

(** [s'] has the nodes of [s], with their children, and maybe more. *)
Record extends s s' : Prop := {
  x_root : root_node s' = root_node s;
  x_lock : vfs_lock s' = vfs_lock s;
  x_child x nm c : child s x nm c → child s' x nm c;
  x_alloc x : is_Some (vnodes s !! x) → is_Some (vnodes s' !! x)
}.

#[export] Instance extends_preorder : PreOrder extends.
Proof.
  split; [by split|]. intros s1 s2 s3 [R1 L1 C1 A1] [R2 L2 C2 A2].
  split; [congruence|congruence|auto|auto].
Qed.

Lemma at_path_extends s s' es : ∀ a b, extends s s' → at_path s a es b → at_path s' a es b.
Proof.
  induction es as [|e es IH]; intros a b Hx; simpl; [done|].
  intros (c & Hc & Hp). exists c. split; [by apply Hx|by apply IH].
Qed.

(** The children of a node with one more. *)
Definition one_more (l l' : list Z) (c : Z) : Prop := ∀ x, x ≠ 0 → x ∈ l' ↔ x = c ∨ x ∈ l.

Lemma free_child_ok l : ∀ i,
  match free_child l i with
  | Some k => ∃ j, k = i + j ∧ idx l j = Some 0
  | None => True
  end.
Proof.
  induction l as [|c l IH]; intros i; cbn [free_child]; [done|].
  destruct (c =? 0) eqn:E; zbool; [exists 0; subst; split; [lia|done]|].
  specialize (IH (i + 1)). destruct (free_child l (i + 1)) as [k|]; [|done].
  destruct IH as (j & -> & Hj). exists (j + 1). split; [lia|]. apply idx_Some in Hj as [Hr Hj].
  unfold idx. rewrite (proj2 (Z.leb_le _ _)) by lia. by replace (Z.to_nat (j + 1)) with (S (Z.to_nat j)) by lia.
Qed.

Lemma one_more_upd l j c : idx l j = Some 0 → one_more l (upd l j c) c.
Proof.
  intros [Hr Hj]%idx_Some x Hx. unfold upd, zlen in *. rewrite !list_elem_of_lookup. split.
  - intros (k & Hk). destruct (decide (k = Z.to_nat j)) as [->|].
    + rewrite list_lookup_insert_eq in Hk by lia. left. congruence.
    + rewrite list_lookup_insert_ne in Hk by done. right. by exists k.
  - intros [->|(k & Hk)].
    + exists (Z.to_nat j). apply list_lookup_insert_eq. lia.
    + exists k. rewrite list_lookup_insert_ne; [done|]. intros <-. congruence.
Qed.

Lemma one_more_grow l c : one_more l (l ++ c :: replicate 9 0) c.
Proof.
  intros x Hx. rewrite elem_of_app, elem_of_cons, elem_of_replicate. naive_solver.
Qed.

Lemma vfs_add_child_ok s a c ea ec :
  unlocked (vfs_lock s) → vnodes s !! a = Some ea → vnodes s !! c = Some ec → a ≠ c →
  ∃ l', one_more (children ea) l' c ∧
    vfs_add_child a c s = Ok (tt, s <| vnodes := <[c := ec <| n_parent := a |>]>
                                        (<[a := ea <| children := l' |>]> (vnodes s)) |>).
Proof.
  intros Hl Ha Hc Hac. unfold vfs_add_child.
  set (s1 := s <| vfs_lock := Z.lor (vfs_lock s) 1 |>).
  assert (∃ l', one_more (children ea) l' c ∧
    (match free_child (children ea) 0 with
     | Some i => upd_vnode a (λ p, p <| children := upd (children p) i c |>)
     | None => upd_vnode a (λ p, p <| children := children p ++ c :: replicate 9 0 |>)
     end) s1 = Ok (tt, s1 <| vnodes := <[a := ea <| children := l' |>]> (vnodes s) |>)) as (l' & Hm & E).
  { pose proof (free_child_ok (children ea) 0) as Hf. destruct (free_child (children ea) 0) as [k|].
    - destruct Hf as (j & -> & Hj). exists (upd (children ea) j c). split; [by apply one_more_upd|].
      by rewrite (upd_vnode_ok s1 a ea).
    - exists (children ea ++ c :: replicate 9 0). split; [apply one_more_grow|]. by rewrite (upd_vnode_ok s1 a ea). }
  exists l'. split; [done|]. mrun (vfs_acquire_ok s Hl). fold s1.
  erewrite bind_ok; [|apply node_at_ok; exact Ha]. cbv beta. mrun E.
  erewrite bind_ok; [|apply upd_vnode_ok; cbn; rewrite lookup_insert_ne by done; exact Hc]. cbv beta.
  unfold vfs_release, modify. do 2 f_equal. unfold s1. destruct s. cbn in *. by rewrite lock_unlock.
Qed.

(** The child added, what the children of every node are. *)
Lemma child_added s s' a nm ea l' nw en :
  vtree_ok s → vnodes s !! a = Some ea → one_more (children ea) l' nw → vnodes s !! nw = None → nw ≠ 0 →
  n_name en = Some nm → Forall (λ c, c = 0) (children en) →
  vnodes s' = <[nw := en]> (<[a := ea <| children := l' |>]> (vnodes s)) →
  ∀ x n c, child s' x n c ↔ child s x n c ∨ (x = a ∧ n = nm ∧ c = nw).
Proof.
  intros Ht Ha Hm Hnw Hnz Hen Hch Hv x n c.
  assert (∀ z e, z ≠ nw → vnodes s' !! z = Some e → ∃ e0, vnodes s !! z = Some e0 ∧ n_name e0 = n_name e) as Hold.
  { intros z e Hz He. rewrite Hv, lookup_insert_ne in He by done. destruct (decide (z = a)) as [->|].
    - rewrite lookup_insert_eq in He. injection He as <-. by exists ea.
    - rewrite lookup_insert_ne in He by done. by exists e. }
  assert (name_of s' nw = Some nm) as Hnwn by (unfold name_of; by rewrite Hv, lookup_insert_eq).
  assert (∀ z, z ≠ nw → name_of s' z = name_of s z) as Hname.
  { intros z Hz. unfold name_of. rewrite Hv, lookup_insert_ne by done. destruct (decide (z = a)) as [->|].
    - by rewrite lookup_insert_eq, Ha.
    - by rewrite lookup_insert_ne. }
  assert (∀ x e c, vnodes s !! x = Some e → c ∈ children e → c ≠ 0 → c ≠ nw) as Hne.
  { intros z e d He Hd Hd0 ->. destruct (t_child _ Ht _ _ _ He Hd Hd0) as (_ & ce & _ & E & _). congruence. }
  split.
  - intros (e & He & Hc & Hc0 & Hn). destruct (decide (x = nw)) as [->|Hx].
    { rewrite Hv, lookup_insert_eq in He. injection He as <-. rewrite Forall_forall in Hch. by apply Hch in Hc. }
    rewrite Hv, lookup_insert_ne in He by done. destruct (decide (x = a)) as [->|Hxa].
    + rewrite lookup_insert_eq in He. injection He as <-. cbn in Hc. apply Hm in Hc; [|done]. destruct Hc as [-> |Hc].
      * right. split_and!; congruence.
      * left. exists ea. split_and!; [done|done|done|]. rewrite <-Hname; [done|]. by eapply Hne.
    + rewrite lookup_insert_ne in He by done. left. exists e. split_and!; [done|done|done|].
      rewrite <-Hname; [done|]. by eapply Hne.
  - intros [(e & He & Hc & Hc0 & Hn)|(-> & -> & ->)].
    + assert (x ≠ nw) by congruence. assert (name_of s' c = Some n) by (rewrite Hname; [done|by eapply Hne]).
      destruct (decide (x = a)) as [->|].
      * exists (ea <| children := l' |>). rewrite Hv, lookup_insert_ne, lookup_insert_eq by done.
        split_and!; [done| |done|done]. cbn. apply Hm; [done|]. right. congruence.
      * exists e. by rewrite Hv, !lookup_insert_ne by done.
    + exists (ea <| children := l' |>). assert (a ≠ nw) by congruence.
      rewrite Hv, lookup_insert_ne, lookup_insert_eq by done. split_and!; [done| |done|done]. cbn. apply Hm; auto.
Qed.

Lemma tree_added s s' a nm ea l' nw en :
  vtree_ok s → vnodes s !! a = Some ea → one_more (children ea) l' nw → nw = vbrk s →
  n_name en = Some nm → elem_ok nm → n_parent en = a → Forall (λ c, c = 0) (children en) →
  (∀ c, ¬ child s a nm c) → root_node s' = root_node s → vbrk s' = vbrk s + 65536 →
  vnodes s' = <[nw := en]> (<[a := ea <| children := l' |>]> (vnodes s)) → vtree_ok s'.
Proof.
  intros Ht Ha Hm Hnw Hen Hel Hpar Hch Hno Hr Hbrk Hv. pose proof (t_brk _ Ht) as [Hb0 Hb].
  assert (vnodes s !! nw = None) as Hfree.
  { destruct (vnodes s !! nw) eqn:E; [|done]. specialize (Hb nw ltac:(by eexists)). lia. }
  assert (nw ≠ 0) as Hnz by lia. assert (a ≠ nw) as Hanw by congruence.
  pose proof (child_added s s' a nm ea l' nw en Ht Ha Hm Hfree Hnz Hen Hch Hv) as Hchild.
  assert (∀ z e, vnodes s !! z = Some e → ∃ e', vnodes s' !! z = Some e' ∧ n_name e' = n_name e ∧ n_parent e' = n_parent e) as Hkeep.
  { intros z e He. assert (z ≠ nw) by congruence. rewrite Hv, lookup_insert_ne by done.
    destruct (decide (z = a)) as [->|]; [rewrite lookup_insert_eq|rewrite lookup_insert_ne by done; by exists e].
    eexists. split; [done|]. by simplify_eq. }
  split.
  - rewrite Hr. destruct (t_root _ Ht) as [e He]. destruct (Hkeep _ _ He) as (e' & -> & _). by eexists.
  - rewrite Hv, lookup_insert_ne, lookup_insert_ne; [apply Ht| |done]. intros ->. by rewrite (t_null _ Ht) in Ha.
  - intros x e c He Hc Hc0. rewrite Hr.
    assert (∀ e0, vnodes s !! x = Some e0 → c ∈ children e0 → c ≠ root_node s ∧ ∃ ce cn,
      vnodes s' !! c = Some ce ∧ n_name ce = Some cn ∧ elem_ok cn ∧ n_parent ce = x) as Hold.
    { intros e0 He0 Hc'. destruct (t_child _ Ht _ _ _ He0 Hc' Hc0) as (Hcr & ce & cn & Hce & Hcn & Hok & Hp).
      split; [done|]. destruct (Hkeep _ _ Hce) as (ce' & Hce' & En & Ep). exists ce', cn. split_and!; congruence. }
    destruct (decide (x = nw)) as [->|Hx].
    { rewrite Hv, lookup_insert_eq in He. injection He as <-. rewrite Forall_forall in Hch. by apply Hch in Hc. }
    rewrite Hv, lookup_insert_ne in He by done. destruct (decide (x = a)) as [->|].
    + rewrite lookup_insert_eq in He. injection He as <-. cbn in Hc. apply Hm in Hc; [|done].
      destruct Hc as [->|Hc]; [|by apply (Hold ea)]. split.
      * intros Hroot. destruct (t_root _ Ht) as [z Hz]. congruence.
      * exists en, nm. rewrite Hv, lookup_insert_eq. done.
    + rewrite lookup_insert_ne in He by done. by apply (Hold e).
  - intros x n c1 c2 H1 H2. apply Hchild in H1, H2.
    destruct H1 as [H1|(-> & -> & ->)], H2 as [H2|(E1 & E2 & E3)]; subst; [by eapply t_distinct| | |done].
    + exfalso. by apply (Hno c1).
    + exfalso. by apply (Hno c2).
  - split; [lia|]. intros z [e He]. rewrite Hv in He. destruct (decide (z = nw)) as [->|]; [lia|].
    rewrite lookup_insert_ne in He by done. rewrite Hbrk. enough (z < vbrk s) by lia. apply Hb.
    destruct (decide (z = a)) as [->|]; [by eexists|]. rewrite lookup_insert_ne in He by done. by eexists.
Qed.

Lemma add_missing_ok s a nm ops root first :
  vtree_ok s → unlocked (vfs_lock s) → is_Some (vnodes s !! a) → elem_ok nm →
  ∃ r s', add_missing a nm ops root first s = Ok (r, s') ∧ vtree_ok s' ∧ extends s s' ∧
    (∃ c, child s' a nm c) ∧ (∀ x n c, child s' x n c → child s x n c ∨ (x = a ∧ n = nm)).
Proof.
  intros Ht Hl [ea Hea] Hnm. unfold add_missing.
  destruct (search_node_name_ok s a ea nm Ht Hl Hea ltac:(apply Hnm)) as [(k & c & Hk & Hc & E)|[Hno E]];
    mrun E; cbn [Z.eqb].
  - exists first, s. split_and!; [done|done|done|by exists c|auto].
  - pose proof (t_brk _ Ht) as [Hb0 Hb]. set (nw := vbrk s).
    assert (vnodes s !! nw = None) as Hfree.
    { destruct (vnodes s !! nw) eqn:En; [|done]. specialize (Hb nw ltac:(by eexists)). unfold nw in Hb. lia. }
    assert (a ≠ nw) as Hanw by congruence.
    set (en := mk_node (Some nm) ops 0 0 0 0 root (replicate 10 0) (current_unid s)).
    set (s1 := s <| vbrk := nw + 65536 |> <| current_unid := u64 (current_unid s + 1) |>
                 <| vnodes := <[nw := en]> (vnodes s) |>).
    assert ((new_node ← vfs_new_node nm ops; upd_vnode new_node (λ e, e <| fs_root := root |>) ;;
      vfs_add_child a new_node ;; mret (if first =? 0 then new_node else first)) s =
      (vfs_add_child a nw ;; mret (if first =? 0 then nw else first)) s1) as ->.
    { unfold vfs_new_node. rewrite bind_ok with (a := nw) (s' := s <| vbrk := nw + 65536 |>
        <| current_unid := u64 (current_unid s + 1) |>
        <| vnodes := <[nw := mk_node (Some nm) ops 0 0 0 0 0 (replicate 10 0) (current_unid s)]> (vnodes s) |>);
        [|reflexivity].
      erewrite bind_ok; [|apply upd_vnode_ok, lookup_insert_eq]. cbv beta. f_equal. unfold s1.
      destruct s. cbn. by rewrite insert_insert_eq. }
    destruct (vfs_add_child_ok s1 a nw ea en) as (l' & Hm & Ea); [done| |apply lookup_insert_eq|done|].
    { unfold s1. cbn. by rewrite lookup_insert_ne. }
    mrun Ea. eexists _, _. split; [reflexivity|].
    match goal with |- vtree_ok ?s' ∧ _ => set (s2 := s') end.
    assert (vnodes s2 = <[nw := en <| n_parent := a |>]> (<[a := ea <| children := l' |>]> (vnodes s))) as Hv.
    { unfold s2, s1. cbn. rewrite (insert_insert_ne _ a nw) by done. by rewrite insert_insert_eq. }
    assert (Forall (λ c, c = 0) (children (en <| n_parent := a |>))) as Hz by (cbn; repeat constructor).
    pose proof (child_added s s2 a nm ea l' nw (en <| n_parent := a |>) Ht Hea Hm Hfree ltac:(unfold nw; lia)
      eq_refl Hz Hv) as Hchild.
    split_and!.
    + by eapply (tree_added s s2 a nm ea l' nw (en <| n_parent := a |>)).
    + split; [done|done| |].
      * intros x n c Hc. apply Hchild. by left.
      * intros x [e He]. rewrite Hv. destruct (decide (x = nw)) as [->|]; [rewrite lookup_insert_eq; by eexists|].
        rewrite lookup_insert_ne by done. destruct (decide (x = a)) as [->|];
          [rewrite lookup_insert_eq; by eexists|rewrite lookup_insert_ne by done; by eexists].
    + exists nw. apply Hchild. by right.
    + intros x n c Hc. apply Hchild in Hc. tauto.
Qed.
