(* ===== verification/VfsCreate.v ===== *)
(** * Creating the nodes of a path, and what the VFS tree promises

    [create_missing_nodes_from_path] adds the nodes of a path that are not in the
    tree; the properties of the tree's routines are at the end of the file. *)

From S2P Require Import Prelude Locks CString Blocks Vfs VfsTheorems.

Implicit Types s : fs_t.
Implicit Types es : list (list Z).

(** Elements that [split_path_elements] keeps apart wherever they are. *)
Definition long_elem (e : list Z) : Prop := elem_ok e ∧ (1 < length e)%nat.

Lemma long_elem_ok es : Forall long_elem es → Forall elem_ok es.
Proof. intros H. eapply Forall_impl; [exact H|]. by intros e [? _]. Qed.

Lemma long_elem_end es : Forall long_elem es → long_end es.
Proof.
  intros H. unfold long_end. destruct (last es) as [e|] eqn:E; [|done].
  apply last_Some in E as [l ->]. by apply Forall_app in H as [_ [[_ ?] _]%Forall_cons].
Qed.

(** The buffer [current_full_path] after the elements [d]. *)
Definition path_str (d : list (list Z)) : list Z := if bool_decide (d = []) then [SLASH] else join d.

Lemma path_str_nonzero d : Forall long_elem d → Forall (λ c, c ≠ 0) (path_str d).
Proof.
  intros Hd. unfold path_str. case_bool_decide; [apply slash_nonzero|by apply join_nonzero, long_elem_ok].
Qed.

Lemma cstring_ok (l rest : list Z) : Forall (λ c, c ≠ 0) l → cstring (l ++ 0 :: rest) = Some l.
Proof.
  induction l as [|c l IH]; intros Hl; [done|]. apply Forall_cons in Hl as [Hc Hl]. cbn [app cstring].
  rewrite (proj2 (Z.eqb_neq c 0)) by done. by rewrite IH.
Qed.

Lemma elem_last (e : list Z) : elem_ok e → ∃ k c, e = k ++ [c] ∧ c ≠ SLASH.
Proof.
  intros (Hn & _ & Hs). destruct e as [|c k _] using rev_ind; [done|]. exists k, c. split; [done|]. set_solver.
Qed.

Lemma path_str_last d : Forall long_elem d → ∃ k c, path_str d = k ++ [c] ∧ (c = SLASH ↔ d = []).
Proof.
  intros Hd. unfold path_str. case_bool_decide as E; [by exists [], SLASH|].
  destruct d as [|e d _] using rev_ind; [done|]. apply Forall_app in Hd as [_ [[He _] _]%Forall_cons].
  destruct (elem_last e He) as (k & c & -> & Hc). exists (join d ++ SLASH :: k), c.
  rewrite join_app. cbn [join]. rewrite app_nil_r, <-app_assoc. split; [done|]. by split.
Qed.

Lemma path_join_ok d e (full tl : list Z) :
  Forall long_elem d → elem_ok e → (length (path_str (d ++ [e])) < length (path_str d ++ 0%Z :: full))%nat →
  ∃ full', path_join (e ++ 0 :: tl) (path_str d ++ 0 :: full) = Ok (tt, path_str (d ++ [e]) ++ 0 :: full') ∧
    length (path_str (d ++ [e]) ++ 0 :: full') = length (path_str d ++ 0 :: full).
Proof.
  intros Hd He Hlen. pose proof (path_str_nonzero d Hd) as Hz. destruct (path_str_last d Hd) as (k & c & Ek & Hc).
  assert (path_str (d ++ [e]) = path_str d ++ (if bool_decide (d = []) then [] else [SLASH]) ++ e) as Epath.
  { unfold path_str. rewrite (bool_decide_false (d ++ [e] = [])) by (by destruct d).
    rewrite join_app. cbn [join]. rewrite app_nil_r. case_bool_decide as E; [by subst|done]. }
  assert (∃ x e', e = x :: e' ∧ x ≠ SLASH) as (x & e' & Ee & Hx).
  { destruct He as (Hn & _ & Hs). destruct e as [|x e']; [done|]. exists x, e'. split; [done|]. set_solver. }
  unfold path_join. mrun (strlen_ok0 (path_str d) full Hz).
  assert (ld (zlen (path_str d) - 1) (path_str d ++ 0 :: full) = Ok (c, path_str d ++ 0 :: full)) as Eld.
  { rewrite Ek. apply ld_last. }
  mrun Eld. assert (reading (e ++ 0 :: tl) (ld 0) (path_str d ++ 0 :: full) = Ok (x, path_str d ++ 0 :: full)) as Er.
  { eapply reading_ok. rewrite Ee. apply ld_0. }
  mrun Er. rewrite (proj2 (Z.eqb_neq x SLASH)) by done. cbn [negb]. rewrite andb_true_r.
  rewrite Epath in Hlen |- *. rewrite !length_app in Hlen. cbn [length] in Hlen.
  destruct (bool_decide (d = [])) eqn:Ed.
  - apply bool_decide_eq_true in Ed. rewrite (proj2 Hc Ed). cbn [Z.eqb negb]. rewrite Z.eqb_refl. cbn [negb]. mstep.
    rewrite strcat_ok; [|done|apply He|simpl in Hlen; lia]. eexists. split; [done|].
    rewrite !length_app. cbn [length]. rewrite length_drop. simpl in Hlen. lia.
  - apply bool_decide_eq_false in Ed. rewrite (proj2 (Z.eqb_neq c SLASH)) by tauto. cbn [negb].
    cbn [length] in Hlen.
    mrun (strcat_ok (path_str d) full [SLASH] [] Hz slash_nonzero ltac:(cbn; lia)).
    rewrite strcat_ok; [|by apply Forall_app; split; [done|apply slash_nonzero]|apply He|rewrite length_drop; cbn; lia].
    eexists. split; [by rewrite (app_assoc (path_str d))|]. rewrite !length_app. cbn [length].
    rewrite !length_drop. cbn [length]. lia.
Qed.

(** The characters of an element go to [temp_buffer]. *)
Lemma create_chars (e p : list Z) : ∀ (e0 tl full : list Z) ops root first s,
  e ≠ [] → SLASH ∉ e → (length e < length tl)%nat →
  ∃ tl', create_loop (e ++ p) (zlen e0) (e0 ++ tl) full ops root first s =
      create_loop p (zlen (e0 ++ e)) ((e0 ++ e) ++ 0 :: tl') full ops root first s ∧
    length ((e0 ++ e) ++ 0 :: tl') = length (e0 ++ tl).
Proof.
  induction e as [|c e IH]; intros e0 tl full ops root first s Hn Hs Hl; [done|]. cbn [app create_loop].
  rewrite (proj2 (Z.eqb_neq c SLASH)) by set_solver. destruct tl as [|x [|y tl]]; [simpl in Hl; lia..|].
  assert ((st (zlen e0) c ;; st (zlen e0 + 1) 0) (e0 ++ x :: y :: tl) = Ok (tt, (e0 ++ [c]) ++ 0 :: tl)) as E.
  { mrun (st_app e0 x (y :: tl) c). replace (e0 ++ c :: y :: tl) with ((e0 ++ [c]) ++ y :: tl) by by rewrite <-app_assoc.
    replace (zlen e0 + 1) with (zlen (e0 ++ [c])) by by rewrite zlen_app. apply st_app. }
  unfold on_buf. mrun (of_res_ok _ _ s E). replace (zlen e0 + 1) with (zlen (e0 ++ [c])) by by rewrite zlen_app.
  destruct e as [|c' e].
  - exists tl. split; [done|]. rewrite !length_app. simpl. lia.
  - destruct (IH (e0 ++ [c]) (0 :: tl) full ops root first s) as (tl' & E' & El); [done|set_solver|simpl in *; lia|].
    exists tl'. rewrite E'. rewrite <-(app_assoc e0 [c]). split; [done|].
    rewrite <-(app_assoc e0 [c]) in El. cbn [app] in El |- *. rewrite El, !length_app. simpl. lia.
Qed.

(** The parent of the next element is found. *)
Lemma parent_found s d a :
  vtree_ok s → unlocked (vfs_lock s) → Forall long_elem d → at_path s (root_node s) d a →
  get_node_from_path (path_str d) s = Ok (a, s).
Proof.
  intros Ht Hl Hd Ha. unfold path_str. case_bool_decide as E.
  - subst d. simpl in Ha. subst a. apply get_node_root.
  - destruct (get_node_ok s d false Ht Hl (long_elem_ok _ Hd) E (or_intror (long_elem_end _ Hd)))
      as [(b & Hb & Eb)|[Hno _]]; [|by destruct (Hno a)].
    cbv iota in Eb. rewrite app_nil_r in Eb. by rewrite (at_path_fun s d (root_node s) a b Ht Ha Hb).
Qed.

(** What was not there before is on the path [es]. *)
Definition only_path s s' es : Prop :=
  ∀ x n c, child s' x n c → child s x n c ∨ ∃ d rest, es = d ++ n :: rest ∧ at_path s' (root_node s') d x.

Lemma only_path_trans s1 s2 s3 es :
  extends s2 s3 → only_path s1 s2 es → only_path s2 s3 es → only_path s1 s3 es.
Proof.
  intros Hx H1 H2 x n c Hc. destruct (H2 x n c Hc) as [Hc2|?]; [|by right].
  destruct (H1 x n c Hc2) as [?|(d & rest & -> & Hd)]; [by left|right]. exists d, rest. split; [done|].
  rewrite (x_root _ _ Hx). by eapply at_path_extends.
Qed.

(** One element: its parent is found, and the element added when it is missing. *)
Lemma add_elem_ok s d e rest a ops root first :
  vtree_ok s → unlocked (vfs_lock s) → Forall long_elem d → elem_ok e → at_path s (root_node s) d a →
  ∃ r s' b, add_missing a e ops root first s = Ok (r, s') ∧ vtree_ok s' ∧ extends s s' ∧
    at_path s' (root_node s') (d ++ [e]) b ∧ only_path s s' (d ++ e :: rest).
Proof.
  intros Ht Hl Hd He Ha.
  destruct (add_missing_ok s a e ops root first Ht Hl (at_path_alloc _ _ _ _ Ht (t_root _ Ht) Ha) He)
    as (r & s' & E & Ht' & Hx & (c & Hc) & Hnew). exists r, s', c. split_and!; [done..| |].
  - apply at_path_app. exists a. split; [|by exists c]. rewrite (x_root _ _ Hx). by eapply at_path_extends.
  - intros x n z Hz. destruct (Hnew x n z Hz) as [?|[-> ->]]; [by left|right].
    exists d, rest. split; [done|]. rewrite (x_root _ _ Hx). by eapply at_path_extends.
Qed.

(** The loop, at the start of an element. *)
Lemma create_loop_ok es : ∀ e d s a (tl full : list Z) ops root first,
  vtree_ok s → unlocked (vfs_lock s) → Forall long_elem (d ++ e :: es) → at_path s (root_node s) d a →
  (length (join (d ++ e :: es)) ≤ length tl)%nat →
  (length (join (d ++ e :: es)) ≤ length (path_str d ++ 0%Z :: full))%nat →
  ∃ r s' b, create_loop (e ++ join es) 0 tl (path_str d ++ 0 :: full) ops root first s = Ok (r, s') ∧
    vtree_ok s' ∧ extends s s' ∧ at_path s' (root_node s') (d ++ e :: es) b ∧ only_path s s' (d ++ e :: es).
Proof.
  induction es as [|e2 es IH]; intros e d s a tl full ops root first Ht Hl Hes Ha Htl Hfull;
    pose proof Hes as [Hd [[He _] _]%Forall_cons]%Forall_app;
    pose proof He as (Hne & Hz & Hs);
    (assert (length e < length tl)%nat as Hel by (rewrite join_app, length_app in Htl; cbn [join length] in Htl;
       rewrite length_app in Htl; lia)).
  - destruct (create_chars e [] [] tl (path_str d ++ 0 :: full) ops root first s Hne Hs Hel) as (tl' & E & El).
    cbn [join]. change (zlen []) with 0 in E. cbn [app] in E. rewrite E. cbn [create_loop].
    mrun (of_opt_ok _ _ s (cstring_ok _ full (path_str_nonzero d Hd))). mrun (parent_found s d a Ht Hl Hd Ha).
    assert (a ≠ 0) as Ha0.
    { intros ->. destruct (at_path_alloc _ _ _ _ Ht (t_root _ Ht) Ha) as [x Hx]. by rewrite (t_null _ Ht) in Hx. }
    rewrite (proj2 (Z.eqb_neq a 0)) by done. mrun (of_opt_ok _ _ s (cstring_ok e tl' Hz)).
    by destruct (add_elem_ok s d e [] a ops root first Ht Hl Hd He Ha) as (r & s' & b & Er); exists r, s', b.
  - destruct (create_chars e (join (e2 :: es)) [] tl (path_str d ++ 0 :: full) ops root first s Hne Hs Hel)
      as (tl' & E & El). change (zlen []) with 0 in E. cbn [app] in E, El. rewrite E. cbn [join create_loop].
    rewrite Z.eqb_refl. mrun (of_opt_ok _ _ s (cstring_ok _ full (path_str_nonzero d Hd))).
    mrun (parent_found s d a Ht Hl Hd Ha). assert (a ≠ 0) as Ha0.
    { intros ->. destruct (at_path_alloc _ _ _ _ Ht (t_root _ Ht) Ha) as [x Hx]. by rewrite (t_null _ Ht) in Hx. }
    rewrite (proj2 (Z.eqb_neq a 0)) by done. mrun (of_opt_ok _ _ s (cstring_ok e tl' Hz)).
    destruct (add_elem_ok s d e (e2 :: es) a ops root first Ht Hl Hd He Ha) as (r & s1 & b & Er & Ht1 & Hx1 & Hb & Ho).
    mrun Er.
    assert (d ++ e :: e2 :: es = (d ++ [e]) ++ e2 :: es) as Esplit by by rewrite <-app_assoc.
    destruct (path_join_ok d e full tl' Hd He) as (full' & Ej & Ejl).
    { rewrite Esplit, join_app, length_app in Hfull. cbn [join length] in Hfull.
      unfold path_str at 1. rewrite bool_decide_false by (by destruct d). lia. }
    unfold on_buf. mrun (of_res_ok _ _ s1 Ej). rewrite Esplit in *.
    destruct (IH e2 (d ++ [e]) s1 b (e ++ 0 :: tl') full' ops root r) as (r' & s2 & b' & E2 & Ht2 & Hx2 & Hb2 & Ho2);
      [done|by rewrite (x_lock _ _ Hx1)|done|done|by rewrite El|by rewrite Ejl|].
    exists r', s2, b'. split_and!; [exact E2|done|by etransitivity|done|by eapply only_path_trans].
Qed.

Lemma cut_slash_app l : cut_slash (l ++ [SLASH]) = l.
Proof. unfold cut_slash. rewrite last_snoc, bool_decide_true by done. apply removelast_last. Qed.

Lemma cut_slash_other l c : c ≠ SLASH → cut_slash (l ++ [c]) = l ++ [c].
Proof. intros Hc. unfold cut_slash. by rewrite last_snoc, bool_decide_false by congruence. Qed.

(** The string of the caller, and the part of it the loop reads. *)
Lemma cut_join e es (slash : bool) :
  Forall long_elem (e :: es) →
  cut_slash (join (e :: es) ++ (if slash then [SLASH] else [])) = join (e :: es) ∧
  cut_slash ((e ++ join es) ++ (if slash then [SLASH] else [])) = e ++ join es.
Proof.
  intros He. destruct slash; [by rewrite !cut_slash_app|]. rewrite !app_nil_r.
  destruct (path_str_last (e :: es) He) as (k & c & Ek & Hc).
  change (path_str (e :: es)) with (join (e :: es)) in Ek. assert (c ≠ SLASH) as Hcs by naive_solver.
  split; [rewrite Ek; by apply cut_slash_other|]. cbn [join] in Ek. destruct k as [|x k]; injection Ek as _ Ek.
  - apply Forall_cons in He as [[(Hn & _) _] _]. by destruct e.
  - rewrite Ek. by apply cut_slash_other.
Qed.

(** ** Properties *)

(** Looking a path up.  For any elements (not empty, without slashes and zero bytes), with
    or without a slash at the end, [get_node_from_path] returns the node the names lead to
    from the root, or null when there is none, and changes nothing.  The last element has
    to be longer than one character unless a slash follows it. *)
Theorem get_node_from_path_correct s es (slash : bool) :
  vtree_ok s → unlocked (vfs_lock s) → Forall elem_ok es → es ≠ [] → slash = true ∨ long_end es →
  (∃ b, at_path s (root_node s) es b ∧
     get_node_from_path (join es ++ (if slash then [SLASH] else [])) s = Ok (b, s)) ∨
  ((∀ b, ¬ at_path s (root_node s) es b) ∧
     get_node_from_path (join es ++ (if slash then [SLASH] else [])) s = Ok (0, s)).
Proof. apply get_node_ok. Qed.


(** C17: creating the missing nodes of a path.  The call returns, the tree stays well formed,
    the path leads to a node afterwards, every link that was there stays, and every new link
    is a link of this path.  The caller's string loses its last slash.  The elements have at
    least two characters. *)
Theorem create_missing_nodes_correct junk s es (slash : bool) ops root :
  vtree_ok s → unlocked (vfs_lock s) → Forall long_elem es → es ≠ [] →
  ∃ r s' b, create_missing_nodes_from_path junk (join es ++ (if slash then [SLASH] else [])) ops root s =
      Ok ((r, join es), s') ∧
    vtree_ok s' ∧ extends s s' ∧ at_path s' (root_node s') es b ∧ only_path s s' es.
Proof.
  intros Ht Hl He Hn. destruct es as [|e es]; [done|]. set (P := join (e :: es) ++ (if slash then [SLASH] else [])).
  destruct (cut_join e es slash He) as [Ec1 Ec2]. unfold create_missing_nodes_from_path. cbv zeta.
  assert (length (join (e :: es)) ≤ length P)%nat as HP by (unfold P; rewrite length_app; lia).
  pose proof (kcalloc_block_ok 0 1 junk ltac:(lia) (zlen P) ltac:(apply zlen_nonneg)) as [_ Hcap].
  pose proof (capacity_ge 1 ltac:(lia) (zlen P) ltac:(apply zlen_nonneg)) as Hge.
  cbn [b_size kcalloc_block] in Hcap. set (buf := b_data (kcalloc_block 0 1 junk (zlen P))) in *.
  assert (∃ full, buf = 0 :: 0 :: full) as [full Ebuf].
  { pose proof He as [[_ Hlen] _]%Forall_cons. cbn [join length] in HP. rewrite length_app in HP.
    unfold buf, kcalloc_block. cbn [b_data]. replace (Z.to_nat (zlen P)) with (S (S (length P - 2))) by (unfold zlen; lia).
    by eexists. }
  assert (st 0 SLASH buf = Ok (tt, path_str [] ++ 0 :: full)) as Est by by rewrite Ebuf.
  unfold on_buf. mrun (of_res_ok _ _ s Est).
  assert (cut_slash (if bool_decide (head P = Some SLASH) then tail P else P) = e ++ join es) as ->.
  { unfold P. cbn [join app head tail]. by rewrite bool_decide_true. }
  assert (length (path_str [] ++ 0%Z :: full) = length buf) as El by by rewrite Ebuf.
  destruct (create_loop_ok es e [] s (root_node s) buf full ops root 0 Ht Hl He eq_refl) as (r & s' & b & E & Hres);
    [unfold zlen in *; cbn [app]; lia|unfold zlen in *; cbn [app] in *; lia|].
  mrun E. fold P in Ec1. rewrite Ec1. by exists r, s', b.
Qed.

(** *** A small tree: [/dev/tty0] *)
Definition demo_fs : fs_t :=
  mk_fs {[100 := mk_node None null_vfs_ops 1 0 0 0 0 (200 :: replicate 9 0) 0;
          200 := mk_node (Some (chars "dev")) null_vfs_ops 0 0 7 100 0 (300 :: replicate 9 0) 0;
          300 := mk_node (Some (chars "tty0")) null_vfs_ops 0 0 0 200 200 (replicate 10 0) 1]}
    ∅ 100 0 2 65536.

Lemma demo_elems : Forall long_elem [chars "dev"; chars "tty0"] ∧ Forall long_elem [chars "dev"; chars "fb0"].
Proof. split; repeat constructor; try (vm_compute; lia); try done; vm_compute; set_solver. Qed.

Lemma demo_nodes a e : vnodes demo_fs !! a = Some e →
  (a = 100 ∧ children e = 200 :: replicate 9 0) ∨ (a = 200 ∧ children e = 300 :: replicate 9 0) ∨
  (a = 300 ∧ children e = replicate 10 0).
Proof.
  unfold demo_fs. cbn [vnodes]. intros [[<- <-]|[_ H]]%lookup_insert_Some; [tauto|].
  apply lookup_insert_Some in H as [[<- <-]|[_ H]]; [tauto|]. apply lookup_singleton_Some in H as [<- <-]. tauto.
Qed.

Lemma demo_children a e c : vnodes demo_fs !! a = Some e → c ∈ children e → c ≠ 0 →
  (a = 100 ∧ c = 200) ∨ (a = 200 ∧ c = 300).
Proof.
  intros [[-> ->]|[[-> ->]|[-> ->]]]%demo_nodes Hc Hc0;
    rewrite ?elem_of_cons, ?elem_of_replicate in Hc; naive_solver.
Qed.

Lemma demo_tree : vtree_ok demo_fs.
Proof.
  split.
  - by eexists.
  - done.
  - intros a e c He Hc Hc0. destruct demo_elems as [[[H1 _] [[H2 _] _]%Forall_cons]%Forall_cons _].
    destruct (demo_children _ _ _ He Hc Hc0) as [[-> ->]|[-> ->]]; (split; [done|]);
      eexists _, _; (split_and!; [vm_compute; reflexivity|reflexivity|done|done]).
  - intros a nm c1 c2 (e1 & He1 & Hc1 & H1 & _) (e2 & He2 & Hc2 & H2 & _). simplify_eq.
    destruct (demo_children _ _ _ He1 Hc1 H1) as [[-> ->]|[-> ->]], (demo_children _ _ _ He1 Hc2 H2) as [[? ->]|[? ->]]; done.
  - split; [done|]. intros a [e He]. apply demo_nodes in He. cbn. naive_solver lia.
Qed.

Lemma demo_path : at_path demo_fs 100 [chars "dev"; chars "tty0"] 300.
Proof.
  exists 200. split; [|exists 300; split; [|done]]; eexists; (split_and!; [vm_compute; reflexivity|left|done|done]).
Qed.

Lemma get_node_from_path_correct_witness :
  get_node_from_path (chars "/dev/tty0/") demo_fs = Ok (300, demo_fs) ∧
  (∃ b, get_node_from_path (chars "/dev/tty0") demo_fs = Ok (b, demo_fs)).
Proof.
  pose proof (long_elem_ok _ (proj1 demo_elems)) as He. split.
  - destruct (get_node_from_path_correct demo_fs _ true demo_tree eq_refl He ltac:(done) (or_introl eq_refl))
      as [(b & Hb & E)|[Hno _]]; [|by destruct (Hno _ demo_path)].
    rewrite (at_path_fun _ _ _ _ _ demo_tree demo_path Hb). exact E.
  - destruct (get_node_from_path_correct demo_fs _ false demo_tree eq_refl He ltac:(done)
      (or_intror (long_elem_end _ (proj1 demo_elems)))) as [(b & _ & E)|[_ E]]; eauto.
Defined.


Lemma create_missing_nodes_correct_witness :
  ∃ r s' b, create_missing_nodes_from_path (λ _, []) (chars "/dev/fb0/") null_vfs_ops 200 demo_fs =
      Ok ((r, chars "/dev/fb0"), s') ∧ at_path s' (root_node s') [chars "dev"; chars "fb0"] b.
Proof.
  destruct (create_missing_nodes_correct (λ _, []) demo_fs [chars "dev"; chars "fb0"] true null_vfs_ops 200 demo_tree)
    as (r & s' & b & E & _ & _ & Hb & _); [reflexivity|apply demo_elems|done|by exists r, s', b].
Defined.

(** *** What goes wrong *)

(** A path whose last element has one character is looked up without its last slash. *)
Lemma lookup_short_last s es e c :
  vtree_ok s → unlocked (vfs_lock s) → Forall elem_ok (es ++ [e]) → c ≠ SLASH → c ≠ 0 → elem_ok (e ++ [c]) →
  get_node_from_path (join (es ++ [e]) ++ [SLASH; c]) s = get_node_from_path (join (es ++ [e ++ [c]])) s.
Proof.
  intros Ht Hl He Hc Hc0 Hec. apply Forall_app in He as HeS. destruct HeS as [Hes [Hee _]%Forall_cons].
  assert (Forall elem_ok (es ++ [e ++ [c]])) as He' by (apply Forall_app; split; [done|by constructor]).
  unfold get_node_from_path. rewrite !strcmp_of_eqb; [|by apply join_nonzero|apply slash_nonzero| |apply slash_nonzero].
  2: { apply Forall_app. split; [by apply join_nonzero|]. repeat constructor; done. }
  rewrite !bool_decide_false.
  - rewrite split_short_last by done. pose proof (split_path_ok (es ++ [e ++ [c]]) false He') as Es.
    cbv iota in Es. rewrite app_nil_r in Es. rewrite Es; [done|by destruct es|right]. unfold long_end.
    rewrite last_snoc, length_app. destruct Hee as (Hne & _). destruct e; [done|]. simpl. lia.
  - pose proof (join_not_root (es ++ [e ++ [c]]) false He' ltac:(by destruct es)) as Hr. by rewrite app_nil_r in Hr.
  - intros Heq. apply (f_equal length) in Heq. rewrite length_app in Heq. simpl in Heq. lia.
Qed.

(** Removing a node that has a child never returns. *)
Lemma remove_node_deadlock s n a p c ea ep ec :
  unlocked (vfs_lock s) → vnodes s !! a = Some ea → n_parent ea = p → vnodes s !! p = Some ep → p ≠ a →
  idx (children ea) 0 = Some c → c ≠ 0 → c ≠ a → vnodes s !! c = Some ec →
  remove_node (S (S n)) a s = Crash Deadlock.
Proof.
  intros Hl Ha Hp Hpn Hpa Hc Hc0 Hca Hec. cbn [remove_node]. mrun (vfs_acquire_ok s Hl).
  erewrite bind_ok; [|apply node_at_ok; exact Ha]. cbv beta. rewrite Hp.
  erewrite bind_ok; [|apply upd_vnode_ok; exact Hpn]. cbv beta. apply bind_crash.
  destruct (children ea) as [|c' l] eqn:El; [done|]. injection Hc as ->. cbn [length for_loop]. apply bind_crash.
  erewrite bind_ok; [|apply node_at_ok; cbn; rewrite lookup_insert_ne by done; exact Ha]. cbv beta.
  erewrite bind_ok; [|apply of_opt_ok; by rewrite El]. cbv beta. rewrite (proj2 (Z.eqb_neq c 0)) by done. cbn [negb].
  apply bind_crash. unfold vfs_acquire. mstep. cbn. by rewrite spinlock_lock_held.
Qed.
