(* ===== verification/Kernel.v ===== *)
(** * Processes, threads and processors: the shared kernel state

    The structures of proc/process_management.h, proc/sleep_queue.h, fs/fd.h,
    sys/smp.h and sys/int/isr.h, and the globals of proc/scheduler.c,
    proc/sleep_queue.c, fs/fd.c and klibc/debug.c that hold them.  Every
    structure lives in a heap of its own type under its address; [0] is the
    null pointer and an access to an address that is not allocated a [Fault].
    The model runs one processor: [locals] is its [cpu_locals_t], [hw] its
    registers. *)

From S2P Require Import Prelude Locks DList Blocks Vfs.

(** ** Registers

    [task_regs_t] is what a thread saves; [int_reg_t] the frame an interrupt pushes. *)

Record task_regs_t : Type := mk_regs {
  r_rax : Z;
  r_rbx : Z;
  r_rcx : Z;
  r_rdx : Z;
  r_rbp : Z;
  r_rdi : Z;
  r_rsi : Z;
  r_r8 : Z;
  r_r9 : Z;
  r_r10 : Z;
  r_r11 : Z;
  r_r12 : Z;
  r_r13 : Z;
  r_r14 : Z;
  r_r15 : Z;
  r_rsp : Z;
  r_rip : Z;
  r_ss : Z;
  r_cs : Z;
  r_fs : Z;
  r_rflags : Z;
  r_cr3 : Z;
  r_mxcsr : Z;
  r_fcw : Z
}.
#[export] Instance eta_task_regs_t : Eta task_regs_t :=
  λ r, mk_regs (r_rax r) (r_rbx r) (r_rcx r) (r_rdx r) (r_rbp r) (r_rdi r) (r_rsi r) (r_r8 r)
    (r_r9 r) (r_r10 r) (r_r11 r) (r_r12 r) (r_r13 r) (r_r14 r) (r_r15 r) (r_rsp r) (r_rip r)
    (r_ss r) (r_cs r) (r_fs r) (r_rflags r) (r_cr3 r) (r_mxcsr r) (r_fcw r).

Record int_reg_t : Type := mk_int_reg {
  i_r15 : Z;
  i_r14 : Z;
  i_r13 : Z;
  i_r12 : Z;
  i_r11 : Z;
  i_r10 : Z;
  i_r9 : Z;
  i_r8 : Z;
  i_rsi : Z;
  i_rdi : Z;
  i_rbp : Z;
  i_rdx : Z;
  i_rcx : Z;
  i_rbx : Z;
  i_rax : Z;
  i_int_num : Z;
  i_int_err : Z;
  i_rip : Z;
  i_cs : Z;
  i_rflags : Z;
  i_rsp : Z;
  i_ss : Z
}.

(** ** Threads and processes

    Pointers are addresses, [0] is null.  [vars] holds the argument strings by
    their contents; [None] is a null pointer in the array. *)

Record main_thread_vars_t : Type := mk_vars {
  argv : list (option (list Z));
  enviroment : list (option (list Z));
  auxv : list (Z * Z);
  argc : Z;
  envc : Z;
  auxc : Z
}.
#[export] Instance eta_main_thread_vars_t : Eta main_thread_vars_t :=
  λ r, mk_vars (argv r) (enviroment r) (auxv r) (argc r) (envc r) (auxc r).

Record thread_t : Type := mk_thread {
  t_name : list Z;
  t_regs : task_regs_t;
  kernel_stack : Z;
  user_stack : Z;
  tsc_started : Z;
  tsc_stopped : Z;
  tsc_total : Z;
  t_state : Z;
  t_cpu : Z;
  t_tid : Z;
  parent_pid : Z;
  t_parent : Z;
  ring : Z;
  running : Z;
  sleep_node : Z;
  vars : main_thread_vars_t;
  event : Z;
  event_timeout : Z;
  event_wait_start : Z;
  t_ignore_ring : Z;
  sse_region : Z
}.
#[export] Instance eta_thread_t : Eta thread_t :=
  λ r, mk_thread (t_name r) (t_regs r) (kernel_stack r) (user_stack r) (tsc_started r)
    (tsc_stopped r) (tsc_total r) (t_state r) (t_cpu r) (t_tid r) (parent_pid r) (t_parent r)
    (ring r) (running r) (sleep_node r) (vars r) (event r) (event_timeout r)
    (event_wait_start r) (t_ignore_ring r) (sse_region r).

Record process_t : Type := mk_process {
  p_name : list Z;
  p_cr3 : Z;
  p_threads : list Z;
  child_thread_count : Z;
  p_pid : Z;
  fd_table : Z;
  fd_table_size : Z;
  current_brk : Z;
  brk_lock : Z;
  local_watchpoint1 : Z;
  local_watchpoint2 : Z;
  local_watchpoint1_active : Z;
  local_watchpoint2_active : Z;
  uid : Z;
  gid : Z;
  ppid : Z;
  permissions : Z;
  ipc_handles : Z;
  ipc_create_handle_lock : Z
}.
#[export] Instance eta_process_t : Eta process_t :=
  λ r, mk_process (p_name r) (p_cr3 r) (p_threads r) (child_thread_count r) (p_pid r)
    (fd_table r) (fd_table_size r) (current_brk r) (brk_lock r) (local_watchpoint1 r) (local_watchpoint2 r)
    (local_watchpoint1_active r) (local_watchpoint2_active r) (uid r) (gid r) (ppid r)
    (permissions r) (ipc_handles r) (ipc_create_handle_lock r).

(** ** One processor: its [cpu_locals_t] and the registers the scheduler touches *)

Record cpu_locals_t : Type := mk_locals {
  thread_kernel_stack : Z;
  thread_user_stack : Z;
  cpu_index : Z;
  current_thread : Z;
  idle_tid : Z;
  idle_tsc_count : Z;
  idle_start_tsc : Z;
  currently_idle : Z;
  active_tsc_count : Z;
  active_start_tsc : Z;
  total_tsc : Z;
  local_dr7 : Z;
  ignore_ring : Z
}.
#[export] Instance eta_cpu_locals_t : Eta cpu_locals_t :=
  λ r, mk_locals (thread_kernel_stack r) (thread_user_stack r) (cpu_index r) (current_thread r)
    (idle_tid r) (idle_tsc_count r) (idle_start_tsc r) (currently_idle r) (active_tsc_count r)
    (active_start_tsc r) (total_tsc r) (local_dr7 r) (ignore_ring r).

Record hw_t : Type := mk_hw {
  hw_cr3 : Z;
  hw_mxcsr : Z;
  hw_fcw : Z;
  hw_sse : Z;
  hw_fs : Z;
  dr0 : Z;
  dr1 : Z;
  dr2 : Z;
  dr3 : Z;
  dr7 : Z;
  tsc_reads : nat
}.
#[export] Instance eta_hw_t : Eta hw_t :=
  λ r, mk_hw (hw_cr3 r) (hw_mxcsr r) (hw_fcw r) (hw_sse r) (hw_fs r) (dr0 r) (dr1 r) (dr2 r)
    (dr3 r) (dr7 r) (tsc_reads r).

(** The globals of klibc/debug.c. *)
Record debug_t : Type := mk_debug {
  g_dr0 : Z;
  g_dr1 : Z;
  g_dr2 : Z;
  g_dr3 : Z;
  g_dr7 : Z;
  watchpoint_lock : Z;
  watchpoint_cpu_count : Z
}.
#[export] Instance eta_debug_t : Eta debug_t :=
  λ r, mk_debug (g_dr0 r) (g_dr1 r) (g_dr2 r) (g_dr3 r) (g_dr7 r) (watchpoint_lock r)
    (watchpoint_cpu_count r).

(** An element of the sleep queue. *)
Record sleep_queue_t : Type := mk_sleep {
  sq_next : Z;
  sq_prev : Z;
  time_left : Z;
  sq_tid : Z
}.
#[export] Instance eta_sleep_queue_t : Eta sleep_queue_t :=
  λ r, mk_sleep (sq_next r) (sq_prev r) (time_left r) (sq_tid r).

(** An open file. *)
Record fd_entry_t : Type := mk_fd {
  fd_cookie1 : Z;
  fd_node : Z;
  fd_cookie2 : Z;
  fd_seek_pos : Z;
  fd_cookie3 : Z;
  fd_mode : Z;
  fd_cookie4 : Z
}.
#[export] Instance eta_fd_entry_t : Eta fd_entry_t :=
  λ r, mk_fd (fd_cookie1 r) (fd_node r) (fd_cookie2 r) (fd_seek_pos r) (fd_cookie3 r)
    (fd_mode r) (fd_cookie4 r).

(** A pipe.  The read and write pointers are offsets in the buffer. *)
Record pipe_t : Type := mk_pipe {
  creator_pid : Z;
  target_pid : Z;
  creator_fd : Z;
  target_fd : Z;
  buffer_size : Z;
  read_pointer : Z;
  write_pointer : Z;
  buffer : block Z;
  write_event : Z;
  direction : Z
}.
#[export] Instance eta_pipe_t : Eta pipe_t :=
  λ r, mk_pipe (creator_pid r) (target_pid r) (creator_fd r) (target_fd r) (buffer_size r)
    (read_pointer r) (write_pointer r) (buffer r) (write_event r) (direction r).

(** The globals of fs/pipe.c; [None] is the null pointer [pipes] starts as. *)
Record pipes_t : Type := mk_pipes {
  pipes : option (list Z);
  pipeheap : gmap Z pipe_t;
  pipe_lock : Z
}.
#[export] Instance eta_pipes_t : Eta pipes_t :=
  λ r, mk_pipes (pipes r) (pipeheap r) (pipe_lock r).

(** ** The state *)

Record kstate : Type := mk_kstate {
  threads : list Z;
  processes : list Z;
  theap : gmap Z thread_t;
  pheap : gmap Z process_t;
  kbrk : Z;
  sched_lock : Z;
  locals : cpu_locals_t;
  hw : hw_t;
  events : gmap Z Z;
  global_ticks : Z;
  scheduler_enabled : Z;
  process_count : Z;
  debug : debug_t;
  fdheap : gmap Z fd_entry_t;
  arrays : gmap Z (list Z);
  fd_lock : Z;
  nodes : gmap Z sleep_queue_t;
  sleep_queue_lock : Z;
  lagged_ticks : Z;
  base_kernel_cr3 : Z;
  kcpu : cpu;
  kmem : Z → Z;
  fs : fs_t;
  piping : pipes_t
}.
#[export] Instance eta_kstate : Eta kstate :=
  λ r, mk_kstate (threads r) (processes r) (theap r) (pheap r) (kbrk r) (sched_lock r)
    (locals r) (hw r) (events r) (global_ticks r) (scheduler_enabled r) (process_count r)
    (debug r) (fdheap r) (arrays r) (fd_lock r) (nodes r) (sleep_queue_lock r) (lagged_ticks r)
    (base_kernel_cr3 r) (kcpu r) (kmem r) (fs r) (piping r).

#[export] Instance sleep_node_node : Node sleep_queue_t := {
  next := sq_next;
  prev := sq_prev;
  set_next n e := e <| sq_next := n |>;
  set_prev p e := e <| sq_prev := p |>
}.
#[export] Instance sleep_node_laws : NodeLaws sleep_queue_t.
Proof. split; intros; reflexivity. Qed.

Abbreviation kM := (stM kstate).

Definition READY : Z := 0.
Definition RUNNING : Z := 1.
Definition BLOCKED : Z := 2.
Definition SLEEP : Z := 3.
Definition WAIT_EVENT : Z := 4.
Definition WAIT_EVENT_TIMEOUT : Z := 5.

(** ** Access *)

Definition thread_at (a : Z) : kM thread_t := s ← get; of_opt (theap s !! a).
Definition put_thread (a : Z) (t : thread_t) : kM unit :=
  modify (λ s, s <| theap := <[a := t]> (theap s) |>).
Definition upd_thread (a : Z) (f : thread_t → thread_t) : kM unit :=
  t ← thread_at a; put_thread a (f t).
Definition process_at (a : Z) : kM process_t := s ← get; of_opt (pheap s !! a).
Definition upd_process (a : Z) (f : process_t → process_t) : kM unit :=
  p ← process_at a; modify (λ s, s <| pheap := <[a := f p]> (pheap s) |>).
(** [threads[tid]] and [processes[pid]]. *)
Definition thread_slot (tid : Z) : kM Z := s ← get; of_opt (idx (threads s) tid).
Definition process_slot (pid : Z) : kM Z := s ← get; of_opt (idx (processes s) pid).
Definition upd_locals (f : cpu_locals_t → cpu_locals_t) : kM unit :=
  modify (λ s, s <| locals := f (locals s) |>).
Definition upd_hw (f : hw_t → hw_t) : kM unit := modify (λ s, s <| hw := f (hw s) |>).

(** An allocation: an address nothing else uses.  The blocks the callers need are
    smaller than the distance between two addresses. *)
Definition kalloc : kM Z :=
  s ← get; modify (λ s, s <| kbrk := kbrk s + 65536 |>) ;; mret (kbrk s).

(** [interrupt_safe_lock(sched_lock)] and its unlock. *)
Definition sched_acquire : kM unit :=
  s ← get;
  match spinlock_lock (sched_lock s) with
  | Ok l => modify (λ s, s <| sched_lock := l |>)
  | Crash c => crashM c
  end.
Definition sched_release : kM unit :=
  modify (λ s, s <| sched_lock := spinlock_unlock (sched_lock s) |>).

(** [get_cur_thread], [get_cur_process], [get_cur_pid] (sys/smp.c). *)
Definition get_cur_thread : kM Z := gets (λ s, current_thread (locals s)).
Definition get_cur_process : kM Z := c ← get_cur_thread; t ← thread_at c; mret (t_parent t).
Definition get_cur_pid : kM Z := c ← get_cur_thread; t ← thread_at c; mret (parent_pid t).
