(* ===== verification/Stack.v ===== *)
(** * The initial stack of a process (proc/scheduler.c)

    [add_new_child_thread] copies the argument and environment strings of a new
    process to the top of its stack and pushes the pointers to them, the auxiliary
    vector and the argument count below.  It writes through the kernel's mapping
    of the stack's physical memory; the pointers are addresses in the process.
    Memory is byte addressed. *)

From S2P Require Import Prelude Locks DList Kernel.

Definition bmem : Type := Z → Z.

Definition store8 (m : bmem) (a v : Z) : bmem := λ x, if x =? a then u8 v else m x.
Fixpoint store_bytes (m : bmem) (a : Z) (l : list Z) : bmem :=
  match l with
  | [] => m
  | c :: l' => store_bytes (store8 m a c) (u64 (a + 1)) l'
  end.
Definition bytes64 (v : Z) : list Z :=
  [u8 v; u8 (Z.shiftr v 8); u8 (Z.shiftr v 16); u8 (Z.shiftr v 24);
   u8 (Z.shiftr v 32); u8 (Z.shiftr v 40); u8 (Z.shiftr v 48); u8 (Z.shiftr v 56)].
Definition store64 (m : bmem) (a v : Z) : bmem := store_bytes m a (bytes64 v).
Definition load_bytes (m : bmem) (a : Z) (n : nat) : list Z :=
  map (λ i, m (u64 (a + i))) (seqZ 0 (Z.of_nat n)).
Definition load64 (m : bmem) (a : Z) : Z :=
  foldr (λ b acc, b + 256 * acc) 0 (load_bytes m a 8).

(** The stack pointer and the memory. *)
Abbreviation stackM := (stM (Z * bmem)).

Definition push_thread_stack (value : Z) : stackM unit :=
  modify (λ '(stack_addr, m), (u64 (stack_addr - 8), store64 m (u64 (stack_addr - 8)) value)).

(** Copy the strings below [old_stack]; the offsets of their starts. *)
Fixpoint copy_strings (old_stack total_string_len : Z) (strings : list (option (list Z)))
    : stackM (list Z) :=
  match strings with
  | [] => mret []
  | None :: _ => crashM Fault
  | Some str :: strings' =>
      let total := u64 (total_string_len + u64 (zlen str + 1)) in
      modify (λ '(stack, m), (stack, store_bytes m (u64 (old_stack - total)) (str ++ [0]))) ;;
      offsets ← copy_strings old_stack total strings';
      mret (total :: offsets)
  end.

(** [asm("hlt")] between the two loops: the processor waits for the next interrupt, with [sched_lock] held.  It changes neither
    the stack pointer nor the memory of the stack; what the interrupt's handler does is not part of this step. *)
Definition hlt : stackM unit := mret tt.

(** [for (i = n - 1;; i--) { push item i; if (i == 0) break; }] *)
Fixpoint push_down (n : nat) (item : nat → stackM unit) : stackM unit :=
  match n with
  | O => mret tt
  | S n' => item n' ;; push_down n' item
  end.

(** The first [n] entries of an array that the code reads in full. *)
Definition entries {A S} (n : Z) (l : list A) : stM S (list A) :=
  if (0 <=? n) && (n <=? zlen l) then mret (take (Z.to_nat n) l) else crashM Fault.

(** From the stack pointer, the new [rdi], [rsi], [rdx] and [rsp]. *)
Definition init_main_stack (rsp : Z) (v : main_thread_vars_t) : stackM (Z * Z * Z * Z) :=
  st ← get;
  let old_stack := st.1 in
  args ← entries (argc v) (argv v);
  envs ← entries (envc v) (enviroment v);
  auxs ← entries (auxc v) (auxv v);
  arg_offsets ← copy_strings old_stack 0 args;
  hlt ;;
  env_offsets ← copy_strings old_stack (default 0 (last arg_offsets)) envs;
  let string_offsets := arg_offsets ++ env_offsets in
  let total_string_len := default 0 (last string_offsets) in
  modify (λ '(stack, m), (Z.ldiff (u64 (stack - total_string_len)) 15, m)) ;;
  let size_of_items := u64 (argc v * 8 + auxc v * 16 + envc v * 8 + 16) in
  push_thread_stack 0 ;;
  (if negb (Z.land size_of_items 15 =? 0) then push_thread_stack 0 else mret tt) ;;
  push_down (Z.to_nat (auxc v)) (λ i,
    a ← of_opt (auxs !! i);
    push_thread_stack (u64 a.2) ;; push_thread_stack (u64 a.1)) ;;
  st ← get;
  let auxv_offset := u64 (old_stack - st.1) in
  push_thread_stack 0 ;;
  push_down (Z.to_nat (envc v)) (λ i,
    o ← of_opt (string_offsets !! (i + Z.to_nat (argc v))%nat); push_thread_stack (u64 (rsp - o))) ;;
  push_thread_stack 0 ;;
  push_down (Z.to_nat (argc v)) (λ i,
    o ← of_opt (string_offsets !! i); push_thread_stack (u64 (rsp - o))) ;;
  st ← get;
  let argv_offset := u64 (old_stack - st.1) in
  push_thread_stack (u64 (argc v)) ;;
  st ← get;
  assertM (Z.land st.1 15 =? 0) ;;
  mret (u64 (argc v), u64 (rsp - argv_offset), u64 (rsp - auxv_offset),
        u64 (rsp - u64 (old_stack - st.1))).

(** ** Adding arguments *)

(** [krealloc] of an array to [n] entries, and the store to entry [i]. *)
Definition grow_set {A} (zero : A) (n i : Z) (a : A) (l : list A) : list A :=
  upd (l ++ replicate (Z.to_nat n - length l) zero) i a.

Definition add_argv (string : list Z) (v : main_thread_vars_t) : main_thread_vars_t :=
  v <| argv := grow_set None (argc v + 1) (argc v) (Some string) (argv v) |>
    <| argc := argc v + 1 |>.
Definition add_auxv (a : Z * Z) (v : main_thread_vars_t) : main_thread_vars_t :=
  v <| auxv := grow_set (0, 0) (auxc v + 2) (auxc v + 1) a (auxv v) |>
    <| auxc := auxc v + 1 |>.
Definition add_env (string : list Z) (v : main_thread_vars_t) : main_thread_vars_t :=
  v <| enviroment := grow_set None (envc v + 2) (envc v + 1) (Some string) (enviroment v) |>
    <| envc := envc v + 1 |>.

Definition no_vars : main_thread_vars_t := mk_vars [] [] [] 0 0 0.

Example stack_example :
  match init_main_stack 5000 (add_argv [97; 98] (add_argv [99] no_vars)) (9000, λ _, 0) with
  | Ok (r, (sp, m)) => (r, sp, load64 m sp, load64 m (sp + 8), load64 m (sp + 16), m 8998, m 8995)
  | Crash _ => ((0, 0, 0, 0), 0, 0, 0, 0, 0, 0)
  end = ((2, 4952, 4984, 4944), 8944, 2, 4998, 4995, 99, 97).
Proof. vm_compute. reflexivity. Qed.

(** ** Memory *)

Lemma store_bytes_lookup l : ∀ m a x,
  0 ≤ a → a + zlen l ≤ U64_MOD →
  store_bytes m a l x =
    if (a <=? x) && (x <? a + zlen l) then u8 (nth (Z.to_nat (x - a)) l 0) else m x.
Proof.
  induction l as [|c l IH]; intros m a x Ha Hl.
  - change (zlen (@nil Z)) with 0 in *. cbn [store_bytes].
    destruct (a <=? x) eqn:E1, (x <? a + 0) eqn:E2; zbool; first [done|lia].
  - assert (zlen (c :: l) = zlen l + 1) as Ez by (unfold zlen; simpl; lia). rewrite Ez in *.
    pose proof (zlen_nonneg l). cbn [store_bytes]. destruct (decide (zlen l = 0)) as [H0|H0].
    + assert (l = []) as -> by (destruct l; [done|unfold zlen in H0; simpl in H0; lia]).
      cbn [store_bytes]. unfold store8. change (zlen (@nil Z) + 1) with 1.
      destruct (x =? a) eqn:E1, (a <=? x) eqn:E2, (x <? a + 1) eqn:E3; zbool; try lia;
        cbn [andb]; try done. subst x. by rewrite Z.sub_diag.
    + rewrite u64_small by (unfold is_u64; lia). rewrite IH by lia. unfold store8.
      destruct (x =? a) eqn:E1.
      * zbool. subst x. destruct (a + 1 <=? a) eqn:E2; zbool; [lia|]. simpl.
        rewrite Z.sub_diag. destruct (a <=? a) eqn:E3, (a <? a + (zlen l + 1)) eqn:E4; zbool; try lia.
        done.
      * replace (a + 1 + zlen l) with (a + (zlen l + 1)) by lia.
        destruct (a <=? x) eqn:E2, (a + 1 <=? x) eqn:E3; zbool; try lia; [|done].
        destruct (x <? a + (zlen l + 1)) eqn:E4; zbool; [|done]. simpl.
        replace (Z.to_nat (x - a)) with (S (Z.to_nat (x - (a + 1)))) by lia. done.
Qed.

Lemma store_bytes_frame l m a x :
  0 ≤ a → a + zlen l ≤ U64_MOD → (x < a ∨ a + zlen l ≤ x) → store_bytes m a l x = m x.
Proof.
  intros Ha Hl Hx. rewrite store_bytes_lookup by done.
  destruct (a <=? x) eqn:E1, (x <? a + zlen l) eqn:E2; zbool; first [done|lia].
Qed.

Lemma idx_load m a n i : 0 ≤ i < Z.of_nat n → idx (load_bytes m a n) i = Some (m (u64 (a + i))).
Proof.
  intros Hi. unfold idx, load_bytes. rewrite (proj2 (Z.leb_le _ _)) by lia.
  change (map ?f ?l) with (f <$> l). rewrite list_lookup_fmap, lookup_seqZ_lt by lia. cbn. do 3 f_equal. lia.
Qed.

Lemma zlen_load m a n : zlen (load_bytes m a n) = Z.of_nat n.
Proof. unfold zlen, load_bytes. rewrite length_map, length_seqZ. lia. Qed.

Lemma load_bytes_ext m m' a n :
  0 ≤ a → a + Z.of_nat n ≤ U64_MOD → (∀ x, a ≤ x < a + Z.of_nat n → m' x = m x) →
  load_bytes m' a n = load_bytes m a n.
Proof.
  intros Ha Hn Hx. unfold load_bytes. apply map_ext_in. intros i Hi.
  apply list_elem_of_In, elem_of_seqZ in Hi. rewrite u64_small by (unfold is_u64; lia).
  apply Hx. lia.
Qed.

Lemma load_store_bytes m a l :
  0 ≤ a → a + zlen l ≤ U64_MOD → Forall is_u8 l →
  load_bytes (store_bytes m a l) a (length l) = l.
Proof.
  intros Ha Hl Hb. unfold load_bytes. apply list_eq. intros i.
  change (map ?f ?l) with (f <$> l). rewrite list_lookup_fmap.
  destruct (decide (i < length l)%nat) as [Hi|Hi].
  - rewrite lookup_seqZ_lt by lia. simpl. unfold zlen in *.
    rewrite u64_small by (unfold is_u64; lia). rewrite store_bytes_lookup by done.
    unfold zlen. rewrite (proj2 (Z.leb_le _ _)), (proj2 (Z.ltb_lt _ _)) by lia. cbn [andb].
    replace (Z.to_nat (a + (0 + Z.of_nat i) - a)) with i by lia.
    destruct (lookup_lt_is_Some_2 l i Hi) as [c Hc]. rewrite Hc. f_equal.
    rewrite (nth_lookup_Some _ _ 0 _ Hc). apply Z.mod_small.
    rewrite Forall_lookup in Hb. by apply (Hb i).
  - rewrite !lookup_ge_None_2; [done|lia|]. rewrite length_seqZ. lia.
Qed.

Lemma bytes64_u8 v : Forall is_u8 (bytes64 v).
Proof. repeat constructor; unfold u8; apply Z.mod_pos_bound; lia. Qed.

Lemma load64_bytes m a v : is_u64 v → load_bytes m a 8 = bytes64 v → load64 m a = v.
Proof.
  intros Hv Hb. unfold load64. rewrite Hb. unfold bytes64, u8. cbn [foldr].
  rewrite !Z.shiftr_div_pow2 by lia. unfold is_u64 in Hv.
  change (2 ^ 8) with 256. change (2 ^ 16) with (256 * 256).
  change (2 ^ 24) with (256 * 256 * 256). change (2 ^ 32) with (256 * 256 * 256 * 256).
  change (2 ^ 40) with (256 * 256 * 256 * 256 * 256).
  change (2 ^ 48) with (256 * 256 * 256 * 256 * 256 * 256).
  change (2 ^ 56) with (256 * 256 * 256 * 256 * 256 * 256 * 256).
  rewrite <-!Z.div_div by lia. dlia.
Qed.

Lemma load_store64 m a v : 0 ≤ a → a + 8 ≤ U64_MOD → is_u64 v → load64 (store64 m a v) a = v.
Proof.
  intros Ha Ha8 Hv. apply load64_bytes; [done|].
  apply (load_store_bytes m a (bytes64 v)); [done|done|apply bytes64_u8].
Qed.

Lemma load64_ext m m' a :
  0 ≤ a → a + 8 ≤ U64_MOD → (∀ x, a ≤ x < a + 8 → m' x = m x) → load64 m' a = load64 m a.
Proof. intros Ha H8 Hx. unfold load64. by rewrite (load_bytes_ext m m' a 8). Qed.

(** ** Pushing *)

(** The words [l] lie at the stack pointer and upwards to [sp0]; the rest of memory
    is [m0]. *)
Record pushed (sp0 : Z) (m0 : bmem) (l : list Z) (st : Z * bmem) : Prop := {
  pu_sp : st.1 = sp0 - 8 * zlen l;
  pu_low : 0 ≤ st.1;
  pu_words i w : l !! i = Some w → load64 st.2 (st.1 + 8 * Z.of_nat i) = w;
  pu_frame x : x < st.1 ∨ sp0 ≤ x → st.2 x = m0 x
}.

Lemma push_ok sp0 m0 l w st :
  pushed sp0 m0 l st → sp0 < U64_MOD → is_u64 w → 8 ≤ st.1 →
  ∃ st', push_thread_stack w st = Ok (tt, st') ∧ pushed sp0 m0 (w :: l) st'.
Proof.
  intros [Hsp Hlow Hw Hf] Hs Hwv H8. destruct st as [sp m]. simpl in *.
  pose proof (zlen_nonneg l). eexists. split; [reflexivity|].
  rewrite u64_small by (unfold is_u64; lia).
  assert (∀ x, x < sp - 8 ∨ sp ≤ x → store64 m (sp - 8) w x = m x) as Hfr.
  { intros x Hx. apply store_bytes_frame; [lia|unfold zlen; simpl; lia|unfold zlen; simpl; lia]. }
  split; simpl.
  - rewrite zlen_cons. lia.
  - lia.
  - intros [|i] w' Hi; simpl in Hi.
    + injection Hi as <-. rewrite Z.add_0_r. apply load_store64; [lia|lia|done].
    + pose proof (lookup_lt_Some _ _ _ Hi). unfold zlen in *.
      rewrite <-(Hw i w' Hi).
      replace (sp - 8 + 8 * Z.of_nat (S i)) with (sp + 8 * Z.of_nat i) by lia.
      apply load64_ext; [lia|lia|]. intros x Hx. apply Hfr. lia.
  - intros x Hx. rewrite Hfr by lia. apply Hf. lia.
Qed.

Lemma push_down_ext n item item' : ∀ st,
  (∀ i st, item i st = item' i st) → push_down n item st = push_down n item' st.
Proof.
  induction n as [|n IH]; intros st He; simpl; [done|].
  unfold mbind, stM_bind. rewrite He. destruct (item' n st) as [[[] s]|]; [|done]. by apply IH.
Qed.

Lemma push_down_ok sp0 m0 item (f : nat → list Z) n : ∀ l st,
  (∀ i l st, (i < n)%nat → pushed sp0 m0 l st → 8 * zlen (f i) ≤ st.1 →
     ∃ st', item i st = Ok (tt, st') ∧ pushed sp0 m0 (f i ++ l) st') →
  pushed sp0 m0 l st → 8 * zlen (flat_map f (seq 0 n)) ≤ st.1 →
  ∃ st', push_down n item st = Ok (tt, st') ∧ pushed sp0 m0 (flat_map f (seq 0 n) ++ l) st'.
Proof.
  induction n as [|n IH]; intros l st Hi Hp Hr.
  - exists st. split; [reflexivity|exact Hp].
  - rewrite seq_S, flat_map_app in *. simpl in *. rewrite app_nil_r, zlen_app in *.
    pose proof (zlen_nonneg (flat_map f (seq 0 n))). pose proof (zlen_nonneg (f n)).
    destruct (Hi n l st) as (st1 & E1 & P1); [lia|done|lia|]. mrun E1.
    destruct (IH (f n ++ l) st1) as (st2 & E2 & P2); [|done| |].
    + intros i l' st' Hin. apply Hi. lia.
    + rewrite (pu_sp _ _ _ _ P1), zlen_app. rewrite (pu_sp _ _ _ _ Hp) in Hr. lia.
    + exists st2. split; [exact E2|]. by rewrite <-app_assoc.
Qed.

(** ** The strings *)

Definition strings_len (strs : list (list Z)) : Z :=
  foldr (λ s acc, zlen s + 1 + acc) 0 strs.

(** The offsets of the strings below the top of the stack. *)
Fixpoint offsets (total : Z) (strs : list (list Z)) : list Z :=
  match strs with
  | [] => []
  | s :: strs' => (total + zlen s + 1) :: offsets (total + zlen s + 1) strs'
  end.

Lemma strings_len_nonneg strs : 0 ≤ strings_len strs.
Proof. induction strs as [|s strs IH]; simpl; [lia|]. pose proof (zlen_nonneg s). lia. Qed.

Lemma length_offsets strs : ∀ t, length (offsets t strs) = length strs.
Proof. induction strs as [|s strs IH]; intros t; simpl; [done|]. by rewrite IH. Qed.

Lemma last_offset strs : ∀ t, default t (last (offsets t strs)) = t + strings_len strs.
Proof.
  induction strs as [|s strs IH]; intros t; [simpl; lia|]. cbn [offsets]. rewrite last_cons.
  pose proof (IH (t + zlen s + 1)) as Hl. destruct (last (offsets _ strs)); simpl in *; lia.
Qed.

Lemma offset_range strs : ∀ t i o,
  0 ≤ t → offsets t strs !! i = Some o → t < o ≤ t + strings_len strs.
Proof.
  induction strs as [|s strs IH]; intros t [|i] o Ht Hi; simplify_eq/=;
    pose proof (strings_len_nonneg strs); pose proof (zlen_nonneg s); [lia|].
  apply IH in Hi; lia.
Qed.

Lemma string_fits strs : ∀ t i str o,
  strs !! i = Some str → offsets t strs !! i = Some o → t + zlen str + 1 ≤ o.
Proof.
  induction strs as [|s strs IH]; intros t [|i] str o Hi Ho; simplify_eq/=; [lia|].
  pose proof (zlen_nonneg s). specialize (IH _ _ _ _ Hi Ho). lia.
Qed.

(** [str] and its terminator lie at [a]. *)
Definition string_at (m : bmem) (a : Z) (str : list Z) : Prop :=
  load_bytes m a (S (length str)) = str ++ [0].

Lemma copy_strings_ok old strs : ∀ t sp m,
  Forall (Forall is_u8) strs → 0 ≤ t → t + strings_len strs ≤ old → old < U64_MOD →
  ∃ m', copy_strings old t (map Some strs) (sp, m) = Ok (offsets t strs, (sp, m'))
    ∧ (∀ i str o, strs !! i = Some str → offsets t strs !! i = Some o →
         string_at m' (old - o) str)
    ∧ (∀ x, x < old - (t + strings_len strs) ∨ old - t ≤ x → m' x = m x).
Proof.
  induction strs as [|s strs IH]; intros t sp m Hb Ht Hr Ho.
  - exists m. split; [reflexivity|]. split; [intros i ? ? Hi; by destruct i|done].
  - inversion Hb as [|? ? Hs Hb']; subst. simpl in Hr.
    pose proof (strings_len_nonneg strs) as Hn. pose proof (zlen_nonneg s) as Hzs.
    set (t' := t + zlen s + 1).
    set (m1 := store_bytes m (old - t') (s ++ [0])).
    assert (zlen (s ++ [0]) = zlen s + 1) as Hl by (rewrite zlen_app; done).
    destruct (IH t' sp m1 Hb') as (m' & E & Hstr & Hfr); [lia|lia|done|].
    exists m'. split; [|split].
    + cbn [map copy_strings offsets]. cbv zeta.
      rewrite (u64_small (zlen s + 1)) by (unfold is_u64; lia).
      rewrite (u64_small (t + (zlen s + 1))) by (unfold is_u64; lia).
      rewrite (u64_small (old - _)) by (unfold is_u64; lia).
      replace (t + (zlen s + 1)) with t' by (unfold t'; lia). mstep. fold m1. mrun E. done.
    + intros [|i] str o Hi Hoi; simplify_eq/=; [|by eapply Hstr].
      unfold string_at. fold t'.
      assert (S (length str) = length (str ++ [0])) as -> by (rewrite length_app; simpl; lia).
      rewrite (load_bytes_ext m1);
        [|unfold t'; lia|rewrite length_app; unfold t', zlen in *; simpl; lia|].
      * apply load_store_bytes; [unfold t'; lia|rewrite Hl; unfold t'; lia|].
        apply Forall_app. split; [done|]. constructor; [unfold is_u8; lia|constructor].
      * intros x Hx. apply Hfr. rewrite length_app in Hx. simpl in Hx. unfold zlen, t' in *. lia.
    + intros x Hx. simpl in Hx. rewrite Hfr by (unfold t'; lia).
      apply store_bytes_frame; rewrite ?Hl; unfold t' in *; lia.
Qed.

(** ** The layout *)

Record vars_ok (v : main_thread_vars_t) (args envs : list (list Z)) (auxs : list (Z * Z)) : Prop := {
  v_argv : argv v = map Some args;
  v_argc : argc v = zlen args;
  v_env : enviroment v = map Some envs;
  v_envc : envc v = zlen envs;
  v_auxv : auxv v = auxs;
  v_auxc : auxc v = zlen auxs;
  v_bytes : Forall (Forall is_u8) (args ++ envs)
}.

(** The words of the initial stack, upwards from the stack pointer. *)
Definition stack_words (rsp : Z) (args envs : list (list Z)) (auxs : list (Z * Z)) : list Z :=
  let ptrs := map (λ o, rsp - o) (offsets 0 (args ++ envs)) in
  zlen args :: take (length args) ptrs ++ 0 :: drop (length args) ptrs ++ 0 ::
  flat_map (λ a, [u64 a.1; u64 a.2]) auxs ++
  (if Z.even (zlen args + zlen envs) then [0] else [0; 0]).

(** The stack has room for all of it, in the kernel's view and in the process's. *)
Definition stack_need (args envs : list (list Z)) (auxs : list (Z * Z)) : Z :=
  strings_len (args ++ envs) + 15 + 8 * (zlen args + zlen envs + 2 * zlen auxs + 5).

Lemma entries_all {A S} (l : list A) (s : S) : entries (zlen l) l s = Ok (l, s).
Proof.
  unfold entries. pose proof (zlen_nonneg l).
  rewrite (proj2 (Z.leb_le 0 _)), (proj2 (Z.leb_le (zlen l) _)) by lia. simpl.
  unfold zlen. rewrite Nat2Z.id, firstn_all. done.
Qed.

Lemma zlen_map {A B} (f : A → B) l : zlen (map f l) = zlen l.
Proof. unfold zlen. by rewrite length_map. Qed.

Lemma entries_map {A B S} (f : A → B) (l : list A) (s : S) :
  entries (zlen l) (map f l) s = Ok (map f l, s).
Proof. rewrite <-(zlen_map f l). apply entries_all. Qed.

Lemma flat_map_singletons {A} (f : nat → A) (l : list A) n k :
  (∀ i, (i < n)%nat → l !! (k + i)%nat = Some (f i)) →
  flat_map (λ i, [f i]) (seq 0 n) = take n (drop k l).
Proof.
  intros Hl. induction n as [|n IH]; [by rewrite take_0|].
  rewrite seq_S, flat_map_app, IH by (intros; apply Hl; lia). simpl.
  rewrite (take_S_r _ _ (f n)); [done|]. rewrite lookup_drop. apply Hl. lia.
Qed.

Lemma ldiff_15 z : 0 ≤ z → Z.ldiff z 15 = 16 * (z / 16).
Proof.
  intros Hz. change 15 with (Z.ones 4). rewrite Z.ldiff_ones_r by lia.
  rewrite Z.shiftr_div_pow2, Z.shiftl_mul_pow2 by lia. change (2 ^ 4) with 16. lia.
Qed.

Lemma land_15 z : Z.land z 15 = z mod 16.
Proof. change 15 with (Z.ones 4). by rewrite Z.land_ones. Qed.

Lemma pushed_nil sp m : 0 ≤ sp → pushed sp m [] (sp, m).
Proof. intros Hs. split; simpl; [unfold zlen; simpl; lia|done|done|done]. Qed.

(** The pushes below the strings. *)
Lemma push_pointers sp0 m0 l st rsp (ofs : list Z) n k :
  pushed sp0 m0 l st → sp0 < U64_MOD → 8 * Z.of_nat n ≤ st.1 → (k + n ≤ length ofs)%nat →
  (∀ i o, ofs !! i = Some o → 0 ≤ o ≤ rsp) → rsp < U64_MOD →
  ∃ st', push_down n (λ i, o ← of_opt (ofs !! (i + k)%nat); push_thread_stack (u64 (rsp - o))) st
           = Ok (tt, st') ∧
    pushed sp0 m0 (take n (drop k (map (λ o, rsp - o) ofs)) ++ l) st'.
Proof.
  intros Hp Hs Hr Hn Hr1 Hr2.
  set (f := λ i, rsp - default 0 (ofs !! (i + k)%nat)).
  assert (flat_map (λ i, [f i]) (seq 0 n) = take n (drop k (map (λ o, rsp - o) ofs))) as <-.
  { apply flat_map_singletons. intros i Hi. change (map ?g ?l) with (g <$> l).
    rewrite list_lookup_fmap. destruct (lookup_lt_is_Some_2 ofs (k + i)) as [o Ho]; [lia|].
    unfold f. rewrite (Nat.add_comm i k), Ho. done. }
  assert (∀ j, zlen (flat_map (λ i, [f i]) (seq 0 j)) = Z.of_nat j) as Hz.
  { intros j. unfold zlen. assert (∀ l, length (flat_map (λ i, [f i]) l) = length l) as ->.
    { induction l0 as [|? ? IHl]; simpl; congruence. }
    by rewrite length_seq. }
  apply push_down_ok; [|done|by rewrite Hz]. clear Hp Hr st l. intros i l st Hi Hp Hr.
  destruct (lookup_lt_is_Some_2 ofs (i + k)) as [o Ho]; [lia|].
  erewrite bind_ok; [|by rewrite Ho]. cbv beta. specialize (Hr1 _ _ Ho).
  assert (f i = u64 (rsp - o)) as Ef.
  { unfold f. rewrite Ho. simpl. symmetry. apply u64_small. unfold is_u64. lia. }
  rewrite <-Ef. apply push_ok; [done..| |unfold zlen in Hr; simpl in Hr; lia].
  rewrite Ef. apply u64_range.
Qed.

Lemma push_auxv sp0 m0 l st (auxs : list (Z * Z)) :
  pushed sp0 m0 l st → sp0 < U64_MOD → 16 * zlen auxs ≤ st.1 →
  ∃ st', push_down (length auxs) (λ i,
      a ← of_opt (auxs !! i); push_thread_stack (u64 a.2) ;; push_thread_stack (u64 a.1)) st
      = Ok (tt, st') ∧
    pushed sp0 m0 (flat_map (λ a, [u64 a.1; u64 a.2]) auxs ++ l) st'.
Proof.
  intros Hp Hs Hr.
  set (f := λ i, match auxs !! i with Some a => [u64 a.1; u64 a.2] | None => [] end).
  assert (∀ n, (n ≤ length auxs)%nat →
    flat_map f (seq 0 n) = flat_map (λ a, [u64 a.1; u64 a.2]) (take n auxs)) as Hf.
  { induction n as [|n IH]; intros Hn; [by rewrite take_0|].
    destruct (lookup_lt_is_Some_2 auxs n) as [a Ha]; [lia|].
    rewrite seq_S, flat_map_app, IH, (take_S_r _ _ a), flat_map_app by (done || lia).
    simpl. unfold f. by rewrite Ha. }
  specialize (Hf (length auxs) ltac:(lia)). rewrite firstn_all in Hf. rewrite <-Hf.
  assert (zlen (flat_map (λ a : Z * Z, [u64 a.1; u64 a.2]) auxs) = 2 * zlen auxs) as Hz.
  { clear. induction auxs as [|a auxs IH]; [done|]. simpl. rewrite !zlen_cons in *. lia. }
  apply push_down_ok; [|done|rewrite Hf, Hz; lia]. clear Hp Hr st l. intros i l st Hi Hp Hr.
  destruct (lookup_lt_is_Some_2 auxs i Hi) as [a Ha]. unfold f in Hr |- *. rewrite Ha in Hr |- *.
  unfold zlen in Hr. simpl in Hr. erewrite bind_ok; [|reflexivity]. cbv beta.
  destruct (push_ok _ _ _ (u64 a.2) _ Hp Hs) as (st1 & E1 & P1); [apply u64_range|lia|].
  mrun E1. pose proof (pu_sp _ _ _ _ P1) as H1. pose proof (pu_sp _ _ _ _ Hp) as H0.
  rewrite zlen_cons in H1. apply push_ok; [done..|apply u64_range|lia].
Qed.

(** The stack from the aligned pointer [sp0] downwards. *)
Lemma push_all_ok rsp sp0 m0 args envs auxs :
  let ofs := offsets 0 (args ++ envs) in
  let na := length args in let ne := length envs in
  0 ≤ sp0 < U64_MOD → 8 * (zlen args + zlen envs + 2 * zlen auxs + 5) ≤ sp0 →
  strings_len (args ++ envs) ≤ rsp < U64_MOD →
  ∃ st1 st2 st3,
    (push_thread_stack 0 ;;
     (if negb (Z.even (zlen args + zlen envs)) then push_thread_stack 0 else mret tt) ;;
     push_down (length auxs) (λ i,
       a ← of_opt (auxs !! i); push_thread_stack (u64 a.2) ;; push_thread_stack (u64 a.1)))
      (sp0, m0) = Ok (tt, st1)
    ∧ (push_thread_stack 0 ;;
       push_down ne (λ i, o ← of_opt (ofs !! (i + na)%nat); push_thread_stack (u64 (rsp - o))) ;;
       push_thread_stack 0 ;;
       push_down na (λ i, o ← of_opt (ofs !! i); push_thread_stack (u64 (rsp - o)))) st1 =
        Ok (tt, st2)
    ∧ push_thread_stack (zlen args) st2 = Ok (tt, st3)
    ∧ st1.1 = sp0 - 8 * (2 * zlen auxs + (if Z.even (zlen args + zlen envs) then 1 else 2))
    ∧ st2.1 = st3.1 + 8
    ∧ pushed sp0 m0 (stack_words rsp args envs auxs) st3.
Proof.
  intros ofs na ne Hsp Hroom Hrsp.
  set (pad := if Z.even (zlen args + zlen envs) then [0] else [0; 0]).
  set (A := flat_map (λ a : Z * Z, [u64 a.1; u64 a.2]) auxs).
  assert (zlen A = 2 * zlen auxs) as HA.
  { unfold A. clear. induction auxs as [|a auxs IH]; [done|]. simpl. rewrite !zlen_cons in *. lia. }
  pose proof (zlen_nonneg args) as Ga. pose proof (zlen_nonneg envs) as Ge.
  pose proof (zlen_nonneg auxs) as Gx.
  assert (∀ i o, ofs !! i = Some o → 0 ≤ o ≤ rsp) as Hofs.
  { intros i o Ho. apply offset_range in Ho; lia. }
  assert (length ofs = (na + ne)%nat) as Hlo by (unfold ofs; by rewrite length_offsets, length_app).
  assert (1 ≤ zlen pad ≤ 2) as Hpad by (unfold pad; destruct Z.even; unfold zlen; simpl; lia).
  assert (is_u64 0) as H0u by (unfold is_u64; lia).
  assert (∃ sta, (push_thread_stack 0 ;;
      (if negb (Z.even (zlen args + zlen envs)) then push_thread_stack 0 else mret tt)) (sp0, m0) =
      Ok (tt, sta) ∧ pushed sp0 m0 pad sta) as (sta & Ea & Pa).
  { destruct (push_ok sp0 m0 [] 0 (sp0, m0)) as (s1 & E1 & P1); [apply pushed_nil; lia|lia|done|simpl; lia|].
    mrun E1. unfold pad. destruct (Z.even _); cbn [negb]; [exists s1; split; [reflexivity|exact P1]|].
    pose proof (pu_sp _ _ _ _ P1) as Hs. unfold zlen in Hs. simpl in Hs. apply push_ok; [done|lia|done|lia]. }
  pose proof (pu_sp _ _ _ _ Pa) as Sa.
  destruct (push_auxv _ _ _ _ auxs Pa) as (st1 & E1 & P1); [lia|lia|]. fold A in P1.
  pose proof (pu_sp _ _ _ _ P1) as S1. rewrite zlen_app, HA in S1.
  destruct (push_ok _ _ _ 0 _ P1) as (stb & Eb & Pb); [lia|done|lia|].
  pose proof (pu_sp _ _ _ _ Pb) as Sb. rewrite zlen_cons, zlen_app, HA in Sb.
  destruct (push_pointers _ _ _ _ rsp ofs ne na Pb) as (stc & Ec & Pc);
    [lia|unfold ne, zlen in *; lia|lia|done|lia|].
  rewrite take_ge in Pc by (rewrite length_drop, length_map; lia).
  set (ptrs := map (λ o, rsp - o) ofs) in *.
  pose proof (pu_sp _ _ _ _ Pc) as Sc. rewrite zlen_app, zlen_cons, zlen_app, HA in Sc.
  assert (zlen (drop na ptrs) = zlen envs) as Hde
    by (unfold zlen, ptrs; rewrite length_drop, length_map; unfold ne in Hlo; lia).
  destruct (push_ok _ _ _ 0 _ Pc) as (std & Ed & Pd); [lia|done|lia|].
  pose proof (pu_sp _ _ _ _ Pd) as Sd. rewrite zlen_cons, zlen_app, zlen_cons, zlen_app, HA in Sd.
  destruct (push_pointers _ _ _ _ rsp ofs na 0 Pd) as (st2 & E2 & P2);
    [lia|unfold na, zlen in *; lia|lia|done|lia|].
  pose proof (pu_sp _ _ _ _ P2) as S2.
  assert (zlen (take na (drop 0 ptrs)) = zlen args) as Hta
    by (unfold zlen, ptrs; rewrite length_take, length_drop, length_map; unfold na in *; lia).
  fold ptrs in S2, P2.
  rewrite zlen_app, zlen_cons, zlen_app, zlen_cons, zlen_app, HA in S2.
  destruct (push_ok _ _ _ (zlen args) _ P2) as (st3 & E3 & P3); [lia|unfold is_u64; lia|lia|].
  exists st1, st2, st3. split_and!; [| |exact E3| | |exact P3].
  - unfold mbind, stM_bind in Ea |- *. destruct (push_thread_stack 0 (sp0, m0)) as [[[] s]|]; [|done].
    rewrite Ea. exact E1.
  - mrun Eb. mrun Ec. mrun Ed. rewrite <-E2. apply push_down_ext. intros i st.
    by rewrite Nat.add_0_r.
  - rewrite S1. unfold pad. destruct (Z.even _); unfold zlen; simpl; lia.
  - pose proof (pu_sp _ _ _ _ P2) as Q2. rewrite (pu_sp _ _ _ _ P3), zlen_cons. lia.
Qed.

Lemma zlen_stack_words rsp args envs auxs :
  zlen (stack_words rsp args envs auxs) =
    zlen args + zlen envs + 2 * zlen auxs + (if Z.even (zlen args + zlen envs) then 4 else 5).
Proof.
  unfold stack_words. set (ptrs := map _ _).
  assert (length ptrs = (length args + length envs)%nat) as Hl
    by (unfold ptrs; by rewrite length_map, length_offsets, length_app).
  assert (zlen (flat_map (λ a : Z * Z, [u64 a.1; u64 a.2]) auxs) = 2 * zlen auxs) as HA.
  { clear. induction auxs as [|a auxs IH]; [done|]. simpl. rewrite !zlen_cons in *. lia. }
  rewrite !zlen_cons, zlen_app, zlen_cons, zlen_app, zlen_cons, zlen_app, HA.
  unfold zlen. rewrite length_take, length_drop, Hl. destruct (Z.even _); simpl; lia.
Qed.

(** The same with the alignment test as the code writes it. *)
Lemma align_test (args envs : list (list Z)) (auxs : list (Z * Z)) :
  8 * (zlen args + zlen envs + 2 * zlen auxs) + 16 < U64_MOD →
  negb (Z.land (u64 (zlen args * 8 + zlen auxs * 16 + zlen envs * 8 + 16)) 15 =? 0) =
  negb (Z.even (zlen args + zlen envs : Z)).
Proof.
  intros Hb. pose proof (zlen_nonneg args). pose proof (zlen_nonneg envs). pose proof (zlen_nonneg auxs).
  rewrite u64_small by (unfold is_u64; lia). rewrite land_15. f_equal.
  rewrite Zeven_mod. set (z := _ + 16).
  destruct (z mod 16 =? 0) eqn:E1, ((zlen args + zlen envs) mod 2 =? 0) eqn:E2; zbool; unfold z in *;
    try done; dlia.
Qed.

(** The second loop goes on where the first one stopped. *)
Lemma copy_strings_split old l2 l1 : ∀ t st o st', copy_strings old t (l1 ++ l2) st = Ok (o, st') →
  ∃ o1 st1 o2, copy_strings old t l1 st = Ok (o1, st1) ∧ copy_strings old (default t (last o1)) l2 st1 = Ok (o2, st') ∧ o = o1 ++ o2.
Proof.
  induction l1 as [|[str|] l1 IH]; intros t st o st' E; [by exists [], st, o| |done].
  cbn [app copy_strings] in *. cbv zeta in *. set (t' := u64 (t + _)) in *. apply bind_inv in E as ([] & sa & Ea & E).
  apply bind_inv in E as (o' & sb & Eb & [= <- <-]). destruct (IH _ _ _ _ Eb) as (o1 & st1 & o2 & E1 & E2 & ->).
  exists (t' :: o1), st1, o2. split; [by mrun Ea; mrun E1|]. split; [|done]. rewrite last_cons. by destruct (last o1).
Qed.

(** C10: the stack a new process starts on.  At its stack pointer, which is
    16-byte aligned, lie the argument count, the pointers to the arguments and a
    null, the pointers to the environment strings and a null, the auxiliary
    vector, and a closing null; every pointer leads to a copy of its string; memory
    outside the stack's part in use is untouched.  The routine returns the
    arguments of the entry point: the count, and the addresses of the argument
    pointers and of the auxiliary vector.  The wait for an interrupt that the code has between the copies of the arguments and of the
    environment ([hlt]) leaves the stack as it is. *)
Theorem init_main_stack_layout rsp sp m v args envs auxs :
  vars_ok v args envs auxs →
  is_u64 sp → is_u64 rsp → stack_need args envs auxs ≤ sp → stack_need args envs auxs ≤ rsp →
  ∃ sp' m',
    let rsp' := rsp - (sp - sp') in
    init_main_stack rsp v (sp, m) =
      Ok ((zlen args, rsp' + 8, rsp' + 8 * (zlen args + zlen envs + 3), rsp'), (sp', m'))
    ∧ sp' mod 16 = 0 ∧ sp - stack_need args envs auxs ≤ sp' < sp
    ∧ (∀ i w, stack_words rsp args envs auxs !! i = Some w → load64 m' (sp' + 8 * Z.of_nat i) = w)
    ∧ (∀ i str o, (args ++ envs) !! i = Some str → offsets 0 (args ++ envs) !! i = Some o →
         string_at m' (sp - o) str)
    ∧ (∀ x, x < sp' ∨ sp ≤ x → m' x = m x).
Proof.
  intros [Hv1 Hv2 Hv3 Hv4 Hv5 Hv6 Hb] Hsp Hrsp Hn1 Hn2. unfold stack_need, is_u64 in *.
  pose proof (zlen_nonneg args) as Ga. pose proof (zlen_nonneg envs) as Ge.
  pose proof (zlen_nonneg auxs) as Gx. pose proof (strings_len_nonneg (args ++ envs)) as Gs.
  destruct (copy_strings_ok sp (args ++ envs) 0 sp m Hb) as (m1 & Ec & Hstr & Hfr); [lia..|].
  rewrite map_app in Ec. destruct (copy_strings_split _ _ _ _ _ _ _ Ec) as (o1 & sm & o2 & Ec1 & Ec2 & Eo). clear Ec.
  set (total := strings_len (args ++ envs)) in *.
  set (sp0 := 16 * ((sp - total) / 16)).
  assert (sp - total - 15 ≤ sp0 ≤ sp - total ∧ sp0 mod 16 = 0) as [Hsp0 Hal] by (unfold sp0; dlia).
  destruct (push_all_ok rsp sp0 m1 args envs auxs) as (st1 & st2 & st3 & E1 & E2 & E3 & S1 & S2 & P);
    [lia|lia|unfold total in *; lia|].
  pose proof (pu_sp _ _ _ _ P) as S3. rewrite zlen_stack_words in S3.
  pose proof (pu_low _ _ _ _ P) as L3.
  assert (sp0 - 8 * (zlen args + zlen envs + 2 * zlen auxs + 5) ≤ st3.1 ≤ sp0 - 32 ∧ st3.1 mod 16 = 0 ∧
          st1.1 = st3.1 + 8 * (zlen args + zlen envs + 3) ∧ st1.1 ≤ sp0) as (B3 & A3 & B1 & C1).
  { rewrite Zeven_mod in S3, S1. destruct (_ mod 2 =? 0) eqn:Ev in S3, S1; zbool; dlia. }
  exists st3.1, st3.2. cbv zeta. split_and!.
  - unfold init_main_stack. mstep. cbn [fst].
    rewrite Hv1, Hv2, Hv3, Hv4, Hv5, Hv6.
    mrun (entries_map Some args (sp, m)). mrun (entries_map Some envs (sp, m)).
    mrun (entries_all auxs (sp, m)). mrun Ec1. unfold hlt. mstep. mrun Ec2.
    rewrite <-Eo. mstep. rewrite last_offset. fold total. rewrite (align_test args envs auxs) by lia.
    rewrite (u64_small (sp - (0 + total))), ldiff_15 by (unfold is_u64; lia).
    change (16 * ((sp - (0 + total)) / 16)) with sp0.
    assert (Z.to_nat (zlen auxs) = length auxs) as -> by apply Nat2Z.id.
    assert (Z.to_nat (zlen envs) = length envs) as -> by apply Nat2Z.id.
    assert (Z.to_nat (zlen args) = length args) as -> by apply Nat2Z.id.
    apply bind_inv in E1 as ([] & sa & Ea & E1). mrun Ea.
    apply bind_inv in E1 as ([] & sb & Eb & E1). mrun Eb. mrun E1. mstep.
    apply bind_inv in E2 as ([] & sc & Ec & E2). mrun Ec.
    apply bind_inv in E2 as ([] & sd & Ed & E2). mrun Ed.
    apply bind_inv in E2 as ([] & se & Ee & E2). mrun Ee. mrun E2. mstep.
    rewrite (u64_small (zlen args)) by (unfold is_u64; lia). mrun E3. mstep.
    rewrite land_15, A3. cbn [Z.eqb]. mstep. unfold mret, stM_ret.
    rewrite S2, B1. rewrite (u64_small (sp - (st3.1 + 8))), (u64_small (sp - st3.1)),
      (u64_small (sp - (st3.1 + 8 * (zlen args + zlen envs + 3)))) by (unfold is_u64; lia).
    rewrite !u64_small by (unfold is_u64; lia).
    replace (rsp - (sp - (st3.1 + 8))) with (rsp - (sp - st3.1) + 8) by lia.
    replace (rsp - (sp - (st3.1 + 8 * (zlen args + zlen envs + 3))))
      with (rsp - (sp - st3.1) + 8 * (zlen args + zlen envs + 3)) by lia.
    by destruct st3.
  - exact A3.
  - lia.
  - lia.
  - apply (pu_words _ _ _ _ P).
  - intros i str o Hi Ho. unfold string_at. rewrite <-(Hstr i str o Hi Ho).
    pose proof (offset_range _ 0 _ _ (Z.le_refl 0) Ho) as Hor. fold total in Hor.
    pose proof (string_fits _ _ _ _ _ Hi Ho) as Hsf.
    apply load_bytes_ext; [lia|unfold zlen in *; lia|]. intros x Hx.
    apply (pu_frame _ _ _ _ P). lia.
  - intros x Hx. rewrite (pu_frame _ _ _ _ P) by lia. apply Hfr. lia.
Qed.

Lemma init_main_stack_layout_witness :
  ∃ sp' m',
    init_main_stack 5000 (mk_vars [Some [97; 98]] [Some [120]] [(6, 4096)] 1 1 1) (9000, λ _, 0) =
      Ok ((1, 5000 - (9000 - sp') + 8, 5000 - (9000 - sp') + 8 * 5, 5000 - (9000 - sp')), (sp', m'))
    ∧ load64 m' sp' = 1 ∧ string_at m' 8997 [97; 98].
Proof.
  destruct (init_main_stack_layout 5000 9000 (λ _, 0)
    (mk_vars [Some [97; 98]] [Some [120]] [(6, 4096)] 1 1 1) [[97; 98]] [[120]] [(6, 4096)])
    as (sp' & m' & E & _ & _ & W & S & _).
  - split; try reflexivity. repeat constructor; unfold is_u8; lia.
  - unfold is_u64. lia.
  - unfold is_u64. lia.
  - vm_compute. congruence.
  - vm_compute. congruence.
  - exists sp', m'. split; [exact E|]. split.
    + specialize (W 0%nat 1 eq_refl). rewrite Z.add_0_r in W. exact W.
    + exact (S 0%nat [97; 98] 3 eq_refl eq_refl).
Defined.

(** An environment string added with [add_env] is stored one entry too far: the
    first entry, which the stack is built from, stays null. *)
Lemma add_env_faults rsp str st : init_main_stack rsp (add_env str no_vars) st = Crash Fault.
Proof. destruct st. reflexivity. Qed.
