(* ===== verification/Proc.v ===== *)
(** * Process and thread tables (proc/process_management.c, proc/scheduler.c)

    Thread and process identifiers are slots of two growing tables.  This file
    has the routines that take a slot, create the structures, link a thread to
    its process and take threads down.  [virt_to_phys] of mm/vmm.c is used to
    reach a new thread's stack: it is the parameter [v2p]; [reschedule] is what
    the other processors do to a thread when they are sent an interrupt. *)

From S2P Require Import Prelude Locks Vfs Vmm DList Kernel Stack.

(** ** proc/process_management.c *)

(** [for (i = 0; i < size; i++) if (!a[i]) { found = i; break; }] *)
Fixpoint first_slot (empty : Z) (l : list Z) (i : Z) : Z :=
  match l with
  | [] => -1
  | a :: l' => if a =? empty then i else first_slot empty l' (i + 1)
  end.

Definition unless_locked (locked : Z) (m : kM unit) : kM unit :=
  if locked =? 0 then m else mret tt.

Definition add_new_pid (locked : Z) : kM Z :=
  unless_locked locked sched_acquire ;;
  s ← get;
  let new_pid := first_slot 0 (processes s) 0 in
  new_pid ← (if new_pid =? -1 then
      modify (λ s, s <| processes := processes s ++ replicate 10 0 |>) ;; mret (zlen (processes s))
    else mret new_pid);
  unless_locked locked sched_release ;;
  mret new_pid.

Definition add_new_tid (locked : Z) : kM Z :=
  unless_locked locked sched_acquire ;;
  s ← get;
  let new_tid := first_slot 0 (threads s) 0 in
  new_tid ← (if new_tid =? -1 then
      modify (λ s, s <| threads := threads s ++ replicate 10 0 |>) ;; mret (zlen (threads s))
    else mret new_tid);
  unless_locked locked sched_release ;;
  mret new_tid.

Definition add_to_process (parent : Z) (locked : Z) : kM Z :=
  unless_locked locked sched_acquire ;;
  p ← process_at parent;
  let new_index := first_slot (-1) (p_threads p) 0 in
  new_index ← (if new_index =? -1 then
      upd_process parent (λ p, p <| p_threads := p_threads p ++ replicate 10 (-1) |>) ;;
      mret (zlen (p_threads p))
    else mret new_index);
  upd_process parent (λ p, p <| child_thread_count := u64 (child_thread_count p + 1) |>) ;;
  unless_locked locked sched_release ;;
  mret new_index.

(** ** Creation (proc/scheduler.c) *)

Definition default_kernel_regs : task_regs_t :=
  mk_regs 0 0 0 0 0 0 0 0 0 0 0 0 0 0 0 0 0 16 8 0 514 0 8064 831.
Definition default_user_regs : task_regs_t :=
  mk_regs 0 0 0 0 0 0 0 0 0 0 0 0 0 0 0 0 0 35 27 0 514 0 8064 831.
Definition DEFAULT_BRK : Z := 1099511627776.
Definition TASK_STACK_SIZE : Z := 16384.

(** [strcpy] into a [char name[50]]. *)
Definition copy_name (name : list Z) : kM (list Z) :=
  if zlen name <? 50 then mret name else crashM Fault.

Section create.
(** The saved SSE state of [scheduler_init_bsp]. *)
Context (default_sse_state : Z).

Definition create_thread (name : list Z) (main rsp ring : Z) : kM Z :=
  new_task ← kalloc;
  stack ← kalloc;
  let regs := if ring =? 3 then default_user_regs else default_kernel_regs in
  cr3 ← gets base_kernel_cr3;
  node ← kalloc;
  modify (λ s, s <| nodes := <[node := mk_sleep 0 0 0 0]> (nodes s) |>) ;;
  name ← copy_name name;
  put_thread new_task
    (mk_thread name (regs <| r_rip := main |> <| r_rsp := rsp |> <| r_cr3 := cr3 |>)
       (stack + 4096) 0 0 0 0 READY 0 0 0 0 ring 0 node (mk_vars [] [] [] 0 0 0) 0 0 0 0
       default_sse_state) ;;
  mret new_task.

Definition start_thread (thread : Z) : kM Z :=
  sched_acquire ;;
  tid ← add_new_tid 1;
  upd_thread thread (λ t, t <| t_tid := tid |>) ;;
  modify (λ s, s <| threads := upd (threads s) tid thread |>) ;;
  sched_release ;;
  mret tid.

(** [if ((uint64_t) pid < process_list_size) new_parent = processes[pid];] *)
Definition find_parent (pid : Z) : kM Z :=
  s ← get; if u64 pid <? zlen (processes s) then process_slot (u64 pid) else mret 0.

(** Give the thread a slot and its parent; the same in both callers. *)
Definition adopt_thread (thread pid new_parent : Z) : kM Z :=
  new_tid ← add_new_tid 1;
  modify (λ s, s <| threads := upd (threads s) new_tid thread |>) ;;
  p ← process_at new_parent;
  upd_thread thread (λ t,
    t <| t_tid := new_tid |> <| t_regs := t_regs t <| r_cr3 := p_cr3 p |> |>
      <| parent_pid := pid |> <| t_parent := new_parent |>) ;;
  mret new_tid.

Definition list_thread (thread new_parent : Z) : kM unit :=
  index ← add_to_process new_parent 1;
  t ← thread_at thread;
  upd_process new_parent (λ p, p <| p_threads := upd (p_threads p) index (t_tid t) |>).

Definition add_new_child_thread_no_stack_init (thread pid : Z) : kM Z :=
  sched_acquire ;;
  new_parent ← find_parent pid;
  if new_parent =? 0 then mret (-1)
  else
    new_tid ← adopt_thread thread pid new_parent;
    list_thread thread new_parent ;;
    sched_release ;;
    mret new_tid.

Section stack.
Context (v2p : Z → Z → Z).

(** The stack of the first thread of a process. *)
Definition build_stack (thread : Z) : kM unit :=
  t ← thread_at thread;
  let rsp := r_rsp (t_regs t) in
  let phys := v2p (u64 (rsp - 1)) (r_cr3 (t_regs t)) in
  if phys =? NOT_MAPPED then mret tt
  else
    s ← get;
    match init_main_stack rsp (vars t) (u64 (GET_HIGHER_HALF phys + 1), kmem s) with
    | Crash c => crashM c
    | Ok ((rdi, rsi, rdx, rsp'), (_, m)) =>
        modify (λ s, s <| kmem := m |>) ;;
        upd_thread thread (λ t, t <| t_regs := t_regs t <| r_rdi := rdi |> <| r_rsi := rsi |>
                                              <| r_rdx := rdx |> <| r_rsp := rsp' |> |>)
    end.

Definition add_new_child_thread (thread pid : Z) : kM Z :=
  sched_acquire ;;
  new_parent ← find_parent pid;
  if new_parent =? 0 then mret (-1)
  else
    new_tid ← adopt_thread thread pid new_parent;
    p ← process_at new_parent;
    (if child_thread_count p =? 0 then build_stack thread else mret tt) ;;
    list_thread thread new_parent ;;
    sched_release ;;
    mret new_tid.

Definition new_thread (name : list Z) (main rsp pid ring : Z) : kM Z :=
  new_task ← create_thread name main rsp ring;
  add_new_child_thread new_task pid.
End stack.

Definition create_process (name : list Z) (new_cr3 : Z) : kM Z :=
  new_process ← kalloc;
  fd_table ← kalloc;
  (* kcalloc(10 * sizeof(fd_entry_t)): room for 70 pointers *)
  modify (λ s, s <| arrays := <[fd_table := replicate 70 0]> (arrays s) |>) ;;
  ipc_handles ← kalloc;
  name ← copy_name name;
  modify (λ s, s <| pheap := <[new_process :=
    mk_process name new_cr3 [] 0 0 fd_table 10 DEFAULT_BRK 0 0 0 0 0 0 0 0 0 ipc_handles 0]> (pheap s) |>) ;;
  mret new_process.

(** ** Taking a thread down *)

Section kill.
Context (reschedule : Z → kM unit).

Definition kill_thread (tid : Z) : kM unit :=
  a ← thread_slot tid;
  (if negb (a =? 0) then t ← thread_at a; copy_name (t_name t) ;; mret tt else mret tt) ;;
  sched_acquire ;;
  thread ← thread_slot tid;
  assertM (negb (thread =? 0)) ;;
  upd_thread thread (λ t, t <| t_state := BLOCKED |>) ;;
  t ← thread_at thread;
  (if negb (t_cpu t =? -1) then
     sched_release ;;
     reschedule (t_cpu t) ;;
     t ← thread_at thread;
     if negb (t_cpu t =? -1) then crashM Hang else sched_acquire
   else mret tt) ;;
  t ← thread_at thread;
  (if negb (t_parent t =? 0) then
     upd_process (t_parent t) (λ p, p <| child_thread_count := u64 (child_thread_count p - 1) |>)
   else mret tt) ;;
  modify (λ s, s <| threads := upd (threads s) tid 0 |>
                 <| theap := delete thread (theap s) |>) ;;
  sched_release.
End kill.
End create.

(** ** Slots *)

Lemma first_slot_spec e l : ∀ i,
  (first_slot e l i = -1 ∧ e ∉ l) ∨
  (∃ k, first_slot e l i = i + Z.of_nat k ∧ l !! k = Some e ∧
     ∀ j, (j < k)%nat → l !! j ≠ Some e).
Proof.
  induction l as [|a l IH]; intros i; simpl; [left; split; [done|set_solver]|].
  destruct (a =? e) eqn:E; zbool.
  - right. exists 0%nat. subst. split_and!; [lia|done|intros; lia].
  - destruct (IH (i + 1)) as [[-> Hn]|(k & -> & Hk & Hlt)]; [left|right].
    + split; [done|]. rewrite not_elem_of_cons. auto.
    + exists (S k). split_and!; [lia|done|]. intros [|j] Hj; simpl; [congruence|]. apply Hlt. lia.
Qed.

(** Slot [k] is the first empty one of [l], after growing [l] when it has none. *)
Definition slot_in (e : Z) (l l' : list Z) (k : Z) : Prop :=
  (l' = l ∨ (e ∉ l ∧ k = zlen l ∧ l' = l ++ replicate 10 e)) ∧
  idx l' k = Some e ∧ ∀ j, 0 ≤ j < k → idx l j ≠ Some e.

Lemma slot_in_first e l :
  let k := first_slot e l 0 in
  slot_in e l (if k =? -1 then l ++ replicate 10 e else l) (if k =? -1 then zlen l else k).
Proof.
  cbv zeta. destruct (first_slot_spec e l 0) as [[-> Hn]|(k & -> & Hk & Hlt)]; simpl.
  - split; [by right|]. split.
    + unfold idx, zlen. rewrite (proj2 (Z.leb_le _ _)) by lia.
      rewrite Nat2Z.id, lookup_app_r, Nat.sub_diag by lia. done.
    + intros j Hj Hi. apply Hn. apply idx_Some in Hi as [_ Hi].
      by eapply list_elem_of_lookup_2.
  - rewrite Z.add_0_l, (proj2 (Z.eqb_neq _ _)) by lia. split; [by left|]. unfold idx. split.
    + rewrite (proj2 (Z.leb_le _ _)) by lia. by rewrite Nat2Z.id.
    + intros j Hj. rewrite (proj2 (Z.leb_le _ _)) by lia. apply Hlt. lia.
Qed.

Lemma slot_in_keep e l l' k j a : slot_in e l l' k → idx l j = Some a → idx l' j = Some a.
Proof.
  intros [[->|(_ & _ & ->)] _] Hj; [done|]. unfold idx in *. destruct (0 <=? j); [|done].
  by apply lookup_app_l_Some.
Qed.

Lemma slot_in_range e l l' k : slot_in e l l' k → 0 ≤ k < zlen l'.
Proof. intros (_ & Hk & _). by apply idx_Some in Hk as [? _]. Qed.

(** What was not in [l] is empty in [l']. *)
Lemma slot_in_new e l l' k j a : slot_in e l l' k → idx l' j = Some a → idx l j = Some a ∨ a = e.
Proof.
  intros [[->|(_ & _ & ->)] _] Hj; [by left|]. unfold idx in *. destruct (0 <=? j); [|done].
  apply lookup_app_Some in Hj as [?|[_ Hj]]; [by left|right].
  apply lookup_replicate in Hj as [-> _]. done.
Qed.

Lemma add_new_tid_ok s :
  ∃ k l', add_new_tid 1 s = Ok (k, s <| threads := l' |>) ∧ slot_in 0 (threads s) l' k.
Proof.
  pose proof (slot_in_first 0 (threads s)) as Hs. cbv zeta in Hs.
  unfold add_new_tid, unless_locked. simpl.
  destruct (first_slot 0 (threads s) 0 =? -1) eqn:E.
  - exists (zlen (threads s)), (threads s ++ replicate 10 0). split; [|exact Hs].
    do 2 mstep. rewrite E. reflexivity.
  - exists (first_slot 0 (threads s) 0), (threads s). split; [|exact Hs].
    do 2 mstep. rewrite E. destruct s. reflexivity.
Qed.

(** ** The thread table *)

(** A slot in use names an allocated thread that knows its slot. *)
Definition tables_ok (s : kstate) : Prop :=
  ∀ i a, idx (threads s) i = Some a → a ≠ 0 → ∃ t, theap s !! a = Some t ∧ t_tid t = i.

Lemma sched_acquire_ok s :
  unlocked (sched_lock s) → sched_acquire s = Ok (tt, s <| sched_lock := Z.lor (sched_lock s) 1 |>).
Proof. intros Hl. unfold sched_acquire. mstep. by rewrite (spinlock_lock_free _ Hl). Qed.

Lemma sched_acquire_held s :
  Z.testbit (sched_lock s) 0 = true → sched_acquire s = Crash Deadlock.
Proof. intros Hl. unfold sched_acquire, spinlock_lock. mstep. by rewrite Hl. Qed.

Lemma thread_at_ok s a t : theap s !! a = Some t → thread_at a s = Ok (t, s).
Proof. intros Ht. unfold thread_at. mstep. by rewrite Ht. Qed.

Lemma upd_thread_ok s a t f :
  theap s !! a = Some t → upd_thread a f s = Ok (tt, s <| theap := <[a := f t]> (theap s) |>).
Proof. intros Ht. unfold upd_thread. mrun (thread_at_ok _ _ _ Ht). reflexivity. Qed.

Lemma get_cur_pid_ok s t :
  theap s !! current_thread (locals s) = Some t → get_cur_pid s = Ok (parent_pid t, s).
Proof. intros Ht. unfold get_cur_pid. mstep. by mrun (thread_at_ok _ _ _ Ht). Qed.

Lemma process_at_ok s a p : pheap s !! a = Some p → process_at a s = Ok (p, s).
Proof. intros Hp. unfold process_at. mstep. by rewrite Hp. Qed.

Lemma upd_process_ok s a p f :
  pheap s !! a = Some p → upd_process a f s = Ok (tt, s <| pheap := <[a := f p]> (pheap s) |>).
Proof. intros Hp. unfold upd_process. mrun (process_at_ok _ _ _ Hp). reflexivity. Qed.

(** A thread that is in no slot. *)
Definition unlisted (s : kstate) (a : Z) : Prop := ∀ i, idx (threads s) i ≠ Some a.

(** Putting an unlisted thread in a free slot keeps the table in order. *)
Lemma tables_ok_add s l' k a t :
  tables_ok s → slot_in 0 (threads s) l' k → unlisted s a → t_tid t = k →
  tables_ok (s <| threads := upd l' k a |> <| theap := <[a := t]> (theap s) |>).
Proof.
  intros Hok Hs Hu Ht i b Hi Hb. simpl in Hi |- *. pose proof (slot_in_range _ _ _ _ Hs) as Hr.
  destruct (decide (i = k)) as [->|Hik].
  - rewrite idx_upd_eq in Hi by done. injection Hi as <-. exists t. by rewrite lookup_insert_eq.
  - rewrite idx_upd_ne in Hi by (lia || done).
    destruct (slot_in_new _ _ _ _ _ _ Hs Hi) as [Hi'| ->]; [|done].
    rewrite lookup_insert_ne by (intros <-; by apply (Hu i)). by apply Hok.
Qed.

(** Starting a thread gives it the lowest free identifier, growing the table
    when there is none; the thread knows its identifier and is found under it, no
    other entry of the table or of the heap changes, and the lock is
    released. *)
Theorem start_thread_correct s a t :
  tables_ok s → unlocked (sched_lock s) → theap s !! a = Some t → unlisted s a →
  ∃ tid s', start_thread a s = Ok (tid, s') ∧
    (∀ j, 0 ≤ j < tid → idx (threads s) j ≠ Some 0) ∧
    idx (threads s') tid = Some a ∧
    theap s' = <[a := t <| t_tid := tid |>]> (theap s) ∧
    (∀ i b, idx (threads s) i = Some b → i = tid ∧ b = 0 ∨ i ≠ tid ∧ idx (threads s') i = Some b) ∧
    sched_lock s' = sched_lock s ∧ tables_ok s'.
Proof.
  intros Hok Hl Ht Hu. unfold start_thread. mrun (sched_acquire_ok s Hl).
  set (s1 := s <| sched_lock := Z.lor (sched_lock s) 1 |>).
  destruct (add_new_tid_ok s1) as (k & l' & E & Hs). mrun E.
  change (threads s1) with (threads s) in Hs.
  erewrite bind_ok; [|apply upd_thread_ok; exact Ht]. cbv beta. mstep. mstep.
  pose proof (slot_in_range _ _ _ _ Hs) as Hr. eexists k, _. split; [reflexivity|]. simpl.
  rewrite (lock_unlock _ Hl). split_and!.
  - apply Hs.
  - by apply idx_upd_eq.
  - done.
  - intros i b Hi. destruct (decide (i = k)) as [->|Hne]; [left|right].
    + split; [done|]. destruct Hs as ([Hl'|(_ & Hk0 & _)] & Hk & _); [congruence|].
      apply idx_Some in Hi as [? _]. lia.
    + split; [done|]. rewrite idx_upd_ne by (lia || done). by eapply slot_in_keep.
  - done.
  - exact (tables_ok_add _ _ _ _ (t <| t_tid := k |>) Hok Hs Hu eq_refl).
Qed.

(** ** Threads of a process *)

Lemma find_parent_ok s pid pp :
  0 ≤ pid < U64_MOD → idx (processes s) pid = Some pp → find_parent pid s = Ok (pp, s).
Proof.
  intros Hp Hi. unfold find_parent. mstep. rewrite u64_small by exact Hp.
  pose proof (idx_Some _ _ _ Hi) as [Hr _]. rewrite (proj2 (Z.ltb_lt _ _)) by lia.
  unfold process_slot. mstep. by rewrite Hi.
Qed.

Lemma adopt_thread_ok s thread pid pp t p :
  tables_ok s → theap s !! thread = Some t → unlisted s thread → pheap s !! pp = Some p →
  ∃ tid l',
    let t' := t <| t_tid := tid |> <| t_regs := t_regs t <| r_cr3 := p_cr3 p |> |>
                <| parent_pid := pid |> <| t_parent := pp |> in
    let s' := s <| threads := upd l' tid thread |> <| theap := <[thread := t']> (theap s) |> in
    adopt_thread thread pid pp s = Ok (tid, s') ∧ slot_in 0 (threads s) l' tid ∧ tables_ok s'.
Proof.
  intros Hok Ht Hu Hp. destruct (add_new_tid_ok s) as (k & l' & E & Hs). exists k, l'. cbv zeta.
  split; [|split; [exact Hs|by apply tables_ok_add]].
  unfold adopt_thread. mrun E. mstep. erewrite bind_ok; [|apply process_at_ok; exact Hp]. cbv beta.
  erewrite bind_ok; [|apply upd_thread_ok; exact Ht]. reflexivity.
Qed.

Lemma add_to_process_ok s pp p :
  pheap s !! pp = Some p →
  ∃ i l', slot_in (-1) (p_threads p) l' i ∧
    add_to_process pp 1 s =
      Ok (i, s <| pheap := <[pp := p <| p_threads := l' |>
                                     <| child_thread_count := u64 (child_thread_count p + 1) |>]>
                           (pheap s) |>).
Proof.
  intros Hp. pose proof (slot_in_first (-1) (p_threads p)) as Hs. cbv zeta in Hs.
  unfold add_to_process, unless_locked. simpl.
  destruct (first_slot (-1) (p_threads p) 0 =? -1) eqn:E;
    (eexists _, _; split; [exact Hs|]); mstep;
    (erewrite bind_ok; [|apply process_at_ok; exact Hp]); cbv beta; rewrite E.
  - erewrite bind_ok; [|erewrite bind_ok; [|apply upd_process_ok; exact Hp]; reflexivity]. cbv beta.
    erewrite bind_ok; [|apply upd_process_ok, lookup_insert_eq]. cbv beta. mstep.
    cbn. rewrite insert_insert_eq. reflexivity.
  - mstep. erewrite bind_ok; [|apply upd_process_ok; exact Hp]. cbv beta. mstep. by destruct p.
Qed.

(** The thread is entered in a free entry of its process's list. *)
Lemma list_thread_ok s thread pp t p :
  theap s !! thread = Some t → pheap s !! pp = Some p →
  ∃ i l', slot_in (-1) (p_threads p) l' i ∧
    list_thread thread pp s =
      Ok (tt, s <| pheap := <[pp := p <| p_threads := upd l' i (t_tid t) |>
                                      <| child_thread_count := u64 (child_thread_count p + 1) |>]>
                            (pheap s) |>).
Proof.
  intros Ht Hp. destruct (add_to_process_ok s pp p Hp) as (i & l' & Hs & E).
  exists i, l'. split; [exact Hs|]. unfold list_thread. mrun E.
  erewrite bind_ok; [|apply thread_at_ok; exact Ht]. cbv beta.
  erewrite upd_process_ok; [|apply lookup_insert_eq]. cbn. rewrite insert_insert_eq. reflexivity.
Qed.

(** The thread and its parent, once it is added. *)
Definition adopted (t : thread_t) (tid pid pp cr3 : Z) : thread_t :=
  t <| t_tid := tid |> <| t_regs := t_regs t <| r_cr3 := cr3 |> |> <| parent_pid := pid |> <| t_parent := pp |>.
Definition with_thread (p : process_t) (l : list Z) (i tid : Z) : process_t :=
  p <| p_threads := upd l i tid |> <| child_thread_count := u64 (child_thread_count p + 1) |>.

Lemma child_thread_run s thread pid t pp p :
  tables_ok s → unlocked (sched_lock s) → theap s !! thread = Some t → unlisted s thread → 0 ≤ pid < U64_MOD →
  idx (processes s) pid = Some pp → pp ≠ 0 → pheap s !! pp = Some p →
  ∃ tid l1 i l',
    let s' := s <| threads := upd l1 tid thread |> <| theap := <[thread := adopted t tid pid pp (p_cr3 p)]> (theap s) |>
                <| pheap := <[pp := with_thread p l' i tid]> (pheap s) |> in
    add_new_child_thread_no_stack_init thread pid s = Ok (tid, s') ∧ slot_in 0 (threads s) l1 tid ∧
    slot_in (-1) (p_threads p) l' i ∧ tables_ok s'.
Proof.
  intros Hok Hl Ht Hu Hpid Hi Hpp Hp. unfold add_new_child_thread_no_stack_init. mrun (sched_acquire_ok s Hl).
  set (s1 := s <| sched_lock := Z.lor (sched_lock s) 1 |>).
  mrun (find_parent_ok s1 pid pp Hpid Hi). rewrite (proj2 (Z.eqb_neq pp 0)) by done.
  destruct (adopt_thread_ok s1 thread pid pp t p Hok Ht Hu Hp) as (tid & l1 & E1 & S1 & K1). cbv zeta in E1, K1.
  mrun E1. fold (adopted t tid pid pp (p_cr3 p)). set (t1 := adopted t tid pid pp (p_cr3 p)).
  set (s2 := s1 <| threads := upd l1 tid thread |> <| theap := <[thread := t1]> (theap s1) |>).
  assert (theap s2 !! thread = Some t1) as Ht2 by apply lookup_insert_eq.
  destruct (list_thread_ok s2 thread pp t1 p Ht2 Hp) as (i & l' & S2 & E2).
  exists tid, l1, i, l'. cbv zeta. split; [|split; [exact S1|split; [exact S2|exact K1]]].
  mrun E2. mstep. unfold mret, stM_ret. do 2 f_equal. destruct s. cbn. by rewrite lock_unlock.
Qed.

(** Adding a thread to a process.  With a process under [pid], the thread gets
    the lowest free identifier, its parent's address space and the links to its
    parent, and the parent lists it and counts it; the lock is released.  Without
    one, the call returns -1 and keeps the scheduler lock, so that the next
    attempt to take it never returns. *)
Theorem child_thread_correct s thread pid t :
  tables_ok s → unlocked (sched_lock s) → theap s !! thread = Some t → unlisted s thread →
  0 ≤ pid < U64_MOD →
  (∀ pp p, idx (processes s) pid = Some pp → pp ≠ 0 → pheap s !! pp = Some p →
     ∃ tid i l' s' t' p', add_new_child_thread_no_stack_init thread pid s = Ok (tid, s') ∧
       (∀ j, 0 ≤ j < tid → idx (threads s) j ≠ Some 0) ∧
       idx (threads s') tid = Some thread ∧
       theap s' = <[thread := t']> (theap s) ∧ pheap s' = <[pp := p']> (pheap s) ∧
       t_tid t' = tid ∧ t_parent t' = pp ∧ parent_pid t' = pid ∧ r_cr3 (t_regs t') = p_cr3 p ∧
       slot_in (-1) (p_threads p) l' i ∧ p_threads p' = upd l' i tid ∧
       child_thread_count p' = u64 (child_thread_count p + 1) ∧
       sched_lock s' = sched_lock s ∧ tables_ok s') ∧
  ((idx (processes s) pid = None ∨ idx (processes s) pid = Some 0) →
     ∃ s', add_new_child_thread_no_stack_init thread pid s = Ok (-1, s') ∧
       sched_acquire s' = Crash Deadlock).
Proof.
  intros Hok Hl Ht Hu Hpid. split.
  - intros pp p Hi Hpp Hp.
    destruct (child_thread_run s thread pid t pp p Hok Hl Ht Hu Hpid Hi Hpp Hp) as (tid & l1 & i & l' & E & S1 & S2 & K).
    eexists tid, i, l', _, _, _. split; [exact E|]. split_and!; try reflexivity; [apply S1| |exact S2|exact K].
    apply idx_upd_eq. by eapply slot_in_range.
  - intros Hn. unfold add_new_child_thread_no_stack_init. mrun (sched_acquire_ok s Hl).
    set (s1 := s <| sched_lock := Z.lor (sched_lock s) 1 |>).
    assert (find_parent pid s1 = Ok (0, s1)) as E.
    { destruct Hn as [Hn|Hn]; [|by apply find_parent_ok].
      unfold find_parent. mstep. rewrite u64_small by exact Hpid.
      destruct (pid <? zlen (processes s1)) eqn:E; [|done]. zbool.
      destruct (idx_lt (processes s) pid) as [x Hx]; [simpl in E; lia|congruence]. }
    mrun E. exists s1. split; [reflexivity|]. apply sched_acquire_held.
    change (sched_lock s1) with (Z.lor (sched_lock s) 1). rewrite Z.lor_spec. by rewrite orb_true_r.
Qed.

(** *** A small kernel

    Process 0 with thread 0 running; thread 1 is a new one, in no slot. *)
Definition demo_thread (tid state : Z) : thread_t :=
  mk_thread [105] default_kernel_regs 4096 0 0 0 0 state (-1) tid 0 500 0 0 0
    (mk_vars [] [] [] 0 0 0) 0 0 0 0 0.
Definition demo_process : process_t :=
  mk_process [105] 8192 [0; -1] 1 0 600 10 DEFAULT_BRK 0 0 0 0 0 0 0 0 0 0 0.
Definition demo_locals : cpu_locals_t := mk_locals 0 0 0 1000 2 0 0 0 0 0 0 0 0.
Definition demo_hw : hw_t := mk_hw 8192 0 0 0 0 0 0 0 0 0 0.
Definition demo_kernel : kstate :=
  mk_kstate [1000; 0; 3000] [500; 0]
    {[1000 := demo_thread 0 RUNNING; 2000 := demo_thread 0 READY; 3000 := demo_thread 2 BLOCKED]}
    {[500 := demo_process]} 100000 0 demo_locals demo_hw ∅ 0 1 1 (mk_debug 0 0 0 0 0 0 0)
    ∅ {[600 := replicate 70 0]} 0 {[1 := mk_sleep 0 0 0 0]} 0 0 8192 (mk_cpu false []) (λ _, 0)
    (mk_fs ∅ ∅ 0 0 0 65536) (mk_pipes None ∅ 0).

Lemma demo_tables : tables_ok demo_kernel ∧ unlisted demo_kernel 2000.
Proof.
  split.
  - intros i a Hi Ha. apply idx_Some in Hi as [Hr Hi]. unfold zlen in Hr. simpl in Hr.
    assert (i = 0 ∨ i = 1 ∨ i = 2) as [-> | [-> | ->]] by lia; vm_compute in Hi; injection Hi as <-.
    + eexists. split; [vm_compute; reflexivity|reflexivity].
    + done.
    + eexists. split; [vm_compute; reflexivity|reflexivity].
  - intros i Hi. apply idx_Some in Hi as [Hr Hi]. unfold zlen in Hr. simpl in Hr.
    assert (i = 0 ∨ i = 1 ∨ i = 2) as [-> | [-> | ->]] by lia; vm_compute in Hi; congruence.
Qed.

Lemma start_thread_correct_witness :
  ∃ tid s', start_thread 2000 demo_kernel = Ok (tid, s') ∧ idx (threads s') tid = Some 2000 ∧
    tables_ok s'.
Proof.
  destruct (start_thread_correct demo_kernel 2000 (demo_thread 0 READY) (proj1 demo_tables))
    as (tid & s' & E & _ & Hi & _ & _ & _ & K);
    [reflexivity|vm_compute; reflexivity|apply demo_tables|eauto].
Defined.

Lemma child_thread_correct_witness :
  (∃ tid s', add_new_child_thread_no_stack_init 2000 0 demo_kernel = Ok (tid, s') ∧
     idx (threads s') tid = Some 2000) ∧
  (∃ s', add_new_child_thread_no_stack_init 2000 1 demo_kernel = Ok (-1, s') ∧
     sched_acquire s' = Crash Deadlock).
Proof.
  split.
  - destruct (child_thread_correct demo_kernel 2000 0 (demo_thread 0 READY) (proj1 demo_tables))
      as [Hok _]; [reflexivity|vm_compute; reflexivity|apply demo_tables|lia|].
    destruct (Hok 500 demo_process) as (tid & i & l' & s' & t' & p' & E & _ & Hi & _);
      [reflexivity|lia|vm_compute; reflexivity|eauto].
  - destruct (child_thread_correct demo_kernel 2000 1 (demo_thread 0 READY) (proj1 demo_tables))
      as [_ Hno]; [reflexivity|vm_compute; reflexivity|apply demo_tables|lia|].
    apply Hno. right. reflexivity.
Defined.

(** A thread that was never scheduled has [cpu] 0, not -1: when the other processors
    have nothing to do with it, killing it waits for ever. *)
Lemma create_thread_cpu sse name main rsp ring s a s1 :
  create_thread sse name main rsp ring s = Ok (a, s1) →
  ∃ t, theap s1 !! a = Some t ∧ t_cpu t = 0 ∧ zlen (t_name t) < 50.
Proof.
  unfold create_thread, copy_name. do 5 mstep. intros E. apply bind_inv in E as (n & s2 & En & E).
  destruct (zlen name <? 50) eqn:Hn; [|done]. injection En as <- <-. zbool.
  unfold put_thread, mbind, stM_bind, modify, mret, stM_ret in E. injection E as <- <-.
  eexists. split; [apply lookup_insert_eq|done].
Qed.

Lemma kill_never_run_hangs s tid a t :
  theap s !! a = Some t → t_cpu t = 0 → zlen (t_name t) < 50 →
  idx (threads s) tid = Some a → a ≠ 0 → unlocked (sched_lock s) →
  kill_thread (λ _, mret tt) tid s = Crash Hang.
Proof.
  intros Ht Hc Hn Hi Ha Hl. unfold kill_thread.
  assert (∀ s', threads s' = threads s → thread_slot tid s' = Ok (a, s')) as Hslot.
  { intros s' E. unfold thread_slot. mstep. by rewrite E, Hi. }
  mrun (Hslot s eq_refl). rewrite (proj2 (Z.eqb_neq a 0)) by done. cbn [negb].
  erewrite bind_ok; [|erewrite bind_ok; [|apply thread_at_ok; exact Ht]; cbv beta;
    unfold copy_name; rewrite (proj2 (Z.ltb_lt _ _)) by done; reflexivity]. cbv beta.
  mrun (sched_acquire_ok s Hl). erewrite bind_ok; [|apply Hslot; reflexivity]. cbv beta.
  rewrite (proj2 (Z.eqb_neq a 0)) by done. cbn [negb]. mstep.
  erewrite bind_ok; [|apply upd_thread_ok; exact Ht]. cbv beta.
  erewrite bind_ok; [|apply thread_at_ok, lookup_insert_eq]. cbv beta.
  apply bind_crash. change (t_cpu (t <| t_state := BLOCKED |>)) with (t_cpu t).
  rewrite Hc. cbn [Z.eqb negb]. mstep. mstep.
  erewrite bind_ok; [|apply thread_at_ok, lookup_insert_eq]. cbv beta.
  change (t_cpu (t <| t_state := BLOCKED |>)) with (t_cpu t). by rewrite Hc.
Qed.
