(* ===== verification/Sched.v ===== *)
(** * The scheduler (proc/scheduler.c)

    [schedule] is entered from an interrupt with the frame of the interrupted
    code, saves it to the current thread, picks the next one round robin and
    returns the frame to resume.  [tsc_at i] is the value of the [i]-th read of
    the time stamp counter.  The debug registers are loaded by the routines of
    klibc/debug.c. *)

From S2P Require Import Prelude Locks Vmm DList Kernel Stack Proc.

Section sched.
Context (tsc_at : nat → Z).

Definition read_tsc : kM Z :=
  s ← get; upd_hw (λ h, h <| tsc_reads := S (tsc_reads h) |>) ;; mret (tsc_at (tsc_reads (hw s))).

(** ** klibc/debug.c *)

Definition create_local_dr7 (t : Z) : kM Z :=
  th ← thread_at t;
  if t_parent th =? 0 then mret 0
  else
    p ← process_at (t_parent th);
    let ret := 0 in
    let ret := if negb (local_watchpoint1_active p =? 0)
               then Z.lor (Z.lor ret (Z.shiftl 13 24)) (Z.shiftl 1 5) else ret in
    let ret := if negb (local_watchpoint2_active p =? 0)
               then Z.lor (Z.lor ret (u64 (s32 (Z.shiftl 13 28)))) (Z.shiftl 1 7) else ret in
    mret ret.

Definition set_debug_state : kM unit :=
  s ← get;
  match spinlock_lock (watchpoint_lock (debug s)) with
  | Crash c => crashM c
  | Ok l =>
      modify (λ s, s <| debug := debug s <| watchpoint_lock := l |> |>) ;;
      let d := debug s in
      upd_hw (λ h, h <| dr0 := g_dr0 d |> <| dr1 := g_dr1 d |>) ;;
      p ← get_cur_process;
      (if negb (p =? 0) then
         pr ← process_at p;
         upd_hw (λ h, h <| dr2 := local_watchpoint1 pr |> <| dr3 := local_watchpoint2 pr |>)
       else upd_hw (λ h, h <| dr2 := g_dr2 d |> <| dr3 := g_dr3 d |>)) ;;
      c ← get_cur_thread;
      local ← create_local_dr7 c;
      upd_locals (λ l, l <| local_dr7 := local |>) ;;
      upd_hw (λ h, h <| dr7 := u32 (Z.lor (g_dr7 d) local) |>) ;;
      modify (λ s, s <| debug := debug s
        <| watchpoint_cpu_count := u8 (watchpoint_cpu_count (debug s) + 1) |>
        <| watchpoint_lock := spinlock_unlock (watchpoint_lock (debug s)) |> |>)
  end.

(** ** The choice of a thread *)

Definition pickable (state : Z) : bool :=
  (state =? READY) || (state =? WAIT_EVENT) || (state =? WAIT_EVENT_TIMEOUT).

Fixpoint pick_scan (n : nat) (t : Z) : kM (option Z) :=
  match n with
  | O => mret None
  | S n' =>
      task ← thread_slot t;
      if negb (task =? 0) then
        th ← thread_at task;
        if pickable (t_state th) then mret (Some (t_tid th)) else pick_scan n' (t + 1)
      else pick_scan n' (t + 1)
  end.

Definition pick_task : kM Z :=
  c ← get_cur_thread;
  if c =? 0 then mret (-1)
  else
    cur ← thread_at c;
    s ← get;
    let first := t_tid cur + 1 in
    r ← pick_scan (Z.to_nat (zlen (threads s) - u64 first)) first;
    match r with
    | Some tid => mret tid
    | None =>
        r ← pick_scan (Z.to_nat (t_tid cur + 1)) 0;
        mret (default (-1) r)
    end.

(** ** Saving the interrupted thread *)

Definition saved_regs (r : int_reg_t) (h : hw_t) (fs : Z) : task_regs_t :=
  mk_regs (i_rax r) (i_rbx r) (i_rcx r) (i_rdx r) (i_rbp r) (i_rdi r) (i_rsi r)
    (i_r8 r) (i_r9 r) (i_r10 r) (i_r11 r) (i_r12 r) (i_r13 r) (i_r14 r) (i_r15 r)
    (i_rsp r) (i_rip r) (i_ss r) (i_cs r) fs (i_rflags r) (hw_cr3 h) (hw_mxcsr h) (hw_fcw h).

Definition saved_thread (r : int_reg_t) (s : kstate) (tsc : Z) (t : thread_t) : thread_t :=
  t <| t_regs := saved_regs r (hw s) (r_fs (t_regs t)) |>
    <| kernel_stack := thread_kernel_stack (locals s) |>
    <| user_stack := thread_user_stack (locals s) |>
    <| t_ignore_ring := ignore_ring (locals s) |>
    <| sse_region := hw_sse (hw s) |>
    <| tsc_stopped := tsc |>
    <| tsc_total := u64 (tsc_total t + u64 (tsc - tsc_started t)) |>
    <| t_cpu := -1 |>
    <| running := 0 |>
    <| t_state := if (t_state t =? RUNNING) && negb (t_tid t =? idle_tid (locals s))
                  then READY else t_state t |>.

Definition save_context (r : int_reg_t) : kM unit :=
  running_task ← get_cur_thread;
  if running_task =? 0 then mret tt
  else
    s ← get;
    tsc ← read_tsc;
    upd_thread running_task (saved_thread r s tsc).

(** ** Choosing the next one *)

Definition go_idle : kM unit :=
  s ← get;
  a ← thread_slot (idle_tid (locals s));
  upd_locals (λ l, l <| current_thread := a |>).

Definition event_word (e : Z) : kM Z := s ← get; of_opt (events s !! e).
Definition take_event (e : Z) : kM unit :=
  w ← event_word e;
  modify (λ s, s <| events := <[e := snd (atomic_dec w)]> (events s) |>).

(** From [repick_task] to [picked]: the thread to run, or -1 for idle. *)
Fixpoint choose (n : nat) (picked_first : Z) : kM Z :=
  match n with
  | O => crashM Hang
  | S n' =>
      tid_run ← pick_task;
      if tid_run =? -1 then go_idle ;; mret (-1)
      else if negb (picked_first =? -1) && (picked_first =? tid_run) then go_idle ;; mret (-1)
      else
        let picked_first := if picked_first =? -1 then tid_run else picked_first in
        to_run ← thread_slot tid_run;
        upd_locals (λ l, l <| current_thread := to_run |>) ;;
        t ← thread_at to_run;
        if t_state t =? WAIT_EVENT then
          w ← event_word (event t);
          if negb (w =? 0) then
            take_event (event t) ;;
            upd_thread to_run (λ t, t <| t_state := READY |>) ;;
            mret tid_run
          else choose n' picked_first
        else if t_state t =? WAIT_EVENT_TIMEOUT then
          w ← event_word (event t);
          s ← get;
          if negb (w =? 0) then
            take_event (event t) ;;
            upd_thread to_run (λ t, t <| t_state := READY |>) ;;
            mret tid_run
          else if event_timeout t <=? u64 (event_wait_start t - global_ticks s) then
            upd_thread to_run (λ t, t <| t_state := READY |>) ;;
            mret tid_run
          else choose n' picked_first
        else mret tid_run
  end.

(** ** Resuming it *)

Definition count_idle : kM unit :=
  now ← read_tsc;
  upd_locals (λ l, l <| idle_tsc_count := u64 (idle_tsc_count l + u64 (now - idle_start_tsc l)) |>).
Definition count_active : kM unit :=
  now ← read_tsc;
  upd_locals (λ l, l <| active_tsc_count := u64 (active_tsc_count l + u64 (now - active_start_tsc l)) |>).

(** From [picked] on: [used_to_be_idle] and [used_to_be_active]. *)
Definition mark_running (tid_run : Z) : kM (bool * bool) :=
  running_task ← get_cur_thread;
  if negb (tid_run =? -1) then
    t ← thread_at running_task;
    assertM (t_state t =? READY) ;;
    assertM (running t =? 0) ;;
    upd_thread running_task (λ t, t <| running := 1 |> <| t_state := RUNNING |>) ;;
    l ← gets locals;
    (if negb (currently_idle l =? 0) then count_idle else mret tt) ;;
    upd_locals (λ l, l <| currently_idle := 0 |>) ;;
    mret (negb (currently_idle l =? 0), false)
  else
    l ← gets locals;
    (if currently_idle l =? 0 then count_active else mret tt) ;;
    upd_locals (λ l, l <| currently_idle := 1 |>) ;;
    mret (false, currently_idle l =? 0).

(** The frame of a saved thread; the interrupt number and error code stay. *)
Definition frame_of (g : task_regs_t) (r : int_reg_t) : int_reg_t :=
  mk_int_reg (r_r15 g) (r_r14 g) (r_r13 g) (r_r12 g) (r_r11 g) (r_r10 g) (r_r9 g) (r_r8 g)
    (r_rsi g) (r_rdi g) (r_rbp g) (r_rdx g) (r_rcx g) (r_rbx g) (r_rax g)
    (i_int_num r) (i_int_err r) (r_rip g) (r_cs g) (r_rflags g) (r_rsp g) (r_ss g).

Definition load_context (r : int_reg_t) : kM int_reg_t :=
  running_task ← get_cur_thread;
  local ← create_local_dr7 running_task;
  upd_locals (λ l, l <| local_dr7 := local |>) ;;
  set_debug_state ;;
  l ← gets locals;
  upd_thread running_task (λ t, t <| t_cpu := cpu_index l |>) ;;
  t ← thread_at running_task;
  let g := t_regs t in
  upd_locals (λ l, l <| ignore_ring := t_ignore_ring t |>) ;;
  upd_hw (λ h, h <| hw_sse := sse_region t |> <| hw_mxcsr := r_mxcsr g |> <| hw_fcw := r_fcw g |>
                 <| hw_fs := r_fs g |>) ;;
  upd_locals (λ l, l <| thread_kernel_stack := kernel_stack t |>
                     <| thread_user_stack := user_stack t |>) ;;
  h ← gets hw;
  (if negb (hw_cr3 h =? r_cr3 g) then upd_hw (λ h, h <| hw_cr3 := r_cr3 g |>) else mret tt) ;;
  mret (frame_of g r).

Definition account (used_to_be_idle used_to_be_active : bool) : kM unit :=
  l ← gets locals;
  (if negb (currently_idle l =? 0) then
     (if negb used_to_be_active then count_idle else mret tt) ;;
     now ← read_tsc;
     upd_locals (λ l, l <| idle_start_tsc := now |>)
   else
     (if negb used_to_be_idle then count_active else mret tt) ;;
     now ← read_tsc;
     upd_locals (λ l, l <| active_start_tsc := now |>)) ;;
  running_task ← get_cur_thread;
  now ← read_tsc;
  upd_thread running_task (λ t, t <| tsc_started := now |>) ;;
  now ← read_tsc;
  upd_locals (λ l, l <| total_tsc := now |>).

Definition schedule (r : int_reg_t) : kM int_reg_t :=
  save_context r ;;
  s ← get;
  tid_run ← choose (S (S (length (threads s)))) (-1);
  used ← mark_running tid_run;
  r' ← load_context r;
  account used.1 used.2 ;;
  sched_release ;;
  mret r'.

(** ** Entry points *)

(** [int $254] runs [schedule] on the frame of the caller. *)
Definition yield (r : int_reg_t) : kM int_reg_t :=
  s ← get;
  if negb (scheduler_enabled s =? 0) then sched_acquire ;; schedule r else mret r.

Definition force_unlocked_schedule (r : int_reg_t) : kM int_reg_t :=
  s ← get;
  if negb (scheduler_enabled s =? 0) then schedule r else mret r.

Definition schedule_runner (r : int_reg_t) : kM int_reg_t :=
  s ← get;
  let '(held, l) := spinlock_check_and_lock (sched_lock s) in
  modify (λ s, s <| sched_lock := l |>) ;;
  if held =? 0 then schedule r
  else
    (if negb (currently_idle (locals s) =? 0) then
       count_idle ;; now ← read_tsc; upd_locals (λ l, l <| idle_start_tsc := now |>)
     else
       count_active ;; now ← read_tsc; upd_locals (λ l, l <| active_start_tsc := now |>)) ;;
    mret r.
End sched.
