(* ===== verification/SchedTheorems.v ===== *)
(** * Correctness of the scheduler

    The choice of the next thread is compared with a search over the identifiers in
    round robin order ([cycle]), and a switch with the saving and restoring of
    whole contexts. *)

From S2P Require Import Prelude Locks Vmm DList Kernel Stack Proc Sched.

(** ** The specification *)

(** The thread in a slot. *)
Definition thr (s : kstate) (tid : Z) : option thread_t :=
  match idx (threads s) tid with
  | Some a => if a =? 0 then None else theap s !! a
  | None => None
  end.

Definition pick_b (s : kstate) (tid : Z) : bool :=
  match thr s tid with Some t => pickable (t_state t) | None => false end.

(** The thread could run now: it is ready, its event has occurred, or its wait
    has timed out (as the code computes that). *)
Definition ready_now (s : kstate) (tid : Z) : bool :=
  match thr s tid with
  | None => false
  | Some t =>
      let occurred := negb (default 0 (events s !! event t) =? 0) in
      (t_state t =? READY) ||
      ((t_state t =? WAIT_EVENT) && occurred) ||
      ((t_state t =? WAIT_EVENT_TIMEOUT) &&
       (occurred || (event_timeout t <=? u64 (event_wait_start t - global_ticks s))))
  end.

(** All identifiers, starting after [cur] and ending with it. *)
Definition range (a b : Z) : list Z := seqZ a (b - a).
Definition cycle (cur size : Z) : list Z := range (cur + 1) size ++ range 0 (cur + 1).

(** ** Lists of identifiers *)

Lemma find_app_None {A} (f : A → bool) l1 l2 :
  find f l1 = None → find f (l1 ++ l2) = find f l2.
Proof. induction l1 as [|a l1 IH]; simpl; [done|]. by destruct (f a). Qed.

Lemma find_Some_split {A} (f : A → bool) l a :
  find f l = Some a → ∃ l1 l2, l = l1 ++ a :: l2 ∧ f a = true ∧ find f l1 = None.
Proof.
  induction l as [|b l IH]; simpl; [done|]. destruct (f b) eqn:E.
  - intros [= ->]. by exists [], l.
  - intros Hf. destruct (IH Hf) as (l1 & l2 & -> & Ha & Hn). exists (b :: l1), l2.
    split_and!; [done..|]. simpl. by rewrite E.
Qed.

Lemma find_None_mono {A} (f g : A → bool) l :
  (∀ a, g a = true → f a = true) → find f l = None → find g l = None.
Proof.
  intros Hfg. induction l as [|a l IH]; simpl; [done|]. destruct (f a) eqn:Ef; [done|].
  destruct (g a) eqn:Eg; [|done]. apply Hfg in Eg. congruence.
Qed.

Lemma cycle_elem cur size c : 0 ≤ cur < size → c ∈ cycle cur size ↔ 0 ≤ c < size.
Proof. intros Hc. unfold cycle, range. rewrite elem_of_app, !elem_of_seqZ. lia. Qed.

Lemma cycle_NoDup cur size : NoDup (cycle cur size).
Proof.
  unfold cycle, range. apply NoDup_app. split_and!; [apply NoDup_seqZ| |apply NoDup_seqZ].
  intros x. rewrite !elem_of_seqZ. lia.
Qed.

Lemma NoDup_split_unique (l1 : list Z) : ∀ l1' c l2 l2',
  NoDup (l1 ++ c :: l2) → l1 ++ c :: l2 = l1' ++ c :: l2' → l1 = l1' ∧ l2 = l2'.
Proof.
  induction l1 as [|a l1 IH]; intros [|b l1'] c l2 l2' Hnd E; simplify_eq/=.
  - done.
  - apply NoDup_cons in Hnd as [Hn _]. set_solver.
  - apply NoDup_cons in Hnd as [Hn _]. set_solver.
  - apply NoDup_cons in Hnd as [_ Hnd]. destruct (IH _ _ _ _ Hnd H0) as [-> ->]. done.
Qed.

Lemma range_split a b c : a ≤ b ≤ c → range a c = range a b ++ range b c.
Proof.
  intros Hr. unfold range. replace (c - a) with ((b - a) + (c - b)) by lia.
  rewrite seqZ_app by lia. do 2 f_equal. lia.
Qed.

Lemma range_cons a b : a < b → range a b = a :: range (a + 1) b.
Proof. intros Hr. unfold range. rewrite seqZ_cons by lia. f_equal. f_equal; lia. Qed.

Lemma range_nil a b : b ≤ a → range a b = [].
Proof. intros Hr. unfold range. by rewrite seqZ_nil by lia. Qed.

(** The order that starts after [c], when [c] is somewhere in the order that starts
    after [cur]. *)
Lemma cycle_rotate cur size c l1 l2 :
  0 ≤ cur < size → cycle cur size = l1 ++ c :: l2 → cycle c size = l2 ++ l1 ++ [c].
Proof.
  intros Hc E. assert (0 ≤ c < size) as Hcs.
  { apply (cycle_elem cur); [done|]. rewrite E. set_solver. }
  assert (∃ k1 k2, cycle cur size = k1 ++ c :: k2 ∧ cycle c size = k2 ++ k1 ++ [c])
    as (k1 & k2 & Ek & Er).
  { unfold cycle. destruct (decide (cur < c)).
    - exists (range (cur + 1) c), (range (c + 1) size ++ range 0 (cur + 1)).
      rewrite (range_split (cur + 1) c size), (range_cons c size), (range_split 0 (cur + 1) (c + 1)),
        (range_split (cur + 1) c (c + 1)), (range_cons c (c + 1)) by lia.
      rewrite (range_nil (c + 1) (c + 1)), <-!app_assoc by lia. done.
    - exists (range (cur + 1) size ++ range 0 c), (range (c + 1) (cur + 1)).
      rewrite (range_split 0 c (cur + 1)), (range_cons c (cur + 1)),
        (range_split (c + 1) (cur + 1) size), (range_split 0 c (c + 1)), (range_cons c (c + 1)) by lia.
      rewrite (range_nil (c + 1) (c + 1)), <-!app_assoc by lia. done. }
  pose proof (cycle_NoDup cur size) as Hnd. rewrite E in Ek, Hnd.
  destruct (NoDup_split_unique _ _ _ _ _ Hnd Ek) as [-> ->]. done.
Qed.

(** ** pick_task *)

Lemma thr_slot s tid t :
  tables_ok s → thr s tid = Some t →
  ∃ a, idx (threads s) tid = Some a ∧ a ≠ 0 ∧ theap s !! a = Some t ∧ t_tid t = tid.
Proof.
  intros Hok Ht. unfold thr in Ht. destruct (idx (threads s) tid) as [a|] eqn:Hi; [|done].
  destruct (a =? 0) eqn:E; [done|]. zbool. exists a.
  destruct (Hok tid a Hi E) as (t' & Ht' & ?). split_and!; [done..|]. congruence.
Qed.

Lemma pick_scan_ok s n : ∀ t,
  tables_ok s → 0 ≤ t → t + Z.of_nat n ≤ zlen (threads s) →
  pick_scan n t s = Ok (find (pick_b s) (seqZ t (Z.of_nat n)), s).
Proof.
  induction n as [|n IH]; intros t Hok Ht Hn; [done|].
  rewrite seqZ_cons by lia. replace (Z.pred (Z.of_nat (S n))) with (Z.of_nat n) by lia.
  cbn [pick_scan find]. destruct (idx_lt (threads s) t) as [a Ha]; [lia|].
  assert (thread_slot t s = Ok (a, s)) as Es by (unfold thread_slot; mstep; by rewrite Ha).
  mrun Es. unfold pick_b at 1, thr. rewrite Ha. destruct (a =? 0) eqn:E; simpl.
  - apply IH; [done|lia..].
  - zbool. destruct (Hok t a Ha E) as (th & Hth & Htid). mrun (thread_at_ok _ _ _ Hth).
    rewrite Hth. destruct (pickable (t_state th)); [by rewrite Htid|]. apply IH; [done|lia..].
Qed.

(** The current thread is a listed one. *)
Definition current_ok (s : kstate) (cur : Z) : Prop :=
  current_thread (locals s) ≠ 0 ∧ idx (threads s) cur = Some (current_thread (locals s)).

Lemma pick_task_ok s cur :
  tables_ok s → current_ok s cur → zlen (threads s) < U64_MOD →
  pick_task s = Ok (default (-1) (find (pick_b s) (cycle cur (zlen (threads s)))), s).
Proof.
  intros Hok [Hc Hi] Hsz. pose proof (idx_Some _ _ _ Hi) as [Hr _].
  destruct (Hok _ _ Hi Hc) as (t & Ht & Htid). unfold pick_task. mstep.
  rewrite (proj2 (Z.eqb_neq _ _)) by done. mrun (thread_at_ok _ _ _ Ht). mstep. rewrite Htid.
  rewrite u64_small by (unfold is_u64; lia). unfold cycle, range.
  erewrite bind_ok; [|apply pick_scan_ok; [done|lia|lia]]. cbv beta.
  rewrite Z2Nat.id by lia. destruct (find _ (seqZ (cur + 1) _)) as [x|] eqn:E1.
  - assert (∀ (l1 l2 : list Z) f (y : Z), find f l1 = Some y → find f (l1 ++ l2) = Some y) as Hfa.
    { clear. induction l1 as [|a l1 IH]; intros l2 f y; simpl; [done|]. destruct (f a); [done|]. apply IH. }
    by rewrite (Hfa _ _ _ _ E1).
  - rewrite (find_app_None _ _ _ E1).
    erewrite bind_ok; [|apply pick_scan_ok; [done|lia|lia]]. cbv beta.
    rewrite Z2Nat.id by lia. by rewrite Z.sub_0_r.
Qed.

(** ** The loop of [schedule] *)

Definition with_cur (s : kstate) (a : Z) : kstate :=
  s <| locals := locals s <| current_thread := a |> |>.

(** Every waiting thread waits for an event that exists. *)
Definition waits_ok (s : kstate) : Prop :=
  ∀ tid t, thr s tid = Some t →
    t_state t = WAIT_EVENT ∨ t_state t = WAIT_EVENT_TIMEOUT → is_Some (events s !! event t).

(** A waiting thread is made ready; the occurrence it waited for is used up. *)
Definition grant (s : kstate) (a : Z) (t : thread_t) : kstate :=
  if t_state t =? READY then s
  else
    (if negb (default 0 (events s !! event t) =? 0)
     then s <| events := <[event t := snd (atomic_dec (default 0 (events s !! event t)))]> (events s) |>
     else s) <| theap := <[a := t <| t_state := READY |>]> (theap s) |>.

Lemma ready_pick s tid : ready_now s tid = true → pick_b s tid = true.
Proof.
  unfold ready_now, pick_b, pickable. destruct (thr s tid) as [t|]; [|done].
  destruct (t_state t =? READY), (t_state t =? WAIT_EVENT), (t_state t =? WAIT_EVENT_TIMEOUT); done.
Qed.

Lemma upd_locals_cur s a b : upd_locals (λ l, l <| current_thread := b |>) (with_cur s a) =
  Ok (tt, with_cur s b).
Proof. reflexivity. Qed.

(** One round: the picked thread [d] is taken, or passed over. *)
Lemma choose_step s cc n pf d a t :
  pick_task (with_cur s cc) = Ok (d, with_cur s cc) → d ≠ -1 → pf ≠ d →
  idx (threads s) d = Some a → a ≠ 0 → theap s !! a = Some t → pickable (t_state t) = true →
  waits_ok s →
  choose (S n) pf (with_cur s cc) =
    if ready_now s d then Ok (d, with_cur (grant s a t) a)
    else choose n (if pf =? -1 then d else pf) (with_cur s a).
Proof.
  intros Hp Hd Hpf Ha Ha0 Ht Hpk Hw. cbn [choose]. mrun Hp.
  rewrite (proj2 (Z.eqb_neq d (-1))), (proj2 (Z.eqb_neq pf d)), andb_false_r by done.
  assert (thread_slot d (with_cur s cc) = Ok (a, with_cur s cc)) as Es
    by (unfold thread_slot; mstep; change (threads (with_cur s cc)) with (threads s); by rewrite Ha).
  mrun Es. mrun (upd_locals_cur s cc a).
  erewrite bind_ok; [|apply thread_at_ok; exact Ht]. cbv beta.
  assert (thr s d = Some t) as Hthr.
  { unfold thr. rewrite Ha. by rewrite (proj2 (Z.eqb_neq a 0)). }
  unfold ready_now. rewrite Hthr. unfold grant.
  specialize (Hw d t Hthr).
  assert (∀ w, events s !! event t = Some w → event_word (event t) (with_cur s a) = Ok (w, with_cur s a))
    as Hev by (intros w Ew; unfold event_word; mstep; change (events (with_cur s a)) with (events s);
               by rewrite Ew).
  assert (∀ w, events s !! event t = Some w →
    (take_event (event t) ;; upd_thread a (λ t, t <| t_state := READY |>) ;; mret d) (with_cur s a) =
      Ok (d, with_cur (s <| events := <[event t := snd (atomic_dec w)]> (events s) |>
                         <| theap := <[a := t <| t_state := READY |>]> (theap s) |>) a)) as Htake.
  { intros w Ew. unfold take_event. erewrite bind_ok; [|mrun (Hev w Ew); reflexivity]. cbv beta.
    erewrite bind_ok; [|apply upd_thread_ok; exact Ht]. reflexivity. }
  assert ((upd_thread a (λ t, t <| t_state := READY |>) ;; mret d) (with_cur s a) =
      Ok (d, with_cur (s <| theap := <[a := t <| t_state := READY |>]> (theap s) |>) a)) as Hset.
  { erewrite bind_ok; [|apply upd_thread_ok; exact Ht]. reflexivity. }
  unfold pickable in Hpk.
  destruct (t_state t =? WAIT_EVENT) eqn:E4.
  - zbool. rewrite E4 in *. cbn [Z.eqb WAIT_EVENT READY WAIT_EVENT_TIMEOUT orb andb].
    destruct Hw as [w Ew]; [by left|]. mrun (Hev w Ew). rewrite Ew. cbn [default from_option id].
    destruct (w =? 0); cbn [negb orb andb]; [reflexivity|]. exact (Htake w Ew).
  - destruct (t_state t =? WAIT_EVENT_TIMEOUT) eqn:E5.
    + zbool. rewrite E5 in *. cbn [Z.eqb WAIT_EVENT READY WAIT_EVENT_TIMEOUT orb andb].
      destruct Hw as [w Ew]; [by right|]. mrun (Hev w Ew). mstep. rewrite Ew.
      cbn [default from_option id]. destruct (w =? 0) eqn:Ew0; cbn [negb orb andb]; [|exact (Htake w Ew)].
      change (global_ticks (with_cur s a)) with (global_ticks s).
      destruct (event_timeout t <=? _); [exact Hset|reflexivity].
    + rewrite !orb_false_r in Hpk. rewrite Hpk. reflexivity.
Qed.

(** The outcome of the search: the first thread of [l] that can run, else idle. *)
Definition chosen (s : kstate) (l : list Z) (res : res (Z * kstate)) : Prop :=
  match find (ready_now s) l with
  | Some d => ∃ a t, idx (threads s) d = Some a ∧ a ≠ 0 ∧ theap s !! a = Some t ∧
                res = Ok (d, with_cur (grant s a t) a)
  | None => ∃ ia, idx (threads s) (idle_tid (locals s)) = Some ia ∧ res = Ok (-1, with_cur s ia)
  end.

Record loop_ok (s : kstate) : Prop := {
  lo_tables : tables_ok s;
  lo_waits : waits_ok s;
  lo_size : zlen (threads s) < U64_MOD;
  lo_idle : is_Some (idx (threads s) (idle_tid (locals s)))
}.

Lemma pick_b_thr s d :
  tables_ok s → pick_b s d = true →
  ∃ a t, idx (threads s) d = Some a ∧ a ≠ 0 ∧ theap s !! a = Some t ∧ pickable (t_state t) = true.
Proof.
  intros Hok Hp. unfold pick_b in Hp. destruct (thr s d) as [t|] eqn:Ht; [|done].
  destruct (thr_slot _ _ _ Hok Ht) as (a & ? & ? & ? & _). by exists a, t.
Qed.

Lemma go_idle_ok s cc ia :
  idx (threads s) (idle_tid (locals s)) = Some ia →
  (go_idle ;; mret (-1)) (with_cur s cc) = Ok (-1, with_cur s ia).
Proof.
  intros Hi. unfold go_idle, thread_slot. erewrite bind_ok; [|mstep; erewrite bind_ok;
    [|mstep; change (threads (with_cur s cc)) with (threads s);
      change (idle_tid (locals (with_cur s cc))) with (idle_tid (locals s)); by rewrite Hi]; reflexivity].
  reflexivity.
Qed.

(** Later rounds: [l1 ++ [c]] has been passed over, [pf] was the first pick. *)
Lemma choose_more s (Hs : loop_ok s) n : ∀ l1 l2 c cc pf,
  0 ≤ c → idx (threads s) c = Some cc → cc ≠ 0 →
  cycle c (zlen (threads s)) = l2 ++ l1 ++ [c] →
  find (pick_b s) (l1 ++ [c]) = Some pf → (length l2 < n)%nat →
  chosen s l2 (choose n pf (with_cur s cc)).
Proof.
  destruct Hs as [Hok Hw Hsz [ia Hia]].
  induction n as [|n IH]; intros l1 l2 c cc pf Hc Hcc Hcc0 Hcy Hpf Hn; [lia|].
  pose proof (idx_Some _ _ _ Hcc) as [Hr _].
  pose proof (cycle_NoDup c (zlen (threads s))) as Hnd. rewrite Hcy in Hnd.
  assert (pick_task (with_cur s cc) =
    Ok (default (-1) (find (pick_b s) (cycle c (zlen (threads s)))), with_cur s cc)) as Hpick
    by (apply (pick_task_ok (with_cur s cc)); done).
  assert (pf ∈ l1 ++ [c]) as Hpfin.
  { apply find_some in Hpf as [Hin _]. by apply list_elem_of_In. }
  assert (0 ≤ pf) as Hpf0.
  { assert (pf ∈ cycle c (zlen (threads s))) as Hin by (rewrite Hcy; set_solver).
    apply cycle_elem in Hin; lia. }
  unfold chosen. destruct (find (pick_b s) l2) as [d|] eqn:Hd.
  - destruct (find_Some_split _ _ _ Hd) as (l21 & l22 & -> & Hpd & Hn21).
    assert (find (pick_b s) (cycle c (zlen (threads s))) = Some d) as Hfd.
    { rewrite Hcy, <-app_assoc, (find_app_None _ _ _ Hn21). simpl. by rewrite Hpd. }
    rewrite Hfd in Hpick. destruct (pick_b_thr _ _ Hok Hpd) as (a & t & Ha & Ha0 & Ht & Hpk).
    pose proof (idx_Some _ _ _ Ha) as [Hrd _].
    assert (pf ≠ d) as Hne.
    { intros ->. apply NoDup_app in Hnd as (_ & Hx & _). apply (Hx d); [set_solver|done]. }
    cbn [default from_option id] in Hpick.
    rewrite (choose_step s cc n pf d a t Hpick ltac:(lia) Hne Ha Ha0 Ht Hpk Hw).
    rewrite (find_app_None (ready_now s) l21)
      by (eapply find_None_mono; [|exact Hn21]; apply ready_pick).
    simpl. destruct (ready_now s d); [by exists a, t|].
    rewrite (proj2 (Z.eqb_neq pf (-1))) by lia.
    apply (IH (l1 ++ [c] ++ l21) l22 d a pf); [lia|done..| | |].
    + rewrite (cycle_rotate c (zlen (threads s)) d l21 (l22 ++ l1 ++ [c]));
        [by rewrite <-!app_assoc|lia|]. rewrite Hcy. by rewrite <-!app_assoc.
    + rewrite app_assoc, <-(app_assoc (l1 ++ [c])).
      destruct (find_Some_split _ _ _ Hpf) as (k1 & k2 & Ek & Hk & Hk1).
      rewrite Ek, <-!app_assoc, (find_app_None _ _ _ Hk1). simpl. by rewrite Hk.
    + rewrite length_app in Hn. simpl in Hn. lia.
  - rewrite Hcy, (find_app_None _ _ _ Hd), Hpf in Hpick. cbn [default from_option id] in Hpick.
    rewrite (find_None_mono (pick_b s) (ready_now s) l2 (ready_pick s) Hd).
    exists ia. split; [done|]. cbn [choose]. mrun Hpick.
    rewrite (proj2 (Z.eqb_neq pf (-1))), Z.eqb_refl by lia. cbn [negb andb]. by apply go_idle_ok.
Qed.

(** The whole loop: the first thread after the current one, in round robin order and the
    current one last, that can run. *)
Lemma choose_ok s cur :
  loop_ok s → current_ok s cur →
  chosen s (cycle cur (zlen (threads s))) (choose (S (S (length (threads s)))) (-1) s).
Proof.
  intros Hs [Hc0 Hc]. pose proof Hs as [Hok Hw Hsz [ia Hia]].
  pose proof (idx_Some _ _ _ Hc) as [Hr _].
  assert (s = with_cur s (current_thread (locals s))) as Es by by destruct s as [? ? ? ? ? ? []].
  set (cc := current_thread (locals s)) in *.
  assert (pick_task (with_cur s cc) =
    Ok (default (-1) (find (pick_b s) (cycle cur (zlen (threads s)))), with_cur s cc)) as Hpick
    by (apply (pick_task_ok (with_cur s cc)); done).
  cut (chosen s (cycle cur (zlen (threads s)))
         (choose (S (S (length (threads s)))) (-1) (with_cur s cc))); [by rewrite <-Es|].
  unfold chosen.
  destruct (find (pick_b s) (cycle cur (zlen (threads s)))) as [d|] eqn:Hd;
    cbn [default from_option id] in Hpick.
  - destruct (find_Some_split _ _ _ Hd) as (l1 & l2 & El & Hpd & Hn1).
    destruct (pick_b_thr _ _ Hok Hpd) as (a & t & Ha & Ha0 & Ht & Hpk).
    pose proof (idx_Some _ _ _ Ha) as [Hrd _].
    rewrite (choose_step s cc _ (-1) d a t Hpick ltac:(lia) ltac:(lia) Ha Ha0 Ht Hpk Hw).
    rewrite El, (find_app_None (ready_now s) l1)
      by (eapply find_None_mono; [|exact Hn1]; apply ready_pick).
    simpl find. destruct (ready_now s d); [by exists a, t|]. cbn [Z.eqb].
    assert (length (cycle cur (zlen (threads s))) = length (threads s)) as Hlen.
    { unfold cycle, range. rewrite length_app, !length_seqZ. unfold zlen in *. lia. }
    rewrite El, length_app in Hlen. simpl in Hlen.
    apply (choose_more s Hs _ l1 l2 d a d); [lia|done..| | |lia].
    + by apply (cycle_rotate cur).
    + rewrite (find_app_None _ _ _ Hn1). simpl. by rewrite Hpd.
  - rewrite (find_None_mono (pick_b s) (ready_now s) _ (ready_pick s) Hd).
    exists ia. split; [done|]. cbn [choose]. mrun Hpick. by apply go_idle_ok.
Qed.

(** ** A switch *)

(** Only the time accounting differs. *)
Definition locals_view (l : cpu_locals_t) :=
  (thread_kernel_stack l, thread_user_stack l, cpu_index l, current_thread l, idle_tid l,
   local_dr7 l, ignore_ring l).

Record timed (s s' : kstate) : Prop := {
  tm_rest : s' = s <| locals := locals s' |> <| hw := hw s' |>;
  tm_locals : locals_view (locals s') = locals_view (locals s);
  tm_hw : hw s' = hw s <| tsc_reads := tsc_reads (hw s') |>
}.

#[export] Instance timed_refl : Reflexive timed.
Proof. intros s. split; [by destruct s|done|by destruct (hw s)]. Qed.

#[export] Instance timed_trans : Transitive timed.
Proof.
  intros s1 s2 s3 [R1 L1 H1] [R2 L2 H2]. split.
  - rewrite R2, R1. reflexivity.
  - congruence.
  - rewrite H2, H1. reflexivity.
Qed.

Section switch.
Context (tsc_at : nat → Z).

Ltac timed_tac :=
  match goal with s : kstate |- _ =>
    eexists; split; [reflexivity|]; split;
      first [reflexivity|destruct s as [? ? ? ? ? ? ? []]; reflexivity]
  end.

Lemma count_idle_ok s : ∃ s', count_idle tsc_at s = Ok (tt, s') ∧ timed s s'.
Proof. timed_tac. Qed.
Lemma count_active_ok s : ∃ s', count_active tsc_at s = Ok (tt, s') ∧ timed s s'.
Proof. timed_tac. Qed.
Lemma read_tsc_ok s : ∃ s', read_tsc tsc_at s = Ok (tsc_at (tsc_reads (hw s)), s') ∧ timed s s'.
Proof. timed_tac. Qed.
Lemma set_idle_ok s n :
  ∃ s', upd_locals (λ l, l <| currently_idle := n |>) s = Ok (tt, s') ∧ timed s s'.
Proof. timed_tac. Qed.
Lemma set_idle_start_ok s n :
  ∃ s', upd_locals (λ l, l <| idle_start_tsc := n |>) s = Ok (tt, s') ∧ timed s s'.
Proof. timed_tac. Qed.
Lemma set_active_start_ok s n :
  ∃ s', upd_locals (λ l, l <| active_start_tsc := n |>) s = Ok (tt, s') ∧ timed s s'.
Proof. timed_tac. Qed.
Lemma set_total_ok s n :
  ∃ s', upd_locals (λ l, l <| total_tsc := n |>) s = Ok (tt, s') ∧ timed s s'.
Proof. timed_tac. Qed.

(** Run a time-keeping step, keeping only that it is [timed]. *)
Ltac trun L :=
  let s' := fresh "s" in let E := fresh "E" in let T := fresh "T" in
  destruct L as (s' & E & T); mrun E.

Lemma count_if_ok (b : bool) (s : kstate) :
  (∃ s', (if b then count_idle tsc_at else mret tt) s = Ok (tt, s') ∧ timed s s') ∧
  (∃ s', (if b then count_active tsc_at else mret tt) s = Ok (tt, s') ∧ timed s s').
Proof. destruct b; split; eauto using count_idle_ok, count_active_ok; exists s; by split. Qed.

(** The thread that will run, after [picked]. *)
Definition marked (tid_run : Z) (t : thread_t) : thread_t :=
  if tid_run =? -1 then t else t <| running := 1 |> <| t_state := RUNNING |>.

Lemma mark_running_ok s tid_run a t :
  current_thread (locals s) = a → theap s !! a = Some t →
  (tid_run ≠ -1 → t_state t = READY ∧ running t = 0) →
  ∃ used s', mark_running tsc_at tid_run s = Ok (used, s') ∧
    timed (s <| theap := <[a := marked tid_run t]> (theap s) |>) s'.
Proof.
  intros Hc Ht Hr. unfold mark_running, marked. mstep. rewrite Hc.
  destruct (tid_run =? -1) eqn:E; cbn [negb].
  - mstep. rewrite insert_id by done.
    trun (proj2 (count_if_ok (currently_idle (locals s) =? 0) s)).
    trun (set_idle_ok s0 1). eexists _, s1. split; [reflexivity|].
    transitivity s0; [|done]. transitivity s; [by destruct s|done].
  - zbool. destruct (Hr E) as [Hst Hru]. mrun (thread_at_ok _ _ _ Ht). rewrite Hst, Hru.
    cbn [Z.eqb READY]. mstep. mstep. mrun (upd_thread_ok s a t (λ t, t <| running := 1 |> <| t_state := RUNNING |>) Ht).
    set (s1 := s <| theap := _ |>). mstep.
    trun (proj1 (count_if_ok (negb (currently_idle (locals s1) =? 0)) s1)).
    trun (set_idle_ok s0 0). eexists _, s2. split; [reflexivity|]. by transitivity s0.
Qed.

(** The parts of the state a switch changes. *)
Definition kst (s : kstate) (th : gmap Z thread_t) (l : cpu_locals_t) (h : hw_t) (d : debug_t) : kstate :=
  s <| theap := th |> <| locals := l |> <| hw := h |> <| debug := d |>.

Lemma kst_intro s : s = kst s (theap s) (locals s) (hw s) (debug s).
Proof. by destruct s. Qed.

Section kst.
Context (s : kstate) (th : gmap Z thread_t) (l : cpu_locals_t) (h : hw_t) (d : debug_t).
Lemma kst_get_cur : get_cur_thread (kst s th l h d) = Ok (current_thread l, kst s th l h d).
Proof. reflexivity. Qed.
Lemma kst_locals f : upd_locals f (kst s th l h d) = Ok (tt, kst s th (f l) h d).
Proof. reflexivity. Qed.
Lemma kst_hw f : upd_hw f (kst s th l h d) = Ok (tt, kst s th l (f h) d).
Proof. reflexivity. Qed.
Lemma kst_gets_locals : gets locals (kst s th l h d) = Ok (l, kst s th l h d).
Proof. reflexivity. Qed.
Lemma kst_gets_hw : gets hw (kst s th l h d) = Ok (h, kst s th l h d).
Proof. reflexivity. Qed.
Lemma kst_debug f :
  modify (λ s, s <| debug := f (debug s) |>) (kst s th l h d) = Ok (tt, kst s th l h (f d)).
Proof. reflexivity. Qed.
Lemma kst_thread_at a t : th !! a = Some t → thread_at a (kst s th l h d) = Ok (t, kst s th l h d).
Proof. intros Ht. by apply thread_at_ok. Qed.
Lemma kst_upd_thread a t f :
  th !! a = Some t → upd_thread a f (kst s th l h d) = Ok (tt, kst s (<[a := f t]> th) l h d).
Proof. intros Ht. rewrite (upd_thread_ok _ a t f); [reflexivity|exact Ht]. Qed.
Lemma kst_process_at a p : pheap s !! a = Some p → process_at a (kst s th l h d) = Ok (p, kst s th l h d).
Proof. intros Hp. by apply process_at_ok. Qed.

Definition parent_ok (t : thread_t) : Prop := t_parent t = 0 ∨ is_Some (pheap s !! t_parent t).
End kst.

Lemma create_local_dr7_ok s th a t :
  th !! a = Some t → parent_ok s t →
  ∃ v, ∀ l h d, create_local_dr7 a (kst s th l h d) = Ok (v, kst s th l h d).
Proof.
  intros Ht Hp. unfold create_local_dr7. destruct (t_parent t =? 0) eqn:E.
  - exists 0. intros l h d. mrun (kst_thread_at s th l h d a t Ht). by rewrite E.
  - zbool. destruct Hp as [?|[p Hp]]; [done|]. eexists. intros l h d.
    mrun (kst_thread_at s th l h d a t Ht). rewrite (proj2 (Z.eqb_neq _ _)) by done.
    mrun (kst_process_at s th l h d _ p Hp). reflexivity.
Qed.

Lemma set_debug_state_ok s th l h d a t :
  current_thread l = a → th !! a = Some t → parent_ok s t → unlocked (watchpoint_lock d) →
  ∃ v h' d', set_debug_state (kst s th l h d) = Ok (tt, kst s th (l <| local_dr7 := v |>) h' d') ∧
    hw_cr3 h' = hw_cr3 h ∧ watchpoint_lock d' = watchpoint_lock d.
Proof.
  intros Hc Ht Hp Hw. unfold set_debug_state. mstep.
  change (debug (kst s th l h d)) with d. rewrite (spinlock_lock_free _ Hw).
  mrun (kst_debug s th l h d (λ x, x <| watchpoint_lock := Z.lor (watchpoint_lock d) 1 |>)).
  set (d1 := d <| watchpoint_lock := _ |>). mrun (kst_hw s th l h d1 (λ h, h <| dr0 := g_dr0 d |> <| dr1 := g_dr1 d |>)).
  set (h1 := h <| dr0 := _ |> <| dr1 := _ |>).
  erewrite bind_ok; [|unfold get_cur_process; mrun (kst_get_cur s th l h1 d1); rewrite Hc;
    mrun (kst_thread_at s th l h1 d1 a t Ht); reflexivity]. cbv beta.
  destruct (create_local_dr7_ok s th a t Ht Hp) as [v Hv].
  assert (∃ h2, (if negb (t_parent t =? 0)
     then pr ← process_at (t_parent t);
          upd_hw (λ h, h <| dr2 := local_watchpoint1 pr |> <| dr3 := local_watchpoint2 pr |>)
     else upd_hw (λ h, h <| dr2 := g_dr2 d |> <| dr3 := g_dr3 d |>)) (kst s th l h1 d1) =
    Ok (tt, kst s th l h2 d1) ∧ hw_cr3 h2 = hw_cr3 h) as (h2 & E2 & C2).
  { destruct (t_parent t =? 0) eqn:E; cbn [negb].
    - eexists. split; [apply kst_hw|reflexivity].
    - zbool. destruct Hp as [?|[p Hp]]; [done|]. eexists.
      mrun (kst_process_at s th l h1 d1 _ p Hp). split; [apply kst_hw|reflexivity]. }
  mrun E2. mrun (kst_get_cur s th l h2 d1). rewrite Hc. mrun (Hv l h2 d1).
  mrun (kst_locals s th l h2 d1 (λ l, l <| local_dr7 := v |>)).
  mrun (kst_hw s th (l <| local_dr7 := v |>) h2 d1 (λ h, h <| dr7 := u32 (Z.lor (g_dr7 d) v) |>)).
  eexists v, _, _. split; [|split].
  - apply (kst_debug s th _ _ d1 (λ d, d
        <| watchpoint_cpu_count := u8 (watchpoint_cpu_count d + 1) |>
        <| watchpoint_lock := spinlock_unlock (watchpoint_lock d) |>)).
  - exact C2.
  - exact (lock_unlock _ Hw).
Qed.

(** The processor holds the context of the thread [t] at [a]. *)
Record loaded (s s' : kstate) (a : Z) (t : thread_t) : Prop := {
  ld_rest : s' = kst s (<[a := t <| t_cpu := cpu_index (locals s) |>]> (theap s))
                   (locals s') (hw s') (debug s');
  ld_cur : current_thread (locals s') = a;
  ld_idle : idle_tid (locals s') = idle_tid (locals s);
  ld_stacks : thread_kernel_stack (locals s') = kernel_stack t ∧
              thread_user_stack (locals s') = user_stack t ∧
              ignore_ring (locals s') = t_ignore_ring t;
  ld_hw : hw_cr3 (hw s') = r_cr3 (t_regs t) ∧ hw_sse (hw s') = sse_region t ∧
          hw_mxcsr (hw s') = r_mxcsr (t_regs t) ∧ hw_fcw (hw s') = r_fcw (t_regs t) ∧
          hw_fs (hw s') = r_fs (t_regs t);
  ld_wp : watchpoint_lock (debug s') = watchpoint_lock (debug s)
}.

Lemma load_context_ok r s a t :
  current_thread (locals s) = a → theap s !! a = Some t → parent_ok s t →
  unlocked (watchpoint_lock (debug s)) →
  ∃ s', load_context r s = Ok (frame_of (t_regs t) r, s') ∧ loaded s s' a t.
Proof.
  intros Hc Ht Hp Hw.
  assert (∃ l' h' d', load_context r (kst s (theap s) (locals s) (hw s) (debug s)) =
    Ok (frame_of (t_regs t) r,
        kst s (<[a := t <| t_cpu := cpu_index (locals s) |>]> (theap s)) l' h' d') ∧
    current_thread l' = a ∧ idle_tid l' = idle_tid (locals s) ∧
    (thread_kernel_stack l' = kernel_stack t ∧ thread_user_stack l' = user_stack t ∧
     ignore_ring l' = t_ignore_ring t) ∧
    (hw_cr3 h' = r_cr3 (t_regs t) ∧ hw_sse h' = sse_region t ∧ hw_mxcsr h' = r_mxcsr (t_regs t) ∧
     hw_fcw h' = r_fcw (t_regs t) ∧ hw_fs h' = r_fs (t_regs t)) ∧
    watchpoint_lock d' = watchpoint_lock (debug s)) as (l' & h' & d' & E & H1 & H2 & H3 & H4 & H5).
  2: { rewrite <-kst_intro in E. eexists. split; [exact E|]. by split. }
  generalize dependent (theap s). generalize dependent (locals s). generalize (hw s) as h.
  generalize dependent (debug s). intros d Hw h l Hc th Ht.
  unfold load_context. mrun (kst_get_cur s th l h d). rewrite Hc.
  destruct (create_local_dr7_ok s th a t Ht Hp) as [v Hv]. mrun (Hv l h d).
  mrun (kst_locals s th l h d (λ l, l <| local_dr7 := v |>)).
  set (l1 := l <| local_dr7 := v |>).
  destruct (set_debug_state_ok s th l1 h d a t Hc Ht Hp Hw) as (v' & h2 & d' & E & C2 & W2). mrun E.
  set (l2 := l1 <| local_dr7 := v' |>). mrun (kst_gets_locals s th l2 h2 d').
  mrun (kst_upd_thread s th l2 h2 d' a t (λ t, t <| t_cpu := cpu_index l2 |>) Ht).
  change (cpu_index l2) with (cpu_index l). set (t1 := t <| t_cpu := cpu_index l |>).
  mrun (kst_thread_at s (<[a := t1]> th) l2 h2 d' a t1 (lookup_insert_eq _ _ _)).
  mrun (kst_locals s (<[a := t1]> th) l2 h2 d' (λ l, l <| ignore_ring := t_ignore_ring t1 |>)).
  erewrite bind_ok; [|apply kst_hw]. cbv beta. set (h3 := h2 <| hw_sse := _ |> <| hw_mxcsr := _ |> <| hw_fcw := _ |> <| hw_fs := _ |>).
  erewrite bind_ok; [|apply kst_locals]. cbv beta. set (l3 := _ <| thread_kernel_stack := _ |> <| thread_user_stack := _ |>).
  mrun (kst_gets_hw s (<[a := t1]> th) l3 h3 d').
  assert (∃ h4, (if negb (hw_cr3 h3 =? r_cr3 (t_regs t1)) then upd_hw (λ h, h <| hw_cr3 := r_cr3 (t_regs t1) |>)
    else mret tt) (kst s (<[a := t1]> th) l3 h3 d') = Ok (tt, kst s (<[a := t1]> th) l3 h4 d') ∧
    h4 = h3 <| hw_cr3 := r_cr3 (t_regs t1) |>) as (h4 & E4 & ->).
  { destruct (hw_cr3 h3 =? r_cr3 (t_regs t1)) eqn:Ec; cbn [negb].
    - exists h3. split; [reflexivity|]. apply Z.eqb_eq in Ec. rewrite <-Ec. by destruct h3.
    - eexists. split; [apply kst_hw|reflexivity]. }
  mrun E4. eexists l3, _, d'. split; [reflexivity|]. split_and!; try reflexivity; done.
Qed.

Lemma timed_heap s s' th : timed s s' → timed (s <| theap := th |>) (s' <| theap := th |>).
Proof. intros [R L Hh]. split; [|exact L|exact Hh]. rewrite R at 1. reflexivity. Qed.

Lemma account_ok b1 b2 s a t :
  current_thread (locals s) = a → theap s !! a = Some t →
  ∃ z s', account tsc_at b1 b2 s = Ok (tt, s') ∧
    timed (s <| theap := <[a := t <| tsc_started := z |>]> (theap s) |>) s'.
Proof.
  intros Hc Ht. unfold account. mstep.
  assert (∃ s1, (if negb (currently_idle (locals s) =? 0) then
     (if negb b2 then count_idle tsc_at else mret tt) ;;
     now ← read_tsc tsc_at; upd_locals (λ l, l <| idle_start_tsc := now |>)
   else
     (if negb b1 then count_active tsc_at else mret tt) ;;
     now ← read_tsc tsc_at; upd_locals (λ l, l <| active_start_tsc := now |>)) s = Ok (tt, s1) ∧
    timed s s1) as (s1 & E1 & T1).
  { destruct (negb (currently_idle (locals s) =? 0)).
    - trun (proj1 (count_if_ok (negb b2) s)). trun (read_tsc_ok s0).
      destruct (set_idle_start_ok s1 (tsc_at (tsc_reads (hw s0)))) as (s2 & E2 & T2).
      exists s2. split; [exact E2|]. transitivity s0; [done|]. by transitivity s1.
    - trun (proj2 (count_if_ok (negb b1) s)). trun (read_tsc_ok s0).
      destruct (set_active_start_ok s1 (tsc_at (tsc_reads (hw s0)))) as (s2 & E2 & T2).
      exists s2. split; [exact E2|]. transitivity s0; [done|]. by transitivity s1. }
  mrun E1. assert (get_cur_thread s1 = Ok (a, s1)) as Eg.
  { unfold get_cur_thread, gets. pose proof (tm_locals _ _ T1) as Hl. unfold locals_view in Hl. congruence. }
  mrun Eg. trun (read_tsc_ok s1). set (z := tsc_at (tsc_reads (hw s1))).
  assert (theap s0 = theap s) as Hh.
  { rewrite (tm_rest _ _ T). change (theap s1 = theap s). by rewrite (tm_rest _ _ T1). }
  mrun (upd_thread_ok s0 a t (λ t, t <| tsc_started := z |>) ltac:(by rewrite Hh)).
  set (s2 := s0 <| theap := _ |>).
  trun (read_tsc_ok s2). destruct (set_total_ok s3 (tsc_at (tsc_reads (hw s2)))) as (s4 & E4 & T4).
  exists z, s4. split; [exact E4|]. transitivity s3; [|done]. transitivity s2; [|done].
  unfold s2. rewrite Hh. apply timed_heap. by transitivity s1.
Qed.

(** ** The whole of [schedule] *)

(** The invariant of the thread table while thread [cur] runs. *)
Record sched_inv (s : kstate) (cur : Z) : Prop := {
  sp_tables : tables_ok s;
  sp_cur : current_ok s cur;
  sp_waits : waits_ok s;
  sp_size : zlen (threads s) < U64_MOD;
  sp_idle : ∃ ia, idx (threads s) (idle_tid (locals s)) = Some ia ∧ ia ≠ 0;
  sp_stopped tid t :
    thr s tid = Some t → tid ≠ cur → pickable (t_state t) = true → running t = 0;
  sp_parents tid t : thr s tid = Some t → parent_ok s t;
  sp_wp : unlocked (watchpoint_lock (debug s))
}.

(** The state when the interrupted thread [tc] at [c] has been saved. *)
Definition after_save (r : int_reg_t) (s : kstate) (c : Z) (tc : thread_t) : kstate :=
  s <| hw := hw s <| tsc_reads := S (tsc_reads (hw s)) |> |>
    <| theap := <[c := saved_thread r s (tsc_at (tsc_reads (hw s))) tc]> (theap s) |>.

(** From [s1] the thread [t] at [a] is resumed, which leaves it as [t']. *)
Record resumed (s1 s' : kstate) (a : Z) (t t' : thread_t) : Prop := {
  re_cur : current_thread (locals s') = a;
  re_heap : theap s' = <[a := t']> (theap s1);
  re_threads : threads s' = threads s1;
  re_processes : processes s' = processes s1 ∧ pheap s' = pheap s1;
  re_regs : t_regs t' = t_regs t;
  re_tid : t_tid t' = t_tid t;
  re_cpu : t_cpu t' = cpu_index (locals s1);
  re_idle : idle_tid (locals s') = idle_tid (locals s1);
  re_stacks : thread_kernel_stack (locals s') = kernel_stack t ∧
              thread_user_stack (locals s') = user_stack t ∧
              ignore_ring (locals s') = t_ignore_ring t;
  re_hw : hw_cr3 (hw s') = r_cr3 (t_regs t) ∧ hw_sse (hw s') = sse_region t ∧
          hw_mxcsr (hw s') = r_mxcsr (t_regs t) ∧ hw_fcw (hw s') = r_fcw (t_regs t) ∧
          hw_fs (hw s') = r_fs (t_regs t);
  re_unlock : sched_lock s' = spinlock_unlock (sched_lock s1)
}.

(** Everything after the choice. *)
Lemma finish_ok r s tid_run a t :
  current_thread (locals s) = a → theap s !! a = Some t → parent_ok s t →
  unlocked (watchpoint_lock (debug s)) →
  (tid_run ≠ -1 → t_state t = READY ∧ running t = 0) →
  ∃ s' t', (used ← mark_running tsc_at tid_run; r' ← load_context r;
            account tsc_at used.1 used.2 ;; sched_release ;; mret r') s =
      Ok (frame_of (t_regs t) r, s') ∧
    resumed s s' a t t' ∧ events s' = events s ∧ global_ticks s' = global_ticks s ∧
    t_state t' = t_state (marked tid_run t) ∧ running t' = running (marked tid_run t) ∧
    event t' = event t ∧ t_parent t' = t_parent t ∧
    watchpoint_lock (debug s') = watchpoint_lock (debug s).
Proof.
  intros Hc Ht Hp Hw Hr.
  destruct (mark_running_ok s tid_run a t Hc Ht Hr) as (used & s1 & E1 & T1). mrun E1.
  set (t1 := marked tid_run t) in *.
  assert (theap s1 = <[a := t1]> (theap s)) as H1 by by rewrite (tm_rest _ _ T1).
  assert (pheap s1 = pheap s) as P1 by by rewrite (tm_rest _ _ T1).
  assert (debug s1 = debug s) as D1 by by rewrite (tm_rest _ _ T1).
  pose proof (tm_locals _ _ T1) as L1. unfold locals_view in L1. simpl in L1.
  assert (t_regs t1 = t_regs t ∧ t_parent t1 = t_parent t ∧ kernel_stack t1 = kernel_stack t ∧
          user_stack t1 = user_stack t ∧ t_ignore_ring t1 = t_ignore_ring t ∧
          sse_region t1 = sse_region t ∧ t_tid t1 = t_tid t ∧ event t1 = event t)
    as (Q1 & Q2 & Q3 & Q4 & Q5 & Q6 & Q7 & Q8).
  { unfold t1, marked. by destruct (tid_run =? -1). }
  destruct (load_context_ok r s1 a t1) as (s2 & E2 & LD).
  { congruence. } { by rewrite H1, lookup_insert_eq. }
  { unfold parent_ok in *. by rewrite Q2, P1. } { by rewrite D1. }
  mrun E2. set (t2 := t1 <| t_cpu := cpu_index (locals s1) |>).
  assert (theap s2 = <[a := t2]> (theap s1)) as H2 by by rewrite (ld_rest _ _ _ _ LD).
  destruct (account_ok used.1 used.2 s2 a t2) as (z & s3 & E3 & T3).
  { apply (ld_cur _ _ _ _ LD). } { by rewrite H2, lookup_insert_eq. }
  mrun E3. mstep. set (s4 := s3 <| sched_lock := _ |>).
  pose proof (tm_locals _ _ T3) as L3. unfold locals_view in L3. simpl in L3.
  pose proof (tm_hw _ _ T3) as W3. pose proof (tm_rest _ _ T3) as R3.
  pose proof (ld_rest _ _ _ _ LD) as R2. pose proof (tm_rest _ _ T1) as R1.
  exists s4, (t2 <| tsc_started := z |>). split; [by rewrite Q1|].
  assert (theap s3 = <[a := t2 <| tsc_started := z |>]> (theap s2)) as H3 by by rewrite R3.
  assert (∀ A (f : kstate → A), (∀ s th, f (s <| theap := th |>) = f s) →
    (∀ s l, f (s <| locals := l |>) = f s) → (∀ s h, f (s <| hw := h |>) = f s) →
    (∀ s d, f (s <| debug := d |>) = f s) → f s3 = f s) as Hkeep.
  { intros A f F1 F2 F3 F4. rewrite R3, F3, F2, F1, R2. unfold kst. by rewrite F4, F3, F2, F1, R1, F3, F2, F1. }
  split; [|split_and!; try done].
  - destruct (ld_stacks _ _ _ _ LD) as (K1 & K2 & K3). destruct (ld_hw _ _ _ _ LD) as (G1 & G2 & G3 & G4 & G5).
    pose proof (ld_cur _ _ _ _ LD). pose proof (ld_idle _ _ _ _ LD).
    split; cbn [t_regs t_tid t_cpu]; change (locals s4) with (locals s3); change (hw s4) with (hw s3);
      [congruence| |by apply (Hkeep _ threads)
      |split; [by apply (Hkeep _ processes)|by apply (Hkeep _ pheap)]|done..| | | | |].
    + change (theap s4) with (theap s3). by rewrite H3, H2, H1, !insert_insert_eq.
    + change (cpu_index (locals s1) = cpu_index (locals s)). congruence.
    + congruence.
    + split_and!; congruence.
    + rewrite W3. cbn. split_and!; congruence.
    + change (spinlock_unlock (sched_lock s3) = spinlock_unlock (sched_lock s)). f_equal.
      by apply (Hkeep _ sched_lock).
  - by apply (Hkeep _ events).
  - by apply (Hkeep _ global_ticks).
  - change (watchpoint_lock (debug s3) = watchpoint_lock (debug s)).
    assert (debug s3 = debug s2) as -> by by rewrite R3.
    rewrite (ld_wp _ _ _ _ LD). congruence.
Qed.

(** The thread as the loop leaves it. *)
Definition granted (t : thread_t) : thread_t :=
  if t_state t =? READY then t else t <| t_state := READY |>.

(** What of a thread and of a state a switch reads. *)
Definition ctx (t : thread_t) :=
  (t_regs t, t_tid t, kernel_stack t, user_stack t, t_ignore_ring t, sse_region t, t_parent t).
Definition rest (s : kstate) :=
  (threads s, processes s, pheap s, sched_lock s, cpu_index (locals s), idle_tid (locals s), debug s).

Definition debug_kept (s s' : kstate) : Prop :=
  watchpoint_lock (debug s') = watchpoint_lock (debug s).

Lemma resumed_via s1 s2 s' a t t2 t' :
  theap s2 = <[a := t2]> (theap s1) → rest s2 = rest s1 → ctx t2 = ctx t →
  resumed s2 s' a t2 t' → resumed s1 s' a t t'.
Proof.
  unfold rest, ctx. intros Hh Hr Hc [R1 R2 R3 [R4 R4'] R5 R6 R7 R8 (? & ? & ?) (? & ? & ? & ? & ?) R11].
  simplify_eq. split; try congruence; [|split; congruence|split_and!; congruence..].
  by rewrite R2, Hh, insert_insert_eq.
Qed.

Lemma grant_ok s0 a t :
  theap s0 !! a = Some t →
  theap (with_cur (grant s0 a t) a) = <[a := granted t]> (theap s0) ∧
  rest (with_cur (grant s0 a t) a) = rest s0 ∧ ctx (granted t) = ctx t.
Proof.
  intros Ht. unfold grant, granted, rest, ctx. destruct (t_state t =? READY).
  - split_and!; [|done..]. change (theap s0 = <[a := t]> (theap s0)). by rewrite insert_id.
  - by destruct (negb _).
Qed.

Section schedule.
Context (r : int_reg_t) (s : kstate) (cur : Z) (tc : thread_t).
Let c := current_thread (locals s).
Hypothesis Hpre : sched_inv s cur.
Hypothesis Htc : theap s !! c = Some tc.
Let s1 := after_save r s c tc.

Lemma save_context_ok : save_context tsc_at r s = Ok (tt, s1).
Proof.
  pose proof (sp_cur _ _ Hpre) as [Hc _]. unfold save_context. mstep.
  rewrite (proj2 (Z.eqb_neq _ _)) by exact Hc. mstep. mstep.
  erewrite upd_thread_ok; [reflexivity|exact Htc].
Qed.

Lemma cur_tid : t_tid tc = cur.
Proof.
  destruct (sp_cur _ _ Hpre) as [Hc Hi]. destruct (sp_tables _ _ Hpre _ _ Hi Hc) as (t & Ht & E).
  fold c in Ht. congruence.
Qed.

Lemma tables_saved : tables_ok s1.
Proof.
  intros i a Hi Ha. change (idx (threads s) i = Some a) in Hi.
  destruct (sp_tables _ _ Hpre _ _ Hi Ha) as (t & Ht & E).
  change (theap s1) with (<[c := saved_thread r s (tsc_at (tsc_reads (hw s))) tc]> (theap s)).
  destruct (decide (a = c)) as [->|]; [|rewrite lookup_insert_ne by done; eauto].
  rewrite lookup_insert_eq. eexists. split; [done|].
  transitivity (t_tid tc); [reflexivity|]. congruence.
Qed.

Lemma thr_saved tid t :
  thr s1 tid = Some t →
  (tid ≠ cur ∧ thr s tid = Some t) ∨ (tid = cur ∧ t = saved_thread r s (tsc_at (tsc_reads (hw s))) tc).
Proof.
  intros Ht. destruct (thr_slot _ _ _ tables_saved Ht) as (a & Hi & Ha & Hh & Htid).
  change (idx (threads s) tid = Some a) in Hi.
  change (theap s1) with (<[c := saved_thread r s (tsc_at (tsc_reads (hw s))) tc]> (theap s)) in Hh.
  destruct (decide (a = c)) as [->|Hne].
  - right. rewrite lookup_insert_eq in Hh. injection Hh as <-. split; [|done].
    rewrite <-Htid. transitivity (t_tid tc); [reflexivity|apply cur_tid].
  - left. rewrite lookup_insert_ne in Hh by done. split.
    + intros ->. destruct (sp_cur _ _ Hpre) as [_ Hc]. fold c in Hc. congruence.
    + unfold thr. rewrite Hi. by rewrite (proj2 (Z.eqb_neq a 0)).
Qed.

Lemma thr_cur : thr s cur = Some tc.
Proof.
  destruct (sp_cur _ _ Hpre) as [Hc Hi]. unfold thr. rewrite Hi.
  rewrite (proj2 (Z.eqb_neq _ 0)) by done. exact Htc.
Qed.

Lemma loop_saved : loop_ok s1.
Proof.
  split.
  - apply tables_saved.
  - intros tid t [[_ Ht]|[_ ->]]%thr_saved Hst; [by eapply (sp_waits _ _ Hpre)|].
    change (is_Some (events s !! event tc)). apply (sp_waits _ _ Hpre cur tc thr_cur).
    unfold saved_thread in Hst. cbn in Hst.
    destruct ((t_state tc =? RUNNING) && _)%bool; [unfold READY, WAIT_EVENT, WAIT_EVENT_TIMEOUT in Hst; lia|done].
  - exact (sp_size _ _ Hpre).
  - destruct (sp_idle _ _ Hpre) as (ia & Hi & _). by exists ia.
Qed.

Lemma stopped_saved tid t : thr s1 tid = Some t → pickable (t_state t) = true → running t = 0.
Proof.
  intros [[Hne Ht]|[_ ->]]%thr_saved Hp; [by eapply (sp_stopped _ _ Hpre)|reflexivity].
Qed.

Lemma parents_saved tid t : thr s1 tid = Some t → parent_ok s1 t.
Proof.
  intros [[_ Ht]|[_ ->]]%thr_saved; [by eapply (sp_parents _ _ Hpre)|].
  exact (sp_parents _ _ Hpre cur tc thr_cur).
Qed.

Lemma schedule_run :
  match find (ready_now s1) (cycle cur (zlen (threads s))) with
  | Some d => ∃ a t t' s', idx (threads s) d = Some a ∧ theap s1 !! a = Some t ∧
      schedule tsc_at r s = Ok (frame_of (t_regs t) r, s') ∧ resumed s1 s' a t t' ∧
      events s' = events (grant s1 a t) ∧ t_state t' = RUNNING ∧ running t' = 1 ∧
      debug_kept s1 s' ∧ t_parent t' = t_parent t
  | None => ∃ a t t' s', idx (threads s) (idle_tid (locals s)) = Some a ∧ theap s1 !! a = Some t ∧
      schedule tsc_at r s = Ok (frame_of (t_regs t) r, s') ∧ resumed s1 s' a t t' ∧
      events s' = events s1 ∧ t_state t' = t_state t ∧ running t' = running t ∧
      debug_kept s1 s' ∧ t_parent t' = t_parent t ∧ event t' = event t
  end.
Proof.
  unfold schedule. mrun save_context_ok. mstep.
  pose proof (choose_ok s1 cur loop_saved (sp_cur _ _ Hpre)) as Hch. unfold chosen in Hch.
  change (threads s1) with (threads s) in *.
  destruct (find (ready_now s1) (cycle cur (zlen (threads s)))) as [d|] eqn:Hf.
  - destruct Hch as (a & t & Ha & Ha0 & Ht & Ech). mrun Ech.
    destruct (grant_ok s1 a t Ht) as (G1 & G2 & G3). unfold rest, ctx in G2, G3.
    assert (thr s1 d = Some t) as Hd.
    { unfold thr. change (threads s1) with (threads s). rewrite Ha. by rewrite (proj2 (Z.eqb_neq a 0)). }
    apply find_some in Hf as [_ Hrn]. pose proof (ready_pick _ _ Hrn) as Hpb.
    unfold pick_b in Hpb. rewrite Hd in Hpb. pose proof (idx_Some _ _ _ Ha) as [Hr _].
    destruct (finish_ok r (with_cur (grant s1 a t) a) d a (granted t))
      as (s' & t' & E & RE & Ev & _ & Est & Eru & _ & Epa & Ewp).
    + done.
    + by rewrite G1, lookup_insert_eq.
    + pose proof (parents_saved d t Hd) as Hp. unfold parent_ok in *.
      assert (pheap (with_cur (grant s1 a t) a) = pheap s1) as -> by congruence.
      by assert (t_parent (granted t) = t_parent t) as -> by congruence.
    + assert (debug (with_cur (grant s1 a t) a) = debug s1) as -> by congruence. exact (sp_wp _ _ Hpre).
    + intros _. pose proof (stopped_saved d t Hd Hpb) as Hru. unfold granted.
      destruct (t_state t =? READY) eqn:Es; zbool; done.
    + unfold marked in Est, Eru. rewrite (proj2 (Z.eqb_neq d (-1))) in Est, Eru by lia.
      exists a, t, t', s'. split_and!; [done|done| | |exact Ev|exact Est|exact Eru| |congruence].
      * rewrite E. by assert (t_regs (granted t) = t_regs t) as -> by congruence.
      * by apply (resumed_via s1 _ s' a t (granted t) t' G1).
      * unfold debug_kept. rewrite Ewp. f_equal. congruence.
  - destruct Hch as (a & Ha & Ech). mrun Ech. destruct (sp_idle _ _ Hpre) as (ia & Hia & Hia0).
    change (idle_tid (locals s1)) with (idle_tid (locals s)) in Ha.
    assert (ia = a) as -> by congruence. destruct (tables_saved _ _ Ha Hia0) as (t & Ht & _).
    assert (thr s1 (idle_tid (locals s)) = Some t) as Hd.
    { unfold thr. change (threads s1) with (threads s). rewrite Ha. by rewrite (proj2 (Z.eqb_neq a 0)). }
    destruct (finish_ok r (with_cur s1 a) (-1) a t) as (s' & t' & E & RE & Ev & _ & Est & Eru & Eev & Epa & Ewp);
      [done|exact Ht|exact (parents_saved _ t Hd)|exact (sp_wp _ _ Hpre)|done|].
    exists a, t, t', s'. split_and!; [done|done|exact E| |exact Ev|exact Est|exact Eru|exact Ewp|exact Epa|exact Eev].
    apply (resumed_via s1 (with_cur s1 a) s' a t t t'); [|done|done|exact RE].
    change (theap (with_cur s1 a)) with (theap s1). by rewrite insert_id.
Qed.

(** The thread table after the switch. *)
Lemma thr_resumed s' a t t' d :
  resumed s1 s' a t t' → idx (threads s) d = Some a → a ≠ 0 → theap s1 !! a = Some t →
  ∀ tid, thr s' tid = if decide (tid = d) then Some t' else thr s1 tid.
Proof.
  intros RE Ha Ha0 Ht tid. unfold thr. rewrite (re_threads _ _ _ _ _ RE), (re_heap _ _ _ _ _ RE).
  change (threads s1) with (threads s). destruct (decide (tid = d)) as [->|Hne].
  - rewrite Ha. rewrite (proj2 (Z.eqb_neq a 0)) by done. apply lookup_insert_eq.
  - destruct (idx (threads s) tid) as [b|] eqn:Hb; [|done]. destruct (b =? 0) eqn:E; [done|]. zbool.
    apply lookup_insert_ne. intros <-. destruct (tables_saved _ _ Ha Ha0) as (t1 & Ht1 & E1).
    destruct (tables_saved _ _ Hb Ha0) as (t2 & Ht2 & E2). congruence.
Qed.

Lemma tables_resumed s' a t t' d :
  resumed s1 s' a t t' → idx (threads s) d = Some a → a ≠ 0 → theap s1 !! a = Some t → tables_ok s'.
Proof.
  intros RE Ha Ha0 Ht i b Hi Hb. rewrite (re_threads _ _ _ _ _ RE) in Hi.
  rewrite (re_heap _ _ _ _ _ RE). destruct (tables_saved _ _ Hi Hb) as (t1 & Ht1 & E1).
  destruct (decide (b = a)) as [->|]; [|rewrite lookup_insert_ne by done; eauto].
  exists t'. rewrite lookup_insert_eq. split; [done|]. rewrite (re_tid _ _ _ _ _ RE). congruence.
Qed.

Lemma inv_resumed s' a t t' d :
  resumed s1 s' a t t' → idx (threads s) d = Some a → a ≠ 0 → theap s1 !! a = Some t →
  (∀ e, is_Some (events s1 !! e) → is_Some (events s' !! e)) →
  (t_state t' = WAIT_EVENT ∨ t_state t' = WAIT_EVENT_TIMEOUT → is_Some (events s' !! event t')) →
  debug_kept s1 s' → t_parent t' = t_parent t → sched_inv s' d.
Proof.
  intros RE Ha Ha0 Ht Hev Hwt Hwp Hpa. pose proof (thr_resumed s' a t t' d RE Ha Ha0 Ht) as HT.
  assert (thr s1 d = Some t) as Htd.
  { unfold thr. change (threads s1) with (threads s). rewrite Ha. by rewrite (proj2 (Z.eqb_neq a 0)). }
  assert (∀ t0, parent_ok s' t0 ↔ parent_ok s1 t0) as HP.
  { intros t0. unfold parent_ok. by rewrite (proj2 (re_processes _ _ _ _ _ RE)). }
  split.
  - by eapply tables_resumed.
  - split; [by rewrite (re_cur _ _ _ _ _ RE)|]. by rewrite (re_threads _ _ _ _ _ RE), (re_cur _ _ _ _ _ RE).
  - intros tid t0. rewrite HT. case_decide; [intros [= <-]; exact Hwt|].
    intros Ht0 Hst. apply Hev. by eapply (lo_waits _ loop_saved).
  - rewrite (re_threads _ _ _ _ _ RE). exact (sp_size _ _ Hpre).
  - rewrite (re_threads _ _ _ _ _ RE), (re_idle _ _ _ _ _ RE). exact (sp_idle _ _ Hpre).
  - intros tid t0. rewrite HT. intros Ht0 Hne. rewrite decide_False in Ht0 by done.
    by eapply stopped_saved.
  - intros tid t0. rewrite HT, HP. case_decide; [intros [= <-]|apply parents_saved].
    pose proof (parents_saved d t Htd) as Hp. unfold parent_ok in *. by rewrite Hpa.
  - unfold debug_kept in Hwp. rewrite Hwp. exact (sp_wp _ _ Hpre).
Qed.

Lemma grant_events a t e : is_Some (events s1 !! e) → is_Some (events (grant s1 a t) !! e).
Proof.
  intros He. unfold grant. destruct (t_state t =? READY); [done|]. destruct (negb _); [|done].
  apply lookup_insert_is_Some'. by right.
Qed.
End schedule.
End switch.

(** ** Theorems *)

(** A switch, whoever holds the lock: the thread that runs next and the invariant after it. *)
Lemma schedule_next tsc_at r s cur tc :
  sched_inv s cur → theap s !! current_thread (locals s) = Some tc →
  let s1 := after_save tsc_at r s (current_thread (locals s)) tc in
  ∃ d a t t' s',
    d = default (idle_tid (locals s)) (find (ready_now s1) (cycle cur (zlen (threads s)))) ∧
    idx (threads s) d = Some a ∧ a ≠ 0 ∧ theap s1 !! a = Some t ∧
    schedule tsc_at r s = Ok (frame_of (t_regs t) r, s') ∧
    resumed s1 s' a t t' ∧ sched_inv s' d ∧
    match find (ready_now s1) (cycle cur (zlen (threads s))) with
    | Some _ => t_state t' = RUNNING ∧ running t' = 1 ∧ events s' = events (grant s1 a t)
    | None => t_state t' = t_state t ∧ running t' = running t ∧ events s' = events s1
    end.
Proof.
  intros Hinv Htc s1. pose proof (schedule_run tsc_at r s cur tc Hinv Htc) as Hrun.
  fold s1 in Hrun.
  destruct (find (ready_now s1) (cycle cur (zlen (threads s)))) as [d|] eqn:Hf.
  - destruct Hrun as (a & t & t' & s' & Ha & Ht & E & RE & Ev & St & Ru & Wp & Pa).
    assert (a ≠ 0) as Ha0.
    { apply find_some in Hf as [_ Hr]. unfold ready_now, thr in Hr. change (threads s1) with (threads s) in Hr.
      rewrite Ha in Hr. destruct (a =? 0) eqn:E0; zbool; done. }
    exists d, a, t, t', s'. split_and!; try done.
    apply (inv_resumed tsc_at r s cur tc Hinv Htc s' a t t' d); try done.
    + intros e. rewrite Ev. apply grant_events.
    + rewrite St. intros [?|?]; done.
  - destruct Hrun as (a & t & t' & s' & Ha & Ht & E & RE & Ev & St & Ru & Wp & Pa & Evt).
    destruct (sp_idle _ _ Hinv) as (ia & Hia & Hia0). assert (ia = a) as -> by congruence.
    exists (idle_tid (locals s)), a, t, t', s'. split_and!; try done.
    apply (inv_resumed tsc_at r s cur tc Hinv Htc s' a t t'); try done.
    + intros e. by rewrite Ev.
    + rewrite St, Ev, Evt. intros Hw.
      apply (lo_waits _ (loop_saved tsc_at r s cur tc Hinv Htc) (idle_tid (locals s)) t); [|done].
      unfold thr. change (threads (after_save tsc_at r s _ tc)) with (threads s). rewrite Ha.
      by rewrite (proj2 (Z.eqb_neq a 0)).
Qed.

(** C11: a call of [schedule] with the scheduler lock held returns, and the next
    thread is the first one after the current thread in round robin order (the
    current one last) that is ready, whose event has occurred or whose wait has
    timed out; the idle thread runs only when there is none.  The interrupted
    thread's registers are saved, the frame returned and the processor's
    registers are those the next thread had saved, it alone is marked as running, an
    event it waited for is used up, the lock is released, and the table's
    invariant holds again. *)
Theorem schedule_correct tsc_at r s cur l tc :
  sched_inv s cur → unlocked l → sched_lock s = Z.lor l 1 →
  theap s !! current_thread (locals s) = Some tc →
  let s1 := after_save tsc_at r s (current_thread (locals s)) tc in
  ∃ d a t t' s',
    d = default (idle_tid (locals s)) (find (ready_now s1) (cycle cur (zlen (threads s)))) ∧
    idx (threads s) d = Some a ∧ theap s1 !! a = Some t ∧
    schedule tsc_at r s = Ok (frame_of (t_regs t) r, s') ∧
    resumed s1 s' a t t' ∧ sched_lock s' = l ∧ sched_inv s' d ∧
    match find (ready_now s1) (cycle cur (zlen (threads s))) with
    | Some _ => t_state t' = RUNNING ∧ running t' = 1 ∧ events s' = events (grant s1 a t)
    | None => t_state t' = t_state t ∧ running t' = running t ∧ events s' = events s1
    end.
Proof.
  intros Hinv Hl Hlk Htc s1.
  destruct (schedule_next tsc_at r s cur tc Hinv Htc) as (d & a & t & t' & s' & Hd & Ha & _ & Ht & E & RE & Hi & Hm).
  exists d, a, t, t', s'. split_and!; try done. rewrite (re_unlock _ _ _ _ _ RE).
  change (sched_lock (after_save _ _ _ _ _)) with (sched_lock s). rewrite Hlk. by apply lock_unlock.
Qed.

(** The registers of an interrupt frame, without the interrupt's number and error code. *)
Definition frame_regs (r : int_reg_t) : list Z :=
  [i_r15 r; i_r14 r; i_r13 r; i_r12 r; i_r11 r; i_r10 r; i_r9 r; i_r8 r; i_rsi r; i_rdi r;
   i_rbp r; i_rdx r; i_rcx r; i_rbx r; i_rax r; i_rip r; i_cs r; i_rflags r; i_rsp r; i_ss r].

(** C12: a thread that is switched out resumes where it was.  When a later call
    of [schedule], in any state that still has the context saved for it, picks the
    thread, the frame it returns has every register of the frame the thread was
    interrupted with, and the processor has its SSE state, its MXCSR and x87
    control word, its address space and its stacks as they were. *)
Theorem switch_round_trip tsc_at r s cur tc r2 s2 cur2 tc2 t :
  sched_inv s cur → theap s !! current_thread (locals s) = Some tc →
  sched_inv s2 cur2 → theap s2 !! current_thread (locals s2) = Some tc2 → cur2 ≠ cur →
  thr s2 cur = Some t → ctx t = ctx (saved_thread r s (tsc_at (tsc_reads (hw s))) tc) →
  find (ready_now (after_save tsc_at r2 s2 (current_thread (locals s2)) tc2))
    (cycle cur2 (zlen (threads s2))) = Some cur →
  ∃ r' s', schedule tsc_at r2 s2 = Ok (r', s') ∧ frame_regs r' = frame_regs r ∧
    hw_sse (hw s') = hw_sse (hw s) ∧ hw_mxcsr (hw s') = hw_mxcsr (hw s) ∧
    hw_fcw (hw s') = hw_fcw (hw s) ∧ hw_cr3 (hw s') = hw_cr3 (hw s) ∧
    hw_fs (hw s') = r_fs (t_regs tc) ∧
    thread_kernel_stack (locals s') = thread_kernel_stack (locals s) ∧
    thread_user_stack (locals s') = thread_user_stack (locals s).
Proof.
  intros Hinv Htc Hinv2 Htc2 Hne Ht Hctx Hf.
  pose proof (schedule_run tsc_at r2 s2 cur2 tc2 Hinv2 Htc2) as Hrun. rewrite Hf in Hrun.
  destruct Hrun as (a & t2 & t' & s' & Ha & Ht2 & E & RE & _).
  assert (t2 = t) as ->.
  { destruct (thr_slot _ _ _ (sp_tables _ _ Hinv2) Ht) as (a' & Ha' & Ha0 & Hh & _).
    assert (a' = a) as -> by congruence.
    change (theap (after_save tsc_at r2 s2 (current_thread (locals s2)) tc2)) with
      (<[current_thread (locals s2) := saved_thread r2 s2 (tsc_at (tsc_reads (hw s2))) tc2]> (theap s2)) in Ht2.
    rewrite lookup_insert_ne in Ht2; [congruence|]. intros Hc.
    destruct (sp_cur _ _ Hinv2) as [_ Hi2]. rewrite Hc in Hi2.
    destruct (sp_tables _ _ Hinv2 _ _ Ha Ha0) as (? & ? & ?).
    destruct (sp_tables _ _ Hinv2 _ _ Hi2 Ha0) as (? & ? & ?). congruence. }
  injection Hctx as G1 _ G3 G4 _ G6 _.
  change (sse_region (saved_thread _ _ _ _)) with (hw_sse (hw s)) in G6.
  change (kernel_stack (saved_thread _ _ _ _)) with (thread_kernel_stack (locals s)) in G3.
  change (user_stack (saved_thread _ _ _ _)) with (thread_user_stack (locals s)) in G4.
  destruct (re_stacks _ _ _ _ _ RE) as (K1 & K2 & _). destruct (re_hw _ _ _ _ _ RE) as (W1 & W2 & W3 & W4 & W5).
  eexists _, s'. split; [exact E|].
  assert (t_regs t = saved_regs r (hw s) (r_fs (t_regs tc))) as Hg by exact G1.
  rewrite Hg in *. split_and!; [reflexivity|congruence|done..|congruence|congruence].
Qed.

(** The number of other threads that come before [d] after thread [cur]. *)
Definition distance (size cur d : Z) : Z := (d - cur - 1) mod size.

Lemma cycle_index cur size i x :
  0 ≤ cur < size → cycle cur size !! i = Some x → Z.of_nat i = distance size cur x.
Proof.
  intros Hc Hi. unfold cycle, range, distance in *.
  assert (length (seqZ (cur + 1) (size - (cur + 1))) = Z.to_nat (size - (cur + 1))) as Hlen
    by apply length_seqZ.
  apply lookup_app_Some in Hi as [Hi|[Hl Hi]]; apply lookup_seqZ in Hi as [-> Hi].
  - symmetry. rewrite Z.mod_small; lia.
  - rewrite Hlen in *. rewrite <-(Z.mod_unique_pos _ size (-1) (Z.of_nat i)); lia.
Qed.

Lemma distance_less size cur e d :
  0 < size → distance size cur e < distance size cur d → distance size e d < distance size cur d.
Proof.
  intros Hs. unfold distance. intros Hlt.
  pose proof (Z.mod_pos_bound (e - cur - 1) size Hs) as He.
  pose proof (Z.mod_pos_bound (d - cur - 1) size Hs) as Hd.
  pose proof (Z.div_mod (e - cur - 1) size ltac:(lia)) as Ee.
  pose proof (Z.div_mod (d - cur - 1) size ltac:(lia)) as Ed.
  set (qe := (e - cur - 1) / size) in *. set (qd := (d - cur - 1) / size) in *.
  rewrite <-(Z.mod_unique_pos (d - e - 1) size (qd - qe)
    ((d - cur - 1) mod size - (e - cur - 1) mod size - 1)); nia.
Qed.

(** Thread [d] waits for the processor. *)
Definition waiting (s : kstate) (d : Z) : Prop := ∃ t, thr s d = Some t ∧ t_state t = READY.

Lemma waiting_ready s d : waiting s d → ready_now s d = true.
Proof. intros (t & Ht & E). unfold ready_now. by rewrite Ht, E. Qed.

(** The first of the order that satisfies [f] is no later than [d], when [d] satisfies it. *)
Lemma find_cycle_closer f cur size d e :
  0 ≤ cur < size → d ∈ cycle cur size → f d = true → find f (cycle cur size) = Some e →
  e = d ∨ distance size e d < distance size cur d.
Proof.
  intros Hc Hdin Hd Hf. destruct (decide (e = d)) as [->|Hne]; [by left|right].
  destruct (find_Some_split _ _ _ Hf) as (l1 & l2 & El & Hre & Hn1).
  apply distance_less; [lia|]. rewrite El in Hdin.
  assert (d ∈ l2) as [j Hj]%list_elem_of_lookup.
  { apply elem_of_app in Hdin as [Hl1|[->|?]%elem_of_cons]; [|done|done].
    pose proof (find_none _ _ Hn1 d) as Hn. rewrite Hn in Hd; [done|]. by apply list_elem_of_In. }
  rewrite <-(cycle_index cur _ (length l1) e), <-(cycle_index cur _ (length l1 + S j) d); try done; [lia| |].
  - rewrite El, lookup_app_r by lia. by replace (length l1 + S j - length l1)%nat with (S j) by lia.
  - rewrite El, lookup_app_r by lia. by rewrite Nat.sub_diag.
Qed.

(** One switch while [d] waits. *)
Lemma schedule_closer tsc_at r s cur d :
  sched_inv s cur → cur ≠ d → waiting s d →
  ∃ e r' s', schedule tsc_at r s = Ok (r', s') ∧ sched_inv s' e ∧ zlen (threads s') = zlen (threads s) ∧
    (e = d ∨ e ≠ d ∧ distance (zlen (threads s)) e d < distance (zlen (threads s)) cur d ∧ waiting s' d).
Proof.
  intros Hinv Hcd Hw. destruct (sp_cur _ _ Hinv) as [Hc0 Hc]. pose proof (idx_Some _ _ _ Hc) as [Hrc _].
  destruct (sp_tables _ _ Hinv _ _ Hc Hc0) as (tc & Htc & Htid).
  set (s1 := after_save tsc_at r s (current_thread (locals s)) tc).
  assert (waiting s1 d) as Hw1.
  { destruct Hw as (t & Ht & E). exists t. split; [|done].
    destruct (thr_slot _ _ _ (sp_tables _ _ Hinv) Ht) as (b & Hb & Hb0 & Hbt & _).
    unfold thr. change (threads s1) with (threads s). rewrite Hb, (proj2 (Z.eqb_neq b 0)) by done.
    change (theap s1) with (<[current_thread (locals s) := saved_thread r s (tsc_at (tsc_reads (hw s))) tc]> (theap s)).
    rewrite lookup_insert_ne; [done|]. intros Eb. rewrite Eb in *.
    destruct (sp_tables _ _ Hinv _ _ Hb Hb0) as (t2 & Ht2 & E2). congruence. }
  assert (d ∈ cycle cur (zlen (threads s))) as Hdin.
  { apply cycle_elem; [done|]. destruct Hw as (t & Ht & _). unfold thr in Ht.
    destruct (idx (threads s) d) as [x|] eqn:Ex; [|done]. by apply idx_Some in Ex as [? _]. }
  pose proof (waiting_ready _ _ Hw1) as Hd.
  destruct (schedule_next tsc_at r s cur tc Hinv Htc) as (e & a & t & t' & s' & He & Ha & Ha0 & Ht & E & RE & Hi & _).
  fold s1 in He, Ht, RE. exists e. eexists _, s'. split; [exact E|]. split; [exact Hi|].
  split; [by rewrite (re_threads _ _ _ _ _ RE)|].
  destruct (find (ready_now s1) (cycle cur (zlen (threads s)))) as [x|] eqn:Hf.
  2: { exfalso. pose proof (find_none _ _ Hf d) as Hn. rewrite Hn in Hd; [done|]. by apply list_elem_of_In. }
  cbn [default from_option id] in He. subst x.
  destruct (find_cycle_closer _ _ _ d e Hrc Hdin Hd Hf) as [?|Hlt]; [by left|].
  destruct (decide (e = d)) as [?|Hne]; [by left|right]. split_and!; [done|done|].
  destruct Hw1 as (t0 & Ht0 & E0). exists t0. split; [|done].
  rewrite (thr_resumed tsc_at r s cur tc Hinv Htc s' a t t' e RE Ha Ha0 Ht). by rewrite decide_False.
Qed.

(** [n] switches, the [i]-th from the frame [r i]; between two of them [env i] happens: what the
    running thread and the interrupts do to the state. *)
Fixpoint switches (tsc_at : nat → Z) (r : nat → int_reg_t) (env : nat → kstate → kstate) (n i : nat) (s : kstate) : res kstate :=
  match n with
  | O => Ok s
  | S n' =>
      match schedule tsc_at (r i) s with
      | Ok (_, s1) => switches tsc_at r env n' (S i) (env i s1)
      | Crash c => Crash c
      end
  end.

(** What happens between two switches keeps the invariant, the running thread and the size of the thread
    table, and does not take a thread [d] that is ready and waits away from that. *)
Definition env_keeps (d : Z) (env : nat → kstate → kstate) : Prop :=
  ∀ i e s, sched_inv s e → waiting s d →
    sched_inv (env i s) e ∧ zlen (threads (env i s)) = zlen (threads s) ∧ waiting (env i s) d.

Lemma switches_reach tsc_at r env d (Henv : env_keeps d env) : ∀ m i s cur,
  sched_inv s cur → cur ≠ d → waiting s d → distance (zlen (threads s)) cur d ≤ Z.of_nat m →
  ∃ k t r' s', (k ≤ m)%nat ∧ switches tsc_at r env k i s = Ok t ∧
    schedule tsc_at (r (i + k)%nat) t = Ok (r', s') ∧ sched_inv s' d.
Proof.
  induction m as [|m IH]; intros i s cur Hinv Hcd Hw Hm.
  all: destruct (schedule_closer tsc_at (r i) s cur d Hinv Hcd Hw) as (e & r' & s' & E & Hi & Hz & Hc).
  all: pose proof (zlen_nonneg (threads s)) as Hz0; destruct Hc as [->|(Hne & Hlt & Hw')];
    [exists 0%nat, s, r', s'; rewrite Nat.add_0_r; split_and!; (done || lia)|].
  - exfalso. destruct (sp_cur _ _ Hinv) as [_ Hc]. apply idx_Some in Hc as [Hr _].
    pose proof (Z.mod_pos_bound (d - e - 1) (zlen (threads s)) ltac:(lia)). unfold distance in *. lia.
  - destruct (Henv i e s' Hi Hw') as (Hi2 & Hz2 & Hw2).
    destruct (IH (S i) (env i s') e Hi2 Hne Hw2) as (k & t & r2 & s2 & Hk & Es & E2 & Hi3); [rewrite Hz2, Hz; lia|].
    exists (S k), t, r2, s2. split_and!; [lia| |by rewrite Nat.add_succ_r|done].
    cbn [switches]. by rewrite E.
Qed.

(** C13: bounded wait.  While thread [d] is ready, and whatever the running threads and the interrupts do
    between the switches as long as they keep the scheduler's invariant, the size of the thread table and
    [d] ready ([env_keeps]), every switch returns and [d] runs after fewer switches than there are slots in the table: after [k]
    of them, one at most for each thread that comes before [d] in round robin order, the next call of
    [schedule] resumes [d]. *)
Theorem schedule_bounded_wait tsc_at r env s cur d :
  sched_inv s cur → cur ≠ d → waiting s d → env_keeps d env →
  ∃ k t r' s', Z.of_nat k ≤ distance (zlen (threads s)) cur d < zlen (threads s) ∧
    switches tsc_at r env k 0 s = Ok t ∧ schedule tsc_at (r k) t = Ok (r', s') ∧
    current_ok s' d ∧ sched_inv s' d.
Proof.
  intros Hinv Hcd Hw Henv. destruct (sp_cur _ _ Hinv) as [_ Hc]. apply idx_Some in Hc as [Hr _].
  pose proof (Z.mod_pos_bound (d - cur - 1) (zlen (threads s)) ltac:(lia)) as Hb. fold (distance (zlen (threads s)) cur d) in Hb.
  destruct (switches_reach tsc_at r env d Henv (Z.to_nat (distance (zlen (threads s)) cur d)) 0 s cur Hinv Hcd Hw)
    as (k & t & r' & s' & Hk & Es & E & Hi); [lia|].
  exists k, t, r', s'. split_and!; try done; try lia. apply Hi.
Qed.

(** The test for a timeout subtracts the wrong way round: one tick after the wait
    began, every wait has timed out. *)
Lemma timeout_after_one_tick start now timeout :
  0 ≤ start < now → now < 9223372036854775808 → 0 ≤ timeout < 9223372036854775808 →
  (timeout <=? u64 (start - now)) = true.
Proof. intros. apply Z.leb_le. unfold u64. dlia. Qed.

(** *** Witnesses

    Thread 0 runs, thread 1 is ready, thread 2 is the idle thread. *)
Definition busy_kernel : kstate :=
  demo_kernel <| threads := [1000; 2000; 3000] |>
    <| theap := {[1000 := demo_thread 0 RUNNING; 2000 := demo_thread 1 READY;
                  3000 := demo_thread 2 BLOCKED]} |>
    <| sched_lock := 1 |>.
Definition some_frame (n : Z) : int_reg_t :=
  mk_int_reg n n n n n n n n n n n n n n n 254 0 n 8 514 n 16.
Definition some_frame' (i : nat) : int_reg_t := some_frame (Z.of_nat i).
Definition ticking (i : nat) : Z := Z.of_nat i.

(** The state after the switch to thread 1, with the lock taken again. *)
Definition switched_kernel : kstate :=
  match schedule ticking (some_frame 7) busy_kernel with
  | Ok (_, s) => s <| sched_lock := 1 |>
  | Crash _ => busy_kernel
  end.

Lemma thr_cases s tid t :
  zlen (threads s) = 3 → thr s tid = Some t → tid = 0 ∨ tid = 1 ∨ tid = 2.
Proof.
  intros Hz Ht. unfold thr in Ht. destruct (idx (threads s) tid) as [a|] eqn:Ha; [|done].
  apply idx_Some in Ha as [? _]. lia.
Qed.

(** The invariant of a concrete state with three threads. *)
Ltac inv_by_cases :=
  split;
    [ let i := fresh "i" in let a := fresh "a" in let Hi := fresh in let Ha := fresh in
      intros i a Hi Ha; apply idx_Some in Hi as [? Hi];
      assert (i = 0 ∨ i = 1 ∨ i = 2) as [-> | [-> | ->]]
        by (match goal with H : 0 ≤ i < zlen ?l |- _ => change (zlen l) with 3 in H end; lia);
      vm_compute in Hi; injection Hi as <-;
      (eexists; split; [vm_compute; reflexivity|vm_compute; reflexivity])
    | split; [vm_compute; done|vm_compute; reflexivity]
    | intros tid t Ht; apply thr_cases in Ht as Hc; [|reflexivity];
      destruct Hc as [-> | [-> | ->]];
      vm_compute in Ht; injection Ht as <-; vm_compute; intros [?|?]; done
    | vm_compute; reflexivity
    | exists 3000; split; [vm_compute; reflexivity|lia]
    | intros tid t Ht; apply thr_cases in Ht as Hc; [|reflexivity];
      destruct Hc as [-> | [-> | ->]];
      vm_compute in Ht; injection Ht as <-; vm_compute; done
    | intros tid t Ht; apply thr_cases in Ht as Hc; [|reflexivity];
      destruct Hc as [-> | [-> | ->]];
      vm_compute in Ht; injection Ht as <-; right; eexists; vm_compute; reflexivity
    | vm_compute; reflexivity ].

Lemma busy_inv : sched_inv busy_kernel 0.
Proof. inv_by_cases. Qed.

Lemma switched_inv : sched_inv switched_kernel 1.
Proof. inv_by_cases. Qed.

Lemma schedule_correct_witness :
  ∃ r' s', schedule ticking (some_frame 7) busy_kernel = Ok (r', s') ∧ sched_lock s' = 0 ∧
    current_thread (locals s') = 2000 ∧ sched_inv s' 1.
Proof.
  destruct (schedule_correct ticking (some_frame 7) busy_kernel 0 0 (demo_thread 0 RUNNING) busy_inv)
    as (d & a & t & t' & s' & Hd & Ha & Ht & E & RE & Hl & Hi & _);
    [reflexivity|reflexivity|vm_compute; reflexivity|].
  vm_compute in Hd. subst d. vm_compute in Ha. injection Ha as <-.
  eexists _, s'. split; [exact E|]. split; [exact Hl|]. split; [apply RE|exact Hi].
Defined.

Lemma switch_round_trip_witness :
  ∃ r' s', schedule ticking (some_frame 9) switched_kernel = Ok (r', s') ∧
    frame_regs r' = frame_regs (some_frame 7).
Proof.
  destruct (switch_round_trip ticking (some_frame 7) busy_kernel 0 (demo_thread 0 RUNNING)
    (some_frame 9) switched_kernel 1
    (default (demo_thread 1 READY) (theap switched_kernel !! 2000))
    (default (demo_thread 0 READY) (thr switched_kernel 0)) busy_inv)
    as (r' & s' & E & F & _).
  - vm_compute. reflexivity.
  - exact switched_inv.
  - vm_compute. reflexivity.
  - lia.
  - vm_compute. reflexivity.
  - vm_compute. reflexivity.
  - vm_compute. reflexivity.
  - exists r', s'. split; [exact E|exact F].
Defined.

(** Between two switches a tick is counted and the timer takes the scheduler lock. *)
Definition tick_env (i : nat) (s : kstate) : kstate := s <| global_ticks := global_ticks s + 1 |> <| sched_lock := 1 |>.

Lemma tick_env_keeps d : env_keeps d tick_env.
Proof. intros i e s [H1 H2 H3 H4 H5 H6 H7 H8] Hw. by split_and!. Qed.

(** Thread 1 waits behind thread 2, which is ready too. *)
Definition crowded_kernel : kstate :=
  busy_kernel <| theap := {[1000 := demo_thread 0 READY; 2000 := demo_thread 1 RUNNING; 3000 := demo_thread 2 READY]} |>
    <| locals := locals busy_kernel <| current_thread := 2000 |> |>.

Lemma crowded_inv : sched_inv crowded_kernel 1.
Proof. inv_by_cases. Qed.

Lemma schedule_bounded_wait_witness :
  ∃ k t r' s', Z.of_nat k ≤ 1 ∧ switches ticking some_frame' tick_env k 0 crowded_kernel = Ok t ∧
    schedule ticking (some_frame' k) t = Ok (r', s') ∧ current_thread (locals s') = 1000.
Proof.
  destruct (schedule_bounded_wait ticking some_frame' tick_env crowded_kernel 1 0 crowded_inv)
    as (k & t & r' & s' & Hk & Es & E & Hc & _).
  - lia.
  - exists (demo_thread 0 READY). split; vm_compute; reflexivity.
  - apply tick_env_keeps.
  - exists k, t, r', s'. split; [exact (proj1 Hk)|]. split; [exact Es|]. split; [exact E|].
    destruct Hc as [_ Hi]. clear -Hk Es E Hi.
    assert (k = 0%nat ∨ k = 1%nat) as [-> | ->] by (vm_compute (distance _ _ _) in Hk; lia).
    + vm_compute in Es. injection Es as <-. vm_compute in E. injection E as <- <-. vm_compute in Hi. congruence.
    + vm_compute in Es. injection Es as <-. vm_compute in E. injection E as <- <-. reflexivity.
Defined.
