(* ===== verification/SleepQueue.v ===== *)
(** * Sleeping, events and the timer (proc/sleep_queue.c, proc/event.c, drivers/pit.c)

    Sleeping threads are in a list ordered by time, each node holding the ticks
    left after the node before it.  [BASE] is the address of [base_queue], the
    list's head.  A queue is described by the addresses of its nodes with the ticks
    left until each is due ([queue_at] of [SleepTheorems.v]): inserting keeps the others' times, a
    tick lowers all of them by one. *)

From S2P Require Import Prelude Locks DList Vmm Kernel Stack Proc Sched.

Definition BASE : Z := 1.
Definition sched_period : Z := 8.
Definition EFAULT : Z := 14.
Definition EINVAL : Z := 22.

Definition on_nodes {A} (m : stM (gmap Z sleep_queue_t) A) : kM A :=
  zoom nodes (λ n s, s <| nodes := n |>) m.

Definition sq_acquire : kM unit :=
  s ← get;
  match spinlock_lock (sleep_queue_lock s) with
  | Ok l => modify (λ s, s <| sleep_queue_lock := l |>)
  | Crash c => crashM c
  end.
Definition sq_release : kM unit :=
  modify (λ s, s <| sleep_queue_lock := spinlock_unlock (sleep_queue_lock s) |>).

(** The [while (1)] loop of [insert_to_queue]: the node to insert after, and [total]. *)
Fixpoint insert_scan (n : nat) (cur total ticks : Z) : stM (gmap Z sleep_queue_t) (Z * Z) :=
  match n with
  | O => crashM Hang
  | S n' =>
      e ← load cur;
      let total := u64 (total + time_left e) in
      if sq_next e =? 0 then mret (cur, total)
      else if total <=? ticks then
        nx ← load (sq_next e);
        if ticks <=? u64 (total + time_left nx) then mret (cur, total)
        else insert_scan n' (sq_next e) total ticks
      else insert_scan n' (sq_next e) total ticks
  end.

Definition upd_node (a : Z) (f : sleep_queue_t → sleep_queue_t) : stM (gmap Z sleep_queue_t) unit :=
  e ← load a; store a (f e).

(** The body of [insert_to_queue] on the nodes, for the thread's own node [new]. *)
Definition insert_node (new ticks tid : Z) : stM (gmap Z sleep_queue_t) unit :=
  h ← get;
  '(cur, total) ← insert_scan (S (size h)) BASE 0 ticks;
  ec ← load cur;
  let nxt := sq_next ec in
  let before_relative := u64 (ticks - total) in
  upd_node new (λ e, e <| sq_next := 0 |> <| sq_prev := 0 |>) ;;
  CHAIN_LINKED_LIST cur new ;;
  upd_node new (λ e, e <| time_left := before_relative |> <| sq_tid := tid |>) ;;
  if negb (nxt =? 0) then upd_node nxt (λ e, e <| time_left := u64 (time_left e - before_relative) |>)
  else mret tt.

Definition insert_to_queue (ticks tid : Z) : kM unit :=
  sq_acquire ;;
  c ← get_cur_thread;
  t ← thread_at c;
  on_nodes (insert_node (sleep_node t) ticks tid) ;;
  sq_release.

(** The thread of a node that is due. *)
Definition wake (tid : Z) : kM unit :=
  thread ← thread_slot tid;
  if negb (thread =? 0) then
    t ← thread_at thread;
    assertM (t_state t =? SLEEP) ;;
    upd_thread thread (λ t, t <| t_state := READY |> <| running := 0 |>)
  else mret tt.

(** [while (cur && cur->time_left == 0)] *)
Fixpoint wake_loop (n : nat) (cur : Z) : kM unit :=
  match n with
  | O => crashM Hang
  | S n' =>
      if cur =? 0 then mret tt
      else
        e ← on_nodes (load cur);
        if time_left e =? 0 then
          on_nodes (UNCHAIN_LINKED_LIST cur) ;;
          e' ← on_nodes (load cur);
          wake (sq_tid e') ;;
          wake_loop n' (sq_next e)
        else mret tt
  end.

Definition tick : kM unit :=
  b ← on_nodes (load BASE);
  let cur := sq_next b in
  if negb (cur =? 0) then
    on_nodes (upd_node cur (λ e, e <| time_left := u64 (time_left e - 1) |>)) ;;
    s ← get;
    wake_loop (S (size (nodes s))) cur
  else mret tt.

Definition advance_time : kM unit :=
  s ← get;
  assertM (check_interrupts (kcpu s) =? 0) ;;
  let '(held, l) := spinlock_check_and_lock (sched_lock s) in
  modify (λ s, s <| sched_lock := l |>) ;;
  if negb (held =? 0) then modify (λ s, s <| lagged_ticks := u64 (lagged_ticks s + 1) |>)
  else
    sq_acquire ;;
    (if sched_period * 3 <? lagged_ticks s
     then modify (λ s, s <| kcpu := say "[DripOS] Warning, kernel may be lagging, %lu ticks skipped." (kcpu s) |>)
     else mret tt) ;;
    for_loop (Z.to_nat (u64 (lagged_ticks s + 1))) 0 (λ _, tick) ;;
    modify (λ s, s <| lagged_ticks := 0 |>) ;;
    sq_release ;;
    sched_release.

(** ** Sleeping and waiting *)

Section calls.
Context (tsc_at : nat → Z).

Definition upd_cur (f : thread_t → thread_t) : kM unit := c ← get_cur_thread; upd_thread c f.

Definition sleep_ms (ms : Z) (r : int_reg_t) : kM int_reg_t :=
  sched_acquire ;;
  c ← get_cur_thread;
  t ← thread_at c;
  assertM (t_state t =? RUNNING) ;;
  upd_thread c (λ t, t <| t_state := SLEEP |>) ;;
  insert_to_queue ms (t_tid t) ;;
  force_unlocked_schedule tsc_at r.

(** The system call, for a request [(seconds, nanoseconds)]; [mapped] is the
    outcome of the two [range_mapped] checks. *)
Definition nanosleep (req_mapped rem_mapped rem_null : bool) (seconds nanoseconds : Z)
    (r : int_reg_t) : kM (Z * int_reg_t) :=
  if negb req_mapped then mret (EFAULT, r)
  else if negb rem_mapped && negb rem_null then mret (EFAULT, r)
  else if 999999999 <? nanoseconds then mret (EINVAL, r)
  else
    r' ← sleep_ms (u64 (nanoseconds / 1000000 + u64 (seconds * 1000))) r;
    mret (0, r').

Definition await_event (e : Z) (r : int_reg_t) : kM int_reg_t :=
  w ← event_word e;
  if negb (w =? 0) then take_event e ;; mret r
  else
    sched_acquire ;;
    upd_cur (λ t, t <| event := e |> <| t_state := WAIT_EVENT |>) ;;
    force_unlocked_schedule tsc_at r.

Definition await_event_timeout (e timeout : Z) (r : int_reg_t) : kM int_reg_t :=
  sched_acquire ;;
  now ← gets global_ticks;
  upd_cur (λ t, t <| event := e |> <| t_state := WAIT_EVENT_TIMEOUT |>
                  <| event_timeout := timeout |> <| event_wait_start := now |>) ;;
  force_unlocked_schedule tsc_at r.

Definition trigger_event (e : Z) : kM unit :=
  w ← event_word e;
  modify (λ s, s <| events := <[e := snd (atomic_inc w)]> (events s) |>).

(** The timer interrupt, on one processor. *)
Definition timer_handler (r : int_reg_t) : kM int_reg_t :=
  modify (λ s, s <| global_ticks := u64 (global_ticks s + 1) |>) ;;
  advance_time ;;
  s ← get;
  if (global_ticks s mod sched_period =? 0) && negb (scheduler_enabled s =? 0)
  then schedule_runner tsc_at r else mret r.
End calls.
