(* ===== verification/SleepTheorems.v ===== *)
(** * Correctness of the sleep queue

    The list of relative times implements a list of absolute ones: [queue_at h q]
    relates the nodes of the heap [h] to the pairs [q] of a node and the ticks left
    until it is due. *)

From S2P Require Import Prelude Locks DList Vmm Kernel Stack Proc Sched SleepQueue.

Implicit Types h : gmap Z sleep_queue_t.
Implicit Types q : list (Z * Z).

Definition TIME_LIMIT : Z := 9223372036854775808.

(** Each node holds the difference between its time and the time before it. *)
Fixpoint deltas h (before : Z) q : Prop :=
  match q with
  | [] => True
  | (a, due) :: q' =>
      (∃ e, h !! a = Some e ∧ time_left e = due - before) ∧ before ≤ due < TIME_LIMIT ∧ deltas h due q'
  end.

Record queue_at h q : Prop := {
  q_seg : dseg h 0 (BASE :: q.*1) 0;
  q_nodup : NoDup (BASE :: q.*1);
  q_base : ∃ e, h !! BASE = Some e ∧ time_left e = 0;
  q_deltas : deltas h 0 q
}.

Definition last_due (before : Z) q : Z := default before (last q.*2).

Lemma last_due_cons p a due q : last_due p ((a, due) :: q) = last_due due q.
Proof. unfold last_due. cbn [fmap list_fmap snd]. rewrite last_cons. by destruct (last q.*2). Qed.

Lemma deltas_app h q1 q2 : ∀ p,
  deltas h p (q1 ++ q2) ↔ deltas h p q1 ∧ deltas h (last_due p q1) q2.
Proof.
  induction q1 as [|[a due] q1 IH]; intros p; simpl; [unfold last_due; simpl; tauto|].
  rewrite IH, last_due_cons. tauto.
Qed.

Lemma deltas_times h h' q : ∀ p,
  (∀ a, a ∈ q.*1 → time_left <$> h' !! a = time_left <$> h !! a) → deltas h p q → deltas h' p q.
Proof.
  induction q as [|[a due] q IH]; intros p Hag; simpl; [done|].
  intros ((e & He & Ht) & Hr & Hd). split; [|split; [done|]].
  - specialize (Hag a). rewrite He in Hag. simpl in Hag. destruct (h' !! a) as [e'|].
    + exists e'. split; [done|]. injection (Hag ltac:(left)). congruence.
    + discriminate (Hag ltac:(left)).
  - apply IH; [|done]. intros b Hb. apply Hag. by right.
Qed.

Lemma last_due_range h q : ∀ p, deltas h p q → 0 ≤ p < TIME_LIMIT → p ≤ last_due p q < TIME_LIMIT.
Proof.
  induction q as [|[a due] q IH]; intros p; [unfold last_due; simpl; lia|].
  simpl. intros (_ & Hr & Hd) Hp. specialize (IH due Hd ltac:(lia)).
  rewrite last_due_cons. lia.
Qed.

(** ** Insertion *)

Lemma head_fst q : head q.*1 = fst <$> head q.
Proof. by destruct q. Qed.

Lemma insert_scan_ok h ticks q2 : ∀ n cur tin e p,
  h !! cur = Some e → u64 (tin + time_left e) = p → 0 ≤ p ≤ ticks → ticks < TIME_LIMIT →
  sq_next e = default 0 (head q2.*1) → dseg h cur q2.*1 0 → deltas h p q2 → (length q2 < n)%nat →
  ∃ k1 k2, q2 = k1 ++ k2 ∧ (∀ x, x ∈ k1 → x.2 < ticks) ∧ (∀ x, x ∈ k2 → ticks ≤ x.2) ∧
    insert_scan n cur tin ticks h = Ok ((default cur (last k1.*1), last_due p k1), h).
Proof.
  induction q2 as [|[a due] q2 IH]; intros n cur tin e p He Hp Hpt Ht Hn Hs Hd Hf;
    (destruct n as [|n]; [simpl in Hf; lia|]); cbn [insert_scan]; mrun (load_ok _ _ _ He);
    cbv zeta; rewrite Hp, Hn; simpl.
  - exists [], []. split_and!; [done|set_solver..|done].
  - simpl in Hs, Hd. destruct Hs as (Ha & (ea & Hea & _ & Hxa) & Hs).
    destruct Hd as ((ea' & Hea' & Hta) & Hr & Hd). assert (ea' = ea) as -> by congruence.
    rewrite (proj2 (Z.eqb_neq a 0)) by done. rewrite (proj2 (Z.leb_le p ticks)) by lia.
    mrun (load_ok _ _ _ Hea). unfold TIME_LIMIT in *.
    assert (u64 (p + time_left ea) = due) as Hdue by (rewrite u64_small; [lia|unfold is_u64; lia]).
    rewrite Hdue. destruct (ticks <=? due) eqn:E; zbool.
    + exists [], ((a, due) :: q2). split_and!; [done|set_solver| |done].
      assert (∀ (l : list (Z * Z)) b, ticks ≤ b → deltas h b l → ∀ x, x ∈ l → ticks ≤ x.2) as Hge.
      { clear. induction l as [|[c d] l IH]; intros b Hb Hdl x Hx; [set_solver|]. simpl in Hdl.
        destruct Hdl as (_ & Hr & Hdl). apply elem_of_cons in Hx as [->|Hx]; [simpl; lia|].
        eapply (IH d); [lia|done..]. }
      intros x [->|Hx]%elem_of_cons; [simpl; lia|]. by eapply (Hge q2 due).
    + destruct (IH n a p ea due) as (k1 & k2 & -> & Hk1 & Hk2 & Ei); [done..|lia|done|done|done|done| |].
      { simpl in Hf. lia. }
      exists ((a, due) :: k1), k2. split_and!; [done| |done|].
      * intros x [->|Hx]%elem_of_cons; [simpl; lia|by apply Hk1].
      * rewrite Ei. do 3 f_equal.
        -- cbn [fmap list_fmap fst]. rewrite last_cons. by destruct (last k1.*1).
        -- by rewrite last_due_cons.
Qed.

Lemma upd_node_ok h a e f : h !! a = Some e → upd_node a f h = Ok (tt, <[a := f e]> h).
Proof. intros He. unfold upd_node. mrun (load_ok _ _ _ He). reflexivity. Qed.

(** A change of the time or the thread of a node leaves the links alone. *)
Lemma dseg_payload h a e e' p l r :
  h !! a = Some e → sq_next e' = sq_next e → sq_prev e' = sq_prev e →
  dseg h p l r → dseg (<[a := e']> h) p l r.
Proof.
  intros He Hn Hp. apply dseg_links. intros b eb _ Hb. destruct (decide (b = a)) as [->|].
  - exists e'. rewrite lookup_insert_eq. split; [done|]. by simplify_eq.
  - exists eb. by rewrite lookup_insert_ne.
Qed.

Lemma queue_length h q : queue_at h q → (length q ≤ size h)%nat.
Proof.
  intros Hq. pose proof (q_nodup _ _ Hq) as [_ Hnd]%NoDup_cons.
  rewrite <-(length_fmap fst), <-size_dom, <-(size_list_to_set (C := gset Z)) by done.
  apply subseteq_size. intros a Ha. apply elem_of_list_to_set in Ha. apply elem_of_dom.
  eapply dseg_elem; [apply Hq|by right].
Qed.

(** Links and threads of the nodes, but not their times. *)
Definition keeps (h h' : gmap Z sleep_queue_t) (a : Z) : Prop :=
  time_left <$> h' !! a = time_left <$> h !! a ∧ sq_tid <$> h' !! a = sq_tid <$> h !! a.

Lemma keeps_payload h h' a : same_payload h h' → keeps h h' a.
Proof.
  intros Hs. specialize (Hs a). unfold keeps. destruct (h !! a) as [[]|], (h' !! a) as [[]|]; simpl in Hs;
    try discriminate; [|done]. by injection Hs as <- <-.
Qed.

Lemma keeps_insert h a e b : b ≠ a → keeps h (<[a := e]> h) b.
Proof. intros Hb. unfold keeps. by rewrite lookup_insert_ne. Qed.

Lemma keeps_trans h1 h2 h3 a : keeps h1 h2 a → keeps h2 h3 a → keeps h1 h3 a.
Proof. unfold keeps. intros [? ?] [? ?]. split; congruence. Qed.

(** The first element of a part of the queue, for the link that follows it. *)
Lemma time_left_of h a z : time_left <$> h !! a = Some z → ∃ e, h !! a = Some e ∧ time_left e = z.
Proof. destruct (h !! a) as [e|]; [|done]. simpl. intros [= <-]. by exists e. Qed.

(** The node [new] has been linked between [q1] and [q2]; its time and the time of the node
    after it are set. *)
Definition retime (new ticks tid total : Z) (q2 : list (Z * Z)) : stM (gmap Z sleep_queue_t) unit :=
  upd_node new (λ e, e <| time_left := u64 (ticks - total) |> <| sq_tid := tid |>) ;;
  let nxt := default 0 (head q2.*1) in
  if negb (nxt =? 0) then upd_node nxt (λ e, e <| time_left := u64 (time_left e - u64 (ticks - total)) |>)
  else mret tt.

Lemma retime_ok h2 q1 q2 new ticks tid :
  let total := last_due 0 q1 in
  let l := BASE :: q1.*1 ++ new :: q2.*1 in
  dseg h2 0 l 0 → NoDup l → (∃ e, h2 !! BASE = Some e ∧ time_left e = 0) →
  deltas h2 0 q1 → deltas h2 total q2 → 0 ≤ total ≤ ticks → ticks < TIME_LIMIT →
  (∀ x, x ∈ q2 → ticks ≤ x.2) →
  ∃ h', retime new ticks tid total q2 h2 = Ok (tt, h') ∧ queue_at h' (q1 ++ (new, ticks) :: q2) ∧
    sq_tid <$> h' !! new = Some tid ∧ ∀ a, a ≠ new → sq_tid <$> h' !! a = sq_tid <$> h2 !! a.
Proof.
  intros total l Hseg Hnd Hbase Hd1 Hd2 Htot Ht Hq2.
  assert (is_Some (h2 !! new)) as [e2 He2].
  { eapply dseg_elem; [exact Hseg|]. unfold l. set_solver. }
  set (e3 := e2 <| time_left := u64 (ticks - total) |> <| sq_tid := tid |>). set (h3 := <[new := e3]> h2).
  assert (dseg h3 0 l 0) as Hseg3 by (by eapply dseg_payload).
  apply NoDup_cons in Hnd as Hnd'. destruct Hnd' as [HB Hnd1]. apply NoDup_app in Hnd1 as (N1 & N2 & N3).
  apply NoDup_cons in N3 as [N3 N4].
  assert (u64 (ticks - total) = ticks - total) as Hu by (apply u64_small; unfold is_u64, TIME_LIMIT in *; lia).
  assert (∀ a, a ≠ new → h3 !! a = h2 !! a) as F3 by (intros; by apply lookup_insert_ne).
  assert (∀ h', (∀ a, a ∈ BASE :: q1.*1 → time_left <$> h' !! a = time_left <$> h2 !! a) →
    time_left <$> h' !! new = Some (ticks - total) → dseg h' 0 l 0 → deltas h' ticks q2 →
    queue_at h' (q1 ++ (new, ticks) :: q2)) as Hfin.
  { intros h' HA HN HS HD. destruct Hbase as (eB & HeB & HtB). split.
    - rewrite fmap_app. exact HS.
    - rewrite fmap_app. exact Hnd.
    - apply time_left_of. rewrite HA, HeB by left. simpl. by rewrite HtB.
    - apply deltas_app. fold total. split.
      + eapply deltas_times; [|exact Hd1]. intros a Ha. apply HA. by right.
      + simpl. split; [by apply time_left_of|]. split; [lia|exact HD]. }
  unfold retime. mrun (upd_node_ok _ _ _ (λ e, e <| time_left := u64 (ticks - total) |> <| sq_tid := tid |>) He2).
  fold e3 h3. cbv zeta. destruct q2 as [|[b due] q2]; simpl.
  - exists h3. split; [done|]. split; [|split].
    + apply Hfin; [| |done|done].
      * intros a Ha. rewrite F3; [done|]. intros ->. apply elem_of_cons in Ha as [->|Ha]; [set_solver|].
        by apply (N2 new Ha); left.
      * unfold h3. rewrite lookup_insert_eq. simpl. by rewrite Hu.
    + unfold h3. by rewrite lookup_insert_eq.
    + intros a Ha. by rewrite F3.
  - simpl in N3, N4, N2. simpl in Hd2. destruct Hd2 as ((ebn & Hebn & Htb) & Hr & Hd2).
    assert (b ≠ new) as Hbn by set_solver.
    assert (b ≠ 0) as Hb0.
    { pose proof (dseg_nonzero _ _ _ _ Hseg) as Hz. unfold l in Hz. simpl in Hz. set_solver. }
    rewrite (proj2 (Z.eqb_neq b 0)) by done. cbn [negb].
    rewrite (upd_node_ok h3 b ebn); [|by rewrite F3].
    set (e4 := ebn <| time_left := _ |>). set (h4 := <[b := e4]> h3).
    assert (∀ a, a ≠ b → h4 !! a = h3 !! a) as F4 by (intros; by apply lookup_insert_ne).
    assert (ticks ≤ due) as Hge by (apply (Hq2 (b, due)); left).
    assert (time_left e4 = due - ticks) as Ht4.
    { change (u64 (time_left ebn - u64 (ticks - total)) = due - ticks). rewrite Hu, Htb.
      rewrite u64_small; [lia|]. unfold is_u64, TIME_LIMIT in *. lia. }
    exists h4. split; [done|]. split; [|split].
    + apply Hfin.
      * intros a Ha. rewrite F4, F3; [done| |]; intros ->; apply elem_of_cons in Ha as [->|Ha].
        -- set_solver.
        -- by apply (N2 new Ha); left.
        -- set_solver.
        -- by apply (N2 b Ha); right; left.
      * rewrite F4 by done. unfold h3. rewrite lookup_insert_eq. simpl. by rewrite Hu.
      * eapply dseg_payload; [by rewrite F3|done|done|done].
      * simpl. split; [exists e4; split; [apply lookup_insert_eq|done]|]. split; [lia|].
        eapply deltas_times; [|exact Hd2]. intros a Ha. rewrite F4, F3; [done| |]; intros ->.
        -- apply N3. by right.
        -- by apply NoDup_cons in N4 as [? _].
    + rewrite F4 by done. unfold h3. by rewrite lookup_insert_eq.
    + intros a Ha. destruct (decide (a = b)) as [->|]; [|by rewrite F4, F3].
      unfold h4. by rewrite lookup_insert_eq, Hebn.
Qed.

Lemma insert_node_ok h q new en ticks tid :
  queue_at h q → new ∉ BASE :: q.*1 → new ≠ 0 → h !! new = Some en → 0 ≤ ticks < TIME_LIMIT →
  ∃ h' q1 q2, insert_node new ticks tid h = Ok (tt, h') ∧ q = q1 ++ q2 ∧
    (∀ x, x ∈ q1 → x.2 < ticks) ∧ (∀ x, x ∈ q2 → ticks ≤ x.2) ∧
    queue_at h' (q1 ++ (new, ticks) :: q2) ∧ sq_tid <$> h' !! new = Some tid ∧
    (∀ a, a ≠ new → sq_tid <$> h' !! a = sq_tid <$> h !! a).
Proof.
  intros Hq Hnew Hn0 Hen Ht. pose proof (queue_length _ _ Hq) as Hlen.
  destruct Hq as [Hseg Hnd (eb & Heb & Htb) Hdel].
  pose proof Hseg as (_ & (eb' & Heb' & _ & Hxb) & Hsq). assert (eb' = eb) as -> by congruence.
  destruct (insert_scan_ok h ticks q (S (size h)) BASE 0 eb 0) as (q1 & q2 & -> & Hq1 & Hq2 & Escan);
    [done|by rewrite Htb|lia|lia|done|done|done|lia|].
  rewrite deltas_app in Hdel. destruct Hdel as [Hd1 Hd2].
  pose proof (last_due_range _ _ _ Hd1 ltac:(unfold TIME_LIMIT; lia)) as Hld.
  set (total := last_due 0 q1) in *. set (cur := default BASE (last q1.*1)) in *.
  assert (total ≤ ticks) as Htot.
  { unfold total, last_due. destruct (last q1.*2) as [z|] eqn:El; simpl; [|lia].
    apply last_Some in El as [l' El]. assert (z ∈ q1.*2) as Hz by (rewrite El; set_solver).
    apply list_elem_of_fmap in Hz as (x & -> & Hx). specialize (Hq1 x Hx). lia. }
  rewrite fmap_app in Hnew, Hnd, Hseg.
  assert (∃ l1, BASE :: q1.*1 = l1 ++ [cur]) as [l1 Hl1].
  { destruct (exists_last (l := BASE :: q1.*1)) as (l1 & z & Ez); [done|]. exists l1. rewrite Ez.
    assert (last (BASE :: q1.*1) = Some z) as Hz by (rewrite Ez; apply last_snoc).
    rewrite last_cons in Hz. unfold cur. destruct (last q1.*1); simpl; congruence. }
  assert (∀ l, BASE :: q1.*1 ++ l = l1 ++ cur :: l) as Hl.
  { intros l. rewrite app_comm_cons, Hl1, <-app_assoc. done. }
  rewrite Hl in Hnew, Hnd, Hseg.
  pose proof (dseg_mid _ _ _ _ _ _ Hseg) as (ec & Hec & _ & Hxc).
  set (en1 := en <| sq_next := 0 |> <| sq_prev := 0 |>). set (h1 := <[new := en1]> h).
  assert (dseg h1 0 (l1 ++ cur :: q2.*1) 0) as Hseg1.
  { eapply dseg_frame; [|exact Hseg]. intros a Ha. apply lookup_insert_ne. set_solver. }
  destruct (chain_ok h1 l1 cur q2.*1 new en1 Hnd Hseg1 Hnew Hn0 (lookup_insert_eq _ _ _))
    as (h2 & Ech & Hseg2 & Hpay & Hfr2).
  assert (∀ a, a ≠ new → keeps h h2 a) as Hk.
  { intros a Ha. eapply keeps_trans; [by apply keeps_insert|by apply keeps_payload]. }
  rewrite <-Hl in Hseg2.
  destruct (retime_ok h2 q1 q2 new ticks tid) as (h' & Er & Hq' & Htid & Hoth); [exact Hseg2| | | | |lia|lia|done|].
  - rewrite Hl. clear -Hnd Hnew. rewrite NoDup_app, !NoDup_cons in *. set_solver.
  - apply time_left_of. destruct (Hk BASE) as [-> _]; [rewrite <-Hl in Hnew; set_solver|]. rewrite Heb. simpl. by rewrite Htb.
  - eapply deltas_times; [|exact Hd1]. intros a Ha. apply Hk. rewrite <-Hl in Hnew. set_solver.
  - eapply deltas_times; [|exact Hd2]. intros a Ha. apply Hk. set_solver.
  - exists h', q1, q2. split_and!; [|done..|].
    + unfold insert_node. mstep. mrun Escan. mrun (load_ok _ _ _ Hec). cbv zeta.
      mrun (upd_node_ok _ _ _ (λ e, e <| sq_next := 0 |> <| sq_prev := 0 |>) Hen). fold en1 h1. mrun Ech.
      change (sq_next ec) with (next ec). rewrite Hxc. exact Er.
    + intros a Ha. rewrite Hoth by done. by apply Hk.
Qed.

(** ** Ticks *)

(** The part of the kernel's state the queue's operations change. *)
Definition sst (s : kstate) (h : gmap Z sleep_queue_t) (th : gmap Z thread_t) : kstate :=
  s <| nodes := h |> <| theap := th |>.

Definition wakeup (t : thread_t) : thread_t := t <| t_state := READY |> <| running := 0 |>.

(** The queue after [n] ticks, and the nodes that are due by then. *)
Definition lower (n : Z) q : list (Z * Z) :=
  (λ x, (x.1, x.2 - n)) <$> filter (λ x, n < x.2) q.
Definition due_nodes (n : Z) q : list Z := (filter (λ x, x.2 ≤ n) q).*1.

(** The threads of the nodes [l] have been woken; [w] gives the thread of a node. *)
Definition woken (w : Z → Z) (l : list Z) (th th' : gmap Z thread_t) : Prop :=
  ∀ b, th' !! b = if bool_decide (b ≠ 0 ∧ b ∈ w <$> l) then wakeup <$> th !! b else th !! b.

(** Every node of the queue names the slot of its own sleeping thread, or of one that was killed. *)
Record sleepers (s : kstate) h (th : gmap Z thread_t) (w : Z → Z) q : Prop := {
  sl_slot a : a ∈ q.*1 → ∃ e, h !! a = Some e ∧ idx (threads s) (sq_tid e) = Some (w a);
  sl_sleep a : a ∈ q.*1 → w a ≠ 0 → ∃ t, th !! w a = Some t ∧ t_state t = SLEEP;
  sl_own a b : a ∈ q.*1 → b ∈ q.*1 → w a ≠ 0 → w a = w b → a = b
}.

Lemma woken_nil w th : woken w [] th th.
Proof. intros b. rewrite bool_decide_false; [done|]. simpl. set_solver. Qed.

Lemma woken_app w l1 l2 th th1 th2 :
  woken w l1 th th1 → woken w l2 th1 th2 → woken w (l1 ++ l2) th th2.
Proof.
  intros H1 H2 b. rewrite H2, H1, fmap_app.
  destruct (decide (b ≠ 0 ∧ b ∈ w <$> l1)) as [E1|E1], (decide (b ≠ 0 ∧ b ∈ w <$> l2)) as [E2|E2];
    rewrite ?(bool_decide_true _ E1), ?(bool_decide_false _ E1), ?(bool_decide_true _ E2),
      ?(bool_decide_false _ E2); [rewrite bool_decide_true by set_solver..|rewrite bool_decide_false by set_solver; done];
    [|done..]. by destruct (th !! b).
Qed.

Lemma sleepers_step s h th w q h' th' q' l :
  sleepers s h th w q → woken w l th th' → (∀ a, sq_tid <$> h' !! a = sq_tid <$> h !! a) →
  (∀ a, a ∈ q'.*1 → a ∈ q.*1 ∧ a ∉ l) → (∀ a, a ∈ l → a ∈ q.*1) → sleepers s h' th' w q'.
Proof.
  intros [H1 H2 H3] Hw Hk Hsub Hl. split.
  - intros a Ha. destruct (Hsub a Ha) as [Ha' _]. destruct (H1 a Ha') as (e & He & Hi).
    specialize (Hk a). rewrite He in Hk. destruct (h' !! a) as [e'|]; [|done].
    exists e'. split; [done|]. by injection Hk as ->.
  - intros a Ha Hz. destruct (Hsub a Ha) as [Ha' Hn]. destruct (H2 a Ha' Hz) as (t & Ht & Hs).
    exists t. split; [|done]. rewrite Hw, bool_decide_false; [done|].
    intros (_ & (b & Hb & Hbl)%list_elem_of_fmap). apply Hn. by rewrite (H3 a b) by auto.
  - intros a b Ha Hb. apply H3; [apply (Hsub a Ha)|apply (Hsub b Hb)].
Qed.

Lemma deltas_lower h n q : ∀ p,
  deltas h p q → 0 ≤ n ≤ p → deltas h (p - n) ((λ x, (x.1, x.2 - n)) <$> q).
Proof.
  induction q as [|[a due] q IH]; intros p; simpl; [done|].
  intros ((e & He & Ht) & Hr & Hd) Hp. split; [exists e; split; [done|lia]|]. split; [lia|].
  apply IH; [done|lia].
Qed.

Lemma deltas_ge h q : ∀ p, deltas h p q → ∀ x, x ∈ q → p ≤ x.2.
Proof.
  induction q as [|[a due] q IH]; intros p Hd x Hx; [set_solver|]. simpl in Hd.
  destruct Hd as (_ & Hr & Hd). apply elem_of_cons in Hx as [->|Hx]; [simpl; lia|].
  specialize (IH due Hd x Hx). lia.
Qed.

Lemma on_nodes_ok {A} (m : stM (gmap Z sleep_queue_t) A) s h th a h' :
  m h = Ok (a, h') → on_nodes m (sst s h th) = Ok (a, sst s h' th).
Proof. intros E. unfold on_nodes. erewrite zoom_ok; [reflexivity|exact E]. Qed.

(** Waking the thread of one node. *)
Lemma wake_ok s h th w q a e :
  sleepers s h th w q → a ∈ q.*1 → h !! a = Some e →
  ∃ th', wake (sq_tid e) (sst s h th) = Ok (tt, sst s h th') ∧ woken w [a] th th'.
Proof.
  intros [H1 H2 _] Ha He. destruct (H1 a Ha) as (e' & He' & Hi). assert (e' = e) as -> by congruence.
  unfold wake. assert (thread_slot (sq_tid e) (sst s h th) = Ok (w a, sst s h th)) as E.
  { unfold thread_slot. mstep. change (threads (sst s h th)) with (threads s). by rewrite Hi. }
  mrun E. destruct (w a =? 0) eqn:Ez; zbool; cbn [negb].
  - exists th. split; [done|]. intros b. rewrite bool_decide_false; [done|].
    simpl. intros [Hb Hb']. rewrite list_elem_of_singleton in Hb'. congruence.
  - destruct (H2 a Ha Ez) as (t & Ht & Hs).
    mrun (thread_at_ok (sst s h th) _ _ Ht). rewrite Hs. cbn [Z.eqb Pos.eqb]. mstep.
    rewrite (upd_thread_ok (sst s h th) _ _ _ Ht). eexists. split; [reflexivity|].
    intros b. change (theap (sst s h th)) with th. cbn [fmap list_fmap].
    destruct (decide (b = w a)) as [->|Hb].
    + rewrite lookup_insert_eq, bool_decide_true by set_solver. by rewrite Ht.
    + rewrite lookup_insert_ne by done. rewrite bool_decide_false by set_solver. done.
Qed.

(** The loop takes the nodes that are due off the list, and wakes their threads. *)
Lemma wake_loop_ok s w q : ∀ n h th,
  queue_at h q → sleepers s h th w q → (length q < n)%nat →
  ∃ h' th', wake_loop n (default 0 (head q.*1)) (sst s h th) = Ok (tt, sst s h' th') ∧
    queue_at h' (filter (λ x, 0 < x.2) q) ∧ woken w (due_nodes 0 q) th th' ∧
    ∀ a, sq_tid <$> h' !! a = sq_tid <$> h !! a.
Proof.
  induction q as [|[a due] q IH]; intros n h th Hq Hsl Hn;
    (destruct n as [|n]; [simpl in Hn; lia|]); cbn [wake_loop head fmap list_fmap fst option_fmap default from_option id].
  - exists h, th. split_and!; [done|done|apply woken_nil|done].
  - destruct Hq as [Hseg Hnd Hb Hd]. simpl in Hd. destruct Hd as ((e & He & Ht) & Hr & Hd).
    assert (a ≠ 0) as Ha0 by apply Hseg. rewrite (proj2 (Z.eqb_neq a 0)) by done.
    mrun (on_nodes_ok _ s h th _ _ (load_ok _ _ _ He)). rewrite Ht, Z.sub_0_r.
    destruct (due =? 0) eqn:Edue; zbool.
    + subst due. destruct (unchain_ok h [BASE] a q.*1 Hnd Hseg) as (h1 & Eu & Hseg1 & Hpay & Hfr).
      mrun (on_nodes_ok _ s h th _ _ Eu).
      assert (a ∉ BASE :: q.*1) as Han.
      { simpl in Hnd. apply NoDup_cons in Hnd as [? Hnd]. apply NoDup_cons in Hnd. set_solver. }
      assert (h1 !! a = Some e) as He1 by (rewrite Hfr; done).
      mrun (on_nodes_ok _ s h1 th _ _ (load_ok _ _ _ He1)).
      assert (∀ b, keeps h h1 b) as Hk by (intros; by apply keeps_payload).
      assert (sleepers s h1 th w ((a, 0) :: q)) as Hsl1.
      { eapply sleepers_step; [exact Hsl|apply woken_nil|intros; apply Hk|set_solver|set_solver]. }
      destruct (wake_ok s h1 th w ((a, 0) :: q) a e Hsl1 ltac:(left) He1) as (th1 & Ew & Hw).
      mrun Ew. destruct (dseg_mid h 0 [BASE] a q.*1 0 Hseg) as (e' & He' & _ & Hnx).
      assert (e' = e) as -> by congruence. change (sq_next e) with (next e). rewrite Hnx.
      destruct (IH n h1 th1) as (h' & th' & El & Hq' & Hw' & Ht').
      * split; [exact Hseg1| | |].
        -- simpl. apply NoDup_cons in Hnd as [HB [_ Hnd]%NoDup_cons]. apply NoDup_cons.
           split; [set_solver|done].
        -- destruct Hb as (eb & Heb & Htb). apply time_left_of. destruct (Hk BASE) as [-> _].
           by rewrite Heb, <-Htb.
        -- eapply deltas_times; [|exact Hd]. intros b _. apply Hk.
      * eapply sleepers_step; [exact Hsl1|exact Hw|done| |set_solver].
        intros b Hb'. split; [by right|]. intros ->%list_elem_of_singleton. apply Han. by right.
      * simpl in Hn. lia.
      * exists h', th'. rewrite filter_cons_False by (simpl; lia). split_and!; [exact El|exact Hq'| |].
        -- unfold due_nodes. rewrite filter_cons_True by (simpl; lia). exact (woken_app _ _ _ _ _ _ Hw Hw').
        -- intros b. rewrite Ht'. apply Hk.
    + assert (∀ x, x ∈ (a, due) :: q → 0 < x.2) as Hpos.
      { intros x [->|Hx]%elem_of_cons; [simpl; lia|]. pose proof (deltas_ge _ _ _ Hd x Hx). lia. }
      assert (filter (λ x : Z * Z, 0 < x.2) ((a, due) :: q) = (a, due) :: q) as ->.
      { by apply filter_all. }
      assert (due_nodes 0 ((a, due) :: q) = []) as ->.
      { unfold due_nodes. rewrite filter_none; [done|]. intros x Hx. specialize (Hpos x Hx). lia. }
      exists h, th. split_and!; [done| |apply woken_nil|done].
      split; [exact Hseg|exact Hnd|exact Hb|]. simpl. split; [by exists e|done].
Qed.

Definition positive q : Prop := ∀ x, x ∈ q → 0 < x.2.

Lemma lower_fst n q a : a ∈ (lower n q).*1 → a ∈ q.*1.
Proof.
  unfold lower. rewrite <-list_fmap_compose. intros (x & -> & Hx)%list_elem_of_fmap.
  apply list_elem_of_filter in Hx as [_ Hx]. apply list_elem_of_fmap. by exists x.
Qed.

Lemma lower_positive n q : positive (lower n q).
Proof.
  intros y (x & -> & Hx)%list_elem_of_fmap. apply list_elem_of_filter in Hx as [Hx _]. simpl. lia.
Qed.

(** Lowering by one and dropping what is due is the same in either order. *)
Lemma lower_map n q : filter (λ x, 0 < x.2) ((λ x : Z * Z, (x.1, x.2 - n)) <$> q) = lower n q.
Proof.
  unfold lower. induction q as [|[a d] q IH]; [done|]. rewrite fmap_cons. simpl.
  destruct (decide (n < d)).
  - rewrite !filter_cons_True by (simpl; lia). rewrite fmap_cons. by rewrite IH.
  - rewrite !filter_cons_False by (simpl; lia). done.
Qed.

Lemma due_map n q : due_nodes 0 ((λ x : Z * Z, (x.1, x.2 - n)) <$> q) = due_nodes n q.
Proof.
  unfold due_nodes. induction q as [|[a d] q IH]; [done|]. rewrite fmap_cons. simpl.
  destruct (decide (d ≤ n)).
  - rewrite !filter_cons_True by (simpl; lia). rewrite !fmap_cons. by rewrite IH.
  - rewrite !filter_cons_False by (simpl; lia). done.
Qed.

Lemma tick_ok s w q h th :
  queue_at h q → positive q → sleepers s h th w q →
  ∃ h' th', tick (sst s h th) = Ok (tt, sst s h' th') ∧ queue_at h' (lower 1 q) ∧
    woken w (due_nodes 1 q) th th' ∧ ∀ a, sq_tid <$> h' !! a = sq_tid <$> h !! a.
Proof.
  intros Hq Hpos Hsl. pose proof (queue_length _ _ Hq) as Hlen.
  destruct Hq as [Hseg Hnd Hb Hd]. pose proof Hseg as (_ & (eb & Heb & _ & Hxb) & _).
  unfold tick. mrun (on_nodes_ok _ s h th _ _ (load_ok _ _ _ Heb)). cbv zeta.
  change (sq_next eb) with (next eb). rewrite Hxb. destruct q as [|[a due] q].
  - simpl. exists h, th. split_and!; [done|by split|apply woken_nil|done].
  - assert (a ≠ 0) as Ha0 by apply Hseg. cbn [head fmap list_fmap fst option_fmap default from_option id].
    rewrite (proj2 (Z.eqb_neq a 0)) by done. cbn [negb]. simpl in Hd. destruct Hd as ((e & He & Ht) & Hr & Hd).
    assert (0 < due) as Hdue by (apply (Hpos (a, due)); left).
    mrun (on_nodes_ok _ s h th _ _ (upd_node_ok _ _ _ (λ e, e <| time_left := u64 (time_left e - 1) |>) He)).
    set (e1 := e <| time_left := _ |>). set (h1 := <[a := e1]> h). mstep.
    assert (time_left e1 = due - 1) as Ht1.
    { change (u64 (time_left e - 1) = due - 1). rewrite Ht, u64_small; unfold is_u64, TIME_LIMIT in *; lia. }
    assert (BASE ≠ a ∧ a ∉ q.*1) as [HBa Haq].
    { apply NoDup_cons in Hnd as [HB [Hnd _]%NoDup_cons]. set_solver. }
    assert (∀ b, sq_tid <$> h1 !! b = sq_tid <$> h !! b) as Hk.
    { intros b. unfold h1. destruct (decide (b = a)) as [->|]; [by rewrite lookup_insert_eq, He|by rewrite lookup_insert_ne]. }
    set (q1 := (λ x : Z * Z, (x.1, x.2 - 1)) <$> (a, due) :: q).
    assert (q1.*1 = ((a, due) :: q).*1) as Hf.
    { unfold q1. rewrite <-list_fmap_compose. by apply list_fmap_ext. }
    destruct (wake_loop_ok s w q1 (S (size (nodes (sst s h1 th)))) h1 th) as (h' & th' & El & Hq' & Hw & Ht').
    + split; [rewrite Hf; by eapply dseg_payload|by rewrite Hf| |].
      * destruct Hb as (eb' & Heb' & Htb). exists eb'. split; [|done]. unfold h1. by rewrite lookup_insert_ne.
      * simpl. split; [exists e1; unfold h1; rewrite lookup_insert_eq; split; [done|lia]|]. split; [lia|].
        apply deltas_lower; [|lia]. eapply deltas_times; [|exact Hd]. intros b Hb'. unfold h1.
        rewrite lookup_insert_ne; [done|]. by intros ->.
    + eapply sleepers_step; [exact Hsl|apply woken_nil|exact Hk| |set_solver].
      rewrite Hf. intros b Hb'. split; [done|set_solver].
    + unfold q1. rewrite length_fmap. change (nodes (sst s h1 th)) with h1. unfold h1.
      rewrite map_size_insert_Some by (by eexists). lia.
    + exists h', th'. unfold q1 in Hq', Hw. rewrite lower_map in Hq'. rewrite due_map in Hw.
      split_and!; [exact El|exact Hq'|exact Hw|]. intros b. by rewrite Ht'.
Qed.

Lemma due_none q : positive q → due_nodes 0 q = [].
Proof. intros Hp. unfold due_nodes. rewrite filter_none; [done|]. intros x Hx. specialize (Hp x Hx). lia. Qed.

Lemma lower_zero q : positive q → lower 0 q = q.
Proof.
  intros Hp. unfold lower. rewrite filter_all by done. rewrite <-(list_fmap_id q) at 2.
  apply list_fmap_ext. intros i [a d] _. simpl. by rewrite Z.sub_0_r.
Qed.

Lemma lower_lower n q : 0 ≤ n → lower 1 (lower n q) = lower (n + 1) q.
Proof.
  intros Hn. induction q as [|[a d] q IH]; [done|]. unfold lower in *.
  destruct (decide (n < d)); [rewrite (filter_cons_True (λ x : Z * Z, n < x.2))|
    rewrite (filter_cons_False (λ x : Z * Z, n < x.2))]; try (simpl; lia).
  - rewrite fmap_cons. destruct (decide (n + 1 < d)).
    + rewrite !filter_cons_True by (simpl; lia). rewrite !fmap_cons, IH. simpl. do 2 f_equal. lia.
    + rewrite !filter_cons_False by (simpl; lia). apply IH.
  - rewrite (filter_cons_False (λ x : Z * Z, n + 1 < x.2)) by (simpl; lia). apply IH.
Qed.

Lemma due_elem n q a : a ∈ due_nodes n q ↔ ∃ d, (a, d) ∈ q ∧ d ≤ n.
Proof.
  unfold due_nodes. rewrite list_elem_of_fmap. split.
  - intros ([b d] & -> & [Hn Hx]%list_elem_of_filter). by exists d.
  - intros (d & Hd & Hn). exists (a, d). rewrite list_elem_of_filter. done.
Qed.

Lemma due_more n q a : 0 ≤ n → a ∈ due_nodes n q ++ due_nodes 1 (lower n q) ↔ a ∈ due_nodes (n + 1) q.
Proof.
  intros Hn. rewrite elem_of_app, !due_elem. split.
  - intros [(d & Hd & ?)|(d & Hd & ?)]; [exists d; split; [done|lia]|].
    unfold lower in Hd. apply list_elem_of_fmap in Hd as ([b d'] & [= -> ->] & [? ?]%list_elem_of_filter).
    exists d'. simpl in *. split; [done|lia].
  - intros (d & Hd & ?). destruct (decide (d ≤ n)); [left; by exists d|right].
    exists (d - n). split; [|lia]. unfold lower. apply list_elem_of_fmap. exists (a, d).
    rewrite list_elem_of_filter. simpl. split_and!; [done|lia|done].
Qed.

Lemma woken_ext w l l' th th' : (∀ a, a ∈ l ↔ a ∈ l') → woken w l th th' → woken w l' th th'.
Proof.
  intros Hl Hw b. rewrite Hw.
  rewrite (bool_decide_ext (b ≠ 0 ∧ b ∈ w <$> l) (b ≠ 0 ∧ b ∈ w <$> l')); [done|].
  rewrite !list_elem_of_fmap. by setoid_rewrite Hl.
Qed.

Lemma lower_due_disjoint n q a : NoDup q.*1 → a ∈ (lower n q).*1 → a ∉ due_nodes n q.
Proof.
  intros Hnd Ha (d & Hd & Hn)%due_elem. unfold lower in Ha. rewrite <-list_fmap_compose in Ha.
  apply list_elem_of_fmap in Ha as ([b d'] & -> & [Hx Hq]%list_elem_of_filter). simpl in *.
  assert (d = d') as ->; [|lia].
  apply (elem_of_list_to_map (M := gmap Z)) in Hd, Hq; [|done..]. congruence.
Qed.

Lemma ticks_ok s w q h th n :
  queue_at h q → positive q → sleepers s h th w q →
  ∃ h' th', for_loop n 0 (λ _, tick) (sst s h th) = Ok (tt, sst s h' th') ∧
    queue_at h' (lower (Z.of_nat n) q) ∧ woken w (due_nodes (Z.of_nat n) q) th th' ∧
    (∀ a, sq_tid <$> h' !! a = sq_tid <$> h !! a) ∧ sleepers s h' th' w (lower (Z.of_nat n) q).
Proof.
  intros Hq Hp Hs. pose proof (q_nodup _ _ Hq) as [_ Hnd]%NoDup_cons.
  destruct (for_loop_inv (λ j t, ∃ h' th', t = sst s h' th' ∧ queue_at h' (lower j q) ∧
    woken w (due_nodes j q) th th' ∧ (∀ a, sq_tid <$> h' !! a = sq_tid <$> h !! a) ∧
    sleepers s h' th' w (lower j q)) (λ _, tick) n 0 (sst s h th)) as (s' & E & h' & th' & -> & HI); [| |by eauto].
  - exists h, th. rewrite lower_zero, due_none by done. split_and!; [done..|apply woken_nil|done|done].
  - intros j t Hj (h1 & th1 & -> & Hq1 & Hw1 & Hk1 & Hs1).
    destruct (tick_ok s w (lower j q) h1 th1 Hq1 (lower_positive _ _) Hs1) as (h2 & th2 & Et & Hq2 & Hw2 & Hk2).
    exists (sst s h2 th2). split; [done|]. exists h2, th2. rewrite lower_lower in Hq2 by lia.
    assert (woken w (due_nodes (j + 1) q) th th2) as Hw.
    { eapply woken_ext; [|exact (woken_app _ _ _ _ _ _ Hw1 Hw2)]. intros a. apply due_more. lia. }
    assert (∀ a, sq_tid <$> h2 !! a = sq_tid <$> h !! a) as Hk by (intros a; by rewrite Hk2).
    split_and!; [done|done|done|done|]. eapply sleepers_step; [exact Hs|exact Hw|exact Hk| |].
    + intros a Ha. split; [by eapply lower_fst|by apply lower_due_disjoint].
    + intros a (d & Hd & _)%due_elem. apply list_elem_of_fmap. by exists (a, d).
Qed.

Lemma sq_acquire_ok s :
  unlocked (sleep_queue_lock s) →
  sq_acquire s = Ok (tt, s <| sleep_queue_lock := Z.lor (sleep_queue_lock s) 1 |>).
Proof. intros Hl. unfold sq_acquire. mstep. by rewrite (spinlock_lock_free _ Hl). Qed.

Lemma sst_eta s : s = sst s (nodes s) (theap s).
Proof. by destruct s. Qed.

Definition lag_warning (s : kstate) : cpu :=
  if sched_period * 3 <? lagged_ticks s
  then say "[DripOS] Warning, kernel may be lagging, %lu ticks skipped." (kcpu s) else kcpu s.

Lemma lor_set l : Z.testbit l 0 = true → Z.lor l 1 = l.
Proof.
  intros Hl. apply Z.bits_inj'. intros n Hn. rewrite Z.lor_spec. destruct (decide (n = 0)) as [->|Hne].
  - by rewrite Hl.
  - assert (Z.testbit 1 n = false) as -> by (apply (Z.bits_above_log2 1 n); simpl; lia). apply orb_false_r.
Qed.

(** The state after [advance_time] took its locks. *)
Definition advancing (s : kstate) : kstate :=
  s <| sched_lock := Z.lor (sched_lock s) 1 |> <| sleep_queue_lock := Z.lor (sleep_queue_lock s) 1 |>
    <| kcpu := lag_warning s |>.

Lemma advance_time_run s h' th' :
  if_flag (kcpu s) = false → unlocked (sched_lock s) → unlocked (sleep_queue_lock s) →
  for_loop (Z.to_nat (u64 (lagged_ticks s + 1))) 0 (λ _, tick) (advancing s) =
    Ok (tt, sst (advancing s) h' th') →
  advance_time s =
    Ok (tt, s <| nodes := h' |> <| theap := th' |> <| lagged_ticks := 0 |> <| kcpu := lag_warning s |>).
Proof.
  intros Hif Hl Hq E. unfold advance_time. mstep. unfold check_interrupts. rewrite Hif. cbn [Z.eqb]. mstep.
  unfold spinlock_check_and_lock. rewrite Hl. cbv iota. cbn [Z.eqb negb]. mstep.
  erewrite bind_ok; [|by apply sq_acquire_ok]. cbv beta.
  set (s1 := s <| sched_lock := _ |> <| sleep_queue_lock := _ |>).
  assert ((if sched_period * 3 <? lagged_ticks s
     then modify (λ s, s <| kcpu := say "[DripOS] Warning, kernel may be lagging, %lu ticks skipped." (kcpu s) |>)
     else mret tt) s1 = Ok (tt, advancing s)) as Ew.
  { unfold advancing, lag_warning, s1. destruct s. destruct (_ <? _); reflexivity. }
  mrun Ew. mrun E. do 2 mstep. unfold sched_release, modify. f_equal. f_equal.
  unfold unlocked in *. destruct s. cbn in Hl, Hq |- *. rewrite !lock_unlock by done. reflexivity.
Qed.

Lemma sleepers_threads s s' h th w q :
  threads s' = threads s → sleepers s h th w q → sleepers s' h th w q.
Proof. intros E [H1 H2 H3]. split; [|done..]. intros a Ha. rewrite E. by apply H1. Qed.

Lemma advance_time_held s :
  if_flag (kcpu s) = false → Z.testbit (sched_lock s) 0 = true →
  advance_time s = Ok (tt, s <| lagged_ticks := u64 (lagged_ticks s + 1) |>).
Proof.
  intros Hif Hl. unfold advance_time. mstep. unfold check_interrupts. rewrite Hif. cbn [Z.eqb]. mstep.
  unfold spinlock_check_and_lock. rewrite Hl, (lor_set _ Hl). cbv iota. cbn [Z.eqb negb]. mstep.
  unfold modify. by destruct s.
Qed.

(** C14: putting the running thread to sleep.  Its node goes behind every sleeper due strictly
    earlier and before all others, with the requested time; every other sleeper keeps the time
    at which it is due and its thread, and nothing but the nodes changes. *)
Theorem insert_to_queue_correct s q c t en ticks tid :
  unlocked (sleep_queue_lock s) → current_thread (locals s) = c → theap s !! c = Some t →
  queue_at (nodes s) q → sleep_node t ∉ BASE :: q.*1 → sleep_node t ≠ 0 →
  nodes s !! sleep_node t = Some en → 0 ≤ ticks < TIME_LIMIT →
  ∃ h' q1 q2, insert_to_queue ticks tid s = Ok (tt, s <| nodes := h' |>) ∧ q = q1 ++ q2 ∧
    (∀ x, x ∈ q1 → x.2 < ticks) ∧ (∀ x, x ∈ q2 → ticks ≤ x.2) ∧
    queue_at h' (q1 ++ (sleep_node t, ticks) :: q2) ∧ sq_tid <$> h' !! sleep_node t = Some tid ∧
    (∀ a, a ≠ sleep_node t → sq_tid <$> h' !! a = sq_tid <$> nodes s !! a).
Proof.
  intros Hl Hc Ht Hq Hnew Hn0 Hen Htk.
  destruct (insert_node_ok (nodes s) q (sleep_node t) en ticks tid Hq Hnew Hn0 Hen Htk)
    as (h' & q1 & q2 & E & Hres).
  exists h', q1, q2. split; [|exact Hres]. unfold insert_to_queue. mrun (sq_acquire_ok s Hl). mstep.
  change (current_thread (locals (s <| sleep_queue_lock := Z.lor (sleep_queue_lock s) 1 |>)))
    with (current_thread (locals s)). rewrite Hc.
  erewrite bind_ok; [|apply thread_at_ok; exact Ht]. cbv beta.
  erewrite bind_ok; [|unfold on_nodes; erewrite zoom_ok; [reflexivity|exact E]]. cbv beta.
  unfold sq_release, modify. f_equal. f_equal. destruct s. cbn in Hl |- *. by rewrite lock_unlock.
Qed.

(** C15: one timer tick.  While the scheduler's lock is held the tick is only counted.
    Otherwise the tick and all the counted ones take effect: every sleeper due by then leaves
    the queue and its thread becomes ready (one that was killed is skipped), every other
    sleeper is due that much earlier, and both locks are free again.  The queue must have no sleeper
    that is due at once ([positive]); the tick keeps that, but a request for no ticks (a [nanosleep]
    of less than a millisecond) breaks it, and such a sleeper is not woken ([sleep_zero_wraps]). *)
Theorem advance_time_correct s w q :
  if_flag (kcpu s) = false →
  (Z.testbit (sched_lock s) 0 = true →
     advance_time s = Ok (tt, s <| lagged_ticks := u64 (lagged_ticks s + 1) |>)) ∧
  (unlocked (sched_lock s) → unlocked (sleep_queue_lock s) →
     queue_at (nodes s) q → positive q → sleepers s (nodes s) (theap s) w q →
     0 ≤ lagged_ticks s < U64_MOD - 1 →
     let n := lagged_ticks s + 1 in
     ∃ h' th', advance_time s =
         Ok (tt, s <| nodes := h' |> <| theap := th' |> <| lagged_ticks := 0 |> <| kcpu := lag_warning s |>) ∧
       queue_at h' (lower n q) ∧ positive (lower n q) ∧
       woken w (due_nodes n q) (theap s) th' ∧ sleepers s h' th' w (lower n q)).
Proof.
  intros Hif. split; [by apply advance_time_held|]. intros Hl Hlq Hq Hp Hs Hlag n.
  destruct (ticks_ok (advancing s) w q (nodes s) (theap s) (Z.to_nat (u64 (lagged_ticks s + 1))))
    as (h' & th' & E & Hq' & Hw & _ & Hs'); [done|done|by apply (sleepers_threads s)|].
  rewrite u64_small in Hq', Hw, Hs' by (unfold is_u64; lia). rewrite Z2Nat.id in Hq', Hw, Hs' by lia.
  exists h', th'. split_and!; [|done|apply lower_positive|done|by apply (sleepers_threads (advancing s))].
  apply advance_time_run; [done..|]. rewrite (sst_eta (advancing s)) at 1. exact E.
Qed.

(** A request for no time at all: the node's count wraps, so the thread is not woken and
    holds up everything behind it. *)
Lemma sleep_zero_wraps s h th a e q :
  queue_at h ((a, 0) :: q) → h !! a = Some e →
  tick (sst s h th) = Ok (tt, sst s (<[a := e <| time_left := U64_MOD - 1 |>]> h) th).
Proof.
  intros [Hseg _ _ Hd] He. pose proof Hseg as (_ & (eb & Heb & _ & Hxb) & Ha0 & _).
  simpl in Hd. destruct Hd as ((e' & He' & Ht) & _). assert (e' = e) as -> by congruence.
  unfold tick. mrun (on_nodes_ok _ s h th _ _ (load_ok _ _ _ Heb)). cbv zeta.
  change (sq_next eb) with (next eb). rewrite Hxb. cbn [head fmap list_fmap fst option_fmap default from_option id].
  rewrite (proj2 (Z.eqb_neq a 0)) by done. cbn [negb].
  mrun (on_nodes_ok _ s h th _ _ (upd_node_ok _ _ _ (λ e, e <| time_left := u64 (time_left e - 1) |>) He)).
  rewrite Ht. change (u64 (0 - 0 - 1)) with (U64_MOD - 1). mstep. cbn [wake_loop].
  rewrite (proj2 (Z.eqb_neq a 0)) by done.
  erewrite bind_ok; [|apply on_nodes_ok, load_ok, lookup_insert_eq]. reflexivity.
Qed.

(** A thread that was killed in its sleep and whose identifier another thread has taken. *)
Lemma wake_reused_panics s tid a t :
  idx (threads s) tid = Some a → a ≠ 0 → theap s !! a = Some t → t_state t ≠ SLEEP →
  wake tid s = Crash Panic.
Proof.
  intros Hi Ha Ht Hs. unfold wake. assert (thread_slot tid s = Ok (a, s)) as E.
  { unfold thread_slot. mstep. by rewrite Hi. }
  mrun E. rewrite (proj2 (Z.eqb_neq a 0)) by done. cbn [negb]. mrun (thread_at_ok _ _ _ Ht).
  by rewrite (proj2 (Z.eqb_neq _ _) Hs).
Qed.

(** *** A kernel with two sleepers

    Thread 1 sleeps for 3 more ticks and a killed one for 5; two ticks have been missed. *)
Definition sleepy_kernel : kstate :=
  demo_kernel <| threads := [1000; 2000; 0] |>
    <| theap := {[1000 := demo_thread 0 RUNNING <| sleep_node := 40 |>; 2000 := demo_thread 1 SLEEP]} |>
    <| nodes := {[1 := mk_sleep 20 0 0 0; 20 := mk_sleep 30 1 3 1; 30 := mk_sleep 0 20 2 2;
                  40 := mk_sleep 0 0 0 0]} |> <| lagged_ticks := 2 |>.
Definition sleepy_queue : list (Z * Z) := [(20, 3); (30, 5)].
Definition sleepy_thread (a : Z) : Z := if a =? 20 then 2000 else 0.

Lemma sleepy_queue_at : queue_at (nodes sleepy_kernel) sleepy_queue.
Proof.
  split.
  - simpl. split_and!; try lia; try done; eexists; (split; [vm_compute; reflexivity|done]).
  - vm_compute. repeat constructor; set_solver.
  - eexists. split; [vm_compute; reflexivity|done].
  - simpl. unfold TIME_LIMIT. split_and!; try lia; try done;
      eexists; (split; [vm_compute; reflexivity|done]).
Qed.

Lemma sleepy_sleepers :
  sleepers sleepy_kernel (nodes sleepy_kernel) (theap sleepy_kernel) sleepy_thread sleepy_queue.
Proof.
  split.
  - intros a [->|[->|[]%elem_of_nil]%elem_of_cons]%elem_of_cons;
      eexists; (split; vm_compute; reflexivity).
  - intros a [->|[->|[]%elem_of_nil]%elem_of_cons]%elem_of_cons Hw; [|done].
    eexists. split; vm_compute; reflexivity.
  - intros a b [->|[->|[]%elem_of_nil]%elem_of_cons]%elem_of_cons
      [->|[->|[]%elem_of_nil]%elem_of_cons]%elem_of_cons; vm_compute; congruence.
Qed.

Lemma insert_to_queue_correct_witness :
  ∃ h', insert_to_queue 4 0 sleepy_kernel = Ok (tt, sleepy_kernel <| nodes := h' |>) ∧
    queue_at h' [(20, 3); (40, 4); (30, 5)].
Proof.
  destruct (insert_to_queue_correct sleepy_kernel sleepy_queue 1000 (demo_thread 0 RUNNING <| sleep_node := 40 |>)
    (mk_sleep 0 0 0 0) 4 0) as (h' & q1 & q2 & E & Eq & H1 & H2 & Hq & _);
    [reflexivity|reflexivity|vm_compute; reflexivity|exact sleepy_queue_at|vm_compute; set_solver|done
    |vm_compute; reflexivity|unfold TIME_LIMIT; lia|].
  exists h'. split; [exact E|]. unfold sleepy_queue in Eq. assert (q1 = [(20, 3)] ∧ q2 = [(30, 5)]) as [-> ->]; [|exact Hq].
  destruct q1 as [|x [|y q1]]; simplify_eq/=.
  - specialize (H2 (20, 3) ltac:(left)). simpl in H2. lia.
  - done.
  - specialize (H1 (30, 5) ltac:(right; left)). simpl in H1. lia.
Defined.

Lemma advance_time_correct_witness :
  (∃ h' th', advance_time sleepy_kernel =
      Ok (tt, sleepy_kernel <| nodes := h' |> <| theap := th' |> <| lagged_ticks := 0 |>
                <| kcpu := lag_warning sleepy_kernel |>) ∧
    queue_at h' [(30, 2)] ∧ t_state <$> th' !! 2000 = Some READY) ∧
  advance_time (sleepy_kernel <| sched_lock := 1 |>) =
    Ok (tt, sleepy_kernel <| sched_lock := 1 |> <| lagged_ticks := 3 |>).
Proof.
  split.
  - destruct (advance_time_correct sleepy_kernel sleepy_thread sleepy_queue) as [_ Hgo]; [reflexivity|].
    destruct Hgo as (h' & th' & E & Hq & _ & Hw & _);
      [reflexivity|reflexivity|exact sleepy_queue_at| |exact sleepy_sleepers|vm_compute; split; congruence|].
    + intros x [->|[->|[]%elem_of_nil]%elem_of_cons]%elem_of_cons; simpl; lia.
    + exists h', th'. split; [exact E|]. split; [exact Hq|]. rewrite (Hw 2000). vm_compute. reflexivity.
  - destruct (advance_time_correct (sleepy_kernel <| sched_lock := 1 |>) sleepy_thread sleepy_queue)
      as [Hheld _]; [reflexivity|]. rewrite Hheld; [|reflexivity]. vm_compute. reflexivity.
Defined.
