(* ===== verification/Rangemap.v ===== *)
(** * Range maps (klibc/rangemap.c)

    A range map is a doubly linked list of ranges; its first entry, which the
    caller owns, is the base the search starts from and is never freed.  The
    entries are in a heap of their own and [kcalloc] takes the unused address
    [rm_brk].  [map_at] describes a map by the list of its entries with their
    bounds, in order and disjoint. *)

From S2P Require Import Prelude DList.

Record rangemap_t : Type := mk_range {
  rm_start : Z;
  rm_end : Z;
  rm_next : Z;
  rm_prev : Z
}.
#[export] Instance eta_rangemap_t : Eta rangemap_t :=
  λ r, mk_range (rm_start r) (rm_end r) (rm_next r) (rm_prev r).

#[export] Instance rangemap_node : Node rangemap_t := {
  next := rm_next;
  prev := rm_prev;
  set_next n e := e <| rm_next := n |>;
  set_prev p e := e <| rm_prev := p |>
}.
#[export] Instance rangemap_node_laws : NodeLaws rangemap_t.
Proof. split; intros; reflexivity. Qed.

Record ranges : Type := mk_ranges {
  rm_heap : gmap Z rangemap_t;
  rm_brk : Z
}.
#[export] Instance eta_ranges : Eta ranges := λ r, mk_ranges (rm_heap r) (rm_brk r).

Abbreviation rM := (stM ranges).
Definition on_ranges {A} (m : stM (gmap Z rangemap_t) A) : rM A :=
  zoom rm_heap (λ h s, s <| rm_heap := h |>) m.

Definition NO_AREA : Z := 18446744073709551615.

(** The statements are those of the list macro. *)
Definition rangemap_insert_new (after new : Z) : stM (gmap Z rangemap_t) unit :=
  CHAIN_LINKED_LIST after new.

Definition rangemap_remove (remove : Z) : stM (gmap Z rangemap_t) unit :=
  e ← load remove;
  (if negb (next e =? 0) then n ← load (next e); store (next e) (set_prev (prev e) n) else mret tt) ;;
  e ← load remove;
  (if negb (prev e =? 0) then p ← load (prev e); store (prev e) (set_next (next e) p) else mret tt) ;;
  modify (delete remove).

(** The loop of [rangemap_add_range]. *)
Fixpoint insert_point (n : nat) (start_insert current range_start : Z) : stM (gmap Z rangemap_t) Z :=
  match n with
  | O => crashM Hang
  | S n' =>
      if current =? 0 then mret start_insert
      else
        e ← load current;
        if rm_end e <=? range_start then insert_point n' current (rm_next e) range_start
        else mret start_insert
  end.

Definition rangemap_add_range (base_entry range_start range_end : Z) : rM unit :=
  s ← get;
  start_insert ← on_ranges (insert_point (S (size (rm_heap s))) base_entry base_entry range_start);
  let new := rm_brk s in
  modify (λ s, s <| rm_brk := new + 1 |>
                 <| rm_heap := <[new := mk_range range_start range_end 0 0]> (rm_heap s) |>) ;;
  on_ranges (rangemap_insert_new start_insert new).

Fixpoint find_area_loop (n : nat) (rangemap current size : Z) : rM Z :=
  match n with
  | O => crashM Hang
  | S n' =>
      if current =? 0 then mret NO_AREA
      else
        e ← on_ranges (load current);
        if rm_next e =? 0 then
          if size <=? u64 (NO_AREA - rm_end e) then
            rangemap_add_range rangemap (rm_end e) (u64 (rm_end e + size)) ;; mret (rm_end e)
          else find_area_loop n' rangemap (rm_next e) size
        else
          nx ← on_ranges (load (rm_next e));
          if size <=? u64 (rm_start nx - rm_end e) then
            rangemap_add_range rangemap (rm_end e) (u64 (rm_end e + size)) ;; mret (rm_end e)
          else find_area_loop n' rangemap (rm_next e) size
  end.

Definition rangemap_find_free_area (rangemap size : Z) : rM Z :=
  s ← get; find_area_loop (S (base.size (rm_heap s))) rangemap rangemap size.

(** The search all three of the following do: the entry that starts at [addr], or null. *)
Fixpoint find_entry (n : nat) (rangemap current addr : Z) : stM (gmap Z rangemap_t) Z :=
  match n with
  | O => crashM Hang
  | S n' =>
      if current =? 0 then mret 0
      else
        e ← load current;
        if (rm_start e =? addr) && negb (current =? rangemap) then mret current
        else find_entry n' rangemap (rm_next e) addr
  end.

Definition rangemap_mark_free (rangemap addr : Z) : rM unit :=
  s ← get;
  current ← on_ranges (find_entry (S (size (rm_heap s))) rangemap rangemap addr);
  if negb (current =? 0) then on_ranges (rangemap_remove current) else mret tt.

Definition rangemap_entry_present (rangemap addr : Z) : rM Z :=
  s ← get;
  current ← on_ranges (find_entry (S (size (rm_heap s))) rangemap rangemap addr);
  mret (if negb (current =? 0) then 1 else 0).

Definition rangemap_get_entry_size (rangemap addr : Z) : rM Z :=
  s ← get;
  current ← on_ranges (find_entry (S (size (rm_heap s))) rangemap rangemap addr);
  if negb (current =? 0) then e ← on_ranges (load current); mret (u64 (rm_end e - rm_start e))
  else mret 0.

(** ** The list of ranges *)

Implicit Types h : gmap Z rangemap_t.
(** An entry: its address and its bounds. *)
Abbreviation entry := (Z * (Z * Z))%type.
Implicit Types l : list entry.

Definition holds_range h (x : entry) : Prop :=
  ∃ e, h !! x.1 = Some e ∧ rm_start e = x.2.1 ∧ rm_end e = x.2.2.

(** In order, disjoint, not empty, and above [lo]. *)
Fixpoint ordered (lo : Z) l : Prop :=
  match l with
  | [] => True
  | (_, (st, en)) :: l' => lo ≤ st < en ∧ en ≤ NO_AREA ∧ ordered en l'
  end.

Record map_at (s : ranges) (base : Z) (bend : Z) l : Prop := {
  m_seg : dseg (rm_heap s) 0 (base :: l.*1) 0;
  m_nodup : NoDup (base :: l.*1);
  m_base : ∃ e, rm_heap s !! base = Some e ∧ rm_end e = bend;
  m_bend : 0 ≤ bend ≤ NO_AREA;
  m_ents : Forall (holds_range (rm_heap s)) l;
  m_ordered : ordered bend l;
  m_brk : 0 < rm_brk s ∧ ∀ a, is_Some (rm_heap s !! a) → a < rm_brk s
}.

(** The end of the last of the ranges [l]. *)
Definition last_end (lo : Z) l : Z := default lo (last (l.*2.*2)).

Lemma last_end_cons lo a st en l : last_end lo ((a, (st, en)) :: l) = last_end en l.
Proof.
  unfold last_end. cbn [fmap list_fmap fst snd]. rewrite last_cons. by destruct (last _).
Qed.

Lemma ordered_app lo l1 l2 : ordered lo (l1 ++ l2) ↔ ordered lo l1 ∧ ordered (last_end lo l1) l2.
Proof.
  revert lo. induction l1 as [|[a [st en]] l1 IH]; intros lo; cbn [app ordered].
  - unfold last_end. simpl. tauto.
  - rewrite IH, last_end_cons. tauto.
Qed.

Lemma ordered_last lo l : ordered lo l → lo ≤ last_end lo l ∧ (lo ≤ NO_AREA → last_end lo l ≤ NO_AREA).
Proof.
  revert lo. induction l as [|[a [st en]] l IH]; intros lo; [unfold last_end; simpl; lia|].
  cbn [ordered]. intros (H1 & H2 & H3). rewrite last_end_cons. destruct (IH _ H3). lia.
Qed.

Lemma ordered_bounds lo l x :
  ordered lo l → x ∈ l → lo ≤ x.2.1 < x.2.2 ∧ x.2.2 ≤ last_end lo l ∧ x.2.2 ≤ NO_AREA.
Proof.
  revert lo. induction l as [|[a [st en]] l IH]; intros lo Ho Hx; [set_solver|].
  rewrite last_end_cons. destruct Ho as (H1 & H2 & H3). pose proof (ordered_last _ _ H3).
  apply elem_of_cons in Hx as [->|Hx]; [simpl; lia|]. destruct (IH en H3 Hx). lia.
Qed.

(** The gap above [lo], in front of the ranges [l], has room for [size]. *)
Definition gap_end l : Z := match l with [] => NO_AREA | x :: _ => x.2.1 end.
Definition area_fits (size lo : Z) l : Prop := size ≤ gap_end l - lo.

#[export] Instance area_fits_dec size lo l : Decision (area_fits size lo l).
Proof. unfold area_fits. apply _. Defined.

(** The first gap that has room is behind [l1]. *)
Definition first_area (size lo : Z) l1 l2 : Prop :=
  area_fits size (last_end lo l1) l2 ∧
  ∀ k1 k2, l1 = k1 ++ k2 → k2 ≠ [] → ¬ area_fits size (last_end lo k1) (k2 ++ l2).
Definition no_fit (size lo : Z) l : Prop := ∀ k1 k2, l = k1 ++ k2 → ¬ area_fits size (last_end lo k1) k2.

Lemma on_ranges_ok {A} (m : stM (gmap Z rangemap_t) A) s a h' :
  m (rm_heap s) = Ok (a, h') → on_ranges m s = Ok (a, s <| rm_heap := h' |>).
Proof. intros E. unfold on_ranges. erewrite zoom_ok; [reflexivity|exact E]. Qed.

Lemma ranges_eta s : s <| rm_heap := rm_heap s |> = s.
Proof. by destruct s. Qed.

Lemma on_ranges_read {A} (m : stM (gmap Z rangemap_t) A) s a :
  m (rm_heap s) = Ok (a, rm_heap s) → on_ranges m s = Ok (a, s).
Proof. intros E. rewrite (on_ranges_ok _ _ _ _ E). by rewrite ranges_eta. Qed.

Lemma insert_point_ok h rs l2 l1 : ∀ n si p,
  dseg h p (l1 ++ l2).*1 0 → Forall (holds_range h) (l1 ++ l2) → (∀ x, x ∈ l1 → x.2.2 ≤ rs) →
  (∀ x, head l2 = Some x → rs < x.2.2) → (length l1 < n)%nat →
  insert_point n si (default 0 (head (l1 ++ l2).*1)) rs h = Ok (default si (last l1.*1), h).
Proof.
  induction l1 as [|[a [st en]] l1 IH]; intros n si p Hs Hf H1 H2 Hn;
    (destruct n as [|n]; [simpl in Hn; lia|]); cbn [insert_point].
  - destruct l2 as [|[b [st en]] l2]; [done|]. cbn [app fmap list_fmap head fst default from_option id] in *.
    destruct Hs as (Hb & _). rewrite (proj2 (Z.eqb_neq b 0)) by done.
    apply Forall_cons in Hf as ((e & He & Hst & Hen) & _). cbn [fst snd] in *.
    mrun (load_ok _ _ _ He). specialize (H2 _ eq_refl). cbn [snd] in H2.
    rewrite (proj2 (Z.leb_gt _ _)) by lia. done.
  - cbn [app fmap list_fmap head fst default from_option id] in *.
    destruct Hs as (Ha & (e' & He' & _ & Hx) & Hs). rewrite (proj2 (Z.eqb_neq a 0)) by done.
    apply Forall_cons in Hf as ((e & He & Hst & Hen) & Hf). cbn [fst snd] in *.
    assert (e' = e) as -> by congruence. mrun (load_ok _ _ _ He).
    assert (en ≤ rs) by (apply (H1 (a, (st, en))); left).
    rewrite (proj2 (Z.leb_le _ _)) by lia. change (rm_next e) with (next e). rewrite Hx.
    rewrite (IH n a a Hs Hf); [|intros x Hx'; apply H1; by right|done|simpl in Hn; lia].
    rewrite last_cons. by destruct (last l1.*1).
Qed.

Lemma map_size s base bend l : map_at s base bend l → (length l < size (rm_heap s))%nat.
Proof.
  intros Hm. pose proof (m_nodup _ _ _ _ Hm) as Hnd.
  assert (length (base :: l.*1) ≤ size (rm_heap s))%nat as Hle; [|simpl in Hle; by rewrite length_fmap in Hle].
  rewrite <-size_dom, <-(size_list_to_set (C := gset Z)) by done.
  apply subseteq_size. intros a Ha. apply elem_of_list_to_set in Ha. apply elem_of_dom.
  eapply dseg_elem; [apply Hm|done].
Qed.

Lemma holds_payload h h' x : same_payload h h' → holds_range h x → holds_range h' x.
Proof.
  intros Hs (e & He & H1 & H2). specialize (Hs x.1). rewrite He in Hs.
  destruct (h' !! x.1) as [e'|] eqn:E; [|done]. exists e'. destruct e, e'. simpl in *. by injection Hs as -> ->.
Qed.

Lemma holds_frame h h' x : h' !! x.1 = h !! x.1 → holds_range h x → holds_range h' x.
Proof. intros E (e & He & H). exists e. by rewrite E. Qed.

Lemma base_range s base bend l : map_at s base bend l →
  ∃ bs, Forall (holds_range (rm_heap s)) ((base, (bs, bend)) :: l).
Proof.
  intros Hm. destruct (m_base _ _ _ _ Hm) as (e & He & Hen). exists (rm_start e).
  apply Forall_cons. split; [by exists e|apply Hm].
Qed.

Lemma last_split {A} (x : A) (k : list A) : ∃ pre, x :: k = pre ++ [default x (last k)].
Proof.
  destruct (exists_last (l := x :: k)) as (pre & z & E); [done|]. exists pre. rewrite E. do 2 f_equal.
  assert (last (x :: k) = Some z) as Hz by (rewrite E; apply last_snoc).
  rewrite last_cons in Hz. destruct (last k); simpl; congruence.
Qed.

Lemma add_range_ok s base bend l1 l2 size :
  let r := last_end bend l1 in
  map_at s base bend (l1 ++ l2) → 0 < size → area_fits size r l2 →
  ∃ s', rangemap_add_range base r (r + size) s = Ok (tt, s') ∧
    map_at s' base bend (l1 ++ (rm_brk s, (r, r + size)) :: l2).
Proof.
  intros r Hm Hsz Hfit. destruct (base_range _ _ _ _ Hm) as [bs Hf]. pose proof (map_size _ _ _ _ Hm) as Hlen.
  pose proof Hm as [Hseg Hnd Hb Hbe Hents Hord [Hb0 Hbrk]]. pose proof Hord as [Ho1 Ho2]%ordered_app. fold r in Ho2.
  pose proof (ordered_last _ _ Ho1) as [Hr1 Hr2]. fold r in Hr1, Hr2.
  set (nw := rm_brk s). set (cur := default base (last l1.*1)).
  assert (insert_point (S (base.size (rm_heap s))) base base r (rm_heap s) = Ok (cur, rm_heap s)) as Esc.
  { pose proof (insert_point_ok (rm_heap s) r l2 ((base, (bs, bend)) :: l1) (S (base.size (rm_heap s))) base 0) as E.
    cbn [app fmap list_fmap head fst default from_option id] in E. rewrite E; [|done|done| | |].
    - rewrite last_cons. unfold cur. by destruct (last l1.*1).
    - intros x [->|Hx]%elem_of_cons; [simpl; lia|]. by apply (ordered_bounds _ _ _ Ho1 Hx).
    - intros x Hx. destruct l2 as [|y l2]; [done|]. injection Hx as ->.
      destruct (ordered_bounds r (x :: l2) x Ho2 ltac:(left)). lia.
    - rewrite length_app in Hlen. simpl. lia. }
  destruct (last_split base l1.*1) as [pre Hpre]. fold cur in Hpre.
  assert (∀ k, base :: (l1.*1 ++ k) = pre ++ cur :: k) as Hk.
  { intros k. rewrite app_comm_cons, Hpre, <-app_assoc. done. }
  rewrite fmap_app in Hseg, Hnd. rewrite Hk in Hseg, Hnd.
  assert (nw ∉ pre ++ cur :: l2.*1) as Hfresh.
  { intros Hin. assert (is_Some (rm_heap s !! nw)) as Hi by (by eapply dseg_elem). apply Hbrk in Hi. unfold nw in Hi. lia. }
  set (h1 := <[nw := mk_range r (r + size) 0 0]> (rm_heap s)).
  assert (∀ a, a ≠ nw → h1 !! a = rm_heap s !! a) as F1 by (intros; by apply lookup_insert_ne).
  destruct (chain_ok h1 pre cur l2.*1 nw (mk_range r (r + size) 0 0) Hnd) as (h2 & Ech & Hseg2 & Hpay & Hfr);
    [|done|lia|apply lookup_insert_eq|].
  { eapply dseg_frame; [|exact Hseg]. intros a Ha. apply F1. by intros ->. }
  exists (mk_ranges h2 (nw + 1)). split.
  - unfold rangemap_add_range. mstep. mrun (on_ranges_read _ _ _ Esc). cbv zeta. mstep.
    fold nw. unfold rangemap_insert_new. etransitivity; [eapply on_ranges_ok; exact Ech|reflexivity].
  - assert (∀ x, x.1 ∈ base :: (l1 ++ l2).*1 → holds_range (rm_heap s) x → holds_range h2 x) as Hkeep.
    { intros x Hx Hh. eapply holds_payload; [exact Hpay|]. eapply holds_frame; [|exact Hh]. apply F1.
      intros E. apply Hfresh. by rewrite <-E, <-Hk, <-fmap_app. }
    split; cbn [rm_heap rm_brk].
    + by rewrite fmap_app, fmap_cons, Hk.
    + rewrite fmap_app, fmap_cons, Hk. clear -Hnd Hfresh. cbn [fst].
      rewrite NoDup_app, !NoDup_cons in *. set_solver.
    + destruct (Hkeep (base, (bs, bend))) as (e & He & _ & Hen); [left|by apply Forall_inv in Hf|by exists e].
    + done.
    + apply Forall_app in Hents as [E1 E2]. rewrite Forall_app, Forall_cons. split_and!.
      * apply Forall_forall. intros x Hx. apply Hkeep; [|by eapply Forall_forall in E1].
        right. rewrite fmap_app. apply elem_of_app. left. by apply list_elem_of_fmap_2.
      * eapply holds_payload; [exact Hpay|]. eexists. split; [apply lookup_insert_eq|done].
      * apply Forall_forall. intros x Hx. apply Hkeep; [|by eapply Forall_forall in E2].
        right. rewrite fmap_app. apply elem_of_app. right. by apply list_elem_of_fmap_2.
    + rewrite ordered_app. fold r. split; [done|]. cbn [ordered]. unfold area_fits in Hfit.
      destruct l2 as [|[b [st en]] l2]; cbn [gap_end fst snd ordered] in *; [lia|].
      destruct Ho2 as (? & ? & ?). split_and!; [lia..|done].
    + split; [lia|].
      intros a Ha. destruct (decide (a = nw)) as [->|]; [lia|]. assert (a < nw); [|lia]. apply Hbrk.
      specialize (Hpay a). rewrite F1 in Hpay by done. destruct (rm_heap s !! a); [done|].
      destruct Ha as [e He]. by rewrite He in Hpay.
Qed.

(** ** Searching for room *)

Lemma first_area_cons size lo a st en l1 l2 :
  ¬ area_fits size lo ((a, (st, en)) :: l1 ++ l2) → first_area size en l1 l2 →
  first_area size lo ((a, (st, en)) :: l1) l2.
Proof.
  intros Hn [Hf Hmin]. split; [by rewrite last_end_cons|]. intros [|x k1] k2 E Hk; [by simplify_eq/=|].
  injection E as <- E. rewrite last_end_cons. by apply Hmin.
Qed.

Lemma no_fit_cons size lo a st en l :
  ¬ area_fits size lo ((a, (st, en)) :: l) → no_fit size en l → no_fit size lo ((a, (st, en)) :: l).
Proof.
  intros Hn Hf [|x k1] k2 E; [by simplify_eq/=|]. injection E as <- E. rewrite last_end_cons. by apply Hf.
Qed.

Lemma find_area_loop_ok s base size post : ∀ n cur sc ec p,
  dseg (rm_heap s) p (cur :: post.*1) 0 → Forall (holds_range (rm_heap s)) ((cur, (sc, ec)) :: post) →
  ordered ec post → 0 ≤ ec ≤ NO_AREA → (length post + 1 < n)%nat →
  (∃ l1 l2, post = l1 ++ l2 ∧ first_area size ec l1 l2 ∧
     find_area_loop n base cur size s =
       (rangemap_add_range base (last_end ec l1) (u64 (last_end ec l1 + size)) ;; mret (last_end ec l1)) s) ∨
  (no_fit size ec post ∧ find_area_loop n base cur size s = Ok (NO_AREA, s)).
Proof.
  induction post as [|[b [st en]] post IH]; intros n cur sc ec p Hs Hf Ho Hec Hn;
    (destruct n as [|n]; [simpl in Hn; lia|]); cbn [find_area_loop];
    destruct Hs as (Hc & (e & He & _ & Hx) & Hs); rewrite (proj2 (Z.eqb_neq cur 0)) by done;
    apply Forall_cons in Hf as ((e' & He' & Hst & Hen) & Hf); cbn [fst snd] in *;
    assert (e' = e) as -> by congruence; mrun (on_ranges_read _ _ _ (load_ok _ _ _ He));
    change (rm_next e) with (next e); rewrite Hx; cbn [fmap list_fmap head fst default from_option id]; rewrite Hen.
  - rewrite u64_small by (unfold is_u64, NO_AREA in *; lia). cbn [Z.eqb].
    destruct (size <=? NO_AREA - ec) eqn:E; zbool.
    + left. exists [], []. split_and!; [done| |done]. split; [unfold area_fits, last_end; simpl; lia|].
      intros k1 k2 Ek Hk. by destruct k1, k2.
    + right. split; [|destruct n as [|n]; [simpl in Hn; lia|done]].
      intros k1 k2 Ek. destruct k1, k2; try done. unfold area_fits, last_end. simpl. lia.
  - destruct Ho as (Hb1 & Hb2 & Ho). assert (b ≠ 0) as Hb0 by apply Hs. rewrite (proj2 (Z.eqb_neq b 0)) by done.
    pose proof Hf as ((eb & Heb & Hstb & Henb) & _)%Forall_cons. cbn [fst snd] in *.
    mrun (on_ranges_read _ _ _ (load_ok _ _ _ Heb)). rewrite Hstb.
    rewrite u64_small by (unfold is_u64, NO_AREA in *; lia).
    destruct (size <=? st - ec) eqn:E; zbool.
    + left. exists [], ((b, (st, en)) :: post). split_and!; [done| |done].
      split; [unfold area_fits, last_end; simpl; lia|]. intros k1 k2 Ek Hk. by destruct k1, k2.
    + assert (∀ k, ¬ area_fits size ec ((b, (st, en)) :: k)) as Hno by (intros k; unfold area_fits; simpl; lia).
      destruct (IH n b st en cur Hs Hf Ho) as [(l1 & l2 & -> & Hff & Er)|[Hnf Er]]; [lia|simpl in Hn; lia| |].
      * left. exists ((b, (st, en)) :: l1), l2. rewrite last_end_cons.
        split_and!; [done|by apply first_area_cons|exact Er].
      * right. split; [by apply no_fit_cons|exact Er].
Qed.

(** Taking an area of [size] from a range map.  The search ends; it takes the lowest gap
    between the ranges that has room, adds exactly the range [r, r + size) there, keeps the
    ranges in order and disjoint, and returns [r].  When no gap has room it returns all ones
    and changes nothing. *)
Theorem rangemap_find_free_area_correct s base bend l size :
  map_at s base bend l → 0 < size < U64_MOD →
  (∃ l1 l2 s', l = l1 ++ l2 ∧ first_area size bend l1 l2 ∧
     let r := last_end bend l1 in
     rangemap_find_free_area base size s = Ok (r, s') ∧
     map_at s' base bend (l1 ++ (rm_brk s, (r, r + size)) :: l2)) ∨
  (no_fit size bend l ∧ rangemap_find_free_area base size s = Ok (NO_AREA, s)).
Proof.
  intros Hm Hsz. destruct (base_range _ _ _ _ Hm) as [bs Hf]. pose proof (map_size _ _ _ _ Hm) as Hlen.
  destruct (find_area_loop_ok s base size l (S (base.size (rm_heap s))) base bs bend 0)
    as [(l1 & l2 & -> & Hff & E)|[Hnf E]]; [apply Hm|done|apply Hm|apply Hm|lia| |by right].
  left. destruct (add_range_ok s base bend l1 l2 size Hm) as (s' & Ea & Hm'); [lia|apply Hff|].
  exists l1, l2, s'. split_and!; [done|done|]. cbv zeta. split; [|done].
  unfold rangemap_find_free_area. mstep. rewrite E. rewrite u64_small; [by mrun Ea|].
  pose proof (m_ordered _ _ _ _ Hm) as [Ho1 Ho2]%ordered_app. pose proof (m_bend _ _ _ _ Hm).
  destruct (ordered_last _ _ Ho1) as [H1 H2]. destruct Hff as [Hfit _]. unfold area_fits in Hfit.
  assert (gap_end l2 ≤ NO_AREA).
  { destruct l2 as [|[b [st en]] l2]; simpl; [lia|]. destruct Ho2 as (? & ? & _). lia. }
  unfold is_u64, NO_AREA in *. lia.
Qed.

(** ** Entries and their removal *)

Lemma find_entry_ok h base addr l2 l1 : ∀ n p,
  dseg h p (l1 ++ l2).*1 0 → Forall (holds_range h) (l1 ++ l2) → base ∉ (l1 ++ l2).*1 →
  (∀ x, x ∈ l1 → x.2.1 ≠ addr) → (∀ x, head l2 = Some x → x.2.1 = addr) → (length l1 < n)%nat →
  find_entry n base (default 0 (head (l1 ++ l2).*1)) addr h = Ok (default 0 (head l2.*1), h).
Proof.
  induction l1 as [|[a [st en]] l1 IH]; intros n p Hs Hf Hb H1 H2 Hn;
    (destruct n as [|n]; [simpl in Hn; lia|]); cbn [find_entry].
  - destruct l2 as [|[b [st en]] l2]; [done|]. cbn [app fmap list_fmap head fst default from_option id] in *.
    destruct Hs as (Hb0 & _). rewrite (proj2 (Z.eqb_neq b 0)) by done.
    apply Forall_cons in Hf as ((e & He & Hst & Hen) & _). cbn [fst snd] in *.
    mrun (load_ok _ _ _ He). specialize (H2 _ eq_refl). cbn [snd fst] in H2. rewrite Hst, H2, Z.eqb_refl.
    rewrite (proj2 (Z.eqb_neq b base)); [done|]. intros ->. apply Hb. left.
  - cbn [app fmap list_fmap head fst default from_option id] in *.
    destruct Hs as (Ha & (e' & He' & _ & Hx) & Hs). rewrite (proj2 (Z.eqb_neq a 0)) by done.
    apply Forall_cons in Hf as ((e & He & Hst & Hen) & Hf). cbn [fst snd] in *.
    assert (e' = e) as -> by congruence. mrun (load_ok _ _ _ He).
    assert (st ≠ addr) by (apply (H1 (a, (st, en))); left).
    rewrite Hst, (proj2 (Z.eqb_neq st addr)) by done. cbn [andb]. change (rm_next e) with (next e). rewrite Hx.
    apply (IH n a Hs Hf); [|intros x Hx'; apply H1; by right|done|simpl in Hn; lia].
    intros ?. apply Hb. by right.
Qed.

Lemma alter_nz_comm (f g : rangemap_t → rangemap_t) a b h :
  a ≠ b → alter_nz f a (alter_nz g b h) = alter_nz g b (alter_nz f a h).
Proof.
  intros Hab. unfold alter_nz. destruct (a =? 0), (b =? 0); try done. by rewrite alter_alter_ne.
Qed.

(** Both orders of the two assignments do the same. *)
Lemma rangemap_remove_ok h (k1 : list Z) (a : Z) (k2 : list Z) :
  NoDup (k1 ++ a :: k2) → dseg h 0 (k1 ++ a :: k2) 0 →
  rangemap_remove a h = Ok (tt, delete a (unlink k1 k2 h)).
Proof.
  intros Hnd Hd. destruct (dseg_mid _ _ _ _ _ _ Hd) as (e & He & Hp & Hn).
  destruct (neighbours_ok _ _ _ _ Hnd Hd) as (Hl & Hh & Hla & Hha & Hne).
  unfold rangemap_remove. mrun (load_ok _ _ _ He). rewrite Hp, Hn.
  mrun (link_ok (set_prev (default 0 (last k1))) _ _ Hh).
  erewrite bind_ok; [|apply load_ok; by rewrite alter_nz_ne]. cbv beta. rewrite Hp, Hn.
  erewrite bind_ok; [|apply (link_ok (set_next (default 0 (head k2))));
    destruct Hl; [by left|right; by apply alter_nz_some]].
  cbv beta. unfold modify, unlink. do 3 f_equal. destruct Hne as [E|]; [|by apply alter_nz_comm].
  rewrite E. unfold alter_nz at 2 3. done.
Qed.

Lemma starts_differ lo l1 a st en l2 x :
  ordered lo (l1 ++ (a, (st, en)) :: l2) → x ∈ l1 → x.2.1 ≠ st.
Proof.
  intros [Ho1 Ho2]%ordered_app Hx. destruct (ordered_bounds _ _ _ Ho1 Hx) as (? & ? & _).
  destruct Ho2 as (? & _). lia.
Qed.

(** The search, in a map that has a range with this start and in one that has none. *)
Lemma find_entry_run s base bend l1 l2 addr :
  map_at s base bend (l1 ++ l2) → (∀ x, x ∈ l1 → x.2.1 ≠ addr) →
  (∀ x, head l2 = Some x → x.2.1 = addr) →
  on_ranges (find_entry (S (size (rm_heap s))) base base addr) s = Ok (default 0 (head l2.*1), s).
Proof.
  intros Hm H1 H2. pose proof (map_size _ _ _ _ Hm) as Hlen. destruct Hm as [Hseg Hnd Hb _ Hents _ _].
  apply on_ranges_read. destruct Hseg as (Hb0 & (e & He & _ & Hx) & Hs). cbn [find_entry].
  rewrite (proj2 (Z.eqb_neq base 0)) by done. mrun (load_ok _ _ _ He). rewrite Z.eqb_refl.
  rewrite andb_false_r. change (rm_next e) with (next e). rewrite Hx.
  apply (find_entry_ok _ _ _ _ _ _ base); [done|done| |done|done|].
  - by apply NoDup_cons in Hnd as [? _].
  - rewrite length_app in Hlen. lia.
Qed.

Lemma map_at_remove s base bend l1 a st en l2 :
  map_at s base bend (l1 ++ (a, (st, en)) :: l2) →
  ∃ s', on_ranges (rangemap_remove a) s = Ok (tt, s') ∧ map_at s' base bend (l1 ++ l2).
Proof.
  intros [Hseg Hnd Hb Hbe Hents Hord [Hb0 Hbrk]].
  rewrite fmap_app, fmap_cons in Hseg, Hnd. cbn [fst] in Hseg, Hnd.
  rewrite app_comm_cons in Hseg, Hnd. set (k1 := base :: l1.*1) in *.
  destruct (unlink_ok _ _ _ _ Hnd Hseg) as (Hseg' & Hpay & Hfr).
  set (h := unlink k1 l2.*1 (rm_heap s)) in *.
  assert (a ∉ k1 ++ l2.*1) as Han.
  { clear -Hnd. rewrite NoDup_app, NoDup_cons in Hnd. set_solver. }
  assert (∀ b, b ≠ a → delete a h !! b = h !! b) as F by (intros; by apply lookup_delete_ne).
  assert (∀ x, x.1 ∈ k1 ++ l2.*1 → holds_range (rm_heap s) x → holds_range (delete a h) x) as Hkeep.
  { intros x Hx Hh. apply (holds_frame h); [apply F; intros E; apply Han; by rewrite <-E|]. by eapply holds_payload. }
  exists (s <| rm_heap := delete a h |>). split.
  { apply on_ranges_ok. by apply rangemap_remove_ok. }
  split; cbn [rm_heap rm_brk set_field].
  - rewrite fmap_app, app_comm_cons. fold k1. eapply dseg_frame; [|exact Hseg']. intros b Hb'. apply F. by intros ->.
  - rewrite fmap_app, app_comm_cons. fold k1. clear -Hnd. rewrite NoDup_app, NoDup_cons in Hnd.
    rewrite NoDup_app. set_solver.
  - destruct Hb as (e & He & Hen). destruct (Hkeep (base, (rm_start e, bend))) as (e' & ? & _ & ?).
    + left.
    + by exists e.
    + by exists e'.
  - done.
  - apply Forall_app in Hents as [E1 E2]. apply Forall_cons in E2 as [_ E2]. rewrite Forall_app, !Forall_forall in *.
    split; intros x Hx; apply Hkeep; auto; apply list_elem_of_fmap_2 with (f := fst) in Hx; set_solver.
  - apply ordered_app in Hord as [Ho1 (? & ? & Ho2)]. apply ordered_app. split; [done|].
    destruct l2 as [|[b [st' en']] l2]; [done|]. destruct Ho2 as (? & ? & ?). split_and!; [lia..|done].
  - split; [done|]. intros b Hb'. apply Hbrk. destruct (decide (b = a)) as [->|Hne].
    + by rewrite lookup_delete_eq in Hb'; destruct Hb'.
    + rewrite F in Hb' by done. specialize (Hpay b). destruct (rm_heap s !! b); [done|].
      destruct Hb' as [z Hz]. by rewrite Hz in Hpay.
Qed.

(** Looking up and freeing a range by its start.  A range of the map is reported present
    with its size, and freeing it removes exactly its entry; any other start (the base's
    included) is reported absent with size 0, and freeing it changes nothing.  In particular
    freeing what [rangemap_find_free_area] returned restores the ranges. *)
Theorem rangemap_free_correct s base bend l1 l2 addr :
  map_at s base bend (l1 ++ l2) → (∀ x, x ∈ l1 → x.2.1 ≠ addr) →
  match l2 with
  | [] =>
      rangemap_entry_present base addr s = Ok (0, s) ∧
      rangemap_get_entry_size base addr s = Ok (0, s) ∧
      rangemap_mark_free base addr s = Ok (tt, s)
  | x :: l2' => x.2.1 = addr →
      rangemap_entry_present base addr s = Ok (1, s) ∧
      rangemap_get_entry_size base addr s = Ok (x.2.2 - addr, s) ∧
      ∃ s', rangemap_mark_free base addr s = Ok (tt, s') ∧ map_at s' base bend (l1 ++ l2')
  end.
Proof.
  intros Hm H1. unfold rangemap_entry_present, rangemap_get_entry_size, rangemap_mark_free.
  destruct l2 as [|[a [st en]] l2].
  - pose proof (find_entry_run s base bend l1 [] addr Hm H1 ltac:(done)) as E.
    split_and!; mstep; mrun E; done.
  - cbn [fst snd]. intros ->. pose proof (find_entry_run s base bend l1 _ addr Hm H1 ltac:(by intros x [= <-])) as E.
    pose proof Hm as [Hseg _ _ _ Hents Hord _]. apply Forall_app in Hents as [_ Hents].
    apply Forall_cons in Hents as ((e & He & Hst & Hen) & _). cbn [fst snd] in *.
    assert (a ≠ 0) as Ha.
    { apply dseg_nonzero in Hseg. rewrite fmap_app, fmap_cons in Hseg. cbn [fst] in Hseg. set_solver. }
    apply ordered_app in Hord as [Ho1 (Hlo & Hhi & _)]. pose proof (ordered_last _ _ Ho1). pose proof (m_bend _ _ _ _ Hm).
    split_and!; mstep; mrun E; cbn [fmap list_fmap head fst default from_option id];
      rewrite (proj2 (Z.eqb_neq a 0)) by done; cbn [negb]; [done| |by eapply map_at_remove].
    mrun (on_ranges_read _ _ _ (load_ok _ _ _ He)). rewrite Hst, Hen. rewrite u64_small; [done|].
    unfold is_u64, NO_AREA in *. lia.
Qed.

(** *** A map with two ranges *)
Definition demo_ranges : ranges :=
  mk_ranges {[10 := mk_range 0 4096 20 0; 20 := mk_range 8192 12288 30 10; 30 := mk_range 12288 16384 0 20]} 100.
Definition demo_entries : list entry := [(20, (8192, 12288)); (30, (12288, 16384))].

Lemma demo_map : map_at demo_ranges 10 4096 demo_entries.
Proof.
  split.
  - simpl. split_and!; try lia; try done; eexists; (split; [vm_compute; reflexivity|done]).
  - vm_compute. repeat constructor; set_solver.
  - eexists. split; [vm_compute; reflexivity|done].
  - unfold NO_AREA. lia.
  - repeat constructor; eexists; (split; [vm_compute; reflexivity|done]).
  - unfold demo_entries, NO_AREA. simpl. split_and!; lia || done.
  - split; [done|]. intros a [e He]. destruct (decide (a < 100)) as [|Hn]; [done|].
    exfalso. unfold demo_ranges in He. cbn [rm_heap] in He.
    rewrite !lookup_insert_ne, lookup_singleton_ne in He by lia. done.
Qed.

Lemma rangemap_find_free_area_correct_witness :
  (∃ s', rangemap_find_free_area 10 4096 demo_ranges = Ok (4096, s') ∧
     map_at s' 10 4096 [(100, (4096, 8192)); (20, (8192, 12288)); (30, (12288, 16384))]) ∧
  (∃ s', rangemap_find_free_area 10 8192 demo_ranges = Ok (16384, s')).
Proof.
  split.
  - destruct (rangemap_find_free_area_correct demo_ranges 10 4096 demo_entries 4096 demo_map ltac:(lia))
      as [(l1 & l2 & s' & El & Hff & E & Hm)|[_ E]]; [|vm_compute in E; discriminate].
    exists s'. assert (l1 = []) as ->.
    { destruct l1 as [|x l1]; [done|]. destruct Hff as [_ Hmin]. exfalso.
      apply (Hmin [] (x :: l1) eq_refl ltac:(done)). injection El as <- _. unfold area_fits, last_end. simpl. lia. }
    simpl in El. subst l2. split; [exact E|exact Hm].
  - destruct (rangemap_find_free_area_correct demo_ranges 10 4096 demo_entries 8192 demo_map ltac:(lia))
      as [(l1 & l2 & s' & El & Hff & E & Hm)|[_ E]]; [|vm_compute in E; discriminate].
    exists s'. rewrite E. do 2 f_equal. clear -E. set (r := last_end 4096 l1) in *. clearbody r.
    vm_compute in E. congruence.
Defined.

Lemma rangemap_free_correct_witness :
  (∃ s', rangemap_mark_free 10 12288 demo_ranges = Ok (tt, s') ∧ map_at s' 10 4096 [(20, (8192, 12288))]) ∧
  rangemap_mark_free 10 0 demo_ranges = Ok (tt, demo_ranges).
Proof.
  split.
  - destruct (rangemap_free_correct demo_ranges 10 4096 [(20, (8192, 12288))] [(30, (12288, 16384))] 12288 demo_map)
      as (_ & _ & H); [|done|exact H].
    intros x ->%list_elem_of_singleton. done.
  - apply (rangemap_free_correct demo_ranges 10 4096 demo_entries [] 0 demo_map).
    intros x [->|[->|[]%elem_of_nil]%elem_of_cons]%elem_of_cons; done.
Defined.
