(* ===== verification/Fd.v ===== *)
(** * Open files (fs/fd.c, the calls of fs/vfs/vfs.c on them, proc/safe_userspace.c)

    A process has a table of pointers to its open files; a file descriptor is
    an index.  The table is an array of the heap ([arrays]), an open file a
    structure ([fdheap]); both are gone once freed.  [Code] gives the functions
    behind the function pointers of the VFS nodes; [mapped] stands for
    [range_mapped] of mm/vmm.c and [user] for the bytes of the caller's memory. *)

From S2P Require Import Prelude Locks CString Blocks Vfs Vmm DList Kernel Stack Proc Sched SleepQueue.

Definition EPERM : Z := 1.
Definition ENOENT : Z := 2.
Definition EIO : Z := 5.
Definition EBADF : Z := 9.
Definition EEXIST : Z := 17.
Definition ENOSYS : Z := 78.
Definition O_CREAT : Z := 16.
Definition SEEK_CUR : Z := 1.
Definition SEEK_END : Z := 2.
Definition SEEK_SET : Z := 3.
Definition FD_COOKIE_VAL : Z := 1229801703532086340.

Definition fd_acquire : kM unit :=
  s ← get;
  match spinlock_lock (fd_lock s) with
  | Ok l => modify (λ s, s <| fd_lock := l |>)
  | Crash c => crashM c
  end.
Definition fd_release : kM unit := modify (λ s, s <| fd_lock := spinlock_unlock (fd_lock s) |>).

Definition fd_at (a : Z) : kM fd_entry_t := s ← get; of_opt (fdheap s !! a).
Definition put_fd (a : Z) (e : fd_entry_t) : kM unit :=
  modify (λ s, s <| fdheap := <[a := e]> (fdheap s) |>).
Definition upd_fd (a : Z) (f : fd_entry_t → fd_entry_t) : kM unit := e ← fd_at a; put_fd a (f e).
Definition table_at (a : Z) : kM (list Z) := s ← get; of_opt (arrays s !! a).
(** [table[i]] and [table[i] = v] *)
Definition read_slot (a i : Z) : kM Z := t ← table_at a; of_opt (idx t i).
Definition write_slot (a i v : Z) : kM unit :=
  t ← table_at a; _ ← of_opt (idx t i); modify (λ s, s <| arrays := <[a := upd t i v]> (arrays s) |>).
Definition print (msg : string) : kM unit := modify (λ s, s <| kcpu := say msg (kcpu s) |>).

(** [krealloc] of a table: a new array with the old entries, the old array is freed. *)
Definition krealloc_table (a n : Z) : kM Z :=
  new ← kalloc;
  t ← table_at a;
  modify (λ s, s <| arrays := <[new := t ++ replicate (Z.to_nat n - length t) 0]> (delete a (arrays s)) |>) ;;
  mret new.

(** [kfree] of an entry; of a null pointer it fails the [is_mapped] assertion. *)
Definition kfree_fd (a : Z) : kM unit :=
  assertM (negb (a =? 0)) ;; fd_at a ;; modify (λ s, s <| fdheap := delete a (fdheap s) |>).

(** The process under a pid. *)
Definition process_of (pid : Z) : kM Z :=
  sched_acquire ;; p ← process_slot pid; sched_release ;; mret p.

(** [for (i = 0; i < size; i++) if (!table[i]) goto fnd;] from the index [i]. *)
Fixpoint find_fd (n : nat) (i : Z) (table : Z) : kM (option Z) :=
  match n with
  | O => mret None
  | S n' => v ← read_slot table i; if v =? 0 then mret (Some i) else find_fd n' (i + 1) table
  end.

Definition set_cookies (e : fd_entry_t) : fd_entry_t :=
  e <| fd_cookie1 := FD_COOKIE_VAL |> <| fd_cookie2 := FD_COOKIE_VAL |> <| fd_cookie3 := FD_COOKIE_VAL |>
    <| fd_cookie4 := FD_COOKIE_VAL |>.
Definition cookies_ok (e : fd_entry_t) : bool :=
  (fd_cookie1 e =? FD_COOKIE_VAL) && (fd_cookie2 e =? FD_COOKIE_VAL) && (fd_cookie3 e =? FD_COOKIE_VAL)
  && (fd_cookie4 e =? FD_COOKIE_VAL).

Definition fd_new (node mode pid : Z) : kM Z :=
  assertM (negb (node =? 0)) ;;
  sched_acquire ;;
  s ← get;
  (if zlen (processes s) <=? u64 pid then print "ERRRRRRRRRRRRRROR in fd_new: pid bad: %d" else mret tt) ;;
  current_process ← process_slot pid;
  sched_release ;;
  fd_acquire ;;
  p ← process_at current_process;
  new_entry ← kalloc;
  put_fd new_entry (mk_fd 0 node 0 0 0 mode 0) ;;
  found ← find_fd (Z.to_nat (fd_table_size p)) 0 (fd_table p);
  '(i, table) ← (match found with
    | Some i => mret (i, fd_table p)
    | None =>
        upd_process current_process (λ p, p <| fd_table_size := s32 (fd_table_size p + 10) |>) ;;
        table ← krealloc_table (fd_table p) (s32 (fd_table_size p + 10));
        mret (fd_table_size p, table)
    end);
  upd_fd new_entry set_cookies ;;
  write_slot table i new_entry ;;
  a ← read_slot table i;
  e ← fd_at a;
  assertM (negb (fd_node e =? 0)) ;;
  assertM (cookies_ok e) ;;
  fd_release ;;
  mret i.

Definition fd_remove (fd : Z) : kM unit :=
  pid ← get_cur_pid;
  current_process ← process_of pid;
  fd_acquire ;;
  p ← process_at current_process;
  (if fd <? s32 (fd_table_size p - 1) then
     e ← read_slot (fd_table p) fd; kfree_fd e ;; write_slot (fd_table p) fd 0
   else mret tt) ;;
  fd_release.

Definition fd_remove_pid (fd pid : Z) : kM unit :=
  current_process ← process_of pid;
  fd_acquire ;;
  p ← process_at current_process;
  (if fd <? s32 (fd_table_size p - 1) then
     e ← read_slot (fd_table p) fd;
     (if negb (e =? 0) then kfree_fd e else mret tt) ;;
     write_slot (fd_table p) fd 0
   else mret tt) ;;
  fd_release.

Definition fd_lookup_pid (fd pid : Z) : kM Z :=
  current_process ← process_of pid;
  fd_acquire ;;
  p ← process_at current_process;
  ret ← (if (fd <? s32 (fd_table_size p - 1)) && (0 <=? fd) then read_slot (fd_table p) fd else mret 0);
  fd_release ;;
  mret ret.

(** [fd_lookup] is the same code for the current process. *)
Definition fd_lookup (fd : Z) : kM Z := pid ← get_cur_pid; fd_lookup_pid fd pid.

(** The body of the loop of [clone_fds]. *)
Definition clone_fd (old new i : Z) : kM unit :=
  po ← process_at old;
  a ← read_slot (fd_table po) i;
  if negb (a =? 0) then
    new_fd ← kalloc;
    e ← fd_at a;
    put_fd new_fd (mk_fd 0 (fd_node e) 0 (fd_seek_pos e) 0 (fd_mode e) 0) ;;
    pn ← process_at new;
    found ← find_fd (Z.to_nat (fd_table_size pn)) 0 (fd_table pn);
    '(i, table) ← (match found with
      | Some i => mret (i, fd_table pn)
      | None =>
          upd_process new (λ p, p <| fd_table_size := s32 (fd_table_size p + 10) |>) ;;
          table ← krealloc_table (fd_table pn) (s32 (fd_table_size pn + 10));
          upd_process new (λ p, p <| fd_table := table |>) ;;
          mret (fd_table_size pn, table)
      end);
    write_slot table i new_fd
  else mret tt.

Definition clone_fds (old_pid new_pid : Z) : kM unit :=
  sched_acquire ;;
  s ← get;
  (if (zlen (processes s) <=? u64 old_pid) || (zlen (processes s) <=? u64 new_pid)
   then print "BAD ERROR REEEEEEEEEEEEEEEEEEEEEE (go look in clone_fds) old_pid: %ld, new_pid: %ld" else mret tt) ;;
  old ← process_slot old_pid;
  new ← process_slot new_pid;
  assertM (negb (old =? 0)) ;;
  assertM (negb (new =? 0)) ;;
  sched_release ;;
  fd_acquire ;;
  po ← process_at old;
  for_loop (Z.to_nat (fd_table_size po)) 0 (clone_fd old new) ;;
  fd_release.

Definition clear_fds (pid : Z) : kM unit :=
  sched_acquire ;;
  process ← process_slot pid;
  assertM (negb (process =? 0)) ;;
  sched_release ;;
  fd_acquire ;;
  p ← process_at process;
  for_loop (Z.to_nat (fd_table_size p)) 0 (λ i,
    a ← read_slot (fd_table p) i; if negb (a =? 0) then kfree_fd a else mret tt) ;;
  table_at (fd_table p) ;;
  modify (λ s, s <| arrays := delete (fd_table p) (arrays s) |>) ;;
  fd_release.

(** ** proc/safe_userspace.c *)

Definition USER_END : Z := 140737488355327.

Section calls.
Context (mapped : Z → Z → bool) (user : Z → Z).

(** Whether the ring of the current thread forbids an address. *)
Definition ring_forbids (a : Z) : kM bool :=
  c ← get_cur_thread; t ← thread_at c; l ← gets locals;
  mret ((USER_END <? a) && (ring t =? 3) && (ignore_ring l =? 0)).

(** The loop, from index [i], with the bytes found so far. *)
Fixpoint copy_loop (n : nat) (a i : Z) (found : list Z) : kM (option (list Z)) :=
  match n with
  | O => print "failed to find null in string" ;; mret None
  | S n' =>
      forbidden ← ring_forbids (u64 (a + 1 + i));
      if negb (mapped (u64 (a + i)) 1) || forbidden then
        print "mapping error" ;;
        (if negb (mapped (u64 (a + i)) 1) then print "range_mapped check failed (addr: %lx)" else mret tt) ;;
        (if forbidden then print "userspace check failed (current ring: %u) address: %lx" else mret tt) ;;
        mret None
      else if user (u64 (a + i)) =? 0 then mret (Some found)
      else copy_loop n' a (i + 1) (found ++ [user (u64 (a + i))])
  end.

(** The copy of the string at [userspace_string], without its terminator; [None] is null. *)
Definition check_and_copy_string (userspace_string : Z) : kM (option (list Z)) :=
  copy_loop 4096 userspace_string 0 [].

(** ** The operations of a node *)

(** What the function pointers do.  A null pointer, or one that is not a function of the kind,
    is a [Fault]. *)
Class Code := {
  call_open : Z → list Z → Z → kM Z;
  call_post_open : Z → Z → Z → kM Z;
  call_close : Z → Z → kM Z;
  call_read : Z → Z → Z → Z → kM Z;
  call_write : Z → Z → Z → Z → kM Z;
  call_seek : Z → Z → Z → Z → kM Z;
  call_file_exists : Z → Z → list Z → kM Z;
  call_create : Z → Z → list Z → Z → kM Z
}.
Context `{Code} (junk : Z → list Z).

Definition on_fs {A} (m : fM A) : kM A := zoom fs (λ f s, s <| fs := f |>) m.

Definition desc_at (a : Z) : kM vfs_fs_descriptor_t := s ← get; of_opt (descs (fs s) !! a).

(** Clear the slash at the end of a path in a buffer, and read the string. *)
Definition clear_last (b : list Z) : kM (list Z) :=
  '(len, _) ← on_buf (strlen 0) b;
  '(_, b) ← on_buf (st (len - 1) 0) b;
  of_opt (cstring b).

(** The node, or null and the error. *)
Definition vfs_open (name : list Z) (mode : Z) : kM (Z * Z) :=
  node ← on_fs (get_node_from_path name);
  if negb (node =? 0) then
    if negb (Z.land mode O_CREAT =? 0) then mret (0, EEXIST) else mret (node, 0)
  else
    mountpoint_node ← on_fs (get_mountpoint_of_path junk name);
    if mountpoint_node =? 0 then mret (0, ENOENT)
    else
      b ← on_fs (get_mountpoint_relative_path junk mountpoint_node name);
      relative_path ← clear_last b;
      m ← on_fs (node_at mountpoint_node);
      d ← desc_at (filesystem_descriptor m);
      file_exists ← call_file_exists (d_file_exists d) mountpoint_node relative_path;
      if (file_exists =? 0) && (Z.land mode O_CREAT =? 0) then mret (0, ENOENT)
      else
        '(go, err) ← (if negb (Z.land mode O_CREAT =? 0) then
            m ← on_fs (node_at mountpoint_node);
            if create_handle m =? 0 then mret (false, EPERM)
            else
              create_err ← call_create (create_handle m) mountpoint_node relative_path mode;
              if negb (create_err =? 0) then mret (false, u64 (- create_err)) else mret (true, 0)
          else mret (true, 0));
        if negb go then mret (0, err)
        else
          m ← on_fs (node_at mountpoint_node);
          d ← desc_at (filesystem_descriptor m);
          '(_, name) ← on_fs (create_missing_nodes_from_path junk name (d_fs_ops d) mountpoint_node);
          node ← on_fs (get_node_from_path name);
          assertM (negb (node =? 0)) ;;
          e ← on_fs (node_at node);
          _ ← call_open (o_open (n_ops e)) name mode;
          mret (node, 0).

(** The operations of the node of an open file. *)
Definition ops_of (fd : Z) : kM vfs_ops_t :=
  a ← fd_lookup fd;
  assertM (negb (a =? 0)) ;;
  e ← fd_at a;
  n ← on_fs (node_at (fd_node e));
  mret (n_ops n).

Definition vfs_read (fd buf count : Z) : kM Z := o ← ops_of fd; call_read (o_read o) fd buf count.
Definition vfs_write (fd buf count : Z) : kM Z := o ← ops_of fd; call_write (o_write o) fd buf count.
Definition vfs_close (fd : Z) : kM Z := o ← ops_of fd; call_close (o_close o) fd.
Definition vfs_seek (fd offset whence : Z) : kM Z := o ← ops_of fd; call_seek (o_seek o) fd offset whence.

(** ** System calls on files *)

(** [if (ring == 3 && !ignore_ring) { ignore_ring = 1; set_ignore = 1; }] *)
Definition enter_ignore : kM bool :=
  c ← get_cur_thread; t ← thread_at c; l ← gets locals;
  if (ring t =? 3) && (ignore_ring l =? 0) then upd_locals (λ l, l <| ignore_ring := 1 |>) ;; mret true
  else mret false.
(** [if (set_ignore) ignore_ring = 0;] *)
Definition leave_ignore (set_ignore : bool) : kM unit :=
  if set_ignore then upd_locals (λ l, l <| ignore_ring := 0 |>) else mret tt.

Definition fd_open (filepath mode : Z) : kM Z :=
  kernel_string ← check_and_copy_string filepath;
  match kernel_string with
  | None => mret (- EFAULT)
  | Some name =>
      set_ignore ← enter_ignore;
      '(node, err) ← vfs_open name mode;
      if node =? 0 then leave_ignore set_ignore ;; mret (s32 (- err))
      else
        pid ← get_cur_pid;
        new_fd ← fd_new node mode pid;
        n ← on_fs (node_at node);
        (if negb (o_post_open (n_ops n) =? 0) then call_post_open (o_post_open (n_ops n)) new_fd mode
         else mret 0) ;;
        leave_ignore set_ignore ;;
        mret new_fd
  end.

Definition open_remote_fd (name : list Z) (mode pid : Z) : kM Z :=
  '(node, err) ← vfs_open name mode;
  if node =? 0 then mret err else fd_new node mode pid.

Definition fd_close (fd : Z) : kM Z :=
  node ← fd_lookup fd;
  if node =? 0 then mret (- EBADF)
  else ret ← vfs_close fd; fd_remove fd ;; mret ret.

Definition fd_read (fd buf count : Z) : kM Z :=
  set_ignore ← enter_ignore;
  node ← fd_lookup fd;
  if node =? 0 then leave_ignore set_ignore ;; mret (- EBADF)
  else if negb (mapped buf count) then leave_ignore set_ignore ;; mret (- EBADF)
  else read ← vfs_read fd buf count; leave_ignore set_ignore ;; mret read.

Definition fd_write (fd buf count : Z) : kM Z :=
  set_ignore ← enter_ignore;
  node ← fd_lookup fd;
  if node =? 0 then leave_ignore set_ignore ;; mret (- EBADF)
  else if negb (mapped buf count) then leave_ignore set_ignore ;; mret (- EFAULT)
  else ret ← vfs_write fd buf count; leave_ignore set_ignore ;; mret ret.

Definition fd_seek (fd offset whence : Z) : kM Z :=
  set_ignore ← enter_ignore;
  node ← fd_lookup fd;
  if node =? 0 then leave_ignore set_ignore ;; mret (u64 (- EBADF))
  else
    ok ← (if whence =? SEEK_SET then upd_fd node (λ e, e <| fd_seek_pos := offset |>) ;; mret true
          else if whence =? SEEK_CUR then upd_fd node (λ e, e <| fd_seek_pos := u64 (fd_seek_pos e + offset) |>) ;; mret true
          else mret (whence =? SEEK_END));
    if negb ok then leave_ignore set_ignore ;; mret (u64 (- EINVAL))
    else
      ret ← vfs_seek fd offset whence;
      leave_ignore set_ignore ;;
      if ret =? 0 then e ← fd_at node; mret (fd_seek_pos e) else mret ret.
End calls.
