(* ===== verification/FdTheorems.v ===== *)
(** * Correctness of the descriptor tables

    [table_ok] says where the table of a process is and what it holds.  The
    operations are described by their effect on that list of entries; the
    system calls restore the processor's [ignore_ring] flag. *)

From S2P Require Import Prelude Locks CString Blocks Vfs Vmm DList Kernel Stack Proc Sched SleepQueue Fd.

Implicit Types s : kstate.

Record table_ok s (pid cur : Z) (p : process_t) (tab : list Z) : Prop := {
  tb_slot : idx (processes s) pid = Some cur;
  tb_proc : pheap s !! cur = Some p;
  tb_array : arrays s !! fd_table p = Some tab;
  tb_size : 0 < fd_table_size p ≤ zlen tab;
  tb_int : fd_table_size p + 10 < 2147483648;
  tb_procs : zlen (processes s) < U64_MOD
}.

Lemma s32_small z : -2147483648 ≤ z < 2147483648 → s32 z = z.
Proof.
  intros Hz. unfold s32. destruct (_ <? _) eqn:E; zbool; dlia.
Qed.

Lemma sched_release_acquired s :
  unlocked (sched_lock s) → sched_release (s <| sched_lock := Z.lor (sched_lock s) 1 |>) = Ok (tt, s).
Proof. intros Hl. unfold sched_release, modify. do 2 f_equal. destruct s. cbn in *. by rewrite lock_unlock. Qed.

Lemma process_of_ok s pid cur :
  unlocked (sched_lock s) → idx (processes s) pid = Some cur → process_of pid s = Ok (cur, s).
Proof.
  intros Hl Hi. unfold process_of. mrun (sched_acquire_ok s Hl).
  erewrite bind_ok; [|unfold process_slot; mstep; apply of_opt_ok; exact Hi]. cbv beta.
  by mrun (sched_release_acquired s Hl).
Qed.

Lemma fd_acquire_ok s :
  unlocked (fd_lock s) → fd_acquire s = Ok (tt, s <| fd_lock := Z.lor (fd_lock s) 1 |>).
Proof. intros Hl. unfold fd_acquire. mstep. by rewrite (spinlock_lock_free _ Hl). Qed.

Lemma fd_release_acquired s :
  unlocked (fd_lock s) → fd_release (s <| fd_lock := Z.lor (fd_lock s) 1 |>) = Ok (tt, s).
Proof. intros Hl. unfold fd_release, modify. do 2 f_equal. destruct s. cbn in *. by rewrite lock_unlock. Qed.

Lemma read_slot_ok s a t i v : arrays s !! a = Some t → idx t i = Some v → read_slot a i s = Ok (v, s).
Proof.
  intros Ha Hi. unfold read_slot, table_at. erewrite bind_ok; [|mstep; apply of_opt_ok; exact Ha]. cbv beta.
  by apply of_opt_ok.
Qed.

(** What a lookup gives. *)
Definition visible (p : process_t) (tab : list Z) (fd : Z) : Z :=
  if (fd <? fd_table_size p - 1) && (0 <=? fd) then default 0 (idx tab fd) else 0.

Lemma fd_lookup_ok s pid cur p tab fd :
  table_ok s pid cur p tab → unlocked (sched_lock s) → unlocked (fd_lock s) →
  fd_lookup_pid fd pid s = Ok (visible p tab fd, s).
Proof.
  intros [H1 H2 H3 H4 H5 H6] Hl Hf. unfold fd_lookup_pid, visible. mrun (process_of_ok s pid cur Hl H1).
  mrun (fd_acquire_ok s Hf). set (s1 := s <| fd_lock := Z.lor (fd_lock s) 1 |>).
  erewrite bind_ok; [|apply process_at_ok; exact H2]. cbv beta. rewrite s32_small by lia.
  destruct ((fd <? fd_table_size p - 1) && (0 <=? fd)) eqn:E.
  - zbool. destruct (idx_lt tab fd ltac:(lia)) as [v Hv].
    assert (read_slot (fd_table p) fd s1 = Ok (v, s1)) as Er by (by eapply read_slot_ok).
    mrun Er. rewrite Hv. by mrun (fd_release_acquired s Hf).
  - mstep. by mrun (fd_release_acquired s Hf).
Qed.

Lemma find_fd_ok s a t : ∀ n i,
  arrays s !! a = Some t → 0 ≤ i → i + Z.of_nat n ≤ zlen t →
  ∃ r, find_fd n i a s = Ok (r, s) ∧
    match r with
    | Some k => i ≤ k < i + Z.of_nat n ∧ idx t k = Some 0 ∧ ∀ j, i ≤ j < k → idx t j ≠ Some 0
    | None => ∀ j, i ≤ j < i + Z.of_nat n → idx t j ≠ Some 0
    end.
Proof.
  induction n as [|n IH]; intros i Ha Hi Hn; cbn [find_fd]; [exists None; split; [done|lia]|].
  destruct (idx_lt t i ltac:(lia)) as [v Hv]. mrun (read_slot_ok _ _ _ _ _ Ha Hv).
  destruct (v =? 0) eqn:E; zbool.
  - subst v. exists (Some i). split_and!; [done|lia|lia|done|lia].
  - destruct (IH (i + 1) Ha) as (r & Er & Hr); [lia|lia|]. exists r. split; [done|]. destruct r as [k|].
    + destruct Hr as (? & ? & Hmin). split_and!; [lia|lia|done|]. intros j Hj.
      destruct (decide (j = i)) as [->|]; [congruence|]. apply Hmin. lia.
    + intros j Hj. destruct (decide (j = i)) as [->|]; [congruence|]. apply Hr. lia.
Qed.

Lemma fd_at_ok s a e : fdheap s !! a = Some e → fd_at a s = Ok (e, s).
Proof. intros He. unfold fd_at. mstep. by apply of_opt_ok. Qed.

Lemma write_slot_ok s a t i v w :
  arrays s !! a = Some t → idx t i = Some w →
  write_slot a i v s = Ok (tt, s <| arrays := <[a := upd t i v]> (arrays s) |>).
Proof.
  intros Ha Hi. unfold write_slot, table_at. erewrite bind_ok; [|mstep; apply of_opt_ok; exact Ha]. cbv beta.
  by mrun (of_opt_ok _ _ s Hi).
Qed.

Lemma set_cookies_ok e : cookies_ok (set_cookies e) = true.
Proof. reflexivity. Qed.

(** The entry is finished, stored and checked. *)
Lemma fd_store_ok {A} s new table i t w e (k : kM A) :
  fdheap s !! new = Some e → fd_node e ≠ 0 → arrays s !! table = Some t → idx t i = Some w →
  (upd_fd new set_cookies ;;
   write_slot table i new ;;
   a ← read_slot table i;
   e ← fd_at a;
   assertM (negb (fd_node e =? 0)) ;;
   assertM (cookies_ok e) ;;
   k) s = k (s <| fdheap := <[new := set_cookies e]> (fdheap s) |> <| arrays := <[table := upd t i new]> (arrays s) |>).
Proof.
  intros He Hn Ha Hi. pose proof (idx_Some _ _ _ Hi) as [Hr _].
  assert (upd_fd new set_cookies s = Ok (tt, s <| fdheap := <[new := set_cookies e]> (fdheap s) |>)) as E1.
  { unfold upd_fd. by mrun (fd_at_ok _ _ _ He). }
  mrun E1. set (s1 := s <| fdheap := _ |>).
  erewrite bind_ok; [|eapply write_slot_ok; [exact Ha|exact Hi]]. cbv beta.
  erewrite bind_ok; [|eapply read_slot_ok; [apply lookup_insert_eq|by apply idx_upd_eq]]. cbv beta.
  erewrite bind_ok; [|apply fd_at_ok, lookup_insert_eq]. cbv beta.
  change (fd_node (set_cookies e)) with (fd_node e). rewrite (proj2 (Z.eqb_neq _ _) Hn). cbn [negb]. mstep.
  rewrite set_cookies_ok. mstep. reflexivity.
Qed.

(** The entry [fd_new] makes. *)
Definition new_fd (node mode : Z) : fd_entry_t := set_cookies (mk_fd 0 node 0 0 0 mode 0).

(** Up to the search, [fd_new] takes the locks and allocates the entry. *)
Definition fd_started s (node mode : Z) : kstate :=
  s <| fd_lock := Z.lor (fd_lock s) 1 |> <| kbrk := kbrk s + 65536 |>
    <| fdheap := <[kbrk s := mk_fd 0 node 0 0 0 mode 0]> (fdheap s) |>.

Lemma fd_new_started s pid cur p tab node mode :
  table_ok s pid cur p tab → unlocked (sched_lock s) → unlocked (fd_lock s) → node ≠ 0 →
  fd_new node mode pid s =
   (found ← find_fd (Z.to_nat (fd_table_size p)) 0 (fd_table p);
    '(i, table) ← (match found with
      | Some i => mret (i, fd_table p)
      | None =>
          upd_process cur (λ p, p <| fd_table_size := s32 (fd_table_size p + 10) |>) ;;
          table ← krealloc_table (fd_table p) (s32 (fd_table_size p + 10));
          mret (fd_table_size p, table)
      end);
    upd_fd (kbrk s) set_cookies ;;
    write_slot table i (kbrk s) ;;
    a ← read_slot table i;
    e ← fd_at a;
    assertM (negb (fd_node e =? 0)) ;;
    assertM (cookies_ok e) ;;
    fd_release ;;
    mret i) (fd_started s node mode).
Proof.
  intros [H1 H2 H3 H4 H5 H6] Hl Hf Hn. unfold fd_new. rewrite (proj2 (Z.eqb_neq _ _) Hn). cbn [negb]. mstep.
  mrun (sched_acquire_ok s Hl). mstep. set (s1 := s <| sched_lock := Z.lor (sched_lock s) 1 |>).
  pose proof (idx_Some _ _ _ H1) as [Hr _]. change (processes s1) with (processes s).
  rewrite u64_small by (unfold is_u64; lia). rewrite (proj2 (Z.leb_gt _ _)) by lia. mstep.
  assert (process_slot pid s1 = Ok (cur, s1)) as E1 by (unfold process_slot; mstep; by apply of_opt_ok).
  mrun E1. mrun (sched_release_acquired s Hl). mrun (fd_acquire_ok s Hf).
  erewrite bind_ok; [|apply process_at_ok; exact H2]. cbv beta. mstep. mstep. reflexivity.
Qed.

Lemma fd_new_free s pid cur p tab node mode i :
  table_ok s pid cur p tab → unlocked (sched_lock s) → unlocked (fd_lock s) → node ≠ 0 →
  0 ≤ i < fd_table_size p → idx tab i = Some 0 → (∀ j, 0 ≤ j < i → idx tab j ≠ Some 0) →
  fd_new node mode pid s =
    Ok (i, s <| kbrk := kbrk s + 65536 |> <| fdheap := <[kbrk s := new_fd node mode]> (fdheap s) |>
             <| arrays := <[fd_table p := upd tab i (kbrk s)]> (arrays s) |>).
Proof.
  intros Ht Hl Hf Hn Hi Hz Hmin. rewrite (fd_new_started s pid cur p tab node mode Ht Hl Hf Hn).
  destruct Ht as [H1 H2 H3 H4 H5 H6]. set (s1 := fd_started s node mode).
  destruct (find_fd_ok s1 (fd_table p) tab (Z.to_nat (fd_table_size p)) 0 H3) as (r & Er & Hr); [lia|lia|].
  rewrite Z2Nat.id in Hr by lia. mrun Er. destruct r as [k|]; [|by destruct (Hr i ltac:(lia))].
  destruct Hr as (Hk1 & Hkz & Hkmin). assert (k = i) as ->.
  { destruct (Z.lt_trichotomy k i) as [Hlt|[->|Hlt]]; [by destruct (Hmin k ltac:(lia))|done|by destruct (Hkmin i ltac:(lia))]. }
  mstep. cbv beta iota.
  rewrite (fd_store_ok s1 _ _ _ tab 0 (mk_fd 0 node 0 0 0 mode 0)); [|apply lookup_insert_eq|done|done|done].
  unfold fd_release. mstep. unfold mret, stM_ret. do 2 f_equal. unfold s1, fd_started. destruct s. cbn in *.
  by rewrite lock_unlock, insert_insert_eq.
Qed.

Lemma fd_new_full s pid cur p tab node mode :
  table_ok s pid cur p tab → unlocked (sched_lock s) → unlocked (fd_lock s) → node ≠ 0 →
  (∀ j, 0 ≤ j < fd_table_size p → idx tab j ≠ Some 0) →
  ∃ tab', fd_new node mode pid s =
    Ok (fd_table_size p, s <| kbrk := kbrk s + 65536 + 65536 |>
      <| fdheap := <[kbrk s := new_fd node mode]> (fdheap s) |>
      <| pheap := <[cur := p <| fd_table_size := fd_table_size p + 10 |>]> (pheap s) |>
      <| arrays := <[kbrk s + 65536 := tab']> (delete (fd_table p) (arrays s)) |>).
Proof.
  intros Ht Hl Hf Hn Hfull. rewrite (fd_new_started s pid cur p tab node mode Ht Hl Hf Hn).
  destruct Ht as [H1 H2 H3 H4 H5 H6]. set (s1 := fd_started s node mode).
  destruct (find_fd_ok s1 (fd_table p) tab (Z.to_nat (fd_table_size p)) 0 H3) as (r & Er & Hr); [lia|lia|].
  rewrite Z2Nat.id in Hr by lia. mrun Er. destruct r as [k|]; [destruct Hr as (? & ? & _); by destruct (Hfull k ltac:(lia))|].
  rewrite s32_small by lia. set (tab' := tab ++ replicate (Z.to_nat (fd_table_size p + 10) - length tab) 0).
  set (s2 := s1 <| pheap := <[cur := p <| fd_table_size := fd_table_size p + 10 |>]> (pheap s) |>
    <| kbrk := kbrk s + 65536 + 65536 |> <| arrays := <[kbrk s + 65536 := tab']> (delete (fd_table p) (arrays s)) |>).
  rewrite bind_ok with (a := (fd_table_size p, kbrk s + 65536)) (s' := s2).
  2: { erewrite bind_ok; [|apply upd_process_ok; exact H2]. cbv beta. rewrite s32_small by lia.
       unfold krealloc_table. erewrite bind_ok; [reflexivity|]. mstep.
       erewrite bind_ok; [|unfold table_at; mstep; apply of_opt_ok; exact H3]. reflexivity. }
  cbv beta iota. destruct (idx_lt tab' (fd_table_size p)) as [w Hw].
  { unfold tab', zlen in *. rewrite length_app, length_replicate. lia. }
  rewrite (fd_store_ok s2 _ _ _ tab' w (mk_fd 0 node 0 0 0 mode 0)); [|apply lookup_insert_eq|done|apply lookup_insert_eq|done].
  exists (upd tab' (fd_table_size p) (kbrk s)). unfold fd_release. mstep. unfold mret, stM_ret. do 2 f_equal.
  unfold s2, s1, fd_started. destruct s. cbn in *. by rewrite lock_unlock, !insert_insert_eq.
Qed.

(** C18: opening a descriptor.  In a table with a free slot, [fd_new] returns the lowest free
    one, the table then holds the new entry (with its four cookies) there and is otherwise as
    before, and the locks are free; a lookup of any descriptor sees exactly that table, except
    that the last slot is never seen.  In a full table it returns the size of the table
    and the table it grew is lost: every later lookup in it reads freed memory. *)
Theorem fd_new_correct s pid cur p tab node mode :
  table_ok s pid cur p tab → unlocked (sched_lock s) → unlocked (fd_lock s) → node ≠ 0 →
  arrays s !! (kbrk s + 65536) = None →
  (∀ i, 0 ≤ i < fd_table_size p → idx tab i = Some 0 → (∀ j, 0 ≤ j < i → idx tab j ≠ Some 0) →
     ∃ s', fd_new node mode pid s = Ok (i, s') ∧
       table_ok s' pid cur p (upd tab i (kbrk s)) ∧ fdheap s' !! kbrk s = Some (new_fd node mode) ∧
       (∀ a, a ≠ kbrk s → fdheap s' !! a = fdheap s !! a) ∧
       ∀ fd, fd_lookup_pid fd pid s' =
         Ok (if (fd =? i) && (i <? fd_table_size p - 1) then kbrk s else visible p tab fd, s')) ∧
  ((∀ j, 0 ≤ j < fd_table_size p → idx tab j ≠ Some 0) →
     ∃ s', fd_new node mode pid s = Ok (fd_table_size p, s') ∧
       ∀ fd, 0 ≤ fd < fd_table_size p + 9 → fd_lookup_pid fd pid s' = Crash Fault).
Proof.
  intros Ht Hl Hf Hn Hk. pose proof Ht as [H1 H2 H3 H4 H5 H6]. split.
  - intros i Hi Hz Hmin. eexists. split; [by eapply fd_new_free|].
    match goal with |- table_ok ?s' _ _ _ _ ∧ _ => set (s2 := s') end.
    assert (table_ok s2 pid cur p (upd tab i (kbrk s))) as Ht2.
    { split; [done|done|apply lookup_insert_eq|by rewrite zlen_upd|done|done]. }
    split_and!; [done|apply lookup_insert_eq|intros a Ha; by apply lookup_insert_ne|].
    intros fd. rewrite (fd_lookup_ok s2 pid cur p _ fd Ht2 Hl Hf). do 2 f_equal. unfold visible.
    destruct (fd =? i) eqn:E; zbool; cbn [andb].
    + subst fd. rewrite (proj2 (Z.leb_le 0 i)), andb_true_r by lia. destruct (_ <? _) eqn:Elt; [|done].
      by rewrite idx_upd_eq by lia.
    + by rewrite idx_upd_ne by (done || lia).
  - intros Hfull. destruct (fd_new_full s pid cur p tab node mode Ht Hl Hf Hn Hfull) as [tab' E].
    eexists. split; [exact E|]. intros fd Hfd. unfold fd_lookup_pid.
    match goal with |- _ ?s' = _ => set (s2 := s') end.
    mrun (process_of_ok s2 pid cur Hl H1). mrun (fd_acquire_ok s2 Hf).
    erewrite bind_ok; [|apply process_at_ok, lookup_insert_eq]. cbv beta.
    change (fd_table_size (p <| fd_table_size := fd_table_size p + 10 |>)) with (fd_table_size p + 10).
    rewrite s32_small by lia. rewrite (proj2 (Z.ltb_lt _ _)), (proj2 (Z.leb_le _ _)) by lia. cbn [andb].
    apply bind_crash. unfold read_slot, table_at. apply bind_crash. mstep.
    change (fd_table (p <| fd_table_size := fd_table_size p + 10 |>)) with (fd_table p). cbn.
    rewrite lookup_insert_ne by congruence. by rewrite lookup_delete_eq.
Qed.

(** ** Reading and writing *)

Section calls.
Context (mapped : Z → Z → bool) `{Code}.

(** The current thread, and whether its call has to lift the ring check. *)
Definition lifts (t : thread_t) s : bool := (ring t =? 3) && (ignore_ring (locals s) =? 0).
Definition lifted (t : thread_t) s : kstate :=
  if lifts t s then s <| locals := locals s <| ignore_ring := 1 |> |> else s.
(** The state a call leaves, when it began in [s] and the file's operation ended in [s']. *)
Definition unlifted (t : thread_t) s s' : kstate :=
  if lifts t s then s' <| locals := locals s' <| ignore_ring := 0 |> |> else s'.

Record calling s (t : thread_t) (cur : Z) (p : process_t) (tab : list Z) : Prop := {
  ca_thread : theap s !! current_thread (locals s) = Some t;
  ca_table : table_ok s (parent_pid t) cur p tab;
  ca_sched : unlocked (sched_lock s);
  ca_fd : unlocked (fd_lock s)
}.

Lemma unlifted_lifted t s : unlifted t s (lifted t s) = s.
Proof.
  unfold unlifted, lifted, lifts. destruct (_ && _) eqn:E; [|done]. zbool. destruct s. destruct locals.
  cbn in *. by subst.
Qed.

Lemma calling_lifted s t cur p tab : calling s t cur p tab → calling (lifted t s) t cur p tab.
Proof.
  intros [H1 [] H3 H4]. unfold lifted. destruct (lifts t s); [|by split; [|split| |]].
  split; [done|by split|done|done].
Qed.

Lemma enter_ignore_ok s t :
  theap s !! current_thread (locals s) = Some t → enter_ignore s = Ok (lifts t s, lifted t s).
Proof.
  intros Ht. unfold enter_ignore. mstep. mrun (thread_at_ok _ _ _ Ht). mstep. unfold lifts, lifted.
  fold (lifts t s). by destruct (lifts t s).
Qed.

Lemma leave_ignore_ok t s s' : leave_ignore (lifts t s) s' = Ok (tt, unlifted t s s').
Proof. unfold leave_ignore, unlifted. by destruct (lifts t s). Qed.

Lemma fd_lookup_cur s t cur p tab fd :
  calling s t cur p tab → fd_lookup fd s = Ok (visible p tab fd, s).
Proof.
  intros [H1 H2 H3 H4]. unfold fd_lookup, get_cur_pid.
  erewrite bind_ok; [|mstep; erewrite bind_ok; [|apply thread_at_ok; exact H1]; reflexivity]. cbv beta.
  by eapply fd_lookup_ok.
Qed.

Lemma ops_of_ok s t cur p tab fd e n :
  calling s t cur p tab → visible p tab fd ≠ 0 → fdheap s !! visible p tab fd = Some e →
  vnodes (fs s) !! fd_node e = Some n → ops_of fd s = Ok (n_ops n, s).
Proof.
  intros Hc Hv He Hn. unfold ops_of. mrun (fd_lookup_cur _ _ _ _ _ fd Hc).
  rewrite (proj2 (Z.eqb_neq _ _) Hv). cbn [negb]. mstep. mrun (fd_at_ok _ _ _ He).
  assert (on_fs (node_at (fd_node e)) s = Ok (n, s)) as E.
  { unfold on_fs. erewrite zoom_ok; [|unfold node_at; mstep; apply of_opt_ok; exact Hn]. by destruct s. }
  by mrun E.
Qed.

(** The shape [fd_read] and [fd_write] share. *)
Lemma guarded_call s t cur p tab fd buf count (bad : Z) (op : kM Z) :
  calling s t cur p tab →
  (set_ignore ← enter_ignore;
   node ← fd_lookup fd;
   if node =? 0 then leave_ignore set_ignore ;; mret (- EBADF)
   else if negb (mapped buf count) then leave_ignore set_ignore ;; mret bad
   else read ← op; leave_ignore set_ignore ;; mret read) s =
  if visible p tab fd =? 0 then Ok (- EBADF, s)
  else if negb (mapped buf count) then Ok (bad, s)
  else match op (lifted t s) with
       | Ok (r, s') => Ok (r, unlifted t s s')
       | Crash c => Crash c
       end.
Proof.
  intros Hc. mrun (enter_ignore_ok s t (ca_thread _ _ _ _ _ Hc)).
  mrun (fd_lookup_cur _ _ _ _ _ fd (calling_lifted _ _ _ _ _ Hc)).
  destruct (_ =? 0); [mrun (leave_ignore_ok t s (lifted t s)); by rewrite unlifted_lifted|].
  destruct (negb _); [mrun (leave_ignore_ok t s (lifted t s)); by rewrite unlifted_lifted|].
  destruct (op (lifted t s)) as [[r s']|c] eqn:E; [|by apply bind_crash].
  mrun E. by mrun (leave_ignore_ok t s s').
Qed.

(** C19: reading and writing an open file, on every branch.  A descriptor that is not open, and
    a buffer that is not mapped, give their error and change nothing.  Otherwise the result is
    that of the file's own operation, run with the ring check lifted for a user thread, and
    the check is in force again afterwards, whatever the operation did to it. *)
Theorem fd_read_write_correct s t cur p tab fd buf count e n :
  calling s t cur p tab →
  (visible p tab fd ≠ 0 → fdheap s !! visible p tab fd = Some e ∧ vnodes (fs s) !! fd_node e = Some n) →
  fd_read mapped fd buf count s =
    (if visible p tab fd =? 0 then Ok (- EBADF, s)
     else if negb (mapped buf count) then Ok (- EBADF, s)
     else match call_read (o_read (n_ops n)) fd buf count (lifted t s) with
          | Ok (r, s') => Ok (r, unlifted t s s')
          | Crash c => Crash c
          end) ∧
  fd_write mapped fd buf count s =
    (if visible p tab fd =? 0 then Ok (- EBADF, s)
     else if negb (mapped buf count) then Ok (- EFAULT, s)
     else match call_write (o_write (n_ops n)) fd buf count (lifted t s) with
          | Ok (r, s') => Ok (r, unlifted t s s')
          | Crash c => Crash c
          end).
Proof.
  intros Hc He. pose proof (calling_lifted _ _ _ _ _ Hc) as Hc'.
  assert (fdheap (lifted t s) = fdheap s ∧ fs (lifted t s) = fs s) as [Ef Es]
    by (unfold lifted; by destruct (lifts t s)).
  unfold fd_read, fd_write. split; rewrite (guarded_call s t cur p tab fd buf count) by done;
    (destruct (visible p tab fd =? 0) eqn:E; [done|]); zbool; destruct (He E) as [He1 He2];
    (destruct (negb _); [done|]); unfold vfs_read, vfs_write;
    (erewrite bind_ok; [|eapply ops_of_ok; [exact Hc'|done|by rewrite Ef|by rewrite Es]]); done.
Qed.
End calls.

(** *** A process with one open file *)

Definition demo_code : Code := {|
  call_open := λ _ _ _, mret 0; call_post_open := λ _ _ _, mret 0; call_close := λ _ _, mret 0;
  call_read := λ _ _ _ count, mret (count / 2); call_write := λ _ _ _ count, mret count;
  call_seek := λ _ _ _ _, mret 0; call_file_exists := λ _ _ _, mret 1; call_create := λ _ _ _ _, mret 0 |}.

Definition open_kernel : kstate :=
  demo_kernel <| theap := {[1000 := demo_thread 0 RUNNING <| ring := 3 |>]} |>
    <| arrays := {[600 := 700 :: replicate 69 0]} |> <| fdheap := {[700 := new_fd 300 2]} |>
    <| fs := mk_fs {[300 := mk_node (Some [116; 48]) null_vfs_ops 0 0 0 0 0 (replicate 10 0) 0]} ∅ 0 0 0 65536 |>.

Lemma open_table : table_ok open_kernel 0 500 demo_process (700 :: replicate 69 0).
Proof. split; try reflexivity; vm_compute; try split; congruence. Qed.

Lemma full_table : table_ok (open_kernel <| arrays := {[600 := replicate 70 700]} |>) 0 500 demo_process (replicate 70 700).
Proof. split; try reflexivity; vm_compute; try split; congruence. Qed.

Lemma fd_new_correct_witness :
  (∃ s', fd_new 300 2 0 open_kernel = Ok (1, s') ∧ fd_lookup_pid 1 0 s' = Ok (100000, s') ∧
     fd_lookup_pid 0 0 s' = Ok (700, s')) ∧
  (∃ s', fd_new 300 2 0 (open_kernel <| arrays := {[600 := replicate 70 700]} |>) = Ok (10, s') ∧
     fd_lookup_pid 0 0 s' = Crash Fault).
Proof.
  split.
  - destruct (fd_new_correct open_kernel 0 500 demo_process _ 300 2 open_table) as [Hfree _];
      [reflexivity|reflexivity|done|reflexivity|].
    destruct (Hfree 1) as (s' & E & _ & _ & _ & Hl); [vm_compute; split; congruence|reflexivity| |].
    + intros j Hj. replace j with 0 by lia. vm_compute. congruence.
    + exists s'. split; [exact E|]. rewrite !Hl. split; reflexivity.
  - destruct (fd_new_correct (open_kernel <| arrays := {[600 := replicate 70 700]} |>) 0 500 demo_process _ 300 2 full_table)
      as [_ Hfull]; [reflexivity|reflexivity|done|reflexivity|].
    destruct Hfull as (s' & E & Hl).
    + intros j Hj. change (fd_table_size demo_process) with 10 in Hj. intros Hi. apply idx_Some in Hi as [_ Hi].
      apply lookup_replicate in Hi as [Hi _]. congruence.
    + exists s'. split; [exact E|]. apply Hl. vm_compute. split; congruence.
Defined.

Lemma fd_read_write_correct_witness :
  fd_read (H := demo_code) (λ _ _, true) 0 4096 8 open_kernel = Ok (4, open_kernel) ∧
  fd_write (H := demo_code) (λ _ _, true) 5 4096 8 open_kernel = Ok (-9, open_kernel).
Proof.
  assert (calling open_kernel (demo_thread 0 RUNNING <| ring := 3 |>) 500 demo_process (700 :: replicate 69 0)) as Hc.
  { split; [reflexivity|exact open_table|reflexivity|reflexivity]. }
  split.
  - destruct (fd_read_write_correct (H := demo_code) (λ _ _, true) _ _ _ _ _ 0 4096 8 (new_fd 300 2)
      (mk_node (Some [116; 48]) null_vfs_ops 0 0 0 0 0 (replicate 10 0) 0) Hc) as [E _]; [by intros _|].
    rewrite E. reflexivity.
  - destruct (fd_read_write_correct (H := demo_code) (λ _ _, true) _ _ _ _ _ 5 4096 8 (new_fd 300 2)
      (mk_node (Some [116; 48]) null_vfs_ops 0 0 0 0 0 (replicate 10 0) 0) Hc) as [_ E]; [by intros []|].
    rewrite E. reflexivity.
Defined.
