(* ===== verification/Pipe.v ===== *)
(** * Pipes (fs/pipe.c)

    A pipe has a buffer of bytes on the kernel heap ([Blocks.v]: it can be
    accessed up to the end of its last page) and two offsets in it.  The event
    of a pipe is the word under [write_event] of the kernel's events.  A reader
    of an empty pipe waits: [await] stands for [await_event] of proc/event.c, for
    everything that happens until the thread runs again. *)

From S2P Require Import Prelude Locks CString Blocks Vfs Vmm DList Kernel Stack Proc Sched SleepQueue Fd.

Definition PIPE_DEFAULT_BUFFER_SIZE : Z := 4096.
Definition PIPE_DIRECTION_TO_TARGET : Z := 1.
Definition PIPE_DIRECTION_FROM_TARGET : Z := 2.

Definition pipe_acquire : kM unit :=
  s ← get;
  match spinlock_lock (pipe_lock (piping s)) with
  | Ok l => modify (λ s, s <| piping := piping s <| pipe_lock := l |> |>)
  | Crash c => crashM c
  end.
Definition pipe_release : kM unit :=
  modify (λ s, s <| piping := piping s <| pipe_lock := spinlock_unlock (pipe_lock (piping s)) |> |>).

Definition pipe_at (a : Z) : kM pipe_t := s ← get; of_opt (pipeheap (piping s) !! a).
Definition put_pipe (a : Z) (p : pipe_t) : kM unit :=
  modify (λ s, s <| piping := piping s <| pipeheap := <[a := p]> (pipeheap (piping s)) |> |>).

Section pipes.
Context (junk : Z → list Z) (await : Z → kM unit).

Definition create_pipe (cur_fd remote_fd other_pid dir : Z) : kM unit :=
  pipe_acquire ;;
  s ← get;
  let l := default [] (pipes (piping s)) in
  let '(index, l) := match free_child l 0 with
                     | Some i => (i, l)
                     | None => (zlen l, l ++ [0])
                     end in
  a ← kalloc;
  pid ← get_cur_pid;
  modify (λ s, s <| piping := piping s <| pipes := Some (upd l index a) |> |> <| events := <[a := 0]> (events s) |>) ;;
  put_pipe a (mk_pipe pid other_pid cur_fd remote_fd PIPE_DEFAULT_BUFFER_SIZE 0 0
                (kcalloc_block 0 1 junk PIPE_DEFAULT_BUFFER_SIZE) a (u8 dir)) ;;
  pipe_release.

(** Either end of the pipe. *)
Definition is_creator (pid fd : Z) (p : pipe_t) : bool := (fd =? creator_fd p) && (pid =? creator_pid p).
Definition is_target (pid fd : Z) (p : pipe_t) : bool := (fd =? target_fd p) && (pid =? target_pid p).

Fixpoint lookup_loop (l : list Z) (pid fd : Z) : kM Z :=
  match l with
  | [] => mret 0
  | a :: l' =>
      p ← pipe_at a;
      if is_creator pid fd p || is_target pid fd p then mret a else lookup_loop l' pid fd
  end.

Definition lookup_pipe (fd : Z) : kM Z :=
  pipe_acquire ;;
  s ← get;
  pid ← get_cur_pid;
  r ← (match pipes (piping s) with Some l => lookup_loop l pid fd | None => mret 0 end);
  pipe_release ;;
  mret r.

Definition pipe_read (fd buf count : Z) : kM Z :=
  a ← lookup_pipe fd;
  if a =? 0 then mret (- EBADF)
  else
    p ← pipe_at a;
    pid ← get_cur_pid;
    if is_creator pid fd p && negb (direction p =? PIPE_DIRECTION_FROM_TARGET) then mret (- EPERM)
    else if is_target pid fd p && negb (direction p =? PIPE_DIRECTION_TO_TARGET) then mret (- EPERM)
    else
      pipe_acquire ;;
      p ← pipe_at a;
      (if read_pointer p =? write_pointer p then
         pipe_release ;; await (write_event p) ;; pipe_acquire
       else mret tt) ;;
      p ← pipe_at a;
      let difference := u64 (write_pointer p - read_pointer p) in
      let difference := if count <? difference then count else difference in
      (if read_pointer p + difference <=? zlen (b_data (buffer p)) then mret tt else crashM Fault) ;;
      let data := take (Z.to_nat difference) (drop (Z.to_nat (read_pointer p)) (b_data (buffer p))) in
      modify (λ s, s <| kmem := store_bytes (kmem s) buf data |>) ;;
      (if read_pointer p + difference =? write_pointer p
       then put_pipe a (p <| read_pointer := 0 |> <| write_pointer := 0 |>) else mret tt) ;;
      modify (λ s, s <| events := <[write_event p := 0]> (events s) |>) ;;
      pipe_release ;;
      mret (s32 difference).

(** The growth of the buffer in [pipe_write]. *)
Definition grow (p : pipe_t) (count : Z) : kM pipe_t :=
  let free := u64 (buffer_size p - write_pointer p) in
  if free <? count then
    let new_bytes := u64 (u64 (count - free) + 1 + PAGE - 1) / PAGE in
    b ← of_res (krealloc_block 0 1 junk (Some (buffer p)) (u64 (buffer_size p + new_bytes)));
    mret (p <| buffer := b |> <| buffer_size := u64 (buffer_size p + new_bytes) |>)
  else mret p.

Definition pipe_write (fd buf count : Z) : kM Z :=
  a ← lookup_pipe fd;
  if a =? 0 then mret (- EBADF)
  else
    p ← pipe_at a;
    pid ← get_cur_pid;
    if is_creator pid fd p && negb (direction p =? PIPE_DIRECTION_TO_TARGET) then mret (- EPERM)
    else if is_target pid fd p && negb (direction p =? PIPE_DIRECTION_FROM_TARGET) then mret (- EPERM)
    else
      pipe_acquire ;;
      p ← pipe_at a;
      p ← grow p count;
      (if write_pointer p + count <=? zlen (b_data (buffer p)) then mret tt else crashM Fault) ;;
      s ← get;
      let data := load_bytes (kmem s) buf (Z.to_nat count) in
      let d := b_data (buffer p) in
      let d := take (Z.to_nat (write_pointer p)) d ++ data ++ drop (Z.to_nat (write_pointer p + count)) d in
      put_pipe a (p <| buffer := mk_block (b_size (buffer p)) d |>
                    <| write_pointer := write_pointer p + count |>) ;;
      trigger_event (write_event p) ;;
      pipe_release ;;
      mret (s32 count).

(** [pipe_ops] and [pipe_node]: the dummy operations with these two. *)
Definition init_pipe (dummy_ops : vfs_ops_t) (read write : Z) : vfs_node_t :=
  mk_node (Some [112; 105; 112; 101]) (dummy_ops <| o_read := read |> <| o_write := write |>) 0 0 0 0 0 [] 0.
End pipes.
