(* ===== verification/PipeTheorems.v ===== *)
(** * Correctness of pipes

    [pending] is what a pipe holds: the bytes between its two offsets. *)

From S2P Require Import Prelude Locks CString Blocks Vfs VfsTheorems Vmm DList Kernel Stack Proc Sched SleepQueue Fd FdTheorems Pipe.

Implicit Types s : kstate.

Definition pending (p : pipe_t) : list Z :=
  take (Z.to_nat (write_pointer p - read_pointer p)) (drop (Z.to_nat (read_pointer p)) (b_data (buffer p))).

Record pipe_ok (p : pipe_t) : Prop := {
  pi_read : 0 ≤ read_pointer p;
  pi_write : read_pointer p ≤ write_pointer p ≤ buffer_size p;
  pi_size : buffer_size p ≤ zlen (b_data (buffer p)) < U64_MOD
}.

(** The descriptor [fd] of the running thread is an end of the pipe [p] at [a]. *)
Record pipe_end s (fd a : Z) (p : pipe_t) (pid : Z) : Prop := {
  pe_thread : ∃ t, theap s !! current_thread (locals s) = Some t ∧ parent_pid t = pid;
  pe_lock : unlocked (pipe_lock (piping s));
  pe_found : ∃ l1 l2, pipes (piping s) = Some (l1 ++ a :: l2) ∧
    ∀ b, b ∈ l1 → ∃ q, pipeheap (piping s) !! b = Some q ∧ is_creator pid fd q || is_target pid fd q = false;
  pe_pipe : pipeheap (piping s) !! a = Some p;
  pe_end : is_creator pid fd p || is_target pid fd p = true;
  pe_nonzero : a ≠ 0
}.

Definition may_read (pid fd : Z) (p : pipe_t) : bool :=
  implb (is_creator pid fd p) (direction p =? PIPE_DIRECTION_FROM_TARGET) &&
  implb (is_target pid fd p) (direction p =? PIPE_DIRECTION_TO_TARGET).
Definition may_write (pid fd : Z) (p : pipe_t) : bool :=
  implb (is_creator pid fd p) (direction p =? PIPE_DIRECTION_TO_TARGET) &&
  implb (is_target pid fd p) (direction p =? PIPE_DIRECTION_FROM_TARGET).

Lemma pipe_acquire_ok s :
  unlocked (pipe_lock (piping s)) →
  pipe_acquire s = Ok (tt, s <| piping := piping s <| pipe_lock := Z.lor (pipe_lock (piping s)) 1 |> |>).
Proof. intros Hl. unfold pipe_acquire. mstep. by rewrite (spinlock_lock_free _ Hl). Qed.

Lemma pipe_release_acquired s :
  unlocked (pipe_lock (piping s)) →
  pipe_release (s <| piping := piping s <| pipe_lock := Z.lor (pipe_lock (piping s)) 1 |> |>) = Ok (tt, s).
Proof.
  intros Hl. unfold pipe_release, modify. do 2 f_equal. destruct s, piping. cbn in *. by rewrite lock_unlock.
Qed.

Lemma pipe_at_ok s a p : pipeheap (piping s) !! a = Some p → pipe_at a s = Ok (p, s).
Proof. intros Hp. unfold pipe_at. mstep. by apply of_opt_ok. Qed.

Lemma lookup_loop_ok s a p pid fd l2 l1 :
  (∀ b, b ∈ l1 → ∃ q, pipeheap (piping s) !! b = Some q ∧ is_creator pid fd q || is_target pid fd q = false) →
  pipeheap (piping s) !! a = Some p → is_creator pid fd p || is_target pid fd p = true →
  lookup_loop (l1 ++ a :: l2) pid fd s = Ok (a, s).
Proof.
  intros Hl Ha He. induction l1 as [|b l1 IH]; cbn [app lookup_loop].
  - mrun (pipe_at_ok _ _ _ Ha). by rewrite He.
  - destruct (Hl b ltac:(left)) as (q & Hq & Hn). mrun (pipe_at_ok _ _ _ Hq). rewrite Hn. apply IH.
    intros c Hc. apply Hl. by right.
Qed.

Lemma lookup_pipe_ok s fd a p pid : pipe_end s fd a p pid → lookup_pipe fd s = Ok (a, s).
Proof.
  intros [(t & Ht & <-) Hl (l1 & l2 & Hp & Hno) Ha He Hz]. unfold lookup_pipe. mrun (pipe_acquire_ok s Hl). mstep.
  set (s1 := s <| piping := _ |>). assert (get_cur_pid s1 = Ok (parent_pid t, s1)) as E by (by apply get_cur_pid_ok).
  mrun E. change (pipes (piping s1)) with (pipes (piping s)). rewrite Hp.
  assert (lookup_loop (l1 ++ a :: l2) (parent_pid t) fd s1 = Ok (a, s1)) as El by (by eapply lookup_loop_ok).
  mrun El. by mrun (pipe_release_acquired s Hl).
Qed.

Section pipes.
Context (junk : Z → list Z) (await : Z → kM unit).

Lemma implb_guard (b c : bool) : implb b c = true → b && negb c = false.
Proof. by destruct b, c. Qed.

(** Bytes put behind the write offset. *)
Lemma pending_append (D L rest : list Z) (r w c : Z) :
  0 ≤ r ≤ w → 0 ≤ c → w ≤ zlen D → length L = Z.to_nat c →
  take (Z.to_nat (w + c - r)) (drop (Z.to_nat r) (take (Z.to_nat w) D ++ L ++ rest)) =
    take (Z.to_nat (w - r)) (drop (Z.to_nat r) D) ++ L.
Proof.
  intros Hr Hc Hw HL. unfold zlen in Hw. rewrite drop_app_le by (rewrite length_take; lia).
  rewrite skipn_firstn_comm, app_assoc. rewrite take_app_le by (rewrite length_app, length_take, length_drop; lia).
  replace (Z.to_nat w - Z.to_nat r)%nat with (Z.to_nat (w - r)) by lia.
  apply take_ge. rewrite length_app, length_take, length_drop. lia.
Qed.

(** The state with the pipe [p] at [a]. *)
Definition with_pipe s (a : Z) (p : pipe_t) : kstate :=
  s <| piping := piping s <| pipeheap := <[a := p]> (pipeheap (piping s)) |> |>.

Lemma pipe_write_ok s fd a p pid buf count w :
  pipe_end s fd a p pid → pipe_ok p → may_write pid fd p = true →
  0 ≤ count < 2147483648 → write_pointer p + count ≤ buffer_size p → events s !! write_event p = Some w →
  ∃ p' s', pipe_write junk fd buf count s = Ok (count, s') ∧ pipe_ok p' ∧
    s' = with_pipe s a p' <| events := <[write_event p := u32 (w + 1)]> (events s) |> ∧
    pending p' = pending p ++ load_bytes (kmem s) buf (Z.to_nat count) ∧
    (buffer_size p', read_pointer p', direction p') = (buffer_size p, read_pointer p, direction p).
Proof.
  intros He [H1 H2 H3] Hm Hc Hfit Hw. unfold may_write in Hm. zbool.
  set (d := take (Z.to_nat (write_pointer p)) (b_data (buffer p)) ++ load_bytes (kmem s) buf (Z.to_nat count)
            ++ drop (Z.to_nat (write_pointer p + count)) (b_data (buffer p))).
  set (p' := p <| buffer := mk_block (b_size (buffer p)) d |> <| write_pointer := write_pointer p + count |>).
  assert (length (load_bytes (kmem s) buf (Z.to_nat count)) = Z.to_nat count) as Hlb.
  { unfold load_bytes. rewrite length_map, length_seqZ. lia. }
  assert (zlen d = zlen (b_data (buffer p))) as Hd.
  { unfold d, zlen in *. rewrite !length_app, length_take, length_drop, Hlb. lia. }
  exists p', (with_pipe s a p' <| events := <[write_event p := u32 (w + 1)]> (events s) |>).
  split_and!; [|split; cbn; rewrite ?Hd; lia|done| |done].
  - unfold pipe_write. mrun (lookup_pipe_ok s fd a p pid He). destruct He as [(t & Ht & <-) Hl _ Ha _ Hz].
    rewrite (proj2 (Z.eqb_neq a 0)) by done. mrun (pipe_at_ok _ _ _ Ha). mrun (get_cur_pid_ok _ _ Ht).
    rewrite !implb_guard by done. mrun (pipe_acquire_ok s Hl).
    set (s1 := s <| piping := _ |>). assert (pipe_at a s1 = Ok (p, s1)) as Ep by (by apply pipe_at_ok). mrun Ep.
    assert (grow junk p count s1 = Ok (p, s1)) as Eg.
    { unfold grow. rewrite u64_small by (unfold is_u64; lia). by rewrite (proj2 (Z.ltb_ge _ _)) by lia. }
    mrun Eg. rewrite (proj2 (Z.leb_le _ _)) by lia. mstep. mstep. cbv zeta. change (kmem s1) with (kmem s). fold d.
    mstep. erewrite bind_ok; [|unfold trigger_event; erewrite bind_ok; [|unfold event_word; mstep; apply of_opt_ok; exact Hw];
      reflexivity]. cbv beta. unfold pipe_release. mstep. rewrite s32_small by lia. unfold mret, stM_ret. do 2 f_equal.
    unfold with_pipe, s1, atomic_inc. destruct s, piping. cbn in *. by rewrite lock_unlock.
  - change (take (Z.to_nat (write_pointer p + count - read_pointer p)) (drop (Z.to_nat (read_pointer p)) d) =
      pending p ++ load_bytes (kmem s) buf (Z.to_nat count)).
    unfold d. apply pending_append; [lia|lia|lia|done].
Qed.

Lemma pending_length p : pipe_ok p → zlen (pending p) = write_pointer p - read_pointer p.
Proof.
  intros [H1 H2 H3]. unfold pending, zlen in *. rewrite length_take, length_drop. lia.
Qed.

(** What a read leaves: nothing when it took all the bytes, everything when it did not. *)
Definition after_read (p : pipe_t) (count : Z) : pipe_t :=
  if count <? write_pointer p - read_pointer p then p
  else p <| read_pointer := 0 |> <| write_pointer := 0 |>.

Lemma pipe_read_ok s fd a p pid buf count :
  pipe_end s fd a p pid → pipe_ok p → may_read pid fd p = true →
  read_pointer p < write_pointer p → write_pointer p < 2147483648 → 0 ≤ count →
  pipe_read await fd buf count s =
    Ok (Z.min count (zlen (pending p)),
        with_pipe s a (after_read p count) <| kmem := store_bytes (kmem s) buf (take (Z.to_nat count) (pending p)) |>
          <| events := <[write_event p := 0]> (events s) |>).
Proof.
  intros He Hok Hm Hrw Hw Hc. pose proof Hok as [H1 H2 H3]. unfold may_read in Hm. zbool. unfold pipe_read.
  mrun (lookup_pipe_ok s fd a p pid He). destruct He as [(t & Ht & <-) Hl _ Ha _ Hz].
  rewrite (proj2 (Z.eqb_neq a 0)) by done. mrun (pipe_at_ok _ _ _ Ha). mrun (get_cur_pid_ok _ _ Ht).
  rewrite !implb_guard by done. mrun (pipe_acquire_ok s Hl). set (s1 := s <| piping := _ |>).
  assert (pipe_at a s1 = Ok (p, s1)) as Ep by (by apply pipe_at_ok). mrun Ep.
  rewrite (proj2 (Z.eqb_neq (read_pointer p) (write_pointer p))) by lia. mstep. mrun Ep. cbv zeta.
  rewrite u64_small by (unfold is_u64; lia). rewrite (pending_length p Hok).
  set (n := if count <? write_pointer p - read_pointer p then count else write_pointer p - read_pointer p).
  assert (n = Z.min count (write_pointer p - read_pointer p)) as En by (unfold n; destruct (_ <? _) eqn:E; zbool; lia).
  rewrite (proj2 (Z.leb_le _ _)) by lia. mstep.
  assert (take (Z.to_nat n) (drop (Z.to_nat (read_pointer p)) (b_data (buffer p))) =
    take (Z.to_nat count) (pending p)) as ->.
  { unfold pending. rewrite take_take. f_equal. lia. }
  mstep. set (m := store_bytes _ _ _).
  assert ((if read_pointer p + n =? write_pointer p then put_pipe a (p <| read_pointer := 0 |> <| write_pointer := 0 |>)
     else mret tt) (s1 <| kmem := m |>) = Ok (tt, with_pipe s1 a (after_read p count) <| kmem := m |>)) as Eput.
  { unfold after_read. destruct (read_pointer p + n =? write_pointer p) eqn:E; zbool.
    - rewrite (proj2 (Z.ltb_ge _ _)) by lia. unfold put_pipe, modify, with_pipe. by destruct s.
    - rewrite (proj2 (Z.ltb_lt _ _)) by lia. unfold mret, stM_ret, with_pipe. do 2 f_equal.
      unfold s1. destruct s, piping. cbn in *. by rewrite insert_id. }
  mrun Eput. mstep. unfold pipe_release. mstep. rewrite s32_small by lia. unfold mret, stM_ret.
  rewrite <-En. do 2 f_equal. unfold with_pipe, s1, m. destruct s, piping. cbn in *. by rewrite lock_unlock.
Qed.

Lemma pipe_refused s fd a p pid buf count :
  pipe_end s fd a p pid →
  (may_write pid fd p = false → pipe_write junk fd buf count s = Ok (- EPERM, s)) ∧
  (may_read pid fd p = false → pipe_read await fd buf count s = Ok (- EPERM, s)).
Proof.
  intros He. unfold pipe_write, pipe_read, may_write, may_read.
  split; mrun (lookup_pipe_ok s fd a p pid He); destruct He as [(t & Ht & <-) Hl _ Ha _ Hz];
    rewrite (proj2 (Z.eqb_neq a 0)) by done; mrun (pipe_at_ok _ _ _ Ha); mrun (get_cur_pid_ok _ _ Ht);
    destruct (is_creator _ _ _), (is_target _ _ _), (_ =? PIPE_DIRECTION_TO_TARGET), (_ =? PIPE_DIRECTION_FROM_TARGET);
    cbn; intros; done.
Qed.

(** C20: pipes carry bytes in order.  Writing [count] bytes that fit appends exactly the bytes at
    [buf] to what the pipe holds and signals its event.  Reading a pipe that holds something
    delivers its first bytes, at most [count] of them; taking all of them empties the pipe, and a
    shorter read leaves everything in it, to be read again.  The wrong end gets -EPERM. *)
Theorem pipe_transfers s fd a p pid buf count w :
  pipe_end s fd a p pid → pipe_ok p → events s !! write_event p = Some w →
  0 ≤ count < 2147483648 → write_pointer p < 2147483648 →
  (may_write pid fd p = true → write_pointer p + count ≤ buffer_size p →
     ∃ p' s', pipe_write junk fd buf count s = Ok (count, s') ∧ pipe_ok p' ∧
       pipeheap (piping s') !! a = Some p' ∧ events s' !! write_event p = Some (u32 (w + 1)) ∧
       pipe_lock (piping s') = pipe_lock (piping s) ∧
       pending p' = pending p ++ load_bytes (kmem s) buf (Z.to_nat count)) ∧
  (may_read pid fd p = true → read_pointer p < write_pointer p →
     ∃ p' s', pipe_read await fd buf count s = Ok (Z.min count (zlen (pending p)), s') ∧
       pipeheap (piping s') !! a = Some p' ∧ events s' !! write_event p = Some 0 ∧
       pipe_lock (piping s') = pipe_lock (piping s) ∧
       kmem s' = store_bytes (kmem s) buf (take (Z.to_nat count) (pending p)) ∧
       pending p' = if count <? zlen (pending p) then pending p else []) ∧
  (may_write pid fd p = false → pipe_write junk fd buf count s = Ok (- EPERM, s)) ∧
  (may_read pid fd p = false → pipe_read await fd buf count s = Ok (- EPERM, s)).
Proof.
  intros He Hok Hev Hc Hw. split_and!; [| |by apply (pipe_refused s fd a p pid)..].
  - intros Hm Hfit. destruct (pipe_write_ok s fd a p pid buf count w He Hok Hm Hc Hfit Hev)
      as (p' & s' & E & Hok' & -> & Hp & _). exists p'. eexists.
    split_and!; [exact E|done|apply lookup_insert_eq|apply lookup_insert_eq|done|done].
  - intros Hm Hrw. eexists (after_read p count), _.
    split; [by apply (pipe_read_ok s fd a p pid buf count); [..|lia]|].
    split_and!; [apply lookup_insert_eq|apply lookup_insert_eq|done|done|].
    rewrite (pending_length p Hok). unfold after_read. by destruct (_ <? _).
Qed.
End pipes.

(** A write of more than the buffer holds: the growth is computed in pages and used in bytes,
    so a pipe that is empty, of the size it is created with, cannot take three pages. *)
Lemma pipe_write_overflows junk s fd a p pid buf :
  pipe_end s fd a p pid → may_write pid fd p = true →
  buffer p = kcalloc_block 0 1 junk PAGE → buffer_size p = PAGE → write_pointer p = 0 →
  pipe_write junk fd buf (3 * PAGE) s = Crash Fault.
Proof.
  intros He Hm Hb Hs Hw. unfold may_write in Hm. zbool. unfold pipe_write.
  mrun (lookup_pipe_ok s fd a p pid He). destruct He as [(t & Ht & <-) Hl _ Ha _ Hz].
  rewrite (proj2 (Z.eqb_neq a 0)) by done. mrun (pipe_at_ok _ _ _ Ha). mrun (get_cur_pid_ok _ _ Ht).
  rewrite !implb_guard by done. mrun (pipe_acquire_ok s Hl). set (s1 := s <| piping := _ |>).
  assert (pipe_at a s1 = Ok (p, s1)) as Ep by (by apply pipe_at_ok). mrun Ep.
  destruct (krealloc_grow 0 1 junk ltac:(lia) (kcalloc_block 0 1 junk PAGE) (PAGE + 3)) as (b & Eb & [_ Hcap] & Hbs & _);
    [apply kcalloc_block_ok; lia|cbn; lia|].
  assert (grow junk p (3 * PAGE) s1 = Ok (p <| buffer := b |> <| buffer_size := PAGE + 3 |>, s1)) as Eg.
  { unfold grow. rewrite Hs, Hw, Hb. change (u64 (PAGE - 0) <? 3 * PAGE) with true. cbv iota zeta.
    change (u64 (PAGE + u64 (u64 (3 * PAGE - u64 (PAGE - 0)) + 1 + PAGE - 1) / PAGE)) with (PAGE + 3).
    by mrun (of_res_ok _ _ s1 Eb). }
  mrun Eg. apply bind_crash. rewrite Hbs in Hcap.
  change (buffer (p <| buffer := b |> <| buffer_size := PAGE + 3 |>)) with b.
  change (write_pointer (p <| buffer := b |> <| buffer_size := PAGE + 3 |>)) with (write_pointer p).
  rewrite Hw, Hcap. reflexivity.
Qed.

(** *** A pipe with two bytes in it *)
Definition demo_pipe : pipe_t :=
  mk_pipe 0 7 3 4 4096 0 2 (mk_block 4096 (65 :: 66 :: replicate 4094 0)) 900 PIPE_DIRECTION_FROM_TARGET.
Definition pipe_kernel (dir : Z) : kstate :=
  demo_kernel <| piping := mk_pipes (Some [800]) {[800 := demo_pipe <| direction := dir |>]} 0 |>
    <| events := {[900 := 1]} |>.

Lemma demo_pipe_ok dir : pipe_ok (demo_pipe <| direction := dir |>).
Proof. split; [done|done|]. change (zlen _) with (zlen (65 :: 66 :: replicate 4094 0)). vm_compute. split; congruence. Qed.

Lemma demo_pipe_end dir : pipe_end (pipe_kernel dir) 3 800 (demo_pipe <| direction := dir |>) 0.
Proof.
  split; [|done| | |done|done].
  - eexists. split; [vm_compute; reflexivity|done].
  - exists [], []. split; [done|set_solver].
  - apply lookup_singleton_eq.
Qed.

Lemma pipe_transfers_witness :
  (∃ s', pipe_read (λ _, mret tt) 3 5000 10 (pipe_kernel PIPE_DIRECTION_FROM_TARGET) = Ok (2, s') ∧
     kmem s' = store_bytes (λ _, 0) 5000 [65; 66]) ∧
  (∃ p' s', pipe_write (λ _, []) 3 5000 2 (pipe_kernel PIPE_DIRECTION_TO_TARGET) = Ok (2, s') ∧
     pending p' = [65; 66; 0; 0]).
Proof.
  split.
  - destruct (pipe_transfers (λ _, []) (λ _, mret tt) (pipe_kernel PIPE_DIRECTION_FROM_TARGET) 3 800 _ 0 5000 10 1
      (demo_pipe_end _) (demo_pipe_ok _)) as (_ & Hr & _); [reflexivity|lia|vm_compute; congruence|].
    destruct Hr as (p' & s' & E & _ & _ & _ & Hk & _); [reflexivity|vm_compute; congruence|].
    exists s'. split; [exact E|exact Hk].
  - destruct (pipe_transfers (λ _, []) (λ _, mret tt) (pipe_kernel PIPE_DIRECTION_TO_TARGET) 3 800 _ 0 5000 2 1
      (demo_pipe_end _) (demo_pipe_ok _)) as (Hw & _); [reflexivity|lia|vm_compute; congruence|].
    destruct Hw as (p' & s' & E & _ & _ & _ & _ & Hp); [reflexivity|vm_compute; congruence|].
    exists p', s'. split; [exact E|]. rewrite Hp. reflexivity.
Defined.
