(* ===== verification/Echfs.v ===== *)
(** * The echFS file system: blocks, allocation table, directory (fs/filesystems/echfs.c)

    An echFS volume is a boot block, an allocation table that starts at block
    16 and holds the next block of every block, and a main directory of 256
    byte entries behind it.  The driver reaches the disk through a file
    descriptor of the device; [Volume] is what it uses of fs/fd.c for that.
    The state is the device, the [echfs_filesystem_t] of the mounted volume and
    the heap blocks its two caches point to.  A directory entry is the bytes of
    the packed structure, followed by what lies behind it in the page of the
    heap block; the diagnostics on the serial port are left out.  Buffers the
    functions hand out are values; the [kfree]s of such buffers do not show. *)

From S2P Require Import Prelude Locks CString Blocks Bytes DList Hashmap Vfs Kernel Stack Proc Sched SleepQueue Vmm Fd.

(** The calls of fs/fd.c on the device.  [vol_read fd buf] is [fd_read(fd, buf, count)] with the
    [count] bytes of the buffer, and gives what the buffer holds afterwards. *)
Class Volume (D : Type) := {
  vol_open : list Z → Z → stM D Z;
  vol_seek : Z → Z → Z → stM D Z;
  vol_read : Z → list Z → stM D (Z * list Z);
  vol_write : Z → list Z → stM D Z;
  vol_close : Z → stM D Z
}.

Definition ECHFS_END_OF_CHAIN : Z := 18446744073709551615.
Definition ECHFS_DELETED_ENTRY : Z := 18446744073709551614.
Definition ECHFS_ROOT_DIR_ID : Z := 18446744073709551615.
Definition ECHFS_SEARCH_FAIL : Z := 18446744073709551615.
Definition ECHFS_TYPE_DIR : Z := 1.
Definition ECHFS_TYPE_FILE : Z := 0.

(** ** The packed structures *)

(** [echfs_block0_t] *)
Definition BLOCK0_SIZE : Z := 36.
Definition b0_sig (b : list Z) : list Z := slice b 4 8.
Definition b0_block_count : list Z → Z := fld 12 8.
Definition b0_main_dir_blocks : list Z → Z := fld 20 8.
Definition b0_block_size : list Z → Z := fld 28 8.

(** [echfs_dir_entry_t]: on the disk without its last field. *)
Definition DIR_ENTRY_SIZE : Z := 256.
Definition SIZEOF_DIR_ENTRY : Z := 264.
Definition parent_id : list Z → Z := fld 0 8.
Definition entry_type : list Z → Z := fld 8 1.
Definition NAME_OFFSET : Z := 9.
Definition unix_access_time : list Z → Z := fld 210 8.
Definition unix_modify_time : list Z → Z := fld 218 8.
Definition starting_block : list Z → Z := fld 240 8.
Definition file_size_bytes : list Z → Z := fld 248 8.
Definition entry_number : list Z → Z := fld 256 8.
Definition set_parent_id : Z → list Z → list Z := set_fld 0 8.
Definition set_entry_type : Z → list Z → list Z := set_fld 8 1.
Definition set_access_time : Z → list Z → list Z := set_fld 210 8.
Definition set_modify_time : Z → list Z → list Z := set_fld 218 8.
Definition set_permissions : Z → list Z → list Z := set_fld 226 2.
Definition set_owner_id : Z → list Z → list Z := set_fld 228 2.
Definition set_group_id : Z → list Z → list Z := set_fld 230 2.
Definition set_create_time : Z → list Z → list Z := set_fld 232 8.
Definition set_starting_block : Z → list Z → list Z := set_fld 240 8.
Definition set_file_size : Z → list Z → list Z := set_fld 248 8.
Definition set_entry_number : Z → list Z → list Z := set_fld 256 8.

(** ** State *)

Record echfs_filesystem_t : Type := mk_echfs {
  alloc_table_addr : Z;
  alloc_table_size : Z;
  alloc_table_block : Z;
  alloc_table_blocks : Z;
  main_dir_block : Z;
  main_dir_blocks : Z;
  blocks : Z;
  block_size : Z;
  device_name : list Z;
  mountpoint_path : list Z;
  mountpoint : Z;
  cached_blocks : hashmap Z;
  cached_dir_entries : hashmap Z;
  cache_block_lock : Z;
  cache_dir_lock : Z
}.
#[export] Instance eta_echfs_filesystem_t : Eta echfs_filesystem_t :=
  λ r, mk_echfs (alloc_table_addr r) (alloc_table_size r) (alloc_table_block r) (alloc_table_blocks r)
    (main_dir_block r) (main_dir_blocks r) (blocks r) (block_size r) (device_name r) (mountpoint_path r)
    (mountpoint r) (cached_blocks r) (cached_dir_entries r) (cache_block_lock r) (cache_dir_lock r).

Record echfs_st (D : Type) : Type := mk_est {
  dev : D;
  efs : echfs_filesystem_t;
  bufs : gmap Z (list Z);
  ebrk : Z
}.
Arguments mk_est {D} _ _ _ _.
Arguments dev {D} _.
Arguments efs {D} _.
Arguments bufs {D} _.
Arguments ebrk {D} _.
#[export] Instance eta_echfs_st D : Eta (echfs_st D) := λ r, mk_est (dev r) (efs r) (bufs r) (ebrk r).

(** [BYTES_TO_BLOCKS], [ROUND_UP] and [ROUND_DOWN] *)
Definition BYTES_TO_BLOCKS {S} (bytes block_size : Z) : stM S Z := udiv (u64 (bytes + block_size - 1)) block_size.
Definition ROUND_UP {S} (n s : Z) : stM S Z := q ← udiv (u64 (n + s - 1)) s; mret (u64 (q * s)).
Definition ROUND_DOWN {S} (n s : Z) : stM S Z := q ← udiv n s; mret (u64 (q * s)).

(** The block of the table with an entry, and the index of the entry in it. *)
Definition table_place {S} (f : echfs_filesystem_t) (block : Z) : stM S (Z * Z) :=
  q ← udiv (u64 (block * 8)) (block_size f);
  per ← udiv (block_size f) 8;
  (if per =? 0 then crashM Fault else mret tt) ;;
  mret (u64 (q + 16), block mod per).

(** The blocks of a range: how many, and how many blocks come before it. *)
Definition range_blocks {S} (f : echfs_filesystem_t) (start count : Z) : stM S (Z * Z) :=
  st ← ROUND_DOWN start (block_size f);
  en ← ROUND_UP (u64 (start + count)) (block_size f);
  n ← udiv (u64 (en - st)) (block_size f);
  start_block ← udiv st (block_size f);
  mret (n, start_block).

Section echfs.
Context {D : Type} `{Volume D} (junk : Z → list Z).

Abbreviation eM := (stM (echfs_st D)).
(** The bytes of a cleared heap block that can be accessed. *)
Definition kcalloc_bytes (n : Z) : list Z := b_data (kcalloc_block 0 1 junk n).

Definition on_dev {A} (m : stM D A) : eM A := zoom dev (λ d s, s <| dev := d |>) m.
Definition upd_efs (f : echfs_filesystem_t → echfs_filesystem_t) : eM unit :=
  modify (λ s, s <| efs := f (efs s) |>).
Definition on_cached_blocks {A} (m : stM (hashmap Z) A) : eM A :=
  zoom (λ s, cached_blocks (efs s)) (λ h s, s <| efs := efs s <| cached_blocks := h |> |>) m.
Definition on_cached_dirs {A} (m : stM (hashmap Z) A) : eM A :=
  zoom (λ s, cached_dir_entries (efs s)) (λ h s, s <| efs := efs s <| cached_dir_entries := h |> |>) m.

Definition block_acquire : eM unit :=
  s ← get;
  match spinlock_lock (cache_block_lock (efs s)) with
  | Ok l => upd_efs (λ f, f <| cache_block_lock := l |>)
  | Crash c => crashM c
  end.
Definition block_release : eM unit :=
  upd_efs (λ f, f <| cache_block_lock := spinlock_unlock (cache_block_lock f) |>).
Definition dir_acquire : eM unit :=
  s ← get;
  match spinlock_lock (cache_dir_lock (efs s)) with
  | Ok l => upd_efs (λ f, f <| cache_dir_lock := l |>)
  | Crash c => crashM c
  end.
Definition dir_release : eM unit :=
  upd_efs (λ f, f <| cache_dir_lock := spinlock_unlock (cache_dir_lock f) |>).

(** A heap block of the caches: [kcalloc] followed by the copy into it. *)
Definition new_buf (d : list Z) : eM Z :=
  s ← get;
  modify (λ s, s <| bufs := <[ebrk s := d]> (bufs s) |> <| ebrk := ebrk s + 1 |>) ;;
  mret (ebrk s).
Definition buf_at (a : Z) : eM (list Z) := s ← get; of_opt (bufs s !! a).

(** ** Mounting *)

Definition echfs_check_and_init (device : list Z) : eM Z :=
  device_fd ← on_dev (vol_open device 0);
  upd_efs (λ f, f <| cached_blocks := init_hashmap |> <| cached_dir_entries := init_hashmap |>) ;;
  if device_fd <? 0 then mret 0
  else
    '(_, block0) ← on_dev (vol_read device_fd (take (Z.to_nat BLOCK0_SIZE) (kcalloc_bytes BLOCK0_SIZE)));
    on_dev (vol_seek device_fd 0 SEEK_SET) ;;
    if bool_decide (b0_sig block0 = chars "_ECH_FS_") then
      let bs := b0_block_size block0 in
      let table_size := u64 (b0_block_count block0 * 8) in
      table_blocks ← BYTES_TO_BLOCKS table_size bs;
      upd_efs (λ f, f <| device_name := device |> <| blocks := b0_block_count block0 |> <| block_size := bs |>
                      <| alloc_table_addr := u64 (bs * 16) |> <| alloc_table_size := table_size |>
                      <| alloc_table_block := 16 |> <| alloc_table_blocks := table_blocks |>
                      <| main_dir_block := u64 (table_blocks + 16) |>
                      <| main_dir_blocks := b0_main_dir_blocks block0 |>) ;;
      on_dev (vol_close device_fd) ;;
      mret 1
    else
      on_dev (vol_close device_fd) ;;
      mret 0.

(** ** Blocks *)

Definition echfs_read_block (block : Z) : eM (list Z) :=
  f ← gets efs;
  let data_area := take (Z.to_nat (block_size f)) (kcalloc_bytes (block_size f)) in
  block_acquire ;;
  cached ← on_cached_blocks (hashmap_get_elem block);
  if negb (cached =? 0) then
    data ← buf_at cached;
    block_release ;;
    mret data
  else
    block_release ;;
    device_fd ← on_dev (vol_open (device_name f) 0);
    on_dev (vol_seek device_fd (u64 (block * block_size f)) SEEK_SET) ;;
    '(_, data_area) ← on_dev (vol_read device_fd data_area);
    block_acquire ;;
    cached_block ← new_buf data_area;
    on_cached_blocks (hashmap_set_elem block cached_block) ;;
    block_release ;;
    on_dev (vol_close device_fd) ;;
    mret data_area.

(** [data] is what can be read at the pointer. *)
Definition echfs_write_block (block : Z) (data : list Z) : eM unit :=
  f ← gets efs;
  (if zlen data <? block_size f then crashM Fault else mret tt) ;;
  let data := take (Z.to_nat (block_size f)) data in
  device_fd ← on_dev (vol_open (device_name f) 0);
  on_dev (vol_seek device_fd (u64 (block * block_size f)) SEEK_SET) ;;
  on_dev (vol_write device_fd data) ;;
  block_acquire ;;
  cached ← on_cached_blocks (hashmap_get_elem block);
  (if negb (cached =? 0) then modify (λ s, s <| bufs := <[cached := data]> (bufs s) |>) else mret tt) ;;
  block_release ;;
  on_dev (vol_close device_fd) ;;
  mret tt.

(** ** Directory entries *)

Definition dir_offset (f : echfs_filesystem_t) (entry : Z) : Z :=
  u64 (u64 (main_dir_block f * block_size f) + u64 (entry * DIR_ENTRY_SIZE)).

Definition echfs_read_dir_entry (entry : Z) : eM (list Z) :=
  f ← gets efs;
  let data_area := kcalloc_bytes DIR_ENTRY_SIZE in
  device_fd ← on_dev (vol_open (device_name f) 0);
  on_dev (vol_seek device_fd (dir_offset f entry) SEEK_SET) ;;
  '(_, data) ← on_dev (vol_read device_fd (take (Z.to_nat DIR_ENTRY_SIZE) data_area));
  on_dev (vol_close device_fd) ;;
  mret (data ++ drop (Z.to_nat DIR_ENTRY_SIZE) data_area).

(** The [do ... while] over a bucket, and the loop over the buckets, of HASHMAP_ITERABLE. *)
Fixpoint dirty_bucket (n : nat) (entry cur : Z) : eM bool :=
  match n with
  | O => crashM Hang
  | S n' =>
      e ← on_cached_dirs (on_heap (load cur));
      d ← buf_at (e_data e);
      if entry_number d =? entry then on_cached_dirs (hashmap_remove_elem (e_key e)) ;; mret true
      else if e_next e =? 0 then mret false
      else dirty_bucket n' entry (e_next e)
  end.

Fixpoint dirty_scan (bs : list Z) (entry : Z) : eM bool :=
  match bs with
  | [] => mret false
  | elements :: bs' =>
      if elements =? 0 then dirty_scan bs' entry
      else
        s ← get;
        found ← dirty_bucket (S (size (heap (cached_dir_entries (efs s))))) entry elements;
        if found : bool then mret true else dirty_scan bs' entry
  end.

Definition echfs_mark_entry_cache_dirty (entry : Z) : eM Z :=
  dir_acquire ;;
  s ← get;
  found ← dirty_scan (buckets (cached_dir_entries (efs s))) entry;
  dir_release ;;
  mret (if found : bool then 1 else 0).

Definition echfs_write_dir_entry (entry : Z) (data : list Z) : eM unit :=
  echfs_mark_entry_cache_dirty entry ;;
  f ← gets efs;
  device_fd ← on_dev (vol_open (device_name f) 0);
  on_dev (vol_seek device_fd (dir_offset f entry) SEEK_SET) ;;
  on_dev (vol_write device_fd (take (Z.to_nat DIR_ENTRY_SIZE) data)) ;;
  on_dev (vol_close device_fd) ;;
  mret tt.

(** [for (i = start; ...; i++)] of [get_free_directory_entry], with [n] entries left. *)
Fixpoint free_entry_loop (n : nat) (i : Z) : eM Z :=
  match n with
  | O => mret 0
  | S n' =>
      dir_entry ← echfs_read_dir_entry i;
      let id := parent_id dir_entry in
      if (id =? 0) || (id =? ECHFS_DELETED_ENTRY) then mret i else free_entry_loop n' (i + 1)
  end.

Definition get_free_directory_entry : eM Z :=
  f ← gets efs;
  free_entry_loop (Z.to_nat (u64 (main_dir_blocks f * block_size f) / DIR_ENTRY_SIZE)) 0.

(** ** The allocation table *)

Definition echfs_get_entry_for_block (block : Z) : eM Z :=
  f ← gets efs;
  '(table_block, i) ← table_place f block;
  alloc_table_data ← echfs_read_block table_block;
  mret (fld (8 * i) 8 alloc_table_data).

Definition echfs_set_entry_for_block (block data : Z) : eM unit :=
  f ← gets efs;
  '(table_block, i) ← table_place f block;
  alloc_table_data ← echfs_read_block table_block;
  echfs_write_block table_block (set_fld (8 * i) 8 data alloc_table_data).

Fixpoint free_block_loop (n : nat) (i : Z) : eM Z :=
  match n with
  | O => mret 0
  | S n' =>
      e ← echfs_get_entry_for_block i;
      if e =? 0 then mret i else free_block_loop n' (i + 1)
  end.

Definition find_free_block : eM Z := f ← gets efs; free_block_loop (Z.to_nat (blocks f)) 0.

(** ** Files *)

(** The [while (1)] of [echfs_read_file], with the bytes of [data] written so far. *)
Fixpoint read_file_loop (n : nat) (room current_block : Z) (data : list Z) : eM (list Z) :=
  match n with
  | O => crashM Hang
  | S n' =>
      f ← gets efs;
      temp_data ← echfs_read_block current_block;
      (if room <? zlen data + block_size f then crashM Fault else mret tt) ;;
      next ← echfs_get_entry_for_block current_block;
      if next =? ECHFS_END_OF_CHAIN then mret (data ++ temp_data)
      else read_file_loop n' room next (data ++ temp_data)
  end.

(** The bytes read, and the size of the file. *)
Definition echfs_read_file (fuel : nat) (file : list Z) : eM (list Z * Z) :=
  f ← gets efs;
  n ← ROUND_UP (file_size_bytes file) (block_size f);
  data ← read_file_loop fuel (zlen (kcalloc_bytes n)) (starting_block file) [];
  mret (data, file_size_bytes file).

(** [for (i = 0; i < start_block; i++)]: the block [n] links further, or null at the end of the chain. *)
Fixpoint follow (n : nat) (current_block : Z) : eM (option Z) :=
  match n with
  | O => mret (Some current_block)
  | S n' =>
      next ← echfs_get_entry_for_block current_block;
      if next =? ECHFS_END_OF_CHAIN then mret None else follow n' next
  end.

Fixpoint read_blocks_loop (n : nat) (current_block : Z) (buffer : list Z) : eM (option (list Z)) :=
  match n with
  | O => mret (Some buffer)
  | S n' =>
      block ← echfs_read_block current_block;
      match n' with
      | O => mret (Some (buffer ++ block))
      | S _ =>
          next ← echfs_get_entry_for_block current_block;
          if next =? ECHFS_END_OF_CHAIN then mret None else read_blocks_loop n' next (buffer ++ block)
      end
  end.

Definition read_blocks_for_range (file : list Z) (read_start read_count : Z) : eM (option (list Z)) :=
  f ← gets efs;
  '(blocks_to_read, start_block) ← range_blocks f read_start read_count;
  first ← follow (Z.to_nat start_block) (starting_block file);
  match first with
  | None => mret None
  | Some current_block => read_blocks_loop (Z.to_nat blocks_to_read) current_block []
  end.

Definition read_for_range (file : list Z) (read_start read_count : Z) : eM (option (list Z)) :=
  f ← gets efs;
  block_buffer ← read_blocks_for_range file read_start read_count;
  match block_buffer with
  | None => mret None
  | Some b =>
      let skip := read_start mod block_size f in
      if zlen b <? skip + read_count then crashM Fault else mret (Some (slice b skip read_count))
  end.

Fixpoint write_blocks_loop (n : nat) (current_block : Z) (data : list Z) : eM Z :=
  match n with
  | O => mret 0
  | S n' =>
      f ← gets efs;
      echfs_write_block current_block data ;;
      match n' with
      | O => mret 0
      | S _ =>
          next ← echfs_get_entry_for_block current_block;
          if next =? ECHFS_END_OF_CHAIN then mret 1
          else write_blocks_loop n' next (drop (Z.to_nat (block_size f)) data)
      end
  end.

Definition write_blocks_for_range (file : list Z) (write_start write_count : Z) (data : list Z) : eM Z :=
  f ← gets efs;
  '(blocks_to_read, start_block) ← range_blocks f write_start write_count;
  first ← follow (Z.to_nat start_block) (starting_block file);
  match first with
  | None => mret 1
  | Some current_block => write_blocks_loop (Z.to_nat blocks_to_read) current_block data
  end.

Definition write_for_range (file : list Z) (write_start write_count : Z) (data : list Z) : eM Z :=
  f ← gets efs;
  block_buffer ← read_blocks_for_range file write_start write_count;
  match block_buffer with
  | None => mret 1
  | Some b =>
      let skip := write_start mod block_size f in
      (if (zlen b <? skip + write_count) || (zlen data <? write_count) then crashM Fault else mret tt) ;;
      err ← write_blocks_for_range file write_start write_count
              (splice b skip (take (Z.to_nat write_count) data));
      mret (if negb (err =? 0) then 1 else 0)
  end.

(** The last block of the chain, and how many there are. *)
Fixpoint chain_end (n : nat) (blocks_total cur_block : Z) : eM (Z * Z) :=
  match n with
  | O => crashM Hang
  | S n' =>
      let blocks_total := u64 (blocks_total + 1) in
      e ← echfs_get_entry_for_block cur_block;
      if e =? ECHFS_END_OF_CHAIN then mret (blocks_total, cur_block)
      else next ← echfs_get_entry_for_block cur_block; chain_end n' blocks_total next
  end.

Fixpoint extend_loop (n : nat) (cur_block : Z) : eM unit :=
  match n with
  | O => mret tt
  | S n' =>
      free_block ← find_free_block;
      echfs_set_entry_for_block cur_block free_block ;;
      echfs_set_entry_for_block free_block ECHFS_END_OF_CHAIN ;;
      extend_loop n' free_block
  end.

Definition allocate_blocks_for_file (fuel : nat) (file : list Z) (total_blocks : Z) : eM unit :=
  '(blocks_total, cur_block) ← chain_end fuel 0 (starting_block file);
  extend_loop (Z.to_nat (u64 (total_blocks - blocks_total))) cur_block.

(** ** Names *)

(** The [while (1)] of [echfs_find_entry_name_parent], from entry [entry_n]. *)
Fixpoint find_entry_loop (n : nat) (name : list Z) (parent entry_n : Z) : eM Z :=
  match n with
  | O => crashM Hang
  | S n' =>
      entry ← echfs_read_dir_entry entry_n;
      same ← (if parent_id entry =? parent then
                '(r, _) ← on_buf (strcmp (drop (Z.to_nat NAME_OFFSET) entry)) name; mret (r =? 0)
              else mret false);
      if same : bool then mret entry_n
      else if parent_id entry =? 0 then mret ECHFS_SEARCH_FAIL
      else find_entry_loop n' name parent (u64 (entry_n + 1))
  end.

(** [name] is the buffer with the name. *)
Definition echfs_find_entry_name_parent (fuel : nat) (name : list Z) (parent : Z) : eM Z :=
  find_entry_loop fuel name parent 0.

(** The [for] loop over a path element: whether it is the last one, the path behind it and the buffer
    with the name; [None] is a name that is too long. *)
Fixpoint scan_name (filename : list Z) (i : Z) (current_name : list Z) : res (option (bool * list Z * list Z)) :=
  match filename with
  | [] => Ok (Some (true, [], current_name))
  | c :: rest =>
      if c =? SLASH then Ok (Some (false, rest, current_name))
      else
        match (st i c ;; st (i + 1) 0) current_name with
        | Crash e => Crash e
        | Ok (_, current_name) =>
            if (i + 1 =? 201) && negb (bool_decide (rest = [])) then Ok None
            else scan_name rest (i + 1) current_name
        end
  end.

(** What the cache keeps of an entry. *)
Definition entry_copy (e : list Z) : list Z :=
  take (Z.to_nat SIZEOF_DIR_ENTRY) e ++ drop (Z.to_nat SIZEOF_DIR_ENTRY) (kcalloc_bytes SIZEOF_DIR_ENTRY).

(** From [next_elem]. *)
Fixpoint resolve_loop (fuel n : nat) (filename current_name : list Z) (current_parent err_code unid : Z)
    : eM (Z * option (list Z)) :=
  match n with
  | O => crashM Hang
  | S n' =>
      '(_, current_name) ← on_buf (st 0 0) current_name;
      r ← of_res (scan_name filename 0 current_name);
      match r with
      | None => mret (Z.lor err_code 2, None)
      | Some (is_last, rest, current_name) =>
          found_elem_index ← echfs_find_entry_name_parent fuel current_name current_parent;
          if found_elem_index =? ECHFS_SEARCH_FAIL then mret (Z.lor err_code 4, None)
          else
            cur_entry ← echfs_read_dir_entry found_elem_index;
            if negb is_last then
              if negb (entry_type cur_entry =? ECHFS_TYPE_DIR) then mret (Z.lor err_code 4, None)
              else resolve_loop fuel n' rest current_name (starting_block cur_entry) err_code unid
            else
              let cur_entry := set_entry_number found_elem_index cur_entry in
              (if negb (unid =? 0) then
                 dir_acquire ;;
                 dir_entry_save ← new_buf (entry_copy cur_entry);
                 on_cached_dirs (hashmap_set_elem unid dir_entry_save) ;;
                 dir_release
               else mret tt) ;;
              mret (err_code, Some cur_entry)
      end
  end.

(** The error code the function leaves (it keeps [err_code] when the entry is in the cache), and the
    entry or null. *)
Definition echfs_path_resolve (fuel : nat) (filename : list Z) (err_code unid : Z) : eM (Z * option (list Z)) :=
  cached ← (if negb (unid =? 0) then
              dir_acquire ;;
              dir_entry ← on_cached_dirs (hashmap_get_elem unid);
              r ← (if negb (dir_entry =? 0) then e ← buf_at dir_entry; mret (Some (entry_copy e)) else mret None);
              dir_release ;;
              mret r
            else mret None);
  match cached with
  | Some e => mret (err_code, Some e)
  | None =>
      let filename := if bool_decide (head filename = Some SLASH) then tail filename else filename in
      r ← strcmp_of filename [SLASH];
      if r =? 0 then mret (1, None)
      else resolve_loop fuel (S (length filename)) filename (replicate 201 0) ECHFS_ROOT_DIR_ID 0 unid
  end.
End echfs.
