(* ===== verification/EchfsBlocks.v ===== *)
(** * The block layer of echFS: a coherent cache over the disk

    [VolumeLaws] is what the driver may expect of the device: a seek sets the
    position, and reads and writes transfer the bytes of the disk there.  Under
    [est_ok] (the volume's geometry, the locks free, every cached block equal to
    the block on the disk, the main directory apart, which is written past the
    cache) reading a block gives the disk's bytes and writing one changes
    exactly its bytes; the allocation table is then the array of 64-bit words
    behind block 16. *)

From S2P Require Import Prelude Locks CString Blocks Bytes DList Hashmap HashmapTheorems Vfs Kernel Fd Echfs.

Class VolumeLaws (D : Type) `{Volume D} := {
  disk : D → list Z;
  device : list Z;
  vol_ok : D → Prop;
  at_pos : D → Z → Z → Prop;
  vol_open_ok d : vol_ok d →
    ∃ fd d', vol_open device 0 d = Ok (fd, d') ∧ 0 ≤ fd ∧ at_pos d' fd 0 ∧ disk d' = disk d;
  vol_seek_ok d fd p off : at_pos d fd p →
    ∃ r d', vol_seek fd off SEEK_SET d = Ok (r, d') ∧ at_pos d' fd off ∧ disk d' = disk d;
  vol_read_ok d fd p buf : at_pos d fd p → 0 ≤ p → p + zlen buf ≤ zlen (disk d) →
    ∃ r d', vol_read fd buf d = Ok ((r, slice (disk d) p (zlen buf)), d') ∧
      at_pos d' fd (p + zlen buf) ∧ disk d' = disk d;
  vol_write_ok d fd p data : at_pos d fd p → 0 ≤ p → p + zlen data ≤ zlen (disk d) →
    ∃ r d', vol_write fd data d = Ok (r, d') ∧ at_pos d' fd (p + zlen data) ∧ disk d' = splice (disk d) p data;
  vol_close_ok d fd p : at_pos d fd p →
    ∃ r d', vol_close fd d = Ok (r, d') ∧ vol_ok d' ∧ disk d' = disk d
}.

(** The layout of a volume of [n] bytes. *)
Record geometry (f : echfs_filesystem_t) (n : Z) : Prop := {
  g_size : 0 < block_size f;
  g_words : block_size f mod 8 = 0;
  g_table : main_dir_block f = 16 + (8 * blocks f + block_size f - 1) / block_size f;
  g_dir : 0 ≤ main_dir_blocks f;
  g_fits : main_dir_block f + main_dir_blocks f ≤ blocks f;
  g_disk : blocks f * block_size f ≤ n;
  g_range : n + block_size f < U64_MOD;
  g_count : 0 ≤ 8 * blocks f < U64_MOD
}.

Definition in_dir (f : echfs_filesystem_t) (b : Z) : Prop :=
  main_dir_block f ≤ b < main_dir_block f + main_dir_blocks f.

(** A block of the disk, and a word of the allocation table. *)
Definition blk (f : echfs_filesystem_t) (dsk : list Z) (b : Z) : list Z :=
  slice dsk (b * block_size f) (block_size f).
Definition fat_at (f : echfs_filesystem_t) (b : Z) : Z := 16 * block_size f + 8 * b.
Definition fat (f : echfs_filesystem_t) (dsk : list Z) (b : Z) : Z := fld (fat_at f b) 8 dsk.

Section blocks.
Context {D : Type} {V : Volume D} {VL : VolumeLaws D} (junk : Z → list Z).
Implicit Types s : echfs_st D.

(** What the cached blocks [mb] hold. *)
Record cache_ok (f : echfs_filesystem_t) (dsk : list Z) (bufs : gmap Z (list Z)) (brk : Z) (mb : gmap Z Z) : Prop := {
  c_brk : 0 < brk;
  c_buf b a : mb !! b = Some a → 0 < a < brk ∧ ∃ data, bufs !! a = Some data ∧
    (0 ≤ b → ¬ in_dir f b → (b + 1) * block_size f ≤ zlen dsk → data = blk f dsk b);
  c_inj b b' a : mb !! b = Some a → mb !! b' = Some a → b = b'
}.

Record est_ok s : Prop := {
  e_vol : vol_ok (dev s);
  e_name : device_name (efs s) = device;
  e_geo : geometry (efs s) (zlen (disk (dev s)));
  e_lock : unlocked (cache_block_lock (efs s));
  e_cache : ∃ mb, hm_rep get_bucket_from_hash (cached_blocks (efs s)) mb ∧
    cache_ok (efs s) (disk (dev s)) (bufs s) (ebrk s) mb
}.

(** An operation that leaves [dsk] on the disk and touches nothing but the disk and the block cache. *)
Definition leaves s s' (dsk : list Z) : Prop :=
  est_ok s' ∧ disk (dev s') = dsk ∧ ∃ h, efs s' = efs s <| cached_blocks := h |>.

Lemma leaves_refl s : est_ok s → leaves s s (disk (dev s)).
Proof. intros Hs. split_and!; [done|done|]. exists (cached_blocks (efs s)). by destruct (efs s). Qed.

Lemma leaves_trans s s1 s2 d1 d2 : leaves s s1 d1 → leaves s1 s2 d2 → leaves s s2 d2.
Proof.
  intros (_ & _ & h1 & E1) (Hs & Hd & h2 & E2). split_and!; [done..|]. exists h2. by rewrite E2, E1.
Qed.

(** ** Steps *)

Lemma on_dev_ok {A} (m : stM D A) s a d : m (dev s) = Ok (a, d) → on_dev m s = Ok (a, s <| dev := d |>).
Proof. intros Hm. unfold on_dev. by apply (zoom_ok dev (λ d s, s <| dev := d |>)). Qed.

Lemma block_acquire_ok s : unlocked (cache_block_lock (efs s)) →
  block_acquire s = Ok (tt, s <| efs := efs s <| cache_block_lock := Z.lor (cache_block_lock (efs s)) 1 |> |>).
Proof. intros Hl. unfold block_acquire. mstep. by rewrite (spinlock_lock_free _ Hl). Qed.

(** The cache, through the finite map it implements. *)
Lemma hm_get s mb b : hm_rep get_bucket_from_hash (cached_blocks (efs s)) mb →
  on_cached_blocks (hashmap_get_elem b) s = Ok (default 0 (mb !! b), s).
Proof.
  intros [Ls Hm]. unfold on_cached_blocks.
  erewrite zoom_ok; [|apply (get_elem_ok _ _ hash_bucket_range _ _ _ _ Hm)]. by destruct s as [? [] ? ?].
Qed.

Lemma hm_set s mb b a : hm_rep get_bucket_from_hash (cached_blocks (efs s)) mb →
  ∃ h, on_cached_blocks (hashmap_set_elem b a) s = Ok (tt, s <| efs := efs s <| cached_blocks := h |> |>) ∧
    hm_rep get_bucket_from_hash h (<[b := a]> mb).
Proof.
  intros Hm. destruct (set_elem_ok _ false hash_bucket_range _ _ b a Hm) as (h & E & Hr).
  exists h. split; [|done]. unfold on_cached_blocks. by erewrite zoom_ok by exact E.
Qed.

Lemma hm_miss (o : option Z) : (∀ a, o = Some a → a ≠ 0) → default 0 o = 0 → o = None.
Proof. destruct o as [a|]; cbn; [|done]. intros Ha Hz. by destruct (Ha a). Qed.

Lemma take_kcalloc n : 0 ≤ n → zlen (take (Z.to_nat n) (kcalloc_bytes junk n)) = n.
Proof.
  intros Hn. unfold kcalloc_bytes. destruct (kcalloc_block_ok 0 1 junk ltac:(lia) n Hn) as [_ Hl].
  pose proof (capacity_ge 1 ltac:(lia) n Hn). cbn [b_size kcalloc_block] in Hl.
  unfold zlen in *. rewrite length_take. lia.
Qed.

Lemma cache_ok_insert f dsk bf br mb b data :
  cache_ok f dsk bf br mb →
  (0 ≤ b → ¬ in_dir f b → (b + 1) * block_size f ≤ zlen dsk → data = blk f dsk b) →
  cache_ok f dsk (<[br := data]> bf) (br + 1) (<[b := br]> mb).
Proof.
  intros [H0 Hb Hi] Hd. split; [lia| |].
  - intros b' a Hba. apply lookup_insert_Some in Hba as [[<- <-]|[Hne Hba]].
    + split; [lia|]. exists data. by rewrite lookup_insert_eq.
    + destruct (Hb _ _ Hba) as (Hr & x & Hx & Hdx). split; [lia|]. exists x. by rewrite lookup_insert_ne by lia.
  - intros b1 b2 a Ha1 Ha2.
    apply lookup_insert_Some in Ha1. apply lookup_insert_Some in Ha2.
    destruct Ha1 as [[<- <-]|[N1 Ha1]], Ha2 as [[<- E2]|[N2 Ha2]]; try done.
    + destruct (Hb _ _ Ha2). lia.
    + subst. destruct (Hb _ _ Ha1). lia.
    + by eapply Hi.
Qed.

Lemma leaves_mk s d h bf br dsk mb :
  est_ok s → vol_ok d → disk d = dsk → zlen dsk = zlen (disk (dev s)) →
  hm_rep get_bucket_from_hash h mb → cache_ok (efs s) dsk bf br mb →
  leaves s (mk_est d (efs s <| cached_blocks := h |>) bf br) dsk.
Proof.
  intros [Hv Hn [] Hl _] Hd <- Hz Hm [Hb Hc Hi]. split_and!; [|done|by exists h].
  split; [done|done| |done|exists mb; split; [done|by split]]. cbn [dev efs]. rewrite Hz. by split.
Qed.

Lemma block_place f n b : geometry f n → 0 ≤ b → (b + 1) * block_size f ≤ n →
  u64 (b * block_size f) = b * block_size f.
Proof.
  intros Hg Hb Hn. pose proof (g_size _ _ Hg). pose proof (g_range _ _ Hg).
  pose proof (Z.mul_nonneg_nonneg b (block_size f) Hb ltac:(lia)). apply u64_small. unfold is_u64. lia.
Qed.

Lemma read_block_ok s b :
  est_ok s → 0 ≤ b → (b + 1) * block_size (efs s) ≤ zlen (disk (dev s)) → ¬ in_dir (efs s) b →
  ∃ s', echfs_read_block junk b s = Ok (blk (efs s) (disk (dev s)) b, s') ∧ leaves s s' (disk (dev s)).
Proof.
  intros Hok Hb Hr Hd. pose proof Hok as [Hv Hn Hg Hl (mb & Hm & Hc)]. pose proof (block_place _ _ _ Hg Hb Hr) as Hp.
  pose proof (g_size _ _ Hg) as Hbs.
  unfold echfs_read_block. mstep. mrun (block_acquire_ok s Hl). set (s1 := s <| efs := _ |>).
  mrun (hm_get s1 mb b Hm). destruct (mb !! b) as [a|] eqn:Ea; cbn [from_option id].
  - destruct (c_buf _ _ _ _ _ Hc _ _ Ea) as (Ha & data & Hbuf & Hdata).
    rewrite (proj2 (Z.eqb_neq a 0)) by lia. cbn [negb].
    erewrite bind_ok; [|unfold buf_at; mstep; apply of_opt_ok; exact Hbuf]. cbv beta. mstep.
    rewrite <-(Hdata Hb Hd Hr). exists s. split; [|by apply leaves_refl].
    unfold mret, stM_ret. do 2 f_equal. subst s1. destruct s as [? [] ? ?]. cbn in *. by rewrite lock_unlock.
  - cbn [negb Z.eqb]. mstep.
    assert (s1 <| efs := efs s1 <| cache_block_lock := spinlock_unlock (cache_block_lock (efs s1)) |> |> = s) as E.
    { subst s1. destruct s as [? [] ? ?]. cbn in *. by rewrite lock_unlock. }
    rewrite E. clear E s1. rewrite Hn.
    destruct (vol_open_ok _ Hv) as (fd & d1 & E1 & Hfd & A1 & D1). mrun (on_dev_ok _ _ _ _ E1).
    destruct (vol_seek_ok d1 fd 0 (u64 (b * block_size (efs s))) A1) as (r2 & d2 & E2 & A2 & D2).
    erewrite bind_ok; [|by apply on_dev_ok]. cbv beta. rewrite Hp in A2.
    set (buf := take _ _). assert (zlen buf = block_size (efs s)) as Hz by (apply take_kcalloc; lia).
    destruct (vol_read_ok d2 fd _ buf A2) as (r3 & d3 & E3 & A3 & D3); [nia|rewrite Hz, D2, D1; nia|].
    erewrite bind_ok; [|by apply on_dev_ok]. cbv beta iota.
    rewrite D2, D1, Hz. fold (blk (efs s) (disk (dev s)) b).
    erewrite bind_ok; [|by apply block_acquire_ok]. cbv beta. mstep. cbn [ebrk].
    match goal with |- context [(on_cached_blocks (hashmap_set_elem b ?a) ≫= _) ?s4] =>
      destruct (hm_set s4 mb b a Hm) as (h & E4 & Hh) end.
    mrun E4. mstep.
    destruct (vol_close_ok d3 fd _ A3) as (r5 & d5 & E5 & V5 & D5).
    erewrite bind_ok; [|by apply on_dev_ok]. cbv beta.
    exists (mk_est d5 (efs s <| cached_blocks := h |>) (<[ebrk s := blk (efs s) (disk (dev s)) b]> (bufs s)) (ebrk s + 1)).
    split; [unfold mret, stM_ret; do 2 f_equal; destruct s as [? [] ? ?]; cbn in *; by rewrite lock_unlock|].
    apply (leaves_mk _ _ _ _ _ _ (<[b := ebrk s]> mb)); [done|done|congruence|congruence|done|by apply cache_ok_insert].
Qed.

Lemma blk_write_eq f dsk b data : 0 < block_size f → 0 ≤ b → (b + 1) * block_size f ≤ zlen dsk →
  zlen data = block_size f → blk f (splice dsk (b * block_size f) data) b = data.
Proof. intros Hs Hb Hr Hd. unfold blk. rewrite <-Hd at 3. apply slice_splice_eq; nia. Qed.

Lemma blk_write_ne f dsk b data b' : 0 < block_size f → 0 ≤ b → (b + 1) * block_size f ≤ zlen dsk →
  zlen data = block_size f → 0 ≤ b' → (b' + 1) * block_size f ≤ zlen dsk → b' ≠ b →
  blk f (splice dsk (b * block_size f) data) b' = blk f dsk b'.
Proof.
  intros Hs Hb Hr Hd Hb' Hr' Hne. unfold blk. apply slice_splice_ne; rewrite ?Hd; [nia|nia|nia|nia|nia|].
  destruct (decide (b' < b)); [left|right]; nia.
Qed.

Lemma cache_ok_write f dsk bf br mb b data : 0 < block_size f → 0 ≤ b → (b + 1) * block_size f ≤ zlen dsk →
  zlen data = block_size f → cache_ok f dsk bf br mb →
  cache_ok f (splice dsk (b * block_size f) data)
    (match mb !! b with Some a => <[a := data]> bf | None => bf end) br mb.
Proof.
  intros Hs Hb Hr Hd [Hbr Hbuf Hi].
  assert (zlen (splice dsk (b * block_size f) data) = zlen dsk) as Hz by (apply zlen_splice; nia).
  split; [done| |done]. intros b' a Hba. destruct (Hbuf _ _ Hba) as (Ha & x & Hx & Hxd). split; [done|].
  rewrite Hz. destruct (decide (b' = b)) as [->|Hne].
  - rewrite Hba. exists data. split; [apply lookup_insert_eq|]. intros _ _ _. symmetry. by apply blk_write_eq.
  - exists x. split.
    + destruct (mb !! b) as [a'|] eqn:E; [|done]. rewrite lookup_insert_ne; [done|].
      intros ->. by apply Hne, (Hi _ _ _ Hba E).
    + intros P1 P2 P3. rewrite blk_write_ne by done. by apply Hxd.
Qed.

Lemma write_block_ok s b data :
  est_ok s → 0 ≤ b → (b + 1) * block_size (efs s) ≤ zlen (disk (dev s)) → block_size (efs s) ≤ zlen data →
  ∃ s', echfs_write_block b data s = Ok (tt, s') ∧
    leaves s s' (splice (disk (dev s)) (b * block_size (efs s)) (take (Z.to_nat (block_size (efs s))) data)).
Proof.
  intros Hok Hb Hr Hd. pose proof Hok as [Hv Hn Hg Hl (mb & Hm & Hc)].
  pose proof (block_place _ _ _ Hg Hb Hr) as Hp. pose proof (g_size _ _ Hg) as Hbs.
  unfold echfs_write_block. mstep. rewrite (proj2 (Z.ltb_ge _ _) Hd). mstep.
  set (t := take _ data).
  assert (zlen t = block_size (efs s)) as Ht by (subst t; unfold zlen in *; rewrite length_take; lia).
  rewrite Hn. destruct (vol_open_ok _ Hv) as (fd & d1 & E1 & Hfd & A1 & D1). mrun (on_dev_ok _ _ _ _ E1).
  destruct (vol_seek_ok d1 fd 0 (u64 (b * block_size (efs s))) A1) as (r2 & d2 & E2 & A2 & D2).
  erewrite bind_ok; [|by apply on_dev_ok]. cbv beta. rewrite Hp in A2.
  destruct (vol_write_ok d2 fd _ t A2) as (r3 & d3 & E3 & A3 & D3); [nia|rewrite Ht, D2, D1; nia|].
  erewrite bind_ok; [|by apply on_dev_ok]. cbv beta.
  erewrite bind_ok; [|by apply block_acquire_ok]. cbv beta.
  erewrite bind_ok; [|apply (hm_get _ mb); exact Hm]. cbv beta.
  destruct (vol_close_ok d3 fd _ A3) as (r5 & d5 & E5 & V5 & D5).
  set (bf := match mb !! b with Some a => <[a := t]> (bufs s) | None => bufs s end).
  exists (mk_est d5 (efs s <| cached_blocks := cached_blocks (efs s) |>) bf (ebrk s)). split.
  - destruct (mb !! b) as [a|] eqn:Ea; cbn [from_option id].
    + destruct (c_buf _ _ _ _ _ Hc _ _ Ea) as (Ha & _). rewrite (proj2 (Z.eqb_neq a 0)) by lia. cbn [negb].
      do 2 mstep. erewrite bind_ok; [|by apply on_dev_ok]. cbv beta.
      unfold mret, stM_ret. do 2 f_equal. destruct s as [? [] ? ?]. cbn in *. by rewrite lock_unlock.
    + cbn [negb Z.eqb]. do 2 mstep. erewrite bind_ok; [|by apply on_dev_ok]. cbv beta.
      unfold mret, stM_ret. do 2 f_equal. destruct s as [? [] ? ?]. cbn in *. by rewrite lock_unlock.
  - rewrite D2, D1 in D3. apply (leaves_mk _ _ _ _ _ _ mb); [done|done|congruence| |done|by apply cache_ok_write].
    apply zlen_splice; nia.
Qed.

(** ** The allocation table *)

(** The word of a block lies in the block of the table the code computes. *)
Lemma table_place_ok {S} f n b (s : S) : geometry f n → 0 ≤ b < blocks f →
  let q := 8 * b / block_size f in let i := b mod (block_size f / 8) in
  table_place f b s = Ok ((q + 16, i), s) ∧ 16 ≤ q + 16 < main_dir_block f ∧ 0 ≤ i ∧ 8 * i + 8 ≤ block_size f ∧
  (q + 16) * block_size f + 8 * i = fat_at f b.
Proof.
  intros Hg Hb q i. pose proof Hg as [Hs Hw Ht Hd0 Hf Hk Hr Hc].
  apply Z.mod_divide in Hw as [p Hp]; [|done].
  assert (block_size f / 8 = p) as Ep by (rewrite Hp; apply Z.div_mul; lia).
  assert (q = b / p) as Eq by (unfold q; rewrite Hp, (Z.mul_comm p), Z.div_mul_cancel_l; lia).
  pose proof (Z.div_mod b p ltac:(lia)) as Edm. pose proof (Z.mod_pos_bound b p ltac:(lia)) as Him.
  assert (0 ≤ q) as Hq by (rewrite Eq; apply Z.div_pos; lia).
  assert (q ≤ 8 * b) as Hqb by (unfold q; apply Z.div_le_upper_bound; nia).
  assert (q + 16 < main_dir_block f) as Hlt.
  { rewrite Ht. assert (q + 1 ≤ (8 * blocks f + block_size f - 1) / block_size f); [|lia].
    apply Z.div_le_lower_bound; [done|]. pose proof (Z.mul_div_le (8 * b) (block_size f) Hs) as Hm. fold q in Hm. lia. }
  subst i. rewrite Ep in *. split_and!; [|lia|lia|lia|lia|unfold fat_at; nia].
  unfold table_place. rewrite (u64_small (b * 8)) by (unfold is_u64; lia).
  rewrite (Z.mul_comm b 8). mrun (udiv_ok (8 * b) (block_size f) s ltac:(lia)). fold q.
  mrun (udiv_ok (block_size f) 8 s ltac:(lia)). rewrite Ep, (proj2 (Z.eqb_neq p 0)) by lia. mstep.
  rewrite u64_small; [done|]. unfold is_u64. nia.
Qed.

Lemma low_block f n b : geometry f n → b < main_dir_block f → (b + 1) * block_size f ≤ n ∧ ¬ in_dir f b.
Proof. intros Hg Hb. pose proof Hg as []. unfold in_dir. split; [nia|lia]. Qed.

Lemma block_fits f n c : geometry f n → c < blocks f → (c + 1) * block_size f ≤ n.
Proof. intros Hg Hc. pose proof (g_disk _ _ Hg). pose proof (g_size _ _ Hg). nia. Qed.

Lemma get_fat_ok s b : est_ok s → 0 ≤ b < blocks (efs s) →
  ∃ s', echfs_get_entry_for_block junk b s = Ok (fat (efs s) (disk (dev s)) b, s') ∧ leaves s s' (disk (dev s)).
Proof.
  intros Hok Hb. pose proof (e_geo _ Hok) as Hg.
  destruct (table_place_ok _ _ b s Hg Hb) as (E & Hq & Hi & Hi' & Ep).
  set (q := 8 * b / block_size (efs s) + 16) in *. set (i := b mod (block_size (efs s) / 8)) in *.
  destruct (low_block _ _ q Hg ltac:(lia)) as [Hr Hd].
  unfold echfs_get_entry_for_block. mstep. mrun E.
  destruct (read_block_ok s q Hok ltac:(lia) Hr Hd) as (s' & Es & Hs). mrun Es.
  exists s'. split; [|done]. unfold mret, stM_ret. do 2 f_equal. unfold fat, fld, blk.
  rewrite slice_slice; [by rewrite Ep|nia|lia|lia|lia|nia].
Qed.

Lemma set_fat_ok s b v : est_ok s → 0 ≤ b < blocks (efs s) →
  ∃ s', echfs_set_entry_for_block junk b v s = Ok (tt, s') ∧
    leaves s s' (set_fld (fat_at (efs s) b) 8 v (disk (dev s))).
Proof.
  intros Hok Hb. pose proof (e_geo _ Hok) as Hg.
  destruct (table_place_ok _ _ b s Hg Hb) as (E & Hq & Hi & Hi' & Ep).
  set (q := 8 * b / block_size (efs s) + 16) in *. set (i := b mod (block_size (efs s) / 8)) in *.
  destruct (low_block _ _ q Hg ltac:(lia)) as [Hr Hd].
  unfold echfs_set_entry_for_block. mstep. mrun E.
  destruct (read_block_ok s q Hok ltac:(lia) Hr Hd) as (s1 & Es & Hs1). mrun Es.
  pose proof Hs1 as (Hok1 & Hd1 & h & Ef).
  assert (block_size (efs s1) = block_size (efs s)) as Ebs by (by rewrite Ef).
  assert (zlen (blk (efs s) (disk (dev s)) q) = block_size (efs s)) as Hz by (apply zlen_slice; nia).
  edestruct (write_block_ok s1 q) as (s' & Es' & Hs'); [done|lia| | |].
  { by rewrite Ebs, Hd1. }
  2: { exists s'. split; [exact Es'|]. eapply leaves_trans; [done|]. rewrite Ebs, Hd1 in Hs'.
    assert (zlen (set_fld (8 * i) 8 v (blk (efs s) (disk (dev s)) q)) = block_size (efs s)) as Hz'
      by (rewrite zlen_set_fld; lia).
    rewrite take_ge in Hs' by (unfold zlen in Hz'; lia).
    unfold set_fld in Hs'. unfold blk in Hs' at 1.
    replace (8 * i) with (fat_at (efs s) b - q * block_size (efs s)) in Hs' by lia.
    rewrite splice_splice_slice in Hs'; [done|nia| |nia].
    rewrite zlen_le_bytes by lia. lia. }
  rewrite Ebs, zlen_set_fld; lia.
Qed.

Lemma fat_fits f n b : geometry f n → 0 ≤ b < blocks f →
  0 ≤ fat_at f b ∧ fat_at f b + 8 ≤ main_dir_block f * block_size f ∧ main_dir_block f * block_size f ≤ n.
Proof.
  intros Hg Hb. destruct (table_place_ok _ _ b tt Hg Hb) as (_ & Hq & Hi & Hi' & Ep).
  pose proof Hg as [Hs _ _ Hd Hf Hk _ _]. clear Hg. rewrite <-Ep. split_and!; [nia|nia|nia].
Qed.

Lemma zlen_set_fat f n dsk b v : geometry f n → zlen dsk = n → 0 ≤ b < blocks f →
  zlen (set_fld (fat_at f b) 8 v dsk) = n.
Proof. intros Hg <- Hb. destruct (fat_fits _ _ b Hg Hb) as (? & ? & ?). apply zlen_set_fld; lia. Qed.

(** The table as an array. *)
Lemma fat_set f n dsk b b' v : geometry f n → zlen dsk = n → 0 ≤ b < blocks f → 0 ≤ b' < blocks f → is_u64 v →
  fat f (set_fld (fat_at f b) 8 v dsk) b' = if decide (b' = b) then v else fat f dsk b'.
Proof.
  intros Hg <- Hb Hb' Hv. destruct (fat_fits _ _ b Hg Hb) as (? & ? & ?), (fat_fits _ _ b' Hg Hb') as (? & ? & ?).
  unfold fat. destruct (decide (b' = b)) as [->|Hne].
  - apply fld_set_eq; [lia..|]. unfold is_u64 in Hv. lia.
  - apply fld_set_ne; try lia. unfold fat_at. lia.
Qed.

(** The table and the blocks behind it do not overlap. *)
Lemma blk_set_fat f n dsk b v c : geometry f n → zlen dsk = n → 0 ≤ b < blocks f →
  main_dir_block f ≤ c → (c + 1) * block_size f ≤ n → blk f (set_fld (fat_at f b) 8 v dsk) c = blk f dsk c.
Proof.
  intros Hg <- Hb Hc Hcr. destruct (fat_fits _ _ b Hg Hb) as (? & ? & ?). pose proof (g_size _ _ Hg).
  assert (main_dir_block f * block_size f ≤ c * block_size f) by nia.
  unfold blk, set_fld. apply slice_splice_ne; rewrite ?zlen_le_bytes by lia; lia.
Qed.
End blocks.
