(* ===== verification/EchfsFiles.v ===== *)
(** * Files of echFS

    A file is a chain of blocks in the allocation table; its content is the
    concatenation of the blocks.  Reading a range of a file gives that range of
    the content, writing whole blocks replaces them, and growing a file takes
    the lowest free blocks. *)

From S2P Require Import Prelude Locks CString Blocks Bytes DList Hashmap HashmapTheorems Vfs Kernel Fd Echfs EchfsBlocks.

(** A block behind the main directory. *)
Definition data_block (f : echfs_filesystem_t) (b : Z) : Prop :=
  main_dir_block f + main_dir_blocks f ≤ b < blocks f.

Fixpoint chain (f : echfs_filesystem_t) (dsk : list Z) (l : list Z) : Prop :=
  match l with
  | [] => False
  | b :: l' =>
      data_block f b ∧
      match l' with
      | [] => fat f dsk b = ECHFS_END_OF_CHAIN
      | c :: _ => fat f dsk b = c ∧ chain f dsk l'
      end
  end.

Definition content (f : echfs_filesystem_t) (dsk : list Z) (l : list Z) : list Z := concat (map (blk f dsk) l).

(** The free blocks, in ascending order. *)
Definition free_blocks (f : echfs_filesystem_t) (dsk : list Z) : list Z :=
  filter (λ b, fat f dsk b = 0) (seqZ 0 (blocks f)).

Section chains.
Context (f : echfs_filesystem_t) (n : Z).
Hypothesis Hg : geometry f n.
Implicit Types dsk l : list Z.

Lemma data_block_range b : data_block f b → 0 ≤ b < blocks f ∧ (b + 1) * block_size f ≤ n ∧ ¬ in_dir f b ∧
  main_dir_block f ≤ b ∧ b ≠ ECHFS_END_OF_CHAIN ∧ is_u64 b.
Proof.
  pose proof Hg as [Hs _ Ht Hd Hf Hk Hr Hc]. unfold data_block, in_dir, ECHFS_END_OF_CHAIN, is_u64. intros Hb.
  assert (0 ≤ (8 * blocks f + block_size f - 1) / block_size f) by (apply Z.div_pos; lia).
  split_and!; try lia; nia.
Qed.

Lemma chain_tail dsk b c l : chain f dsk (b :: c :: l) → chain f dsk (c :: l).
Proof. by intros (_ & _ & Hc). Qed.

Lemma chain_app dsk l1 : ∀ l2, l2 ≠ [] → chain f dsk (l1 ++ l2) → chain f dsk l2.
Proof.
  induction l1 as [|b l1 IH]; intros l2 Hne Hc; [done|]. cbn in Hc.
  destruct Hc as [_ Hc]. destruct (l1 ++ l2) eqn:E.
  - by apply app_eq_nil in E as [_ ->].
  - apply IH; [done|]. rewrite E. apply Hc.
Qed.

Lemma chain_det dsk l : ∀ b l', chain f dsk (b :: l) → chain f dsk (b :: l') → l = l'.
Proof.
  induction l as [|c l IH]; intros b [|c' l']; [done| | |]; cbn [chain].
  - intros [_ Hb] (_ & Hc & Hc' & _). apply data_block_range in Hc'. naive_solver congruence.
  - intros (_ & Hc & Hc' & _) [_ Hb]. apply data_block_range in Hc'. naive_solver congruence.
  - intros (_ & <- & Hc) (_ & <- & Hc'). f_equal. by eapply IH.
Qed.

Lemma chain_elem dsk l b : chain f dsk l → b ∈ l → data_block f b.
Proof.
  intros Hc (l1 & l2 & ->)%list_elem_of_split. apply chain_app in Hc; [|done]. apply Hc.
Qed.

Lemma chain_nodup dsk l : chain f dsk l → NoDup l.
Proof.
  induction l as [|b l IH]; intros Hc; [done|]. constructor.
  - intros (l1 & l2 & ->)%list_elem_of_split.
    assert (chain f dsk (b :: l2)) as Hc2 by (by apply (chain_app dsk (b :: l1))).
    pose proof (chain_det _ _ _ _ Hc Hc2) as E. apply (f_equal length) in E.
    rewrite length_app in E. cbn in E. lia.
  - destruct l as [|c l]; [constructor|]. apply IH, (chain_tail _ _ _ _ Hc).
Qed.

(** Only the last block of a chain ends it; no block of it is free. *)
Lemma chain_inner dsk l x b : chain f dsk (l ++ [x]) → b ∈ l →
  fat f dsk b ≠ ECHFS_END_OF_CHAIN ∧ fat f dsk b ≠ 0 ∧ b ≠ x.
Proof.
  intros Hc Hb. pose proof (chain_nodup _ _ Hc) as Hnd.
  destruct (list_elem_of_split _ _ Hb) as (l1 & l2 & ->).
  rewrite <-app_assoc in Hc. apply chain_app in Hc; [|done]. cbn [app chain] in Hc.
  destruct Hc as [Hb' Hc]. destruct (l2 ++ [x]) as [|c r] eqn:E; [by destruct l2|].
  destruct Hc as [-> [Hc _]]. pose proof (data_block_range _ Hc) as (? & ? & ? & ? & ? & ?).
  pose proof Hg as [? ? Ht ? ? ? ? ?].
  assert (0 ≤ (8 * blocks f + block_size f - 1) / block_size f) by (apply Z.div_pos; lia).
  split_and!; [done|lia|]. intros ->. apply NoDup_app in Hnd as (_ & Hd & _). apply (Hd x Hb). set_solver.
Qed.

Lemma zlen_blocks dsk l : zlen dsk = n → (∀ b, b ∈ l → data_block f b) →
  zlen (content f dsk l) = zlen l * block_size f.
Proof.
  intros Hn Hl. unfold content. induction l as [|b l IH]; [done|]. cbn [map concat].
  rewrite zlen_app, zlen_cons, IH by (intros; apply Hl; by right).
  destruct (data_block_range b) as (? & ? & ?); [apply Hl; by left|]. pose proof (g_size _ _ Hg).
  unfold blk. rewrite zlen_slice by nia. lia.
Qed.

Lemma zlen_content dsk l : zlen dsk = n → chain f dsk l → zlen (content f dsk l) = zlen l * block_size f.
Proof.
  intros Hn Hc. apply zlen_blocks; eauto using chain_elem.
Qed.
End chains.

(** ** Reading *)

Section files.
Context {D : Type} {V : Volume D} {VL : VolumeLaws D} (junk : Z → list Z).
Implicit Types s : echfs_st D.

Lemma get_data_ok s b : est_ok s → data_block (efs s) b →
  ∃ s', echfs_get_entry_for_block junk b s = Ok (fat (efs s) (disk (dev s)) b, s') ∧ leaves s s' (disk (dev s)).
Proof. intros Hok Hb. apply get_fat_ok; [done|]. by destruct (data_block_range _ _ (e_geo _ Hok) _ Hb). Qed.

Lemma read_data_ok s b : est_ok s → data_block (efs s) b →
  ∃ s', echfs_read_block junk b s = Ok (blk (efs s) (disk (dev s)) b, s') ∧ leaves s s' (disk (dev s)).
Proof.
  intros Hok Hb. destruct (data_block_range _ _ (e_geo _ Hok) _ Hb) as (? & ? & ? & ?). apply read_block_ok; naive_solver lia.
Qed.

(** The predicates on volumes only look at the geometry. *)
Lemma chain_recache f h dsk l : chain (f <| cached_blocks := h |>) dsk l ↔ chain f dsk l.
Proof.
  induction l as [|b [|c l] IH]; [done|done|].
  split; intros (Hb & Hf & Hc); (split; [done|]); (split; [done|]); by apply IH.
Qed.

Lemma chain_leaves s s' d dsk l : leaves s s' d → chain (efs s) dsk l → chain (efs s') dsk l.
Proof. intros (_ & _ & h & ->). by rewrite chain_recache. Qed.

(** [n] links down the chain. *)
Lemma follow_ok n : ∀ s l b, est_ok s → chain (efs s) (disk (dev s)) (b :: l) →
  ∃ s', follow junk n b s = Ok ((b :: l) !! n, s') ∧ leaves s s' (disk (dev s)).
Proof.
  induction n as [|n IH]; intros s l b Hok Hc; cbn [follow].
  { exists s. split; [done|by apply leaves_refl]. }
  destruct (get_data_ok s b Hok (proj1 Hc)) as (s1 & E1 & H1). mrun E1.
  destruct l as [|c l].
  - destruct Hc as [_ ->]. rewrite Z.eqb_refl. by exists s1.
  - pose proof Hc as (_ & Hf & Hcc & _).
    destruct (data_block_range _ _ (e_geo _ Hok) _ Hcc) as (_ & _ & _ & _ & Hne & _).
    rewrite Hf, (proj2 (Z.eqb_neq _ _) Hne). pose proof H1 as (Hok1 & Hd1 & _).
    destruct (IH s1 l c Hok1) as (s' & E' & H').
    { rewrite Hd1. eapply chain_leaves; [done|]. by apply chain_tail in Hc. }
    exists s'. split; [exact E'|]. rewrite Hd1 in H'. by eapply leaves_trans.
Qed.

Lemma content_leaves s s' d dsk l : leaves s s' d → content (efs s') dsk l = content (efs s) dsk l.
Proof. by intros (_ & _ & h & ->). Qed.

(** The first [n] blocks of a chain; null when there are fewer. *)
Lemma read_blocks_loop_ok n : ∀ s l b buffer, est_ok s → chain (efs s) (disk (dev s)) (b :: l) → (0 < n)%nat →
  ∃ s', read_blocks_loop junk n b buffer s =
      Ok (if (n <=? S (length l))%nat then Some (buffer ++ content (efs s) (disk (dev s)) (take n (b :: l))) else None, s') ∧
    leaves s s' (disk (dev s)).
Proof.
  induction n as [|n IH]; intros s l b buffer Hok Hc Hn; [lia|]. cbn [read_blocks_loop].
  destruct (read_data_ok s b Hok (proj1 Hc)) as (s1 & E1 & H1). mrun E1.
  pose proof H1 as (Hok1 & Hd1 & h1 & Ef1). destruct n as [|n].
  { exists s1. split; [|done]. cbn. unfold content. cbn. by rewrite app_nil_r. }
  destruct (get_data_ok s1 b Hok1) as (s2 & E2 & H2); [rewrite Ef1; apply Hc|]. mrun E2.
  rewrite Hd1 in *. pose proof H2 as (Hok2 & Hd2 & _). pose proof (leaves_trans _ _ _ _ _ H1 H2) as H12.
  replace (fat (efs s1) (disk (dev s)) b) with (fat (efs s) (disk (dev s)) b) by (by rewrite Ef1).
  destruct l as [|c l].
  - destruct Hc as [_ ->]. rewrite Z.eqb_refl. exists s2. split; [done|done].
  - pose proof Hc as (_ & Hf & Hcc & _).
    destruct (data_block_range _ _ (e_geo _ Hok) _ Hcc) as (_ & _ & _ & _ & Hne & _).
    rewrite Hf, (proj2 (Z.eqb_neq _ _) Hne).
    destruct (IH s2 l c (buffer ++ blk (efs s) (disk (dev s)) b) Hok2) as (s' & E' & H'); [|lia|].
    { rewrite Hd2. eapply chain_leaves; [done|]. by apply chain_tail in Hc. }
    rewrite Hd2, (content_leaves _ _ _ _ _ H12) in E'. rewrite Hd2 in H'.
    exists s'. split; [|by eapply leaves_trans]. rewrite E'. do 2 f_equal.
    change (S (S n) <=? S (length (c :: l)))%nat with (S n <=? S (length l))%nat.
    destruct (S n <=? S (length l))%nat; [|done]. by rewrite <-app_assoc.
Qed.

(** The blocks a range touches. *)
Definition first_block (f : echfs_filesystem_t) (start : Z) : Z := start / block_size f.
Definition end_block (f : echfs_filesystem_t) (start count : Z) : Z := (start + count + block_size f - 1) / block_size f.

Lemma range_bounds f start count : 0 < block_size f → 0 ≤ start → 0 < count →
  let fb := first_block f start in let eb := end_block f start count in
  0 ≤ fb < eb ∧ fb * block_size f ≤ start < (fb + 1) * block_size f ∧
  (eb - 1) * block_size f < start + count ≤ eb * block_size f ∧
  fb * block_size f + start mod block_size f = start.
Proof.
  intros Hb Hs Hc. cbn zeta. unfold first_block, end_block. set (bs := block_size f) in *.
  pose proof (Z.div_mod start bs ltac:(lia)) as E1. pose proof (Z.mod_pos_bound start bs ltac:(lia)) as M1.
  pose proof (Z.div_mod (start + count + bs - 1) bs ltac:(lia)) as E2.
  pose proof (Z.mod_pos_bound (start + count + bs - 1) bs ltac:(lia)) as M2.
  assert (0 ≤ start / bs) by (apply Z.div_pos; lia).
  split_and!; try lia; nia.
Qed.

Lemma range_blocks_ok {S} f start count (s : S) : 0 < block_size f → 0 ≤ start → 0 < count →
  start + count + block_size f < U64_MOD →
  range_blocks f start count s = Ok ((end_block f start count - first_block f start, first_block f start), s).
Proof.
  intros Hb Hs Hc Hr. destruct (range_bounds f start count Hb Hs Hc) as (H1 & H2 & H3 & _).
  unfold range_blocks, ROUND_DOWN, ROUND_UP. rewrite (u64_small (start + count)) by (unfold is_u64; lia).
  rewrite (u64_small (start + count + block_size f - 1)) by (unfold is_u64; lia).
  erewrite bind_ok; [|mrun (udiv_ok start (block_size f) s ltac:(lia)); reflexivity]. cbv beta.
  erewrite bind_ok; [|erewrite bind_ok; [|apply udiv_ok; lia]; reflexivity]. cbv beta.
  fold (first_block f start). fold (end_block f start count).
  set (fb := first_block f start) in *. set (eb := end_block f start count) in *.
  rewrite (u64_small (fb * _)), (u64_small (eb * _)) by (unfold is_u64; nia).
  rewrite <-Z.mul_sub_distr_r, (u64_small ((eb - fb) * _)) by (unfold is_u64; nia).
  erewrite bind_ok; [|apply udiv_ok; lia]. cbv beta. erewrite bind_ok; [|apply udiv_ok; lia]. cbv beta.
  by rewrite !Z.div_mul by lia.
Qed.

Lemma content_app f dsk l1 l2 : content f dsk (l1 ++ l2) = content f dsk l1 ++ content f dsk l2.
Proof. unfold content. by rewrite map_app, concat_app. Qed.

(** A run of blocks of a chain is a range of the content. *)
Lemma content_range f n dsk l k m : geometry f n → zlen dsk = n → (∀ b, b ∈ l → data_block f b) →
  (k + m ≤ length l)%nat →
  content f dsk (take m (drop k l)) = slice (content f dsk l) (Z.of_nat k * block_size f) (Z.of_nat m * block_size f).
Proof.
  intros Hg Hn Hl Hk. rewrite <-(take_drop k l) at 2. rewrite <-(take_drop m (drop k l)) at 2.
  rewrite !content_app. symmetry. apply slice_mid.
  - rewrite (zlen_blocks f n); [|done|done|intros b Hb; eapply Hl, subseteq_take, Hb].
    unfold zlen. rewrite length_take. f_equal. lia.
  - rewrite (zlen_blocks f n); [|done|done|intros b Hb; eapply Hl, subseteq_drop, subseteq_take, Hb].
    unfold zlen. rewrite length_take, length_drop. f_equal. lia.
Qed.

Lemma read_blocks_for_range_ok s file l start count :
  est_ok s → chain (efs s) (disk (dev s)) (starting_block file :: l) → 0 ≤ start → 0 < count →
  start + count + block_size (efs s) < U64_MOD →
  let fb := first_block (efs s) start in let eb := end_block (efs s) start count in
  ∃ s', read_blocks_for_range junk file start count s =
      Ok (if eb <=? zlen l + 1 then
            Some (slice (content (efs s) (disk (dev s)) (starting_block file :: l))
                    (fb * block_size (efs s)) ((eb - fb) * block_size (efs s)))
          else None, s') ∧ leaves s s' (disk (dev s)).
Proof.
  intros Hok Hc Hs Hct Hr fb eb. pose proof (e_geo _ Hok) as Hg. pose proof (g_size _ _ Hg) as Hbs.
  destruct (range_bounds (efs s) start count Hbs Hs Hct) as (H1 & H2 & H3 & _). fold fb eb in H1, H2, H3.
  unfold read_blocks_for_range. mstep. mrun (range_blocks_ok (efs s) start count s Hbs Hs Hct Hr). fold fb eb.
  destruct (follow_ok (Z.to_nat fb) s l _ Hok Hc) as (s1 & E1 & L1). mrun E1.
  set (ch := starting_block file :: l) in *.
  assert (zlen ch = zlen l + 1) as Hz by (apply zlen_cons). destruct (ch !! Z.to_nat fb) as [b|] eqn:Eb.
  2: { apply lookup_ge_None in Eb. exists s1. split; [|done].
       rewrite (proj2 (Z.leb_gt _ _)); [done|]. unfold zlen in *. lia. }
  pose proof L1 as (Hok1 & D1 & _).
  assert (drop (Z.to_nat fb) ch = b :: drop (S (Z.to_nat fb)) ch) as Ed by (by apply drop_S).
  pose proof (lookup_lt_Some _ _ _ Eb) as Hlt.
  destruct (read_blocks_loop_ok (Z.to_nat (eb - fb)) s1 (drop (S (Z.to_nat fb)) ch) b [] Hok1) as (s' & E' & L'); [|lia|].
  { rewrite D1, <-Ed. eapply chain_leaves; [done|]. apply (chain_app _ _ (take (Z.to_nat fb) ch)); [by rewrite Ed|].
    by rewrite take_drop. }
  rewrite D1 in E', L'. exists s'. split; [|by eapply leaves_trans].
  rewrite E'. do 2 f_equal. rewrite length_drop.
  destruct (eb <=? zlen l + 1) eqn:E; zbool; rewrite <-Hz in E; unfold zlen in E.
  - rewrite (proj2 (Nat.leb_le _ _)) by lia. f_equal. cbn [app].
    rewrite (content_leaves _ _ _ _ _ L1), <-Ed.
    rewrite (content_range _ _ _ ch _ _ Hg eq_refl); [|by intros; eapply chain_elem|lia].
    by rewrite !Z2Nat.id by lia.
  - by rewrite (proj2 (Nat.leb_gt _ _)) by lia.
Qed.

Lemma read_for_range_ok s file l start count :
  est_ok s → chain (efs s) (disk (dev s)) (starting_block file :: l) → 0 ≤ start → 0 < count →
  start + count + block_size (efs s) < U64_MOD →
  let data := content (efs s) (disk (dev s)) (starting_block file :: l) in
  ∃ s', read_for_range junk file start count s =
      Ok (if start + count <=? zlen data then Some (slice data start count) else None, s') ∧
    leaves s s' (disk (dev s)).
Proof.
  intros Hok Hc Hs Hct Hr data. pose proof (e_geo _ Hok) as Hg. pose proof (g_size _ _ Hg) as Hbs.
  destruct (range_bounds (efs s) start count Hbs Hs Hct) as (H1 & H2 & H3 & H4).
  destruct (read_blocks_for_range_ok s file l start count Hok Hc Hs Hct Hr) as (s' & E' & L').
  assert (zlen data = (zlen l + 1) * block_size (efs s)) as Hz.
  { subst data. by rewrite (zlen_content _ _ Hg), zlen_cons. }
  exists s'. split; [|done]. unfold read_for_range. mstep. mrun E'. fold data.
  set (fb := first_block _ _) in *. set (eb := end_block _ _ _) in *.
  pose proof (Z.mod_pos_bound start (block_size (efs s)) Hbs) as Hm.
  destruct (eb <=? zlen l + 1) eqn:E; zbool.
  - rewrite (proj2 (Z.leb_le _ _)) by nia.
    rewrite zlen_slice by nia. rewrite (proj2 (Z.ltb_ge _ _)) by nia. unfold mret, stM_ret. do 3 f_equal.
    rewrite slice_slice by nia. by rewrite H4.
  - by rewrite (proj2 (Z.leb_gt _ _)) by nia.
Qed.

(** ** Writing *)

Lemma content_write f n dsk l k b data : geometry f n → zlen dsk = n → NoDup l → (∀ b, b ∈ l → data_block f b) →
  l !! k = Some b → zlen data = block_size f →
  content f (splice dsk (b * block_size f) data) l = splice (content f dsk l) (Z.of_nat k * block_size f) data.
Proof.
  intros Hg Hn Hnd Hl Hk Hd. pose proof (g_size _ _ Hg) as Hbs. subst n.
  destruct (data_block_range _ _ Hg b) as (Hb & Hbr & _); [by eapply Hl, list_elem_of_lookup_2|].
  pose proof (take_drop_middle _ _ _ Hk) as El. pose proof (lookup_lt_Some _ _ _ Hk) as Hlt. rewrite <-El in Hnd |- *.
  apply NoDup_app in Hnd as (Hn1 & Hn2 & [Hn3 Hn4]%NoDup_cons).
  assert (∀ b', b' ∈ l → b' ≠ b → blk f (splice dsk (b * block_size f) data) b' = blk f dsk b') as Hsame.
  { intros b' Hb' Hne. destruct (data_block_range _ _ Hg b' (Hl _ Hb')) as (? & ? & _). apply blk_write_ne; lia. }
  assert (∀ l', (∀ b', b' ∈ l' → b' ∈ l ∧ b' ≠ b) → content f (splice dsk (b * block_size f) data) l' = content f dsk l') as Hother.
  { intros l' Hl'. unfold content. f_equal. apply map_ext_in. intros b' Hb'%list_elem_of_In.
    apply Hsame; by apply Hl'. }
  rewrite !content_app. change (b :: drop (S k) l) with ([b] ++ drop (S k) l). rewrite !content_app.
  rewrite (Hother (take k l)), (Hother (drop (S k) l)).
  - replace (content f (splice dsk (b * block_size f) data) [b]) with data.
    2: { unfold content. cbn. rewrite app_nil_r. symmetry. apply blk_write_eq; lia. }
    replace (Z.of_nat k * block_size f) with (zlen (content f dsk (take k l))).
    2: { rewrite (zlen_blocks f (zlen dsk)); [|done|done|intros b' Hb'; eapply Hl, subseteq_take, Hb'].
         unfold zlen. rewrite length_take. f_equal. lia. }
    symmetry. apply splice_mid. rewrite Hd. unfold content. cbn. rewrite app_nil_r. apply zlen_slice; nia.
  - intros b' Hb'. split; [eapply subseteq_drop, Hb'|]. by intros ->.
  - intros b' Hb'. split; [eapply subseteq_take, Hb'|]. intros ->. apply (Hn2 b Hb'). by left.
Qed.

(** Writing a block behind the directory leaves the allocation table alone. *)
Lemma fat_write f n dsk b data c : geometry f n → zlen dsk = n → data_block f b → zlen data = block_size f →
  0 ≤ c < blocks f → fat f (splice dsk (b * block_size f) data) c = fat f dsk c.
Proof.
  intros Hg <- Hb Hd Hc. destruct (fat_fits _ _ c Hg Hc) as (? & ? & ?). pose proof (g_size _ _ Hg).
  destruct (data_block_range _ _ Hg _ Hb) as (? & ? & _ & ? & _).
  assert (main_dir_block f * block_size f ≤ b * block_size f) by nia.
  unfold fat, fld. f_equal. apply slice_splice_ne; lia.
Qed.

Lemma chain_ext f n dsk dsk' l : geometry f n → (∀ b, b ∈ l → fat f dsk' b = fat f dsk b) →
  chain f dsk l → chain f dsk' l.
Proof.
  intros Hg He. induction l as [|b [|c l] IH]; [done| |].
  - intros [Hb Hf]. split; [done|]. rewrite He by (by left). done.
  - intros (Hb & Hf & Hc). split; [done|]. rewrite He by (by left). split; [done|].
    apply IH; [|done]. intros b' Hb'. apply He. by right.
Qed.

(** What a write to the blocks of a chain leaves alone: the table and the other blocks. *)
Definition outside f dsk dsk' (l : list Z) : Prop :=
  zlen dsk' = zlen dsk ∧ (∀ c, 0 ≤ c < blocks f → fat f dsk' c = fat f dsk c) ∧
  (∀ c, 0 ≤ c → (c + 1) * block_size f ≤ zlen dsk → c ∉ l → blk f dsk' c = blk f dsk c).

Lemma outside_trans f dsk1 dsk2 dsk3 l : outside f dsk1 dsk2 l → outside f dsk2 dsk3 l → outside f dsk1 dsk3 l.
Proof.
  intros (Z1 & F1 & B1) (Z2 & F2 & B2). split_and!; [lia| |].
  - intros c Hc. by rewrite F2, F1.
  - intros c Hc Hr Hn. rewrite B2, B1; [done..|by rewrite Z1|done].
Qed.

Lemma outside_write f n dsk b data l : geometry f n → zlen dsk = n → data_block f b → zlen data = block_size f →
  b ∈ l → outside f dsk (splice dsk (b * block_size f) data) l.
Proof.
  intros Hg Hn Hb Hd Hl. subst n. destruct (data_block_range _ _ Hg _ Hb) as (? & ? & _). pose proof (g_size _ _ Hg).
  split_and!; [apply zlen_splice; nia|by intros; eapply fat_write|]. intros c Hc Hr Hn. apply blk_write_ne; try lia.
  by intros ->.
Qed.

Lemma take_split {A} (l : list A) a b : 0 ≤ a → 0 ≤ b →
  take (Z.to_nat a) l ++ take (Z.to_nat b) (drop (Z.to_nat a) l) = take (Z.to_nat (a + b)) l.
Proof. intros Ha Hb. rewrite Z2Nat.inj_add by lia. apply take_take_drop. Qed.

Lemma write_blocks_loop_ok n : ∀ s ch k b data, est_ok s → chain (efs s) (disk (dev s)) ch → ch !! k = Some b →
  (0 < n)%nat → (k + n ≤ length ch)%nat → Z.of_nat n * block_size (efs s) ≤ zlen data →
  ∃ s' dsk', write_blocks_loop junk n b data s = Ok (0, s') ∧ leaves s s' dsk' ∧
    outside (efs s) (disk (dev s)) dsk' ch ∧
    content (efs s) dsk' ch = splice (content (efs s) (disk (dev s)) ch) (Z.of_nat k * block_size (efs s))
                                (take (Z.to_nat (Z.of_nat n * block_size (efs s))) data).
Proof.
  induction n as [|n IH]; intros s ch k b data Hok Hc Hk Hn Hkn Hd; [lia|]. cbn [write_blocks_loop]. mstep.
  pose proof (e_geo _ Hok) as Hg. pose proof (g_size _ _ Hg) as Hbs. set (f := efs s) in *. set (bs := block_size f) in *.
  assert (∀ b', b' ∈ ch → data_block f b') as Hdb by eauto using chain_elem.
  assert (data_block f b) as Hb by (eapply Hdb, list_elem_of_lookup_2, Hk).
  destruct (data_block_range _ _ Hg _ Hb) as (Hb0 & Hbr & _).
  destruct (write_block_ok s b data Hok) as (s1 & E1 & L1); [lia|done|fold f bs; nia|]. mrun E1. fold f bs in L1.
  set (d1 := splice _ _ _) in L1. pose proof L1 as (Hok1 & D1 & h1 & Ef1).
  assert (zlen (take (Z.to_nat bs) data) = bs) as Ht by (unfold zlen in *; rewrite length_take; lia).
  assert (outside f (disk (dev s)) d1 ch) as O1 by (eapply outside_write; eauto using list_elem_of_lookup_2).
  assert (content f d1 ch = splice (content f (disk (dev s)) ch) (Z.of_nat k * bs) (take (Z.to_nat bs) data)) as C1
    by (eapply content_write; eauto using chain_nodup).
  destruct n as [|n].
  { exists s1, d1. split_and!; [done|done|done|]. by replace (Z.of_nat 1 * bs) with bs by lia. }
  assert (chain f d1 ch) as Hc1.
  { apply (chain_ext _ _ _ _ _ Hg) with (2 := Hc). intros b' Hb'. apply O1.
    by destruct (data_block_range _ _ Hg _ (Hdb _ Hb')). }
  destruct (lookup_lt_is_Some_2 ch (S k)) as [c Hck]; [lia|].
  destruct (get_data_ok s1 b Hok1) as (s2 & E2 & L2); [by rewrite Ef1|]. mrun E2.
  assert (fat (efs s1) (disk (dev s1)) b = c) as ->.
  { rewrite Ef1, D1. pose proof (take_drop_middle _ _ _ Hk) as El. rewrite (drop_S _ _ _ Hck) in El. rewrite <-El in Hc1.
    apply chain_app in Hc1; [|done]. exact (proj1 (proj2 Hc1)). }
  destruct (data_block_range _ _ Hg c) as (_ & _ & _ & _ & Hne & _); [by eapply Hdb, list_elem_of_lookup_2|].
  rewrite (proj2 (Z.eqb_neq _ _) Hne). pose proof L2 as (Hok2 & D2 & h2 & Ef2). rewrite D1 in D2.
  assert (efs s2 = f <| cached_blocks := h2 |>) as Ef by (rewrite Ef2, Ef1; done).
  destruct (IH s2 ch (S k) c (drop (Z.to_nat bs) data) Hok2) as (s' & dsk' & E' & L' & O' & C'); [|done|lia|lia| |].
  { rewrite D2. eapply (chain_leaves s); [by eapply leaves_trans|exact Hc1]. }
  { rewrite Ef. change (block_size (f <| cached_blocks := h2 |>)) with bs. unfold zlen in *. rewrite length_drop. lia. }
  rewrite D2, Ef in O', C'.
  change (content (f <| cached_blocks := h2 |>)) with (content f) in C'.
  change (block_size (f <| cached_blocks := h2 |>)) with bs in C'.
  exists s', dsk'. split_and!; [exact E'|by eapply leaves_trans, leaves_trans|by eapply outside_trans|].
  rewrite C', C1. replace (Z.of_nat (S k) * bs) with (Z.of_nat k * bs + zlen (take (Z.to_nat bs) data)) by lia.
  rewrite splice_app, take_split; [do 2 f_equal; lia|lia|lia|lia|].
  rewrite (zlen_content _ _ Hg) by done. fold bs. unfold zlen in *. rewrite !length_take, length_drop. nia.
Qed.

Lemma write_blocks_for_range_ok s file l start count data :
  est_ok s → chain (efs s) (disk (dev s)) (starting_block file :: l) → 0 ≤ start → 0 < count →
  start + count + block_size (efs s) < U64_MOD →
  let ch := starting_block file :: l in let bs := block_size (efs s) in
  let fb := first_block (efs s) start in let eb := end_block (efs s) start count in
  eb ≤ zlen ch → (eb - fb) * bs ≤ zlen data →
  ∃ s' dsk', write_blocks_for_range junk file start count data s = Ok (0, s') ∧ leaves s s' dsk' ∧
    outside (efs s) (disk (dev s)) dsk' ch ∧
    content (efs s) dsk' ch =
      splice (content (efs s) (disk (dev s)) ch) (fb * bs) (take (Z.to_nat ((eb - fb) * bs)) data).
Proof.
  intros Hok Hc Hs Hct Hr ch bs fb eb Heb Hd. pose proof (e_geo _ Hok) as Hg. pose proof (g_size _ _ Hg) as Hbs.
  destruct (range_bounds (efs s) start count Hbs Hs Hct) as (H1 & H2 & H3 & _). fold fb eb bs in H1, H2, H3.
  unfold write_blocks_for_range. mstep. mrun (range_blocks_ok (efs s) start count s Hbs Hs Hct Hr). fold fb eb.
  destruct (follow_ok (Z.to_nat fb) s l _ Hok Hc) as (s1 & E1 & L1). mrun E1. fold ch.
  destruct (lookup_lt_is_Some_2 ch (Z.to_nat fb)) as [b Eb]; [unfold zlen in Heb; lia|]. rewrite Eb.
  pose proof L1 as (Hok1 & D1 & h & Ef).
  destruct (write_blocks_loop_ok (Z.to_nat (eb - fb)) s1 ch (Z.to_nat fb) b data Hok1) as (s' & dsk' & E' & L' & O' & C').
  { rewrite D1. by eapply chain_leaves. }
  { done. }
  { lia. }
  { unfold zlen in Heb. lia. }
  { rewrite Ef. change (block_size (efs s <| cached_blocks := h |>)) with bs. rewrite Z2Nat.id by lia. done. }
  rewrite D1, Ef in O', C'. rewrite !Z2Nat.id in C' by lia.
  exists s', dsk'. split_and!; [exact E'|by eapply leaves_trans|exact O'|exact C'].
Qed.

Lemma write_for_range_ok s file l start count data :
  est_ok s → chain (efs s) (disk (dev s)) (starting_block file :: l) → 0 ≤ start → 0 < count →
  start + count + block_size (efs s) < U64_MOD → count ≤ zlen data →
  let ch := starting_block file :: l in
  start + count ≤ zlen (content (efs s) (disk (dev s)) ch) →
  ∃ s' dsk', write_for_range junk file start count data s = Ok (0, s') ∧ leaves s s' dsk' ∧
    outside (efs s) (disk (dev s)) dsk' ch ∧
    content (efs s) dsk' ch = splice (content (efs s) (disk (dev s)) ch) start (take (Z.to_nat count) data).
Proof.
  intros Hok Hc Hs Hct Hr Hd ch Hz. pose proof (e_geo _ Hok) as Hg. pose proof (g_size _ _ Hg) as Hbs.
  assert (chain (efs s) (disk (dev s)) ch) as Hch by exact Hc.
  rewrite (zlen_content _ _ Hg _ _ eq_refl Hch) in Hz.
  destruct (range_bounds (efs s) start count Hbs Hs Hct) as (H1 & H2 & H3 & H4).
  destruct (read_blocks_for_range_ok s file l start count Hok Hc Hs Hct Hr) as (s1 & E1 & L1).
  set (fb := first_block (efs s) start) in *. set (eb := end_block (efs s) start count) in *.
  set (bs := block_size (efs s)) in *. assert (eb ≤ zlen ch) as Heb by nia.
  rewrite (proj2 (Z.leb_le _ _)) in E1 by (rewrite <-zlen_cons with (x := starting_block file); exact Heb).
  fold ch in E1. set (C := content (efs s) (disk (dev s)) ch) in *.
  assert (zlen C = zlen ch * bs) as HzC by (by apply (zlen_content _ _ Hg)).
  set (b := slice C (fb * bs) ((eb - fb) * bs)) in *.
  assert (zlen b = (eb - fb) * bs) as Hb by (apply zlen_slice; nia).
  assert (zlen (take (Z.to_nat count) data) = count) as Ht by (unfold zlen in *; rewrite length_take; lia).
  pose proof (Z.mod_pos_bound start bs Hbs) as Hm.
  unfold write_for_range. mstep. mrun E1. fold bs.
  rewrite (proj2 (Z.ltb_ge _ _)), (proj2 (Z.ltb_ge _ _)) by nia. cbn [orb]. mstep.
  set (b' := splice b (start mod bs) (take (Z.to_nat count) data)).
  assert (zlen b' = (eb - fb) * bs) as Hb' by (unfold b'; rewrite zlen_splice; nia).
  pose proof L1 as (Hok1 & D1 & h & Ef).
  destruct (write_blocks_for_range_ok s1 file l start count b' Hok1) as (s' & dsk' & E' & L' & O' & C').
  { rewrite D1. by eapply chain_leaves. }
  { done. }
  { done. }
  { by rewrite Ef. }
  { by rewrite Ef. }
  { rewrite Ef. change (block_size (efs s <| cached_blocks := h |>)) with bs. rewrite Hb'. done. }
  mrun E'. rewrite D1, Ef in O', C'. exists s', dsk'.
  split_and!; [done|by eapply leaves_trans|exact O'|]. etransitivity; [exact C'|].
  change (splice C (fb * bs) (take (Z.to_nat ((eb - fb) * bs)) b') = splice C start (take (Z.to_nat count) data)).
  rewrite take_ge by (unfold zlen in Hb'; lia). unfold b', b.
  replace (start mod bs) with (start - fb * bs) by lia. apply splice_splice_slice; nia.
Qed.
End files.
