(* ===== verification/EchfsAlloc.v ===== *)
(** * Allocation of echFS blocks

    [find_free_block] gives the lowest free block, and [allocate_blocks_for_file]
    appends the lowest free blocks to the chain of a file. *)

From S2P Require Import Prelude Locks CString Blocks Bytes DList Hashmap HashmapTheorems Vfs Kernel Fd Echfs EchfsBlocks EchfsFiles.

(** What growing a chain from [x] by [new] leaves alone. *)
Definition grown (f : echfs_filesystem_t) (dsk dsk' : list Z) (l : list Z) : Prop :=
  zlen dsk' = zlen dsk ∧ (∀ c, 0 ≤ c < blocks f → c ∉ l → fat f dsk' c = fat f dsk c) ∧
  (∀ c, main_dir_block f ≤ c → (c + 1) * block_size f ≤ zlen dsk → blk f dsk' c = blk f dsk c).

(** The table never gives out the blocks of the table and of the directory. *)
Definition reserved (f : echfs_filesystem_t) (dsk : list Z) : Prop :=
  ∀ b, b ∈ free_blocks f dsk → data_block f b.

Section alloc.
Context {D : Type} {V : Volume D} {VL : VolumeLaws D} (junk : Z → list Z).
Implicit Types s : echfs_st D.

Lemma free_block_loop_ok n : ∀ s i, est_ok s → 0 ≤ i → i + Z.of_nat n ≤ blocks (efs s) →
  ∃ s', free_block_loop junk n i s =
      Ok (default 0 (head (filter (λ b, fat (efs s) (disk (dev s)) b = 0) (seqZ i (Z.of_nat n)))), s') ∧
    leaves s s' (disk (dev s)).
Proof.
  induction n as [|n IH]; intros s i Hok Hi Hn.
  { exists s. split; [done|by apply leaves_refl]. }
  cbn [free_block_loop]. destruct (get_fat_ok junk s i Hok) as (s1 & E1 & L1); [lia|]. mrun E1.
  rewrite (seqZ_cons i (Z.of_nat (S n))) by lia.
  destruct (fat (efs s) (disk (dev s)) i =? 0) eqn:E; zbool.
  - rewrite filter_cons_True by done. by exists s1.
  - rewrite filter_cons_False by done. pose proof L1 as (Hok1 & D1 & h & Ef).
    destruct (IH s1 (i + 1) Hok1) as (s' & E' & L'); [lia|rewrite Ef; cbn; lia|].
    rewrite D1, Ef in E'. rewrite D1 in L'. exists s'. split; [|by eapply leaves_trans].
    replace (Z.pred (Z.of_nat (S n))) with (Z.of_nat n) by lia. exact E'.
Qed.

Lemma find_free_block_ok s : est_ok s →
  ∃ s', find_free_block junk s = Ok (default 0 (head (free_blocks (efs s) (disk (dev s)))), s') ∧
    leaves s s' (disk (dev s)).
Proof.
  intros Hok. pose proof (g_count _ _ (e_geo _ Hok)) as Hc. unfold find_free_block. mstep.
  destruct (free_block_loop_ok (Z.to_nat (blocks (efs s))) s 0 Hok) as (s' & E & L); [lia|lia|].
  rewrite Z2Nat.id in E by lia. by exists s'.
Qed.

Lemma fat_two f n dsk x c b : geometry f n → zlen dsk = n → 0 ≤ x < blocks f → 0 ≤ c < blocks f → 0 ≤ b < blocks f →
  fat f (set_fld (fat_at f c) 8 ECHFS_END_OF_CHAIN (set_fld (fat_at f x) 8 c dsk)) b =
    if decide (b = c) then ECHFS_END_OF_CHAIN else if decide (b = x) then c else fat f dsk b.
Proof.
  intros Hg Hn Hx Hc Hb. pose proof (g_count _ _ Hg) as Hcnt.
  rewrite (fat_set f n); [|done|by eapply zlen_set_fat|done|done|unfold is_u64, ECHFS_END_OF_CHAIN; lia].
  rewrite (fat_set f n) by (try done; unfold is_u64; lia). done.
Qed.

Lemma filter_ext_in {A} (P Q : A → Prop) `{∀ x, Decision (P x), ∀ x, Decision (Q x)} (l : list A) :
  (∀ x, x ∈ l → P x ↔ Q x) → filter P l = filter Q l.
Proof.
  induction l as [|x l IH]; intros Hl; [done|]. rewrite !filter_cons.
  assert (P x ↔ Q x) as Hx by (apply Hl; left).
  rewrite IH by (intros y Hy; apply Hl; by right). destruct (decide (P x)), (decide (Q x)); naive_solver.
Qed.

(** The lowest free block is linked behind the last block of a chain. *)
Lemma link_free_ok f n dsk l x c rest : geometry f n → zlen dsk = n → chain f dsk (l ++ [x]) → reserved f dsk →
  free_blocks f dsk = c :: rest →
  let dsk' := set_fld (fat_at f c) 8 ECHFS_END_OF_CHAIN (set_fld (fat_at f x) 8 c dsk) in
  chain f dsk' ((l ++ [x]) ++ [c]) ∧ free_blocks f dsk' = rest ∧ grown f dsk dsk' [x; c].
Proof.
  intros Hg Hn Hch Hres Hfree dsk'.
  assert (data_block f x) as Hx by (eapply chain_elem; [done|]; set_solver).
  assert (data_block f c) as Hc by (apply Hres; rewrite Hfree; by left).
  destruct (data_block_range _ _ Hg _ Hx) as (Hx0 & _), (data_block_range _ _ Hg _ Hc) as (Hc0 & _ & _ & Hcm & Hne & _).
  assert (fat f dsk c = 0 ∧ NoDup (c :: rest)) as [Hc00 Hnd].
  { rewrite <-Hfree. split; [|apply NoDup_filter, NoDup_seqZ].
    assert (c ∈ free_blocks f dsk) as Hin by (rewrite Hfree; by left).
    by apply list_elem_of_filter in Hin as [? _]. }
  assert (fat f dsk x = ECHFS_END_OF_CHAIN) as Hend by (apply chain_app in Hch; [apply Hch|done]).
  assert (x ≠ c) as Hxc by (intros ->; rewrite Hend in Hc00; done).
  assert (∀ b, 0 ≤ b < blocks f → fat f dsk' b =
    if decide (b = c) then ECHFS_END_OF_CHAIN else if decide (b = x) then c else fat f dsk b) as Hfat
    by (intros; by eapply fat_two).
  pose proof (g_table _ _ Hg) as Ht. pose proof (g_size _ _ Hg) as Hbs. pose proof (g_count _ _ Hg) as Hcnt.
  assert (0 < c) as Hpos.
  { assert (0 ≤ (8 * blocks f + block_size f - 1) / block_size f) by (apply Z.div_pos; lia). lia. }
  split_and!.
  - assert (∀ l, (∀ b, b ∈ l → b ≠ c ∧ b ≠ x) → chain f dsk (l ++ [x]) → chain f dsk' ((l ++ [x]) ++ [c])) as Hgen.
    { clear l Hch. intros l Hl Hch. induction l as [|b l IH].
      - cbn. split; [done|]. rewrite !Hfat by done. rewrite decide_False, decide_True by done.
        split; [done|]. split; [done|]. by rewrite decide_True.
      - cbn [app chain] in Hch |- *. destruct Hch as [Hb Hch]. split; [done|].
        destruct (data_block_range _ _ Hg _ Hb) as (Hb0 & _).
        assert (chain f dsk' ((l ++ [x]) ++ [c])) as Hrec.
        { apply IH; [intros; apply Hl; by right|]. by destruct l; cbn in *; destruct Hch. }
        destruct (Hl b) as [N1 N2]; [by left|].
        destruct l as [|b2 l]; cbn [app] in *; (split; [|exact Hrec]);
          rewrite Hfat, !decide_False by done; by destruct Hch. }
    apply Hgen; [|done]. intros b Hb. destruct (chain_inner _ _ Hg _ _ _ _ Hch Hb) as (_ & Hb0 & Hbx).
    split; [|done]. by intros ->.
  - transitivity (filter (λ b, b ≠ c) (free_blocks f dsk)).
    + unfold free_blocks. rewrite list_filter_filter. apply filter_ext_in. intros b Hb%elem_of_seqZ.
      rewrite Hfat by lia. destruct (decide (b = c)) as [->|]; [by split; [|intros []]|].
      destruct (decide (b = x)) as [->|]; [|tauto]. rewrite Hend. unfold ECHFS_END_OF_CHAIN. split; lia.
    + rewrite Hfree, filter_cons_False by tauto. apply NoDup_cons in Hnd as [Hcr _].
      apply filter_all. intros b Hb ->. done.
  - split_and!.
    + assert (zlen (set_fld (fat_at f x) 8 c dsk) = n) by (by apply zlen_set_fat).
      unfold dsk'. by rewrite (zlen_set_fat f n), Hn.
    + intros b Hb Hnot. rewrite Hfat by done. rewrite !decide_False by set_solver. done.
    + intros b Hb Hr. unfold dsk'. rewrite !(blk_set_fat f n); rewrite ?(zlen_set_fat f n); try done; lia.
Qed.

Lemma grown_trans f dsk1 dsk2 dsk3 l1 l2 : grown f dsk1 dsk2 l1 → grown f dsk2 dsk3 l2 → grown f dsk1 dsk3 (l1 ++ l2).
Proof.
  intros (Z1 & F1 & B1) (Z2 & F2 & B2). split_and!; [lia| |].
  - intros c Hc Hn. rewrite F2, F1; [done|done|set_solver|done|set_solver].
  - intros c Hc Hr. rewrite B2, B1; [done..|by rewrite Z1].
Qed.

Lemma grown_mono f dsk dsk' l l' : l ⊆ l' → grown f dsk dsk' l → grown f dsk dsk' l'.
Proof. intros Hl (Z1 & F1 & B1). split_and!; [done| |done]. intros c Hc Hn. apply F1; set_solver. Qed.

Lemma extend_loop_ok n : ∀ s l x, est_ok s → chain (efs s) (disk (dev s)) (l ++ [x]) →
  reserved (efs s) (disk (dev s)) → (n ≤ length (free_blocks (efs s) (disk (dev s))))%nat →
  let new := take n (free_blocks (efs s) (disk (dev s))) in
  ∃ s' dsk', extend_loop junk n x s = Ok (tt, s') ∧ leaves s s' dsk' ∧
    chain (efs s) dsk' ((l ++ [x]) ++ new) ∧
    free_blocks (efs s) dsk' = drop n (free_blocks (efs s) (disk (dev s))) ∧
    grown (efs s) (disk (dev s)) dsk' (x :: new).
Proof.
  induction n as [|n IH]; intros s l x Hok Hch Hres Hn new.
  { exists s, (disk (dev s)). subst new. cbn. rewrite app_nil_r.
    split_and!; [done|by apply leaves_refl|done|done|by split_and!]. }
  cbn [extend_loop]. set (f := efs s) in *. set (dsk := disk (dev s)) in *.
  pose proof (e_geo _ Hok) as Hg. fold f dsk in Hg.
  destruct (free_blocks f dsk) as [|c rest] eqn:Hfree; [cbn in Hn; lia|].
  destruct (link_free_ok f _ dsk l x c rest Hg eq_refl Hch Hres Hfree) as (Hch2 & Hfree2 & Hgr).
  assert (data_block f x) as Hx by (eapply chain_elem; [done|]; set_solver).
  assert (data_block f c) as Hc by (apply Hres; rewrite Hfree; by left).
  destruct (data_block_range _ _ Hg _ Hx) as (Hx0 & _), (data_block_range _ _ Hg _ Hc) as (Hc0 & _).
  destruct (find_free_block_ok s Hok) as (s1 & E1 & L1). fold f dsk in E1. rewrite Hfree in E1. cbn in E1.
  mrun E1. pose proof L1 as (Hok1 & D1 & h1 & Ef1). fold dsk in D1.
  destruct (set_fat_ok junk s1 x c Hok1) as (s2 & E2 & L2); [by rewrite Ef1|]. mrun E2.
  rewrite D1, Ef1 in L2. pose proof L2 as (Hok2 & D2 & h2 & Ef2).
  destruct (set_fat_ok junk s2 c ECHFS_END_OF_CHAIN Hok2) as (s3 & E3 & L3); [by rewrite Ef2, Ef1|]. mrun E3.
  rewrite D2, Ef2, Ef1 in L3. pose proof L3 as (Hok3 & D3 & h3 & Ef3).
  set (dsk2 := set_fld (fat_at f c) 8 ECHFS_END_OF_CHAIN (set_fld (fat_at f x) 8 c dsk)) in *.
  assert (disk (dev s3) = dsk2) as D3' by exact D3. assert (efs s3 = f <| cached_blocks := h3 |>) as Ef by (rewrite Ef3, Ef2, Ef1; done).
  assert (leaves s s3 dsk2) as L123 by (eapply leaves_trans, leaves_trans; [exact L1|exact L2|exact L3]).
  assert (free_blocks (efs s3) (disk (dev s3)) = rest) as Hf3 by (rewrite Ef, D3'; exact Hfree2).
  destruct (IH s3 (l ++ [x]) c Hok3) as (s' & dsk' & E' & L' & Hch' & Hfree' & Hgr').
  { rewrite D3', Ef. eapply chain_leaves in Hch2; [|exact L123]. by rewrite Ef in Hch2. }
  { intros b Hb. rewrite Hf3 in Hb. rewrite Ef. apply Hres. rewrite Hfree. by right. }
  { rewrite Hf3. cbn in Hn. lia. }
  rewrite Hf3 in *. rewrite D3', Ef in Hgr'. rewrite Ef in Hch', Hfree'.
  exists s', dsk'. split_and!; [exact E'|by eapply leaves_trans| |exact Hfree'|].
  - subst new. change (take (S n) (c :: rest)) with ([c] ++ take n rest). rewrite (app_assoc (l ++ [x])).
    by apply chain_recache in Hch'.
  - subst new. cbn [take]. eapply grown_mono; [|eapply grown_trans; [exact Hgr|exact Hgr']]. set_solver.
Qed.

Lemma chain_length f n dsk l : geometry f n → chain f dsk l → zlen l ≤ blocks f.
Proof.
  intros Hg Hc. pose proof (g_count _ _ Hg). assert (l ⊆+ seqZ 0 (blocks f)) as Hs.
  { apply NoDup_submseteq; [by eapply chain_nodup|]. intros b Hb. apply elem_of_seqZ.
    destruct (data_block_range _ _ Hg b) as (? & _); [by eapply chain_elem|lia]. }
  apply submseteq_length in Hs. rewrite length_seqZ in Hs. unfold zlen. lia.
Qed.

Lemma chain_end_ok fuel : ∀ s l x b r total, est_ok s → chain (efs s) (disk (dev s)) (l ++ [x]) → l ++ [x] = b :: r →
  (length l < fuel)%nat → 0 ≤ total → total + zlen (l ++ [x]) < U64_MOD →
  ∃ s', chain_end junk fuel total b s = Ok ((total + zlen (l ++ [x]), x), s') ∧ leaves s s' (disk (dev s)).
Proof.
  induction fuel as [|n IH]; intros s l x b r total Hok Hch Hb Hn Ht Hlt; [lia|]. cbn [chain_end].
  assert (u64 (total + 1) = total + 1) as ->.
  { apply u64_small. unfold is_u64. rewrite zlen_app, (zlen_cons x), zlen_nil in Hlt. pose proof (zlen_nonneg l). lia. }
  assert (data_block (efs s) b) as Hdb by (eapply chain_elem; [done|]; rewrite Hb; by left).
  destruct (get_data_ok junk s b Hok Hdb) as (s1 & E1 & L1). mrun E1.
  destruct l as [|b' l]; cbn [app] in Hb, Hch, Hlt |- *; injection Hb as <- <-.
  - destruct Hch as [_ ->]. rewrite Z.eqb_refl. exists s1. split; [|done]. done.
  - pose proof L1 as (Hok1 & D1 & h1 & Ef1).
    assert (∃ c r, l ++ [x] = c :: r) as (c & r & Hc) by (destruct l; cbn; eauto).
    rewrite Hc in Hch. pose proof Hch as (_ & Hf & Hcc & _).
    destruct (data_block_range _ _ (e_geo _ Hok) _ Hcc) as (_ & _ & _ & _ & Hne & _).
    rewrite Hf, (proj2 (Z.eqb_neq _ _) Hne).
    destruct (get_data_ok junk s1 b' Hok1) as (s2 & E2 & L2); [by rewrite Ef1|]. mrun E2.
    rewrite D1 in L2. pose proof L2 as (Hok2 & D2 & h2 & Ef2).
    assert (fat (efs s1) (disk (dev s1)) b' = c) as -> by (rewrite Ef1, D1; exact Hf).
    pose proof (leaves_trans _ _ _ _ _ L1 L2) as L12.
    cbn [length] in Hn. rewrite zlen_cons in Hlt.
    destruct (IH s2 l x c r (total + 1) Hok2) as (s' & E' & L'); [|done|lia|lia|lia|].
    { rewrite D2, Hc. eapply chain_leaves; [exact L12|]. apply (chain_tail _ _ _ _ _ Hch). }
    rewrite D2 in L'. exists s'. split; [|by eapply leaves_trans]. rewrite E', zlen_cons. do 3 f_equal. lia.
Qed.

Lemma chain_snoc f dsk l : chain f dsk l → ∃ l' x, l = l' ++ [x].
Proof. destruct l as [|b l] using rev_ind; [done|eauto]. Qed.

(** A file grows to [total] blocks by the lowest free ones. *)
Lemma allocate_blocks_ok s file l total fuel :
  let f := efs s in let dsk := disk (dev s) in let ch := starting_block file :: l in
  est_ok s → chain f dsk ch → reserved f dsk → (length ch ≤ fuel)%nat →
  zlen ch ≤ total → total - zlen ch ≤ zlen (free_blocks f dsk) →
  let new := take (Z.to_nat (total - zlen ch)) (free_blocks f dsk) in
  ∃ s' dsk', allocate_blocks_for_file junk fuel file total s = Ok (tt, s') ∧ leaves s s' dsk' ∧
    chain f dsk' (ch ++ new) ∧ free_blocks f dsk' = drop (Z.to_nat (total - zlen ch)) (free_blocks f dsk) ∧
    (∀ b, 0 ≤ b < blocks f → b ∉ ch → b ∉ new → fat f dsk' b = fat f dsk b) ∧
    content f dsk' ch = content f dsk ch.
Proof.
  intros f dsk ch Hok Hc Hres Hfuel Ht Hfr new. pose proof (e_geo _ Hok) as Hg. fold f dsk in Hg.
  destruct (chain_snoc _ _ _ Hc) as (l' & x & Ex). pose proof (chain_length _ _ _ _ Hg Hc) as Hlen.
  pose proof (g_count _ _ Hg) as Hcnt.
  assert (zlen (free_blocks f dsk) ≤ blocks f) as Hfl.
  { unfold free_blocks, zlen. pose proof (length_filter (λ b, fat f dsk b = 0) (seqZ 0 (blocks f))) as Hlf.
    rewrite length_seqZ in Hlf. lia. }
  unfold allocate_blocks_for_file.
  destruct (chain_end_ok fuel s l' x (starting_block file) l 0 Hok) as (s1 & E1 & L1).
  { rewrite <-Ex. exact Hc. }
  { by rewrite <-Ex. }
  { rewrite Ex, length_app in Hfuel. cbn in Hfuel. lia. }
  { lia. }
  { rewrite <-Ex. lia. }
  mrun E1. rewrite <-Ex. pose proof L1 as (Hok1 & D1 & h1 & Ef1).
  rewrite u64_small by (unfold is_u64; lia). cbn [Z.add].
  set (n := Z.to_nat (total - zlen ch)) in *.
  destruct (extend_loop_ok n s1 l' x Hok1) as (s' & dsk' & E' & L' & C' & F' & G').
  { rewrite D1, <-Ex. by eapply chain_leaves. }
  { rewrite D1, Ef1. exact Hres. }
  { rewrite D1, Ef1. change (n ≤ length (free_blocks f dsk))%nat. subst n. unfold zlen in *. lia. }
  rewrite D1, Ef1 in C', F', G'. rewrite <-Ex in C'. apply chain_recache in C'.
  exists s', dsk'. split_and!; [exact E'|by eapply leaves_trans|exact C'|exact F'| |].
  - intros b Hb N1 N2. apply G'; [exact Hb|]. rewrite Ex in N1.
    intros [->|Hin]%elem_of_cons; [set_solver|by apply N2].
  - destruct G' as (_ & _ & HB). unfold content. f_equal. apply map_ext_in. intros b Hb%list_elem_of_In.
    destruct (data_block_range _ _ Hg b) as (? & ? & ? & ? & _); [exact (chain_elem _ _ _ b Hc Hb)|]. by apply HB.
Qed.
End alloc.
