(* ===== verification/EchfsDir.v ===== *)
(** * Names in an echFS volume

    The main directory is one table of 256 byte entries; an entry names the
    directory it is in by that directory's id, and the first entry without one
    ends the table.  [search] and [lookup_path] say what a name and a path mean
    in the table, and the driver's routines compute them. *)

From S2P Require Import Prelude Locks CString Blocks Bytes DList Hashmap HashmapTheorems Vfs VfsTheorems Kernel Fd Echfs EchfsBlocks.

Definition dirent (f : echfs_filesystem_t) (dsk : list Z) (i : Z) : list Z :=
  slice dsk (main_dir_block f * block_size f + DIR_ENTRY_SIZE * i) DIR_ENTRY_SIZE.
Definition entries (f : echfs_filesystem_t) : Z := main_dir_blocks f * block_size f / DIR_ENTRY_SIZE.

(** The name of an entry: the string in its 201 bytes. *)
Definition has_name (e : list Z) (name : list Z) : Prop :=
  ∃ rest, slice e NAME_OFFSET 201 = name ++ 0 :: rest ∧ Forall (λ c, c ≠ 0) name.

(** The first entry from [i] on, of [n], with a name in a directory. *)
Fixpoint search (f : echfs_filesystem_t) (dsk : list Z) (n : nat) (i parent : Z) (name : list Z) : option Z :=
  match n with
  | O => None
  | S n' =>
      let e := dirent f dsk i in
      if (parent_id e =? parent) && bool_decide (cstring (slice e NAME_OFFSET 201) = Some name) then Some i
      else if parent_id e =? 0 then None
      else search f dsk n' (i + 1) parent name
  end.

Definition search_dir (f : echfs_filesystem_t) (dsk : list Z) (parent : Z) (name : list Z) : option Z :=
  search f dsk (Z.to_nat (entries f)) 0 parent name.

Fixpoint lookup_path (f : echfs_filesystem_t) (dsk : list Z) (parent : Z) (names : list (list Z)) : option Z :=
  match names with
  | [] => None
  | [name] => search_dir f dsk parent name
  | name :: names' =>
      i ← search_dir f dsk parent name;
      if entry_type (dirent f dsk i) =? ECHFS_TYPE_DIR
      then lookup_path f dsk (starting_block (dirent f dsk i)) names' else None
  end.

(** A directory whose names are strings, and which has an end. *)
Record dir_ok (f : echfs_filesystem_t) (dsk : list Z) : Prop := {
  d_names i : 0 ≤ i < entries f → ∃ name, has_name (dirent f dsk i) name;
  d_end : ∃ i, 0 ≤ i < entries f ∧ parent_id (dirent f dsk i) = 0
}.

Section dir.
Context {D : Type} {V : Volume D} {VL : VolumeLaws D} (junk : Z → list Z).
Implicit Types s : echfs_st D.

Lemma cstring_app name rest : Forall (λ c, c ≠ 0) name → cstring (name ++ 0 :: rest) = Some name.
Proof.
  induction 1 as [|c l Hc Hl IH]; [done|]. cbn. by rewrite (proj2 (Z.eqb_neq _ _) Hc), IH.
Qed.

Lemma low_dir f n : geometry f n → 0 ≤ main_dir_block f * block_size f ∧
  main_dir_block f * block_size f + main_dir_blocks f * block_size f ≤ n.
Proof.
  intros [Hs _ Ht Hd Hf Hk Hr Hc].
  assert (0 ≤ (8 * blocks f + block_size f - 1) / block_size f) by (apply Z.div_pos; lia). split; nia.
Qed.

(** Where an entry is. *)
Lemma dir_place f n i : geometry f n → 0 ≤ i < entries f →
  dir_offset f i = main_dir_block f * block_size f + DIR_ENTRY_SIZE * i ∧
  0 ≤ dir_offset f i ∧ dir_offset f i + DIR_ENTRY_SIZE ≤ (main_dir_block f + main_dir_blocks f) * block_size f ∧
  (main_dir_block f + main_dir_blocks f) * block_size f ≤ n.
Proof.
  intros Hg Hi. destruct (low_dir _ _ Hg) as [Hm0 Hm]. pose proof (g_range _ _ Hg). pose proof (g_size _ _ Hg).
  unfold entries, dir_offset, DIR_ENTRY_SIZE in *.
  pose proof (Z.mul_div_le (main_dir_blocks f * block_size f) 256 ltac:(lia)).
  rewrite (u64_small (main_dir_block f * _)), (u64_small (i * 256)) by (unfold is_u64; lia).
  rewrite u64_small by (unfold is_u64; lia). split_and!; lia.
Qed.

(** The bytes of an entry in the buffer of the caller. *)
Definition in_buffer (e : list Z) : list Z := e ++ drop (Z.to_nat DIR_ENTRY_SIZE) (kcalloc_bytes junk DIR_ENTRY_SIZE).

Lemma zlen_dirent f n dsk i : geometry f n → zlen dsk = n → 0 ≤ i < entries f → zlen (dirent f dsk i) = DIR_ENTRY_SIZE.
Proof.
  intros Hg <- Hi. destruct (dir_place _ _ _ Hg Hi) as (E & ? & ? & ?). rewrite E in *.
  apply zlen_slice; unfold DIR_ENTRY_SIZE in *; lia.
Qed.

Lemma read_dir_entry_ok s i : est_ok s → 0 ≤ i < entries (efs s) →
  ∃ s', echfs_read_dir_entry junk i s = Ok (in_buffer (dirent (efs s) (disk (dev s)) i), s') ∧
    leaves s s' (disk (dev s)).
Proof.
  intros Hok Hi. pose proof Hok as [Hv Hn Hg Hl (mb & Hm & Hc)].
  destruct (dir_place _ _ _ Hg Hi) as (E & H1 & H2 & H3).
  unfold echfs_read_dir_entry. mstep. rewrite Hn.
  destruct (vol_open_ok _ Hv) as (fd & d1 & E1 & Hfd & A1 & D1). mrun (on_dev_ok _ _ _ _ E1).
  destruct (vol_seek_ok d1 fd 0 (dir_offset (efs s) i) A1) as (r2 & d2 & E2 & A2 & D2).
  erewrite bind_ok; [|by apply on_dev_ok]. cbv beta.
  set (buf := take _ _). assert (zlen buf = DIR_ENTRY_SIZE) as Hz by (by apply take_kcalloc).
  destruct (vol_read_ok d2 fd _ buf A2) as (r3 & d3 & E3 & A3 & D3); [lia|rewrite Hz, D2, D1; lia|].
  erewrite bind_ok; [|by apply on_dev_ok]. cbv beta iota.
  destruct (vol_close_ok d3 fd _ A3) as (r5 & d5 & E5 & V5 & D5).
  erewrite bind_ok; [|by apply on_dev_ok]. cbv beta.
  exists (mk_est d5 (efs s <| cached_blocks := cached_blocks (efs s) |>) (bufs s) (ebrk s)). split.
  - unfold mret, stM_ret. do 2 f_equal; [|by destruct s as [? [] ? ?]].
    unfold in_buffer, dirent. by rewrite D2, D1, Hz, E.
  - apply (leaves_mk _ _ _ _ _ _ mb); [done|done|congruence|done|done|done].
Qed.

Lemma fld_in_buffer e off n : zlen e = DIR_ENTRY_SIZE → 0 ≤ off → 0 ≤ n → off + n ≤ DIR_ENTRY_SIZE →
  fld off n (in_buffer e) = fld off n e.
Proof. intros He Ho Hn Hl. unfold fld, in_buffer. by rewrite slice_app_l by lia. Qed.

Lemma name_in_buffer e name : zlen e = DIR_ENTRY_SIZE → has_name e name →
  ∃ rest, drop (Z.to_nat NAME_OFFSET) (in_buffer e) = name ++ 0 :: rest ∧ Forall (λ c, c ≠ 0) name ∧
    cstring (slice e NAME_OFFSET 201) = Some name.
Proof.
  intros He (rest & Hn & Hz). unfold in_buffer, zlen, DIR_ENTRY_SIZE, NAME_OFFSET in *. rewrite drop_app_le by lia.
  exists (rest ++ drop 201 (drop 9 e) ++ drop (Z.to_nat 256) (kcalloc_bytes junk 256)).
  split_and!; [|done|rewrite Hn; by apply cstring_app].
  rewrite <-(take_drop 201 (drop (Z.to_nat 9) e)). unfold slice in Hn.
  change (Z.to_nat 201) with 201%nat in Hn. rewrite Hn. by rewrite <-!app_assoc.
Qed.

Lemma find_entry_loop_ok n : ∀ fuel s i parent name rest,
  est_ok s → dir_ok (efs s) (disk (dev s)) → Forall (λ c, c ≠ 0) name → 0 ≤ i →
  i + Z.of_nat n = entries (efs s) → (∃ k, i ≤ k < entries (efs s) ∧ parent_id (dirent (efs s) (disk (dev s)) k) = 0) →
  (n ≤ fuel)%nat →
  ∃ s', find_entry_loop junk fuel (name ++ 0 :: rest) parent i s =
      Ok (default ECHFS_SEARCH_FAIL (search (efs s) (disk (dev s)) n i parent name), s') ∧
    leaves s s' (disk (dev s)).
Proof.
  induction n as [|n IH]; intros fuel s i parent name rest Hok Hdir Hnz Hi Hn (k & Hk & Hpk) Hf; [lia|].
  destruct fuel as [|fuel]; [lia|]. cbn [find_entry_loop search].
  pose proof (e_geo _ Hok) as Hg.
  destruct (read_dir_entry_ok s i Hok) as (s1 & E1 & L1); [lia|]. mrun E1. pose proof L1 as (Hok1 & D1 & h & Ef).
  set (e := dirent (efs s) (disk (dev s)) i).
  assert (zlen e = DIR_ENTRY_SIZE) as He by (eapply zlen_dirent; [done|done|lia]).
  assert (parent_id (in_buffer e) = parent_id e) as -> by (by apply fld_in_buffer).
  destruct (d_names _ _ Hdir i) as [nm Hnm]; [lia|]. fold e in Hnm.
  destruct (name_in_buffer e nm He Hnm) as (rest2 & Ed & Hnmz & Ec). rewrite Ec.
  assert (∃ s2, (if parent_id e =? parent then
              '(r, _) ← on_buf (strcmp (drop (Z.to_nat NAME_OFFSET) (in_buffer e))) (name ++ 0 :: rest); mret (r =? 0)
            else mret false) s1 = Ok ((parent_id e =? parent) && bool_decide (Some nm = Some name), s2) ∧ s2 = s1)
    as (? & Es & ->).
  { exists s1. split; [|done]. destruct (parent_id e =? parent); [|done]. cbn [andb].
    rewrite Ed. destruct (strcmp_buf_ok name rest nm rest2 Hnz Hnmz) as (r & Er & Hr).
    unfold on_buf, of_res, mbind, stM_bind. rewrite Er. cbn. unfold mret, stM_ret. do 2 f_equal.
    destruct (r =? 0) eqn:E; zbool; [rewrite bool_decide_true by (f_equal; symmetry; tauto); done|].
    rewrite bool_decide_false; [done|]. intros [= ->]. tauto. }
  mrun Es. destruct ((parent_id e =? parent) && bool_decide (Some nm = Some name)).
  { by exists s1. }
  destruct (parent_id e =? 0) eqn:E0; zbool.
  { by exists s1. }
  assert (i ≠ k) as Hik by (intros ->; done).
  assert (entries (efs s) < U64_MOD) as He64.
  { destruct (low_dir _ _ Hg) as [Hm0 Hm]. pose proof (g_range _ _ Hg). pose proof (g_size _ _ Hg).
    unfold entries, DIR_ENTRY_SIZE. apply Z.div_lt_upper_bound; lia. }
  rewrite u64_small by (unfold is_u64; lia).
  destruct (IH fuel s1 (i + 1) parent name rest Hok1) as (s' & E' & L'); rewrite ?D1, ?Ef; try done; try lia.
  { by destruct Hdir; split. }
  { change (entries (efs s <| cached_blocks := h |>)) with (entries (efs s)). lia. }
  { exists k. split; [|done]. change (entries (efs s <| cached_blocks := h |>)) with (entries (efs s)). lia. }
  rewrite D1, Ef in E'. rewrite D1 in L'. exists s'. split; [|by eapply leaves_trans]. rewrite E'.
  do 3 f_equal. clear. generalize (i + 1). induction n as [|n IHn]; intros j; cbn; [done|].
  by rewrite IHn.
Qed.

Lemma search_recache f h dsk n : ∀ i parent name,
  search (f <| cached_blocks := h |>) dsk n i parent name = search f dsk n i parent name.
Proof. induction n as [|n IH]; intros i parent name; cbn [search]; [done|]. by rewrite IH. Qed.

Lemma lookup_recache f h dsk names : ∀ parent,
  lookup_path (f <| cached_blocks := h |>) dsk parent names = lookup_path f dsk parent names.
Proof.
  induction names as [|name [|name2 names] IH]; intros parent; [done|apply search_recache|].
  cbn [lookup_path]. unfold search_dir. rewrite search_recache. change (entries (f <| cached_blocks := h |>)) with (entries f).
  destruct (search f dsk _ 0 parent name) as [i|]; [|done]. cbn.
  change (dirent (f <| cached_blocks := h |>) dsk i) with (dirent f dsk i).
  destruct (entry_type (dirent f dsk i) =? ECHFS_TYPE_DIR); [apply IH|done].
Qed.

Lemma search_range f dsk n : ∀ i parent name k, search f dsk n i parent name = Some k → i ≤ k < i + Z.of_nat n.
Proof.
  induction n as [|n IH]; intros i parent name k; cbn [search]; [done|].
  destruct (_ && _); [intros [= <-]; lia|]. destruct (_ =? 0); [done|]. intros Hk%IH. lia.
Qed.

Lemma find_dir_entry_ok s fuel parent name rest :
  est_ok s → dir_ok (efs s) (disk (dev s)) → Forall (λ c, c ≠ 0) name → entries (efs s) ≤ Z.of_nat fuel →
  ∃ s', echfs_find_entry_name_parent junk fuel (name ++ 0 :: rest) parent s =
      Ok (default ECHFS_SEARCH_FAIL (search_dir (efs s) (disk (dev s)) parent name), s') ∧
    leaves s s' (disk (dev s)).
Proof.
  intros Hok Hdir Hn Hf. destruct (d_end _ _ Hdir) as (k & Hk & Hp).
  apply find_entry_loop_ok; [done|done|done|lia|lia|by exists k|lia].
Qed.

(** A path is its names with slashes between them. *)
Fixpoint joined (names : list (list Z)) : list Z :=
  match names with
  | [] => []
  | [name] => name
  | name :: names' => name ++ SLASH :: joined names'
  end.

Definition good_name (name : list Z) : Prop :=
  Forall (λ c, c ≠ 0) name ∧ Forall (λ c, c ≠ SLASH) name ∧ (0 < length name ≤ 200)%nat.

Lemma scan_name_ok name : ∀ pre post rest, Forall (λ c, c ≠ SLASH) name →
  length (pre ++ 0 :: post) = 201%nat → (length name ≤ length post)%nat →
  rest = [] ∨ (∃ r, rest = SLASH :: r) →
  scan_name (name ++ rest) (zlen pre) (pre ++ 0 :: post) =
    Ok (Some (bool_decide (rest = []), tail rest, pre ++ name ++ 0 :: drop (length name) post)).
Proof.
  induction name as [|c name IH]; intros pre post rest Hs Hl Hp Hrest.
  - destruct Hrest as [->|[r ->]]; [done|]. cbn. by rewrite drop_0.
  - apply Forall_cons in Hs as [Hc Hs]. destruct post as [|y post]; [cbn in Hp; lia|].
    cbn [scan_name app]. rewrite (proj2 (Z.eqb_neq _ _) Hc). mrun (st_app pre 0 (y :: post) c).
    replace (zlen pre + 1) with (zlen (pre ++ [c])) by (by rewrite zlen_app).
    pose proof (st_app (pre ++ [c]) y post 0) as E. rewrite <-!app_assoc in E. cbn [app] in E. rewrite E.
    rewrite length_app in Hl. cbn in Hl, Hp.
    replace (zlen (pre ++ [c]) =? 201) with false.
    2: { symmetry. apply Z.eqb_neq. unfold zlen. rewrite length_app. cbn. lia. }
    cbn [andb]. specialize (IH (pre ++ [c]) post rest Hs). rewrite <-!app_assoc in IH. cbn [app] in IH.
    rewrite IH; [done|rewrite length_app; cbn; lia|lia|done].
Qed.

Lemma resolve_loop_ok names : ∀ fuel n s buf parent err,
  est_ok s → dir_ok (efs s) (disk (dev s)) → names ≠ [] → Forall good_name names → length buf = 201%nat →
  (length (joined names) < n)%nat → entries (efs s) ≤ Z.of_nat fuel →
  ∃ s', resolve_loop junk fuel n (joined names) buf parent err 0 s =
      Ok (match lookup_path (efs s) (disk (dev s)) parent names with
          | Some i => (err, Some (set_entry_number i (in_buffer (dirent (efs s) (disk (dev s)) i))))
          | None => (Z.lor err 4, None)
          end, s') ∧ leaves s s' (disk (dev s)).
Proof.
  induction names as [|name names IH]; intros fuel n s buf parent err Hok Hdir Hne Hgood Hbuf Hn Hf; [done|].
  destruct n as [|n]; [lia|]. cbn [resolve_loop]. apply Forall_cons in Hgood as [(Hz & Hsl & Hlen) Hgood].
  destruct buf as [|y post]; [done|]. cbn in Hbuf.
  assert (st 0 0 (y :: post) = Ok (tt, 0 :: post)) as E0 by exact (st_app [] y post 0).
  erewrite bind_ok; [|unfold on_buf, of_res; by rewrite E0]. cbv beta iota.
  set (rest := match names with [] => [] | _ => SLASH :: joined names end).
  assert (joined (name :: names) = name ++ rest) as Ej by (subst rest; destruct names; cbn [joined]; by rewrite ?app_nil_r).
  rewrite Ej in Hn |- *.
  pose proof (scan_name_ok name [] post rest Hsl) as Es. cbn [app zlen] in Es. change (zlen []) with 0 in Es.
  rewrite Es; [|cbn; lia|lia|subst rest; destruct names; eauto]. cbn [of_res]. mstep.
  destruct (find_dir_entry_ok s fuel parent name (drop (length name) post) Hok Hdir Hz Hf) as (s1 & E1 & L1). mrun E1.
  pose proof L1 as (Hok1 & D1 & h & Ef).
  destruct (search_dir (efs s) (disk (dev s)) parent name) as [i|] eqn:Ei; cbn [from_option id].
  2: { rewrite Z.eqb_refl. exists s1. split; [|done]. cbn [lookup_path]. rewrite Ei. by destruct names. }
  pose proof (search_range _ _ _ _ _ _ _ Ei) as Hi.
  assert (0 ≤ i < entries (efs s)) as Hie by lia.
  assert (i ≠ ECHFS_SEARCH_FAIL) as Hnf.
  { destruct (dir_place _ _ _ (e_geo _ Hok) Hie) as (? & ? & ? & ?). pose proof (g_range _ _ (e_geo _ Hok)).
    pose proof (g_size _ _ (e_geo _ Hok)). destruct (low_dir _ _ (e_geo _ Hok)).
    unfold ECHFS_SEARCH_FAIL, DIR_ENTRY_SIZE in *. lia. }
  rewrite (proj2 (Z.eqb_neq _ _) Hnf).
  destruct (read_dir_entry_ok s1 i Hok1) as (s2 & E2 & L2); [by rewrite Ef|]. mrun E2. rewrite D1 in L2.
  assert (dirent (efs s1) (disk (dev s1)) i = dirent (efs s) (disk (dev s)) i) as -> by (by rewrite Ef, D1).
  set (e := dirent (efs s) (disk (dev s)) i) in *.
  pose proof (leaves_trans _ _ _ _ _ L1 L2) as L12. pose proof L12 as (Hok2 & D2 & h2 & Ef2).
  assert (zlen e = DIR_ENTRY_SIZE) as He by (by eapply zlen_dirent; [apply (e_geo _ Hok)| |]).
  destruct names as [|name2 names].
  - cbn [bool_decide rest decide]. subst rest. rewrite bool_decide_true by done. cbn [negb Z.eqb]. mstep.
    exists s2. split; [|done]. cbn [lookup_path]. by rewrite Ei.
  - subst rest. rewrite bool_decide_false by done. cbn [negb tail].
    assert (entry_type (in_buffer e) = entry_type e) as -> by (by apply fld_in_buffer).
    assert (starting_block (in_buffer e) = starting_block e) as -> by (by apply fld_in_buffer).
    cbn [lookup_path]. rewrite Ei. cbn [mbind option_bind]. fold e.
    destruct (entry_type e =? ECHFS_TYPE_DIR) eqn:Et; cbn [negb].
    2: { by exists s2. }
    rewrite length_app in Hn. cbn [length] in Hn.
    destruct (IH fuel n s2 (name ++ 0 :: drop (length name) post) (starting_block e) err Hok2) as (s' & E' & L');
      rewrite ?D2, ?Ef2; try done; try lia.
    { by destruct Hdir; split. }
    { rewrite length_app. cbn. rewrite length_drop. lia. }
    rewrite D2, Ef2, lookup_recache in E'. rewrite D2 in L'. exists s'. split; [exact E'|by eapply leaves_trans].
Qed.

Lemma joined_start names : names ≠ [] → Forall good_name names →
  ∃ c r, joined names = c :: r ∧ c ≠ SLASH.
Proof.
  destruct names as [|name names]; [done|]. intros _ [(Hz & Hs & Hl) _]%Forall_cons.
  destruct name as [|c name]; [cbn in Hl; lia|]. apply Forall_cons in Hs as [Hc _].
  destruct names; cbn; eauto.
Qed.

Lemma joined_nonzero names : Forall good_name names → Forall (λ c, c ≠ 0) (joined names).
Proof.
  induction 1 as [|name [|name2 names] (Hz & _) _ IH]; [constructor|done|].
  cbn [joined]. apply Forall_app. split; [done|]. by constructor.
Qed.

Lemma path_resolve_ok s fuel names err (slash : bool) :
  est_ok s → dir_ok (efs s) (disk (dev s)) → names ≠ [] → Forall good_name names →
  entries (efs s) ≤ Z.of_nat fuel →
  ∃ s', echfs_path_resolve junk fuel (if slash then SLASH :: joined names else joined names) err 0 s =
      Ok (match lookup_path (efs s) (disk (dev s)) ECHFS_ROOT_DIR_ID names with
          | Some i => (0, Some (set_entry_number i (in_buffer (dirent (efs s) (disk (dev s)) i))))
          | None => (4, None)
          end, s') ∧ leaves s s' (disk (dev s)).
Proof.
  intros Hok Hdir Hne Hgood Hf. unfold echfs_path_resolve. cbn [Z.eqb negb]. mstep.
  destruct (joined_start _ Hne Hgood) as (c & r & Ej & Hc). pose proof (joined_nonzero _ Hgood) as Hnz.
  set (fn := if bool_decide (head (if slash then _ else _) = Some SLASH) then _ else _).
  assert (fn = joined names) as ->.
  { subst fn. destruct slash; [by rewrite bool_decide_true|]. rewrite bool_decide_false; [done|].
    rewrite Ej. cbn. congruence. }
  rewrite strcmp_of_eqb by (try done; by constructor).
  rewrite bool_decide_false by (rewrite Ej; congruence).
  destruct (resolve_loop_ok names fuel (S (length (joined names))) s (replicate 201 0) ECHFS_ROOT_DIR_ID 0
    Hok Hdir Hne Hgood) as (s' & E & L); [done|lia|done|]. by exists s'.
Qed.
End dir.
