(* ===== verification/EchfsOps.v ===== *)
(** * The operations echFS gives to the VFS (fs/filesystems/echfs.c, fs/filesystems/filesystems.c)

    The functions behind the function pointers of the nodes of an echFS mount:
    open, post-open, close, read, write, seek, the node generator, the handlers
    that create a file and test for one, and the mount itself.  They use the
    descriptor table and the VFS tree of the kernel ([Kern] finds the kernel's
    state in the state behind the device) and the table of mounted file systems,
    which maps the identifier of a mount point to its [echfs_filesystem_t].  The
    kernel mounts one echFS volume, at [efs_addr].  [now] is what
    [get_time_since_epoch] gives during the call. *)

From S2P Require Import Prelude Locks CString Blocks Bytes DList Hashmap Vfs Kernel Stack Proc Sched SleepQueue Vmm Fd Echfs.

Definition ENOTDIR : Z := 20.
Definition O_TRUNC : Z := 512.

Class Kern (D : Type) := {
  kern : D → kstate;
  set_kern : kstate → D → D
}.

Record eops_st (D : Type) : Type := mk_eops {
  est : echfs_st D;
  unid_mounts : hashmap Z;
  efs_addr : Z
}.
Arguments mk_eops {D} _ _ _.
Arguments est {D} _.
Arguments unid_mounts {D} _.
Arguments efs_addr {D} _.
#[export] Instance eta_eops_st D : Eta (eops_st D) := λ r, mk_eops (est r) (unid_mounts r) (efs_addr r).

Section ops.
Context {D : Type} `{Volume D, Kern D} (junk : Z → list Z) (fuel : nat) (now : Z).

Abbreviation oM := (stM (eops_st D)).

Definition on_echfs {A} (m : stM (echfs_st D) A) : oM A := zoom est (λ e s, s <| est := e |>) m.
Definition on_kern {A} (m : kM A) : oM A :=
  on_echfs (on_dev (zoom kern set_kern m)).

(** ** fs/filesystems/filesystems.c *)

Definition register_unid (unid filesystem_dat : Z) : oM unit :=
  zoom unid_mounts (λ h s, s <| unid_mounts := h |>) (hashmap_set_elem unid filesystem_dat).

Definition get_unid_fs_data (unid : Z) : oM Z :=
  zoom unid_mounts (λ h s, s <| unid_mounts := h |>) (hashmap_get_elem unid).

Definition init_filesystem_handler : oM unit := modify (λ s, s <| unid_mounts := init_hashmap |>).

(** The file system at an address. *)
Definition filesystem_at (a : Z) : oM echfs_filesystem_t :=
  s ← get; if a =? efs_addr s then mret (efs (est s)) else crashM Fault.

(** ** Operations on open files *)

Definition echfs_open (name : list Z) (mode : Z) : oM Z := mret 0.
Definition echfs_close (fd_no : Z) : oM Z := mret 0.

(** The open file of a descriptor, and its node. *)
Definition open_file (fd_no : Z) : oM (Z * vfs_node_t) :=
  fd ← on_kern (fd_lookup fd_no);
  e ← on_kern (fd_at fd);
  assertM (negb (fd_node e =? 0)) ;;
  n ← on_kern (on_fs (node_at (fd_node e)));
  mret (fd, n).

(** The file system of a node. *)
Definition filesystem_of (n : vfs_node_t) : oM Z :=
  r ← on_kern (on_fs (node_at (fs_root n)));
  get_unid_fs_data (unid r).

(** [get_full_path(fd->node)], in its buffer. *)
Definition full_path_of (fd : Z) : oM (list Z) :=
  e ← on_kern (fd_at fd);
  on_kern (on_fs (get_full_path junk (fd_node e))).

(** The string [strlen(filesystem_info->mountpoint_path)] bytes into the buffer. *)
Definition path_behind (b : list Z) (filesystem_info : Z) : oM (list Z) :=
  f ← filesystem_at filesystem_info;
  of_opt (cstring (drop (length (mountpoint_path f)) b)).

Definition echfs_seek (fd_no offset whence : Z) : oM Z :=
  if whence =? SEEK_END then
    fd ← on_kern (fd_lookup fd_no);
    e ← on_kern (fd_at fd);
    n ← on_kern (on_fs (node_at (fd_node e)));
    filesystem_info ← filesystem_of n;
    if filesystem_info =? 0 then mret (u64 (- ENOENT))
    else
      b ← full_path_of fd;
      path ← path_behind b filesystem_info;
      '(_, entry) ← on_echfs (echfs_path_resolve junk fuel path 0 (unid n));
      match entry with
      | None => mret (u64 (- ENOENT))
      | Some entry =>
          on_kern (upd_fd fd (λ e, e <| fd_seek_pos := u64 (file_size_bytes entry - 1) |>)) ;;
          mret 0
      end
  else mret 0.

Definition echfs_read (fd_no buf count : Z) : oM Z :=
  '(fd, n) ← open_file fd_no;
  b ← full_path_of fd;
  original_path ← of_opt (cstring b);
  b ← on_kern (on_fs (get_mountpoint_relative_path junk (fs_root n) original_path));
  path ← on_kern (clear_last b);
  filesystem_info ← filesystem_of n;
  if filesystem_info =? 0 then mret (- ENOENT)
  else
    filesystem_at filesystem_info ;;
    '(_, entry) ← on_echfs (echfs_path_resolve junk fuel path 0 (unid n));
    match entry with
    | None => mret (- ENOENT)
    | Some entry =>
        if count =? 0 then mret 0
        else
          e ← on_kern (fd_at fd);
          if file_size_bytes entry <? u64 (count + fd_seek_pos e) then mret (- EINVAL)
          else
            local_buf ← on_echfs (read_for_range junk entry (fd_seek_pos e) count);
            match local_buf with
            | None => mret (- EIO)
            | Some data =>
                on_kern (modify (λ s, s <| kmem := store_bytes (kmem s) buf data |>)) ;;
                on_kern (upd_fd fd (λ e, e <| fd_seek_pos := u64 (fd_seek_pos e + count) |>)) ;;
                mret (s32 count)
            end
    end.

(** The blocks are written from [buf] on, as many whole blocks as the range touches. *)
Definition echfs_write (fd_no buf count : Z) : oM Z :=
  '(fd, n) ← open_file fd_no;
  b ← full_path_of fd;
  filesystem_info ← filesystem_of n;
  if filesystem_info =? 0 then mret (- EIO)
  else
    path ← path_behind b filesystem_info;
    '(_, entry) ← on_echfs (echfs_path_resolve junk fuel path 0 (unid n));
    match entry with
    | None => mret (- ENOENT)
    | Some entry =>
        if count =? 0 then mret 0
        else
          e ← on_kern (fd_at fd);
          f ← filesystem_at filesystem_info;
          let allocated_bytes_needed := u64 (count + fd_seek_pos e) in
          allocated_blocks_needed ← BYTES_TO_BLOCKS allocated_bytes_needed (block_size f);
          on_echfs (allocate_blocks_for_file junk fuel entry allocated_blocks_needed) ;;
          '(blocks_touched, _) ← range_blocks f (fd_seek_pos e) count;
          data ← on_kern (gets (λ s, load_bytes (kmem s) buf (Z.to_nat (blocks_touched * block_size f))));
          err_write ← on_echfs (write_blocks_for_range junk entry (fd_seek_pos e) count data);
          if negb (err_write =? 0) then mret (- EIO)
          else
            on_echfs (echfs_write_dir_entry (entry_number entry)
              (set_modify_time now (set_file_size allocated_bytes_needed entry))) ;;
            mret (s32 count)
    end.

Definition echfs_post_open (fd_no mode : Z) : oM Z :=
  '(fd, n) ← open_file fd_no;
  b ← full_path_of fd;
  filesystem_info ← filesystem_of n;
  if filesystem_info =? 0 then mret 1
  else
    path ← path_behind b filesystem_info;
    '(_, entry) ← on_echfs (echfs_path_resolve junk fuel path 0 (unid n));
    match entry with
    | None => mret (- ENOENT)
    | Some entry =>
        let entry := set_access_time now entry in
        on_echfs (echfs_write_dir_entry (entry_number entry) entry) ;;
        (if negb (Z.land mode O_TRUNC =? 0) then
           on_echfs (echfs_write_dir_entry (entry_number entry) (set_file_size 0 entry))
         else mret tt) ;;
        mret 0
    end.

(** ** Handlers of the mount point *)

Definition echfs_node_gen (echfs_ops : vfs_ops_t) (fs_node target_node : Z) (path : list Z) : oM unit :=
  n ← on_kern (on_fs (node_at fs_node));
  fs_data ← get_unid_fs_data (unid n);
  filesystem_at fs_data ;;
  '(_, entry) ← on_echfs (echfs_path_resolve junk fuel path 0 0);
  match entry with
  | None => mret tt
  | Some _ =>
      on_kern (on_fs (set_child_ops fuel target_node echfs_ops)) ;;
      on_kern (on_fs (upd_vnode target_node (λ e, e <| n_ops := echfs_ops |>))) ;;
      on_kern (on_fs (set_child_fs_root fuel target_node fs_node)) ;;
      on_kern (on_fs (upd_vnode target_node (λ e, e <| fs_root := fs_node |>)))
  end.

(** The id of the directory a new file goes to, or the error. *)
Definition parent_of_new (editable_path : list Z) : oM (Z + Z) :=
  r ← strcmp_of editable_path [SLASH];
  if negb (r =? 0) then
    '(_, parent_dir) ← on_echfs (echfs_path_resolve junk fuel editable_path 0 0);
    match parent_dir with
    | None => mret (inr (- ENOENT))
    | Some d =>
        if negb (entry_type d =? ECHFS_TYPE_DIR) then mret (inr (- ENOTDIR))
        else mret (inl (starting_block d))
    end
  else mret (inl ECHFS_ROOT_DIR_ID).

(** [new_file] is the structure on the stack, which starts with whatever the stack held. *)
Definition echfs_create_handler (new_file : list Z) (self : Z) (name : list Z) (mode : Z) : oM Z :=
  n ← on_kern (on_fs (node_at self));
  fs_data ← get_unid_fs_data (unid n);
  filesystem_at fs_data ;;
  '(_, file) ← on_echfs (echfs_path_resolve junk fuel name 0 0);
  match file with
  | Some _ => mret (- EEXIST)
  | None =>
      '(_, b) ← on_buf (strcpy (c_str name) 0 0) (kcalloc_bytes junk (zlen name + 1));
      '(_, b) ← on_buf path_remove_elem b;
      editable_path ← of_opt (cstring b);
      r ← parent_of_new editable_path;
      match r with
      | inr err => mret err
      | inl parent_id =>
          '(p, _) ← on_buf ptr_to_end_path_elem (c_str name);
          '(_, new_file) ← on_buf (strcpy (c_str name) p NAME_OFFSET) new_file;
          let new_file := set_create_time now (set_permissions 0 (set_file_size 0 (set_owner_id 0
                            (set_group_id 0 (set_parent_id parent_id new_file))))) in
          let new_file := set_access_time now (set_modify_time now new_file) in
          free_block ← on_echfs (find_free_block junk);
          let new_file := set_starting_block free_block new_file in
          on_echfs (echfs_set_entry_for_block junk free_block ECHFS_END_OF_CHAIN) ;;
          let new_file := set_entry_type ECHFS_TYPE_FILE new_file in
          free_id ← on_echfs (get_free_directory_entry junk);
          on_echfs (echfs_write_dir_entry free_id new_file) ;;
          mret 0
      end
  end.

Definition echfs_file_exists (fs_root : Z) (path : list Z) : oM Z :=
  n ← on_kern (on_fs (node_at fs_root));
  fs_data ← get_unid_fs_data (unid n);
  filesystem_at fs_data ;;
  '(_, dir_entry) ← on_echfs (echfs_path_resolve junk fuel path 0 0);
  mret (match dir_entry with Some _ => 1 | None => 0 end).

(** The first half of [echfs_test]: the volume of a device becomes the root of the tree.
    [desc] is the address of the new descriptor; the handlers are given by their addresses. *)
Definition echfs_mount (device : list Z) (desc : Z) (echfs_ops : vfs_ops_t)
    (file_exists node_gen create_handler : Z) : oM Z :=
  is_echfs ← on_echfs (echfs_check_and_init junk device);
  if negb (is_echfs =? 0) then
    root ← on_kern (on_fs (gets root_node));
    on_echfs (upd_efs (λ f, f <| mountpoint_path := [SLASH] |> <| mountpoint := root |>)) ;;
    r ← on_kern (on_fs (node_at root));
    s ← get;
    register_unid (unid r) (efs_addr s) ;;
    on_kern (on_fs (modify (λ f, f <| descs := <[desc := mk_desc root echfs_ops file_exists]> (descs f) |>))) ;;
    on_kern (on_fs (upd_vnode root (λ e, e <| filesystem_descriptor := desc |> <| node_handle := node_gen |>
                                            <| create_handle := create_handler |>))) ;;
    mret 1
  else mret 0.
End ops.
