(* ===== verification/EchfsTheorems.v ===== *)
(** * Correctness of echFS

    The theorems on the driver, and a disk in memory that satisfies the laws of
    a device and carries the examples. *)

From S2P Require Import Prelude Locks CString Blocks Bytes DList Hashmap HashmapTheorems Vfs VfsTheorems Kernel Fd Echfs EchfsBlocks EchfsFiles EchfsAlloc EchfsDir.

(** ** A disk in memory, with one open descriptor at a time *)

Record ram : Type := mk_ram { ram_bytes : list Z; ram_pos : option Z }.

Definition RAM_FD : Z := 3.

Definition ram_read (fd : Z) (buf : list Z) : stM ram (Z * list Z) := λ d,
  match ram_pos d with
  | Some p =>
      if (fd =? RAM_FD) && (p + zlen buf <=? zlen (ram_bytes d))
      then Ok ((zlen buf, slice (ram_bytes d) p (zlen buf)), mk_ram (ram_bytes d) (Some (p + zlen buf)))
      else Ok ((- EBADF, buf), d)
  | None => Ok ((- EBADF, buf), d)
  end.

Definition ram_write (fd : Z) (data : list Z) : stM ram Z := λ d,
  match ram_pos d with
  | Some p =>
      if (fd =? RAM_FD) && (p + zlen data <=? zlen (ram_bytes d))
      then Ok (zlen data, mk_ram (splice (ram_bytes d) p data) (Some (p + zlen data)))
      else Ok (- EBADF, d)
  | None => Ok (- EBADF, d)
  end.

#[export] Instance ram_volume : Volume ram := {
  vol_open _ _ := λ d, Ok (RAM_FD, mk_ram (ram_bytes d) (Some 0));
  vol_seek fd off _ := λ d, Ok (off, mk_ram (ram_bytes d) (Some off));
  vol_read := ram_read;
  vol_write := ram_write;
  vol_close fd := λ d, Ok (0, mk_ram (ram_bytes d) None)
}.

#[export] Program Instance ram_laws : VolumeLaws ram := {
  disk := ram_bytes;
  device := chars "/dev/satadeva";
  vol_ok _ := True;
  at_pos d fd p := fd = RAM_FD ∧ ram_pos d = Some p
}.
Next Obligation. intros d _. by eexists _, _. Qed.
Next Obligation. intros d fd p off [-> _]. by eexists _, _. Qed.
Next Obligation.
  intros d fd p buf [-> Hp] H0 Hl. cbn. unfold ram_read. rewrite Hp, Z.eqb_refl, (proj2 (Z.leb_le _ _) Hl). by eexists _, _.
Qed.
Next Obligation.
  intros d fd p data [-> Hp] H0 Hl. cbn. unfold ram_write. rewrite Hp, Z.eqb_refl, (proj2 (Z.leb_le _ _) Hl). by eexists _, _.
Qed.
Next Obligation. intros d fd p _. by eexists _, _. Qed.

(** ** Mounting *)

(** A disk with a sound boot block. *)
Record boot_ok (dsk : list Z) : Prop := {
  k_bytes : Forall is_u8 dsk;
  k_long : BLOCK0_SIZE ≤ zlen dsk;
  k_sig : b0_sig (slice dsk 0 BLOCK0_SIZE) = chars "_ECH_FS_";
  k_size : 0 < b0_block_size (slice dsk 0 BLOCK0_SIZE);
  k_words : b0_block_size (slice dsk 0 BLOCK0_SIZE) mod 8 = 0;
  k_fits : 16 + (8 * b0_block_count (slice dsk 0 BLOCK0_SIZE) + b0_block_size (slice dsk 0 BLOCK0_SIZE) - 1)
             / b0_block_size (slice dsk 0 BLOCK0_SIZE) + b0_main_dir_blocks (slice dsk 0 BLOCK0_SIZE)
           ≤ b0_block_count (slice dsk 0 BLOCK0_SIZE);
  k_disk : b0_block_count (slice dsk 0 BLOCK0_SIZE) * b0_block_size (slice dsk 0 BLOCK0_SIZE) ≤ zlen dsk;
  k_range : zlen dsk + b0_block_size (slice dsk 0 BLOCK0_SIZE) < U64_MOD
}.

Lemma fld_nonneg off n l : Forall is_u8 l → 0 ≤ fld off n l.
Proof.
  intros Hl. apply le_word_range. unfold slice. by apply Forall_take, Forall_drop.
Qed.

Section mount.
Context {D : Type} {V : Volume D} {VL : VolumeLaws D} (junk : Z → list Z).
Implicit Types s : echfs_st D.

(** Mounting a device with a sound boot block gives a volume with the geometry of the boot block
    and empty, coherent caches; a device without the signature is refused.  Neither writes to it. *)
Theorem echfs_mount_correct s :
  vol_ok (dev s) → unlocked (cache_block_lock (efs s)) → 0 < ebrk s → BLOCK0_SIZE ≤ zlen (disk (dev s)) →
  let block0 := slice (disk (dev s)) 0 BLOCK0_SIZE in
  (boot_ok (disk (dev s)) →
    ∃ s', echfs_check_and_init junk device s = Ok (1, s') ∧ est_ok s' ∧ disk (dev s') = disk (dev s) ∧
      blocks (efs s') = b0_block_count block0 ∧ block_size (efs s') = b0_block_size block0 ∧
      main_dir_blocks (efs s') = b0_main_dir_blocks block0) ∧
  (b0_sig block0 ≠ chars "_ECH_FS_" →
    ∃ s', echfs_check_and_init junk device s = Ok (0, s') ∧ disk (dev s') = disk (dev s)).
Proof.
  intros Hv Hl Hb Hz block0. unfold echfs_check_and_init.
  destruct (vol_open_ok _ Hv) as (fd & d1 & E1 & Hfd & A1 & D1). mrun (on_dev_ok _ _ _ _ E1). mstep.
  rewrite (proj2 (Z.ltb_ge _ _) Hfd).
  set (buf := take _ _). assert (zlen buf = BLOCK0_SIZE) as Hbuf by (by apply take_kcalloc).
  destruct (vol_read_ok d1 fd 0 buf A1) as (r2 & d2 & E2 & A2 & D2); [lia|rewrite Hbuf, D1; lia|].
  erewrite bind_ok; [|by apply on_dev_ok]. cbv beta iota. rewrite Hbuf, D1. fold block0.
  destruct (vol_seek_ok d2 fd _ 0 A2) as (r3 & d3 & E3 & A3 & D3). erewrite bind_ok; [|by apply on_dev_ok]. cbv beta.
  destruct (vol_close_ok d3 fd _ A3) as (r4 & d4 & E4 & V4 & D4). split; [intros Hboot|intros Hsig].
  - pose proof Hboot as [Hby _ Hsg Hs Hw Hf Hk Hr]. fold block0 in Hsg, Hs, Hw, Hf, Hk, Hr.
    rewrite bool_decide_true by done. assert (Forall is_u8 block0) as Hb0 by (by apply Forall_take, Forall_drop).
    pose proof (fld_nonneg 12 8 _ Hb0 : 0 ≤ b0_block_count block0) as Hc0.
    pose proof (fld_nonneg 20 8 _ Hb0 : 0 ≤ b0_main_dir_blocks block0) as Hm0.
    set (cnt := b0_block_count block0) in *. set (bs := b0_block_size block0) in *.
    assert (8 ≤ bs) as H8 by (apply Z.mod_divide in Hw as [q Hq]; lia).
    assert (8 * cnt ≤ cnt * bs) as Hcb by nia.
    assert (0 ≤ (8 * cnt + bs - 1) / bs) as Hq0 by (apply Z.div_pos; lia).
    rewrite (u64_small (cnt * 8)) by (unfold is_u64; lia). unfold BYTES_TO_BLOCKS.
    rewrite (u64_small (cnt * 8 + bs - 1)), (Z.mul_comm cnt 8) by (unfold is_u64; lia).
    erewrite bind_ok; [|apply udiv_ok; lia]. cbv beta. mstep.
    erewrite bind_ok; [|by apply on_dev_ok]. cbv beta.
    eexists. split; [reflexivity|]. split_and!; [|cbn; congruence|done|done|done].
    split; [exact V4|done| |exact Hl|exists ∅; split; [apply hm_rep_init, hash_bucket_range|by split]].
    cbn. rewrite D4, D3, D2, D1. split; cbn; [done|done| |done| |done|done|lia].
    + rewrite u64_small by (unfold is_u64; lia). lia.
    + rewrite u64_small by (unfold is_u64; lia). lia.
  - rewrite bool_decide_false by done. erewrite bind_ok; [|by apply on_dev_ok]. cbv beta.
    eexists. split; [reflexivity|]. cbn. congruence.
Qed.
End mount.

(** ** The block layer refines the disk *)

Inductive block_op : Type :=
| BRead (b : Z)
| BWrite (b : Z) (data : list Z).

(** An operation on a block of the disk outside the main directory. *)
Definition op_ok (f : echfs_filesystem_t) (n : Z) (op : block_op) : Prop :=
  match op with
  | BRead b => 0 ≤ b ∧ (b + 1) * block_size f ≤ n ∧ ¬ in_dir f b
  | BWrite b data => 0 ≤ b ∧ (b + 1) * block_size f ≤ n ∧ zlen data = block_size f
  end.

(** What the operations read and leave on a plain disk. *)
Fixpoint run_disk (f : echfs_filesystem_t) (ops : list block_op) (dsk : list Z) : list (list Z) * list Z :=
  match ops with
  | [] => ([], dsk)
  | BRead b :: ops' => let '(r, d) := run_disk f ops' dsk in (blk f dsk b :: r, d)
  | BWrite b data :: ops' => run_disk f ops' (splice dsk (b * block_size f) data)
  end.

(** The same operations through the driver's cache. *)
Fixpoint run_cached {D} `{Volume D} (junk : Z → list Z) (ops : list block_op) : stM (echfs_st D) (list (list Z)) :=
  match ops with
  | [] => mret []
  | BRead b :: ops' => d ← echfs_read_block junk b; r ← run_cached junk ops'; mret (d :: r)
  | BWrite b data :: ops' => echfs_write_block b data ;; run_cached junk ops'
  end.

Section theorems.
Context {D : Type} {V : Volume D} {VL : VolumeLaws D} (junk : Z → list Z).
Implicit Types s : echfs_st D.

Lemma run_disk_recache f h ops : ∀ dsk, run_disk (f <| cached_blocks := h |>) ops dsk = run_disk f ops dsk.
Proof. induction ops as [|[b|b data] ops IH]; intros dsk; cbn [run_disk]; [done| |]; by rewrite IH. Qed.

(** C21: the block cache is transparent: any sequence of block reads and writes through it reads what
    the same sequence reads on the plain disk, and leaves the disk as that sequence does. *)
Theorem echfs_cache_refines_disk ops : ∀ s,
  est_ok s → Forall (op_ok (efs s) (zlen (disk (dev s)))) ops →
  let '(reads, dsk') := run_disk (efs s) ops (disk (dev s)) in
  ∃ s', run_cached junk ops s = Ok (reads, s') ∧ leaves s s' dsk'.
Proof.
  induction ops as [|[b|b data] ops IH]; intros s Hok Hops; cbn [run_disk run_cached].
  - exists s. split; [done|by apply leaves_refl].
  - apply Forall_cons in Hops as [(H1 & H2 & H3) Hops].
    destruct (read_block_ok junk s b Hok H1 H2 H3) as (s1 & E1 & L1). pose proof L1 as (Hok1 & D1 & h & Ef).
    specialize (IH s1 Hok1). rewrite D1, Ef, run_disk_recache in IH. specialize (IH Hops).
    destruct (run_disk (efs s) ops (disk (dev s))) as [r d]. destruct IH as (s' & E' & L').
    exists s'. mrun E1. mrun E'. split; [done|by eapply leaves_trans].
  - apply Forall_cons in Hops as [(H1 & H2 & H3) Hops].
    destruct (write_block_ok s b data Hok H1 H2) as (s1 & E1 & L1); [lia|].
    rewrite take_ge in L1 by (unfold zlen in H3; lia). pose proof L1 as (Hok1 & D1 & h & Ef).
    specialize (IH s1 Hok1). rewrite D1, Ef, run_disk_recache in IH.
    rewrite zlen_splice in IH by (pose proof (g_size _ _ (e_geo _ Hok)); nia). specialize (IH Hops).
    destruct (run_disk (efs s) ops (splice (disk (dev s)) (b * block_size (efs s)) data)) as [r d]. destruct IH as (s' & E' & L').
    exists s'. mrun E1. split; [done|by eapply leaves_trans].
Qed.

(** The allocation table is an array of words: an entry that is set reads back, the others keep
    their value and no other block of the volume changes; the search finds the lowest free block (and
    gives 0 when there is none). *)
Theorem echfs_table_correct s b b' v :
  est_ok s → 0 ≤ b < blocks (efs s) → 0 ≤ b' < blocks (efs s) → is_u64 v →
  let f := efs s in let dsk := disk (dev s) in
  (∃ s1 s2, echfs_set_entry_for_block junk b v s = Ok (tt, s1) ∧
     echfs_get_entry_for_block junk b' s1 = Ok ((if decide (b' = b) then v else fat f dsk b'), s2) ∧
     est_ok s2 ∧ ∀ c, main_dir_block f ≤ c < blocks f → blk f (disk (dev s2)) c = blk f dsk c) ∧
  (∃ s1, find_free_block junk s = Ok (default 0 (head (free_blocks f dsk)), s1) ∧ disk (dev s1) = dsk).
Proof.
  intros Hok Hb Hb' Hv f dsk. pose proof (e_geo _ Hok) as Hg. split.
  - destruct (set_fat_ok junk s b v Hok Hb) as (s1 & E1 & L1). pose proof L1 as (Hok1 & D1 & h & Ef).
    destruct (get_fat_ok junk s1 b' Hok1) as (s2 & E2 & L2); [by rewrite Ef|]. pose proof L2 as (Hok2 & D2 & _).
    exists s1, s2. split_and!; [exact E1| |done|].
    + rewrite E2, D1, Ef. do 2 f_equal. by apply (fat_set (efs s) _ _ _ _ _ Hg).
    + intros c Hc. rewrite D2, D1.
      apply (blk_set_fat _ _ _ _ _ _ Hg); [done|done|apply Hc|apply (block_fits _ _ _ Hg), Hc].
  - destruct (find_free_block_ok junk s Hok) as (s1 & E1 & _ & D1 & _). by exists s1.
Qed.

(** Reading a range of a file gives that range of the concatenated blocks of its chain, and the
    null pointer when the chain is shorter than the range; the disk does not change. *)
Theorem echfs_read_correct s file l start count :
  est_ok s → chain (efs s) (disk (dev s)) (starting_block file :: l) → 0 ≤ start → 0 < count →
  start + count + block_size (efs s) < U64_MOD →
  let data := content (efs s) (disk (dev s)) (starting_block file :: l) in
  ∃ s', read_for_range junk file start count s =
      Ok (if start + count <=? zlen data then Some (slice data start count) else None, s') ∧
    est_ok s' ∧ disk (dev s') = disk (dev s).
Proof.
  intros Hok Hc Hs Hct Hr data. destruct (read_for_range_ok junk s file l start count Hok Hc Hs Hct Hr) as (s' & E & Hok' & D' & _).
  by exists s'.
Qed.

(** C22: what [write_for_range] writes to a range inside a file is what a read of any range of the file
    sees afterwards, the rest of the file keeps its bytes, and so does every block outside the file. *)
Theorem echfs_write_read_round_trip s file l start count data rstart rcount :
  est_ok s → chain (efs s) (disk (dev s)) (starting_block file :: l) → 0 ≤ start → 0 < count →
  start + count + block_size (efs s) < U64_MOD → count ≤ zlen data →
  let old := content (efs s) (disk (dev s)) (starting_block file :: l) in
  start + count ≤ zlen old → 0 ≤ rstart → 0 < rcount → rstart + rcount ≤ zlen old →
  rstart + rcount + block_size (efs s) < U64_MOD →
  ∃ s1 s2, write_for_range junk file start count data s = Ok (0, s1) ∧
    read_for_range junk file rstart rcount s1 =
      Ok (Some (slice (splice old start (take (Z.to_nat count) data)) rstart rcount), s2) ∧
    ∀ c, 0 ≤ c < blocks (efs s) → c ∉ starting_block file :: l →
      blk (efs s) (disk (dev s1)) c = blk (efs s) (disk (dev s)) c.
Proof.
  intros Hok Hc Hs Hct Hr Hd old Hfit Hrs Hrc Hrfit Hrr. pose proof (e_geo _ Hok) as Hg.
  destruct (write_for_range_ok junk s file l start count data Hok Hc Hs Hct Hr Hd Hfit) as (s1 & dsk' & E1 & L1 & O1 & C1).
  pose proof L1 as (Hok1 & D1 & h & Ef). pose proof O1 as (Hz & HF & HB).
  destruct (read_for_range_ok junk s1 file l rstart rcount Hok1) as (s2 & E2 & _); [|done|done|by rewrite Ef|].
  { rewrite D1, Ef. apply chain_recache. apply (chain_ext _ _ _ _ _ Hg) with (2 := Hc). intros b Hb. apply HF.
    by destruct (data_block_range _ _ Hg b (chain_elem _ _ _ b Hc Hb)). }
  exists s1, s2. split_and!; [exact E1| |].
  - rewrite E2, D1, Ef. change (content (efs s <| cached_blocks := h |>)) with (content (efs s)). rewrite C1. fold old.
    rewrite zlen_splice; [by rewrite (proj2 (Z.leb_le _ _) Hrfit)|done|].
    unfold zlen in *. rewrite length_take. lia.
  - intros c Hc0 Hn. rewrite D1. apply HB; [lia|apply (block_fits _ _ _ Hg), Hc0|done].
Qed.

(** A file grows to a number of blocks by appending the lowest free blocks to its chain; they are
    free no more, no other entry of the table changes and the file keeps its content. *)
Theorem echfs_allocate_correct s file l total fuel :
  let f := efs s in let dsk := disk (dev s) in let ch := starting_block file :: l in
  est_ok s → chain f dsk ch → reserved f dsk → (length ch ≤ fuel)%nat →
  zlen ch ≤ total → total - zlen ch ≤ zlen (free_blocks f dsk) →
  let new := take (Z.to_nat (total - zlen ch)) (free_blocks f dsk) in
  ∃ s', allocate_blocks_for_file junk fuel file total s = Ok (tt, s') ∧ est_ok s' ∧
    chain f (disk (dev s')) (ch ++ new) ∧
    free_blocks f (disk (dev s')) = drop (Z.to_nat (total - zlen ch)) (free_blocks f dsk) ∧
    (∀ b, 0 ≤ b < blocks f → b ∉ ch → b ∉ new → fat f (disk (dev s')) b = fat f dsk b) ∧
    content f (disk (dev s')) ch = content f dsk ch.
Proof.
  intros f dsk ch Hok Hc Hres Hf Ht Hfr new.
  destruct (allocate_blocks_ok junk s file l total fuel Hok Hc Hres Hf Ht Hfr) as (s' & dsk' & E & (Hok' & D' & _) & H1 & H2 & H3 & H4).
  exists s'. rewrite D'. by split_and!.
Qed.

(** A path resolves to the entry that its names lead to from the root directory, searched in the
    directory table front to back up to its end, with every name but the last a directory; otherwise the
    search fails with error 4.  A leading slash does not matter. *)
Theorem echfs_path_resolve_correct s fuel names err (slash : bool) :
  est_ok s → dir_ok (efs s) (disk (dev s)) → names ≠ [] → Forall good_name names →
  entries (efs s) ≤ Z.of_nat fuel →
  ∃ s', echfs_path_resolve junk fuel (if slash then SLASH :: joined names else joined names) err 0 s =
      Ok (match lookup_path (efs s) (disk (dev s)) ECHFS_ROOT_DIR_ID names with
          | Some i => (0, Some (set_entry_number i (in_buffer junk (dirent (efs s) (disk (dev s)) i))))
          | None => (4, None)
          end, s') ∧ est_ok s' ∧ disk (dev s') = disk (dev s).
Proof.
  intros Hok Hdir Hne Hgood Hf.
  destruct (path_resolve_ok junk s fuel names err slash Hok Hdir Hne Hgood Hf) as (s' & E & Hok' & D' & _).
  by exists s'.
Qed.
End theorems.

(** ** A small volume

    24 blocks of 256 bytes: the table in block 16, three directory entries in the blocks 17 to 19, and
    four data blocks, two of which are the file [/a] of 300 bytes; the other entry is a directory [/d]. *)

Definition pad (n : nat) (l : list Z) : list Z := l ++ replicate (n - length l) 0.

Definition vol_entry (parent type : Z) (name : list Z) (start size : Z) : list Z :=
  le_bytes 8 parent ++ le_bytes 1 type ++ pad 201 name ++ replicate 30 0 ++ le_bytes 8 start ++ le_bytes 8 size.

Definition vol_bytes : list Z :=
  pad 256 ([235; 0; 0; 0] ++ chars "_ECH_FS_" ++ le_bytes 8 24 ++ le_bytes 8 3 ++ le_bytes 8 256)
  ++ replicate (15 * 256) 0
  ++ pad 256 (concat (replicate 20 (le_bytes 8 1)) ++ le_bytes 8 21 ++ le_bytes 8 ECHFS_END_OF_CHAIN)
  ++ vol_entry ECHFS_ROOT_DIR_ID ECHFS_TYPE_FILE (chars "a") 20 300
  ++ vol_entry ECHFS_ROOT_DIR_ID ECHFS_TYPE_DIR (chars "d") 5 0
  ++ replicate 256 0
  ++ replicate 256 65 ++ replicate 256 66 ++ replicate 512 0.

Definition vol_fs : echfs_filesystem_t :=
  mk_echfs 4096 192 16 1 17 3 24 256 (chars "/dev/satadeva") [SLASH] 1 init_hashmap init_hashmap 0 0.

Definition vol : echfs_st ram := mk_est (mk_ram vol_bytes None) vol_fs ∅ 1.
Definition blank : echfs_st ram :=
  mk_est (mk_ram vol_bytes None) (mk_echfs 0 0 0 0 0 0 0 0 [] [] 0 init_hashmap init_hashmap 0 0) ∅ 1.
Definition no_junk (n : Z) : list Z := [].
Definition file_a : list Z := in_buffer no_junk (dirent vol_fs vol_bytes 0).

Lemma vol_ok_bytes : Forall is_u8 vol_bytes.
Proof.
  assert (forallb (λ b, (0 <=? b) && (b <? 256)) vol_bytes = true) as E by (vm_compute; reflexivity).
  apply Forall_forall. intros b Hb%list_elem_of_In. rewrite forallb_forall in E. specialize (E b Hb).
  zbool. unfold is_u8. lia.
Qed.

Lemma vol_est : est_ok vol.
Proof.
  split; [done|done| |done|].
  - split; by vm_compute.
  - exists ∅. split; [apply hm_rep_init, hash_bucket_range|]. by split.
Qed.

Lemma vol_chain : chain vol_fs vol_bytes [20; 21].
Proof. split; [by vm_compute|]. split; [vm_compute; reflexivity|]. split; [by vm_compute|vm_compute; reflexivity]. Qed.

Lemma file_a_start : starting_block file_a = 20.
Proof. vm_compute. reflexivity. Qed.

Lemma vol_free : free_blocks vol_fs vol_bytes = [22; 23].
Proof. vm_compute. reflexivity. Qed.

Lemma vol_reserved : reserved vol_fs vol_bytes.
Proof. intros b. rewrite vol_free. unfold data_block. cbn. set_solver by lia. Qed.

Lemma vol_dir : dir_ok vol_fs vol_bytes.
Proof.
  split.
  - intros i Hi. change (entries vol_fs) with 3 in Hi.
    assert (i = 0 ∨ i = 1 ∨ i = 2) as [-> |[-> | ->]] by lia.
    + exists (chars "a"), (replicate 199 0). split; [vm_compute; reflexivity|by repeat constructor].
    + exists (chars "d"), (replicate 199 0). split; [vm_compute; reflexivity|by repeat constructor].
    + exists [], (replicate 200 0). split; [vm_compute; reflexivity|constructor].
  - exists 2. split; [by vm_compute|vm_compute; reflexivity].
Qed.

Lemma echfs_mount_correct_witness : ∃ s',
  echfs_check_and_init no_junk (chars "/dev/satadeva") blank = Ok (1, s') ∧ est_ok s' ∧ block_size (efs s') = 256.
Proof.
  destruct (echfs_mount_correct no_junk blank) as [Hm _]; [done|reflexivity|cbn; lia|by vm_compute|].
  destruct Hm as (s' & E & Hs & _ & _ & Hb & _).
  - split; [exact vol_ok_bytes|by vm_compute..].
  - exists s'. split; [exact E|]. split; [exact Hs|]. rewrite Hb. vm_compute. reflexivity.
Defined.

Lemma echfs_cache_refines_disk_witness : ∃ s',
  run_cached no_junk [BRead 20; BWrite 20 (replicate 256 67); BRead 20] vol =
    Ok ([replicate 256 65; replicate 256 67], s').
Proof.
  pose proof (echfs_cache_refines_disk no_junk [BRead 20; BWrite 20 (replicate 256 67); BRead 20] vol vol_est) as Hw.
  destruct Hw as (s' & E & _); [|by exists s'].
  repeat (constructor; [split_and!; [by vm_compute|by vm_compute|]|]); [|by vm_compute| |constructor];
    unfold in_dir; cbn; lia.
Defined.

Lemma echfs_table_correct_witness : ∃ s1 s2,
  echfs_set_entry_for_block no_junk 22 7 vol = Ok (tt, s1) ∧ echfs_get_entry_for_block no_junk 22 s1 = Ok (7, s2).
Proof.
  destruct (echfs_table_correct no_junk vol 22 22 7 vol_est) as [(s1 & s2 & E1 & E2 & _) _];
    [by vm_compute|by vm_compute|by vm_compute|].
  exists s1, s2. by split.
Defined.

Lemma echfs_read_correct_witness : ∃ s',
  read_for_range no_junk file_a 254 4 vol = Ok (Some [65; 65; 66; 66], s').
Proof.
  destruct (echfs_read_correct no_junk vol file_a [21] 254 4 vol_est) as (s' & E & _);
    [rewrite file_a_start; exact vol_chain|lia|lia|by vm_compute|].
  exists s'. rewrite E. vm_compute. reflexivity.
Defined.

Lemma echfs_write_read_round_trip_witness : ∃ s1 s2,
  write_for_range no_junk file_a 255 2 [1; 2] vol = Ok (0, s1) ∧
  read_for_range no_junk file_a 254 4 s1 = Ok (Some [65; 1; 2; 66], s2).
Proof.
  destruct (echfs_write_read_round_trip no_junk vol file_a [21] 255 2 [1; 2] 254 4 vol_est) as (s1 & s2 & E1 & E2 & _);
    [rewrite file_a_start; exact vol_chain|lia|lia|by vm_compute..|].
  exists s1, s2. split; [exact E1|]. rewrite E2. vm_compute. reflexivity.
Defined.

Lemma echfs_allocate_correct_witness : ∃ s',
  allocate_blocks_for_file no_junk 2 file_a 3 vol = Ok (tt, s') ∧ chain vol_fs (disk (dev s')) [20; 21; 22].
Proof.
  destruct (echfs_allocate_correct no_junk vol file_a [21] 3 2 vol_est) as (s' & E & _ & Hc & _);
    [rewrite file_a_start; exact vol_chain|exact vol_reserved|by vm_compute; lia|by vm_compute|by vm_compute|].
  exists s'. split; [exact E|]. rewrite file_a_start in Hc. exact Hc.
Defined.

Lemma echfs_path_resolve_correct_witness : ∃ s' e,
  echfs_path_resolve no_junk 3 (chars "/a") 9 0 vol = Ok ((0, Some e), s') ∧ file_size_bytes e = 300.
Proof.
  destruct (echfs_path_resolve_correct no_junk vol 3 [chars "a"] 9 true vol_est) as (s' & E & _);
    [exact vol_dir|done|by vm_compute; repeat constructor; lia|by vm_compute|].
  assert (lookup_path (efs vol) (disk (dev vol)) ECHFS_ROOT_DIR_ID [chars "a"] = Some 0) as El by (vm_compute; reflexivity).
  rewrite El in E. exists s', (set_entry_number 0 file_a). split; [exact E|vm_compute; reflexivity].
Defined.

(** ** Where the driver goes wrong *)

(** When fewer blocks are needed than the file has, the number of blocks to add wraps around. *)
Lemma echfs_shrink_allocates {D} {V : Volume D} {VL : VolumeLaws D} junk (s : echfs_st D) file l x total fuel :
  est_ok s → chain (efs s) (disk (dev s)) (starting_block file :: l) → starting_block file :: l = removelast (starting_block file :: l) ++ [x] →
  (length (starting_block file :: l) ≤ fuel)%nat → 0 ≤ total < zlen (starting_block file :: l) →
  ∃ s1, allocate_blocks_for_file junk fuel file total s =
    extend_loop junk (Z.to_nat (U64_MOD - (zlen (starting_block file :: l) - total))) x s1.
Proof.
  set (ch := starting_block file :: l). intros Hok Hc Ex Hf Ht.
  pose proof (chain_length _ _ _ _ (e_geo _ Hok) Hc) as Hlen. pose proof (g_count _ _ (e_geo _ Hok)) as Hcnt.
  destruct (chain_end_ok junk fuel s (removelast ch) x (starting_block file) l 0 Hok) as (s1 & E1 & _).
  { by rewrite <-Ex. }
  { by rewrite <-Ex. }
  { apply (f_equal length) in Ex. rewrite length_app in Ex. cbn [length] in Ex. lia. }
  { lia. }
  { rewrite <-Ex. lia. }
  exists s1. unfold allocate_blocks_for_file. mrun E1. rewrite <-Ex. do 2 f_equal. cbn [Z.add].
  unfold u64. rewrite <-(Z_mod_plus_full _ 1). rewrite Z.mod_small by lia. lia.
Qed.

(** What a computation returns. *)
Definition result {S A} (r : res (A * S)) : option A := match r with Ok (a, _) => Some a | Crash _ => None end.

(** [echfs_write] hands its buffer to [write_blocks_for_range], which writes whole blocks from the
    start of the first one: bytes written at offset 1 land at offset 0. *)
Lemma echfs_write_misplaced :
  result ((w ← write_blocks_for_range no_junk file_a 1 2 (pad 256 [1; 2]);
           r ← read_for_range no_junk file_a 0 4;
           mret (w, r)) vol) = Some (0, Some [1; 2; 0; 0]).
Proof. vm_compute. reflexivity. Qed.

(** An entry that was looked up for a node stays in the cache when it is written: the only element of
    its bucket is its head, which the hash map does not remove. *)
Lemma echfs_entry_cache_stale :
  result (('(_, e) ← echfs_path_resolve no_junk 3 (chars "a") 0 7;
           echfs_write_dir_entry 0 (set_file_size 9 (default [] e)) ;;
           d ← echfs_read_dir_entry no_junk 0;
           '(_, e') ← echfs_path_resolve no_junk 3 (chars "a") 0 7;
           mret (file_size_bytes d, file_size_bytes <$> e')) vol) = Some (9, Some 300).
Proof. vm_compute. reflexivity. Qed.

(** The terminator of a name of 201 characters is written behind the buffer. *)
Lemma echfs_long_name :
  echfs_path_resolve no_junk 3 (replicate 201 97) 0 0 vol = Crash Fault.
Proof. vm_compute. reflexivity. Qed.

(** In a full directory entry 0 is the free one. *)
Lemma echfs_full_directory :
  let full := vol <| dev := mk_ram (splice vol_bytes (19 * 256) (vol_entry 5 0 (chars "b") 22 0)) None |> in
  result (get_free_directory_entry no_junk full) = Some 0.
Proof. vm_compute. reflexivity. Qed.
