(* ===== verification/Ahci.v ===== *)
(** * The AHCI disk driver (drivers/pci_drivers/ahci.c)

    Byte transfers on top of sector transfers, and sector transfers as commands
    for the host bus adapter.  The command list and the command tables the
    driver fills live in typed heaps ([headers], [tables]); the DMA buffers are
    bytes of physical memory.  The controller is the class [Hba]: reads and
    writes of its port registers, and the write to the command-issue register
    that makes it fetch commands.  Reads let it make progress.  The page
    allocator is the interface of [Frames.v].  [fuel] bounds the polling loops. *)

From S2P Require Import Prelude Locks Pmm Frames Bytes DList Blocks Vfs Kernel Stack Fd.

Definition FIS_TYPE_REG_H2D : Z := 39.
Definition ATA_COMMAND_IDENTIFY : Z := 236.
Definition ATAPI_COMMAND_IDENTIFY : Z := 161.
Definition ATA_COMMAND_DMA_READ : Z := 200.
Definition ATA_COMMAND_DMA_EXT_READ : Z := 37.
Definition ATA_COMMAND_DMA_WRITE : Z := 202.
Definition ATA_COMMAND_DMA_EXT_WRITE : Z := 53.

(** The fields of [ahci_h2d_fis_t] the driver sets. *)
Record ahci_h2d_fis_t : Type := mk_fis {
  fis_type : Z;
  fis_c : Z;
  fis_command : Z;
  lba_0 : Z;
  lba_1 : Z;
  lba_2 : Z;
  dev_head : Z;
  lba_3 : Z;
  lba_4 : Z;
  lba_5 : Z;
  sector_count_low : Z;
  sector_count_high : Z;
  fis_control : Z
}.
#[export] Instance eta_ahci_h2d_fis_t : Eta ahci_h2d_fis_t :=
  λ r, mk_fis (fis_type r) (fis_c r) (fis_command r) (lba_0 r) (lba_1 r) (lba_2 r) (dev_head r) (lba_3 r) (lba_4 r)
    (lba_5 r) (sector_count_low r) (sector_count_high r) (fis_control r).

Record ahci_prdt_entry_t : Type := mk_prdt {
  data_base : Z;
  data_base_upper : Z;
  byte_count : Z
}.
#[export] Instance eta_ahci_prdt_entry_t : Eta ahci_prdt_entry_t :=
  λ r, mk_prdt (data_base r) (data_base_upper r) (byte_count r).

Record ahci_command_entry_t : Type := mk_entry {
  command_fis : ahci_h2d_fis_t;
  prdts : list ahci_prdt_entry_t
}.
#[export] Instance eta_ahci_command_entry_t : Eta ahci_command_entry_t := λ r, mk_entry (command_fis r) (prdts r).

Record ahci_command_header_t : Type := mk_header {
  command_fis_len : Z;
  h_write : Z;
  prdt_count : Z;
  command_entry_ptr : Z;
  command_entry_ptr_upper : Z
}.
#[export] Instance eta_ahci_command_header_t : Eta ahci_command_header_t :=
  λ r, mk_header (command_fis_len r) (h_write r) (prdt_count r) (command_entry_ptr r) (command_entry_ptr_upper r).

Record ahci_port_data_t : Type := mk_port_data {
  addresses_64 : Z;
  command_slot_count : Z;
  sector_size : Z;
  sector_count : Z;
  lba48 : Z
}.
#[export] Instance eta_ahci_port_data_t : Eta ahci_port_data_t :=
  λ r, mk_port_data (addresses_64 r) (command_slot_count r) (sector_size r) (sector_count r) (lba48 r).

(** The registers of a port. *)
Inductive reg : Type := REG_IS | REG_CMD | REG_TFD | REG_SCTL | REG_CI.

Class Hba (W : Type) := {
  hba_read : reg → stM W Z;
  hba_write : reg → Z → stM W unit;
  (** a write to [command_issued], with the command list and the command tables in memory *)
  hba_issue : Z → list ahci_command_header_t → gmap Z ahci_command_entry_t → stM W unit;
  dma_mem : W → bmem;
  set_dma_mem : bmem → W → W
}.

Record ahci_st (F W : Type) : Type := mk_ahci {
  frames : F;
  hba : W;
  headers : list ahci_command_header_t;
  tables : gmap Z ahci_command_entry_t;
  ahci_lock : Z
}.
Arguments mk_ahci {F W} _ _ _ _ _.
Arguments frames {F W} _.
Arguments hba {F W} _.
Arguments headers {F W} _.
Arguments tables {F W} _.
Arguments ahci_lock {F W} _.
#[export] Instance eta_ahci_st F W : Eta (ahci_st F W) :=
  λ r, mk_ahci (frames r) (hba r) (headers r) (tables r) (ahci_lock r).

(** [AHCI_GET_FIS_SIZE(n + k)]: the macro multiplies only the first summand of its argument by the size of an entry. *)
Definition AHCI_GET_FIS_SIZE (n k : Z) : Z := u64 (128 + (16 * n + k)).
Definition AHCI_GET_PRDT_BYTES (count : Z) : Z :=
  Z.land (u64 (Z.land (u64 (count + 1)) (Z.lnot 1) - 1)) 4194303.

(** ** The command *)

Definition ahci_fill_prdt (port : ahci_port_data_t) (phys : Z) (prdt : ahci_prdt_entry_t) : ahci_prdt_entry_t :=
  let prdt := prdt <| data_base := Z.land phys 4294967295 |> in
  if negb (addresses_64 port =? 0) then prdt <| data_base_upper := Z.shiftr phys 32 |>
  else if 4294967295 <=? phys then prdt
  else prdt <| data_base_upper := 0 |>.

(** The entries from [i] on, of [n]; a fresh table is zero. *)
Fixpoint fill_prdts (n : nat) (port : ahci_port_data_t) (buf i bytes_left : Z) : list ahci_prdt_entry_t :=
  match n with
  | O => []
  | S n' =>
      let prdt := ahci_fill_prdt port (u64 (buf + i * 4194304)) (mk_prdt 0 0 0) in
      if 4194304 <=? bytes_left
      then prdt <| byte_count := AHCI_GET_PRDT_BYTES 4194304 |>
           :: fill_prdts n' port buf (i + 1) (bytes_left - 4194304)
      else prdt <| byte_count := AHCI_GET_PRDT_BYTES bytes_left |> :: fill_prdts n' port buf (i + 1) 0
  end.

(** The FIS of a transfer of [count] sectors at sector [offset]. *)
Definition transfer_fis (port : ahci_port_data_t) (count offset write : Z) : ahci_h2d_fis_t :=
  let ext := lba48 port =? 1 in
  let byte k := Z.land (Z.shiftr offset k) 255 in
  mk_fis FIS_TYPE_REG_H2D 1
    (if write =? 1 then (if ext then ATA_COMMAND_DMA_EXT_WRITE else ATA_COMMAND_DMA_WRITE)
     else (if ext then ATA_COMMAND_DMA_EXT_READ else ATA_COMMAND_DMA_READ))
    (byte 0) (byte 8) (byte 16) (Z.lor 160 (Z.shiftl 1 6))
    (if ext then byte 24 else 0) (if ext then byte 32 else 0) (if ext then byte 40 else 0)
    (if negb (count =? 65535) then Z.land count 255 else 0)
    (if negb (count =? 65535) then Z.land (Z.shiftr count 8) 255 else 0) 8.

Definition transfer_prdts (port : ahci_port_data_t) (buf count : Z) : list ahci_prdt_entry_t :=
  let bytes := u64 (count * sector_size port) in
  fill_prdts (Z.to_nat (u64 (bytes + 4194304 - 1) / 4194304)) port buf 0 bytes.

Section driver.
Context {F W : Type} `{FrameAlloc F, Hba W} (fuel : nat).

Abbreviation aM := (stM (ahci_st F W)).

Definition on_frames {A} (m : stM F A) : aM A := zoom frames (λ f s, s <| frames := f |>) m.
Definition on_hba {A} (m : stM W A) : aM A := zoom hba (λ w s, s <| hba := w |>) m.
Definition read_reg (r : reg) : aM Z := on_hba (hba_read r).
Definition write_reg (r : reg) (v : Z) : aM unit := on_hba (hba_write r v).

Definition ahci_acquire : aM unit :=
  s ← get;
  match spinlock_lock (ahci_lock s) with
  | Ok l => modify (λ s, s <| ahci_lock := l |>)
  | Crash c => crashM c
  end.
Definition ahci_release : aM unit := modify (λ s, s <| ahci_lock := spinlock_unlock (ahci_lock s) |>).

(** ** Command slots *)

(** From slot [i], of [n] left; -1 when all are in use. *)
Fixpoint find_slot (n : nat) (i : Z) : aM Z :=
  match n with
  | O => mret (-1)
  | S n' => ci ← read_reg REG_CI; if negb (Z.testbit ci i) then mret i else find_slot n' (i + 1)
  end.

Definition ahci_find_command_slot (port : ahci_port_data_t) : aM Z := find_slot (Z.to_nat (command_slot_count port)) 0.

Definition upd_header (index : Z) (f : ahci_command_header_t → ahci_command_header_t) : aM unit :=
  s ← get;
  h ← of_opt (idx (headers s) index);
  modify (λ s, s <| headers := upd (headers s) index (f h) |>).
Definition upd_table (a : Z) (f : ahci_command_entry_t → ahci_command_entry_t) : aM unit :=
  s ← get;
  e ← of_opt (tables s !! a);
  modify (λ s, s <| tables := <[a := f e]> (tables s) |>).

(** The slot and its command table; -1 and null when there is none. *)
Definition ahci_allocate_command_slot (port : ahci_port_data_t) (fis_size : Z) : aM (Z * Z) :=
  index ← ahci_find_command_slot port;
  if index =? -1 then mret (-1, 0)
  else
    command_entry ← on_frames (fa_alloc fis_size);
    if command_entry =? 0 then mret (-1, 0)
    else
      modify (λ s, s <| tables := <[command_entry := mk_entry (mk_fis 0 0 0 0 0 0 0 0 0 0 0 0 0) []]> (tables s) |>) ;;
      upd_header index (λ h, h <| command_entry_ptr := u32 command_entry |>) ;;
      (if negb (addresses_64 port =? 0)
       then upd_header index (λ h, h <| command_entry_ptr_upper := u32 (Z.shiftr command_entry 32) |>)
       else if 4294967295 <? command_entry then crashM Hang
       else upd_header index (λ h, h <| command_entry_ptr_upper := 0 |>)) ;;
      mret (index, command_entry).

Definition ahci_free_command_slot (command fis_size : Z) : aM unit := on_frames (fa_free command fis_size).

(** ** Talking to the port *)

Fixpoint wait_ready (n : nat) : aM unit :=
  match n with
  | O => crashM Hang
  | S n' =>
      t ← read_reg REG_TFD;
      busy ← (if Z.testbit t 3 then t ← read_reg REG_TFD; mret (Z.testbit t 7) else mret false);
      if busy : bool then wait_ready n' else mret tt
  end.
Definition ahci_wait_ready : aM unit := wait_ready fuel.

Definition ahci_issue_command (command_slot : Z) : aM unit :=
  ci ← read_reg REG_CI;
  s ← get;
  on_hba (hba_issue (Z.lor ci (Z.shiftl 1 command_slot)) (headers s) (tables s)).

Fixpoint wait_command (n : nat) (command_slot : Z) : aM Z :=
  match n with
  | O => crashM Hang
  | S n' =>
      ci ← read_reg REG_CI;
      if Z.testbit ci command_slot then
        st ← read_reg REG_IS;
        err ← (if Z.testbit st 30 then t ← read_reg REG_TFD; mret (Z.testbit t 0) else mret false);
        if err : bool then mret 1 else wait_command n' command_slot
      else mret 0
  end.
Definition ahci_wait_command (command_slot : Z) : aM Z := wait_command fuel command_slot.

(** COMRESET; the delay of two ticks does not show. *)
Definition ahci_comreset_port : aM unit :=
  c ← read_reg REG_SCTL;
  write_reg REG_SCTL (Z.lor (Z.ldiff c 15) 1) ;;
  c ← read_reg REG_SCTL;
  write_reg REG_SCTL (Z.ldiff c 15).

(** [while ((command & (1 << 15)) == set) pause] *)
Fixpoint wait_running (n : nat) (set : bool) : aM unit :=
  match n with
  | O => crashM Hang
  | S n' => c ← read_reg REG_CMD; if Bool.eqb (Z.testbit c 15) set then wait_running n' set else mret tt
  end.

Definition ahci_reset_command_engine : aM unit :=
  c ← read_reg REG_CMD;
  write_reg REG_CMD (Z.ldiff c 1) ;;
  wait_running fuel true ;;
  t ← read_reg REG_TFD;
  busy ← (if Z.testbit t 7 then mret true else t ← read_reg REG_TFD; mret (Z.testbit t 3));
  (if busy : bool then ahci_comreset_port else mret tt) ;;
  i ← read_reg REG_IS;
  write_reg REG_IS (Z.lor i (Z.shiftl 1 30)) ;;
  c ← read_reg REG_CMD;
  write_reg REG_CMD (Z.lor c 1) ;;
  wait_running fuel false.

(** ** Sectors *)

(** The second check for a task file error. *)
Definition task_file_error : aM bool :=
  i ← read_reg REG_IS;
  if Z.testbit i 30 then t ← read_reg REG_TFD; mret (Z.testbit t 0) else mret false.

(** [buf] is the physical address of the buffer. *)
Definition ahci_io_sata_sectors (port : ahci_port_data_t) (buf count offset write : Z) : aM Z :=
  ahci_acquire ;;
  let n := u64 (u64 (count * sector_size port) + 4194304 - 1) / 4194304 in
  let fis_size := AHCI_GET_FIS_SIZE n 1 in
  '(index, data) ← ahci_allocate_command_slot port fis_size;
  if index =? -1 then
    ahci_free_command_slot data fis_size ;;
    ahci_release ;;
    mret 1
  else
    upd_header index (λ h, h <| prdt_count := u16 n |> <| h_write := write |> <| command_fis_len := 5 |>) ;;
    upd_table data (λ e, e <| command_fis := transfer_fis port count offset write |>
                           <| prdts := transfer_prdts port buf count |>) ;;
    ahci_wait_ready ;;
    ahci_issue_command index ;;
    err ← ahci_wait_command index;
    if negb (err =? 0) then
      _ ← read_reg REG_TFD;
      ahci_reset_command_engine ;;
      ahci_free_command_slot data fis_size ;;
      ahci_release ;;
      mret 2
    else
      bad ← task_file_error;
      if bad : bool then
        _ ← read_reg REG_TFD;
        ahci_reset_command_engine ;;
        ahci_free_command_slot data fis_size ;;
        ahci_release ;;
        mret 3
      else
        ahci_free_command_slot data fis_size ;;
        ahci_release ;;
        mret 0.

(** ** The identify command *)

Definition identify_fis (packet_interface : Z) : ahci_h2d_fis_t :=
  mk_fis FIS_TYPE_REG_H2D 1 (if packet_interface =? 0 then ATA_COMMAND_IDENTIFY else ATAPI_COMMAND_IDENTIFY)
    0 0 0 160 0 0 0 0 0 8.

(** What the driver reads out of the 512 bytes of identify data. *)
Definition identified (port : ahci_port_data_t) (data : list Z) : ahci_port_data_t :=
  let data_valid := fld 212 2 data in
  let port := port <| sector_size := if negb (Z.testbit data_valid 15) && Z.testbit data_valid 14 && Z.testbit data_valid 12
                                     then fld 234 4 data else 512 |> in
  let port := port <| sector_count := fld 200 8 data |> in
  let port := if sector_count port =? 0 then port <| sector_count := fld 120 4 data |> else port in
  port <| lba48 := if Z.testbit (fld 167 1 data) 2 && Z.testbit (fld 173 1 data) 2 then 1 else 0 |>.

(** The port's data afterwards. *)
Definition ahci_identify_sata (port : ahci_port_data_t) (packet_interface : Z) : aM ahci_port_data_t :=
  ahci_acquire ;;
  let fis_size := AHCI_GET_FIS_SIZE 1 0 in
  '(index, data) ← ahci_allocate_command_slot port fis_size;
  if index =? -1 then ahci_release ;; mret port
  else
    upd_header index (λ h, h <| prdt_count := 1 |> <| h_write := 0 |> <| command_fis_len := 5 |>) ;;
    upd_table data (λ e, e <| command_fis := identify_fis packet_interface |>) ;;
    identify_region ← on_frames (fa_alloc 512);
    upd_table data (λ e, e <| prdts := [(ahci_fill_prdt port identify_region (mk_prdt 0 0 0))
                                          <| byte_count := AHCI_GET_PRDT_BYTES 512 |>] |>) ;;
    ahci_wait_ready ;;
    ahci_issue_command index ;;
    err ← ahci_wait_command index;
    if negb (err =? 0) then
      _ ← read_reg REG_TFD;
      ahci_reset_command_engine ;;
      ahci_free_command_slot data fis_size ;;
      ahci_release ;;
      mret port
    else
      bad ← task_file_error;
      if bad : bool then
        _ ← read_reg REG_TFD;
        ahci_reset_command_engine ;;
        on_frames (fa_free identify_region 512) ;;
        ahci_free_command_slot data fis_size ;;
        ahci_release ;;
        mret port
      else
        s ← get;
        let port := identified port (load_bytes (dma_mem (hba s)) identify_region 512) in
        ahci_free_command_slot data fis_size ;;
        ahci_release ;;
        on_frames (fa_free identify_region 512) ;;
        mret port.

(** ** Bytes *)

(** The offset in the first sector, the first sector, and the one after the last. *)
Definition sector_range (port : ahci_port_data_t) (count seek : Z) : aM (Z * Z * Z) :=
  sector_start ← udiv seek (sector_size port);
  sector_end ← udiv (u64 (u64 (seek + count) + sector_size port - 1)) (sector_size port);
  mret (seek mod sector_size port, sector_start, sector_end).

(** The error, and the bytes that arrive in the caller's buffer. *)
Definition ahci_read_sata_bytes (port : ahci_port_data_t) (count seek : Z) : aM (Z * list Z) :=
  '(sector_offset, sector_start, sector_end) ← sector_range port count seek;
  let sector_count := u64 (sector_end - sector_start) in
  if 65535 <? sector_count then mret (5, [])
  else if sector_count =? 0 then mret (6, [])
  else
    let size := u64 (sector_count * sector_size port) in
    data_buf ← on_frames (fa_alloc size);
    err ← ahci_io_sata_sectors port data_buf sector_count sector_start 0;
    if negb (err =? 0) then on_frames (fa_free data_buf size) ;; mret (err, [])
    else
      s ← get;
      let data := load_bytes (dma_mem (hba s)) (u64 (data_buf + sector_offset)) (Z.to_nat count) in
      on_frames (fa_free data_buf size) ;;
      mret (0, data).

(** [buf] is the caller's bytes. *)
Definition ahci_write_sata_bytes (port : ahci_port_data_t) (buf : list Z) (seek : Z) : aM Z :=
  let count := zlen buf in
  '(sector_offset, sector_start, sector_end) ← sector_range port count seek;
  let sector_count := u64 (sector_end - sector_start) in
  if 65535 <? sector_count then mret 5
  else if sector_count =? 0 then mret 6
  else
    let size := u64 (sector_count * sector_size port) in
    data_buf_temp ← on_frames (fa_alloc size);
    let data_buf_end_area := u64 (data_buf_temp + u64 (u64 (sector_count - 1) * sector_size port)) in
    err ← ahci_io_sata_sectors port data_buf_temp 1 sector_start 0;
    if negb (err =? 0) then on_frames (fa_free data_buf_temp size) ;; mret err
    else
      err ← ahci_io_sata_sectors port data_buf_end_area 1 (u64 (sector_end - 1)) 0;
      if negb (err =? 0) then on_frames (fa_free data_buf_temp size) ;; mret err
      else
        on_hba (modify (λ w, set_dma_mem (store_bytes (dma_mem w) (u64 (data_buf_temp + sector_offset)) buf) w)) ;;
        err ← ahci_io_sata_sectors port data_buf_temp sector_count sector_start 1;
        on_frames (fa_free data_buf_temp size) ;;
        mret err.
(** ** The device's operations *)

(** On a descriptor at [seek] of a node with the device data [port_data]: the result, the bytes read, and the
    descriptor's new position. *)
Definition ahci_read (port_data : option ahci_port_data_t) (seek count : Z) : aM (Z * list Z * Z) :=
  if count =? 0 then mret (0, [], seek)
  else
    match port_data with
    | Some port =>
        '(err, data) ← ahci_read_sata_bytes port count seek;
        if negb (err =? 0) then mret (- EIO, [], seek) else mret (s32 count, data, u64 (seek + count))
    | None => mret (- EIO, [], seek)
    end.

Definition ahci_write (port_data : option ahci_port_data_t) (seek : Z) (buf : list Z) : aM (Z * Z) :=
  match port_data with
  | Some port =>
      err ← ahci_write_sata_bytes port buf seek;
      if negb (err =? 0) then mret (- EIO, seek) else mret (s32 (zlen buf), u64 (seek + zlen buf))
  | None => mret (- EIO, seek)
  end.
End driver.
