(* ===== verification/AhciCommand.v ===== *)
(** * What an AHCI command means

    The part of the controller's specification the driver relies on: how the
    controller reads a command header, a FIS and the scatter list, and what a
    48-bit DMA command transfers.  A command the driver builds decodes to the
    transfer it was built for. *)

From S2P Require Import Prelude Locks Pmm Frames Bytes DList Blocks Vfs Kernel Stack Fd Ahci.

(** ** The controller's view *)

(** The memory regions of a scatter list. *)
Definition region (p : ahci_prdt_entry_t) : Z * Z := (data_base p + 4294967296 * data_base_upper p, byte_count p + 1).
Definition regions (l : list ahci_prdt_entry_t) : list (Z * Z) := map region l.
Definition regions_size (rs : list (Z * Z)) : Z := foldr (λ r acc, snd r + acc) 0 rs.

Fixpoint scatter (m : bmem) (rs : list (Z * Z)) (data : list Z) : bmem :=
  match rs with
  | [] => m
  | (a, n) :: rs' => scatter (store_bytes m a (take (Z.to_nat n) data)) rs' (drop (Z.to_nat n) data)
  end.
Definition gather (m : bmem) (rs : list (Z * Z)) : list Z :=
  concat (map (λ '(a, n), load_bytes m a (Z.to_nat n)) rs).

(** The sector and the number of sectors of a 48-bit command; a count of zero is 65536. *)
Definition fis_lba (f : ahci_h2d_fis_t) : Z :=
  lba_0 f + 256 * lba_1 f + 65536 * lba_2 f + 16777216 * lba_3 f + 4294967296 * lba_4 f + 1099511627776 * lba_5 f.
Definition fis_sectors (f : ahci_h2d_fis_t) : Z :=
  let c := sector_count_low f + 256 * sector_count_high f in if c =? 0 then 65536 else c.

(** The effect of the command in a slot on memory and on a disk of sectors of [ss] bytes. *)
Definition run_command (ss : Z) (hs : list ahci_command_header_t) (ts : gmap Z ahci_command_entry_t) (slot : Z)
    (m : bmem) (plat : list Z) : option (bmem * list Z) :=
  h ← idx hs slot;
  e ← ts !! (command_entry_ptr h + 4294967296 * command_entry_ptr_upper h);
  let f := command_fis e in
  let rs := regions (take (Z.to_nat (prdt_count h)) (prdts e)) in
  let lba := fis_lba f in
  let n := fis_sectors f in
  if (fis_type f =? FIS_TYPE_REG_H2D) && (fis_c f =? 1) && (command_fis_len h =? 5) && (regions_size rs =? n * ss)
     && ((lba + n) * ss <=? zlen plat) then
    if (fis_command f =? ATA_COMMAND_DMA_EXT_READ) && (h_write h =? 0)
    then Some (scatter m rs (slice plat (lba * ss) (n * ss)), plat)
    else if (fis_command f =? ATA_COMMAND_DMA_EXT_WRITE) && (h_write h =? 1)
    then Some (m, splice plat (lba * ss) (gather m rs))
    else None
  else None.

(** ** Memory *)

Lemma load_bytes_app m a n1 n2 :
  load_bytes m a (n1 + n2) = load_bytes m a n1 ++ load_bytes m (u64 (a + Z.of_nat n1)) n2.
Proof.
  apply idx_ext; [rewrite zlen_app, !zlen_load; lia|]. rewrite zlen_load. intros i Hi.
  rewrite idx_load by lia. rewrite idx_app_range, zlen_load.
  destruct (i <? Z.of_nat n1) eqn:E; zbool; rewrite idx_load by lia; [done|].
  rewrite u64_add_l. do 3 f_equal. lia.
Qed.

Lemma load_bytes_slice m a n off k : 0 ≤ off → 0 ≤ k → off + k ≤ Z.of_nat n →
  load_bytes m (u64 (a + off)) (Z.to_nat k) = slice (load_bytes m a n) off k.
Proof.
  intros Ho Hk Hn. apply idx_ext; [rewrite zlen_slice; rewrite ?zlen_load; lia|]. rewrite zlen_load. intros i Hi.
  rewrite idx_load by lia. rewrite idx_slice, idx_load by lia. rewrite u64_add_l. do 3 f_equal. lia.
Qed.

Lemma store_bytes_idx l m a x c : 0 ≤ a → a + zlen l ≤ U64_MOD → Forall is_u8 l → idx l (x - a) = Some c →
  store_bytes m a l x = c.
Proof.
  intros Ha Hl Hb Hi. pose proof (idx_Some _ _ _ Hi) as [Hr Hlk]. rewrite store_bytes_lookup by done.
  rewrite (proj2 (Z.leb_le _ _)), (proj2 (Z.ltb_lt _ _)) by lia. cbn [andb].
  rewrite (nth_lookup_Some _ _ 0 _ Hlk). apply Z.mod_small. rewrite Forall_lookup in Hb. by apply (Hb (Z.to_nat (x - a))).
Qed.

(** ** Scatter lists *)

(** Adjacent regions from an address on. *)
Fixpoint adjacent (rs : list (Z * Z)) (a : Z) : Prop :=
  match rs with
  | [] => True
  | (b, n) :: rs' => b = a ∧ 0 < n ∧ adjacent rs' (a + n)
  end.

Lemma regions_size_cons a n rs : regions_size ((a, n) :: rs) = n + regions_size rs.
Proof. done. Qed.

Lemma regions_size_nonneg rs : ∀ a, adjacent rs a → 0 ≤ regions_size rs.
Proof.
  induction rs as [|[b n] rs IH]; intros a; [done|]. intros (-> & Hn & Ha). specialize (IH _ Ha).
  rewrite regions_size_cons. lia.
Qed.

Lemma gather_adjacent m rs : ∀ a, 0 ≤ a → adjacent rs a → a + regions_size rs < U64_MOD →
  gather m rs = load_bytes m a (Z.to_nat (regions_size rs)).
Proof.
  induction rs as [|[b n] rs IH]; intros a Ha; [done|]. intros (-> & Hn & Hadj) Hr. cbn [gather map concat]. rewrite regions_size_cons in *.
  pose proof (regions_size_nonneg _ _ Hadj) as H0. rewrite Z2Nat.inj_add, load_bytes_app by lia.
  f_equal. rewrite Z2Nat.id by lia. rewrite u64_small by (unfold is_u64; lia). apply IH; [lia|done|lia].
Qed.

Lemma scatter_adjacent rs : ∀ m a data x, 0 ≤ a → adjacent rs a → a + regions_size rs < U64_MOD →
  zlen data = regions_size rs → scatter m rs data x = store_bytes m a data x.
Proof.
  induction rs as [|[b n] rs IH]; intros m a data x Ha.
  { intros _ _ Hd. assert (data = []) as -> by (destruct data; [done|unfold zlen in Hd; cbn in Hd; lia]). done. }
  intros (-> & Hn & Hadj) Hr Hd. cbn [scatter]. rewrite regions_size_cons in *. pose proof (regions_size_nonneg _ _ Hadj) as H0.
  assert (zlen (take (Z.to_nat n) data) = n ∧ zlen (drop (Z.to_nat n) data) = regions_size rs) as [H1 H2].
  { unfold zlen in *. rewrite length_take, length_drop. lia. }
  rewrite (IH _ (a + n)) by (try done; lia). rewrite !store_bytes_lookup by lia. rewrite H1, H2, Hd.
  destruct (a + n <=? x) eqn:E1, (x <? a + n + regions_size rs) eqn:E2, (a <=? x) eqn:E3, (x <? a + n) eqn:E4,
    (x <? a + (n + regions_size rs)) eqn:E5; zbool; cbn [andb]; try lia; try done.
  - f_equal. rewrite <-(take_drop (Z.to_nat n) data) at 2. unfold zlen in H1. rewrite app_nth2 by lia. f_equal. lia.
  - f_equal. rewrite <-(take_drop (Z.to_nat n) data) at 2. unfold zlen in H1. rewrite app_nth1 by lia. done.
Qed.

(** ** The driver's encodings *)

Lemma prdt_bytes n : 0 < n ≤ 4194304 → n mod 2 = 0 → AHCI_GET_PRDT_BYTES n + 1 = n.
Proof.
  intros Hn He. unfold AHCI_GET_PRDT_BYTES. rewrite (u64_small (n + 1)) by (unfold is_u64; lia).
  assert (Z.land (n + 1) (Z.lnot 1) = n) as ->.
  { change (Z.land (n + 1) (Z.lnot 1)) with (Z.ldiff (n + 1) (Z.ones 1)). rewrite Z.ldiff_ones_r by lia.
    rewrite Z.shiftl_mul_pow2, Z.shiftr_div_pow2 by lia. change (2 ^ 1) with 2. dlia. }
  rewrite u64_small by (unfold is_u64; lia). change 4194303 with (Z.ones 22). rewrite Z.land_ones by lia.
  rewrite Z.mod_small; lia.
Qed.

Lemma filled_region port phys n : addresses_64 port ≠ 0 → is_u64 phys →
  region ((ahci_fill_prdt port phys (mk_prdt 0 0 0)) <| byte_count := n |>) = (phys, n + 1).
Proof.
  intros Ha Hp. unfold ahci_fill_prdt. rewrite (proj2 (Z.eqb_neq _ _) Ha). cbn [negb]. unfold region. cbn. f_equal.
  change 4294967295 with (Z.ones 32). rewrite Z.land_ones, Z.shiftr_div_pow2 by lia.
  change (2 ^ 32) with 4294967296. dlia.
Qed.

Lemma fill_prdts_ok port buf n : ∀ i left, addresses_64 port ≠ 0 → 0 ≤ buf → 0 ≤ i →
  buf + i * 4194304 + left < U64_MOD → 0 ≤ left → left mod 2 = 0 →
  (Z.of_nat n - 1) * 4194304 < left ≤ Z.of_nat n * 4194304 →
  adjacent (regions (fill_prdts n port buf i left)) (buf + i * 4194304) ∧
  regions_size (regions (fill_prdts n port buf i left)) = left ∧ length (fill_prdts n port buf i left) = n.
Proof.
  induction n as [|n IH]; intros i left Ha Hb Hi Hr H0 He Hn; [cbn; split_and!; lia|].
  cbn [fill_prdts]. rewrite (u64_small (buf + i * 4194304)) by (unfold is_u64; lia).
  assert (is_u64 (buf + i * 4194304)) as Hu by (unfold is_u64; lia).
  destruct (4194304 <=? left) eqn:E; zbool; cbn [regions map]; rewrite filled_region by done.
  - rewrite prdt_bytes by (done || lia). fold (regions (fill_prdts n port buf (i + 1) (left - 4194304))).
    destruct (IH (i + 1) (left - 4194304)) as (H1 & H2 & H3); try done; try lia; [dlia|].
    replace (buf + (i + 1) * 4194304) with (buf + i * 4194304 + 4194304) in H1 by lia.
    rewrite regions_size_cons. cbn [adjacent length]. split_and!; try done; lia.
  - assert (n = 0%nat) as -> by lia. rewrite prdt_bytes by (done || lia). cbn. split_and!; try done; lia.
Qed.

(** The address of a transfer. *)
Lemma transfer_lba port count offset write : lba48 port = 1 → 0 ≤ offset < 2 ^ 48 →
  fis_lba (transfer_fis port count offset write) = offset.
Proof.
  intros Hl Ho. unfold fis_lba, transfer_fis. cbn. rewrite Hl. cbn [Z.eqb Pos.eqb].
  rewrite !Z.shiftr_div_pow2 by lia. change 255 with (Z.ones 8). rewrite !Z.land_ones by lia.
  change (2 ^ 0) with 1. change (2 ^ 8) with 256. change (2 ^ 16) with (256 * 256).
  change (2 ^ 24) with (256 * 256 * 256). change (2 ^ 32) with (256 * 256 * 256 * 256).
  change (2 ^ 40) with (256 * 256 * 256 * 256 * 256). change (2 ^ 48) with (256 * 256 * 256 * 256 * 256 * 256) in Ho.
  rewrite <-!Z.div_div by lia. dlia.
Qed.

Lemma transfer_sectors port count offset write : 0 < count < 65535 →
  fis_sectors (transfer_fis port count offset write) = count.
Proof.
  intros Hc. unfold fis_sectors, transfer_fis. cbn. rewrite (proj2 (Z.eqb_neq count 65535)) by lia. cbn [negb].
  rewrite !Z.shiftr_div_pow2 by lia. change 255 with (Z.ones 8). rewrite !Z.land_ones by lia. change (2 ^ 8) with 256.
  assert (count mod 256 + 256 * ((count / 256) mod 256) = count) as -> by dlia.
  by rewrite (proj2 (Z.eqb_neq count 0)) by lia.
Qed.

Lemma transfer_op port count offset write : lba48 port = 1 →
  fis_command (transfer_fis port count offset write) =
    if write =? 1 then ATA_COMMAND_DMA_EXT_WRITE else ATA_COMMAND_DMA_EXT_READ.
Proof. intros Hl. unfold transfer_fis. cbn. by rewrite Hl. Qed.
