(* ===== verification/AhciTheorems.v ===== *)
(** * Correctness of the AHCI driver

    [HbaLaws] is what the driver relies on of a controller with one idle disk
    behind it: idle registers read as such, and an issued command completes
    within [patience] polls with the effect [run_command] gives it.  Under these
    laws and those of the page allocator, transfers of sectors and of bytes move
    exactly the bytes they name, and give back the memory they take. *)

From S2P Require Import Prelude Locks Pmm Frames Bytes DList Blocks Vfs Kernel Stack Fd Ahci AhciCommand.

Class HbaLaws (W : Type) `{Hba W} := {
  platter : W → list Z;
  sector : Z;
  patience : nat;
  idle : W → Prop;
  (** the command in a slot completes after some more polls, and leaves a memory and a disk *)
  busy : nat → Z → bmem → list Z → W → Prop;
  hl_ci w : idle w → ∃ w', hba_read REG_CI w = Ok (0, w') ∧ idle w' ∧ dma_mem w' = dma_mem w ∧ platter w' = platter w;
  hl_tfd w : idle w → ∃ v w', hba_read REG_TFD w = Ok (v, w') ∧ Z.testbit v 3 = false ∧
    idle w' ∧ dma_mem w' = dma_mem w ∧ platter w' = platter w;
  hl_is w : idle w → ∃ v w', hba_read REG_IS w = Ok (v, w') ∧ Z.testbit v 30 = false ∧
    idle w' ∧ dma_mem w' = dma_mem w ∧ platter w' = platter w;
  hl_mem w m : idle w → idle (set_dma_mem m w) ∧ dma_mem (set_dma_mem m w) = m ∧ platter (set_dma_mem m w) = platter w;
  hl_issue w slot hs ts m' p' : idle w → 0 ≤ slot < 32 →
    run_command sector hs ts slot (dma_mem w) (platter w) = Some (m', p') →
    ∃ k w', hba_issue (Z.shiftl 1 slot) hs ts w = Ok (tt, w') ∧ (k ≤ patience)%nat ∧ busy k slot m' p' w';
  hl_wait k slot m' p' w : busy (S k) slot m' p' w → ∃ v w', hba_read REG_CI w = Ok (v, w') ∧
    Z.testbit v slot = true ∧ busy k slot m' p' w';
  hl_no_error k slot m' p' w : busy k slot m' p' w → ∃ v w', hba_read REG_IS w = Ok (v, w') ∧
    Z.testbit v 30 = false ∧ busy k slot m' p' w';
  hl_done slot m' p' w : busy 0 slot m' p' w → ∃ v w', hba_read REG_CI w = Ok (v, w') ∧
    Z.testbit v slot = false ∧ idle w' ∧ dma_mem w' = m' ∧ platter w' = p'
}.

Section driver.
Context {F W : Type} {FA : FrameAlloc F} {FL : FrameAllocLaws F} {HB : Hba W} {HL : HbaLaws W} (fuel : nat).
Hypothesis fuel_enough : (patience < fuel)%nat.
Implicit Types s : ahci_st F W.

Record port_ok (port : ahci_port_data_t) : Prop := {
  pt_wide : addresses_64 port ≠ 0;
  pt_slots : 0 < command_slot_count port;
  pt_sector : sector_size port = sector;
  pt_lba48 : lba48 port = 1;
  pt_range : 0 < sector ≤ 65536;
  pt_even : sector mod 2 = 0
}.

Record drv_ok s : Prop := {
  dr_idle : idle (hba s);
  dr_frames : fa_inv (frames s);
  dr_lock : unlocked (ahci_lock s);
  dr_headers : 0 < zlen (headers s)
}.

(** The allocator's state is the same to its users. *)
Definition keeps (f f' : F) : Prop :=
  fa_inv f' ∧ fa_size f' = fa_size f ∧ ∀ q, fa_used f' q = fa_used f q.

(** ** Pages *)

Lemma alloc_ok (f : F) size : fa_inv f → 0 < size → size + PAGE - 1 < U64_MOD → (∃ p, free_run f p (pages_of size)) →
  ∃ p f', fa_alloc size f = Ok (p * PAGE, f') ∧ 0 < p ∧ p + pages_of size ≤ fa_size f ∧ fa_size f ≤ PHYS_PAGES ∧
    fa_inv f' ∧ fa_size f' = fa_size f ∧ free_run f p (pages_of size) ∧
    ∀ q, fa_used f' q = (fa_used f q || in_run p (pages_of size) q)%bool.
Proof.
  intros Hi Hs Hr [p0 Hp0]. pose proof (pages_of_pos _ Hs Hr) as Hpos.
  destruct (fa_alloc_spec f size Hi Hs Hr) as [(p & f' & E & Hfr & Hi' & Hsz & _ & Hu)|[_ Hno]]; [|by destruct (Hno p0)].
  exists p, f'. pose proof (fa_used_bound _ _ Hi (Hfr p ltac:(lia))).
  pose proof (fa_used_bound _ _ Hi (Hfr (p + pages_of size - 1) ltac:(lia))).
  pose proof (fa_size_bound _ Hi). split_and!; try done; lia.
Qed.

(** What was allocated in [f] is given back in a state that looks like the one after the allocation. *)
Lemma free_ok (f f1 : F) p size : fa_inv f1 → fa_size f1 = fa_size f → 0 < p → p + pages_of size ≤ fa_size f →
  0 < size → size + PAGE - 1 < U64_MOD → free_run f p (pages_of size) →
  (∀ q, fa_used f1 q = (fa_used f q || in_run p (pages_of size) q)%bool) →
  ∃ f2, fa_free (p * PAGE) size f1 = Ok (tt, f2) ∧ keeps f f2.
Proof.
  intros Hi Hsz Hp Hfit Hs Hr Hfr Hu.
  destruct (fa_free_spec f1 p size Hi Hp ltac:(lia) Hr) as (f2 & E & Hi2 & Hsz2 & _ & Hu2); [by rewrite Hsz|].
  exists f2. split; [done|]. split_and!; [done|congruence|]. intros q. rewrite Hu2, Hu.
  destruct (in_run p (pages_of size) q) eqn:Eq.
  - unfold in_run in Eq. zbool. rewrite (Hfr q) by lia. done.
  - by rewrite orb_false_r, andb_true_r.
Qed.

(** ** Running the driver's primitives *)

Lemma on_hba_ok {A} (m : stM W A) s a w : m (hba s) = Ok (a, w) → on_hba m s = Ok (a, s <| hba := w |>).
Proof. intros Hm. unfold on_hba. by apply (zoom_ok hba (λ w s, s <| hba := w |>)). Qed.

Lemma on_frames_ok {A} (m : stM F A) s a f : m (frames s) = Ok (a, f) → on_frames m s = Ok (a, s <| frames := f |>).
Proof. intros Hm. unfold on_frames. by apply (zoom_ok frames (λ f s, s <| frames := f |>)). Qed.

Lemma upd_header_ok s i h f : idx (headers s) i = Some h →
  upd_header i f s = Ok (tt, s <| headers := upd (headers s) i (f h) |>).
Proof. intros Hi. unfold upd_header. mstep. by mrun (of_opt_ok _ _ s Hi). Qed.

Lemma upd_table_ok s a e f : tables s !! a = Some e →
  upd_table a f s = Ok (tt, s <| tables := <[a := f e]> (tables s) |>).
Proof. intros Hi. unfold upd_table. mstep. by mrun (of_opt_ok _ _ s Hi). Qed.

(** Polling ends when the command does. *)
Lemma wait_command_ok n : ∀ k slot m' p' s, busy k slot m' p' (hba s) → (k < n)%nat →
  ∃ w', wait_command n slot s = Ok (0, s <| hba := w' |>) ∧ idle w' ∧ dma_mem w' = m' ∧ platter w' = p'.
Proof.
  induction n as [|n IH]; intros k slot m' p' s Hb Hk; [lia|]. cbn [wait_command]. destruct k as [|k].
  - destruct (hl_done _ _ _ _ Hb) as (v & w' & E & Hv & Hw). unfold read_reg. mrun (on_hba_ok _ _ _ _ E).
    rewrite Hv. exists w'. by split.
  - destruct (hl_wait _ _ _ _ _ Hb) as (v & w1 & E & Hv & Hb1). unfold read_reg. mrun (on_hba_ok _ _ _ _ E). rewrite Hv.
    destruct (hl_no_error _ _ _ _ _ Hb1) as (v2 & w2 & E2 & Hv2 & Hb2).
    erewrite bind_ok; [|by apply on_hba_ok]. cbv beta. rewrite Hv2. mstep.
    destruct (IH k slot m' p' (s <| hba := w1 |> <| hba := w2 |>)) as (w' & E' & Hw'); [exact Hb2|lia|].
    exists w'. split; [exact E'|done].
Qed.

(** The header and the table of a transfer. *)
Definition built_header (h : ahci_command_header_t) (port : ahci_port_data_t) (a count write : Z) : ahci_command_header_t :=
  mk_header 5 write (u16 (u64 (u64 (count * sector_size port) + 4194304 - 1) / 4194304)) (u32 a) (u32 (Z.shiftr a 32)).
Definition built_table (port : ahci_port_data_t) (buf count offset write : Z) : ahci_command_entry_t :=
  mk_entry (transfer_fis port count offset write) (transfer_prdts port buf count).

Definition table_size (port : ahci_port_data_t) (count : Z) : Z :=
  AHCI_GET_FIS_SIZE (u64 (u64 (count * sector_size port) + 4194304 - 1) / 4194304) 1.

Definition zero_table : ahci_command_entry_t := mk_entry (mk_fis 0 0 0 0 0 0 0 0 0 0 0 0 0) [].

(** Slot 0 is free, and gets a fresh table. *)
Lemma allocate_slot_ok port size s w h p f :
  port_ok port → hba_read REG_CI (hba s) = Ok (0, w) → fa_alloc size (frames s) = Ok (p * PAGE, f) → 0 < p →
  idx (headers s) 0 = Some h →
  ahci_allocate_command_slot port size s =
    Ok ((0, p * PAGE),
        mk_ahci f w (upd (headers s) 0 (h <| command_entry_ptr := u32 (p * PAGE) |>
                                         <| command_entry_ptr_upper := u32 (Z.shiftr (p * PAGE) 32) |>))
          (<[p * PAGE := zero_table]> (tables s)) (ahci_lock s)).
Proof.
  intros Hp Hci Hal Hp0 Hh. unfold ahci_allocate_command_slot, ahci_find_command_slot.
  pose proof (pt_slots _ Hp) as Hsl. destruct (Z.to_nat (command_slot_count port)) as [|n] eqn:En; [lia|]. cbn [find_slot].
  erewrite bind_ok; [|unfold read_reg; erewrite bind_ok; [|by apply on_hba_ok]; reflexivity]. cbn [negb Z.testbit Z.eqb].
  erewrite bind_ok; [|by apply on_frames_ok]. cbv beta. rewrite (proj2 (Z.eqb_neq _ _)) by lia. mstep.
  pose proof (idx_Some _ _ _ Hh) as [Hr _].
  erewrite bind_ok; [|by apply (upd_header_ok _ _ h)]. cbv beta.
  rewrite (proj2 (Z.eqb_neq _ _) (pt_wide _ Hp)). cbn [negb].
  erewrite bind_ok; [|apply upd_header_ok; by apply idx_upd_eq]. cbv beta.
  unfold mret, stM_ret. do 2 f_equal. destruct s. cbn. by rewrite upd_twice.
Qed.

(** A command is built, run and cleaned up. *)
Lemma io_ok port buf count offset write s m' p' :
  port_ok port → drv_ok s → 0 < table_size port count → table_size port count + PAGE - 1 < U64_MOD →
  (∃ p, free_run (frames s) p (pages_of (table_size port count))) →
  (∀ a h, 0 < a → a < PHYS_PAGES * PAGE → run_command sector (upd (headers s) 0 (built_header h port a count write))
     (<[a := built_table port buf count offset write]> (tables s)) 0 (dma_mem (hba s)) (platter (hba s)) = Some (m', p')) →
  ∃ s', ahci_io_sata_sectors fuel port buf count offset write s = Ok (0, s') ∧ drv_ok s' ∧
    keeps (frames s) (frames s') ∧ dma_mem (hba s') = m' ∧ platter (hba s') = p'.
Proof.
  intros Hp [Hid Hfi Hl Hh] Ht0 Ht Hroom Hrun. unfold ahci_io_sata_sectors.
  erewrite bind_ok; [|unfold ahci_acquire; mstep; by rewrite (spinlock_lock_free _ Hl)]. cbv beta.
  fold (table_size port count).
  destruct (hl_ci _ Hid) as (w1 & E1 & I1 & M1 & P1). destruct (alloc_ok _ _ Hfi Ht0 Ht Hroom)
    as (p & f1 & Ea & Hp0 & Hpf & Hps & Hi1 & Hs1 & Hfr & Hu1).
  destruct (idx_lt (headers s) 0 ltac:(lia)) as [h Hh0]. set (a := p * PAGE).
  assert (0 < a < PHYS_PAGES * PAGE) as Har.
  { pose proof (pages_of_pos _ Ht0 Ht). subst a. unfold PHYS_PAGES in *. lia. }
  set (hs := upd (headers s) 0 (built_header h port a count write)).
  set (ts := <[a := built_table port buf count offset write]> (tables s)).
  assert (run_command sector hs ts 0 (dma_mem w1) (platter w1) = Some (m', p')) as Hcmd
    by (rewrite M1, P1; apply Hrun; lia).
  erewrite bind_ok; [|apply (allocate_slot_ok port _ _ w1 h p f1); [done|exact E1|exact Ea|done|exact Hh0]].
  cbv beta iota. fold a. cbn [Z.eqb].
  erewrite bind_ok; [|apply upd_header_ok; apply idx_upd_eq; cbn; lia]. cbv beta. cbn [headers]. rewrite upd_twice.
  erewrite bind_ok; [|apply upd_table_ok; apply lookup_insert_eq]. cbv beta. cbn [tables].
  set (s1 := mk_ahci f1 w1 hs ts (Z.lor (ahci_lock s) 1)).
  match goal with |- context [(ahci_wait_ready _ ;; _) ?s0] => replace s0 with s1 end.
  2: { subst s1. destruct s. cbn. by rewrite insert_insert_eq. }
  destruct (hl_tfd _ I1) as (v2 & w2 & E2 & V2 & I2 & M2 & P2).
  assert (ahci_wait_ready fuel s1 = Ok (tt, s1 <| hba := w2 |>)) as Er.
  { unfold ahci_wait_ready. destruct fuel as [|n]; [lia|]. cbn [wait_ready]. unfold read_reg.
    erewrite bind_ok; [|by apply on_hba_ok]. cbv beta. rewrite V2. by mstep. }
  mrun Er. destruct (hl_ci _ I2) as (w3 & E3 & I3 & M3 & P3).
  rewrite <-P2, <-P3, <-M2, <-M3 in Hcmd.
  destruct (hl_issue w3 0 hs ts m' p' I3 ltac:(lia) Hcmd) as (k & w4 & E4 & Hk & B4).
  assert (ahci_issue_command 0 (s1 <| hba := w2 |>) = Ok (tt, s1 <| hba := w4 |>)) as Ei.
  { unfold ahci_issue_command, read_reg. erewrite bind_ok; [|by apply on_hba_ok]. cbv beta. mstep.
    by erewrite on_hba_ok by exact E4. }
  mrun Ei. destruct (wait_command_ok fuel k 0 m' p' (s1 <| hba := w4 |>)) as (w5 & E5 & I5 & M5 & P5); [exact B4|lia|].
  unfold ahci_wait_command. mrun E5. cbn [Z.eqb negb].
  destruct (hl_is _ I5) as (v6 & w6 & E6 & V6 & I6 & M6 & P6).
  assert (task_file_error (s1 <| hba := w5 |>) = Ok (false, s1 <| hba := w6 |>)) as Et.
  { unfold task_file_error, read_reg. erewrite bind_ok; [|by apply on_hba_ok]. cbv beta. by rewrite V6. }
  change (s1 <| hba := w4 |> <| hba := w5 |>) with (s1 <| hba := w5 |>). mrun Et.
  destruct (free_ok (frames s) f1 p (table_size port count) Hi1 Hs1 Hp0 Hpf Ht0 Ht Hfr Hu1) as (f2 & Ef & Hkeep).
  erewrite bind_ok; [|by apply on_frames_ok]. cbv beta. mstep.
  eexists. split; [reflexivity|]. split_and!; [|exact Hkeep|cbn; congruence|cbn; congruence].
  split; cbn; [done|apply Hkeep|by rewrite lock_unlock|]. unfold hs. by rewrite zlen_upd.
Qed.

(** ** Sectors *)

(** A transfer the disk and the address space have room for. *)
Record transfer_ok (port : ahci_port_data_t) (plat : list Z) (buf count offset : Z) : Prop := {
  tr_count : 0 < count < 65535;
  tr_offset : 0 ≤ offset < 2 ^ 48;
  tr_disk : (offset + count) * sector ≤ zlen plat;
  tr_buf : 0 ≤ buf;
  tr_mem : buf + count * sector < U64_MOD
}.

Lemma prdts_ok port plat buf count offset : port_ok port → transfer_ok port plat buf count offset →
  let n := u64 (u64 (count * sector_size port) + 4194304 - 1) / 4194304 in
  0 < n < 65536 ∧ length (transfer_prdts port buf count) = Z.to_nat n ∧
  adjacent (regions (transfer_prdts port buf count)) buf ∧
  regions_size (regions (transfer_prdts port buf count)) = count * sector.
Proof.
  intros [Hw _ Hs _ Hr He] [Hc Ho Hd Hb Hm]. cbn zeta. unfold transfer_prdts. rewrite Hs.
  assert (count * sector < 4294967296) as Hlt by nia.
  rewrite (u64_small (count * sector)), (u64_small (count * sector + 4194304 - 1)) by (unfold is_u64; nia).
  set (n := (count * sector + 4194304 - 1) / 4194304).
  pose proof (Z.div_mod (count * sector + 4194304 - 1) 4194304 ltac:(lia)) as E. fold n in E.
  pose proof (Z.mod_pos_bound (count * sector + 4194304 - 1) 4194304 ltac:(lia)) as Hmod.
  assert (0 < n < 65536) as Hn by nia.
  destruct (fill_prdts_ok port buf (Z.to_nat n) 0 (count * sector)) as (H1 & H2 & H3); try done; try lia.
  { rewrite Z.mul_mod, He, Z.mul_0_r by lia. done. }
  rewrite Z.add_0_r in H1. split_and!; try done; lia.
Qed.

Lemma run_built port plat buf count offset write hs h ts a m :
  port_ok port → transfer_ok port plat buf count offset → 0 < zlen hs → 0 < a < PHYS_PAGES * PAGE → write = 0 ∨ write = 1 →
  run_command sector (upd hs 0 (built_header h port a count write)) (<[a := built_table port buf count offset write]> ts) 0 m plat =
    Some (if write =? 0
          then (scatter m (regions (transfer_prdts port buf count)) (slice plat (offset * sector) (count * sector)), plat)
          else (m, splice plat (offset * sector) (load_bytes m buf (Z.to_nat (count * sector))))).
Proof.
  intros Hp Ht Hh Ha Hw. destruct (prdts_ok _ _ _ _ _ Hp Ht) as (Hn & Hlen & Hadj & Hsz).
  pose proof Ht as [Hc Ho Hd Hb Hm]. unfold run_command. rewrite idx_upd_eq by lia. cbn [mbind option_bind].
  unfold built_header, built_table.
  cbn [command_entry_ptr command_entry_ptr_upper prdt_count command_fis_len h_write].
  assert (u32 a + 4294967296 * u32 (Z.shiftr a 32) = a) as ->.
  { unfold u32, PHYS_PAGES in *. rewrite Z.shiftr_div_pow2 by lia. change (2 ^ 32) with 4294967296. dlia. }
  rewrite lookup_insert_eq. cbn [mbind option_bind].
  cbn [prdts command_fis].
  unfold u16. rewrite (Z.mod_small _ U16_MOD) by lia. rewrite <-Hlen, firstn_all.
  rewrite transfer_lba by (done || apply Hp). rewrite transfer_sectors by lia. rewrite Hsz, Z.eqb_refl.
  change (fis_type _) with FIS_TYPE_REG_H2D. change (fis_c _) with 1. rewrite (proj2 (Z.leb_le _ _) Hd).
  cbn [Z.eqb Pos.eqb andb FIS_TYPE_REG_H2D].
  rewrite transfer_op by apply Hp. unfold ATA_COMMAND_DMA_EXT_READ, ATA_COMMAND_DMA_EXT_WRITE. destruct Hw as [-> | ->]; cbn [Z.eqb Pos.eqb andb]; rewrite Z.eqb_refl; cbn [andb]; [done|].
  do 3 f_equal. rewrite <-Hsz. apply gather_adjacent; [done|done|lia].
Qed.

Lemma table_size_ok port plat buf count offset : port_ok port → transfer_ok port plat buf count offset →
  0 < table_size port count ∧ table_size port count + PAGE - 1 < U64_MOD.
Proof.
  intros Hp Ht. destruct (prdts_ok _ _ _ _ _ Hp Ht) as (Hn & _). unfold table_size, AHCI_GET_FIS_SIZE.
  rewrite u64_small by (unfold is_u64; lia). lia.
Qed.

Lemma sectors_read_ok port s buf count offset : port_ok port → drv_ok s →
  transfer_ok port (platter (hba s)) buf count offset →
  (∃ p, free_run (frames s) p (pages_of (table_size port count))) →
  ∃ s', ahci_io_sata_sectors fuel port buf count offset 0 s = Ok (0, s') ∧ drv_ok s' ∧ keeps (frames s) (frames s') ∧
    platter (hba s') = platter (hba s) ∧
    ∀ x, dma_mem (hba s') x =
      store_bytes (dma_mem (hba s)) buf (slice (platter (hba s)) (offset * sector) (count * sector)) x.
Proof.
  intros Hp Hd Ht Hroom. destruct (table_size_ok _ _ _ _ _ Hp Ht) as [Hz0 Hz].
  destruct (prdts_ok _ _ _ _ _ Hp Ht) as (Hn & Hlen & Hadj & Hsz). pose proof Ht as [Hc Ho Hk Hb Hm].
  destruct (io_ok port buf count offset 0 s
    (scatter (dma_mem (hba s)) (regions (transfer_prdts port buf count))
       (slice (platter (hba s)) (offset * sector) (count * sector))) (platter (hba s)) Hp Hd Hz0 Hz Hroom) as (s' & E & Hd' & Hkeep & Hmem & Hpl).
  { intros a h Ha0 Ha. exact (run_built port (platter (hba s)) buf count offset 0 (headers s) h (tables s) a
      (dma_mem (hba s)) Hp Ht (dr_headers _ Hd) (conj Ha0 Ha) (or_introl eq_refl)). }
  exists s'. split_and!; [done|done|done|exact Hpl|]. intros x. rewrite Hmem.
  apply scatter_adjacent; [done|done|lia|]. rewrite Hsz. pose proof (pt_range _ Hp). apply zlen_slice; nia.
Qed.

Lemma sectors_write_ok port s buf count offset : port_ok port → drv_ok s →
  transfer_ok port (platter (hba s)) buf count offset →
  (∃ p, free_run (frames s) p (pages_of (table_size port count))) →
  ∃ s', ahci_io_sata_sectors fuel port buf count offset 1 s = Ok (0, s') ∧ drv_ok s' ∧ keeps (frames s) (frames s') ∧
    dma_mem (hba s') = dma_mem (hba s) ∧
    platter (hba s') = splice (platter (hba s)) (offset * sector)
      (load_bytes (dma_mem (hba s)) buf (Z.to_nat (count * sector))).
Proof.
  intros Hp Hd Ht Hroom. destruct (table_size_ok _ _ _ _ _ Hp Ht) as [Hz0 Hz].
  destruct (io_ok port buf count offset 1 s (dma_mem (hba s))
    (splice (platter (hba s)) (offset * sector) (load_bytes (dma_mem (hba s)) buf (Z.to_nat (count * sector))))
    Hp Hd Hz0 Hz Hroom) as (s' & E & Hd' & Hkeep & Hmem & Hpl).
  { intros a h Ha0 Ha. exact (run_built port (platter (hba s)) buf count offset 1 (headers s) h (tables s) a
      (dma_mem (hba s)) Hp Ht (dr_headers _ Hd) (conj Ha0 Ha) (or_intror eq_refl)). }
  exists s'. by split_and!.
Qed.

(** ** Bytes *)

Lemma frames_kept_trans (f g h : F) : keeps f g → keeps g h → keeps f h.
Proof. intros (_ & S1 & U1) (I2 & S2 & U2). split_and!; [done|congruence|]. intros q. by rewrite U2. Qed.

Lemma free_run_mono (f : F) p n m : m ≤ n → free_run f p n → free_run f p m.
Proof. intros Hm Hf k Hk. apply Hf. lia. Qed.

Lemma keeps_room (f g : F) n : keeps f g → (∃ p, free_run f p n) → ∃ p, free_run g p n.
Proof. intros (_ & _ & Hu) [p Hp]. exists p. intros k Hk. rewrite Hu. by apply Hp. Qed.

(** The disk holds whole sectors of bytes that 48-bit commands can address. *)
Record disk_ok (plat : list Z) : Prop := {
  dk_bytes : Forall is_u8 plat;
  dk_whole : zlen plat mod sector = 0;
  dk_size : zlen plat ≤ 2 ^ 48 * sector;
  dk_u64 : zlen plat + 2 * sector < U64_MOD
}.

(** The number of sectors that a range of bytes touches. *)
Definition sectors_of (seek count : Z) : Z := (seek + count + sector - 1) / sector - seek / sector.

(** Memory for the buffer, and after that for the command table. *)
Definition room (port : ahci_port_data_t) (f : F) (n : Z) : Prop :=
  (∃ p, free_run f p (pages_of (n * sector))) ∧
  ∀ a f', fa_alloc (n * sector) f = Ok (a, f') → ∃ p, free_run f' p (pages_of (table_size port n)).

Record byte_range (plat : list Z) (seek count : Z) : Prop := {
  br_seek : 0 ≤ seek;
  br_count : 0 < count;
  br_fits : seek + count ≤ zlen plat;
  br_sectors : sectors_of seek count < 65535
}.

Lemma sectors_facts port plat seek count : port_ok port → disk_ok plat → byte_range plat seek count →
  let st := seek / sector in let o := seek mod sector in let n := sectors_of seek count in
  seek = st * sector + o ∧ 0 ≤ o < sector ∧ (0 ≤ st ∧ st + n ≤ 2 ^ 48) ∧ 0 < n ∧ (n - 1) * sector < o + count ≤ n * sector ∧
  (st + n) * sector ≤ zlen plat.
Proof.
  intros Hp [_ Hw Hz _] [Hs Hc Hf _]. cbn zeta. unfold sectors_of. pose proof (pt_range _ Hp) as Hr.
  assert (sector ≠ 0) as H0 by lia. assert (0 < sector) as H1 by lia.
  pose proof (Z.div_mod seek sector H0) as E1. pose proof (Z.mod_pos_bound seek sector H1) as M1.
  pose proof (Z.div_mod (seek + count + sector - 1) sector H0) as E2.
  pose proof (Z.mod_pos_bound (seek + count + sector - 1) sector H1) as M2.
  pose proof (Z.div_mod (zlen plat) sector H0) as E3. rewrite Hw in E3.
  set (st := seek / sector) in *. set (e := (seek + count + sector - 1) / sector) in *. set (k := zlen plat / sector) in *.
  assert (0 ≤ st) by (apply Z.div_pos; lia). assert (e ≤ k) as He by (apply Z.lt_succ_r; nia).
  assert (st < e) by nia. split_and!; try lia; nia.
Qed.

Lemma sector_range_ok port plat seek count s : port_ok port → disk_ok plat → byte_range plat seek count →
  sector_range port count seek s = Ok ((seek mod sector, seek / sector, seek / sector + sectors_of seek count), s).
Proof.
  intros Hp [_ _ _ Hz] [Hs Hc Hf _]. pose proof (pt_range _ Hp). unfold sector_range. rewrite (pt_sector _ Hp).
  erewrite bind_ok by (apply udiv_ok; lia). cbv beta. erewrite bind_ok by (apply udiv_ok; lia). cbv beta.
  rewrite (u64_small (seek + count)), u64_small by (unfold is_u64; lia).
  unfold mret, stM_ret, sectors_of. do 4 f_equal. lia.
Qed.

(** The buffer lies in physical memory. *)
Lemma buffer_ok (f : F) n p : fa_inv f → 0 < n < 65535 → 0 < sector ≤ 65536 → 0 < p →
  p + pages_of (n * sector) ≤ fa_size f → fa_size f ≤ PHYS_PAGES → 0 < p * PAGE ∧ p * PAGE + n * sector < 2 ^ 60.
Proof.
  intros Hi Hn Hs Hp Hfit Hmax. unfold PHYS_PAGES in *. assert (0 < n * sector < 4294967296) as Hr by nia.
  pose proof (pages_of_pos (n * sector)). lia.
Qed.

Lemma room_table port (f g : F) n m : keeps f g → 0 < m ≤ n → n < 65535 → port_ok port →
  (∃ p, free_run f p (pages_of (table_size port n))) → ∃ p, free_run g p (pages_of (table_size port m)).
Proof.
  intros Hk Hm Hn Hp Hr. apply (keeps_room _ _ _ Hk). destruct Hr as [p Hp']. exists p. revert Hp'. apply free_run_mono.
  pose proof (pt_range _ Hp). unfold table_size, AHCI_GET_FIS_SIZE, pages_of. rewrite (pt_sector _ Hp).
  assert (m * sector ≤ n * sector) by nia. assert (0 < m * sector ∧ n * sector < 4294967296) by nia.
  rewrite !(u64_small (_ * sector)), !(u64_small (_ * sector + 4194304 - 1)) by (unfold is_u64; lia).
  assert ((m * sector + 4194304 - 1) / 4194304 ≤ (n * sector + 4194304 - 1) / 4194304) by (apply Z.div_le_mono; lia).
  assert ((n * sector + 4194304 - 1) / 4194304 < 65536) by (apply Z.div_lt_upper_bound; lia).
  assert (0 ≤ (m * sector + 4194304 - 1) / 4194304) by (apply Z.div_pos; lia).
  rewrite !(u64_small (128 + _)) by (unfold is_u64; lia).
  unfold u64. rewrite !Z.mod_small by lia. apply Z.div_le_mono; lia.
Qed.

Lemma drv_frames s f : drv_ok s → fa_inv f → drv_ok (s <| frames := f |>).
Proof. intros [H1 H2 H3 H4] Hf. by split. Qed.

(** A buffer of [n] sectors is allocated, used by commands, and given back. *)
Lemma buffer_alloc port s n : port_ok port → drv_ok s → 0 < n < 65535 → room port (frames s) n →
  ∃ a f1, fa_alloc (u64 (n * sector)) (frames s) = Ok (a, f1) ∧ drv_ok (s <| frames := f1 |>) ∧
    0 < a ∧ a + n * sector < 2 ^ 60 ∧ (∃ q, free_run f1 q (pages_of (table_size port n))) ∧
    ∀ f2, keeps f1 f2 → ∃ f3, fa_free a (u64 (n * sector)) f2 = Ok (tt, f3) ∧ keeps (frames s) f3.
Proof.
  intros Hp Hd Hn [Hr1 Hr2]. pose proof (pt_range _ Hp) as Hs. assert (0 < n * sector < 4294967296) as Hr by nia.
  rewrite (u64_small (n * sector)) by (unfold is_u64; lia). pose proof (dr_frames _ Hd) as Hi.
  destruct (alloc_ok (frames s) (n * sector)) as (p & f1 & Ea & Hp0 & Hpf & Hps & Hi1 & Hs1 & Hfr & Hu1); [done|lia|lia|done|].
  destruct (buffer_ok (frames s) n p) as [Ha0 Ha1]; [done..|]. exists (p * PAGE), f1.
  split_and!; [done|by apply drv_frames|done|done|by eapply Hr2|]. intros f2 (Hi2 & Hs2 & Hu2).
  apply free_ok; [done|congruence|done|done|lia|lia|done|]. intros q. by rewrite Hu2.
Qed.

(** Some of the sectors of a range. *)
Lemma part_transfer port (plat : list Z) a st n j k : port_ok port → 0 ≤ a → a + n * sector < 2 ^ 60 →
  0 ≤ st ∧ st + n ≤ 2 ^ 48 → (st + n) * sector ≤ zlen plat → n < 65535 → 0 ≤ j → 0 < k → j + k ≤ n →
  transfer_ok port plat (a + j * sector) k (st + j).
Proof.
  intros Hp Ha Hm Hst Hfit Hn Hj Hk Hjk. pose proof (pt_range _ Hp) as Hs.
  assert ((j + k) * sector ≤ n * sector ∧ 0 ≤ j * sector) as [H1 H2] by nia. split; try lia.
Qed.

Lemma head_transfer port (plat : list Z) a st n k : port_ok port → 0 ≤ a → a + n * sector < 2 ^ 60 →
  0 ≤ st ∧ st + n ≤ 2 ^ 48 → (st + n) * sector ≤ zlen plat → n < 65535 → 0 < k → k ≤ n →
  transfer_ok port plat a k st.
Proof.
  intros Hp Ha Hm Hst Hfit Hn Hk Hkn.
  pose proof (part_transfer port plat a st n 0 k Hp Ha Hm Hst Hfit Hn ltac:(lia) Hk ltac:(lia)) as Ht.
  by rewrite Z.mul_0_l, !Z.add_0_r in Ht.
Qed.

(** C23: reading bytes of a disk.  Under the laws of the controller and of the page allocator, [ahci_read_sata_bytes]
    of a range of bytes on the disk, however it lies across sectors, returns 0 and exactly those bytes; it leaves the
    disk as it was, the driver ready for the next command, and every page of memory as free or used as before. *)
Theorem ahci_read_correct port s count seek :
  port_ok port → drv_ok s → disk_ok (platter (hba s)) → byte_range (platter (hba s)) seek count →
  room port (frames s) (sectors_of seek count) →
  ∃ s', ahci_read_sata_bytes fuel port count seek s = Ok ((0, slice (platter (hba s)) seek count), s') ∧
    drv_ok s' ∧ keeps (frames s) (frames s') ∧ platter (hba s') = platter (hba s).
Proof.
  intros Hp Hd Hk Hb Hroom. destruct (sectors_facts _ _ _ _ Hp Hk Hb) as (E & Ho & Hst & Hn & Hc & Hfit).
  set (st := seek / sector) in *. set (o := seek mod sector) in *. set (n := sectors_of seek count) in *.
  pose proof (br_sectors _ _ _ Hb) as Hn'. fold n in Hn'. pose proof (pt_range _ Hp) as Hs.
  unfold ahci_read_sata_bytes. erewrite bind_ok by (by eapply sector_range_ok). cbv beta iota zeta. fold st o n.
  replace (st + n - st) with n by lia. rewrite (u64_small n) by (unfold is_u64; lia).
  rewrite (proj2 (Z.ltb_ge _ _)), (proj2 (Z.eqb_neq n 0)) by lia. rewrite (pt_sector _ Hp).
  destruct (buffer_alloc port s n) as (a & f1 & Ea & Hd1 & Ha0 & Ha1 & Hq & Hfree); [done|done|lia|done|].
  erewrite bind_ok by (by apply on_frames_ok). cbv beta.
  destruct (sectors_read_ok port (s <| frames := f1 |>) a n st Hp Hd1) as (s2 & E2 & Hd2 & Hk2 & Hpl & Hm);
    [apply (head_transfer port _ a st n); done || lia|exact Hq|].
  mrun E2. cbn [Z.eqb negb]. mstep. destruct (Hfree _ Hk2) as (f3 & Ef & Hk3).
  erewrite bind_ok by (by apply on_frames_ok). cbv beta.
  eexists. split; [|split; [by apply drv_frames; [done|apply Hk3]|by split]].
  unfold mret, stM_ret. do 3 f_equal. pose proof (br_count _ _ _ Hb).
  rewrite (load_bytes_slice _ _ (Z.to_nat (n * sector)) o count) by lia.
  cbn in Hm. set (d := slice (platter (hba s)) (st * sector) (n * sector)).
  assert (zlen d = n * sector) as Hz by (apply zlen_slice; lia).
  rewrite (load_bytes_ext (store_bytes (dma_mem (hba s)) a d) (dma_mem (hba s2)) a) by (lia || (intros x _; apply Hm)).
  replace (Z.to_nat (n * sector)) with (length d) by (unfold zlen in Hz; lia).
  rewrite load_store_bytes by (try lia; by apply Forall_take, Forall_drop, dk_bytes).
  unfold d. rewrite slice_slice by lia. f_equal. lia.
Qed.

(** The buffer of a write: the first and the last sector as on the disk, then the caller's bytes over them. *)
Lemma merged_buffer m0 m1 m2 (plat buf : list Z) a st o n : Forall is_u8 plat → Forall is_u8 buf →
  0 < sector → 0 ≤ a → a + n * sector < U64_MOD → 0 < n → 0 ≤ st → 0 ≤ o < sector → 0 < zlen buf →
  (n - 1) * sector < o + zlen buf ≤ n * sector → (st + n) * sector ≤ zlen plat →
  (∀ x, m1 x = store_bytes m0 a (slice plat (st * sector) sector) x) →
  (∀ x, m2 x = store_bytes m1 (a + (n - 1) * sector) (slice plat ((st + n - 1) * sector) sector) x) →
  load_bytes (store_bytes m2 (a + o) buf) a (Z.to_nat (n * sector)) =
    splice (slice plat (st * sector) (n * sector)) o buf.
Proof.
  intros Hp8 Hb8 Hs Ha Hr Hn Hst Ho Hb Hc Hfit H1 H2. assert (0 < n * sector ∧ 0 ≤ (n - 1) * sector) as [Hns Hnl] by nia.
  assert (zlen (slice plat (st * sector) (n * sector)) = n * sector) as Hz by (apply zlen_slice; nia).
  assert (zlen (slice plat (st * sector) sector) = sector) as Hz1 by (apply zlen_slice; nia).
  assert (zlen (slice plat ((st + n - 1) * sector) sector) = sector) as Hz2 by (apply zlen_slice; nia).
  assert (∀ u v, Forall is_u8 (slice plat u v)) as H8 by (intros; by apply Forall_take, Forall_drop).
  apply idx_ext; [rewrite zlen_load, zlen_splice, Hz; lia|]. rewrite zlen_load. intros i Hi.
  rewrite idx_load by lia. rewrite idx_splice by lia. rewrite u64_small by (unfold is_u64; lia).
  destruct ((o <=? i) && (i <? o + zlen buf)) eqn:E; zbool.
  { destruct (idx_lt buf (i - o) ltac:(lia)) as [c Hc']. rewrite Hc'. f_equal.
    apply store_bytes_idx; [lia|lia|done|]. by replace (a + i - (a + o)) with (i - o) by lia. }
  rewrite store_bytes_lookup by lia.
  assert (0 ≤ i < zlen (slice plat (st * sector) (n * sector))) as Hi0 by lia.
  destruct (idx_lt _ _ Hi0) as [c Hi']. rewrite Hi'. f_equal.
  rewrite idx_slice in Hi' by nia.
  replace ((a + o <=? a + i) && (a + i <? a + o + zlen buf)) with false
    by (symmetry; apply andb_false_iff; apply andb_false_iff in E as [E|E]; zbool; lia).
  rewrite H2. destruct (decide ((n - 1) * sector ≤ i)).
  - apply store_bytes_idx; [lia|lia|done|]. rewrite idx_slice by nia. rewrite <-Hi'. f_equal. lia.
  - assert (i < sector) by (apply andb_false_iff in E as [E|E]; zbool; lia).
    rewrite store_bytes_lookup by lia. rewrite (proj2 (Z.leb_gt (a + (n - 1) * sector) (a + i))) by lia. cbn [andb].
    rewrite H1. apply store_bytes_idx; [lia|nia|done|]. rewrite idx_slice by lia. rewrite <-Hi'. f_equal. lia.
Qed.

(** Writing bytes of a disk.  Under the same laws, [ahci_write_sata_bytes] returns 0 and changes exactly the bytes of
    the range: the sectors at its ends, which it reads first, keep the bytes outside of it.  The driver is ready for
    the next command and every page of memory is as free or used as before. *)
Theorem ahci_write_correct port s buf seek :
  port_ok port → drv_ok s → disk_ok (platter (hba s)) → byte_range (platter (hba s)) seek (zlen buf) →
  Forall is_u8 buf → room port (frames s) (sectors_of seek (zlen buf)) →
  ∃ s', ahci_write_sata_bytes fuel port buf seek s = Ok (0, s') ∧
    drv_ok s' ∧ keeps (frames s) (frames s') ∧ platter (hba s') = splice (platter (hba s)) seek buf.
Proof.
  intros Hp Hd Hk Hb Hb8 Hroom. destruct (sectors_facts _ _ _ _ Hp Hk Hb) as (E & Ho & Hst & Hn & Hc & Hfit).
  set (st := seek / sector) in *. set (o := seek mod sector) in *. set (n := sectors_of seek (zlen buf)) in *.
  pose proof (br_sectors _ _ _ Hb) as Hn'. fold n in Hn'. pose proof (pt_range _ Hp) as Hs. pose proof (br_count _ _ _ Hb) as Hb0.
  unfold ahci_write_sata_bytes. erewrite bind_ok by (by eapply sector_range_ok). cbv beta iota zeta. fold st o n.
  replace (st + n - st) with n by lia. rewrite (u64_small n) by (unfold is_u64; lia).
  rewrite (proj2 (Z.ltb_ge _ _)), (proj2 (Z.eqb_neq n 0)) by lia. rewrite (pt_sector _ Hp).
  destruct (buffer_alloc port s n) as (a & f1 & Ea & Hd1 & Ha0 & Ha1 & Hq & Hfree); [done|done|lia|done|].
  erewrite bind_ok by (by apply on_frames_ok). cbv beta.
  assert (0 ≤ (n - 1) * sector < 4294967296) as Hlast by nia.
  rewrite (u64_small (n - 1)), (u64_small ((n - 1) * sector)), (u64_small (a + (n - 1) * sector)), (u64_small (a + o)),
    (u64_small (st + n - 1)) by (unfold is_u64; lia).
  assert (∀ g, keeps f1 g → ∀ m, 0 < m ≤ n → ∃ q, free_run g q (pages_of (table_size port m))) as Hroom1.
  { intros g Hg m Hm. by apply (room_table port f1 g n m). }
  assert (keeps f1 f1) as Hk1 by (split_and!; [apply (dr_frames _ Hd1)|done|done]).
  destruct (sectors_read_ok port (s <| frames := f1 |>) a 1 st Hp Hd1) as (s2 & E2 & Hd2 & Hk2 & Hp2 & Hm2);
    [apply (head_transfer port _ a st n); done || lia|by apply Hroom1; [|lia]|].
  mrun E2. cbn [Z.eqb negb].
  destruct (sectors_read_ok port s2 (a + (n - 1) * sector) 1 (st + n - 1) Hp Hd2) as (s3 & E3 & Hd3 & Hk3 & Hp3 & Hm3);
    [rewrite Hp2, <-Z.add_sub_assoc; apply (part_transfer port _ a st n (n - 1) 1); done || lia|by apply Hroom1; [|lia]|].
  mrun E3. cbn [Z.eqb negb]. pose proof (frames_kept_trans _ _ _ Hk2 Hk3) as Hk13.
  destruct (hl_mem (hba s3) (store_bytes (dma_mem (hba s3)) (a + o) buf) (dr_idle _ Hd3)) as (Hi4 & Hm4 & Hp4).
  set (w4 := set_dma_mem (store_bytes (dma_mem (hba s3)) (a + o) buf) (hba s3)) in *.
  erewrite bind_ok by (by apply (on_hba_ok _ s3 tt w4)). cbv beta.
  assert (drv_ok (s3 <| hba := w4 |>)) as Hd4 by (destruct Hd3; by split).
  destruct (sectors_write_ok port (s3 <| hba := w4 |>) a n st Hp Hd4) as (s5 & E5 & Hd5 & Hk5 & _ & Hp5);
    [apply (head_transfer port _ a st n); cbn; rewrite ?Hp4, ?Hp3, ?Hp2; done || lia|by apply Hroom1; [|lia]|].
  mrun E5. destruct (Hfree _ (frames_kept_trans _ _ _ Hk13 Hk5)) as (f6 & Ef & Hk6).
  erewrite bind_ok by (by apply on_frames_ok). cbv beta.
  eexists. split; [done|]. split; [by apply drv_frames; [done|apply Hk6]|]. split; [done|].
  cbn. rewrite Hp5. cbn. rewrite Hp4, Hp3, Hp2, Hm4.
  rewrite (merged_buffer (dma_mem (hba s)) (dma_mem (hba s2)) (dma_mem (hba s3)) (platter (hba s)) buf a st o n);
    [|by apply Hk|done|lia|lia|lia|lia|lia|done|done|done|done| |].
  - replace o with (seek - st * sector) by lia. apply splice_splice_slice; nia.
  - intros x. rewrite Hm2. by rewrite Z.mul_1_l.
  - intros x. rewrite Hm3. by rewrite Z.mul_1_l, Hp2.
Qed.
End driver.

(** ** A controller with a disk of sectors of 512 bytes *)

(** [failing] makes every command end in a task file error. *)
Record demo_hba : Type := mk_demo {
  demo_mem : bmem;
  demo_disk : list Z;
  pending : option (nat * Z * bmem * list Z);
  failing : bool;
  running : bool
}.

Definition demo_read (r : reg) : stM demo_hba Z := λ w,
  match r with
  | REG_CI =>
      match pending w with
      | None => Ok (0, w)
      | Some (O, slot, m, p) => Ok (0, mk_demo m p None (failing w) (running w))
      | Some (S k, slot, m, p) =>
          Ok (Z.shiftl 1 slot, mk_demo (demo_mem w) (demo_disk w) (Some (k, slot, m, p)) (failing w) (running w))
      end
  | REG_IS => Ok (if failing w then Z.shiftl 1 30 else 0, w)
  | REG_TFD => Ok (if failing w then 1 else 0, w)
  | REG_CMD => Ok (if running w then Z.shiftl 1 15 else 0, w)
  | REG_SCTL => Ok (0, w)
  end.
Definition demo_write (r : reg) (v : Z) : stM demo_hba unit := λ w,
  match r with
  | REG_CMD => Ok (tt, mk_demo (demo_mem w) (demo_disk w) None (failing w) (Z.testbit v 0))
  | _ => Ok (tt, w)
  end.
Definition demo_issue (ci : Z) (hs : list ahci_command_header_t) (ts : gmap Z ahci_command_entry_t) : stM demo_hba unit :=
  λ w, Ok (tt, mk_demo (demo_mem w) (demo_disk w)
    (if failing w then Some (1%nat, Z.log2 ci, demo_mem w, demo_disk w)
     else '(m, p) ← run_command 512 hs ts (Z.log2 ci) (demo_mem w) (demo_disk w); Some (1%nat, Z.log2 ci, m, p))
    (failing w) (running w)).

#[export] Instance demo_Hba : Hba demo_hba := {
  hba_read := demo_read;
  hba_write := demo_write;
  hba_issue := demo_issue;
  dma_mem := demo_mem;
  set_dma_mem m w := mk_demo m (demo_disk w) (pending w) (failing w) (running w)
}.

#[export] Program Instance demo_laws : HbaLaws demo_hba := {
  platter := demo_disk;
  sector := 512;
  patience := 1%nat;
  idle w := pending w = None ∧ failing w = false;
  busy k slot m' p' w := pending w = Some (k, slot, m', p') ∧ failing w = false ∧ 0 ≤ slot
}.
Next Obligation. intros [m p q f r] [H1 H2]. cbn in *. subst. by eexists _. Qed.
Next Obligation. intros [m p q f r] [H1 H2]. cbn in *. subst. by eexists 0, _. Qed.
Next Obligation. intros [m p q f r] [H1 H2]. cbn in *. subst. by eexists 0, _. Qed.
Next Obligation. intros [m p q f r] m' [H1 H2]. by cbn in *; subst. Qed.
Next Obligation.
  intros [m p q f r] slot hs ts m' p' [H1 H2] Hs Hrun. cbn in *. subst. unfold demo_issue. cbn.
  eexists 1%nat, _. split; [done|]. cbn. rewrite Z.shiftl_1_l, Z.log2_pow2, Hrun by lia. cbn. repeat split; lia.
Qed.
Next Obligation.
  intros k slot m' p' [m p q f r] (H1 & H2 & H3). cbn in *. subst. eexists _, _. split; [done|].
  rewrite Z.shiftl_1_l, Z.pow2_bits_true by lia. done.
Qed.
Next Obligation. intros k slot m' p' [m p q f r] (H1 & H2 & H3). cbn in *. subst. by eexists 0, _. Qed.
Next Obligation. intros slot m' p' [m p q f r] (H1 & H2 & H3). cbn in *. subst. eexists 0, _. split; [done|].
  by rewrite Z.bits_0.
Qed.

Definition demo_port : ahci_port_data_t := mk_port_data 1 32 512 4 1.
Definition demo_platter : list Z := map (λ i, i mod 251) (seqZ 0 2048).
Definition ahci_demo : ahci_st pmm_state demo_hba :=
  mk_ahci pmm_demo (mk_demo (λ _, 0) demo_platter None false true) (replicate 32 (mk_header 0 0 0 0 0)) ∅ 0.

Lemma ahci_demo_ok : port_ok demo_port ∧ drv_ok ahci_demo ∧ disk_ok demo_platter.
Proof.
  split_and!.
  - split; vm_compute; (done || congruence || by split).
  - split; [done| |done|vm_compute; done]. split_and!; [apply pmm_demo_wf|done|vm_compute; congruence].
  - split; [|done|vm_compute; congruence|vm_compute; done].
    apply Forall_map, Forall_true. intros i. cbn. unfold is_u8. pose proof (Z.mod_pos_bound i 251). lia.
Qed.

Lemma ahci_demo_room : room demo_port (frames ahci_demo) 2.
Proof.
  assert (∀ k, 6 ≤ k < 6 + 1 → page_used pmm_demo k = false) as H6 by (intros k Hk; by assert (k = 6) as -> by lia).
  split; [by exists 6|]. intros a f' E. exists 6. vm_compute in E. simplify_eq. intros k Hk.
  change (pages_of _) with 1 in Hk. by assert (k = 6) as -> by lia.
Qed.

Lemma ahci_demo_fuel : (patience (W := demo_hba) < 5)%nat.
Proof. cbn. lia. Qed.

(** 30 bytes across the border of two sectors. *)
Lemma ahci_read_correct_witness :
  ∃ s', ahci_read_sata_bytes 5 demo_port 30 500 ahci_demo = Ok ((0, slice demo_platter 500 30), s') ∧
    drv_ok s' ∧ keeps (frames ahci_demo) (frames s') ∧ platter (hba s') = demo_platter.
Proof.
  destruct ahci_demo_ok as (H1 & H2 & H3). apply (ahci_read_correct 5 ahci_demo_fuel demo_port ahci_demo 30 500);
    [exact H1|exact H2|exact H3|split; vm_compute; done|apply ahci_demo_room].
Defined.

Lemma ahci_write_correct_witness :
  ∃ s', ahci_write_sata_bytes 5 demo_port (replicate 30 7) 500 ahci_demo = Ok (0, s') ∧
    drv_ok s' ∧ keeps (frames ahci_demo) (frames s') ∧ platter (hba s') = splice demo_platter 500 (replicate 30 7).
Proof.
  destruct ahci_demo_ok as (H1 & H2 & H3).
  apply (ahci_write_correct 5 ahci_demo_fuel demo_port ahci_demo (replicate 30 7) 500);
    [exact H1|exact H2|exact H3|split; vm_compute; done|by apply Forall_replicate|apply ahci_demo_room].
Defined.

(** ** Findings *)

(** A count of 0xffff sectors, which the callers let through, is encoded as 0, the encoding of 65536 sectors: the command
    asks for one sector more than its scatter list holds. *)
Lemma ahci_full_count port buf offset write :
  sector_size port = 512 → addresses_64 port ≠ 0 → 0 ≤ buf < 2 ^ 47 →
  fis_sectors (transfer_fis port 65535 offset write) = 65536 ∧
  regions_size (regions (transfer_prdts port buf 65535)) = 65535 * 512.
Proof.
  intros Hs Ha Hb. split; [done|]. unfold transfer_prdts. rewrite Hs.
  change (u64 (65535 * 512)) with 33553920. change (u64 (33553920 + 4194304 - 1) / 4194304) with 8.
  destruct (fill_prdts_ok port buf (Z.to_nat 8) 0 33553920) as (_ & E & _); try done; try lia.
Qed.

(** Without 48-bit addresses the sector number keeps its low 24 bits only; bits 24 to 27 belong into the device
    register, which gets none of them. *)
Lemma ahci_lba28_truncates port count write offset : lba48 port = 0 →
  transfer_fis port count (offset + 16777216) write = transfer_fis port count offset write.
Proof.
  intros Hl. unfold transfer_fis. rewrite Hl. cbn [Z.eqb].
  rewrite !Z.shiftr_div_pow2 by lia. change 255 with (Z.ones 8). rewrite !Z.land_ones by lia.
  change (2 ^ 0) with 1. change (2 ^ 8) with 256. change (2 ^ 16) with 65536. f_equal; dlia.
Qed.

(** When all command slots are taken the driver frees the null pointer it got instead of a table: page 0, which the
    page allocator keeps from being handed out, becomes free. *)
Lemma ahci_no_slot_frees_page_0 :
  let s := ahci_demo <| hba := mk_demo (λ _, 0) demo_platter (Some (9%nat, 0, λ _, 0, demo_platter)) false true |> in
  let port := demo_port <| command_slot_count := 1 |> in
  (λ '(r, s'), (r, page_used (frames s) 0, page_used (frames s') 0)) <$>
    (match ahci_io_sata_sectors 5 port 20480 1 0 0 s with Ok p => Some p | Crash _ => None end) = Some (1, true, false).
Proof. vm_compute. reflexivity. Qed.

(** When the identify command fails while it is being waited for, the page for its data is never given back. *)
Lemma ahci_identify_leaks :
  let s := ahci_demo <| hba := mk_demo (λ _, 0) demo_platter None true true |> in
  (λ '(r, s'), (r, map (page_used (frames s)) [5; 6; 7], map (page_used (frames s')) [5; 6; 7])) <$>
    (match ahci_identify_sata 5 demo_port 0 s with Ok p => Some p | Crash _ => None end) =
  Some (demo_port, [false; false; false], [false; true; false]).
Proof. vm_compute. reflexivity. Qed.

(** Reading no bytes succeeds, writing none is an input/output error at the start of a sector. *)
Lemma ahci_empty_transfers :
  (fst <$> (match ahci_read 5 (Some demo_port) 512 0 ahci_demo with Ok p => Some p | Crash _ => None end),
   fst <$> (match ahci_write 5 (Some demo_port) 512 [] ahci_demo with Ok p => Some p | Crash _ => None end)) =
  (Some (0, [], 512), Some (- EIO, 512)).
Proof. vm_compute. reflexivity. Qed.
