(* ===== verification/UserMemory.v ===== *)
(** * Memory for user programs (proc/sched_syscalls.c, proc/syscalls.c)

    [psuedo_mmap], [munmap] and the calls that map memory into another process.
    They use the process table, the page allocator and the page tables: the
    state is the kernel's together with the memory manager's.  A pointer to a
    process is its address, the error the code stores in the register [rdx] is
    part of the result. *)

From S2P Require Import Prelude Locks Pmm Frames Vmm DList Blocks Vfs Kernel Stack Proc Sched SleepQueue Fd.

Definition ESRCH : Z := 3.
Definition ENOMEM : Z := 12.

Record user_st (F : Type) : Type := mk_user { kern : kstate; vm : vmm_state F }.
Arguments mk_user {F} _ _.
Arguments kern {F} _.
Arguments vm {F} _.
#[export] Instance eta_user_st F : Eta (user_st F) := λ r, mk_user (kern r) (vm r).

Definition USER_PERMS : Z := Z.lor (Z.lor VMM_WRITE VMM_USER) VMM_PRESENT.

Section ops.
Context {F : Type} `{!FrameAlloc F}.
Abbreviation uM := (stM (user_st F)).
Abbreviation vM := (stM (vmm_state F)).

Definition on_kern {A} (m : kM A) : uM A := zoom kern (λ k s, s <| kern := k |>) m.
Definition on_vm {A} (m : vM A) : uM A := zoom vm (λ v s, s <| vm := v |>) m.

(** [lock(process->brk_lock)] and its unlock. *)
Definition brk_acquire (process : Z) : kM unit :=
  p ← process_at process;
  match spinlock_lock (brk_lock p) with
  | Ok l => upd_process process (λ p, p <| brk_lock := l |>)
  | Crash c => crashM c
  end.
Definition brk_release (process : Z) : kM unit :=
  upd_process process (λ p, p <| brk_lock := spinlock_unlock (brk_lock p) |>).

(** [memset(GET_HIGHER_HALF(void *, phys), 0, size)] *)
Definition zero_range (phys size : Z) : vM unit :=
  modify (λ s, set_mem (λ a, if (phys <=? a) && (a <? phys + size) then 0 else mem s a) s).

(** Pages [i] to [i + n] of [virt], one at a time; where [phys] ends up, and the page that failed. *)
Fixpoint map_each (n : nat) (i virt cr3 phys : Z) : vM (Z * option Z) :=
  match n with
  | O => mret (phys, None)
  | S n' =>
      err ← vmm_map_pages phys (u64 (virt + i * PAGE)) cr3 1 USER_PERMS;
      let phys := u64 (phys + PAGE) in
      if negb (err =? 0) then mret (phys, Some i) else map_each n' (i + 1) virt cr3 phys
  end.

Definition unmap_each (n virt cr3 : Z) : vM unit :=
  for_loop (Z.to_nat n) 0 (λ i, vmm_unmap_pages (u64 (virt + i * PAGE)) cr3 1 ;; mret tt).

(** Map [len] pages at [virt], or nothing: whether it worked. *)
Definition map_or_undo (len virt cr3 phys : Z) : vM bool :=
  '(phys, failed) ← map_each (Z.to_nat len) 0 virt cr3 phys;
  match failed with
  | Some mapped =>
      unmap_each mapped virt cr3 ;;
      let phys := u64 (phys - PAGE * mapped) in
      vmm_pmm_unalloc phys (u64 (len * PAGE)) ;;
      mret false
  | None => mret true
  end.

(** The result, and what is stored in [rdx]. *)
Definition psuedo_mmap (base len : Z) : uM (Z * option Z) :=
  on_kern sched_acquire ;;
  let len := u64 (len + PAGE - 1) / PAGE in
  process ← on_kern (pid ← get_cur_pid; process_slot pid);
  if process =? 0 then on_kern sched_release ;; mret (0, Some ESRCH)
  else
    phys ← on_vm (vmm_pmm_alloc (u64 (len * PAGE)));
    on_vm (zero_range phys (u64 (len * PAGE))) ;;
    p ← on_kern (process_at process);
    if negb (base =? 0) then
      ok ← on_vm (map_or_undo len base (p_cr3 p) phys);
      on_kern sched_release ;;
      mret (if ok : bool then (base, None) else (0, Some ENOMEM))
    else
      on_kern (brk_acquire process) ;;
      ok ← on_vm (map_or_undo len (current_brk p) (p_cr3 p) phys);
      if ok : bool then
        on_kern (upd_process process (λ p, p <| current_brk := u64 (current_brk p + len * PAGE) |>)) ;;
        on_kern (brk_release process) ;;
        on_kern sched_release ;;
        mret (current_brk p, None)
      else
        on_kern (brk_release process) ;;
        on_kern sched_release ;;
        mret (0, Some ENOMEM).

Fixpoint munmap_loop (n : nat) (addr : Z) : vM unit :=
  match n with
  | O => mret tt
  | S n' =>
      base ← vmm_get_base;
      phys ← virt_to_phys addr base;
      vmm_unmap addr 1 ;;
      (if negb (phys =? NOT_MAPPED) then vmm_pmm_unalloc phys PAGE else mret tt) ;;
      munmap_loop n' (u64 (addr + PAGE))
  end.

Definition munmap (addr len : Z) : uM Z :=
  on_kern sched_acquire ;;
  let len := u64 (len + PAGE - 1) / PAGE in
  process ← on_kern (pid ← get_cur_pid; process_slot pid);
  on_kern sched_release ;;
  if process =? 0 then mret (- ESRCH)
  else if negb (addr =? Z.land addr VMM_4K_PERM_MASK) then mret (- EINVAL)
  else if 140737488355327 <? addr then mret (- EINVAL)
  else on_vm (munmap_loop (Z.to_nat len) addr) ;; mret 0.

(** ** Memory in another process: what is stored in [rdx] *)

(** The next [pages] pages of the area that grows from the process's break. *)
Definition take_brk (process pages : Z) : kM Z :=
  brk_acquire process ;;
  p ← process_at process;
  let mapped_addr := current_brk p in
  upd_process process (λ p, p <| current_brk := u64 (current_brk p + pages * PAGE) |>) ;;
  brk_release process ;;
  mret mapped_addr.

Definition syscall_map_to_process (pid size : Z) : uM Z :=
  on_kern sched_acquire ;;
  k ← gets kern;
  if process_count k <=? pid then on_kern sched_release ;; mret 0
  else
    process ← on_kern (process_slot pid);
    on_kern sched_release ;;
    let pages := u64 (size + PAGE - 1) / PAGE in
    mapped_addr ← on_kern (take_brk process pages);
    phys ← on_vm (vmm_pmm_alloc (u64 (pages * PAGE)));
    on_vm (zero_range phys (u64 (pages * PAGE))) ;;
    p ← on_kern (process_at process);
    on_vm (vmm_map_pages phys mapped_addr (p_cr3 p) pages USER_PERMS) ;;
    mret mapped_addr.

Definition syscall_map_from_us_to_process (pid addr size : Z) : uM Z :=
  m ← on_vm (range_mapped addr size);
  if m =? 0 then mret 0
  else
    t ← on_kern (c ← get_cur_thread; thread_at c);
    phys ← on_vm (virt_to_phys (Z.land addr VMM_4K_PERM_MASK) (r_cr3 (t_regs t)));
    m ← on_vm (range_mapped_in_userspace phys size);
    if m =? 0 then mret 0
    else
      let start := Z.land addr VMM_4K_PERM_MASK in
      let stop := u64 (start + u64 (u64 (size + PAGE - 1) / PAGE * PAGE)) in
      on_kern sched_acquire ;;
      k ← gets kern;
      if zlen (processes k) <=? pid then on_kern sched_release ;; mret 0
      else
        process ← on_kern (process_slot pid);
        on_kern sched_release ;;
        let pages := u64 (stop - start) / PAGE in
        mapped_addr ← on_kern (take_brk process pages);
        p ← on_kern (process_at process);
        on_vm (vmm_map_pages phys mapped_addr (p_cr3 p) pages USER_PERMS) ;;
        mret (u64 (mapped_addr + Z.land addr 4095)).
End ops.
