(* ===== verification/UserMemoryTheorems.v ===== *)
(** * Correctness of memory for user programs

    [psuedo_mmap] gives a process fresh zeroed pages at the requested place or
    at its break; [munmap] takes pages away and returns their frames.  Both are
    proved for any page allocator that keeps the promises of Frames.v. *)

From S2P Require Import Prelude Locks Pmm Frames Vmm VmmTree VmmSpec VmmMap VmmTheorems Kmalloc KmallocTheorems DList Blocks Vfs Kernel Stack Proc Sched SleepQueue Fd UserMemory.

Section laws.
Context {F : Type} `{!FrameAlloc F} `{!FrameAllocLaws F}.
Implicit Types (s : vmm_state F) (u : user_st F) (T : tree).

(** ** Memory that is no page table *)

(** Changing the allocator's view and the contents of pages that hold no table. *)
Lemma frame_write T root s f' m' :
  tree_ok T root s → fa_inv f' → (∀ a, is_u64 (m' a)) →
  (∀ r f, T !! r = Some f → fa_used f' (f / 4096) = true) →
  (∀ r f a, T !! r = Some f → a / 4096 = f / 4096 → m' a = mem s a) →
  tree_ok T root (set_mem m' (set_frames f' s)) ∧
  ∀ v, translate (set_mem m' (set_frames f' s)) root v = translate s root v.
Proof.
  intros Hok Hi Hm Hu Hd.
  assert (∀ r f i, T !! r = Some f → 0 ≤ i < 512 → m' (f + 8 * i) = mem s (f + 8 * i)) as Hag.
  { intros [l pr] f i Hf Hj. destruct (t_frame _ _ _ Hok _ _ _ Hf) as (_ & Ha & _). apply (Hd (l, pr) f); [done|dlia]. }
  split.
  - destruct Hok as [H1 H2 H3 H4 H5 H6 H7]. split; try done; cbn.
    + intros l pr f Hf. destruct (H4 _ _ _ Hf) as (? & ? & [? ?] & ?). split_and!; try done. by eapply Hu.
    + intros l pr f i Hf Hj. rewrite (Hag _ _ _ Hf Hj). by eapply H7.
  - intros v. unfold translate. cbn [mem set_mem set_frames].
    apply (walk_agree _ _ _ _ _ Hok); [|rewrite vpfx_root; apply Hok]. intros l f Hf. apply (Hag _ _ _ Hf), pt_index_range.
Qed.

(** ** Mapping page by page *)

Lemma map_user_page T root s V P : tree_ok T root s → unlocked (vmm_spinlock s) → is_u64 V →
  P mod 4096 = 0 → 0 ≤ P → P + PAGE ≤ U64_MOD → has_room (frames s) 6 → translate s root (Z.land V VMM_4K_PERM_MASK) = None →
  ∃ T' s', vmm_map_pages P V root 1 USER_PERMS s = Ok (0, s') ∧ grows 6 root T s T' s' ∧
    ∀ v, translate s' root v = mapped USER_PERMS (translate s root v) 1 V P v.
Proof.
  intros Hok Hl HV HP HP0 HPn Hroom Hnone.
  assert (Z.land P VMM_4K_PERM_MASK = P) as EP by (rewrite land_mask by (unfold is_u64; lia); dlia).
  destruct (map_pages_ok T root s P V 1 USER_PERMS) as (T' & s' & E & G & W);
    [done|done|done|unfold is_u64; lia|lia|rewrite EP; lia|vm_compute; by split|reflexivity|exact Hroom|].
  exists T', s'. rewrite EP in W. split_and!; [|exact G|exact W]. rewrite E. do 2 f_equal.
  unfold map_ret. change (Z.to_nat 1) with 1%nat. cbn [seq existsb].
  rewrite Z.mul_0_r, Z.add_0_r.
  destruct (mask_aligned V HV) as (_ & _ & Hu). rewrite (u64_small _ Hu), Hnone. done.
Qed.

Lemma map_each_ok n : ∀ T root s V i P, tree_ok T root s → unlocked (vmm_spinlock s) →
  P mod 4096 = 0 → 0 ≤ P → P + PAGE * Z.of_nat n < U64_MOD → Z.of_nat n ≤ 68719476736 → has_room (frames s) (n * 6) →
  (∀ v, page_off (u64 (V + i * PAGE)) v < Z.of_nat n → translate s root v = None) →
  ∃ T' s', map_each n i V root P s = Ok ((P + PAGE * Z.of_nat n, None), s') ∧ grows (n * 6) root T s T' s' ∧
    ∀ v, translate s' root v = mapped USER_PERMS (translate s root v) (Z.of_nat n) (u64 (V + i * PAGE)) P v.
Proof.
  induction n as [|n IH]; intros T root s V i P Hok Hl HP HP0 HPn Hn Hroom Hnone.
  { exists T, s. split_and!; [cbn; by rewrite Z.add_0_r|by apply grows_refl|]. intros v. unfold mapped.
    pose proof (page_off_range (u64 (V + i * PAGE)) v). destruct (translate s root v); [done|].
    by destruct (_ <? _) eqn:E; zbool; [lia|]. }
  set (Vi := u64 (V + i * PAGE)) in *. pose proof (u64_range (V + i * PAGE)) as HVi. fold Vi in HVi.
  destruct (map_user_page T root s Vi P) as (T1 & s1 & E1 & G1 & W1); [done|done|done|done|done|lia| | |].
  { eapply has_room_le; [|exact Hroom]. lia. }
  { apply Hnone. rewrite (proj2 (page_off_0 _ _)) by by apply vpn_mask. lia. }
  cbn [map_each]. fold Vi. mrun E1. cbn [Z.eqb negb]. rewrite (u64_small (P + PAGE)) by (unfold is_u64; lia).
  assert (u64 (V + (i + 1) * PAGE) = u64 (Vi + PAGE)) as Enext.
  { unfold Vi. rewrite u64_add_l. f_equal. lia. }
  destruct (IH T1 root s1 V (i + 1) (P + PAGE)) as (T2 & s2 & E2 & G2 & W2).
  - apply (g_ok _ _ _ _ _ _ G1).
  - destruct (g_regs _ _ _ _ _ _ G1) as (_ & -> & _). done.
  - dlia.
  - lia.
  - lia.
  - lia.
  - apply (g_room _ _ _ _ _ _ G1). eapply has_room_le; [|exact Hroom]. lia.
  - intros v. rewrite Enext, W1. unfold mapped. rewrite page_off_next. intros Hv. pose proof (page_off_range Vi v).
    destruct (page_off Vi v =? 0) eqn:E0; zbool; [lia|].
    rewrite Hnone by lia. by destruct (_ <? 1) eqn:E'; zbool; [lia|].
  - exists T2, s2. rewrite E2. split_and!.
    + do 3 f_equal. lia.
    + apply (grows_weaken (6 + n * 6)); [lia|]. by eapply grows_trans.
    + intros v. rewrite W2, W1, Enext. replace (Z.of_nat (S n)) with (Z.of_nat n + 1) by lia.
      rewrite <-(mapped_next USER_PERMS) by lia. by rewrite (u64_small (P + PAGE)) by (unfold is_u64; lia).
Qed.

(** ** The current process *)

(** The process [p] at [pa] runs, no lock is taken, and its address space is a tree of tables. *)
Record user_ok T u (pa : Z) (p : process_t) : Prop := {
  uk_cur : ∃ t, theap (kern u) !! current_thread (locals (kern u)) = Some t ∧ idx (processes (kern u)) (parent_pid t) = Some pa;
  uk_null : pa ≠ 0;
  uk_process : pheap (kern u) !! pa = Some p;
  uk_sched : unlocked (sched_lock (kern u));
  uk_brk : unlocked (brk_lock p);
  uk_tree : tree_ok T (p_cr3 p) (vm u);
  uk_lock : unlocked (vmm_spinlock (vm u))
}.

Lemma on_kern_ok {A} (m : kM A) u a k : m (kern u) = Ok (a, k) → on_kern m u = Ok (a, u <| kern := k |>).
Proof. intros Hm. unfold on_kern. by apply (zoom_ok kern (λ k u, u <| kern := k |>)). Qed.

Lemma on_vm_ok {A} (m : stM (vmm_state F) A) u a v : m (vm u) = Ok (a, v) → on_vm m u = Ok (a, u <| vm := v |>).
Proof. intros Hm. unfold on_vm. by apply (zoom_ok vm (λ v u, u <| vm := v |>)). Qed.

Lemma current_slot_ok (k : kstate) t pa : theap k !! current_thread (locals k) = Some t →
  idx (processes k) (parent_pid t) = Some pa → (pid ← get_cur_pid; process_slot pid) k = Ok (pa, k).
Proof.
  intros Ht Hpa. mrun (get_cur_pid_ok _ _ Ht). unfold process_slot. mstep. by rewrite (of_opt_ok _ _ k Hpa).
Qed.

Lemma brk_acquire_ok (k : kstate) pa p : pheap k !! pa = Some p → unlocked (brk_lock p) →
  brk_acquire pa k = Ok (tt, k <| pheap := <[pa := p <| brk_lock := Z.lor (brk_lock p) 1 |>]> (pheap k) |>).
Proof.
  intros Hp Hl. unfold brk_acquire. mrun (process_at_ok _ _ _ Hp). rewrite spinlock_lock_free by done.
  by rewrite (upd_process_ok _ _ _ _ Hp).
Qed.

(** ** Fresh memory *)

Lemma pages_exact n : 0 < n → n * PAGE + PAGE < U64_MOD → pages_of (n * PAGE) = n.
Proof. intros H0 H1. rewrite pages_of_exact by lia. dlia. Qed.

(** Allocating and clearing [n] pages changes no translation. *)
Lemma alloc_zeroed T root s n : tree_ok T root s → 0 < n → n * PAGE + PAGE < U64_MOD → (∃ q, free_run (frames s) q n) →
  ∃ q s1 s', vmm_pmm_alloc (n * PAGE) s = Ok (q * PAGE, s1) ∧ zero_range (q * PAGE) (n * PAGE) s1 = Ok (tt, s') ∧
    free_run (frames s) q n ∧ 0 < q ∧ q + n ≤ PHYS_PAGES ∧ tree_ok T root s' ∧ same_regs s s' ∧ flushed s' = flushed s ∧
    fa_alloc (n * PAGE) (frames s) = Ok (q * PAGE, frames s') ∧
    (∀ k, fa_used (frames s') k = (fa_used (frames s) k || in_run q n k)%bool) ∧
    (∀ a, mem s' a = if in_run q n (a / 4096) then 0 else mem s a) ∧
    ∀ v, translate s' root v = translate s root v.
Proof.
  intros Hok Hn Hb [q0 Hq0]. pose proof (t_alloc _ _ _ Hok) as Hi.
  destruct (fa_alloc_spec (frames s) (n * PAGE) Hi) as [(q & f & E & Hfr & Hi' & Hsz & Hif & Hu)|[_ Hno]]; [lia|lia| |].
  2: { rewrite pages_exact in Hno by lia. by destruct (Hno q0). }
  rewrite pages_exact in Hfr, Hu by lia.
  pose proof (fa_used_bound _ _ Hi (Hfr q ltac:(lia))). pose proof (fa_used_bound _ _ Hi (Hfr (q + n - 1) ltac:(lia))).
  pose proof (fa_size_bound _ Hi) as Hmax.
  set (m' := λ a, if (q * PAGE <=? a) && (a <? q * PAGE + n * PAGE) then 0 else mem s a).
  assert (∀ a, m' a = if in_run q n (a / 4096) then 0 else mem s a) as Hm'.
  { intros a. unfold m', in_run. replace ((q <=? a / 4096) && (a / 4096 <? q + n))
      with ((q * PAGE <=? a) && (a <? q * PAGE + n * PAGE)); [done|].
    apply eq_true_iff_eq. rewrite !andb_true_iff, !Z.leb_le, !Z.ltb_lt. dlia. }
  assert (∀ r g, T !! r = Some g → in_run q n (g / 4096) = false) as Hout.
  { intros [l pr] g Hg. destruct (t_frame _ _ _ Hok _ _ _ Hg) as (_ & _ & _ & Hused).
    destruct (in_run q n (g / 4096)) eqn:Er; [|done]. unfold in_run in Er. zbool. rewrite (Hfr (g / 4096)) in Hused; [done|lia]. }
  destruct (frame_write T root s f m') as [Hok' Htr]; [done|done| | | |].
  { intros a. rewrite Hm'. destruct (in_run _ _ _); [done|apply Hok]. }
  { intros [l pr] g Hg. rewrite Hu. destruct (t_frame _ _ _ Hok _ _ _ Hg) as (_ & _ & _ & ->). done. }
  { intros r g a Hg Ha. rewrite Hm', Ha, (Hout _ _ Hg). done. }
  exists q, (set_frames f s), (set_mem m' (set_frames f s)). split_and!; try done; try lia.
  unfold vmm_pmm_alloc. by apply (zoom_ok frames set_frames).
Qed.

(** The break after a call that maps [n] pages. *)
Definition brk_after (base n : Z) (p : process_t) : process_t :=
  if base =? 0 then p <| current_brk := u64 (current_brk p + n * PAGE) |> else p.

(** The call, given the runs of its parts. *)
Lemma mmap_run T u pa p base len n q s1 s2 s3 : user_ok T u pa p → 0 < len → len + 2 * PAGE < U64_MOD →
  n = (len + PAGE - 1) / PAGE → vmm_pmm_alloc (n * PAGE) (vm u) = Ok (q * PAGE, s1) →
  zero_range (q * PAGE) (n * PAGE) s1 = Ok (tt, s2) →
  map_or_undo n (if base =? 0 then current_brk p else base) (p_cr3 p) (q * PAGE) s2 = Ok (true, s3) →
  psuedo_mmap base len u = Ok ((if base =? 0 then current_brk p else base, None),
    mk_user (kern u <| pheap := <[pa := brk_after base n p]> (pheap (kern u)) |>) s3).
Proof.
  intros [(t & Ht & Hpa) Hnull Hproc Hs Hb Hok Hl] Hlen Hmax En E1 E2 E3.
  assert (0 < n ∧ n * PAGE + PAGE < U64_MOD) as [Hn0 Hn1] by (subst n; split; dlia).
  unfold psuedo_mmap. erewrite bind_ok by (by apply on_kern_ok, sched_acquire_ok). cbv beta.
  rewrite (u64_small (len + PAGE - 1)) by (unfold is_u64; lia). rewrite <-En.
  erewrite bind_ok by (apply on_kern_ok; by apply (current_slot_ok _ t pa)). cbv beta.
  rewrite (proj2 (Z.eqb_neq _ _) Hnull). rewrite (u64_small (n * PAGE)) by (unfold is_u64; lia).
  erewrite bind_ok by (by apply on_vm_ok). cbv beta. erewrite bind_ok by (apply on_vm_ok; exact E2). cbv beta.
  erewrite bind_ok by (apply on_kern_ok; by apply process_at_ok). cbv beta.
  unfold brk_after in *. destruct (base =? 0); cbn [negb].
  - erewrite bind_ok by (apply on_kern_ok; by apply (brk_acquire_ok _ _ p)). cbv beta.
    erewrite bind_ok by (apply on_vm_ok; exact E3). cbv beta iota.
    erewrite bind_ok by (apply on_kern_ok; apply upd_process_ok, lookup_insert_eq). cbv beta.
    erewrite bind_ok by (apply on_kern_ok; apply upd_process_ok, lookup_insert_eq). cbv beta.
    erewrite bind_ok by (by apply on_kern_ok). cbv beta. unfold mret, stM_ret. do 3 f_equal.
    destruct u as [k v], k, p. cbn in *. by rewrite !insert_insert_eq, !lock_unlock.
  - erewrite bind_ok by (apply on_vm_ok; exact E3). cbv beta iota.
    erewrite bind_ok by (by apply on_kern_ok). cbv beta. unfold mret, stM_ret. do 3 f_equal.
    destruct u as [k v], k. cbn in *. by rewrite insert_id, lock_unlock.
Qed.

(** C24: getting memory.  When the pages from the requested address on (from the break, when none is requested) are not
    mapped and there is enough memory, [psuedo_mmap] maps exactly these pages, writable, to frames that were free and that
    are cleared; it returns the address, moves the break past the pages it took from there, changes no other
    translation, no other memory in use and nothing else of the kernel, and releases every lock. *)
Theorem psuedo_mmap_correct T u pa p base len :
  user_ok T u pa p → 0 < len → len + 2 * PAGE < U64_MOD → is_u64 base → is_u64 (current_brk p) →
  let n := (len + PAGE - 1) / PAGE in let V := if base =? 0 then current_brk p else base in let root := p_cr3 p in
  n ≤ 68719476736 → (∀ v, page_off V v < n → translate (vm u) root v = None) →
  (∃ q, free_run (frames (vm u)) q n) →
  (∀ a f, fa_alloc (n * PAGE) (frames (vm u)) = Ok (a, f) → has_room f (Z.to_nat n * 6)) →
  ∃ q T' u', psuedo_mmap base len u = Ok ((V, None), u') ∧ user_ok T' u' pa (brk_after base n p) ∧
    kern u' = kern u <| pheap := <[pa := brk_after base n p]> (pheap (kern u)) |> ∧
    free_run (frames (vm u)) q n ∧
    (∀ v, translate (vm u') root v =
       if page_off V v <? n then Some (q * PAGE + PAGE * page_off V v + v mod PAGE, USER_PERMS) else translate (vm u) root v) ∧
    (∀ a, in_run q n (a / PAGE) = true → mem (vm u') a = 0) ∧
    (∀ a, fa_used (frames (vm u)) (a / PAGE) = true → (∀ r, T !! r ≠ Some (PAGE * (a / PAGE))) → mem (vm u') a = mem (vm u) a).
Proof.
  intros Hok Hlen Hmax Hbase Hbrk n V root Hn Hnone Hfree Hroom. pose proof (uk_tree _ _ _ _ Hok) as Htree. fold root in Htree.
  assert (0 < n ∧ n * PAGE + PAGE < U64_MOD) as [Hn0 Hn1] by (subst n; split; dlia).
  assert (is_u64 V) as HV by (unfold V; by destruct (base =? 0)).
  destruct (alloc_zeroed T root (vm u) n Htree Hn0 Hn1 Hfree)
    as (q & s1 & s2 & E1 & E2 & Hfr & Hq & Hqn & Hok2 & (_ & Hl2 & _) & Hfl & Ea & Hu2 & Hm2 & Htr2).
  destruct (map_each_ok (Z.to_nat n) T root s2 V 0 (q * PAGE)) as (T' & s3 & E3 & G & W);
    [done|rewrite Hl2; apply Hok|dlia|lia|unfold PHYS_PAGES in *; lia|lia|by eapply Hroom| |].
  { intros v Hv. rewrite Htr2. apply Hnone. revert Hv. rewrite Z.add_0_r, u64_small by done. lia. }
  assert (map_or_undo n V root (q * PAGE) s2 = Ok (true, s3)) as E4 by (unfold map_or_undo; by mrun E3).
  assert (∀ a, fa_used (frames s2) (a / PAGE) = true → (∀ r, T !! r ≠ Some (PAGE * (a / PAGE))) →
            mem s3 a = if in_run q n (a / PAGE) then 0 else mem (vm u) a) as Hm3.
  { intros a Ha HT. rewrite <-Hm2. by apply (g_data _ _ _ _ _ _ G). }
  eexists q, T', _. split; [by eapply mmap_run|]. pose proof (g_regs _ _ _ _ _ _ G) as (_ & Hl3 & _). split_and!; cbn [kern vm].
  - destruct Hok as [H1 H2 H3 H4 H5 H6 H7]. split; cbn; try done.
    + by rewrite lookup_insert_eq.
    + unfold brk_after. by destruct (base =? 0).
    + unfold brk_after. destruct (base =? 0); apply (g_ok _ _ _ _ _ _ G).
    + congruence.
  - done.
  - done.
  - intros v. rewrite W. unfold mapped. rewrite Htr2, Z.add_0_r, (u64_small V), Z2Nat.id by (done || lia).
    destruct (page_off V v <? n) eqn:Ev; zbool; [by rewrite Hnone|by destruct (translate _ _ _)].
  - intros a Ha. rewrite Hm3; [by rewrite Ha|by rewrite Hu2, Ha, orb_true_r|].
    intros [l pr] Hr. destruct (t_frame _ _ _ Htree _ _ _ Hr) as (_ & _ & _ & Hused).
    unfold in_run in Ha. zbool. rewrite (Hfr (PAGE * (a / PAGE) / PAGE)) in Hused; [done|dlia].
  - intros a Ha HT. rewrite Hm3; [|by rewrite Hu2, Ha|done].
    destruct (in_run q n (a / PAGE)) eqn:Er; [|done]. unfold in_run in Er. zbool. rewrite Hfr in Ha; [done|lia].
Qed.

(** ** Taking pages away *)

(** A page without the huge flag is in a page table. *)
Lemma small_page T root s v pa fl : tree_ok T root s → translate s root v = Some (pa, fl) → has fl VMM_HUGE = false →
  is_Some (T !! (0%nat, vpfx 0 v)).
Proof.
  intros Hok Htr Hh. pose proof (t_root _ _ _ Hok) as F3. rewrite <-(vpfx_root v) in F3. unfold translate in Htr.
  assert (∀ l f, T !! (S l, vpfx (S l) v) = Some f → walk (mem s) (S l) f v = Some (pa, fl) →
    ∃ f', T !! (l, vpfx l v) = Some f' ∧ walk (mem s) l f' v = Some (pa, fl)) as Hdown.
  { intros l f Hf Hw. destruct (t_frame _ _ _ Hok _ _ _ Hf) as [Hle _].
    pose proof (t_entry _ _ _ Hok _ _ _ _ Hf (pt_index_range (S l) v)) as He. rewrite <-vpfx_step in He by lia.
    cbn [walk] in Hw. unfold entry_ok in He. destruct (T !! (l, vpfx l v)) as [f'|] eqn:E.
    - destruct He as (Hf' & Hp & Hhuge). rewrite Hp, Hf' in Hw. exists f'. split; [done|].
      destruct l; [|done]. by rewrite Hhuge in Hw.
    - destruct He as [H0|(-> & Hp & Hhuge & _)]; [by rewrite H0 in Hw|]. rewrite Hp, Hhuge in Hw. cbn in Hw. simplify_eq.
      rewrite has_huge in *. rewrite <-(Z.mod_pow2_bits_low _ 12 7) in Hhuge by lia. change (2 ^ 12) with 4096 in Hhuge.
      congruence. }
  destruct (Hdown _ _ F3 Htr) as (f2 & F2 & W2). destruct (Hdown _ _ F2 W2) as (f1 & F1 & W1).
  destruct (Hdown _ _ F1 W1) as (f0 & F0 & _). by exists f0.
Qed.

(** The parts of the state that taking pages away keeps. *)
Definition same_but_pages T s s' : Prop :=
  cr3 s' = cr3 s ∧ vmm_spinlock s' = vmm_spinlock s ∧ fa_size (frames s') = fa_size (frames s) ∧
  ∀ a, (∀ r, T !! r ≠ Some (PAGE * (a / PAGE))) → mem s' a = mem s a.

Lemma same_but_pages_trans T s1 s2 s3 : same_but_pages T s1 s2 → same_but_pages T s2 s3 → same_but_pages T s1 s3.
Proof.
  intros (A1 & B1 & C1 & D1) (A2 & B2 & C2 & D2). split_and!; [congruence..|]. intros a Ha. rewrite D2, D1; done.
Qed.

Lemma frame0_plain_kept T root s s' : tree_ok T root s → same_but_pages T s s' → frame0_plain s → frame0_plain s'.
Proof.
  intros Hok (_ & _ & _ & Hm) H0 i Hi. rewrite Hm; [by apply H0|].
  intros [l pr] Hr. destruct (t_frame _ _ _ Hok _ _ _ Hr) as (_ & _ & Hf & _). dlia.
Qed.

Lemma unmap_present T root s V : tree_ok T root s → unlocked (vmm_spinlock s) → is_Some (T !! (0%nat, vpfx 0 V)) →
  ∃ r s', vmm_unmap_pages V root 1 s = Ok (r, s') ∧ tree_ok T root s' ∧ same_but_pages T s s' ∧
    (∀ q, fa_used (frames s') q = fa_used (frames s) q) ∧
    ∀ v, translate s' root v = if vpn v =? vpn V then None else translate s root v.
Proof.
  intros Hok Hl [f Hf]. unfold vmm_unmap_pages. rewrite enter_ok by done. set (se := entered s).
  pose proof (entered_tree _ _ _ Hok) as Hoke. fold se in Hoke.
  destruct (get_table_present T root se V f Hoke Hf) as (ptr & Eg & Ep). pose proof (pt_index_range 0 V) as Hi.
  change (Z.to_nat 1) with 1%nat. cbn [unmap_loop].
  set (e := mem se (f + 8 * pt_index 0 V)).
  set (s2 := if has e VMM_PRESENT then set_mem (mem_upd (mem se) (f + 8 * pt_index 0 V) 0) se else se).
  assert (tree_ok T root s2 ∧ (∀ v, translate s2 root v = if vpn v =? vpn V then None else translate se root v)) as [Hok2 W2].
  { unfold s2. destruct (has e VMM_PRESENT) eqn:Hp.
    - split; [by eapply leaf_write_tree|]. intros v. by rewrite (leaf_write_translate _ _ _ Hoke _ _ _ _ Hf Hi), <-vpn_split.
    - split; [done|]. intros v. destruct (vpn v =? vpn V) eqn:Ev; zbool; [|done].
      rewrite !vpn_split in Ev. pose proof (pt_index_range 0 v). assert (vpfx 0 v = vpfx 0 V ∧ pt_index 0 v = pt_index 0 V) as [E1 E2] by lia.
      rewrite (leaf_entry T root se v f Hoke) by by rewrite E1. unfold leaf. rewrite E2. fold e. by rewrite Hp. }
  assert (frames s2 = frames se ∧ cr3 s2 = cr3 se ∧ vmm_spinlock s2 = vmm_spinlock se) as (Ef & Ec & El)
    by (unfold s2; by destruct (has e VMM_PRESENT)).
  set (r := if has e VMM_PRESENT then 0 else 1).
  assert ((ptrs ← vmm_get_table (vmm_virt_to_offs V) root; e ← get_entry (ptr_p1 ptrs) (p1_off (vmm_virt_to_offs V));
    ret ← (if has e VMM_PRESENT then set_entry (ptr_p1 ptrs) (p1_off (vmm_virt_to_offs V)) 0 ;; mret 0 else mret 1);
    vmm_invlpg V ;; mret ret) se = Ok (r, set_flushed (flushed s2 ++ [V]) s2)) as Erun.
  { mrun Eg. rewrite Ep, offs_index. cbn [p1_off]. mrun (get_entry_ok _ _ _ Hoke _ _ _ _ Hf Hi). fold e. unfold s2, r.
    destruct (has e VMM_PRESENT); [|done].
    erewrite bind_ok; [|erewrite bind_ok by (by eapply set_entry_ok); reflexivity]. done. }
  mrun Erun. rewrite leave_ok. eexists r, _. split; [reflexivity|].
  assert (vmm_spinlock (left_ (check_interrupts (fa_cpu (frames s))) (set_flushed (flushed s2 ++ [V]) s2)) = vmm_spinlock s) as Elock.
  { cbn. rewrite El. cbn. by apply lock_unlock. }
  split_and!.
  - pose proof (set_cpu_tree _ _ _ (interrupt_unlock (check_interrupts (fa_cpu (frames s))) (fa_cpu (frames s2))) Hok2) as [].
    by split.
  - split_and!; [exact Ec|exact Elock|cbn; by rewrite Ef; cbn; rewrite !fa_size_set_cpu|].
    intros a Ha. cbn. unfold s2. destruct (has e VMM_PRESENT); [|done]. cbn. unfold mem_upd.
    destruct (a =? _) eqn:Ea; zbool; [|done]. exfalso. apply (Ha (0%nat, vpfx 0 V)). rewrite Hf. f_equal.
    destruct (t_frame _ _ _ Hok _ _ _ Hf) as (_ & Hal & _). dlia.
  - intros q. cbn. rewrite Ef. cbn. by rewrite !fa_used_set_cpu.
  - intros v. exact (W2 v).
Qed.

(** Giving a frame back that is no table. *)
Lemma free_frame T root s q : tree_ok T root s → 0 < q < fa_size (frames s) → (∀ r, T !! r ≠ Some (q * PAGE)) →
  ∃ s', vmm_pmm_unalloc (q * PAGE) PAGE s = Ok (tt, s') ∧ tree_ok T root s' ∧ same_but_pages T s s' ∧
    (∀ k, fa_used (frames s') k = (fa_used (frames s) k && negb (k =? q))%bool) ∧
    ∀ v, translate s' root v = translate s root v.
Proof.
  intros Hok Hq HT. destruct (fa_free_spec (frames s) q PAGE) as (f & E & Hi & Hsz & _ & Hu);
    [apply Hok|lia|lia|lia|rewrite pages_of_page; lia|]. rewrite pages_of_page in Hu.
  assert (∀ k, in_run q 1 k = (k =? q)) as Hrun.
  { intros k. unfold in_run. apply eq_true_iff_eq. rewrite andb_true_iff, Z.leb_le, Z.ltb_lt, Z.eqb_eq. lia. }
  exists (set_frames f s). split; [by apply (zoom_ok frames set_frames)|].
  destruct (frame_write T root s f (mem s)) as [Hok' Htr]; [done|done|apply Hok| |done|].
  { intros [l pr] g Hg. destruct (t_frame _ _ _ Hok _ _ _ Hg) as (_ & Hal & _ & Hused). rewrite Hu, Hrun, Hused.
    destruct (g / 4096 =? q) eqn:Eq; zbool; [|done]. destruct (HT (l, pr)). rewrite Hg. f_equal. dlia. }
  change (set_mem (mem s) (set_frames f s)) with (set_frames f s) in *.
  split_and!; try done. intros k. cbn. by rewrite Hu, Hrun.
Qed.

(** The pages [V, V + n) are mapped to frames of their own, none of which is a table. *)
Record owned T root s (V n : Z) (fr fl : Z → Z) : Prop := {
  ow_map k : 0 ≤ k < n → translate s root (u64 (V + PAGE * k)) = Some (fr k * PAGE, fl k);
  ow_small k : 0 ≤ k < n → has (fl k) VMM_HUGE = false;
  ow_range k : 0 ≤ k < n → 0 < fr k < fa_size (frames s);
  ow_data k r : 0 ≤ k < n → T !! r ≠ Some (fr k * PAGE);
  ow_inj j k : 0 ≤ j < n → 0 ≤ k < n → fr j = fr k → j = k
}.

Lemma munmap_loop_ok n : ∀ T root s V fr fl, tree_ok T root s → unlocked (vmm_spinlock s) → frame0_plain s → cr3 s = root →
  is_u64 V → Z.of_nat n ≤ 68719476736 → owned T root s V (Z.of_nat n) fr fl →
  ∃ s', munmap_loop n V s = Ok (tt, s') ∧ tree_ok T root s' ∧ same_but_pages T s s' ∧
    (∀ v, translate s' root v = if page_off V v <? Z.of_nat n then None else translate s root v) ∧
    ∀ q, fa_used (frames s') q = true ↔ fa_used (frames s) q = true ∧ ∀ k, 0 ≤ k < Z.of_nat n → q ≠ fr k.
Proof.
  induction n as [|n IH]; intros T root s V fr fl Hok Hl H0 Hroot HV Hn Ho.
  { exists s. split_and!; try done.
    - intros v. pose proof (page_off_range V v). by destruct (_ <? _) eqn:E; zbool; [lia|].
    - intros q. split; [|by intros [? _]]. intros Hq. split; [done|lia]. }
  pose proof (ow_map _ _ _ _ _ _ _ Ho 0 ltac:(lia)) as Hm. rewrite Z.mul_0_r, Z.add_0_r, (u64_small V HV) in Hm.
  pose proof (small_page _ _ _ _ _ _ Hok Hm (ow_small _ _ _ _ _ _ _ Ho 0 ltac:(lia))) as HT.
  pose proof (ow_range _ _ _ _ _ _ _ Ho 0 ltac:(lia)) as Hfr0. pose proof (fa_size_bound _ (t_alloc _ _ _ Hok)) as Hmax.
  cbn [munmap_loop]. mstep. rewrite Hroot. mrun (virt_to_phys_ok _ _ _ V Hok H0). rewrite Hm.
  destruct (unmap_present T root s V Hok Hl HT) as (r & s1 & E1 & Hok1 & K1 & U1 & W1).
  assert (vmm_unmap V 1 s = Ok (r, s1)) as E1' by (unfold vmm_unmap; mstep; by rewrite Hroot).
  mrun E1'. rewrite (proj2 (Z.eqb_neq _ _)) by (unfold NOT_MAPPED, PHYS_PAGES in *; lia). cbn [negb].
  pose proof K1 as (C1 & L1 & S1 & _).
  destruct (free_frame T root s1 (fr 0) Hok1) as (s2 & E2 & Hok2 & K2 & U2 & W2);
    [by rewrite S1|intros r'; apply (ow_data _ _ _ _ _ _ _ Ho); lia|]. mrun E2. pose proof K2 as (C2 & L2 & S2 & _).
  pose proof (same_but_pages_trans _ _ _ _ K1 K2) as K12.
  destruct (IH T root s2 (u64 (V + PAGE)) (λ k, fr (k + 1)) (λ k, fl (k + 1))) as (s3 & E3 & Hok3 & K3 & W3 & U3);
    [done|by rewrite L2, L1|exact (frame0_plain_kept _ _ _ _ Hok K12 H0)|congruence|apply u64_range|lia| |].
  { destruct Ho as [O1 O2 O3 O4 O5]. split.
    - intros k Hk. rewrite u64_add_l, W2, W1. replace (V + PAGE + PAGE * k) with (V + PAGE * (k + 1)) by lia.
      destruct (_ =? _) eqn:Ev; zbool; [|by apply O1; lia]. apply page_off_0 in Ev. rewrite page_off_later in Ev by lia. lia.
    - intros k Hk. apply O2. lia.
    - intros k Hk. rewrite S2, S1. apply O3. lia.
    - intros k r' Hk. apply O4. lia.
    - intros j k Hj Hk E. apply O5 in E; lia. }
  exists s3. rewrite E3. split_and!; [done|done|by eapply same_but_pages_trans| |].
  - intros v. rewrite W3, W2, W1, page_off_next. pose proof (page_off_range V v).
    destruct (vpn v =? vpn V) eqn:Ev; zbool; [apply page_off_0 in Ev|rewrite <-page_off_0 in Ev].
    + rewrite Ev. cbn [Z.eqb]. rewrite (proj2 (Z.ltb_lt 0 _)) by lia. by destruct (_ <? _).
    + rewrite (proj2 (Z.eqb_neq _ _) Ev).
      by destruct (page_off V v - 1 <? Z.of_nat n) eqn:A, (page_off V v <? Z.of_nat (S n)) eqn:B; zbool; try lia.
  - intros q. rewrite U3, U2, U1, andb_true_iff, negb_true_iff, Z.eqb_neq. split.
    + intros [[Hq Hq0] Hk]. split; [done|]. intros k Hk'. destruct (decide (k = 0)) as [->|]; [done|].
      replace k with (k - 1 + 1) by lia. apply Hk. lia.
    + intros [Hq Hk]. split; [split; [done|apply Hk; lia]|]. intros k Hk'. apply Hk. lia.
Qed.

(** C25: giving memory back.  When the pages of the range are mapped to frames of their own, [munmap] returns 0, the pages of the
    range, and only these, are no longer mapped, and their frames, and only these, are free again; memory outside of
    the page tables, the tables themselves and the kernel's other state are as before.  An address that is not
    page aligned or not in the lower half is refused and nothing changes. *)
Theorem munmap_correct T u pa p addr len :
  user_ok T u pa p → is_u64 addr → 0 ≤ len → len + PAGE - 1 < U64_MOD →
  let n := (len + PAGE - 1) / PAGE in let root := p_cr3 p in
  (addr mod PAGE ≠ 0 ∨ 140737488355327 < addr → munmap addr len u = Ok (- EINVAL, u)) ∧
  ∀ fr fl, addr mod PAGE = 0 → addr ≤ 140737488355327 → n ≤ 68719476736 → frame0_plain (vm u) → cr3 (vm u) = root →
    owned T root (vm u) addr n fr fl →
    ∃ u', munmap addr len u = Ok (0, u') ∧ user_ok T u' pa p ∧ kern u' = kern u ∧ same_but_pages T (vm u) (vm u') ∧
      (∀ v, translate (vm u') root v = if page_off addr v <? n then None else translate (vm u) root v) ∧
      ∀ q, fa_used (frames (vm u')) q = true ↔ fa_used (frames (vm u)) q = true ∧ ∀ k, 0 ≤ k < n → q ≠ fr k.
Proof.
  intros Hu Ha Hlen Hmax n root. pose proof Hu as [(t & Ht & Hpa) Hnull Hproc Hs Hb Hok Hl].
  assert (∀ A (k : Z → stM (user_st F) A), (on_kern sched_acquire ;;
      process ← on_kern (pid ← get_cur_pid; process_slot pid); on_kern sched_release ;; k process) u = k pa u) as Hhead.
  { intros A k. erewrite bind_ok by (by apply on_kern_ok, sched_acquire_ok). cbv beta.
    erewrite bind_ok by (apply on_kern_ok; by apply (current_slot_ok _ t pa)). cbv beta.
    erewrite bind_ok by (by apply on_kern_ok). cbv beta. f_equal. destruct u as [ks v], ks. cbn in *. by rewrite lock_unlock. }
  unfold munmap. rewrite Hhead, (u64_small (len + PAGE - 1)) by (unfold is_u64; lia). fold n.
  rewrite (proj2 (Z.eqb_neq _ _) Hnull). split.
  - intros Hbad. rewrite land_mask by done. destruct (addr =? _) eqn:E1; zbool; cbn [negb]; [|done].
    rewrite (proj2 (Z.ltb_lt _ _)) by dlia. done.
  - intros fr fl Hal Hlow Hn H0 Hroot Ho. rewrite land_mask by done. rewrite (proj2 (Z.eqb_eq _ _)) by dlia. cbn [negb].
    rewrite (proj2 (Z.ltb_ge _ _)) by lia. assert (0 ≤ n) as Hn0 by (subst n; dlia).
    destruct (munmap_loop_ok (Z.to_nat n) T root (vm u) addr fr fl) as (s' & E & Hok' & K & W & U);
      rewrite ?Z2Nat.id by done; try done.
    erewrite bind_ok by (by apply on_vm_ok). eexists. split; [done|]. rewrite Z2Nat.id in W, U by done.
    split_and!; [|by destruct u|done|exact W|exact U]. destruct K as (_ & L & _). split; cbn; try done; [by exists t|].
    by rewrite L.
Qed.
End laws.

(** ** Witnesses *)

(** The process of the small kernel, with an empty address space in page 1. *)
Definition um_kernel : kstate := demo_kernel <| pheap := {[500 := demo_process <| p_cr3 := 4096 |>]} |>.
Definition um_demo : user_st pmm_state := mk_user um_kernel vm_demo.

Lemma um_demo_ok : user_ok vm_tree um_demo 500 (demo_process <| p_cr3 := 4096 |>).
Proof. split; try done; [by eexists|apply vm_demo_ok]. Qed.

Lemma psuedo_mmap_correct_witness : ∃ q u', psuedo_mmap 0 5000 um_demo = Ok ((DEFAULT_BRK, None), u') ∧
  translate (vm u') 4096 (DEFAULT_BRK + 4097) = Some (q * PAGE + 4097, 7).
Proof.
  destruct (psuedo_mmap_correct vm_tree um_demo 500 (demo_process <| p_cr3 := 4096 |>) 0 5000)
    as (q & T' & u' & E & _ & _ & _ & W & _).
  - exact um_demo_ok.
  - lia.
  - lia.
  - done.
  - done.
  - vm_compute. discriminate.
  - intros v _. unfold translate. cbn [walk]. reflexivity.
  - exists 2. intros k Hk. assert (k = 2 ∨ k = 3) as [-> | ->] by (change ((5000 + PAGE - 1) / PAGE) with 2 in Hk; lia); done.
  - intros a f Ef. vm_compute in Ef. simplify_eq.
    exists [4; 5; 6; 7; 8; 9; 10; 11; 12; 13; 14; 15]. split_and!; [|done|by repeat constructor].
    apply (bool_decide_unpack _). by vm_compute.
  - exists q, u'. split; [exact E|]. rewrite W. vm_compute (page_off _ _ <? _). f_equal. f_equal.
    change (page_off _ _) with 1. change ((DEFAULT_BRK + 4097) mod PAGE) with 1. lia.
Defined.

(** A program with page 5 at address 0; its tables are in pages 1 to 4. *)
Definition own_mem (a : Z) : Z :=
  if a =? 4096 then 8199 else if a =? 8192 then 12295 else if a =? 12288 then 16391 else if a =? 16384 then 20487 else 0.
Definition own_tree : tree := {[(3%nat, 0) := 4096; (2%nat, 0) := 8192; (1%nat, 0) := 12288; (0%nat, 0) := 16384]}.
Definition own_demo : user_st pmm_state :=
  mk_user um_kernel (mk_vmm (mk_pmm [63; 0; 0; 0] 32 106496 0 106496 0 0 cpu0) own_mem 4096 0 [] 0 0).

Lemma own_tree_cases r f : own_tree !! r = Some f →
  (r = (3%nat, 0) ∧ f = 4096) ∨ (r = (2%nat, 0) ∧ f = 8192) ∨ (r = (1%nat, 0) ∧ f = 12288) ∨ (r = (0%nat, 0) ∧ f = 16384).
Proof.
  unfold own_tree. intros [[<- <-]|[_ H]]%lookup_insert_Some; [by left|].
  apply lookup_insert_Some in H as [[<- <-]|[_ H]]; [right; by left|].
  apply lookup_insert_Some in H as [[<- <-]|[_ H]]; [right; right; by left|].
  apply lookup_singleton_Some in H as [<- <-]. by do 3 right.
Qed.

Lemma own_tree_none l i : 0 < i → own_tree !! (l, i) = None.
Proof.
  intros Hi. destruct (own_tree !! (l, i)) as [f|] eqn:E; [|done].
  apply own_tree_cases in E as [[[=] _]|[[[=] _]|[[[=] _]|[[=] _]]]]; lia.
Qed.

Lemma own_mem_other f i : f mod 4096 = 0 → 0 < i < 512 → own_mem (f + 8 * i) = 0.
Proof.
  intros Hf Hi. unfold own_mem.
  rewrite !(proj2 (Z.eqb_neq (f + 8 * i) _)); [done|dlia..].
Qed.

Lemma own_demo_entry l pr f i : own_tree !! (S l, pr) = Some f → 0 ≤ i < 512 →
  entry_ok own_tree l (pr * 512 + i) (own_mem (f + 8 * i)).
Proof.
  intros H Hi. unfold entry_ok. destruct (decide (i = 0)) as [->|Hne].
  - by apply own_tree_cases in H as [[[= -> ->] ->]|[[[= -> ->] ->]|[[[= -> ->] ->]|[[=] _]]]]; vm_compute.
  - apply own_tree_cases in H as [[[= -> ->] ->]|[[[= -> ->] ->]|[[[= -> ->] ->]|[[=] _]]]];
      rewrite own_tree_none, own_mem_other by (done || lia); by left.
Qed.

Lemma own_demo_ok : user_ok own_tree own_demo 500 (demo_process <| p_cr3 := 4096 |>).
Proof.
  split; try done; [by eexists|]. split.
  - split_and!; [split; try done; by repeat constructor|done|done].
  - intros a. cbn. unfold own_mem. repeat destruct (_ =? _); done.
  - done.
  - intros l pr f [[[= -> ->] ->]|[[[= -> ->] ->]|[[[= -> ->] ->]|[[= -> ->] ->]]]]%own_tree_cases; cbn; split_and!; lia || done.
  - intros r1 r2 f [[-> ->]|[[-> ->]|[[-> ->]|[-> ->]]]]%own_tree_cases
      [[-> E]|[[-> E]|[[-> E]|[-> E]]]]%own_tree_cases; done.
  - intros l pr f [[[= -> ->] ->]|[[[= -> ->] ->]|[[[= -> ->] ->]|[[= -> ->] ->]]]]%own_tree_cases Hl;
      [lia|by exists 4096|by exists 8192|by exists 12288].
  - apply own_demo_entry.
Qed.

Lemma own_demo_pages : (4096 + PAGE - 1) / PAGE = 1.
Proof. reflexivity. Qed.

Lemma munmap_correct_witness :
  munmap 5 4096 own_demo = Ok (- EINVAL, own_demo) ∧
  ∃ u', munmap 0 4096 own_demo = Ok (0, u') ∧ translate (vm u') 4096 0 = None ∧
    ¬ fa_used (frames (vm u')) 5 = true ∧ fa_used (frames (vm u')) 4 = true.
Proof.
  split.
  { apply (munmap_correct own_tree own_demo 500 (demo_process <| p_cr3 := 4096 |>) 5 4096);
      [exact own_demo_ok|done|lia|lia|left; vm_compute; discriminate]. }
  destruct (munmap_correct own_tree own_demo 500 (demo_process <| p_cr3 := 4096 |>) 0 4096) as [_ H];
    [exact own_demo_ok|done|lia|lia|].
  destruct (H (λ _, 5) (λ _, 7)) as (u' & E & _ & _ & _ & W & U).
  - done.
  - lia.
  - vm_compute. discriminate.
  - intros i Hi. cbn. destruct (decide (i = 0)) as [->|]; [done|].
    rewrite <-(Z.add_0_l (8 * i)), own_mem_other by (done || lia). done.
  - done.
  - rewrite own_demo_pages. split.
    + intros k Hk. assert (k = 0) as -> by lia. change (translate (vm own_demo) 4096 0 = Some (20480, 7)).
      reflexivity.
    + done.
    + intros k Hk. by vm_compute.
    + intros k r Hk Hr. apply own_tree_cases in Hr as [[_ Hr]|[[_ Hr]|[[_ Hr]|[_ Hr]]]]; done.
    + intros j k Hj Hk _. lia.
  - exists u'. split; [exact E|]. rewrite own_demo_pages in W, U. split; [by rewrite W|]. rewrite !U.
    split; [intros [_ H5]; apply (H5 0); [lia|reflexivity]|split; [vm_compute; reflexivity|lia]].
Defined.

(** ** Findings *)

(** What a run gives, seen through [f]. *)
Definition outcome {S A B} (f : A → S → B) (r : res (A * S)) : option B :=
  match r with Ok (a, s) => Some (f a s) | Crash _ => None end.

(** When a page of the request is mapped already, the frames that are given back are not those that were taken: the physical
    address has been advanced once more than pages were mapped.  Here the request gets frames 6 and 7, the second
    page is mapped already, and frames 7 and 8 are freed: frame 6 is lost, and frame 8, in use by somebody else, is free. *)
Lemma mmap_undo_frees_wrong_frames :
  let m a := if a =? 16400 then 20487 else if a =? 16384 then 0 else own_mem a in
  let u := mk_user um_kernel (mk_vmm (mk_pmm [63; 1; 0; 0] 32 102400 0 102400 0 0 cpu0) m 4096 0 [] 0 0) in
  outcome (λ r u', (r, map (page_used (frames (vm u))) [6; 7; 8], map (page_used (frames (vm u'))) [6; 7; 8]))
    (psuedo_mmap 4096 8192 u) = Some ((0, Some ENOMEM), [false; false; true], [true; false; false]).
Proof. vm_compute. reflexivity. Qed.

(** Only the first address is checked to be in the lower half: a range that starts there and leaves it reaches, through the
    48 bits the tables translate, the first pages of the kernel's direct map. *)
Lemma munmap_reaches_the_kernel :
  let u := mk_user um_kernel heap_demo in
  (translate heap_demo 4096 NORMAL_VMA_OFFSET,
   outcome (λ r u', (r, translate (vm u') 4096 NORMAL_VMA_OFFSET)) (munmap 140737488351232 8192 u)) =
  (Some (0, 131), Some (0, None)).
Proof. vm_compute. reflexivity. Qed.
