(* ===== verification/Pci.v ===== *)
(** * The PCI bus (drivers/pci.c)

    Configuration space is reached through two 32-bit ports: the address of a
    double word of a function's configuration goes to 0xCF8, its contents are
    read and written at 0xCFC.  [PciPorts] is these ports.  The list of devices
    is a block of the kernel heap that grows.  Diagnostics are left out; the
    reads of configuration space they make are kept. *)

From Stdlib Require Import String.
From S2P Require Import Prelude Blocks.

Record pci_device_t : Type := mk_pci {
  valid : Z;
  pci_bus : Z;
  pci_dev : Z;
  pci_fn : Z
}.

Record pci_id_t : Type := mk_pci_id {
  id_class : Z;
  id_subclass : Z;
  id_prog_if : Z;
  id_device : Z;
  id_vendor : Z
}.

(** [port_outd] and [port_ind] (io/ports.h) *)
Class PciPorts (P : Type) := {
  port_outd : Z → Z → stM P unit;
  port_ind : Z → stM P Z
}.

Record pci_st (P : Type) : Type := mk_pcist {
  ports : P;
  pci_devices : block pci_device_t;
  curent_position : Z;
  max_position : Z;
  is_mmio : Z
}.
Arguments mk_pcist {P} _ _ _ _ _.
Arguments ports {P} _.
Arguments pci_devices {P} _.
Arguments curent_position {P} _.
Arguments max_position {P} _.
Arguments is_mmio {P} _.
#[export] Instance eta_pci_st P : Eta (pci_st P) :=
  λ r, mk_pcist (ports r) (pci_devices r) (curent_position r) (max_position r) (is_mmio r).

Definition no_device : pci_device_t := mk_pci 0 0 0 0.

(** ** Names of device classes *)

Definition mass_storage_name (subclass prog_if : Z) : string :=
  match subclass with
  | 0 => "SCSI Bus Controller"
  | 1 => "IDE Controller"
  | 2 => "Floppy Disk Controller"
  | 3 => "IPI Bus Controller"
  | 4 => "RAID Controller"
  | 5 => "ATA Controller"
  | 6 =>
      match prog_if with
      | 0 => "Vendor specific SATA Controller"
      | 1 => "AHCI SATA Controller"
      | 2 => "Serial Storage Bus SATA Controller"
      | _ => "Mass Storage Controller"
      end
  | 7 => "Serial Attached SCSI Controller"
  | 8 =>
      match prog_if with
      | 1 => "NVMHCI Controller"
      | 2 => "NVMe Controller"
      | _ => "Mass Storage Controller"
      end
  | _ => "Mass Storage Controller"
  end.

Definition network_name (subclass : Z) : string :=
  match subclass with
  | 0 => "Ethernet Controller"
  | 1 => "Token Ring Controller"
  | 2 => "FDDI Controller"
  | 3 => "ATM Controller"
  | 4 => "ISDN Controller"
  | 5 => "WorldFip Controller"
  | 6 => "PICMG 2.14 Controller"
  | 7 => "InfiniBand Controller"
  | 8 => "Fabric Controller"
  | _ => "Network Controller"
  end.

Definition bridge_name (subclass : Z) : string :=
  match subclass with
  | 0 => "Host Bridge"
  | 1 => "ISA Bridge"
  | 2 => "EISA Bridge"
  | 3 => "MCA Bridge"
  | 4 => "PCI-to-PCI Bridge"
  | 5 => "PCMCIA Bridge"
  | 6 => "NuBus Bridge"
  | 7 => "CardBus Bridge"
  | 8 => "RACEway Bridge"
  | 9 => "Semi-Transparent PCI-to-PCI Bridge"
  | 10 => "InfiniBand-to-PCI Host Bridge"
  | _ => "Bridge Device"
  end.

Definition system_name (subclass prog_if : Z) : string :=
  match subclass with
  | 0 =>
      match prog_if with
      | 0 => "8259-Compatible PIC"
      | 1 => "ISA-Compatible PIC"
      | 2 => "EISA-Compatible PIC"
      | 16 => "I/O APIC IRQ Controller"
      | 32 => "I/O xAPIC IRQ Controller"
      | _ => "Base System Peripheral"
      end
  | 1 =>
      match prog_if with
      | 0 => "8237-Compatible DMA Controller"
      | 1 => "ISA-Compatible DMA Controller"
      | 2 => "EISA-Compatible DMA Controller"
      | _ => "Base System Peripheral"
      end
  | 2 =>
      match prog_if with
      | 0 => "8254-Compatible PIT"
      | 1 => "ISA-Compatible PIT"
      | 2 => "EISA-Compatible PIT"
      | 3 => "HPET"
      | _ => "Base System Peripheral"
      end
  | 3 => "Real Time Clock"
  | 4 => "PCI Hot-Plug Controller"
  | 5 => "SDHCI"
  | 6 => "IOMMU"
  | _ => "Base System Peripheral"
  end.

Definition serial_bus_name (subclass prog_if : Z) : string :=
  match subclass with
  | 0 =>
      match prog_if with
      | 0 => "Generic FireWire (IEEE 1394) Controller"
      | 16 => "OHCI FireWire (IEEE 1394) Controller"
      | _ => "Serial Bus Controller"
      end
  | 1 => "ACCESS Bus Controller"
  | 2 => "SSA Controller"
  | 3 =>
      match prog_if with
      | 0 => "uHCI USB1 Controller"
      | 16 => "oHCI USB1 Controller"
      | 32 => "eHCI USB2 Controller"
      | 48 => "xHCI USB3 Controller"
      | 254 => "USB Device"
      | _ => "Serial Bus Controller"
      end
  | 4 => "Fibre Channel Controller"
  | 5 => "SMBus"
  | 6 => "InfiniBand Controller"
  | 7 => "IPMI Interface Controller"
  | _ => "Serial Bus Controller"
  end.

Definition device_code_to_string (class_code subclass prog_if : Z) : string :=
  match class_code with
  | 0 => "Undefined"
  | 1 => mass_storage_name subclass prog_if
  | 2 => network_name subclass
  | 3 =>
      match subclass with
      | 0 => "VGA Compatible Controller"
      | 1 => "XGA Controller"
      | 2 => "3D Controller"
      | _ => "Display Controller"
      end
  | 4 => "Multimedia controller"
  | 5 => "Memory Controller"
  | 6 => bridge_name subclass
  | 8 => system_name subclass prog_if
  | 12 => serial_bus_name subclass prog_if
  | _ => "Unknown"
  end.

(** ** Configuration space *)

Definition pci_config_address (bus device function reg : Z) : Z :=
  Z.lor (Z.lor (Z.lor (Z.lor (Z.shiftl 1 31) (Z.shiftl bus 16)) (Z.shiftl (Z.land device 31) 11))
           (Z.shiftl (Z.land function 7) 8)) (Z.ldiff reg 3).

Section ops.
Context {P : Type} `{PciPorts P} (junk : Z → list pci_device_t).
Abbreviation pM := (stM (pci_st P)).

Definition on_ports {A} (m : stM P A) : pM A := zoom ports (λ p s, s <| ports := p |>) m.

Definition pci_pio_read_dword (bus device function reg : Z) : pM Z :=
  on_ports (port_outd 3320 (pci_config_address bus device function reg)) ;;
  on_ports (port_ind 3324).

Definition pci_pio_write_dword (bus device function reg data : Z) : pM unit :=
  on_ports (port_outd 3320 (pci_config_address bus device function reg)) ;;
  on_ports (port_outd 3324 data).

Definition pci_read_dword (bus device function reg : Z) : pM Z :=
  m ← gets is_mmio;
  if m =? 0 then pci_pio_read_dword bus device function reg else pci_pio_read_dword bus device function reg.

Definition pci_write_dword (bus device function reg data : Z) : pM unit :=
  m ← gets is_mmio;
  if m =? 0 then pci_pio_write_dword bus device function reg data else pci_pio_write_dword bus device function reg data.

Definition is_multifunction (bus device : Z) : pM Z :=
  d ← pci_read_dword bus device 0 12; mret (Z.land (u8 (Z.shiftr d 16)) 128).
Definition pci_get_vendor (bus device function : Z) : pM Z :=
  d ← pci_read_dword bus device function 0; mret (u16 d).
Definition pci_get_device_id (bus device function : Z) : pM Z :=
  d ← pci_read_dword bus device function 0; mret (u16 (Z.shiftr d 16)).
Definition check_function (bus device function : Z) : pM bool :=
  v ← pci_get_vendor bus device function; mret (negb (v =? 65535)).
Definition get_header_type (bus device function : Z) : pM Z :=
  d ← pci_read_dword bus device function 12; mret (Z.ldiff (u8 (Z.shiftr d 16)) 128).
Definition get_class (bus device function : Z) : pM Z :=
  d ← pci_read_dword bus device function 8; mret (u8 (Z.shiftr d 24)).
Definition get_subclass (bus device function : Z) : pM Z :=
  d ← pci_read_dword bus device function 8; mret (u8 (Z.shiftr d 16)).
Definition get_prog_if (bus device function : Z) : pM Z :=
  d ← pci_read_dword bus device function 8; mret (u8 (Z.shiftr d 8)).

Definition get_pci_ids (bus device function : Z) : pM pci_id_t :=
  class ← get_class bus device function;
  subclass ← get_subclass bus device function;
  prog_if ← get_prog_if bus device function;
  device_id ← pci_get_device_id bus device function;
  vendor_id ← pci_get_vendor bus device function;
  mret (mk_pci_id class subclass prog_if device_id vendor_id).

Definition get_secondary_bus (bus device function : Z) : pM Z :=
  d ← pci_read_dword bus device function 24; mret (u8 (Z.shiftr d 8)).

Definition pci_get_mmio_bar (device : pci_device_t) (bar : Z) : pM Z :=
  pci_read_dword (pci_bus device) (pci_dev device) (pci_fn device) (u8 (16 + bar * 4)).

Definition pci_get_mmio_bar_size (device : pci_device_t) (bar : Z) : pM Z :=
  bar_saved ← pci_get_mmio_bar device bar;
  pci_write_dword (pci_bus device) (pci_dev device) (pci_fn device) (u8 (16 + bar * 4)) 4294967295 ;;
  ret ← pci_read_dword (pci_bus device) (pci_dev device) (pci_fn device) (u8 (16 + bar * 4));
  let ret := Z.ldiff ret 15 in
  let ret := u32 (u32 (Z.lnot ret) + 1) in
  pci_write_dword (pci_bus device) (pci_dev device) (pci_fn device) (u8 (16 + bar * 4)) bar_saved ;;
  mret ret.

Definition pci_enable_busmastering (device : pci_device_t) : pM unit :=
  c ← pci_read_dword (pci_bus device) (pci_dev device) (pci_fn device) 4;
  if Z.land c 4 =? 0 then
    c ← pci_read_dword (pci_bus device) (pci_dev device) (pci_fn device) 4;
    pci_write_dword (pci_bus device) (pci_dev device) (pci_fn device) 4 (Z.lor c 4)
  else mret tt.

(** ** The list of devices *)

Definition pci_device_count : pM Z := gets curent_position.

Definition get_pci_device (index : Z) : pM pci_device_t :=
  s ← get;
  if curent_position s <=? index then mret no_device
  else d ← of_opt (idx (b_data (pci_devices s)) index); mret (mk_pci 1 (pci_bus d) (pci_dev d) (pci_fn d)).

Definition is_pci_bridge (bus device function : Z) : pM bool :=
  h ← get_header_type bus device function;
  if negb (h =? 1) then mret false
  else
    c ← get_class bus device function;
    if negb (c =? 6) then mret false
    else
      sc ← get_subclass bus device function;
      mret (sc =? 4).

Definition put_device (i : Z) (d : pci_device_t) : pM unit :=
  s ← get;
  let b := pci_devices s in
  if (0 <=? i) && (i <? zlen (b_data b))
  then modify (λ s, s <| pci_devices := mk_block (b_size b) (upd (b_data b) i d) |>)
  else crashM Fault.

Definition add_pci_device (new_device : pci_device_t) : pM unit :=
  s ← get;
  put_device (curent_position s) new_device ;;
  s ← get;
  (if curent_position s =? max_position s then
     match krealloc_block no_device 4 junk (Some (pci_devices s)) (10 + max_position s + 1) with
     | Ok b => modify (λ s, s <| pci_devices := b |> <| max_position := max_position s + 10 |>)
     | Crash c => crashM c
     end
   else mret tt) ;;
  modify (λ s, s <| curent_position := curent_position s + 1 |>).

(** A function that exists: its bus is scanned when it is a bridge, otherwise it is listed. *)
Definition visit (scan : Z → pM unit) (bus dev func : Z) : pM unit :=
  b ← is_pci_bridge bus dev func;
  if b : bool then sec ← get_secondary_bus bus dev func; scan sec
  else add_pci_device (mk_pci 1 bus dev func).

Definition scan_device (scan : Z → pM unit) (bus dev : Z) : pM unit :=
  ok ← check_function bus dev 0;
  if ok : bool then
    visit scan bus dev 0 ;;
    multi ← is_multifunction bus dev;
    if negb (multi =? 0) then
      for_loop 7 1 (λ func,
        ok ← check_function bus dev func;
        if ok : bool then visit scan bus dev func else mret tt)
    else mret tt
  else mret tt.

Fixpoint scan_bus (fuel : nat) (bus : Z) : pM unit :=
  match fuel with
  | O => crashM Hang
  | S fuel' => for_loop 32 0 (scan_device (scan_bus fuel') bus)
  end.

(** [drivers] is the table of drivers. *)
Fixpoint run_drivers (drivers : list (pci_device_t → pM unit)) (d : pci_device_t) : pM unit :=
  match drivers with
  | [] => mret tt
  | f :: fs => f d ;; run_drivers fs d
  end.

Fixpoint announce (n : nat) (drivers : list (pci_device_t → pM unit)) (i : Z) : pM unit :=
  match n with
  | O => mret tt
  | S n' =>
      s ← get;
      dev ← of_opt (idx (b_data (pci_devices s)) i);
      pci_get_vendor (pci_bus dev) (pci_dev dev) (pci_fn dev) ;;
      get_pci_ids (pci_bus dev) (pci_dev dev) (pci_fn dev) ;;
      run_drivers drivers dev ;;
      announce n' drivers (i + 1)
  end.

Definition pci_init (fuel : nat) (drivers : list (pci_device_t → pM unit)) : pM unit :=
  modify (λ s, s <| pci_devices := kcalloc_block no_device 4 junk 10 |> <| max_position := 9 |>) ;;
  scan_bus fuel 0 ;;
  n ← gets curent_position;
  announce (Z.to_nat n) drivers 0.
End ops.

(** ** Correctness of the PCI scan

    [PciLaws] is what the host bridge does with the two ports: it decodes an
    address into bus, device, function and register.  The scan lists exactly
    the functions that can be reached from bus 0 over bridges, and it ends,
    because the bus behind a bridge has a higher number than the bus the bridge
    is on. *)

(** ** The ports *)

Definition addr_bus (a : Z) : Z := (a / 65536) mod 256.
Definition addr_dev (a : Z) : Z := (a / 2048) mod 32.
Definition addr_fn (a : Z) : Z := (a / 256) mod 8.
Definition addr_reg (a : Z) : Z := a mod 256 / 4.

Class PciLaws (P : Type) `{PciPorts P} := {
  (** the configuration: bus, device, function, number of the double word *)
  config : P → Z → Z → Z → Z → Z;
  selected : P → Z;
  pl_select p a : 2147483648 ≤ a < 4294967296 →
    ∃ p', port_outd 3320 a p = Ok (tt, p') ∧ selected p' = a ∧ config p' = config p;
  pl_read p : 2147483648 ≤ selected p < 4294967296 → let a := selected p in
    ∃ p', port_ind 3324 p = Ok (config p (addr_bus a) (addr_dev a) (addr_fn a) (addr_reg a), p') ∧
      selected p' = a ∧ config p' = config p
}.

(** The address the driver sends is decoded to what it asked for. *)
Lemma address_decodes bus dev fn reg : 0 ≤ bus < 256 → 0 ≤ dev < 32 → 0 ≤ fn < 8 → 0 ≤ reg < 256 →
  let a := pci_config_address bus dev fn reg in
  2147483648 ≤ a < 4294967296 ∧ addr_bus a = bus ∧ addr_dev a = dev ∧ addr_fn a = fn ∧ addr_reg a = reg / 4.
Proof.
  intros Hb Hd Hf Hr. unfold pci_config_address.
  change (Z.land dev 31) with (Z.land dev (Z.ones 5)). change (Z.land fn 7) with (Z.land fn (Z.ones 3)).
  change (Z.ldiff reg 3) with (Z.ldiff reg (Z.ones 2)).
  rewrite Z.ldiff_ones_r, !Z.land_ones by lia. rewrite !Z.shiftl_mul_pow2, Z.shiftr_div_pow2 by lia.
  change (2 ^ 31) with 2147483648. change (2 ^ 16) with 65536. change (2 ^ 11) with 2048. change (2 ^ 8) with 256.
  change (2 ^ 5) with 32. change (2 ^ 3) with 8. change (2 ^ 2) with 4. rewrite !(Z.mod_small _ 32), !(Z.mod_small _ 8) by lia.
  rewrite (lor_disjoint 31 (1 * 2147483648) (bus * 65536)) by (lia || dlia).
  rewrite (lor_disjoint 16 _ (dev * 2048)) by (lia || dlia). rewrite (lor_disjoint 11 _ (fn * 256)) by (lia || dlia).
  rewrite (lor_disjoint 8 _ (reg / 4 * 4)) by (lia || dlia). unfold addr_bus, addr_dev, addr_fn, addr_reg. split_and!; dlia.
Qed.

(** ** What a configuration means *)

Section spec.
Context (cfg : Z → Z → Z → Z → Z).

Definition present (b d f : Z) : bool := negb (u16 (cfg b d f 0) =? 65535).
Definition multi (b d : Z) : bool := negb (Z.land (u8 (Z.shiftr (cfg b d 0 3) 16)) 128 =? 0).
Definition bridge (b d f : Z) : bool :=
  (Z.ldiff (u8 (Z.shiftr (cfg b d f 3) 16)) 128 =? 1) && (u8 (Z.shiftr (cfg b d f 2) 24) =? 6) &&
  (u8 (Z.shiftr (cfg b d f 2) 16) =? 4).
Definition secondary (b d f : Z) : Z := u8 (Z.shiftr (cfg b d f 6) 8).

(** A function exists: functions other than 0 count on multifunction devices only. *)
Definition exists_fn (b d f : Z) : bool := present b d 0 && ((f =? 0) || (multi b d && present b d f)).
Definition in_range (b d f : Z) : Prop := 0 ≤ b < 256 ∧ 0 ≤ d < 32 ∧ 0 ≤ f < 8.

(** The buses that can be reached from a bus over bridges. *)
Inductive reach (b : Z) : Z → Prop :=
| reach_here : reach b b
| reach_over d f b' : in_range b d f → exists_fn b d f = true → bridge b d f = true →
    reach (secondary b d f) b' → reach b b'.

(** Firmware numbers the bus behind a bridge higher than the bridge's own. *)
Definition ordered : Prop := ∀ b d f, in_range b d f → exists_fn b d f = true → bridge b d f = true → b < secondary b d f.

(** The list a scan makes, bus by bus. *)
Definition visited (sub : Z → list pci_device_t) (b d f : Z) : list pci_device_t :=
  if bridge b d f then sub (secondary b d f) else [mk_pci 1 b d f].
Definition others (sub : Z → list pci_device_t) (b d : Z) (n : nat) : list pci_device_t :=
  mjoin ((λ f, if present b d f then visited sub b d f else []) <$> seqZ 1 (Z.of_nat n)).
Definition dev_list (sub : Z → list pci_device_t) (b d : Z) : list pci_device_t :=
  if present b d 0 then visited sub b d 0 ++ (if multi b d then others sub b d 7 else []) else [].
Fixpoint listing (n : nat) (b : Z) : list pci_device_t :=
  match n with
  | O => []
  | S n' => mjoin (dev_list (listing n') b <$> seqZ 0 32)
  end.

Lemma elem_dev_list sub b d x : x ∈ dev_list sub b d ↔
  ∃ f, 0 ≤ f < 8 ∧ exists_fn b d f = true ∧ x ∈ visited sub b d f.
Proof.
  unfold dev_list, exists_fn. destruct (present b d 0) eqn:E0; [|split; [by intros ?%elem_of_nil|by intros (f & _ & ? & _)]].
  rewrite elem_of_app. split.
  - intros [Hx|Hx]; [by exists 0|]. destruct (multi b d); [|by apply elem_of_nil in Hx].
    unfold others in Hx. apply list_elem_of_join in Hx as (l & Hx & Hl). apply list_elem_of_fmap in Hl as (f & -> & Hf).
    apply elem_of_seqZ in Hf. destruct (present b d f) eqn:Ef; [|by apply elem_of_nil in Hx].
    exists f. split_and!; [lia..| |done]. cbn. rewrite Ef. apply orb_true_r.
  - intros (f & Hf & He & Hx). destruct (decide (f = 0)) as [->|Hne]; [by left|right].
    rewrite (proj2 (Z.eqb_neq _ _) Hne) in He. cbn in He.
    apply andb_true_iff in He as [-> Hp]. unfold others. apply list_elem_of_join. eexists. split; [exact Hx|].
    apply list_elem_of_fmap. exists f. rewrite Hp. split; [done|]. apply elem_of_seqZ. lia.
Qed.

(** The list of a scan has exactly the functions on the buses that can be reached. *)
Lemma elem_listing : ordered → ∀ n b x, 0 ≤ b < 256 → 256 - b ≤ Z.of_nat n →
  x ∈ listing n b ↔ ∃ b' d f, x = mk_pci 1 b' d f ∧ reach b b' ∧ in_range b' d f ∧ exists_fn b' d f = true ∧ bridge b' d f = false.
Proof.
  intros Ho. induction n as [|n IH]; intros b x Hb Hn; [lia|]. cbn [listing]. rewrite list_elem_of_join.
  assert (∀ d f, in_range b d f → exists_fn b d f = true → bridge b d f = true →
    0 ≤ secondary b d f < 256 ∧ 256 - secondary b d f ≤ Z.of_nat n) as Hsub.
  { intros d f Hr He Hbr. pose proof (Ho _ _ _ Hr He Hbr). assert (0 ≤ secondary b d f < 256) by (unfold secondary, u8; dlia). lia. }
  split.
  - intros (l & Hx & Hl). apply list_elem_of_fmap in Hl as (d & -> & Hd). apply elem_of_seqZ in Hd.
    apply elem_dev_list in Hx as (f & Hf & He & Hx). assert (in_range b d f) as Hr by (split_and!; lia).
    unfold visited in Hx. destruct (bridge b d f) eqn:Eb.
    + destruct (Hsub d f Hr He Eb) as [H1 H2]. apply (IH _ _ H1 H2) in Hx as (b' & d' & f' & -> & Hre & Hrest).
      exists b', d', f'. split; [done|]. split; [by eapply reach_over|done].
    + apply list_elem_of_singleton in Hx as ->. exists b, d, f. split_and!; try done; try apply Hr. constructor.
  - intros (b' & d & f & -> & Hre & Hr & He & Hnb). destruct Hre as [|d0 f0 b' Hr0 He0 Eb0 Hre].
    + exists (dev_list (listing n) b d). split.
      * apply elem_dev_list. exists f. split; [apply Hr|]. split; [done|]. unfold visited. rewrite Hnb. by apply list_elem_of_singleton.
      * apply list_elem_of_fmap. exists d. split; [done|]. apply elem_of_seqZ. destruct Hr as (_ & ? & _). lia.
    + exists (dev_list (listing n) b d0). split.
      * apply elem_dev_list. exists f0. split; [apply Hr0|]. split; [done|]. unfold visited. rewrite Eb0.
        destruct (Hsub d0 f0 Hr0 He0 Eb0) as [H1 H2]. apply (IH _ _ H1 H2). by eexists _, _, _.
      * apply list_elem_of_fmap. exists d0. split; [done|]. apply elem_of_seqZ. destruct Hr0 as (_ & ? & _). lia.
Qed.
End spec.

(** ** The code *)

Section code.
Context {P : Type} {PP : PciPorts P} {PL : PciLaws P} (junk : Z → list pci_device_t).
Implicit Types s : pci_st P.

(** The configuration is [cfg], and the list [l] fits in its block, with room for one more device. *)
Record listed (cfg : Z → Z → Z → Z → Z) (l : list pci_device_t) s : Prop := {
  li_config : config (ports s) = cfg;
  li_block : block_ok 4 (pci_devices s);
  li_max : b_size (pci_devices s) = max_position s + 1;
  li_count : curent_position s = zlen l;
  li_room : curent_position s ≤ max_position s;
  li_data : take (length l) (b_data (pci_devices s)) = l
}.

Lemma on_ports_ok {A} (m : stM P A) s a p : m (ports s) = Ok (a, p) → on_ports m s = Ok (a, s <| ports := p |>).
Proof. intros Hm. unfold on_ports. by apply (zoom_ok ports (λ p s, s <| ports := p |>)). Qed.

Lemma listed_ports cfg l s p : listed cfg l s → config p = cfg → listed cfg l (s <| ports := p |>).
Proof. intros [H1 H2 H3 H4 H5 H6] Hp. by split. Qed.

Lemma read_dword_ok cfg l s b d f r : listed cfg l s → in_range b d f → 0 ≤ r < 256 →
  ∃ s', pci_read_dword b d f r s = Ok (cfg b d f (r / 4), s') ∧ listed cfg l s'.
Proof.
  intros Hl (Hb & Hd & Hf) Hr. destruct (address_decodes b d f r Hb Hd Hf Hr) as (Ha & E1 & E2 & E3 & E4).
  set (a := pci_config_address b d f r) in *.
  destruct (pl_select (ports s) a Ha) as (p1 & R1 & S1 & C1). pose proof (li_config _ _ _ Hl) as Hc.
  destruct (pl_read p1) as (p2 & R2 & _ & C2); [by rewrite S1|]. rewrite S1, E1, E2, E3, E4, C1, Hc in R2.
  assert (pci_pio_read_dword b d f r s = Ok (cfg b d f (r / 4), s <| ports := p1 |> <| ports := p2 |>)) as E.
  { unfold pci_pio_read_dword. fold a. erewrite bind_ok by (by apply on_ports_ok). cbv beta. by apply on_ports_ok. }
  exists (s <| ports := p1 |> <| ports := p2 |>). split; [|apply listed_ports; [apply listed_ports; [done|]|]; congruence].
  unfold pci_read_dword. mstep. by destruct (is_mmio s =? 0).
Qed.

(** From the list [l], [m] gives [a] and leaves the list [l']. *)
Definition runs {A} (cfg : Z → Z → Z → Z → Z) (l : list pci_device_t) (m : stM (pci_st P) A) (a : A) (l' : list pci_device_t) : Prop :=
  ∀ s, listed cfg l s → ∃ s', m s = Ok (a, s') ∧ listed cfg l' s'.

Section triples.
Context (cfg : Z → Z → Z → Z → Z).

Lemma runs_ret {A} l (a : A) : runs cfg l (mret a) a l.
Proof. intros s Hs. by exists s. Qed.

Lemma runs_bind {A B} l l1 l2 (m : stM (pci_st P) A) (k : A → stM (pci_st P) B) a b :
  runs cfg l m a l1 → runs cfg l1 (k a) b l2 → runs cfg l (m ≫= k) b l2.
Proof.
  intros Hm Hk s Hs. destruct (Hm s Hs) as (s1 & E1 & H1). destruct (Hk s1 H1) as (s2 & E2 & H2).
  exists s2. split; [by mrun E1|done].
Qed.

Lemma runs_read {A} l b d f r (k : Z → A) : in_range b d f → 0 ≤ r < 256 →
  runs cfg l (w ← pci_read_dword b d f r; mret (k w)) (k (cfg b d f (r / 4))) l.
Proof.
  intros Hr Hreg. eapply runs_bind; [|apply runs_ret]. intros s Hs. by apply read_dword_ok.
Qed.

Lemma check_function_runs l b d f : in_range b d f → runs cfg l (check_function b d f) (present cfg b d f) l.
Proof. intros Hr. unfold check_function. eapply runs_bind; [by apply runs_read|apply runs_ret]. Qed.

Lemma is_pci_bridge_runs l b d f : in_range b d f → runs cfg l (is_pci_bridge b d f) (bridge cfg b d f) l.
Proof.
  intros Hr. unfold is_pci_bridge. eapply runs_bind; [by apply runs_read|]. cbv beta. unfold bridge. cbn [Z.div].
  change (12 / 4) with 3. destruct (_ =? 1); cbn [negb andb]; [|apply runs_ret].
  eapply runs_bind; [by apply runs_read|]. change (8 / 4) with 2. destruct (_ =? 6); cbn [negb andb]; [|apply runs_ret].
  eapply runs_bind; [by apply runs_read|]. apply runs_ret.
Qed.

Lemma is_multifunction_runs l b d : in_range b d 0 →
  runs cfg l (is_multifunction b d) (Z.land (u8 (Z.shiftr (cfg b d 0 3) 16)) 128) l.
Proof. intros Hr. by apply runs_read. Qed.

Lemma get_secondary_bus_runs l b d f : in_range b d f → runs cfg l (get_secondary_bus b d f) (secondary cfg b d f) l.
Proof. intros Hr. by apply runs_read. Qed.

(** The list grows before it is full. *)
Lemma add_pci_device_runs l x : runs cfg l (add_pci_device junk x) tt (l ++ [x]).
Proof.
  intros s [H1 [H2 H2'] H3 H4 H5 H6]. unfold add_pci_device. mstep. pose proof (zlen_nonneg l) as Hl.
  pose proof (capacity_ge 4 ltac:(lia) (b_size (pci_devices s)) H2) as Hc.
  assert (put_device (curent_position s) x s = Ok (tt, s <| pci_devices := mk_block (b_size (pci_devices s))
    (upd (b_data (pci_devices s)) (curent_position s) x) |>)) as E1.
  { unfold put_device. mstep. rewrite (proj2 (Z.leb_le _ _)), (proj2 (Z.ltb_lt _ _)) by lia. done. }
  mrun E1. mstep. set (b1 := mk_block _ _). set (s1 := s <| pci_devices := b1 |>).
  change (curent_position s1) with (curent_position s). change (max_position s1) with (max_position s).
  change (pci_devices s1) with b1. assert (block_ok 4 b1) as Hb1 by (split; cbn; [done|by rewrite zlen_upd]).
  assert (take (length (l ++ [x])) (b_data b1) = l ++ [x]) as Ht.
  { cbn. rewrite length_app. cbn [length]. unfold upd. rewrite H4. unfold zlen. rewrite Nat2Z.id.
    rewrite Nat.add_1_r, (take_S_r _ _ x), take_insert_ge, H6 by (try lia; apply list_lookup_insert_eq; unfold zlen in *; lia). done. }
  destruct (curent_position s =? max_position s) eqn:E; zbool.
  - destruct (krealloc_grow no_device 4 junk ltac:(lia) b1 (10 + max_position s + 1)) as (b2 & E2 & Hb2 & Hs2 & Hd2);
      [done|cbn; lia|]. rewrite E2. eexists. split; [reflexivity|].
    split; cbn; [done|done|lia|rewrite zlen_app; change (zlen [x]) with 1; lia|lia|].
    replace (length (l ++ [x])) with (Nat.min (length (l ++ [x])) (Z.to_nat (10 + max_position s + 1)))
      by (rewrite length_app; cbn [length]; unfold zlen in *; lia).
    rewrite <-take_take, Hd2. cbn [b_size]. rewrite take_app_le.
    + rewrite take_take, Nat.min_l; [exact Ht|]. rewrite length_app. cbn [length]. unfold b1. cbn. unfold zlen in *. lia.
    + rewrite length_take, length_app. cbn [length]. unfold b1. cbn. unfold upd. rewrite length_insert.
      unfold zlen in *. lia.
  - eexists. split; [reflexivity|]. split; cbn; [done|done|done|rewrite zlen_app; change (zlen [x]) with 1; lia|lia|exact Ht].
Qed.

(** A function that exists is scanned or listed. *)
Lemma visit_runs (scan : Z → stM (pci_st P) unit) (sub : Z → list pci_device_t) l b d f : in_range b d f →
  (bridge cfg b d f = true → ∀ l, runs cfg l (scan (secondary cfg b d f)) tt (l ++ sub (secondary cfg b d f))) →
  runs cfg l (visit junk scan b d f) tt (l ++ visited cfg sub b d f).
Proof.
  intros Hr Hscan. unfold visit, visited. eapply runs_bind; [by apply is_pci_bridge_runs|].
  destruct (bridge cfg b d f) eqn:E; [|apply add_pci_device_runs].
  eapply runs_bind; [by apply get_secondary_bus_runs|]. by apply Hscan.
Qed.

Lemma runs_loop n i (body : Z → stM (pci_st P) unit) (part : Z → list pci_device_t) :
  (∀ j l, i ≤ j < i + Z.of_nat n → runs cfg l (body j) tt (l ++ part j)) →
  ∀ l, runs cfg l (for_loop n i body) tt (l ++ mjoin (part <$> seqZ i (Z.of_nat n))).
Proof.
  revert i. induction n as [|n IH]; intros i Hbody l.
  - cbn. rewrite app_nil_r. apply runs_ret.
  - cbn [for_loop]. rewrite seqZ_cons by lia. cbn [fmap list_fmap mjoin list_join].
    rewrite app_assoc. eapply runs_bind; [apply Hbody; lia|].
    replace (Z.pred (Z.of_nat (S n))) with (Z.of_nat n) by lia. rewrite <-Z.add_1_r. apply IH. intros j l' Hj. apply Hbody. lia.
Qed.

Lemma scan_device_runs (scan : Z → stM (pci_st P) unit) sub l b d : 0 ≤ b < 256 → 0 ≤ d < 32 →
  (∀ f, in_range b d f → exists_fn cfg b d f = true → bridge cfg b d f = true →
     ∀ l, runs cfg l (scan (secondary cfg b d f)) tt (l ++ sub (secondary cfg b d f))) →
  runs cfg l (scan_device junk scan b d) tt (l ++ dev_list cfg sub b d).
Proof.
  intros Hb Hd Hscan. unfold scan_device, dev_list. assert (in_range b d 0) as Hr0 by (split_and!; lia).
  eapply runs_bind; [by apply check_function_runs|].
  destruct (present cfg b d 0) eqn:E0; [|rewrite app_nil_r; apply runs_ret].
  rewrite app_assoc. eapply runs_bind.
  { apply visit_runs; [done|]. apply Hscan; [done|]. unfold exists_fn. by rewrite E0. }
  eapply runs_bind; [by apply is_multifunction_runs|]. fold (multi cfg b d).
  destruct (multi cfg b d) eqn:Em; [|rewrite app_nil_r; apply runs_ret].
  apply (runs_loop 7 1 _ (λ f, if present cfg b d f then visited cfg sub b d f else [])). intros f l' Hf.
  assert (in_range b d f) as Hr by (split_and!; lia). eapply runs_bind; [by apply check_function_runs|].
  destruct (present cfg b d f) eqn:Ef; [|rewrite app_nil_r; apply runs_ret].
  apply visit_runs; [done|]. apply Hscan; [done|]. unfold exists_fn. by rewrite E0, Em, Ef, orb_true_r.
Qed.

Lemma scan_bus_runs : ordered cfg → ∀ n b l, 0 ≤ b < 256 → 256 - b ≤ Z.of_nat n →
  runs cfg l (scan_bus junk n b) tt (l ++ listing cfg n b).
Proof.
  intros Ho. induction n as [|n IH]; intros b l Hb Hn; [lia|]. cbn [scan_bus listing].
  apply (runs_loop 32 0 _ (dev_list cfg (listing cfg n) b)). intros d l' Hd. apply scan_device_runs; [done|lia|].
  intros f Hr He Hbr l2. apply IH; [unfold secondary, u8; dlia|]. pose proof (Ho _ _ _ Hr He Hbr). lia.
Qed.
End triples.

(** C31: the scan of the PCI bus ends and finds everything.  When the bus behind every bridge has a higher number than the
    bus of the bridge, a recursion of depth 256 is enough from bus 0: the scan returns, every access to the growing
    list of devices is inside its block, and the list has exactly the functions that exist on the buses that can be
    reached from bus 0 and are no bridges themselves. *)
Theorem pci_scan_correct s : listed (config (ports s)) [] s → let cfg := config (ports s) in ordered cfg →
  ∃ s' l, scan_bus junk 256 0 s = Ok (tt, s') ∧ listed cfg l s' ∧
    ∀ x, x ∈ l ↔ ∃ b d f, x = mk_pci 1 b d f ∧ reach cfg 0 b ∧ in_range b d f ∧ exists_fn cfg b d f = true ∧ bridge cfg b d f = false.
Proof.
  intros Hs cfg Ho. destruct (scan_bus_runs cfg Ho 256 0 [] ltac:(lia) ltac:(lia) s Hs) as (s' & E & Hl).
  exists s', (listing cfg 256 0). split; [done|]. split; [done|]. intros x. apply elem_listing; [done|lia|lia].
Qed.

(** A bridge that leads back to its own bus, as one that the firmware left alone does on bus 0, is entered again and again:
    no depth is enough. *)
Lemma pci_scan_diverges cfg b d : in_range b d 0 → exists_fn cfg b d 0 = true → bridge cfg b d 0 = true → secondary cfg b d 0 = b →
  (∀ d', 0 ≤ d' < d → present cfg b d' 0 = false) →
  ∀ n s l, listed cfg l s → scan_bus junk n b s = Crash Hang.
Proof.
  intros Hr He Hb Hsec Hfirst n. induction n as [|n IH]; intros s l Hs; [done|]. cbn [scan_bus].
  assert (∀ k i s, listed cfg l s → i + Z.of_nat k = d → 0 ≤ i → ∀ m, for_loop (k + S m) i (scan_device junk (scan_bus junk n) b) s = Crash Hang)
    as Hloop.
  { induction k as [|k IHk]; intros i t Ht Hk Hi m.
    - assert (i = d) as -> by lia. cbn [Nat.add for_loop]. apply bind_crash. unfold scan_device.
      destruct (check_function_runs cfg l b d 0 Hr t Ht) as (t1 & E1 & H1). mrun E1.
      unfold exists_fn in He. apply andb_true_iff in He as [-> _]. apply bind_crash. unfold visit.
      destruct (is_pci_bridge_runs cfg l b d 0 Hr t1 H1) as (t2 & E2 & H2). mrun E2. rewrite Hb.
      destruct (get_secondary_bus_runs cfg l b d 0 Hr t2 H2) as (t3 & E3 & H3). mrun E3. rewrite Hsec. exact (IH _ _ H3).
    - cbn [Nat.add for_loop]. assert (in_range b i 0) as Hri by (destruct Hr as (? & ? & ?); split_and!; lia).
      destruct (check_function_runs cfg l b i 0 Hri t Ht) as (t1 & E1 & H1). rewrite Hfirst in E1 by lia.
      erewrite bind_ok; [|unfold scan_device; mrun E1; reflexivity]. apply IHk; [done|lia|lia]. }
  destruct Hr as (_ & Hd & _). replace 32%nat with (Z.to_nat d + S (31 - Z.to_nat d))%nat by lia.
  apply Hloop; [done|lia|lia].
Qed.
End code.

(** ** A machine with a host bridge, a bridge to bus 1, and a disk controller there *)

Record demo_ports : Type := mk_demo_ports { demo_config : Z → Z → Z → Z → Z; demo_selected : Z }.

#[export] Instance demo_pci : PciPorts demo_ports := {
  port_outd port v := λ p, if port =? 3320 then Ok (tt, mk_demo_ports (demo_config p) v) else Ok (tt, p);
  port_ind port := λ p, let a := demo_selected p in
    Ok (if port =? 3324 then demo_config p (addr_bus a) (addr_dev a) (addr_fn a) (addr_reg a) else 0, p)
}.

#[export] Program Instance demo_pci_laws : PciLaws demo_ports := { config := demo_config; selected := demo_selected }.
Next Obligation. intros p a Ha. by eexists. Qed.
Next Obligation. intros p Ha a. by eexists. Qed.

(** Functions: vendor and device, class, header type, buses. *)
Definition fn_config (id class header buses r : Z) : Z :=
  if r =? 0 then id else if r =? 2 then class else if r =? 3 then header else if r =? 6 then buses else 0.
Definition demo_machine (b d f : Z) : Z → Z :=
  if f =? 0 then
    if (b =? 0) && (d =? 0) then fn_config 305430630 100663296 0 0
    else if (b =? 0) && (d =? 1) then fn_config 305430631 100925440 65536 256
    else if (b =? 1) && (d =? 0) then fn_config 305430632 17170688 0 0
    else λ _, 4294967295
  else λ _, 4294967295.

Definition pci_demo : pci_st demo_ports :=
  mk_pcist (mk_demo_ports demo_machine 0) (kcalloc_block no_device 4 (λ _, []) 10) 0 9 0.

Lemma demo_machine_ordered : ordered demo_machine.
Proof.
  intros b d f _ _ Hb. unfold bridge, secondary, demo_machine in *.
  destruct (f =? 0), (b =? 0) eqn:Eb, (d =? 0) eqn:Ed, (d =? 1) eqn:Ed1, (b =? 1) eqn:Eb1; cbn [andb] in *;
    try (by vm_compute in Hb); zbool; subst; try lia; by vm_compute.
Qed.

Lemma pci_scan_correct_witness :
  ∃ s' l, scan_bus (λ _, []) 256 0 pci_demo = Ok (tt, s') ∧ mk_pci 1 1 0 0 ∈ l ∧ mk_pci 1 0 1 0 ∉ l ∧
    curent_position s' = zlen l.
Proof.
  destruct (pci_scan_correct (λ _, []) pci_demo) as (s' & l & E & Hl & Hx).
  - by split.
  - apply demo_machine_ordered.
  - exists s', l. split; [exact E|]. split_and!; [| |apply Hl].
    + apply Hx. exists 1, 0, 0. split; [done|]. split; [|by repeat split].
      apply (reach_over demo_machine 0 1 0); [by repeat split|done|done|apply reach_here].
    + rewrite Hx. intros (b & d & f & [= <- <- <-] & _ & _ & _ & Hb). by vm_compute in Hb.
Defined.

(** The disk controller is announced under its name. *)
Lemma demo_names :
  match get_pci_ids 1 0 0 pci_demo with
  | Ok (i, _) => device_code_to_string (id_class i) (id_subclass i) (id_prog_if i)
  | Crash _ => ""%string
  end = "AHCI SATA Controller"%string.
Proof. reflexivity. Qed.

(** A base address register that reads as zero whatever is written has size 0. *)
Lemma demo_no_bar :
  match pci_get_mmio_bar_size (mk_pci 1 1 0 0) 5 pci_demo with Ok (v, _) => v | Crash _ => 1 end = 0.
Proof. reflexivity. Qed.
