(* ===== verification/Arrays.v ===== *)
(** * Growing arrays (klibc/vector.c, klibc/dynarray.c)

    A vector is a block of pointers with a count.  A dynamic array is a block of
    slots; a slot points to a copy of an element, counts the references to it
    and says whether it is still present.  Both grow and shrink with [krealloc]
    ([Blocks.v]).  The elements' copies live in a heap ([elems]) and are gone
    once freed. *)

From S2P Require Import Prelude Locks Blocks Bytes.

(** ** Vectors *)

Definition VECTOR_INIT_SIZE : Z := 4.
Definition PTR_SIZE : Z := 8.

Record vector_t : Type := mk_vector {
  items : block Z;
  max_items : Z;
  items_count : Z
}.
#[export] Instance eta_vector_t : Eta vector_t := λ r, mk_vector (items r) (max_items r) (items_count r).

Section vector.
Context (junk : Z → list Z).
Abbreviation vecM := (stM vector_t).

Definition vector_init : vecM unit :=
  modify (λ v, v <| max_items := VECTOR_INIT_SIZE |> <| items := kmalloc_block 0 PTR_SIZE junk VECTOR_INIT_SIZE |>
                 <| items_count := 0 |>).

(** [v->items[i]] *)
Definition get_item (i : Z) : vecM Z := v ← get; of_opt (idx (b_data (items v)) i).
Definition set_item (i x : Z) : vecM unit :=
  v ← get;
  if (0 <=? i) && (i <? zlen (b_data (items v)))
  then modify (λ v, v <| items := mk_block (b_size (items v)) (upd (b_data (items v)) i x) |>)
  else crashM Fault.

Definition vector_get (index : Z) : vecM Z :=
  v ← get; if index <? items_count v then get_item index else mret 0.

Definition vector_resize (new_size : Z) : vecM unit :=
  modify (λ v, v <| max_items := new_size |>) ;;
  v ← get;
  match krealloc_block 0 PTR_SIZE junk (Some (items v)) new_size with
  | Ok b => modify (λ v, v <| items := b |>)
  | Crash c => crashM c
  end.

Definition vector_add (new_item : Z) : vecM unit :=
  v ← get;
  (if max_items v =? items_count v then vector_resize (max_items v + 4) else mret tt) ;;
  v ← get;
  modify (λ v, v <| items_count := items_count v + 1 |>) ;;
  set_item (items_count v) new_item.

(** [n] elements from [i] on move down by one. *)
Definition shift_down (n : nat) (i : Z) : vecM unit :=
  for_loop n i (λ i, x ← get_item (i + 1); set_item i x ;; set_item (i + 1) 0).

Definition vector_delete (index : Z) : vecM unit :=
  v ← get;
  if items_count v <=? index then mret tt
  else
    set_item index 0 ;;
    shift_down (Z.to_nat (items_count v - 1 - index)) index ;;
    modify (λ v, v <| items_count := items_count v - 1 |>) ;;
    v ← get;
    if (0 <? items_count v) && (items_count v =? max_items v / 2) then vector_resize (max_items v / 2) else mret tt.
(** The block is gone; the pointer to it stays. *)
Definition vector_uninit : vecM unit := modify (λ v, v <| items_count := 0 |> <| max_items := 0 |>).
End vector.

(** ** Dynamic arrays *)

Record dynarray_elem_t : Type := mk_elem {
  e_data : Z;
  e_refs : Z;
  e_present : Z
}.
#[export] Instance eta_dynarray_elem_t : Eta dynarray_elem_t := λ r, mk_elem (e_data r) (e_refs r) (e_present r).
Definition no_elem : dynarray_elem_t := mk_elem 0 0 0.
Definition ELEM_SIZE : Z := 16.

Record dyn_st : Type := mk_dyn {
  base : option (block dynarray_elem_t);
  array_size : Z;
  dyn_lock : Z;
  elems : gmap Z (list Z);
  dyn_brk : Z
}.
#[export] Instance eta_dyn_st : Eta dyn_st :=
  λ r, mk_dyn (base r) (array_size r) (dyn_lock r) (elems r) (dyn_brk r).

Section dynarray.
Context (junk : Z → list dynarray_elem_t).
Abbreviation dM := (stM dyn_st).

Definition dyn_acquire : dM unit :=
  s ← get;
  match spinlock_lock (dyn_lock s) with
  | Ok l => modify (λ s, s <| dyn_lock := l |>)
  | Crash c => crashM c
  end.
Definition dyn_release : dM unit := modify (λ s, s <| dyn_lock := spinlock_unlock (dyn_lock s) |>).

(** [dynarray->base[i]] *)
Definition slot (i : Z) : dM dynarray_elem_t := s ← get; b ← of_opt (base s); of_opt (idx (b_data b) i).
Definition set_slot (i : Z) (f : dynarray_elem_t → dynarray_elem_t) : dM unit :=
  e ← slot i;
  modify (λ s, s <| base := (λ b, mk_block (b_size b) (upd (b_data b) i (f e))) <$> base s |>).

(** [atomic_dec(&dynarray->base[i].ref_count)]: whether it is still above zero. *)
Definition dec_ref (i : Z) : dM Z :=
  e ← slot i;
  let '(alive, refs) := atomic_dec (e_refs e) in
  set_slot i (λ e, e <| e_refs := refs |>) ;; mret alive.

(** [kfree]; freeing what is not allocated fails an assertion. *)
Definition free_elem (a : Z) : dM unit :=
  s ← get;
  if decide (is_Some (elems s !! a)) then modify (λ s, s <| elems := delete a (elems s) |>) else crashM Panic.

Definition dynarray_remove (element : Z) : dM Z :=
  dyn_acquire ;;
  s ← get;
  ret ← (if array_size s <? element then mret (-2)
         else
           e ← slot element;
           if e_present e =? 0 then mret (-1)
           else
             set_slot element (λ e, e <| e_present := 0 |>) ;;
             alive ← dec_ref element;
             (if alive =? 0 then
                e ← slot element;
                free_elem (e_data e) ;;
                set_slot element (λ e, e <| e_data := 0 |>)
              else mret tt) ;;
             mret 0);
  dyn_release ;;
  mret ret.

Definition dynarray_unref (element : Z) : dM unit :=
  dyn_acquire ;;
  e ← slot element;
  (if negb (e_data e =? 0) then
     alive ← dec_ref element;
     if alive =? 0 then
       free_elem (e_data e) ;;
       set_slot element (λ e, e <| e_data := 0 |>)
     else mret tt
   else mret tt) ;;
  dyn_release.

Definition dynarray_getelem (element : Z) : dM Z :=
  dyn_acquire ;;
  s ← get;
  ptr ← (if element <? array_size s then
           e ← slot element;
           if negb (e_data e =? 0) && negb (e_present e =? 0) then
             set_slot element (λ e, e <| e_refs := snd (atomic_inc (e_refs e)) |>) ;;
             mret (e_data e)
           else mret 0
         else mret 0);
  dyn_release ;;
  mret ptr.

(** The first slot without data, [n] slots from [i] on; the end otherwise. *)
Fixpoint find_empty (n : nat) (i : Z) : dM Z :=
  match n with
  | O => mret i
  | S n' => e ← slot i; if e_data e =? 0 then mret i else find_empty n' (i + 1)
  end.

(** [element] is the bytes of the element. *)
Definition dynarray_add (element : list Z) : dM Z :=
  dyn_acquire ;;
  s ← get;
  i ← find_empty (Z.to_nat (array_size s)) 0;
  (if i =? array_size s then
     modify (λ s, s <| array_size := array_size s + 256 |>) ;;
     s ← get;
     match krealloc_block no_elem ELEM_SIZE junk (base s) (array_size s) with
     | Ok b => modify (λ s, s <| base := Some b |>)
     | Crash c => crashM c
     end
   else mret tt) ;;
  s ← get;
  let a := dyn_brk s in
  modify (λ s, s <| elems := <[a := element]> (elems s) |> <| dyn_brk := a + 65536 |>) ;;
  set_slot i (λ e, mk_elem a 1 1) ;;
  dyn_release ;;
  mret i.
End dynarray.

(** ** Correctness of growing arrays

    Vectors implement lists, as long as they stay small enough for the way they
    shrink; dynamic arrays keep an element exactly as long as it is referred to. *)

(** ** Vectors *)

Section vectors.
Context (junk : Z → list Z).
Implicit Types (v : vector_t) (l : list Z).

Record vec_ok v l : Prop := {
  v_block : block_ok PTR_SIZE (items v);
  v_max : b_size (items v) = max_items v;
  v_count : items_count v = zlen l;
  v_room : items_count v ≤ max_items v;
  v_data : take (length l) (b_data (items v)) = l
}.

Lemma vector_page n : 0 < n → 512 ≤ capacity PTR_SIZE n.
Proof. intros Hn. unfold capacity, PTR_SIZE. dlia. Qed.

Lemma vec_capacity v l : vec_ok v l → max_items v ≤ zlen (b_data (items v)).
Proof.
  intros [[H0 H1] Hm Hc Hr Hd]. rewrite H1, <-Hm. by apply capacity_ge.
Qed.

Lemma vec_idx v l i : vec_ok v l → 0 ≤ i < zlen l → idx (b_data (items v)) i = idx l i.
Proof.
  intros Hv Hi. transitivity (idx (take (length l) (b_data (items v))) i); [|by rewrite (v_data _ _ Hv)].
  rewrite idx_take. by rewrite (proj2 (Z.ltb_lt _ _)) by (unfold zlen in Hi; lia).
Qed.

Lemma vector_init_ok v : ∃ v', vector_init junk v = Ok (tt, v') ∧ vec_ok v' [] ∧ max_items v' = 4.
Proof.
  eexists. split; [reflexivity|]. split; [|done]. split; cbn; [by apply kmalloc_block_ok|done|done|done|done].
Qed.

Lemma get_item_ok v l i : vec_ok v l → 0 ≤ i < zlen l → ∃ x, idx l i = Some x ∧ get_item i v = Ok (x, v).
Proof.
  intros Hv Hi. destruct (idx_lt l i Hi) as [x Hx]. exists x. split; [done|]. unfold get_item. mstep.
  by rewrite (vec_idx v l i Hv Hi), Hx.
Qed.

Lemma vector_get_ok v l i : vec_ok v l → 0 ≤ i → vector_get i v = Ok (default 0 (idx l i), v).
Proof.
  intros Hv Hi. unfold vector_get. mstep. rewrite (v_count _ _ Hv). destruct (i <? zlen l) eqn:E; zbool.
  - destruct (get_item_ok v l i Hv ltac:(lia)) as (x & -> & ->). done.
  - destruct (idx l i) eqn:Ei; [|done]. apply idx_Some in Ei. lia.
Qed.

(** The elements beyond the count can be anything. *)
Lemma set_item_ok v l i x : vec_ok v l → 0 ≤ i < max_items v →
  ∃ v', set_item i x v = Ok (tt, v') ∧ max_items v' = max_items v ∧ items_count v' = items_count v ∧
    b_data (items v') = upd (b_data (items v)) i x ∧ b_size (items v') = b_size (items v).
Proof.
  intros Hv Hi. pose proof (vec_capacity _ _ Hv). unfold set_item. mstep.
  rewrite (proj2 (Z.leb_le _ _)), (proj2 (Z.ltb_lt _ _)) by lia. by eexists.
Qed.

(** A block of another size that has room for the old one keeps its elements. *)
Lemma krealloc_keeps b n k : block_ok PTR_SIZE b → 0 ≤ n → b_size b ≤ capacity PTR_SIZE n → (k ≤ Z.to_nat (b_size b))%nat →
  ∃ b', krealloc_block 0 PTR_SIZE junk (Some b) n = Ok b' ∧ block_ok PTR_SIZE b' ∧ b_size b' = n ∧
    take k (b_data b') = take k (b_data b).
Proof.
  intros [H0 H1] Hn Hc Hk. pose proof (capacity_ge PTR_SIZE ltac:(done) n Hn) as Hg.
  pose proof (capacity_ge PTR_SIZE ltac:(done) _ H0) as Hg'. unfold krealloc_block.
  rewrite (proj2 (Z.leb_le _ _)) by done. eexists. split; [reflexivity|]. unfold zlen in H1.
  split_and!; cbn [b_size b_data]; [|done|].
  - split; cbn [b_size b_data]; [done|]. unfold zlen, kcalloc_block. cbn [b_data].
    rewrite length_app, length_take, length_drop, length_app, length_replicate, length_resize. lia.
  - rewrite take_app_le by (rewrite length_take; lia). by rewrite take_take, Nat.min_l.
Qed.

Lemma vector_resize_ok v l n : vec_ok v l → items_count v ≤ n → max_items v ≤ capacity PTR_SIZE n → 0 ≤ n →
  ∃ v', vector_resize junk n v = Ok (tt, v') ∧ vec_ok v' l ∧ max_items v' = n.
Proof.
  intros Hv Hn Hc H0. pose proof Hv as [Hb Hm Hcnt Hr Hd].
  destruct (krealloc_keeps (items v) n (length l)) as (b' & E & Hb' & Hs & Ht); [done|done|lia|unfold zlen in *; lia|].
  unfold vector_resize. mstep. mstep. change (items (v <| max_items := n |>)) with (items v). rewrite E.
  eexists. split; [reflexivity|]. split; [|done]. split; cbn; [done|done|done|done|congruence].
Qed.

Lemma vector_add_ok v l x : vec_ok v l → max_items v ≤ 512 → zlen l < 508 →
  ∃ v', vector_add junk x v = Ok (tt, v') ∧ vec_ok v' (l ++ [x]) ∧ max_items v' ≤ 512.
Proof.
  intros Hv Hm Hl. unfold vector_add. mstep. pose proof (zlen_nonneg l).
  assert (∃ v1, (if max_items v =? items_count v then vector_resize junk (max_items v + 4) else mret tt) v = Ok (tt, v1) ∧
    vec_ok v1 l ∧ items_count v1 < max_items v1 ≤ 512) as (v1 & E1 & Hv1 & Hr1).
  { destruct (max_items v =? items_count v) eqn:E; zbool.
    - destruct (vector_resize_ok v l (max_items v + 4)) as (v1 & E1 & Hv1 & Hm1);
        [done|lia|pose proof (vector_page (max_items v + 4)); rewrite (v_count _ _ Hv) in *; lia|rewrite (v_count _ _ Hv) in *; lia|].
      exists v1. split; [done|]. split; [done|]. rewrite (v_count _ _ Hv1), (v_count _ _ Hv) in *. lia.
    - exists v. split; [done|]. split; [done|]. pose proof (v_room _ _ Hv). lia. }
  mrun E1. mstep. mstep. destruct Hv1 as [[Hb0 Hb1] Hbm Hc Hrm Hd].
  pose proof (capacity_ge PTR_SIZE ltac:(done) _ Hb0) as Hcap. unfold set_item. mstep.
  rewrite (proj2 (Z.leb_le _ _)), (proj2 (Z.ltb_lt _ _)) by (cbn; lia). cbn [andb]. eexists. split; [reflexivity|].
  split; [|cbn; lia]. split; cbn; try done.
  - split; cbn; [done|]. by rewrite zlen_upd.
  - rewrite zlen_app. change (zlen [x]) with 1. lia.
  - lia.
  - rewrite length_app. cbn [length]. rewrite Nat.add_1_r, Hc. unfold upd, zlen. rewrite Nat2Z.id.
    rewrite (take_S_r _ _ x), take_insert_ge, Hd by (try lia; apply list_lookup_insert_eq; unfold zlen in *; lia). done.
Qed.

(** Deleting element [k] of a list. *)
Definition without l (k : Z) : list Z := take (Z.to_nat k) l ++ drop (S (Z.to_nat k)) l.

Lemma zlen_without l k : 0 ≤ k < zlen l → zlen (without l k) = zlen l - 1.
Proof. intros Hk. unfold without, zlen in *. rewrite length_app, length_take, length_drop. lia. Qed.

Lemma idx_without l k j : 0 ≤ k < zlen l → 0 ≤ j → idx (without l k) j = if j <? k then idx l j else idx l (j + 1).
Proof.
  intros Hk Hj. unfold without. rewrite idx_app_range.
  assert (zlen (take (Z.to_nat k) l) = k) as -> by (unfold zlen in *; rewrite length_take; lia).
  destruct (j <? k) eqn:E; zbool.
  - rewrite idx_take. by rewrite (proj2 (Z.ltb_lt _ _)) by lia.
  - rewrite idx_drop by lia. f_equal. lia.
Qed.

(** The data while elements move down: position [i] is the gap. *)
Definition gap_at (D : list Z) (k i : Z) (v0 v : vector_t) : Prop :=
  max_items v = max_items v0 ∧ items_count v = items_count v0 ∧ b_size (items v) = b_size (items v0) ∧
  zlen (b_data (items v)) = zlen D ∧
  ∀ j, 0 ≤ j → idx (b_data (items v)) j = if j =? i then Some 0 else if (k <=? j) && (j <? i) then idx D (j + 1) else idx D j.

Lemma put_item i x v : 0 ≤ i < zlen (b_data (items v)) →
  ∃ v', set_item i x v = Ok (tt, v') ∧ max_items v' = max_items v ∧ items_count v' = items_count v ∧
    b_size (items v') = b_size (items v) ∧ zlen (b_data (items v')) = zlen (b_data (items v)) ∧
    ∀ j, 0 ≤ j → idx (b_data (items v')) j = if j =? i then Some x else idx (b_data (items v)) j.
Proof.
  intros Hi. unfold set_item. mstep. rewrite (proj2 (Z.leb_le _ _)), (proj2 (Z.ltb_lt _ _)) by lia. eexists.
  split; [reflexivity|]. split_and!; [done|done|done|cbn; by rewrite zlen_upd|]. intros j Hj. cbn.
  destruct (j =? i) eqn:E; zbool; [subst; by apply idx_upd_eq|by apply idx_upd_ne; lia].
Qed.

Lemma shift_step D k i v0 v : gap_at D k i v0 v → 0 ≤ k ≤ i → i + 1 < zlen D →
  ∃ v', (x ← get_item (i + 1); set_item i x ;; set_item (i + 1) 0) v = Ok (tt, v') ∧ gap_at D k (i + 1) v0 v'.
Proof.
  intros (M & C & B & L & HI) Hk Hi. pose proof (HI (i + 1) ltac:(lia)) as Hx.
  rewrite (proj2 (Z.eqb_neq (i + 1) i)) in Hx by lia. rewrite (proj2 (Z.ltb_ge (i + 1) i)), andb_false_r in Hx by lia.
  destruct (idx_lt D (i + 1) ltac:(lia)) as [x Ex]. rewrite Ex in Hx.
  assert (get_item (i + 1) v = Ok (x, v)) as E0 by (unfold get_item; mstep; by rewrite (of_opt_ok _ _ v Hx)). mrun E0.
  destruct (put_item i x v ltac:(lia)) as (v1 & E1 & M1 & C1 & B1 & L1 & I1). mrun E1.
  destruct (put_item (i + 1) 0 v1 ltac:(lia)) as (v2 & E2 & M2 & C2 & B2 & L2 & I2). exists v2. split; [done|].
  split_and!; [congruence..|]. intros j Hj. rewrite I2, I1, HI by done.
  destruct (j =? i + 1) eqn:A; zbool; [done|]. destruct (j =? i) eqn:A'; zbool.
  - subst j. rewrite (proj2 (Z.leb_le k i)), (proj2 (Z.ltb_lt i (i + 1))) by lia. done.
  - destruct (k <=? j) eqn:Bk, (j <? i) eqn:Bi, (j <? i + 1) eqn:Bi'; zbool; cbn [andb]; try done; lia.
Qed.

Lemma vector_delete_ok v l k : vec_ok v l → max_items v ≤ 512 → 0 ≤ k < zlen l →
  ∃ v', vector_delete junk k v = Ok (tt, v') ∧ vec_ok v' (without l k) ∧ max_items v' ≤ 512.
Proof.
  intros Hv Hm Hk. pose proof (vec_capacity _ _ Hv) as Hcap. pose proof Hv as [[Hb0 Hb1] Hbm Hc Hr Hd].
  unfold vector_delete. mstep. rewrite (proj2 (Z.leb_gt _ _)) by lia. set (D := b_data (items v)) in *.
  destruct (put_item k 0 v) as (v1 & E1 & M1 & C1 & B1 & L1 & I1); [fold D; lia|]. mrun E1.
  assert (gap_at D k k v v1) as Hg1.
  { split_and!; try done. intros j Hj. rewrite I1 by done. destruct (j =? k); [done|].
    destruct (k <=? j) eqn:A, (j <? k) eqn:A'; zbool; try done; lia. }
  destruct (for_loop_inv (λ i w, gap_at D k i v w) (λ i, x ← get_item (i + 1); set_item i x ;; set_item (i + 1) 0)
    (Z.to_nat (items_count v - 1 - k)) k v1 Hg1) as (v2 & E2 & Hg2).
  { intros i w Hi Hw. apply shift_step; [done|lia|lia]. }
  unfold shift_down. mrun E2. replace (k + Z.of_nat (Z.to_nat (items_count v - 1 - k))) with (zlen l - 1) in Hg2 by lia.
  mstep. mstep. destruct Hg2 as (M2 & C2 & B2 & L2 & I2). set (v3 := v2 <| items_count := items_count v2 - 1 |>).
  assert (vec_ok v3 (without l k)) as Hv3.
  { split; cbn; [split; [lia|by rewrite L2, B2]|congruence|rewrite zlen_without by done; lia|lia|].
    apply idx_ext; [pose proof (zlen_without l k Hk); unfold zlen in *; rewrite length_take; lia|].
    intros j Hj. rewrite idx_take. pose proof (zlen_without l k Hk) as Hz.
    assert (j < Z.of_nat (length (without l k))) as Hj' by (unfold zlen in *; rewrite length_take in Hj; lia).
    rewrite (proj2 (Z.ltb_lt _ _) Hj'), I2, idx_without by (done || lia).
    rewrite (proj2 (Z.eqb_neq j _)) by (unfold zlen in *; lia). rewrite (proj2 (Z.ltb_lt j (zlen l - 1))) by (unfold zlen in *; lia).
    rewrite andb_true_r. destruct (k <=? j) eqn:A, (j <? k) eqn:A'; zbool; try lia; apply (vec_idx v l); try done; unfold zlen in *; lia. }
  change (items_count v3) with (items_count v2 - 1). change (max_items v3) with (max_items v2).
  destruct ((0 <? items_count v2 - 1) && (items_count v2 - 1 =? max_items v2 / 2)) eqn:E.
  - zbool. destruct (vector_resize_ok v3 (without l k) (max_items v2 / 2)) as (v4 & E4 & Hv4 & M4); [done|cbn; lia| |dlia|].
    { pose proof (vector_page (max_items v2 / 2) ltac:(lia)). cbn. lia. }
    exists v4. split; [done|]. split; [done|]. rewrite M4, M2. dlia.
  - exists v3. split; [done|]. split; [done|]. cbn. lia.
Qed.

(** ** Sequences of operations *)

Inductive vec_op : Type := VAdd (x : Z) | VGet (i : Z) | VDelete (i : Z).

(** The results of the [VGet]s. *)
Fixpoint run_vector (ops : list vec_op) : stM vector_t (list Z) :=
  match ops with
  | [] => mret []
  | VAdd x :: ops' => vector_add junk x ;; run_vector ops'
  | VGet i :: ops' => x ← vector_get i; r ← run_vector ops'; mret (x :: r)
  | VDelete i :: ops' => vector_delete junk i ;; run_vector ops'
  end.

Fixpoint run_list (ops : list vec_op) (l : list Z) : list Z :=
  match ops with
  | [] => []
  | VAdd x :: ops' => run_list ops' (l ++ [x])
  | VGet i :: ops' => default 0 (idx l i) :: run_list ops' l
  | VDelete i :: ops' => run_list ops' (if i <? zlen l then without l i else l)
  end.

Definition op_ok (o : vec_op) : Prop := match o with VAdd _ => True | VGet i | VDelete i => 0 ≤ i end.
Fixpoint adds (ops : list vec_op) : Z :=
  match ops with [] => 0 | VAdd _ :: ops' => adds ops' + 1 | _ :: ops' => adds ops' end.

Lemma adds_nonneg ops : 0 ≤ adds ops.
Proof. induction ops as [|[] ops IH]; cbn; lia. Qed.

Lemma run_vector_ok ops : ∀ v l, vec_ok v l → max_items v ≤ 512 → zlen l + adds ops ≤ 508 → Forall op_ok ops →
  ∃ v', run_vector ops v = Ok (run_list ops l, v').
Proof.
  induction ops as [|[x|i|i] ops IH]; intros v l Hv Hm Ha Ho; [by exists v|..]; inversion Ho as [|? ? H1 H2]; subst;
    cbn [adds] in Ha; cbn [run_vector run_list]; pose proof (adds_nonneg ops).
  - destruct (vector_add_ok v l x Hv Hm ltac:(lia)) as (v1 & E1 & Hv1 & Hm1). mrun E1. apply IH; [done|done| |done].
    rewrite zlen_app. change (zlen [x]) with 1. lia.
  - mrun (vector_get_ok v l i Hv H1). destruct (IH v l Hv Hm Ha H2) as (v' & E). mrun E. by exists v'.
  - destruct (i <? zlen l) eqn:E; zbool.
    + destruct (vector_delete_ok v l i Hv Hm ltac:(cbn in H1; lia)) as (v1 & E1 & Hv1 & Hm1). mrun E1.
      apply IH; [done|done| |done]. rewrite zlen_without by (cbn in H1; lia). lia.
    + assert (vector_delete junk i v = Ok (tt, v)) as E1.
      { unfold vector_delete. mstep. by rewrite (v_count _ _ Hv), (proj2 (Z.leb_le _ _)) by lia. }
      mrun E1. by apply IH.
Qed.
End vectors.

(** C32: A vector is a list: after [vector_init], every sequence of at most 508
    additions, with any reads and deletions of positions that are not negative
    among them, runs to its end (growing and shrinking the block on the way) and
    the reads give what they give for a list that is appended to and from which
    elements are taken out, null beyond its end. *)
Theorem vector_refines_list (junk : Z → list Z) (ops : list vec_op) (v0 : vector_t) :
  Forall op_ok ops → adds ops ≤ 508 →
  ∃ v', (vector_init junk ;; run_vector junk ops) v0 = Ok (run_list ops [], v').
Proof.
  intros Ho Ha. destruct (vector_init_ok junk v0) as (v1 & E & Hv & Hm). mrun E.
  apply run_vector_ok; [done|lia|exact Ha|done].
Qed.

Definition demo_vector : vector_t := mk_vector (mk_block 0 []) 0 0.
Definition demo_ops : list vec_op :=
  [VAdd 10; VAdd 20; VAdd 30; VAdd 40; VAdd 50; VDelete 1; VGet 0; VGet 1; VGet 3; VGet 4; VDelete 9; VDelete 0; VGet 2].

Lemma vector_refines_list_witness :
  run_list demo_ops [] = [10; 30; 50; 0; 50] ∧
  ∃ v', (vector_init (λ _, []) ;; run_vector (λ _, []) demo_ops) demo_vector = Ok (run_list demo_ops [], v').
Proof.
  split; [reflexivity|]. apply (vector_refines_list (λ _, []) demo_ops demo_vector); [repeat constructor; cbn; lia|cbn; lia].
Defined.

(** *** What goes wrong in vectors *)

(** Shrinking asks [krealloc] for half the room; [krealloc] copies as much as the
    old block holds, so that a vector of 2048 places that falls to 1024 elements
    writes behind the new block: the 1025th element is taken out and the kernel
    faults. *)
Definition full_vector : vector_t := mk_vector (mk_block 2048 (replicate 2048 7)) 2048 1025.

Lemma vector_shrink_faults : ∃ v l, vec_ok v l ∧ zlen l = 1025 ∧ vector_delete (λ _, []) 1024 v = Crash Fault.
Proof.
  exists full_vector, (replicate 1025 7). split_and!; [|reflexivity|vm_compute; reflexivity].
  split; [split; [done|vm_compute; reflexivity]|done|done|vm_compute; congruence|vm_compute; reflexivity].
Qed.

(** ** Dynamic arrays *)

(** The bound of [dynarray_remove] lets the index one past the end through: an
    array whose slots fill their pages is read in the guard page behind them. *)
Definition full_array : dyn_st := mk_dyn (Some (mk_block 256 (replicate 256 no_elem))) 256 0 ∅ 4096.

Lemma dynarray_remove_past_end : block_ok ELEM_SIZE (mk_block 256 (replicate 256 no_elem)) ∧
  dynarray_remove 256 full_array = Crash Fault ∧
  (∃ s, dynarray_remove 257 full_array = Ok (-2, s)) ∧ (∃ s, dynarray_getelem 256 full_array = Ok (0, s)).
Proof.
  split_and!; [split; [done|vm_compute; reflexivity]|vm_compute; reflexivity|eexists; vm_compute; reflexivity|eexists; vm_compute; reflexivity].
Qed.

(** An array whose lock is [l]. *)
Definition arr (l z : Z) (d : list dynarray_elem_t) (n : Z) (h : gmap Z (list Z)) (k : Z) : dyn_st :=
  mk_dyn (Some (mk_block z d)) n l h k.

Lemma acquire_arr z d n h k : dyn_acquire (arr 0 z d n h k) = Ok (tt, arr 1 z d n h k).
Proof. reflexivity. Qed.
Lemma release_arr z d n h k : dyn_release (arr 1 z d n h k) = Ok (tt, arr 0 z d n h k).
Proof. reflexivity. Qed.

Section slots.
Context (l z n k i : Z) (d : list dynarray_elem_t) (h : gmap Z (list Z)) (e : dynarray_elem_t).
Context (Hi : idx d i = Some e).

Lemma slot_arr : slot i (arr l z d n h k) = Ok (e, arr l z d n h k).
Proof. unfold slot. mstep. mstep. cbn [b_data]. by rewrite Hi. Qed.

Lemma set_slot_arr f : set_slot i f (arr l z d n h k) = Ok (tt, arr l z (upd d i (f e)) n h k).
Proof. unfold set_slot. by mrun slot_arr. Qed.

Lemma dec_ref_arr : 0 < e_refs e < U32_MOD →
  dec_ref i (arr l z d n h k) = Ok (if e_refs e =? 1 then 0 else 1, arr l z (upd d i (mk_elem (e_data e) (e_refs e - 1) (e_present e))) n h k).
Proof.
  intros Hr. unfold dec_ref. mrun slot_arr. unfold atomic_dec, u32. rewrite Z.mod_small by lia.
  mrun (set_slot_arr (λ e0, e0 <| e_refs := e_refs e - 1 |>)). unfold mret, stM_ret. f_equal. f_equal.
  destruct (e_refs e =? 1) eqn:A, (e_refs e - 1 =? 0) eqn:A'; zbool; try done; lia.
Qed.
End slots.

Lemma free_arr l z d n h k a : is_Some (h !! a) → free_elem a (arr l z d n h k) = Ok (tt, arr l z d n (delete a h) k).
Proof. intros Hs. unfold free_elem. mstep. by rewrite decide_True. Qed.

Section array.
Context (z n k i : Z) (d : list dynarray_elem_t) (h : gmap Z (list Z)) (a refs : Z).
Context (Hin : 0 ≤ i < n) (Hroom : n ≤ zlen d) (Ha : a ≠ 0) (Hrefs : 0 < refs < U32_MOD - 1).

Lemma dynarray_getelem_hit : idx d i = Some (mk_elem a refs 1) →
  dynarray_getelem i (arr 0 z d n h k) = Ok (a, arr 0 z (upd d i (mk_elem a (refs + 1) 1)) n h k).
Proof.
  intros Hi. unfold dynarray_getelem. mrun (acquire_arr z d n h k). mstep. cbn [array_size arr].
  rewrite (proj2 (Z.ltb_lt _ _)) by lia. erewrite bind_ok.
  2:{ mrun (slot_arr 1 z n k i d h _ Hi). cbn [e_data e_present]. rewrite (proj2 (Z.eqb_neq _ _) Ha). cbn [negb andb Z.eqb].
      mrun (set_slot_arr 1 z n k i d h _ Hi (λ e, e <| e_refs := snd (atomic_inc (e_refs e)) |>)). reflexivity. }
  mrun (release_arr z (upd d i (mk_elem a (u32 (refs + 1)) 1)) n h k). unfold u32. by rewrite Z.mod_small by lia.
Qed.

(** With another reference, removing keeps the bytes. *)
Lemma dynarray_remove_shared : 1 < refs → idx d i = Some (mk_elem a refs 1) →
  dynarray_remove i (arr 0 z d n h k) = Ok (0, arr 0 z (upd d i (mk_elem a (refs - 1) 0)) n h k).
Proof.
  intros Hs Hi. unfold dynarray_remove. mrun (acquire_arr z d n h k). mstep. cbn [array_size arr].
  rewrite (proj2 (Z.ltb_ge _ _)) by lia. erewrite bind_ok.
  2:{ mrun (slot_arr 1 z n k i d h _ Hi). cbn [e_present Z.eqb].
      mrun (set_slot_arr 1 z n k i d h _ Hi (λ e, e <| e_present := 0 |>)).
      mrun (dec_ref_arr 1 z n k i _ h _ (idx_upd_eq d i (mk_elem a refs 0) ltac:(lia)) ltac:(cbn; lia)).
      cbn [e_refs]. rewrite (proj2 (Z.eqb_neq refs 1)) by lia. cbn [Z.eqb]. mstep. reflexivity. }
  rewrite upd_twice. by mrun (release_arr z (upd d i (mk_elem a (refs - 1) 0)) n h k).
Qed.

(** The last reference frees them, and the slot is free again. *)
Lemma dynarray_unref_last p : refs = 1 → is_Some (h !! a) → idx d i = Some (mk_elem a refs p) →
  dynarray_unref i (arr 0 z d n h k) = Ok (tt, arr 0 z (upd d i (mk_elem 0 0 p)) n (delete a h) k).
Proof.
  intros -> Hb Hi. unfold dynarray_unref. mrun (acquire_arr z d n h k). mrun (slot_arr 1 z n k i d h _ Hi).
  cbn [e_data]. rewrite (proj2 (Z.eqb_neq _ _) Ha). cbn [negb]. erewrite bind_ok.
  2:{ mrun (dec_ref_arr 1 z n k i d h _ Hi ltac:(cbn; lia)). cbn [e_refs Z.eqb Pos.eqb].
      mrun (free_arr 1 z (upd d i (mk_elem a (1 - 1) p)) n h k a Hb).
      rewrite (set_slot_arr 1 z n k i _ (delete a h) _ (idx_upd_eq d i (mk_elem a (1 - 1) p) ltac:(lia))).
      reflexivity. }
  rewrite upd_twice. exact (release_arr z (upd d i (mk_elem 0 0 p)) n (delete a h) k).
Qed.
End array.

(** An element of a dynamic array lives as long as it is referred to: a
    reader that got it keeps its bytes when another thread removes the element,
    nobody else can get it any more, and the reader's [dynarray_unref] frees the
    bytes and the slot. *)
Theorem dynarray_reader_keeps_element (z n k i a : Z) (d : list dynarray_elem_t) (h : gmap Z (list Z)) (bytes : list Z) :
  0 ≤ i < n → n ≤ zlen d → a ≠ 0 → idx d i = Some (mk_elem a 1 1) → h !! a = Some bytes →
  let s := mk_dyn (Some (mk_block z d)) n 0 h k in
  ∃ s1 s2 s3, dynarray_getelem i s = Ok (a, s1) ∧ dynarray_remove i s1 = Ok (0, s2) ∧ elems s2 !! a = Some bytes ∧
    dynarray_getelem i s2 = Ok (0, s2) ∧ dynarray_remove i s2 = Ok (-1, s2) ∧
    dynarray_unref i s2 = Ok (tt, s3) ∧ elems s3 = delete a h ∧ slot i s3 = Ok (no_elem, s3).
Proof.
  intros Hin Hr Ha Hi Hb s. assert (0 ≤ i < zlen d) as Hd by lia.
  exists (arr 0 z (upd d i (mk_elem a 2 1)) n h k), (arr 0 z (upd d i (mk_elem a 1 0)) n h k),
    (arr 0 z (upd d i no_elem) n (delete a h) k).
  assert (idx (upd d i (mk_elem a 1 0)) i = Some (mk_elem a 1 0)) as Hi2 by (by apply idx_upd_eq).
  split_and!; [|..|done|].
  - apply (dynarray_getelem_hit z n k i d h a 1); try done; lia.
  - rewrite (dynarray_remove_shared z n k i _ h a 2); rewrite ?upd_twice, ?zlen_upd; try done; try lia. by apply idx_upd_eq.
  - done.
  - unfold dynarray_getelem. mrun (acquire_arr z (upd d i (mk_elem a 1 0)) n h k). mstep. cbn [array_size arr].
    rewrite (proj2 (Z.ltb_lt _ _)) by lia. erewrite bind_ok; [|mrun (slot_arr 1 z n k i _ h _ Hi2); by rewrite andb_false_r]. done.
  - unfold dynarray_remove. mrun (acquire_arr z (upd d i (mk_elem a 1 0)) n h k). mstep. cbn [array_size arr].
    rewrite (proj2 (Z.ltb_ge _ _)) by lia. erewrite bind_ok; [|mrun (slot_arr 1 z n k i _ h _ Hi2); reflexivity]. done.
  - rewrite (dynarray_unref_last z n k i _ h a 1) with (p := 0); rewrite ?upd_twice, ?zlen_upd; try done; lia.
  - apply slot_arr. by apply idx_upd_eq.
Qed.

Lemma dynarray_reader_keeps_element_witness :
  let s := mk_dyn (Some (mk_block 256 (upd (replicate 256 no_elem) 3 (mk_elem 4096 1 1)))) 256 0 {[4096 := [1; 2]]} 8192 in
  ∃ s1 s2 s3, dynarray_getelem 3 s = Ok (4096, s1) ∧ dynarray_remove 3 s1 = Ok (0, s2) ∧ elems s2 !! 4096 = Some [1; 2] ∧
    dynarray_getelem 3 s2 = Ok (0, s2) ∧ dynarray_remove 3 s2 = Ok (-1, s2) ∧
    dynarray_unref 3 s2 = Ok (tt, s3) ∧ elems s3 = delete 4096 {[4096 := [1; 2]]} ∧ slot 3 s3 = Ok (no_elem, s3).
Proof.
  apply (dynarray_reader_keeps_element 256 256 8192 3 4096 (upd (replicate 256 no_elem) 3 (mk_elem 4096 1 1)) {[4096 := [1; 2]]} [1; 2]);
    [lia|vm_compute; congruence|lia|vm_compute; reflexivity|reflexivity].
Defined.
