(* ===== verification/KeyMap.v ===== *)
(** * The kernel's integer maps, as their clients see them

    Futexes and the handles of inter-process communication are kept in hash maps
    (klibc/hashmap.c).  [KeyMap] is the part of the map's interface they call,
    [KeyMapLaws] what they rely on; the hash map of [Hashmap.v] is the instance.
    A new map holds nothing; the value [0] of a lookup is the null pointer. *)

From S2P Require Import Prelude Hashmap HashmapTheorems.

Class KeyMap (M : Type) := {
  km_new : M;
  km_get : Z → stM M Z;
  km_set : Z → Z → stM M unit
}.

Class KeyMapLaws (M : Type) `{KeyMap M} := {
  km_rep : M → gmap Z Z → Prop;
  km_new_ok : km_rep km_new ∅;
  km_get_ok t m k : km_rep t m → km_get k t = Ok (default 0 (m !! k), t);
  km_set_ok t m k d : km_rep t m → ∃ t', km_set k d t = Ok (tt, t') ∧ km_rep t' (<[k := d]> m)
}.

(** ** The hash map *)

#[export] Instance hashmap_key_map : KeyMap (hashmap Z) := {
  km_new := init_hashmap;
  km_get := hashmap_get_elem;
  km_set := hashmap_set_elem
}.

#[export, refine] Instance hashmap_key_map_laws : KeyMapLaws (hashmap Z) := {
  km_rep := hm_rep get_bucket_from_hash
}.
Proof.
  - apply hm_rep_init, hash_bucket_range.
  - intros t m k [Ls Hok]. by apply (get_elem_ok _ _ hash_bucket_range Ls).
  - intros t m k d Hr. by apply (set_elem_ok _ _ hash_bucket_range).
Defined.
