(* ===== verification/Futex.v ===== *)
(** * Futexes (proc/sched_syscalls.c)

    A futex is a word of physical memory; the threads that wait for it are in
    the slots of a list that grows and is found through a hash map.  The state
    is the kernel's ([Kernel.v]) with the globals of the file: the map ([None] is
    the null pointer it starts as), the lists by their addresses, and the lock. *)

From S2P Require Import Prelude Locks Blocks Bytes Vmm Vfs Kernel Stack Proc Sched KeyMap.

Record futex_wait_list_t : Type := mk_waits {
  waiting : option (block Z);
  w_count : Z
}.
#[export] Instance eta_futex_wait_list_t : Eta futex_wait_list_t := λ r, mk_waits (waiting r) (w_count r).

Record futex_st (M : Type) : Type := mk_futex {
  fkern : kstate;
  futex_waiters : option M;
  waits : gmap Z futex_wait_list_t;
  futex_lock : Z
}.
Arguments mk_futex {M} _ _ _ _.
Arguments fkern {M} _.
Arguments futex_waiters {M} _.
Arguments waits {M} _.
Arguments futex_lock {M} _.
#[export] Instance eta_futex_st M : Eta (futex_st M) :=
  λ r, mk_futex (fkern r) (futex_waiters r) (waits r) (futex_lock r).

Section ops.
Context {M : Type} `{!KeyMap M} (junk : Z → list Z).
(** The time stamp counter, as in [Sched.v]. *)
Context (tsc : nat → Z).
Abbreviation xM := (stM (futex_st M)).

Definition on_fkern {A} (m : kM A) : xM A := zoom fkern (λ k s, s <| fkern := k |>) m.

Definition futex_acquire : xM unit :=
  s ← get;
  match spinlock_lock (futex_lock s) with
  | Ok l => modify (λ s, s <| futex_lock := l |>)
  | Crash c => crashM c
  end.
Definition futex_release : xM unit := modify (λ s, s <| futex_lock := spinlock_unlock (futex_lock s) |>).

(** The list at an address. *)
Definition waits_at (a : Z) : xM futex_wait_list_t := s ← get; of_opt (waits s !! a).
Definition put_waits (a : Z) (w : futex_wait_list_t) : xM unit := modify (λ s, s <| waits := <[a := w]> (waits s) |>).

(** [waiting_threads->waiting[i]] *)
Definition get_waiting (a i : Z) : xM Z := w ← waits_at a; b ← of_opt (waiting w); of_opt (idx (b_data b) i).
Definition set_waiting (a i t : Z) : xM unit :=
  w ← waits_at a;
  b ← of_opt (waiting w);
  if (0 <=? i) && (i <? zlen (b_data b))
  then put_waits a (w <| waiting := Some (mk_block (b_size b) (upd (b_data b) i t)) |>)
  else crashM Fault.

(** [hashmap_get_elem(futex_waiters, futex)]; the map is there. *)
Definition waiters_get (futex : Z) : xM Z :=
  s ← get;
  m ← of_opt (futex_waiters s);
  match km_get futex m with
  | Ok (a, m') => modify (λ s, s <| futex_waiters := Some m' |>) ;; mret a
  | Crash c => crashM c
  end.
Definition waiters_set (futex a : Z) : xM unit :=
  s ← get;
  m ← of_opt (futex_waiters s);
  match km_set futex a m with
  | Ok (_, m') => modify (λ s, s <| futex_waiters := Some m' |>)
  | Crash c => crashM c
  end.

(** [n] slots from [i] on: the first thread found is made ready and leaves its slot. *)
Fixpoint wake_first (n : nat) (a i : Z) : xM unit :=
  match n with
  | O => mret tt
  | S n' =>
      t ← get_waiting a i;
      if negb (t =? 0) then
        on_fkern sched_acquire ;;
        on_fkern (upd_thread t (λ t, t <| t_state := READY |>)) ;;
        on_fkern sched_release ;;
        set_waiting a i 0
      else wake_first n' a (i + 1)
  end.

Definition futex_wake (futex : Z) : xM Z :=
  futex_acquire ;;
  s ← get;
  match futex_waiters s with
  | None => futex_release ;; mret 0
  | Some _ =>
      a ← waiters_get futex;
      if a =? 0 then futex_release ;; mret 0
      else
        w ← waits_at a;
        wake_first (Z.to_nat (w_count w)) a 0 ;;
        futex_release ;;
        mret 0
  end.

(** The first empty of [n] slots from [i] on, or -1. *)
Fixpoint empty_slot (n : nat) (a i : Z) : xM Z :=
  match n with
  | O => mret (-1)
  | S n' => t ← get_waiting a i; if t =? 0 then mret i else empty_slot n' a (i + 1)
  end.

(** The list of a futex, made when there is none. *)
Definition wait_list (futex : Z) : xM Z :=
  s ← get;
  (match futex_waiters s with None => modify (λ s, s <| futex_waiters := Some km_new |>) | Some _ => mret tt end) ;;
  a ← waiters_get futex;
  if a =? 0 then
    a ← on_fkern kalloc;
    put_waits a (mk_waits None 0) ;;
    waiters_set futex a ;;
    mret a
  else mret a.

(** A slot for one more thread. *)
Definition take_slot (a : Z) : xM Z :=
  w ← waits_at a;
  index ← empty_slot (Z.to_nat (w_count w)) a 0;
  if index =? -1 then
    w ← waits_at a;
    let index := w_count w in
    let count := u32 (w_count w + 1) in
    match krealloc_block 0 8 junk (waiting w) count with
    | Ok b => put_waits a (mk_waits (Some b) count) ;; mret index
    | Crash c => crashM c
    end
  else mret index.

(** The current thread enters the list and is blocked; the lock of the scheduler stays held. *)
Definition enqueue (futex : Z) : xM unit :=
  a ← wait_list futex;
  on_fkern sched_acquire ;;
  cur_thread ← on_fkern get_cur_thread;
  index ← take_slot a;
  set_waiting a index cur_thread ;;
  on_fkern (upd_thread cur_thread (λ t, t <| t_state := BLOCKED |>)) ;;
  futex_release.

(** The 32-bit word at [a]. *)
Definition read_word (a : Z) : kM Z := gets (λ s, le_word (load_bytes (kmem s) a 4)).

(** The result, and the frame of the thread that runs next: [r] is the frame
    [int $254] pushes. *)
Definition futex_wait (r : int_reg_t) (futex expected_value : Z) : xM (Z * int_reg_t) :=
  let higher_half_futex := GET_HIGHER_HALF futex in
  futex_acquire ;;
  v ← on_fkern (read_word higher_half_futex);
  if negb (v =? expected_value) then futex_release ;; mret (1, r)
  else
    enqueue futex ;;
    r' ← on_fkern (force_unlocked_schedule tsc r);
    mret (0, r').
End ops.

(** ** Correctness of futexes

    What a futex promises, as a queue of slots per futex: a thread that waits
    takes the first empty slot (or a new one) and is blocked, waking makes the
    first thread of the queue ready and empties its slot, and neither touches
    the queue of another futex. *)

(** ** One list *)

Definition slots (w : futex_wait_list_t) : list Z :=
  match waiting w with None => [] | Some b => take (Z.to_nat (w_count w)) (b_data b) end.

Definition waits_ok (w : futex_wait_list_t) : Prop :=
  0 ≤ w_count w < U32_MOD ∧ match waiting w with None => w_count w = 0 | Some b => block_ok 8 b ∧ b_size b = w_count w end.

Lemma block_room (b : block Z) : block_ok 8 b → b_size b ≤ zlen (b_data b).
Proof. intros [H0 ->]. apply capacity_ge; [done|lia]. Qed.

Lemma length_slots w : waits_ok w → length (slots w) = Z.to_nat (w_count w).
Proof.
  intros [H0 Hw]. unfold slots. destruct (waiting w) as [b|]; [|by rewrite Hw]. destruct Hw as [Hb Hs].
  pose proof (block_room b Hb). rewrite length_take. unfold zlen in *. lia.
Qed.

(** A thread enters a queue; it waits behind those in front of its slot. *)
Definition enter (t : Z) (l : list Z) : list Z :=
  match list_find (λ x, x = 0) l with Some (i, _) => <[i := t]> l | None => l ++ [t] end.
(** The threads that wait. *)
Definition waiters (l : list Z) : list Z := filter (λ x, x ≠ 0) l.

Lemma waiters_enter t l : t ≠ 0 → waiters (enter t l) ≡ₚ t :: waiters l.
Proof.
  intros Ht. unfold enter, waiters. destruct (list_find _ l) as [[i x]|] eqn:E.
  - apply list_find_Some in E as (Hi & -> & _). rewrite <-(take_drop_middle l i 0 Hi) at 2.
    rewrite insert_take_drop by (by apply lookup_lt_Some in Hi). rewrite !filter_app, !filter_cons.
    rewrite decide_True by done. rewrite decide_False by (intros []; done). by rewrite Permutation_middle.
  - rewrite filter_app, filter_cons, decide_True by done. by rewrite <-Permutation_cons_append.
Qed.

Lemma waiters_leave l i t : l !! i = Some t → t ≠ 0 → waiters l ≡ₚ t :: waiters (<[i := 0]> l).
Proof.
  intros Hi Ht. unfold waiters. rewrite insert_take_drop by (by apply lookup_lt_Some in Hi).
  rewrite <-(take_drop_middle l i t Hi) at 1. rewrite !filter_app, !filter_cons, decide_True by done.
  rewrite decide_False by (intros []; done). by rewrite Permutation_middle.
Qed.

Section futex.
Context {M : Type} `{KeyMapLaws M} (junk : Z → list Z) (tsc : nat → Z).
Implicit Types (s : futex_st M) (m : gmap Z Z).

Lemma on_fkern_ok {A} (f : kM A) s a k : f (fkern s) = Ok (a, k) → on_fkern f s = Ok (a, s <| fkern := k |>).
Proof. intros E. unfold on_fkern, zoom. by rewrite E. Qed.

Lemma waits_at_ok s a w : waits s !! a = Some w → waits_at a s = Ok (w, s).
Proof. intros E. unfold waits_at. mstep. by rewrite E. Qed.

Lemma get_waiting_ok s a w (i : nat) t :
  waits s !! a = Some w → slots w !! i = Some t → get_waiting a (Z.of_nat i) s = Ok (t, s).
Proof.
  intros Hw Hi. unfold get_waiting. mrun (waits_at_ok s a w Hw). unfold slots in Hi.
  destruct (waiting w) as [b|]; [|done]. mstep. apply lookup_take_Some in Hi as [Hi _].
  unfold idx. rewrite (proj2 (Z.leb_le _ _)), Nat2Z.id, Hi by lia. done.
Qed.

Lemma set_waiting_ok s a w (i : nat) t : waits s !! a = Some w → waits_ok w → (i < length (slots w))%nat →
  ∃ w', set_waiting a (Z.of_nat i) t s = Ok (tt, s <| waits := <[a := w']> (waits s) |>) ∧ waits_ok w' ∧ slots w' = <[i := t]> (slots w).
Proof.
  intros Hw Hok Hi. rewrite (length_slots w Hok) in Hi. destruct Hok as [Hc Hok]. unfold set_waiting.
  mrun (waits_at_ok s a w Hw). unfold slots. destruct (waiting w) as [b|] eqn:Eb; [|rewrite Hok in Hi; cbn in Hi; lia].
  destruct Hok as [Hb Hs]. pose proof (block_room b Hb). mstep. rewrite (proj2 (Z.leb_le _ _)), (proj2 (Z.ltb_lt _ _)) by lia.
  eexists. split; [reflexivity|]. cbn [waiting w_count]. split.
  - split; [done|]. split; [|done]. destruct Hb as [Hb0 Hb1]. split; [done|]. cbn. by rewrite zlen_upd.
  - cbn. unfold upd. rewrite Nat2Z.id. by rewrite take_insert_lt by lia.
Qed.

(** ** The searches *)

Lemma empty_slot_ok s a w l : waits s !! a = Some w → ∀ pre, slots w = pre ++ l →
  empty_slot (length l) a (zlen pre) s =
    Ok (match list_find (λ x, x = 0) l with Some (j, _) => zlen pre + Z.of_nat j | None => -1 end, s).
Proof.
  intros Hw. induction l as [|t l IH]; intros pre Hs; [done|]. cbn [length empty_slot].
  assert (slots w !! length pre = Some t) as Ht by (rewrite Hs; apply list_lookup_middle; done).
  mrun (get_waiting_ok s a w (length pre) t Hw Ht). destruct (t =? 0) eqn:E; zbool.
  - subst t. cbn [list_find]. rewrite decide_True by done. unfold mret, stM_ret. do 2 f_equal. lia.
  - pose proof (IH (pre ++ [t])) as IH'. rewrite zlen_app in IH'. change (zlen [t]) with 1 in IH'.
    rewrite IH' by (by rewrite Hs, <-app_assoc). cbn [list_find]. rewrite decide_False by done.
    destruct (list_find _ l) as [[j x]|]; [|done]. cbn. do 2 f_equal. lia.
Qed.

(** The kernel with a thread made ready. *)
Definition ready_kern (k : kstate) (t : Z) (th : thread_t) : kstate := k <| theap := <[t := th <| t_state := READY |>]> (theap k) |>.

Lemma make_ready_ok k t th : unlocked (sched_lock k) → theap k !! t = Some th →
  (sched_acquire ;; upd_thread t (λ t, t <| t_state := READY |>) ;; sched_release) k = Ok (tt, ready_kern k t th).
Proof.
  intros Hl Ht. mrun (sched_acquire_ok k Hl). erewrite bind_ok; [|by apply upd_thread_ok]. cbv beta.
  unfold sched_release, modify, ready_kern. do 2 f_equal. destruct k; cbn in *. by rewrite lock_unlock.
Qed.

Lemma wake_first_ok s a w l : waits s !! a = Some w → waits_ok w → unlocked (sched_lock (fkern s)) →
  (∀ t, t ∈ l → t ≠ 0 → is_Some (theap (fkern s) !! t)) → ∀ pre, slots w = pre ++ l →
  match list_find (λ x, x ≠ 0) l with
  | None => wake_first (length l) a (zlen pre) s = Ok (tt, s)
  | Some (j, t) => ∃ th w', theap (fkern s) !! t = Some th ∧ waits_ok w' ∧ slots w' = <[(length pre + j)%nat := 0]> (slots w) ∧
      wake_first (length l) a (zlen pre) s =
        Ok (tt, s <| fkern := ready_kern (fkern s) t th |> <| waits := <[a := w']> (waits s) |>)
  end.
Proof.
  intros Hw Hok Hl. induction l as [|t l IH]; intros Hin pre Hs; [done|]. cbn [length wake_first].
  assert (slots w !! length pre = Some t) as Ht by (rewrite Hs; apply list_lookup_middle; done).
  cbn [list_find]. destruct (t =? 0) eqn:E; zbool.
  - rewrite decide_False by (intros []; done). subst t.
    specialize (IH ltac:(intros; apply Hin; [by right|done]) (pre ++ [0])). rewrite zlen_app, length_app in IH.
    change (zlen [0]) with 1 in IH. specialize (IH ltac:(by rewrite Hs, <-app_assoc)).
    destruct (list_find _ l) as [[j x]|]; cbn [fmap option_fmap option_map prod_map].
    + destruct IH as (th & w' & E1 & E2 & E3 & E4). exists th, w'. split_and!; [done|done| |].
      * rewrite E3. f_equal. cbn. lia.
      * mrun (get_waiting_ok s a w (length pre) 0 Hw Ht). exact E4.
    + mrun (get_waiting_ok s a w (length pre) 0 Hw Ht). exact IH.
  - rewrite decide_True by done. cbn. destruct (Hin t ltac:(by left) E) as [th Hth].
    set (s1 := s <| fkern := ready_kern (fkern s) t th |>).
    destruct (set_waiting_ok s1 a w (length pre) 0 Hw Hok) as (w' & E1 & E2 & E3); [by apply lookup_lt_Some in Ht|].
    exists th, w'. split_and!; [done|done|by rewrite Nat.add_0_r|].
    mrun (get_waiting_ok s a w (length pre) t Hw Ht). rewrite (proj2 (Z.eqb_neq t 0)) by done. cbn [negb].
    pose proof (make_ready_ok (fkern s) t th Hl Hth) as Er. apply bind_inv in Er as ([] & k1 & A1 & Er).
    apply bind_inv in Er as ([] & k2 & A2 & A3).
    erewrite bind_ok; [|by apply on_fkern_ok]. cbv beta. erewrite bind_ok; [|by apply on_fkern_ok]. cbv beta.
    erewrite bind_ok; [|by apply on_fkern_ok]. cbv beta. exact E1.
Qed.

(** ** The lists of all futexes *)

(** [m] gives the address of the list of a futex. *)
Record futex_ok s m : Prop := {
  x_map : match futex_waiters s with None => m = ∅ | Some t => km_rep t m end;
  x_addr k a : m !! k = Some a → 0 < a < kbrk (fkern s) ∧ ∃ w, waits s !! a = Some w ∧ waits_ok w;
  x_inj k k' a : m !! k = Some a → m !! k' = Some a → k = k';
  x_brk : 0 < kbrk (fkern s)
}.

Definition queue s m (k : Z) : list Z :=
  match m !! k with Some a => match waits s !! a with Some w => slots w | None => [] end | None => [] end.

Lemma queue_found s m k a w : m !! k = Some a → waits s !! a = Some w → queue s m k = slots w.
Proof. unfold queue. by intros -> ->. Qed.

(** The invariant and the queues depend on the lists, the map and the heap's end. *)
Lemma futex_ok_same s s' m :
  futex_ok s m → futex_waiters s' = futex_waiters s → waits s' = waits s → kbrk (fkern s') = kbrk (fkern s) → futex_ok s' m.
Proof. intros [X1 X2 X3 X4] E1 E2 E3. split; rewrite ?E1, ?E2, ?E3; auto. Qed.

Lemma futex_ok_put s m k a w : futex_ok s m → m !! k = Some a → waits_ok w →
  let s' := s <| waits := <[a := w]> (waits s) |> in
  futex_ok s' m ∧ queue s' m k = slots w ∧ ∀ k', k' ≠ k → queue s' m k' = queue s m k'.
Proof.
  intros [X1 X2 X3 X4] Hk Hw s'. split_and!.
  - split; [done| |done|done]. intros k' a' Hk'. destruct (X2 k' a' Hk') as [Hr (w0 & Hw0 & Ho)]. split; [done|]. cbn.
    destruct (decide (a' = a)) as [-> |Hne]; [exists w; by rewrite lookup_insert_eq|exists w0; by rewrite lookup_insert_ne].
  - apply (queue_found s' m k a); [done|]. apply lookup_insert_eq.
  - intros k' Hne. unfold queue. destruct (m !! k') as [a'|] eqn:E; [|done]. cbn.
    rewrite lookup_insert_ne; [done|]. intros ->. apply Hne. by apply (X3 k' k a').
Qed.

Lemma waiters_get_ok s m t k : futex_waiters s = Some t → km_rep t m → waiters_get k s = Ok (default 0 (m !! k), s).
Proof.
  intros Ht Hr. unfold waiters_get. mstep. rewrite Ht. mstep. rewrite (km_get_ok t m k Hr). mstep.
  unfold mret, stM_ret. do 2 f_equal. destruct s; cbn in *. by rewrite Ht.
Qed.

Lemma futex_acquire_ok s : unlocked (futex_lock s) → futex_acquire s = Ok (tt, s <| futex_lock := Z.lor (futex_lock s) 1 |>).
Proof. intros Hl. unfold futex_acquire. mstep. by rewrite (spinlock_lock_free _ Hl). Qed.

Lemma futex_release_ok s : unlocked (futex_lock s) → futex_release (s <| futex_lock := Z.lor (futex_lock s) 1 |>) = Ok (tt, s).
Proof.
  intros Hl. unfold futex_release, modify. do 2 f_equal. destruct s; cbn in *. by rewrite lock_unlock.
Qed.

(** ** Waiting *)

Lemma waiters_set_ok s m t k a : futex_waiters s = Some t → km_rep t m →
  ∃ t', waiters_set k a s = Ok (tt, s <| futex_waiters := Some t' |>) ∧ km_rep t' (<[k := a]> m).
Proof.
  intros Ht Hr. destruct (km_set_ok t m k a Hr) as (t' & E & Hr'). exists t'. split; [|done].
  unfold waiters_set. mstep. rewrite Ht. mstep. by rewrite E.
Qed.

(** A new list at the end of the heap. *)
Definition with_new s (k : Z) (t : M) : futex_st M :=
  s <| fkern := fkern s <| kbrk := kbrk (fkern s) + 65536 |> |> <| waits := <[kbrk (fkern s) := mk_waits None 0]> (waits s) |>
    <| futex_waiters := Some t |>.

Lemma futex_ok_new s m k t : futex_ok s m → m !! k = None → km_rep t (<[k := kbrk (fkern s)]> m) →
  futex_ok (with_new s k t) (<[k := kbrk (fkern s)]> m) ∧
  ∀ k', queue (with_new s k t) (<[k := kbrk (fkern s)]> m) k' = queue s m k'.
Proof.
  intros [X1 X2 X3 X4] Hk Hr. set (b := kbrk (fkern s)) in *.
  assert (∀ k' a, m !! k' = Some a → a ≠ b) as Hb by (intros k' a Ha ->; apply X2 in Ha as [Ha _]; lia).
  split; [split|].
  - exact Hr.
  - intros k' a Ha. cbn. destruct (decide (k' = k)) as [-> |Hne].
    + rewrite lookup_insert_eq in Ha. injection Ha as <-. split; [lia|]. exists (mk_waits None 0). by rewrite lookup_insert_eq.
    + rewrite lookup_insert_ne in Ha by done. destruct (X2 k' a Ha) as [Hr' (w & Hw & Ho)]. split; [fold b in Hr'; lia|].
      exists w. rewrite lookup_insert_ne; [done|]. intros E. by apply (Hb k' a).
  - intros k1 k2 a. rewrite !lookup_insert_Some. intros [[<- <-]|[N1 E1]] [[<- E2]|[N2 E2]]; [done| | |by apply (X3 k1 k2 a)].
    + by destruct (Hb k2 b E2).
    + subst a. by destruct (Hb k1 b E1).
  - cbn. lia.
  - intros k'. unfold queue. cbn. destruct (decide (k' = k)) as [-> |Hne].
    + by rewrite lookup_insert_eq, lookup_insert_eq, Hk.
    + rewrite lookup_insert_ne by done. destruct (m !! k') as [a|] eqn:Ea; [|done].
      rewrite lookup_insert_ne; [done|]. intros E. by apply (Hb k' a).
Qed.

Lemma wait_list_ok s m k : futex_ok s m →
  ∃ a m' s', wait_list k s = Ok (a, s') ∧ futex_ok s' m' ∧ m' !! k = Some a ∧ (∀ k', queue s' m' k' = queue s m k') ∧
    (∃ b, fkern s' = fkern s <| kbrk := b |>) ∧ futex_lock s' = futex_lock s.
Proof.
  intros Hok. unfold wait_list. mstep.
  set (s0 := match futex_waiters s with Some _ => s | None => s <| futex_waiters := Some km_new |> end).
  assert (∃ t, futex_waiters s0 = Some t ∧ km_rep t m ∧ fkern s0 = fkern s ∧ waits s0 = waits s ∧ futex_lock s0 = futex_lock s ∧
    (match futex_waiters s with None => modify (λ s, s <| futex_waiters := Some km_new |>) | Some _ => mret tt end) s = Ok (tt, s0))
    as (t & Et & Hr & Ek & Ew & El & E0).
  { pose proof (x_map _ _ Hok) as X. unfold s0. destruct (futex_waiters s) as [t|] eqn:Et; [by exists t|].
    exists km_new. split_and!; try done. rewrite X. apply km_new_ok. }
  mrun E0. mrun (waiters_get_ok s0 m t k Et Hr). pose proof (x_addr _ _ Hok) as X2.
  destruct (m !! k) as [a|] eqn:Em; cbn [default from_option id].
  - destruct (X2 k a Em) as [Ha _]. rewrite (proj2 (Z.eqb_neq a 0)) by lia. exists a, m, s0.
    assert (futex_ok s0 m) as Hok0 by (destruct Hok as [Y1 Y2 Y3 Y4]; split; rewrite ?Et, ?Ek, ?Ew; done).
    split_and!; try done; [intros; unfold queue; by rewrite Ew|]. exists (kbrk (fkern s)). rewrite Ek. by destruct (fkern s).
  - cbn [Z.eqb].
    assert (on_fkern kalloc s0 = Ok (kbrk (fkern s), s0 <| fkern := fkern s <| kbrk := kbrk (fkern s) + 65536 |> |>)) as E1.
    { rewrite <-Ek. by apply on_fkern_ok. }
    mrun E1. mstep.
    set (s1 := s0 <| fkern := fkern s <| kbrk := kbrk (fkern s) + 65536 |> |> <| waits := <[kbrk (fkern s) := mk_waits None 0]> (waits s) |>).
    destruct (waiters_set_ok s1 m t k (kbrk (fkern s)) Et Hr) as (t' & E2 & Hr').
    assert (s1 <| futex_waiters := Some t' |> = with_new s k t') as Es.
    { unfold s1, with_new. destruct s0, s; cbn in *. by subst. }
    rewrite Es in E2. unfold s1 in E2. rewrite <-Ew in E2. erewrite bind_ok; [|exact E2]. cbv beta.
    destruct (futex_ok_new s m k t' Hok Em Hr') as [Hok' Hq]. exists (kbrk (fkern s)), (<[k := kbrk (fkern s)]> m), (with_new s k t').
    split_and!; [done|done|apply lookup_insert_eq|done|by eexists|done].
Qed.

(** The slot a thread takes: the first empty one, or one more. *)
Lemma take_slot_ok s a w : waits s !! a = Some w → waits_ok w → w_count w + 1 < U32_MOD →
  ∃ w' i, take_slot junk a s = Ok (Z.of_nat i, s <| waits := <[a := w']> (waits s) |>) ∧ waits_ok w' ∧
    (i < length (slots w'))%nat ∧ ∀ t, <[i := t]> (slots w') = enter t (slots w).
Proof.
  intros Hw Hok Hc. unfold take_slot. mrun (waits_at_ok s a w Hw).
  pose proof (empty_slot_ok s a w (slots w) Hw [] eq_refl) as Ee. change (zlen []) with 0 in Ee.
  rewrite (length_slots w Hok) in Ee. mrun Ee. destruct (list_find _ (slots w)) as [[i x]|] eqn:El.
  - rewrite (proj2 (Z.eqb_neq _ _)) by lia. exists w, i. rewrite Z.add_0_l. apply list_find_Some in El as Hi. destruct Hi as (Hi & _ & _).
    split_and!; [|done|by apply lookup_lt_Some in Hi|intros t; unfold enter; by rewrite El].
    unfold mret, stM_ret. do 2 f_equal. destruct s; cbn in *. by rewrite insert_id.
  - cbn [Z.eqb Pos.eqb]. mrun (waits_at_ok s a w Hw). destruct Hok as [H1 Hok]. pose proof (length_slots w (conj H1 Hok)) as Hlen.
    unfold u32. rewrite Z.mod_small by lia.
    assert (∃ b, krealloc_block 0 8 junk (waiting w) (w_count w + 1) = Ok b ∧ block_ok 8 b ∧ b_size b = w_count w + 1 ∧
      take (Z.to_nat (w_count w + 1)) (b_data b) = slots w ++ [0]) as (b & Eb & Hb & Hs & Hd).
    { unfold slots. destruct (waiting w) as [b|].
      - destruct Hok as [Hb Hs]. destruct (krealloc_grow 0 8 junk ltac:(lia) b (w_count w + 1) Hb ltac:(lia)) as (b' & E1 & E2 & E3 & E4).
        exists b'. split_and!; try done. rewrite E4, Hs. f_equal. by replace (Z.to_nat (w_count w + 1 - w_count w)) with 1%nat by lia.
      - destruct (krealloc_null 0 8 junk ltac:(lia) (w_count w + 1) ltac:(lia)) as (b' & E1 & E2 & E3 & E4). exists b'.
        split_and!; try done. rewrite E4, Hok. done. }
    rewrite Eb. mstep. exists (mk_waits (Some b) (w_count w + 1)), (Z.to_nat (w_count w)). rewrite Z2Nat.id by lia.
    assert (slots (mk_waits (Some b) (w_count w + 1)) = slots w ++ [0]) as Esl by exact Hd.
    split_and!; [done|split; [cbn; lia|done]|rewrite Esl, length_app, Hlen; cbn; lia|].
    intros t. rewrite Esl, insert_app_r_alt by lia. unfold enter. rewrite El. by rewrite Hlen, Nat.sub_diag.
Qed.

(** The current thread enters the queue. *)
Lemma enqueue_ok s m k th : futex_ok s m → unlocked (sched_lock (fkern s)) → zlen (queue s m k) + 1 < U32_MOD →
  theap (fkern s) !! current_thread (locals (fkern s)) = Some th →
  ∃ m' s', enqueue junk k s = Ok (tt, s') ∧ futex_ok s' m' ∧ futex_lock s' = spinlock_unlock (futex_lock s) ∧
    queue s' m' k = enter (current_thread (locals (fkern s))) (queue s m k) ∧ (∀ k', k' ≠ k → queue s' m' k' = queue s m k') ∧
    ∃ b, fkern s' = fkern s <| kbrk := b |> <| sched_lock := Z.lor (sched_lock (fkern s)) 1 |>
      <| theap := <[current_thread (locals (fkern s)) := th <| t_state := BLOCKED |>]> (theap (fkern s)) |>.
Proof.
  intros Hok Hs Hc Ht. unfold enqueue. destruct (wait_list_ok s m k Hok) as (a & m' & s1 & E1 & Hok1 & Ha & Hq1 & (b & Ek) & El).
  mrun E1. destruct (x_addr _ _ Hok1 k a Ha) as [_ (w & Hw & Hwo)].
  erewrite bind_ok; [|apply on_fkern_ok, sched_acquire_ok; by rewrite Ek]. cbv beta.
  set (s2 := s1 <| fkern := fkern s1 <| sched_lock := Z.lor (sched_lock (fkern s1)) 1 |> |>).
  assert (slots w = queue s m k) as Esl by (by rewrite <-Hq1, (queue_found s1 m' k a w)).
  destruct (take_slot_ok s2 a w Hw Hwo) as (w1 & i & E2 & Hw1 & Hi & Hent).
  { rewrite <-Esl in Hc. unfold zlen in Hc. rewrite length_slots in Hc by done. destruct Hwo. lia. }
  set (c := current_thread (locals (fkern s))) in *.
  assert (on_fkern get_cur_thread s2 = Ok (c, s2)) as Ec.
  { unfold on_fkern, zoom, get_cur_thread, gets. cbn [fkern]. unfold s2, c. cbn. by rewrite Ek. }
  mrun Ec. mrun E2. set (s3 := s2 <| waits := <[a := w1]> (waits s2) |>).
  destruct (set_waiting_ok s3 a w1 i c (lookup_insert_eq _ _ _) Hw1 Hi) as (w2 & E3 & Hw2 & Hs2). mrun E3.
  set (s4 := s3 <| waits := <[a := w2]> (waits s3) |>).
  assert (theap (fkern s4) !! c = Some th) as Ht4 by (change (theap (fkern s1) !! c = Some th); by rewrite Ek).
  erewrite bind_ok; [|apply on_fkern_ok; by apply upd_thread_ok]. cbv beta.
  assert (futex_ok s2 m') as Hok2 by (by apply (futex_ok_same s1)).
  destruct (futex_ok_put s2 m' k a w2 Hok2 Ha Hw2) as (Hok4 & Hqk & Hqo).
  set (s5 := s2 <| waits := <[a := w2]> (waits s2) |>) in *.
  set (k5 := fkern s1 <| sched_lock := Z.lor (sched_lock (fkern s1)) 1 |> <| theap := <[c := th <| t_state := BLOCKED |>]> (theap (fkern s1)) |>).
  exists m', (s5 <| fkern := k5 |> <| futex_lock := spinlock_unlock (futex_lock s1) |>). split.
  { unfold futex_release, modify. do 2 f_equal. unfold s4, s3, s5, s2, k5. cbn. by rewrite insert_insert_eq. }
  split_and!; [by apply (futex_ok_same s5)|by rewrite <-El|etransitivity; [exact Hqk|]; by rewrite Hs2, Hent, Esl| |exists b; unfold k5; by rewrite Ek].
  intros k' Hne. rewrite <-Hq1. exact (Hqo k' Hne).
Qed.
End futex.


Section theorems.
Context {M : Type} `{KeyMapLaws M} (junk : Z → list Z) (tsc : nat → Z).

(** C26: [futex_wake] makes exactly one thread ready: the first in the slots of the
    futex, whose slot is empty afterwards; the queues of all other futexes and
    everything else are as before.  When nobody waits nothing changes. *)
Theorem futex_wake_correct (s : futex_st M) m futex :
  futex_ok s m → unlocked (futex_lock s) → unlocked (sched_lock (fkern s)) →
  (∀ t, t ∈ waiters (queue s m futex) → is_Some (theap (fkern s) !! t)) →
  match list_find (λ x, x ≠ 0) (queue s m futex) with
  | None => futex_wake futex s = Ok (0, s)
  | Some (i, t) => ∃ th s', theap (fkern s) !! t = Some th ∧ futex_wake futex s = Ok (0, s') ∧ futex_ok s' m ∧
      unlocked (futex_lock s') ∧ fkern s' = ready_kern (fkern s) t th ∧ queue s' m futex = <[i := 0]> (queue s m futex) ∧
      waiters (queue s m futex) ≡ₚ t :: waiters (queue s' m futex) ∧ ∀ k, k ≠ futex → queue s' m k = queue s m k
  end.
Proof.
  intros Hok Hl Hs Hin. unfold futex_wake. pose proof Hok as [X1 X2 _ _].
  set (s0 := s <| futex_lock := Z.lor (futex_lock s) 1 |>).
  assert (futex_acquire s = Ok (tt, s0)) as Ea by (by apply futex_acquire_ok).
  destruct (m !! futex) as [a|] eqn:Em.
  - destruct (X2 futex a Em) as [Ha (w & Hw & Hwo)]. rewrite (queue_found s m futex a w Em Hw) in *.
    assert ((s1 ← get; match futex_waiters s1 with None => futex_release ;; mret 0 | Some _ => b ← waiters_get futex;
      if b =? 0 then futex_release ;; mret 0 else w ← waits_at b; wake_first (Z.to_nat (w_count w)) b 0 ;; futex_release ;; mret 0 end) s0
      = (wake_first (length (slots w)) a 0 ;; futex_release ;; mret 0) s0) as Eb.
    { mstep. cbn [futex_waiters s0]. change (futex_waiters s0) with (futex_waiters s).
      destruct (futex_waiters s) as [t|] eqn:Et; [|by rewrite X1, lookup_empty in Em].
      mrun (waiters_get_ok s0 m t futex Et X1). rewrite Em. cbn [default from_option id]. rewrite (proj2 (Z.eqb_neq a 0)) by lia.
      mrun (waits_at_ok s0 a w Hw). by rewrite length_slots. }
    pose proof (wake_first_ok s0 a w (slots w) Hw Hwo Hs) as Hf.
    specialize (Hf ltac:(intros t Ht Hn; apply Hin; by apply list_elem_of_filter) [] eq_refl). change (zlen []) with 0 in Hf.
    destruct (list_find _ (slots w)) as [[i t]|] eqn:El.
    + destruct Hf as (th & w' & E1 & E2 & E3 & E4). cbn [length Nat.add] in E3. mrun Ea. rewrite Eb. mrun E4.
      set (s1 := s <| fkern := ready_kern (fkern s) t th |>).
      assert (futex_ok s1 m) as Hok1 by (by apply (futex_ok_same s)).
      destruct (futex_ok_put s1 m futex a w' Hok1 Em E2) as (Hok2 & Hq & Hqn).
      set (s2 := s1 <| waits := <[a := w']> (waits s1) |>) in *. exists th, s2. split; [done|].
      erewrite bind_ok; [|exact (futex_release_ok s2 Hl)]. cbv beta.
      split_and!; [done|done|done|done|by rewrite Hq|rewrite Hq, E3|exact Hqn].
      apply list_find_Some in El as (Hi & Ht & _). by apply waiters_leave.
    + mrun Ea. rewrite Eb. mrun Hf. by mrun (futex_release_ok s Hl).
  - assert (queue s m futex = []) as -> by (unfold queue; by rewrite Em). cbn [list_find]. mrun Ea. mstep.
    change (futex_waiters s0) with (futex_waiters s). destruct (futex_waiters s) as [t|] eqn:Et.
    + mrun (waiters_get_ok s0 m t futex Et X1). rewrite Em. cbn [default from_option Z.eqb]. by mrun (futex_release_ok s Hl).
    + by mrun (futex_release_ok s Hl).
Qed.

(** [futex_wait] compares and sleeps in one step under the lock: when the
    word has another value than the caller expects it returns 1 and nothing
    changes; otherwise the current thread takes the first empty slot of the
    futex's queue, is blocked and the scheduler picks another thread, with the
    lock of the futexes free again and the queues of the other futexes untouched. *)
Theorem futex_wait_correct (r : int_reg_t) (s : futex_st M) m futex expected th :
  futex_ok s m → unlocked (futex_lock s) → unlocked (sched_lock (fkern s)) →
  theap (fkern s) !! current_thread (locals (fkern s)) = Some th → zlen (queue s m futex) + 1 < U32_MOD →
  let word := le_word (load_bytes (kmem (fkern s)) (GET_HIGHER_HALF futex) 4) in
  let cur := current_thread (locals (fkern s)) in
  (word ≠ expected → futex_wait junk tsc r futex expected s = Ok ((1, r), s)) ∧
  (word = expected → ∃ m' s' b,
     futex_wait junk tsc r futex expected s = (r' ← on_fkern (force_unlocked_schedule tsc r); mret (0, r')) s' ∧
     futex_ok s' m' ∧ unlocked (futex_lock s') ∧
     fkern s' = fkern s <| kbrk := b |> <| sched_lock := Z.lor (sched_lock (fkern s)) 1 |>
       <| theap := <[cur := th <| t_state := BLOCKED |>]> (theap (fkern s)) |> ∧
     queue s' m' futex = enter cur (queue s m futex) ∧ (cur ≠ 0 → waiters (queue s' m' futex) ≡ₚ cur :: waiters (queue s m futex)) ∧
     ∀ k, k ≠ futex → queue s' m' k = queue s m k).
Proof.
  intros Hok Hl Hs Ht Hc word cur. unfold futex_wait. set (s0 := s <| futex_lock := Z.lor (futex_lock s) 1 |>).
  assert (on_fkern (read_word (GET_HIGHER_HALF futex)) s0 = Ok (word, s0)) as Er by (unfold on_fkern, zoom; by destruct s).
  split; intros Hw; mrun (futex_acquire_ok s Hl); fold s0; mrun Er.
  - rewrite (proj2 (Z.eqb_neq _ _)) by done. cbn [negb]. by mrun (futex_release_ok s Hl).
  - rewrite Hw, Z.eqb_refl. cbn [negb]. assert (futex_ok s0 m) as Hok0 by (by apply (futex_ok_same s)).
    destruct (enqueue_ok junk s0 m futex th Hok0 Hs Hc Ht) as (m' & s' & E & Hok' & El & Hq & Hqo & b & Ek). mrun E.
    exists m', s', b. split_and!; [done|done| |exact Ek|exact Hq| |exact Hqo].
    + rewrite El. cbn. by rewrite lock_unlock.
    + intros Hn. rewrite Hq. by apply waiters_enter.
Qed.
End theorems.

(** ** Examples *)

Definition demo_futex : futex_st (Hashmap.hashmap Z) := mk_futex demo_kernel None ∅ 0.

Lemma demo_futex_ok : futex_ok demo_futex ∅.
Proof. split; [done|done|done|vm_compute; reflexivity]. Qed.

Lemma futex_wait_correct_witness :
  futex_wait (λ _, []) (λ _, 0) (frame_of default_kernel_regs (mk_int_reg 0 0 0 0 0 0 0 0 0 0 0 0 0 0 0 0 0 0 0 0 0 0)) 4096 7 demo_futex
    = Ok ((1, frame_of default_kernel_regs (mk_int_reg 0 0 0 0 0 0 0 0 0 0 0 0 0 0 0 0 0 0 0 0 0 0)), demo_futex) ∧
  ∃ m' s', futex_ok s' m' ∧ queue s' m' 4096 = [1000] ∧ theap (fkern s') !! 1000 = Some (demo_thread 0 BLOCKED).
Proof.
  split.
  - apply (futex_wait_correct (λ _, []) (λ _, 0) _ demo_futex ∅ 4096 7 (demo_thread 0 RUNNING) demo_futex_ok);
      [reflexivity|reflexivity|vm_compute; reflexivity|vm_compute; reflexivity|vm_compute; congruence].
  - destruct (futex_wait_correct (λ _, []) (λ _, 0) (mk_int_reg 0 0 0 0 0 0 0 0 0 0 0 0 0 0 0 0 0 0 0 0 0 0) demo_futex ∅ 4096 0
      (demo_thread 0 RUNNING) demo_futex_ok) as [_ Hw];
      [reflexivity|reflexivity|vm_compute; reflexivity|vm_compute; reflexivity|].
    destruct (Hw ltac:(vm_compute; reflexivity)) as (m' & s' & b & _ & Hok & _ & Ek & Hq & _). exists m', s'.
    split_and!; [exact Hok|exact Hq|rewrite Ek; vm_compute; reflexivity].
Defined.

(** Threads 2000 and 3000 wait for the futex at 4096; the first slot is empty. *)
Definition demo_waits : futex_wait_list_t := mk_waits (Some (mk_block 3 (resize 512 0 [0; 2000; 3000]))) 3.

Lemma futex_wake_correct_witness :
  ∃ (s s' : futex_st (Hashmap.hashmap Z)) m, queue s m 4096 = [0; 2000; 3000] ∧ futex_wake 4096 s = Ok (0, s') ∧
    queue s' m 4096 = [0; 0; 3000] ∧ t_state <$> theap (fkern s') !! 2000 = Some READY.
Proof.
  destruct (km_set_ok km_new ∅ 4096 70000 km_new_ok) as (t & _ & Hr).
  set (s := mk_futex demo_kernel (Some t) {[70000 := demo_waits]} 0).
  assert (futex_ok s {[4096 := 70000]}) as Hok.
  { split; [exact Hr| | |vm_compute; reflexivity].
    - intros k a Ha. apply lookup_singleton_Some in Ha as [<- <-]. split; [vm_compute; split; reflexivity|]. exists demo_waits.
      split; [reflexivity|]. split; [vm_compute; split; congruence|]. split; [split; vm_compute; congruence|reflexivity].
    - intros k k' a Ha Ha'. apply lookup_singleton_Some in Ha as [<- _]. apply lookup_singleton_Some in Ha' as [<- _]. done. }
  pose proof (futex_wake_correct s {[4096 := 70000]} 4096 Hok eq_refl eq_refl) as Hw. exists s.
  assert (queue s {[4096 := 70000]} 4096 = [0; 2000; 3000]) as Hq by (vm_compute; reflexivity). rewrite Hq in Hw.
  destruct Hw as (th & s' & Hth & E & _ & _ & Ek & Hq' & _).
  - intros x Hx. change (x ∈ [2000; 3000]) in Hx. apply list_elem_of_In in Hx as [<- | [<- | []]]; vm_compute; eauto.
  - exists s', {[4096 := 70000]}. split_and!; [exact Hq|exact E|exact Hq'|].
    rewrite Ek. cbn. rewrite lookup_insert_eq. reflexivity.
Defined.
