(* ===== verification/ProcCalls.v ===== *)
(** * fork, execve and thread calls (proc/sched_syscalls.c, proc/syscalls.c)

    [fork] runs on the kernel together with the page tables, like the memory
    calls of [UserMemory.v].  [execve] copies its arguments into the kernel and
    asks the resource manager to replace the process; it is split at that
    request, which another thread answers.  The copies live in a heap
    ([copies]); the arrays of pointers to them are blocks of the kernel heap,
    and freeing a block of no bytes fails the assertion of [kfree]
    ([KmallocTheorems.kfree_kmalloc_zero]). *)

From S2P Require Import Prelude Locks Blocks Bytes Pmm Frames Vmm DList Vfs Kernel Stack Proc Sched SleepQueue Fd UserMemory.

Record syscall_reg_t : Type := mk_sys_regs {
  s_r15 : Z;
  s_r14 : Z;
  s_r13 : Z;
  s_r12 : Z;
  s_r11 : Z;
  s_r10 : Z;
  s_r9 : Z;
  s_r8 : Z;
  s_rsi : Z;
  s_rdi : Z;
  s_rbp : Z;
  s_rdx : Z;
  s_rcx : Z;
  s_rbx : Z;
  s_rax : Z
}.
#[export] Instance eta_syscall_reg_t : Eta syscall_reg_t :=
  λ r, mk_sys_regs (s_r15 r) (s_r14 r) (s_r13 r) (s_r12 r) (s_r11 r) (s_r10 r) (s_r9 r) (s_r8 r) (s_rsi r) (s_rdi r)
    (s_rbp r) (s_rdx r) (s_rcx r) (s_rbx r) (s_rax r).

(** ** fork *)

(** The registers of the child's first thread: the caller's, with 0 as the result. *)
Definition child_regs (r : syscall_reg_t) (user_stack : Z) (g : task_regs_t) : task_regs_t :=
  g <| r_rax := 0 |> <| r_rbx := s_rbx r |> <| r_rcx := s_rcx r |> <| r_rdx := s_rdx r |> <| r_rbp := s_rbp r |>
    <| r_rsi := s_rsi r |> <| r_rdi := s_rdi r |> <| r_r8 := s_r8 r |> <| r_r9 := s_r9 r |> <| r_r10 := s_r10 r |>
    <| r_r11 := s_r11 r |> <| r_r12 := s_r12 r |> <| r_r13 := s_r13 r |> <| r_r14 := s_r14 r |> <| r_r15 := s_r15 r |>
    <| r_rsp := user_stack |> <| r_rip := s_rcx r |> <| r_rflags := s_r11 r |>.

Section fork.
Context {F : Type} `{!FrameAlloc F} (default_sse_state : Z).
Abbreviation uM := (stM (user_st F)).

(** A copy of the calling process with the address space [new_cr3]: its pid. *)
Definition fork_process (process new_cr3 : Z) : kM Z :=
  p ← process_at process;
  forked_process ← create_process (p_name p) new_cr3;
  new_pid ← add_new_pid 1;
  modify (λ s, s <| processes := upd (processes s) new_pid forked_process |>) ;;
  upd_process forked_process (λ p, p <| p_pid := new_pid |>) ;;
  mret new_pid.

(** What the new process takes over. *)
Definition inherit (process new_process : Z) : kM unit :=
  p ← process_at process;
  upd_process new_process (λ n, n <| ppid := p_pid p |> <| uid := uid p |> <| gid := gid p |>) ;;
  brk_acquire process ;;
  p ← process_at process;
  upd_process new_process (λ n, n <| current_brk := current_brk p |>) ;;
  brk_release process.

(** A copy of the calling thread. *)
Definition fork_thread (r : syscall_reg_t) : kM Z :=
  old_thread ← get_cur_thread;
  t ← thread_at old_thread;
  thread ← create_thread default_sse_state (t_name t) (r_rip (t_regs t)) (r_rsp (t_regs t)) (ring t);
  l ← gets locals;
  upd_thread thread (λ n, n <| t_regs := child_regs r (thread_user_stack l) (t_regs n) |>) ;;
  upd_thread thread (λ n, n <| sse_region := sse_region t |>) ;;
  mret thread.

Definition fork (r : syscall_reg_t) : uM Z :=
  on_kern sched_acquire ;;
  process ← on_kern (pid ← get_cur_pid; process_slot pid);
  p ← on_kern (process_at process);
  new_cr3 ← on_vm (vmm_fork (p_cr3 p));
  new_pid ← on_kern (fork_process process new_cr3);
  new_process ← on_kern (process_slot new_pid);
  p ← on_kern (process_at process);
  let old_pid := p_pid p in
  on_kern sched_release ;;
  on_kern (clone_fds old_pid new_pid) ;;
  on_kern sched_acquire ;;
  on_kern (inherit process new_process) ;;
  thread ← on_kern (fork_thread r);
  on_kern sched_release ;;
  on_kern (add_new_child_thread_no_stack_init thread new_pid) ;;
  mret (s32 new_pid).

(** ** Threads *)

Definition set_fs_base_syscall (base : Z) : kM unit :=
  c ← get_cur_thread;
  upd_thread c (λ t, t <| t_regs := t_regs t <| r_fs := base |> |>) ;;
  t ← thread_at c;
  upd_hw (λ h, h <| hw_fs := r_fs (t_regs t) |>).

(** What is stored in [rax]. *)
Definition syscall_start_thread (r : syscall_reg_t) : kM Z :=
  c ← get_cur_thread;
  t ← thread_at c;
  new_thread ← create_thread default_sse_state (t_name t) (s_rdi r) (s_rsi r) 3;
  upd_thread new_thread (λ t, t <| t_regs := t_regs t <| r_fs := s_rdx r |> |>) ;;
  pid ← get_cur_pid;
  add_new_child_thread_no_stack_init new_thread pid.
End fork.

(** ** execve *)

Record urm_execve_data : Type := mk_execve {
  x_argv : list Z;
  x_envp : list Z;
  x_envc : Z;
  x_argc : Z;
  x_executable_path : Z;
  x_pid : Z;
  x_tid : Z
}.

Record exec_st : Type := mk_exec {
  ekern : kstate;
  copies : gmap Z (list Z)
}.
#[export] Instance eta_exec_st : Eta exec_st := λ r, mk_exec (ekern r) (copies r).

Section execve.
Context (mapped : Z → Z → bool) (user : Z → Z).
Abbreviation eM := (stM exec_st).

Definition on_ekern {A} (m : kM A) : eM A := zoom ekern (λ k s, s <| ekern := k |>) m.

(** The pointer at an address of the caller. *)
Definition user_pointer (a : Z) : Z := le_word (map (λ i, user (a + i)) (seqZ 0 8)).

(** [n] entries of the array at [argv] from [i] on: how many there are before the null
    pointer; [None] when an entry cannot be read or there is no null pointer. *)
Fixpoint count_args (n : nat) (argv i : Z) : option Z :=
  match n with
  | O => None
  | S n' =>
      if negb (mapped (u64 (argv + 8 * i)) 8) || (USER_END <? u64 (argv + 8 + 8 * i)) then None
      else if user_pointer (u64 (argv + 8 * i)) =? 0 then Some i
      else count_args n' argv (i + 1)
  end.

(** [check_and_copy_string]: the address of the copy, 0 is null. *)
Definition copy_string (a : Z) : eM Z :=
  o ← on_ekern (check_and_copy_string mapped user a);
  match o with
  | None => mret 0
  | Some str => k ← on_ekern kalloc; modify (λ s, s <| copies := <[k := str]> (copies s) |>) ;; mret k
  end.

(** The pointers of [n] copies from [i] on, up to the first that cannot be made, and whether all could. *)
Fixpoint copy_args (n : nat) (argv i : Z) : eM (list Z * bool) :=
  match n with
  | O => mret ([], true)
  | S n' =>
      k ← copy_string (user_pointer (u64 (argv + 8 * i)));
      if k =? 0 then mret ([], false)
      else '(l, ok) ← copy_args n' argv (i + 1); mret (k :: l, ok)
  end.

Definition free_copy (k : Z) : eM unit :=
  s ← get;
  if decide (is_Some (copies s !! k)) then modify (λ s, s <| copies := delete k (copies s) |>) else crashM Panic.
Fixpoint free_copies (l : list Z) : eM unit :=
  match l with [] => mret tt | k :: l' => (if negb (k =? 0) then free_copy k else mret tt) ;; free_copies l' end.
(** [kfree] of an array of [n] pointers. *)
Definition free_array (n : Z) : eM unit := if n =? 0 then crashM Panic else mret tt.

(** The code after [fault_return], and after [failed]. *)
Definition release_args (argv envp : list Z) (argc envc path : Z) : eM unit :=
  free_copies argv ;; free_array argc ;;
  free_copies envp ;; free_array envc ;;
  (if negb (path =? 0) then free_copy path else mret tt).

(** Up to the request: what is stored in [rdx], or the request. *)
Definition execve_collect (executable_path argv envp : Z) : eM (Z + urm_execve_data) :=
  match count_args 128 argv 0, count_args 128 envp 0 with
  | Some argc, Some envc =>
      '(kargv, ok) ← copy_args (Z.to_nat argc) argv 0;
      if negb ok then release_args kargv [] argc envc 0 ;; mret (inl EFAULT)
      else
        '(kenvp, ok) ← copy_args (Z.to_nat envc) envp 0;
        if negb ok then release_args kargv kenvp argc envc 0 ;; mret (inl EFAULT)
        else
          path ← copy_string executable_path;
          if path =? 0 then release_args kargv kenvp argc envc 0 ;; mret (inl EFAULT)
          else
            pid ← on_ekern get_cur_pid;
            c ← on_ekern get_cur_thread;
            t ← on_ekern (thread_at c);
            mret (inr (mk_execve kargv kenvp envc argc path pid (t_tid t)))
  | _, _ => mret (inl EFAULT)
  end.

(** The request came back with [ret]: what is stored in [rdx]. *)
Definition execve_failed (d : urm_execve_data) (ret : Z) : eM Z :=
  release_args (x_argv d) (x_envp d) (x_argc d) (x_envc d) (x_executable_path d) ;; mret ret.
End execve.
