(* ===== verification/ForkTheorems.v ===== *)
(** * Correctness of fork

    [clone_fds] gives the child copies of the parent's open files in their
    order; [fork] makes a process and a thread that continue where the caller
    is, with 0 as the result. *)

From S2P Require Import Prelude Locks Blocks Bytes Pmm Frames Vmm VmmTheorems DList Vfs Kernel Stack Proc Sched SleepQueue Fd FdTheorems UserMemory UserMemoryTheorems ProcCalls.

(** ** Copying the descriptors *)

(** The copy of an open file. *)
Definition fd_copy (e : fd_entry_t) : fd_entry_t := mk_fd 0 (fd_node e) 0 (fd_seek_pos e) 0 (fd_mode e) 0.

Definition open_files (tab : list Z) : list Z := filter (λ a, a ≠ 0) tab.

(** [cs] are copies of the entries [l]. *)
Definition copied (fh0 fh : gmap Z fd_entry_t) (l cs : list Z) : Prop :=
  Forall2 (λ a c, c ≠ 0 ∧ ∃ e, fh0 !! a = Some e ∧ fh !! c = Some (fd_copy e)) l cs.

Section clone.
Context (s0 : kstate) (old new : Z) (po pn0 : process_t) (tab : list Z).
Context (Hne : old ≠ new) (Hold : pheap s0 !! old = Some po).
Context (Htab : arrays s0 !! fd_table po = Some tab) (Hroom : 0 ≤ fd_table_size po ≤ zlen tab) (Hbig : fd_table_size po < 2 ^ 27).
Context (Hent : ∀ a, a ∈ tab → a ≠ 0 → is_Some (fdheap s0 !! a)).
Context (Hbrk : 0 < kbrk s0) (Hfh : ∀ a, is_Some (fdheap s0 !! a) → a < kbrk s0) (Har : ∀ a, is_Some (arrays s0 !! a) → a < kbrk s0).
(** The arrays below [lim] are not the child's. *)
Context (lim : Z) (Hlim : lim ≤ kbrk s0).

(** The child's process, and the state, with the first [n] slots copied. *)
Definition child (tn size : Z) : process_t := pn0 <| fd_table := tn |> <| fd_table_size := size |>.
Definition cstate (b : Z) (fh : gmap Z fd_entry_t) (ar : gmap Z (list Z)) (tn size : Z) : kstate :=
  s0 <| kbrk := b |> <| fdheap := fh |> <| arrays := ar |> <| pheap := <[new := child tn size]> (pheap s0) |>.

Definition cloned (n : Z) (s : kstate) : Prop :=
  ∃ b fh ar tn size cs k, s = cstate b fh ar tn size ∧ kbrk s0 ≤ b ∧ ar !! tn = Some (cs ++ replicate k 0) ∧
    ar !! fd_table po = Some tab ∧ tn ≠ fd_table po ∧ 10 ≤ size ≤ zlen (cs ++ replicate k 0) ∧ size ≤ 20 + 10 * n ∧ zlen cs ≤ size ∧
    zlen cs ≤ n ∧
    copied (fdheap s0) fh (open_files (take (Z.to_nat n) tab)) cs ∧ (∀ a, a < kbrk s0 → fh !! a = fdheap s0 !! a) ∧
    (∀ a, is_Some (fh !! a) → a < b) ∧ (∀ a, is_Some (ar !! a) → a < b) ∧
    lim ≤ tn ∧ (∀ a, a < lim → ar !! a = arrays s0 !! a).

Lemma find_fd_first s a cs k n : arrays s !! a = Some (cs ++ replicate k 0) → Forall (λ c, c ≠ 0) cs → 0 ≤ n ≤ zlen (cs ++ replicate k 0) →
  find_fd (Z.to_nat n) 0 a s = Ok (if zlen cs <? n then Some (zlen cs) else None, s).
Proof.
  intros Ha Hcs Hn. destruct (find_fd_ok s a _ (Z.to_nat n) 0 Ha ltac:(lia) ltac:(lia)) as (r & -> & Hr). do 2 f_equal.
  assert (∀ j, 0 ≤ j < zlen cs → idx (cs ++ replicate k 0) j ≠ Some 0) as Hc.
  { intros j Hj. rewrite idx_app_range, (proj2 (Z.ltb_lt _ _)) by lia. intros [_ E]%idx_Some.
    by apply (proj1 (Forall_lookup _ _) Hcs) in E. }
  assert (∀ j, zlen cs ≤ j < zlen (cs ++ replicate k 0) → idx (cs ++ replicate k 0) j = Some 0) as Hz.
  { intros j Hj. rewrite idx_app_range, (proj2 (Z.ltb_ge _ _)) by lia. rewrite zlen_app in Hj. unfold idx.
    unfold zlen in *. rewrite length_replicate in Hj. rewrite (proj2 (Z.leb_le _ _)), lookup_replicate_2 by lia. done. }
  pose proof (zlen_nonneg cs). destruct r as [j|].
  - destruct Hr as (Hj & H0 & Hmin). assert (j = zlen cs) as ->; [|by rewrite (proj2 (Z.ltb_lt _ _)) by lia].
    destruct (Z_lt_le_dec j (zlen cs)); [destruct (Hc j ltac:(lia) H0)|]. destruct (decide (j = zlen cs)); [done|].
    destruct (Hmin (zlen cs)); [lia|apply Hz; lia].
  - rewrite (proj2 (Z.ltb_ge _ _)); [done|]. destruct (Z_lt_le_dec (zlen cs) n); [|done]. destruct (Hr (zlen cs)); [lia|apply Hz; lia].
Qed.

Lemma take_snoc_Z (l : list Z) n x : idx l n = Some x → take (Z.to_nat (n + 1)) l = take (Z.to_nat n) l ++ [x].
Proof.
  intros [Hn Hx]%idx_Some. rewrite (Z2Nat.inj_add n 1), Nat.add_1_r by lia. by apply take_S_r.
Qed.

Lemma copied_nonzero fh0 fh l cs : copied fh0 fh l cs → Forall (λ c, c ≠ 0) cs.
Proof. induction 1 as [|a c l cs [Hc _] _ IH]; by constructor. Qed.

Lemma copied_mono fh0 fh fh' l cs : copied fh0 fh l cs → (∀ c e, fh !! c = Some e → fh' !! c = Some e) → copied fh0 fh' l cs.
Proof.
  intros Hc Hm. eapply Forall2_impl; [exact Hc|]. cbv beta. intros a c (Hz & e & E1 & E2). split; [done|]. exists e. auto.
Qed.

Lemma filter_snoc (l : list Z) x : open_files (l ++ [x]) = open_files l ++ if decide (x ≠ 0) then [x] else [].
Proof. unfold open_files. by rewrite filter_app. Qed.

(** A free slot of the child's table, which grows when it has none. *)
Lemma child_slot b fh ar tn size cs k n (v : Z) :
  0 ≤ n < 2 ^ 27 → ar !! tn = Some (cs ++ replicate k 0) → ar !! fd_table po = Some tab → tn ≠ fd_table po → 10 ≤ size ≤ zlen (cs ++ replicate k 0) →
  size ≤ 20 + 10 * n → Forall (λ c, c ≠ 0) cs → zlen cs ≤ size → zlen cs ≤ n → fd_table po < kbrk s0 → kbrk s0 ≤ b → (∀ a, is_Some (ar !! a) → a < b) → lim ≤ tn →
  ∃ b' ar' tn' size' k', 
   (found ← find_fd (Z.to_nat size) 0 tn;
    '(i, table) ← (match found with
      | Some i => mret (i, tn)
      | None =>
          upd_process new (λ p, p <| fd_table_size := s32 (fd_table_size p + 10) |>) ;;
          table ← krealloc_table tn (s32 (size + 10));
          upd_process new (λ p, p <| fd_table := table |>) ;;
          mret (size, table)
      end);
    write_slot table i v) (cstate b fh ar tn size) = Ok (tt, cstate b' fh ar' tn' size') ∧ b ≤ b' ∧
    ar' !! tn' = Some ((cs ++ [v]) ++ replicate k' 0) ∧ ar' !! fd_table po = Some tab ∧ tn' ≠ fd_table po ∧
    10 ≤ size' ≤ zlen ((cs ++ [v]) ++ replicate k' 0) ∧ size' ≤ 20 + 10 * (n + 1) ∧ zlen cs + 1 ≤ size' ∧ (∀ a, is_Some (ar' !! a) → a < b') ∧
    lim ≤ tn' ∧ (∀ a, a < lim → ar' !! a = ar !! a).
Proof.
  intros Hn Htn Hto Hneq Hsz Hszn Hcs Hlen Hcn Hlt Hb Harb Hlt2.
  assert (∀ m, (0 < m)%nat → idx (cs ++ replicate m 0) (zlen cs) = Some 0 ∧
    upd (cs ++ replicate m 0) (zlen cs) v = (cs ++ [v]) ++ replicate (m - 1) 0) as Hput.
  { intros m Hm. destruct m as [|m]; [lia|]. unfold idx, upd, zlen. rewrite (proj2 (Z.leb_le _ _)), Nat2Z.id by lia. split.
    - by rewrite lookup_app_r, Nat.sub_diag by lia.
    - rewrite insert_app_r_alt, Nat.sub_diag by lia. cbn. by rewrite Nat.sub_0_r, <-app_assoc. }
  mrun (find_fd_first (cstate b fh ar tn size) tn cs k size Htn Hcs ltac:(lia)). destruct (zlen cs <? size) eqn:E; zbool.
  - mstep. assert (0 < k)%nat as Hk by (rewrite zlen_app in Hsz; unfold zlen in *; rewrite length_replicate in Hsz; lia).
    destruct (Hput k Hk) as [P1 P2]. exists b, (<[tn := (cs ++ [v]) ++ replicate (k - 1) 0]> ar), tn, size, (k - 1)%nat.
    rewrite (write_slot_ok (cstate b fh ar tn size) tn _ (zlen cs) v 0 Htn P1), P2. split_and!; try done; try lia.
    + by rewrite lookup_insert_eq.
    + by rewrite lookup_insert_ne.
    + rewrite <-P2, zlen_upd. lia.
    + intros a. rewrite lookup_insert_is_Some. intros [<- |[_ ?]]; eauto.
    + intros a Ha. by rewrite lookup_insert_ne by lia.
  - assert (zlen cs = size) as Hz by lia. clear E.
    assert (upd_process new (λ p, p <| fd_table_size := s32 (fd_table_size p + 10) |>) (cstate b fh ar tn size) =
      Ok (tt, cstate b fh ar tn (size + 10))) as E1.
    { erewrite upd_process_ok; [|apply lookup_insert_eq]. unfold cstate. cbn. rewrite insert_insert_eq, s32_small by lia. done. }
    set (k' := (k + (Z.to_nat (size + 10) - length (cs ++ replicate k 0%Z)))%nat).
    set (t' := cs ++ replicate k' 0). set (ar1 := <[b := t']> (delete tn ar)).
    assert (krealloc_table tn (s32 (size + 10)) (cstate b fh ar tn (size + 10)) = Ok (b, cstate (b + 65536) fh ar1 tn (size + 10))) as E2.
    { unfold krealloc_table. mstep. unfold table_at. erewrite bind_ok; [|mstep; apply of_opt_ok; exact Htn]. cbv beta.
      mstep. unfold mret, stM_ret. do 2 f_equal. unfold cstate, ar1, t', k'. cbn. rewrite s32_small by lia.
      by rewrite replicate_add, app_assoc. }
    assert (upd_process new (λ p, p <| fd_table := b |>) (cstate (b + 65536) fh ar1 tn (size + 10)) =
      Ok (tt, cstate (b + 65536) fh ar1 b (size + 10))) as E3.
    { erewrite upd_process_ok; [|apply lookup_insert_eq]. unfold cstate. cbn. by rewrite insert_insert_eq. }
    erewrite bind_ok; [|mrun E1; mrun E2; mrun E3; reflexivity]. cbv beta.
    assert (0 < k')%nat as Hk. { unfold k'. rewrite length_app, length_replicate in *. unfold zlen in *. lia. }
    destruct (Hput k' Hk) as [P1 P2]. rewrite Hz in P1, P2.
    assert (arrays (cstate (b + 65536) fh ar1 b (size + 10)) !! b = Some t') as Hb' by apply lookup_insert_eq.
    exists (b + 65536), (<[b := (cs ++ [v]) ++ replicate (k' - 1) 0]> ar1), b, (size + 10), (k' - 1)%nat.
    rewrite (write_slot_ok _ b t' size v 0 Hb' P1). unfold t'. rewrite P2. split_and!; try done; try lia.
    + by rewrite lookup_insert_eq.
    + unfold ar1. rewrite lookup_insert_ne, lookup_insert_ne, lookup_delete_ne by lia. done.
    + rewrite <-P2, zlen_upd, zlen_app. unfold k', zlen in *. rewrite length_replicate. rewrite length_app, length_replicate in *. lia.
    + intros a. unfold ar1. rewrite !lookup_insert_is_Some. intros [<- |[_ [<- |[_ Ha]]]]; [lia|lia|].
      apply lookup_delete_is_Some in Ha as [_ Ha]. apply Harb in Ha. lia.
    + intros a Ha. unfold ar1. by rewrite !lookup_insert_ne, lookup_delete_ne by lia.
Qed.

Lemma clone_fd_ok n s : 0 ≤ n < fd_table_size po → cloned n s → ∃ s', clone_fd old new n s = Ok (tt, s') ∧ cloned (n + 1) s'.
Proof.
  intros Hn (b & fh & ar & tn & size & cs & k & -> & Hb & Htn & Hto & Hneq & Hsz & Hszn & Hlen & Hcn & Hcp & Hkeep & Hfb & Hab & Hlt1 & Har1).
  assert (fd_table po < kbrk s0) as Hlt by eauto. unfold clone_fd.
  assert (process_at old (cstate b fh ar tn size) = Ok (po, cstate b fh ar tn size)) as E0.
  { apply process_at_ok. cbn. by rewrite lookup_insert_ne. }
  mrun E0. destruct (idx_lt tab n ltac:(lia)) as [a Ha]. mrun (read_slot_ok (cstate b fh ar tn size) _ _ _ _ Hto Ha).
  pose proof (take_snoc_Z tab n a Ha) as Etake. destruct (a =? 0) eqn:E; zbool.
  - subst a. cbn [negb]. exists (cstate b fh ar tn size). split; [done|].
    exists b, fh, ar, tn, size, cs, k. rewrite Etake, filter_snoc, decide_False, app_nil_r by (intros []; done).
    split_and!; try done; try lia.
  - destruct (Hent a) as [e He]; [apply idx_Some in Ha as [_ Ha]; by eapply list_elem_of_lookup_2|done|].
    pose proof (Hfh a ltac:(by exists e)) as Hak. cbn [negb]. mstep.
    assert (fh !! a = Some e) as Hea by (by rewrite Hkeep by lia).
    set (fh1 := <[b := fd_copy e]> fh). set (b1 := b + 65536).
    assert (fd_at a (cstate b1 fh ar tn size) = Ok (e, cstate b1 fh ar tn size)) as E1 by (by apply fd_at_ok).
    erewrite bind_ok; [|exact E1]. cbv beta. mstep.
    assert (process_at new (cstate b1 fh1 ar tn size) = Ok (child tn size, cstate b1 fh1 ar tn size)) as E2.
    { apply process_at_ok. apply lookup_insert_eq. }
    erewrite bind_ok; [|exact E2]. cbv beta. cbn [fd_table fd_table_size child].
    destruct (child_slot b1 fh1 ar tn size cs k n b) as (b' & ar' & tn' & size' & k' & E3 & Q1 & Q2 & Q3 & Q4 & Q5 & Q6 & Q7 & Q8 & Q9 & Q10);
      try done; [lia|by eapply copied_nonzero|unfold b1; lia|intros x Hx; apply Hab in Hx; unfold b1; lia|].
    exists (cstate b' fh1 ar' tn' size'). split; [exact E3|].
    exists b', fh1, ar', tn', size', (cs ++ [b]), k'. rewrite Etake, filter_snoc, decide_True by done.
    assert (b ∉ dom fh) as Hbf. { rewrite elem_of_dom. intros Hx. apply Hfb in Hx. lia. }
    split_and!; try done; try (unfold b1 in *; lia).
    + rewrite zlen_app. change (zlen [b]) with 1. lia.
    + rewrite zlen_app. change (zlen [b]) with 1. lia.
    + apply Forall2_app.
      * eapply copied_mono; [exact Hcp|]. intros c x Hx. unfold fh1. rewrite lookup_insert_ne; [done|]. intros <-. apply Hbf. by apply elem_of_dom_2 in Hx.
      * constructor; [|constructor]. split; [lia|]. exists e. split; [done|]. apply lookup_insert_eq.
    + intros x Hx. unfold fh1. rewrite lookup_insert_ne by lia. by apply Hkeep.
    + intros x. unfold fh1. rewrite lookup_insert_is_Some. unfold b1 in *. intros [<- |[_ Hx]]; [lia|]. apply Hfb in Hx. lia.
    + intros x Hx. rewrite Q10 by done. by apply Har1.
Qed.

End clone.

(** The child's table holds copies of the parent's open files, one after the other. *)
Definition files_cloned (lim : Z) (s0 s' : kstate) (new : Z) (po pn : process_t) (tab : list Z) : Prop :=
  ∃ tn size cs k, pheap s' = <[new := pn <| fd_table := tn |> <| fd_table_size := size |>]> (pheap s0) ∧
    arrays s' !! tn = Some (cs ++ replicate k 0) ∧ size ≤ zlen (cs ++ replicate k 0) ∧ zlen cs ≤ size ∧
    copied (fdheap s0) (fdheap s') (open_files (take (Z.to_nat (fd_table_size po)) tab)) cs ∧
    (∀ a, a < kbrk s0 → fdheap s' !! a = fdheap s0 !! a) ∧ arrays s' !! fd_table po = Some tab ∧
    (∀ a, a < lim → arrays s' !! a = arrays s0 !! a).

Lemma clone_fds_ok lim s0 old new po pn tab old_pid new_pid m :
  unlocked (sched_lock s0) → unlocked (fd_lock s0) → zlen (processes s0) < 2 ^ 63 →
  idx (processes s0) old_pid = Some old → idx (processes s0) new_pid = Some new → old ≠ 0 → new ≠ 0 → old ≠ new →
  pheap s0 !! old = Some po → arrays s0 !! fd_table po = Some tab → 0 ≤ fd_table_size po ≤ zlen tab → fd_table_size po < 2 ^ 27 →
  (∀ a, a ∈ tab → a ≠ 0 → is_Some (fdheap s0 !! a)) →
  0 < kbrk s0 → (∀ a, is_Some (fdheap s0 !! a) → a < kbrk s0) → (∀ a, is_Some (arrays s0 !! a) → a < kbrk s0) →
  pheap s0 !! new = Some pn → fd_table_size pn = 10 → arrays s0 !! fd_table pn = Some (replicate m 0) → (10 ≤ m)%nat →
  fd_table pn ≠ fd_table po → lim ≤ kbrk s0 → lim ≤ fd_table pn →
  ∃ s' b, clone_fds old_pid new_pid s0 = Ok (tt, s') ∧ files_cloned lim s0 s' new po pn tab ∧ kbrk s0 ≤ b ∧
    s' = s0 <| kbrk := b |> <| fdheap := fdheap s' |> <| arrays := arrays s' |> <| pheap := pheap s' |>.
Proof.
  intros Hl Hf Hps Ho Hn Ho0 Hn0 Hne Hpo Htab Hroom Hbig Hent Hb Hfh Har Hpn Hsz Ha Hm Hneq Hlim Hlimt. unfold clone_fds. mrun (sched_acquire_ok s0 Hl).
  mstep. apply idx_Some in Ho as Hor. apply idx_Some in Hn as Hnr. change (2 ^ 63) with 9223372036854775808 in Hps.
  rewrite !u64_small by (unfold is_u64; lia). cbn [processes].
  rewrite (proj2 (Z.leb_gt _ old_pid)), (proj2 (Z.leb_gt _ new_pid)) by (apply Hor || apply Hnr). cbn [orb]. mstep.
  unfold process_slot. erewrite bind_ok; [|mstep; apply of_opt_ok; exact Ho]. cbv beta.
  erewrite bind_ok; [|mstep; apply of_opt_ok; exact Hn]. cbv beta.
  rewrite (proj2 (Z.eqb_neq old 0)), (proj2 (Z.eqb_neq new 0)) by done. cbn [negb]. mstep. mstep.
  mrun (sched_release_acquired s0 Hl). mrun (fd_acquire_ok s0 Hf). set (s1 := s0 <| fd_lock := Z.lor (fd_lock s0) 1 |>).
  assert (process_at old s1 = Ok (po, s1)) as E by (by apply process_at_ok). mrun E.
  assert (cloned s1 new po pn tab lim 0 s1) as Hc0.
  { exists (kbrk s0), (fdheap s0), (arrays s0), (fd_table pn), 10, [], m.
    split_and!; try done; [|unfold zlen; rewrite length_app, length_replicate; cbn; lia|by constructor].
    unfold cstate, child. rewrite <-Hsz. destruct pn, s0. cbn in *. unfold s1. cbn. by rewrite insert_id. }
  destruct (for_loop_inv (cloned s1 new po pn tab lim) (clone_fd old new) (Z.to_nat (fd_table_size po)) 0 s1 Hc0) as (s2 & E2 & Hc).
  { intros j t Hj Ht. apply (clone_fd_ok s1 old new po pn tab); try done. lia. }
  mrun E2. replace (0 + Z.of_nat (Z.to_nat (fd_table_size po))) with (fd_table_size po) in Hc by lia.
  destruct Hc as (b & fh & ar & tn & size & cs & k & -> & Qb & Qt & Qo & _ & Qs & _ & Ql & _ & Qc & Qk & _ & _ & _ & Qa).
  eexists _, b. split; [reflexivity|]. split; [|split; [done|]].
  - exists tn, size, cs, k. split_and!; try done. lia.
  - unfold cstate, s1. destruct s0. cbn in *. by rewrite lock_unlock.
Qed.

(** ** The new process and its thread *)

Lemma add_new_pid_ok s : ∃ k l', add_new_pid 1 s = Ok (k, s <| processes := l' |>) ∧ slot_in 0 (processes s) l' k.
Proof.
  pose proof (slot_in_first 0 (processes s)) as Hs. cbv zeta in Hs. unfold add_new_pid, unless_locked. simpl.
  destruct (first_slot 0 (processes s) 0 =? -1) eqn:E.
  - exists (zlen (processes s)), (processes s ++ replicate 10 0). split; [|exact Hs]. do 2 mstep. rewrite E. reflexivity.
  - exists (first_slot 0 (processes s) 0), (processes s). split; [|exact Hs]. do 2 mstep. rewrite E. destruct s. reflexivity.
Qed.

Definition forked (p : process_t) (cr3 pid tab : Z) : process_t :=
  mk_process (p_name p) cr3 [] 0 pid tab 10 DEFAULT_BRK 0 0 0 0 0 0 0 0 0 (tab + 65536) 0.

Lemma fork_process_ok s process p cr3 : pheap s !! process = Some p → zlen (p_name p) < 50 →
  ∃ new_pid l', slot_in 0 (processes s) l' new_pid ∧
    fork_process process cr3 s =
      Ok (new_pid, s <| kbrk := kbrk s + 196608 |> <| arrays := <[kbrk s + 65536 := replicate 70 0]> (arrays s) |>
        <| pheap := <[kbrk s := forked p cr3 new_pid (kbrk s + 65536)]> (pheap s) |> <| processes := upd l' new_pid (kbrk s) |>).
Proof.
  intros Hp Hn. unfold fork_process. erewrite bind_ok; [|apply process_at_ok; exact Hp]. cbv beta.
  set (s1 := s <| kbrk := kbrk s + 196608 |> <| arrays := <[kbrk s + 65536 := replicate 70 0]> (arrays s) |>
    <| pheap := <[kbrk s := mk_process (p_name p) cr3 [] 0 0 (kbrk s + 65536) 10 DEFAULT_BRK 0 0 0 0 0 0 0 0 0 (kbrk s + 131072) 0]> (pheap s) |>).
  assert (create_process (p_name p) cr3 s = Ok (kbrk s, s1)) as E1.
  { unfold create_process. do 4 mstep. unfold copy_name. rewrite (proj2 (Z.ltb_lt _ _)) by done. do 2 mstep. unfold mret, stM_ret.
    do 2 f_equal. unfold s1. destruct s. cbn. rewrite <-!Z.add_assoc. done. }
  mrun E1. destruct (add_new_pid_ok s1) as (k & l' & E2 & Hs). exists k, l'. split; [exact Hs|]. mrun E2. mstep.
  erewrite bind_ok; [|apply upd_process_ok; apply lookup_insert_eq]. cbv beta. unfold mret, stM_ret, s1, forked. do 2 f_equal.
  destruct s. cbn. rewrite insert_insert_eq, <-Z.add_assoc. done.
Qed.

Lemma inherit_ok s process new_process p n : pheap s !! process = Some p → pheap s !! new_process = Some n → process ≠ new_process →
  unlocked (brk_lock p) →
  inherit process new_process s =
    Ok (tt, s <| pheap := <[new_process := n <| ppid := p_pid p |> <| uid := uid p |> <| gid := gid p |> <| current_brk := current_brk p |>]> (pheap s) |>).
Proof.
  intros Hp Hn Hne Hl. unfold inherit. erewrite bind_ok; [|apply process_at_ok; exact Hp]. cbv beta.
  erewrite bind_ok; [|apply upd_process_ok; exact Hn]. cbv beta. set (n1 := n <| ppid := _ |> <| uid := _ |> <| gid := _ |>).
  set (s1 := s <| pheap := <[new_process := n1]> (pheap s) |>).
  assert (pheap s1 !! process = Some p) as Hp1 by (by cbn; rewrite lookup_insert_ne).
  set (p2 := p <| brk_lock := Z.lor (brk_lock p) 1 |>). set (s2 := s1 <| pheap := <[process := p2]> (pheap s1) |>).
  assert (brk_acquire process s1 = Ok (tt, s2)) as E2.
  { unfold brk_acquire. erewrite bind_ok; [|apply process_at_ok; exact Hp1]. cbv beta. rewrite (spinlock_lock_free _ Hl).
    by rewrite (upd_process_ok s1 process p). }
  mrun E2. assert (process_at process s2 = Ok (p2, s2)) as E3 by (apply process_at_ok, lookup_insert_eq). mrun E3.
  assert (pheap s2 !! new_process = Some n1) as Hn2 by (cbn; rewrite lookup_insert_ne by done; apply lookup_insert_eq).
  mrun (upd_process_ok s2 new_process n1 (λ n, n <| current_brk := current_brk p2 |>) Hn2). unfold brk_release.
  erewrite upd_process_ok; [|cbn; rewrite lookup_insert_ne by done; apply lookup_insert_eq].
  set (X := <[process := p2 <| brk_lock := spinlock_unlock (brk_lock p2) |>]> (<[new_process := n1 <| current_brk := current_brk p2 |>]>
    (<[process := p2]> (<[new_process := n1]> (pheap s))))).
  trans (Ok (tt, s <| pheap := X |>)); [reflexivity|].
  assert (X = <[new_process := n1 <| current_brk := current_brk p |>]> (pheap s)) as ->; [|done].
  apply map_eq. intros x. unfold X. rewrite !lookup_insert. repeat case_decide; subst; try done. rewrite Hp.
  change (spinlock_unlock (brk_lock p2)) with (spinlock_unlock (Z.lor (brk_lock p) 1)). rewrite (lock_unlock _ Hl). unfold p2.
  f_equal. by destruct p.
Qed.

Section thread.
Context (sse : Z).

Definition fork_child (r : syscall_reg_t) (s : kstate) (t : thread_t) : thread_t :=
  mk_thread (t_name t)
    (child_regs r (thread_user_stack (locals s))
       ((if ring t =? 3 then default_user_regs else default_kernel_regs) <| r_rip := r_rip (t_regs t) |>
          <| r_rsp := r_rsp (t_regs t) |> <| r_cr3 := base_kernel_cr3 s |>))
    (kbrk s + 65536 + 4096) 0 0 0 0 READY 0 0 0 0 (ring t) 0 (kbrk s + 131072) (mk_vars [] [] [] 0 0 0) 0 0 0 0 (sse_region t).

Lemma fork_thread_ok r s t : theap s !! current_thread (locals s) = Some t → zlen (t_name t) < 50 →
  fork_thread sse r s =
    Ok (kbrk s, s <| kbrk := kbrk s + 196608 |> <| nodes := <[kbrk s + 131072 := mk_sleep 0 0 0 0]> (nodes s) |>
      <| theap := <[kbrk s := fork_child r s t]> (theap s) |>).
Proof.
  intros Ht Hn. unfold fork_thread. mstep. erewrite bind_ok; [|apply thread_at_ok; exact Ht]. cbv beta.
  set (n := mk_thread (t_name t) ((if ring t =? 3 then default_user_regs else default_kernel_regs) <| r_rip := r_rip (t_regs t) |>
          <| r_rsp := r_rsp (t_regs t) |> <| r_cr3 := base_kernel_cr3 s |>) (kbrk s + 65536 + 4096) 0 0 0 0 READY 0 0 0 0 (ring t) 0 (kbrk s + 131072)
          (mk_vars [] [] [] 0 0 0) 0 0 0 0 sse).
  assert (create_thread sse (t_name t) (r_rip (t_regs t)) (r_rsp (t_regs t)) (ring t) s = Ok (kbrk s, s <| kbrk := kbrk s + 196608 |>
    <| nodes := <[kbrk s + 131072 := mk_sleep 0 0 0 0]> (nodes s) |> <| theap := <[kbrk s := n]> (theap s) |>)) as E1.
  { unfold create_thread. do 5 mstep. unfold copy_name. rewrite (proj2 (Z.ltb_lt _ _)) by done. do 2 mstep. unfold mret, stM_ret.
    do 2 f_equal. unfold n. destruct s. cbn. rewrite <-!Z.add_assoc. done. }
  mrun E1. mstep. erewrite bind_ok; [|apply upd_thread_ok; apply lookup_insert_eq]. cbv beta.
  erewrite bind_ok; [|apply upd_thread_ok; apply lookup_insert_eq]. cbv beta. unfold mret, stM_ret, fork_child. do 2 f_equal.
  destruct s. cbn. by rewrite !insert_insert_eq.
Qed.
End thread.

(** ** fork *)

(** The current thread [t] of the process [p] (at [old], with the table [tab] of descriptors)
    can fork: no lock is held, the tables are in order, and the heap's end is above
    everything that is allocated. *)
Record can_fork (k : kstate) (t : thread_t) (old : Z) (p : process_t) (tab : list Z) : Prop := {
  f_sched : unlocked (sched_lock k);
  f_fd : unlocked (fd_lock k);
  f_brk : unlocked (brk_lock p);
  f_thread : theap k !! current_thread (locals k) = Some t;
  f_slot : idx (processes k) (parent_pid t) = Some old;
  f_pid : p_pid p = parent_pid t;
  f_process : pheap k !! old = Some p;
  f_old : 0 < old;
  f_count : zlen (processes k) + 10 < 2147483648;
  f_names : zlen (p_name p) < 50 ∧ zlen (t_name t) < 50;
  f_tab : arrays k !! fd_table p = Some tab;
  f_size : 0 ≤ fd_table_size p ≤ zlen tab ∧ fd_table_size p < 2 ^ 27;
  f_open a : a ∈ tab → a ≠ 0 → is_Some (fdheap k !! a);
  f_tables : tables_ok k;
  f_end : 0 < kbrk k;
  f_theap a : is_Some (theap k !! a) → a < kbrk k;
  f_pheap a : is_Some (pheap k !! a) → a < kbrk k;
  f_fdheap a : is_Some (fdheap k !! a) → a < kbrk k;
  f_arrays a : is_Some (arrays k !! a) → a < kbrk k;
  f_nodes a : is_Some (nodes k !! a) → a < kbrk k
}.

Lemma slot_in_free l l' k j a : slot_in 0 l l' k → idx l j = Some a → a ≠ 0 → j ≠ k.
Proof.
  intros Hs Hj Ha ->. pose proof (slot_in_keep _ _ _ _ _ _ Hs Hj) as Hk. destruct Hs as (_ & H0 & _). congruence.
Qed.

Lemma slot_in_zlen l l' k : slot_in 0 l l' k → zlen l' ≤ zlen l + 10.
Proof.
  intros [[->|(_ & _ & ->)] _]; [lia|]. rewrite zlen_app. unfold zlen. rewrite length_replicate. lia.
Qed.

Section fork.
Context {F : Type} `{!FrameAlloc F} (sse : Z).

Lemma on_kern_same {A} (m : kM A) (u : user_st F) a : m (kern u) = Ok (a, kern u) → on_kern m u = Ok (a, u).
Proof. intros E. rewrite (on_kern_ok m u a _ E). by destruct u. Qed.

(** The part of [fork] up to the new address space, and the new process. *)
Lemma fork_start (r : syscall_reg_t) (s : user_st F) t old p tab cr3 v :
  can_fork (kern s) t old p tab → vmm_fork (p_cr3 p) (vm s) = Ok (cr3, v) →
  let k := kern s in
  ∃ new_pid l', slot_in 0 (processes k) l' new_pid ∧
    let pn := forked p cr3 new_pid (kbrk k + 65536) in
    let k3 := k <| kbrk := kbrk k + 196608 |> <| arrays := <[kbrk k + 65536 := replicate 70 0]> (arrays k) |>
        <| pheap := <[kbrk k := pn]> (pheap k) |> <| processes := upd l' new_pid (kbrk k) |> in
    fork sse r s = (on_kern (clone_fds (p_pid p) new_pid) ;; on_kern sched_acquire ;; on_kern (inherit old (kbrk k)) ;;
      thread ← on_kern (fork_thread sse r); on_kern sched_release ;;
      on_kern (add_new_child_thread_no_stack_init thread new_pid) ;; mret (s32 new_pid)) (mk_user k3 v).
Proof.
  intros Hc Hv k. pose proof Hc as []. unfold fork.
  erewrite bind_ok; [|apply on_kern_ok, sched_acquire_ok; done]. cbv beta.
  set (s1 := s <| kern := kern s <| sched_lock := Z.lor (sched_lock (kern s)) 1 |> |>).
  assert (on_kern (pid ← get_cur_pid; process_slot pid) s1 = Ok (old, s1)) as E1.
  { apply on_kern_same. by apply (current_slot_ok _ t). }
  mrun E1. assert (on_kern (process_at old) s1 = Ok (p, s1)) as E2 by (by apply on_kern_same, process_at_ok). mrun E2.
  assert (on_vm (vmm_fork (p_cr3 p)) s1 = Ok (cr3, s1 <| vm := v |>)) as E3 by (by apply on_vm_ok). mrun E3.
  set (s2 := s1 <| vm := v |>).
  destruct (fork_process_ok (kern s1) old p cr3 f_process0 (proj1 f_names0)) as (new_pid & l' & Hs & E4).
  exists new_pid, l'. split; [exact Hs|]. cbv zeta.
  erewrite bind_ok; [|apply on_kern_ok; exact E4]. cbv beta.
  erewrite bind_ok; [|apply on_kern_ok; unfold process_slot; mstep; apply of_opt_ok; apply idx_upd_eq; by eapply slot_in_range]. cbv beta.
  assert (kbrk k ≠ old) as Hne by (specialize (f_pheap0 old ltac:(by exists p)); unfold k; lia).
  erewrite bind_ok; [|apply on_kern_ok, process_at_ok; cbn; rewrite lookup_insert_ne; [exact f_process0|done]]. cbv beta.
  erewrite bind_ok; [|apply on_kern_ok; reflexivity]. cbv beta.
  match goal with |- _ ?a = _ ?b => replace a with b; [done|] end.
  unfold s1, k. destruct s as [kk vv]. cbn. by rewrite lock_unlock.
Qed.

(** The new process has taken over what it inherits, and has no thread yet. *)
Definition heir (p pn : process_t) : process_t :=
  pn <| ppid := p_pid p |> <| uid := uid p |> <| gid := gid p |> <| current_brk := current_brk p |>.

(** The rest of [fork]: the child's thread. *)
Lemma fork_finish (r : syscall_reg_t) (k : kstate) (v : vmm_state F) t old p new_pid new pn :
  unlocked (sched_lock k) → unlocked (brk_lock p) → theap k !! current_thread (locals k) = Some t → zlen (t_name t) < 50 →
  pheap k !! old = Some p → pheap k !! new = Some pn → old ≠ new → new ≠ 0 → 0 ≤ new_pid < 2147483648 → idx (processes k) new_pid = Some new →
  tables_ok k → (∀ a, is_Some (theap k !! a) → a < kbrk k) → 0 < kbrk k →
  ∃ k' tid t' p', (on_kern sched_acquire ;; on_kern (inherit old new) ;;
      thread ← on_kern (fork_thread sse r); on_kern sched_release ;;
      on_kern (add_new_child_thread_no_stack_init thread new_pid) ;; mret (s32 new_pid)) (mk_user k v) = Ok (new_pid, mk_user k' v) ∧
    idx (threads k') tid = Some (kbrk k) ∧ (∀ j, 0 ≤ j < tid → idx (threads k) j ≠ Some 0) ∧
    theap k' = <[kbrk k := t']> (theap k) ∧ pheap k' = <[new := p']> (pheap k) ∧
    (∃ l' i, p' = heir p pn <| p_threads := upd l' i tid |> <| child_thread_count := u64 (child_thread_count pn + 1) |> ∧
       slot_in (-1) (p_threads pn) l' i) ∧
    (∃ g, t_regs t' = child_regs r (thread_user_stack (locals k)) g <| r_cr3 := p_cr3 pn |> ∧ r_fs g = 0) ∧
    t_state t' = READY ∧ t_tid t' = tid ∧ t_parent t' = new ∧ parent_pid t' = new_pid ∧ ring t' = ring t ∧ sse_region t' = sse_region t ∧
    sched_lock k' = sched_lock k ∧ tables_ok k' ∧ fd_lock k' = fd_lock k ∧
    (∃ l1, slot_in 0 (threads k) l1 tid ∧
       k' = k <| kbrk := kbrk k + 196608 |> <| nodes := <[sleep_node t' := mk_sleep 0 0 0 0]> (nodes k) |> <| theap := theap k' |>
              <| pheap := pheap k' |> <| threads := upd l1 tid (kbrk k) |>) ∧ sleep_node t' = kbrk k + 131072 ∧
    r_cs (t_regs t') = (if ring t =? 3 then 27 else 8) ∧ r_ss (t_regs t') = (if ring t =? 3 then 35 else 16) ∧
    r_mxcsr (t_regs t') = 8064 ∧ r_fcw (t_regs t') = 831.
Proof.
  intros Hl Hb Ht Hn Hp Hpn Hne Hnz Hpid Hi Htab Hfr Hk0.
  erewrite bind_ok; [|apply on_kern_ok, sched_acquire_ok; exact Hl]. cbv beta.
  set (k1 := k <| sched_lock := Z.lor (sched_lock k) 1 |>).
  erewrite bind_ok; [|apply on_kern_ok; by apply (inherit_ok k1 old new p pn)]. cbv beta.
  set (k2 := k1 <| pheap := <[new := heir p pn]> (pheap k1) |>).
  erewrite bind_ok; [|apply on_kern_ok; by apply (fork_thread_ok sse r k2 t)]. cbv beta.
  erewrite bind_ok; [|apply on_kern_ok; reflexivity]. cbv beta.
  set (n := fork_child r k2 t).
  set (k3 := k <| pheap := <[new := heir p pn]> (pheap k) |> <| kbrk := kbrk k + 196608 |>
    <| nodes := <[kbrk k + 131072 := mk_sleep 0 0 0 0]> (nodes k) |> <| theap := <[kbrk k := n]> (theap k) |>).
  assert (∀ i, idx (threads k) i ≠ Some (kbrk k)) as Hun.
  { intros i Hi'. destruct (Htab i (kbrk k) Hi' ltac:(lia)) as (x & Hx & _). specialize (Hfr (kbrk k) ltac:(by exists x)). lia. }
  assert (tables_ok k3) as Htab3.
  { intros i a Ha Hz. destruct (Htab i a Ha Hz) as (x & Hx & Hxt). exists x. split; [|done]. cbn. rewrite lookup_insert_ne; [done|].
    intros <-. by apply (Hun i). }
  destruct (child_thread_run k3 (kbrk k) new_pid n new (heir p pn) Htab3 Hl (lookup_insert_eq _ _ _) Hun) as
    (tid & l1 & i & l' & E & S1 & S2 & K); [lia|done|done|apply lookup_insert_eq|]. cbv zeta in E, K.
  eexists _, tid, _, _. split.
  { erewrite bind_ok; [|apply on_kern_ok; etransitivity; [|exact E]].
    - cbv beta. unfold mret, stM_ret. rewrite s32_small by lia. reflexivity.
    - f_equal. unfold k3, n, k2, k1. destruct k. cbn. by rewrite lock_unlock. }
  split; [apply idx_upd_eq; by eapply slot_in_range|]. split; [apply S1|].
  split; [cbn; by rewrite insert_insert_eq|]. split; [cbn; by rewrite insert_insert_eq|].
  split; [by eexists l', i|]. split; [eexists; split; [reflexivity|by destruct (ring t =? 3)]|].
  split_and!; try done; [|by cbn; destruct (ring t =? 3)..].
  exists l1. split; [exact S1|]. unfold k3. destruct k. cbn. by rewrite !insert_insert_eq.
Qed.

(** The registers of a thread of the ring [rg] that goes on where the system call with the registers [r] returns, with the
    result 0: the registers of the call, the segments of the ring; the base of FS is 0 and the two control words of the
    floating-point unit are the defaults, whatever the caller's are. *)
Definition resumes (r : syscall_reg_t) (stack cr3 rg : Z) (g : task_regs_t) : Prop :=
  r_rax g = 0 ∧ r_rbx g = s_rbx r ∧ r_rcx g = s_rcx r ∧ r_rdx g = s_rdx r ∧ r_rbp g = s_rbp r ∧ r_rsi g = s_rsi r ∧ r_rdi g = s_rdi r ∧
  r_r8 g = s_r8 r ∧ r_r9 g = s_r9 r ∧ r_r10 g = s_r10 r ∧ r_r11 g = s_r11 r ∧ r_r12 g = s_r12 r ∧ r_r13 g = s_r13 r ∧ r_r14 g = s_r14 r ∧
  r_r15 g = s_r15 r ∧ r_rsp g = stack ∧ r_rip g = s_rcx r ∧ r_rflags g = s_r11 r ∧ r_cr3 g = cr3 ∧
  r_cs g = (if rg =? 3 then 27 else 8) ∧ r_ss g = (if rg =? 3 then 35 else 16) ∧ r_fs g = 0 ∧ r_mxcsr g = 8064 ∧ r_fcw g = 831.

(** What [fork] leaves: a process [new] in the slot [new_pid] and a thread [th] in the slot [tid], the tables being longer
    by ten empty slots when they had none; no other entry of a table or of a heap and nothing else of the kernel's state
    (locals, registers, memory, events, files) is changed. *)
Record only_child (k k' : kstate) (new_pid new tid th : Z) : Prop := {
  oc_processes : ∃ l, slot_in 0 (processes k) l new_pid ∧ processes k' = upd l new_pid new;
  oc_threads : ∃ l, slot_in 0 (threads k) l tid ∧ threads k' = upd l tid th;
  oc_pheap : pheap k !! new = None ∧ ∃ p, pheap k' = <[new := p]> (pheap k);
  oc_theap : theap k !! th = None ∧ ∃ t, theap k' = <[th := t]> (theap k) ∧
    nodes k !! sleep_node t = None ∧ nodes k' = <[sleep_node t := mk_sleep 0 0 0 0]> (nodes k);
  oc_files a : is_Some (fdheap k !! a) → fdheap k' !! a = fdheap k !! a;
  oc_arrays a : is_Some (arrays k !! a) → arrays k' !! a = arrays k !! a;
  oc_rest : ∃ b, k' = k <| kbrk := b |> <| processes := processes k' |> <| threads := threads k' |> <| pheap := pheap k' |>
    <| theap := theap k' |> <| nodes := nodes k' |> <| fdheap := fdheap k' |> <| arrays := arrays k' |>
}.

(** C27: [fork] makes a process with the lowest free identifier that has the copied
    address space, the caller's user, group and break, the caller as its parent,
    and copies of the caller's open files in their order; its one thread is ready
    and has the registers of the system call, with 0 as the result, the address after the
    call as its next instruction, the caller's stack and the floating-point
    region saved for the caller; the base of FS (the thread-local storage) and the floating-point control words
    are not the caller's but 0 and the defaults.  Every other entry of the tables of processes and threads, every other process,
    thread, open file and array, the processor's locals and registers, the memory and the events
    are as before ([only_child]), and the locks are as they were. *)
Theorem fork_correct (r : syscall_reg_t) (s : user_st F) t old p tab cr3 v :
  can_fork (kern s) t old p tab → vmm_fork (p_cr3 p) (vm s) = Ok (cr3, v) →
  let k := kern s in
  ∃ new_pid new tid th k' pn' t' cs n, fork sse r s = Ok (new_pid, mk_user k' v) ∧ 0 ≤ new_pid ∧
    only_child k k' new_pid new tid th ∧
    (∀ j, 0 ≤ j < new_pid → idx (processes k) j ≠ Some 0) ∧
    idx (processes k') new_pid = Some new ∧ pheap k' = <[new := pn']> (pheap k) ∧
    p_pid pn' = new_pid ∧ p_cr3 pn' = cr3 ∧ ppid pn' = p_pid p ∧ uid pn' = uid p ∧ gid pn' = gid p ∧ current_brk pn' = current_brk p ∧
    child_thread_count pn' = 1 ∧ idx (p_threads pn') 0 = Some tid ∧
    arrays k' !! fd_table pn' = Some (cs ++ replicate n 0) ∧ zlen cs ≤ fd_table_size pn' ≤ zlen (cs ++ replicate n 0) ∧
    copied (fdheap k) (fdheap k') (open_files (take (Z.to_nat (fd_table_size p)) tab)) cs ∧
    idx (threads k') tid = Some th ∧ theap k' = <[th := t']> (theap k) ∧
    resumes r (thread_user_stack (locals k)) cr3 (ring t) (t_regs t') ∧ t_state t' = READY ∧ t_tid t' = tid ∧ t_parent t' = new ∧
    parent_pid t' = new_pid ∧ ring t' = ring t ∧ sse_region t' = sse_region t ∧ tables_ok k'.
Proof.
  intros Hc Hv k. destruct (fork_start r s t old p tab cr3 v Hc Hv) as (new_pid & l' & Hs & Ef). cbv zeta in Ef. fold k in Hs, Ef.
  change (can_fork k t old p tab) in Hc. pose proof Hc as []. set (pn := forked p cr3 new_pid (kbrk k + 65536)) in *.
  set (k3 := k <| kbrk := kbrk k + 196608 |> <| arrays := <[kbrk k + 65536 := replicate 70 0]> (arrays k) |>
        <| pheap := <[kbrk k := pn]> (pheap k) |> <| processes := upd l' new_pid (kbrk k) |>) in *.
  pose proof (slot_in_range _ _ _ _ Hs) as Hrange. pose proof (slot_in_zlen _ _ _ Hs) as Hlen.
  assert (old < kbrk k) as Hok by (apply f_pheap0; by exists p). assert (fd_table p < kbrk k) as Hft by (apply f_arrays0; by exists tab).
  assert (idx (processes k3) (p_pid p) = Some old) as Hio.
  { cbn. apply idx_Some in f_slot0 as Hr. rewrite f_pid0, idx_upd_ne; [by eapply slot_in_keep|lia..|].
    apply not_eq_sym, (slot_in_free (processes k) l' new_pid _ old); [done|done|lia]. }
  assert (idx (processes k3) new_pid = Some (kbrk k)) as Hin by (by apply idx_upd_eq).
  destruct (clone_fds_ok (kbrk k) k3 old (kbrk k) p pn tab (p_pid p) new_pid 70) as (k4 & b & E4 & Hcl & Hb & Hk4);
    [done|done|cbn; rewrite zlen_upd; lia|done|done|lia|lia|lia|cbn; by rewrite lookup_insert_ne by lia|cbn; by rewrite lookup_insert_ne by lia
    |apply f_size0|apply f_size0|done|cbn; lia|intros a Ha; apply f_fdheap0 in Ha; cbn; lia| |apply lookup_insert_eq|done|apply lookup_insert_eq|lia|cbn; lia|cbn; lia|cbn; lia|].
  { intros a. cbn. rewrite lookup_insert_is_Some. intros [<- |[_ Ha]]; [lia|]. apply f_arrays0 in Ha. lia. }
  destruct Hcl as (tn & size & cs & n & Hph & Htn & Hsz & Hcs & Hcp & Hfk & _ & Harr).
  set (pn1 := pn <| fd_table := tn |> <| fd_table_size := size |>) in *.
  assert (pheap k4 = <[kbrk k := pn1]> (pheap k)) as Hph4 by (rewrite Hph; cbn; by rewrite insert_insert_eq).
  assert (theap k4 = theap k ∧ locals k4 = locals k ∧ sched_lock k4 = sched_lock k ∧ threads k4 = threads k ∧ nodes k4 = nodes k ∧
    processes k4 = processes k3 ∧ kbrk k4 = b) as (T1 & T2 & T3 & T4 & T5 & T6 & T7) by (by rewrite Hk4).
  destruct (fork_finish r k4 v t old p new_pid (kbrk k) pn1) as
    (k' & tid & t' & p' & E & Q1 & Q2 & Q3 & Q4 & (l & i & Q5 & Q5') & (g & Q6 & Q6') & Q7 & Q8 & Q9 & Q10 & Q11 & Q12 & Q13 & Q14 & Q15 &
     (l1 & S1 & Q16) & Q17 & R1 & R2 & R3 & R4);
    rewrite ?T1, ?T2, ?T3, ?T6, ?T7, ?Hph4; try done; try lia; [by rewrite lookup_insert_ne by lia|apply lookup_insert_eq| | | |].
  { intros j a. rewrite T4, T1. apply f_tables0. }
  { intros a Ha. apply f_theap0 in Ha. cbn in Hb. lia. }
  { cbn in Hb. lia. }
  cbn in Hb. rewrite Hph4, insert_insert_eq in Q4.
  assert (processes k' = processes k3 ∧ threads k' = upd l1 tid (kbrk k4) ∧ fdheap k' = fdheap k4 ∧ arrays k' = arrays k4 ∧
    nodes k' = <[sleep_node t' := mk_sleep 0 0 0 0]> (nodes k)) as (U1 & U2 & U3 & U4 & U5)
    by (rewrite Q16; cbn; by rewrite T5, ?T6).
  assert (only_child k k' new_pid (kbrk k) tid (kbrk k4)) as Hoc.
  { assert (∀ {A} (m : gmap Z A) c, (∀ a, is_Some (m !! a) → a < kbrk k) → kbrk k ≤ c → m !! c = None) as Hnew.
    { intros A m c Hm Hc'. destruct (m !! c) as [x|] eqn:Ex; [|done]. specialize (Hm c ltac:(by exists x)). lia. }
    split.
    - exists l'. split; [exact Hs|exact U1].
    - exists l1. split; [by rewrite <-T4|exact U2].
    - split; [by apply Hnew; [|lia]|]. by exists p'.
    - split; [apply Hnew; [done|lia]|]. exists t'. rewrite <-T1. split_and!; [exact Q3| |exact U5]. apply Hnew; [done|lia].
    - intros a Ha. rewrite U3. apply Hfk. apply f_fdheap0 in Ha. cbn. lia.
    - intros a Ha. apply f_arrays0 in Ha. rewrite U4, (Harr a Ha). cbn. by rewrite lookup_insert_ne by lia.
    - clear -Hk4 Q16. revert Hk4 Q16. generalize (fdheap k4) (arrays k4) (pheap k4) (theap k') (pheap k').
      intros fh ar ph th' ph' -> ->. subst k3. clearbody pn. clearbody k. eexists. destruct k. vm_compute. reflexivity. }
  exists new_pid, (kbrk k), tid, (kbrk k4), k', p', t', cs, n. split.
  { rewrite Ef. erewrite bind_ok; [|apply on_kern_ok; exact E4]. exact E. }
  split_and!; try done; try (by rewrite Q5); try (by rewrite ?U1, ?U3, ?U4, ?Q13, ?Q3, ?Q6, ?Q5, ?T1, ?T2, ?T6).
  - lia.
  - apply Hs.
  - rewrite Q5. change (p_threads pn1) with (@nil Z) in Q5'. destruct Q5' as ([->|(_ & -> & ->)] & Hi & _); [|reflexivity].
    apply idx_Some in Hi as [_ Hi]. by rewrite lookup_nil in Hi.
  - unfold resumes. rewrite Q6, T2 in *. by split_and!.
Qed.
End fork.

(** ** Examples *)

(** The process of the small kernel, with one open file: descriptor 2. *)
Definition fork_kernel : kstate :=
  um_kernel <| fdheap := {[700 := set_cookies (mk_fd 0 900 0 33 0 1 0)]} |>
    <| arrays := {[600 := upd (replicate 70 0) 2 700]} |>.
Definition fork_demo : user_st pmm_state := mk_user fork_kernel vm_demo.
Definition no_regs : syscall_reg_t := mk_sys_regs 0 0 0 0 0 0 0 0 0 0 0 0 5 0 57.

Lemma fork_demo_ok : can_fork fork_kernel (demo_thread 0 RUNNING) 500 (demo_process <| p_cr3 := 4096 |>) (upd (replicate 70 0) 2 700).
Proof.
  assert (∀ {A} (m : gmap Z A) b, map_Forall (λ k _, k < b) m → ∀ a, is_Some (m !! a) → a < b) as Hm.
  { intros A m b Hm a [x Hx]. by apply (Hm a x). }
  split; try (vm_compute; done); try (apply Hm; apply (bool_decide_unpack _); by vm_compute).
  - intros a Ha Hz. assert (a = 700) as ->; [|by eexists].
    apply list_elem_of_lookup in Ha as [i Hi]. unfold upd in Hi. apply list_lookup_insert_Some in Hi as [(_ & <- & _)|[_ Hi]]; [done|].
    by apply lookup_replicate in Hi as [-> _].
  - apply demo_tables.
Qed.

Lemma demo_fork_runs : ∃ cr3 v, vmm_fork 4096 vm_demo = Ok (cr3, v).
Proof.
  assert (match vmm_fork 4096 vm_demo with Ok _ => true | Crash _ => false end = true) as E by (vm_compute; reflexivity).
  destruct (vmm_fork 4096 vm_demo) as [[cr3 v]|]; [by eauto|done].
Qed.

Lemma fork_correct_witness : ∃ k' v, fork 77 no_regs fork_demo = Ok (1, mk_user k' v) ∧
  ∃ th t', theap k' !! th = Some t' ∧ r_rax (t_regs t') = 0 ∧ r_rip (t_regs t') = 5.
Proof.
  destruct demo_fork_runs as (cr3 & v & Ev).
  destruct (fork_correct 77 no_regs fork_demo _ _ _ _ cr3 v fork_demo_ok Ev) as
    (new_pid & new & tid & th & k' & pn' & t' & cs & n & E & H0 & Hoc & Hmin & Hin & _ & _ & _ & _ & _ & _ & _ & _ & _ & _ & _ & _ & _ & Ht & Hr & _).
  destruct (oc_processes _ _ _ _ _ _ Hoc) as (l & Hsl & _). change (processes (kern fork_demo)) with [500; 0] in *.
  assert (new_pid = 1) as ->.
  { pose proof (slot_in_free _ _ _ 0 500 Hsl eq_refl ltac:(done)) as Hne.
    destruct (Z_lt_le_dec 1 new_pid); [|lia]. destruct (Hmin 1 ltac:(lia)). vm_compute. reflexivity. }
  exists k', v. split; [exact E|]. exists th, t'. split; [rewrite Ht; apply lookup_insert_eq|].
  unfold resumes in Hr. split; [apply (proj1 Hr)|]. by destruct Hr as (_ & _ & _ & _ & _ & _ & _ & _ & _ & _ & _ & _ & _ & _ & _ & _ & Hr & _).
Defined.

(** *** What goes wrong *)

(** Descriptors are not kept: the child's copy of descriptor 2 is its descriptor 0, because every copy goes to the first
    free slot. *)
Lemma clone_fds_renumbers :
  match fork 77 no_regs fork_demo with
  | Ok (pid, u) =>
      let table := new ← idx (processes (kern u)) pid; pn ← pheap (kern u) !! new; arrays (kern u) !! fd_table pn in
      pid = 1 ∧ (tn ← table; a ← idx tn 0; fd_node <$> fdheap (kern u) !! a) = Some 900 ∧ (tn ← table; idx tn 2) = Some 0
  | Crash _ => False
  end.
Proof. vm_compute. by repeat split. Qed.

(** The base of the thread-local storage is not copied: the child's is 0. *)
Definition tls_demo : user_st pmm_state :=
  mk_user (fork_kernel <| theap := {[1000 := demo_thread 0 RUNNING <| t_regs := default_user_regs <| r_fs := 12345 |> |>]} |>
             <| threads := [1000] |>) vm_demo.
Lemma fork_loses_fs :
  match fork 77 no_regs tls_demo with
  | Ok (pid, u) => (th ← idx (threads (kern u)) 1; t ← theap (kern u) !! th; Some (parent_pid t, r_fs (t_regs t))) = Some (1, 0)
  | Crash _ => False
  end.
Proof. vm_compute. reflexivity. Qed.
