(* ===== verification/ExecveTheorems.v ===== *)
(** * Correctness of the argument handling of execve

    The request holds copies of the caller's strings, and on every way out that
    is no request the copies are gone again; the exception is an empty argument
    or environment list, where freeing the empty array stops the kernel. *)

From S2P Require Import Prelude Locks Blocks Bytes Vmm DList Vfs Kernel Stack Proc Sched SleepQueue Fd UserMemory ProcCalls.

Section execve.
Context (mapped : Z → Z → bool) (user : Z → Z).

(** ** One string *)

(** [str] is the string at the address [a] of the caller. *)
Definition cstr (a : Z) (str : list Z) : Prop :=
  (∀ i c, idx str i = Some c → c = user (u64 (a + i)) ∧ c ≠ 0) ∧ user (u64 (a + zlen str)) = 0 ∧ zlen str < 4096.

Definition same_but_log (k k' : kstate) : Prop := k' = k <| kcpu := kcpu k' |>.

Lemma same_but_log_refl k : same_but_log k k.
Proof. unfold same_but_log. by destruct k. Qed.

Lemma same_but_log_fields k k' : same_but_log k k' → theap k' = theap k ∧ locals k' = locals k ∧ kbrk k' = kbrk k.
Proof. intros Hk. rewrite Hk. done. Qed.

Lemma copy_loop_spec t a n : ∀ i found k, theap k !! current_thread (locals k) = Some t → i = zlen found →
  (∀ j c, idx found j = Some c → c = user (u64 (a + j)) ∧ c ≠ 0) → i + Z.of_nat n ≤ 4096 →
  ∃ o k', copy_loop mapped user n a i found k = Ok (o, k') ∧ same_but_log k k' ∧ match o with Some str => cstr a str | None => True end.
Proof.
  induction n as [|n IH]; intros i found k Ht Hi Hf Hb; cbn [copy_loop].
  - mstep. eexists None, _. split; [reflexivity|]. split; [by destruct k|done].
  - assert (∃ b, ring_forbids (u64 (a + 1 + i)) k = Ok (b, k)) as [fb Ef].
    { unfold ring_forbids. mstep. erewrite bind_ok; [|apply thread_at_ok; exact Ht]. cbv beta. mstep. by eexists. }
    mrun Ef. destruct (mapped (u64 (a + i)) 1) eqn:Em; cbn [negb orb]; [destruct fb|].
    + do 3 mstep. eexists None, _. split; [reflexivity|]. split; [by destruct k|done].
    + destruct (user (u64 (a + i)) =? 0) eqn:E0; zbool.
      * exists (Some found), k. split; [done|]. split; [apply same_but_log_refl|]. split; [done|]. split; [by rewrite <-Hi|lia].
      * apply IH; [done|rewrite zlen_app; change (zlen [_]) with 1; lia| |lia].
        intros j c Hj. rewrite idx_app_range in Hj. destruct (j <? zlen found) eqn:Ej; zbool; [by apply Hf|].
        apply idx_Some in Hj as Hr. destruct Hr as [Hr Hx]. change (zlen [user (u64 (a + i))]) with 1 in Hr.
        assert (j = i) as -> by lia. replace (Z.to_nat (i - zlen found)) with 0%nat in Hx by lia. by injection Hx as <-.
    + do 2 mstep. destruct fb; mstep; eexists None, _; (split; [reflexivity|]; split; [by destruct k|done]).
Qed.

(** ** The heap of copies *)

Record extends (s s' : exec_st) (l : list Z) : Prop := {
  e_nodup : NoDup l;
  e_new k : k ∈ l → kbrk (ekern s) ≤ k < kbrk (ekern s') ∧ is_Some (copies s' !! k);
  e_old k : k ∉ l → copies s' !! k = copies s !! k;
  e_brk : kbrk (ekern s) ≤ kbrk (ekern s');
  e_theap : theap (ekern s') = theap (ekern s);
  e_locals : locals (ekern s') = locals (ekern s)
}.

Lemma extends_refl s s' : copies s' = copies s → same_but_log (ekern s) (ekern s') → extends s s' [].
Proof.
  intros Hc (Ht & Hl & Hb)%same_but_log_fields. split; [constructor|set_solver|by rewrite Hc|lia|done|done].
Qed.

Lemma extends_trans s s1 s2 l1 l2 : extends s s1 l1 → extends s1 s2 l2 → extends s s2 (l1 ++ l2).
Proof.
  intros [A1 A2 A3 A4 A5 A6] [B1 B2 B3 B4 B5 B6]. split; [|..|lia|congruence|congruence].
  - apply NoDup_app. split_and!; [done| |done]. intros k H1 H2. apply A2 in H1. apply B2 in H2. lia.
  - intros k [Hk|Hk]%elem_of_app.
    + destruct (A2 k Hk) as [Hr Hx]. split; [lia|]. rewrite B3; [done|]. intros H2. apply B2 in H2. lia.
    + destruct (B2 k Hk) as [Hr Hx]. split; [lia|done].
  - intros k [H1 H2]%not_elem_of_app. by rewrite B3, A3.
Qed.

Lemma copy_string_ok t a s : theap (ekern s) !! current_thread (locals (ekern s)) = Some t → 0 < kbrk (ekern s) →
  ∃ c s', copy_string mapped user a s = Ok (c, s') ∧
    ((c = 0 ∧ extends s s' []) ∨ (c ≠ 0 ∧ extends s s' [c] ∧ ∃ str, copies s' !! c = Some str ∧ cstr a str)).
Proof.
  intros Ht Hb. unfold copy_string.
  destruct (copy_loop_spec t a 4096 0 [] (ekern s) Ht eq_refl) as (o & k' & E & Hk & Ho); [|lia|].
  { intros j c Hj. apply idx_Some in Hj as [Hj _]. change (zlen []) with 0 in Hj. lia. }
  erewrite bind_ok; [|unfold on_ekern, zoom, check_and_copy_string; rewrite E; reflexivity]. cbv beta.
  destruct o as [str|].
  - do 2 mstep. exists (kbrk k'), (mk_exec (k' <| kbrk := kbrk k' + 65536 |>) (<[kbrk k' := str]> (copies s))).
    split; [reflexivity|]. right.
    destruct (same_but_log_fields _ _ Hk) as (Tk & Lk & Eb). rewrite Eb. split; [lia|]. split; [|exists str; split; [apply lookup_insert_eq|done]].
    split; cbn; rewrite ?Eb; try done; [apply NoDup_singleton| | |lia].
    + intros k ->%list_elem_of_singleton. split; [cbn; lia|]. rewrite lookup_insert_eq. by eexists.
    + intros k Hn. rewrite lookup_insert_ne; [done|]. intros <-. apply Hn. by apply list_elem_of_singleton.
  - eexists 0, _. split; [reflexivity|]. left. split; [done|]. by apply extends_refl.
Qed.

(** The copies of [n] arguments, in their order. *)
Definition args_copied (s : exec_st) (argv i n : Z) (l : list Z) : Prop :=
  Forall2 (λ j c, c ≠ 0 ∧ ∃ str, copies s !! c = Some str ∧ cstr (user_pointer user (u64 (argv + 8 * j))) str) (seqZ i n) l.

Lemma args_copied_mono s s' argv i n l l' : args_copied s argv i n l → extends s s' l' → Forall (λ c, c < kbrk (ekern s)) l → args_copied s' argv i n l.
Proof.
  intros Ha [_ E2 E3 _ _ _] Hl. unfold args_copied in *. revert Hl. induction Ha as [|j c js cs (Hz & str & Hc & Hs) Ha IH]; intros Hl; constructor.
  - apply Forall_cons in Hl as [Hl _]. split; [done|]. exists str. split; [|done]. rewrite E3; [done|]. intros Hin. apply E2 in Hin. lia.
  - apply IH. by apply Forall_cons in Hl as [_ Hl].
Qed.

Lemma copy_args_ok t argv n : ∀ i s, theap (ekern s) !! current_thread (locals (ekern s)) = Some t → 0 < kbrk (ekern s) →
  ∃ l ok s', copy_args mapped user n argv i s = Ok ((l, ok), s') ∧ extends s s' l ∧ Forall (λ c, c ≠ 0) l ∧
    (ok = true → args_copied s' argv i (Z.of_nat n) l).
Proof.
  induction n as [|n IH]; intros i s Ht Hb; cbn [copy_args].
  - exists [], true, s. split_and!; [done|apply extends_refl; [done|apply same_but_log_refl]|done|intros _; constructor].
  - destruct (copy_string_ok t (user_pointer user (u64 (argv + 8 * i))) s Ht Hb) as (c & s1 & E1 & [[-> He]|(Hc & He & str & Hs & Hstr)]); mrun E1.
    + exists [], false, s1. by split_and!.
    + rewrite (proj2 (Z.eqb_neq c 0)) by done. pose proof He as [_ N1 _ B1 T1 L1].
      destruct (IH (i + 1) s1) as (l & ok & s2 & E2 & He2 & Hz & Ha); [by rewrite T1, L1|lia|]. mrun E2.
      exists (c :: l), ok, s2. split_and!; [done|by apply (extends_trans s s1 s2 [c] l)|by constructor|].
      intros Hok. unfold args_copied. rewrite seqZ_cons by lia. constructor.
      * split; [done|]. exists str. split; [|done]. rewrite (e_old _ _ _ He2); [done|]. intros Hin. apply (e_new _ _ _ He2) in Hin.
        destruct (N1 c) as [? _]; [by apply list_elem_of_singleton|]. lia.
      * replace (Z.pred (Z.of_nat (S n))) with (Z.of_nat n) by lia. rewrite <-Z.add_1_r. by apply Ha.
Qed.

(** ** Giving the copies back *)

Lemma free_copies_ok l : ∀ s, NoDup l → (∀ k, k ∈ l → k ≠ 0 ∧ is_Some (copies s !! k)) →
  ∃ s', free_copies l s = Ok (tt, s') ∧ ekern s' = ekern s ∧ (∀ k, k ∈ l → copies s' !! k = None) ∧ (∀ k, k ∉ l → copies s' !! k = copies s !! k).
Proof.
  induction l as [|k l IH]; intros s Hn Hl; cbn [free_copies].
  - exists s. split_and!; [done|done|by intros k ?%elem_of_nil|done].
  - apply NoDup_cons in Hn as [Hk Hn]. destruct (Hl k (list_elem_of_here _ _)) as [Hz Hs]. rewrite (proj2 (Z.eqb_neq k 0)) by done. cbn [negb].
    set (s1 := s <| copies := delete k (copies s) |>).
    assert (free_copy k s = Ok (tt, s1)) as E1 by (unfold free_copy; mstep; by rewrite decide_True). mrun E1.
    destruct (IH s1 Hn) as (s' & E & Ek & Hd & Hr).
    { intros j Hj. destruct (Hl j (list_elem_of_further _ _ _ Hj)) as [? ?]. split; [done|]. cbn. rewrite lookup_delete_ne; [done|]. by intros <-. }
    exists s'. split_and!; [done|done| |].
    + intros j [-> |Hj]%elem_of_cons; [|by apply Hd]. rewrite Hr by done. apply lookup_delete_eq.
    + intros j [Hj Hj']%not_elem_of_cons. rewrite Hr by done. cbn. by rewrite lookup_delete_ne.
Qed.

Lemma free_copies_app l1 l2 s s1 : free_copies l1 s = Ok (tt, s1) → free_copies (l1 ++ l2) s = free_copies l2 s1.
Proof.
  revert s. induction l1 as [|k l IH]; intros s; cbn [free_copies app]; [by intros [= <-]|]. intros (u & s2 & E & E2)%bind_inv.
  rewrite (bind_ok _ _ _ _ _ E). by apply IH.
Qed.

Definition path_list (path : Z) : list Z := if path =? 0 then [] else [path].

Lemma release_args_ok s0 s argv envp argc envc path :
  extends s0 s (argv ++ envp ++ path_list path) → Forall (λ c, c ≠ 0) (argv ++ envp) → argc ≠ 0 → envc ≠ 0 → 0 < kbrk (ekern s0) →
  (∀ k, is_Some (copies s0 !! k) → k < kbrk (ekern s0)) →
  ∃ s', release_args argv envp argc envc path s = Ok (tt, s') ∧ copies s' = copies s0.
Proof.
  intros He Hz Ha Hv Hb Hf. pose proof He as [E1 E2 E3 _ _ _].
  assert (∀ k, k ∈ argv ++ envp ++ path_list path → k ≠ 0 ∧ is_Some (copies s !! k)) as Hin.
  { intros k Hk. destruct (E2 k Hk) as [? ?]. split; [lia|done]. }
  apply NoDup_app in E1 as (N1 & D1 & E1). apply NoDup_app in E1 as (N2 & D2 & N3).
  destruct (free_copies_ok argv s N1) as (s1 & F1 & K1 & G1 & O1); [intros; apply Hin; by apply elem_of_app; left|].
  destruct (free_copies_ok envp s1 N2) as (s2 & F2 & K2 & G2 & O2).
  { intros k Hk. destruct (Hin k) as [? ?]; [apply elem_of_app; right; by apply elem_of_app; left|]. split; [done|].
    rewrite O1; [done|]. intros Hx. apply (D1 k Hx). by apply elem_of_app; left. }
  assert (∀ k, k ∈ path_list path → copies s2 !! k = copies s !! k) as Hpath.
  { intros k Hk. rewrite O2, O1; [done| |]; intros Hx; [apply (D1 k Hx); by apply elem_of_app; right|by apply (D2 k Hx)]. }
  assert (∃ s3, (if negb (path =? 0) then free_copy path else mret tt) s2 = Ok (tt, s3) ∧
    (∀ k, k ∈ path_list path → copies s3 !! k = None) ∧ (∀ k, k ∉ path_list path → copies s3 !! k = copies s2 !! k)) as (s3 & F3 & G3 & O3).
  { unfold path_list in *. destruct (path =? 0) eqn:Ep; cbn [negb].
    - exists s2. split_and!; [done|by intros k ?%elem_of_nil|done].
    - eexists. split; [unfold free_copy; mstep; rewrite decide_True; [reflexivity|]|].
      + rewrite Hpath by (by apply list_elem_of_singleton). apply Hin. apply elem_of_app; right; apply elem_of_app; right. by apply list_elem_of_singleton.
      + cbn. split; [intros k ->%list_elem_of_singleton; apply lookup_delete_eq|]. intros k Hk. rewrite lookup_delete_ne; [done|].
        intros <-. apply Hk. by apply list_elem_of_singleton. }
  exists s3. unfold release_args, free_array. rewrite (proj2 (Z.eqb_neq argc 0)), (proj2 (Z.eqb_neq envc 0)) by done.
  mrun F1. mstep. mrun F2. mstep. split; [exact F3|].
  apply map_eq. intros k. destruct (decide (k ∈ argv ++ envp ++ path_list path)) as [Hk|Hk].
  - trans (None : option (list Z)).
    + destruct (decide (k ∈ path_list path)) as [Hp|Hp]; [by apply G3|]. rewrite O3 by done.
      destruct (decide (k ∈ envp)) as [Hq|Hq]; [by apply G2|]. rewrite O2 by done. apply G1.
      by apply elem_of_app in Hk as [?|[?|?]%elem_of_app].
    + destruct (copies s0 !! k) as [x|] eqn:Ex; [|done]. specialize (Hf k ltac:(by exists x)). destruct (E2 k Hk) as [? _]. lia.
  - rewrite <-E3 by done. apply not_elem_of_app in Hk as [H1 [H2 H3]%not_elem_of_app]. by rewrite O3, O2, O1.
Qed.

Lemma count_args_range n argv : ∀ i c, count_args mapped user n argv i = Some c → i ≤ c < i + Z.of_nat n.
Proof.
  induction n as [|n IH]; intros i c; cbn [count_args]; [done|]. destruct (_ || _); [done|].
  destruct (_ =? 0); [intros [= <-]; lia|]. intros H%IH. lia.
Qed.

(** C28: [execve] asks for the new program with copies of exactly the caller's
    strings, or answers EFAULT and leaves nothing behind.  An argument or
    environment array that cannot be read, or that has no null pointer among its
    first 128 entries, is refused before anything is copied.  When a string cannot
    be copied all earlier copies are freed, and when the request fails later every
    copy is freed as well (for arrays that are not empty). *)
Theorem execve_arguments_correct (s : exec_st) t path argv envp :
  theap (ekern s) !! current_thread (locals (ekern s)) = Some t → 0 < kbrk (ekern s) →
  (∀ k, is_Some (copies s !! k) → k < kbrk (ekern s)) →
  match count_args mapped user 128 argv 0, count_args mapped user 128 envp 0 with
  | Some argc, Some envc => argc ≠ 0 → envc ≠ 0 →
      ∃ res s', execve_collect mapped user path argv envp s = Ok (res, s') ∧
        match res with
        | inl e => e = EFAULT ∧ copies s' = copies s
        | inr d => x_argc d = argc ∧ x_envc d = envc ∧ x_pid d = parent_pid t ∧ x_tid d = t_tid t ∧
            args_copied s' argv 0 argc (x_argv d) ∧ args_copied s' envp 0 envc (x_envp d) ∧
            (∃ str, copies s' !! x_executable_path d = Some str ∧ cstr path str) ∧
            ∀ ret, ∃ s'', execve_failed d ret s' = Ok (ret, s'') ∧ copies s'' = copies s
        end
  | _, _ => execve_collect mapped user path argv envp s = Ok (inl EFAULT, s)
  end.
Proof.
  intros Ht Hb Hf. unfold execve_collect. destruct (count_args mapped user 128 argv 0) as [argc|] eqn:Na; [|done].
  destruct (count_args mapped user 128 envp 0) as [envc|] eqn:Ne; [|done]. intros Ha Hv.
  apply count_args_range in Na. apply count_args_range in Ne.
  destruct (copy_args_ok t argv (Z.to_nat argc) 0 s Ht Hb) as (l1 & ok1 & s1 & E1 & X1 & Z1 & A1). mrun E1. pose proof X1 as [_ _ _ B1 T1 L1].
  destruct ok1; cbn [negb].
  2:{ destruct (release_args_ok s s1 l1 [] argc envc 0) as (s' & Er & Hs'); try done; try (by cbn; rewrite ?app_nil_r).
      mrun Er. eexists _, _. split; [reflexivity|done]. }
  destruct (copy_args_ok t envp (Z.to_nat envc) 0 s1) as (l2 & ok2 & s2 & E2 & X2 & Z2 & A2); [by rewrite T1, L1|lia|]. mrun E2.
  pose proof X2 as [_ _ _ B2 T2 L2]. assert (Forall (λ c, c ≠ 0) (l1 ++ l2)) as Hz by (by apply Forall_app).
  pose proof (extends_trans _ _ _ _ _ X1 X2) as X12. destruct ok2; cbn [negb].
  2:{ destruct (release_args_ok s s2 l1 l2 argc envc 0) as (s' & Er & Hs'); try done; try (by cbn; rewrite ?app_nil_r).
      mrun Er. eexists _, _. split; [reflexivity|done]. }
  destruct (copy_string_ok t path s2) as (c & s3 & E3 & Hc); [by rewrite T2, L2, T1, L1|lia|]. mrun E3.
  destruct Hc as [[-> X3]|(Hc & X3 & str & Hs & Hstr)].
  - cbn [Z.eqb]. pose proof (extends_trans _ _ _ _ _ X12 X3) as X. rewrite app_nil_r in X.
    destruct (release_args_ok s s3 l1 l2 argc envc 0) as (s' & Er & Hs'); try done; try (by cbn; rewrite ?app_nil_r).
    mrun Er. eexists _, _. split; [reflexivity|done].
  - rewrite (proj2 (Z.eqb_neq c 0)) by done. pose proof X3 as [_ _ _ B3 T3 L3].
    assert (theap (ekern s3) !! current_thread (locals (ekern s3)) = Some t) as Ht3 by (by rewrite T3, L3, T2, L2, T1, L1).
    assert (on_ekern get_cur_pid s3 = Ok (parent_pid t, s3)) as Ep by (unfold on_ekern, zoom; rewrite (get_cur_pid_ok _ _ Ht3); by destruct s3).
    mrun Ep. assert (on_ekern get_cur_thread s3 = Ok (current_thread (locals (ekern s3)), s3)) as Eg by (by destruct s3). mrun Eg.
    assert (on_ekern (thread_at (current_thread (locals (ekern s3)))) s3 = Ok (t, s3)) as Et
      by (unfold on_ekern, zoom; rewrite (thread_at_ok _ _ _ Ht3); by destruct s3). mrun Et.
    eexists _, s3. split; [reflexivity|]. cbn.
    assert (∀ l sa sb, extends sa sb l → Forall (λ k, k < kbrk (ekern sb)) l) as Hlt.
    { intros l sa sb X. apply Forall_forall. intros k Hk. apply (e_new _ _ _ X) in Hk. lia. }
    split_and!; try done.
    + apply (args_copied_mono s1 s3 argv 0 argc l1 (l2 ++ [c])); [rewrite <-(Z2Nat.id argc) by lia; by apply A1| |by eapply Hlt].
      by apply (extends_trans s1 s2 s3).
    + apply (args_copied_mono s2 s3 envp 0 envc l2 [c]); [rewrite <-(Z2Nat.id envc) by lia; by apply A2|done|by eapply Hlt].
    + by exists str.
    + intros ret. destruct (release_args_ok s s3 l1 l2 argc envc c) as (s' & Er & Hs'); try done.
      { unfold path_list. rewrite (proj2 (Z.eqb_neq c 0)) by done. rewrite app_assoc. by apply (extends_trans s s2 s3). }
      exists s'. split; [|done]. unfold execve_failed. cbn. by mrun Er.
Qed.
End execve.

(** ** Examples *)

(** The arrays at 4096 and 4200 hold one pointer, to the string "A" at 5000; the one at 4300 is empty. *)
Definition demo_user (a : Z) : Z :=
  if a =? 4096 then 136 else if a =? 4097 then 19 else if a =? 4200 then 136 else if a =? 4201 then 19 else if a =? 5000 then 65 else 0.
Definition demo_mapped (a n : Z) : bool := a <? 8192.
Definition exec_demo : exec_st := mk_exec demo_kernel ∅.

Lemma execve_arguments_correct_witness :
  ∃ d s', execve_collect demo_mapped demo_user 5000 4096 4200 exec_demo = Ok (inr d, s') ∧
    (∃ str, copies s' !! x_executable_path d = Some str ∧ cstr demo_user 5000 str) ∧
    ∃ s'', execve_failed d 2 s' = Ok (2, s'') ∧ copies s'' = ∅.
Proof.
  pose proof (execve_arguments_correct demo_mapped demo_user exec_demo (demo_thread 0 RUNNING) 5000 4096 4200) as H.
  change (count_args demo_mapped demo_user 128 4096 0) with (Some 1) in H. change (count_args demo_mapped demo_user 128 4200 0) with (Some 1) in H.
  destruct H as (res & s' & E & H); [vm_compute; reflexivity|vm_compute; reflexivity| |lia|lia|].
  { intros k [x Hx]. discriminate Hx. }
  destruct res as [e|d].
  - exfalso. apply (f_equal (λ r : res ((Z + urm_execve_data) * exec_st), match r with Ok (inr _, _) => true | _ => false end)) in E. vm_compute in E. discriminate E.
  - exists d, s'. split; [exact E|]. destruct H as (_ & _ & _ & _ & _ & _ & Hp & Hr). split; [exact Hp|]. exact (Hr 2).
Defined.

(** With no environment, the array that is allocated for it has no bytes; when the program
    cannot be loaded, freeing it fails an assertion: the caller stops the kernel. *)
Lemma execve_empty_environment_panics :
  match execve_collect demo_mapped demo_user 5000 4096 4300 exec_demo with
  | Ok (inr d, s') => x_envc d = 0 ∧ execve_failed d ENOENT s' = Crash Panic
  | _ => False
  end.
Proof. vm_compute. by split. Qed.
