(* ===== verification/Syscalls.v ===== *)
(** * System calls (proc/syscalls.c)

    The table of handlers with its dispatch, and the handlers: what each does to
    the registers of the caller ([syscall_reg_t]) and to the state of the
    component it calls.  A handler that may switch threads returns the frame to
    resume as well.  [mapped] and [user] are the address space of the caller
    ([range_mapped] and its bytes), [v2p] its translation. *)

From S2P Require Import Prelude Locks Blocks Bytes Pmm Frames Vmm DList Vfs Kernel Stack Proc Sched SleepQueue Fd Pipe UserMemory KeyMap Futex ProcCalls.

(** ** The table *)

Inductive handler : Type :=
| syscall_read_h | syscall_write_h | syscall_open_h | syscall_close_h | syscall_open_pipe_h | syscall_getpid_h
| syscall_seek_h | syscall_mmap_h | syscall_munmap_h | syscall_exit_h | syscall_getppid_h | syscall_yield_h
| syscall_nanosleep_h | syscall_sprint_h | syscall_fork_h | syscall_map_from_us_to_process_h | syscall_execve_h
| syscall_ipc_read_h | syscall_ipc_write_h | syscall_ipc_register_h | syscall_ipc_wait_h | syscall_ipc_handling_complete_h
| syscall_futex_wake_h | syscall_futex_wait_h | syscall_start_thread_h | syscall_exit_thread_h | syscall_map_to_process_h
| syscall_core_count_h | syscall_get_core_performance_h | syscall_ms_sleep_h | syscall_set_fs_h | syscall_print_num_h
| syscall_empty_h.
#[export] Instance handler_eq_dec : EqDecision handler.
Proof. solve_decision. Defined.

(** [None] is a null pointer: a slot of the table, and the table itself. *)
Record table_st : Type := mk_table {
  HANDLER_COUNT : Z;
  syscall_handlers : option (block (option handler))
}.
#[export] Instance eta_table_st : Eta table_st := λ r, mk_table (HANDLER_COUNT r) (syscall_handlers r).

Section table.
Context (junk : Z → list (option handler)).
Abbreviation tM := (stM table_st).

(** [syscall_handlers[i]] *)
Definition get_handler (i : Z) : tM (option handler) :=
  s ← get; b ← of_opt (syscall_handlers s); of_opt (idx (b_data b) i).
Definition set_handler (i : Z) (h : handler) : tM unit :=
  s ← get;
  b ← of_opt (syscall_handlers s);
  if (0 <=? i) && (i <? zlen (b_data b))
  then modify (λ s, s <| syscall_handlers := Some (mk_block (b_size b) (upd (b_data b) i (Some h))) |>)
  else crashM Fault.

Definition fill_empty (i : Z) : tM unit :=
  o ← get_handler i;
  match o with None => set_handler i syscall_empty_h | Some _ => mret tt end.

Definition register_syscall (num : Z) (h : handler) : tM unit :=
  s ← get;
  (if HANDLER_COUNT s <? num + 1 then
     match krealloc_block None 8 junk (syscall_handlers s) (num + 1) with
     | Ok b =>
         modify (λ s, s <| syscall_handlers := Some b |> <| HANDLER_COUNT := num + 1 |>) ;;
         for_loop (Z.to_nat (num + 1)) 0 fill_empty
     | Crash c => crashM c
     end
   else mret tt) ;;
  set_handler num h.

Definition registrations : list (Z * handler) :=
  [(0, syscall_read_h); (1, syscall_write_h); (2, syscall_open_h); (3, syscall_close_h); (4, syscall_open_pipe_h);
   (5, syscall_getpid_h); (8, syscall_seek_h); (9, syscall_mmap_h); (11, syscall_munmap_h); (12, syscall_exit_h);
   (14, syscall_getppid_h); (24, syscall_yield_h); (35, syscall_nanosleep_h); (50, syscall_sprint_h); (57, syscall_fork_h);
   (58, syscall_map_from_us_to_process_h); (59, syscall_execve_h); (60, syscall_ipc_read_h); (61, syscall_ipc_write_h);
   (62, syscall_ipc_register_h); (63, syscall_ipc_wait_h); (64, syscall_ipc_handling_complete_h); (65, syscall_futex_wake_h);
   (66, syscall_futex_wait_h); (67, syscall_start_thread_h); (68, syscall_exit_thread_h); (69, syscall_map_to_process_h);
   (70, syscall_core_count_h); (71, syscall_get_core_performance_h); (72, syscall_ms_sleep_h); (300, syscall_set_fs_h);
   (123, syscall_print_num_h)].

Fixpoint register_all (l : list (Z * handler)) : tM unit :=
  match l with [] => mret tt | (num, h) :: l' => register_syscall num h ;; register_all l' end.

Definition init_syscalls : tM unit := register_all registrations.

(** The handler that is called for the number in [rax]; a call of a null pointer is a [Fault]. *)
Definition syscall_handler (r : syscall_reg_t) : tM (option handler) :=
  s ← get;
  if s_rax r <? HANDLER_COUNT s then
    o ← get_handler (s_rax r);
    match o with Some h => mret (Some h) | None => crashM Fault end
  else mret None.
End table.

(** ** Handlers *)

(** [r->rax = ret] for a result that is not negative, the error in [rdx] otherwise. *)
Definition answer (r : syscall_reg_t) (ret : Z) : syscall_reg_t :=
  if 0 <=? ret then r <| s_rax := u64 ret |> else r <| s_rax := U64_MOD - 1 |> <| s_rdx := u64 (- ret) |>.

Section handlers.
Context (mapped : Z → Z → bool) (user : Z → Z) (v2p : Z → Z → Z) `{Code} (junk : Z → list Z) (tsc : nat → Z) (sse : Z).

Definition syscall_read (r : syscall_reg_t) : kM syscall_reg_t :=
  ret ← fd_read mapped (s32 (s_rdi r)) (s_rsi r) (s_rdx r); mret (answer r (s32 ret)).
Definition syscall_write (r : syscall_reg_t) : kM syscall_reg_t :=
  ret ← fd_write mapped (s32 (s_rdi r)) (s_rsi r) (s_rdx r); mret (answer r (s32 ret)).
Definition syscall_open (r : syscall_reg_t) : kM syscall_reg_t :=
  ret ← fd_open mapped user junk (s_rdi r) (s32 (s_rsi r)); mret (answer r (s32 ret)).
Definition syscall_close (r : syscall_reg_t) : kM syscall_reg_t :=
  ret ← fd_close (s32 (s_rdi r)); mret (answer r (s32 ret)).
Definition syscall_seek (r : syscall_reg_t) : kM syscall_reg_t :=
  ret ← fd_seek (s32 (s_rdi r)) (s_rsi r) (s32 (s_rdx r)); mret (answer r (s64 ret)).

Definition syscall_nanosleep (f : int_reg_t) (r : syscall_reg_t) : kM (syscall_reg_t * int_reg_t) :=
  let seconds := le_word (map (λ i, user (s_rdi r + i)) (seqZ 0 8)) in
  let nanoseconds := le_word (map (λ i, user (s_rdi r + 8 + i)) (seqZ 0 8)) in
  '(ret, f') ← nanosleep tsc (mapped (s_rdi r) 16) (mapped (s_rsi r) 16) (s_rsi r =? 0) seconds nanoseconds f;
  mret (r <| s_rax := u64 ret |>, f').

Definition syscall_ms_sleep (f : int_reg_t) (r : syscall_reg_t) : kM int_reg_t := sleep_ms tsc (s_rdi r) f.
Definition syscall_yield (f : int_reg_t) : kM int_reg_t := yield tsc f.

Definition syscall_set_fs (r : syscall_reg_t) : kM syscall_reg_t :=
  set_fs_base_syscall (s_rdi r) ;; mret (r <| s_rax := 0 |>).

Definition syscall_getpid (r : syscall_reg_t) : kM syscall_reg_t :=
  pid ← get_cur_pid; mret (r <| s_rax := u64 pid |>).

Definition syscall_getppid (r : syscall_reg_t) : kM syscall_reg_t :=
  sched_acquire ;;
  process ← (pid ← get_cur_pid; process_slot pid);
  sched_release ;;
  p ← process_at process;
  mret (r <| s_rax := u64 (ppid p) |>).

Definition syscall_print_num (r : syscall_reg_t) : kM syscall_reg_t :=
  print "PRINTING NUMBER FROM SYSCALL: %lu" ;; mret (r <| s_rax := 0 |>).

Definition syscall_empty (r : syscall_reg_t) : kM syscall_reg_t :=
  print "[DripOS] Warning! Unimplemented syscall %lu!" ;; mret (r <| s_rdx := ENOSYS |>).

(** [cpus] are the [cpu_locals_t] of all processors. *)
Definition syscall_core_count (cpus : list cpu_locals_t) (r : syscall_reg_t) : syscall_reg_t :=
  r <| s_rdx := 0 |> <| s_rax := zlen cpus |>.

Definition syscall_get_core_performance (cpus : list cpu_locals_t) (r : syscall_reg_t) : kM syscall_reg_t :=
  if negb (mapped (s_rdi r) 16) then mret (r <| s_rdx := EFAULT |>)
  else if u64 (zlen cpus - 1) <? u8 (s_rsi r) then mret (r <| s_rdx := EINVAL |>)
  else
    l ← of_opt (idx cpus (u8 (s_rsi r)));
    modify (λ s, s <| kmem := store_bytes (kmem s) (s_rdi r) (le_bytes 8 (active_tsc_count l) ++ le_bytes 8 (idle_tsc_count l)) |>) ;;
    mret (r <| s_rdx := 0 |>).

(** The other end of a pipe: the descriptor [remote_fd] of the process [pid]. *)
Definition install_remote (pipe_node process remote_fd : Z) : kM bool :=
  fd_acquire ;;
  p ← process_at process;
  if remote_fd <? s32 (fd_table_size p - 1) then
    old ← read_slot (fd_table p) remote_fd;
    (if negb (old =? 0) then kfree_fd old else mret tt) ;;
    new_entry ← kalloc;
    put_fd new_entry (mk_fd 0 pipe_node 0 0 0 0 0) ;;
    write_slot (fd_table p) remote_fd new_entry ;;
    fd_release ;; mret true
  else fd_release ;; mret false.

Definition syscall_open_pipe (pipe_node : Z) (r : syscall_reg_t) : kM syscall_reg_t :=
  let pid := s32 (s_rdi r) in
  let remote_fd := s32 (s_rsi r) in
  sched_acquire ;;
  s ← get;
  if zlen (processes s) <? u64 pid then sched_release ;; mret (r <| s_rdx := u64 (- EINVAL) |>)
  else
    process ← process_slot pid;
    p ← process_at process;
    cur ← get_cur_pid;
    let r := if negb (ppid p =? cur) then r <| s_rdx := u64 (- EPERM) |> else r in
    sched_release ;;
    ok ← install_remote pipe_node process remote_fd;
    if negb ok then mret (r <| s_rdx := u64 (- EBADF) |>)
    else
      cur ← get_cur_pid;
      new_pipe_fd ← fd_new pipe_node 0 cur;
      create_pipe junk new_pipe_fd remote_fd pid (s_rdx r) ;;
      mret (r <| s_rdx := u64 new_pipe_fd |>).

(** ** Handlers on other states *)

Section memory.
Context {F : Type} `{!FrameAlloc F}.

Definition syscall_mmap (r : syscall_reg_t) : stM (user_st F) syscall_reg_t :=
  '(ret, err) ← psuedo_mmap (s_rdi r) (s_rsi r);
  let r := match err with Some e => r <| s_rdx := e |> | None => r end in
  mret (r <| s_rax := ret |>).

Definition syscall_munmap (r : syscall_reg_t) : stM (user_st F) syscall_reg_t :=
  ret ← munmap (s_rdi r) (s_rsi r);
  mret (if ret =? 0 then r <| s_rax := ret |> else r <| s_rax := 1 |> <| s_rdx := u64 (- ret) |>).

Definition syscall_fork (r : syscall_reg_t) : stM (user_st F) syscall_reg_t :=
  pid ← fork sse r; mret (r <| s_rax := u64 pid |>).
End memory.

Section futexes.
Context {M : Type} `{!KeyMap M}.

(** [virt_to_phys(r->rdi, get_cur_thread()->regs.cr3)] *)
Definition futex_phys (r : syscall_reg_t) : kM Z :=
  c ← get_cur_thread; t ← thread_at c; mret (v2p (s_rdi r) (r_cr3 (t_regs t))).

Definition syscall_futex_wake (r : syscall_reg_t) : stM (futex_st M) syscall_reg_t :=
  let r := r <| s_rdx := 0 |> in
  phys ← on_fkern (futex_phys r);
  let r := if phys =? NOT_MAPPED then r <| s_rdx := EFAULT |> else r in
  ret ← futex_wake phys;
  mret (r <| s_rdx := u64 ret |>).

Definition syscall_futex_wait (f : int_reg_t) (r : syscall_reg_t) : stM (futex_st M) (syscall_reg_t * int_reg_t) :=
  let r := r <| s_rdx := 0 |> in
  phys ← on_fkern (futex_phys r);
  let r := if phys =? NOT_MAPPED then r <| s_rdx := EFAULT |> else r in
  '(ret, f') ← futex_wait junk tsc f phys (u32 (s_rsi r));
  mret (r <| s_rdx := u64 ret |>, f').
End futexes.
End handlers.
