(* ===== verification/SyscallTheorems.v ===== *)
(** * Correctness of the system call table

    After [init_syscalls] every number is dispatched as the list of system calls
    says; the errors of file calls reach the caller in the registers. *)

From S2P Require Import Prelude Locks Blocks Bytes Pmm Frames Vmm DList Vfs Kernel Stack Proc Sched SleepQueue Fd Pipe UserMemory KeyMap Futex ProcCalls Syscalls.

Section table.
Context (junk : Z → list (option handler)).

(** The table holds the handlers [l]. *)
Definition holds (s : table_st) (l : list handler) : Prop :=
  HANDLER_COUNT s = zlen l ∧
  match syscall_handlers s with
  | None => l = []
  | Some b => block_ok 8 b ∧ b_size b = zlen l ∧ take (length l) (b_data b) = Some <$> l
  end.

Definition room (s : table_st) (n : Z) : Prop := match syscall_handlers s with None => False | Some b => n ≤ zlen (b_data b) end.

(** [i] slots have been filled: the handlers [l], then [syscall_empty]. *)
Definition filled (l : list handler) (b0 : block (option handler)) (i : Z) (s : table_st) : Prop :=
  ∃ d, HANDLER_COUNT s = b_size b0 ∧ syscall_handlers s = Some (mk_block (b_size b0) d) ∧ zlen d = zlen (b_data b0) ∧
    ∀ j, 0 ≤ j → idx d j = if j <? i then Some (Some (default syscall_empty_h (idx l j))) else idx (b_data b0) j.

Lemma set_handler_ok s b i h : syscall_handlers s = Some b → 0 ≤ i < zlen (b_data b) →
  set_handler i h s = Ok (tt, s <| syscall_handlers := Some (mk_block (b_size b) (upd (b_data b) i (Some h))) |>).
Proof.
  intros Hs Hi. unfold set_handler. mstep. rewrite Hs. mstep. by rewrite (proj2 (Z.leb_le _ _)), (proj2 (Z.ltb_lt _ _)) by lia.
Qed.

Lemma get_handler_ok s b i o : syscall_handlers s = Some b → idx (b_data b) i = Some o → get_handler i s = Ok (o, s).
Proof. intros Hs Hi. unfold get_handler. mstep. rewrite Hs. mstep. by rewrite Hi. Qed.

Lemma fill_empty_ok l b0 i s : filled l b0 i s → 0 ≤ i < zlen (b_data b0) →
  idx (b_data b0) i = Some (idx l i) → ∃ s', fill_empty i s = Ok (tt, s') ∧ filled l b0 (i + 1) s'.
Proof.
  intros (d & Hc & Hs & Hl & Hd) Hi Hb. pose proof (Hd i ltac:(lia)) as Hdi. rewrite (proj2 (Z.ltb_ge i i)), Hb in Hdi by lia.
  unfold fill_empty. mrun (get_handler_ok s _ i _ Hs Hdi). destruct (idx l i) as [h|] eqn:El.
  - exists s. split; [done|]. exists d. split_and!; try done. intros j Hj. rewrite Hd by done. destruct (decide (j = i)) as [-> |Hne].
    + by rewrite (proj2 (Z.ltb_ge i i)), (proj2 (Z.ltb_lt i (i + 1))), El, Hb by lia.
    + destruct (j <? i) eqn:E1, (j <? i + 1) eqn:E2; zbool; try done; lia.
  - rewrite (set_handler_ok s _ i syscall_empty_h Hs) by (cbn; lia). eexists. split; [reflexivity|].
    exists (upd d i (Some syscall_empty_h)). split_and!; [done|done|by rewrite zlen_upd|]. intros j Hj. destruct (decide (j = i)) as [-> |Hne].
    + rewrite idx_upd_eq, (proj2 (Z.ltb_lt i (i + 1))), El by lia. done.
    + rewrite idx_upd_ne, Hd by lia. destruct (j <? i) eqn:E1, (j <? i + 1) eqn:E2; zbool; try done; lia.
Qed.

(** The list after a registration. *)
Definition registered (l : list handler) (num : Z) (h : handler) : list handler :=
  upd (if zlen l <? num + 1 then l ++ replicate (Z.to_nat (num + 1 - zlen l)) syscall_empty_h else l) num h.

Lemma holds_set s l num h : holds s l → 0 ≤ num < zlen l → ∃ s', set_handler num h s = Ok (tt, s') ∧ holds s' (upd l num h).
Proof.
  intros [Hc Hs] Hn. destruct (syscall_handlers s) as [b|] eqn:Eb; [|subst l; change (zlen []) with 0 in Hn; lia].
  destruct Hs as (Hb & Hz & Hd). pose proof Hb as [Hb0 Hb1]. pose proof (capacity_ge 8 ltac:(lia) _ Hb0) as Hcap.
  rewrite (set_handler_ok s b num h Eb) by lia. eexists. split; [reflexivity|]. split; [cbn -[upd zlen]; by rewrite zlen_upd|]. cbn -[upd zlen].
  split; [split; cbn -[upd zlen]; [done|by rewrite zlen_upd]|]. split; [by rewrite zlen_upd|]. unfold upd. rewrite length_insert.
  unfold zlen in Hn. rewrite take_insert_lt, Hd by lia. by rewrite list_fmap_insert.
Qed.

Lemma grow_ok s l num : holds s l → zlen l < num + 1 →
  ∃ s', (match krealloc_block None 8 junk (syscall_handlers s) (num + 1) with
     | Ok b => modify (λ s, s <| syscall_handlers := Some b |> <| HANDLER_COUNT := num + 1 |>) ;; for_loop (Z.to_nat (num + 1)) 0 fill_empty
     | Crash c => crashM c end) s = Ok (tt, s') ∧ holds s' (l ++ replicate (Z.to_nat (num + 1 - zlen l)) syscall_empty_h).
Proof.
  intros [Hc Hs] Hn. pose proof (zlen_nonneg l) as Hl0. set (n := num + 1) in *.
  assert (∃ b, krealloc_block None 8 junk (syscall_handlers s) n = Ok b ∧ block_ok 8 b ∧ b_size b = n ∧
    take (Z.to_nat n) (b_data b) = (Some <$> l) ++ replicate (Z.to_nat (n - zlen l)) None) as (b & Eb & Hb & Hz & Hd).
  { destruct (syscall_handlers s) as [b|].
    - destruct Hs as (Hb & Hz & Hd). destruct (krealloc_grow None 8 junk ltac:(lia) b n Hb ltac:(lia)) as (b' & E1 & E2 & E3 & E4).
      exists b'. split_and!; try done. rewrite E4, Hz. f_equal. unfold zlen. by rewrite Nat2Z.id.
    - subst l. change (zlen []) with 0 in *. destruct (krealloc_null None 8 junk ltac:(lia) n ltac:(lia)) as (b' & E1 & E2 & E3 & E4).
      exists b'. split_and!; try done. cbn. rewrite E4, Z.sub_0_r. done. }
  rewrite Eb. mstep. pose proof Hb as [Hb0 Hb1]. pose proof (capacity_ge 8 ltac:(lia) _ Hb0) as Hcap.
  assert (∀ j, 0 ≤ j < n → idx (b_data b) j = Some (idx l j)) as Hdata.
  { intros j Hj. transitivity (idx (take (Z.to_nat n) (b_data b)) j); [rewrite idx_take; by rewrite (proj2 (Z.ltb_lt _ _)) by lia|].
    rewrite Hd. unfold idx. rewrite (proj2 (Z.leb_le _ _)) by lia. unfold zlen in *. destruct (l !! Z.to_nat j) as [h|] eqn:E.
    - rewrite lookup_app_l by (rewrite length_fmap; by apply lookup_lt_Some in E). by rewrite list_lookup_fmap, E.
    - apply lookup_ge_None in E. rewrite lookup_app_r by (by rewrite length_fmap). apply lookup_replicate_2. rewrite length_fmap. lia. }
  set (s1 := s <| syscall_handlers := Some b |> <| HANDLER_COUNT := n |>).
  destruct (for_loop_inv (filled l b) fill_empty (Z.to_nat n) 0 s1) as (s' & E & d & Fc & Fs & Fl & Fd).
  { exists (b_data b). split_and!; [by cbn|by destruct b|done|]. intros j Hj. by rewrite (proj2 (Z.ltb_ge j 0)) by lia. }
  { intros j t Hj Ht. apply fill_empty_ok; [done|lia|apply Hdata; lia]. }
  rewrite Z2Nat.id, Z.add_0_l in Fd by lia. exists s'. split; [exact E|]. 
  assert (zlen (l ++ replicate (Z.to_nat (n - zlen l)) syscall_empty_h) = n) as Hlen.
  { rewrite zlen_app. unfold zlen at 2. rewrite length_replicate. lia. }
  split; [congruence|]. rewrite Fs. cbn. split; [split; cbn; [done|congruence]|]. split; [congruence|].
  apply idx_ext.
  - unfold zlen in *. rewrite length_take, length_fmap. lia.
  - intros j Hj. rewrite idx_take. unfold zlen in *. rewrite length_take in Hj. rewrite (proj2 (Z.ltb_lt _ _)) by lia.
    rewrite Fd, (proj2 (Z.ltb_lt j n)) by lia. unfold idx. rewrite (proj2 (Z.leb_le _ _)) by lia. rewrite list_lookup_fmap.
    destruct (l !! Z.to_nat j) as [h|] eqn:El.
    + by rewrite (lookup_app_l_Some _ _ _ _ El).
    + apply lookup_ge_None in El. rewrite lookup_app_r by done. rewrite lookup_replicate_2 by lia. done.
Qed.

Lemma register_ok s l num h : holds s l → 0 ≤ num → ∃ s', register_syscall junk num h s = Ok (tt, s') ∧ holds s' (registered l num h).
Proof.
  intros Hh Hn. unfold register_syscall, registered. mstep. rewrite (proj1 Hh). destruct (zlen l <? num + 1) eqn:E; zbool.
  - destruct (grow_ok s l num Hh E) as (s1 & E1 & H1). mrun E1. apply holds_set; [done|]. rewrite zlen_app. unfold zlen at 2.
    rewrite length_replicate. pose proof (zlen_nonneg l). lia.
  - mstep. apply holds_set; [done|lia].
Qed.

Lemma register_all_ok regs : ∀ s l, holds s l → Forall (λ p, 0 ≤ p.1) regs →
  ∃ s', register_all junk regs s = Ok (tt, s') ∧ holds s' (foldl (λ l p, registered l p.1 p.2) l regs).
Proof.
  induction regs as [|[num h] regs IH]; intros s l Hh Hr; cbn [register_all foldl]; [by exists s|].
  apply Forall_cons in Hr as [Hn Hr]. destruct (register_ok s l num h Hh Hn) as (s1 & E1 & H1). mrun E1. by apply IH.
Qed.
End table.

(** The handler of a number: the one registered for it, or [syscall_empty]. *)
Definition handler_of (n : Z) : handler :=
  default syscall_empty_h (p ← list_find (λ p, p.1 = n) registrations; Some p.2.2).

(** The system call table.  Starting from the empty table, [init_syscalls]
    runs to its end, growing the table on the way; then a system call with a
    number below 301 calls the handler that is registered for the number, and the
    stub [syscall_empty] for a number without one; larger numbers call nothing. *)
Theorem syscall_dispatch_correct (junk : Z → list (option handler)) :
  ∃ s', init_syscalls junk (mk_table 0 None) = Ok (tt, s') ∧
    ∀ r, 0 ≤ s_rax r → syscall_handler r s' = Ok (if s_rax r <? 301 then Some (handler_of (s_rax r)) else None, s').
Proof.
  destruct (register_all_ok junk registrations (mk_table 0 None) []) as (s' & E & [Hc Hs]); [done|by repeat constructor|].
  set (l := foldl _ _ _) in *. assert (l = handler_of <$> seqZ 0 301) as El by (vm_compute; reflexivity). rewrite El in *. clear El l.
  exists s'. split; [exact E|]. intros r Hr. assert (zlen (handler_of <$> seqZ 0 301) = 301) as Hl by (vm_compute; reflexivity).
  rewrite Hl in *. unfold syscall_handler. mstep. rewrite Hc. destruct (s_rax r <? 301) eqn:En; zbool; [|done].
  destruct (syscall_handlers s') as [b|] eqn:Eb; [|exfalso; apply (f_equal length) in Hs; vm_compute in Hs; discriminate Hs].
  destruct Hs as (_ & _ & Hd).
  assert (idx (b_data b) (s_rax r) = Some (Some (handler_of (s_rax r)))) as Hi.
  { transitivity (idx (take (length (handler_of <$> seqZ 0 301)) (b_data b)) (s_rax r)).
    - rewrite idx_take. unfold zlen in Hl. by rewrite (proj2 (Z.ltb_lt _ _)) by lia.
    - rewrite Hd. unfold idx. rewrite (proj2 (Z.leb_le _ _)) by lia. rewrite !list_lookup_fmap, lookup_seqZ_lt by lia. cbn [fmap option_fmap option_map].
      do 3 f_equal. lia. }
  by mrun (get_handler_ok s' b _ _ Eb Hi).
Qed.

(** *** What goes wrong *)

(** The other registers of a call. *)
Definition call (num rdi rsi rdx : Z) : syscall_reg_t := mk_sys_regs 0 0 0 0 0 0 0 0 rsi rdi 0 rdx 0 0 num.

(** A futex call with an address that is not mapped stores EFAULT and goes on: the error is overwritten. *)
Lemma futex_wake_unmapped_succeeds :
  match syscall_futex_wake (λ _ _, NOT_MAPPED) (call 65 4096 0 0) (mk_futex (M := Hashmap.hashmap Z) demo_kernel None ∅ 0) with
  | Ok (r, _) => s_rdx r = 0
  | Crash _ => False
  end.
Proof. vm_compute. reflexivity. Qed.

(** Only the parent may open a pipe to a process, but the test only stores the error: the caller, no parent of
    process 1, replaces its descriptor 3. *)
Definition pipe_demo : kstate :=
  demo_kernel <| processes := [500; 800] |>
    <| pheap := {[500 := demo_process; 800 := demo_process <| p_pid := 1 |> <| ppid := 7 |> <| fd_table := 900 |>]} |>
    <| arrays := {[600 := replicate 70 0; 900 := upd (replicate 70 0) 3 700]} |> <| fdheap := {[700 := mk_fd 0 42 0 0 0 0 0]} |>.

Lemma open_pipe_without_permission :
  match syscall_open_pipe (λ _, []) 55 (call 4 1 3 1) pipe_demo with
  | Ok (r, k) => s_rdx r = 0 ∧ (t ← arrays k !! 900; a ← idx t 3; fd_node <$> fdheap k !! a) = Some 55 ∧ fdheap k !! 700 = None
  | Crash _ => False
  end.
Proof. vm_compute. by repeat split. Qed.
