(* ===== verification/Urm.v ===== *)
(** * The resource manager (proc/urm.c)

    One kernel thread, [urm_thread], takes requests to end threads and processes
    and to replace programs; a worker thread carries each out.  A request is
    passed in globals under a lock that the sender takes and [urm_thread]
    releases.  The threads run at the same time, so the component is a step
    relation: every step is one access to a global (or one call that takes no
    part in the protocol) of one thread.  Senders and workers are named by
    numbers; new senders can appear at any time.  [asked] and [served] are what
    happened so far: the requests (type and data) in the order in which their senders
    got the lock, and the requests that were handed to a worker. *)

From S2P Require Import Prelude Locks.

Definition URM_KILL_PROCESS : Z := 0.
Definition URM_KILL_THREAD : Z := 1.
Definition URM_EXECVE : Z := 2.
Definition URM_KILL_RUNNER : Z := 3.

(** What a sender wants; [rq_wait] is [send_urm_request], otherwise [send_urm_request_async]
    or [send_urm_request_isr], which are the same. *)
Record request : Type := mk_request {
  rq_type : Z;
  rq_data : Z;
  rq_wait : bool
}.
#[export] Instance request_eq_dec : EqDecision request.
Proof. solve_decision. Defined.

(** The next statement of a sender. *)
Inductive cpc : Type :=
| CLock                 (** lock(urm_lock) *)
| CData                 (** urm_data = data *)
| CType                 (** urm_type = type *)
| CTrigger              (** trigger_event(&urm_request_event) *)
| CDone                 (** the two kcalloc, then urm_done_event = event_to_wait *)
| CReturn (ev rv : Z)   (** urm_return = return_value *)
| CAwait (ev rv : Z)    (** await_event(event_to_wait) *)
| CRead (rv : Z)        (** the result is read *)
| CFinished (ret : Z).

(** The next statement of [urm_thread]. *)
Inductive spc : Type :=
| SAwait                (** await_event(&urm_request_event) *)
| SSwitch               (** switch (urm_type) *)
| SCopy                 (** memcpy(urm_data, urm_data_copy, param_size) *)
| SDone (d : Z)         (** runtime_params->done_event = urm_done_event *)
| SReturn (d ev : Z)    (** runtime_params->return_val = urm_return *)
| SStart (d ev rv : Z)  (** runtime_params->type = urm_type, and the worker is started *)
| SReset1               (** urm_done_event = NULL *)
| SReset2               (** urm_data = NULL *)
| SReset3               (** urm_return = NULL *)
| SUnlock.              (** unlock(urm_lock) *)

(** The next statement of a worker. *)
Inductive wpc : Type :=
| WRun                  (** the request, and its result *)
| WTrigger              (** if (params->done_event) trigger_event(params->done_event) *)
| WKill                 (** send_urm_request_async(self_kill_data, URM_KILL_RUNNER) *).

Record worker : Type := mk_worker {
  w_pc : wpc;
  w_type : Z;
  w_data : Z;
  w_done : Z;
  w_return : Z
}.

Record urm_st : Type := mk_urm {
  urm_type : Z;
  urm_data : Z;
  urm_lock : Z;
  urm_request_event : Z;
  urm_done_event : Z;
  urm_return : Z;
  words : gmap Z Z;             (** the events and results the senders allocate *)
  heap_end : Z;
  senders : gmap Z (request * cpc);
  server : spc;
  workers : gmap Z worker;
  asked : list (Z * Z);
  served : list (Z * Z)
}.
#[export] Instance eta_urm_st : Eta urm_st :=
  λ r, mk_urm (urm_type r) (urm_data r) (urm_lock r) (urm_request_event r) (urm_done_event r) (urm_return r) (words r) (heap_end r)
    (senders r) (server r) (workers r) (asked r) (served r).

Definition set_pc (i : Z) (rq : request) (pc : cpc) (s : urm_st) : urm_st := s <| senders := <[i := (rq, pc)]> (senders s) |>.
Definition set_server (pc : spc) (s : urm_st) : urm_st := s <| server := pc |>.
Definition set_worker (i : Z) (w : worker) (s : urm_st) : urm_st := s <| workers := <[i := w]> (workers s) |>.

(** The requests that are carried out by a worker. *)
Definition for_worker (type : Z) : bool := (type =? URM_KILL_PROCESS) || (type =? URM_KILL_THREAD) || (type =? URM_EXECVE).

(** ** Steps *)

Inductive sender_step (i : Z) (rq : request) : cpc → urm_st → urm_st → Prop :=
| step_lock s l : spinlock_lock (urm_lock s) = Ok l →
    sender_step i rq CLock s (set_pc i rq CData (s <| urm_lock := l |> <| asked := asked s ++ [(rq_type rq, rq_data rq)] |>))
| step_data s : sender_step i rq CData s (set_pc i rq CType (s <| urm_data := rq_data rq |>))
| step_type s : sender_step i rq CType s (set_pc i rq CTrigger (s <| urm_type := rq_type rq |>))
| step_trigger s : sender_step i rq CTrigger s
    (set_pc i rq (if rq_wait rq then CDone else CFinished 0) (s <| urm_request_event := snd (atomic_inc (urm_request_event s)) |>))
| step_done s : sender_step i rq CDone s
    (set_pc i rq (CReturn (heap_end s) (heap_end s + 1))
       (s <| words := <[heap_end s := 0]> (<[heap_end s + 1 := 0]> (words s)) |> <| heap_end := heap_end s + 2 |> <| urm_done_event := heap_end s |>))
| step_return ev rv s : sender_step i rq (CReturn ev rv) s (set_pc i rq (CAwait ev rv) (s <| urm_return := rv |>))
| step_await ev rv s v : words s !! ev = Some v → v ≠ 0 →
    sender_step i rq (CAwait ev rv) s (set_pc i rq (CRead rv) (s <| words := <[ev := snd (atomic_dec v)]> (words s) |>))
| step_read rv s v : words s !! rv = Some v → sender_step i rq (CRead rv) s (set_pc i rq (CFinished v) s).

Inductive server_step : spc → urm_st → urm_st → Prop :=
| step_wake s : urm_request_event s ≠ 0 →
    server_step SAwait s (set_server SSwitch (s <| urm_request_event := snd (atomic_dec (urm_request_event s)) |>))
| step_switch s : for_worker (urm_type s) = true → server_step SSwitch s (set_server SCopy s)
(** A runner is ended by [urm_thread] itself; any other type is ignored. *)
| step_switch_self s : for_worker (urm_type s) = false →
    server_step SSwitch s (set_server SReset1 (s <| served := served s ++ [(urm_type s, urm_data s)] |>))
| step_copy s : server_step SCopy s (set_server (SDone (urm_data s)) s)
| step_sdone d s : server_step (SDone d) s (set_server (SReturn d (urm_done_event s)) s)
| step_sreturn d ev s : server_step (SReturn d ev) s (set_server (SStart d ev (urm_return s)) s)
| step_start d ev rv i s : workers s !! i = None →
    server_step (SStart d ev rv) s
      (set_worker i (mk_worker WRun (urm_type s) d ev rv) (set_server SReset1 (s <| served := served s ++ [(urm_type s, d)] |>)))
| step_reset1 s : server_step SReset1 s (set_server SReset2 (s <| urm_done_event := 0 |>))
| step_reset2 s : server_step SReset2 s (set_server SReset3 (s <| urm_data := 0 |>))
| step_reset3 s : server_step SReset3 s (set_server SUnlock (s <| urm_return := 0 |>))
| step_unlock s : server_step SUnlock s (set_server SAwait (s <| urm_lock := spinlock_unlock (urm_lock s) |>)).

Inductive worker_step (i : Z) (w : worker) : urm_st → urm_st → Prop :=
(** [ret] is the result of the request. *)
| step_run s ret : w_pc w = WRun →
    worker_step i w s (set_worker i (mk_worker WTrigger (w_type w) (w_data w) (w_done w) (w_return w))
      (if w_return w =? 0 then s else s <| words := <[w_return w := ret]> (words s) |>))
| step_wtrigger s : w_pc w = WTrigger → (w_done w ≠ 0 → is_Some (words s !! w_done w)) →
    worker_step i w s (set_worker i (mk_worker WKill (w_type w) (w_data w) (w_done w) (w_return w))
      (if w_done w =? 0 then s
       else s <| words := alter (λ v, snd (atomic_inc v)) (w_done w) (words s) |>))
(** The worker becomes a sender, which then waits to be ended. *)
| step_wkill s j : w_pc w = WKill → senders s !! j = None →
    worker_step i w s (set_pc j (mk_request URM_KILL_RUNNER i false) CLock (s <| workers := delete i (workers s) |>)).

Inductive step : urm_st → urm_st → Prop :=
| by_sender i rq pc s s' : senders s !! i = Some (rq, pc) → sender_step i rq pc s s' → step s s'
| by_server s s' : server_step (server s) s s' → step s s'
| by_worker i w s s' : workers s !! i = Some w → worker_step i w s s' → step s s'
| by_caller i rq s : senders s !! i = None → step s (set_pc i rq CLock s).

(** Where everything starts. *)
Definition urm_init : urm_st := mk_urm 0 0 0 0 0 0 ∅ 1 ∅ SAwait ∅ [] [].

(** ** Correctness of the resource manager's protocol

    In every state that the threads can reach together, the requests that were
    handed over are the requests that were made, in their order, and at most one
    is under way.  The answer is another matter: it can be lost. *)

(** ** The invariant *)

(** Between the lock and the trigger. *)
Definition writing (pc : cpc) : bool := match pc with CData | CType | CTrigger => true | _ => false end.

Definition nobody_writes (s : urm_st) : Prop := ∀ i rq pc, senders s !! i = Some (rq, pc) → writing pc = false.

(** What a writer has stored already. *)
Definition stored (rq : request) (pc : cpc) (s : urm_st) : Prop :=
  match pc with
  | CType => urm_data s = rq_data rq
  | CTrigger => urm_data s = rq_data rq ∧ urm_type s = rq_type rq
  | _ => True
  end.

(** The server works on the request in the globals. *)
Definition taking (pc : spc) (s : urm_st) : Prop :=
  match pc with
  | SSwitch | SCopy => True
  | SDone d | SReturn d _ | SStart d _ _ => d = urm_data s
  | _ => False
  end.
Definition resetting (pc : spc) : Prop := match pc with SReset1 | SReset2 | SReset3 | SUnlock => True | _ => False end.

(** The four phases of the lock. *)
Inductive phase (s : urm_st) : Prop :=
| idle : urm_lock s = 0 → server s = SAwait → urm_request_event s = 0 → nobody_writes s → asked s = served s → phase s
| filling i rq pc : urm_lock s = 1 → server s = SAwait → urm_request_event s = 0 → senders s !! i = Some (rq, pc) → writing pc = true →
    (∀ j rq' pc', senders s !! j = Some (rq', pc') → writing pc' = true → j = i) → stored rq pc s →
    asked s = served s ++ [(rq_type rq, rq_data rq)] → phase s
| handing : urm_lock s = 1 → nobody_writes s →
    (server s = SAwait ∧ urm_request_event s = 1 ∨ taking (server s) s ∧ urm_request_event s = 0) →
    asked s = served s ++ [(urm_type s, urm_data s)] → phase s
| leaving : urm_lock s = 1 → nobody_writes s → resetting (server s) → urm_request_event s = 0 → asked s = served s → phase s.

(** Workers carry out requests that were made. *)
Record urm_ok (s : urm_st) : Prop := {
  u_phase : phase s;
  u_workers i w : workers s !! i = Some w → (w_type w, w_data w) ∈ served s
}.

Lemma nobody_insert s i rq pc : nobody_writes s → writing pc = false →
  ∀ j rq' pc', <[i := (rq, pc)]> (senders s) !! j = Some (rq', pc') → writing pc' = false.
Proof. intros Hn Hw j rq' pc'. rewrite lookup_insert_Some. intros [[_ [= <- <-]]|[_ H]]; [done|by eapply Hn]. Qed.

Lemma urm_init_ok : urm_ok urm_init.
Proof. split; [|done]. by apply idle. Qed.

(** Steps that do not take part in the hand-over: no writer starts, stops or moves. *)
Definition quiet (s s' : urm_st) : Prop :=
  ∀ j, senders s' !! j = senders s !! j ∨
    (∃ rq pc, senders s' !! j = Some (rq, pc) ∧ writing pc = false) ∧ ∀ rq pc, senders s !! j = Some (rq, pc) → writing pc = false.

Lemma quiet_insert s s' i rq pc : (∀ rq0 pc0, senders s !! i = Some (rq0, pc0) → writing pc0 = false) → writing pc = false →
  senders s' = <[i := (rq, pc)]> (senders s) → quiet s s'.
Proof.
  intros Hi Hw Es j. rewrite Es. destruct (decide (j = i)) as [-> |Hne]; [right|left; by rewrite lookup_insert_ne].
  rewrite lookup_insert_eq. split; [by eexists _, _|done].
Qed.

Lemma phase_quiet s s' : phase s → quiet s s' → urm_lock s' = urm_lock s → urm_type s' = urm_type s → urm_data s' = urm_data s →
  urm_request_event s' = urm_request_event s → server s' = server s → asked s' = asked s → served s' = served s → phase s'.
Proof.
  intros Hp Hq El Et Ed Er Ev Ea Esv.
  assert (∀ j rq pc, senders s' !! j = Some (rq, pc) → writing pc = true → senders s !! j = Some (rq, pc)) as Hback.
  { intros j rq pc Hj Hw. destruct (Hq j) as [E|[(rq' & pc' & E & W) _]]; congruence. }
  assert (nobody_writes s → nobody_writes s') as Hn.
  { intros Hn j rq pc Hj. destruct (writing pc) eqn:W; [|done]. rewrite <-W. by eapply Hn, Hback. }
  destruct Hp as [L S R N A|k rqk pck L S R K W U St A|L N T A|L N T R A].
  - apply idle; [congruence|congruence|congruence|auto|congruence].
  - apply (filling s' k rqk pck); [congruence|congruence|congruence| |done| | |congruence].
    + destruct (Hq k) as [E|[_ Hno]]; [congruence|]. apply Hno in K. congruence.
    + intros j rq pc Hj W'. by eapply U; [apply Hback|].
    + by destruct pck; cbn in *; rewrite ?Ed, ?Et.
  - apply handing; [congruence|auto| |congruence]. rewrite Ev, Er. destruct T as [T|[T R]]; [by left|right]. split; [|done].
    destruct (server s); cbn in *; congruence.
  - apply leaving; [congruence|auto|by rewrite Ev|congruence|congruence].
Qed.

(** A writer excludes the other phases. *)
Lemma phase_writing s i rq pc : phase s → senders s !! i = Some (rq, pc) → writing pc = true →
  urm_lock s = 1 ∧ server s = SAwait ∧ urm_request_event s = 0 ∧ stored rq pc s ∧ asked s = served s ++ [(rq_type rq, rq_data rq)] ∧
  ∀ j rq' pc', senders s !! j = Some (rq', pc') → writing pc' = true → j = i.
Proof.
  intros Hp Hi Hw. destruct Hp as [L S R N A|k rqk pck L S R K W U St A|L N T A|L N T R A];
    [apply N in Hi; congruence| |apply N in Hi; congruence|apply N in Hi; congruence].
  assert (i = k) as -> by (by eapply U). rewrite Hi in K. injection K as <- <-. by split_and!.
Qed.

Lemma others_insert s i rq pc : (∀ j rq' pc', senders s !! j = Some (rq', pc') → writing pc' = true → j = i) →
  ∀ j rq' pc', <[i := (rq, pc)]> (senders s) !! j = Some (rq', pc') → writing pc' = true → j = i.
Proof. intros U j rq' pc'. rewrite lookup_insert_Some. intros [[<- _]|[_ H]]; [done|by eapply U]. Qed.

Lemma phase_sender i rq pc s s' : phase s → senders s !! i = Some (rq, pc) → sender_step i rq pc s s' → phase s'.
Proof.
  intros Hp Hi Hs. destruct Hs as [s l El|s|s|s|s|ev rv s|ev rv s v|rv s v];
    try (eapply (phase_quiet s); [exact Hp|eapply quiet_insert; [intros ? ? E; rewrite Hi in E; injection E as <- <-; reflexivity| |reflexivity]; reflexivity|reflexivity..]).
  - assert (urm_lock s = 0 ∧ l = 1) as [L0 ->].
    { destruct Hp as [L|? ? ? L|L|L]; rewrite L in El; [|discriminate El..]. by injection El as <-. }
    destruct Hp as [L S R N A|k rqk pck L S R K W U St A|L N T A|L N T R A]; try congruence.
    apply (filling _ i rq CData); try done; cbn; [apply lookup_insert_eq| |by rewrite A].
    intros j rq' pc'. rewrite lookup_insert_Some. intros [[<- _]|[_ H]] W; [done|]. apply N in H. congruence.
  - destruct (phase_writing _ _ _ _ Hp Hi eq_refl) as (L & S & R & St & A & U).
    apply (filling _ i rq CType); try done; cbn; [apply lookup_insert_eq|by apply others_insert].
  - destruct (phase_writing _ _ _ _ Hp Hi eq_refl) as (L & S & R & St & A & U).
    apply (filling _ i rq CTrigger); try done; cbn; [apply lookup_insert_eq|by apply others_insert].
  - destruct (phase_writing _ _ _ _ Hp Hi eq_refl) as (L & S & R & [Sd St] & A & U). apply handing; cbn; [done| |left; by rewrite R|by rewrite Sd, St].
    intros j rq' pc'. cbn. rewrite lookup_insert_Some. intros [[_ [= <- <-]]|[Hne H]]; [by destruct (rq_wait rq)|].
    destruct (writing pc') eqn:W; [|done]. by destruct Hne; symmetry; eapply U.
Qed.

(** The server's steps, seen from the phases. *)
Lemma phase_taking s : phase s → taking (server s) s → urm_lock s = 1 ∧ nobody_writes s ∧ urm_request_event s = 0 ∧
  asked s = served s ++ [(urm_type s, urm_data s)].
Proof.
  intros Hp Ht. destruct Hp as [L S R N A|k rqk pck L S R K W U St A|L N [[T _]|[_ T]] A|L N T R A]; try (rewrite ?S, ?T in Ht; done).
  destruct (server s); done.
Qed.

Lemma phase_resetting s : phase s → resetting (server s) → urm_lock s = 1 ∧ nobody_writes s ∧ urm_request_event s = 0 ∧ asked s = served s.
Proof.
  intros Hp Ht. destruct Hp as [L S R N A|k rqk pck L S R K W U St A|L N [[T _]|[T _]] A|L N T R A]; try (rewrite ?S, ?T in Ht; done).
  destruct (server s); done.
Qed.

Lemma phase_working s : phase s → ¬ resetting (server s) → server s ≠ SAwait → taking (server s) s.
Proof. intros Hp Hr Ha. by destruct Hp as [? S|? ? ? ? S|? ? [[T _]|[T _]]|? ? T]. Qed.

Lemma phase_server s s' : phase s → server_step (server s) s s' → phase s'.
Proof.
  intros Hp Hs. remember (server s) as pc eqn:Epc. destruct Hs as [s R|s Fw|s Fw|s|d s|d ev s|d ev rv i s Hi|s|s|s|s].
  - destruct Hp as [L S R' N A|k rqk pck L S R' K W U St A|L N [[T R1]|[T R1]] A|L N T R' A]; try congruence.
    apply handing; cbn; [done|done|right; by rewrite R1|done].
  - destruct (phase_taking s Hp) as (L & N & R & A); [by rewrite <-Epc|]. apply handing; try done. by right.
  - destruct (phase_taking s Hp) as (L & N & R & A); [by rewrite <-Epc|]. by apply leaving.
  - destruct (phase_taking s Hp) as (L & N & R & A); [by rewrite <-Epc|]. apply handing; try done. by right.
  - assert (taking (server s) s) as Ht.
    { apply phase_working; rewrite <-?Epc; [done|by intros []|done]. }
    destruct (phase_taking s Hp Ht) as (L & N & R & A). rewrite <-Epc in Ht. apply handing; try done. by right.
  - assert (taking (server s) s) as Ht.
    { apply phase_working; rewrite <-?Epc; [done|by intros []|done]. }
    destruct (phase_taking s Hp Ht) as (L & N & R & A). rewrite <-Epc in Ht. apply handing; try done. by right.
  - assert (taking (server s) s) as Ht.
    { apply phase_working; rewrite <-?Epc; [done|by intros []|done]. }
    destruct (phase_taking s Hp Ht) as (L & N & R & A). rewrite <-Epc in Ht. cbn in Ht. subst d. by apply leaving.
  - destruct (phase_resetting s Hp) as (L & N & R & A); [by rewrite <-Epc|]. by apply leaving.
  - destruct (phase_resetting s Hp) as (L & N & R & A); [by rewrite <-Epc|]. by apply leaving.
  - destruct (phase_resetting s Hp) as (L & N & R & A); [by rewrite <-Epc|]. by apply leaving.
  - destruct (phase_resetting s Hp) as (L & N & R & A); [by rewrite <-Epc|]. apply idle; try done. cbn. by rewrite L.
Qed.

(** A worker touches neither the globals nor the request of another worker. *)
Lemma worker_frame i w s s' : workers s !! i = Some w → worker_step i w s s' →
  (urm_lock s' = urm_lock s ∧ urm_type s' = urm_type s ∧ urm_data s' = urm_data s ∧ urm_request_event s' = urm_request_event s ∧
   server s' = server s ∧ asked s' = asked s ∧ served s' = served s) ∧ quiet s s' ∧
  ∀ j w', workers s' !! j = Some w' → ∃ w0, workers s !! j = Some w0 ∧ w_type w' = w_type w0 ∧ w_data w' = w_data w0.
Proof.
  intros Hi Hs. assert (∀ w', w_type w' = w_type w → w_data w' = w_data w → ∀ j w1, <[i := w']> (workers s) !! j = Some w1 →
    ∃ w0, workers s !! j = Some w0 ∧ w_type w1 = w_type w0 ∧ w_data w1 = w_data w0) as Hput.
  { intros w' Et Ed j w1. rewrite lookup_insert_Some. intros [[<- <-]|[_ Hj]]; [by exists w|by exists w1]. }
  destruct Hs as [s ret P|s P Q|s j P Q].
  - destruct (w_return w =? 0); (split; [done|]); (split; [by left|]); by apply Hput.
  - destruct (w_done w =? 0); (split; [done|]); (split; [by left|]); by apply Hput.
  - split; [done|]. split; [apply (quiet_insert s _ j (mk_request URM_KILL_RUNNER i false) CLock); [congruence|done|done]|].
    intros k w'. cbn. rewrite lookup_delete_Some. intros [_ Hk]. by exists w'.
Qed.

Lemma step_ok s s' : urm_ok s → step s s' → urm_ok s'.
Proof.
  intros [Hp Hw] Hs. destruct Hs as [i rq pc s s' Hi Hs|s s' Hs|i w s s' Hi Hs|i rq s Hi].
  - split; [by eapply phase_sender|]. intros j w Hj.
    assert (workers s' = workers s ∧ served s' = served s) as [E1 E2] by (by destruct Hs). rewrite E1 in Hj. rewrite E2. by eapply Hw.
  - split; [by apply (phase_server s)|]. intros j w Hj. remember (server s) as pc. destruct Hs; cbn in *; try by eapply Hw.
    + apply elem_of_app. left. by eapply Hw.
    + apply lookup_insert_Some in Hj as [[<- <-]|[_ Hj]]; apply elem_of_app; [right; by apply list_elem_of_singleton|left; by eapply Hw].
  - destruct (worker_frame i w s s' Hi Hs) as ((E1 & E2 & E3 & E4 & E5 & E6 & E7) & Hq & Hf). split; [by apply (phase_quiet s)|].
    intros j w' Hj. destruct (Hf j w' Hj) as (w0 & H0 & -> & ->). rewrite E7. by eapply Hw.
  - split; [|done]. apply (phase_quiet s); try done. apply (quiet_insert s _ i rq CLock); [congruence|done|done].
Qed.

Lemma reachable_ok s : rtc step urm_init s → urm_ok s.
Proof.
  intros Hr. assert (∀ x y, rtc step x y → urm_ok x → urm_ok y) as H; [|by apply (H urm_init); [|apply urm_init_ok]].
  induction 1 as [|x y z Hs _ IH]; [done|]. intros Hx. by apply IH, (step_ok x).
Qed.

(** C29: requests to the resource manager are neither lost, changed nor mixed up.
    In every state the threads can reach, however their steps are interleaved,
    the requests that were taken up are those that were made, in the order in
    which their senders got the lock, except that the last one may still be under
    way; at most one sender is between taking the lock and the trigger; and every
    worker carries out a request that somebody made. *)
Theorem urm_requests_in_order (s : urm_st) : rtc step urm_init s →
  (asked s = served s ∨ ∃ rq, asked s = served s ++ [rq]) ∧
  (∀ i j rq rq' pc pc', senders s !! i = Some (rq, pc) → senders s !! j = Some (rq', pc') → writing pc = true → writing pc' = true → i = j) ∧
  (∀ i w, workers s !! i = Some w → (w_type w, w_data w) ∈ asked s).
Proof.
  intros [Hp Hw]%reachable_ok. split_and!.
  - destruct Hp as [L S R N A|k rqk pck L S R K W U St A|L N T A|L N T R A]; [by left|right; eauto..|by left].
  - intros i j rq rq' pc pc' Hi Hj W W'. destruct (phase_writing s j rq' pc' Hp Hj W') as (_ & _ & _ & _ & _ & U). by eapply U.
  - intros i w Hi. apply Hw in Hi. destruct Hp as [L S R N A|k rqk pck L S R K W U St A|L N T A|L N T R A]; rewrite A; [done| | |done];
      apply elem_of_app; by left.
Qed.

(** ** The answer *)

(** Nobody but its sender knows the event [ev] any more. *)
Definition pc_avoids (ev : Z) (pc : cpc) : Prop :=
  match pc with CReturn e r | CAwait e r => e ≠ ev ∧ r ≠ ev | CRead r => r ≠ ev | _ => True end.
Definition server_avoids (ev : Z) (pc : spc) : Prop :=
  match pc with SReturn _ e => e ≠ ev | SStart _ e r => e ≠ ev ∧ r ≠ ev | _ => True end.

Record forgotten (i : Z) (rq : request) (ev rv : Z) (s : urm_st) : Prop := {
  g_waits : senders s !! i = Some (rq, CAwait ev rv);
  g_unset : words s !! ev = Some 0;
  g_alloc : ev < heap_end s;
  g_done : urm_done_event s ≠ ev ∧ urm_return s ≠ ev;
  g_server : server_avoids ev (server s);
  g_workers j w : workers s !! j = Some w → w_done w ≠ ev ∧ w_return w ≠ ev;
  g_senders j rq' pc : j ≠ i → senders s !! j = Some (rq', pc) → pc_avoids ev pc;
  g_pos : 0 < ev;
  g_rv : rv ≠ ev
}.

Lemma forgotten_sender i rq ev rv j rq' pc s s' : forgotten i rq ev rv s → senders s !! j = Some (rq', pc) → sender_step j rq' pc s s' →
  forgotten i rq ev rv s'.
Proof.
  intros [G1 G2 G3 [G4 G4'] G5 G6 G7 G8 G9] Hj Hs. destruct (decide (j = i)) as [-> |Hne].
  { rewrite G1 in Hj. injection Hj as <- <-. inversion Hs; simplify_eq. }
  assert (∀ pc', pc_avoids ev pc' → ∀ k rq2 pc2, k ≠ i → <[j := (rq', pc')]> (senders s) !! k = Some (rq2, pc2) → pc_avoids ev pc2) as Hput.
  { intros pc' Ha k rq2 pc2 Hk. rewrite lookup_insert_Some. intros [[_ [= <- <-]]|[_ H]]; [done|by eapply G7]. }
  assert (∀ pc', <[j := (rq', pc')]> (senders s) !! i = Some (rq, CAwait ev rv)) as Hkeep by (intros; by rewrite lookup_insert_ne).
  pose proof (G7 j rq' pc Hne Hj) as Ha. destruct Hs; cbn in Ha; split; cbn; try done; try lia; try apply Hkeep; try (by apply Hput).
  all: first [apply Hput; first [by destruct (rq_wait rq')|cbn; lia]|by rewrite !lookup_insert_ne by lia].
Qed.

Lemma forgotten_step i rq ev rv s s' : forgotten i rq ev rv s → step s s' → forgotten i rq ev rv s'.
Proof.
  intros G Hs. destruct Hs as [j rq' pc s s' Hj Hs|s s' Hs|j w s s' Hj Hs|j rq' s Hj]; [by eapply forgotten_sender|..];
    pose proof G as [G1 G2 G3 [G4 G4'] G5 G6 G7 G8 G9].
  - remember (server s) as pc. destruct Hs; cbn in *; split; cbn; try done; try lia.
    intros k w. rewrite lookup_insert_Some. intros [[<- <-]|[_ Hk]]; [done|by eapply G6].
  - destruct (G6 j w Hj) as [Hd Hr].
    assert (∀ pc k w', <[j := mk_worker pc (w_type w) (w_data w) (w_done w) (w_return w)]> (workers s) !! k = Some w' → w_done w' ≠ ev ∧ w_return w' ≠ ev)
      as Hput. { intros pc k w'. rewrite lookup_insert_Some. intros [[<- <-]|[_ Hk]]; [done|by eapply G6]. }
    destruct Hs as [s ret P|s P Q|s k P Q].
    + destruct (w_return w =? 0); split; cbn; try done; [by apply Hput|by rewrite lookup_insert_ne|by apply Hput].
    + destruct (w_done w =? 0); split; cbn; try done; [by apply Hput|by rewrite lookup_alter_ne|by apply Hput].
    + split; cbn; try done; [rewrite lookup_insert_ne; [done|congruence]| |].
      * intros k' w'. rewrite lookup_delete_Some. intros [_ Hk]. by eapply G6.
      * intros k' rq2 pc2 Hk. rewrite lookup_insert_Some. intros [[_ [= <- <-]]|[_ H]]; [done|by eapply G7].
  - split; cbn; try done; [rewrite lookup_insert_ne; [done|congruence]|].
    intros k rq2 pc2 Hk. rewrite lookup_insert_Some. intros [[_ [= <- <-]]|[_ H]]; [done|by eapply G7].
Qed.

(** A sender triggers the request before it stores the event on which it waits for the answer.  When [urm_thread] looks
    in between, the worker has nobody to tell, and the sender waits for ever. *)
Definition kill_request : request := mk_request URM_KILL_THREAD 7 true.
Definition lost_state : urm_st :=
  mk_urm URM_KILL_THREAD 7 1 0 0 2 (<[1 := 0]> (<[2 := 0]> ∅)) 3 {[1 := (kill_request, CAwait 1 2)]} SReset2
    {[1 := mk_worker WRun URM_KILL_THREAD 7 0 0]} [(URM_KILL_THREAD, 7)] [(URM_KILL_THREAD, 7)].

Ltac sender_does := eapply rtc_l; [eapply (by_sender 1 kill_request); [reflexivity|econstructor; reflexivity]|].
Ltac server_does := eapply rtc_l; [apply by_server; econstructor; first [reflexivity|vm_compute; congruence]|].

Lemma lost_reachable : rtc step urm_init lost_state.
Proof.
  eapply rtc_l; [apply (by_caller 1 kill_request); reflexivity|]. do 4 sender_does. do 5 server_does. do 2 sender_does.
  eapply rtc_l; [apply by_server; apply (step_start 7 0 0 1); reflexivity|]. server_does.
  match goal with |- rtc step ?a ?b => assert (a = b) as ->; [vm_compute; reflexivity|constructor] end.
Qed.

Lemma lost_forgotten : forgotten 1 kill_request 1 2 lost_state.
Proof.
  split; try (vm_compute; done).
  - intros j w Hj. cbn [workers lost_state] in Hj. apply lookup_singleton_Some in Hj as [_ <-]. done.
  - intros j rq' pc Hj Hs. cbn [senders lost_state] in Hs. apply lookup_singleton_Some in Hs as [<- _]. done.
Qed.

Lemma forgotten_for_ever i rq ev rv s s' : rtc step s s' → forgotten i rq ev rv s → forgotten i rq ev rv s'.
Proof. induction 1 as [|x y z Hs _ IH]; [done|]. intros Hg. by eapply IH, forgotten_step. Qed.

Lemma urm_answer_lost : ∃ s i rq ev rv, rtc step urm_init s ∧
  ∀ s', rtc step s s' → senders s' !! i = Some (rq, CAwait ev rv) ∧ words s' !! ev = Some 0.
Proof.
  exists lost_state, 1, kill_request, 1, 2. split; [exact lost_reachable|]. intros s' Hr.
  by destruct (forgotten_for_ever _ _ _ _ _ _ Hr lost_forgotten) as [G1 G2].
Qed.

Lemma urm_requests_in_order_witness : (URM_KILL_THREAD, 7) ∈ asked lost_state ∧
  (asked lost_state = served lost_state ∨ ∃ rq, asked lost_state = served lost_state ++ [rq]).
Proof.
  destruct (urm_requests_in_order lost_state lost_reachable) as (H1 & _ & H3). split; [|exact H1].
  exact (H3 1 (mk_worker WRun URM_KILL_THREAD 7 0 0) eq_refl).
Defined.
