(* ===== verification/Ipc.v ===== *)
(** * Inter-process communication (proc/ipc.c)

    A server registers a handle for a port of its process and waits on it; a
    client connects to the handle, leaves its request there, wakes the server and
    waits for the answer.  Registration is a function on the state of the kernel
    with the handles and their hash maps.  The meeting of clients and the server
    is a step relation on one handle: every step is one access to the handle by
    one thread.  The server's event is the local variable of [wait_ipc], at the
    same address in every call; each client has an event of its own. *)

From S2P Require Import Prelude Locks Vfs Kernel Proc KeyMap.

Definition IPC_OPERATION_WRITE : Z := 1.
Definition IPC_OPERATION_READ : Z := 0.
Definition IPC_CONNECT_TIMEOUT_MS : Z := 50.
Definition IPC_CONNECTION_TIMEOUT : Z := 2.
Definition IPC_NOT_LISTENING : Z := 1.
Definition IPC_SUCCESS : Z := 0.

(** ** Registration *)

(** The hash maps by the address in [ipc_handles]; a handle is known by its address. *)
Record reg_st (M : Type) : Type := mk_reg {
  rkern : kstate;
  handle_maps : gmap Z M;
  handles : list Z
}.
Arguments mk_reg {M} _ _ _.
Arguments rkern {M} _.
Arguments handle_maps {M} _.
Arguments handles {M} _.
#[export] Instance eta_reg_st M : Eta (reg_st M) := λ r, mk_reg (rkern r) (handle_maps r) (handles r).

Section registration.
Context {M : Type} `{!KeyMap M}.
Abbreviation rM := (stM (reg_st M)).

Definition on_rkern {A} (m : kM A) : rM A := zoom rkern (λ k s, s <| rkern := k |>) m.

(** [lock(process->ipc_create_handle_lock)] and its unlock. *)
Definition create_acquire (process : Z) : kM unit :=
  p ← process_at process;
  match spinlock_lock (ipc_create_handle_lock p) with
  | Ok l => upd_process process (λ p, p <| ipc_create_handle_lock := l |>)
  | Crash c => crashM c
  end.
Definition create_release (process : Z) : kM unit :=
  upd_process process (λ p, p <| ipc_create_handle_lock := spinlock_unlock (ipc_create_handle_lock p) |>).

Definition handle_get (map port : Z) : rM Z :=
  s ← get;
  m ← of_opt (handle_maps s !! map);
  match km_get (u64 port) m with
  | Ok (h, m') => modify (λ s, s <| handle_maps := <[map := m']> (handle_maps s) |>) ;; mret h
  | Crash c => crashM c
  end.
Definition handle_set (map port h : Z) : rM unit :=
  s ← get;
  m ← of_opt (handle_maps s !! map);
  match km_set (u64 port) h m with
  | Ok (_, m') => modify (λ s, s <| handle_maps := <[map := m']> (handle_maps s) |>)
  | Crash c => crashM c
  end.

Definition register_ipc_handle (port : Z) : rM Z :=
  on_rkern sched_acquire ;;
  cur_process ← on_rkern (pid ← get_cur_pid; process_slot pid);
  on_rkern sched_release ;;
  on_rkern (create_acquire cur_process) ;;
  p ← on_rkern (process_at cur_process);
  handle ← handle_get (ipc_handles p) port;
  if negb (handle =? 0) then mret 1
  else
    handle ← on_rkern kalloc;
    modify (λ s, s <| handles := handle :: handles s |>) ;;
    p ← on_rkern (process_at cur_process);
    handle_set (ipc_handles p) port handle ;;
    on_rkern (create_release cur_process) ;;
    mret 0.
End registration.

(** ** Meeting on a handle *)

(** What a client wants. *)
Record client_t : Type := mk_client {
  k_pid : Z;
  k_buffer : Z;
  k_size : Z;
  k_op : Z
}.

(** The next statement of a client, in [read_ipc_server] and [write_ipc_server]; [t] is the
    tick at which it started to wait. *)
Inductive kpc : Type :=
| KStart                 (** if (!handle->listening) *)
| KPoll (t : Z)          (** the loop that waits for the server *)
| KLock                  (** spinlock_check_and_lock *)
| KSpin (t : Z)          (** the loop that waits for the lock *)
| KPid | KCompleted | KBuffer | KSize | KOp
| KTrigger               (** trigger_event(handle->ipc_event) *)
| KAwait                 (** await_event(handle->ipc_completed) *)
| KUnlock                (** atomic_dec(&handle->connect_lock.lock_dat) *)
| KResult                (** the error is read *)
| KEnd (err : Z).

(** The next statement of the server. *)
Inductive vpc : Type :=
| VListen                (** handle->listening = 1 *)
| VClear                 (** event_t ipc_await_event = 0 *)
| VEvent                 (** handle->ipc_event = &ipc_await_event *)
| VAwait                 (** await_event(&ipc_await_event) *)
| VUnlisten              (** handle->listening = 0 *)
| VHandle                (** the server's own work *)
| VComplete.             (** trigger_event(handle->ipc_completed) *)

Record ipc_st : Type := mk_ipc {
  listening : Z;
  ipc_event : bool;               (** whether the pointer to the server's event is set *)
  ipc_await_event : Z;
  h_pid : Z;
  ipc_completed : option Z;       (** the client whose event it is *)
  h_buffer : Z;
  h_size : Z;
  operation_type : Z;
  h_err : Z;
  connect_lock : Z;
  wait_server_done : gmap Z Z;    (** the clients' events *)
  ticks : Z;
  ipc_server : vpc;
  clients : gmap Z (client_t * kpc);
  faulted : bool                  (** a null pointer was used *)
}.
#[export] Instance eta_ipc_st : Eta ipc_st :=
  λ r, mk_ipc (listening r) (ipc_event r) (ipc_await_event r) (h_pid r) (ipc_completed r) (h_buffer r) (h_size r) (operation_type r) (h_err r)
    (connect_lock r) (wait_server_done r) (ticks r) (ipc_server r) (clients r) (faulted r).

Definition set_client (i : Z) (c : client_t) (pc : kpc) (s : ipc_st) : ipc_st := s <| clients := <[i := (c, pc)]> (clients s) |>.
Definition set_vpc (pc : vpc) (s : ipc_st) : ipc_st := s <| ipc_server := pc |>.

(** The test in the loop that waits for the server: [write_ipc_server] and [read_ipc_server] differ. *)
Definition gives_up (c : client_t) (t now : Z) : bool :=
  if k_op c =? IPC_OPERATION_WRITE then now <? u64 (t + IPC_CONNECT_TIMEOUT_MS) else u64 (t + IPC_CONNECT_TIMEOUT_MS) <=? now.

Inductive client_step (i : Z) (c : client_t) : kpc → ipc_st → ipc_st → Prop :=
| start_listening s : listening s ≠ 0 → client_step i c KStart s (set_client i c KLock s)
| start_waiting s : listening s = 0 → client_step i c KStart s (set_client i c (KPoll (ticks s)) s)
| poll_listening t s : listening s ≠ 0 → client_step i c (KPoll t) s (set_client i c KLock s)
| poll_timeout t s : listening s = 0 → gives_up c t (ticks s) = true →
    client_step i c (KPoll t) s (set_client i c (KEnd IPC_NOT_LISTENING) s)
| lock_free s l : spinlock_check_and_lock (connect_lock s) = (0, l) → client_step i c KLock s (set_client i c KPid (s <| connect_lock := l |>))
| lock_taken s l h : spinlock_check_and_lock (connect_lock s) = (h, l) → h ≠ 0 →
    client_step i c KLock s (set_client i c (KSpin (ticks s)) (s <| connect_lock := l |>))
| spin_got t s l : ticks s < u64 (t + IPC_CONNECT_TIMEOUT_MS) → spinlock_check_and_lock (connect_lock s) = (0, l) →
    client_step i c (KSpin t) s (set_client i c KPid (s <| connect_lock := l |>))
| spin_timeout t s : u64 (t + IPC_CONNECT_TIMEOUT_MS) ≤ ticks s →
    client_step i c (KSpin t) s (set_client i c (KEnd IPC_CONNECTION_TIMEOUT) s)
| store_pid s : client_step i c KPid s
    (set_client i c KCompleted (s <| wait_server_done := <[i := 0]> (wait_server_done s) |> <| h_pid := k_pid c |>))
| store_completed s : client_step i c KCompleted s (set_client i c KBuffer (s <| ipc_completed := Some i |>))
| store_buffer s : client_step i c KBuffer s (set_client i c KSize (s <| h_buffer := k_buffer c |>))
| store_size s : client_step i c KSize s (set_client i c KOp (s <| h_size := k_size c |>))
| store_op s : client_step i c KOp s (set_client i c KTrigger (s <| operation_type := k_op c |>))
| trigger s : ipc_event s = true →
    client_step i c KTrigger s (set_client i c KAwait (s <| ipc_await_event := snd (atomic_inc (ipc_await_event s)) |>))
| trigger_null s : ipc_event s = false → client_step i c KTrigger s (s <| faulted := true |>)
| answered s v : wait_server_done s !! i = Some v → v ≠ 0 →
    client_step i c KAwait s (set_client i c KUnlock (s <| wait_server_done := <[i := snd (atomic_dec v)]> (wait_server_done s) |>))
| unlock s : client_step i c KUnlock s (set_client i c KResult (s <| connect_lock := snd (atomic_dec (connect_lock s)) |>))
| read_result s : client_step i c KResult s (set_client i c (KEnd (h_err s)) s).

Inductive vstep : vpc → ipc_st → ipc_st → Prop :=
| v_listen s : vstep VListen s (set_vpc VClear (s <| listening := 1 |>))
| v_clear s : vstep VClear s (set_vpc VEvent (s <| ipc_await_event := 0 |>))
| v_event s : vstep VEvent s (set_vpc VAwait (s <| ipc_event := true |>))
| v_await s : ipc_await_event s ≠ 0 → vstep VAwait s (set_vpc VUnlisten (s <| ipc_await_event := snd (atomic_dec (ipc_await_event s)) |>))
| v_unlisten s : vstep VUnlisten s (set_vpc VHandle (s <| listening := 0 |>))
(** The server's answer. *)
| v_handle s err size : vstep VHandle s (set_vpc VComplete (s <| h_err := err |> <| h_size := size |>))
| v_complete s i : ipc_completed s = Some i →
    vstep VComplete s (set_vpc VListen (s <| wait_server_done := alter (λ v, snd (atomic_inc v)) i (wait_server_done s) |>)).

Inductive ipc_step : ipc_st → ipc_st → Prop :=
| by_client i c pc s s' : clients s !! i = Some (c, pc) → client_step i c pc s s' → ipc_step s s'
| by_ipc_server s s' : vstep (ipc_server s) s s' → ipc_step s s'
| by_time s : ipc_step s (s <| ticks := u64 (ticks s + 1) |>)
| by_new_client i c s : clients s !! i = None → ipc_step s (set_client i c KStart s).

(** A new handle, whose server is about to wait. *)
Definition ipc_init : ipc_st := mk_ipc 0 false 0 0 None 0 0 0 0 0 ∅ 0 VListen ∅ false.

(** ** Correctness of inter-process communication

    In every state the threads can reach, at most one client is connected, and
    the server works on exactly that client's request. *)

(** ** The invariant *)

(** A client that has the connection lock; one that still prepares its request. *)
Definition connected (pc : kpc) : bool :=
  match pc with KPid | KCompleted | KBuffer | KSize | KOp | KTrigger | KAwait | KUnlock => true | _ => false end.
Definition preparing (pc : kpc) : bool := match pc with KPid | KCompleted | KBuffer | KSize | KOp | KTrigger => true | _ => false end.
Definition busy (pc : vpc) : bool := match pc with VUnlisten | VHandle | VComplete => true | _ => false end.

(** How many of its stores a client has made. *)
Definition stage (pc : kpc) : Z :=
  match pc with KPid => 0 | KCompleted => 1 | KBuffer => 2 | KSize => 3 | KOp => 4 | KTrigger => 5 | _ => 6 end.

(** The first [n] fields of the request are in the handle. *)
Record holds_request (s : ipc_st) (i : Z) (c : client_t) (n : Z) : Prop := {
  q_pid : 0 < n → h_pid s = k_pid c ∧ wait_server_done s !! i = Some 0;
  q_completed : 1 < n → ipc_completed s = Some i;
  q_buffer : 2 < n → h_buffer s = k_buffer c;
  q_size : 3 < n → ipc_server s ≠ VComplete → h_size s = k_size c;
  q_op : 4 < n → operation_type s = k_op c
}.

Definition nobody (s : ipc_st) : Prop := ∀ j c pc, clients s !! j = Some (c, pc) → connected pc = false.
Definition only (s : ipc_st) (i : Z) : Prop := ∀ j c pc, clients s !! j = Some (c, pc) → connected pc = true → j = i.

Inductive meeting (s : ipc_st) : Prop :=
| free : connect_lock s = 0 → nobody s → ipc_await_event s = 0 → busy (ipc_server s) = false → meeting s
| prepares i c pc : connect_lock s = 1 → clients s !! i = Some (c, pc) → preparing pc = true → only s i →
    ipc_await_event s = 0 → busy (ipc_server s) = false → holds_request s i c (stage pc) → meeting s
(** The server has been woken, or its work is under way, or the wake-up was lost. *)
| asks i c : connect_lock s = 1 → clients s !! i = Some (c, KAwait) → only s i → holds_request s i c 6 →
    (ipc_await_event s = 1 ∧ busy (ipc_server s) = false ∨ ipc_await_event s = 0) → meeting s
| answered_m i c pc : connect_lock s = 1 → clients s !! i = Some (c, pc) → only s i → ipc_await_event s = 0 → busy (ipc_server s) = false →
    (pc = KAwait ∧ wait_server_done s !! i = Some 1 ∨ pc = KUnlock) → meeting s.

Lemma ipc_init_meeting : meeting ipc_init.
Proof. by apply free. Qed.

(** A connected client is the one of the phase. *)
Lemma only_insert s i c pc : only s i → ∀ j c' pc', <[i := (c, pc)]> (clients s) !! j = Some (c', pc') → connected pc' = true → j = i.
Proof. intros U j c' pc'. rewrite lookup_insert_Some. intros [[<- _]|[_ H]]; [done|by eapply U]. Qed.

Lemma nobody_insert_c s i c pc : only s i → connected pc = false →
  ∀ j c' pc', <[i := (c, pc)]> (clients s) !! j = Some (c', pc') → connected pc' = false.
Proof.
  intros U W j c' pc'. rewrite lookup_insert_Some. intros [[_ [= <- <-]]|[Hne H]]; [done|]. destruct (connected pc') eqn:E; [|done].
  by destruct Hne; symmetry; eapply U.
Qed.

(** Steps that leave the connected client and its request alone. *)
Definition aside (s s' : ipc_st) : Prop :=
  (∀ j, clients s' !! j = clients s !! j ∨
    (∃ c pc, clients s' !! j = Some (c, pc) ∧ connected pc = false) ∧ ∀ c pc, clients s !! j = Some (c, pc) → connected pc = false) ∧
  connect_lock s' = connect_lock s ∧ ipc_await_event s' = ipc_await_event s ∧ h_pid s' = h_pid s ∧ ipc_completed s' = ipc_completed s ∧
  h_buffer s' = h_buffer s ∧ h_size s' = h_size s ∧ operation_type s' = operation_type s ∧ wait_server_done s' = wait_server_done s.

Lemma aside_insert s i c pc pc' : clients s !! i = Some (c, pc) → connected pc = false → connected pc' = false →
  aside s (set_client i c pc' s).
Proof.
  intros Hi W W'. split; [|done]. intros j. cbn. destruct (decide (j = i)) as [-> |Hne]; [right|left; by rewrite lookup_insert_ne].
  rewrite lookup_insert_eq. split; [by eexists _, _|]. intros c2 pc2 E. congruence.
Qed.

Lemma meeting_aside s s' : meeting s → aside s s' → ipc_server s' = ipc_server s → meeting s'.
Proof.
  intros Hm (Hc & E1 & E2 & E3 & E4 & E5 & E6 & E7 & E8) Ev.
  assert (∀ j c pc, clients s' !! j = Some (c, pc) → connected pc = true → clients s !! j = Some (c, pc)) as Hback.
  { intros j c pc Hj W. destruct (Hc j) as [E|[(c' & pc' & E & W') _]]; congruence. }
  assert (∀ j c pc, clients s !! j = Some (c, pc) → connected pc = true → clients s' !! j = Some (c, pc)) as Hfwd.
  { intros j c pc Hj W. destruct (Hc j) as [E|[_ Hno]]; [congruence|]. apply Hno in Hj. congruence. }
  assert (∀ i, only s i → only s' i) as Ho by (intros i U j c pc Hj W; by eapply U; [apply Hback|]).
  assert (∀ i c n, holds_request s i c n → holds_request s' i c n) as Hq.
  { intros i c n [Q1 Q2 Q3 Q4 Q5]. split; rewrite ?E3, ?E4, ?E5, ?E6, ?E7, ?E8, ?Ev; auto. }
  destruct Hm as [L N A B|i c pc L K P U A B Q|i c L K U Q A|i c pc L K U A B P].
  - apply free; try congruence. intros j c pc Hj. destruct (connected pc) eqn:W; [|done]. rewrite <-W. by eapply N, Hback.
  - apply (prepares s' i c pc); try congruence; try by auto. apply Hfwd; [done|]. by destruct pc.
  - apply (asks s' i c); try congruence; try by auto.
  - apply (answered_m s' i c pc); try congruence; try by auto.
    apply Hfwd; [done|]. by destruct P as [[-> _]| ->].
Qed.

(** The phase of a connected client. *)
Lemma meeting_connected s i c pc : meeting s → clients s !! i = Some (c, pc) → connected pc = true →
  connect_lock s = 1 ∧ only s i ∧
  (preparing pc = true ∧ ipc_await_event s = 0 ∧ busy (ipc_server s) = false ∧ holds_request s i c (stage pc) ∨
   pc = KAwait ∧ holds_request s i c 6 ∧ (ipc_await_event s = 1 ∧ busy (ipc_server s) = false ∨ ipc_await_event s = 0) ∨
   ipc_await_event s = 0 ∧ busy (ipc_server s) = false ∧ (pc = KAwait ∧ wait_server_done s !! i = Some 1 ∨ pc = KUnlock)).
Proof.
  intros Hm Hi W. destruct Hm as [L N A B|k ck pck L K P U A B Q|k ck L K U Q A|k ck pck L K U A B P].
  - apply N in Hi. congruence.
  - assert (i = k) as -> by (by eapply U). rewrite Hi in K. injection K as <- <-. split_and!; [done|done|by left].
  - assert (i = k) as -> by (by eapply U). rewrite Hi in K. injection K as <- ->. split_and!; [done|done|by right; left].
  - assert (i = k) as -> by (by eapply U). rewrite Hi in K. injection K as <- <-. split_and!; [done|done|by right; right].
Qed.

(** The connection lock. *)
Lemma meeting_lock s l i c pc : meeting s → clients s !! i = Some (c, pc) → connected pc = false → spinlock_check_and_lock (connect_lock s) = (0, l) →
  meeting (set_client i c KPid (s <| connect_lock := l |>)).
Proof.
  intros Hm Hi W E. destruct Hm as [L N A B|k ck pck L|k ck L|k ck pck L]; rewrite L in E; try discriminate E. injection E as <-.
  apply (prepares _ i c KPid); try done; cbn; [apply lookup_insert_eq|]. intros j c' pc'. cbn. rewrite lookup_insert_Some.
  intros [[<- _]|[_ H]]; [done|]. intros W'. apply N in H. congruence.
Qed.

Lemma meeting_lock_taken s l h i c pc t : meeting s → clients s !! i = Some (c, pc) → connected pc = false →
  spinlock_check_and_lock (connect_lock s) = (h, l) → h ≠ 0 → meeting (set_client i c (KSpin t) (s <| connect_lock := l |>)).
Proof.
  intros Hm Hi W E Hh. assert (l = connect_lock s) as ->.
  { destruct Hm as [L|k ck pck L|k ck L|k ck pck L]; rewrite L in E |- *; injection E as <- <-; done. }
  apply (meeting_aside s); [done| |done]. destruct (aside_insert s i c pc (KSpin t) Hi W eq_refl) as [H1 H2]. split; [exact H1|exact H2].
Qed.

(** A store by the connected client. *)
Lemma meeting_store s s' i c pc pc' : meeting s → clients s !! i = Some (c, pc) → preparing pc = true → preparing pc' = true → stage pc' = stage pc + 1 →
  clients s' = <[i := (c, pc')]> (clients s) → connect_lock s' = connect_lock s → ipc_await_event s' = ipc_await_event s → ipc_server s' = ipc_server s →
  (holds_request s i c (stage pc) → holds_request s' i c (stage pc')) → meeting s'.
Proof.
  intros Hm Hi P P' St Ec El Ea Ev Hq. destruct (meeting_connected s i c pc Hm Hi) as (L & U & Hc); [by destruct pc|].
  destruct Hc as [(_ & A & B & Q)|[[-> _]|(_ & _ & [[-> _]| ->])]]; [|done..].
  apply (prepares s' i c pc'); try congruence; [rewrite Ec; apply lookup_insert_eq| |auto].
  intros j c2 pc2. rewrite Ec. by apply only_insert.
Qed.

(** The fields stored before stay. *)
Ltac keeps_request Q :=
  destruct Q as [Q1 Q2 Q3 Q4 Q5]; split; cbn in *; first [lia|done|intros _; first [apply Q1; lia|apply Q2; lia|apply Q3; lia|apply Q4; lia|apply Q5; lia|done]].

Lemma meeting_client i c pc s s' : meeting s → clients s !! i = Some (c, pc) → client_step i c pc s s' → meeting s'.
Proof.
  intros Hm Hi Hs. destruct Hs as [s H|s H|t s H|t s H H'|s l H|s l h H H'|t s l H H'|t s H|s|s|s|s|s|s H|s H|s v H H'|s|s];
    try (by apply (meeting_aside s); [done|by eapply aside_insert|done]).
  - by eapply meeting_lock.
  - by eapply meeting_lock_taken.
  - by eapply meeting_lock.
  - apply (meeting_store s _ i c KPid KCompleted); try done. intros _. split; cbn; try lia. intros _. split; [done|apply lookup_insert_eq].
  - apply (meeting_store s _ i c KCompleted KBuffer); try done. intros Q. keeps_request Q.
  - apply (meeting_store s _ i c KBuffer KSize); try done. intros Q. keeps_request Q.
  - apply (meeting_store s _ i c KSize KOp); try done. intros Q. keeps_request Q.
  - apply (meeting_store s _ i c KOp KTrigger); try done. intros Q. keeps_request Q.
  - destruct (meeting_connected s i c KTrigger Hm Hi eq_refl) as (L & U & [(_ & A & B & [Q1 Q2 Q3 Q4 Q5])|[[? _]|(_ & _ & [[? _]|?])]]); [|done..].
    apply (asks _ i c); cbn; [done|apply lookup_insert_eq|exact (only_insert s i c _ U)| |left; by rewrite A].
    cbn in *. split; cbn; intros _; [by apply Q1|by apply Q2|by apply Q3|by apply Q4|by apply Q5].
  - apply (meeting_aside s); [done| |done]. split; [by left|done].
  - destruct (meeting_connected s i c KAwait Hm Hi eq_refl) as (L & U & [(? & _)|[(_ & [Q1 _ _ _ _] & _)|(A & B & _)]]); [done| |].
    + destruct (Q1 ltac:(lia)) as [_ H0]. congruence.
    + apply (answered_m _ i c KUnlock); cbn; try done; [apply lookup_insert_eq|exact (only_insert s i c _ U)|by right].
  - destruct (meeting_connected s i c KUnlock Hm Hi eq_refl) as (L & U & [(? & _)|[(? & _)|(A & B & _)]]); [done|done|].
    apply free; cbn; [by rewrite L|exact (nobody_insert_c s i c KResult U eq_refl)|done|done].
Qed.

(** The server's steps. *)
Lemma meeting_idle s s' pc : meeting s → busy (ipc_server s) = false → busy pc = false →
  aside s (s' <| ipc_server := ipc_server s |>) → ipc_server s' = pc → meeting s'.
Proof.
  intros Hm B B' Ha Ev. apply (meeting_aside s) in Ha; [|done|done].
  destruct Ha as [L N A _|i c pc' L K P U A _ Q|i c L K U Q A|i c pc' L K U A _ P].
  - apply free; [done|done|done|by rewrite Ev].
  - apply (prepares s' i c pc'); try done; [by rewrite Ev|]. destruct Q as [Q1 Q2 Q3 Q4 Q5]. split; [done|done|done| |done].
    intros Hn _. apply Q4; [done|]. cbn. by intros E; rewrite E in B.
  - apply (asks s' i c); try done.
    + destruct Q as [Q1 Q2 Q3 Q4 Q5]. split; [done|done|done| |done]. intros Hn _. apply Q4; [done|]. cbn. by intros E; rewrite E in B.
    + destruct A as [[A _]|A]; [left; split; [done|by rewrite Ev]|by right].
  - apply (answered_m s' i c pc'); try done. by rewrite Ev.
Qed.

(** The server is at work: a client waits for it. *)
Lemma meeting_busy s : meeting s → busy (ipc_server s) = true →
  ∃ i c, connect_lock s = 1 ∧ clients s !! i = Some (c, KAwait) ∧ only s i ∧ holds_request s i c 6 ∧ ipc_await_event s = 0.
Proof.
  intros Hm B. destruct Hm as [L N A B'|i c pc L K P U A B' Q|i c L K U Q [[A B']|A]|i c pc L K U A B' P]; try congruence. by exists i, c.
Qed.

Lemma meeting_vstep s s' : meeting s → vstep (ipc_server s) s s' → meeting s'.
Proof.
  intros Hm Hs. remember (ipc_server s) as v eqn:Ev. destruct Hs as [s|s|s|s H|s|s err size|s k Hk].
  - apply (meeting_idle s _ VClear); [done|by rewrite <-Ev|done|split; [by left|done]|done].
  - destruct Hm as [L N A B|i c pc L K P U A B Q|i c L K U Q A|i c pc L K U A B P].
    + by apply free.
    + apply (prepares _ i c pc); try done. destruct Q as [Q1 Q2 Q3 Q4 Q5]. split; try done. intros Hn _. apply Q4; [done|by rewrite <-Ev].
    + apply (asks _ i c); try done; [|by right]. destruct Q as [Q1 Q2 Q3 Q4 Q5]. split; try done. intros Hn _. apply Q4; [done|by rewrite <-Ev].
    + by apply (answered_m _ i c pc).
  - apply (meeting_idle s _ VAwait); [done|by rewrite <-Ev|done|split; [by left|done]|done].
  - destruct Hm as [L N A B|i c pc L K P U A B Q|i c L K U Q A|i c pc L K U A B P]; [congruence|congruence| |congruence].
    destruct A as [[A _]|A]; [|congruence]. apply (asks _ i c); try done; [|right; cbn; by rewrite A].
    destruct Q as [Q1 Q2 Q3 Q4 Q5]. split; try done. intros Hn _. apply Q4; [done|by rewrite <-Ev].
  - destruct (meeting_busy s Hm) as (i & c & L & K & U & Q & A); [by rewrite <-Ev|]. apply (asks _ i c); try done; [|by right].
    destruct Q as [Q1 Q2 Q3 Q4 Q5]. split; try done. intros Hn _. apply Q4; [done|by rewrite <-Ev].
  - destruct (meeting_busy s Hm) as (i & c & L & K & U & Q & A); [by rewrite <-Ev|]. apply (asks _ i c); try done; [|by right].
    destruct Q as [Q1 Q2 Q3 Q4 Q5]. by split.
  - destruct (meeting_busy s Hm) as (i & c & L & K & U & [Q1 Q2 _ _ _] & A); [by rewrite <-Ev|].
    apply (answered_m _ i c KAwait); try done. left. split; [done|]. cbn. rewrite Q2 in Hk by lia. injection Hk as <-.
    rewrite lookup_alter_eq. destruct (Q1 ltac:(lia)) as [_ ->]. done.
Qed.

Lemma ipc_step_ok s s' : meeting s → ipc_step s s' → meeting s'.
Proof.
  intros Hm Hs. destruct Hs as [i c pc s s' Hi Hs|s s' Hs|s|i c s Hi].
  - by eapply meeting_client.
  - by eapply meeting_vstep.
  - apply (meeting_aside s); [done|split; [by left|done]|done].
  - apply (meeting_aside s); [done| |done]. split; [|done]. intros j. cbn. destruct (decide (j = i)) as [-> |Hne]; [right|left; by rewrite lookup_insert_ne].
    rewrite lookup_insert_eq. split; [by eexists _, _|congruence].
Qed.

Lemma ipc_reachable s : rtc ipc_step ipc_init s → meeting s.
Proof.
  intros Hr. assert (∀ x y, rtc ipc_step x y → meeting x → meeting y) as H; [|by apply (H ipc_init); [|apply ipc_init_meeting]].
  induction 1 as [|x y z Hs _ IH]; [done|]. intros Hx. by apply IH, (ipc_step_ok x).
Qed.

(** C30: a server handles one request at a time, and it is the request of the client
    that is connected.  In every state that clients, the server and the clock can
    reach together, at most one client holds the connection; and when the server
    is at work, the handle has exactly the process, buffer, size and kind of
    operation of that client, who is waiting, and the completion will be sent to
    its event. *)
Theorem ipc_one_request (s : ipc_st) : rtc ipc_step ipc_init s →
  (∀ i j c c' pc pc', clients s !! i = Some (c, pc) → clients s !! j = Some (c', pc') → connected pc = true → connected pc' = true → i = j) ∧
  (ipc_server s = VHandle → ∃ i c, clients s !! i = Some (c, KAwait) ∧ h_pid s = k_pid c ∧ h_buffer s = k_buffer c ∧ h_size s = k_size c ∧
     operation_type s = k_op c ∧ ipc_completed s = Some i ∧ wait_server_done s !! i = Some 0).
Proof.
  intros Hm%ipc_reachable. split.
  - intros i j c c' pc pc' Hi Hj W W'. destruct (meeting_connected s j c' pc' Hm Hj W') as (_ & U & _). by eapply U.
  - intros Hv. destruct (meeting_busy s Hm) as (i & c & L & K & U & [Q1 Q2 Q3 Q4 Q5] & A); [by rewrite Hv|]. exists i, c.
    destruct (Q1 ltac:(lia)) as [Hp Hw]. split_and!; [done|done|by apply Q3|apply Q4; [done|by rewrite Hv]|by apply Q5|by apply Q2|done].
Qed.

(** ** Examples *)

Definition demo_client : client_t := mk_client 4 8192 100 IPC_OPERATION_WRITE.

Ltac client_does := eapply rtc_l; [eapply (by_client 1 demo_client); [reflexivity|econstructor; first [reflexivity|vm_compute; congruence]]|].
Ltac ipc_server_does := eapply rtc_l; [apply by_ipc_server; econstructor; first [reflexivity|vm_compute; congruence]|].
Ltac arrived := match goal with |- rtc ipc_step ?a ?b => assert (a = b) as ->; [vm_compute; reflexivity|constructor] end.

(** The server works on the request of client 1. *)
Definition at_work : ipc_st :=
  mk_ipc 0 true 0 4 (Some 1) 8192 100 IPC_OPERATION_WRITE 0 1 {[1 := 0]} 0 VHandle {[1 := (demo_client, KAwait)]} false.

Lemma at_work_reachable : rtc ipc_step ipc_init at_work.
Proof.
  do 3 ipc_server_does. eapply rtc_l; [apply (by_new_client 1 demo_client); reflexivity|].
  eapply rtc_l; [eapply (by_client 1 demo_client); [reflexivity|apply start_listening; vm_compute; congruence]|].
  eapply rtc_l; [eapply (by_client 1 demo_client); [reflexivity|apply (lock_free 1 demo_client _ 1); reflexivity]|].
  do 5 client_does. eapply rtc_l; [eapply (by_client 1 demo_client); [reflexivity|apply trigger; reflexivity]|].
  do 2 ipc_server_does. arrived.
Qed.

Lemma ipc_one_request_witness : ∃ i c, clients at_work !! i = Some (c, KAwait) ∧ h_size at_work = k_size c ∧ ipc_completed at_work = Some i.
Proof.
  destruct (ipc_one_request at_work at_work_reachable) as [_ H]. destruct (H eq_refl) as (i & c & Hc & _ & _ & Hs & _ & Hi & _).
  exists i, c. by split_and!.
Defined.

(** *** What goes wrong *)

(** The server says that it listens before it stores its event: a client that connects in between
    uses a null pointer (or, later, the event of the last wait, whose trigger is then cleared). *)
Lemma ipc_null_event : ∃ s, rtc ipc_step ipc_init s ∧ faulted s = true.
Proof.
  eexists. split.
  - ipc_server_does. eapply rtc_l; [apply (by_new_client 1 demo_client); reflexivity|].
    eapply rtc_l; [eapply (by_client 1 demo_client); [reflexivity|apply start_listening; vm_compute; congruence]|].
    eapply rtc_l; [eapply (by_client 1 demo_client); [reflexivity|apply (lock_free 1 demo_client _ 1); reflexivity]|].
    do 5 client_does. eapply rtc_l; [eapply (by_client 1 demo_client); [reflexivity|apply trigger_null; reflexivity]|]. constructor.
  - reflexivity.
Qed.

(** The test for the time-out is the wrong way round in [write_ipc_server]: a writer gives up at once (within the
    first 50 ticks), and would wait on afterwards; a reader waits 50 ticks. *)
Lemma write_gives_up_at_once c t now : 0 ≤ t ≤ now → now < 2 ^ 63 →
  (k_op c = IPC_OPERATION_WRITE → gives_up c t now = (now <? t + 50)) ∧
  (k_op c = IPC_OPERATION_READ → gives_up c t now = (t + 50 <=? now)).
Proof.
  intros Ht Hn. assert (u64 (t + IPC_CONNECT_TIMEOUT_MS) = t + 50) as E.
  { change (2 ^ 63) with 9223372036854775808 in Hn. apply u64_small. unfold is_u64, IPC_CONNECT_TIMEOUT_MS. lia. }
  unfold gives_up. split; intros ->; cbn [Z.eqb IPC_OPERATION_WRITE IPC_OPERATION_READ Pos.eqb]; by rewrite E.
Qed.

(** Registering a port that is in use returns with the lock held: the next registration never returns. *)
Definition reg_demo : reg_st (Hashmap.hashmap Z) :=
  mk_reg (demo_kernel <| pheap := {[500 := demo_process <| ipc_handles := 9 |>]} |>) {[9 := km_new]} [].

Lemma register_twice_deadlocks :
  match register_ipc_handle 3 reg_demo with
  | Ok (r1, s1) => r1 = 0 ∧
      match register_ipc_handle 3 s1 with
      | Ok (r2, s2) => r2 = 1 ∧ register_ipc_handle 4 s2 = Crash Deadlock
      | Crash _ => False
      end
  | Crash _ => False
  end.
Proof. vm_compute. by repeat split. Qed.
