(* ===== verification/Ps2.v ===== *)
(** * Keyboard and mouse (drivers/ps2.c)

    The keyboard's thread puts every scan code it is woken for in a buffer of
    the kernel heap that grows by 256 bytes; readers of the device take them out
    of the front.  The two pointers into the buffer are offsets; a null buffer
    is [None].  [port60 i] is what the [i]-th read of the data port gives. *)

From S2P Require Import Prelude Locks CString Blocks Vfs Kernel Stack Pipe PipeTheorems.

Record ps2_st : Type := mk_ps2 {
  kb_base_buffer : option (block Z);
  kb_read_buffer : Z;
  kb_write_buffer : Z;
  kb_buffer_size : Z;
  ps2_buffer_lock : Z;
  mouse_x : Z;
  mouse_y : Z;
  port_reads : nat;
  ps2_mem : Z → Z (** kernel memory, where the readers' buffers are *)
}.
#[export] Instance eta_ps2_st : Eta ps2_st :=
  λ r, mk_ps2 (kb_base_buffer r) (kb_read_buffer r) (kb_write_buffer r) (kb_buffer_size r)
    (ps2_buffer_lock r) (mouse_x r) (mouse_y r) (port_reads r) (ps2_mem r).

Abbreviation pM := (stM ps2_st).

Definition MOUSE_SENSITIVITY : Z := 3.

Section ps2.
Context (port60 : nat → Z) (junk : Z → list Z).

(** [port_inb(0x60)] *)
Definition data_port : pM Z :=
  s ← get; modify (λ s, s <| port_reads := S (port_reads s) |>) ;; mret (port60 (port_reads s)).

Definition ps2_acquire : pM unit :=
  s ← get;
  match spinlock_lock (ps2_buffer_lock s) with
  | Ok l => modify (λ s, s <| ps2_buffer_lock := l |>)
  | Crash c => crashM c
  end.
Definition ps2_release : pM unit :=
  modify (λ s, s <| ps2_buffer_lock := spinlock_unlock (ps2_buffer_lock s) |>).

(** ** The keyboard *)

(** [krealloc(kb_base_buffer, kb_buffer_size + 256)] and the new size. *)
Definition grow_buffer : pM unit :=
  s ← get;
  b ← of_res (krealloc_block 0 1 junk (kb_base_buffer s) (u64 (kb_buffer_size s + 256)));
  modify (λ s, s <| kb_base_buffer := Some b |> <| kb_buffer_size := u64 (kb_buffer_size s + 256) |>).

(** [*(kb_write_buffer++) = scan] *)
Definition put_scan (scan : Z) : pM unit :=
  s ← get;
  b ← of_opt (kb_base_buffer s);
  if (0 <=? kb_write_buffer s) && (kb_write_buffer s <? zlen (b_data b)) then
    modify (λ s, s <| kb_base_buffer := Some (mk_block (b_size b) (upd (b_data b) (kb_write_buffer s) scan)) |>
                   <| kb_write_buffer := kb_write_buffer s + 1 |>)
  else crashM Fault.

(** What the thread does each time it is woken. *)
Definition ps2_keyboard_thread : pM unit :=
  scan ← data_port;
  ps2_acquire ;;
  s ← get;
  (match kb_base_buffer s with
   | None =>
       grow_buffer ;;
       modify (λ s, s <| kb_read_buffer := 0 |> <| kb_write_buffer := 0 |>)
   | Some _ => mret tt
   end) ;;
  s ← get;
  (* the offsets are taken from the old buffer and applied to the new one *)
  (if kb_write_buffer s =? kb_buffer_size s then grow_buffer else mret tt) ;;
  put_scan scan ;;
  ps2_release.

(** [*(kb_read_buffer++)] *)
Definition take_scan : pM Z :=
  s ← get;
  b ← of_opt (kb_base_buffer s);
  c ← of_opt (idx (b_data b) (kb_read_buffer s));
  modify (λ s, s <| kb_read_buffer := kb_read_buffer s + 1 |>) ;;
  mret c.

Definition read_kb_buffer : pM Z :=
  ps2_acquire ;;
  s ← get;
  if kb_write_buffer s =? 0 then ps2_release ;; mret 0
  else
    scancode ← take_scan;
    s ← get;
    (if kb_read_buffer s =? kb_write_buffer s
     then modify (λ s, s <| kb_read_buffer := 0 |> <| kb_write_buffer := 0 |>) else mret tt) ;;
    ps2_release ;;
    mret scancode.

(** The [read] operation of the device: [memset], then one scan code for each byte. *)
Fixpoint kb_read_loop (n : nat) (buf : Z) : pM unit :=
  match n with
  | O => mret tt
  | S n' =>
      c ← read_kb_buffer;
      modify (λ s, s <| ps2_mem := store_bytes (ps2_mem s) buf [c] |>) ;;
      kb_read_loop n' (u64 (buf + 1))
  end.

Definition ps2kb_read (fd buf count : Z) : pM Z :=
  modify (λ s, s <| ps2_mem := store_bytes (ps2_mem s) buf (replicate (Z.to_nat count) 0) |>) ;;
  kb_read_loop (Z.to_nat count) buf ;;
  mret 0.

(** ** The mouse

    [width] and [height] are those of [vesa_display_info]. *)

Context (width height : Z).

(** One of the two movements: the byte, with the ninth bit that [extra_bits] has
    as its sign. *)
Definition movement (move extra_bits shift : Z) : Z :=
  move - Z.land (Z.shiftl extra_bits shift) 256.

Definition step_of (d : Z) : Z := Z.quot d MOUSE_SENSITIVITY.

Definition mouse_handler : pM unit :=
  extra_bits ← data_port;
  move_x ← data_port;
  move_y ← data_port;
  let x := movement move_x extra_bits 4 in
  let y := movement move_y extra_bits 3 in
  if negb ((x =? 65) && (y =? 65)) && negb ((x =? 97) && (y =? -159)) then
    modify (λ s, s <| mouse_x := s64 (mouse_x s + step_of x) |>
                   <| mouse_y := s64 (mouse_y s - step_of y) |>) ;;
    modify (λ s, if s64 width <=? mouse_x s
                 then s <| mouse_x := s64 (mouse_x s - step_of x) |> else s) ;;
    modify (λ s, if s64 height <=? mouse_y s
                 then s <| mouse_y := s64 (mouse_y s + step_of y) |> else s) ;;
    modify (λ s, if mouse_x s <? 0
                 then s <| mouse_x := s64 (mouse_x s - step_of x) |> else s) ;;
    modify (λ s, if mouse_y s <? 0
                 then s <| mouse_y := s64 (mouse_y s + step_of y) |> else s)
  else mret tt.
End ps2.

(** ** The keyboard's buffer is a queue, the mouse stays on the screen *)

(** The scan codes that were stored and not read yet. *)
Definition scans (s : ps2_st) : list Z :=
  match kb_base_buffer s with
  | None => []
  | Some b => take (Z.to_nat (kb_write_buffer s - kb_read_buffer s))
                (drop (Z.to_nat (kb_read_buffer s)) (b_data b))
  end.

(** The buffer and its offsets. *)
Record buffer_ok (s : ps2_st) : Prop := {
  kb_block : match kb_base_buffer s with
             | None => kb_buffer_size s = 0 ∧ kb_write_buffer s = 0
             | Some b => block_ok 1 b ∧ b_size b = kb_buffer_size s
             end;
  kb_range : 0 ≤ kb_read_buffer s ≤ kb_write_buffer s ∧ kb_write_buffer s ≤ kb_buffer_size s;
  kb_reset : kb_read_buffer s = kb_write_buffer s → kb_write_buffer s = 0
}.

(** Between two operations nobody holds the lock. *)
Definition kb_ok (s : ps2_st) : Prop := unlocked (ps2_buffer_lock s) ∧ buffer_ok s.

(** What neither the buffer nor its lock is. *)
Definition same_mouse (s s' : ps2_st) : Prop := (mouse_x s', mouse_y s') = (mouse_x s, mouse_y s).

Section ps2.
Context (port60 : nat → Z) (junk : Z → list Z).

Lemma ps2_acquire_ok s :
  unlocked (ps2_buffer_lock s) → ps2_acquire s = Ok (tt, s <| ps2_buffer_lock := Z.lor (ps2_buffer_lock s) 1 |>).
Proof. intros Hl. unfold ps2_acquire. mstep. by rewrite (spinlock_lock_free _ Hl). Qed.

Lemma kb_block_room (b : block Z) : block_ok 1 b → b_size b ≤ zlen (b_data b).
Proof. intros [H0 ->]. by apply capacity_ge. Qed.

(** [put_scan] behind the last one. *)
Lemma put_scan_ok s b c :
  kb_base_buffer s = Some b → block_ok 1 b → b_size b = kb_buffer_size s →
  0 ≤ kb_read_buffer s ≤ kb_write_buffer s → kb_write_buffer s < kb_buffer_size s →
  ∃ s' b', put_scan c s = Ok (tt, s') ∧ s' = s <| kb_base_buffer := Some b' |> <| kb_write_buffer := kb_write_buffer s + 1 |> ∧
    block_ok 1 b' ∧ b_size b' = b_size b ∧ scans s' = scans s ++ [c].
Proof.
  intros Hb Hok Hs Hr Hw. pose proof (kb_block_room b Hok) as Hroom. unfold put_scan. mstep. rewrite Hb. cbn [of_opt]. mstep.
  rewrite (proj2 (Z.leb_le _ _)), (proj2 (Z.ltb_lt _ _)) by lia. cbn [andb].
  eexists _, (mk_block _ _). split_and!; [reflexivity|reflexivity| |reflexivity|].
  - destruct Hok as [H0 Hl]. split; [done|]. cbn. unfold zlen, upd in *. by rewrite length_insert.
  - unfold scans. cbn. rewrite Hb. unfold upd.
    assert (Z.to_nat (kb_write_buffer s) < length (b_data b))%nat as Hlt by (unfold zlen in Hroom; lia).
    rewrite (insert_take_drop _ _ _ Hlt).
    replace (c :: drop (S (Z.to_nat (kb_write_buffer s))) (b_data b)) with ([c] ++ drop (S (Z.to_nat (kb_write_buffer s))) (b_data b)) by done.
    rewrite (pending_append (b_data b) [c] _ (kb_read_buffer s) (kb_write_buffer s) 1); [done|lia|lia|lia|done].
Qed.

(** Growing keeps what is pending. *)
Lemma grow_buffer_ok s :
  buffer_ok s → kb_buffer_size s + 256 < U64_MOD →
  ∃ b, grow_buffer junk s = Ok (tt, s <| kb_base_buffer := Some b |> <| kb_buffer_size := kb_buffer_size s + 256 |>) ∧
    block_ok 1 b ∧ b_size b = kb_buffer_size s + 256 ∧
    scans (s <| kb_base_buffer := Some b |> <| kb_buffer_size := kb_buffer_size s + 256 |>) = scans s.
Proof.
  intros [Hb Hr _] Hsz. unfold grow_buffer, scans. mstep.
  rewrite u64_small by (unfold is_u64; destruct (kb_base_buffer s); lia).
  destruct (kb_base_buffer s) as [b|] eqn:E.
  - destruct Hb as [Hok Hbs].
    destruct (krealloc_grow 0 1 junk ltac:(lia) b (kb_buffer_size s + 256) Hok ltac:(lia)) as (b' & E' & Hok' & Hs' & Ht).
    rewrite E'. cbn [of_res]. mstep. exists b'. split_and!; [|done|done|].
    { unfold modify. by rewrite u64_small by (unfold is_u64; lia). }
    cbn. destruct Hok as [H0 Hl]. pose proof (capacity_ge 1 ltac:(lia) (b_size b) H0) as Hc.
    assert (∀ d : list Z, take (Z.to_nat (kb_write_buffer s - kb_read_buffer s)) (drop (Z.to_nat (kb_read_buffer s)) d) =
      drop (Z.to_nat (kb_read_buffer s)) (take (Z.to_nat (kb_write_buffer s)) d)) as Hcomm.
    { intros d. rewrite skipn_firstn_comm. f_equal. lia. }
    rewrite !Hcomm. f_equal.
    transitivity (take (Z.to_nat (kb_write_buffer s)) (take (Z.to_nat (kb_buffer_size s + 256)) (b_data b'))).
    { rewrite take_take. f_equal. lia. }
    rewrite Ht, Hbs. rewrite take_app_le by (rewrite length_take; unfold zlen in Hl; lia).
    rewrite take_take. f_equal. lia.
  - destruct Hb as [H0 Hw].
    destruct (krealloc_null 0 1 junk ltac:(lia) (kb_buffer_size s + 256) ltac:(lia)) as (b' & E' & Hok' & Hs' & Ht).
    rewrite E'. cbn [of_res]. mstep. exists b'. split_and!; [|done|done|].
    { unfold modify. by rewrite u64_small by (unfold is_u64; lia). }
    cbn. by replace (kb_write_buffer s - kb_read_buffer s) with 0 by lia.
Qed.

(** Room for one more: the two branches that may grow the buffer. *)
Lemma make_room_ok s (k : unit → pM unit) :
  buffer_ok s → kb_buffer_size s + 512 < U64_MOD →
  ∃ s' b, 
    ((match kb_base_buffer s with
      | None => grow_buffer junk ;; modify (λ s, s <| kb_read_buffer := 0 |> <| kb_write_buffer := 0 |>)
      | Some _ => mret tt
      end) ;;
     s1 ← get;
     (if kb_write_buffer s1 =? kb_buffer_size s1 then grow_buffer junk else mret tt) ;; k tt) s = k tt s' ∧
    s' = s <| kb_base_buffer := Some b |> <| kb_buffer_size := kb_buffer_size s' |> <| kb_read_buffer := kb_read_buffer s' |> ∧
    block_ok 1 b ∧ b_size b = kb_buffer_size s' ∧ 0 ≤ kb_read_buffer s' ≤ kb_write_buffer s' ∧
    kb_write_buffer s' < kb_buffer_size s' ∧ scans s' = scans s.
Proof.
  intros Hk Hsz. destruct (grow_buffer_ok s Hk ltac:(lia)) as (b' & Eg & Hok' & Hbs' & Hsc). pose proof Hk as [Hb Hr Hre].
  destruct (kb_base_buffer s) as [b|] eqn:E.
  - mstep. mstep. destruct Hb as [Hok Hbs]. destruct (kb_write_buffer s =? kb_buffer_size s) eqn:Ew; zbool.
    + mrun Eg. eexists _, b'. split; [reflexivity|]. cbn. split_and!; try done; try lia.
    + mstep. exists s, b. split; [reflexivity|]. split_and!; try done; try lia. destruct s; cbn in *; by subst.
  - destruct Hb as [H0 Hw]. assert (kb_read_buffer s = 0) as Hrd by lia.
    erewrite bind_ok; [|mrun Eg; reflexivity]. cbv beta. mstep. cbn.
    rewrite H0. cbn. mstep. eexists _, b'. split; [reflexivity|]. cbn. split_and!; try done; try lia.
    + destruct s; cbn in *; by subst.
    + rewrite <- Hsc. unfold scans. cbn. by rewrite Hw, Hrd.
Qed.

(** One more scan code. *)
Lemma keyboard_thread_ok s :
  kb_ok s → kb_buffer_size s + 512 < U64_MOD →
  ∃ s', ps2_keyboard_thread port60 junk s = Ok (tt, s') ∧ kb_ok s' ∧
    scans s' = scans s ++ [port60 (port_reads s)] ∧ ps2_mem s' = ps2_mem s ∧ same_mouse s s'.
Proof.
  intros [Hl Hk] Hsz. unfold ps2_keyboard_thread, data_port. mstep.
  set (s1 := s <| port_reads := S (port_reads s) |>). mrun (ps2_acquire_ok s1 Hl).
  set (s2 := s1 <| ps2_buffer_lock := _ |>). mstep.
  assert (buffer_ok s2) as Hk2 by (by destruct Hk).
  destruct (make_room_ok s2 (λ _, put_scan (port60 (port_reads s)) ;; ps2_release) Hk2 Hsz)
    as (s3 & b & -> & E3 & Hok & Hbs & Hr & Hw & Hsc).
  assert (kb_base_buffer s3 = Some b) as Hb by (by rewrite E3).
  destruct (put_scan_ok s3 b (port60 (port_reads s)) Hb Hok Hbs Hr Hw) as (s4 & b' & E4 & Es4 & Hok4 & Hbs4 & Hsc4).
  mrun E4. unfold ps2_release, modify. eexists. split; [reflexivity|].
  assert (ps2_buffer_lock s4 = Z.lor (ps2_buffer_lock s) 1) as Hl4 by (by rewrite Es4, E3).
  split_and!.
  - split; [cbn; by rewrite Hl4, (lock_unlock _ Hl)|]. rewrite Es4. split; cbn; [split; [done|lia]|lia|lia].
  - transitivity (scans s4); [done|]. by rewrite Hsc4, Hsc.
  - by rewrite Es4, E3.
  - by rewrite Es4, E3.
Qed.

Lemma scans_nil s : buffer_ok s → kb_write_buffer s = 0 → scans s = [].
Proof.
  intros [_ Hr _] Hw. unfold scans. destruct (kb_base_buffer s); [|done].
  by replace (kb_write_buffer s - kb_read_buffer s) with 0 by lia.
Qed.

(** The first pending scan code, when there is one. *)
Lemma scans_cons s b : kb_base_buffer s = Some b → buffer_ok s → kb_write_buffer s ≠ 0 →
  ∃ c, idx (b_data b) (kb_read_buffer s) = Some c ∧
    scans s = c :: scans (s <| kb_read_buffer := kb_read_buffer s + 1 |>).
Proof.
  intros Hb [Hblk Hr Hre] Hw. unfold scans. cbn. rewrite Hb in Hblk |- *. destruct Hblk as [Hok Hbs].
  pose proof (kb_block_room b Hok) as Hroom. unfold zlen in Hroom. unfold idx. rewrite (proj2 (Z.leb_le _ _)) by lia.
  destruct (lookup_lt_is_Some_2 (b_data b) (Z.to_nat (kb_read_buffer s))) as [c Hc]; [lia|].
  exists c. split; [done|].
  replace (Z.to_nat (kb_write_buffer s - kb_read_buffer s)) with
    (S (Z.to_nat (kb_write_buffer s - (kb_read_buffer s + 1)))) by lia.
  replace (Z.to_nat (kb_read_buffer s + 1)) with (S (Z.to_nat (kb_read_buffer s))) by lia.
  by rewrite (drop_S _ _ _ Hc).
Qed.

Lemma read_kb_buffer_ok s :
  kb_ok s →
  ∃ s', read_kb_buffer s = Ok (default 0 (head (scans s)), s') ∧ kb_ok s' ∧
    scans s' = tail (scans s) ∧ ps2_mem s' = ps2_mem s ∧ same_mouse s s' ∧ port_reads s' = port_reads s.
Proof.
  intros [Hl Hk]. unfold read_kb_buffer. mrun (ps2_acquire_ok s Hl).
  set (s2 := s <| ps2_buffer_lock := _ |>). mstep. destruct (kb_write_buffer s2 =? 0) eqn:Ew; zbool.
  - rewrite (scans_nil s Hk Ew). unfold ps2_release. mstep. exists s. split; [|split_and!; try done; by apply scans_nil].
    unfold mret, stM_ret, s2. destruct s. cbn in *. by rewrite (lock_unlock _ Hl).
  - assert (buffer_ok s2) as Hk2 by (by destruct Hk).
    destruct (kb_base_buffer s2) as [b|] eqn:Eb.
    2: { destruct Hk2 as [Hblk _ _]. rewrite Eb in Hblk. lia. }
    destruct (scans_cons s2 b Eb Hk2 Ew) as (c & Hc & Hs). change (scans s2) with (scans s) in Hs. rewrite Hs. cbn [head tail default].
    erewrite bind_ok; [|unfold take_scan; mstep; rewrite Eb; cbn [of_opt]; mstep; rewrite Hc; cbn [of_opt]; do 2 mstep; reflexivity].
    cbv beta. mstep. set (s3 := s2 <| kb_read_buffer := _ |>) in *. pose proof Hk2 as [Hblk Hr Hre].
    destruct (kb_read_buffer s3 =? kb_write_buffer s3) eqn:E3; zbool; mstep; unfold ps2_release; mstep;
      (eexists; split; [reflexivity|]); split_and!; try done; cbn [s3] in *.
    + split; [cbn; by rewrite (lock_unlock _ Hl)|]. split; cbn in *; [by rewrite Eb in Hblk |- *|lia|lia].
    + unfold scans. cbn in *. rewrite Eb. cbn. by rewrite E3, !Z.sub_diag.
    + split; [cbn; by rewrite (lock_unlock _ Hl)|]. split; cbn in *; [by rewrite Eb in Hblk |- *|lia|lia].
Qed.

(** [n] bytes of a reader: the scan codes there are, then zeros. *)
Definition padded (n : nat) (l : list Z) : list Z := take n l ++ replicate (n - length l) 0.

Lemma padded_S n l : padded (S n) l = default 0 (head l) :: padded n (tail l).
Proof. destruct l; [|done]. unfold padded. cbn. by rewrite take_nil, Nat.sub_0_r. Qed.

Lemma padded_length n l : length (padded n l) = n.
Proof. unfold padded. rewrite length_app, length_take, length_replicate. lia. Qed.

Lemma kb_read_loop_ok n : ∀ s buf,
  kb_ok s →
  ∃ s', kb_read_loop n buf s = Ok (tt, s') ∧ kb_ok s' ∧ scans s' = drop n (scans s) ∧
    ps2_mem s' = store_bytes (ps2_mem s) buf (padded n (scans s)) ∧ same_mouse s s' ∧ port_reads s' = port_reads s.
Proof.
  induction n as [|n IH]; intros s buf Hk.
  - exists s. unfold padded. by rewrite take_0.
  - destruct (read_kb_buffer_ok s Hk) as (s1 & E1 & Hk1 & Hs1 & Hm1 & Hx1 & Hp1). cbn [kb_read_loop]. mrun E1. mstep.
    set (c := default 0 (head (scans s))) in *. set (s2 := s1 <| ps2_mem := _ |>).
    destruct (IH s2 (u64 (buf + 1))) as (s' & E' & Hk' & Hs' & Hm' & Hx' & Hp').
    { by destruct Hk1 as [? [? ? ?]]. }
    exists s'. split_and!; [done|done| | |exact (eq_trans Hx' Hx1)|exact (eq_trans Hp' Hp1)].
    + rewrite Hs'. change (scans s2) with (scans s1). rewrite Hs1. destruct (scans s); [cbn; by rewrite drop_nil|done].
    + rewrite Hm', padded_S. change (scans s2) with (scans s1). rewrite Hs1, <- Hm1. done.
Qed.

(** Clearing a range before filling it changes nothing. *)
Lemma store_bytes_over m a l l' x : 0 ≤ a → a + zlen l ≤ U64_MOD → zlen l' = zlen l →
  store_bytes (store_bytes m a l') a l x = store_bytes m a l x.
Proof.
  intros Ha Hl E. rewrite !store_bytes_lookup by lia. rewrite E.
  by destruct ((a <=? x) && (x <? a + zlen l)).
Qed.

(** C33: The keyboard's buffer is a first-in, first-out queue of scan codes of
    any length.  Each time the keyboard's thread is woken, the scan code on the
    port is put behind those that were not read yet, growing the buffer when it
    is full.  A read of [count] bytes takes the oldest scan codes out, gives them
    in order followed by zeros, and touches no other byte of memory.  Neither
    loses, repeats or reorders a scan code, and both leave the lock free. *)
Theorem keyboard_queue_correct s fd buf count :
  kb_ok s → kb_buffer_size s + 512 < U64_MOD → 0 ≤ buf → 0 ≤ count → buf + count ≤ U64_MOD →
  (∃ s', ps2_keyboard_thread port60 junk s = Ok (tt, s') ∧ kb_ok s' ∧
     scans s' = scans s ++ [port60 (port_reads s)] ∧ ps2_mem s' = ps2_mem s ∧ same_mouse s s') ∧
  (∃ s', ps2kb_read fd buf count s = Ok (0, s') ∧ kb_ok s' ∧
     scans s' = drop (Z.to_nat count) (scans s) ∧
     (∀ x, ps2_mem s' x = store_bytes (ps2_mem s) buf
        (take (Z.to_nat count) (scans s) ++ replicate (Z.to_nat count - length (scans s)) 0) x) ∧
     same_mouse s s').
Proof.
  intros Hk Hsz Hb Hc Hbc. split; [by apply keyboard_thread_ok|]. unfold ps2kb_read. mstep.
  set (s1 := s <| ps2_mem := _ |>). assert (kb_ok s1) as Hk1 by (by destruct Hk as [? [? ? ?]]).
  destruct (kb_read_loop_ok (Z.to_nat count) s1 buf Hk1) as (s' & E & Hk' & Hs & Hm & Hx & _).
  mrun E. exists s'. split_and!; [done|done|done| |done]. intros x. rewrite Hm.
  change (scans s1) with (scans s). change (ps2_mem s1) with (store_bytes (ps2_mem s) buf (replicate (Z.to_nat count) 0)).
  change (take ?n ?l ++ replicate (?n - length ?l) 0) with (padded n l).
  apply store_bytes_over; unfold zlen; rewrite ?padded_length, ?length_replicate; lia.
Qed.
End ps2.

(** ** The mouse *)

Lemma s64_small z : -9223372036854775808 ≤ z < 9223372036854775808 → s64 z = z.
Proof. intros H. unfold s64. destruct (z mod U64_MOD <? _) eqn:E; zbool; dlia. Qed.

Lemma movement_range m e k : is_u8 m → -256 ≤ movement m e k ≤ 255.
Proof.
  unfold is_u8, movement. intros Hm.
  assert (Z.land (Z.shiftl e k) 256 = 0 ∨ Z.land (Z.shiftl e k) 256 = 256) as [-> | ->]; [|lia|lia].
  change 256 with (2 ^ 8). destruct (Z.testbit (Z.shiftl e k) 8) eqn:Eb; [right|left]; apply Z.bits_inj'; intros n Hn;
    rewrite Z.land_spec, ?Z.bits_0, Z.pow2_bits_eqb by lia; destruct (Z.eqb_spec 8 n) as [<- |Hne]; rewrite ?Eb; auto using andb_false_r.
Qed.

Lemma step_of_range d : -256 ≤ d ≤ 255 → -256 ≤ step_of d ≤ 255.
Proof. unfold step_of, MOUSE_SENSITIVITY. intros H. Z.quot_rem_to_equations. lia. Qed.

(** The pointer is on the screen. *)
Definition on_screen (width height : Z) (s : ps2_st) : Prop :=
  0 ≤ mouse_x s < width ∧ 0 ≤ mouse_y s < height.

(** A mouse packet never moves the pointer off the screen: whatever three
    bytes the device sends, a pointer inside the display stays inside it in both
    directions, and the keyboard's buffer is not touched. *)
Theorem mouse_stays_on_screen port60 width height s :
  (∀ i, is_u8 (port60 i)) → width < 4611686018427387904 → height < 4611686018427387904 →
  on_screen width height s →
  ∃ s', mouse_handler port60 width height s = Ok (tt, s') ∧ on_screen width height s' ∧
    scans s' = scans s ∧ port_reads s' = (port_reads s + 3)%nat.
Proof.
  intros Hp Hw Hh [Hx Hy]. unfold mouse_handler, data_port. mstep. mstep. mstep.
  set (s1 := s <| port_reads := _ |> <| port_reads := _ |> <| port_reads := _ |>).
  cbv zeta. set (x := movement _ _ 4). set (y := movement _ _ 3).
  assert (-256 ≤ step_of x ≤ 255) as Hdx by (by apply step_of_range, movement_range).
  assert (-256 ≤ step_of y ≤ 255) as Hdy by (by apply step_of_range, movement_range).
  destruct (_ && _); [|exists s1; repeat split; cbn; lia || done]. do 4 mstep. unfold modify.
  eexists. split; [reflexivity|]. unfold s1. clearbody x y. clear s1. destruct s as [kb rd wr sz lk mx my pr mem]. cbn in *.
  rewrite (s64_small width), (s64_small height), (s64_small (mx + _)), (s64_small (my - _)) by lia.
  repeat match goal with |- context [if ?c then _ else _] =>
    lazymatch c with context [if _ then _ else _] => fail | _ => destruct c eqn:?; zbool; cbn end end;
  cbn in *; rewrite ?s64_small in * by lia; unfold on_screen; cbn; split_and!; lia || done.
Qed.

(** ** Witnesses *)

(** Two scan codes wait in a buffer of 256 bytes. *)
Definition kb_demo : ps2_st :=
  mk_ps2 (Some (mk_block 256 (30 :: 31 :: replicate 4094 0))) 0 2 256 0 512 512 0 (λ _, 7).

Lemma keyboard_queue_correct_witness :
  ∃ s', ps2kb_read 3 5000 4 kb_demo = Ok (0, s') ∧ scans s' = [] ∧
    (∀ x, ps2_mem s' x = store_bytes (λ _, 7) 5000 [30; 31; 0; 0] x).
Proof.
  destruct (keyboard_queue_correct (λ _, 1) (λ _, []) kb_demo 3 5000 4) as [_ (s' & E & _ & Hs & Hm & _)]; [|cbn; lia..|].
  - split; [reflexivity|]. split; cbn; [|lia|lia]. split; [|done]. split; [done|]. vm_compute. reflexivity.
  - exists s'. split; [exact E|]. split; [exact Hs|]. exact Hm.
Defined.

Lemma mouse_stays_on_screen_witness :
  ∃ s', mouse_handler (λ _, 255) 1024 768 kb_demo = Ok (tt, s') ∧ on_screen 1024 768 s'.
Proof.
  destruct (mouse_stays_on_screen (λ _, 255) 1024 768 kb_demo) as (s' & E & Hs & _).
  - intros _. unfold is_u8. lia.
  - lia.
  - lia.
  - unfold on_screen. cbn. lia.
  - by exists s'.
Defined.
