(* ===== verification/Screen.v ===== *)
(** * The screen (drivers/vesa.c)

    Drawing goes to a buffer of the kernel heap, [framebuffer], and is copied
    to the memory of the display, [actual_framebuffer].  Both are the bytes
    that can be accessed behind the pointer: an access outside them is a
    [Fault].  A pixel is four bytes, little endian, at [y * pitch + x * 4].  The
    file operations of the device work on the open file and the memory of the
    kernel state [vk]. *)

From S2P Require Import Prelude Locks Bytes Vfs Kernel Stack SleepQueue Fd Proc.

Record vesa_info_t : Type := mk_vesa_info {
  framebuffer_size : Z;
  framebuffer_pixels : Z;
  width : Z;
  height : Z;
  pitch : Z;
  red_shift : Z;
  green_shift : Z;
  blue_shift : Z
}.

Record vesa_st : Type := mk_vesa {
  vesa_display_info : vesa_info_t;
  framebuffer : list Z;
  actual_framebuffer : list Z;
  vesa_lock : Z;
  vk : kstate
}.
#[export] Instance eta_vesa_st : Eta vesa_st :=
  λ r, mk_vesa (vesa_display_info r) (framebuffer r) (actual_framebuffer r) (vesa_lock r) (vk r).

Abbreviation vM := (stM vesa_st).

Record color_t : Type := mk_color { c_r : Z; c_g : Z; c_b : Z }.

(** The sizes [init_vesa] takes from the boot loader. *)
Definition init_info (framebuffer_width framebuffer_height framebuffer_pitch : Z) : vesa_info_t :=
  mk_vesa_info (u64 (framebuffer_height * framebuffer_pitch)) (u64 (framebuffer_width * framebuffer_height))
    framebuffer_width framebuffer_height framebuffer_pitch 16 8 0.

(** ** Access to words *)

Definition ld32 (b : list Z) (off : Z) : vM Z :=
  if (0 <=? off) && (off + 4 <=? zlen b) then mret (fld off 4 b) else crashM Fault.
Definition st32 (b : list Z) (off v : Z) : vM (list Z) :=
  if (0 <=? off) && (off + 4 <=? zlen b) then mret (set_fld off 4 v b) else crashM Fault.

Definition fb_ld (off : Z) : vM Z := s ← get; ld32 (framebuffer s) off.
Definition fb_st (off v : Z) : vM unit :=
  s ← get; b ← st32 (framebuffer s) off v; modify (λ s, s <| framebuffer := b |>).
Definition act_st (off v : Z) : vM unit :=
  s ← get; b ← st32 (actual_framebuffer s) off v; modify (λ s, s <| actual_framebuffer := b |>).
(** Words of kernel memory. *)
Definition mem_ld (a : Z) : vM Z := gets (λ s, le_word (load_bytes (kmem (vk s)) a 4)).
Definition mem_st (a v : Z) : vM unit :=
  modify (λ s, s <| vk := vk s <| kmem := store_bytes (kmem (vk s)) a (le_bytes 4 v) |> |>).

(** [memcpy32] and [memset32] of klibc/string.c, for a source and a destination
    given by how a word of them is read and written. *)
Fixpoint copy32 (n : nat) (ld : Z → vM Z) (st : Z → Z → vM unit) (src dst : Z) : vM unit :=
  match n with
  | O => mret tt
  | S n' => v ← ld src; st dst v ;; copy32 n' ld st (src + 4) (dst + 4)
  end.
Fixpoint fill32 (n : nat) (st : Z → Z → vM unit) (dst data : Z) : vM unit :=
  match n with
  | O => mret tt
  | S n' => st dst data ;; fill32 n' st (dst + 4) data
  end.

Definition vesa_acquire : vM unit :=
  s ← get;
  match spinlock_lock (vesa_lock s) with
  | Ok l => modify (λ s, s <| vesa_lock := l |>)
  | Crash c => crashM c
  end.
Definition vesa_release : vM unit := modify (λ s, s <| vesa_lock := spinlock_unlock (vesa_lock s) |>).

(** ** Drawing *)

Definition color_dat (i : vesa_info_t) (c : color_t) : Z :=
  Z.lor (Z.lor (Z.shiftl (c_r c) (red_shift i)) (Z.shiftl (c_g c) (green_shift i)))
        (Z.shiftl (c_b c) (blue_shift i)).

Definition put_pixel (x y : Z) (color : color_t) : vM unit :=
  i ← gets vesa_display_info;
  let offset := u64 (u64 (y * pitch i) + u64 (x * 4)) in
  vesa_acquire ;;
  fb_st offset (color_dat i color) ;;
  vesa_release.

(** [font[(uint8_t) c][iy]] *)
Definition font_row (font : list (list Z)) (c iy : Z) : vM Z :=
  g ← of_opt (idx font (u8 c)); of_opt (idx g iy).

Definition render_bit (font : list (list Z)) (c x y : Z) (fg bg : color_t) (iy ix : Z) : vM unit :=
  i ← gets vesa_display_info;
  row ← font_row font c iy;
  let offset := u64 (u64 (u64 (iy + y) * pitch i) + u64 (u64 (ix + x) * 4)) in
  if negb (Z.land (Z.shiftr row ix) 1 =? 0) then fb_st offset (color_dat i fg)
  else fb_st offset (color_dat i bg).

Definition render_font (font : list (list Z)) (c x y : Z) (fg bg : color_t) : vM unit :=
  vesa_acquire ;;
  for_loop 8 0 (λ iy, for_loop 8 0 (render_bit font c x y fg bg iy)) ;;
  vesa_release.

Definition vesa_scroll (rows_shift : Z) (bg : color_t) : vM unit :=
  vesa_acquire ;;
  i ← gets vesa_display_info;
  let shift := u64 (pitch i * rows_shift) in
  copy32 (Z.to_nat (u64 (framebuffer_pixels i - shift / 4))) fb_ld fb_st shift 0 ;;
  fill32 (Z.to_nat (shift / 4)) fb_st (u64 (framebuffer_size i - shift)) (color_dat i bg) ;;
  vesa_release.

Definition flip_buffers : vM unit :=
  vesa_acquire ;;
  i ← gets vesa_display_info;
  copy32 (Z.to_nat (framebuffer_pixels i)) fb_ld act_st 0 0 ;;
  vesa_release.

Definition clear_buffer : vM unit :=
  vesa_acquire ;;
  i ← gets vesa_display_info;
  fill32 (Z.to_nat (framebuffer_pixels i)) fb_st 0 0 ;;
  copy32 (Z.to_nat (framebuffer_pixels i)) fb_ld act_st 0 0 ;;
  vesa_release.

Definition fill_screen (color : color_t) : vM unit :=
  vesa_acquire ;;
  i ← gets vesa_display_info;
  fill32 (Z.to_nat (framebuffer_pixels i)) fb_st 0 (color_dat i color) ;;
  copy32 (Z.to_nat (framebuffer_pixels i)) fb_ld act_st 0 0 ;;
  vesa_release.

(** ** The device *)

Definition ESPIPE : Z := 29.

Definition on_k {A} (m : kM A) : vM A := zoom vk (λ k s, s <| vk := k |>) m.

Definition vesa_seek (fd offset whence : Z) : vM Z :=
  fd_data ← on_k (fd_lookup fd);
  size ← gets (λ s, framebuffer_size (vesa_display_info s));
  (if whence =? SEEK_END then on_k (upd_fd fd_data (λ e, e <| fd_seek_pos := size |>)) else mret tt) ;;
  e ← on_k (fd_at fd_data);
  mret (fd_seek_pos e).

(** The checks of [vesa_read] and [vesa_write]: the error, if there is one. *)
Definition bad_range (seek count size : Z) : option Z :=
  if negb (Z.land count 3 =? 0) then Some (- EINVAL)
  else if negb (Z.land seek 3 =? 0) || (size <? u64 (seek + count)) then Some (- ESPIPE)
  else None.

Definition vesa_write (fd buf count : Z) : vM Z :=
  fd_data ← on_k (fd_lookup fd);
  e ← on_k (fd_at fd_data);
  size ← gets (λ s, framebuffer_size (vesa_display_info s));
  match bad_range (fd_seek_pos e) count size with
  | Some err => mret err
  | None =>
      vesa_acquire ;;
      copy32 (Z.to_nat (count / 4)) mem_ld fb_st buf (fd_seek_pos e) ;;
      copy32 (Z.to_nat (count / 4)) mem_ld act_st buf (fd_seek_pos e) ;;
      vesa_release ;;
      on_k (upd_fd fd_data (λ e, e <| fd_seek_pos := u64 (fd_seek_pos e + count) |>)) ;;
      mret (s32 count)
  end.

Definition vesa_read (fd buf count : Z) : vM Z :=
  fd_data ← on_k (fd_lookup fd);
  e ← on_k (fd_at fd_data);
  size ← gets (λ s, framebuffer_size (vesa_display_info s));
  match bad_range (fd_seek_pos e) count size with
  | Some err => mret err
  | None =>
      vesa_acquire ;;
      copy32 (Z.to_nat (count / 4)) fb_ld mem_st (fd_seek_pos e) buf ;;
      vesa_release ;;
      on_k (upd_fd fd_data (λ e, e <| fd_seek_pos := u64 (fd_seek_pos e + count) |>)) ;;
      mret (s32 count)
  end.

(** ** What the drawing operations leave on the screen *)

(** ** Words of a buffer *)

Lemma le_bytes_word l : Forall is_u8 l → le_bytes (length l) (le_word l) = l.
Proof.
  induction 1 as [|b l Hb Hl IH]; [done|]. cbn [length le_bytes]. unfold le_word in *. cbn [foldr].
  unfold is_u8 in Hb. rewrite (Z.mul_comm 256), Z.mod_add, Z.mod_small by lia.
  rewrite Z.div_add, Z.div_small, Z.add_0_l by lia. by rewrite IH.
Qed.

(** A word that is read and stored elsewhere is its four bytes. *)
Lemma le_bytes_fld l off : Forall is_u8 l → 0 ≤ off → off + 4 ≤ zlen l → le_bytes 4 (fld off 4 l) = slice l off 4.
Proof.
  intros Hl Ho Hz. unfold fld. assert (length (slice l off 4) = 4%nat) as E.
  { pose proof (zlen_slice l off 4 Ho ltac:(lia) Hz) as E. unfold zlen in E. lia. }
  rewrite <- E at 1. apply le_bytes_word. unfold slice. by apply Forall_take, Forall_drop.
Qed.

Lemma slice_splice_within {A} (l : list A) off d k m : 0 ≤ off → off + zlen d ≤ zlen l → 0 ≤ k → 0 ≤ m →
  k + m ≤ zlen d → slice (splice l off d) (off + k) m = slice d k m.
Proof.
  intros Ho Hl Hk Hm Hd. rewrite <- (slice_slice (splice l off d) off (zlen d) k m) by (rewrite ?zlen_splice; lia).
  by rewrite slice_splice_eq by lia.
Qed.

Lemma Forall_splice {A} (P : A → Prop) l off d : Forall P l → Forall P d → Forall P (splice l off d).
Proof. intros Hl Hd. unfold splice. repeat apply Forall_app_2; [by apply Forall_take|done|by apply Forall_drop]. Qed.

Lemma splice_nil {A} (l : list A) off : splice l off [] = l.
Proof. unfold splice. cbn. by rewrite Nat.add_0_r, take_drop. Qed.
Lemma slice_0 {A} (l : list A) off : slice l off 0 = [].
Proof. done. Qed.

Lemma zlen_word v : zlen (le_bytes 4 v) = 4.
Proof. done. Qed.

(** [n] copies of a word. *)
Definition rep32 (n : nat) (v : Z) : list Z := concat (replicate n (le_bytes 4 v)).

Lemma zlen_rep32 n v : zlen (rep32 n v) = 4 * Z.of_nat n.
Proof.
  unfold zlen, rep32. induction n as [|n IH]; [done|]. cbn [replicate concat]. rewrite length_app, le_bytes_length. lia.
Qed.

Lemma slice_rep32 n v k : 0 ≤ k < Z.of_nat n → slice (rep32 n v) (4 * k) 4 = le_bytes 4 v.
Proof.
  revert k. induction n as [|n IH]; intros k Hk; [lia|]. unfold rep32. cbn [replicate concat].
  fold (rep32 n v). destruct (decide (k = 0)) as [-> |Hk0].
  - apply (slice_mid [] (le_bytes 4 v) (rep32 n v)); done.
  - etrans; [|apply (IH (k - 1)); lia]. unfold slice.
    replace (Z.to_nat (4 * k)) with (4 + Z.to_nat (4 * (k - 1)))%nat by lia. done.
Qed.

(** ** Loops over words *)

Lemma ld32_ok b off s : 0 ≤ off → off + 4 ≤ zlen b → ld32 b off s = Ok (fld off 4 b, s).
Proof. intros H1 H2. unfold ld32. by rewrite (proj2 (Z.leb_le _ _)), (proj2 (Z.leb_le _ _)) by lia. Qed.
Lemma st32_ok b off v s : 0 ≤ off → off + 4 ≤ zlen b → st32 b off v s = Ok (set_fld off 4 v b, s).
Proof. intros H1 H2. unfold st32. by rewrite (proj2 (Z.leb_le _ _)), (proj2 (Z.leb_le _ _)) by lia. Qed.

Lemma fb_ld_ok s off : 0 ≤ off → off + 4 ≤ zlen (framebuffer s) → fb_ld off s = Ok (fld off 4 (framebuffer s), s).
Proof. intros H1 H2. unfold fb_ld. mstep. by apply ld32_ok. Qed.
Lemma fb_st_ok s off v : 0 ≤ off → off + 4 ≤ zlen (framebuffer s) →
  fb_st off v s = Ok (tt, s <| framebuffer := splice (framebuffer s) off (le_bytes 4 v) |>).
Proof. intros H1 H2. unfold fb_st. mstep. by mrun (st32_ok (framebuffer s) off v s H1 H2). Qed.
Lemma act_st_ok s off v : 0 ≤ off → off + 4 ≤ zlen (actual_framebuffer s) →
  act_st off v s = Ok (tt, s <| actual_framebuffer := splice (actual_framebuffer s) off (le_bytes 4 v) |>).
Proof. intros H1 H2. unfold act_st. mstep. by mrun (st32_ok (actual_framebuffer s) off v s H1 H2). Qed.

(** Filling overwrites the range with copies of the word. *)
Lemma fill_fb n : ∀ s dst v, 0 ≤ dst → dst + 4 * Z.of_nat n ≤ zlen (framebuffer s) →
  fill32 n fb_st dst v s = Ok (tt, s <| framebuffer := splice (framebuffer s) dst (rep32 n v) |>).
Proof.
  induction n as [|n IH]; intros s dst v Hd Hl.
  - change (rep32 0 v) with (@nil Z). rewrite splice_nil. by destruct s.
  - cbn [fill32]. mrun (fb_st_ok s dst v Hd ltac:(lia)). rewrite IH. 2: lia. 2: { change (framebuffer (s <| framebuffer := ?A |>)) with A. rewrite zlen_splice; rewrite ?zlen_word; lia. }
    change (framebuffer (s <| framebuffer := ?A |>)) with A.
    change (dst + 4) with (dst + zlen (le_bytes 4 v)).
    by rewrite splice_app by (rewrite ?zlen_rep32, ?zlen_word; lia).
Qed.

(** Copying down within the drawing buffer: the source is read before it is
    overwritten, so the destination is the source as it was. *)
Lemma copy_fb n : ∀ s src dst, Forall is_u8 (framebuffer s) → 0 ≤ dst ≤ src →
  src + 4 * Z.of_nat n ≤ zlen (framebuffer s) →
  copy32 n fb_ld fb_st src dst s =
    Ok (tt, s <| framebuffer := splice (framebuffer s) dst (slice (framebuffer s) src (4 * Z.of_nat n)) |>).
Proof.
  induction n as [|n IH]; intros s src dst Hb Hd Hl.
  - change (4 * Z.of_nat 0) with 0. rewrite slice_0, splice_nil. by destruct s.
  - cbn [copy32]. mrun (fb_ld_ok s src ltac:(lia) ltac:(lia)). mrun (fb_st_ok s dst (fld src 4 (framebuffer s)) ltac:(lia) ltac:(lia)).
    rewrite le_bytes_fld by (done || lia). set (d := slice (framebuffer s) src 4).
    assert (zlen d = 4) as Hz by (apply zlen_slice; lia).
    assert (Forall is_u8 d) as Hbd by (by apply Forall_take, Forall_drop).
    rewrite IH; [|cbn; by apply Forall_splice|lia|cbn; rewrite zlen_splice; lia].
    change (framebuffer (s <| framebuffer := ?A |>)) with A. rewrite slice_splice_ne by lia.
    replace (dst + 4) with (dst + zlen d) by lia. rewrite splice_app by (rewrite ?zlen_slice; lia).
    unfold d. rewrite slice_app by lia. by replace (4 + 4 * Z.of_nat n) with (4 * Z.of_nat (S n)) by lia.
Qed.

(** Copying to the display. *)
Lemma copy_act n : ∀ s src dst, Forall is_u8 (framebuffer s) → 0 ≤ dst → 0 ≤ src →
  src + 4 * Z.of_nat n ≤ zlen (framebuffer s) → dst + 4 * Z.of_nat n ≤ zlen (actual_framebuffer s) →
  copy32 n fb_ld act_st src dst s =
    Ok (tt, s <| actual_framebuffer := splice (actual_framebuffer s) dst (slice (framebuffer s) src (4 * Z.of_nat n)) |>).
Proof.
  induction n as [|n IH]; intros s src dst Hb Hd Hs Hl Ha.
  - change (4 * Z.of_nat 0) with 0. rewrite slice_0, splice_nil. by destruct s.
  - cbn [copy32]. mrun (fb_ld_ok s src ltac:(lia) ltac:(lia)). mrun (act_st_ok s dst (fld src 4 (framebuffer s)) ltac:(lia) ltac:(lia)).
    rewrite le_bytes_fld by (done || lia). set (d := slice (framebuffer s) src 4).
    assert (zlen d = 4) as Hz by (apply zlen_slice; lia).
    rewrite IH; [|done|lia|lia|cbn; lia|cbn; rewrite zlen_splice; lia].
    change (actual_framebuffer (s <| actual_framebuffer := ?A |>)) with A.
    change (framebuffer (s <| actual_framebuffer := ?A |>)) with (framebuffer s).
    replace (dst + 4) with (dst + zlen d) by lia. rewrite splice_app by (rewrite ?zlen_slice; lia).
    unfold d. rewrite slice_app by lia. by replace (4 + 4 * Z.of_nat n) with (4 * Z.of_nat (S n)) by lia.
Qed.

(** ** The display *)

Definition pixel_of (i : vesa_info_t) (b : list Z) (x y : Z) : Z := fld (y * pitch i + x * 4) 4 b.
Abbreviation pixel s x y := (pixel_of (vesa_display_info s) (framebuffer s) x y).
Abbreviation shown s x y := (pixel_of (vesa_display_info s) (actual_framebuffer s) x y).

(** A 32-bit display whose lines follow each other without padding, as
    [init_vesa] describes it, and buffers at least that large. *)
Record screen_ok (s : vesa_st) : Prop := {
  sc_info : vesa_display_info s = init_info (width (vesa_display_info s)) (height (vesa_display_info s)) (pitch (vesa_display_info s));
  sc_packed : pitch (vesa_display_info s) = 4 * width (vesa_display_info s);
  sc_width : 0 < width (vesa_display_info s) < 65536;
  sc_height : 0 < height (vesa_display_info s) < 65536;
  sc_fb : height (vesa_display_info s) * pitch (vesa_display_info s) ≤ zlen (framebuffer s);
  sc_act : height (vesa_display_info s) * pitch (vesa_display_info s) ≤ zlen (actual_framebuffer s);
  sc_bytes : Forall is_u8 (framebuffer s);
  sc_lock : unlocked (vesa_lock s)
}.

Lemma sc_size s : screen_ok s →
  framebuffer_size (vesa_display_info s) = height (vesa_display_info s) * pitch (vesa_display_info s) ∧
  framebuffer_pixels (vesa_display_info s) = width (vesa_display_info s) * height (vesa_display_info s).
Proof.
  intros [Hi Hp Hw Hh _ _ _ _]. rewrite Hi. cbn.
  split; apply u64_small; unfold is_u64; rewrite ?Hp; nia.
Qed.

Lemma vesa_acquire_ok s :
  unlocked (vesa_lock s) → vesa_acquire s = Ok (tt, s <| vesa_lock := Z.lor (vesa_lock s) 1 |>).
Proof. intros Hl. unfold vesa_acquire. mstep. by rewrite (spinlock_lock_free _ Hl). Qed.

(** The lock is free again after an operation that did not touch it. *)
Lemma vesa_release_ok s s' :
  unlocked (vesa_lock s) → vesa_lock s' = Z.lor (vesa_lock s) 1 →
  vesa_release s' = Ok (tt, s' <| vesa_lock := vesa_lock s |>).
Proof. intros Hl E. unfold vesa_release, modify. by rewrite E, (lock_unlock _ Hl). Qed.

Lemma color_range c i : is_u8 (c_r c) → is_u8 (c_g c) → is_u8 (c_b c) →
  red_shift i = 16 → green_shift i = 8 → blue_shift i = 0 → 0 ≤ color_dat i c < 256 ^ 4.
Proof.
  intros Hr Hg Hb E1 E2 E3. unfold color_dat, is_u8 in *. rewrite E1, E2, E3.
  rewrite !Z.shiftl_mul_pow2 by lia. split; [rewrite !Z.lor_nonneg; lia|].
  assert (∀ a b, 0 ≤ a < 2 ^ 32 → 0 ≤ b < 2 ^ 32 → Z.lor a b < 2 ^ 32) as Hlor.
  { intros a b Ha Hb'. destruct (decide (Z.lor a b = 0)) as [-> |Hn]; [lia|].
    apply Z.log2_lt_pow2; [assert (0 ≤ Z.lor a b) by (rewrite Z.lor_nonneg; lia); lia|].
    rewrite Z.log2_lor by lia. apply Z.max_lub_lt.
    - destruct (decide (a = 0)) as [-> |?]; [cbn; lia|]. apply Z.log2_lt_pow2; lia.
    - destruct (decide (b = 0)) as [-> |?]; [cbn; lia|]. apply Z.log2_lt_pow2; lia. }
  change (256 ^ 4) with (2 ^ 32). apply Hlor; [split; [rewrite Z.lor_nonneg; lia|apply Hlor; lia]|lia].
Qed.

(** The byte offset of a pixel of the screen. *)
Lemma pixel_offset i x y : pitch i = 4 * width i → 0 ≤ x < width i → 0 ≤ y < height i →
  0 ≤ y * pitch i + x * 4 ∧ y * pitch i + x * 4 + 4 ≤ height i * pitch i.
Proof. intros -> Hx Hy. nia. Qed.

(** The buffer after the copy and the clearing of a scroll by [m] words of [q]. *)
Definition scrolled (l : list Z) (m q v : Z) : list Z :=
  splice (splice l 0 (slice l (4 * m) (4 * (q - m)))) (4 * (q - m)) (rep32 (Z.to_nat m) v).

Lemma scrolled_word l m q v k : 0 ≤ m ≤ q → 4 * q ≤ zlen l → 0 ≤ k < q →
  slice (scrolled l m q v) (4 * k) 4 = if k <? q - m then slice l (4 * (m + k)) 4 else le_bytes 4 v.
Proof.
  intros Hm Hl Hk. unfold scrolled. set (d := slice l (4 * m) (4 * (q - m))).
  assert (zlen d = 4 * (q - m)) as Hd by (apply zlen_slice; lia).
  assert (zlen (splice l 0 d) = zlen l) as Hz by (apply zlen_splice; lia).
  pose proof (zlen_rep32 (Z.to_nat m) v) as Hr. destruct (k <? q - m) eqn:E; zbool.
  - rewrite slice_splice_ne by lia.
    change (4 * k) with (0 + 4 * k). rewrite slice_splice_within by lia. unfold d. rewrite slice_slice by lia. f_equal. lia.
  - replace (4 * k) with (4 * (q - m) + 4 * (k - (q - m))) by lia.
    rewrite slice_splice_within by lia. apply slice_rep32. lia.
Qed.

Lemma zlen_scrolled l m q v : 0 ≤ m ≤ q → 4 * q ≤ zlen l → zlen (scrolled l m q v) = zlen l.
Proof.
  intros Hm Hl. unfold scrolled. set (d := slice l (4 * m) (4 * (q - m))).
  assert (zlen d = 4 * (q - m)) as Hd by (apply zlen_slice; lia).
  rewrite zlen_splice; [apply zlen_splice; lia|lia|]. rewrite zlen_rep32, zlen_splice; lia.
Qed.

Lemma scrolled_u8 l m q v : Forall is_u8 l → Forall is_u8 (scrolled l m q v).
Proof.
  intros Hl. unfold scrolled. apply Forall_splice; [apply Forall_splice; [done|by apply Forall_take, Forall_drop]|].
  unfold rep32. apply Forall_concat, Forall_replicate, le_bytes_u8.
Qed.

Lemma drop_splice {A} (l : list A) off d n : 0 ≤ off → off + zlen d ≤ n → off ≤ zlen l →
  drop (Z.to_nat n) (splice l off d) = drop (Z.to_nat n) l.
Proof.
  intros Ho Hn Hl. unfold splice, zlen in *. rewrite drop_app_ge by (rewrite length_take; lia).
  rewrite drop_app_ge by (rewrite length_take; lia). rewrite drop_drop. f_equal. rewrite length_take. lia.
Qed.

Lemma drop_scrolled l m q v : 0 ≤ m ≤ q → 4 * q ≤ zlen l →
  drop (Z.to_nat (4 * q)) (scrolled l m q v) = drop (Z.to_nat (4 * q)) l.
Proof.
  intros Hm Hl. unfold scrolled. set (d := slice l (4 * m) (4 * (q - m))).
  assert (zlen d = 4 * (q - m)) as Hd by (apply zlen_slice; lia).
  rewrite drop_splice; [apply drop_splice; lia|lia|rewrite zlen_rep32; lia|rewrite zlen_splice; lia].
Qed.

(** The whole operation on the buffer. *)
Lemma vesa_scroll_run s rows bg :
  screen_ok s → 0 ≤ rows ≤ height (vesa_display_info s) →
  let i := vesa_display_info s in
  vesa_scroll rows bg s = Ok (tt, s <| framebuffer :=
    scrolled (framebuffer s) (width i * rows) (width i * height i) (color_dat i bg) |>).
Proof.
  intros Hs Hr i. destruct (sc_size s Hs) as [Esz Epx]. destruct Hs as [_ Hp Hw Hh Hfb _ Hb Hl]. fold i in Esz, Epx, Hp, Hw, Hh, Hfb, Hr.
  unfold vesa_scroll. mrun (vesa_acquire_ok s Hl). mstep. set (s1 := s <| vesa_lock := _ |>).
  change (vesa_display_info s1) with i. rewrite Esz, Epx. cbv zeta.
  rewrite (u64_small (pitch i * rows)) by (unfold is_u64; nia).
  replace (pitch i * rows / 4) with (width i * rows) by (rewrite Hp; apply Z.div_unique_exact; lia).
  rewrite (u64_small (width i * height i - width i * rows)), (u64_small (height i * pitch i - pitch i * rows)) by (unfold is_u64; nia).
  rewrite (bind_ok _ _ _ _ _ (copy_fb (Z.to_nat (width i * height i - width i * rows)) s1 (pitch i * rows) 0 Hb ltac:(nia) ltac:(cbn; nia))).
  cbv beta. set (s2 := s1 <| framebuffer := _ |>).
  assert (zlen (framebuffer s2) = zlen (framebuffer s)) as Hz2.
  { unfold s2. change (framebuffer (s1 <| framebuffer := ?A |>)) with A. change (framebuffer s1) with (framebuffer s).
    apply zlen_splice; [lia|]. rewrite zlen_slice; nia. }
  rewrite (bind_ok _ _ _ _ _ (fill_fb (Z.to_nat (width i * rows)) s2 (height i * pitch i - pitch i * rows) (color_dat i bg) ltac:(nia) ltac:(nia))).
  cbv beta. erewrite vesa_release_ok; [|exact Hl|reflexivity]. do 2 f_equal. unfold s2.
  change (framebuffer (s1 <| framebuffer := ?A |>)) with A. change (framebuffer s1) with (framebuffer s).
  unfold s1. rewrite Hp, Z2Nat.id by nia.
  replace (height i * (4 * width i) - 4 * width i * rows) with (4 * (width i * height i - width i * rows)) by lia.
  replace (4 * width i * rows) with (4 * (width i * rows)) by lia. unfold scrolled. by destruct s.
Qed.

(** C34: On a display whose lines are not padded (a pitch of four bytes for each pixel of the width, [sc_packed]),
    scrolling by [rows] lines moves the picture up: every pixel of the
    drawing buffer is afterwards the one [rows] lines below it, although source and
    destination overlap, and the lines that become free at the bottom have the
    background colour.  Nothing outside the picture is written, the display
    itself does not change, and the lock is free again. *)
Theorem vesa_scroll_correct s rows bg :
  screen_ok s → 0 ≤ rows ≤ height (vesa_display_info s) → is_u8 (c_r bg) → is_u8 (c_g bg) → is_u8 (c_b bg) →
  ∃ s', vesa_scroll rows bg s = Ok (tt, s') ∧ screen_ok s' ∧ vesa_display_info s' = vesa_display_info s ∧
    (∀ x y, 0 ≤ x < width (vesa_display_info s) → 0 ≤ y < height (vesa_display_info s) →
       pixel s' x y = if y <? height (vesa_display_info s) - rows then pixel s x (y + rows)
                      else color_dat (vesa_display_info s) bg) ∧
    drop (Z.to_nat (framebuffer_size (vesa_display_info s))) (framebuffer s') =
      drop (Z.to_nat (framebuffer_size (vesa_display_info s))) (framebuffer s) ∧
    actual_framebuffer s' = actual_framebuffer s ∧ vk s' = vk s.
Proof.
  intros Hs Hr Hcr Hcg Hcb. eexists. split; [by apply vesa_scroll_run|]. set (i := vesa_display_info s) in *.
  set (l' := scrolled _ _ _ _). set (s' := s <| framebuffer := l' |>). pose proof (sc_size s Hs) as [Esz _].
  pose proof Hs as [Hi Hp Hw Hh Hfb Hact Hb Hl]. fold i in Esz, Hi, Hp, Hw, Hh, Hfb, Hact.
  assert (zlen l' = zlen (framebuffer s)) as Hz by (apply zlen_scrolled; nia). split_and!; try done.
  - split; try done. 1: change (height i * pitch i ≤ zlen l'); lia. by apply scrolled_u8.
  - intros x y Hx Hy. unfold pixel_of, fld. change (framebuffer s') with l'. change (vesa_display_info s') with i. fold i.
    rewrite Hp. replace (y * (4 * width i) + x * 4) with (4 * (y * width i + x)) by lia.
    unfold l'. rewrite scrolled_word by nia.
    destruct (y <? height i - rows) eqn:E; zbool.
    + rewrite (proj2 (Z.ltb_lt _ _)) by nia. do 2 f_equal. lia.
    + rewrite (proj2 (Z.ltb_ge _ _)) by nia. apply le_word_bytes. change (Z.of_nat 4) with 4.
      apply color_range; try done; by rewrite Hi.
  - rewrite Esz, Hp. replace (height i * (4 * width i)) with (4 * (width i * height i)) by lia. apply drop_scrolled; nia.
Qed.

(** ** Characters *)

(** Writing one pixel changes that pixel only. *)
Lemma pixel_put i l x y v x' y' :
  pitch i = 4 * width i → height i * pitch i ≤ zlen l → 0 ≤ v < 256 ^ 4 →
  0 ≤ x < width i → 0 ≤ y < height i → 0 ≤ x' < width i → 0 ≤ y' < height i →
  pixel_of i (splice l (y * pitch i + x * 4) (le_bytes 4 v)) x' y' =
    if (x' =? x) && (y' =? y) then v else pixel_of i l x' y'.
Proof.
  intros Hp Hl Hv Hx Hy Hx' Hy'. pose proof (pixel_offset i x y Hp Hx Hy). pose proof (pixel_offset i x' y' Hp Hx' Hy').
  unfold pixel_of. destruct ((x' =? x) && (y' =? y)) eqn:E.
  - zbool. subst. unfold fld.
    pose proof (slice_splice_eq l (y * pitch i + x * 4) (le_bytes 4 v)) as E. rewrite zlen_word in E. rewrite E by lia.
    by apply le_word_bytes.
  - unfold fld. f_equal. apply slice_splice_ne; rewrite ?zlen_word; try lia. rewrite Hp in *.
    destruct (Z.lt_trichotomy y' y) as [Hlt|[-> |Hgt]]; [left; nia| |right; nia].
    rewrite Z.eqb_refl, andb_true_r in E. zbool. lia.
Qed.

(** The colour of the pixel of a glyph. *)
Definition glyph_color (i : vesa_info_t) (g : list Z) (fg bg : color_t) (ix iy : Z) : Z :=
  if Z.testbit (default 0 (idx g iy)) ix then color_dat i fg else color_dat i bg.

(** [s'] shows the pixels of the glyph that [done] names, and else what [s] shows. *)
Record drawing (s s' : vesa_st) (g : list Z) (fg bg : color_t) (x y : Z) (drawn : Z → Z → bool) : Prop := {
  dr_len : zlen (framebuffer s') = zlen (framebuffer s);
  dr_bytes : Forall is_u8 (framebuffer s');
  dr_rest : s' = s <| framebuffer := framebuffer s' |>;
  dr_pixels : ∀ x' y', 0 ≤ x' < width (vesa_display_info s) → 0 ≤ y' < height (vesa_display_info s) →
    pixel s' x' y' = if drawn (x' - x) (y' - y) then glyph_color (vesa_display_info s) g fg bg (x' - x) (y' - y)
                     else pixel s x' y'
}.

Section font.
Context (font : list (list Z)) (c : Z) (g : list Z) (fg bg : color_t) (x y : Z) (s : vesa_st).
Let i := vesa_display_info s.
Hypothesis glyph : idx font (u8 c) = Some g.
Hypothesis rows : zlen g = 8.
Hypothesis info : i = init_info (width i) (height i) (pitch i).
Hypothesis packed : pitch i = 4 * width i.
Hypothesis widths : 0 < width i < 65536.
Hypothesis heights : 0 < height i < 65536.
Hypothesis room : height i * pitch i ≤ zlen (framebuffer s).
Hypothesis cell_x : 0 ≤ x ∧ x + 8 ≤ width i.
Hypothesis cell_y : 0 ≤ y ∧ y + 8 ≤ height i.
Hypothesis fg_ok : is_u8 (c_r fg) ∧ is_u8 (c_g fg) ∧ is_u8 (c_b fg).
Hypothesis bg_ok : is_u8 (c_r bg) ∧ is_u8 (c_g bg) ∧ is_u8 (c_b bg).

Definition in_row (iy k : Z) (dx dy : Z) : bool :=
  ((0 <=? dx) && (dx <? 8) && (0 <=? dy) && (dy <? iy)) || ((dy =? iy) && (0 <=? dx) && (dx <? k)).

Lemma glyph_color_range ix iy : 0 ≤ glyph_color i g fg bg ix iy < 256 ^ 4.
Proof.
  unfold glyph_color. destruct (Z.testbit _ _); destruct fg_ok as (? & ? & ?), bg_ok as (? & ? & ?);
    apply color_range; try done; by rewrite info.
Qed.

Lemma render_bit_run t iy ix : vesa_display_info t = i → 0 ≤ iy < 8 → 0 ≤ ix < 8 →
  height i * pitch i ≤ zlen (framebuffer t) →
  render_bit font c x y fg bg iy ix t =
    Ok (tt, t <| framebuffer := splice (framebuffer t) ((y + iy) * pitch i + (x + ix) * 4)
                                  (le_bytes 4 (glyph_color i g fg bg ix iy)) |>).
Proof.
  intros Hi Hy Hx Hl. unfold render_bit. mstep. rewrite Hi.
  pose proof (pixel_offset i (x + ix) (y + iy) packed ltac:(lia) ltac:(lia)) as Hoff.
  destruct (lookup_lt_is_Some_2 g (Z.to_nat iy)) as [row Hrow]; [unfold zlen in rows; lia|].
  assert (idx g iy = Some row) as Hr by (unfold idx; by rewrite (proj2 (Z.leb_le _ _)) by lia).
  erewrite bind_ok; [|unfold font_row; rewrite glyph; cbn [of_opt]; mstep; rewrite Hr; reflexivity]. cbv beta zeta.
  rewrite (u64_small (iy + y)), (u64_small (ix + x)), (u64_small ((iy + y) * _)), (u64_small ((ix + x) * 4)) by (unfold is_u64; nia).
  replace (u64 ((iy + y) * pitch i + (ix + x) * 4)) with ((y + iy) * pitch i + (x + ix) * 4)
    by (rewrite u64_small by (unfold is_u64; nia); lia).
  unfold glyph_color. rewrite Hr. change (default 0 (Some row)) with row.
  assert ((Z.land (Z.shiftr row ix) 1 =? 0) = negb (Z.testbit row ix)) as ->.
  { change 1 with (Z.ones 1). rewrite Z.land_ones, Z.pow_1_r by lia.
    replace (Z.testbit row ix) with (Z.testbit (Z.shiftr row ix) 0) by (rewrite Z.shiftr_spec by lia; f_equal; lia).
    rewrite Z.bit0_odd, Zmod_odd. by destruct (Z.odd _). }
  rewrite negb_involutive. by destruct (Z.testbit row ix); apply fb_st_ok; lia.
Qed.

Lemma render_row iy t : 0 ≤ iy < 8 → drawing s t g fg bg x y (in_row iy 0) →
  ∃ t', for_loop 8 0 (render_bit font c x y fg bg iy) t = Ok (tt, t') ∧ drawing s t' g fg bg x y (in_row (iy + 1) 0).
Proof.
  intros Hy Ht.
  destruct (for_loop_inv (λ k t, drawing s t g fg bg x y (in_row iy k)) (render_bit font c x y fg bg iy) 8 0 t) as (t' & E & Hd); [done| |].
  - intros k u Hk [Hlen Hb Hrest Hpx]. assert (vesa_display_info u = i) as Hi by (by rewrite Hrest).
    eexists. split; [apply render_bit_run; [done|lia|lia|rewrite Hlen; exact room]|].
    pose proof (pixel_offset i (x + k) (y + iy) packed ltac:(lia) ltac:(lia)) as Hoff.
    split.
    + change (framebuffer (u <| framebuffer := ?A |>)) with A. rewrite zlen_splice; rewrite ?zlen_word; lia.
    + change (framebuffer (u <| framebuffer := ?A |>)) with A. apply Forall_splice; [done|apply le_bytes_u8].
    + change (framebuffer (u <| framebuffer := ?A |>)) with A. rewrite Hrest at 1. reflexivity.
    + intros x' y' Hx' Hy'. change (framebuffer (u <| framebuffer := ?A |>)) with A.
      change (vesa_display_info (u <| framebuffer := ?A |>)) with (vesa_display_info u). rewrite Hi.
      rewrite pixel_put; [|done|rewrite Hlen; exact room|apply glyph_color_range|lia|lia|done|done].
      specialize (Hpx x' y' Hx' Hy'). rewrite Hi in Hpx. rewrite Hpx. unfold in_row.
      destruct ((x' =? x + k) && (y' =? y + iy)) eqn:E; zbool.
      * subst. replace (x + k - x) with k by lia. replace (y + iy - y) with iy by lia.
        rewrite (proj2 (Z.eqb_eq iy iy)), (proj2 (Z.leb_le 0 k)), (proj2 (Z.ltb_lt k (k + 1))) by lia. cbn [andb]. by rewrite orb_true_r.
      * match goal with |- (if ?a then _ else _) = (if ?b then _ else _) => assert (a = b) as ->; [|done] end.
        f_equal. apply andb_false_iff in E. destruct (y' - y =? iy) eqn:E1, (0 <=? x' - x) eqn:E2; zbool; cbn [andb]; try done.
        destruct (x' - x <? k) eqn:E3, (x' - x <? k + 1) eqn:E4; zbool; try done; lia.
  - exists t'. split; [exact E|]. destruct Hd as [H1 H2 H3 H4]. split; try done. intros x' y' Hx' Hy'. rewrite (H4 x' y' Hx' Hy').
    match goal with |- (if ?a then _ else _) = (if ?b then _ else _) => assert (a = b) as ->; [|done] end.
    unfold in_row. change (0 + Z.of_nat 8) with 8.
    destruct (0 <=? x' - x) eqn:E1, (x' - x <? 8) eqn:E2, (0 <=? y' - y) eqn:E3, (y' - y <? iy) eqn:E4, (y' - y =? iy) eqn:E5,
      (y' - y <? iy + 1) eqn:E6, (y' - y =? iy + 1) eqn:E7, (x' - x <? 0) eqn:E8; zbool; cbn; try done; lia.
Qed.
End font.

Definition in_cell (dx dy : Z) : bool := (0 <=? dx) && (dx <? 8) && (0 <=? dy) && (dy <? 8).

(** Drawing a character sets exactly the 64 pixels of its cell: a pixel
    whose bit is set in the glyph's row gets the foreground colour, the others of
    the cell the background colour, and every pixel outside the cell keeps its
    value.  The display does not change until the buffers are flipped. *)
Theorem render_font_correct font c g fg bg x y s :
  screen_ok s → idx font (u8 c) = Some g → zlen g = 8 →
  0 ≤ x ∧ x + 8 ≤ width (vesa_display_info s) → 0 ≤ y ∧ y + 8 ≤ height (vesa_display_info s) →
  is_u8 (c_r fg) ∧ is_u8 (c_g fg) ∧ is_u8 (c_b fg) → is_u8 (c_r bg) ∧ is_u8 (c_g bg) ∧ is_u8 (c_b bg) →
  ∃ s', render_font font c x y fg bg s = Ok (tt, s') ∧ screen_ok s' ∧
    s' = s <| framebuffer := framebuffer s' |> ∧
    ∀ x' y', 0 ≤ x' < width (vesa_display_info s) → 0 ≤ y' < height (vesa_display_info s) →
      pixel s' x' y' = if in_cell (x' - x) (y' - y)
                       then glyph_color (vesa_display_info s) g fg bg (x' - x) (y' - y) else pixel s x' y'.
Proof.
  intros Hs Hg Hrows Hx Hy Hfg Hbg. pose proof Hs as [Hi Hp Hw Hh Hfb Hact Hb Hl].
  unfold render_font. mrun (vesa_acquire_ok s Hl). set (s1 := s <| vesa_lock := _ |>).
  destruct (for_loop_inv (λ k t, drawing s1 t g fg bg x y (in_row k 0))
    (λ iy, for_loop 8 0 (render_bit font c x y fg bg iy)) 8 0 s1) as (t & E & Hd).
  - split; [done|done|by destruct s|]. intros x' y' _ _. unfold in_row.
    destruct (y' - y =? 0), (0 <=? x' - x) eqn:E1, (x' - x <? 0) eqn:E2, (y' - y <? 0) eqn:E3, (0 <=? y' - y) eqn:E4, (x' - x <? 8);
      zbool; cbn; try done; lia.
  - intros k t Hk Ht. apply render_row; done || lia.
  - mrun E. destruct Hd as [H1 H2 H3 H4]. rewrite (vesa_release_ok s t Hl) by (by rewrite H3).
    eexists. split; [reflexivity|]. set (s' := t <| vesa_lock := _ |>).
    assert (s' = s <| framebuffer := framebuffer t |>) as Es by (unfold s'; rewrite H3; by destruct s).
    assert (vesa_display_info s' = vesa_display_info s) as Ei by (by rewrite Es). split_and!.
    + rewrite Es. split; try done. change (zlen (framebuffer s1)) with (zlen (framebuffer s)) in H1. cbn. lia.
    + exact Es.
    + intros x' y' Hx' Hy'. specialize (H4 x' y' Hx' Hy'). rewrite Ei.
      assert (vesa_display_info t = vesa_display_info s) as Et by (by rewrite H3). rewrite Et in H4.
      change (framebuffer s') with (framebuffer t). rewrite H4. change (vesa_display_info s1) with (vesa_display_info s).
      change (framebuffer s1) with (framebuffer s).
      match goal with |- (if ?a then _ else _) = (if ?b then _ else _) => assert (a = b) as ->; [|done] end.
      unfold in_row, in_cell. change (0 + Z.of_nat 8) with 8.
      destruct (y' - y =? 8) eqn:E1, (0 <=? x' - x) eqn:E2, (x' - x <? 0) eqn:E3; zbool; cbn; rewrite ?orb_false_r; try done; lia.
Qed.

(** ** Findings and witnesses *)

Definition screen_of (w h p : Z) : vesa_st :=
  mk_vesa (init_info w h p) (replicate 4096 0) (replicate 4096 0) 0 demo_kernel.

(** When the lines of the display are padded, [framebuffer_pixels] words are not
    the whole buffer: filling a 2 by 2 screen with a pitch of 16 bytes leaves its
    second line as it was, and so does every flip. *)
Lemma padded_lines_not_drawn :
  match fill_screen (mk_color 1 2 3) (screen_of 2 2 16) with
  | Ok (_, s') => (shown s' 1 0, shown s' 0 1, shown s' 1 1)
  | Crash _ => (0, 0, 0)
  end = (66051, 0, 0).
Proof. vm_compute. reflexivity. Qed.

(** A character from 128 on is looked up behind the table of 128 glyphs. *)
Lemma render_font_past_table :
  render_font (replicate 128 (replicate 8 0)) (-1) 0 0 (mk_color 1 2 3) (mk_color 0 0 0) (screen_of 8 8 32) = Crash Fault.
Proof. vm_compute. reflexivity. Qed.

Lemma screen_of_ok : screen_ok (screen_of 16 16 64).
Proof.
  assert (zlen (replicate 4096 0) = 4096) as Hz by (unfold zlen; by rewrite length_replicate).
  split.
  - reflexivity.
  - reflexivity.
  - change (0 < 16 < 65536). lia.
  - change (0 < 16 < 65536). lia.
  - change (16 * 64 ≤ zlen (replicate 4096 0)). lia.
  - change (16 * 64 ≤ zlen (replicate 4096 0)). lia.
  - by apply Forall_replicate.
  - reflexivity.
Qed.

Lemma vesa_scroll_correct_witness :
  ∃ s', vesa_scroll 8 (mk_color 1 2 3) (screen_of 16 16 64) = Ok (tt, s') ∧ pixel s' 3 10 = 66051.
Proof.
  destruct (vesa_scroll_correct (screen_of 16 16 64) 8 (mk_color 1 2 3)) as (s' & E & _ & _ & Hp & _).
  - exact screen_of_ok.
  - change (0 ≤ 8 ≤ 16). lia.
  - unfold is_u8. cbn. lia.
  - unfold is_u8. cbn. lia.
  - unfold is_u8. cbn. lia.
  - exists s'. split; [exact E|]. apply (Hp 3 10); [change (0 ≤ 3 < 16)|change (0 ≤ 10 < 16)]; lia.
Defined.

Lemma render_font_correct_witness :
  ∃ s', render_font [[0; 255; 0; 0; 0; 0; 0; 0]] 0 8 8 (mk_color 1 2 3) (mk_color 0 0 0) (screen_of 16 16 64) = Ok (tt, s') ∧
    pixel s' 9 9 = 66051.
Proof.
  destruct (render_font_correct [[0; 255; 0; 0; 0; 0; 0; 0]] 0 [0; 255; 0; 0; 0; 0; 0; 0] (mk_color 1 2 3) (mk_color 0 0 0) 8 8
    (screen_of 16 16 64)) as (s' & E & _ & _ & Hp).
  - exact screen_of_ok.
  - reflexivity.
  - reflexivity.
  - change (0 ≤ 8 ∧ 8 + 8 ≤ 16). lia.
  - change (0 ≤ 8 ∧ 8 + 8 ≤ 16). lia.
  - unfold is_u8. cbn. lia.
  - unfold is_u8. cbn. lia.
  - exists s'. split; [exact E|]. apply (Hp 9 9); [change (0 ≤ 9 < 16)|change (0 ≤ 9 < 16)]; lia.
Defined.
