(* ===== verification/DevFs.v ===== *)
(** * The device file system (fs/devfs/devfs.c)

    A device is a node under [/dev], with the operations of its driver; what the
    driver keeps for it is found in a hash map under the node's identifier.  The
    map is used through the interface of [KeyMap.v].  The addresses of functions
    the code stores are arguments. *)

From S2P Require Import Prelude Locks CString Blocks Vfs Hashmap HashmapTheorems KeyMap VfsTheorems VfsCreate.

Record devfs_st (M : Type) : Type := mk_devfs {
  dv_fs : fs_t;
  devfs_root : Z;
  devfs_hashmap : M
}.
Arguments mk_devfs {M} _ _ _.
Arguments dv_fs {M} _.
Arguments devfs_root {M} _.
Arguments devfs_hashmap {M} _.
#[export] Instance eta_devfs_st M : Eta (devfs_st M) :=
  λ r, mk_devfs (dv_fs r) (devfs_root r) (devfs_hashmap r).

Section devfs.
Context {M : Type} `{KeyMap M}.
Abbreviation dM := (stM (devfs_st M)).

Definition on_fs {A} (m : fM A) : dM A := zoom dv_fs (λ f s, s <| dv_fs := f |>) m.
Definition on_map {A} (m : stM M A) : dM A := zoom devfs_hashmap (λ h s, s <| devfs_hashmap := h |>) m.

(** The operations of the root of the file system. *)
Definition devfs_open (name : list Z) (mode : Z) : Z := 0.
Definition devfs_file_exists (root_node : Z) (path : list Z) : Z := 0.

Definition register_device (name : list Z) (ops : vfs_ops_t) (device_data : Z) : dM unit :=
  new_device ← on_fs (vfs_new_node name ops);
  s ← get;
  on_fs (vfs_add_child (devfs_root s) new_device) ;;
  e ← on_fs (node_at new_device);
  on_map (km_set (unid e) device_data).

Definition get_device_data (node : Z) : dM Z :=
  e ← on_fs (node_at node);
  on_map (km_get (unid e)).

(** [kcalloc(sizeof(vfs_fs_descriptor_t))] *)
Definition new_descriptor (root file_exists : Z) : fM Z :=
  s ← get;
  let a := vbrk s in
  modify (λ s, s <| vbrk := a + 65536 |> <| descs := <[a := mk_desc root null_vfs_ops file_exists]> (descs s) |>) ;;
  mret a.

Definition dev_name : list Z := [100; 101; 118].
Definition vesafb_name : list Z := [118; 101; 115; 97; 102; 98].

(** [open_fn] and [exists_fn] are the addresses of [devfs_open] and
    [devfs_file_exists], [vesa_ops] the operations of [setup_vesa_device]. *)
Definition register_devices (vesa_ops : vfs_ops_t) : dM unit := register_device vesafb_name vesa_ops 0.

Definition devfs_init (dummy_ops vesa_ops : vfs_ops_t) (open_fn exists_fn : Z) : dM unit :=
  root ← on_fs (vfs_new_node dev_name dummy_ops);
  modify (λ s, s <| devfs_root := root |>) ;;
  on_fs (upd_vnode root (λ e, e <| n_ops := n_ops e <| o_open := open_fn |> |>)) ;;
  d ← on_fs (new_descriptor root exists_fn);
  on_fs (upd_vnode root (λ e, e <| filesystem_descriptor := d |>)) ;;
  vroot ← on_fs (gets root_node);
  on_fs (vfs_add_child vroot root) ;;
  modify (λ s, s <| devfs_hashmap := km_new |>) ;;
  register_devices vesa_ops.
End devfs.

(** ** Devices can be found and keep their data *)

(** The identifiers in use are below the next one. *)
Definition unids_ok (f : fs_t) : Prop :=
  0 ≤ current_unid f ∧ ∀ a e, vnodes f !! a = Some e → 0 ≤ unid e < current_unid f.

(** A new node under [a]: the tree with it, its identifier, and that every other
    node keeps what it had. *)
Lemma new_child_ok f a nm ops :
  vtree_ok f → unlocked (vfs_lock f) → is_Some (vnodes f !! a) → elem_ok nm → (∀ c, ¬ child f a nm c) →
  ∃ f1 f2, vfs_new_node nm ops f = Ok (vbrk f, f1) ∧ vfs_add_child a (vbrk f) f1 = Ok (tt, f2) ∧
    vtree_ok f2 ∧ extends f f2 ∧ (∀ x n c, child f2 x n c ↔ child f x n c ∨ (x = a ∧ n = nm ∧ c = vbrk f)) ∧
    (∃ e, vnodes f2 !! vbrk f = Some e ∧ n_ops e = ops ∧ unid e = current_unid f) ∧
    (∀ x e, vnodes f !! x = Some e → ∃ e', vnodes f2 !! x = Some e' ∧ unid e' = unid e ∧ n_ops e' = n_ops e) ∧
    (∀ x e', vnodes f2 !! x = Some e' → x = vbrk f ∨ ∃ e, vnodes f !! x = Some e ∧ unid e' = unid e) ∧
    current_unid f2 = u64 (current_unid f + 1) ∧ unlocked (vfs_lock f2).
Proof.
  intros Ht Hl [ea Hea] Hnm Hno. pose proof (t_brk _ Ht) as [Hb0 Hb]. set (nw := vbrk f).
  assert (vnodes f !! nw = None) as Hfree.
  { destruct (vnodes f !! nw) eqn:En; [|done]. specialize (Hb nw ltac:(by eexists)). unfold nw in Hb. lia. }
  assert (a ≠ nw) as Hanw by congruence.
  set (en := mk_node (Some nm) ops 0 0 0 0 0 (replicate 10 0) (current_unid f)).
  set (f1 := f <| vbrk := nw + 65536 |> <| current_unid := u64 (current_unid f + 1) |> <| vnodes := <[nw := en]> (vnodes f) |>).
  destruct (vfs_add_child_ok f1 a nw ea en) as (l' & Hm & Ea); [done| |apply lookup_insert_eq|done|].
  { unfold f1. cbn. by rewrite lookup_insert_ne. }
  eexists f1, _. split; [reflexivity|]. split; [exact Ea|].
  match goal with |- vtree_ok ?s' ∧ _ => set (f2 := s') end.
  assert (vnodes f2 = <[nw := en <| n_parent := a |>]> (<[a := ea <| children := l' |>]> (vnodes f))) as Hv.
  { unfold f2, f1. cbn. rewrite (insert_insert_ne _ a nw) by done. by rewrite insert_insert_eq. }
  assert (Forall (λ c, c = 0) (children (en <| n_parent := a |>))) as Hz by (cbn; repeat constructor).
  pose proof (child_added f f2 a nm ea l' nw (en <| n_parent := a |>) Ht Hea Hm Hfree ltac:(unfold nw; lia) eq_refl Hz Hv) as Hchild.
  assert (∀ x e, vnodes f !! x = Some e → ∃ e', vnodes f2 !! x = Some e' ∧ unid e' = unid e ∧ n_ops e' = n_ops e) as Hkeep.
  { intros x e He. assert (x ≠ nw) by congruence. rewrite Hv, lookup_insert_ne by done.
    destruct (decide (x = a)) as [-> |]; [rewrite lookup_insert_eq|rewrite lookup_insert_ne by done; by exists e].
    eexists. split; [done|]. by simplify_eq. }
  split_and!; try done.
  - by eapply (tree_added f f2 a nm ea l' nw (en <| n_parent := a |>)).
  - split; [done|done| |].
    + intros x n c Hc. apply Hchild. by left.
    + intros x [e He]. destruct (Hkeep x e He) as (e' & -> & _). by eexists.
  - exists (en <| n_parent := a |>). by rewrite Hv, lookup_insert_eq.
  - intros x e' He'. destruct (decide (x = nw)) as [-> |Hx]; [by left|]. right. rewrite Hv, lookup_insert_ne in He' by done.
    destruct (decide (x = a)) as [-> |].
    + rewrite lookup_insert_eq in He'. injection He' as <-. by exists ea.
    + rewrite lookup_insert_ne in He' by done. by exists e'.
Qed.

Section devfs.
Context {M : Type} `{!KeyMap M} `{!KeyMapLaws M}.
Implicit Type s : devfs_st M.

(** The device file system: a well-formed tree, identifiers that do not repeat
    and a map that holds [m]. *)
Record devfs_ok s (m : gmap Z Z) : Prop := {
  df_tree : vtree_ok (dv_fs s);
  df_lock : unlocked (vfs_lock (dv_fs s));
  df_root : is_Some (vnodes (dv_fs s) !! devfs_root s);
  df_unids : unids_ok (dv_fs s);
  df_map : km_rep (devfs_hashmap s) m
}.

(** What the driver of a node finds. *)
Definition data_of s (m : gmap Z Z) (a : Z) : option Z := e ← vnodes (dv_fs s) !! a; Some (default 0 (m !! unid e)).

Lemma get_device_data_ok s m a d : devfs_ok s m → data_of s m a = Some d → get_device_data a s = Ok (d, s).
Proof.
  intros Hs Hd. unfold data_of in Hd. destruct (vnodes (dv_fs s) !! a) as [e|] eqn:He; [|done]. injection Hd as <-.
  unfold get_device_data.
  assert (on_fs (node_at a) s = Ok (e, s)) as E1.
  { unfold on_fs. rewrite (zoom_ok _ _ _ _ _ _ (node_at_ok _ _ _ He)). by destruct s. }
  mrun E1. unfold on_map. rewrite (zoom_ok _ _ _ _ _ _ (km_get_ok _ _ (unid e) (df_map _ _ Hs))). by destruct s.
Qed.

(** C35: Registering a device makes it reachable: a node with the given name and
    operations appears directly under the root of the device file system, and the
    driver finds exactly the data that was registered for it.  No other link of
    the tree appears or disappears, every other device keeps its own data, and
    the invariants of the tree and of the identifiers are kept. *)
Theorem register_device_correct s m name ops data :
  devfs_ok s m → elem_ok name → (∀ c, ¬ child (dv_fs s) (devfs_root s) name c) →
  current_unid (dv_fs s) + 1 < U64_MOD →
  ∃ node s' m', register_device name ops data s = Ok (tt, s') ∧ devfs_ok s' m' ∧ devfs_root s' = devfs_root s ∧
    (∀ x n c, child (dv_fs s') x n c ↔ child (dv_fs s) x n c ∨ (x = devfs_root s ∧ n = name ∧ c = node)) ∧
    (∃ e, vnodes (dv_fs s') !! node = Some e ∧ n_ops e = ops) ∧
    get_device_data node s' = Ok (data, s') ∧
    (∀ a d, data_of s m a = Some d → get_device_data a s = Ok (d, s) ∧ get_device_data a s' = Ok (d, s')).
Proof.
  intros Hs Hnm Hno Hu. pose proof Hs as [Ht Hl Hr [Hu0 Hun] Hm].
  destruct (new_child_ok (dv_fs s) (devfs_root s) name ops Ht Hl Hr Hnm Hno)
    as (f1 & f2 & E1 & E2 & Ht2 & Hx & Hch & (e & He & Hops & Hue) & Hkeep & Hback & Hcu & Hl2).
  unfold register_device, on_fs. mrun (zoom_ok dv_fs (λ f (s : devfs_st M), s <| dv_fs := f |>) _ s _ _ E1). mstep.
  set (s1 := s <| dv_fs := f1 |>).
  change (devfs_root s1) with (devfs_root s).
  mrun (zoom_ok dv_fs (λ f (s : devfs_st M), s <| dv_fs := f |>) _ s1 _ _ E2). set (s2 := s1 <| dv_fs := f2 |>).
  mrun (zoom_ok dv_fs (λ f (s : devfs_st M), s <| dv_fs := f |>) _ s2 _ _ (node_at_ok f2 _ _ He)).
  destruct (km_set_ok (devfs_hashmap s) m (unid e) data Hm) as (h & Eh & Hh).
  unfold on_map. set (s3 := s2 <| dv_fs := f2 |>).
  rewrite (zoom_ok devfs_hashmap (λ h (s : devfs_st M), s <| devfs_hashmap := h |>) _ s3 _ _ Eh).
  set (s' := s3 <| devfs_hashmap := h |>).
  assert (dv_fs s' = f2) as Ef by done.
  assert (devfs_ok s' (<[unid e := data]> m)) as Hs'.
  { split; rewrite ?Ef; try done.
    - apply Hx. exact Hr.
    - split; [rewrite Hcu; apply u64_range|]. intros a e' He'. rewrite Hcu, u64_small by (unfold is_u64; lia).
      destruct (Hback _ _ He') as [-> |(e0 & He0 & ->)]; [simplify_eq; lia|]. specialize (Hun _ _ He0). lia. }
  exists (vbrk (dv_fs s)), s', (<[unid e := data]> m).
  do 4 (split; [done|]). split; [by exists e|]. split.
  - apply (get_device_data_ok _ _ _ _ Hs'). unfold data_of. rewrite Ef, He. cbn. by rewrite lookup_insert_eq.
  - intros a d Hd. split; [by apply (get_device_data_ok s m)|]. apply (get_device_data_ok _ _ _ _ Hs'). unfold data_of in *. rewrite Ef.
    destruct (vnodes (dv_fs s) !! a) as [e0|] eqn:He0; [|done]. destruct (Hkeep _ _ He0) as (e' & He' & Hu' & _). rewrite He'. cbn in *.
    specialize (Hun _ _ He0). rewrite lookup_insert_ne by lia. by rewrite Hu'.
Qed.
End devfs.

(** ** Witness: a second device beside [/dev/tty0] *)

Definition devfs_demo : devfs_st (hashmap Z) := mk_devfs demo_fs 200 km_new.

Lemma devfs_demo_ok : devfs_ok devfs_demo ∅.
Proof.
  split; [exact demo_tree|done|by eexists| |apply km_new_ok]. split; [done|]. intros a e.
  change (vnodes demo_fs !! a = Some e → 0 ≤ unid e < 2). unfold demo_fs. cbn [vnodes].
  intros [[_ <-]|[_ H]]%lookup_insert_Some; [cbn; lia|].
  apply lookup_insert_Some in H as [[_ <-]|[_ H]]; [cbn; lia|]. apply lookup_singleton_Some in H as [_ <-]. cbn. lia.
Qed.

Lemma register_device_correct_witness :
  ∃ node s', register_device (chars "fb0") null_vfs_ops 77 devfs_demo = Ok (tt, s') ∧
    child (dv_fs s') 200 (chars "fb0") node ∧ get_device_data node s' = Ok (77, s').
Proof.
  destruct (register_device_correct devfs_demo ∅ (chars "fb0") null_vfs_ops 77) as (node & s' & m' & E & _ & _ & Hch & _ & Hd & _).
  - exact devfs_demo_ok.
  - destruct demo_elems as [_ [_ [[H _] _]%Forall_cons]%Forall_cons]. exact H.
  - intros c (e & He & Hc & Hc0 & Hn). change (vnodes demo_fs !! 200 = Some e) in He.
    destruct (demo_children 200 e c He Hc Hc0) as [[? _]|[_ ->]]; [done|]. vm_compute in Hn. discriminate Hn.
  - cbn. lia.
  - exists node, s'. split; [exact E|]. split; [|exact Hd]. apply Hch. right. done.
Defined.
