(* ===== verification/Interrupts.v ===== *)
(** * Interrupts (sys/int/idt.c, sys/int/isr.c, sys/smp.c)

    The descriptor table leads each of the 256 vectors to its entry point in
    asm/interrupts.asm, whose addresses are the parameter [isr]; all of them call
    [isr_handler] with the frame of the interrupted code.  The handlers that are
    registered are the functions of [int_handler].  [lapic] is the sequence of
    writes to registers of the local APIC: the end of an interrupt is a write of
    0 to register 0xB0, an interrupt to another processor a write to 0x310 and one
    to 0x300.  Messages on the console are left out; a processor that halts for
    good is [Hang]. *)

From S2P Require Import Prelude Locks Blocks Vfs Vmm DList Kernel Stack Proc Sched SleepQueue Ps2.

(** ** Data *)

Record idt_gate_t : Type := mk_gate {
  low_offset : Z;
  selector : Z;
  ist : Z;
  gate_type : Z;
  middle_offset : Z;
  high_offset : Z;
  always0 : Z
}.
#[export] Instance eta_idt_gate_t : Eta idt_gate_t :=
  λ r, mk_gate (low_offset r) (selector r) (ist r) (gate_type r) (middle_offset r) (high_offset r) (always0 r).

Definition IDT_ENTRIES : Z := 256.

(** The functions [configure_idt] registers. *)
Inductive int_handler : Type :=
| h_timer_handler | h_keyboard_handler | h_mouse_handler | h_schedule | h_schedule_ap
| h_isr_panic_idle | h_panic_handler | h_set_debug_state.

(** A processor of the MADT. *)
Record madt_ent0_t : Type := mk_cpu0 { acpi_processor_id : Z; apic_id : Z; cpu_flags : Z }.

Record int_st : Type := mk_int {
  ik : kstate;
  ips2 : ps2_st;
  idt : list idt_gate_t;
  idt_reg : Z * Z; (** base and limit *)
  handlers : list (option int_handler);
  lapic : list (Z * Z);
  cpu_vector : list madt_ent0_t;
  scheduler_ran : Z
}.
#[export] Instance eta_int_st : Eta int_st :=
  λ r, mk_int (ik r) (ips2 r) (idt r) (idt_reg r) (handlers r) (lapic r) (cpu_vector r) (scheduler_ran r).

Abbreviation iM := (stM int_st).

Definition on_kernel {A} (m : kM A) : iM A := zoom ik (λ k s, s <| ik := k |>) m.
Definition on_ps2 {A} (m : pM A) : iM A := zoom ips2 (λ p s, s <| ips2 := p |>) m.

(** ** sys/int/idt.c *)

Definition upd_gate (n : Z) (f : idt_gate_t → idt_gate_t) : iM unit :=
  s ← get;
  g ← of_opt (idx (idt s) n);
  modify (λ s, s <| idt := upd (idt s) n (f g) |>).

Definition set_idt_gate (n handler : Z) : iM unit :=
  upd_gate n (λ _, mk_gate (u16 handler) 8 0 142 (u16 (Z.shiftr handler 16)) (u32 (Z.shiftr handler 32)) 0).

Definition set_ist (n ist_index : Z) : iM unit := upd_gate n (λ g, g <| ist := Z.land ist_index 7 |>).

(** [base] is the address of the table of this processor. *)
Definition load_idt (base : Z) : iM unit := modify (λ s, s <| idt_reg := (base, IDT_ENTRIES * 16 - 1) |>).

(** ** Registration *)

Definition register_int_handler (n : Z) (handler : int_handler) : iM unit :=
  s ← get;
  of_opt (idx (handlers s) n) ;;
  modify (λ s, s <| handlers := upd (handlers s) n (Some handler) |>).

Fixpoint set_ists (l : list (Z * Z)) : iM unit :=
  match l with
  | [] => mret tt
  | (n, i) :: l' => set_ist n i ;; set_ists l'
  end.

(** The calls of [set_ist], in order. *)
Definition ist_calls : list (Z * Z) :=
  map (λ n, (n, 2)) (seqZ 0 32) ++ [(252, 2); (251, 2); (32, 1); (33, 1); (254, 1); (253, 1); (250, 1)].

(** The 256 calls of [set_idt_gate]. *)
Definition set_gates (isr : Z → Z) : iM unit := for_loop 256 0 (λ n, set_idt_gate n (isr n)).

Definition configure_idt (isr : Z → Z) (base : Z) : iM unit :=
  set_gates isr ;;
  set_ists ist_calls ;;
  load_idt base ;;
  register_int_handler 32 h_timer_handler ;;
  register_int_handler 33 h_keyboard_handler ;;
  register_int_handler 44 h_mouse_handler ;;
  register_int_handler 254 h_schedule ;;
  register_int_handler 253 h_schedule_ap ;;
  register_int_handler 252 h_isr_panic_idle ;;
  register_int_handler 251 h_panic_handler ;;
  register_int_handler 250 h_set_debug_state ;;
  on_kernel (modify (λ k, k <| kcpu := mk_cpu true (console (kcpu k)) |>)). (* sti *)

(** ** Interrupts between processors *)

Definition write_lapic (offset data : Z) : iM unit := modify (λ s, s <| lapic := lapic s ++ [(offset, data)] |>).

Definition send_ipi (ap ipi_number : Z) : iM unit :=
  write_lapic 784 (u32 (Z.shiftl ap 24)) ;;
  write_lapic 768 ipi_number.

Definition awake (c : madt_ent0_t) : bool :=
  negb (Z.land (cpu_flags c) 1 =? 0) || negb (Z.land (cpu_flags c) 2 =? 0).

(** The loop over [cpu_vector] of [send_panic_ipis] and of the routines of
    klibc/debug.c: the interrupt to every usable processor but this one. *)
Fixpoint send_to_others (l : list madt_ent0_t) (lapic_id ipi_number : Z) : iM unit :=
  match l with
  | [] => mret tt
  | c :: l' =>
      (if awake c && negb (apic_id c =? lapic_id) then send_ipi (apic_id c) ipi_number else mret tt) ;;
      send_to_others l' lapic_id ipi_number
  end.

Section handlers.
(** The time stamp counter, the data port, the size of the screen, the answer
    of [get_lapic_id], the address of [keyboard_event], and what the other
    processors do to a thread when they are told to reschedule. *)
Context (tsc_at : nat → Z) (port60 : nat → Z) (width height : Z) (lapic_id keyboard_event : Z)
  (reschedule : Z → kM unit).

Definition send_panic_ipis : iM unit :=
  s ← get; send_to_others (cpu_vector s) lapic_id (Z.lor (Z.shiftl 1 14) 252).

Definition vmm_set_base_kernel : iM unit :=
  on_kernel (s ← get; upd_hw (λ h, h <| hw_cr3 := base_kernel_cr3 s |>)).

Definition panic_handler (r : int_reg_t) : iM int_reg_t :=
  vmm_set_base_kernel ;; send_panic_ipis ;; crashM Hang.
Definition isr_panic_idle (r : int_reg_t) : iM int_reg_t := crashM Hang.

Definition keyboard_handler (r : int_reg_t) : iM int_reg_t :=
  on_kernel (trigger_event keyboard_event) ;; mret r.

Definition schedule_ap (r : int_reg_t) : iM int_reg_t :=
  r' ← on_kernel (schedule_runner tsc_at r);
  modify (λ s, s <| scheduler_ran := 1 |>) ;;
  mret r'.

(** [handlers[r->int_num](r)] *)
Definition call_handler (h : int_handler) (r : int_reg_t) : iM int_reg_t :=
  match h with
  | h_timer_handler => on_kernel (timer_handler tsc_at r)
  | h_keyboard_handler => keyboard_handler r
  | h_mouse_handler => on_ps2 (Ps2.mouse_handler port60 width height) ;; mret r
  | h_schedule => on_kernel (schedule tsc_at r)
  | h_schedule_ap => schedule_ap r
  | h_isr_panic_idle => isr_panic_idle r
  | h_panic_handler => panic_handler r
  | h_set_debug_state => on_kernel set_debug_state ;; mret r
  end.

(** ** Exceptions of user programs *)

Fixpoint kill_threads (tids : list Z) : kM unit :=
  match tids with
  | [] => mret tt
  | t :: l => (if negb (t =? -1) then kill_thread reschedule t else mret tt) ;; kill_threads l
  end.

(** [kfree(processes[get_cur_pid()]); processes[get_cur_pid()] = 0;] *)
Definition drop_process : kM unit :=
  pid ← get_cur_pid;
  a ← process_slot pid;
  assertM (negb (a =? 0)) ;;
  modify (λ s, s <| pheap := delete a (pheap s) |>) ;;
  pid ← get_cur_pid;
  modify (λ s, s <| processes := upd (processes s) pid 0 |>).

Definition kill_current_process : kM unit :=
  sched_acquire ;;
  c ← get_cur_thread;
  t ← thread_at c;
  thread ← thread_slot (t_tid t);
  upd_thread thread (λ t, t <| t_state := BLOCKED |> <| t_cpu := -1 |>) ;;
  pid ← get_cur_pid;
  process ← process_slot pid;
  p ← process_at process;
  kalloc ;;
  sched_release ;;
  kill_threads (p_threads p) ;;
  sched_acquire ;;
  drop_process ;;
  sched_release.

Definition user_exception (r : int_reg_t) : kM int_reg_t :=
  pid ← get_cur_pid;
  (if negb (pid =? 0) then kill_current_process
   else c ← get_cur_thread; t ← thread_at c; kill_thread reschedule (t_tid t)) ;;
  upd_locals (λ l, l <| current_thread := 0 |>) ;;
  schedule tsc_at r.

Definition exception (r : int_reg_t) : iM int_reg_t :=
  vmm_set_base_kernel ;;
  if negb (i_cs r =? 27) then send_panic_ipis ;; crashM Hang
  else on_kernel (user_exception r).

(** ** The dispatcher *)

Definition accounted (int_num : Z) : bool := negb (int_num =? 32) && negb (int_num =? 253) && negb (int_num =? 254).

(** The time since the processor went idle is idle time; [start_tsc] and [was_idle]. *)
Definition enter_interrupt (int_num : Z) : kM (Z * bool) :=
  start_tsc ← read_tsc tsc_at;
  if accounted int_num then
    l ← gets locals;
    if negb (currently_idle l =? 0) then
      now ← read_tsc tsc_at;
      upd_locals (λ l, l <| idle_tsc_count := u64 (idle_tsc_count l + u64 (now - idle_start_tsc l)) |>
                         <| currently_idle := 0 |>) ;;
      mret (start_tsc, true)
    else mret (active_start_tsc l, false)
  else mret (start_tsc, false).

Definition leave_interrupt (int_num start_tsc : Z) (was_idle : bool) : kM unit :=
  if accounted int_num then
    now ← read_tsc tsc_at;
    upd_locals (λ l, l <| active_tsc_count := u64 (active_tsc_count l + u64 (now - start_tsc)) |>) ;;
    now ← read_tsc tsc_at;
    if was_idle then upd_locals (λ l, l <| idle_start_tsc := now |> <| currently_idle := 1 |>)
    else upd_locals (λ l, l <| active_start_tsc := now |>)
  else mret tt.

(** [debug_handler] prints the current process. *)
Definition debug_handler (r : int_reg_t) : kM unit := get_cur_pid ;; mret tt.

Definition dispatch (r : int_reg_t) : iM int_reg_t :=
  if i_int_num r <? IDT_ENTRIES then
    if i_int_num r =? 1 then on_kernel (debug_handler r) ;; mret r
    else
      r ← (if i_int_num r <? 32 then exception r else mret r);
      s ← get;
      h ← of_opt (idx (handlers s) (i_int_num r));
      match h with Some h => call_handler h r | None => mret r end
  else crashM Hang.

Definition isr_handler (r : int_reg_t) : iM int_reg_t :=
  '(start_tsc, was_idle) ← on_kernel (enter_interrupt (i_int_num r));
  r ← dispatch r;
  on_kernel (leave_interrupt (i_int_num r) start_tsc was_idle) ;;
  write_lapic 176 0 ;;
  mret r.
End handlers.
