(* ===== verification/InterruptTheorems.v ===== *)
(** * Every vector reaches its entry point and its handler *)

From S2P Require Import Prelude Locks Blocks Vfs Vmm DList Kernel Stack Proc Sched SleepQueue Ps2 Interrupts.

(** ** The descriptor table *)

(** The address the processor jumps to. *)
Definition gate_address (g : idt_gate_t) : Z :=
  low_offset g + U16_MOD * middle_offset g + U32_MOD * high_offset g.
(** Bit 7 of the type. *)
Definition present (g : idt_gate_t) : bool := Z.testbit (gate_type g) 7.

(** The stack an interrupt is taken on: 2 for exceptions and panics, 1 for
    timer, keyboard and the kernel's own interrupts, 0 for the current one. *)
Definition ist_of (n : Z) : Z :=
  if (n <? 32) || (n =? 251) || (n =? 252) then 2
  else if (n =? 32) || (n =? 33) || (n =? 250) || (n =? 253) || (n =? 254) then 1 else 0.

Definition handler_of (n : Z) : option int_handler :=
  if n =? 32 then Some h_timer_handler else if n =? 33 then Some h_keyboard_handler
  else if n =? 44 then Some h_mouse_handler else if n =? 254 then Some h_schedule
  else if n =? 253 then Some h_schedule_ap else if n =? 252 then Some h_isr_panic_idle
  else if n =? 251 then Some h_panic_handler else if n =? 250 then Some h_set_debug_state else None.

Lemma split_address a : is_u64 a →
  u16 a + U16_MOD * u16 (Z.shiftr a 16) + U32_MOD * u32 (Z.shiftr a 32) = a.
Proof.
  unfold is_u64, u16, u32. intros Ha. rewrite !Z.shiftr_div_pow2 by lia.
  change (2 ^ 16) with U16_MOD. change (2 ^ 32) with U32_MOD. dlia.
Qed.

Lemma upd_gate_ok s n g f : idx (idt s) n = Some g → upd_gate n f s = Ok (tt, s <| idt := upd (idt s) n (f g) |>).
Proof. intros Hg. unfold upd_gate. mstep. by mrun (of_opt_ok _ _ s Hg). Qed.

Lemma idx_is_Some {A} (l : list A) n : 0 ≤ n < zlen l → ∃ a, idx l n = Some a.
Proof.
  intros Hn. unfold idx, zlen in *. rewrite (proj2 (Z.leb_le _ _)) by lia.
  apply lookup_lt_is_Some_2. lia.
Qed.

Definition gate_of (a : Z) : idt_gate_t := mk_gate (u16 a) 8 0 142 (u16 (Z.shiftr a 16)) (u32 (Z.shiftr a 32)) 0.

Lemma set_gates_ok isr s : zlen (idt s) = 256 →
  ∃ l, set_gates isr s = Ok (tt, s <| idt := l |>) ∧ zlen l = 256 ∧
    ∀ n, 0 ≤ n < 256 → idx l n = Some (gate_of (isr n)).
Proof.
  intros Hz.
  destruct (for_loop_inv (λ i t, ∃ l, t = s <| idt := l |> ∧ zlen l = 256 ∧ ∀ n, 0 ≤ n < i → idx l n = Some (gate_of (isr n)))
    (λ n, set_idt_gate n (isr n)) 256 0 s) as (t & E & l & -> & Hl & Hg).
  - exists (idt s). split; [by destruct s|]. split; [done|lia].
  - intros j t Hj (l & -> & Hl & Hg). destruct (idx_is_Some l j ltac:(lia)) as [g Hj'].
    eexists. split; [unfold set_idt_gate; by apply upd_gate_ok|].
    exists (upd l j (gate_of (isr j))). split; [done|]. split; [unfold zlen, upd in *; by rewrite length_insert|].
    intros n Hn. destruct (decide (n = j)) as [-> |Hne]; [by apply idx_upd_eq; lia|].
    rewrite idx_upd_ne by lia. apply Hg. lia.
  - exists l. split; [exact E|]. split; [done|]. intros n Hn. apply Hg. lia.
Qed.

(** The last entry of a list of calls for a vector. *)
Definition last_ist (calls : list (Z * Z)) (n d : Z) : Z :=
  foldl (λ acc c, if c.1 =? n then Z.land c.2 7 else acc) d calls.

Lemma set_ists_ok calls : ∀ s, zlen (idt s) = 256 → Forall (λ c, 0 ≤ c.1 < 256) calls →
  ∃ l, set_ists calls s = Ok (tt, s <| idt := l |>) ∧ zlen l = 256 ∧
    ∀ n g, idx (idt s) n = Some g → idx l n = Some (g <| ist := last_ist calls n (ist g) |>).
Proof.
  induction calls as [|[n0 i0] calls IH]; intros s Hz Hc.
  - exists (idt s). split; [by destruct s|]. split; [done|]. intros n g Hg. rewrite Hg. by destruct g.
  - apply Forall_cons in Hc as [Hn0 Hc]. cbn in Hn0. destruct (idx_is_Some (idt s) n0 ltac:(lia)) as [g0 Hg0].
    cbn [set_ists]. unfold set_ist. mrun (upd_gate_ok s n0 g0 (λ g, g <| ist := Z.land i0 7 |>) Hg0).
    set (s1 := s <| idt := _ |>).
    destruct (IH s1) as (l & E & Hl & Hg); [unfold s1, zlen, upd in *; cbn; by rewrite length_insert|done|].
    exists l. split; [exact E|]. split; [done|]. intros n g Hng. cbn [last_ist foldl fst snd].
    destruct (Z.eqb_spec n0 n) as [-> |Hne].
    + rewrite Hng in Hg0. injection Hg0 as <-. by rewrite (Hg n (g <| ist := Z.land i0 7 |>)) by (apply idx_upd_eq; lia).
    + apply (Hg n g). unfold s1. cbn. by rewrite idx_upd_ne by (apply idx_Some in Hng; lia).
Qed.

Lemma ist_calls_table n : 0 ≤ n < 256 → last_ist ist_calls n 0 = ist_of n.
Proof.
  intros Hn. assert (forallb (λ n, last_ist ist_calls n 0 =? ist_of n) (seqZ 0 256) = true) as H by (vm_compute; reflexivity).
  rewrite forallb_forall in H. apply Z.eqb_eq, H. apply list_elem_of_In, elem_of_seqZ. lia.
Qed.

Lemma register_handler_ok s n h : 0 ≤ n < zlen (handlers s) →
  register_int_handler n h s = Ok (tt, s <| handlers := upd (handlers s) n (Some h) |>).
Proof.
  intros Hn. unfold register_int_handler. mstep. destruct (idx_is_Some (handlers s) n Hn) as [a Ha].
  by mrun (of_opt_ok _ _ s Ha).
Qed.

#[export] Instance int_handler_eq_dec : EqDecision int_handler.
Proof. solve_decision. Defined.

(** The table of handlers after the calls of [configure_idt]. *)
Definition registered (l : list (option int_handler)) : list (option int_handler) :=
  foldl (λ l '(n, h), upd l n (Some h)) l
    [(32, h_timer_handler); (33, h_keyboard_handler); (44, h_mouse_handler); (254, h_schedule); (253, h_schedule_ap);
     (252, h_isr_panic_idle); (251, h_panic_handler); (250, h_set_debug_state)].

Lemma registered_table n : 0 ≤ n < 256 → idx (registered (replicate 256 None)) n = Some (handler_of n).
Proof.
  intros Hn.
  assert (forallb (λ n, bool_decide (idx (registered (replicate 256 None)) n = Some (handler_of n))) (seqZ 0 256) = true) as H
    by (vm_compute; reflexivity).
  rewrite forallb_forall in H. eapply bool_decide_unpack, Is_true_true_2, H. apply list_elem_of_In, elem_of_seqZ. lia.
Qed.

(** After [configure_idt] every one of the 256 vectors has a present
    interrupt gate in the kernel's code segment whose three parts make up exactly
    the address of its entry point, on the stack meant for it: the panic stack
    for exceptions, the interrupt stack for the timer, the keyboard and the
    kernel's own interrupts.  The eight handlers are registered for their vectors
    and for no other, the processor is given the whole table, and interrupts are
    on. *)
Theorem configure_idt_correct isr base s :
  zlen (idt s) = 256 → handlers s = replicate 256 None → (∀ n, is_u64 (isr n)) →
  ∃ s', configure_idt isr base s = Ok (tt, s') ∧
    (∀ n, 0 ≤ n < 256 → ∃ g, idx (idt s') n = Some g ∧ gate_address g = isr n ∧ selector g = 8 ∧
       present g = true ∧ ist g = ist_of n ∧ idx (handlers s') n = Some (handler_of n)) ∧
    idt_reg s' = (base, 256 * 16 - 1) ∧ if_flag (kcpu (ik s')) = true ∧ lapic s' = lapic s.
Proof.
  intros Hz Hh Hisr. unfold configure_idt. destruct (set_gates_ok isr s Hz) as (l & E1 & Hl & Hg). mrun E1.
  set (s1 := s <| idt := l |>).
  destruct (set_ists_ok ist_calls s1 Hl) as (l2 & E2 & Hl2 & Hg2).
  { apply Forall_forall. intros c Hc. assert (forallb (λ c, (0 <=? c.1) && (c.1 <? 256)) ist_calls = true) as H by (vm_compute; reflexivity).
    rewrite forallb_forall in H. apply list_elem_of_In in Hc. specialize (H c Hc). zbool. lia. }
  assert (zlen (handlers s) = 256) as Hhz by by rewrite Hh.
  mrun E2. unfold load_idt. mstep. set (s2 := s1 <| idt := l2 |> <| idt_reg := _ |>).
  do 8 (erewrite bind_ok; [|apply register_handler_ok; cbn [handlers set_field s2 s1]; rewrite ?zlen_upd; cbn; lia]; cbv beta).
  eexists. split; [reflexivity|]. split; [|done]. intros n Hn.
  eexists. split; [exact (Hg2 n _ (Hg n Hn))|].
  split; [apply split_address, Hisr|]. do 2 (split; [done|]). split.
  - by apply ist_calls_table.
  - rewrite <- (registered_table n Hn), <- Hh. reflexivity.
Qed.

(** ** Dispatch *)

Section dispatch.
Context (tsc_at : nat → Z) (port60 : nat → Z) (width height : Z) (lapic_id keyboard_event : Z)
  (reschedule : Z → kM unit).

Definition reads (k : kstate) (n : nat) : kstate := k <| hw := hw k <| tsc_reads := (tsc_reads (hw k) + n)%nat |> |>.
Definition tsc_now (k : kstate) (i : nat) : Z := tsc_at (tsc_reads (hw k) + i).
Definition idle (k : kstate) : bool := negb (currently_idle (locals k) =? 0).

(** The kernel while the handler runs: when the processor was idle, it no longer
    is, and its idle time ends here. *)
Definition entered (n : Z) (k : kstate) : kstate :=
  if accounted n && idle k then
    reads (k <| locals := locals k
      <| idle_tsc_count := u64 (idle_tsc_count (locals k) + u64 (tsc_now k 1 - idle_start_tsc (locals k))) |>
      <| currently_idle := 0 |> |>) 2
  else reads k 1.

(** The kernel after it: the time since the interrupt came, or since the processor
    was last charged, is active time, and an idle processor is idle again. *)
Definition left (n : Z) (k0 k : kstate) : kstate :=
  if accounted n then
    let start := if idle k0 then tsc_now k0 0 else active_start_tsc (locals k0) in
    let l := locals k <| active_tsc_count := u64 (active_tsc_count (locals k) + u64 (tsc_now k 0 - start)) |> in
    reads (k <| locals := if idle k0 then l <| idle_start_tsc := tsc_now k 1 |> <| currently_idle := 1 |>
                          else l <| active_start_tsc := tsc_now k 1 |> |>) 2
  else k.

Lemma tsc_read_ok k : read_tsc tsc_at k = Ok (tsc_now k 0, reads k 1).
Proof. unfold read_tsc, tsc_now, reads. mstep. cbn. rewrite Nat.add_0_r, Nat.add_1_r. by destruct k, hw. Qed.

Lemma enter_interrupt_ok n k :
  enter_interrupt tsc_at n k =
    Ok ((if accounted n && negb (idle k) then active_start_tsc (locals k) else tsc_now k 0, accounted n && idle k), entered n k).
Proof.
  unfold enter_interrupt. mrun (tsc_read_ok k). unfold entered. destruct (accounted n); cbn [andb]; [|done].
  mstep. change (locals (reads k 1)) with (locals k). unfold idle. destruct (currently_idle (locals k) =? 0); cbn [negb]; [done|].
  mrun (tsc_read_ok (reads k 1)). mstep. unfold mret, stM_ret. do 2 f_equal. unfold reads, tsc_now. destruct k, hw, locals. cbn.
  by rewrite <- !Nat.add_assoc.
Qed.

Lemma leave_interrupt_ok n k0 k :
  leave_interrupt tsc_at n (if accounted n && negb (idle k0) then active_start_tsc (locals k0) else tsc_now k0 0)
    (accounted n && idle k0) k = Ok (tt, left n k0 k).
Proof.
  unfold leave_interrupt, left. destruct (accounted n); cbn [andb]; [|done].
  mrun (tsc_read_ok k). mstep.
  set (k1 := reads k 1 <| locals := _ |>). mrun (tsc_read_ok k1). unfold upd_locals, modify.
  destruct (idle k0); cbn [negb]; do 2 f_equal; unfold k1, reads, tsc_now; destruct k, hw, locals; cbn;
    by rewrite <- !Nat.add_assoc.
Qed.

(** *** The frame keeps the number of the interrupt *)

Lemma zoom_inv {S T A} (g : S → T) (p : T → S → S) (m : stM T A) s a s' :
  zoom g p m s = Ok (a, s') → ∃ t, m (g s) = Ok (a, t) ∧ s' = p t s.
Proof. unfold zoom. destruct (m (g s)) as [[b t]|c]; [|done]. intros H. injection H as <- <-. by exists t. Qed.

Lemma load_context_num r k r' k' : load_context r k = Ok (r', k') → i_int_num r' = i_int_num r.
Proof.
  unfold load_context. intros H. do 12 (apply bind_inv in H as (? & ? & _ & H)).
  unfold mret, stM_ret in H. by injection H as <- _.
Qed.

Lemma schedule_num r k r' k' : schedule tsc_at r k = Ok (r', k') → i_int_num r' = i_int_num r.
Proof.
  unfold schedule. intros H. do 4 (apply bind_inv in H as (? & ? & _ & H)).
  apply bind_inv in H as (r1 & k1 & H1 & H). do 2 (apply bind_inv in H as (? & ? & _ & H)).
  injection H as <- _. by eapply load_context_num.
Qed.

Lemma schedule_runner_num r k r' k' : schedule_runner tsc_at r k = Ok (r', k') → i_int_num r' = i_int_num r.
Proof.
  unfold schedule_runner. intros H. apply bind_inv in H as (k1 & ? & _ & H).
  destruct (spinlock_check_and_lock (sched_lock k1)) as [held l]. apply bind_inv in H as (? & ? & _ & H).
  destruct (held =? 0); [by eapply schedule_num|]. apply bind_inv in H as (? & ? & _ & H). by injection H as <- _.
Qed.

Lemma timer_num r k r' k' : timer_handler tsc_at r k = Ok (r', k') → i_int_num r' = i_int_num r.
Proof.
  unfold timer_handler. intros H. do 3 (apply bind_inv in H as (? & ? & _ & H)).
  destruct (_ && _); [by eapply schedule_runner_num|]. by injection H as <- _.
Qed.

Lemma call_handler_num h r s r' s' :
  call_handler tsc_at port60 width height lapic_id keyboard_event h r s = Ok (r', s') → i_int_num r' = i_int_num r.
Proof.
  destruct h; cbn [call_handler]; intros H.
  - apply zoom_inv in H as (t & H & _). by eapply timer_num.
  - apply bind_inv in H as (? & ? & _ & H). by injection H as <- _.
  - apply bind_inv in H as (? & ? & _ & H). by injection H as <- _.
  - apply zoom_inv in H as (t & H & _). by eapply schedule_num.
  - apply bind_inv in H as (r1 & s1 & H1 & H). apply zoom_inv in H1 as (t & H1 & _). apply bind_inv in H as (? & ? & _ & H).
    injection H as <- _. by eapply schedule_runner_num.
  - done.
  - do 2 (apply bind_inv in H as (? & ? & _ & H)). done.
  - apply bind_inv in H as (? & ? & _ & H). by injection H as <- _.
Qed.

(** What the handler of a vector does, with [None] for none. *)
Definition run_handler (h : option int_handler) (r : int_reg_t) : iM int_reg_t :=
  match h with
  | Some f => call_handler tsc_at port60 width height lapic_id keyboard_event f r
  | None => mret r
  end.

(** An interrupt of a device, of the timer or of another processor runs
    exactly the handler registered for its vector, and the frame the handler
    returns is resumed.  Before it, an idle processor is marked busy and charged
    its idle time; after it the processor is charged the time of the handler as
    active time and an idle one is idle again (the scheduler's own interrupts do
    their accounting themselves).  The end of the interrupt is signalled to the
    local APIC once, after everything else.  When the handler does not return,
    neither does the interrupt. *)
Theorem isr_handler_correct s r h :
  32 ≤ i_int_num r < 256 → idx (handlers s) (i_int_num r) = Some h →
  isr_handler tsc_at port60 width height lapic_id keyboard_event reschedule r s =
    match run_handler h r (s <| ik := entered (i_int_num r) (ik s) |>) with
    | Ok (r', s2) => Ok (r', s2 <| ik := left (i_int_num r) (ik s) (ik s2) |> <| lapic := lapic s2 ++ [(176, 0)] |>)
    | Crash c => Crash c
    end.
Proof.
  intros Hn Hh. unfold isr_handler, on_kernel.
  mrun (zoom_ok ik (λ k s, s <| ik := k |>) _ s _ _ (enter_interrupt_ok (i_int_num r) (ik s))).
  set (s1 := s <| ik := _ |>). cbv iota.
  assert (dispatch tsc_at port60 width height lapic_id keyboard_event reschedule r s1 = run_handler h r s1) as Ed.
  { unfold dispatch. rewrite (proj2 (Z.ltb_lt _ _)), (proj2 (Z.eqb_neq _ _)), (proj2 (Z.ltb_ge _ 32)) by (unfold IDT_ENTRIES; lia).
    mstep. mstep. change (handlers s1) with (handlers s). rewrite Hh. mstep. by destruct h. }
  destruct (run_handler h r s1) as [[r' s2]|c] eqn:E; [|by rewrite (bind_crash _ _ _ _ Ed)].
  mrun Ed. assert (i_int_num r' = i_int_num r) as ->.
  { destruct h; [by eapply call_handler_num|]. by injection E as <- _. }
  mrun (zoom_ok ik (λ k s, s <| ik := k |>) _ s2 _ _ (leave_interrupt_ok (i_int_num r) (ik s) (ik s2))). done.
Qed.
End dispatch.

(** ** What goes wrong, and witnesses *)

Definition frame_for (n cs : Z) : int_reg_t := mk_int_reg 0 0 0 0 0 0 0 0 0 0 0 0 0 0 0 n 0 0 cs 0 0 0.

(** Thread 0 of process 1 runs. *)
Definition user_kernel : kstate :=
  demo_kernel <| processes := [500; 800] |>
    <| pheap := {[500 := demo_process; 800 := demo_process <| p_pid := 1 |>]} |>
    <| theap := {[1000 := demo_thread 0 RUNNING <| parent_pid := 1 |> <| t_parent := 800 |> <| t_cpu := 0 |>;
                  3000 := demo_thread 2 BLOCKED]} |>
    <| events := {[50 := 0]} |>.

Definition int_demo : int_st :=
  mk_int user_kernel (mk_ps2 None 0 0 0 0 512 512 0 (λ _, 0)) (replicate 256 (mk_gate 0 0 0 0 0 0 0)) (0, 0)
    (replicate 256 None) [] [mk_cpu0 0 0 1; mk_cpu0 1 1 1] 0.

(** An exception of a user program takes the kernel down: killing the threads of
    the process frees the current one, whose process is then looked up. *)
Lemma user_exception_faults :
  isr_handler (λ _, 0) (λ _, 0) 1024 768 0 50 (λ _, mret tt) (frame_for 14 27) int_demo = Crash Fault.
Proof. vm_compute. reflexivity. Qed.

(** The same for a program of process 0, which waits for its own processor. *)
Lemma user_exception_hangs :
  isr_handler (λ _, 0) (λ _, 0) 1024 768 0 50 (λ _, mret tt) (frame_for 14 27)
    (int_demo <| ik := user_kernel <| theap := {[1000 := demo_thread 0 RUNNING <| t_cpu := 0 |>]} |> |>) = Crash Hang.
Proof. vm_compute. reflexivity. Qed.

Definition demo_isr (n : Z) : Z := u64 (18446603336221196288 + 16 * n).

Lemma configure_idt_correct_witness :
  ∃ s', configure_idt demo_isr 4096 int_demo = Ok (tt, s') ∧
    ∃ g, idx (idt s') 33 = Some g ∧ gate_address g = 18446603336221196816 ∧ ist g = 1 ∧
      idx (handlers s') 33 = Some (Some h_keyboard_handler).
Proof.
  destruct (configure_idt_correct demo_isr 4096 int_demo) as (s' & E & H & _).
  - vm_compute. reflexivity.
  - reflexivity.
  - intros n. apply u64_range.
  - destruct (H 33 ltac:(lia)) as (g & Hg & Ha & _ & _ & Hi & Hh). exists s'. split; [exact E|].
    exists g. split; [exact Hg|]. split; [exact Ha|]. split; [exact Hi|exact Hh].
Defined.

Lemma isr_handler_correct_witness :
  isr_handler (λ _, 0) (λ _, 0) 1024 768 0 50 (λ _, mret tt) (frame_for 40 8) int_demo =
    Ok (frame_for 40 8, int_demo <| ik := left (λ _, 0) 40 user_kernel (entered (λ _, 0) 40 user_kernel) |> <| lapic := [(176, 0)] |>).
Proof.
  rewrite (isr_handler_correct (λ _, 0) (λ _, 0) 1024 768 0 50 (λ _, mret tt) int_demo (frame_for 40 8) None); [reflexivity| |].
  - cbn. lia.
  - vm_compute. reflexivity.
Defined.
