(* ===== verification/Acpi.v ===== *)
(** * Firmware tables (sys/acpi/rsdt.c, parse_madt of sys/apic.c)

    [a_mem] is the memory of the machine, seen through the kernel's map of
    physical memory at [KERNEL_VM_OFFSET]; a table is read at that address
    after [vmm_map] has mapped its pages.  Of [vmm_map] (here [map_range]) only its effect on the set
    of mapped pages is used ([vmm_map_pages_correct] of [VmmTheorems.v]); a read
    of a page that is not mapped is a [Fault].  The vectors of sys/apic.c are
    the lists they implement ([Arrays.v]) and hold the addresses of
    entries. *)

From S2P Require Import Prelude Bytes.

Definition KERNEL_VM_OFFSET : Z := 18446603336221196288.

Record acpi_st : Type := mk_acpi {
  a_mem : Z → Z;
  a_mapped : gset Z;
  rsdp : Z;
  lapic_base : Z;
  cpu_entries : list Z;
  iso_entries : list Z;
  ioapic_entries : list Z;
  nmi_entries : list Z
}.
#[export] Instance eta_acpi_st : Eta acpi_st :=
  λ r, mk_acpi (a_mem r) (a_mapped r) (rsdp r) (lapic_base r) (cpu_entries r) (iso_entries r) (ioapic_entries r) (nmi_entries r).

Abbreviation aM := (stM acpi_st).

(** ** Memory *)

Definition rd8 (v : Z) : aM Z :=
  s ← get; if bool_decide (v / PAGE ∈ a_mapped s) then mret (a_mem s v) else crashM Fault.
Fixpoint rd_bytes (n : nat) (v : Z) : aM (list Z) :=
  match n with
  | O => mret []
  | S n' => b ← rd8 v; l ← rd_bytes n' (v + 1); mret (b :: l)
  end.
(** A field of [n] bytes. *)
Definition rd (n : nat) (v : Z) : aM Z := l ← rd_bytes n v; mret (le_word l).

Definition map_range (phys virt count : Z) : aM unit :=
  modify (λ s, s <| a_mapped := list_to_set (seqZ (virt / PAGE) count) ∪ a_mapped s |>).

(** ** sys/acpi/rsdt.c *)

Definition SIZEOF_RSDP1 : Z := 20.
Definition SIZEOF_RSDP2 : Z := 36.
Definition SIZEOF_SDT : Z := 36.

Fixpoint checksum_loop (n : nat) (data total : Z) : aM Z :=
  match n with
  | O => mret total
  | S n' => b ← rd8 data; checksum_loop n' (data + 1) (u64 (total + b))
  end.
Definition checksum_calc (data length : Z) : aM Z :=
  total ← checksum_loop (Z.to_nat length) data 0; mret (Z.land total 255).

Definition length_of (header : Z) : aM Z := rd 4 (header + 4).
Definition table_pages (length : Z) : Z := (length + PAGE - 1) / PAGE.

(** Map the first page of a table, then as many as its length says. *)
Definition map_table (phys : Z) : aM Z :=
  let header := u64 (phys + KERNEL_VM_OFFSET) in
  map_range phys header 1 ;;
  len ← length_of header;
  map_range phys header (table_pages len) ;;
  mret header.

Definition checked_table (phys : Z) : aM Z :=
  header ← map_table phys;
  len ← length_of header;
  header_check ← checksum_calc header len;
  mret (if header_check =? 0 then header else 0).

Definition revision_of : aM Z := s ← get; rd 1 (rsdp s + 15).

Definition get_root_sdt_header : aM Z :=
  s ← get;
  if negb (rsdp s =? 0) then
    revision ← revision_of;
    if revision =? 2 then
      check ← checksum_calc (rsdp s + SIZEOF_RSDP1) (SIZEOF_RSDP2 - SIZEOF_RSDP1);
      if check =? 0 then
        xsdt_address ← rd 8 (rsdp s + 24);
        checked_table xsdt_address
      else mret 0
    else
      rsdt_address ← rd 4 (rsdp s + 16);
      checked_table rsdt_address
  else mret 0.

(** The comparison of the four bytes of the signature. *)
Fixpoint sig_correct (sig : list Z) (header : Z) : aM bool :=
  match sig with
  | [] => mret true
  | c :: sig' => b ← rd8 header; if b =? c then sig_correct sig' (header + 1) else mret false
  end.

(** One iteration of the search: [Some] is a return. *)
Definition try_table (sig : list Z) (phys : Z) : aM (option Z) :=
  if negb (phys =? 0) then
    header ← map_table phys;
    ok ← sig_correct sig header;
    if ok : bool then
      len ← length_of header;
      check ← checksum_calc header len;
      mret (if check =? 0 then Some header else None)
    else mret None
  else mret None.

(** Entry [i] of [size] bytes of the root table. *)
Fixpoint sdt_search_loop (n : nat) (size : nat) (root i : Z) (sig : list Z) : aM Z :=
  match n with
  | O => mret 0
  | S n' =>
      phys ← rd size (root + SIZEOF_SDT + Z.of_nat size * i);
      r ← try_table sig phys;
      match r with
      | Some header => mret header
      | None => sdt_search_loop n' size root (i + 1) sig
      end
  end.

Definition search_sdt_header (sig : list Z) : aM Z :=
  root ← get_root_sdt_header;
  s ← get;
  if negb (root =? 0) && negb (rsdp s =? 0) then
    revision ← revision_of;
    len ← length_of root;
    if revision =? 0 then sdt_search_loop (Z.to_nat (len / 4)) 4 root 0 sig
    else sdt_search_loop (Z.to_nat (len / 8)) 8 root 0 sig
  else mret 0.

Definition get_rsdp1 (bootloader_rsdp : Z) : aM Z :=
  let ret := u64 (bootloader_rsdp + KERNEL_VM_OFFSET) in
  map_range bootloader_rsdp ret 2 ;; mret ret.

Definition acpi_init (bootloader_rsdp : Z) : aM unit :=
  r ← get_rsdp1 bootloader_rsdp; modify (λ s, s <| rsdp := r |>).

(** ** The table of processors and interrupt controllers *)

Definition MADT_HEADER : Z := 44.

(** One entry, at [ent] behind its type and size. *)
Definition madt_entry (type ent : Z) : aM unit :=
  if type =? 0 then modify (λ s, s <| cpu_entries := cpu_entries s ++ [ent] |>)
  else if type =? 1 then
    modify (λ s, s <| ioapic_entries := ioapic_entries s ++ [ent] |>) ;;
    addr ← rd 4 (ent + 2);
    if negb (addr / PAGE =? u32 (addr + 32) / PAGE)
    then map_range addr (u64 (addr + KERNEL_VM_OFFSET)) 2
    else map_range addr (u64 (addr + KERNEL_VM_OFFSET)) 1
  else if type =? 2 then modify (λ s, s <| iso_entries := iso_entries s ++ [ent] |>)
  else if type =? 4 then modify (λ s, s <| nmi_entries := nmi_entries s ++ [ent] |>)
  else if type =? 5 then
    base ← rd 8 (ent + 2); modify (λ s, s <| lapic_base := base |>)
  else mret tt.

(** [for (e = 0; e < bytes; e++)], whose body moves [e] behind the entry. *)
Fixpoint madt_loop (n : nat) (entries e bytes : Z) : aM unit :=
  if e <? bytes then
    match n with
    | O => crashM Hang
    | S n' =>
        type ← rd8 (entries + e);
        size ← rd8 (entries + (e + 1));
        madt_entry type (entries + (e + 2)) ;;
        madt_loop n' entries (u64 (e + 2 + (size - 3) + 1)) bytes
    end
  else mret tt.

Definition map_lapic : aM unit :=
  s ← get;
  let base := lapic_base s in
  (if negb (base / PAGE =? u64 (base + 1024) / PAGE)
   then map_range base (u64 (base + KERNEL_VM_OFFSET)) 2
   else map_range base (u64 (base + KERNEL_VM_OFFSET)) 1) ;;
  modify (λ s, s <| lapic_base := u64 (lapic_base s + KERNEL_VM_OFFSET) |>).

Definition APIC_SIG : list Z := [65; 80; 73; 67].

Definition parse_madt : aM unit :=
  madt ← search_sdt_header APIC_SIG;
  if negb (madt =? 0) then
    modify (λ s, s <| cpu_entries := [] |> <| iso_entries := [] |> <| ioapic_entries := [] |> <| nmi_entries := [] |>) ;;
    len ← length_of madt;
    let bytes_for_entries := u64 (len - MADT_HEADER) in
    base ← rd 4 (madt + SIZEOF_SDT);
    modify (λ s, s <| lapic_base := base |>) ;;
    madt_loop (Z.to_nat bytes_for_entries) (madt + MADT_HEADER) 0 bytes_for_entries ;;
    map_lapic
  else mret tt.

(** ** The firmware's tables are found and read as they are laid out *)

(** ** Reading *)

(** The [n] bytes at [v], and that all of them are on mapped pages. *)
Definition bytes_at (m : Z → Z) (v : Z) (n : nat) : list Z := map m (seqZ v (Z.of_nat n)).
Definition word_at (m : Z → Z) (v : Z) (n : nat) : Z := le_word (bytes_at m v n).
Definition readable (s : acpi_st) (v n : Z) : Prop := ∀ i, v ≤ i < v + n → i / PAGE ∈ a_mapped s.
Definition sum_at (m : Z → Z) (v : Z) (n : nat) : Z := foldr Z.add 0 (bytes_at m v n).

(** Only more pages are mapped. *)
Record grown (s s' : acpi_st) : Prop := {
  g_rest : s' = s <| a_mapped := a_mapped s' |>;
  g_mapped : a_mapped s ⊆ a_mapped s'
}.

#[export] Instance grown_preorder : PreOrder grown.
Proof.
  split; [intros s; split; [by destruct s|done]|].
  intros s1 s2 s3 [R1 M1] [R2 M2]. split; [rewrite R2, R1; by destruct s1|set_solver].
Qed.

Lemma readable_grown s s' v n : grown s s' → readable s v n → readable s' v n.
Proof. intros [_ Hm] Hr i Hi. by apply Hm, Hr. Qed.

Lemma readable_sub s v n v' n' : readable s v n → v ≤ v' → v' + n' ≤ v + n → readable s v' n'.
Proof. intros Hr H1 H2 i Hi. apply Hr. lia. Qed.

Lemma grown_mem s s' : grown s s' → a_mem s' = a_mem s.
Proof. intros [-> _]. done. Qed.

Lemma seqZ_S v n : seqZ v (Z.of_nat (S n)) = v :: seqZ (v + 1) (Z.of_nat n).
Proof. rewrite seqZ_cons by lia. rewrite <- Z.add_1_r. do 2 f_equal. lia. Qed.

Lemma bytes_at_S m v n : bytes_at m v (S n) = m v :: bytes_at m (v + 1) n.
Proof. unfold bytes_at. rewrite seqZ_S. done. Qed.

Lemma rd8_ok s v : v / PAGE ∈ a_mapped s → rd8 v s = Ok (a_mem s v, s).
Proof. intros Hv. unfold rd8. mstep. by rewrite bool_decide_true. Qed.

Lemma rd_bytes_ok n : ∀ s v, readable s v (Z.of_nat n) → rd_bytes n v s = Ok (bytes_at (a_mem s) v n, s).
Proof.
  induction n as [|n IH]; intros s v Hr; [done|]. cbn [rd_bytes].
  mrun (rd8_ok s v (Hr v ltac:(lia))). assert (readable s (v + 1) (Z.of_nat n)) as Hr' by (apply (readable_sub _ _ _ _ _ Hr); lia).
  mrun (IH s (v + 1) Hr'). by rewrite bytes_at_S.
Qed.

Lemma rd_ok n s v : readable s v (Z.of_nat n) → rd n v s = Ok (word_at (a_mem s) v n, s).
Proof. intros Hr. unfold rd. by mrun (rd_bytes_ok n s v Hr). Qed.

Lemma checksum_loop_ok n : ∀ s v t, readable s v (Z.of_nat n) →
  ∃ r, checksum_loop n v t s = Ok (r, s) ∧ r mod 256 = (t + sum_at (a_mem s) v n) mod 256.
Proof.
  induction n as [|n IH]; intros s v t Hr; cbn [checksum_loop].
  - exists t. split; [done|]. unfold sum_at, bytes_at. cbn [Z.of_nat seqZ map foldr]. by rewrite Z.add_0_r.
  - mrun (rd8_ok s v (Hr v ltac:(lia))).
    destruct (IH s (v + 1) (u64 (t + a_mem s v))) as (r & E & Hm); [apply (readable_sub _ _ _ _ _ Hr); lia|].
    exists r. split; [exact E|]. rewrite Hm. unfold sum_at. rewrite bytes_at_S. cbn [foldr].
    unfold u64. rewrite <- (Zplus_mod_idemp_l (_ mod U64_MOD)). change U64_MOD with (256 * 72057594037927936).
    rewrite Z.rem_mul_r by lia. rewrite (Z.mul_comm 256), Z.mod_add, Zmod_mod, Zplus_mod_idemp_l by lia. f_equal. lia.
Qed.

Lemma checksum_ok n s v : readable s v n →
  checksum_calc v n s = Ok (sum_at (a_mem s) v (Z.to_nat n) mod 256, s).
Proof.
  intros Hr. unfold checksum_calc.
  destruct (checksum_loop_ok (Z.to_nat n) s v 0) as (r & E & Hm); [intros i Hi; apply Hr; lia|].
  mrun E. change 255 with (Z.ones 8). rewrite Z.land_ones by lia. change (2 ^ 8) with 256. by rewrite Hm.
Qed.

Lemma sig_ok sig : ∀ s h, readable s h (zlen sig) →
  sig_correct sig h s = Ok (bool_decide (bytes_at (a_mem s) h (length sig) = sig), s).
Proof.
  induction sig as [|c sig IH]; intros s h Hr; cbn [sig_correct length]; [done|].
  mrun (rd8_ok s h (Hr h ltac:(unfold zlen; cbn; lia))). rewrite bytes_at_S. destruct (a_mem s h =? c) eqn:E; zbool.
  - rewrite IH by (apply (readable_sub _ _ _ _ _ Hr); unfold zlen; cbn; lia). do 2 f_equal. subst.
    apply bool_decide_ext. split; [by intros ->|]. intros H. by injection H.
  - rewrite bool_decide_false; [done|]. intros H. injection H. lia.
Qed.

(** ** Tables *)

Definition header_at (phys : Z) : Z := phys + KERNEL_VM_OFFSET.
Definition table_length (m : Z → Z) (phys : Z) : Z := word_at m (header_at phys + 4) 4.

(** The length of a table can be read after its first page is mapped. *)
Definition locatable (phys : Z) : Prop := 0 ≤ phys ∧ header_at phys < U64_MOD ∧ header_at phys mod PAGE + 8 ≤ PAGE.
(** The pages that are mapped for a table hold all of it. *)
Definition contained (m : Z → Z) (phys : Z) : Prop :=
  header_at phys mod PAGE + table_length m phys ≤ PAGE * table_pages (table_length m phys).
Definition summed (m : Z → Z) (phys : Z) : Z := sum_at m (header_at phys) (Z.to_nat (table_length m phys)) mod 256.
Definition signed (m : Z → Z) (phys : Z) (sig : list Z) : Prop := bytes_at m (header_at phys) (length sig) = sig.
#[export] Instance signed_dec m phys sig : Decision (signed m phys sig).
Proof. unfold signed. apply _. Defined.

Lemma map_ok s phys virt count : 0 ≤ count →
  ∃ s', map_range phys virt count s = Ok (tt, s') ∧ grown s s' ∧ ∀ i, virt / PAGE ≤ i / PAGE < virt / PAGE + count → i / PAGE ∈ a_mapped s'.
Proof.
  intros Hc. eexists. split; [reflexivity|]. split; [split; [by destruct s|cbn; set_solver]|].
  intros i Hi. cbn. apply elem_of_union. left. apply elem_of_list_to_set, elem_of_seqZ. lia.
Qed.

Lemma map_table_ok s phys : locatable phys → 0 ≤ table_length (a_mem s) phys →
  ∃ s', map_table phys s = Ok (header_at phys, s') ∧ grown s s' ∧ readable s' (header_at phys) 8 ∧
    (contained (a_mem s) phys → readable s' (header_at phys) (table_length (a_mem s) phys)).
Proof.
  intros (H0 & Hu & Hp) Hl. unfold map_table. unfold header_at in Hu. rewrite u64_small by (unfold is_u64, KERNEL_VM_OFFSET in *; lia).
  fold (header_at phys). set (h := header_at phys) in *.
  destruct (map_ok s phys h 1 ltac:(lia)) as (s1 & E1 & G1 & R1). mrun E1.
  assert (readable s1 h 8) as Hr8 by (intros i Hi; apply R1; dlia).
  assert (length_of h s1 = Ok (table_length (a_mem s) phys, s1)) as El.
  { unfold length_of. rewrite rd_ok by (apply (readable_sub _ _ _ _ _ Hr8); lia). by rewrite (grown_mem _ _ G1). }
  mrun El. set (len := table_length (a_mem s) phys) in *.
  destruct (map_ok s1 phys h (table_pages len)) as (s2 & E2 & G2 & R2); [unfold table_pages; dlia|]. mrun E2.
  exists s2. split; [done|]. split; [by transitivity s1|]. split; [by apply (readable_grown s1)|].
  intros Hc i Hi. apply R2. unfold contained in Hc. fold h len in Hc. dlia.
Qed.

(** ** The search *)

(** A table that the search passes over: no table, another signature, or a
    wrong checksum. *)
Definition passed (m : Z → Z) (sig : list Z) (phys : Z) : Prop :=
  phys = 0 ∨ (locatable phys ∧ 0 ≤ table_length m phys ∧
    (¬ signed m phys sig ∨ (contained m phys ∧ summed m phys ≠ 0))).
(** The table the search is for. *)
Definition wanted (m : Z → Z) (sig : list Z) (phys : Z) : Prop :=
  phys ≠ 0 ∧ locatable phys ∧ 0 ≤ table_length m phys ∧ signed m phys sig ∧ contained m phys ∧ summed m phys = 0.

Lemma try_table_ok s sig phys : zlen sig = 4 → locatable phys → 0 ≤ table_length (a_mem s) phys → phys ≠ 0 →
  (signed (a_mem s) phys sig → contained (a_mem s) phys) →
  ∃ s', try_table sig phys s =
      Ok (if bool_decide (signed (a_mem s) phys sig) && (summed (a_mem s) phys =? 0) then Some (header_at phys) else None, s') ∧
    grown s s' ∧ (contained (a_mem s) phys → readable s' (header_at phys) (table_length (a_mem s) phys)) ∧
    readable s' (header_at phys) 8.
Proof.
  intros Hz Hloc Hl Hne Hcon. unfold try_table. rewrite (proj2 (Z.eqb_neq _ _) Hne). cbn [negb].
  destruct (map_table_ok s phys Hloc Hl) as (s1 & E1 & G1 & R8 & Rl). mrun E1. pose proof (grown_mem _ _ G1) as Em.
  assert (readable s1 (header_at phys) (zlen sig)) as Rs by (apply (readable_sub _ _ _ _ _ R8); lia).
  mrun (sig_ok sig s1 (header_at phys) Rs). rewrite Em. fold (signed (a_mem s) phys sig).
  destruct (bool_decide (signed (a_mem s) phys sig)) eqn:Es; [|by exists s1].
  apply bool_decide_eq_true in Es. specialize (Rl (Hcon Es)). cbn [andb].
  assert (length_of (header_at phys) s1 = Ok (table_length (a_mem s) phys, s1)) as El.
  { unfold length_of. rewrite rd_ok by (apply (readable_sub _ _ _ _ _ R8); lia). by rewrite Em. }
  mrun El. mrun (checksum_ok _ s1 _ Rl). rewrite Em. by exists s1.
Qed.

Lemma try_passed s sig phys : zlen sig = 4 → passed (a_mem s) sig phys →
  ∃ s', try_table sig phys s = Ok (None, s') ∧ grown s s'.
Proof.
  intros Hz [-> |(Hloc & Hl & Hp)]; [by exists s|].
  destruct (decide (phys = 0)) as [-> |Hne]; [by exists s|].
  destruct (try_table_ok s sig phys Hz Hloc Hl Hne) as (s' & E & G & _ & _); [intros Hs; by destruct Hp as [Hp|[Hp _]]|].
  exists s'. split; [|done]. rewrite E. do 2 f_equal. destruct Hp as [Hp|[_ Hp]].
  - by rewrite bool_decide_false.
  - rewrite (proj2 (Z.eqb_neq _ _) Hp). by rewrite andb_false_r.
Qed.

Lemma try_wanted s sig phys : zlen sig = 4 → wanted (a_mem s) sig phys →
  ∃ s', try_table sig phys s = Ok (Some (header_at phys), s') ∧ grown s s' ∧
    readable s' (header_at phys) (table_length (a_mem s) phys) ∧ readable s' (header_at phys) 8.
Proof.
  intros Hz (Hne & Hloc & Hl & Hs & Hc & Hsum).
  destruct (try_table_ok s sig phys Hz Hloc Hl Hne (λ _, Hc)) as (s' & E & G & Rl & R8).
  exists s'. rewrite E, bool_decide_true, Hsum by done. split_and!; auto.
Qed.

(** The entries of the root table from [i] on. *)
Definition entries_from (m : Z → Z) (root : Z) (size : nat) (i : Z) (es : list Z) : Prop :=
  ∀ k p, es !! k = Some p → word_at m (root + SIZEOF_SDT + Z.of_nat size * (i + Z.of_nat k)) size = p.

Lemma table_search_ok pre : ∀ s n size root i sig phys post,
  zlen sig = 4 → entries_from (a_mem s) root size i (pre ++ phys :: post) →
  readable s (root + SIZEOF_SDT + Z.of_nat size * i) (Z.of_nat size * (zlen pre + 1)) →
  (length pre < n)%nat → Forall (passed (a_mem s) sig) pre → wanted (a_mem s) sig phys →
  ∃ s', sdt_search_loop n size root i sig s = Ok (header_at phys, s') ∧ grown s s' ∧
    readable s' (header_at phys) (table_length (a_mem s) phys) ∧ readable s' (header_at phys) 8.
Proof.
  induction pre as [|p pre IH]; intros s n size root i sig phys post Hz He Hr Hn Hp Hw;
    (destruct n as [|n]; [cbn in Hn; lia|]); cbn [sdt_search_loop].
  - erewrite bind_ok; [|apply rd_ok; unfold zlen in Hr; cbn in Hr; apply (readable_sub _ _ _ _ _ Hr); lia]. cbv beta.
    replace (root + SIZEOF_SDT + Z.of_nat size * i) with (root + SIZEOF_SDT + Z.of_nat size * (i + Z.of_nat 0)) by lia.
    rewrite (He 0%nat phys eq_refl). destruct (try_wanted s sig phys Hz Hw) as (s' & E & H). mrun E. by exists s'.
  - assert (zlen (p :: pre) = zlen pre + 1) as Ez by (unfold zlen; cbn; lia). rewrite Ez in Hr. pose proof (zlen_nonneg pre).
    apply Forall_cons in Hp as [Hp0 Hp].
    erewrite bind_ok; [|apply rd_ok; apply (readable_sub _ _ _ _ _ Hr); nia]. cbv beta.
    replace (word_at (a_mem s) (root + SIZEOF_SDT + Z.of_nat size * i) size) with p.
    2: { symmetry. etrans; [|exact (He 0%nat p eq_refl)]. f_equal. lia. }
    destruct (try_passed s sig p Hz Hp0) as (s1 & E1 & G1). mrun E1. pose proof (grown_mem _ _ G1) as Em.
    destruct (IH s1 n size root (i + 1) sig phys post) as (s' & E & G & R & R8); rewrite ?Em; try done.
    + intros k q Hk. rewrite <- (He (S k) q Hk). f_equal. lia.
    + apply (readable_grown s); [done|]. apply (readable_sub _ _ _ _ _ Hr); nia.
    + cbn in Hn. lia.
    + exists s'. rewrite Em in R. split_and!; try done. by transitivity s1.
Qed.

(** Firmware as ACPI 2.0 lays it out: a descriptor that says so, with a good
    checksum, and a root table whose entries are [es]. *)
Record firmware_ok (s : acpi_st) (xsdt : Z) (es : list Z) : Prop := {
  fw_rsdp : rsdp s ≠ 0;
  fw_read : readable s (rsdp s) SIZEOF_RSDP2;
  fw_rev : word_at (a_mem s) (rsdp s + 15) 1 = 2;
  fw_sum : sum_at (a_mem s) (rsdp s + SIZEOF_RSDP1) 16 mod 256 = 0;
  fw_xsdt : word_at (a_mem s) (rsdp s + 24) 8 = xsdt;
  fw_loc : locatable xsdt;
  fw_con : contained (a_mem s) xsdt;
  fw_len : table_length (a_mem s) xsdt = SIZEOF_SDT + 8 * zlen es;
  fw_xsum : summed (a_mem s) xsdt = 0;
  fw_entries : entries_from (a_mem s) (header_at xsdt) 8 0 es
}.

Lemma root_ok s xsdt es : firmware_ok s xsdt es →
  ∃ s', get_root_sdt_header s = Ok (header_at xsdt, s') ∧ grown s s' ∧ readable s' (header_at xsdt) (table_length (a_mem s) xsdt).
Proof.
  intros [Hne Hr Hrev Hsum Hx Hloc Hcon Hlen Hxs _]. pose proof (zlen_nonneg es) as Hz. unfold get_root_sdt_header. mstep.
  rewrite (proj2 (Z.eqb_neq _ _) Hne). cbn [negb].
  assert (revision_of s = Ok (2, s)) as Er.
  { unfold revision_of. mstep. rewrite rd_ok by (apply (readable_sub _ _ _ _ _ Hr); unfold SIZEOF_RSDP2; lia). by rewrite Hrev. }
  mrun Er. cbn [Z.eqb Pos.eqb].
  assert (readable s (rsdp s + SIZEOF_RSDP1) (SIZEOF_RSDP2 - SIZEOF_RSDP1)) as R1
    by (apply (readable_sub _ _ _ _ _ Hr); unfold SIZEOF_RSDP1, SIZEOF_RSDP2; lia).
  mrun (checksum_ok _ s _ R1). change (Z.to_nat (SIZEOF_RSDP2 - SIZEOF_RSDP1)) with 16%nat. rewrite Hsum. cbn [Z.eqb].
  erewrite bind_ok; [|apply rd_ok; apply (readable_sub _ _ _ _ _ Hr); unfold SIZEOF_RSDP2; lia]. cbv beta. rewrite Hx.
  unfold checked_table. destruct (map_table_ok s xsdt Hloc) as (s1 & E1 & G1 & R8 & Rl); [unfold SIZEOF_SDT in *; lia|]. specialize (Rl Hcon).
  mrun E1. pose proof (grown_mem _ _ G1) as Em.
  assert (length_of (header_at xsdt) s1 = Ok (table_length (a_mem s) xsdt, s1)) as El.
  { unfold length_of. rewrite rd_ok by (apply (readable_sub _ _ _ _ _ R8); lia). by rewrite Em. }
  mrun El. mrun (checksum_ok _ s1 _ Rl). rewrite Em. fold (summed (a_mem s) xsdt). rewrite Hxs. by exists s1.
Qed.

Lemma header_nonzero phys : locatable phys → header_at phys ≠ 0.
Proof. intros (H & _). unfold header_at, KERNEL_VM_OFFSET. lia. Qed.

Lemma search_ok s xsdt sig pre phys post :
  zlen sig = 4 → firmware_ok s xsdt (pre ++ phys :: post) → Forall (passed (a_mem s) sig) pre → wanted (a_mem s) sig phys →
  ∃ s', search_sdt_header sig s = Ok (header_at phys, s') ∧ grown s s' ∧
    readable s' (header_at phys) (table_length (a_mem s) phys) ∧ readable s' (header_at phys) 8.
Proof.
  intros Hz Hf Hp Hw. destruct (root_ok _ _ _ Hf) as (s1 & E1 & G1 & R1). pose proof Hf as [Hne Hr Hrev _ _ Hloc _ Hlen _ Hes].
  pose proof (grown_mem _ _ G1) as Em. assert (rsdp s1 = rsdp s) as Ers by (by rewrite (g_rest _ _ G1)).
  assert (zlen (pre ++ phys :: post) = zlen pre + 1 + zlen post) as Ezl by (unfold zlen; rewrite length_app; cbn; lia).
  pose proof (zlen_nonneg pre). pose proof (zlen_nonneg post).
  unfold search_sdt_header. mrun E1. mstep. rewrite Ers, (proj2 (Z.eqb_neq _ _) Hne), (proj2 (Z.eqb_neq _ _) (header_nonzero _ Hloc)). cbn [negb andb].
  assert (revision_of s1 = Ok (2, s1)) as Er.
  { unfold revision_of. mstep. rewrite Ers, rd_ok.
    - by rewrite Em, Hrev.
    - apply (readable_grown s); [done|]. apply (readable_sub _ _ _ _ _ Hr); unfold SIZEOF_RSDP2; lia. }
  mrun Er. assert (length_of (header_at xsdt) s1 = Ok (table_length (a_mem s) xsdt, s1)) as El.
  { unfold length_of. rewrite rd_ok by (apply (readable_sub _ _ _ _ _ R1); unfold SIZEOF_SDT in *; lia). by rewrite Em. }
  mrun El. cbn [Z.eqb Pos.eqb].
  destruct (table_search_ok pre s1 (Z.to_nat (table_length (a_mem s) xsdt / 8)) 8 (header_at xsdt) 0 sig phys post)
    as (s' & E & G & R & R8); rewrite ?Em; try done.
  - apply (readable_sub _ _ _ _ _ R1); unfold SIZEOF_SDT in *; lia.
  - unfold zlen in *. unfold SIZEOF_SDT in *. dlia.
  - exists s'. rewrite Em in R. split_and!; try done. by transitivity s1.
Qed.

(** ** The entries of the MADT *)

(** An entry is its type, its size and its fields. *)
Definition entry_bytes (e : Z * list Z) : list Z := e.1 :: zlen e.2 + 2 :: e.2.
Definition madt_bytes (es : list (Z * list Z)) : list Z := concat (map entry_bytes es).

Definition IOAPIC_ADDR (e : Z * list Z) : Z := fld 2 4 e.2.
Definition LAPIC_OVERRIDE (e : Z * list Z) : Z := fld 2 8 e.2.

Record entry_ok (e : Z * list Z) : Prop := {
  e_size : zlen e.2 + 2 < 256;
  e_ioapic : e.1 = 1 → 6 ≤ zlen e.2 ∧ 0 ≤ IOAPIC_ADDR e ∧ IOAPIC_ADDR e + 32 < U32_MOD;
  e_lapic : e.1 = 5 → 10 ≤ zlen e.2
}.

(** Where the fields of each entry are, with its type. *)
Fixpoint places (a : Z) (es : list (Z * list Z)) : list (Z * Z) :=
  match es with
  | [] => []
  | e :: es' => (e.1, a + 2) :: places (a + zlen (entry_bytes e)) es'
  end.
Definition of_type (t a : Z) (es : list (Z * list Z)) : list Z :=
  map snd (filter (λ p : Z * Z, p.1 = t) (places a es)).

Definition override (base : Z) (es : list (Z * list Z)) : Z :=
  foldl (λ b e, if e.1 =? 5 then LAPIC_OVERRIDE e else b) base es.

(** The state after some entries. *)
Record parsed (s s' : acpi_st) (a : Z) (es : list (Z * list Z)) : Prop := {
  pa_mem : a_mem s' = a_mem s;
  pa_rsdp : rsdp s' = rsdp s;
  pa_mapped : a_mapped s ⊆ a_mapped s';
  pa_cpus : cpu_entries s' = cpu_entries s ++ of_type 0 a es;
  pa_ioapics : ioapic_entries s' = ioapic_entries s ++ of_type 1 a es;
  pa_isos : iso_entries s' = iso_entries s ++ of_type 2 a es;
  pa_nmis : nmi_entries s' = nmi_entries s ++ of_type 4 a es;
  pa_lapic : lapic_base s' = override (lapic_base s) es;
  pa_regs : ∀ e, e ∈ es → e.1 = 1 → readable s' (header_at (IOAPIC_ADDR e)) 32
}.

Lemma bytes_at_length m v n : length (bytes_at m v n) = n.
Proof. unfold bytes_at. rewrite length_map, length_seqZ. lia. Qed.

Lemma bytes_at_idx m v n i : 0 ≤ i < Z.of_nat n → idx (bytes_at m v n) i = Some (m (v + i)).
Proof.
  intros Hi. unfold idx, bytes_at. rewrite (proj2 (Z.leb_le _ _)) by lia. change (map ?f ?l) with (f <$> l).
  rewrite list_lookup_fmap, lookup_seqZ_lt by lia. cbn. do 2 f_equal. lia.
Qed.

Lemma bytes_at_slice m v n off k : 0 ≤ off → off + Z.of_nat k ≤ Z.of_nat n →
  slice (bytes_at m v n) off (Z.of_nat k) = bytes_at m (v + off) k.
Proof.
  intros Ho Hk. assert (zlen (bytes_at m v n) = Z.of_nat n) as Hz by (unfold zlen; by rewrite bytes_at_length).
  apply idx_ext; [rewrite zlen_slice by lia; unfold zlen; by rewrite bytes_at_length|].
  intros i Hi. rewrite zlen_slice in Hi by lia. rewrite idx_slice by lia. rewrite !bytes_at_idx by lia. do 2 f_equal. lia.
Qed.

(** The bytes of consecutive entries. *)
Lemma bytes_at_app m v l1 l2 : bytes_at m v (length (l1 ++ l2)) = l1 ++ l2 →
  bytes_at m v (length l1) = l1 ∧ bytes_at m (v + zlen l1) (length l2) = l2.
Proof.
  intros H. split.
  - pose proof (bytes_at_slice m v (length (l1 ++ l2)) 0 (length l1)) as E. rewrite Z.add_0_r, H in E.
    rewrite <- E by (rewrite ?length_app; lia). unfold slice. rewrite Nat2Z.id. change (drop (Z.to_nat 0) ?l) with l. apply take_app_length.
  - pose proof (bytes_at_slice m v (length (l1 ++ l2)) (zlen l1) (length l2)) as E. rewrite H in E.
    rewrite <- E by (unfold zlen; rewrite ?length_app; lia). unfold slice, zlen. rewrite !Nat2Z.id, drop_app_length. by apply take_ge.
Qed.

Lemma entry_length e : zlen (entry_bytes e) = zlen e.2 + 2.
Proof. unfold zlen, entry_bytes. cbn [length]. lia. Qed.

(** A field of an entry, read from memory. *)
Lemma entry_fld m v (e : Z * list Z) off n : bytes_at m v (length (entry_bytes e)) = entry_bytes e →
  0 ≤ off → off + Z.of_nat n ≤ zlen e.2 → word_at m (v + 2 + off) n = fld off (Z.of_nat n) e.2.
Proof.
  intros H Ho Hn. unfold word_at, fld. f_equal. change (entry_bytes e) with ([e.1; zlen e.2 + 2] ++ e.2) in H.
  apply bytes_at_app in H as [_ H]. change (zlen [e.1; zlen e.2 + 2]) with 2 in H.
  rewrite <- (bytes_at_slice m (v + 2) (length e.2) off n) by (unfold zlen in Hn; lia). by rewrite H.
Qed.

Lemma entry_head m v e : bytes_at m v (length (entry_bytes e)) = entry_bytes e → m v = e.1 ∧ m (v + 1) = zlen e.2 + 2.
Proof. unfold entry_bytes. cbn [length]. rewrite !bytes_at_S. intros H. injection H as H1 H2 _. done. Qed.

(** One entry. *)
Lemma madt_entry_ok s v e : entry_ok e → bytes_at (a_mem s) v (length (entry_bytes e)) = entry_bytes e →
  readable s v (zlen (entry_bytes e)) →
  ∃ s', madt_entry e.1 (v + 2) s = Ok (tt, s') ∧ parsed s s' v [e].
Proof.
  intros [Hsz Hio Hla] Hb Hr. rewrite entry_length in Hr. unfold madt_entry, of_type in *.
  destruct (Z.eqb_spec e.1 0) as [E0|N0].
  { eexists. split; [reflexivity|]. split; cbn; rewrite ?E0, ?app_nil_r; try done. intros e' ->%list_elem_of_singleton E1. lia. }
  destruct (Z.eqb_spec e.1 1) as [E1|N1].
  - specialize (Hio E1) as (H6 & Ha0 & Ha). mstep. set (s1 := s <| ioapic_entries := _ |>).
    assert (rd 4 (v + 2 + 2) s1 = Ok (IOAPIC_ADDR e, s1)) as Er.
    { rewrite rd_ok; [by rewrite (entry_fld (a_mem s1) v e 2 4 Hb) by lia|].
      intros i Hi. apply Hr. lia. }
    mrun Er. set (A := IOAPIC_ADDR e) in *.
    assert (u64 (A + KERNEL_VM_OFFSET) = header_at A) as Eu by (unfold header_at; apply u64_small; unfold is_u64, KERNEL_VM_OFFSET; lia).
    assert (u32 (A + 32) = A + 32) as E32 by (apply Z.mod_small; lia). rewrite Eu, E32.
    assert (∃ s', (if negb (A / PAGE =? (A + 32) / PAGE) then map_range A (header_at A) 2 else map_range A (header_at A) 1) s1 = Ok (tt, s') ∧
      grown s1 s' ∧ readable s' (header_at A) 32) as (s' & E & [G1 G2] & R).
    { destruct (A / PAGE =? (A + 32) / PAGE) eqn:Ep; zbool; cbn [negb].
      - destruct (map_ok s1 A (header_at A) 1 ltac:(lia)) as (s' & E & G & R). exists s'. split_and!; [done|done|].
        intros i Hi. apply R. unfold header_at, KERNEL_VM_OFFSET in *. dlia.
      - destruct (map_ok s1 A (header_at A) 2 ltac:(lia)) as (s' & E & G & R). exists s'. split_and!; [done|done|].
        intros i Hi. apply R. unfold header_at, KERNEL_VM_OFFSET in *. dlia. }
    exists s'. split; [exact E|]. rewrite G1. split; cbn; rewrite ?E1, ?app_nil_r; try done.
    intros e' ->%list_elem_of_singleton _ i Hi. cbn. by apply R.
  - destruct (Z.eqb_spec e.1 2) as [E2|N2].
    { eexists. split; [reflexivity|]. split; cbn; rewrite ?E2, ?app_nil_r; try done. intros e' ->%list_elem_of_singleton ?. lia. }
    destruct (Z.eqb_spec e.1 4) as [E4|N4].
    { eexists. split; [reflexivity|]. split; cbn; rewrite ?E4, ?app_nil_r; try done. intros e' ->%list_elem_of_singleton ?. lia. }
    destruct (Z.eqb_spec e.1 5) as [E5|N5].
    + erewrite bind_ok; [|apply rd_ok; intros i Hi; apply Hr; specialize (Hla E5); lia]. cbv beta.
      rewrite (entry_fld (a_mem s) v e 2 8 Hb) by (specialize (Hla E5); lia).
      eexists. split; [reflexivity|]. split; cbn; rewrite ?E5, ?app_nil_r; try done. intros e' ->%list_elem_of_singleton ?. lia.
    + exists s. split; [done|]. split; cbn; rewrite ?app_nil_r; try done.
      all: try (rewrite decide_False by done; cbn; by rewrite app_nil_r).
      * by rewrite (proj2 (Z.eqb_neq _ _) N5).
      * intros e' ->%list_elem_of_singleton ?. lia.
Qed.


Lemma parsed_nil s a : parsed s s a [].
Proof. split; cbn; rewrite ?app_nil_r; try done. intros e He. by apply not_elem_of_nil in He. Qed.

Lemma parsed_cons s s1 s2 a e es :
  parsed s s1 a [e] → parsed s1 s2 (a + zlen (entry_bytes e)) es → parsed s s2 a (e :: es).
Proof.
  intros [M1 R1 P1 C1 I1 S1 N1 L1 G1] [M2 R2 P2 C2 I2 S2 N2 L2 G2].
  assert (∀ t, of_type t a (e :: es) = of_type t a [e] ++ of_type t (a + zlen (entry_bytes e)) es) as Hof.
  { intros t. unfold of_type. cbn [places]. rewrite <- map_app, <- filter_app. done. }
  split; rewrite ?Hof.
  - congruence.
  - congruence.
  - set_solver.
  - by rewrite C2, C1, app_assoc.
  - by rewrite I2, I1, app_assoc.
  - by rewrite S2, S1, app_assoc.
  - by rewrite N2, N1, app_assoc.
  - rewrite L2, L1. done.
  - intros e' He' E1. apply elem_of_cons in He' as [-> |He'].
    + intros i Hi. apply P2. apply (G1 e); [by apply list_elem_of_singleton|done|done].
    + by apply G2.
Qed.

Lemma madt_loop_ok es : ∀ s n A e bytes, Forall entry_ok es →
  bytes_at (a_mem s) (A + e) (length (madt_bytes es)) = madt_bytes es →
  readable s (A + e) (zlen (madt_bytes es)) → bytes = e + zlen (madt_bytes es) → 0 ≤ e → bytes < U64_MOD →
  (length es ≤ n)%nat →
  ∃ s', madt_loop n A e bytes s = Ok (tt, s') ∧ parsed s s' (A + e) es.
Proof.
  induction es as [|en es IH]; intros s n A e bytes Hok Hb Hr Hbytes He Hu Hn.
  - exists s. split; [|apply parsed_nil]. change (zlen (madt_bytes [])) with 0 in Hbytes.
    destruct n; cbn [madt_loop]; by rewrite (proj2 (Z.ltb_ge _ _)) by lia.
  - apply Forall_cons in Hok as [Hen Hok]. change (madt_bytes (en :: es)) with (entry_bytes en ++ madt_bytes es) in *.
    assert (zlen (entry_bytes en ++ madt_bytes es) = zlen (entry_bytes en) + zlen (madt_bytes es)) as Ez
      by (unfold zlen; rewrite length_app; lia).
    rewrite Ez in *. pose proof (zlen_nonneg (madt_bytes es)). pose proof (zlen_nonneg en.2). pose proof (entry_length en) as El.
    apply bytes_at_app in Hb as [Hb1 Hb2]. destruct (entry_head _ _ _ Hb1) as [Ht Hs].
    destruct n as [|n]; [cbn in Hn; lia|]. cbn [madt_loop]. rewrite (proj2 (Z.ltb_lt _ _)) by lia.
    erewrite bind_ok; [|apply rd8_ok, Hr; lia]. cbv beta. replace (A + (e + 1)) with (A + e + 1) by lia.
    erewrite bind_ok; [|apply rd8_ok, Hr; lia]. cbv beta. rewrite Ht, Hs. replace (A + (e + 2)) with (A + e + 2) by lia.
    destruct (madt_entry_ok s (A + e) en Hen Hb1) as (s1 & E1 & P1); [apply (readable_sub _ _ _ _ _ Hr); lia|]. mrun E1.
    replace (e + 2 + (zlen en.2 + 2 - 3) + 1) with (e + zlen (entry_bytes en)) by lia. rewrite u64_small by (unfold is_u64; lia).
    destruct (IH s1 n A (e + zlen (entry_bytes en)) bytes) as (s' & E & P); try done.
    + rewrite (pa_mem _ _ _ _ P1). replace (A + (e + zlen (entry_bytes en))) with (A + e + zlen (entry_bytes en)) by lia. exact Hb2.
    + intros i Hi. apply (pa_mapped _ _ _ _ P1), Hr. lia.
    + lia.
    + lia.
    + cbn in Hn. lia.
    + exists s'. split; [exact E|]. apply (parsed_cons s s1); [done|]. by rewrite Z.add_assoc in P.
Qed.

Lemma madt_bytes_length es : (length es ≤ length (madt_bytes es))%nat.
Proof. induction es as [|e es IH]; [done|]. unfold madt_bytes in *. cbn. rewrite length_app. lia. Qed.

(** C36: On a machine whose firmware follows ACPI 2.0 and, which ACPI does not ask for, lets no header and no
    table straddle a page ([contained], [locatable] in [firmware_ok] and [wanted]; on one that does
    the code faults, [straddling_table_faults]), the table of interrupt
    controllers is found behind the root table's earlier entries (other
    signatures, empty entries, bad checksums), and parsing it ends with every
    processor, I/O APIC, interrupt override and NMI entry listed, in order and
    at the address of its fields, unknown entries skipped.  The local APIC's
    address is the last override, or else the one in the table, in the kernel's map;
    its registers and those of every I/O APIC are mapped.  No memory is
    written, and no page is read that was not mapped before. *)
Theorem parse_madt_correct s xsdt pre phys post es :
  let m := a_mem s in
  let base := override (word_at m (header_at phys + SIZEOF_SDT) 4) es in
  firmware_ok s xsdt (pre ++ phys :: post) → Forall (passed m APIC_SIG) pre → wanted m APIC_SIG phys →
  table_length m phys = MADT_HEADER + zlen (madt_bytes es) → table_length m phys < U32_MOD → Forall entry_ok es →
  bytes_at m (header_at phys + MADT_HEADER) (length (madt_bytes es)) = madt_bytes es →
  0 ≤ base → header_at base + 1024 < U64_MOD →
  ∃ s', parse_madt s = Ok (tt, s') ∧ a_mem s' = m ∧
    cpu_entries s' = of_type 0 (header_at phys + MADT_HEADER) es ∧
    ioapic_entries s' = of_type 1 (header_at phys + MADT_HEADER) es ∧
    iso_entries s' = of_type 2 (header_at phys + MADT_HEADER) es ∧
    nmi_entries s' = of_type 4 (header_at phys + MADT_HEADER) es ∧
    lapic_base s' = header_at base ∧ readable s' (lapic_base s') 1024 ∧
    (∀ e, e ∈ es → e.1 = 1 → readable s' (header_at (IOAPIC_ADDR e)) 32).
Proof.
  intros m base Hf Hp Hw Hlen Hl32 Hes Hb Hb0 Hbu.
  destruct (search_ok s xsdt APIC_SIG pre phys post eq_refl Hf Hp Hw) as (s1 & E1 & G1 & R1 & R8).
  pose proof (grown_mem _ _ G1) as Em. fold m in Em, R1. pose proof (zlen_nonneg (madt_bytes es)) as Hz0.
  unfold parse_madt. mrun E1. destruct Hw as (_ & Hloc & _). rewrite (proj2 (Z.eqb_neq _ _) (header_nonzero _ Hloc)). cbn [negb].
  mstep. set (s2 := s1 <| cpu_entries := [] |> <| iso_entries := [] |> <| ioapic_entries := [] |> <| nmi_entries := [] |>).
  set (H := header_at phys) in *. unfold MADT_HEADER in *.
  assert (length_of H s2 = Ok (table_length m phys, s2)) as El.
  { unfold length_of. rewrite rd_ok by (intros i Hi; apply R8; lia). change (a_mem s2) with (a_mem s1). by rewrite Em. }
  mrun El. rewrite Hlen. replace (44 + zlen (madt_bytes es) - 44) with (zlen (madt_bytes es)) by lia.
  rewrite u64_small by (unfold is_u64; lia).
  erewrite bind_ok; [|apply rd_ok; intros i Hi; apply R1; unfold SIZEOF_SDT in *; lia]. cbv beta. change (a_mem s2) with (a_mem s1). rewrite Em.
  mstep. set (s3 := s2 <| lapic_base := _ |>).
  destruct (madt_loop_ok es s3 (Z.to_nat (zlen (madt_bytes es))) (H + 44) 0 (zlen (madt_bytes es))) as (s4 & E4 & P4); try done.
  { change (a_mem s3) with (a_mem s1). by rewrite Em, Z.add_0_r. }
  { rewrite Z.add_0_r. intros i Hi. apply R1. lia. }
  { lia. }
  { pose proof (madt_bytes_length es). unfold zlen. lia. }
  mrun E4. rewrite Z.add_0_r in P4. destruct P4 as [M4 _ P4 C4 I4 S4 N4 L4 G4]. change (lapic_base s3) with (word_at m (H + SIZEOF_SDT) 4) in L4.
  fold base in L4. unfold map_lapic. mstep. rewrite L4.
  assert (u64 (base + KERNEL_VM_OFFSET) = header_at base) as Eu
    by (unfold header_at; apply u64_small; unfold is_u64, header_at, KERNEL_VM_OFFSET in *; lia).
  assert (u64 (base + 1024) = base + 1024) as E10 by (apply u64_small; unfold is_u64, header_at, KERNEL_VM_OFFSET in *; lia).
  rewrite Eu, E10.
  assert (∃ s5, (if negb (base / PAGE =? (base + 1024) / PAGE) then map_range base (header_at base) 2 else map_range base (header_at base) 1) s4 = Ok (tt, s5) ∧
    grown s4 s5 ∧ readable s5 (header_at base) 1024) as (s5 & E5 & [G5 P5] & R5).
  { destruct (base / PAGE =? (base + 1024) / PAGE) eqn:Ep; zbool; cbn [negb].
    - destruct (map_ok s4 base (header_at base) 1 ltac:(lia)) as (s' & E & G & R). exists s'. split_and!; [done|done|].
      intros i Hi. apply R. unfold header_at, KERNEL_VM_OFFSET in *. dlia.
    - destruct (map_ok s4 base (header_at base) 2 ltac:(lia)) as (s' & E & G & R). exists s'. split_and!; [done|done|].
      intros i Hi. apply R. unfold header_at, KERNEL_VM_OFFSET in *. dlia. }
  mrun E5. unfold modify. eexists. split; [reflexivity|].
  assert (lapic_base s5 = base) as L5 by (by rewrite G5). cbn. rewrite L5, Eu.
  pose proof (f_equal a_mem G5) as F1. pose proof (f_equal cpu_entries G5) as F2. pose proof (f_equal ioapic_entries G5) as F3.
  pose proof (f_equal iso_entries G5) as F4. pose proof (f_equal nmi_entries G5) as F5. cbn in F1, F2, F3, F4, F5.
  rewrite F1, F2, F3, F4, F5, M4, C4, I4, S4, N4. split_and!; try done.
  intros e He E1' i Hi. cbn. apply P5, (G4 e He E1'), Hi.
Qed.

(** ** What goes wrong, and a witness *)

(** Memory that is zero but for the given physical bytes, with its first page mapped. *)
Definition firmware (l : list (Z * Z)) : acpi_st :=
  mk_acpi (λ v, default 0 ((list_to_map l : gmap Z Z) !! (v - KERNEL_VM_OFFSET))) {[KERNEL_VM_OFFSET / PAGE]}
    KERNEL_VM_OFFSET 0 [] [] [] [].

(** A root table with no entries, and bytes behind it that name a table. *)
Definition overread_firmware : acpi_st :=
  firmware [(15, 2); (24, 64); (32, 192); (68, 36); (73, 220); (100, 160);
            (160, 90); (161, 90); (162, 90); (163, 90); (164, 36); (169, 116)].

(** The search takes the length of the whole root table for that of its entries:
    it finds a table the root table does not list. *)
Lemma search_reads_past_table :
  match search_sdt_header [90; 90; 90; 90] overread_firmware with
  | Ok (h, _) => h = KERNEL_VM_OFFSET + 160
  | Crash _ => False
  end.
Proof. vm_compute. reflexivity. Qed.

(** The pages of a table are counted from its length alone: one that does not
    start at the beginning of a page is not mapped to its end. *)
Lemma straddling_table_faults :
  match checked_table 8000 (firmware [(8004, 200)]) with
  | Ok _ => False
  | Crash c => c = Fault
  end.
Proof. vm_compute. reflexivity. Qed.

(** An entry of size 0 is parsed for ever, whatever time it is given. *)
Lemma madt_empty_entry_hangs n s A bytes :
  0 < bytes → readable s A 2 → a_mem s A = 9 → a_mem s (A + 1) = 0 → madt_loop n A 0 bytes s = Crash Hang.
Proof.
  intros Hb Hr Ht Hs. induction n as [|n IH]; cbn [madt_loop]; rewrite (proj2 (Z.ltb_lt _ _)) by lia; [done|].
  erewrite bind_ok; [|apply rd8_ok, Hr; lia]. cbv beta. rewrite Z.add_0_r, Ht.
  erewrite bind_ok; [|apply rd8_ok, Hr; lia]. cbv beta. change (A + (0 + 1)) with (A + 1). rewrite Hs.
  erewrite bind_ok; [|reflexivity]. exact IH.
Qed.

(** One processor and one I/O APIC. *)
Definition demo_madt : list (Z * list Z) := [(0, [0; 0; 1; 0; 0; 0]); (1, [2; 0; 0; 0; 192; 254; 0; 0; 0; 0])].
Definition demo_firmware : acpi_st :=
  firmware ([(15, 2); (24, 64); (32, 192); (68, 44); (73, 52); (100, 160);
             (160, 65); (161, 80); (162, 73); (163, 67); (164, 64); (169, 239); (198, 224); (199, 254)]
            ++ zip (seqZ 204 20) (madt_bytes demo_madt)).

Lemma demo_firmware_ok : firmware_ok demo_firmware 64 [160].
Proof.
  split.
  - done.
  - intros i Hi. cbn in *. apply elem_of_singleton. unfold KERNEL_VM_OFFSET, SIZEOF_RSDP2 in *. dlia.
  - vm_compute. reflexivity.
  - vm_compute. reflexivity.
  - vm_compute. reflexivity.
  - unfold locatable, header_at, KERNEL_VM_OFFSET. dlia.
  - unfold contained. vm_compute. congruence.
  - vm_compute. reflexivity.
  - vm_compute. reflexivity.
  - intros k p Hk. destruct k as [|k]; [|done]. injection Hk as <-. vm_compute. reflexivity.
Qed.

Lemma parse_madt_correct_witness :
  ∃ s', parse_madt demo_firmware = Ok (tt, s') ∧ cpu_entries s' = [KERNEL_VM_OFFSET + 206] ∧
    ioapic_entries s' = [KERNEL_VM_OFFSET + 214] ∧ lapic_base s' = KERNEL_VM_OFFSET + 4276092928.
Proof.
  destruct (parse_madt_correct demo_firmware 64 [] 160 [] demo_madt) as (s' & E & _ & Hc & Hi & _ & _ & Hl & _).
  - exact demo_firmware_ok.
  - constructor.
  - split; [done|]. split; [unfold locatable, header_at, KERNEL_VM_OFFSET; dlia|].
    split; [vm_compute; congruence|]. split; [vm_compute; reflexivity|].
    split; [unfold contained; vm_compute; congruence|]. vm_compute. reflexivity.
  - vm_compute. reflexivity.
  - vm_compute. reflexivity.
  - apply Forall_cons. split; [split; [vm_compute; reflexivity|done|done]|]. apply Forall_singleton.
    split; [vm_compute; reflexivity| |done]. intros _. vm_compute. split_and!; congruence || reflexivity.
  - vm_compute. reflexivity.
  - vm_compute. congruence.
  - vm_compute. reflexivity.
  - exists s'. split; [exact E|]. split; [exact Hc|]. split; [exact Hi|]. rewrite Hl. vm_compute. reflexivity.
Defined.
