(* ===== verification/Apic.v ===== *)
(** * Interrupt controllers (sys/apic.c)

    An I/O APIC has two memory-mapped registers: one selects an internal
    register, the other reads or writes it.  The devices are the class
    [IoApics]; what the code relies on is [IoApicLaws], which is what the
    I/O APIC's documentation says of selecting, of the registers that exist and of the bits of
    the redirection table that software sets; of the reserved and read-only bits nothing is assumed.  The entries of the MADT that
    [parse_madt] found are records.  [out] is the sequence of writes to I/O
    ports; the base register of the local APIC and its register 0xF0 are fields. *)

From S2P Require Import Prelude Bytes Acpi.

Class IoApics (D : Type) := {
  mmio_read : Z → D → Z;
  mmio_write : Z → Z → D → D
}.

Record madt_ent1_t : Type := mk_ioapic { ioapic_id : Z; ioapic_addr : Z; gsi_base : Z }.
Record madt_ent2_t : Type := mk_iso { bus_src : Z; irq_src : Z; iso_gsi : Z; iso_flags : Z }.

Record apic_st (D : Type) : Type := mk_apic {
  dev : D;
  ioapics : list madt_ent1_t;
  isos : list madt_ent2_t;
  out : list (Z * Z);
  apic_base_msr : Z;
  lapic_spurious : Z
}.
Arguments mk_apic {D} _ _ _ _ _ _.
Arguments dev {D} _.
Arguments ioapics {D} _.
Arguments isos {D} _.
Arguments out {D} _.
Arguments apic_base_msr {D} _.
Arguments lapic_spurious {D} _.
#[export] Instance eta_apic_st D : Eta (apic_st D) :=
  λ r, mk_apic (dev r) (ioapics r) (isos r) (out r) (apic_base_msr r) (lapic_spurious r).

Definition REDIRECT_TABLE_BAD_READ : Z := 18446744073709551615.

Section apic.
Context {D : Type} `{IoApics D}.
Abbreviation cM := (stM (apic_st D)).

Definition mmio_ld (a : Z) : cM Z := gets (λ s, mmio_read a (dev s)).
Definition mmio_st (a v : Z) : cM unit := modify (λ s, s <| dev := mmio_write a v (dev s) |>).

Definition ioapic_read (ioapic_base reg : Z) : cM Z :=
  mmio_st (ioapic_base + KERNEL_VM_OFFSET) reg ;;
  mmio_ld (ioapic_base + 16 + KERNEL_VM_OFFSET).

Definition ioapic_write (ioapic_base reg data : Z) : cM unit :=
  mmio_st (ioapic_base + KERNEL_VM_OFFSET) reg ;;
  mmio_st (ioapic_base + 16 + KERNEL_VM_OFFSET) data.

Definition apic_get_gsi_max (ioapic_base : Z) : cM Z :=
  data ← ioapic_read ioapic_base 1;
  mret (Z.land (u8 (Z.shiftr data 16)) 127).

(** The loop that looks for the I/O APIC of an interrupt: the last one that has it. *)
Fixpoint find_ioapic (l : list madt_ent1_t) (gsi : Z) (valid : option madt_ent1_t) : cM (option madt_ent1_t) :=
  match l with
  | [] => mret valid
  | a :: l' =>
      m ← apic_get_gsi_max (ioapic_addr a);
      let gsi_max := u32 (m + gsi_base a) in
      find_ioapic l' gsi (if (gsi_base a <=? gsi) && (gsi <=? gsi_max) then Some a else valid)
  end.

Definition redirection_reg (a : madt_ent1_t) (gsi : Z) : Z := u32 ((gsi - gsi_base a) * 2 + 16).

Definition apic_write_redirection_table (gsi data : Z) : cM Z :=
  s ← get;
  valid ← find_ioapic (ioapics s) gsi None;
  match valid with
  | None => mret 1
  | Some a =>
      let reg := redirection_reg a gsi in
      ioapic_write (ioapic_addr a) (u32 (reg + 0)) (u32 data) ;;
      ioapic_write (ioapic_addr a) (u32 (reg + 1)) (u32 (Z.shiftr data 32)) ;;
      mret 0
  end.

Definition apic_read_redirection_table (gsi : Z) : cM Z :=
  s ← get;
  valid ← find_ioapic (ioapics s) gsi None;
  match valid with
  | None => mret REDIRECT_TABLE_BAD_READ
  | Some a =>
      let reg := redirection_reg a gsi in
      lo ← ioapic_read (ioapic_addr a) (u32 (reg + 0));
      hi ← ioapic_read (ioapic_addr a) (u32 (reg + 1));
      mret (Z.lor lo (u64 (Z.shiftl hi 32)))
  end.

Definition mask_gsi (gsi : Z) : cM unit :=
  current_data ← apic_read_redirection_table gsi;
  if current_data =? REDIRECT_TABLE_BAD_READ then mret tt
  else apic_write_redirection_table gsi (Z.lor current_data (Z.shiftl 1 16)) ;; mret tt.

(** The entry [redirect_gsi] writes. *)
Definition redirection (irq flags apic : Z) : Z :=
  let redirect := irq + 32 in
  let redirect := if negb (Z.land flags 2 =? 0) then Z.lor redirect (Z.shiftl 1 13) else redirect in
  let redirect := if negb (Z.land flags 8 =? 0) then Z.lor redirect (Z.shiftl 1 15) else redirect in
  Z.lor redirect (Z.shiftl apic 56).

Definition redirect_gsi (irq gsi flags apic : Z) : cM unit :=
  apic_write_redirection_table gsi (redirection irq flags apic) ;; mret tt.

(** ** Set-up *)

Definition port_outb (port value : Z) : cM unit := modify (λ s, s <| out := out s ++ [(port, value)] |>).

Definition disable_pic : cM unit :=
  port_outb 32 17 ;; port_outb 160 17 ;; port_outb 33 32 ;; port_outb 161 40 ;;
  port_outb 33 4 ;; port_outb 161 2 ;; port_outb 33 1 ;; port_outb 161 1 ;;
  port_outb 33 0 ;; port_outb 161 0 ;; port_outb 161 255 ;; port_outb 33 255.

Definition configure_apic_ap : cM unit :=
  modify (λ s, s <| apic_base_msr := Z.ldiff (Z.lor (apic_base_msr s) 2048) 1024 |>) ;;
  modify (λ s, s <| lapic_spurious := Z.lor (lapic_spurious s) 511 |>).

(** [for (gsi = gsi_base; gsi < apic_get_gsi_max(ioapic_base); gsi++) mask_gsi(gsi);] *)
Fixpoint mask_loop (n : nat) (base gsi : Z) : cM unit :=
  max ← apic_get_gsi_max base;
  if gsi <? max then
    match n with
    | O => crashM Hang
    | S n' => mask_gsi gsi ;; mask_loop n' base (u32 (gsi + 1))
    end
  else mret tt.
(** The largest answer of [apic_get_gsi_max] is 127. *)
Fixpoint mask_all (l : list madt_ent1_t) : cM unit :=
  match l with
  | [] => mret tt
  | a :: l' => mask_loop 128 (ioapic_addr a) (gsi_base a) ;; mask_all l'
  end.

Fixpoint map_overrides (l : list madt_ent2_t) (mapped_irqs : list bool) : cM (list bool) :=
  match l with
  | [] => mret mapped_irqs
  | i :: l' =>
      redirect_gsi (irq_src i) (iso_gsi i) (iso_flags i) 0 ;;
      map_overrides l' (if iso_gsi i <? 16 then upd mapped_irqs (iso_gsi i) true else mapped_irqs)
  end.

Definition configure_apic : cM unit :=
  disable_pic ;;
  configure_apic_ap ;;
  s ← get;
  mask_all (ioapics s) ;;
  mapped_irqs ← map_overrides (isos s) (replicate 16 false);
  for_loop 16 0 (λ i,
    m ← of_opt (idx mapped_irqs i);
    if negb m then redirect_gsi i i 0 0 else mret tt).
End apic.

(** ** Redirection entries: what is written is what is delivered *)

(** The bits of a register that software sets (of the version register: the number of the last entry).  In the low half
    of an entry the delivery status (12) and the remote IRR (14) are read-only; the bits 17 to 55 are reserved. *)
Definition LOW_BITS : Z := 110591.         (* 0x0001AFFF *)
Definition HIGH_BITS : Z := 4278190080.    (* 0xFF000000 *)
Definition VERSION_BITS : Z := 16711680.   (* 0x00FF0000 *)
Definition io_bits (r : Z) : Z := if r =? 1 then VERSION_BITS else if Z.even r then LOW_BITS else HIGH_BITS.
Definition ENTRY_BITS : Z := Z.lor LOW_BITS (Z.shiftl HIGH_BITS 32).

(** [x] and [y] agree on the bits [m]. *)
Definition agree (m x y : Z) : Prop := Z.land x m = Z.land y m.

Definition last_entry (version : Z) : Z := u8 (Z.shiftr version 16).

Class IoApicLaws (D : Type) `{!IoApics D} := {
  io_base : Z → Prop;
  io_reg : D → Z → Z → Z;
  io_reg_u32 d a r : is_u32 (io_reg d a r);
  (** The registers there are: the version, and two for each entry. *)
  io_has d a r : Prop := r = 1 ∨ 16 ≤ r < 18 + 2 * last_entry (io_reg d a 1);
  io_select d a r b q : io_base a → io_base b → io_has d b q →
    agree (io_bits q) (io_reg (mmio_write (a + KERNEL_VM_OFFSET) r d) b q) (io_reg d b q);
  io_read d a r : io_base a → io_has d a r →
    let v := mmio_read (a + 16 + KERNEL_VM_OFFSET) (mmio_write (a + KERNEL_VM_OFFSET) r d) in
    is_u32 v ∧ agree (io_bits r) v (io_reg d a r);
  io_write d a r v b q : io_base a → io_base b → io_has d a r → r ≠ 1 → is_u32 v → io_has d b q →
    agree (io_bits q) (io_reg (mmio_write (a + 16 + KERNEL_VM_OFFSET) v (mmio_write (a + KERNEL_VM_OFFSET) r d)) b q)
      (if (b =? a) && (q =? r) then v else io_reg d b q);
  (** The selecting register has eight bits, so there are at most 120 entries. *)
  io_max d a : io_base a → last_entry (io_reg d a 1) < 120
}.

Lemma agree_refl m x : agree m x x.
Proof. done. Qed.
Lemma agree_sym m x y : agree m x y → agree m y x.
Proof. by unfold agree. Qed.
Lemma agree_trans m x y z : agree m x y → agree m y z → agree m x z.
Proof. unfold agree. congruence. Qed.
#[export] Hint Resolve agree_refl : core.

Lemma agree_bits m x y : agree m x y ↔ ∀ n, 0 ≤ n → Z.testbit m n = true → Z.testbit x n = Z.testbit y n.
Proof.
  unfold agree. split.
  - intros E n Hn Hm. apply (f_equal (λ z, Z.testbit z n)) in E. by rewrite !Z.land_spec, Hm, !andb_true_r in E.
  - intros Hb. apply Z.bits_inj'. intros n Hn. rewrite !Z.land_spec. destruct (Z.testbit m n) eqn:E; [|by rewrite !andb_false_r].
    by rewrite (Hb n).
Qed.

Lemma ones_bit k n : 0 ≤ k → 0 ≤ n → Z.testbit (Z.ones k) n = (n <? k).
Proof. intros Hk Hn. destruct (n <? k) eqn:E; zbool; [by apply Z.ones_spec_low|apply Z.ones_spec_high; lia]. Qed.

(** The number of the last entry depends on the version's bits only. *)
Lemma agree_version x y : agree VERSION_BITS x y → last_entry x = last_entry y.
Proof.
  intros E. assert (∀ z, last_entry z = Z.shiftr (Z.land z VERSION_BITS) 16) as Hl; [|by rewrite !Hl, E].
  intros z. unfold last_entry, u8. change U8_MOD with (2 ^ 8). rewrite <-Z.land_ones by lia.
  change VERSION_BITS with (Z.shiftl (Z.ones 8) 16). apply Z.bits_inj'. intros n Hn.
  rewrite Z.land_spec, !Z.shiftr_spec, Z.land_spec, Z.shiftl_spec by lia. do 2 f_equal. lia.
Qed.

(** The two halves of an entry. *)
Lemma agree_entry lo hi v w lo' hi' : is_u32 lo → is_u32 hi → is_u32 lo' → is_u32 hi' →
  v = Z.lor lo (u64 (Z.shiftl hi 32)) → w = Z.lor lo' (u64 (Z.shiftl hi' 32)) →
  agree LOW_BITS lo lo' → agree HIGH_BITS hi hi' → agree ENTRY_BITS v w.
Proof.
  intros H1 H2 H3 H4 -> -> Hl Hh. rewrite agree_bits in *. intros n Hn Hm.
  unfold ENTRY_BITS in Hm. rewrite Z.lor_spec, Z.shiftl_spec in Hm by done.
  assert (∀ x k, is_u32 x → 32 ≤ k → Z.testbit x k = false) as Hout.
  { intros x k Hx Hk. destruct (decide (x = 0)) as [->|]; [apply Z.testbit_0_l|]. unfold is_u32 in Hx.
    apply Z.bits_above_log2; [lia|]. apply Z.lt_le_trans with 32; [|done]. apply Z.log2_lt_pow2; lia. }
  assert (∀ x, is_u32 x → u64 (Z.shiftl x 32) = Z.shiftl x 32) as Hs.
  { intros x Hx. apply u64_small. unfold is_u64, is_u32 in *. rewrite Z.shiftl_mul_pow2 by lia. lia. }
  rewrite !Hs, !Z.lor_spec, !Z.shiftl_spec by done. destruct (decide (n < 32)).
  - rewrite !(Z.testbit_neg_r _ (n - 32)) in * by lia. rewrite orb_false_r in Hm. rewrite !orb_false_r. by apply Hl.
  - rewrite (Hout lo n), (Hout lo' n) by (done || lia). cbn [orb]. apply Hh; [lia|].
    rewrite (Hout LOW_BITS n) in Hm; [done|by unfold is_u32, LOW_BITS; lia|lia].
Qed.

Section apic.
Context {D : Type} `{!IoApics D} `{!IoApicLaws D}.
Implicit Type s : apic_st D.

Record same_apic s s' : Prop := {
  sa_rest : s' = s <| dev := dev s' |>;
  sa_regs : ∀ b q, io_base b → io_has (dev s) b q → agree (io_bits q) (io_reg (dev s') b q) (io_reg (dev s) b q)
}.

Lemma same_apic_refl s : same_apic s s.
Proof. split; [by destruct s|done]. Qed.
(** What is there stays there. *)
Lemma has_agree d d' a r : agree VERSION_BITS (io_reg d' a 1) (io_reg d a 1) → io_has d a r → io_has d' a r.
Proof. intros E%agree_version [?|?]; [by left|right]. by rewrite E. Qed.

Lemma same_has s s' a r : same_apic s s' → io_base a → io_has (dev s) a r → io_has (dev s') a r.
Proof. intros G Ha. apply has_agree. apply (sa_regs _ _ G _ 1); [done|by left]. Qed.

Lemma same_apic_trans s1 s2 s3 : same_apic s1 s2 → same_apic s2 s3 → same_apic s1 s3.
Proof.
  intros G1 G2. split; [rewrite (sa_rest _ _ G2), (sa_rest _ _ G1); by destruct s1|]. intros b q Hb Hq.
  apply agree_trans with (io_reg (dev s2) b q); [|by apply G1]. apply G2; [done|by apply (same_has s1)].
Qed.

Lemma ioapic_read_ok s a r : io_base a → io_has (dev s) a r →
  ∃ v s', ioapic_read a r s = Ok (v, s') ∧ is_u32 v ∧ agree (io_bits r) v (io_reg (dev s) a r) ∧ same_apic s s'.
Proof.
  intros Ha Hr. unfold ioapic_read, mmio_st. mstep. unfold mmio_ld, gets. destruct (io_read (dev s) a r Ha Hr) as [Hv Hg].
  eexists _, _. split; [reflexivity|]. split; [exact Hv|]. split; [exact Hg|].
  split; [by destruct s|]. intros b q Hb Hq. cbn. by apply io_select.
Qed.

Lemma ioapic_write_ok s a r v : io_base a → io_has (dev s) a r → r ≠ 1 → is_u32 v →
  ∃ s', ioapic_write a r v s = Ok (tt, s') ∧ s' = s <| dev := dev s' |> ∧
    ∀ b q, io_base b → io_has (dev s) b q → agree (io_bits q) (io_reg (dev s') b q) (if (b =? a) && (q =? r) then v else io_reg (dev s) b q).
Proof.
  intros Ha Hr Hr1 Hv. unfold ioapic_write, mmio_st, mbind, stM_bind, modify. eexists. split; [reflexivity|].
  split; [by destruct s|]. intros b q Hb Hq. cbn. by apply io_write.
Qed.

(** ** The controller of an interrupt *)

Definition gsi_max (d : D) (a : madt_ent1_t) : Z := Z.land (u8 (Z.shiftr (io_reg d (ioapic_addr a) 1) 16)) 127.
Definition has_gsi (d : D) (gsi : Z) (a : madt_ent1_t) : bool :=
  (gsi_base a <=? gsi) && (gsi <=? gsi_base a + gsi_max d a).
Definition owner (d : D) (l : list madt_ent1_t) (gsi : Z) (valid : option madt_ent1_t) : option madt_ent1_t :=
  foldl (λ v a, if has_gsi d gsi a then Some a else v) valid l.

(** Controllers at distinct addresses, with room for their interrupts. *)
Record ioapics_ok (l : list madt_ent1_t) : Prop := {
  io_bases : Forall (λ a, io_base (ioapic_addr a) ∧ 0 ≤ gsi_base a ∧ gsi_base a + 128 < U32_MOD) l;
  io_distinct : ∀ a b, a ∈ l → b ∈ l → ioapic_addr a = ioapic_addr b → a = b
}.

Lemma gsi_max_last d a : io_base (ioapic_addr a) → gsi_max d a = last_entry (io_reg d (ioapic_addr a) 1).
Proof.
  intros Ha. pose proof (io_max d _ Ha) as Hm. unfold gsi_max. fold (last_entry (io_reg d (ioapic_addr a) 1)).
  change 127 with (Z.ones 7). rewrite Z.land_ones by lia. apply Z.mod_small. split; [|change (2 ^ 7) with 128; lia].
  unfold last_entry. by apply Z.mod_pos_bound.
Qed.

Lemma gsi_max_range d a : io_base (ioapic_addr a) → 0 ≤ gsi_max d a < 120.
Proof. intros Ha. split; [apply Z.land_nonneg; right; lia|]. rewrite gsi_max_last by done. by apply io_max. Qed.

Lemma gsi_max_agree d d' a : io_base (ioapic_addr a) →
  agree VERSION_BITS (io_reg d' (ioapic_addr a) 1) (io_reg d (ioapic_addr a) 1) → gsi_max d' a = gsi_max d a.
Proof. intros Ha E%agree_version. by rewrite !gsi_max_last by done. Qed.

Lemma gsi_max_ok s a : io_base (ioapic_addr a) →
  ∃ s', apic_get_gsi_max (ioapic_addr a) s = Ok (gsi_max (dev s) a, s') ∧ same_apic s s'.
Proof.
  intros Ha. unfold apic_get_gsi_max. destruct (ioapic_read_ok s (ioapic_addr a) 1 Ha ltac:(by left)) as (v & s' & E & _ & Hv & G).
  mrun E. exists s'. split; [|done]. unfold mret, stM_ret, gsi_max. change (u8 (Z.shiftr ?x 16)) with (last_entry x).
  by rewrite (agree_version v (io_reg (dev s) (ioapic_addr a) 1) Hv).
Qed.

Lemma owner_ext d d' l gsi v : (∀ a, a ∈ l → gsi_max d' a = gsi_max d a) → owner d' l gsi v = owner d l gsi v.
Proof.
  revert v. induction l as [|a l IH]; intros v Hm; [done|]. unfold owner in *. cbn [foldl]. rewrite IH by (intros b Hb; apply Hm; by right).
  unfold has_gsi. rewrite Hm by (by left). done.
Qed.

Lemma find_ioapic_ok l : ∀ s gsi v, ioapics_ok l →
  ∃ s', find_ioapic l gsi v s = Ok (owner (dev s) l gsi v, s') ∧ same_apic s s'.
Proof.
  induction l as [|a l IH]; intros s gsi v [Hb Hd]; [exists s; split; [done|apply same_apic_refl]|].
  apply Forall_cons in Hb as [(Ha & H0 & H1) Hb]. cbn [find_ioapic owner foldl].
  destruct (gsi_max_ok s a Ha) as (s1 & E1 & G1). mrun E1. pose proof (gsi_max_range (dev s) a Ha).
  assert (u32 (gsi_max (dev s) a + gsi_base a) = gsi_base a + gsi_max (dev s) a) as -> by (unfold u32; rewrite Z.mod_small; lia).
  fold (has_gsi (dev s) gsi a).
  destruct (IH s1 gsi (if has_gsi (dev s) gsi a then Some a else v)) as (s' & E & G).
  { split; [done|]. intros x y Hx Hy. apply Hd; by right. }
  exists s'. split; [|by apply (same_apic_trans s s1)]. rewrite E. do 2 f_equal. apply owner_ext.
  intros b Hb'. rewrite Forall_forall in Hb. apply gsi_max_agree; [by apply Hb|]. apply (sa_regs _ _ G1); [by apply Hb|by left].
Qed.

Lemma owner_spec d l gsi : ∀ v a, owner d l gsi v = Some a → v = Some a ∨ (a ∈ l ∧ has_gsi d gsi a = true).
Proof.
  induction l as [|b l IH]; intros v a; cbn; [by left|]. intros H. apply IH in H as [H|[H1 H2]].
  - destruct (has_gsi d gsi b) eqn:E; [|by left]. injection H as <-. right. split; [by left|done].
  - right. split; [by right|done].
Qed.

(** ** Entries *)

(** The controller that has the interrupt holds the entry [v], up to the bits that software does not set. *)
Definition holds (d : D) (a : madt_ent1_t) (gsi v : Z) : Prop :=
  let reg := 16 + 2 * (gsi - gsi_base a) in
  agree ENTRY_BITS v (Z.lor (io_reg d (ioapic_addr a) reg) (u64 (Z.shiftl (io_reg d (ioapic_addr a) (reg + 1)) 32))).

Lemma owner_facts s gsi a : ioapics_ok (ioapics s) → owner (dev s) (ioapics s) gsi None = Some a →
  a ∈ ioapics s ∧ io_base (ioapic_addr a) ∧ 0 ≤ gsi - gsi_base a < 120 ∧ 0 ≤ gsi_base a < U32_MOD.
Proof.
  intros [Hb _] Ho. apply owner_spec in Ho as [?|[Hin Hh]]; [done|]. rewrite Forall_forall in Hb. destruct (Hb a Hin) as (Ha & H0 & H1).
  pose proof (gsi_max_range (dev s) a Ha). unfold has_gsi in Hh. zbool. split_and!; try done; lia.
Qed.

Lemma redirection_reg_ok a gsi : 0 ≤ gsi - gsi_base a < 120 →
  u32 (redirection_reg a gsi + 0) = 16 + 2 * (gsi - gsi_base a) ∧ u32 (redirection_reg a gsi + 1) = 16 + 2 * (gsi - gsi_base a) + 1.
Proof. intros Hg. unfold redirection_reg, u32. rewrite (Z.mod_small ((gsi - _) * 2 + 16)) by lia. rewrite !Z.mod_small by lia. lia. Qed.

Lemma entry_has s gsi a : ioapics_ok (ioapics s) → owner (dev s) (ioapics s) gsi None = Some a →
  let reg := 16 + 2 * (gsi - gsi_base a) in io_has (dev s) (ioapic_addr a) reg ∧ io_has (dev s) (ioapic_addr a) (reg + 1).
Proof.
  intros Hok Ho. destruct (owner_facts s gsi a Hok Ho) as (_ & Ha & Hg & _). apply owner_spec in Ho as [?|[_ Hh]]; [done|].
  unfold has_gsi in Hh. rewrite gsi_max_last in Hh by done. zbool. unfold io_has. split; right; lia.
Qed.

Lemma io_bits_entry n : 0 ≤ n → io_bits (16 + 2 * n) = LOW_BITS ∧ io_bits (16 + 2 * n + 1) = HIGH_BITS.
Proof.
  intros Hn. unfold io_bits. rewrite !(proj2 (Z.eqb_neq _ 1)) by lia. rewrite !Z.even_add, !Z.even_mul. done.
Qed.

Lemma read_entry_ok s gsi : ioapics_ok (ioapics s) →
  ∃ v s', apic_read_redirection_table gsi s = Ok (v, s') ∧ same_apic s s' ∧
    match owner (dev s) (ioapics s) gsi None with Some a => holds (dev s) a gsi v | None => v = REDIRECT_TABLE_BAD_READ end.
Proof.
  intros Hok. unfold apic_read_redirection_table. mstep.
  destruct (find_ioapic_ok (ioapics s) s gsi None Hok) as (s1 & E1 & G1). mrun E1.
  destruct (owner (dev s) (ioapics s) gsi None) as [a|] eqn:Eo; [|by eexists _, s1].
  destruct (owner_facts s gsi a Hok Eo) as (Hin & Ha & Hg & _). destruct (redirection_reg_ok a gsi Hg) as [Er0 Er1]. rewrite Er0, Er1.
  destruct (entry_has s gsi a Hok Eo) as [Hh0 Hh1]. destruct (io_bits_entry (gsi - gsi_base a) ltac:(lia)) as [B0 B1].
  set (reg := 16 + 2 * (gsi - gsi_base a)) in *.
  destruct (ioapic_read_ok s1 (ioapic_addr a) reg Ha (same_has _ _ _ _ G1 Ha Hh0)) as (v2 & s2 & E2 & U2 & A2 & G2). mrun E2.
  pose proof (same_apic_trans _ _ _ G1 G2) as G12.
  destruct (ioapic_read_ok s2 (ioapic_addr a) (reg + 1) Ha (same_has _ _ _ _ G12 Ha Hh1)) as (v3 & s3 & E3 & U3 & A3 & G3). mrun E3.
  eexists _, s3. split; [reflexivity|]. split; [by apply (same_apic_trans _ s2)|]. unfold holds. fold reg.
  eapply agree_entry; [exact U2|exact U3|apply io_reg_u32|apply io_reg_u32|done|done| |].
  - rewrite <-B0. eapply agree_trans; [exact A2|]. by apply (sa_regs _ _ G1).
  - rewrite <-B1. eapply agree_trans; [exact A3|]. by apply (sa_regs _ _ G12).
Qed.

Lemma join_halves data : is_u64 data → Z.lor (u32 data) (u64 (Z.shiftl (u32 (Z.shiftr data 32)) 32)) = data.
Proof.
  unfold is_u64, u32, u64. intros Hd. rewrite Z.shiftr_div_pow2, Z.shiftl_mul_pow2 by lia. change (2 ^ 32) with U32_MOD.
  rewrite (Z.mod_small (data / U32_MOD)) by dlia. rewrite (Z.mod_small (data / U32_MOD * U32_MOD)) by dlia.
  change U32_MOD with (2 ^ 32) at 2 3. rewrite <- Z.shiftl_mul_pow2, <- Z.shiftr_div_pow2 by lia. change U32_MOD with (2 ^ 32).
  apply Z.bits_inj'. intros n Hn. rewrite Z.lor_spec, Z.shiftl_spec by done. destruct (decide (n < 32)).
  - rewrite Z.mod_pow2_bits_low, (Z.testbit_neg_r _ (n - 32)) by lia. apply orb_false_r.
  - rewrite Z.mod_pow2_bits_high, Z.shiftr_spec by lia. cbn. f_equal. lia.
Qed.

(** Registers that differ in one entry only. *)
Definition regs_but (d d' : D) (addr reg lo hi : Z) : Prop := ∀ b q, io_base b → io_has d b q →
  agree (io_bits q) (io_reg d' b q)
    (if (b =? addr) && (q =? reg + 1) then hi else if (b =? addr) && (q =? reg) then lo else io_reg d b q).

Lemma owner_but s d' l g addr reg lo hi : ioapics_ok l → 16 ≤ reg → regs_but (dev s) d' addr reg lo hi →
  owner d' l g None = owner (dev s) l g None.
Proof.
  intros [Hb _] Hr Hreg. apply owner_ext. intros b Hin. rewrite Forall_forall in Hb. apply gsi_max_agree; [by apply Hb|].
  pose proof (Hreg (ioapic_addr b) 1 ltac:(by apply Hb) ltac:(by left)) as E.
  by rewrite (proj2 (Z.eqb_neq 1 (reg + 1))), (proj2 (Z.eqb_neq 1 reg)), !andb_false_r in E by lia.
Qed.

Lemma same_owner s s' g : ioapics_ok (ioapics s) → same_apic s s' →
  owner (dev s') (ioapics s') g None = owner (dev s) (ioapics s) g None.
Proof.
  intros Hok [Hr Hg]. assert (ioapics s' = ioapics s) as -> by (by rewrite Hr). apply owner_ext. intros a Ha.
  pose proof (io_bases _ Hok) as Hb. rewrite Forall_forall in Hb. apply gsi_max_agree; [by apply Hb|]. apply Hg; [by apply Hb|by left].
Qed.

(** The entry that was written, and the others. *)
Lemma holds_but s d' gsi a data : ioapics_ok (ioapics s) → is_u64 data →
  owner (dev s) (ioapics s) gsi None = Some a →
  regs_but (dev s) d' (ioapic_addr a) (16 + 2 * (gsi - gsi_base a)) (u32 data) (u32 (Z.shiftr data 32)) →
  (∀ v, holds d' a gsi v → agree ENTRY_BITS v data) ∧
  (∀ g b v v', g ≠ gsi → owner (dev s) (ioapics s) g None = Some b → holds (dev s) b g v → holds d' b g v' → agree ENTRY_BITS v v').
Proof.
  intros Hok Hd Eo Hreg. destruct (owner_facts s gsi a Hok Eo) as (Hin & Ha & Hg & _). destruct (entry_has s gsi a Hok Eo) as [Hh0 Hh1].
  assert (∀ x, is_u32 (u32 x)) as Hu by (intros x; by apply Z.mod_pos_bound). split.
  - intros v Hv. eapply agree_trans; [exact Hv|]. destruct (io_bits_entry (gsi - gsi_base a) ltac:(lia)) as [B0 B1].
    set (reg := 16 + 2 * (gsi - gsi_base a)) in *.
    eapply agree_entry; [apply io_reg_u32|apply io_reg_u32|apply (Hu data)|apply (Hu (Z.shiftr data 32))|done|by rewrite join_halves| |].
    + pose proof (Hreg _ reg Ha Hh0) as E. rewrite Z.eqb_refl, (proj2 (Z.eqb_neq reg (reg + 1))), Z.eqb_refl in E by lia. by rewrite <-B0.
    + pose proof (Hreg _ (reg + 1) Ha Hh1) as E. rewrite !Z.eqb_refl in E. by rewrite <-B1.
  - intros g b v v' Hne Eb Hv Hv'. destruct (owner_facts s g b Hok Eb) as (Hbin & Hb & Hgb & _).
    destruct (entry_has s g b Hok Eb) as [Hk0 Hk1]. eapply agree_trans; [exact Hv|]. apply agree_sym. eapply agree_trans; [exact Hv'|].
    destruct (io_bits_entry (g - gsi_base b) ltac:(lia)) as [B0 B1].
    assert (∀ q, q = 16 + 2 * (g - gsi_base b) ∨ q = 16 + 2 * (g - gsi_base b) + 1 →
      agree (io_bits q) (io_reg d' (ioapic_addr b) q) (io_reg (dev s) (ioapic_addr b) q)) as Hsame.
    { intros q Hq. pose proof (Hreg _ q Hb ltac:(by destruct Hq as [-> | ->])) as E. destruct (Z.eqb_spec (ioapic_addr b) (ioapic_addr a)) as [Eq|Eq]; cbn [andb] in E; [|done].
      apply (io_distinct _ Hok) in Eq as ->; [|done|done]. by rewrite !(proj2 (Z.eqb_neq _ _)) in E by lia. }
    set (reg := 16 + 2 * (g - gsi_base b)) in *.
    eapply agree_entry; [apply io_reg_u32..|done|done| |].
    + rewrite <-B0. apply Hsame. by left.
    + rewrite <-B1. apply Hsame. by right.
Qed.

(** C37: Writing the redirection entry of an interrupt puts the given entry in the controller
    that has the interrupt, and reading the entry gives back every bit of it that software sets
    ([ENTRY_BITS]: not the delivery status and the remote IRR, bits 12 and 14, nor the reserved bits 17 to 55); the entry of every
    other interrupt, of this controller or another, reads in these bits as
    before.  When no controller has the interrupt the write returns 1 and the read the error value, and the other
    entries are as before too. *)
Theorem redirection_round_trip s gsi data :
  ioapics_ok (ioapics s) → is_u64 data →
  ∃ ret s', apic_write_redirection_table gsi data s = Ok (ret, s') ∧ ioapics s' = ioapics s ∧
    ret = (if owner (dev s) (ioapics s) gsi None then 0 else 1) ∧
    (∃ v t, apic_read_redirection_table gsi s' = Ok (v, t) ∧
       if ret =? 0 then agree ENTRY_BITS v data else v = REDIRECT_TABLE_BAD_READ) ∧
    ∀ gsi', gsi' ≠ gsi → ∃ v v' t t', apic_read_redirection_table gsi' s = Ok (v, t) ∧
      apic_read_redirection_table gsi' s' = Ok (v', t') ∧ agree ENTRY_BITS v v'.
Proof.
  intros Hok Hd. unfold apic_write_redirection_table. mstep.
  destruct (find_ioapic_ok (ioapics s) s gsi None Hok) as (s1 & E1 & G1). mrun E1. pose proof (sa_rest _ _ G1) as R1.
  assert (ioapics s1 = ioapics s) as L1 by (by rewrite R1).
  assert (∀ s' g, ioapics s' = ioapics s → (∀ g, owner (dev s') (ioapics s') g None = owner (dev s) (ioapics s) g None) →
    (∀ b v v', owner (dev s) (ioapics s) g None = Some b → holds (dev s) b g v → holds (dev s') b g v' → agree ENTRY_BITS v v') →
    ∃ v v' t t', apic_read_redirection_table g s = Ok (v, t) ∧ apic_read_redirection_table g s' = Ok (v', t') ∧ agree ENTRY_BITS v v') as Hother.
  { intros s' g El Ho Hh. destruct (read_entry_ok s g Hok) as (v & t & Et & _ & Hv).
    destruct (read_entry_ok s' g) as (v' & t' & Et' & _ & Hv'); [by rewrite El|]. rewrite Ho in Hv'.
    exists v, v', t, t'. split_and!; [done|done|]. destruct (owner (dev s) (ioapics s) g None) as [b|]; [by apply (Hh b)|by subst]. }
  destruct (owner (dev s) (ioapics s) gsi None) as [a|] eqn:Eo.
  - destruct (owner_facts s gsi a Hok Eo) as (Hin & Ha & Hg & _). destruct (redirection_reg_ok a gsi Hg) as [Er0 Er1]. rewrite Er0, Er1.
    destruct (entry_has s gsi a Hok Eo) as [Hh0 Hh1]. set (reg := 16 + 2 * (gsi - gsi_base a)) in *.
    destruct (ioapic_write_ok s1 (ioapic_addr a) reg (u32 data) Ha) as (s2 & E2 & R2 & W2);
      [by apply (same_has s)|lia|by apply Z.mod_pos_bound|]. mrun E2.
    assert (∀ b q, io_base b → io_has (dev s) b q → agree (io_bits q) (io_reg (dev s2) b q) (if (b =? ioapic_addr a) && (q =? reg) then u32 data else io_reg (dev s) b q)) as W2'.
    { intros b q Hb Hq. eapply agree_trans; [apply W2; [done|by apply (same_has s)]|]. destruct (_ && _); [done|]. by apply (sa_regs _ _ G1). }
    assert (∀ b q, io_base b → io_has (dev s) b q → io_has (dev s2) b q) as Hhas.
    { intros b q Hb. apply has_agree. pose proof (W2' b 1 Hb ltac:(by left)) as E. by rewrite (proj2 (Z.eqb_neq 1 reg)), andb_false_r in E by lia. }
    destruct (ioapic_write_ok s2 (ioapic_addr a) (reg + 1) (u32 (Z.shiftr data 32)) Ha) as (s3 & E3 & R3 & W3);
      [|lia|by apply Z.mod_pos_bound|].
    { by apply Hhas. }
    mrun E3. assert (ioapics s3 = ioapics s) as L3 by (by rewrite R3, R2).
    assert (regs_but (dev s) (dev s3) (ioapic_addr a) reg (u32 data) (u32 (Z.shiftr data 32))) as Hreg.
    { intros b q Hb Hq. eapply agree_trans; [apply W3; [done|by apply Hhas]|]. destruct ((b =? _) && (q =? reg + 1)); [done|by apply W2']. }
    destruct (holds_but s (dev s3) gsi a data Hok Hd Eo Hreg) as [Hnew Hold].
    assert (∀ g, owner (dev s3) (ioapics s3) g None = owner (dev s) (ioapics s) g None) as Ho.
    { intros g. rewrite L3. apply (owner_but s _ _ g (ioapic_addr a) reg (u32 data) (u32 (Z.shiftr data 32))); [done|lia|done]. }
    exists 0, s3. do 3 (split; [done|]). split.
    + destruct (read_entry_ok s3 gsi) as (v & t & Et & _ & Hv); [by rewrite L3|]. rewrite Ho, Eo in Hv. exists v, t. split; [done|by apply Hnew].
    + intros g Hne. apply Hother; [done|done|]. intros b v v' Hb. by apply Hold.
  - exists 1, s1. do 3 (split; [done|]). split.
    + destruct (read_entry_ok s1 gsi) as (v & t & Et & _ & Hv); [by rewrite L1|]. rewrite (same_owner s s1), Eo in Hv by done. by exists v, t.
    + intros g Hne. apply Hother; [done|intros g'; by apply same_owner|]. intros b v v' Eb Hv Hv'.
      destruct (owner_facts s g b Hok Eb) as (_ & Hb & Hgb & _). destruct (entry_has s g b Hok Eb) as [Hk0 Hk1]. destruct (io_bits_entry (g - gsi_base b) ltac:(lia)) as [B0 B1].
      eapply agree_trans; [exact Hv|]. apply agree_sym. eapply agree_trans; [exact Hv'|].
      eapply agree_entry; [apply io_reg_u32..|done|done| |].
      * rewrite <-B0. by apply (sa_regs _ _ G1).
      * rewrite <-B1. by apply (sa_regs _ _ G1).
Qed.
End apic.

(** ** A device that keeps the laws: 24 entries, at any page

    Its reserved and read-only bits read as zero, and what is written to other registers is lost. *)

Record io_sim : Type := mk_sim { sim_sel : Z → Z; sim_regs : Z → Z → Z }.
Definition sim_has (r : Z) : bool := (16 <=? r) && (r <? 64).
Definition sim_reg (d : io_sim) (a r : Z) : Z :=
  if r =? 1 then 1507328 else if sim_has r then Z.land (sim_regs d a r) (io_bits r) else 0.

#[export] Instance sim_ioapics : IoApics io_sim := {
  mmio_read addr d :=
    let a := addr - KERNEL_VM_OFFSET in
    if a mod PAGE =? 16 then sim_reg d (a - 16) (sim_sel d (a - 16)) else 0;
  mmio_write addr v d :=
    let a := addr - KERNEL_VM_OFFSET in
    if a mod PAGE =? 0 then mk_sim (λ b, if b =? a then v else sim_sel d b) (sim_regs d)
    else if a mod PAGE =? 16 then
      mk_sim (sim_sel d) (λ b r, if (b =? a - 16) && (r =? sim_sel d (a - 16)) then v else sim_regs d b r)
    else d
}.

Lemma land_bits_u32 x r : is_u32 (Z.land x (io_bits r)).
Proof.
  assert (Z.land (io_bits r) (Z.ones 32) = io_bits r) as <-
    by (unfold io_bits; destruct (r =? 1); [done|]; by destruct (Z.even r)).
  rewrite Z.land_assoc, Z.land_ones by lia. by apply Z.mod_pos_bound.
Qed.

#[export, refine] Instance sim_laws : IoApicLaws io_sim := {
  io_base a := a mod PAGE = 0;
  io_reg := sim_reg
}.
Proof.
  - intros d a r. unfold sim_reg. destruct (r =? 1); [done|]. destruct (sim_has r); [apply land_bits_u32|done].
  - intros d a r b q Ha Hb _. cbn. replace (a + KERNEL_VM_OFFSET - KERNEL_VM_OFFSET) with a by lia. by rewrite Ha.
  - intros d a r Ha Hr. cbn. replace (a + 16 + KERNEL_VM_OFFSET - KERNEL_VM_OFFSET) with (a + 16) by lia.
    replace (a + KERNEL_VM_OFFSET - KERNEL_VM_OFFSET) with a by lia. rewrite Ha. cbn.
    replace ((a + 16) mod PAGE) with 16 by dlia. cbn. replace (a + 16 - 16) with a by lia. rewrite Z.eqb_refl. split; [|done].
    unfold sim_reg. destruct (r =? 1); [done|]. destruct (sim_has r); [apply land_bits_u32|done].
  - intros d a r v b q Ha Hb Hr Hr1 Hv _. cbn. replace (a + 16 + KERNEL_VM_OFFSET - KERNEL_VM_OFFSET) with (a + 16) by lia.
    replace (a + KERNEL_VM_OFFSET - KERNEL_VM_OFFSET) with a by lia. rewrite Ha. cbn.
    replace ((a + 16) mod PAGE) with 16 by dlia. cbn. replace (a + 16 - 16) with a by lia. rewrite Z.eqb_refl.
    unfold sim_reg. cbn. destruct (b =? a); cbn [andb]; [|done].
    destruct (Z.eqb_spec q r) as [-> |]; [|done]. rewrite (proj2 (Z.eqb_neq r 1)) by done.
    destruct Hr as [?|Hr]; [done|]. change (last_entry _) with 23 in Hr.
    unfold sim_has. rewrite (proj2 (Z.leb_le _ _)), (proj2 (Z.ltb_lt _ _)) by lia. cbn [andb]. unfold agree.
    by rewrite <-Z.land_assoc, Z.land_diag.
  - intros d a Ha. vm_compute. reflexivity.
Defined.

(** The entry of an interrupt in the device's registers. *)
Definition sim_entry (s : apic_st io_sim) (gsi : Z) : Z :=
  match owner (dev s) (ioapics s) gsi None with
  | Some a =>
      let reg := 16 + 2 * (gsi - gsi_base a) in
      Z.lor (sim_reg (dev s) (ioapic_addr a) reg) (Z.shiftl (sim_reg (dev s) (ioapic_addr a) (reg + 1)) 32)
  | None => REDIRECT_TABLE_BAD_READ
  end.

Definition apic_demo : apic_st io_sim :=
  mk_apic (mk_sim (λ _, 0) (λ _ _, 0)) [mk_ioapic 0 4273995776 0] [mk_iso 0 0 2 0] [] 0 0.

(** The loop that masks all interrupts stops before the last one, since
    [apic_get_gsi_max] is the number of the last and not how many there are. *)
Lemma last_gsi_not_masked :
  match mask_all (ioapics apic_demo) apic_demo with
  | Ok (_, s') => (sim_entry s' 22, sim_entry s' 23) = (65536, 0)
  | Crash _ => False
  end.
Proof. vm_compute. reflexivity. Qed.

(** It counts from the controller's first interrupt to the size of the controller, so none of a second one is masked. *)
Lemma second_ioapic_not_masked :
  match mask_all [mk_ioapic 1 4273999872 24] (apic_demo <| ioapics := [mk_ioapic 0 4273995776 0; mk_ioapic 1 4273999872 24] |>) with
  | Ok (_, s') => sim_entry s' 24 = 0
  | Crash _ => False
  end.
Proof. vm_compute. reflexivity. Qed.

Lemma redirection_round_trip_witness :
  ∃ s' v t, apic_write_redirection_table 5 (37 + 2 ^ 12 + 2 ^ 56) apic_demo = Ok (0, s') ∧
    apic_read_redirection_table 5 s' = Ok (v, t) ∧ agree ENTRY_BITS v (37 + 2 ^ 12 + 2 ^ 56).
Proof.
  destruct (redirection_round_trip apic_demo 5 (37 + 2 ^ 12 + 2 ^ 56)) as (ret & s' & E & _ & Hr & (v & t & Et & Hv) & _).
  - split; [repeat constructor; cbn; lia|]. intros a b ->%list_elem_of_singleton ->%list_elem_of_singleton _. done.
  - unfold is_u64. lia.
  - assert (ret = 0) as -> by (rewrite Hr; vm_compute; reflexivity). exists s', v, t. split; [exact E|]. split; [exact Et|exact Hv].
Defined.
