(* ===== verification/Spaces.v ===== *)
(** * New address spaces, and how much memory a client needs

    [vmm_fork_higher_half] gives an address space of its own tree of tables: a
    new top table, and the tables of the upper half that it shares with the old
    one.  A client that allocates runs of several pages needs more than a number
    of free pages: [enough] says that, whatever pages up to a number have been
    taken, there still is a free run of a given length. *)

From S2P Require Import Prelude Locks Pmm Frames Vmm VmmTree VmmSpec VmmMap VmmTheorems.

(** ** The tree of a new address space *)

(** A table below the top that translates addresses of the lower half. *)
Definition top_of (l : nat) (pr : Z) : Z :=
  match l with 0%nat => pr / 262144 | 1%nat => pr / 512 | _ => pr end.
Definition in_lower (k : nat * Z) : Prop := (k.1 < 3)%nat ∧ 0 ≤ top_of k.1 k.2 < 256.
#[export] Instance in_lower_dec k : Decision (in_lower k).
Proof. unfold in_lower. apply _. Defined.

Definition upper_tree (T : tree) (r : Z) : tree := <[(3%nat, 0) := r]> (filter (λ p, ¬ in_lower p.1) T).

Lemma upper_lookup T r k : k ≠ (3%nat, 0) → upper_tree T r !! k = if decide (in_lower k) then None else T !! k.
Proof.
  intros Hk. unfold upper_tree. rewrite lookup_insert_ne by done. destruct (decide (in_lower k)) as [Hl|Hl].
  - apply map_lookup_filter_None. right. intros x _ Hn. by apply Hn.
  - destruct (T !! k) as [f|] eqn:E.
    + by apply map_lookup_filter_Some.
    + apply map_lookup_filter_None. by left.
Qed.

Lemma upper_some T r k f : upper_tree T r !! k = Some f → (k = (3%nat, 0) ∧ f = r) ∨ (k ≠ (3%nat, 0) ∧ ¬ in_lower k ∧ T !! k = Some f).
Proof.
  intros Hf. destruct (decide (k = (3%nat, 0))) as [-> |Hk].
  - unfold upper_tree in Hf. rewrite lookup_insert_eq in Hf. left. by simplify_eq.
  - rewrite upper_lookup in Hf by done. destruct (decide (in_lower k)); [done|]. by right.
Qed.

Section spaces.
Context {F : Type} `{!FrameAlloc F} `{!FrameAllocLaws F}.
Implicit Types (s : vmm_state F) (T : tree).

Lemma top_up l pr : (l < 2)%nat → top_of (S l) (pr / 512) = top_of l pr.
Proof. intros Hl. destruct l as [|[|]]; [cbn; dlia|cbn; dlia|lia]. Qed.

Lemma upper_entry T r l pr i e : (S l, pr) ≠ (3%nat, 0) → (S l ≤ 3)%nat → ¬ in_lower (S l, pr) → 0 ≤ i < 512 →
  entry_ok T l (pr * 512 + i) e → entry_ok (upper_tree T r) l (pr * 512 + i) e.
Proof.
  intros Hk Hl3 Hl Hi He. unfold entry_ok in *. rewrite upper_lookup by (intros [= -> _]; lia).
  rewrite decide_False; [done|]. intros [H1 H2]. cbn [fst snd] in *.
  destruct (decide (l = 2%nat)) as [-> |Hl2].
  - cbn in H2. apply Hk. f_equal. lia.
  - apply Hl. split; [cbn; lia|]. cbn [fst snd]. rewrite <-(top_up l) in H2 by lia.
    by replace ((pr * 512 + i) / 512) with pr in H2 by dlia.
Qed.

Lemma fork_tree T root s : tree_ok T root s → unlocked (vmm_spinlock s) → has_room (frames s) 1 →
  ∃ np s', vmm_fork_higher_half root s = Ok (np * PAGE, s') ∧ tree_ok (upper_tree T (np * PAGE)) (np * PAGE) s' ∧ same_regs s s' ∧
    fa_used (frames s) np = false ∧ (∀ p, fa_used (frames s') p = (fa_used (frames s) p || (p =? np))%bool) ∧
    (∀ v, translate s' (np * PAGE) v = if pt_index 3 v <? 256 then None else translate s root v).
Proof.
  intros Hok Hl Hroom. pose proof (t_root _ _ _ Hok) as Hr.
  destruct (fork_run T root s Hok Hl Hroom) as (np & s' & E & Hnp & Hfree & Hinv & Hregs & Hus & Hmu & Hold & Hnew).
  destruct (fork_higher_half_ok T root s Hok Hl Hroom) as (r & s2 & E2 & _ & _ & _ & _ & Htr). rewrite E in E2. injection E2 as <- <-.
  assert (∀ k f, T !! k = Some f → f / 4096 ≠ np) as Hne.
  { intros [l pr] f Hf Ef. destruct (t_frame _ _ _ Hok _ _ _ Hf) as (_ & _ & _ & Hu). congruence. }
  exists np, s'. split_and!; try done. unfold PHYS_PAGES in Hnp.
  assert (np * PAGE / 4096 = np) as Enp by dlia. split; try done.
  - apply lookup_insert_eq.
  - intros l pr f [[[= -> ->] ->]|(_ & _ & Hf)]%upper_some.
    + split_and!; [lia|dlia|lia|lia|]. by rewrite Enp, Hus, Z.eqb_refl, orb_true_r.
    + destruct (t_frame _ _ _ Hok _ _ _ Hf) as (? & ? & ? & Hu). split_and!; try done; try lia. by rewrite Hus, Hu.
  - intros r1 r2 f [[-> ->]|(_ & _ & H1)]%upper_some [[-> Ef]|(_ & _ & H2)]%upper_some; [done|..].
    + by apply Hne in H2.
    + subst f. by apply Hne in H1.
    + by apply (t_inj _ _ _ Hok _ _ f).
  - intros l pr f [[[= -> ->] ->]|(Hk & Hnl & Hf)]%upper_some Hl3; [lia|].
    destruct (t_up _ _ _ Hok _ _ _ Hf Hl3) as [f' Hf'].
    destruct (decide ((S l, pr / 512) = (3%nat, 0))) as [-> |Hk']; [unfold upper_tree; rewrite lookup_insert_eq; by eexists|].
    rewrite upper_lookup by done. rewrite decide_False; [by eexists|]. intros [H1 H2]. apply Hnl. cbn [fst snd] in *.
    split; [done|]. cbn [fst snd]. by rewrite <-(top_up l) by lia.
  - intros l pr f i [[[= -> ->] ->]|(Hk & Hnl & Hf)]%upper_some Hi.
    + rewrite Hnew by done. pose proof (t_entry _ _ _ Hok _ _ _ _ Hr Hi) as He. unfold entry_ok in *.
      rewrite upper_lookup by done. destruct (i <? 256) eqn:Ei; zbool.
      * rewrite decide_True; [by left|]. split; cbn; lia.
      * rewrite decide_False; [done|]. intros [_ H2]. cbn in H2. lia.
    + destruct (t_frame _ _ _ Hok _ _ _ Hf) as (? & Ha & _). rewrite Hold.
      * apply upper_entry; try done. by eapply t_entry.
      * replace ((f + 8 * i) / 4096) with (f / 4096) by dlia. by eapply Hne.
Qed.

(** ** Enough memory *)

(** From [f] to [f'] at most [n] pages were taken, and none returned. *)
Record took (n : nat) (f f' : F) : Prop := {
  tk_inv : fa_inv f';
  tk_size : fa_size f' = fa_size f;
  tk_used : ∀ p, fa_used f p = true → fa_used f' p = true;
  tk_room : ∀ k, has_room f (n + k) → has_room f' k
}.

Definition enough (f : F) (n : nat) (m : Z) : Prop := ∀ f', took n f f' → ∃ q, free_run f' q m.

Lemma took_refl n f : fa_inv f → took n f f.
Proof. intros Hi. split; try done. intros k. apply has_room_le. lia. Qed.

Lemma took_trans n1 n2 f1 f2 f3 : took n1 f1 f2 → took n2 f2 f3 → took (n1 + n2) f1 f3.
Proof.
  intros [I1 S1 U1 R1] [I2 S2 U2 R2]. split; [done|congruence|auto|]. intros k Hk. apply R2, R1. by rewrite Nat.add_assoc.
Qed.

Lemma took_weaken n m f f' : (n ≤ m)%nat → took n f f' → took m f f'.
Proof. intros Hle [I S U R]. split; try done. intros k Hk. apply R. eapply has_room_le; [|exact Hk]. lia. Qed.

Lemma enough_took n m k f f' : enough f (n + m) k → took n f f' → enough f' m k.
Proof. intros He Ht f2 Ht2. apply He. by eapply took_trans. Qed.

Lemma enough_run n m f : fa_inv f → enough f n m → ∃ q, free_run f q m.
Proof. intros Hi He. by apply He, took_refl. Qed.

Lemma run_has_room f q m n : free_run f q m → Z.of_nat n ≤ m → has_room f n.
Proof.
  intros Hq Hn. exists (seqZ q (Z.of_nat n)). split_and!.
  - apply NoDup_seqZ.
  - rewrite length_seqZ. lia.
  - apply Forall_forall. intros p Hp%elem_of_seqZ. apply Hq. lia.
Qed.

Lemma enough_room n m k f : fa_inv f → enough f n m → Z.of_nat k ≤ m → has_room f k.
Proof. intros Hi He Hk. destruct (enough_run _ _ _ Hi He) as [q Hq]. by eapply run_has_room. Qed.

Lemma enough_le n m k f : k ≤ m → enough f n m → enough f n k.
Proof. intros Hk He f' Ht. destruct (He f' Ht) as [q Hq]. exists q. intros p Hp. apply Hq. lia. Qed.

Lemma run_took f f' q n : fa_inv f' → fa_size f' = fa_size f →
  (∀ p, fa_used f' p = (fa_used f p || in_run q (Z.of_nat n) p)%bool) → took n f f'.
Proof.
  intros Hi Hs Hu. split; [done|done| |].
  - intros p Hp. by rewrite Hu, Hp.
  - intros k Hk. by apply (has_room_run f f' q n k).
Qed.

Lemma grows_took n root T s T' s' : grows n root T s T' s' → took n (frames s) (frames s').
Proof. intros [G1 _ _ G4 G5 _ _ (_ & _ & _ & _ & _ & G8)]. split; try done. apply G1. Qed.

(** Pages that are used in different blocks of length [m] are different. *)
Lemma used_in_blocks (f : F) lo m (js : list Z) : 0 < m → NoDup js →
  (∀ i, i ∈ js → ¬ free_run f (lo + i * m) m) →
  ∃ ws, NoDup ws ∧ length ws = length js ∧ Forall (λ w, fa_used f w = true ∧ ∃ i, i ∈ js ∧ lo + i * m ≤ w < lo + i * m + m) ws.
Proof.
  intros Hm Hnd Hall.
  assert (∃ ws, Forall2 (λ i w, fa_used f w = true ∧ lo + i * m ≤ w < lo + i * m + m) js ws) as [ws Hws].
  { clear Hnd. induction js as [|i js IH]; [by exists []|]. destruct IH as [ws Hws]; [intros; apply Hall; by right|].
    destruct (decide (Exists (λ w, fa_used f w = true) (seqZ (lo + i * m) m))) as [[w [Hw Hu]]%list.Exists_exists|Hno].
    - apply elem_of_seqZ in Hw. exists (w :: ws). by constructor.
    - destruct (Hall i ltac:(left)). intros k Hk. destruct (fa_used f k) eqn:E; [|done]. destruct Hno. apply list.Exists_exists.
      exists k. split; [apply elem_of_seqZ; lia|done]. }
  exists ws. assert ((λ w, (w - lo) / m) <$> ws = js) as E.
  { clear Hnd Hall. induction Hws as [|i w js ws [_ Hw] _ IH]; [done|]. cbn. f_equal; [|exact IH].
    symmetry. apply (Z.div_unique_pos _ _ _ (w - lo - i * m)); lia. }
  split_and!.
  - apply (NoDup_fmap_1 (λ w, (w - lo) / m)). by rewrite E.
  - symmetry. by eapply Forall2_length.
  - apply Forall_forall. intros w Hw. apply list_elem_of_lookup in Hw as [k Hk].
    destruct (Forall2_lookup_r _ _ _ _ _ Hws Hk) as (i & Hi & Hu & Hr). split; [done|]. exists i. split; [|done]. by eapply list_elem_of_lookup_2.
Qed.

(** A long stretch of free pages is enough. *)
Lemma enough_stretch (f : F) lo hi n m : 0 < m → (∀ p, fa_used f p = false ↔ lo ≤ p < hi) → (Z.of_nat n + 1) * m ≤ hi - lo → enough f n m.
Proof.
  intros Hm Hfree Hlen f' [Hi _ Hu Hr].
  destruct (decide (Exists (λ i, Forall (λ p, fa_used f' p = false) (seqZ (lo + i * m) m)) (seqZ 0 (Z.of_nat n + 1)))) as [(i & _ & Hf)%list.Exists_exists|Hno].
  { exists (lo + i * m). intros k Hk. rewrite Forall_forall in Hf. apply Hf, elem_of_seqZ. lia. }
  exfalso. destruct (used_in_blocks f' lo m (seqZ 0 (Z.of_nat n + 1)) Hm) as (ws & Hnd & Hl & Hws).
  { apply NoDup_seqZ. }
  { intros i Hi' Hrun. apply Hno, list.Exists_exists. exists i. split; [done|]. apply Forall_forall. intros p Hp%elem_of_seqZ. by apply Hrun. }
  destruct (Hr (Z.to_nat (hi - lo) - n)%nat) as (l & Hndl & Hll & Hlf).
  { exists (seqZ lo (hi - lo)). split_and!; [apply NoDup_seqZ|rewrite length_seqZ; nia|].
    apply Forall_forall. intros p Hp%elem_of_seqZ. apply Hfree. lia. }
  rewrite Forall_forall in Hws, Hlf.
  assert (length (l ++ ws) ≤ length (seqZ lo (hi - lo)))%nat as Hle.
  { apply submseteq_length, NoDup_submseteq.
    - apply NoDup_app. split_and!; [done| |done]. intros p Hp Hp'. destruct (Hws p Hp') as [Hw _]. by rewrite (Hlf p Hp) in Hw.
    - intros p [Hp|Hp]%elem_of_app; apply elem_of_seqZ.
      + assert (lo ≤ p < hi); [|lia]. apply Hfree. destruct (fa_used f p) eqn:E; [|done]. apply Hu in E. by rewrite (Hlf p Hp) in E.
      + destruct (Hws p Hp) as [_ (i & Hi'%elem_of_seqZ & Hr')]. nia. }
  rewrite length_app, length_seqZ, Hl, length_seqZ, Hll in Hle. nia.
Qed.
End spaces.
