(* ===== verification/Buffers.v ===== *)
(** * Buffers of the kernel heap (klibc/stdlib.c, for the rest of the kernel)

    The clients of the heap keep bytes in what [kmalloc] and [kcalloc] return.
    The state is the kernel's and the memory manager's together: the allocation
    is that of Kmalloc.v, with the pages it takes and the guard pages it
    unmaps; the bytes of the buffer are [kmem].  [heap_grew] is what a sequence of
    allocations does to the memory manager, [buffer] what a client knows of one:
    its pages were free. *)

From S2P Require Import Prelude Locks Bytes Pmm Frames Vmm VmmTree VmmSpec VmmMap VmmTheorems Kmalloc Blocks Vfs DList Kernel Stack Fd UserMemory UserMemoryTheorems Spaces.

(** [memset(a, 0, n)] *)
Definition clear_bytes (a n : Z) : kM unit :=
  modify (λ s, s <| kmem := λ x, if (a <=? x) && (x <? a + n) then 0 else kmem s x |>).

Section buffers.
Context {F : Type} `{!FrameAlloc F}.
Abbreviation uM := (stM (user_st F)).

(** [kmalloc(n)]: room for [n] bytes, which keep what they held, and [kcalloc(n)], which clears them. *)
Definition kmalloc_bytes (n : Z) : uM Z := on_vm (kmalloc n).
Definition kcalloc_bytes (n : Z) : uM Z :=
  state ← on_vm vmm_cli;
  buffer ← kmalloc_bytes n;
  on_kern (clear_bytes buffer n) ;;
  on_vm (vmm_sti state) ;;
  mret buffer.
End buffers.

(** ** What allocations do *)

Section grew.
Context {F : Type} `{!FrameAlloc F} `{!FrameAllocLaws F}.
Implicit Types (s : vmm_state F) (T : tree).

(** From [s] to [s'] pages were taken and, of those, some unmapped from the direct map; nothing else changed. *)
Record heap_grew s T s' T' : Prop := {
  hg_heap : heap_ok T' s';
  hg_regs : same_regs s s';
  hg_used : ∀ p, fa_used (frames s) p = true → fa_used (frames s') p = true;
  hg_walk : ∀ v, (∀ p, fa_used (frames s) p = false → page_off (kpage p) v ≠ 0) →
    translate s' (cr3 s) v = translate s (cr3 s) v
}.

Lemma heap_grew_refl s T : heap_ok T s → heap_grew s T s T.
Proof. intros Hh. by split. Qed.

Lemma heap_grew_trans s1 T1 s2 T2 s3 T3 : heap_grew s1 T1 s2 T2 → heap_grew s2 T2 s3 T3 → heap_grew s1 T1 s3 T3.
Proof.
  intros [H1 R1 U1 W1] [H2 R2 U2 W2]. split; [done|by eapply same_regs_trans|auto|].
  intros v Hv. rewrite <-W1 by done. rewrite <-(proj1 R1). apply W2. intros p Hp. apply Hv.
  destruct (fa_used (frames s1) p) eqn:E; [|done]. by rewrite (U1 p E) in Hp.
Qed.

(** The processor's flags are no part of it. *)
Definition with_cpu s c : vmm_state F := set_frames (fa_set_cpu c (frames s)) s.

Lemma heap_with_cpu T s c : heap_ok T s → heap_ok T (with_cpu s c).
Proof.
  intros [H1 H2 H3 H4]. split; [by apply set_cpu_tree|done|done|].
  intros pg Hpg. cbn in Hpg. rewrite fa_used_set_cpu in Hpg. by apply H4.
Qed.

(** An allocation of [n] bytes at the page [p]: its pages were free, and the buffer lies inside. *)
Record buffer (n p : Z) s s' : Prop := {
  bf_free : free_run (frames s) p (alloc_pages n);
  bf_taken : ∀ q, in_run p (alloc_pages n) q = true → fa_used (frames s') q = true;
  bf_bound : 0 < p ∧ 2 ≤ alloc_pages n ∧ p + alloc_pages n ≤ PHYS_PAGES ∧ n ≤ (alloc_pages n - 2) * PAGE
}.

(** A buffer is in the direct map of its pages. *)
Definition in_buffer (n p x : Z) : Prop := kpage (p + 1) ≤ x < kpage (p + 1) + n.
Lemma buffer_page n p s s' x : buffer n p s s' → in_buffer n p x →
  in_run p (alloc_pages n) ((x - NORMAL_VMA_OFFSET) / PAGE) = true.
Proof.
  intros [_ _ (Hp & Hn & Hpn & Hsz)] Hx. unfold in_buffer, kpage, in_run in *.
  rewrite (proj2 (Z.leb_le _ _)), (proj2 (Z.ltb_lt _ _)) by dlia. done.
Qed.
Lemma buffer_range n p s s' : 0 ≤ n → buffer n p s s' →
  NORMAL_VMA_OFFSET ≤ kpage (p + 1) ∧ kpage (p + 1) + n + PAGE ≤ NORMAL_VMA_OFFSET + PHYS_PAGES * PAGE.
Proof. intros Hn0 [_ _ (Hp & Hn & Hpn & Hsz)]. unfold kpage. lia. Qed.

Lemma buffer_free n p s s' x : buffer n p s s' → in_buffer n p x → fa_used (frames s) ((x - NORMAL_VMA_OFFSET) / PAGE) = false.
Proof.
  intros Hb Hx. pose proof (buffer_page _ _ _ _ _ Hb Hx) as Hr. unfold in_run in Hr. zbool. apply (bf_free _ _ _ _ Hb). lia.
Qed.
Lemma buffer_used n p s s' x : buffer n p s s' → in_buffer n p x → fa_used (frames s') ((x - NORMAL_VMA_OFFSET) / PAGE) = true.
Proof. intros Hb Hx. apply (bf_taken _ _ _ _ Hb). by eapply buffer_page. Qed.

(** Two buffers, of which the second was allocated when the first was there, do not overlap. *)
Lemma buffers_apart n1 p1 s1 s1' n2 p2 s2 s2' x : buffer n1 p1 s1 s1' → buffer n2 p2 s2 s2' →
  (∀ q, fa_used (frames s1') q = true → fa_used (frames s2) q = true) → in_buffer n1 p1 x → in_buffer n2 p2 x → False.
Proof.
  intros H1 H2 Hu Hx1 Hx2. pose proof (buffer_used _ _ _ _ _ H1 Hx1) as Hu1. apply Hu in Hu1.
  by rewrite (buffer_free _ _ _ _ _ H2 Hx2) in Hu1.
Qed.

Lemma alloc_pages_mono n m : 0 ≤ n ≤ m → m + 12288 ≤ U64_MOD → alloc_pages n ≤ alloc_pages m.
Proof. intros Hn Hm. unfold alloc_pages. rewrite !pages_of_exact by lia. dlia. Qed.

(** [kmalloc], with what it takes of the memory that is left. *)
Lemma kmalloc_grew T s n : heap_ok T s → 0 ≤ n → n + 12288 ≤ U64_MOD →
  has_room (frames s) (Z.to_nat (alloc_pages n) + 12) → (∃ q, free_run (frames s) q (alloc_pages n)) →
  ∃ p T' s', kmalloc n s = Ok (kpage (p + 1), s') ∧ heap_grew s T s' T' ∧ buffer n p s s' ∧
    took (Z.to_nat (alloc_pages n) + 12) (frames s) (frames s') ∧ Kmalloc.owned n p s' T'.
Proof.
  intros Hh H1 H2 Hroom Hq. destruct (kmalloc_ok T s n 0 Hh H1 H2) as (p & T' & s' & E & A & _); [by rewrite Nat.add_0_r|done|].
  pose proof A as [Af (Hp & Hn & Hpn & Hsz) Ah Ar Au _ Aw _ _].
  pose proof (fa_size_bound _ (t_alloc _ _ _ (h_tree _ _ Hh))) as Hb.
  exists p, T', s'. split; [exact E|]. split_and!.
  - split; [done|done|intros q Hu; apply Au; by rewrite Hu|]. intros v Hv. rewrite Aw.
    rewrite <-page_off_shift by lia. pose proof (Hv p (Af p ltac:(lia))) as Hv1.
    pose proof (Hv (p + alloc_pages n - 1) (Af (p + alloc_pages n - 1) ltac:(lia))) as Hv2.
    by rewrite (proj2 (Z.eqb_neq _ _) Hv1), (proj2 (Z.eqb_neq _ _) Hv2).
  - split; [done|intros q Hq'; apply Au; by rewrite Hq', orb_true_r|]. split_and!; try done; lia.
  - split; [apply Ah|apply Ar|intros q Hu; apply Au; by rewrite Hu|]. intros k Hk.
    destruct (kmalloc_ok T s n k Hh H1 H2) as (p2 & T2 & s2 & E2 & _ & Hr2); [by rewrite Nat.add_assoc|done|].
    rewrite E in E2. by injection E2 as _ <-.
  - exact (allocation_owned n p s T s' T' Hh H1 H2 A).
Qed.

Lemma cli_took s c : fa_inv (frames s) → took 0 (frames s) (frames (with_cpu s c)).
Proof.
  intros Hi. split; cbn; [by apply fa_inv_set_cpu|apply fa_size_set_cpu|intros p; by rewrite fa_used_set_cpu|].
  intros k Hk. by apply has_room_set_cpu.
Qed.

(** ** The calls *)

Lemma kmalloc_bytes_ok T (u : user_st F) n : heap_ok T (vm u) → 0 ≤ n → n + 12288 ≤ U64_MOD →
  has_room (frames (vm u)) (Z.to_nat (alloc_pages n) + 12) → (∃ q, free_run (frames (vm u)) q (alloc_pages n)) →
  ∃ p T' v', kmalloc_bytes n u = Ok (kpage (p + 1), u <| vm := v' |>) ∧ heap_grew (vm u) T v' T' ∧ buffer n p (vm u) v' ∧
    took (Z.to_nat (alloc_pages n) + 12) (frames (vm u)) (frames v') ∧ Kmalloc.owned n p v' T'.
Proof.
  intros Hh H1 H2 Hroom Hq. destruct (kmalloc_grew T (vm u) n Hh H1 H2 Hroom Hq) as (p & T' & v' & E & G).
  exists p, T', v'. split; [by apply on_vm_ok|done].
Qed.

Lemma kcalloc_bytes_ok T (u : user_st F) n : heap_ok T (vm u) → 0 ≤ n → n + 12288 ≤ U64_MOD →
  has_room (frames (vm u)) (Z.to_nat (alloc_pages n) + 12) → (∃ q, free_run (frames (vm u)) q (alloc_pages n)) →
  ∃ p T' v', kcalloc_bytes n u = Ok (kpage (p + 1), mk_user
      (kern u <| kmem := λ x, if (kpage (p + 1) <=? x) && (x <? kpage (p + 1) + n) then 0 else kmem (kern u) x |>) v') ∧
    heap_grew (vm u) T v' T' ∧ buffer n p (vm u) v' ∧ took (Z.to_nat (alloc_pages n) + 12) (frames (vm u)) (frames v') ∧ Kmalloc.owned n p v' T'.
Proof.
  intros Hh H1 H2 Hroom [q Hq]. unfold kcalloc_bytes. erewrite bind_ok by (apply on_vm_ok, cli_ok). cbv beta.
  set (c := snd (interrupt_lock (fa_cpu (frames (vm u))))). change (cli (vm u)) with (with_cpu (vm u) c).
  set (u1 := u <| vm := with_cpu (vm u) c |>).
  destruct (kmalloc_bytes_ok T u1 n (heap_with_cpu _ _ c Hh) H1 H2) as (p & T' & v' & E & G & B & K & O).
  { cbn. by apply has_room_set_cpu. }
  { exists q. intros k Hk. cbn. rewrite fa_used_set_cpu. by apply Hq. }
  mrun E. erewrite bind_ok by (by apply on_kern_ok). cbv beta. erewrite bind_ok by (apply on_vm_ok, sti_ok). cbv beta.
  exists p, T'. eexists. split; [reflexivity|].
  set (c' := interrupt_unlock (check_interrupts (fa_cpu (frames (vm u)))) (fa_cpu (frames v'))).
  change (sti _ v') with (with_cpu v' c'). destruct G as [G1 G2 G3 G4]. split_and!.
  - split.
    + by apply heap_with_cpu.
    + destruct G2 as (R1 & R2 & R3 & R4 & R5 & R6). unfold same_regs in *. cbn in *. rewrite fa_cpu_set in *. rewrite fa_size_set_cpu in *.
      split_and!; try congruence. unfold c', c, interrupt_unlock, check_interrupts, interrupt_lock in *.
      destruct (if_flag (fa_cpu (frames (vm u)))) eqn:Ei; cbn in *; congruence.
    + intros x Hx. cbn in *. rewrite fa_used_set_cpu. apply G3. by rewrite fa_used_set_cpu.
    + intros v Hv. apply G4. intros x. cbn. rewrite fa_used_set_cpu. apply Hv.
  - destruct B as [B1 B2 B3]. split; [|intros x Hx; cbn; rewrite fa_used_set_cpu; by apply B2|done].
    intros k Hk. specialize (B1 k Hk). cbn in B1. by rewrite fa_used_set_cpu in B1.
  - pose proof (cli_took (vm u) c (t_alloc _ _ _ (h_tree _ _ Hh))) as K1. pose proof (cli_took v' c' (tk_inv _ _ _ K)) as K2.
    eapply took_weaken; [|eapply took_trans; [exact K1|eapply took_trans; [exact K|exact K2]]]. lia.
  - destruct O as [O1 O2 O3 O4 O5 O6 O7 O8 O9]. split; try done; cbn; [by rewrite fa_size_set_cpu|].
    intros q' Hq'. rewrite fa_used_set_cpu. by apply O3.
Qed.

(** When there is [enough] memory, an allocation leaves enough for what comes after it. *)
Lemma enough_alloc T s n N m : heap_ok T s → 0 ≤ n → n + 12288 ≤ U64_MOD → alloc_pages n + 12 ≤ m →
  enough (frames s) (Z.to_nat (alloc_pages n) + 12 + N) m →
  has_room (frames s) (Z.to_nat (alloc_pages n) + 12) ∧ (∃ q, free_run (frames s) q (alloc_pages n)) ∧
  ∀ f, took (Z.to_nat (alloc_pages n) + 12) (frames s) f → enough f N m.
Proof.
  intros Hh H1 H2 Hm He. pose proof (t_alloc _ _ _ (h_tree _ _ Hh)) as Hi. destruct (alloc_pages_bound n H1 H2) as [Hn _].
  split_and!.
  - eapply enough_room; [exact Hi|exact He|lia].
  - eapply enough_run; [exact Hi|]. eapply enough_le; [|exact He]. lia.
  - intros f Hf. by eapply enough_took.
Qed.
End grew.

(** ** 1.3 GB of memory, in the direct map *)

(** The pages 1 to 4 are the tables of the direct map, of 2 MiB pages; the rest but page 0 is free. *)
Definition big_pmm : pmm_state := mk_pmm (31 :: replicate (Z.to_nat 39999) 0) 320000 0 0 0 0 0 cpu0.
Definition big_mem (a : Z) : Z :=
  if a =? 6144 then 8195 else if a =? 8192 then 12291 else if a =? 8200 then 16387
  else if (12288 <=? a) && (a <? 20480) && (a mod 8 =? 0) then (a - 12288) / 8 * 2097152 + 131 else 0.
Definition big_demo : vmm_state pmm_state := mk_vmm big_pmm big_mem 4096 0 [] 4096 1.
Definition big_tree : tree := {[(3%nat, 0) := 4096; (2%nat, 256) := 8192; (1%nat, 131072) := 12288; (1%nat, 131073) := 16384]}.

Lemma big_used p : page_used big_pmm p = false ↔ 5 ≤ p < 320000.
Proof.
  unfold page_used, big_pmm. cbn [bitmap]. set (l := replicate (Z.to_nat 39999) 0). destruct (decide (0 ≤ p)) as [Hp|Hp].
  2: { rewrite idx_neg by dlia. split; [done|lia]. }
  destruct (decide (p / 8 = 0)) as [E0|E0].
  - rewrite E0. change (idx (31 :: l) 0) with (Some 31). assert (0 ≤ p < 8) as Hr by dlia. clear -Hr.
    assert (p = 0 ∨ p = 1 ∨ p = 2 ∨ p = 3 ∨ p = 4 ∨ p = 5 ∨ p = 6 ∨ p = 7) as Hc by lia.
    repeat (destruct Hc as [-> | Hc]; [split; [intros E; first [discriminate E|lia]|intros; first [reflexivity|lia]]|]).
    subst. split; [lia|reflexivity].
  - change (31 :: l) with ([31] ++ l). rewrite idx_app_range. change (zlen [31]) with 1. rewrite (proj2 (Z.ltb_ge _ _)) by dlia.
    destruct (idx l (p / 8 - 1)) as [b|] eqn:E.
    + apply idx_Some in E as [Hr E]. apply lookup_replicate in E as [-> _]. rewrite Z.testbit_0_l. unfold l, zlen in Hr. rewrite length_replicate in Hr.
      rewrite Z2Nat.id in Hr by lia. split; [intros _; dlia|done].
    + split; [done|]. intros Hr. destruct (idx_lt l (p / 8 - 1)) as [x Hx]; [|congruence]. unfold l, zlen. rewrite length_replicate, Z2Nat.id by lia. dlia.
Qed.

Lemma big_inv : fa_inv big_pmm.
Proof.
  split_and!; [|done|by vm_compute]. split; cbn [big_pmm bitmap_max_page bitmap used_memory available_memory total_memory]; try done.
  - constructor; [done|]. by apply Forall_replicate.
Qed.

Lemma big_tree_cases r f : big_tree !! r = Some f →
  (r = (3%nat, 0) ∧ f = 4096) ∨ (r = (2%nat, 256) ∧ f = 8192) ∨ (r = (1%nat, 131072) ∧ f = 12288) ∨ (r = (1%nat, 131073) ∧ f = 16384).
Proof.
  unfold big_tree. intros [[<- <-]|[_ H]]%lookup_insert_Some; [by left|].
  apply lookup_insert_Some in H as [[<- <-]|[_ H]]; [right; by left|].
  apply lookup_insert_Some in H as [[<- <-]|[_ H]]; [right; right; by left|].
  apply lookup_singleton_Some in H as [<- <-]. right. right. by right.
Qed.
Lemma big_tree_none r : r ≠ (3%nat, 0) → r ≠ (2%nat, 256) → r ≠ (1%nat, 131072) → r ≠ (1%nat, 131073) → big_tree !! r = None.
Proof.
  intros. destruct (big_tree !! r) as [f|] eqn:E; [|done]. apply big_tree_cases in E as [[-> _]|[[-> _]|[[-> _]|[-> _]]]]; done.
Qed.

Lemma big_mem_dir i : 0 ≤ i < 1024 → big_mem (12288 + 8 * i) = i * 2097152 + 131.
Proof.
  intros Hi. unfold big_mem. rewrite !(proj2 (Z.eqb_neq (12288 + 8 * i) _)) by lia.
  rewrite (proj2 (Z.leb_le _ _)), (proj2 (Z.ltb_lt _ _)), (proj2 (Z.eqb_eq _ _)) by dlia. cbn [andb]. f_equal. dlia.
Qed.
Lemma big_mem_low a : a ≠ 6144 → a ≠ 8192 → a ≠ 8200 → a < 12288 → big_mem a = 0.
Proof. intros. unfold big_mem. rewrite !(proj2 (Z.eqb_neq a _)), (proj2 (Z.leb_gt _ _)) by lia. done. Qed.

Lemma big_page i : 0 ≤ i < 1024 → let e := i * 2097152 + 131 in
  has e VMM_PRESENT = true ∧ has e VMM_HUGE = true ∧ Z.land e VMM_4K_PERM_MASK = i * 2097152.
Proof.
  intros Hi e. unfold e. rewrite has_present, has_huge. assert ((i * 2097152) mod 4096 = 0) as Ha by dlia.
  rewrite !testbit_page by (done || lia). split_and!; [done..|]. rewrite land_mask by (unfold is_u64; lia). dlia.
Qed.

Lemma big_demo_entry l pr f i : big_tree !! (S l, pr) = Some f → 0 ≤ i < 512 → entry_ok big_tree l (pr * 512 + i) (big_mem (f + 8 * i)).
Proof.
  intros H Hi. unfold entry_ok.
  apply big_tree_cases in H as [[[= -> ->] ->]|[[[= -> ->] ->]|[[[= -> ->] ->]|[[= -> ->] ->]]]].
  - destruct (decide (i = 256)) as [->|Hne]; [by vm_compute|].
    rewrite big_tree_none by (intros [=]; lia). left. apply big_mem_low; lia.
  - destruct (decide (i = 0)) as [->|Hne]; [by vm_compute|]. destruct (decide (i = 1)) as [->|Hne1]; [by vm_compute|].
    rewrite big_tree_none by (intros [=]; lia). left. apply big_mem_low; lia.
  - rewrite big_tree_none by (intros [=]; lia). right. rewrite big_mem_dir by lia. destruct (big_page i ltac:(lia)) as (H1 & H2 & H3).
    split_and!; [done..|]. rewrite H3. dlia.
  - rewrite big_tree_none by (intros [=]; lia). right. replace (16384 + 8 * i) with (12288 + 8 * (512 + i)) by lia. rewrite big_mem_dir by lia.
    destruct (big_page (512 + i) ltac:(lia)) as (H1 & H2 & H3). split_and!; [done..|]. rewrite H3. dlia.
Qed.

Lemma big_demo_tree : tree_ok big_tree 4096 big_demo.
Proof.
  split.
  - exact big_inv.
  - intros a. cbn. unfold big_mem, is_u64. repeat destruct (a =? _); try lia.
    destruct (_ && _ && _) eqn:E; [|lia]. apply andb_true_iff in E as [E _]. apply andb_true_iff in E as [E1 E2]. zbool. dlia.
  - done.
  - intros l pr f [[[= -> ->] ->]|[[[= -> ->] ->]|[[[= -> ->] ->]|[[= -> ->] ->]]]]%big_tree_cases; cbn; split_and!; lia || done.
  - intros r1 r2 f [[-> ->]|[[-> ->]|[[-> ->]|[-> ->]]]]%big_tree_cases [[-> E]|[[-> E]|[[-> E]|[-> E]]]]%big_tree_cases; done.
  - intros l pr f [[[= -> ->] ->]|[[[= -> ->] ->]|[[[= -> ->] ->]|[[= -> ->] ->]]]]%big_tree_cases Hl; [lia|by exists 4096|by exists 8192..].
  - apply big_demo_entry.
Qed.

Lemma big_demo_ok : heap_ok big_tree big_demo.
Proof.
  split; [exact big_demo_tree|done| |].
  - intros i Hi. cbn. rewrite big_mem_low by lia. done.
  - intros pg Hpg o Ho. apply big_used in Hpg. exists 131. unfold translate. cbn [cr3 big_demo mem]. set (v := kpage pg + o).
    assert (pt_index 3 v = 256 ∧ pt_index 2 v = pg / 262144 ∧ pt_index 1 v = (pg / 512) mod 512 ∧ v mod 2097152 = (pg mod 512) * PAGE + o)
      as (E3 & E2 & E1 & E0).
    { unfold v, pt_index, kpage, NORMAL_VMA_OFFSET. cbn [blk]. split_and!; dlia. }
    cbn [walk]. rewrite E3, E2, E1, E0. change (big_mem (4096 + 8 * 256)) with 8195. change (has 8195 VMM_PRESENT) with true. cbn [Nat.eqb andb].
    change (Z.land 8195 VMM_4K_PERM_MASK) with 8192.
    assert (big_mem (8192 + 8 * (pg / 262144)) = 12291 + 4096 * (pg / 262144) ∧ has (12291 + 4096 * (pg / 262144)) VMM_PRESENT = true ∧
      Z.land (12291 + 4096 * (pg / 262144)) VMM_4K_PERM_MASK = 12288 + 4096 * (pg / 262144)) as (F1 & F2 & F3).
    { assert (pg / 262144 = 0 ∨ pg / 262144 = 1) as [-> | ->] by dlia; done. }
    rewrite F1, F2, F3. replace (12288 + 4096 * (pg / 262144) + 8 * ((pg / 512) mod 512)) with (12288 + 8 * (pg / 512)) by dlia.
    rewrite big_mem_dir by dlia. destruct (big_page (pg / 512) ltac:(dlia)) as (H1 & H2 & H3). rewrite H1, H2, H3. cbn [andb].
    do 2 f_equal; [dlia|]. dlia.
Qed.

Lemma big_enough n : (Z.of_nat n + 1) * 512 ≤ 319995 → enough big_pmm n 512.
Proof. intros Hn. apply (enough_stretch _ 5 320000); [lia|exact big_used|lia]. Qed.
