(* ===== verification/Elf.v ===== *)
(** * Loading ELF programs (proc/exec_formats/elf.c, elf.h)

    [load_elf_addrspace] reads the headers of a file into buffers of the heap
    and builds an address space from its program headers.  The file is read with
    the calls of Fd.v; the state is the kernel's and the memory manager's
    together.  Buffers come from the kernel heap of Kmalloc.v, with its pages and guard pages.
    The bytes that the kernel reads and writes, in these buffers and
    through the direct map of physical memory, are [kmem]; the page tables and the headers of the heap are
    the memory of the virtual memory manager.  The loader calls itself for the
    interpreter a program names; [fuel] bounds the depth, which the code does
    not.  The clock it reads for its messages is left out. *)

From S2P Require Import Prelude Locks CString Pmm Frames Vmm Kmalloc DList Blocks Bytes Vfs Kernel Stack Proc Sched SleepQueue Fd UserMemory Buffers.

Definition PT_LOAD : Z := 1.
Definition PT_INTERP : Z := 3.
Definition PT_PHDR : Z := 6.
Definition AT_PHDR : Z := 3.
Definition AT_PHENT : Z := 4.
Definition AT_PHNUM : Z := 5.
Definition AT_ENTRY : Z := 9.
Definition USER_STACK_SIZE : Z := 2097152.
Definition USER_STACK_PAGES : Z := (USER_STACK_SIZE + PAGE - 1) / PAGE.
Definition USER_STACK : Z := 140737488355312. (* 0x7FFFFFFFFFF0 *)
Definition USER_STACK_START : Z := USER_STACK - USER_STACK_SIZE + 16.
Definition LINKER_BASE : Z := 34359738368. (* 0x800000000 *)

(** ** Headers: packed structures, read from their bytes *)

Record elf_ehdr_t : Type := mk_ehdr {
  iden_bytes : list Z;
  e_type : Z;
  e_machine : Z;
  e_version : Z;
  e_entry : Z;
  e_phoff : Z;
  e_shoff : Z;
  e_flags : Z;
  e_ehsize : Z;
  e_phentsize : Z;
  e_phnum : Z;
  e_shentsize : Z;
  e_shnum : Z;
  e_shstrndx : Z
}.
Definition SIZEOF_EHDR : Z := 64.
Definition ehdr_of (b : list Z) : elf_ehdr_t :=
  mk_ehdr (slice b 0 16) (fld 16 2 b) (fld 18 2 b) (fld 20 4 b) (fld 24 8 b) (fld 32 8 b) (fld 40 8 b) (fld 48 4 b)
    (fld 52 2 b) (fld 54 2 b) (fld 56 2 b) (fld 58 2 b) (fld 60 2 b) (fld 62 2 b).

Record elf_phdr_t : Type := mk_phdr {
  p_type : Z;
  p_flags : Z;
  p_offset : Z;
  p_vaddr : Z;
  p_paddr : Z;
  p_filesz : Z;
  p_memsz : Z;
  p_align : Z
}.
Definition SIZEOF_PHDR : Z := 56.
Definition phdr_of (b : list Z) : elf_phdr_t :=
  mk_phdr (fld 0 4 b) (fld 4 4 b) (fld 8 8 b) (fld 16 8 b) (fld 24 8 b) (fld 32 8 b) (fld 40 8 b) (fld 48 8 b).

Record elf_shdr_t : Type := mk_shdr {
  sh_name : Z;
  sh_type : Z;
  sh_flags : Z;
  sh_addr : Z;
  sh_offset : Z;
  sh_size : Z;
  sh_link : Z;
  sh_info : Z;
  sh_addralign : Z;
  sh_entsize : Z
}.
Definition SIZEOF_SHDR : Z := 64.
Definition shdr_of (b : list Z) : elf_shdr_t :=
  mk_shdr (fld 0 4 b) (fld 4 4 b) (fld 8 8 b) (fld 16 8 b) (fld 24 8 b) (fld 32 8 b) (fld 40 4 b) (fld 44 4 b)
    (fld 48 8 b) (fld 56 8 b).

(** The [n] bytes at [a]. *)
Definition bytes_at (a n : Z) : kM (list Z) := gets (λ s, load_bytes (kmem s) a (Z.to_nat n)).

(** The variables of [load_elf_addrspace] that its loop changes: whether there is an interpreter,
    its entry point, and the auxiliary vector: the address of its array, [0] for null, and the entries in it. *)
Record load_vars : Type := mk_load {
  loaded_dynamic_linker : bool;
  dynamic_linker_entry : Z;
  l_array : Z;
  l_auxv : list (Z * Z)
}.
Definition SIZEOF_AUXV : Z := 16.

Section load.
Context {F : Type} `{!FrameAlloc F}.
Context (mapped : Z → Z → bool) `{Code} (junk : Z → list Z).
(** The address of the array [elf_magic] on the kernel's stack. *)
Context (elf_magic : Z).
Abbreviation uM := (stM (user_st F)).

(** [fd_open] of a path in the memory of the kernel. *)
Definition open_path (path : Z) : kM Z := s ← get; fd_open mapped (kmem s) junk path 0.
(** [fd_seek(fd, offset, SEEK_SET)], then [fd_read(fd, buf, count)]. *)
Definition read_at (fd offset buf count : Z) : kM unit :=
  fd_seek fd offset SEEK_SET ;; fd_read mapped fd buf count ;; mret tt.

(** A table of [n] headers of [size] bytes at [offset] of the file, read one after the other. *)
Definition read_table (fd offset buf size n : Z) : kM unit :=
  fd_seek fd offset SEEK_SET ;;
  for_loop (Z.to_nat n) 0 (λ i, fd_read mapped fd (u64 (buf + i * size)) size ;; mret tt).
(** The [i]-th header of a table of [n]. *)
Definition header_at {A} (dec : list Z → A) (buf size n i : Z) : kM A :=
  if i <? n then b ← bytes_at (u64 (buf + i * size)) size; mret (dec b) else crashM Fault.
Definition headers {A} (dec : list Z → A) (buf size n : Z) : kM (list A) :=
  gets (λ s, map (λ i, dec (load_bytes (kmem s) (u64 (buf + i * size)) (Z.to_nat size))) (seqZ 0 n)).

(** The headers of the file: [None] when it is no ELF file, otherwise the file header and the program headers. *)
Definition load_headers (fd : Z) : uM (option (elf_ehdr_t * list elf_phdr_t)) :=
  on_kern (read_at fd 0 elf_magic 4) ;;
  magic ← on_kern (bytes_at elf_magic 4);
  '(differs, _) ← on_kern (on_buf (strncmp magic 4) [127; 69; 76; 70; 0]);
  if negb (differs =? 0) then
    on_kern (print "Elf magic invalid!") ;; on_kern (fd_close fd) ;; mret None
  else
    ehdr_buf ← kmalloc_bytes SIZEOF_EHDR;
    on_kern (read_at fd 0 ehdr_buf SIZEOF_EHDR) ;;
    b ← on_kern (bytes_at ehdr_buf SIZEOF_EHDR);
    let ehdr := ehdr_of b in
    on_kern (if negb (bool_decide (idx (iden_bytes ehdr) 4 = Some 2)) then print "32-bit ELF! (iden_bytes[4] == %u) Not loading." else mret tt) ;;
    phdrs ← kmalloc_bytes (SIZEOF_PHDR * e_phnum ehdr);
    shdrs ← kmalloc_bytes (SIZEOF_SHDR * e_shnum ehdr);
    on_kern (read_table fd (e_shoff ehdr) shdrs SIZEOF_SHDR (e_shnum ehdr)) ;;
    on_kern (read_table fd (e_phoff ehdr) phdrs SIZEOF_PHDR (e_phnum ehdr)) ;;
    sh ← on_kern (header_at shdr_of shdrs SIZEOF_SHDR (e_shnum ehdr) (e_shstrndx ehdr));
    shstr_data ← kmalloc_bytes (sh_size sh);
    on_kern (read_at fd (sh_offset sh) shstr_data (sh_size sh)) ;;
    phs ← on_kern (headers phdr_of phdrs SIZEOF_PHDR (e_phnum ehdr));
    mret (Some (ehdr, phs)).

(** ** One program header *)

(** [PT_LOAD] *)
Definition load_segment (fd base elf_address_space : Z) (ph : elf_phdr_t) : uM unit :=
  if p_memsz ph =? 0 then mret tt
  else
    let pages := u64 (p_memsz ph + PAGE - 1) / PAGE in
    let virt := u64 (p_vaddr ph + base) in
    region_phys ← on_vm (vmm_pmm_alloc (p_memsz ph));
    let region_virt := GET_HIGHER_HALF region_phys in
    let region_virt := u64 (region_virt + Z.land virt 4095) in
    on_kern (clear_bytes region_virt (p_memsz ph)) ;;
    on_kern (read_at fd (p_offset ph) region_virt (p_filesz ph)) ;;
    on_vm (vmm_remap_pages region_phys virt elf_address_space pages (Z.lor (Z.lor VMM_PRESENT VMM_USER) VMM_WRITE)) ;;
    mret tt.

(** [auxv = krealloc(auxv, (auxc + 1) * sizeof(auxv_t)); auxv[auxc++] = new_auxv;] *)
Definition push_auxv (new_auxv : Z * Z) (v : load_vars) : uM load_vars :=
  array ← on_vm (krealloc (l_array v) ((zlen (l_auxv v) + 1) * SIZEOF_AUXV));
  mret (mk_load (loaded_dynamic_linker v) (dynamic_linker_entry v) array (l_auxv v ++ [new_auxv])).

(** [PT_INTERP]: [load] is the loader itself, called without [auxv_out]. *)
Definition load_interp (load : Z → Z → Z → bool → uM (option (Z * Z * list (Z * Z)))) (fd base elf_address_space : Z)
    (ehdr : elf_ehdr_t) (ph : elf_phdr_t) (v : load_vars) : uM load_vars :=
  ld_path ← kcalloc_bytes (u64 (p_filesz ph + 1));
  on_kern (read_at fd (p_offset ph) ld_path (p_filesz ph)) ;;
  r ← load ld_path LINKER_BASE elf_address_space false;
  let entry := match r with Some (_, entry, _) => entry | None => dynamic_linker_entry v end in
  v ← push_auxv (AT_ENTRY, u64 (e_entry ehdr + base)) (mk_load true entry (l_array v) (l_auxv v));
  v ← push_auxv (AT_PHNUM, e_phnum ehdr) v;
  push_auxv (AT_PHENT, SIZEOF_PHDR) v.

Definition load_phdr (load : Z → Z → Z → bool → uM (option (Z * Z * list (Z * Z)))) (fd base elf_address_space : Z)
    (ehdr : elf_ehdr_t) (ph : elf_phdr_t) (v : load_vars) : uM load_vars :=
  if p_type ph =? PT_LOAD then load_segment fd base elf_address_space ph ;; mret v
  else if p_type ph =? PT_INTERP then load_interp load fd base elf_address_space ehdr ph v
  else if p_type ph =? PT_PHDR then push_auxv (AT_PHDR, u64 (p_vaddr ph + base)) v
  else mret v.

Fixpoint load_phdrs (load : Z → Z → Z → bool → uM (option (Z * Z * list (Z * Z)))) (fd base elf_address_space : Z)
    (ehdr : elf_ehdr_t) (phs : list elf_phdr_t) (v : load_vars) : uM load_vars :=
  match phs with
  | [] => mret v
  | ph :: phs' => v ← load_phdr load fd base elf_address_space ehdr ph v; load_phdrs load fd base elf_address_space ehdr phs' v
  end.

(** The stack of a program without interpreter. *)
Definition load_stack (elf_address_space : Z) : uM unit :=
  phys_stack_region ← on_vm (vmm_pmm_alloc USER_STACK_SIZE);
  on_kern (clear_bytes (GET_HIGHER_HALF phys_stack_region) USER_STACK_SIZE) ;;
  on_vm (vmm_map_pages phys_stack_region USER_STACK_START elf_address_space USER_STACK_PAGES
    (Z.lor (Z.lor VMM_PRESENT VMM_USER) VMM_WRITE)) ;;
  mret tt.

(** The address space with what is stored in [*entry_out] and, when there is an [auxv_out], in [*auxv_out]; [None] is null, when
    nothing is stored.  [export_cr3] is [0] for a new address space. *)
Fixpoint load_elf_addrspace (fuel : nat) (path base export_cr3 : Z) (auxv_out : bool) : uM (option (Z * Z * list (Z * Z))) :=
  match fuel with
  | O => crashM Hang
  | S fuel' =>
      on_kern (print "Reading ELF: %s") ;;
      fd ← on_kern (open_path path);
      if fd <? 0 then on_kern (print "Loading elf failed! path: %s, error: %d") ;; mret None
      else
        h ← load_headers fd;
        match h with
        | None => mret None
        | Some (ehdr, phs) =>
            elf_address_space ← (if export_cr3 =? 0
              then on_vm (s ← get; vmm_fork_higher_half (Vmm.base_kernel_cr3 s)) else mret export_cr3);
            v ← load_phdrs (load_elf_addrspace fuel') fd base elf_address_space ehdr phs (mk_load false 0 0 []);
            entry ← (if loaded_dynamic_linker v then mret (dynamic_linker_entry v)
                     else load_stack elf_address_space ;; mret (u64 (e_entry ehdr + base)));
            (if negb auxv_out && negb (l_array v =? 0) then on_vm (kfree (l_array v)) else mret tt) ;;
            on_kern (fd_close fd) ;;
            mret (Some (elf_address_space, entry, l_auxv v))
        end
  end.
End load.
