(* ===== verification/ElfHeaders.v ===== *)
(** * Reading the headers of an ELF file

    [serves] is what the loader needs of an open file; [file_serves] shows that
    the calls of Fd.v provide it for a file whose node reads and seeks as the
    file systems do.  [load_headers] then finds the headers that are in the file
    and writes only the buffers it allocates and its array on the stack. *)

From S2P Require Import Prelude Locks CString Pmm Frames Vmm VmmTree VmmSpec VmmMap VmmTheorems Kmalloc DList Blocks Bytes Vfs Kernel Stack Proc Sched SleepQueue Fd FdTheorems UserMemory UserMemoryTheorems Spaces Buffers Elf.

Lemma store_bytes_app l1 : ∀ m a l2, 0 ≤ a → a + zlen l1 + zlen l2 ≤ U64_MOD →
  store_bytes m a (l1 ++ l2) = store_bytes (store_bytes m a l1) (u64 (a + zlen l1)) l2.
Proof.
  induction l1 as [|c l1 IH]; intros m a l2 Ha Hl.
  - change (zlen (@nil Z)) with 0 in *. cbn [app store_bytes]. destruct l2 as [|x l2]; [done|].
    rewrite zlen_cons in Hl. pose proof (zlen_nonneg l2). by rewrite Z.add_0_r, u64_small by (unfold is_u64; lia).
  - rewrite zlen_cons in *. pose proof (zlen_nonneg l1). pose proof (zlen_nonneg l2). cbn [app store_bytes].
    destruct (decide (zlen l1 + zlen l2 = 0)) as [Hz|Hz].
    + assert (l1 = []) as -> by (apply nil_length_inv; unfold zlen in *; lia).
      assert (l2 = []) as -> by (apply nil_length_inv; unfold zlen in *; lia). done.
    + rewrite u64_small by (unfold is_u64; lia). rewrite IH by lia. f_equal. f_equal. lia.
Qed.

(** A part of what was stored. *)
Lemma load_stored m a img off tot d n : Forall is_u8 img → 0 ≤ a → a + tot ≤ U64_MOD → 0 ≤ off → off + tot ≤ zlen img →
  0 ≤ d → 0 ≤ n → d + n ≤ tot → load_bytes (store_bytes m a (slice img off tot)) (u64 (a + d)) (Z.to_nat n) = slice img (off + d) n.
Proof.
  intros Hb Ha Hat Hoff Hin Hd Hn Hdn. apply idx_ext.
  { rewrite zlen_slice by lia. unfold zlen, load_bytes. rewrite length_map, length_seqZ. lia. }
  intros i Hi. unfold zlen, load_bytes in Hi. rewrite length_map, length_seqZ in Hi.
  rewrite idx_load by lia. rewrite idx_slice by lia. rewrite (u64_small (a + d)) by (unfold is_u64; lia).
  rewrite u64_small by (unfold is_u64; lia). rewrite store_bytes_lookup by (rewrite ?zlen_slice; lia). rewrite zlen_slice by lia.
  rewrite (proj2 (Z.leb_le _ _)), (proj2 (Z.ltb_lt _ _)) by lia. cbn [andb].
  destruct (idx_lt img (off + d + i) ltac:(lia)) as [x Hx]. rewrite Hx. f_equal.
  assert (idx (slice img off tot) (d + i) = Some x) as Hs by (rewrite idx_slice by lia; rewrite <-Hx; f_equal; lia).
  apply idx_Some in Hs as [_ Hs]. replace (Z.to_nat (a + d + i - a)) with (Z.to_nat (d + i)) by lia.
  rewrite (nth_lookup_Some _ _ 0 _ Hs). apply idx_Some in Hx as [_ Hx]. rewrite Forall_lookup in Hb.
  apply Z.mod_small. by apply (Hb _ _ Hx).
Qed.

Lemma fld_in b off n : Forall is_u8 b → 0 ≤ n → 0 ≤ fld off n b < 256 ^ n.
Proof.
  intros Hb Hn. unfold fld. assert (Forall is_u8 (slice b off n)) as Hs by (unfold slice; by apply Forall_take, Forall_drop).
  pose proof (le_word_range _ Hs). assert (zlen (slice b off n) ≤ n) by (unfold zlen, slice; rewrite length_take; lia).
  pose proof (zlen_nonneg (slice b off n)). pose proof (Z.pow_le_mono_r 256 (zlen (slice b off n)) n). lia.
Qed.

(** ** The headers in the file *)

Definition ehdr_in (img : list Z) : elf_ehdr_t := ehdr_of (slice img 0 SIZEOF_EHDR).
Definition phdrs_in (img : list Z) : list elf_phdr_t :=
  map (λ i, phdr_of (slice img (e_phoff (ehdr_in img) + i * SIZEOF_PHDR) SIZEOF_PHDR)) (seqZ 0 (e_phnum (ehdr_in img))).
Definition shstr_in (img : list Z) : elf_shdr_t :=
  shdr_of (slice img (e_shoff (ehdr_in img) + e_shstrndx (ehdr_in img) * SIZEOF_SHDR) SIZEOF_SHDR).

(** The headers and the section names lie in the file. *)
Record elf_ok (img : list Z) : Prop := {
  eo_bytes : Forall is_u8 img;
  eo_size : SIZEOF_EHDR ≤ zlen img < U64_MOD;
  eo_magic : slice img 0 4 = [127; 69; 76; 70];
  eo_phdrs : e_phoff (ehdr_in img) + e_phnum (ehdr_in img) * SIZEOF_PHDR ≤ zlen img;
  eo_shdrs : e_shoff (ehdr_in img) + e_shnum (ehdr_in img) * SIZEOF_SHDR ≤ zlen img;
  eo_shstrndx : e_shstrndx (ehdr_in img) < e_shnum (ehdr_in img);
  eo_shstr : sh_offset (shstr_in img) + sh_size (shstr_in img) ≤ zlen img
}.

(** ** An open file *)

Section serve.
Context (mapped : Z → Z → bool) `{Code}.

(** The descriptor [fd] is a file with the contents [img]: [at_ k pos] says that it is open in [k], at [pos]. *)
Record serves (fd : Z) (img : list Z) (at_ : kstate → Z → Prop) : Prop := {
  sv_seek k pos off : at_ k pos → is_u64 off →
    ∃ r k', fd_seek fd off SEEK_SET k = Ok (r, k') ∧ at_ k' off ∧ kmem k' = kmem k;
  sv_read k pos buf n : at_ k pos → 0 ≤ pos → 0 ≤ n → pos + n ≤ zlen img → 0 ≤ buf → buf + n ≤ U64_MOD →
    ∃ r k', fd_read mapped fd buf n k = Ok (r, k') ∧ at_ k' (pos + n) ∧
      kmem k' = store_bytes (kmem k) buf (slice img pos n);
  sv_other k pos m c : at_ k pos → at_ (k <| kmem := m |> <| kcpu := c |>) pos;
  sv_close k pos : at_ k pos → ∃ r k', fd_close fd k = Ok (r, k') ∧ kmem k' = kmem k
}.

Context (fd : Z) (img : list Z) (at_ : kstate → Z → Prop) (Hs : serves fd img at_).
Context (Hbytes : Forall is_u8 img) (Hsize : zlen img < U64_MOD).
Implicit Types k : kstate.

Lemma at_mem k pos m : at_ k pos → at_ (k <| kmem := m |>) pos.
Proof. intros Hk. apply (sv_other _ _ _ Hs k pos m (kcpu k)) in Hk. by destruct k. Qed.
Lemma at_cpu k pos c : at_ k pos → at_ (k <| kcpu := c |>) pos.
Proof. intros Hk. apply (sv_other _ _ _ Hs k pos (kmem k) c) in Hk. by destruct k. Qed.

Lemma read_at_ok k pos off buf n : at_ k pos → 0 ≤ off → 0 ≤ n → off + n ≤ zlen img → 0 ≤ buf → buf + n ≤ U64_MOD →
  ∃ k', read_at mapped fd off buf n k = Ok (tt, k') ∧ at_ k' (off + n) ∧
    kmem k' = store_bytes (kmem k) buf (slice img off n).
Proof.
  intros Hk Hoff Hn Hin Hb Hbn. destruct (sv_seek _ _ _ Hs k pos off Hk) as (r & k1 & E1 & Hk1 & M1); [unfold is_u64; lia|].
  destruct (sv_read _ _ _ Hs k1 off buf n Hk1) as (r2 & k2 & E2 & Hk2 & M2); try done.
  exists k2. unfold read_at. mrun E1. mrun E2. split_and!; [done|done|by rewrite M2, M1].
Qed.

Lemma read_table_ok k pos off buf size n : at_ k pos → 0 ≤ off → 0 ≤ size → 0 ≤ n → off + n * size ≤ zlen img → 0 ≤ buf →
  buf + n * size < U64_MOD →
  ∃ k' pos', read_table mapped fd off buf size n k = Ok (tt, k') ∧ at_ k' pos' ∧
    kmem k' = store_bytes (kmem k) buf (slice img off (n * size)).
Proof.
  intros Hk Hoff Hsz Hn Hin Hb Hbn. unfold read_table.
  destruct (sv_seek _ _ _ Hs k pos off Hk) as (r & k1 & E1 & Hk1 & M1); [unfold is_u64; nia|]. mrun E1.
  destruct (for_loop_inv (λ i t, at_ t (off + i * size) ∧ kmem t = store_bytes (kmem k) buf (slice img off (i * size)))
    (λ i, fd_read mapped fd (u64 (buf + i * size)) size ;; mret tt) (Z.to_nat n) 0 k1) as (k2 & E2 & Hk2 & M2).
  - rewrite Z.mul_0_l, Z.add_0_r. by rewrite M1.
  - intros j t Hj (Ht & Mt). assert (0 ≤ j * size ∧ j * size + size ≤ n * size) as [Hj0 Hj1] by nia.
    rewrite (u64_small (buf + j * size)) by (unfold is_u64; lia).
    destruct (sv_read _ _ _ Hs t (off + j * size) (buf + j * size) size Ht) as (r2 & t' & E & Ht' & Mt'); try lia.
    exists t'. mrun E. split; [done|]. replace (off + (j + 1) * size) with (off + j * size + size) by lia. split; [done|].
    rewrite Mt', Mt. replace ((j + 1) * size) with (j * size + size) by lia. rewrite <-slice_app by lia.
    rewrite store_bytes_app by (rewrite ?zlen_slice; lia). rewrite zlen_slice by lia. by rewrite u64_small by (unfold is_u64; lia).
  - exists k2. eexists. rewrite Z.add_0_l, Z2Nat.id in * by lia. by split_and!.
Qed.

Lemma bytes_at_ok a n k : bytes_at a n k = Ok (load_bytes (kmem k) a (Z.to_nat n), k).
Proof. done. Qed.

Lemma slice_u8 off n : Forall is_u8 (slice img off n).
Proof. unfold slice. by apply Forall_take, Forall_drop. Qed.

Lemma load_stored0 m a off n : 0 ≤ a → a + n ≤ U64_MOD → 0 < n → 0 ≤ off → off + n ≤ zlen img →
  load_bytes (store_bytes m a (slice img off n)) a (Z.to_nat n) = slice img off n.
Proof.
  intros Ha Hn H0' Hoff Hin. pose proof (load_stored m a img off n 0 n Hbytes) as E. rewrite !Z.add_0_r in E.
  rewrite u64_small in E by (unfold is_u64; lia). apply E; lia.
Qed.

(** A header, once its table is in the buffer at [buf]; what is stored elsewhere later does not matter. *)
Lemma table_entry k m buf size off n i :
  (∀ x, buf ≤ x < buf + n * size → kmem k x = store_bytes m buf (slice img off (n * size)) x) → 0 ≤ buf → buf + n * size ≤ U64_MOD →
  0 < size → 0 ≤ off → 0 ≤ i < n → off + n * size ≤ zlen img →
  load_bytes (kmem k) (u64 (buf + i * size)) (Z.to_nat size) = slice img (off + i * size) size.
Proof.
  intros Hm Hbuf Hb Hs0 Hoff Hi Hin. assert (0 ≤ i * size ∧ i * size + size ≤ n * size) as [H1 H2] by nia.
  rewrite <-(load_stored m buf img off (n * size) (i * size) size) by (done || lia).
  rewrite (u64_small (buf + i * size)) by (unfold is_u64; lia). apply load_bytes_ext; [lia|lia|]. intros x Hx. apply Hm. lia.
Qed.

Lemma warn_ok (b : bool) msg k pos : at_ k pos → ∃ k', (if b then print msg else mret tt) k = Ok (tt, k') ∧ at_ k' pos ∧ kmem k' = kmem k.
Proof. intros Hk. destruct b; eexists; (split; [reflexivity|]); split_and!; try done. by apply at_cpu. Qed.

(** Bytes stored in a buffer. *)
Lemma buffer_store {F} `{!FrameAlloc F} m n p (s s' : vmm_state F) l x : 0 ≤ n → buffer n p s s' → zlen l ≤ n → ¬ in_buffer n p x →
  store_bytes m (kpage (p + 1)) l x = m x.
Proof.
  intros Hn Hb Hl Hx. destruct (buffer_range n p s s' Hn Hb). unfold PHYS_PAGES, NORMAL_VMA_OFFSET, in_buffer in *.
  apply store_bytes_frame; lia.
Qed.

(** Where the headers and the names of the sections are. *)
Record header_bounds : Prop := {
  hb_ph : 0 ≤ e_phnum (ehdr_in img) ∧ 0 ≤ e_phoff (ehdr_in img);
  hb_sh : 0 ≤ e_shnum (ehdr_in img) ∧ 0 ≤ e_shoff (ehdr_in img) ∧ 0 ≤ e_shstrndx (ehdr_in img);
  hb_str : 0 ≤ sh_offset (shstr_in img) ∧ 0 ≤ sh_size (shstr_in img)
}.
Lemma headers_bounded : header_bounds.
Proof.
  pose proof (slice_u8 0 64). split; cbn; split_and!; try (apply fld_in; [done|lia]); try (by apply (fld_in _ _ 2)); apply fld_in; try lia; apply slice_u8.
Qed.

Section heap.
Context {F : Type} `{!FrameAlloc F} `{!FrameAllocLaws F} (elf_magic : Z) (Hstack : 0 ≤ elf_magic ∧ elf_magic + 4 ≤ U64_MOD).
Implicit Types (u : user_st F) (T : tree).
(** Buffers of up to the size of the file, and the longest run of pages that is needed. *)
Context (m : Z) (Hm : alloc_pages (zlen img) + 12 ≤ m) (Hmax : zlen img + 12288 ≤ U64_MOD).
Definition buffer_room : nat := Z.to_nat (alloc_pages (zlen img)) + 12.

(** [n] bytes of heap, when there is memory for [N] more buffers. *)
Lemma take_buffer T u n N : heap_ok T (vm u) → 0 ≤ n ≤ zlen img → enough (frames (vm u)) (buffer_room + N) m →
  ∃ p T' v', kmalloc_bytes n u = Ok (kpage (p + 1), u <| vm := v' |>) ∧ heap_grew (vm u) T v' T' ∧ buffer n p (vm u) v' ∧
    enough (frames v') N m.
Proof.
  intros Hh Hn He. pose proof (alloc_pages_mono n (zlen img) Hn Hmax) as Hle.
  assert (enough (frames (vm u)) (Z.to_nat (alloc_pages n) + 12 + N) m) as He1.
  { intros f Hf. apply He. eapply took_weaken; [|exact Hf]. unfold buffer_room. lia. }
  destruct (enough_alloc T (vm u) n N m Hh) as (Hr & Hq & Hnext); try done; try lia.
  destruct (kmalloc_bytes_ok T u n Hh ltac:(lia) ltac:(lia) Hr Hq) as (p & T' & v' & E & G & B & K & _).
  exists p, T', v'. split_and!; try done. by apply Hnext.
Qed.

(** Reading [n] bytes into a new buffer. *)
Lemma fetch_ok T u pos off n N : at_ (kern u) pos → heap_ok T (vm u) → 0 ≤ off → 0 ≤ n → off + n ≤ zlen img →
  enough (frames (vm u)) (buffer_room + N) m →
  ∃ p T' v' k', (∀ B (f : Z → stM (user_st F) B), (a ← kmalloc_bytes n; on_kern (read_at mapped fd off a n) ;; f a) u = f (kpage (p + 1)) (mk_user k' v')) ∧
    at_ k' (off + n) ∧ kmem k' = store_bytes (kmem (kern u)) (kpage (p + 1)) (slice img off n) ∧
    heap_grew (vm u) T v' T' ∧ buffer n p (vm u) v' ∧ enough (frames v') N m.
Proof.
  intros Hk Hh Hoff Hn Hin He. destruct (take_buffer T u n N Hh ltac:(lia) He) as (p & T' & v' & E & G & B & He').
  destruct (buffer_range n p _ _ Hn B) as [R1 R2]. unfold PHYS_PAGES, NORMAL_VMA_OFFSET in R1, R2.
  destruct (read_at_ok (kern u) pos off (kpage (p + 1)) n) as (k' & E' & Hk' & M'); try done; try lia.
  exists p, T', v', k'. split_and!; try done. intros X f. mrun E. erewrite bind_ok by (apply on_kern_ok; exact E'). by destruct u.
Qed.

(** The tables in their buffers: the section headers, of which one is needed, then the program headers. *)
Lemma tables_ok_in k pos ph sh v0 v1 v2 : at_ k pos → header_bounds → elf_ok img →
  buffer (SIZEOF_PHDR * e_phnum (ehdr_in img)) ph v0 v1 → buffer (SIZEOF_SHDR * e_shnum (ehdr_in img)) sh v1 v2 →
  ∃ k' pos', (∀ B (f : elf_shdr_t → kM B), (read_table mapped fd (e_shoff (ehdr_in img)) (kpage (sh + 1)) SIZEOF_SHDR (e_shnum (ehdr_in img)) ;;
      read_table mapped fd (e_phoff (ehdr_in img)) (kpage (ph + 1)) SIZEOF_PHDR (e_phnum (ehdr_in img)) ;;
      s ← header_at shdr_of (kpage (sh + 1)) SIZEOF_SHDR (e_shnum (ehdr_in img)) (e_shstrndx (ehdr_in img)); f s) k = f (shstr_in img) k') ∧
    at_ k' pos' ∧
    (∀ j, in_buffer (SIZEOF_PHDR * e_phnum (ehdr_in img)) ph j → kmem k' j =
       store_bytes (kmem k) (kpage (ph + 1)) (slice img (e_phoff (ehdr_in img)) (e_phnum (ehdr_in img) * SIZEOF_PHDR)) j) ∧
    (∀ x, ¬ in_buffer (SIZEOF_PHDR * e_phnum (ehdr_in img)) ph x → ¬ in_buffer (SIZEOF_SHDR * e_shnum (ehdr_in img)) sh x →
       kmem k' x = kmem k x).
Proof.
  intros Hk [(P1 & P2) (S1 & S2 & S3) _] [_ _ _ Hph Hsh Hndx _] Bp Bs.
  assert (∀ x, in_buffer (SIZEOF_PHDR * e_phnum (ehdr_in img)) ph x → in_buffer (SIZEOF_SHDR * e_shnum (ehdr_in img)) sh x → False) as Hap
    by (intros x; by eapply buffers_apart).
  unfold SIZEOF_PHDR, SIZEOF_SHDR in *. set (e := ehdr_in img) in *.
  destruct (buffer_range (56 * e_phnum e) ph _ _ ltac:(lia) Bp) as [Rp1 Rp2]. destruct (buffer_range (64 * e_shnum e) sh _ _ ltac:(lia) Bs) as [Rs1 Rs2].
  unfold PHYS_PAGES, NORMAL_VMA_OFFSET in Rp1, Rp2, Rs1, Rs2.
  destruct (read_table_ok k pos (e_shoff e) (kpage (sh + 1)) 64 (e_shnum e)) as (k5 & p5 & E5 & Hk5 & M5); try lia; try done.
  destruct (read_table_ok k5 p5 (e_phoff e) (kpage (ph + 1)) 56 (e_phnum e)) as (k6 & p6 & E6 & Hk6 & M6); try lia; try done.
  assert (∀ x, ¬ in_buffer (56 * e_phnum e) ph x → kmem k6 x = kmem k5 x) as F6.
  { intros x Hx. rewrite M6. apply (buffer_store _ (56 * e_phnum e) ph _ _ _ _ ltac:(lia) Bp); [rewrite zlen_slice; lia|done]. }
  assert (∀ x, ¬ in_buffer (64 * e_shnum e) sh x → kmem k5 x = kmem k x) as F5.
  { intros x Hx. rewrite M5. apply (buffer_store _ (64 * e_shnum e) sh _ _ _ _ ltac:(lia) Bs); [rewrite zlen_slice; lia|done]. }
  exists k6, p6. split_and!; [|done| |intros x H1 H2; by rewrite F6, F5].
  - intros B f. mrun E5. mrun E6. unfold header_at. rewrite (proj2 (Z.ltb_lt _ _)) by lia.
    assert (header_at shdr_of (kpage (sh + 1)) 64 (e_shnum e) (e_shstrndx e) k6 = Ok (shstr_in img, k6)) as E7; [|unfold header_at in E7; rewrite (proj2 (Z.ltb_lt _ _)) in E7 by lia; by mrun E7].
    unfold header_at. rewrite (proj2 (Z.ltb_lt _ _)) by lia. rewrite (bind_ok _ _ _ _ _ (bytes_at_ok _ _ k6)). cbv beta.
    rewrite (table_entry k6 (kmem k) (kpage (sh + 1)) 64 (e_shoff e) (e_shnum e)); [done| |lia..].
    intros x Hx. rewrite F6; [by rewrite M5|]. intros Hx2. apply (Hap x); [done|unfold in_buffer; lia].
  - intros x Hx. rewrite M6. destruct (decide (kpage (ph + 1) ≤ x < kpage (ph + 1) + e_phnum e * 56)); [|unfold in_buffer in Hx; lia].
    rewrite !store_bytes_lookup by (rewrite ?zlen_slice; lia). rewrite zlen_slice by lia.
    by rewrite (proj2 (Z.leb_le _ _)), (proj2 (Z.ltb_lt _ _)) by lia.
Qed.
(** The program headers in their buffer. *)
Lemma headers_ok k ph v0 v1 m0 : header_bounds → elf_ok img → buffer (SIZEOF_PHDR * e_phnum (ehdr_in img)) ph v0 v1 →
  (∀ j, in_buffer (SIZEOF_PHDR * e_phnum (ehdr_in img)) ph j →
     kmem k j = store_bytes m0 (kpage (ph + 1)) (slice img (e_phoff (ehdr_in img)) (e_phnum (ehdr_in img) * SIZEOF_PHDR)) j) →
  headers phdr_of (kpage (ph + 1)) SIZEOF_PHDR (e_phnum (ehdr_in img)) k = Ok (phdrs_in img, k).
Proof.
  intros [(P1 & P2) _ _] [_ _ _ Hph _ _ _] Bp Hj. unfold SIZEOF_PHDR in *. set (e := ehdr_in img) in *.
  destruct (buffer_range (56 * e_phnum e) ph _ _ ltac:(lia) Bp) as [R1 R2]. unfold PHYS_PAGES, NORMAL_VMA_OFFSET in R1, R2.
  unfold headers, gets, phdrs_in. fold e. do 2 f_equal.
  apply map_ext_in. intros i Hi. apply list_elem_of_In, elem_of_seqZ in Hi. f_equal.
  apply (table_entry _ m0 (kpage (ph + 1)) 56 _ (e_phnum e)); try lia. intros x Hx. apply Hj. unfold in_buffer. lia.
Qed.

(** [load_headers] finds the headers of the file; it takes pages that were free for its buffers and writes only these and the array on
    the stack. *)
Lemma load_headers_ok T u pos N : elf_ok img → at_ (kern u) pos → heap_ok T (vm u) → enough (frames (vm u)) (4 * buffer_room + N) m →
  ∃ T' v' k' pos', load_headers mapped elf_magic fd u = Ok (Some (ehdr_in img, phdrs_in img), mk_user k' v') ∧ at_ k' pos' ∧
    heap_grew (vm u) T v' T' ∧ enough (frames v') N m ∧
    (∀ x, NORMAL_VMA_OFFSET ≤ x → fa_used (frames (vm u)) ((x - NORMAL_VMA_OFFSET) / PAGE) = true → ¬ elf_magic ≤ x < elf_magic + 4 →
       kmem k' x = kmem (kern u) x).
Proof.
  intros Hok Hk Hh He. pose proof headers_bounded as Hbd. pose proof Hok as [_ Hsz Hmagic Hph Hsh Hndx Hstr].
  pose proof Hbd as [(P1 & P2) (S1 & S2 & S3) (N1 & N2)]. unfold SIZEOF_EHDR, SIZEOF_PHDR, SIZEOF_SHDR in *.
  unfold load_headers, SIZEOF_EHDR, SIZEOF_PHDR, SIZEOF_SHDR. destruct (read_at_ok (kern u) pos 0 elf_magic 4) as (k1 & E1 & Hk1 & M1); try lia; [done|].
  erewrite bind_ok by (apply on_kern_ok; exact E1). cbv beta. clear E1.
  erewrite bind_ok by (apply on_kern_ok, bytes_at_ok). cbv beta. change (kern (u <| kern := k1 |>)) with k1.
  rewrite M1, load_stored0, Hmagic by lia.
  erewrite bind_ok by (apply on_kern_ok; reflexivity). cbv beta iota. cbn [negb Z.eqb].
  set (u1 := mk_user k1 (vm u)). assert (∀ A B, u <| kern := A |> <| kern := B |> <| kern := k1 |> = u1) as Hu1 by done.
  change (u <| kern := k1 |> <| kern := k1 |> <| kern := k1 |>) with u1.
  replace (4 * buffer_room + N)%nat with (buffer_room + (buffer_room + (buffer_room + (buffer_room + N))))%nat in He by lia.
  destruct (fetch_ok T u1 _ 0 64 _ Hk1 Hh ltac:(lia) ltac:(lia) ltac:(lia) He) as (p2 & T2 & v2 & k2 & E2 & Hk2 & M2 & G2 & B2 & He2).
  rewrite E2. clear E2. destruct (buffer_range 64 p2 _ _ ltac:(lia) B2) as [Q1 Q2]. unfold PHYS_PAGES, NORMAL_VMA_OFFSET in Q1, Q2.
  erewrite bind_ok by (apply on_kern_ok, bytes_at_ok). cbv beta zeta. cbn [kern]. rewrite M2, load_stored0 by lia. change (ehdr_of (slice img 0 64)) with (ehdr_in img).
  destruct (warn_ok (negb (bool_decide (idx (iden_bytes (ehdr_in img)) 4 = Some 2))) "32-bit ELF! (iden_bytes[4] == %u) Not loading." k2 _ Hk2) as (k3 & E3 & Hk3 & M3).
  erewrite bind_ok by (apply on_kern_ok; exact E3). cbv beta. clear E3.
  set (u3 := mk_user k3 v2). change (mk_user k2 v2 <| kern := k2 |> <| kern := k3 |>) with u3.
  destruct (take_buffer T2 u3 (56 * e_phnum (ehdr_in img)) _ (hg_heap _ _ _ _ G2) ltac:(lia) He2) as (p4 & T4 & v4 & E4 & G4 & B4 & He4). mrun E4. clear E4.
  set (u4 := mk_user k3 v4). match goal with |- context [(a ← kmalloc_bytes (64 * _); _) ?x] => change x with u4 end.
  destruct (take_buffer T4 u4 (64 * e_shnum (ehdr_in img)) _ (hg_heap _ _ _ _ G4) ltac:(lia) He4) as (p5 & T5 & v5 & E5 & G5 & B5 & He5). mrun E5. clear E5.
  destruct (tables_ok_in k3 _ p4 p5 _ _ _ Hk3 Hbd Hok B4 B5) as (k6 & p6 & E6 & Hk6 & J6 & F6). unfold SIZEOF_PHDR, SIZEOF_SHDR in E6, J6, F6.
  pose proof (E6 _ (λ s, mret s)) as E7. clear E6.
  apply bind_inv in E7 as ([] & ka & Ea & E7). apply bind_inv in E7 as ([] & kb & Eb & E7). apply bind_inv in E7 as (sh & kc & Ec & E7).
  injection E7 as -> ->. erewrite bind_ok by (apply on_kern_ok; exact Ea). cbv beta. erewrite bind_ok by (apply on_kern_ok; exact Eb). cbv beta.
  erewrite bind_ok by (apply on_kern_ok; exact Ec). cbv beta. clear Ea Eb Ec.
  match goal with |- context [(a ← kmalloc_bytes (sh_size (shstr_in img)); _) ?x] => change x with (mk_user k6 v5) end.
  destruct (fetch_ok T5 (mk_user k6 v5) _ (sh_offset (shstr_in img)) (sh_size (shstr_in img)) N Hk6 (hg_heap _ _ _ _ G5) ltac:(lia) ltac:(lia) ltac:(lia) He5)
    as (p8 & T8 & v8 & k8 & E8 & Hk8 & M8 & G8 & B8 & He8).
  rewrite E8. clear E8. cbn [kern vm u1 u3 u4] in *.
  pose proof (heap_grew_trans _ _ _ _ _ _ G2 G4) as G24. pose proof (heap_grew_trans _ _ _ _ _ _ G24 G5) as G25.
  exists T8, v8, k8. eexists. split; [|split_and!; [exact Hk8|by eapply heap_grew_trans|exact He8|]].
  - erewrite bind_ok; [|apply on_kern_ok; eapply (headers_ok k8 p4); [done|done|exact B4|]; unfold SIZEOF_PHDR].
    + reflexivity.
    + intros j Hj. cbn [kern]. rewrite M8. etransitivity; [|by apply J6].
      apply (buffer_store _ (sh_size (shstr_in img)) p8 _ _ _ _ ltac:(lia) B8); [rewrite zlen_slice; lia|].
      intros Hj8. eapply (buffers_apart _ p4); [exact B4|exact B8|apply (hg_used _ _ _ _ G5)|exact Hj|exact Hj8].
  - intros x Hx Hu Hnm.
    assert (∀ n p (va : vmm_state F) Ta (vb : vmm_state F), heap_grew (vm u) T va Ta → buffer n p va vb → ¬ in_buffer n p x) as Hout.
    { intros n p va Ta vb Ga Bb Hin. apply (buffer_free _ _ _ _ _ Bb) in Hin. by rewrite (hg_used _ _ _ _ Ga _ Hu) in Hin. }
    rewrite M8. rewrite (buffer_store _ (sh_size (shstr_in img)) p8 _ _ _ _ ltac:(lia) B8); [|rewrite zlen_slice; lia|by eapply (Hout _ _ v5)].
    rewrite F6; [|by eapply (Hout _ _ v2)|by eapply (Hout _ _ v4)]. rewrite M3, M2.
    rewrite (buffer_store _ 64 p2 _ _ _ _ ltac:(lia) B2); [|rewrite zlen_slice; lia|by eapply (Hout _ _ (vm u)); [apply heap_grew_refl|]].
    rewrite M1. apply store_bytes_frame; [lia|rewrite zlen_slice; lia|]. rewrite zlen_slice by lia. lia.
Qed.
End heap.
End serve.

(** ** The calls of Fd.v serve a file *)

Section file.
Context (mapped : Z → Z → bool) `{Code} (fd a : Z) (img : list Z) (n : vfs_node_t).
Context (t : thread_t) (cur : Z) (p : process_t) (tab : list Z).

(** What the functions of the node do, for the descriptor [fd], whose entry is at [a]. *)
Record file_node : Prop := {
  fn_seek k off whence : call_seek (o_seek (n_ops n)) fd off whence k = Ok (0, k);
  fn_read k e buf count : fdheap k !! a = Some e → fd_seek_pos e + count ≤ zlen img →
    call_read (o_read (n_ops n)) fd buf count k =
      Ok (count, k <| kmem := store_bytes (kmem k) buf (slice img (fd_seek_pos e) count) |>
                   <| fdheap := <[a := e <| fd_seek_pos := fd_seek_pos e + count |>]> (fdheap k) |>);
  fn_close k : call_close (o_close (n_ops n)) fd k = Ok (0, k)
}.
Context (Hfile : file_node) (Hmapped : ∀ b c, mapped b c = true).

Record open_at (k : kstate) (pos : Z) : Prop := {
  oa_calling : calling k t cur p tab;
  oa_visible : visible p tab fd = a;
  oa_null : a ≠ 0;
  oa_entry : ∃ e, fdheap k !! a = Some e ∧ fd_seek_pos e = pos ∧ vnodes (fs k) !! fd_node e = Some n
}.

Lemma calling_other k m h : calling k t cur p tab → calling (k <| kmem := m |> <| fdheap := h |>) t cur p tab.
Proof. intros [H1 [] H3 H4]. split; [done|by split|done|done]. Qed.

Lemma unlifted_other k m h :
  unlifted t k ((lifted t k) <| kmem := m |> <| fdheap := h |>) = k <| kmem := m |> <| fdheap := h |>.
Proof.
  unfold unlifted, lifted, lifts. destruct (_ && _) eqn:E; [|done]. zbool. destruct k. destruct locals. cbn in *. by subst.
Qed.

Lemma open_lifted k pos : open_at k pos → open_at (lifted t k) pos.
Proof.
  intros [Hc Hv Ha He]. split; [by apply calling_lifted|done|done|]. unfold lifted. by destruct (lifts t k).
Qed.

(** The state after the position moved, and perhaps the memory. *)
Lemma open_moved k pos m e pos' : open_at k pos → fdheap k !! a = Some e →
  open_at (k <| kmem := m |> <| fdheap := <[a := e <| fd_seek_pos := pos' |>]> (fdheap k) |>) pos'.
Proof.
  intros [Hc Hv Ha (e' & He & _ & Hn)] He'. rewrite He in He'. injection He' as ->. split; [by apply calling_other|done|done|].
  eexists. cbn. rewrite lookup_insert_eq. by split_and!.
Qed.

Lemma node_of k pos : open_at k pos → ops_of fd k = Ok (n_ops n, k).
Proof.
  intros [Hc Hv Ha (e & He & _ & Hn)]. by apply (ops_of_ok k t cur p tab fd e n Hc); [by rewrite Hv|by rewrite Hv|].
Qed.

Lemma file_seek k pos off : open_at k pos →
  ∃ r k', fd_seek fd off SEEK_SET k = Ok (r, k') ∧ open_at k' off ∧ kmem k' = kmem k.
Proof.
  intros Ho. pose proof (open_lifted k pos Ho) as Hol. destruct (oa_entry _ _ Hol) as (e & He & Hp & Hn). set (kl := lifted t k) in *.
  set (k1 := kl <| kmem := kmem kl |> <| fdheap := <[a := e <| fd_seek_pos := off |>]> (fdheap kl) |>).
  assert (upd_fd a (λ e, e <| fd_seek_pos := off |>) kl = Ok (tt, k1)) as E1.
  { unfold upd_fd. mrun (fd_at_ok _ _ _ He). unfold put_fd, modify, k1. by destruct kl. }
  pose proof (open_moved kl pos (kmem kl) e off Hol He) as Ho1. fold k1 in Ho1.
  assert (kmem kl = kmem k ∧ fdheap kl = fdheap k) as (Em & Ef) by (unfold kl, lifted; by destruct (lifts t k)).
  exists off, (k <| kmem := kmem k |> <| fdheap := <[a := e <| fd_seek_pos := off |>]> (fdheap k) |>). split; [|split; [|done]].
  - unfold fd_seek. mrun (enter_ignore_ok k t (ca_thread _ _ _ _ _ (oa_calling _ _ Ho))). fold kl.
    mrun (fd_lookup_cur _ _ _ _ _ fd (oa_calling _ _ Hol)). rewrite (oa_visible _ _ Ho). rewrite (proj2 (Z.eqb_neq _ _) (oa_null _ _ Ho)).
    cbn [Z.eqb SEEK_SET Pos.eqb]. erewrite bind_ok; [|by mrun E1]. cbv beta. cbn [negb]. unfold vfs_seek.
    erewrite bind_ok; [|mrun (node_of k1 off Ho1); apply (fn_seek Hfile)]. cbv beta.
    erewrite bind_ok by apply (leave_ignore_ok t k k1). cbv beta. cbn [Z.eqb].
    unfold k1. rewrite unlifted_other, Em, Ef. erewrite bind_ok; [|apply fd_at_ok; cbn; apply lookup_insert_eq]. done.
  - apply (open_moved k pos); [done|]. by rewrite <-Ef.
Qed.

Lemma file_read k pos buf count : open_at k pos → 0 ≤ count → pos + count ≤ zlen img →
  ∃ r k', fd_read mapped fd buf count k = Ok (r, k') ∧ open_at k' (pos + count) ∧
    kmem k' = store_bytes (kmem k) buf (slice img pos count).
Proof.
  intros Ho Hc Hin. pose proof (open_lifted k pos Ho) as Hol. destruct (oa_entry _ _ Hol) as (e & He & Hp & Hn). subst pos.
  assert (kmem (lifted t k) = kmem k ∧ fdheap (lifted t k) = fdheap k) as (Em & Ef) by (unfold lifted; by destruct (lifts t k)).
  eexists count, (k <| kmem := _ |> <| fdheap := <[a := e <| fd_seek_pos := fd_seek_pos e + count |>]> (fdheap k) |>).
  split; [|split; [apply (open_moved k (fd_seek_pos e)); [done|by rewrite <-Ef]|reflexivity]].
  unfold fd_read. rewrite (guarded_call mapped k t cur p tab fd buf count) by apply Ho. rewrite (oa_visible _ _ Ho), Hmapped.
  rewrite (proj2 (Z.eqb_neq _ _) (oa_null _ _ Ho)). cbn [negb]. unfold vfs_read.
  erewrite bind_ok by apply (node_of (lifted t k) _ Hol). cbv beta. rewrite (fn_read Hfile _ e) by done.
  by rewrite unlifted_other, Em, Ef.
Qed.

Lemma file_close k pos : open_at k pos → ∃ r k', fd_close fd k = Ok (r, k') ∧ kmem k' = kmem k.
Proof.
  intros Ho. pose proof Ho as [Hc Hv Ha (e & He & _ & _)]. pose proof Hc as [H1 [T1 T2 T3 T4 T5 T6] H3 H4].
  assert (fd < fd_table_size p - 1 ∧ idx tab fd = Some a) as [Hfd Hi].
  { unfold visible in Hv. destruct (_ && _) eqn:E; [|by subst]. zbool. destruct (idx_lt tab fd ltac:(lia)) as [v Hiv].
    rewrite Hiv in *. cbn in Hv. split; [lia|congruence]. }
  exists 0. unfold fd_close. mrun (fd_lookup_cur _ _ _ _ _ fd Hc). rewrite Hv, (proj2 (Z.eqb_neq _ _) Ha). unfold vfs_close.
  erewrite bind_ok; [|mrun (node_of k pos Ho); apply (fn_close Hfile)]. cbv beta.
  assert (∃ k', fd_remove fd k = Ok (tt, k') ∧ kmem k' = kmem k) as (k' & E & Em).
  { unfold fd_remove. mrun (get_cur_pid_ok _ _ H1). mrun (process_of_ok _ _ _ H3 T1). mrun (fd_acquire_ok _ H4).
    erewrite bind_ok; [|apply process_at_ok; exact T2]. cbv beta. rewrite s32_small by lia. rewrite (proj2 (Z.ltb_lt _ _) Hfd).
    erewrite bind_ok; [|erewrite bind_ok; [|eapply read_slot_ok; [exact T3|exact Hi]]; cbv beta; unfold kfree_fd;
      erewrite bind_ok; [|rewrite (proj2 (Z.eqb_neq _ _) Ha); mstep; erewrite bind_ok by (apply fd_at_ok; exact He); reflexivity];
      cbv beta; eapply write_slot_ok; [exact T3|exact Hi]].
    eexists. split; [reflexivity|done]. }
  exists k'. by mrun E.
Qed.

(** A file that is open in the current process serves the loader. *)
Lemma file_serves : serves mapped fd img open_at.
Proof.
  split.
  - intros k pos off Hk _. by apply file_seek with pos.
  - intros k pos buf count Hk _ Hn Hin _ _. by apply file_read.
  - intros k pos m c [Hc Hv Ha He]. destruct Hc as [H1 [] H3 H4]. split; [split; [done|by split|done|done]|done..].
  - apply file_close.
Qed.
End file.
