(* ===== verification/ElfTheorems.v ===== *)
(** * Correctness of the ELF loader

    A loaded program is a list of regions of its address space, the last one
    first: pages that were free, mapped for user code, with known bytes.
    [load_elf_addrspace] maps one region for each segment and one for the stack,
    in a new address space whose upper half is the kernel's.  The proofs are for
    any page allocator that keeps the promises of Frames.v and for any file that
    is served as ElfHeaders.v says. *)

From S2P Require Import Prelude Locks CString Pmm Frames Vmm VmmTree VmmSpec VmmMap VmmTheorems Kmalloc KmallocTheorems DList Blocks Bytes Vfs Kernel Stack Proc Sched SleepQueue Fd FdTheorems UserMemory UserMemoryTheorems Spaces Buffers Elf ElfHeaders.

(** ** Regions *)

Record region : Type := mk_region {
  rg_virt : Z;
  rg_pages : Z;
  rg_page : Z;
  rg_size : Z;
  rg_byte : Z → Z
}.

Definition LOAD_FLAGS : Z := Z.lor (Z.lor VMM_PRESENT VMM_USER) VMM_WRITE.

Definition covers (g : region) (v : Z) : bool := page_off (rg_virt g) v <? rg_pages g.
Definition region_at (g : region) (v : Z) : Z * Z := (rg_page g * PAGE + PAGE * page_off (rg_virt g) v + v mod PAGE, LOAD_FLAGS).
Fixpoint space_of (l : list region) (old : Z → option (Z * Z)) (v : Z) : option (Z * Z) :=
  match l with
  | [] => old v
  | g :: l' => if covers g v then Some (region_at g v) else space_of l' old v
  end.

Definition PHYS_END : Z := 140737488355328.

Lemma higher_add p : 0 ≤ p < PHYS_END → GET_HIGHER_HALF p = p + NORMAL_VMA_OFFSET.
Proof. unfold PHYS_END, GET_HIGHER_HALF, NORMAL_VMA_OFFSET. intros Hp. apply u64_small. unfold is_u64. lia. Qed.

Lemma page_off_in V v n : V mod PAGE = 0 → 0 ≤ V → 0 ≤ n → V + n * PAGE ≤ 140737488355328 →
  page_off V v < n ↔ V ≤ v mod 281474976710656 < V + n * PAGE.
Proof.
  intros Ha HV Hn Hend. unfold page_off, vpn. set (w := v mod 281474976710656).
  assert ((v / PAGE) mod 68719476736 = w / PAGE) as -> by (unfold w; dlia).
  assert ((V / PAGE) mod 68719476736 = V / PAGE) as -> by dlia.
  assert (0 ≤ w < 281474976710656) by (unfold w; dlia). clearbody w. split; intros; dlia.
Qed.

(** An address of a region, and the page it is in. *)
Lemma page_off_at V j : V mod PAGE = 0 → 0 ≤ V → 0 ≤ j → V + j < 281474976710656 → page_off V (V + j) = j / PAGE ∧ (V + j) mod PAGE = j mod PAGE.
Proof. intros Ha HV Hj Hend. unfold page_off, vpn. split; dlia. Qed.

Lemma run_room_le n m : 0 ≤ n ≤ m → 512 ≤ m → Z.of_nat (run_room (Z.to_nat n)) ≤ m.
Proof.
  intros Hn Hm. unfold run_room. rewrite Nat2Z.inj_mul, Nat2Z.inj_add, Nat2Z.inj_div, Z2Nat.id by lia.
  change (Z.of_nat 3) with 3. change (Z.of_nat 512) with 512. change (Z.of_nat 2) with 2. dlia.
Qed.

Section laws.
Context {F : Type} `{!FrameAlloc F} `{!FrameAllocLaws F}.
Context (mapped : Z → Z → bool) `{Code}.
Context (fd : Z) (img : list Z) (at_ : kstate → Z → Prop) (Hs : serves mapped fd img at_).
Context (Hbytes : Forall is_u8 img) (Hsize : zlen img < U64_MOD).
(** The state at the start, the new address space, and the translations it starts with. *)
Context (u0 : user_st F) (r : Z) (old : Z → option (Z * Z)).
Implicit Types (s : vmm_state F) (u : user_st F) (T : tree) (g : region).

(** The region's pages were free, are in use, and hold its bytes. *)
Record filled u g : Prop := {
  fi_run : 0 < rg_page g ∧ 0 < rg_pages g ∧ rg_page g + rg_pages g ≤ PHYS_PAGES ∧ rg_size g ≤ rg_pages g * PAGE;
  fi_fresh : free_run (frames (vm u0)) (rg_page g) (rg_pages g);
  fi_used : ∀ p, in_run (rg_page g) (rg_pages g) p = true → fa_used (frames (vm u)) p = true;
  fi_bytes : ∀ j, 0 ≤ j < rg_size g → kmem (kern u) (GET_HIGHER_HALF (rg_page g * PAGE + j)) = rg_byte g j
}.

Record loading (l : list region) T u : Prop := {
  lo_tree : tree_ok T r (vm u);
  lo_lock : unlocked (vmm_spinlock (vm u));
  lo_file : ∃ pos, at_ (kern u) pos;
  lo_space : ∀ v, translate (vm u) r v = space_of l old v;
  lo_filled : Forall (filled u) l;
  lo_used : ∀ p, fa_used (frames (vm u0)) p = true → fa_used (frames (vm u)) p = true;
  lo_mem : ∀ a, 0 ≤ a < PHYS_END → fa_used (frames (vm u0)) (a / PAGE) = true →
    kmem (kern u) (GET_HIGHER_HALF a) = kmem (kern u0) (GET_HIGHER_HALF a)
}.

(** Pages for a region of [sz] bytes: no translation changes. *)
Lemma alloc_region T s sz n N m : tree_ok T r s → 0 < sz → sz + PAGE < U64_MOD → n = (sz + PAGE - 1) / PAGE → n ≤ m →
  enough (frames s) N m →
  ∃ q s1, vmm_pmm_alloc sz s = Ok (q * PAGE, s1) ∧ free_run (frames s) q n ∧ 0 < q ∧ 0 < n ∧ q + n ≤ PHYS_PAGES ∧
    tree_ok T r s1 ∧ vmm_spinlock s1 = vmm_spinlock s ∧ took (Z.to_nat n) (frames s) (frames s1) ∧
    (∀ p, fa_used (frames s1) p = (fa_used (frames s) p || in_run q n p)%bool) ∧ ∀ v, translate s1 r v = translate s r v.
Proof.
  intros Hok H0' Hmax En Hnm He. pose proof (t_alloc _ _ _ Hok) as Hi. assert (0 < n) as Hn by (subst n; dlia).
  assert (pages_of sz = n) as Ep by (rewrite pages_of_exact by lia; by subst n).
  destruct (fa_alloc_spec (frames s) sz Hi) as [(q & f & E & Hfr & Hi' & Hsz & Hif & Hu)|[_ Hno]]; [lia|lia| |].
  2: { rewrite Ep in Hno. destruct (enough_run _ _ _ Hi (enough_le _ _ _ _ Hnm He)) as [q Hq]. by destruct (Hno q). }
  rewrite Ep in Hfr, Hu. pose proof (fa_used_bound _ _ Hi (Hfr q ltac:(lia))).
  pose proof (fa_used_bound _ _ Hi (Hfr (q + n - 1) ltac:(lia))). pose proof (fa_size_bound _ Hi) as Hmx.
  destruct (tree_frame T r s (set_frames f s) Hok) as [Hok' Hw]; [done|apply Hok|intros p Hp; cbn; by rewrite Hu, Hp|done|].
  exists q, (set_frames f s). split; [unfold vmm_pmm_alloc; by apply (zoom_ok frames set_frames)|].
  split_and!; try done; try lia. apply (run_took _ _ q); [done|done|]. by rewrite Z2Nat.id by lia.
Qed.

(** A region of pages that [alloc_region] gave joins the others, when only its memory was written. *)
Lemma loading_extend l T u g s1 n T' s3 k' pos : loading l T u →
  free_run (frames (vm u)) (rg_page g) (rg_pages g) → 0 < rg_page g → 0 < rg_pages g → rg_page g + rg_pages g ≤ PHYS_PAGES →
  rg_size g ≤ rg_pages g * PAGE →
  (∀ p, fa_used (frames s1) p = (fa_used (frames (vm u)) p || in_run (rg_page g) (rg_pages g) p)%bool) →
  vmm_spinlock s1 = vmm_spinlock (vm u) → grows n r T s1 T' s3 → (∀ v, translate s3 r v = space_of (g :: l) old v) → at_ k' pos →
  (∀ j, 0 ≤ j < rg_size g → kmem k' (GET_HIGHER_HALF (rg_page g * PAGE + j)) = rg_byte g j) →
  (∀ a, 0 ≤ a < PHYS_END → in_run (rg_page g) (rg_pages g) (a / PAGE) = false →
     kmem k' (GET_HIGHER_HALF a) = kmem (kern u) (GET_HIGHER_HALF a)) →
  loading (g :: l) T' (mk_user k' s3).
Proof.
  intros [L1 L2 L3 L4 L5 L6 L7] Hfr Hq Hn Hqn Hsz Hu Hlk G Htr Hk Hb Hm. pose proof (g_used _ _ _ _ _ _ G) as Gu.
  assert (∀ p, fa_used (frames (vm u)) p = true → in_run (rg_page g) (rg_pages g) p = false) as Hout.
  { intros p Hp. destruct (in_run _ _ p) eqn:E; [|done]. unfold in_run in E. zbool. rewrite Hfr in Hp by lia. done. }
  split; cbn [kern vm].
  - apply (g_ok _ _ _ _ _ _ G).
  - pose proof (g_regs _ _ _ _ _ _ G) as (_ & Hl & _). by rewrite Hl, Hlk.
  - by exists pos.
  - exact Htr.
  - constructor.
    + split; cbn [kern vm]; [done| |intros p Hp; apply Gu; by rewrite Hu, Hp, orb_true_r|done].
      intros p Hp. destruct (fa_used (frames (vm u0)) p) eqn:E; [|done]. apply L6 in E. by rewrite (Hfr p Hp) in E.
    + eapply Forall_impl; [exact L5|]. intros h [(F1 & F2 & F3 & F4) F5 F6 F7]. split; cbn [kern vm]; [done|done| |].
      * intros p Hp. apply Gu. by rewrite Hu, (F6 _ Hp).
      * intros j Hj. unfold PHYS_PAGES, PHYS_END in *. rewrite Hm; [by apply F7|lia|]. apply Hout, F6. unfold in_run.
        rewrite (proj2 (Z.leb_le _ _)), (proj2 (Z.ltb_lt _ _)) by dlia. done.
  - intros p Hp. apply Gu. by rewrite Hu, (L6 _ Hp).
  - intros a Ha Hp. rewrite Hm; [by apply L7|done|]. by apply Hout, L6.
Qed.

(** ** Segments *)

Context (base : Z) (Hbase : 0 ≤ base).

Definition is_load (ph : elf_phdr_t) : bool := (p_type ph =? PT_LOAD) && negb (p_memsz ph =? 0).
Definition seg_pages (ph : elf_phdr_t) : Z := (p_memsz ph + PAGE - 1) / PAGE.
(** The byte [j] of a segment: of the file, then zeros. *)
Definition seg_byte (ph : elf_phdr_t) (j : Z) : Z := if j <? p_filesz ph then default 0 (idx img (p_offset ph + j)) else 0.
Definition seg_region (ph : elf_phdr_t) (q : Z) : region := mk_region (p_vaddr ph + base) (seg_pages ph) q (p_memsz ph) (seg_byte ph).

(** A segment that starts at a page, has its bytes in the file, and ends below the stack. *)
Record seg_ok (ph : elf_phdr_t) : Prop := {
  sg_range : 0 ≤ p_offset ph ∧ 0 ≤ p_filesz ph ≤ p_memsz ph ∧ 0 ≤ p_vaddr ph;
  sg_in : p_offset ph + p_filesz ph ≤ zlen img;
  sg_align : (p_vaddr ph + base) mod PAGE = 0;
  sg_end : p_vaddr ph + base + p_memsz ph ≤ USER_STACK_START
}.

Lemma in_run_byte q n a : in_run q n (a / PAGE) = (q * PAGE <=? a) && (a <? q * PAGE + n * PAGE).
Proof. unfold in_run. apply eq_true_iff_eq. rewrite !andb_true_iff, !Z.leb_le, !Z.ltb_lt. dlia. Qed.

(** The memory after a segment is cleared and read. *)
Lemma segment_bytes m ph q j : seg_ok ph → 0 ≤ q → q + seg_pages ph ≤ PHYS_PAGES →
  let V := q * PAGE + NORMAL_VMA_OFFSET in
  let m' := store_bytes (λ x, if (V <=? x) && (x <? V + p_memsz ph) then 0 else m x) V (slice img (p_offset ph) (p_filesz ph)) in
  (0 ≤ j < p_memsz ph → m' (V + j) = seg_byte ph j) ∧
  (∀ a, 0 ≤ a < PHYS_END → in_run q (seg_pages ph) (a / PAGE) = false → m' (a + NORMAL_VMA_OFFSET) = m (a + NORMAL_VMA_OFFSET)).
Proof.
  intros [(Ho & Hf & Hv) Hin Hal Hend] Hq Hqn V m'. unfold m', V, seg_pages, PHYS_PAGES, PHYS_END, NORMAL_VMA_OFFSET, USER_STACK_START, USER_STACK, USER_STACK_SIZE in *.
  assert (zlen (slice img (p_offset ph) (p_filesz ph)) = p_filesz ph) as Ez by (rewrite zlen_slice; lia).
  assert (p_memsz ph ≤ (p_memsz ph + PAGE - 1) / PAGE * PAGE) as Hmp by dlia.
  split.
  - intros Hj. rewrite store_bytes_lookup by lia. rewrite Ez. unfold seg_byte. destruct (j <? p_filesz ph) eqn:E; zbool.
    + rewrite (proj2 (Z.leb_le _ _)), (proj2 (Z.ltb_lt _ _)) by lia. cbn [andb].
      destruct (idx_lt img (p_offset ph + j) ltac:(lia)) as [x Hx]. rewrite Hx. cbn [default from_option].
      assert (idx (slice img (p_offset ph) (p_filesz ph)) j = Some x) as Hx' by (by rewrite idx_slice by lia).
      apply idx_Some in Hx' as [_ Hx']. replace (Z.to_nat (_ - _)) with (Z.to_nat j) by lia.
      rewrite (nth_lookup_Some _ _ 0 _ Hx'). apply idx_Some in Hx as [_ Hx]. rewrite Forall_lookup in Hbytes.
      apply Z.mod_small. by apply (Hbytes _ _ Hx).
    + rewrite (proj2 (Z.leb_le _ _)), (proj2 (Z.ltb_ge _ _)) by lia. cbn [andb].
      by rewrite (proj2 (Z.ltb_lt _ _)) by lia.
  - intros a Ha Hr. rewrite in_run_byte in Hr. rewrite store_bytes_frame by (rewrite ?Ez; destruct (q * PAGE <=? a) eqn:E1, (a <? _) eqn:E2; zbool; try done; lia).
    match goal with |- (if (?x <=? ?y) && (?z <? ?w) then _ else _) = _ => destruct (x <=? y) eqn:E1, (z <? w) eqn:E2 end; zbool; try done. cbn [andb].
    exfalso. rewrite (proj2 (Z.leb_le _ _)), (proj2 (Z.ltb_lt _ _)) in Hr by lia. done.
Qed.

Lemma load_segment_ok l T u ph N m : loading l T u → seg_ok ph → 0 < p_memsz ph → seg_pages ph ≤ m → 512 ≤ m →
  enough (frames (vm u)) (Z.to_nat (seg_pages ph) + run_room (Z.to_nat (seg_pages ph)) + N) m →
  ∃ q T' u', load_segment mapped fd base r ph u = Ok (tt, u') ∧ loading (seg_region ph q :: l) T' u' ∧ enough (frames (vm u')) N m.
Proof.
  intros Hlo Hsg H0' Hnm Hm512 He. pose proof Hsg as [(Ho & Hf & Hv) Hin Hal Hend].
  assert (p_vaddr ph + base + seg_pages ph * PAGE ≤ USER_STACK_START) as Hendp
    by (unfold seg_pages, USER_STACK_START, USER_STACK, USER_STACK_SIZE in *; dlia).
  unfold USER_STACK_START, USER_STACK, USER_STACK_SIZE in Hend, Hendp.
  destruct (alloc_region T (vm u) (p_memsz ph) (seg_pages ph) _ m (lo_tree _ _ _ Hlo) H0' ltac:(lia) eq_refl Hnm He)
    as (q & s1 & E1 & Hfr & Hq & Hn & Hqn & Hok1 & Hl1 & Ht1 & Hu1 & Htr1).
  destruct (lo_file _ _ _ Hlo) as [pos Hk]. set (n := seg_pages ph) in *. unfold PHYS_PAGES in Hqn.
  set (V := q * PAGE + NORMAL_VMA_OFFSET). set (k1 := kern u <| kmem := λ x, if (V <=? x) && (x <? V + p_memsz ph) then 0 else kmem (kern u) x |>).
  assert (p_memsz ph ≤ n * PAGE) as Hmn by (unfold n, seg_pages; dlia).
  assert (0 ≤ V ∧ V + p_memsz ph ≤ U64_MOD) as [HV0 HV1] by (unfold V, NORMAL_VMA_OFFSET; lia).
  destruct (read_at_ok mapped fd img at_ Hs Hsize k1 pos (p_offset ph) V (p_filesz ph)) as (k2 & E2 & Hk2 & M2); try lia.
  { by apply (at_mem mapped fd img at_ Hs). }
  pose proof (enough_took _ _ _ _ _ ltac:(rewrite <-Nat.add_assoc in He; exact He) Ht1) as He1.
  assert (is_u64 (q * PAGE)) as Hqu by (unfold is_u64; lia).
  assert (Z.land (q * PAGE) VMM_4K_PERM_MASK = q * PAGE) as Eq by (rewrite land_mask by done; dlia).
  destruct (remap_pages_ok T r s1 (q * PAGE) (p_vaddr ph + base) n LOAD_FLAGS) as (T' & s3 & E3 & G & _ & W);
    [done|rewrite Hl1; apply Hlo|unfold is_u64; lia|done|lia|rewrite Eq; lia|vm_compute; by split| |].
  { eapply enough_room; [apply Hok1|exact He1|]. apply run_room_le; lia. }
  pose proof (segment_bytes (kmem (kern u)) ph q) as Hsb. cbv zeta in Hsb. fold V in Hsb.
  exists q, T', (mk_user k2 s3). split_and!.
  - unfold load_segment. rewrite (proj2 (Z.eqb_neq _ _)) by lia. cbv zeta. rewrite (u64_small (p_memsz ph + PAGE - 1)) by (unfold is_u64; lia).
    erewrite bind_ok by (apply on_vm_ok; exact E1). cbv beta. rewrite (u64_small (p_vaddr ph + base)) by (unfold is_u64; lia).
    rewrite higher_add by (unfold PHYS_END; lia). change 4095 with (Z.ones 12). rewrite Z.land_ones by lia. change (2 ^ 12) with PAGE. rewrite Hal, Z.add_0_r. fold V.
    rewrite (u64_small V) by (unfold is_u64; lia). erewrite bind_ok by (by apply on_kern_ok). cbv beta.
    erewrite bind_ok by (apply on_kern_ok; exact E2). cbv beta. erewrite bind_ok by (apply on_vm_ok; exact E3). by destruct u.
  - eapply (loading_extend l T u (seg_region ph q) s1 _ T' s3 k2 _ Hlo); try done; try (unfold PHYS_PAGES; cbn; lia).
    + intros v. rewrite W, Htr1, (lo_space _ _ _ Hlo), Eq. cbn [space_of]. done.
    + intros j Hj. cbn [seg_region rg_page rg_size rg_byte] in *. rewrite higher_add by (unfold PHYS_END; unfold n, seg_pages in *; dlia).
      replace (q * PAGE + j + NORMAL_VMA_OFFSET) with (V + j) by (unfold V; lia). rewrite M2. apply (Hsb j); try done; unfold PHYS_PAGES; lia.
    + intros a Ha Hr. cbn [seg_region rg_page rg_pages] in *. rewrite higher_add by done. rewrite M2. apply (Hsb 0); try done; unfold PHYS_PAGES; lia.
  - eapply enough_took; [exact He1|]. eapply grows_took; exact G.
Qed.

(** ** The stack *)

Definition stack_region (q : Z) : region := mk_region USER_STACK_START USER_STACK_PAGES q USER_STACK_SIZE (λ _, 0).

Lemma load_stack_ok l T u N m : loading l T u → (∀ v, covers (stack_region 0) v = true → space_of l old v = None) → 512 ≤ m →
  enough (frames (vm u)) (512 + run_room 512 + N) m →
  ∃ q T' u', load_stack r u = Ok (tt, u') ∧ loading (stack_region q :: l) T' u'.
Proof.
  intros Hlo Hnone Hm512 He. assert (USER_STACK_PAGES = 512) as Ep by reflexivity.
  destruct (alloc_region T (vm u) USER_STACK_SIZE 512 _ m (lo_tree _ _ _ Hlo) ltac:(done) ltac:(done) eq_refl Hm512 He)
    as (q & s1 & E1 & Hfr & Hq & Hn & Hqn & Hok1 & Hl1 & Ht1 & Hu1 & Htr1).
  destruct (lo_file _ _ _ Hlo) as [pos Hk]. unfold PHYS_PAGES in Hqn. set (V := q * PAGE + NORMAL_VMA_OFFSET).
  set (k1 := kern u <| kmem := λ x, if (V <=? x) && (x <? V + USER_STACK_SIZE) then 0 else kmem (kern u) x |>).
  pose proof (enough_took _ _ _ _ _ ltac:(rewrite <-Nat.add_assoc in He; exact He) Ht1) as He1.
  assert (is_u64 (q * PAGE)) as Hqu by (unfold is_u64; lia).
  assert (Z.land (q * PAGE) VMM_4K_PERM_MASK = q * PAGE) as Eq by (rewrite land_mask by done; dlia).
  destruct (map_pages_ok T r s1 (q * PAGE) USER_STACK_START USER_STACK_PAGES LOAD_FLAGS) as (T' & s3 & E3 & G & W);
    [done|rewrite Hl1; apply Hlo|done|done|by vm_compute|rewrite Eq, Ep; lia|vm_compute; by split|reflexivity| |].
  { eapply enough_room; [apply Hok1|exact He1|]. apply run_room_le; rewrite ?Ep; lia. }
  exists q, T', (mk_user k1 s3). split.
  - unfold load_stack. erewrite bind_ok by (apply on_vm_ok; exact E1). cbv beta. rewrite higher_add by (unfold PHYS_END; lia). fold V.
    erewrite bind_ok by (by apply on_kern_ok). cbv beta. erewrite bind_ok by (apply on_vm_ok; exact E3). by destruct u.
  - eapply (loading_extend l T u (stack_region q) s1 _ T' s3 k1 pos Hlo); try done; try (unfold PHYS_PAGES; cbn -[USER_STACK_PAGES]; rewrite Ep; lia).
    + intros v. rewrite W, Htr1, (lo_space _ _ _ Hlo), Eq. unfold VmmMap.mapped. cbn [space_of]. unfold covers. cbn [stack_region rg_virt rg_pages].
      destruct (page_off _ v <? _) eqn:Ec; [by rewrite Hnone|by destruct (space_of l old v)].
    + by apply (at_mem mapped fd img at_ Hs).
    + intros j Hj. cbn [stack_region rg_page rg_size rg_byte] in *. unfold USER_STACK_SIZE in *. rewrite higher_add by (unfold PHYS_END; lia).
      unfold k1, V. cbn. by rewrite (proj2 (Z.leb_le _ _)), (proj2 (Z.ltb_lt _ _)) by lia.
    + intros a Ha Hr. cbn [stack_region rg_page rg_pages] in *. rewrite in_run_byte, Ep in Hr. rewrite !higher_add by done.
      unfold k1, V, USER_STACK_SIZE. cbn. match goal with |- (if (?x <=? ?y) && (?z <? ?w) then _ else _) = _ => destruct (x <=? y) eqn:E1', (z <? w) eqn:E2' end; zbool; try done. cbn [andb].
      exfalso. rewrite (proj2 (Z.leb_le _ _)), (proj2 (Z.ltb_lt _ _)) in Hr by lia. done.
Qed.

(** ** All program headers *)

(** [l'] is [l] with a region for each segment of [phs]. *)
Inductive placed : list elf_phdr_t → list region → list region → Prop :=
| placed_nil l : placed [] l l
| placed_load ph phs q l l' : is_load ph = true → placed phs (seg_region ph q :: l) l' → placed (ph :: phs) l l'
| placed_skip ph phs l l' : is_load ph = false → placed phs l l' → placed (ph :: phs) l l'.

(** The pages the segments need, and those of the tables. *)
Fixpoint pages_needed (phs : list elf_phdr_t) : nat :=
  match phs with
  | [] => 0
  | ph :: phs' => (if is_load ph then Z.to_nat (seg_pages ph) + run_room (Z.to_nat (seg_pages ph)) else 0) + pages_needed phs'
  end.

Lemma load_phdrs_ok load e m N : 512 ≤ m → ∀ phs l T u v, loading l T u →
  Forall (λ ph, p_type ph ≠ PT_INTERP ∧ p_type ph ≠ PT_PHDR ∧ (is_load ph = true → seg_ok ph ∧ seg_pages ph ≤ m)) phs →
  enough (frames (vm u)) (pages_needed phs + N) m →
  ∃ l' T' u', load_phdrs mapped load fd base r e phs v u = Ok (v, u') ∧
    loading l' T' u' ∧ placed phs l l' ∧ enough (frames (vm u')) N m.
Proof.
  intros Hm. induction phs as [|ph phs IH]; intros l T u v Hlo Hall He.
  { exists l, T, u. by split_and!; [|done|constructor|]. }
  apply Forall_cons in Hall as [(Hni & Hnp & Hsg) Hall]. cbn [load_phdrs pages_needed] in *. unfold load_phdr.
  rewrite (proj2 (Z.eqb_neq _ _) Hni), (proj2 (Z.eqb_neq _ _) Hnp). destruct (is_load ph) eqn:El.
  - destruct (Hsg eq_refl) as [Hok Hpm]. unfold is_load in El. apply andb_true_iff in El as [El1 El2]. rewrite El1. zbool.
    pose proof (sg_range _ Hok). destruct (load_segment_ok l T u ph (pages_needed phs + N) m Hlo Hok) as (q & T1 & u1 & E1 & Hlo1 & He1); try lia.
    { by rewrite <-!Nat.add_assoc in *. }
    destruct (IH _ _ _ v Hlo1 Hall He1) as (l' & T' & u' & E & Hlo' & Hp & He').
    exists l', T', u'. split_and!; try done.
    + by rewrite (bind_ok _ _ u v u1) by (by mrun E1).
    + apply (placed_load _ _ q); [|done]. unfold is_load. by rewrite El1, (proj2 (Z.eqb_neq _ _) El2).
  - assert ((if p_type ph =? PT_LOAD then load_segment mapped fd base r ph ;; mret v else mret v) u = Ok (v, u)) as E1.
    { unfold is_load in El. destruct (p_type ph =? PT_LOAD); [|done]. cbn [andb] in El. zbool. unfold load_segment. by rewrite El. }
    destruct (IH l T u v Hlo Hall He) as (l' & T' & u' & E & Hlo' & Hp & He').
    exists l', T', u'. mrun E1. split_and!; try done. by apply placed_skip.
Qed.

(** Where an address is after the segments are placed. *)
Lemma placed_in phs l l' g : placed phs l l' → g ∈ l → g ∈ l'.
Proof. induction 1; [done| |done]; intros Hg; apply IHplaced; by right. Qed.

Lemma placed_none phs l l' v : placed phs l l' → (∀ ph, ph ∈ phs → is_load ph = true → covers (seg_region ph 0) v = false) →
  space_of l' old v = space_of l old v.
Proof.
  induction 1 as [|ph phs q l l' Hl Hp IH|ph phs l l' Hl Hp IH]; intros Hn; [done| |].
  - rewrite IH by (intros; apply Hn; [by right|done]). cbn [space_of]. pose proof (Hn ph ltac:(left) Hl) as Hc.
    change (covers (seg_region ph q) v) with (covers (seg_region ph 0) v). by rewrite Hc.
  - apply IH. intros. apply Hn; [by right|done].
Qed.

Lemma placed_last phs l l' v : placed phs l l' → ∀ l1 ph l2, phs = l1 ++ ph :: l2 → is_load ph = true → covers (seg_region ph 0) v = true →
  (∀ ph', ph' ∈ l2 → is_load ph' = true → covers (seg_region ph' 0) v = false) →
  ∃ q, seg_region ph q ∈ l' ∧ space_of l' old v = Some (region_at (seg_region ph q) v).
Proof.
  induction 1 as [|ph phs q l l' Hl Hp IH|ph phs l l' Hl Hp IH]; intros l1 ph' l2 E Hl' Hc Hn.
  - by destruct l1.
  - destruct l1 as [|x l1]; injection E as -> ->; [|by eapply IH].
    exists q. split; [eapply placed_in; [exact Hp|by left]|]. rewrite (placed_none _ _ _ v Hp Hn). cbn [space_of].
    change (covers (seg_region ph' q) v) with (covers (seg_region ph' 0) v). by rewrite Hc.
  - destruct l1 as [|x l1]; injection E as -> ->; [congruence|by eapply IH].
Qed.

(** An address of a region holds the region's byte. *)
Lemma region_byte l T u g j : loading l T u → g ∈ l → rg_virt g mod PAGE = 0 → 0 ≤ rg_virt g → rg_virt g + rg_size g ≤ 140737488355328 →
  0 ≤ j < rg_size g →
  ∃ a, region_at g (rg_virt g + j) = (a, LOAD_FLAGS) ∧ fa_used (frames (vm u0)) (a / PAGE) = false ∧
    kmem (kern u) (GET_HIGHER_HALF a) = rg_byte g j.
Proof.
  intros Hlo Hg Ha H0' Hend Hj. pose proof (lo_filled _ _ _ Hlo) as Hf. rewrite Forall_forall in Hf. destruct (Hf g Hg) as [(F1 & F2 & F3 & F4) F5 F6 F7].
  destruct (page_off_at (rg_virt g) j) as [Ep Em]; try lia. unfold region_at. rewrite Ep, Em.
  exists (rg_page g * PAGE + j). split_and!; [f_equal; dlia|apply F5; dlia|by apply F7].
Qed.

Lemma covers_at g j : rg_virt g mod PAGE = 0 → 0 ≤ rg_virt g → rg_virt g + rg_size g ≤ 140737488355328 → rg_size g ≤ rg_pages g * PAGE →
  0 ≤ j < rg_size g → covers g (rg_virt g + j) = true.
Proof.
  clear old. intros Ha H0' Hend Hsz Hj. unfold covers. apply Z.ltb_lt. destruct (page_off_at (rg_virt g) j) as [-> _]; try lia. dlia.
Qed.

(** No segment reaches the stack or the upper half. *)
Lemma seg_below ph v : seg_ok ph → is_load ph = true → covers (seg_region ph 0) v = true → v mod 281474976710656 < USER_STACK_START.
Proof.
  clear old. intros [(Ho & Hf & Hv) Hin Hal Hend] Hl Hc. unfold is_load in Hl. unfold covers, seg_region in Hc. cbn [rg_virt rg_pages] in Hc. zbool.
  unfold seg_pages, USER_STACK_START, USER_STACK, USER_STACK_SIZE in *.
  apply page_off_in in Hc; [|done|lia|dlia|dlia]. dlia.
Qed.

Lemma stack_covers v : covers (stack_region 0) v = true ↔ USER_STACK_START ≤ v mod 281474976710656 < 140737488355328.
Proof.
  unfold covers, stack_region. cbn [rg_virt rg_pages]. rewrite Z.ltb_lt, page_off_in by (vm_compute; done).
  by change (USER_STACK_START + USER_STACK_PAGES * PAGE) with 140737488355328.
Qed.
End laws.

(** ** The loader *)

Section loader.
Context {F : Type} `{!FrameAlloc F} `{!FrameAllocLaws F}.
Context (mapped : Z → Z → bool) `{Code} (junk : Z → list Z) (elf_magic : Z).

(** The kernel with a message more in its log. *)
Definition logged (msg : string) (k : kstate) : kstate := k <| kcpu := say msg (kcpu k) |>.

(** The pages a program without interpreter needs: the top table, the segments, the stack, and the tables below. *)
Definition program_pages (phs : list elf_phdr_t) : nat := 1 + (pages_needed phs + (512 + run_room 512)).

(** The file at [path] opens as [fd] with the contents [img], a program without interpreter for which there is memory.  The loader runs in
    the kernel's address space, as its callers do, with the array [elf_magic] somewhere on the stack. *)
Record can_load (T : tree) (u : user_st F) (path base fd : Z) (img : list Z) (at_ : kstate → Z → Prop) (k1 : kstate) (m : Z) : Prop := {
  cl_serves : serves mapped fd img at_;
  cl_open : open_path mapped junk path (logged "Reading ELF: %s" (kern u)) = Ok (fd, k1);
  cl_fd : 0 ≤ fd;
  cl_at : at_ k1 0;
  cl_kmem : ∀ x, NORMAL_VMA_OFFSET ≤ x → kmem k1 x = kmem (kern u) x;
  cl_stack : 0 ≤ elf_magic ∧ elf_magic + 4 ≤ U64_MOD;
  cl_heap : heap_ok T (vm u) ∧ cr3 (vm u) = Vmm.base_kernel_cr3 (vm u);
  cl_elf : elf_ok img;
  cl_base : 0 ≤ base;
  cl_segs : Forall (λ ph, p_type ph ≠ PT_INTERP ∧ p_type ph ≠ PT_PHDR ∧ (is_load ph = true → seg_ok img base ph ∧ seg_pages ph ≤ m)) (phdrs_in img);
  cl_run : 512 ≤ m ∧ alloc_pages (zlen img) + 12 ≤ m ∧ zlen img + 12288 ≤ U64_MOD;
  cl_room : enough (frames (vm u)) (4 * buffer_room img + program_pages (phdrs_in img)) m
}.

(** The run: once the headers are read the regions of the segments and of the stack are put in the new address space. *)
Lemma load_run T (u : user_st F) path base fd img at_ k1 m fuel auxv_out : can_load T u path base fd img at_ k1 m →
  let root := Vmm.base_kernel_cr3 (vm u) in
  ∃ uh r l q T' u2 u', load_elf_addrspace mapped junk elf_magic (S fuel) path base 0 auxv_out u =
      Ok (Some (r, u64 (e_entry (ehdr_in img) + base), []), u') ∧
    (∃ Th, heap_grew (vm u) T (vm uh) Th) ∧
    (∀ x, NORMAL_VMA_OFFSET ≤ x → fa_used (frames (vm u)) ((x - NORMAL_VMA_OFFSET) / PAGE) = true → ¬ elf_magic ≤ x < elf_magic + 4 →
       kmem (kern uh) x = kmem (kern u) x) ∧
    placed img base (phdrs_in img) [] l ∧
    loading at_ uh r (λ v, if pt_index 3 v <? 256 then None else translate (vm uh) root v) (stack_region q :: l) T' u2 ∧
    vm u' = vm u2 ∧ kmem (kern u') = kmem (kern u2).
Proof.
  intros [Hs Hopen Hfd Hat Hkm Hst [Hheap Hcr] Helf Hbase Hsegs (Hm & Hmb & Hmax) Hroom] root.
  pose proof (eo_bytes _ Helf) as Hbytes. pose proof (eo_size _ Helf) as [_ Hsize].
  destruct (load_headers_ok mapped fd img at_ Hs Hbytes Hsize elf_magic Hst m Hmb Hmax T (mk_user k1 (vm u)) 0 _ Helf Hat Hheap Hroom)
    as (Th & vh & k2 & p2 & E2 & Hk2 & Gh & He2 & M2). cbn [kern vm] in Gh, M2.
  set (uh := mk_user k2 vh). pose proof (hg_heap _ _ _ _ Gh) as Hhh. pose proof (hg_regs _ _ _ _ Gh) as (Rc & _ & Rb & _).
  assert (cr3 vh = root) as Hroot by (unfold root; congruence).
  pose proof (h_tree _ _ Hhh) as Htree. rewrite Hroot in Htree. pose proof (t_alloc _ _ _ Htree) as Hinv.
  destruct (fork_tree Th root vh Htree (h_lock _ _ Hhh)) as (np & s1 & E3 & Hok1 & Hregs & Hfree & Hu1 & Htr1).
  { eapply enough_room; [exact Hinv|exact He2|lia]. }
  set (old := λ v, if pt_index 3 v <? 256 then None else translate (vm uh) root v).
  set (u1 := mk_user k2 s1). set (r := np * PAGE) in *. pose proof Hregs as (_ & Hl1 & _ & _ & _ & Hsz1).
  assert (enough (frames s1) (pages_needed (phdrs_in img) + (512 + run_room 512)) m) as He1.
  { eapply enough_took; [exact He2|]. apply (run_took _ _ np); [apply Hok1|done|]. intros p. rewrite Hu1. by rewrite in_run_1. }
  assert (loading at_ uh r old [] (upper_tree Th r) u1) as Hlo1.
  { split; cbn [kern vm u1 uh]; try done.
    - rewrite Hl1. apply (h_lock _ _ Hhh).
    - by exists p2.
    - intros p Hp. by rewrite Hu1, Hp. }
  destruct (load_phdrs_ok mapped fd img at_ Hs Hbytes Hsize uh r old base Hbase (load_elf_addrspace mapped junk elf_magic fuel) (ehdr_in img) m _ Hm
    (phdrs_in img) [] _ u1 (mk_load false 0 0 []) Hlo1 Hsegs He1) as (l & T2 & u2 & E4 & Hlo2 & Hpl & He3).
  destruct (load_stack_ok mapped fd img at_ Hs uh r old l T2 u2 0 m Hlo2) as (q & T3 & u3 & E5 & Hlo3); [|done|by rewrite Nat.add_0_r|].
  { intros v Hc. apply stack_covers in Hc. rewrite (placed_none _ _ _ _ _ _ v Hpl).
    - cbn [space_of]. unfold old. rewrite (proj2 (Z.ltb_lt _ _)); [done|]. unfold pt_index. cbn [blk]. dlia.
    - intros ph Hin Hl. rewrite Forall_forall in Hsegs. destruct (Hsegs ph Hin) as (_ & _ & Hok). destruct (Hok Hl) as [Hok' _].
      destruct (covers _ v) eqn:E; [|done]. apply (seg_below img base Hbase ph v Hok' Hl) in E. lia. }
  destruct (lo_file _ _ _ _ _ _ _ Hlo3) as [pos Hk3]. destruct (sv_close _ _ _ _ Hs _ _ Hk3) as (x & k4 & E6 & M4).
  exists uh, r, l, q, T3, u3, (u3 <| kern := k4 |>). split_and!; try done.
  - cbn [load_elf_addrspace]. erewrite bind_ok by (by apply on_kern_ok). cbv beta. erewrite bind_ok by (apply on_kern_ok; exact Hopen). cbv beta.
    rewrite (proj2 (Z.ltb_ge _ _)) by lia. match goal with |- context [(h ← load_headers _ _ _; _) ?y] => change y with (mk_user k1 (vm u)) end.
    mrun E2. cbv beta iota. cbn [Z.eqb]. erewrite bind_ok by (apply on_vm_ok; mstep; cbn [vm]; rewrite Rb; exact E3). cbv beta.
    match goal with |- context [(v ← load_phdrs _ _ _ _ _ _ _ _; _) ?y] => change y with u1 end.
    mrun E4. cbn [loaded_dynamic_linker dynamic_linker_entry l_auxv l_array Z.eqb negb]. erewrite bind_ok by (by mrun E5). cbv beta.
    rewrite andb_false_r. mstep. erewrite bind_ok by (apply on_kern_ok; exact E6). done.
  - by exists Th.
  - intros y Hy Hu Hn. cbn [kern uh]. rewrite M2 by done. by apply Hkm.
Qed.

(** C38: loading a program.  When the file at the path is an ELF program without interpreter (no PT_INTERP, no PT_PHDR header) whose
    segments start at pages, lie in the file and end below the stack, the loader runs in the kernel's address space and there is enough memory,
    [load_elf_addrspace] returns a new address space and
    the program's entry point.  There, every byte of every segment that no later segment covers is the byte of the
    file, or zero past the part that is in the file; the stack is mapped and cleared; all of it is in pages that were free.  No other
    address of the lower half is mapped; the upper half translates as the kernel's tables did, but for the direct map of
    memory that was free, where the buffers of the headers have guard pages.  Memory that was in use is unchanged, but for the four
    bytes of the array [elf_magic]. *)
Theorem load_elf_correct T (u : user_st F) path base fd img at_ k1 m fuel auxv_out : can_load T u path base fd img at_ k1 m →
  ∃ r u', load_elf_addrspace mapped junk elf_magic (S fuel) path base 0 auxv_out u =
      Ok (Some (r, u64 (e_entry (ehdr_in img) + base), []), u') ∧
    (∀ l1 ph l2 j, phdrs_in img = l1 ++ ph :: l2 → is_load ph = true → 0 ≤ j < p_memsz ph →
       let v := p_vaddr ph + base + j in
       (∀ ph', ph' ∈ l2 → is_load ph' = true → seg_pages ph' ≤ page_off (p_vaddr ph' + base) v) →
       ∃ a, translate (vm u') r v = Some (a, LOAD_FLAGS) ∧ fa_used (frames (vm u)) (a / PAGE) = false ∧
         kmem (kern u') (GET_HIGHER_HALF a) = if j <? p_filesz ph then default 0 (idx img (p_offset ph + j)) else 0) ∧
    (∀ j, 0 ≤ j < USER_STACK_SIZE → ∃ a, translate (vm u') r (USER_STACK_START + j) = Some (a, LOAD_FLAGS) ∧
       fa_used (frames (vm u)) (a / PAGE) = false ∧ kmem (kern u') (GET_HIGHER_HALF a) = 0) ∧
    (∀ v, v mod 281474976710656 < USER_STACK_START →
       (∀ ph, ph ∈ phdrs_in img → is_load ph = true → seg_pages ph ≤ page_off (p_vaddr ph + base) v) → translate (vm u') r v = None) ∧
    (∀ v, 256 ≤ pt_index 3 v → (∀ p, fa_used (frames (vm u)) p = false → page_off (kpage p) v ≠ 0) →
       translate (vm u') r v = translate (vm u) (Vmm.base_kernel_cr3 (vm u)) v) ∧
    (∀ a, 0 ≤ a < PHYS_END → fa_used (frames (vm u)) (a / PAGE) = true → ¬ elf_magic ≤ GET_HIGHER_HALF a < elf_magic + 4 →
       kmem (kern u') (GET_HIGHER_HALF a) = kmem (kern u) (GET_HIGHER_HALF a)).
Proof.
  intros Hcl. destruct (load_run _ _ _ _ _ _ _ _ _ fuel auxv_out Hcl) as (uh & r & l & q & T' & u2 & u' & E & [Th Gh] & Mh & Hpl & Hlo & Ev & Ek).
  assert (∀ p, fa_used (frames (vm uh)) p = false → fa_used (frames (vm u)) p = false) as Hfree.
  { intros p Hp. destruct (fa_used (frames (vm u)) p) eqn:E1; [|done]. by rewrite (hg_used _ _ _ _ Gh p E1) in Hp. }
  set (old := λ v, _) in Hlo. pose proof (lo_space _ _ _ _ _ _ _ Hlo) as Hsp. pose proof (cl_segs _ _ _ _ _ _ _ _ _ Hcl) as Hsegs. rewrite Forall_forall in Hsegs.
  assert (∀ ph, ph ∈ phdrs_in img → is_load ph = true → seg_ok img base ph) as Hok by (intros ph Hin Hl; by apply Hsegs).
  assert (∀ v, v mod 281474976710656 < USER_STACK_START → pt_index 3 v < 256) as Hlow.
  { intros v. unfold pt_index, USER_STACK_START, USER_STACK, USER_STACK_SIZE. cbn [blk]. intros Hv. dlia. }
  exists r, u'. rewrite Ev, Ek. split; [exact E|]. split_and!.
  - intros l1 ph l2 j Eph Hl Hj v Hlater. assert (ph ∈ phdrs_in img) as Hin by (rewrite Eph; apply elem_of_app; right; by left).
    pose proof (Hok ph Hin Hl) as Hsg. pose proof Hsg as [(Ho & Hf & Hv) _ Hal Hend]. pose proof (cl_base _ _ _ _ _ _ _ _ _ Hcl).
    assert (USER_STACK_START ≤ 140737488355328) by done.
    assert (covers (seg_region img base ph 0) v = true) as Hc by (apply (covers_at (seg_region img base ph 0)); cbn [seg_region rg_virt rg_size rg_pages]; unfold seg_pages; first [done|lia|dlia]).
    destruct (placed_last img old base _ _ _ v Hpl l1 ph l2 Eph Hl Hc) as (q' & Hg & Es).
    { intros ph' Hin' Hl'. apply Z.ltb_ge, Hlater; done. }
    destruct (region_byte at_ uh r old _ T' u2 (seg_region img base ph q') j Hlo) as (a & Ea & Hu & Hb); try (cbn; lia); [by right|].
    exists a. apply Hfree in Hu. rewrite Hsp. cbn [space_of]. destruct (covers (stack_region q) v) eqn:Ecs.
    { apply (stack_covers v) in Ecs. apply (seg_below img base ltac:(lia) ph v Hsg Hl) in Hc. lia. }
    rewrite Es. cbn [rg_virt seg_region] in Ea. unfold v. by rewrite Ea.
  - intros j Hj. destruct (region_byte at_ uh r old _ T' u2 (stack_region q) j Hlo) as (a & Ea & Hu & Hb); try done; [by left|].
    exists a. apply Hfree in Hu. rewrite Hsp. cbn [space_of]. pose proof (covers_at (stack_region q) j) as Hc. cbn [rg_virt stack_region] in Hc, Ea. rewrite Hc by done.
    by rewrite Ea.
  - intros v Hv Hnone. rewrite Hsp. cbn [space_of]. destruct (covers (stack_region q) v) eqn:Ecs; [apply (stack_covers v) in Ecs; lia|].
    rewrite (placed_none img old base _ _ _ v Hpl); [|intros ph Hin Hl; apply Z.ltb_ge, Hnone; done].
    cbn [space_of]. unfold old. by rewrite (proj2 (Z.ltb_lt _ _) (Hlow v Hv)).
  - intros v Hv Hguard. rewrite Hsp. cbn [space_of]. assert (140737488355328 ≤ v mod 281474976710656) as Hhi by (unfold pt_index in Hv; cbn [blk] in Hv; dlia).
    destruct (covers (stack_region q) v) eqn:Ecs; [apply (stack_covers v) in Ecs; lia|].
    rewrite (placed_none img old base _ _ _ v Hpl).
    + cbn [space_of]. unfold old. rewrite (proj2 (Z.ltb_ge _ _) Hv). destruct (cl_heap _ _ _ _ _ _ _ _ _ Hcl) as [_ <-].
      by apply (hg_walk _ _ _ _ Gh).
    + intros ph Hin Hl. destruct (covers (seg_region img base ph 0) v) eqn:Ec; [|done]. apply (seg_below img base (cl_base _ _ _ _ _ _ _ _ _ Hcl) ph v (Hok ph Hin Hl) Hl) in Ec. assert (USER_STACK_START ≤ 140737488355328) by done. lia.
  - intros a Ha Hu Hn. rewrite (lo_mem _ _ _ _ _ _ _ Hlo a Ha (hg_used _ _ _ _ Gh _ Hu)).
    rewrite higher_add in * by done. apply Mh; [lia| |done]. by replace (a + NORMAL_VMA_OFFSET - NORMAL_VMA_OFFSET) with a by lia.
Qed.
End loader.

(** ** A program that is loaded *)

(** A program of one segment: four bytes of the file at 0x400000 and zeros up to byte 5000. *)
Definition demo_img : list Z :=
  [127; 69; 76; 70; 2] ++ replicate 11 0 ++ le_bytes 2 2 ++ le_bytes 2 62 ++ le_bytes 4 1 ++ le_bytes 8 4194304 ++ le_bytes 8 64 ++ le_bytes 8 120
  ++ le_bytes 4 0 ++ le_bytes 2 64 ++ le_bytes 2 56 ++ le_bytes 2 1 ++ le_bytes 2 64 ++ le_bytes 2 1 ++ le_bytes 2 0
  ++ le_bytes 4 1 ++ le_bytes 4 7 ++ le_bytes 8 184 ++ le_bytes 8 4194304 ++ le_bytes 8 0 ++ le_bytes 8 4 ++ le_bytes 8 5000 ++ le_bytes 8 4096
  ++ replicate 64 0 ++ [144; 144; 235; 252].

(** The file is the node 410, [/pq]; its entry will be at the address 100000. *)
Definition demo_path (a : Z) : Z := if a =? 20 then 47 else if a =? 21 then 112 else if a =? 22 then 113 else 0.
Definition program_node : vfs_node_t := mk_node (Some [112; 113]) null_vfs_ops 0 0 0 400 400 (replicate 10 0) 1.
Definition elf_kernel : kstate :=
  demo_kernel <| kmem := demo_path |>
    <| fs := mk_fs {[400 := mk_node None null_vfs_ops 0 0 0 0 0 (410 :: replicate 9 0) 0; 410 := program_node]} ∅ 400 0 2 65536 |>.
Definition file_code : Code := {|
  call_open := λ _ _ _, mret 0; call_post_open := λ _ _ _, mret 0; call_close := λ _ _, mret 0;
  call_read := λ _ _ buf count,
    e ← fd_at 100000;
    modify (λ k, k <| kmem := store_bytes (kmem k) buf (slice demo_img (fd_seek_pos e) count) |>
                   <| fdheap := <[100000 := e <| fd_seek_pos := fd_seek_pos e + count |>]> (fdheap k) |>) ;;
    mret count;
  call_write := λ _ _ _ count, mret count; call_seek := λ _ _ _ _, mret 0; call_file_exists := λ _ _ _, mret 1;
  call_create := λ _ _ _ _, mret 0 |}.
Definition elf_opened : kstate :=
  logged "Reading ELF: %s" elf_kernel <| kbrk := 165536 |> <| fdheap := {[100000 := new_fd 410 0]} |>
    <| arrays := {[600 := 100000 :: replicate 69 0]} |>.

(** The kernel with 1.3 GB of memory in its direct map. *)
Definition elf_demo : user_st pmm_state := mk_user elf_kernel big_demo.

Lemma demo_headers : e_phnum (ehdr_in demo_img) = 1 ∧ phdrs_in demo_img = [mk_phdr 1 7 184 4194304 0 4 5000 4096].
Proof. split; vm_compute; reflexivity. Qed.

Lemma demo_can_load : can_load (H := file_code) (λ _ _, true) (λ _, []) 4096 big_tree elf_demo 20 0 0 demo_img
  (open_at 0 100000 program_node (demo_thread 0 RUNNING) 500 demo_process (100000 :: replicate 69 0)) elf_opened 512.
Proof.
  destruct demo_headers as [_ Eph]. split.
  - apply file_serves; [|done]. split; [done| |done]. intros k e buf count He _. cbn [call_read file_code]. by mrun (fd_at_ok _ _ _ He).
  - vm_compute. reflexivity.
  - done.
  - split; [split; [reflexivity|split; vm_compute; try split; congruence|reflexivity|reflexivity]|reflexivity|done|].
    exists (new_fd 410 0). split_and!; vm_compute; reflexivity.
  - done.
  - done.
  - split; [exact big_demo_ok|reflexivity].
  - split; try (vm_compute; (reflexivity || congruence || (split; congruence))). apply (bool_decide_unpack _). vm_compute. exact I.
  - done.
  - rewrite Eph. constructor; [|constructor]. split; [done|]. split; [done|]. intros _. split; [|by vm_compute]. split; vm_compute; repeat split; congruence.
  - by vm_compute.
  - rewrite Eph. apply big_enough. vm_compute. congruence.
Qed.

Lemma load_elf_correct_witness : ∃ r u', load_elf_addrspace (H := file_code) (λ _ _, true) (λ _, []) 4096 1 20 0 0 false elf_demo = Ok (Some (r, 4194304, []), u') ∧
  (∃ a, translate (vm u') r 4194306 = Some (a, 7) ∧ kmem (kern u') (GET_HIGHER_HALF a) = 235) ∧
  (∃ a, translate (vm u') r 4198400 = Some (a, 7) ∧ kmem (kern u') (GET_HIGHER_HALF a) = 0) ∧ translate (vm u') r 4202496 = None.
Proof.
  destruct (load_elf_correct (H := file_code) (λ _ _, true) (λ _, []) _ _ _ _ _ _ _ _ _ _ 0 false demo_can_load) as (r & u' & E & Hseg & _ & Hno & _).
  destruct demo_headers as [_ Eph]. exists r, u'. set (ph := mk_phdr 1 7 184 4194304 0 4 5000 4096) in Eph.
  assert (∀ j, 0 ≤ j < 5000 → ∃ a, translate (vm u') r (4194304 + 0 + j) = Some (a, 7) ∧
    kmem (kern u') (GET_HIGHER_HALF a) = if j <? 4 then default 0 (idx demo_img (184 + j)) else 0) as Hb.
  { intros j Hj. destruct (Hseg [] ph [] j Eph eq_refl Hj) as (a & Ea & _ & Hb); [intros ph' Hin; inversion Hin|].
    exists a. split; [exact Ea|exact Hb]. }
  split; [exact E|]. clear E Hseg. split; [|split].
  - exact (Hb 2 ltac:(lia)).
  - exact (Hb 4096 ltac:(lia)).
  - apply Hno; [vm_compute; reflexivity|]. rewrite Eph. intros ph' ->%list_elem_of_singleton _. vm_compute. congruence.
Defined.

(** ** What the loader does not check *)

(** Page 2 is free, page 3 is in use, and every byte of memory is 7. *)
Definition tight_demo : user_st pmm_state :=
  mk_user (elf_opened <| kmem := λ _, 7 |>) (mk_vmm (mk_pmm [11; 0; 0; 0] 32 118784 0 118784 0 0 cpu0) (λ _, 0) 4096 0 [] 4096 1).

Definition loaded_byte (ph : elf_phdr_t) (a : Z) : option Z :=
  match load_segment (H := file_code) (λ _ _, true) 0 0 4096 ph tight_demo with Ok (_, u) => Some (kmem (kern u) (GET_HIGHER_HALF a)) | Crash _ => None end.

(** A segment of a page that starts at 0x400F00: one page is allocated, and the page behind it, which is in use, is overwritten. *)
Lemma unaligned_segment_overruns : page_used (frames (vm tight_demo)) 3 = true ∧ kmem (kern tight_demo) (GET_HIGHER_HALF 12288) = 7 ∧
  loaded_byte (mk_phdr 1 7 184 4198144 0 4 4096 4096) 12288 = Some 0.
Proof. split_and!; vm_compute; reflexivity. Qed.

(** Only the bytes of the segment are cleared: the program sees the old contents of the rest of its last page. *)
Lemma last_page_not_cleared : loaded_byte (mk_phdr 1 7 184 4194304 0 4 100 4096) 8292 = Some 7.
Proof. vm_compute. reflexivity. Qed.

(** A file of class 1 (32 bits) is as good as any other. *)
Lemma class_not_checked : elf_ok (upd demo_img 4 1) ∧ phdrs_in (upd demo_img 4 1) = phdrs_in demo_img.
Proof.
  split; [|vm_compute; reflexivity].
  split; try (vm_compute; (reflexivity || congruence || (split; congruence))). apply (bool_decide_unpack _). vm_compute. exact I.
Qed.

(** When the interpreter cannot be loaded, the program starts at address 0. *)
Lemma missing_interpreter_ignored : outcome (λ v _, (loaded_dynamic_linker v, dynamic_linker_entry v))
  (load_interp (F := pmm_state) (H := file_code) (λ _ _, true) (λ _ _ _ _, mret None) 0 0 4096 (ehdr_in demo_img) (mk_phdr 3 0 184 0 0 4 4 0)
    (mk_load false 0 0 []) (mk_user elf_opened heap_demo)) = Some (true, 0).
Proof. vm_compute. reflexivity. Qed.
