(* ===== verification/Launch.v ===== *)
(** * Starting and ending programs (proc/scheduler.c, proc/urm.c, proc/exec_formats)

    What creates processes around the loader: [add_process] and its callers,
    [load_elf] and [launch_binary], the memory calls of the scheduler, and what
    a worker of the resource manager does for each kind of request.  The state
    is the kernel's and the memory manager's together.  [reschedule] interrupts
    another processor as in Proc.v, [delete_hashmap] is the operation of
    Hashmap.v on the map of a process, and [copy_of] gives the string at a
    pointer that [execve] collected (ProcCalls.v). *)

From S2P Require Import Prelude Locks CString Pmm Frames Vmm DList Blocks Bytes Vfs Kernel Stack Proc Sched SleepQueue Fd UserMemory ProcCalls Buffers Elf Urm VmmTree VmmSpec VmmMap VmmTheorems FdTheorems UserMemoryTheorems.

Definition TTY_PATH : list Z := chars "/dev/tty1".

Section launch.
Context {F : Type} `{!FrameAlloc F}.
Context (mapped : Z → Z → bool) `{Code} (junk : Z → list Z) (elf_magic default_sse_state : Z).
Context (reschedule : Z → kM unit) (delete_hashmap : Z → kM unit) (copy_of : Z → option (list Z)).
Abbreviation uM := (stM (user_st F)).

(** ** Processes and threads *)

Definition add_process (process : Z) : kM Z :=
  sched_acquire ;;
  pid ← add_new_pid 1;
  modify (λ s, s <| processes := upd (processes s) pid process |>) ;;
  upd_process process (λ p, p <| p_pid := pid |>) ;;
  sched_release ;;
  open_remote_fd junk TTY_PATH 0 pid ;;
  open_remote_fd junk TTY_PATH 0 pid ;;
  open_remote_fd junk TTY_PATH 0 pid ;;
  modify (λ s, s <| process_count := u64 (process_count s + 1) |>) ;;
  mret pid.

Definition new_process (name : list Z) (new_cr3 : Z) : kM Z :=
  process ← create_process name new_cr3; add_process process.

(** [virt_to_phys] in the page tables of the moment. *)
Definition v2p_in (s : vmm_state F) (virt p4 : Z) : Z :=
  match virt_to_phys virt p4 s with Ok (p, _) => p | Crash _ => NOT_MAPPED end.
Definition add_child_thread (thread pid : Z) : uM Z := s ← get; on_kern (add_new_child_thread (v2p_in (vm s)) thread pid).

Definition new_kernel_process (name : list Z) (main : Z) : uM unit :=
  s ← get;
  task_parent_pid ← on_kern (new_process name (Vmm.base_kernel_cr3 (vm s)));
  stack ← kcalloc_bytes TASK_STACK_SIZE;
  s ← get;
  on_kern (new_thread default_sse_state (v2p_in (vm s)) name main (stack + TASK_STACK_SIZE) task_parent_pid 0) ;;
  mret tt.

Definition add_basic_kernel_thread (name : list Z) (main init_state : Z) : uM Z :=
  s ← get;
  thread_parent_pid ← on_kern (new_process name (Vmm.base_kernel_cr3 (vm s)));
  stack ← kcalloc_bytes TASK_STACK_SIZE;
  added_thread ← on_kern (create_thread default_sse_state name main (stack + TASK_STACK_SIZE) 0);
  on_kern (upd_thread added_thread (λ t, t <| t_state := init_state |>)) ;;
  on_kern (add_new_child_thread_no_stack_init added_thread thread_parent_pid) ;;
  mret added_thread.

(** ** Memory of a process *)

(** A null process leaves the lock taken. *)
Definition on_process_pages (pid size : Z) (body : Z → Z → uM Z) : uM Z :=
  on_kern sched_acquire ;;
  let size := u64 (size + PAGE - 1) / PAGE in
  process ← on_kern (process_slot pid);
  if process =? 0 then mret (-1)
  else
    p ← on_kern (process_at process);
    ret ← body (p_cr3 p) size;
    on_kern sched_release ;;
    mret ret.

Definition map_user_memory (pid phys virt size perms : Z) : uM Z :=
  on_process_pages pid size (λ cr3 size, on_vm (vmm_map_pages phys virt cr3 size (Z.lor (Z.lor perms VMM_PRESENT) VMM_USER))).
Definition unmap_user_memory (pid virt size : Z) : uM Z :=
  on_process_pages pid size (λ cr3 size, on_vm (vmm_unmap_pages virt cr3 size)).

(** ** Starting a program *)

(** The string at an address of the kernel; those that were opened as a path are shorter than a page. *)
Fixpoint kstring_loop (n : nat) (a : Z) (k : kstate) : option (list Z) :=
  match n with
  | O => None
  | S n' => if kmem k a =? 0 then Some [] else l ← kstring_loop n' (u64 (a + 1)) k; Some (kmem k a :: l)
  end.
Definition kstring (a : Z) : kM (list Z) := k ← get; of_opt (kstring_loop 4096 a k).

(** [if (auxv_info.auxv) ...] *)
Definition give_auxv (thread : Z) (aux : list (Z * Z)) : kM unit :=
  if negb (bool_decide (aux = [])) then upd_thread thread (λ t, t <| vars := vars t <| auxc := zlen aux |> <| auxv := aux |> |>) else mret tt.

Definition load_elf (fuel : nat) (path : Z) : uM Z :=
  r ← load_elf_addrspace mapped junk elf_magic fuel path 0 0 true;
  match r with
  | None => mret (-1)
  | Some (address_space, entry_point, aux) =>
      name ← on_kern (kstring path);
      process ← on_kern (create_process name address_space);
      thread ← on_kern (create_thread default_sse_state name entry_point USER_STACK 3);
      pid ← on_kern (add_process process);
      on_kern (give_auxv thread aux) ;;
      on_kern (upd_thread thread (λ t, t <| vars := add_argv name (vars t) |>)) ;;
      add_child_thread thread pid ;;
      mret pid
  end.

Definition new_binary_process (process_name : list Z) (exec_ptr code program_size : Z) : uM unit :=
  rsp ← kcalloc_bytes USER_STACK_SIZE;
  let rsp_phys := GET_LOWER_HALF rsp in
  new_thread ← on_kern (create_thread default_sse_state process_name exec_ptr USER_STACK 3);
  cr3 ← on_vm (base ← vmm_get_base; vmm_fork_higher_half base);
  pid ← on_kern (new_process process_name cr3);
  let code_phys := GET_LOWER_HALF code in
  map_user_memory pid code_phys exec_ptr program_size VMM_WRITE ;;
  map_user_memory pid rsp_phys USER_STACK_START USER_STACK_SIZE VMM_WRITE ;;
  add_child_thread new_thread pid ;;
  mret tt.

Definition launch_binary (path : Z) : uM unit :=
  fd ← on_kern (open_path mapped junk path);
  if 0 <=? fd then
    data_buf ← kcalloc_bytes PAGE;
    read_bytes ← on_kern (fd_read mapped fd data_buf 0);
    on_kern (fd_close fd) ;;
    on_kern (print "Loading binary of size %d for execution") ;;
    name ← on_kern (kstring path);
    new_binary_process name 0 data_buf (u64 read_bytes)
  else on_kern (print "Got error loading binary: %d").

(** ** Ending: the request that is sent; the caller waits for it unless it ends itself *)

Definition kill_task (tid : Z) : kM request :=
  c ← get_cur_thread; t ← thread_at c;
  mret (mk_request URM_KILL_THREAD tid (negb (tid =? t_tid t))).
Definition kill_process (pid : Z) : kM request :=
  cur ← get_cur_pid; mret (mk_request URM_KILL_PROCESS pid (negb (pid =? cur))).

(** ** What a worker does *)

Definition urm_kill_thread (tid : Z) : kM Z := kill_thread reschedule tid ;; mret 0.

(** The threads of a copied list, one after the other. *)
Fixpoint kill_threads (tids : list Z) : kM unit :=
  match tids with
  | [] => mret tt
  | tid :: tids' => (if negb (tid =? -1) then kill_thread reschedule tid else mret tt) ;; kill_threads tids'
  end.

Definition urm_kill_process (pid : Z) : uM Z :=
  process ← on_kern (sched_acquire ;; process_slot pid);
  tids ← on_kern (p ← process_at process; mret (p_threads p));
  on_kern sched_release ;;
  on_kern (kill_threads tids) ;;
  p ← on_kern (process_at process);
  s ← get;
  (if negb (p_cr3 p =? Vmm.base_kernel_cr3 (vm s)) then on_vm (vmm_deconstruct_address_space (p_cr3 p)) else mret tt) ;;
  on_kern (clear_fds pid) ;;
  on_kern (delete_hashmap (ipc_handles p)) ;;
  on_kern (sched_acquire ;;
    a ← process_slot pid;
    process_at a ;;
    modify (λ k, k <| pheap := delete a (pheap k) |> <| processes := upd (processes k) pid 0 |>) ;;
    sched_release) ;;
  mret 0.

(** The loop of [urm_execve]: the entries [i] and on of the process's list. *)
Fixpoint drop_threads (n : nat) (i process : Z) : kM unit :=
  match n with
  | O => mret tt
  | S n' =>
      p ← process_at process;
      tid ← of_opt (idx (p_threads p) i);
      (if negb (tid =? -1) then
         (a ← thread_slot tid;
          if negb (a =? 0) then
            thread_at a ;;
            modify (λ k, k <| theap := delete a (theap k) |> <| threads := upd (threads k) tid 0 |>)
          else mret tt) ;;
         upd_process process (λ p, p <| p_threads := upd (p_threads p) i (-1) |> <| child_thread_count := u64 (child_thread_count p - 1) |>)
       else mret tt) ;;
      drop_threads n' (i + 1) process
  end.

Definition urm_execve (fuel : nat) (data : urm_execve_data) : uM Z :=
  r ← load_elf_addrspace mapped junk elf_magic fuel (x_executable_path data) 0 0 true;
  match r with
  | None => on_kern (print "bruh momento [execve]") ;; mret ENOENT
  | Some (address_space, entry_point, aux) =>
      on_kern sched_acquire ;;
      current_process ← on_kern (process_slot (x_pid data));
      p ← on_kern (process_at current_process);
      on_kern (drop_threads (length (p_threads p)) 0 current_process) ;;
      on_vm (vmm_deconstruct_address_space (p_cr3 p)) ;;
      on_kern (upd_process current_process (λ p, p <| current_brk := DEFAULT_BRK |> <| p_cr3 := address_space |>)) ;;
      name ← on_kern (kstring (x_executable_path data));
      thread ← on_kern (create_thread default_sse_state name entry_point USER_STACK 3);
      on_kern (give_auxv thread aux) ;;
      on_kern (upd_thread thread (λ t, t <| vars := add_argv name (vars t) |>)) ;;
      on_kern (upd_thread thread (λ t, t <| vars := vars t <| envc := x_envc data |> <| argc := x_argc data |>
        <| enviroment := map copy_of (x_envp data) |> <| argv := map copy_of (x_argv data) |> |>)) ;;
      on_kern sched_release ;;
      add_child_thread thread (x_pid data) ;;
      mret 0
  end.
End launch.

(** ** Correctness of starting and ending programs

    [drop_threads] is how [urm_execve] ends the threads of the old program. *)

(** ** The threads of a replaced program *)

Definition live (l : list Z) : list Z := filter (λ tid, tid ≠ -1) l.

(** The process when the entries after [pre] were ended. *)
Definition without_threads (pre s : list Z) (p : process_t) : process_t :=
  p <| p_threads := pre ++ replicate (length s) (-1) |> <| child_thread_count := u64 (child_thread_count p - zlen (live s)) |>.

(** The thread with the identifier [tid] is gone, and nothing else of the threads has changed. *)
Record ended (k k' : kstate) (s : list Z) : Prop := {
  en_size : zlen (threads k') = zlen (threads k);
  en_gone : ∀ tid, tid ∈ live s → idx (threads k') tid = Some 0;
  en_others : ∀ tid, tid ∉ live s → idx (threads k') tid = idx (threads k) tid;
  en_heap : ∀ a t, theap k' !! a = Some t → theap k !! a = Some t;
  en_tables : tables_ok k'
}.

Lemma idx_mid (pre s : list Z) (x : Z) : idx (pre ++ x :: s) (zlen pre) = Some x.
Proof. apply idx_app. Qed.

Lemma upd_mid (pre s : list Z) (x y : Z) : upd (pre ++ x :: s) (zlen pre) y = (pre ++ [y]) ++ s.
Proof.
  unfold upd, zlen. rewrite Nat2Z.id. rewrite insert_app_r_alt by lia. rewrite Nat.sub_diag. cbn. by rewrite <-app_assoc.
Qed.

(** One thread: its slot is cleared and its structure freed. *)
Lemma drop_one k tid : tables_ok k → 0 ≤ tid < zlen (threads k) →
  ∃ k', (a ← thread_slot tid;
         if negb (a =? 0) then
           thread_at a ;; modify (λ k, k <| theap := delete a (theap k) |> <| threads := upd (threads k) tid 0 |>)
         else mret tt) k = Ok (tt, k') ∧
    k' = k <| theap := theap k' |> <| threads := upd (threads k) tid 0 |> ∧
    (∀ a t, theap k' !! a = Some t → theap k !! a = Some t) ∧ tables_ok k'.
Proof.
  intros Hok Ht. destruct (idx_lt _ _ Ht) as [a Ha].
  assert (thread_slot tid k = Ok (a, k)) as E by (unfold thread_slot; mstep; by apply of_opt_ok). mrun E.
  destruct (a =? 0) eqn:E0; zbool; cbn [negb].
  - subst a. exists k. split; [done|]. split; [|done].
    assert (upd (threads k) tid 0 = threads k) as ->; [|by destruct k]. apply idx_ext; [by rewrite zlen_upd|].
    intros i Hi. destruct (decide (i = tid)) as [-> |Hne]; [by rewrite idx_upd_eq|by rewrite idx_upd_ne by lia].
  - destruct (Hok tid a Ha E0) as (t & Hta & Htid). mrun (thread_at_ok _ _ _ Hta). eexists. split; [reflexivity|]. split_and!; [done| |].
    + intros b t' Hb. cbn in Hb. by apply lookup_delete_Some in Hb as [_ Hb].
    + intros i b Hi Hb. cbn in Hi. destruct (decide (i = tid)) as [-> |Hne].
      { rewrite idx_upd_eq in Hi by done. congruence. }
      rewrite idx_upd_ne in Hi by lia. destruct (Hok i b Hi Hb) as (t' & Ht' & Hid). exists t'. cbn. rewrite lookup_delete_ne; [done|].
      intros ->. rewrite Hta in Ht'. congruence.
Qed.

Lemma u64_sub_l a b : u64 (u64 a - b) = u64 (a - b).
Proof. unfold u64. by rewrite Zminus_mod_idemp_l. Qed.

Lemma drop_threads_ok process s : ∀ k p pre, pheap k !! process = Some p → p_threads p = pre ++ s → is_u64 (child_thread_count p) →
  tables_ok k → Forall (λ tid, tid ≠ -1 → 0 ≤ tid < zlen (threads k)) s →
  ∃ k', drop_threads (length s) (zlen pre) process k = Ok (tt, k') ∧ ended k k' s ∧
    pheap k' = <[process := without_threads pre s p]> (pheap k) ∧ k' = k <| theap := theap k' |> <| threads := threads k' |> <| pheap := pheap k' |>.
Proof.
  induction s as [|tid s IH]; intros k p pre Hp El Hc Hok Hall.
  { exists k. split; [done|]. split_and!.
    - split; try done. by intros ? ?%not_elem_of_nil.
    - symmetry. apply insert_id. rewrite Hp. f_equal. unfold without_threads. cbn. rewrite app_nil_r, Z.sub_0_r, u64_small by done.
      rewrite app_nil_r in El. destruct p. cbn in *. by subst.
    - by destruct k. }
  apply Forall_cons in Hall as [Ht Hall]. cbn [length drop_threads]. mrun (process_at_ok _ _ _ Hp). rewrite El.
  erewrite bind_ok by (apply of_opt_ok, idx_mid). cbv beta. destruct (tid =? -1) eqn:Et; zbool; cbn [negb].
  - subst tid. mstep. destruct (IH k p (pre ++ [-1]) Hp) as (k' & E & [N1 N2 N3 N4 N5] & Ep & Ek); try done.
    { by rewrite <-app_assoc. }
    rewrite zlen_app in E. exists k'. split; [exact E|]. assert (live (-1 :: s) = live s) as Elv by (unfold live; by rewrite filter_cons_False by lia).
    split_and!; [split; rewrite ?Elv; done| |exact Ek]. rewrite Ep. f_equal. unfold without_threads. rewrite Elv. cbn. by rewrite <-app_assoc.
  - destruct (drop_one k tid Hok (Ht Et)) as (k1 & E1 & Ek1 & Hh1 & Hok1).
    assert (pheap k1 = pheap k ∧ threads k1 = upd (threads k) tid 0) as [Ep1 Et1].
    { split; [exact (f_equal pheap Ek1)|exact (f_equal threads Ek1)]. }
    set (p1 := p <| p_threads := upd (p_threads p) (zlen pre) (-1) |> <| child_thread_count := u64 (child_thread_count p - 1) |>).
    set (k2 := k1 <| pheap := <[process := p1]> (pheap k1) |>).
    erewrite bind_ok. 2: { mrun E1. apply upd_process_ok. by rewrite Ep1. } cbv beta. fold p1 k2.
    destruct (IH k2 p1 (pre ++ [-1])) as (k' & E & [N1 N2 N3 N4 N5] & Ep & Ek).
    { unfold k2. cbn. apply lookup_insert_eq. }
    { unfold p1. cbn. by rewrite El, upd_mid. }
    { unfold p1. cbn. unfold is_u64, u64. apply Z.mod_pos_bound. lia. }
    { intros i a. cbn. apply Hok1. }
    { cbn. rewrite Et1, zlen_upd. done. }
    rewrite zlen_app in E. assert (live (tid :: s) = tid :: live s) as Elv by (unfold live; by rewrite filter_cons_True).
    change (threads k2) with (threads k1) in *. change (theap k2) with (theap k1) in *. rewrite Et1 in *.
    exists k'. split; [exact E|]. split_and!.
    + split; rewrite ?Elv; [by rewrite N1, zlen_upd| | |by intros a t Ha; apply Hh1, N4|done].
      * intros i [-> |Hi]%elem_of_cons; [|by apply N2]. destruct (decide (tid ∈ live s)) as [Hi|Hi]; [by apply N2|].
        rewrite N3 by done. apply idx_upd_eq. by apply Ht.
      * intros i [Hi1 Hi2]%not_elem_of_cons. rewrite N3 by done. apply idx_upd_ne; [pose proof (Ht Et); lia|done].
    + rewrite Ep. unfold k2. cbn [pheap]. change (pheap (k1 <| pheap := ?x |>)) with x. rewrite insert_insert_eq, Ep1. f_equal.
      unfold without_threads, p1. rewrite Elv. cbn. rewrite u64_sub_l, <-app_assoc.
      by replace (child_thread_count p - 1 - zlen (live s)) with (child_thread_count p - zlen (tid :: live s)) by (rewrite zlen_cons; lia).
    + rewrite Ek. unfold k2. rewrite Ek1. by destruct k.
Qed.

(** The old threads of a program that is replaced.  When every slot of the thread table names a thread that knows its slot, the loop
    of [urm_execve] empties the process's list and clears the slot of every thread on it, frees their
    structures and no other, leaves every other slot as it was and the table in order, and counts the threads down. *)
Theorem drop_threads_correct k process p : pheap k !! process = Some p → is_u64 (child_thread_count p) → tables_ok k →
  Forall (λ tid, tid ≠ -1 → 0 ≤ tid < zlen (threads k)) (p_threads p) →
  ∃ k', drop_threads (length (p_threads p)) 0 process k = Ok (tt, k') ∧ ended k k' (p_threads p) ∧
    pheap k' = <[process := p <| p_threads := replicate (length (p_threads p)) (-1) |>
                              <| child_thread_count := u64 (child_thread_count p - zlen (live (p_threads p))) |>]> (pheap k) ∧
    k' = k <| theap := theap k' |> <| threads := threads k' |> <| pheap := pheap k' |>.
Proof. intros Hp Hc Hok Hall. by apply (drop_threads_ok process (p_threads p) k p []). Qed.

Lemma drop_threads_correct_witness : ∃ k', drop_threads 2 0 500 demo_kernel = Ok (tt, k') ∧ idx (threads k') 0 = Some 0 ∧ idx (threads k') 2 = Some 3000.
Proof.
  destruct (drop_threads_correct demo_kernel 500 demo_process) as (k' & E & [_ Hg Ho _ _] & _); [reflexivity|by vm_compute|apply demo_tables| |].
  { constructor; [intros _; vm_compute; split; congruence|]. constructor; [done|constructor]. }
  exists k'. split; [exact E|]. split.
  - apply Hg. apply (bool_decide_unpack _). vm_compute. exact I.
  - rewrite Ho; [reflexivity|]. apply (bool_decide_unpack _). vm_compute. exact I.
Defined.

(** ** Findings *)

(** A process that is gone leaves the scheduler's lock taken: the next call that takes it waits for ever. *)
Lemma map_user_memory_keeps_lock : outcome (λ r u, (r, match sched_acquire (kern u) with Crash c => Some c | Ok _ => None end))
  (map_user_memory 1 8192 4194304 4096 VMM_WRITE um_demo) = Some (-1, Some Deadlock).
Proof. vm_compute. reflexivity. Qed.
