(* ===== verification/Debug.v ===== *)
(** * Watchpoints and stack traces (klibc/debug.c)

    A watchpoint is an address register and bits of the control register of
    the processor's debug registers.  The values for all processors are globals
    ([debug] of the kernel state); [set_debug_state] of Sched.v writes them to
    the registers of this processor, and an interrupt 250 makes the others do
    the same.  [acks] is how many of them have answered when the caller waits. *)

From S2P Require Import Prelude Locks Pmm Frames Blocks Vfs Vmm DList Kernel Stack Proc Sched SleepQueue Ps2 Interrupts VmmTree VmmTheorems.

(** ** Watchpoints *)

Definition upd_debug (f : debug_t → debug_t) : kM unit := modify (λ s, s <| debug := f (debug s) |>).

Definition init_debugger : kM unit := s ← get; upd_debug (λ d, d <| g_dr7 := dr7 (hw s) |>).

(** [(0b1101) << (16 + (watchpoint_index * 4))] and [2 << (watchpoint_index * 2)], which are of type [int];
    the shifts are defined for four watchpoints. *)
Definition kind_bits (watchpoint_index : Z) : Z := s32 (Z.shiftl 13 (16 + watchpoint_index * 4)).
Definition enable_bit (watchpoint_index : Z) : Z := s32 (Z.shiftl 2 (watchpoint_index * 2)).

(** [lock(watchpoint_lock)] and its unlock. *)
Definition watch_acquire : kM unit :=
  s ← get;
  match spinlock_lock (watchpoint_lock (debug s)) with
  | Ok l => upd_debug (λ d, d <| watchpoint_lock := l |>)
  | Crash c => crashM c
  end.
Definition watch_release : kM unit := upd_debug (λ d, d <| watchpoint_lock := spinlock_unlock (watchpoint_lock d) |>).

(** Interrupt 250 to the processors that are awake, except this one. *)
Definition send_debug_ipis (lapic_id : Z) : iM unit :=
  s ← get; send_to_others (cpu_vector s) lapic_id (Z.lor (Z.shiftl 1 14) 250).

Section watch.
Context (lapic_id cores_booted acks : Z).

Definition set_watchpoint (address watchpoint_index : Z) : iM unit :=
  if (watchpoint_index =? 0) || (watchpoint_index =? 1) then
    on_kernel (upd_debug (λ d, if watchpoint_index =? 0 then d <| g_dr0 := address |> else d <| g_dr1 := address |>)) ;;
    on_kernel (upd_debug (λ d, d <| g_dr7 := Z.lor (g_dr7 d) (u64 (kind_bits watchpoint_index)) |>)) ;;
    on_kernel (upd_debug (λ d, d <| g_dr7 := Z.lor (g_dr7 d) (u64 (enable_bit watchpoint_index)) |>)) ;;
    on_kernel watch_acquire ;;
    on_kernel (upd_debug (λ d, d <| watchpoint_cpu_count := 0 |>)) ;;
    send_debug_ipis lapic_id ;;
    on_kernel watch_release ;;
    on_kernel set_debug_state ;;
    on_kernel (upd_debug (λ d, d <| watchpoint_cpu_count := u8 (watchpoint_cpu_count d + acks) |>)) ;;
    s ← get;
    if watchpoint_cpu_count (debug (ik s)) <? cores_booted then crashM Hang else mret tt
  else mret tt.

(** [safe_set_debug_state] saves and restores the interrupt flag around [set_debug_state]. *)
Definition send_reload_debug : iM unit := send_debug_ipis lapic_id ;; on_kernel set_debug_state.

Definition clear_global_watchpoint (watchpoint_index : Z) : iM unit :=
  if 3 <? watchpoint_index then crashM Fault
  else
    on_kernel (upd_debug (λ d, d <| g_dr7 := Z.land (g_dr7 d) (u64 (Z.lnot (kind_bits watchpoint_index))) |>)) ;;
    on_kernel (upd_debug (λ d, d <| g_dr7 := Z.land (g_dr7 d) (u64 (Z.lnot (enable_bit watchpoint_index))) |>)) ;;
    send_reload_debug.

Definition set_local_watchpoint (address watchpoint_index : Z) : kM unit :=
  (if watchpoint_index =? 0 then
     process ← get_cur_process;
     upd_process process (λ p, p <| local_watchpoint1 := address |> <| local_watchpoint1_active := 1 |>)
   else if watchpoint_index =? 1 then
     process ← get_cur_process;
     upd_process process (λ p, p <| local_watchpoint2 := address |> <| local_watchpoint2_active := 1 |>)
   else mret tt) ;;
  set_debug_state.
End watch.

(** ** Stack traces *)

Section trace.
Context {F : Type} `{!FrameAlloc F}.
Abbreviation vM := (stM (vmm_state F)).

(** A word of the direct map; the null pointer is not mapped. *)
Definition stack_word (a : Z) : vM Z :=
  if a =? 0 then crashM Fault else gets (λ s, mem s (GET_LOWER_HALF a)).

(** The frames that are printed, as return address and frame pointer. *)
Fixpoint trace_loop (n : nat) (rbp frames_parsed max_frames : Z) : vM (list (Z * Z)) :=
  match n with
  | O => crashM Hang
  | S n' =>
      old ← stack_word rbp;
      if old =? 0 then mret []
      else
        next ← kernel_address old;
        rip ← stack_word (u64 (rbp + 8));
        if next =? 0 then mret [(rip, old)]
        else
          let frames_parsed := u64 (frames_parsed + 1) in
          if frames_parsed =? max_frames then mret [(rip, old)]
          else l ← trace_loop n' next frames_parsed max_frames; mret ((rip, old) :: l)
  end.

Definition stack_trace (n : nat) (r_rbp max_frames : Z) : vM (list (Z * Z)) :=
  rbp ← kernel_address r_rbp; trace_loop n rbp 0 max_frames.
End trace.

(** ** Watchpoints and stack traces: what they guarantee *)

(** ** Stack traces end *)

Section trace.
Context {F : Type} `{!FrameAlloc F} `{!FrameAllocLaws F}.
Implicit Types s : vmm_state F.

(** An operation that always returns, and changes nothing. *)
Definition looks {A} (m : stM (vmm_state F) A) : Prop := ∀ s, ∃ a, m s = Ok (a, s).

Lemma looks_bind {A B} (m : stM (vmm_state F) A) (k : A → stM (vmm_state F) B) : looks m → (∀ a, looks (k a)) → looks (m ≫= k).
Proof. intros Hm Hk s. destruct (Hm s) as [a E]. mrun E. apply Hk. Qed.
Lemma looks_ret {A} (a : A) : looks (mret a).
Proof. intros s. by eexists. Qed.
Lemma looks_gets {A} (f : vmm_state F → A) : looks (gets f).
Proof. intros s. by eexists. Qed.

Lemma looks_kernel_address v : looks (kernel_address v).
Proof.
  unfold kernel_address, vmm_get_base, virt_to_phys, traverse_page_table, get_entry. cbv zeta.
  repeat first [apply looks_ret | apply looks_gets | apply looks_bind; [|intros ?] | case_match].
Qed.

Lemma stack_word_cases a s : stack_word a s = Crash Fault ∨ ∃ w, stack_word a s = Ok (w, s).
Proof. unfold stack_word. destruct (a =? 0); [by left|right; by eexists]. Qed.

Lemma trace_loop_ok max s n : ∀ rbp parsed, 0 ≤ parsed → parsed + Z.of_nat n = max → (0 < n)%nat → max < U64_MOD →
  (∃ l, trace_loop n rbp parsed max s = Ok (l, s) ∧ zlen l ≤ Z.of_nat n) ∨ trace_loop n rbp parsed max s = Crash Fault.
Proof.
  induction n as [|n IH]; intros rbp parsed Hp Hmax Hn Hm; [lia|]. cbn [trace_loop].
  destruct (stack_word_cases rbp s) as [E|[old E]]; [right; by apply bind_crash|]. mrun E.
  destruct (old =? 0); [left; exists []; split; [done|unfold zlen; cbn; lia]|].
  destruct (looks_kernel_address old s) as [next E2]. mrun E2.
  destruct (stack_word_cases (u64 (rbp + 8)) s) as [E3|[rip E3]]; [right; by apply bind_crash|]. mrun E3.
  destruct (next =? 0); [left; eexists; split; [done|unfold zlen; cbn; lia]|]. cbv zeta. rewrite (u64_small (parsed + 1)) by (unfold is_u64; lia).
  destruct (parsed + 1 =? max) eqn:E4; zbool; [left; eexists; split; [done|unfold zlen; cbn; lia]|].
  destruct (IH next (parsed + 1)) as [(l & El & Hl)|El]; try lia.
  - left. mrun El. eexists. split; [done|]. unfold zlen in *. cbn. lia.
  - right. by apply bind_crash.
Qed.

(** Whatever the stack holds, also when its frames form a cycle, a trace with a positive limit ends after at most as
    many frames, or stops at a null pointer; it changes nothing. *)
Theorem stack_trace_terminates r_rbp max_frames s : 0 < max_frames < U64_MOD →
  (∃ l, stack_trace (Z.to_nat max_frames) r_rbp max_frames s = Ok (l, s) ∧ zlen l ≤ max_frames) ∨
  stack_trace (Z.to_nat max_frames) r_rbp max_frames s = Crash Fault.
Proof.
  intros Hm. unfold stack_trace. destruct (looks_kernel_address r_rbp s) as [rbp E]. mrun E.
  destruct (trace_loop_ok max_frames s (Z.to_nat max_frames) rbp 0) as [(l & El & Hl)|El]; try lia; [left; exists l; split; [done|lia]|by right].
Qed.
End trace.

(** ** Watchpoints *)

(** Clearing a watchpoint undoes setting it, and the bits of the others are not touched. *)
Lemma watchpoint_bits d i k : 0 ≤ i ≤ 1 → is_u64 d → 0 ≤ k →
  let on := Z.lor (Z.lor d (u64 (kind_bits i))) (u64 (enable_bit i)) in
  let off := Z.land (Z.land on (u64 (Z.lnot (kind_bits i)))) (u64 (Z.lnot (enable_bit i))) in
  let mine := Z.testbit (kind_bits i) k || Z.testbit (enable_bit i) k in
  Z.testbit on k = (Z.testbit d k || mine) ∧ Z.testbit off k = (Z.testbit d k && negb mine).
Proof.
  intros Hi Hd Hk on off mine.
  assert (0 ≤ kind_bits i < U64_MOD ∧ 0 ≤ enable_bit i < U64_MOD) as [H1 H2] by (assert (i = 0 ∨ i = 1) as [-> | ->] by lia; vm_compute; repeat split; congruence).
  unfold off, on, mine. rewrite !(u64_small (kind_bits i)), !(u64_small (enable_bit i)) by done. unfold u64. change U64_MOD with (2 ^ 64).
  rewrite !Z.land_spec, !Z.lor_spec. split; [by rewrite orb_assoc|]. destruct (decide (k < 64)) as [Hk64|Hk64].
  - rewrite !Z.mod_pow2_bits_low, !Z.lnot_spec by lia. by destruct (Z.testbit d k), (Z.testbit (kind_bits i) k), (Z.testbit (enable_bit i) k).
  - rewrite !Z.mod_pow2_bits_high by lia. assert (Z.testbit d k = false) as ->; [|by rewrite !andb_false_r].
    rewrite <-(Z.mod_small d (2 ^ 64)) by exact Hd. apply Z.mod_pow2_bits_high. lia.
Qed.

Lemma stack_trace_terminates_witness :
  ((∃ l, stack_trace (Z.to_nat 10) 0 10 vm_demo = Ok (l, vm_demo) ∧ zlen l ≤ 10) ∨ stack_trace (Z.to_nat 10) 0 10 vm_demo = Crash Fault) ∧ 0 < 10.
Proof. split; [apply (stack_trace_terminates 0 10 vm_demo); lia|lia]. Defined.

(** The first frame pointer is not checked: one that is not mapped is a null pointer by the time it is read. *)
Lemma unmapped_frame_faults : stack_trace 10 4194304 10 vm_demo = Crash Fault.
Proof. vm_compute. reflexivity. Qed.
