(* ===== verification/Random.v ===== *)
(** * Numbers (klibc/math.c, klibc/math.h)

    [abs] is in CString.v, next to its caller.  The generator hashes 400 bytes of
    the kernel's image, [image], with the last
    result as the seed. *)

From S2P Require Import Prelude Bytes.

Definition MIX : Z := 1540483477. (* 0x5bd1e995 *)

(** The loop over words of 8 bytes: the hash, and the bytes that are left. *)
Fixpoint mix_words (n : nat) (data : list Z) (h : Z) : Z * list Z :=
  match n with
  | O => (h, data)
  | S n' =>
      let k := fld 0 8 data in
      let k := u64 (k * MIX) in
      let k := Z.lxor k (Z.shiftr k 24) in
      let k := u64 (k * MIX) in
      let h := u64 (h * MIX) in
      let h := Z.lxor h k in
      mix_words n' (drop 8 data) h
  end.

(** The [switch] on the number of bytes that are left: only the last of them counts. *)
Definition mix_rest (len : Z) (data : list Z) (h : Z) : Z :=
  if (1 <=? len) && (len <=? 7) then Z.lxor h (Z.shiftl (fld (len - 1) 1 data) (8 * (len - 1))) else u64 (h * MIX).

Definition psuedo_random (key : list Z) (len seed : Z) : Z :=
  let h := Z.lxor seed len in
  let '(h, data) := mix_words (Z.to_nat (len / 8)) key h in
  let h := mix_rest (len mod 8) data h in
  let h := Z.lxor h (Z.shiftr h 13) in
  let h := u64 (h * MIX) in
  Z.lxor h (Z.shiftr h 15).

Definition current_seed : Z := 5066468207186727599. (* 0x464ef75ff3e552af *)

(** The state is the seed. *)
Definition random (image : list Z) (max : Z) : stM Z Z :=
  modify (psuedo_random image 400) ;;
  seed ← get;
  if u64 (max + 1) =? 0 then crashM Fault else mret (seed mod u64 (max + 1)).

(** ** Correctness *)

Lemma u64_bits a : 0 ≤ a → is_u64 a ↔ ∀ k, 64 ≤ k → Z.testbit a k = false.
Proof.
  intros Ha. split.
  - intros H k Hk. rewrite <-(Z.mod_small a (2 ^ 64)) by exact H. apply Z.mod_pow2_bits_high. lia.
  - intros H. split; [done|]. change U64_MOD with (2 ^ 64). destruct (decide (a = 0)) as [-> |Ha0]; [lia|]. apply Z.log2_lt_pow2; [lia|].
    destruct (decide (Z.log2 a < 64)) as [|Hl]; [done|]. exfalso.
    assert (Z.testbit a (Z.log2 a) = true) as Ht by (apply Z.bit_log2; lia). rewrite H in Ht by lia. done.
Qed.

Lemma lxor_u64 a b : is_u64 a → is_u64 b → is_u64 (Z.lxor a b).
Proof.
  intros Ha Hb. assert (0 ≤ Z.lxor a b) by (apply Z.lxor_nonneg; unfold is_u64 in *; lia). apply u64_bits; [done|]. intros k Hk.
  rewrite Z.lxor_spec. apply u64_bits with (k := k) in Ha, Hb; [|unfold is_u64 in *; lia..]. by rewrite Ha, Hb.
Qed.

Lemma shiftr_u64 a k : is_u64 a → 0 ≤ k → is_u64 (Z.shiftr a k).
Proof.
  intros [H1 H2] Hk. rewrite Z.shiftr_div_pow2 by done. assert (0 < 2 ^ k) by (apply Z.pow_pos_nonneg; lia).
  split; [apply Z.div_pos; lia|]. apply Z.le_lt_trans with a; [|done]. apply Z.div_le_upper_bound; nia.
Qed.

(** The hash is a 64-bit number whatever the bytes are. *)
Lemma psuedo_random_u64 key len seed : is_u64 (psuedo_random key len seed).
Proof.
  unfold psuedo_random. destruct (mix_words _ _ _) as [h data]. cbv zeta. apply lxor_u64; [apply u64_range|].
  apply shiftr_u64; [apply u64_range|lia].
Qed.

(** Every limit but the largest 64-bit number gives a number from 0 to the limit, and a 64-bit seed for the next
    call; the largest one is a division by zero. *)
Theorem random_in_range image max seed : is_u64 max →
  let s' := psuedo_random image 400 seed in is_u64 s' ∧
  random image max seed = (if max =? U64_MOD - 1 then Crash Fault else Ok (s' mod (max + 1), s')) ∧
  0 ≤ s' mod (max + 1) ≤ max.
Proof.
  intros Hm s'. split; [apply psuedo_random_u64|]. unfold is_u64 in Hm. split.
  - unfold random. mstep. mstep. destruct (max =? U64_MOD - 1) eqn:E; zbool.
    + subst max. reflexivity.
    + rewrite u64_small by (unfold is_u64; lia). rewrite (proj2 (Z.eqb_neq _ _)) by lia. done.
  - pose proof (Z.mod_pos_bound s' (max + 1)). lia.
Qed.

Lemma random_in_range_witness : 0 ≤ psuedo_random (replicate 400 7) 400 current_seed mod 7 ≤ 6.
Proof. destruct (random_in_range (replicate 400 7) 6 current_seed) as (_ & _ & Hr); [unfold is_u64; lia|exact Hr]. Defined.

(** All but the last of the bytes behind the last word are ignored. *)
Lemma rest_bytes_ignored a b : mix_rest 2 [a; b] 0 = mix_rest 2 [0; b] 0.
Proof. reflexivity. Qed.
