(* ===== verification/Tss.v ===== *)
(** * The task state segment (sys/tss.c, sys/tss.h, sys/cpu_index.c)

    Each processor has a segment with its stack pointers in its [cpu_locals_t];
    the descriptor in the global table leads to it.  The bit fields of the
    descriptor are the fields of a record. *)

From S2P Require Import Prelude.

Definition TSS_GDT_OFFSET : Z := 48.

Record tss_64_t : Type := mk_tss {
  rsp0 : Z;
  rsp1 : Z;
  rsp2 : Z;
  ist_stack1 : Z;
  ist_stack2 : Z;
  ist_stack3 : Z;
  ist_stack4 : Z;
  ist_stack5 : Z;
  ist_stack6 : Z;
  ist_stack7 : Z;
  io_bitmap_offset : Z
}.
#[export] Instance eta_tss_64_t : Eta tss_64_t :=
  λ r, mk_tss (rsp0 r) (rsp1 r) (rsp2 r) (ist_stack1 r) (ist_stack2 r) (ist_stack3 r) (ist_stack4 r) (ist_stack5 r)
    (ist_stack6 r) (ist_stack7 r) (io_bitmap_offset r).

Record tss_64_descriptor_t : Type := mk_tss_desc {
  segment_limit_low : Z;
  segment_base_low : Z;
  segment_base_mid : Z;
  segment_type : Z;
  segment_dpl : Z;
  segment_present : Z;
  segment_limit_high : Z;
  segment_avail : Z;
  segment_gran : Z;
  segment_base_mid2 : Z;
  segment_base_high : Z
}.
#[export] Instance eta_tss_64_descriptor_t : Eta tss_64_descriptor_t :=
  λ r, mk_tss_desc (segment_limit_low r) (segment_base_low r) (segment_base_mid r) (segment_type r) (segment_dpl r) (segment_present r)
    (segment_limit_high r) (segment_avail r) (segment_gran r) (segment_base_mid2 r) (segment_base_high r).

(** The address of this processor's segment, the segment, the descriptor, and the task register. *)
Record tss_st : Type := mk_tss_st {
  tss_pointer : Z;
  tss : tss_64_t;
  gdt_tss : tss_64_descriptor_t;
  task_register : Z
}.
#[export] Instance eta_tss_st : Eta tss_st := λ r, mk_tss_st (tss_pointer r) (tss r) (gdt_tss r) (task_register r).

Definition load_tss : stM tss_st unit :=
  s ← get;
  let p := tss_pointer s in
  modify (λ s, s <| gdt_tss := gdt_tss s
    <| segment_base_low := Z.land (Z.shiftr p 0) 65535 |>
    <| segment_base_mid := Z.land (Z.shiftr p 16) 255 |>
    <| segment_base_mid2 := Z.land (Z.shiftr p 24) 255 |>
    <| segment_base_high := Z.land (Z.shiftr p 32) 4294967295 |>
    <| segment_limit_low := 103 |>
    <| segment_present := 1 |>
    <| segment_type := 9 |> |>) ;;
  modify (λ s, s <| task_register := TSS_GDT_OFFSET |>).

Definition set_kernel_stack (new_stack_addr : Z) : stM tss_st unit :=
  modify (λ s, s <| tss := tss s <| ist_stack1 := new_stack_addr |> |>) ;;
  modify (λ s, s <| tss := tss s <| rsp0 := new_stack_addr |> |>).

Definition set_panic_stack (panic_stack_addr : Z) : stM tss_st unit :=
  modify (λ s, s <| tss := tss s <| ist_stack2 := panic_stack_addr |> |>).

(** ** Correctness *)

(** The address the processor finds in a descriptor. *)
Definition tss_base (d : tss_64_descriptor_t) : Z :=
  segment_base_low d + 65536 * segment_base_mid d + 16777216 * segment_base_mid2 d + 4294967296 * segment_base_high d.

(** What [load_tss] writes leads the processor back to the segment: the base it finds is the address, the segment is
    present, of the type of an available task state, and ends with the structure when the table holds no other limit. *)
Theorem load_tss_correct s : is_u64 (tss_pointer s) →
  ∃ s', load_tss s = Ok (tt, s') ∧ tss_base (gdt_tss s') = tss_pointer s ∧ tss s' = tss s ∧ task_register s' = TSS_GDT_OFFSET ∧
    segment_present (gdt_tss s') = 1 ∧ segment_type (gdt_tss s') = 9 ∧
    segment_limit_low (gdt_tss s') + 65536 * segment_limit_high (gdt_tss s') = 103 + 65536 * segment_limit_high (gdt_tss s).
Proof.
  intros Hp. unfold load_tss. mstep. mstep. eexists. split; [reflexivity|]. cbn. split_and!; try done.
  unfold tss_base. cbn. change 65535 with (Z.ones 16). change 255 with (Z.ones 8). change 4294967295 with (Z.ones 32).
  rewrite !Z.land_ones, !Z.shiftr_div_pow2 by lia. change (2 ^ 0) with 1. change (2 ^ 8) with 256. change (2 ^ 16) with 65536.
  change (2 ^ 24) with 16777216. change (2 ^ 32) with 4294967296. unfold is_u64 in Hp. rewrite Z.div_1_r. dlia.
Qed.

Lemma load_tss_correct_witness : ∃ s', load_tss (mk_tss_st 18446603336221200384 (mk_tss 0 0 0 0 0 0 0 0 0 0 0) (mk_tss_desc 0 0 0 0 0 0 0 0 0 0 0) 0) = Ok (tt, s') ∧
  tss_base (gdt_tss s') = 18446603336221200384.
Proof.
  destruct (load_tss_correct (mk_tss_st 18446603336221200384 (mk_tss 0 0 0 0 0 0 0 0 0 0 0) (mk_tss_desc 0 0 0 0 0 0 0 0 0 0 0) 0)) as (s' & E & Hb & _); [by vm_compute|].
  exists s'. split; [exact E|exact Hb].
Defined.
