(* ===== verification/Mbr.v ===== *)
(** * The partition table (fs/partitions/mbr.c, fs/partitions/mbr.h)

    [read_mbr] reads the first sector of a drive through a descriptor and prints
    its four entries; the model returns what it prints.  A partition is meant to
    be a device of its own, whose reads and writes go to the drive at an offset;
    what such a device keeps ([mbr_part_offset_t]) is found by [part_data], the
    lookup in the device file system. *)

From S2P Require Import Prelude Locks Pmm Frames Vmm VmmTree VmmSpec Kmalloc Bytes Blocks Vfs DList Kernel Stack Fd FdTheorems UserMemory UserMemoryTheorems Spaces Buffers Elf ElfHeaders ElfTheorems SchedTheorems.

Record mbr_partition_entry_t : Type := mk_part {
  attr : Z;
  chs_start_part : list Z;
  part_type : Z;
  chs_last_part : list Z;
  lba_part_start : Z;
  lba_sector_cnt : Z
}.
Definition SIZEOF_PART : Z := 16.
Definition part_of (b : list Z) : mbr_partition_entry_t :=
  mk_part (fld 0 1 b) (slice b 1 3) (fld 4 1 b) (slice b 5 3) (fld 8 4 b) (fld 12 4 b).

(** [mbr_bootsect_t]: the boot loader, the entries, and two bytes. *)
Definition PARTS_OFFSET : Z := 446.
Definition SIZEOF_BOOTSECT : Z := 512.
Definition partition (sect : list Z) (i : Z) : mbr_partition_entry_t := part_of (slice sect (PARTS_OFFSET + i * SIZEOF_PART) SIZEOF_PART).

Record mbr_part_offset_t : Type := mk_part_offset {
  mo_offset : Z;
  mo_size : Z;
  mo_sector_size : Z;
  mo_drive : Z
}.

Definition mbr_open (name mode : Z) : Z := 0.
Definition mbr_close (fd_no : Z) : Z := 0.
Definition mbr_seek (fd_no offset whence : Z) : Z := 0.

Section mbr.
Context (mapped : Z → Z → bool) `{Code} (junk : Z → list Z) (part_data : Z → kM mbr_part_offset_t).

(** The drive's descriptor, at the position in the partition. *)
Definition open_part (fd_no : Z) : kM Z :=
  fd_dat ← fd_lookup fd_no;
  e ← fd_at fd_dat;
  data ← part_data (fd_node e);
  fd ← open_path mapped junk (mo_drive data);
  e ← fd_at fd_dat;
  fd_seek fd (u64 (fd_seek_pos e + mo_offset data)) SEEK_SET ;;
  mret fd.

Definition mbr_read (fd_no buf count : Z) : kM Z :=
  fd ← open_part fd_no;
  ret ← fd_read mapped fd buf count;
  fd_close fd ;;
  mret ret.

Definition mbr_write (fd_no buf count : Z) : kM Z :=
  fd ← open_part fd_no;
  ret ← fd_write mapped fd buf count;
  fd_close fd ;;
  mret ret.

(** A line of output for an entry: whether it is called active, its first sector and the one after its last, and [attr]. *)
Definition part_line (p : mbr_partition_entry_t) : bool * Z * Z * Z :=
  (negb (attr p =? 0), lba_part_start p, u32 (lba_part_start p + lba_sector_cnt p), attr p).

Definition read_mbr {F} `{!FrameAlloc F} (drive_name : Z) : stM (user_st F) (list (bool * Z * Z * Z)) :=
  fd ← on_kern (open_path mapped junk drive_name);
  data ← kcalloc_bytes SIZEOF_BOOTSECT;
  on_kern (read_at mapped fd 0 data SIZEOF_BOOTSECT) ;;
  sect ← on_kern (bytes_at data SIZEOF_BOOTSECT);
  on_vm (kfree data) ;;
  on_kern (fd_close fd) ;;
  mret (map (λ i, part_line (partition sect i)) (seqZ 0 4)).

(** ** Correctness *)

(** A drive that opens and has a first sector: the lines are those of the drive's own entries. *)
Theorem read_mbr_correct {F} `{!FrameAlloc F} `{!FrameAllocLaws F} T (u : user_st F) drive_name fd img at_ k1 : serves mapped fd img at_ →
  open_path mapped junk drive_name (kern u) = Ok (fd, k1) →
  at_ k1 0 → Forall is_u8 img → SIZEOF_BOOTSECT ≤ zlen img < U64_MOD →
  heap_ok T (vm u) → has_room (frames (vm u)) 27 → (∃ q, free_run (frames (vm u)) q 3) →
  ∃ u', read_mbr drive_name u = Ok (map (λ i, part_line (partition img i)) (seqZ 0 4), u').
Proof.
  intros Hs Ho Hat Hb Hsz Hh Hroom Hq. unfold read_mbr, SIZEOF_BOOTSECT in *.
  erewrite bind_ok by (apply on_kern_ok; exact Ho). cbv beta.
  set (u1 := u <| kern := k1 |>). change (vm u) with (vm u1) in *.
  destruct (kcalloc_bytes_ok T u1 512 Hh) as (p & T' & v' & Ec & G & Bf & K & O); [lia|lia|eapply has_room_le; [|exact Hroom]; vm_compute; lia|exact Hq|].
  mrun Ec.
  destruct (buffer_range 512 p _ _ ltac:(lia) Bf) as [R1 R2]. unfold PHYS_PAGES, NORMAL_VMA_OFFSET in R1, R2.
  match goal with |- context [mk_user ?k v'] => set (k3 := k) end.
  destruct (read_at_ok mapped fd img at_ Hs (proj2 Hsz) k3 0 0 (kpage (p + 1)) 512) as (k4 & E4 & Hk4 & M4); try lia.
  { by apply (at_mem mapped fd img at_ Hs). }
  erewrite bind_ok by (apply on_kern_ok; exact E4). cbv beta.
  erewrite bind_ok by (apply on_kern_ok, bytes_at_ok). cbv beta. match goal with |- context [kmem (kern ?y)] => change (kern y) with k4 end.
  destruct (kfree_ok 512 p v' T' (hg_heap _ _ _ _ G) O) as (Tf & vf & Ef & _); [lia|by apply (tk_room _ _ _ K)|].
  erewrite bind_ok by (apply on_vm_ok; exact Ef). cbv beta.
  destruct (sv_close _ _ _ _ Hs _ _ Hk4) as (r & k5 & E5 & _). erewrite bind_ok by (apply on_kern_ok; exact E5). eexists.
  unfold mret, stM_ret. f_equal. f_equal.
  rewrite M4, (load_stored0 img Hb) by lia.
  assert (∀ i, 0 ≤ i < 4 → partition (slice img 0 512) i = partition img i) as Hp'.
  { intros i Hi. unfold partition, PARTS_OFFSET, SIZEOF_PART. by rewrite slice_slice by lia. }
  apply map_ext_in. intros i Hi. rewrite Hp'; [done|]. apply list_elem_of_In in Hi. apply elem_of_seqZ in Hi. lia.
Qed.
End mbr.
