(* ===== verification/AhciPorts.v ===== *)
(** * Bringing up the disk controller (drivers/pci_drivers/ahci.c)

    From the PCI device to registered disks: ownership, the ports that have a
    device, memory for their command lists, the identify command of Ahci.v, the
    node in the device file system of DevFs.v and the partition table of Mbr.v.
    The controller is the class [Controller]: its own registers, for every port
    the registers Ahci.v uses ([port_hba]) and those that are set up here.  The command list of a port is at the physical
    address in the port's registers: [d_lists] holds, by address, the headers that the driver reads and writes there, which for a
    new list are those in the memory that was cleared.  The delays of the code do not show.  [ops] is the operations with the driver's
    functions. *)

From S2P Require Import Prelude Locks Pmm Frames Bytes CString Vmm DList Blocks Vfs Kernel Stack Fd Pci Arrays KeyMap DevFs UserMemory Kmalloc Spaces Buffers Mbr Ahci VmmTree VmmTheorems Proc UserMemoryTheorems.

Definition SATA_SIG_ATA : Z := 257.
Definition SATA_SIG_ATAPI : Z := 3943956737.
Definition SATA_SIG_SEMB : Z := 3275489537.
Definition SATA_SIG_PM : Z := 2523463937.

(** The fields of [abar_data_t], and of [ahci_port_t], that are used here. *)
Inductive abar_reg : Type := REG_CAP | REG_GHC | REG_PI | REG_VS | REG_CAP2 | REG_BOHC.
Inductive port_reg : Type := REG_CLB | REG_CLBU | REG_FB | REG_FBU | REG_SIG | REG_SSTS.

Class Controller (W : Type) := {
  abar_read : abar_reg → stM W Z;
  abar_write : abar_reg → Z → stM W unit;
  port_read : Z → port_reg → stM W Z;
  port_write : Z → port_reg → Z → stM W unit;
  port_hba : Z → Hba W
}.

Record disks_st (F W M P : Type) : Type := mk_disks {
  d_user : user_st F;
  d_abar : W;
  d_pci : pci_st P;
  d_lists : gmap Z (list ahci_command_header_t);
  d_tables : gmap Z ahci_command_entry_t;
  d_lock : Z;
  d_root : Z;
  d_map : M;
  ahci_controllers : dyn_st;
  sata_device_count : Z;
  port_datas : gmap Z (Z * ahci_port_data_t)
}.
Arguments mk_disks {F W M P} _ _ _ _ _ _ _ _ _ _ _.
Arguments d_user {F W M P} _.
Arguments d_abar {F W M P} _.
Arguments d_pci {F W M P} _.
Arguments d_lists {F W M P} _.
Arguments d_tables {F W M P} _.
Arguments d_lock {F W M P} _.
Arguments d_root {F W M P} _.
Arguments d_map {F W M P} _.
Arguments ahci_controllers {F W M P} _.
Arguments sata_device_count {F W M P} _.
Arguments port_datas {F W M P} _.
#[export] Instance eta_disks_st F W M P : Eta (disks_st F W M P) :=
  λ r, mk_disks (d_user r) (d_abar r) (d_pci r) (d_lists r) (d_tables r) (d_lock r) (d_root r) (d_map r) (ahci_controllers r)
    (sata_device_count r) (port_datas r).

(** The command list and the area for received FISes. *)
Definition LIST_BYTES : Z := 32 * 32.
Definition FIS_BYTES : Z := 256.
Definition empty_header : ahci_command_header_t := mk_header 0 0 0 0 0.

(** [memset(a, 0, n)] on memory, and the 32 command headers in the memory at [base]. *)
Definition clear_mem (a n : Z) (m : bmem) : bmem := λ x, if (a <=? x) && (x <? a + n) then 0 else m x.
Definition header_of (b : list Z) : ahci_command_header_t :=
  mk_header (Z.land (fld 0 1 b) 31) (Z.b2z (Z.testbit (fld 0 1 b) 6)) (fld 2 2 b) (fld 8 4 b) (fld 12 4 b).
Definition headers_at (m : bmem) (base : Z) : list ahci_command_header_t :=
  map (λ i, header_of (map (λ j, m (base + 32 * i + j)) (seqZ 0 32))) (seqZ 0 32).

Section bringup.
Context {F W M P : Type} `{!FrameAlloc F} `{Controller W} `{KeyMap M} `{PciPorts P}.
Context (mapped : Z → Z → bool) `{Code} (junk : Z → list Z) (elem_junk : Z → list dynarray_elem_t) (fuel : nat) (ops : vfs_ops_t).
Abbreviation dM := (stM (disks_st F W M P)).

Definition on_user {A} (m : stM (user_st F) A) : dM A := zoom d_user (λ u s, s <| d_user := u |>) m.
Definition on_abar {A} (m : stM W A) : dM A := zoom d_abar (λ w s, s <| d_abar := w |>) m.
Definition on_pci {A} (m : stM (pci_st P) A) : dM A := zoom d_pci (λ p s, s <| d_pci := p |>) m.
Definition on_controllers {A} (m : stM dyn_st A) : dM A := zoom ahci_controllers (λ d s, s <| ahci_controllers := d |>) m.

(** The driver's state for a port whose command list is at [base]. *)
Definition port_state (base : Z) (s : disks_st F W M P) : ahci_st F W :=
  mk_ahci (Vmm.frames (vm (d_user s))) (d_abar s) (default [] (d_lists s !! base)) (d_tables s) (d_lock s).
Definition set_port_state (base : Z) (a : ahci_st F W) (s : disks_st F W M P) : disks_st F W M P :=
  s <| d_user := d_user s <| vm := set_frames (Ahci.frames a) (vm (d_user s)) |> |> <| d_abar := hba a |>
    <| d_lists := <[base := headers a]> (d_lists s) |> <| d_tables := tables a |> <| d_lock := ahci_lock a |>.
(** [header_address] of [ahci_get_cmd_header]. *)
Definition command_list (p : Z) : dM Z :=
  lo ← on_abar (port_read p REG_CLB);
  hi ← on_abar (port_read p REG_CLBU);
  mret (Z.lor lo (Z.shiftl hi 32)).
Definition on_port {A} (p : Z) (m : stM (ahci_st F W) A) : dM A :=
  base ← command_list p; zoom (port_state base) (set_port_state base) m.

Definition devfs_of (s : disks_st F W M P) : devfs_st M := mk_devfs (fs (kern (d_user s))) (d_root s) (d_map s).
Definition on_devfs {A} (m : stM (devfs_st M) A) : dM A :=
  zoom devfs_of (λ v s, s <| d_user := d_user s <| kern := kern (d_user s) <| fs := dv_fs v |> |> |>
                          <| d_root := devfs_root v |> <| d_map := devfs_hashmap v |>) m.

(** ** The controller *)

Definition port_present (port : Z) : dM bool := v ← on_abar (abar_read REG_PI); mret (Z.testbit v port).

Definition ahci_get_controller_ownership : dM Z :=
  version ← on_abar (abar_read REG_VS);
  let minor := Z.land version 65535 in
  let minor_2 := u8 (Z.shiftr minor 8) in
  version ← on_abar (abar_read REG_VS);
  let major := Z.land (Z.shiftr version 16) 65535 in
  if (1 <=? major) && (2 <=? minor_2) then
    cap2 ← on_abar (abar_read REG_CAP2);
    if Z.testbit cap2 0 then
      c ← on_abar (abar_read REG_BOHC);
      on_abar (abar_write REG_BOHC (Z.lor c (Z.shiftl 1 1))) ;;
      _ ← on_abar (abar_read REG_BOHC); (* the busy bit, which only makes the delay longer *)
      handoff_control ← on_abar (abar_read REG_BOHC);
      if negb (Z.testbit handoff_control 1) && (Z.testbit handoff_control 0 || Z.testbit handoff_control 4) then mret 1
      else
        c ← on_abar (abar_read REG_BOHC);
        on_abar (abar_write REG_BOHC (Z.lor c (Z.shiftl 1 3))) ;;
        mret 0
    else mret 0
  else mret 0.

(** ** A port *)

Definition read_command (p : Z) : dM Z := on_abar (hba_read (Hba := port_hba p) REG_CMD).
Definition write_command (p v : Z) : dM unit := on_abar (hba_write (Hba := port_hba p) REG_CMD v).

Definition ahci_stop_cmd (p : Z) : dM Z :=
  c ← read_command p;
  write_command p (Z.ldiff c (Z.shiftl 1 0)) ;;
  c ← read_command p;
  write_command p (Z.ldiff c (Z.shiftl 1 4)) ;;
  c ← read_command p;
  if Z.testbit c 15 then mret 1
  else c ← read_command p; mret (if Z.testbit c 14 then 1 else 0).

Definition ahci_start_cmd (p : Z) : dM Z :=
  c ← read_command p;
  write_command p (Z.lor c (Z.shiftl 1 0)) ;;
  c ← read_command p;
  write_command p (Z.lor c (Z.shiftl 1 4)) ;;
  c ← read_command p;
  if negb (Z.testbit c 15) then mret 1
  else c ← read_command p; mret (if negb (Z.testbit c 14) then 1 else 0).

(** Whether there is a device that is awake; the signature is only printed. *)
Definition port_active (p : Z) : dM bool :=
  ssts ← on_abar (port_read p REG_SSTS);
  if negb (Z.land ssts 15 =? 3) then mret false
  else
    ssts ← on_abar (port_read p REG_SSTS);
    if negb (Z.land (Z.shiftr ssts 8) 15 =? 1) then mret false
    else
      sig ← on_abar (port_read p REG_SIG);
      (if (sig =? SATA_SIG_ATA) || (sig =? SATA_SIG_ATAPI) || (sig =? SATA_SIG_PM) || (sig =? SATA_SIG_SEMB) then mret 0
       else on_abar (port_read p REG_SIG)) ;;
      mret true.

(** The addresses of the command list and of the FIS area; false when the controller cannot reach them. *)
Definition set_bases (p ahci_data_base : Z) : dM bool :=
  let ahci_fis_base := u64 (ahci_data_base + LIST_BYTES) in
  cap ← on_abar (abar_read REG_CAP);
  if Z.testbit cap 31 then
    on_abar (port_write p REG_CLB (Z.land ahci_data_base 4294967295)) ;;
    on_abar (port_write p REG_CLBU (Z.land (Z.shiftr ahci_data_base 32) 4294967295)) ;;
    on_abar (port_write p REG_FB (Z.land ahci_fis_base 4294967295)) ;;
    on_abar (port_write p REG_FBU (Z.land (Z.shiftr ahci_fis_base 32) 4294967295)) ;;
    mret true
  else if 4294967295 <? u64 (ahci_fis_base + 256) then mret false
  else
    on_abar (port_write p REG_CLB (Z.land ahci_data_base 4294967295)) ;;
    on_abar (port_write p REG_CLBU 0) ;;
    on_abar (port_write p REG_FB (Z.land ahci_fis_base 4294967295)) ;;
    on_abar (port_write p REG_FBU 0) ;;
    mret true.

(** [memset(GET_HIGHER_HALF(uint8_t *, a), 0, n)]: the memory the controller reads. *)
Definition clear_dma (p a n : Z) : dM unit :=
  on_abar (modify (λ w, set_dma_mem (Hba := port_hba p) (clear_mem a n (dma_mem (Hba := port_hba p) w)) w)).

(** The command engine with a new, cleared command list; false when it cannot be used. *)
Definition setup_port (p : Z) : dM bool :=
  ahci_stop_cmd p ;;
  ahci_data_base ← on_user (on_vm (vmm_pmm_alloc (LIST_BYTES + FIS_BYTES)));
  clear_dma p ahci_data_base (LIST_BYTES + FIS_BYTES) ;;
  modify (λ s, s <| d_lists := <[ahci_data_base := headers_at (dma_mem (Hba := port_hba p) (d_abar s)) ahci_data_base]> (d_lists s) |>) ;;
  ok ← set_bases p ahci_data_base;
  if negb ok then mret false
  else
    r ← ahci_start_cmd p;
    if negb (r =? 0) then mret false
    else on_abar (hba_write (Hba := port_hba p) REG_IS 4294967295) ;; mret true.

(** The name of the next disk: the string literal ["satadev "] with its last character overwritten. *)
Definition device_name (count : Z) : list Z := chars "satadev" ++ [u8 (97 + count)].

(** The data of a port in the kernel heap. *)
Definition new_port_data (p : Z) (d : ahci_port_data_t) : dM Z :=
  a ← on_user (on_kern kalloc);
  modify (λ s, s <| port_datas := <[a := (p, d)]> (port_datas s) |>) ;;
  mret a.

(** [full_dev_path]: the path in a new buffer. *)
Definition dev_path (name : list Z) : stM (user_st F) Z :=
  let path := chars "/dev/" ++ name in
  a ← kcalloc_bytes (zlen path + 1);
  on_kern (modify (λ k, k <| kmem := store_bytes (kmem k) a (path ++ [0]) |>)) ;;
  mret a.

Definition register_port (p : Z) : dM unit :=
  cap ← on_abar (abar_read REG_CAP);
  let address64 := if Z.testbit cap 31 then 1 else 0 in
  cap ← on_abar (abar_read REG_CAP);
  let port_data := mk_port_data address64 (Z.land cap 15 + 1) 0 0 0 in
  sig ← on_abar (port_read p REG_SIG);
  if negb (sig =? SATA_SIG_ATA) then mret tt
  else
    port_data ← on_port p (ahci_identify_sata (H0 := port_hba p) fuel port_data 0);
    port_data_heap ← new_port_data p port_data;
    name ← gets (λ s, device_name (sata_device_count s));
    modify (λ s, s <| sata_device_count := u8 (sata_device_count s + 1) |>) ;;
    on_devfs (register_device name ops port_data_heap) ;;
    full_dev_path ← on_user (dev_path name);
    on_user (read_mbr mapped junk full_dev_path) ;;
    on_user (on_vm (kfree full_dev_path)) ;;
    mret tt.

Definition enable_port (p : Z) : dM unit :=
  present ← port_present p;
  if negb present then mret tt
  else
    active ← port_active p;
    if negb active then mret tt
    else
      ready ← setup_port p;
      if negb ready then mret tt else register_port p.

Definition ahci_enable_present_devs : dM unit := for_loop 32 0 enable_port.

(** [ahci_controller_t]; the padding between its fields is not looked at. *)
Definition controller_bytes (device : pci_device_t) (ahci_bar : Z) : list Z :=
  [valid device; pci_bus device; pci_dev device; pci_fn device; 0; 0; 0; 0] ++ le_bytes 8 ahci_bar.

Definition ahci_init_controller (device : pci_device_t) : dM unit :=
  ids ← on_pci (get_pci_ids (pci_bus device) (pci_dev device) (pci_fn device));
  if negb (id_class ids =? 1) || negb (id_subclass ids =? 6) || negb (id_prog_if ids =? 1) then mret tt
  else
    on_pci (pci_enable_busmastering device) ;;
    bar5 ← on_pci (pci_get_mmio_bar device 5);
    let bar5 := Z.ldiff bar5 4095 in
    bar_size ← on_pci (pci_get_mmio_bar_size device 5);
    on_controllers (dynarray_add elem_junk (controller_bytes device (u64 (bar5 + NORMAL_VMA_OFFSET)))) ;;
    on_user (on_vm (vmm_map bar5 (u64 (bar5 + NORMAL_VMA_OFFSET)) (u32 (bar_size + 4096 - 1) / 4096) (Z.lor VMM_PRESENT VMM_WRITE))) ;;
    ghc ← on_abar (abar_read REG_GHC);
    on_abar (abar_write REG_GHC (Z.lor ghc (Z.shiftl 1 31))) ;;
    owner ← ahci_get_controller_ownership;
    if owner =? 1 then mret tt
    else
      _ ← on_abar (abar_read REG_CAP);
      ahci_enable_present_devs.
End bringup.

(** ** Theorems about bringing up the disk controller

    The controller keeps [ControllerLaws], which AHCI 1.3 says of the four registers with the addresses of a port's
    memory: they can be set while the port's engine is stopped, the low bits of an address are
    hardwired to zero, and the upper halves exist on controllers with 64-bit addresses only.  A port that works writes its area for
    received FISes and no other memory.  Then a port gets
    a cleared command list and an area for received FISes in memory that was
    free, where the controller can reach it. *)

(** ** The controller *)

(** The registers with addresses; the others are read-only. *)
Definition base_reg (r : port_reg) : bool := match r with REG_SIG | REG_SSTS => false | _ => true end.
(** What a register holds of [v]. *)
Definition held (r : port_reg) (v : Z) : Z :=
  match r with REG_CLB => Z.ldiff v 1023 | REG_FB => Z.ldiff v 255 | _ => v end.
(** The four bits of the command register: started, FIS receiving enabled, command list running, FIS receiving running. *)
Record engine_t : Type := mk_engine { e_st : bool; e_fre : bool; e_cr : bool; e_fr : bool }.

Class ControllerLaws (W : Type) `{Controller W} : Type := {
  port_regs : W → Z → port_reg → Z;
  cap_of : W → Z;
  ram : W → bmem;
  eng : W → Z → engine_t;
  fis_area w p a : Prop := let b := port_regs w p REG_FB + 4294967296 * port_regs w p REG_FBU in b ≤ a < b + 256;
  in_fis w a : Prop := ∃ p, fis_area w p a;
  (** The controller makes progress, without a change to the addresses. *)
  progress w w' : Prop :=
    (∀ p r, base_reg r = true → port_regs w' p r = port_regs w p r) ∧ cap_of w' = cap_of w ∧
    (∀ a, ¬ in_fis w a → ram w' a = ram w a) ∧
    (∀ p, e_st (eng w p) = false → e_st (eng w' p) = false → e_cr (eng w p) = false → e_cr (eng w' p) = false) ∧
    (∀ p, e_fre (eng w p) = false → e_fre (eng w' p) = false → e_fr (eng w p) = false → e_fr (eng w' p) = false);
  same_commands w w' : Prop := ∀ p, e_st (eng w' p) = e_st (eng w p) ∧ e_fre (eng w' p) = e_fre (eng w p);
  halted w p : Prop := eng w p = mk_engine false false false false;
  cl_cap w : abar_read REG_CAP w = Ok (cap_of w, w);
  cl_ram w p : dma_mem (Hba := port_hba p) w = ram w;
  cl_set_ram w p m : let w' := set_dma_mem (Hba := port_hba p) m w in
    ram w' = m ∧ port_regs w' = port_regs w ∧ cap_of w' = cap_of w ∧ eng w' = eng w;
  cl_command_read w p : ∃ v w', hba_read (Hba := port_hba p) REG_CMD w = Ok (v, w') ∧ progress w w' ∧ same_commands w w' ∧
    eng w' p = mk_engine (Z.testbit v 0) (Z.testbit v 4) (Z.testbit v 15) (Z.testbit v 14);
  cl_command_write w p v : ∃ w', hba_write (Hba := port_hba p) REG_CMD v w = Ok (tt, w') ∧ progress w w' ∧
    e_st (eng w' p) = Z.testbit v 0 ∧ e_fre (eng w' p) = Z.testbit v 4;
  cl_status_write w p v : ∃ w', hba_write (Hba := port_hba p) REG_IS v w = Ok (tt, w') ∧ progress w w';
  cl_port_read w p r : base_reg r = true → ∃ w', port_read p r w = Ok (port_regs w p r, w') ∧ progress w w';
  cl_port_write w p r v : base_reg r = true → halted w p → is_u32 v →
    (r = REG_CLBU ∨ r = REG_FBU → Z.testbit (cap_of w) 31 = true ∨ v = 0) →
    ∃ w', port_write p r v w = Ok (tt, w') ∧ port_regs w' p r = held r v ∧
      (∀ p' r', base_reg r' = true → (p', r') ≠ (p, r) → port_regs w' p' r' = port_regs w p' r') ∧ cap_of w' = cap_of w ∧
      halted w' p ∧ (∀ a, (∀ p', p' ≠ p → ¬ fis_area w p' a) → ram w' a = ram w a)
}.

Section bringup.
Context {F W M P : Type} `{FrameAllocLaws F} `{ControllerLaws W} `{KeyMap M} `{PciPorts P}.
Implicit Types s : disks_st F W M P.

(** What the controller may do by itself: the set-up of its ports and the memory outside of the areas for FISes are as before. *)
Definition kept (w w' : W) : Prop :=
  (∀ p r, base_reg r = true → port_regs w' p r = port_regs w p r) ∧ cap_of w' = cap_of w ∧ (∀ a, ¬ in_fis w a → ram w' a = ram w a).

Lemma kept_refl w : kept w w.
Proof. done. Qed.
Lemma kept_progress w w' : progress w w' → kept w w'.
Proof. by intros (R & C & Q & _). Qed.
Lemma kept_fis w w' p a : kept w w' → fis_area w' p a ↔ fis_area w p a.
Proof. intros (R & _). unfold fis_area. by rewrite !R. Qed.
Lemma kept_trans w1 w2 w3 : kept w1 w2 → kept w2 w3 → kept w1 w3.
Proof.
  intros K1 K2. pose proof K1 as (R1 & C1 & M1). pose proof K2 as (R2 & C2 & M2). split_and!; [intros; by rewrite R2, R1|congruence|].
  intros a Ha. rewrite M2, M1; [done|done|]. intros [q Hq]. apply Ha. exists q. by apply (kept_fis _ _ _ _ K1).
Qed.

(** The state with the controller in the state [w]. *)
Definition at_w s (w : W) : disks_st F W M P := s <| d_abar := w |>.
Lemma at_self s : at_w s (d_abar s) = s.
Proof. by destruct s. Qed.
Lemma on_abar_ok {A} (m : stM W A) s w a w' : m w = Ok (a, w') → on_abar m (at_w s w) = Ok (a, at_w s w').
Proof. intros E. unfold on_abar. exact (zoom_ok d_abar (λ w s, s <| d_abar := w |>) m (at_w s w) a w' E). Qed.

(** ** The command engine *)

Lemma read_run p s w : ∃ v w', read_command p (at_w s w) = Ok (v, at_w s w') ∧ progress w w' ∧ same_commands w w' ∧
  eng w' p = mk_engine (Z.testbit v 0) (Z.testbit v 4) (Z.testbit v 15) (Z.testbit v 14).
Proof. destruct (cl_command_read w p) as (v & w' & E & R). exists v, w'. split; [by apply on_abar_ok|done]. Qed.
Lemma write_run p s w v : ∃ w', write_command p v (at_w s w) = Ok (tt, at_w s w') ∧ progress w w' ∧
  e_st (eng w' p) = Z.testbit v 0 ∧ e_fre (eng w' p) = Z.testbit v 4.
Proof. destruct (cl_command_write w p v) as (w' & E & R). exists w'. split; [by apply on_abar_ok|done]. Qed.

(** When [ahci_stop_cmd] reports that the engine has stopped, it has. *)
Lemma stop_run p s w : ∃ r w', ahci_stop_cmd p (at_w s w) = Ok (r, at_w s w') ∧ kept w w' ∧ (r = 0 → halted w' p).
Proof.
  unfold ahci_stop_cmd. destruct (read_run p s w) as (c1 & w1 & E1 & P1 & _). mrun E1.
  destruct (write_run p s w1 (Z.ldiff c1 (Z.shiftl 1 0))) as (w2 & E2 & P2 & S2 & _). mrun E2.
  destruct (read_run p s w2) as (c3 & w3 & E3 & P3 & Q3 & G3). mrun E3.
  destruct (write_run p s w3 (Z.ldiff c3 (Z.shiftl 1 4))) as (w4 & E4 & P4 & S4 & F4). mrun E4.
  destruct (read_run p s w4) as (c5 & w5 & E5 & P5 & Q5 & G5). mrun E5.
  assert (kept w w5) as K5 by (repeat (eapply kept_trans; [by apply kept_progress|]); apply kept_refl).
  destruct (Z.testbit c5 15) eqn:E15; [by exists 1, w5|].
  destruct (read_run p s w5) as (c6 & w6 & E6 & P6 & Q6 & G6). mrun E6. exists (if Z.testbit c6 14 then 1 else 0), w6. split; [reflexivity|].
  split; [eapply kept_trans; [exact K5|by apply kept_progress]|].
  assert (e_st (eng w4 p) = false) as T4.
  { rewrite S4, Z.ldiff_spec. destruct (Q3 p) as [Q _]. rewrite G3 in Q. cbn [e_st] in Q. rewrite Q, S2, Z.ldiff_spec. by rewrite andb_false_r. }
  assert (e_fre (eng w4 p) = false) as U4 by (rewrite F4, Z.ldiff_spec; by rewrite andb_false_r).
  destruct (Q5 p) as [A5 B5]. destruct (Q6 p) as [A6 B6]. rewrite T4 in A5. rewrite U4 in B5. rewrite A5 in A6. rewrite B5 in B6.
  destruct P6 as (_ & _ & _ & Hcr & _). specialize (Hcr p A5 A6). rewrite G5 in Hcr. cbn [e_cr] in Hcr. specialize (Hcr eq_refl).
  rewrite G6 in A6, B6, Hcr. cbn [e_st e_fre e_cr] in A6, B6, Hcr. unfold halted. intros Hz. rewrite G6, A6, B6, Hcr.
  by destruct (Z.testbit c6 14).
Qed.

Lemma start_run p s w : ∃ r w', ahci_start_cmd p (at_w s w) = Ok (r, at_w s w') ∧ kept w w'.
Proof.
  unfold ahci_start_cmd. destruct (read_run p s w) as (c1 & w1 & E1 & P1 & _). mrun E1.
  destruct (write_run p s w1 (Z.lor c1 (Z.shiftl 1 0))) as (w2 & E2 & P2 & _). mrun E2.
  destruct (read_run p s w2) as (c3 & w3 & E3 & P3 & _). mrun E3.
  destruct (write_run p s w3 (Z.lor c3 (Z.shiftl 1 4))) as (w4 & E4 & P4 & _). mrun E4.
  destruct (read_run p s w4) as (c5 & w5 & E5 & P5 & _). mrun E5.
  assert (kept w w5) as K5 by (repeat (eapply kept_trans; [by apply kept_progress|]); apply kept_refl).
  destruct (negb (Z.testbit c5 15)); [by exists 1, w5|].
  destruct (read_run p s w5) as (c6 & w6 & E6 & P6 & _). mrun E6. exists (if negb (Z.testbit c6 14) then 1 else 0), w6. split; [reflexivity|].
  eapply kept_trans; [exact K5|by apply kept_progress].
Qed.

(** The end of [setup_port], once the addresses are set. *)
Lemma engine_run p s w (ok : bool) : ∃ ok' w', (if negb ok then mret false
    else r ← ahci_start_cmd p; if negb (r =? 0) then mret false
         else on_abar (hba_write (Hba := port_hba p) REG_IS 4294967295) ;; mret true) (at_w s w) = Ok (ok', at_w s w') ∧
  kept w w' ∧ (ok = false → ok' = false).
Proof.
  destruct ok; cbn [negb]; [|by exists false, w]. destruct (start_run p s w) as (r & w1 & E1 & K1). mrun E1.
  destruct (negb (r =? 0)); [by exists false, w1|]. destruct (cl_status_write w1 p 4294967295) as (w2 & E2 & P2).
  erewrite bind_ok by (apply on_abar_ok; exact E2). exists true, w2. split_and!; [done| |done]. eapply kept_trans; [exact K1|by apply kept_progress].
Qed.

(** ** The memory of a port *)

(** The addresses the port's registers hold. *)
Definition list_base (w : W) (p : Z) : Z := port_regs w p REG_CLB + 4294967296 * port_regs w p REG_CLBU.
Definition fis_base (w : W) (p : Z) : Z := port_regs w p REG_FB + 4294967296 * port_regs w p REG_FBU.

Definition reachable (w : W) (base : Z) : Prop := Z.testbit (cap_of w) 31 = true ∨ base + 1280 ≤ 4294967295.

(** Only the addresses of port [p], which is halted, were set. *)
Record set_up (p : Z) (w w' : W) : Prop := {
  su_halted : halted w' p;
  su_cap : cap_of w' = cap_of w;
  su_others : ∀ p' r, base_reg r = true → p' ≠ p → port_regs w' p' r = port_regs w p' r;
  su_ram : ∀ a, (∀ p', p' ≠ p → ¬ fis_area w p' a) → ram w' a = ram w a
}.

Lemma set_up_trans p w1 w2 w3 : set_up p w1 w2 → set_up p w2 w3 → set_up p w1 w3.
Proof.
  intros [Q1 C1 O1 M1] [Q2 C2 O2 M2]. split; [done|congruence|intros; by rewrite O2, O1|].
  intros a Ha. rewrite M2; [by apply M1|]. intros p' Hp. unfold fis_area. rewrite !O1 by done. by apply Ha.
Qed.

Lemma port_write_run s w p r v : base_reg r = true → halted w p → is_u32 v → (r = REG_CLBU ∨ r = REG_FBU → Z.testbit (cap_of w) 31 = true ∨ v = 0) →
  ∃ w', on_abar (port_write p r v) (at_w s w) = Ok (tt, at_w s w') ∧ set_up p w w' ∧ port_regs w' p r = held r v ∧
    ∀ r', base_reg r' = true → r' ≠ r → port_regs w' p r' = port_regs w p r'.
Proof.
  intros Hr Hh Hv Hup. destruct (cl_port_write w p r v Hr Hh Hv Hup) as (w' & E & R & O & C & Hh' & Hm). exists w'.
  split; [by apply on_abar_ok|]. split; [split; try done; intros; apply O; [done|congruence]|]. split; [done|]. intros r' Hr' Hne. apply O; [done|congruence].
Qed.

(** Four registers, one after the other. *)
Lemma write_four p a b c d s w : halted w p → is_u32 a → is_u32 b → is_u32 c → is_u32 d → (Z.testbit (cap_of w) 31 = true ∨ b = 0 ∧ d = 0) →
  ∃ w', (on_abar (port_write p REG_CLB a) ;; on_abar (port_write p REG_CLBU b) ;;
    on_abar (port_write p REG_FB c) ;; on_abar (port_write p REG_FBU d) ;; mret true) (at_w s w) = Ok (true, at_w s w') ∧ set_up p w w' ∧
  port_regs w' p REG_CLB = Z.ldiff a 1023 ∧ list_base w' p = Z.ldiff a 1023 + 4294967296 * b ∧ fis_base w' p = Z.ldiff c 255 + 4294967296 * d.
Proof.
  intros Hh Ha Hb Hc Hd Hup.
  destruct (port_write_run s w p REG_CLB a) as (w1 & E1 & S1 & R1 & O1); [done..|intros [?|?]; done|].
  destruct (port_write_run s w1 p REG_CLBU b) as (w2 & E2 & S2 & R2 & O2); [done|apply S1|done|rewrite (su_cap _ _ _ S1); intuition|].
  pose proof (set_up_trans _ _ _ _ S1 S2) as S12.
  destruct (port_write_run s w2 p REG_FB c) as (w3 & E3 & S3 & R3 & O3); [done|apply S2|done|intros [?|?]; done|].
  pose proof (set_up_trans _ _ _ _ S12 S3) as S13.
  destruct (port_write_run s w3 p REG_FBU d) as (w4 & E4 & S4 & R4 & O4); [done|apply S3|done|rewrite (su_cap _ _ _ S13); intuition|].
  exists w4. mrun E1. mrun E2. mrun E3. mrun E4. split; [done|]. split; [by eapply set_up_trans|]. unfold list_base, fis_base. cbn [held] in *. split_and!.
  - by rewrite O4, O3, O2, R1.
  - by rewrite !O4, !O3, O2, R1, R2.
  - by rewrite R4, O4, R3.
Qed.

Lemma split_base a : 0 ≤ a < U64_MOD → Z.land a 4294967295 + 4294967296 * Z.land (Z.shiftr a 32) 4294967295 = a.
Proof. intros Ha. change 4294967295 with (Z.ones 32). rewrite !Z.land_ones, Z.shiftr_div_pow2 by lia. change (2 ^ 32) with 4294967296. dlia. Qed.
Lemma land_u32 a : is_u32 (Z.land a 4294967295).
Proof. change 4294967295 with (Z.ones 32). rewrite Z.land_ones by lia. unfold is_u32. change (2 ^ 32) with 4294967296. apply Z.mod_pos_bound. lia. Qed.
(** The low bits, which are hardwired, are zero. *)
Lemma held_aligned a k : 0 ≤ k ≤ 32 → a mod 2 ^ k = 0 → Z.ldiff (Z.land a 4294967295) (Z.ones k) = Z.land a 4294967295.
Proof.
  intros Hk Ha. change 4294967295 with (Z.ones 32). apply Z.bits_inj'. intros n Hn. rewrite Z.ldiff_spec, Z.land_spec.
  destruct (decide (n < k)) as [Hl|Hl]; [|by rewrite (Z.ones_spec_high k), andb_true_r by lia].
  rewrite <-(Z.mod_pow2_bits_low a k n) by lia. by rewrite Ha, Z.testbit_0_l.
Qed.

Lemma set_bases_ok p base s w : halted w p → base mod 1024 = 0 → 0 ≤ base → base + 1280 < U64_MOD →
  ∃ ok w', set_bases p base (at_w s w) = Ok (ok, at_w s w') ∧
    ((reachable w base ∧ ok = true ∧ set_up p w w' ∧ is_u32 (port_regs w' p REG_CLB) ∧ list_base w' p = base ∧ fis_base w' p = base + 1024) ∨ (¬ reachable w base ∧ ok = false ∧ w' = w)).
Proof.
  intros Hh Hal H0' Hb. unfold set_bases, LIST_BYTES. change (32 * 32) with 1024.
  erewrite bind_ok by (apply on_abar_ok, cl_cap). cbv beta. rewrite (u64_small (base + 1024)), (u64_small (base + 1024 + 256)) by (unfold is_u64; lia). unfold reachable.
  pose proof (held_aligned base 10 ltac:(lia) Hal) as A1. pose proof (held_aligned (base + 1024) 8 ltac:(lia) ltac:(change (2 ^ 8) with 256; dlia)) as A2.
  change (Z.ones 10) with 1023 in A1. change (Z.ones 8) with 255 in A2.
  destruct (Z.testbit (cap_of w) 31) eqn:E31.
  - destruct (write_four p (Z.land base 4294967295) (Z.land (Z.shiftr base 32) 4294967295) (Z.land (base + 1024) 4294967295)
      (Z.land (Z.shiftr (base + 1024) 32) 4294967295) s w) as (w' & E & T & U & L & B); [done|apply land_u32..|by left|].
    exists true, w'. split; [done|]. left. rewrite U, L, B, A1, A2, !split_base by lia. split; [by left|]. split_and!; try done. apply land_u32.
  - destruct (4294967295 <? base + 1024 + 256) eqn:El; zbool.
    + exists false, w. split; [done|]. right. split; [|done]. intros [?|?]; [done|lia].
    + destruct (write_four p (Z.land base 4294967295) 0 (Z.land (base + 1024) 4294967295) 0 s w) as (w' & E & T & U & L & B); [done|apply land_u32|done|apply land_u32|done|by right|].
      exists true, w'. split; [done|]. left. rewrite U, L, B, A1, A2. split; [right; lia|]. split; [done|]. split; [done|]. split; [apply land_u32|]. change 4294967295 with (Z.ones 32). rewrite !Z.land_ones, !Z.mod_small by lia.
      split; lia.
Qed.

(** A cleared list is 32 empty headers. *)
Lemma cleared_headers base n m : 1024 ≤ n → headers_at (clear_mem base n m) base = replicate 32 empty_header.
Proof.
  intros Hn. unfold headers_at. transitivity (map (λ _, empty_header) (seqZ 0 32)); [|reflexivity].
  apply map_ext_in. intros i Hi%list_elem_of_In%elem_of_seqZ. transitivity (header_of (map (λ _, 0) (seqZ 0 32))); [|reflexivity]. f_equal.
  apply map_ext_in. intros j Hj%list_elem_of_In%elem_of_seqZ. unfold clear_mem. by rewrite (proj2 (Z.leb_le _ _)), (proj2 (Z.ltb_lt _ _)) by lia.
Qed.

(** [ahci_get_cmd_header] uses the list at the address in the registers. *)
Lemma command_list_ok p s w base : list_base w p = base → is_u32 (port_regs w p REG_CLB) → ∃ w', command_list p (at_w s w) = Ok (base, at_w s w') ∧ kept w w'.
Proof.
  intros Hl Hlo. unfold command_list. destruct (cl_port_read w p REG_CLB eq_refl) as (w1 & E1 & P1). erewrite bind_ok by (apply on_abar_ok; exact E1). cbv beta.
  destruct (cl_port_read w1 p REG_CLBU eq_refl) as (w2 & E2 & P2). erewrite bind_ok by (apply on_abar_ok; exact E2). cbv beta.
  apply kept_progress in P1, P2. exists w2. split; [|by eapply kept_trans]. rewrite (proj1 P1) by done. unfold mret, stM_ret. do 2 f_equal. rewrite <-Hl. unfold list_base, is_u32 in *.
  rewrite Z.shiftl_mul_pow2, Z.lor_comm, (lor_disjoint 32) by (change (2 ^ 32) with 4294967296; first [lia|dlia]). change (2 ^ 32) with 4294967296. lia.
Qed.

(** C39: setting up a port whose command engine stops.  With a page of memory left, [setup_port] takes one page that was free and no other,
    clears the 1280 bytes at its start, and what the driver then reads there is a command list of 32 empty headers.  When the controller can
    reach the page (it has 64-bit addresses, or the page is below 4 GiB) the port's registers hold exactly the list's address, which is where
    [ahci_get_cmd_header] looks for the list, aligned as the hardware wants it, and the address of the area for received FISes behind
    it; otherwise the port is given up with its addresses unchanged.  Memory that is not an area for received FISes,
    before or after, is as before but for the cleared bytes, and the addresses of the other ports, and everything else in
    the kernel, are untouched. *)
Theorem setup_port_correct p s s1 : fa_inv (Vmm.frames (vm (d_user s))) → has_room (Vmm.frames (vm (d_user s))) 1 → ahci_stop_cmd p s = Ok (0, s1) →
  ∃ ok s' q f', setup_port p s = Ok (ok, s') ∧ let f := Vmm.frames (vm (d_user s)) in
    fa_used f q = false ∧ fa_inv f' ∧ (∀ x, fa_used f' x = (fa_used f x || (x =? q))%bool) ∧
    s' = s <| d_user := d_user s <| vm := set_frames f' (vm (d_user s)) |> |> <| d_abar := d_abar s' |>
           <| d_lists := <[q * PAGE := replicate 32 empty_header]> (d_lists s) |> ∧
    (reachable (d_abar s) (q * PAGE) → list_base (d_abar s') p = q * PAGE ∧ fis_base (d_abar s') p = q * PAGE + 1024 ∧
      list_base (d_abar s') p mod 1024 = 0 ∧ fis_base (d_abar s') p mod 256 = 0 ∧
      ∃ s2, command_list p s' = Ok (q * PAGE, s2)) ∧
    (¬ reachable (d_abar s) (q * PAGE) → ok = false ∧ ∀ r, base_reg r = true → port_regs (d_abar s') p r = port_regs (d_abar s) p r) ∧
    (∀ p' r, base_reg r = true → p' ≠ p → port_regs (d_abar s') p' r = port_regs (d_abar s) p' r) ∧
    (∀ a, ¬ in_fis (d_abar s) a → ¬ in_fis (d_abar s') a →
       ram (d_abar s') a = if (q * PAGE <=? a) && (a <? q * PAGE + 1280) then 0 else ram (d_abar s) a).
Proof.
  intros Hi Hroom Estop. set (w0 := d_abar s). destruct (stop_run p s w0) as (r1 & w1 & E1 & K1 & Hh). unfold w0 in E1. rewrite at_self in E1.
  rewrite E1 in Estop. injection Estop as -> <-. specialize (Hh eq_refl). unfold setup_port. mrun E1. set (f := Vmm.frames (vm (d_user s))) in *.
  destruct (fa_alloc_spec f (LIST_BYTES + FIS_BYTES) Hi) as [(q & f' & E & Hfr & Hi' & Hsz & Hif & Hu)|[_ Hno]]; [done|done| |].
  2: { destruct Hroom as (l & _ & Hl & Hf). destruct l as [|x []]; try done. destruct (Hno x). intros k Hk. change (pages_of _) with 1 in Hk.
       apply Forall_inv in Hf. by replace k with x by lia. }
  change (pages_of (LIST_BYTES + FIS_BYTES)) with 1 in *. pose proof (fa_used_bound _ _ Hi (Hfr q ltac:(lia))) as Hq.
  pose proof (fa_size_bound _ Hi) as Hmx. unfold PHYS_PAGES in Hmx.
  set (sa := s <| d_user := d_user s <| vm := set_frames f' (vm (d_user s)) |> |>).
  assert (on_user (on_vm (vmm_pmm_alloc (LIST_BYTES + FIS_BYTES))) (at_w s w1) = Ok (q * PAGE, at_w sa w1)) as Ea.
  { assert (on_vm (vmm_pmm_alloc (LIST_BYTES + FIS_BYTES)) (d_user s) = Ok (q * PAGE, d_user s <| vm := set_frames f' (vm (d_user s)) |>)) as Eq.
    { by apply on_vm_ok, (zoom_ok Vmm.frames set_frames). }
    exact (zoom_ok d_user (λ u s, s <| d_user := u |>) _ (at_w s w1) _ _ Eq). }
  mrun Ea. unfold clear_dma. erewrite bind_ok by (by apply on_abar_ok). cbv beta. rewrite cl_ram.
  set (m2 := clear_mem (q * PAGE) (LIST_BYTES + FIS_BYTES) (ram w1)). set (w2 := set_dma_mem (Hba := port_hba p) m2 w1).
  destruct (cl_set_ram w1 p m2) as (M2 & R2 & C2 & G2). fold w2 in M2, R2, C2, G2.
  set (sb := sa <| d_lists := <[q * PAGE := replicate 32 empty_header]> (d_lists s) |>).
  match goal with |- context [modify ?g] => assert (modify g (at_w sa w2) = Ok (tt, at_w sb w2)) as Em end.
  { unfold modify, at_w, sb. cbn. rewrite cl_ram, M2. unfold m2. by rewrite cleared_headers. }
  change (LIST_BYTES + FIS_BYTES) with 1280 in *. mrun Em.
  destruct (set_bases_ok p (q * PAGE) sb w2) as (ok & w3 & E3 & Hb3); [unfold halted; rewrite G2; exact Hh|dlia|lia|lia|]. mrun E3.
  destruct (engine_run p sb w3 ok) as (ok' & w4 & E4 & K4 & Hok). exists ok', (at_w sb w4), q, f'. split; [exact E4|]. cbn zeta.
  change (d_abar (at_w sb w4)) with w4. fold w0. pose proof K1 as (R1 & C1 & M1). pose proof K4 as (R4 & C4 & M4).
  assert (reachable w2 (q * PAGE) ↔ reachable w0 (q * PAGE)) as Hre by (unfold reachable; by rewrite C2, C1).
  assert (∀ p' r, base_reg r = true → p' ≠ p → port_regs w3 p' r = port_regs w2 p' r) as O3.
  { destruct Hb3 as [(_ & _ & S3 & _)|(_ & _ & ->)]; [apply S3|done]. }
  split; [apply Hfr; lia|]. split; [done|]. split; [intros x; rewrite Hu; f_equal; unfold in_run; lia|]. split; [done|]. split; [|split; [|split]].
  - intros Hr. destruct Hb3 as [(_ & _ & S3 & U & L & B)|(Hn & _)]; [|by destruct Hn; apply Hre].
    assert (list_base w4 p = q * PAGE) as L4 by (unfold list_base; rewrite !R4 by done; exact L).
    assert (fis_base w4 p = q * PAGE + 1024) as B4 by (unfold fis_base; rewrite !R4 by done; exact B). rewrite L4, B4.
    split_and!; [done|done|dlia|dlia|]. assert (is_u32 (port_regs w4 p REG_CLB)) as Hlo by (by rewrite R4). destruct (command_list_ok p sb w4 _ L4 Hlo) as (w5 & E5 & _). by exists (at_w sb w5).
  - intros Hr. destruct Hb3 as [(Hn & _)|(_ & -> & ->)]; [by destruct Hr; apply Hre|]. split; [by apply Hok|]. intros r Hb. by rewrite R4, R2, R1.
  - intros p' r Hb Hp. by rewrite R4, O3, R2, R1.
  - intros a Ha Ha'. assert (∀ p', p' ≠ p → ¬ fis_area w2 p' a) as Hoth.
    { intros p' Hp Hin. apply Ha. exists p'. unfold fis_area in *. by rewrite !R2, !R1 in Hin. }
    rewrite M4; [|intros [x Hx]; apply Ha'; exists x; by apply (kept_fis _ _ _ _ K4)].
    assert (ram w3 a = ram w2 a) as ->; [|rewrite M2; unfold m2, clear_mem; change (LIST_BYTES + FIS_BYTES) with 1280; by rewrite M1].
    destruct Hb3 as [(_ & _ & S3 & _)|(_ & _ & ->)]; [by apply S3|done].
Qed.
End bringup.

(** ** An example *)

#[export] Instance abar_reg_eq : EqDecision abar_reg.
Proof. solve_decision. Defined.
#[export] Instance port_reg_eq : EqDecision port_reg.
Proof. solve_decision. Defined.

(** A controller whose command engines start and stop at once: its registers, memory, and for every port whether commands and FISes are
    enabled. *)
Record sim_world : Type := mk_sim { sim_abar : abar_reg → Z; sim_port : Z → port_reg → Z; sim_ram : bmem; sim_cmd : Z → bool * bool }.
Definition sim_command (st fre : bool) : Z := Z.b2z st + 16 * Z.b2z fre + 16384 * Z.b2z fre + 32768 * Z.b2z st.
Definition set_port (w : sim_world) (p : Z) (r : port_reg) (v : Z) : sim_world :=
  mk_sim (sim_abar w) (λ p' r', if decide ((p', r') = (p, r)) then v else sim_port w p' r') (sim_ram w) (sim_cmd w).
Definition engine (p : Z) : Hba sim_world := {|
  hba_read := λ r, gets (λ w, match r with REG_CMD => sim_command (sim_cmd w p).1 (sim_cmd w p).2 | _ => 0 end);
  hba_write := λ r v, modify (λ w, match r with
    | REG_CMD => mk_sim (sim_abar w) (sim_port w) (sim_ram w) (λ p', if decide (p' = p) then (Z.testbit v 0, Z.testbit v 4) else sim_cmd w p')
    | _ => w end);
  hba_issue := λ _ _ _, mret tt; dma_mem := sim_ram; set_dma_mem := λ m w, mk_sim (sim_abar w) (sim_port w) m (sim_cmd w) |}.
#[export] Instance sim_controller : Controller sim_world := {|
  abar_read := λ r, gets (λ w, sim_abar w r);
  abar_write := λ r v, modify (λ w, mk_sim (λ r', if decide (r' = r) then v else sim_abar w r') (sim_port w) (sim_ram w) (sim_cmd w));
  port_read := λ p r, gets (λ w, sim_port w p r);
  port_write := λ p r v, modify (λ w, if base_reg r then set_port w p r (held r v) else w);
  port_hba := engine |}.

#[export] Instance sim_laws : ControllerLaws sim_world.
Proof.
  refine {| port_regs := sim_port; cap_of := λ w, sim_abar w REG_CAP; ram := sim_ram;
            eng := λ w p, mk_engine (sim_cmd w p).1 (sim_cmd w p).2 (sim_cmd w p).1 (sim_cmd w p).2 |}; cbn.
  - done.
  - done.
  - done.
  - intros w p. eexists _, w. split; [reflexivity|]. split; [done|]. split; [done|]. by destruct (sim_cmd w p) as [[] []].
  - intros w p v. eexists. split; [reflexivity|]. cbn. rewrite decide_True by done. split; [|done]. split_and!; try done; intros p'; by destruct (decide (p' = p)) as [-> |].
  - intros w p v. by exists w.
  - intros w p r Hr. by exists w.
  - intros w p r v Hr Hh _ _. exists (set_port w p r (held r v)). rewrite Hr. split; [done|]. cbn. rewrite decide_True by done.
    split_and!; try done. intros p' r' _ Hn. by rewrite decide_False.
Defined.

(** 64-bit addresses, AHCI 1.3, and firmware that owns the controller and keeps it. *)
Definition demo_regs (r : abar_reg) : Z :=
  match r with REG_CAP => 2147483653 | REG_VS => 66304 | REG_CAP2 => 1 | REG_BOHC => 1 | _ => 0 end.
Definition demo_disks : disks_st pmm_state sim_world unit unit :=
  mk_disks (mk_user demo_kernel vm_demo) (mk_sim demo_regs (λ _ _, 0) (λ _, 7) (λ _, (true, true))) (mk_pcist tt (mk_block 0 []) 0 0 0) ∅ ∅ 0 0 tt
    (mk_dyn None 0 0 ∅ 65536) 0 ∅.

Lemma setup_port_correct_witness : ∃ ok s' q, setup_port 2 demo_disks = Ok (ok, s') ∧
  list_base (d_abar s') 2 = q * PAGE ∧ fis_base (d_abar s') 2 = q * PAGE + 1024 ∧ d_lists s' !! (q * PAGE) = Some (replicate 32 empty_header).
Proof.
  assert (∃ s1, ahci_stop_cmd 2 demo_disks = Ok (0, s1)) as [s1 E1] by (eexists; reflexivity).
  destruct (setup_port_correct 2 demo_disks s1) as (ok & s' & q & f' & E & _ & _ & _ & T & Hr & _).
  - exact (t_alloc _ _ _ vm_demo_ok).
  - apply vm_demo_room. lia.
  - exact E1.
  - exists ok, s', q. destruct Hr as (L & B & _); [by left|]. split; [exact E|]. split; [exact L|]. split; [exact B|].
    rewrite T. exact (lookup_insert_eq _ _ _).
Defined.

(** The driver goes on when the engine does not stop: the result of [ahci_stop_cmd] is not looked at. *)
#[local] Instance stuck_controller : Controller sim_world :=
  let e p := {| hba_read := λ _ : reg, mret 49169 : stM sim_world Z; hba_write := λ _ _, mret tt; hba_issue := λ _ _ _, mret tt;
                dma_mem := sim_ram; set_dma_mem := @set_dma_mem _ (engine p) |} in
  {| abar_read := @abar_read _ sim_controller; abar_write := @abar_write _ sim_controller; port_read := @port_read _ sim_controller;
     port_write := @port_write _ sim_controller; port_hba := e |}.
Lemma stop_not_checked : outcome (λ r _, r) (ahci_stop_cmd (H := stuck_controller) 2 demo_disks) = Some 1 ∧
  outcome (λ r _, r) (setup_port (H := stuck_controller) 2 demo_disks) = Some true.
Proof. split; vm_compute; reflexivity. Qed.

(** The bit the driver sets itself is taken for the firmware's consent: ownership is never refused. *)
Lemma ownership_not_refused :
  outcome (λ r s, (r, Z.testbit (sim_abar (d_abar s) REG_BOHC) 0)) (ahci_get_controller_ownership (H := sim_controller) demo_disks) = Some (0, true).
Proof. reflexivity. Qed.
