(* ===== verification/Dbg.v ===== *)
(** * The debug server (dripdbg/debug.c)

    A kernel thread that takes commands from the serial line, each ended by
    [#$^&e], and answers with lists whose entries start with [+=].  A string is a
    buffer with its terminator, a buffer of the heap a block of Blocks.v, with
    unmapped pages on both sides.  [dg_in] is what arrives on the line, and
    [dg_requests] what is sent to the resource manager. *)

From S2P Require Import Prelude Locks Bytes CString Format Blocks Vfs DList Kernel Stack Proc Sched Fd Urm Launch.

Definition EOM : list Z := chars "#$^&e".
Definition PLUS : list Z := chars "+=".

Record dbg_st : Type := mk_dbg {
  dg_kern : kstate;
  dg_tty : tty_t;
  dg_serial : serial;
  dg_in : list Z;
  dg_requests : list request
}.
#[export] Instance eta_dbg_st : Eta dbg_st := λ r, mk_dbg (dg_kern r) (dg_tty r) (dg_serial r) (dg_in r) (dg_requests r).

Section dbg.
Context (junk : Z → list Z).
Abbreviation gM := (stM dbg_st).

Definition dbg_kern {A} (m : kM A) : gM A := zoom dg_kern (λ k s, s <| dg_kern := k |>) m.
Definition dbg_tty {A} (m : stM tty_t A) : gM A := zoom dg_tty (λ t s, s <| dg_tty := t |>) m.
Definition dbg_serial {A} (m : stM serial A) : gM A := zoom dg_serial (λ t s, s <| dg_serial := t |>) m.

(** A string operation on a buffer of its own, and on the bytes of a block. *)
Definition on_buffer {A} (buf : list Z) (m : bM A) : gM (A * list Z) :=
  λ s, match m buf with Ok r => Ok (r, s) | Crash c => Crash c end.
Definition on_block {A} (b : block Z) (m : bM A) : gM (A * block Z) :=
  '(a, d) ← on_buffer (b_data b) m; mret (a, mk_block (b_size b) d).
Definition krealloc_bytes (b : block Z) (n : Z) : gM (block Z) :=
  match krealloc_block 0 1 junk (Some b) n with Ok b' => mret b' | Crash c => crashM c end.
Definition kcalloc_str (n : Z) : block Z := kcalloc_block 0 1 junk n.

(** [stack] is what the variable length array held. *)
Definition dripdbg_send (msg stack : list Z) : gM unit :=
  '(len, _) ← on_buffer msg (strlen 0);
  let final_msg := 0 :: take (Z.to_nat (len + 5)) (stack ++ replicate (Z.to_nat (len + 5)) 0) in
  '(_, final_msg) ← on_buffer final_msg (strcat msg);
  '(_, final_msg) ← on_buffer final_msg (strcat (EOM ++ [0]));
  dbg_serial (serial_write_buf final_msg (len + 5)).

(** The buffer and its size afterwards. *)
Definition dripdbg_add_list (dst : block Z) (new : list Z) (cur_buf_size : Z) : gM (block Z * Z) :=
  '(l, _) ← on_block dst (strlen 0);
  '(n, _) ← on_buffer new (strlen 0);
  '(buf, size) ← (if cur_buf_size <? l + n + 3 then
                    buf ← krealloc_bytes dst (l + n + 3);
                    '(l, _) ← on_block buf (strlen 0);
                    mret (buf, l + n + 3)
                  else mret (dst, cur_buf_size));
  '(_, buf) ← on_block buf (strcat (PLUS ++ [0]));
  '(_, buf) ← on_block buf (strcat new);
  mret (buf, size).

(** [stack] is what [char buf[30]] held. *)
Definition dripdbg_add_list_int (stack : list Z) (dst : block Z) (num cur_buf_size : Z) : gM (block Z * Z) :=
  '(_, buf) ← on_buffer stack (utoa num);
  dripdbg_add_list dst buf cur_buf_size.

Fixpoint add_ints (stack : list Z) (nums : list Z) (dst : block Z) (size : Z) : gM (block Z * Z) :=
  match nums with
  | [] => mret (dst, size)
  | num :: nums' => '(dst, size) ← dripdbg_add_list_int stack dst num size; add_ints stack nums' dst size
  end.

(** The lists of the commands [t] and [i] grow for every entry. *)
Definition append_entry (data : block Z) (new : list Z) : gM (block Z) :=
  '(l, _) ← on_block data (strlen 0);
  '(n, _) ← on_buffer new (strlen 0);
  data ← krealloc_bytes data (l + 3 + n);
  '(_, data) ← on_block data (strcat (PLUS ++ [0]));
  '(_, data) ← on_block data (strcat new);
  mret data.

(** The string of [entry] for every thread in the table. *)
Fixpoint thread_list (entry : thread_t → gM (list Z)) (tids : list Z) (data : block Z) : gM (block Z) :=
  match tids with
  | [] => mret data
  | a :: tids' =>
      if a =? 0 then thread_list entry tids' data
      else
        t ← dbg_kern (thread_at a);
        new ← entry t;
        data ← append_entry data new;
        thread_list entry tids' data
  end.

Definition name_entry (t : thread_t) : gM (list Z) := mret (t_name t ++ [0]).
Definition tid_entry (stack : list Z) (t : thread_t) : gM (list Z) :=
  '(_, id) ← on_buffer stack (utoa (u64 (t_tid t))); mret id.

Definition send_thread_list (stack : list Z) (entry : thread_t → gM (list Z)) : gM unit :=
  dbg_kern sched_acquire ;;
  tids ← dbg_kern (gets threads);
  data ← thread_list entry tids (kcalloc_str 1);
  dbg_kern sched_release ;;
  dripdbg_send (b_data data) stack.

(** The numbers that [values] takes from the thread named in the command. *)
Definition send_thread_info (stack buffer : list Z) (values : thread_t → list Z) : gM unit :=
  '(tid, _) ← on_buffer (drop 1 buffer) atou;
  dbg_kern sched_acquire ;;
  task ← dbg_kern (thread_slot tid);
  t ← dbg_kern (thread_at task);
  '(data, _) ← add_ints stack (values t) (kcalloc_str 1) 1;
  dbg_kern sched_release ;;
  dripdbg_send (b_data data) stack.

Definition reg_values (t : thread_t) : list Z :=
  let r := t_regs t in
  [r_rax r; r_rbx r; r_rcx r; r_rdx r; r_rdi r; r_rsi r; r_rbp r; r_r8 r; r_r9 r; r_r10 r; r_r11 r; r_r12 r; r_r13 r;
   r_r14 r; r_r15 r; r_rsp r; r_rip r; r_rflags r; r_cs r; r_ss r; r_cr3 r].
Definition time_values (t : thread_t) : list Z := [tsc_started t; tsc_stopped t; tsc_total t].

(** What is done for a command. *)
Definition handle (stack buffer : list Z) : gM unit :=
  '(c, _) ← on_buffer buffer (ld 0);
  if c =? 112 then dbg_tty (kprintf (chars "%s") [AStr (Format.cstr (drop 1 buffer))])
  else if c =? 104 then dripdbg_send (chars "hello world" ++ [0]) stack
  else if c =? 116 then send_thread_list stack name_entry
  else if c =? 105 then send_thread_list stack (tid_entry stack)
  else if c =? 73 then send_thread_info stack buffer reg_values
  else if c =? 99 then send_thread_info stack buffer time_values
  else if c =? 107 then
    '(tid, _) ← on_buffer (drop 1 buffer) atou;
    r ← dbg_kern (kill_task (s64 tid));
    modify (λ s, s <| dg_requests := dg_requests s ++ [r] |>)
  else dbg_tty (kprintf (chars "[DripDBG] Unknown message: '%s'" ++ [CH_newline]) [AStr (Format.cstr buffer)]).

(** [strcmp(buffer + i, "#$^&e")]; in front of the buffer nothing is mapped. *)
Definition strcmp_from (b : block Z) (i : Z) : gM Z :=
  if i <? 0 then crashM Fault else '(r, _) ← on_buffer (drop (Z.to_nat i) (b_data b)) (strcmp (EOM ++ [0])); mret r.

(** The inner loop, one arriving byte after the other; when the line is silent it waits. *)
Fixpoint receive (bytes : list Z) (buffer : block Z) (buffer_size buffer_index : Z) : gM (block Z * Z) :=
  match bytes with
  | [] => crashM Hang
  | data :: bytes' =>
      modify (λ s, s <| dg_in := bytes' |>) ;;
      '(_, buffer) ← on_block buffer (st buffer_index data);
      let buffer_index := buffer_index + 1 in
      buffer ← (if buffer_index =? buffer_size then krealloc_bytes buffer (buffer_size + 10) else mret buffer);
      let buffer_size := buffer_size + 10 in
      '(_, buffer) ← on_block buffer (st buffer_index 0);
      r ← strcmp_from buffer (buffer_index - 5);
      if (r =? 0) && (6 <=? buffer_index) then
        '(_, buffer) ← on_block buffer (st (buffer_index - 5) 0);
        mret (buffer, buffer_index)
      else receive bytes' buffer buffer_size buffer_index
  end.

(** A turn of the outer loop; in [yield] other threads run. *)
Definition debug_worker (stack : list Z) : gM unit :=
  s ← get;
  match dg_in s with
  | [] => mret tt
  | bytes =>
      '(buffer, buffer_index) ← receive bytes (kcalloc_str 10) 10 0;
      '(_, buffer) ← on_block buffer (st buffer_index 0);
      handle stack (b_data buffer)
  end.
End dbg.

(** ** Theorems about the debug server

    What the server would answer, and that it never does: the first byte that
    arrives makes it look in front of its buffer. *)

Section dbg.
Context (junk : Z → list Z).
Implicit Types s : dbg_st.

Definition text_ok (l : list Z) : Prop := Forall (λ c, c ≠ 0) l.

(** A block of [size] bytes that holds the string [d]. *)
Definition str_block (b : block Z) (size : Z) (d : list Z) : Prop :=
  block_ok 1 b ∧ b_size b = size ∧ text_ok d ∧ zlen d < size ∧ ∃ rest, b_data b = d ++ 0 :: rest.

Lemma on_block_ok {A} b (m : bM A) a d s : m (b_data b) = Ok (a, d) → on_block b m s = Ok ((a, mk_block (b_size b) d), s).
Proof. intros E. unfold on_block. assert (on_buffer (b_data b) m s = Ok ((a, d), s)) as E' by (unfold on_buffer; by rewrite E). by mrun E'. Qed.
Lemma on_buffer_ok {A} buf (m : bM A) a d s : m buf = Ok (a, d) → on_buffer buf m s = Ok ((a, d), s).
Proof. intros E. unfold on_buffer. by rewrite E. Qed.

Lemma str_block_len b size d s : str_block b size d → on_block b (strlen 0) s = Ok ((zlen d, b), s).
Proof. intros (_ & _ & Hd & _ & rest & E). erewrite on_block_ok by (rewrite E; by apply strlen_ok0). rewrite <-E. by destruct b. Qed.

(** A string is appended where it fits. *)
Lemma str_block_cat b size d n r2 s : str_block b size d → text_ok n → zlen d + zlen n < size →
  ∃ b', on_block b (strcat (n ++ 0 :: r2)) s = Ok ((tt, b'), s) ∧ str_block b' size (d ++ n).
Proof.
  intros ([H0 Hcap] & Hsz & Hd & Hl & rest & E) Hn Hfit.
  assert (size ≤ zlen (b_data b)) as Hge by (rewrite Hcap, <-Hsz; by apply capacity_ge). rewrite E in Hge.
  assert (length n ≤ length rest)%nat as Hr by (unfold zlen in *; rewrite length_app in Hge; cbn in Hge; lia).
  eexists. split; [apply on_block_ok; rewrite E; by apply strcat_ok|]. split_and!; [split|..]; cbn [b_size b_data]; try done.
  - rewrite <-Hcap, E. unfold zlen. rewrite !length_app. cbn. rewrite length_drop. lia.
  - by apply Forall_app.
  - by rewrite zlen_app.
  - by eexists.
Qed.

Lemma str_block_grow b size d n s : str_block b size d → size ≤ n →
  ∃ b', krealloc_bytes junk b n s = Ok (b', s) ∧ str_block b' n d.
Proof.
  intros (Hok & Hsz & Hd & Hl & rest & E) Hn. destruct (krealloc_grow 0 1 junk ltac:(lia) b n Hok) as (b' & E' & Hok' & Hs' & Hdata); [lia|].
  exists b'. split; [unfold krealloc_bytes; by rewrite E'|]. split_and!; try done; [lia|].
  assert (take (length d + 1) (b_data b') = d ++ [0]) as Ht.
  { replace (length d + 1)%nat with (min (length d + 1) (Z.to_nat n)) by (unfold zlen in *; lia). rewrite <-take_take, Hdata.
    rewrite take_app_le by (rewrite length_take, E, length_app; cbn; unfold zlen in *; lia). rewrite take_take, Nat.min_l by (unfold zlen in *; lia).
    rewrite E. rewrite take_app. replace (length d + 1 - length d)%nat with 1%nat by lia. rewrite take_ge by lia. by cbn. }
  exists (drop (length d + 1) (b_data b')). rewrite <-(take_drop (length d + 1) (b_data b')) at 1. by rewrite Ht, <-app_assoc.
Qed.

(** ** The lists of an answer *)

Definition entry_text (n : list Z) : list Z := PLUS ++ n.

Lemma plus_text : text_ok PLUS.
Proof. by repeat constructor. Qed.

(** Both parts of an entry. *)
Lemma add_entry b size d n r2 s : str_block b size d → text_ok n → zlen d + zlen n + 3 ≤ size →
  ∃ b', ('(_, buf) ← on_block b (strcat (PLUS ++ [0])); on_block buf (strcat (n ++ 0 :: r2))) s = Ok ((tt, b'), s) ∧
    str_block b' size (d ++ entry_text n).
Proof.
  intros Hb Hn Hl. assert (zlen PLUS = 2) as Hp by done. pose proof (zlen_nonneg n). change (PLUS ++ [0]) with (PLUS ++ 0 :: []). destruct (str_block_cat b size d PLUS [] s Hb plus_text) as (b1 & E1 & Hb1); [lia|].
  destruct (str_block_cat b1 size (d ++ PLUS) n r2 s Hb1 Hn) as (b2 & E2 & Hb2); [rewrite zlen_app; lia|].
  exists b2. mrun E1. split; [done|]. unfold entry_text. by rewrite app_assoc.
Qed.

Lemma add_list_ok b size d n r2 s : str_block b size d → text_ok n →
  ∃ b' size', dripdbg_add_list junk b (n ++ 0 :: r2) size s = Ok ((b', size'), s) ∧ str_block b' size' (d ++ entry_text n).
Proof.
  intros Hb Hn. unfold dripdbg_add_list. mrun (str_block_len _ _ _ s Hb). mrun (on_buffer_ok _ _ _ _ s (strlen_ok0 n r2 Hn)).
  pose proof (zlen_nonneg d). pose proof (zlen_nonneg n).
  assert (∃ b1 size', (if size <? zlen d + zlen n + 3 then buf ← krealloc_bytes junk b (zlen d + zlen n + 3);
      '(l, _) ← on_block buf (strlen 0); mret (buf, l + zlen n + 3) else mret (b, size)) s = Ok ((b1, size'), s) ∧
      str_block b1 size' d ∧ zlen d + zlen n + 3 ≤ size') as (b1 & size' & E1 & Hb1 & Hs).
  { destruct (size <? zlen d + zlen n + 3) eqn:Es; zbool; [|by exists b, size].
    destruct (str_block_grow b size d (zlen d + zlen n + 3) s Hb) as (b1 & E & Hb1); [lia|].
    exists b1, (zlen d + zlen n + 3). mrun E. mrun (str_block_len _ _ _ s Hb1). split_and!; [done|done|lia]. }
  mrun E1. destruct (add_entry b1 size' d n r2 s Hb1 Hn Hs) as (b2 & E2 & Hb2). exists b2, size'. split; [|done].
  revert E2. unfold mbind, stM_bind. destruct (on_block b1 _ s) as [[[? ?] ?]|]; [|done]. intros ->. done.
Qed.

Lemma append_entry_ok b size d n r2 s : str_block b size d → text_ok n → size ≤ zlen d + 1 →
  ∃ b', append_entry junk b (n ++ 0 :: r2) s = Ok (b', s) ∧ str_block b' (zlen d + 3 + zlen n) (d ++ entry_text n).
Proof.
  intros Hb Hn Hs. unfold append_entry. mrun (str_block_len _ _ _ s Hb). mrun (on_buffer_ok _ _ _ _ s (strlen_ok0 n r2 Hn)).
  pose proof (zlen_nonneg d). pose proof (zlen_nonneg n).
  destruct (str_block_grow b size d (zlen d + 3 + zlen n) s Hb) as (b1 & E & Hb1); [lia|]. mrun E.
  destruct (add_entry b1 _ d n r2 s Hb1 Hn) as (b2 & E2 & Hb2); [lia|]. exists b2. split; [|done].
  revert E2. unfold mbind, stM_bind. destruct (on_block b1 _ s) as [[[? ?] ?]|]; [|done]. intros ->. done.
Qed.

(** Numbers as an answer shows them. *)
Definition numbers (nums : list Z) : list Z := concat (map (λ n, entry_text (decimal n)) nums).

Lemma decimal_text n : text_ok (decimal n).
Proof. apply digit_nonzero, decimal_digits. Qed.

Lemma add_ints_ok stack nums : (21 ≤ length stack)%nat → Forall is_u64 nums → ∀ b size d s, str_block b size d →
  ∃ b' size', add_ints junk stack nums b size s = Ok ((b', size'), s) ∧ str_block b' size' (d ++ numbers nums).
Proof.
  intros Hst Hn. induction Hn as [|n nums Hn _ IH]; intros b size d s Hb.
  - exists b, size. split; [done|]. unfold numbers. cbn. by rewrite app_nil_r.
  - cbn [add_ints]. destruct (utoa_ok n stack Hn Hst) as (out & Eo & Ho). unfold dripdbg_add_list_int.
    destruct (add_list_ok b size d (decimal n) (drop (S (length (decimal n))) stack) s Hb (decimal_text n)) as (b1 & size1 & E1 & Hb1).
    assert (('(_, buf) ← on_buffer stack (utoa n); dripdbg_add_list junk b buf size) s = Ok ((b1, size1), s)) as E1'.
    { mrun (on_buffer_ok _ _ _ _ s Eo). by rewrite Ho. }
    mrun E1'. destruct (IH b1 size1 _ s Hb1) as (b2 & size2 & E2 & Hb2). exists b2, size2. split; [done|].
    unfold numbers in *. cbn [map concat]. by rewrite app_assoc.
Qed.

(** ** Answers *)

Lemma write_buf_ok buffer n w : (n ≤ length buffer)%nat →
  serial_write_buf buffer (Z.of_nat n) w = Ok (tt, mk_serial (com1 w ++ take n buffer) (log_lock w)).
Proof.
  intros Hn. unfold serial_write_buf. rewrite Nat2Z.id.
  destruct (for_loop_inv (λ i t, t = mk_serial (com1 w ++ take (Z.to_nat i) buffer) (log_lock w)) (λ i, c ← of_opt (idx buffer i); write_serial c) n 0 w) as (t & E & ->).
  - cbn. rewrite app_nil_r. by destruct w.
  - intros i t Hi ->. destruct (idx_lt buffer i) as [c Hc]; [unfold zlen; lia|]. eexists. rewrite Hc. cbn [of_opt]. mstep. split; [reflexivity|].
    apply idx_Some in Hc as [_ Hc]. cbn [com1 log_lock]. replace (Z.to_nat (i + 1)) with (S (Z.to_nat i)) by lia.
    by rewrite (take_S_r _ _ _ Hc), app_assoc.
  - rewrite E. do 4 f_equal. f_equal. lia.
Qed.

Lemma send_ok d r2 stack s : text_ok d →
  dripdbg_send (d ++ 0 :: r2) stack s = Ok (tt, s <| dg_serial := mk_serial (com1 (dg_serial s) ++ d ++ EOM) (log_lock (dg_serial s)) |>).
Proof.
  intros Hd. unfold dripdbg_send. mrun (on_buffer_ok _ _ _ _ s (strlen_ok0 d r2 Hd)).
  set (room := take _ (stack ++ _)). assert (length room = (length d + 5)%nat) as Hl.
  { unfold room. rewrite length_take, length_app, length_replicate. unfold zlen. lia. }
  pose proof (strcat_ok [] room d r2 ltac:(constructor) Hd ltac:(lia)) as E1. cbn [app] in E1. mrun (on_buffer_ok _ _ _ _ s E1).
  pose proof (strcat_ok d (drop (length d) room) EOM [] Hd ltac:(by repeat constructor) ltac:(rewrite length_drop; cbn; lia)) as E2.
  mrun (on_buffer_ok _ _ _ _ s E2). rewrite drop_drop. set (out := (d ++ EOM) ++ _).
  assert (take (length d + 5) out = d ++ EOM) as Et by (unfold out; rewrite take_app_le by (rewrite length_app; cbn; lia); apply take_ge; rewrite length_app; cbn; lia).
  replace (zlen d + 5) with (Z.of_nat (length d + 5)) by (unfold zlen; lia). unfold dbg_serial.
  erewrite (zoom_ok dg_serial (λ t s, s <| dg_serial := t |>)); [|apply write_buf_ok].
  - by rewrite Et.
  - unfold out. rewrite !length_app. cbn. lia.
Qed.

(** The first byte that arrives: before the length is looked at, [strcmp] reads four bytes in front of the buffer. *)
Lemma first_byte_faults stack s data bytes : dg_in s = data :: bytes → debug_worker junk stack s = Crash Fault.
Proof. intros E. unfold debug_worker. mstep. rewrite E. reflexivity. Qed.

(** The commands [I] and [c] for a thread in the table. *)
Lemma send_thread_info_ok stack c tid rest values a t s : is_u64 tid → (21 ≤ length stack)%nat → unlocked (sched_lock (dg_kern s)) →
  idx (threads (dg_kern s)) tid = Some a → theap (dg_kern s) !! a = Some t → Forall is_u64 (values t) →
  send_thread_info junk stack (c :: decimal tid ++ 0 :: rest) values s =
    Ok (tt, s <| dg_serial := mk_serial (com1 (dg_serial s) ++ numbers (values t) ++ EOM) (log_lock (dg_serial s)) |>).
Proof.
  intros Htid Hst Hl Ha Ht Hv. unfold send_thread_info. cbn [drop].
  mrun (on_buffer_ok _ _ _ _ s (atou_ok (decimal tid) rest (decimal_digits tid))). rewrite decimal_value, u64_small by done.
  set (k := dg_kern s <| sched_lock := Z.lor (sched_lock (dg_kern s)) 1 |>). set (s1 := s <| dg_kern := k |>).
  assert (dbg_kern sched_acquire s = Ok (tt, s1)) as E1 by (apply (zoom_ok dg_kern (λ k s, s <| dg_kern := k |>)); by apply sched_acquire_ok).
  assert (dbg_kern (thread_slot tid) s1 = Ok (a, s1)) as E2.
  { unfold dbg_kern. erewrite (zoom_ok dg_kern (λ k s, s <| dg_kern := k |>)); [done|]. unfold thread_slot. mstep. change (threads (dg_kern s1)) with (threads (dg_kern s)). by rewrite Ha. }
  assert (dbg_kern (thread_at a) s1 = Ok (t, s1)) as E3.
  { unfold dbg_kern. erewrite (zoom_ok dg_kern (λ k s, s <| dg_kern := k |>)); [done|]. by apply thread_at_ok. }
  mrun E1. mrun E2. mrun E3.
  assert (str_block (kcalloc_str junk 1) 1 []) as Hb.
  { split_and!; [by apply (kcalloc_block_ok 0 1 junk)|done|constructor|done|by eexists]. }
  destruct (add_ints_ok stack (values t) Hst Hv _ _ _ s1 Hb) as (b & size & E4 & Hb'). mrun E4. cbn [app] in Hb'.
  assert (dbg_kern sched_release s1 = Ok (tt, s)) as E5.
  { unfold dbg_kern. erewrite (zoom_ok dg_kern (λ k s, s <| dg_kern := k |>)); [|reflexivity].
    unfold s1, k. destruct s as [k0 ? ? ? ?]. cbn in *. do 3 f_equal. destruct k0. cbn in *. by rewrite lock_unlock. }
  mrun E5. destruct Hb' as (_ & _ & Hd & _ & r & Er). rewrite Er. by apply send_ok.
Qed.

(** A message for the registers of a thread is answered with all of them: exactly the numbers, in decimal and in the order of the
    protocol, and the end mark; nothing else changes, and the scheduler's lock is free again. *)
Theorem register_answer stack tid rest a t s : is_u64 tid → (21 ≤ length stack)%nat → unlocked (sched_lock (dg_kern s)) →
  idx (threads (dg_kern s)) tid = Some a → theap (dg_kern s) !! a = Some t → Forall is_u64 (reg_values t) →
  handle junk stack (73 :: decimal tid ++ 0 :: rest) s =
    Ok (tt, s <| dg_serial := mk_serial (com1 (dg_serial s) ++ numbers (reg_values t) ++ EOM) (log_lock (dg_serial s)) |>) ∧
  Forall (λ n, dvalue (decimal n) = n) (reg_values t).
Proof.
  intros Htid Hst Hl Ha Ht Hv. split; [|eapply Forall_impl; [exact Hv|exact decimal_value]].
  unfold handle. mrun (on_buffer_ok _ _ _ _ s (ld_0 73 (decimal tid ++ 0 :: rest))). by apply (send_thread_info_ok stack 73 tid rest reg_values a t s).
Qed.
End dbg.

(** A command that names an empty slot of the table faults, with the lock held. *)
Lemma no_thread_faults stack s : (21 ≤ length stack)%nat → threads (dg_kern s) = [0] → theap (dg_kern s) !! 0 = None →
  unlocked (sched_lock (dg_kern s)) → handle (λ _, []) stack [73; 48; 0] s = Crash Fault.
Proof.
  intros _ Ht Hh Hl. unfold handle. mrun (on_buffer_ok [73; 48; 0] _ _ _ s (ld_0 73 [48; 0])). cbn [Z.eqb Pos.eqb]. unfold send_thread_info. cbn [drop].
  assert (atou [48; 0] = Ok (0, [48; 0])) as Ea by reflexivity. mrun (on_buffer_ok _ _ _ _ s Ea).
  set (k := dg_kern s <| sched_lock := Z.lor (sched_lock (dg_kern s)) 1 |>). set (s1 := s <| dg_kern := k |>).
  assert (dbg_kern sched_acquire s = Ok (tt, s1)) as E1 by (apply (zoom_ok dg_kern (λ k s, s <| dg_kern := k |>)); by apply sched_acquire_ok).
  assert (dbg_kern (thread_slot 0) s1 = Ok (0, s1)) as E2.
  { unfold dbg_kern. erewrite (zoom_ok dg_kern (λ k s, s <| dg_kern := k |>)); [done|]. unfold thread_slot. mstep. change (threads (dg_kern s1)) with (threads (dg_kern s)). by rewrite Ht. }
  mrun E1. mrun E2. apply bind_crash. unfold dbg_kern, zoom, thread_at. mstep. change (theap (dg_kern s1)) with (theap (dg_kern s)). by rewrite Hh.
Qed.
