(* ===== verification/IpcCalls.v ===== *)
(** * The system calls and the kernel's server of IPC (proc/syscalls.c, drivers/vesa.c)

    The meeting of client and server is the step relation of Ipc.v; here its
    outcome is an argument: [exchange] is [read_ipc_server] and
    [write_ipc_server], which give back the error for [rdx], and [wait_ipc] gives
    the handle a request was left in.  The handles are a heap of their own; the
    memory of the caller is that of the kernel state, at its own addresses.
    [upper] is the half of a [union ipc_err] that the code does not set. *)

From S2P Require Import Prelude Locks Bytes Format Blocks Pmm Frames Vmm DList Vfs Kernel Stack Proc Sched SleepQueue Fd UserMemory KeyMap ProcCalls Syscalls Urm Ipc Buffers Elf Launch Screen UserMemoryTheorems.

Definition IPC_OPERATION_NOT_SUPPORTED : Z := 5.
Definition IPC_BUFFER_INVALID : Z := 4.
Definition IPC_BUFFER_TOO_SMALL : Z := 3.

Record ipc_handle_t : Type := mk_handle {
  ih_pid : Z;
  ih_buffer : Z;
  ih_size : Z;
  ih_operation_type : Z;
  ih_err : Z;
  ih_completed : Z
}.
#[export] Instance eta_ipc_handle_t : Eta ipc_handle_t :=
  λ r, mk_handle (ih_pid r) (ih_buffer r) (ih_size r) (ih_operation_type r) (ih_err r) (ih_completed r).

Record ipc_call_st (F : Type) : Type := mk_ipc_call { iu : user_st F; hheap : gmap Z ipc_handle_t }.
Arguments mk_ipc_call {F} _ _.
Arguments iu {F} _.
Arguments hheap {F} _.
#[export] Instance eta_ipc_call_st F : Eta (ipc_call_st F) := λ r, mk_ipc_call (iu r) (hheap r).

(** [syscall_ipc_handle_t] is packed: the handle, the process, the buffer, its size, the operation, the error. *)
Definition SIZEOF_IPC_HANDLE : Z := 32.
Definition SIZEOF_VESA_AREA : Z := 32.

(** The number of pages of a buffer of [size] bytes, in the arithmetic of [int]. *)
Definition int_pages (size : Z) : Z := Z.quot (s32 (size + 4096 - 1)) 4096.

Section calls.
Context {F : Type} `{!FrameAlloc F}.
Abbreviation iM := (stM (ipc_call_st F)).
Context (exchange : Z → Z → Z → Z → Z → iM Z) (wait_ipc : Z → iM Z) (upper : Z).

Definition on_iu {A} (m : stM (user_st F) A) : iM A := zoom iu (λ u s, s <| iu := u |>) m.
Definition handle_at (a : Z) : iM ipc_handle_t := s ← get; of_opt (hheap s !! a).
Definition upd_handle (a : Z) (f : ipc_handle_t → ipc_handle_t) : iM unit :=
  h ← handle_at a; modify (λ s, s <| hheap := <[a := f h]> (hheap s) |>).

(** [memcpy] between two places of memory. *)
Definition copy_bytes (src dst n : Z) : kM unit :=
  modify (λ k, k <| kmem := store_bytes (kmem k) dst (load_bytes (kmem k) src (Z.to_nat n)) |>).
Definition write_bytes (dst : Z) (l : list Z) : kM unit := modify (λ k, k <| kmem := store_bytes (kmem k) dst l |>).

(** [kcalloc(size)] for an [int]: a negative size gives two pages, and clearing them runs into the page behind. *)
Definition kcalloc_int (size : Z) : stM (user_st F) Z := if size <? 0 then crashM Fault else kcalloc_bytes size.

Definition buffer_invalid : Z := IPC_BUFFER_INVALID + 4294967296 * upper.

Definition syscall_ipc_read (r : syscall_reg_t) : iM syscall_reg_t :=
  let size := s32 (s_rbx r) in
  m ← on_iu (on_vm (range_mapped (s_rdx r) (u64 size)));
  if m =? 0 then mret (r <| s_rdx := buffer_invalid |>)
  else
    buffer ← on_iu (kcalloc_int size);
    let userspace_addr := s_rdx r in
    err ← exchange IPC_OPERATION_READ (s32 (s_rdi r)) (s32 (s_rsi r)) buffer size;
    on_iu (on_kern (copy_bytes buffer userspace_addr size)) ;;
    mret (r <| s_rdx := err |>).

Definition syscall_ipc_write (r : syscall_reg_t) : iM syscall_reg_t :=
  let size := s32 (s_rbx r) in
  m ← on_iu (on_vm (range_mapped (s_rdx r) (u64 size)));
  if m =? 0 then mret (r <| s_rdx := buffer_invalid |>)
  else
    buffer ← on_iu (kcalloc_int size);
    on_iu (on_kern (copy_bytes (s_rdx r) buffer size)) ;;
    err ← exchange IPC_OPERATION_WRITE (s32 (s_rdi r)) (s32 (s_rsi r)) buffer size;
    mret (r <| s_rdx := err |>).

Definition assertM (b : bool) : kM unit := if b then mret tt else crashM Panic.

(** The caller's process, with the assertions on the way. *)
Definition caller_process : kM Z :=
  sched_acquire ;;
  pid ← get_cur_pid;
  target_process ← process_slot pid;
  assertM (negb (pid =? 0)) ;;
  cur ← get_cur_process;
  p ← process_at cur;
  assertM (p_pid p =? pid) ;;
  assertM (cur =? target_process) ;;
  assertM (negb (cur =? 0)) ;;
  sched_release ;;
  mret target_process.

(** What the caller finds at [rsi]: the handle's fields, and where its buffer is mapped; the error is not set. *)
Definition user_handle (handle : Z) (h : ipc_handle_t) (map_buffer_addr : Z) : list Z :=
  le_bytes 8 handle ++ le_bytes 4 (u32 (ih_pid h)) ++ le_bytes 8 map_buffer_addr ++ le_bytes 4 (u32 (ih_size h))
  ++ le_bytes 4 (u32 (ih_operation_type h)).

Definition syscall_ipc_wait (r : syscall_reg_t) : iM syscall_reg_t :=
  let r := r <| s_rdx := 0 |> in
  m ← on_iu (on_vm (range_mapped (s_rsi r) SIZEOF_IPC_HANDLE));
  if m =? 0 then mret (r <| s_rdx := EFAULT |>)
  else
    handle ← wait_ipc (s32 (s_rdi r));
    let r := if handle =? 0 then r <| s_rdx := EINVAL |> else r in
    target_process ← on_iu (on_kern caller_process);
    on_iu (on_kern (brk_acquire target_process)) ;;
    p ← on_iu (on_kern (process_at target_process));
    let map_buffer_addr := current_brk p in
    h ← handle_at handle;
    on_iu (on_kern (upd_process target_process (λ p, p <| current_brk := u64 (current_brk p + s32 (int_pages (ih_size h) * 4096)) |>))) ;;
    on_iu (on_kern (brk_release target_process)) ;;
    on_iu (on_vm (vmm_map (GET_LOWER_HALF (ih_buffer h)) map_buffer_addr (u64 (int_pages (ih_size h))) USER_PERMS)) ;;
    on_iu (on_kern (write_bytes (s_rsi r) (user_handle handle h map_buffer_addr))) ;;
    mret r.

Definition syscall_ipc_handling_complete (r : syscall_reg_t) : iM syscall_reg_t :=
  let r := r <| s_rdx := 0 |> in
  m ← on_iu (on_vm (range_mapped (s_rdi r) SIZEOF_IPC_HANDLE));
  if m =? 0 then mret (r <| s_rdx := EFAULT |>)
  else
    b ← on_iu (on_kern (bytes_at (s_rdi r) SIZEOF_IPC_HANDLE));
    let original_buffer := fld 0 8 b in
    upd_handle original_buffer (λ h, h <| ih_err := s32 (fld 28 4 b) |>) ;;
    upd_handle original_buffer (λ h, h <| ih_size := s32 (fld 20 4 b) |>) ;;
    h ← handle_at original_buffer;
    on_iu (on_kern (trigger_event (ih_completed h))) ;;
    mret r.

(** [kill_process(get_cur_pid())] and [kill_task(get_cur_thread()->tid)]: the request that is sent; they do not return. *)
Definition syscall_exit : kM request := pid ← get_cur_pid; kill_process pid.
Definition syscall_exit_thread : kM request := c ← get_cur_thread; t ← thread_at c; kill_task (t_tid t).

(** ** The server of the screen *)

(** One request; [info] and [fb] are the display's sizes and the address of its memory. *)
Definition vesa_serve (info : vesa_info_t) (fb : Z) : iM unit :=
  handle ← wait_ipc 1;
  h ← handle_at handle;
  if ih_operation_type h =? IPC_OPERATION_READ then
    if u64 (ih_size h) <? SIZEOF_VESA_AREA then
      upd_handle handle (λ h, h <| ih_err := IPC_BUFFER_TOO_SMALL |>) ;;
      upd_handle handle (λ h, h <| ih_size := SIZEOF_VESA_AREA |>) ;;
      on_iu (on_kern (trigger_event (ih_completed h)))
    else
      on_iu (on_kern sched_acquire) ;;
      target_process ← on_iu (on_kern (process_slot (ih_pid h)));
      on_iu (on_kern sched_release) ;;
      let pages := u64 (framebuffer_size info + 4096 - 1) / 4096 in
      map_framebuffer_addr ← on_iu (on_kern (take_brk target_process pages));
      p ← on_iu (on_kern (process_at target_process));
      on_iu (on_vm (vmm_map_pages (GET_LOWER_HALF fb) map_framebuffer_addr (p_cr3 p) pages USER_PERMS)) ;;
      on_iu (on_vm (vmm_set_pat_pages map_framebuffer_addr (p_cr3 p) pages 1)) ;;
      on_iu (on_kern (write_bytes (ih_buffer h) (le_bytes 8 map_framebuffer_addr ++ le_bytes 8 (width info) ++ le_bytes 8 (height info)
        ++ le_bytes 8 (pitch info)))) ;;
      on_iu (on_kern (trigger_event (ih_completed h)))
  else
    upd_handle handle (λ h, h <| ih_err := IPC_OPERATION_NOT_SUPPORTED |>) ;;
    on_iu (on_kern (trigger_event (ih_completed h))).
End calls.

(** A kernel thread of process 0. *)
Definition setup_ipc_servers {F} `{!FrameAlloc F} (default_sse_state vesa_ipc_server : Z) : stM (user_st F) Z :=
  stack ← kcalloc_bytes TASK_STACK_SIZE;
  vesa_ipc ← on_kern (create_thread default_sse_state (CString.chars "VESA IPC server") vesa_ipc_server (stack + TASK_STACK_SIZE) 0);
  add_child_thread vesa_ipc 0.

(** ** Theorems about the system calls of IPC *)

Lemma s32_u32 x : -2147483648 ≤ x < 2147483648 → s32 (u32 x) = x.
Proof.
  intros Hx. unfold s32, u32. rewrite Z.mod_mod by lia. destruct (decide (0 ≤ x)).
  - rewrite Z.mod_small by lia. by rewrite (proj2 (Z.ltb_lt _ _)) by lia.
  - rewrite <-(Z.mod_add _ 1) by lia. rewrite Z.mod_small by lia. rewrite (proj2 (Z.ltb_ge _ _)) by lia. lia.
Qed.

Section calls.
Context {F : Type} `{!FrameAlloc F}.
Implicit Types s : ipc_call_st F.

(** The fields of the structure in the server's memory, once the server has set the error. *)
Lemma user_handle_fields a h addr err : is_u64 a → is_u64 addr → -2147483648 ≤ ih_size h < 2147483648 → -2147483648 ≤ ih_pid h < 2147483648 →
  -2147483648 ≤ err < 2147483648 → let b := user_handle a h addr ++ le_bytes 4 (u32 err) in
  fld 0 8 b = a ∧ s32 (fld 8 4 b) = ih_pid h ∧ fld 12 8 b = addr ∧ s32 (fld 20 4 b) = ih_size h ∧ s32 (fld 28 4 b) = err.
Proof.
  intros Ha Hd Hs Hp He b. unfold fld, b, user_handle. rewrite <-!app_assoc.
  assert (∀ x, 0 ≤ u32 x < 256 ^ Z.of_nat 4) as H4 by (intros x; apply Z.mod_pos_bound; lia).
  assert (∀ n v, zlen (le_bytes n v) = Z.of_nat n) as Hz by (intros; unfold zlen; by rewrite le_bytes_length).
  assert (∀ off n v pre w post, zlen pre = off → n = Z.of_nat w → slice (pre ++ le_bytes w v ++ post) off n = le_bytes w v) as Hm.
  { intros off n v pre w post Hpre ->. apply slice_mid; [done|apply Hz]. }
  set (l0 := le_bytes 8 a). set (l1 := le_bytes 4 (u32 (ih_pid h))). set (l2 := le_bytes 8 addr). set (l3 := le_bytes 4 (u32 (ih_size h))).
  set (l4 := le_bytes 4 (u32 (ih_operation_type h))). set (l5 := le_bytes 4 (u32 err)).
  assert (zlen l0 = 8 ∧ zlen l1 = 4 ∧ zlen l2 = 8 ∧ zlen l3 = 4 ∧ zlen l4 = 4) as (Z0 & Z1 & Z2 & Z3 & Z4) by (unfold l0, l1, l2, l3, l4; rewrite !Hz; lia).
  split_and!.
  - change (l0 ++ l1 ++ l2 ++ l3 ++ l4 ++ l5) with ([] ++ l0 ++ l1 ++ l2 ++ l3 ++ l4 ++ l5). unfold l0. rewrite Hm by done.
    apply le_word_bytes. unfold is_u64 in Ha. change (256 ^ Z.of_nat 8) with U64_MOD. done.
  - unfold l1. rewrite Hm by done. rewrite le_word_bytes by apply H4. by apply s32_u32.
  - replace (l0 ++ l1 ++ l2 ++ l3 ++ l4 ++ l5) with ((l0 ++ l1) ++ l2 ++ l3 ++ l4 ++ l5) by by rewrite <-!app_assoc.
    unfold l2. rewrite Hm by (rewrite ?zlen_app; lia). apply le_word_bytes. unfold is_u64 in Hd. change (256 ^ Z.of_nat 8) with U64_MOD. done.
  - replace (l0 ++ l1 ++ l2 ++ l3 ++ l4 ++ l5) with ((l0 ++ l1 ++ l2) ++ l3 ++ l4 ++ l5) by by rewrite <-!app_assoc.
    unfold l3. rewrite Hm by (rewrite ?zlen_app; lia). rewrite le_word_bytes by apply H4. by apply s32_u32.
  - replace (l0 ++ l1 ++ l2 ++ l3 ++ l4 ++ l5) with ((l0 ++ l1 ++ l2 ++ l3 ++ l4) ++ l5 ++ []) by by rewrite app_nil_r, <-!app_assoc.
    unfold l5. rewrite Hm by (rewrite ?zlen_app; lia). rewrite le_word_bytes by apply H4. by apply s32_u32.
Qed.

Lemma on_iu_kern {A} (m : kM A) s a k : m (kern (iu s)) = Ok (a, k) → on_iu (on_kern m) s = Ok (a, s <| iu := iu s <| kern := k |> |>).
Proof. intros E. unfold on_iu. by apply (zoom_ok iu (λ u s, s <| iu := u |>)), on_kern_ok. Qed.
Lemma on_iu_vm {A} (m : stM (vmm_state F) A) s a v : m (vm (iu s)) = Ok (a, v) → on_iu (on_vm m) s = Ok (a, s <| iu := iu s <| vm := v |> |>).
Proof. intros E. unfold on_iu. by apply (zoom_ok iu (λ u s, s <| iu := u |>)), on_vm_ok. Qed.

Lemma handle_at_ok s a h : hheap s !! a = Some h → handle_at a s = Ok (h, s).
Proof. intros Hh. unfold handle_at. mstep. by rewrite Hh. Qed.
Lemma upd_handle_ok s a h f : hheap s !! a = Some h → upd_handle a f s = Ok (tt, s <| hheap := <[a := f h]> (hheap s) |>).
Proof. intros Hh. unfold upd_handle. by mrun (handle_at_ok s a h Hh). Qed.

(** The answer of a server: when it gives back the structure [syscall_ipc_wait] wrote for the handle [h] at [a], with an
    error of its own, the client finds that error in its handle, with the size unchanged, and its event triggered once. *)
Theorem ipc_answer_correct r s a h addr err w m : is_u64 a → is_u64 addr → -2147483648 ≤ ih_size h < 2147483648 → -2147483648 ≤ ih_pid h < 2147483648 →
  -2147483648 ≤ err < 2147483648 → range_mapped (s_rdi r) SIZEOF_IPC_HANDLE (vm (iu s)) = Ok (m, vm (iu s)) → m ≠ 0 →
  load_bytes (kmem (kern (iu s))) (s_rdi r) 32 = user_handle a h addr ++ le_bytes 4 (u32 err) →
  hheap s !! a = Some h → events (kern (iu s)) !! ih_completed h = Some w →
  ∃ s', syscall_ipc_handling_complete r s = Ok (r <| s_rdx := 0 |>, s') ∧ hheap s' = <[a := h <| ih_err := err |>]> (hheap s) ∧
    events (kern (iu s')) = <[ih_completed h := snd (atomic_inc w)]> (events (kern (iu s))) ∧ vm (iu s') = vm (iu s).
Proof.
  intros Ha Hd Hs Hp He Hm Hm0 Hb Hh Hw. destruct (user_handle_fields a h addr err Ha Hd Hs Hp He) as (E0 & _ & _ & E20 & E28).
  unfold syscall_ipc_handling_complete. cbn zeta. change (s_rdi (r <| s_rdx := 0 |>)) with (s_rdi r). mrun (on_iu_vm _ _ _ _ Hm).
  rewrite (proj2 (Z.eqb_neq m 0) Hm0). assert (s <| iu := iu s <| vm := vm (iu s) |> |> = s) as -> by (by destruct s as [[k v] x]).
  erewrite bind_ok by (apply on_iu_kern; reflexivity). cbv beta. change (Z.to_nat SIZEOF_IPC_HANDLE) with 32%nat. rewrite Hb, E0, E20, E28.
  assert (s <| iu := iu s <| kern := kern (iu s) |> |> = s) as -> by (by destruct s as [[k v] x]).
  set (h1 := h <| ih_err := err |>). set (s1 := s <| hheap := <[a := h1]> (hheap s) |>).
  assert (upd_handle a (λ h, h <| ih_err := err |>) s = Ok (tt, s1)) as Eu1 by exact (upd_handle_ok _ _ _ _ Hh).
  assert (upd_handle a (λ h, h <| ih_size := ih_size h1 |>) s1 = Ok (tt, s1)) as Eu2.
  { rewrite (upd_handle_ok _ a h1) by exact (lookup_insert_eq _ _ _). cbv beta.
    assert (h1 <| ih_size := ih_size h1 |> = h1) as -> by (unfold h1; by destruct h).
    assert (<[a := h1]> (hheap s1) = hheap s1) as -> by exact (insert_insert_eq _ _ _ _). unfold s1. by destruct s. }
  mrun Eu1. change (ih_size h) with (ih_size h1). mrun Eu2.
  assert (handle_at a s1 = Ok (h1, s1)) as Eh by (apply handle_at_ok; exact (lookup_insert_eq _ _ _)). mrun Eh.
  assert (trigger_event (ih_completed h1) (kern (iu s1)) = Ok (tt, kern (iu s1) <| events := <[ih_completed h := snd (atomic_inc w)]> (events (kern (iu s1))) |>)) as Et.
  { unfold trigger_event. assert (event_word (ih_completed h1) (kern (iu s1)) = Ok (w, kern (iu s1))) as Ew.
    { unfold event_word. mstep. change (events (kern (iu s1)) !! ih_completed h1) with (events (kern (iu s)) !! ih_completed h). by rewrite Hw. }
    by mrun Ew. }
  erewrite bind_ok by (apply on_iu_kern; exact Et). cbv beta. eexists. split; [reflexivity|]. by split_and!.
Qed.

Lemma on_iu_heap A (m : stM (user_st F) A) t x t' : on_iu m t = Ok (x, t') → hheap t' = hheap t.
Proof. unfold on_iu, zoom. destruct (m (iu t)) as [[? ?]|]; [|done]. by intros [= _ <-]. Qed.

(** Waiting on a port without a handle: the error is noted, and then the null handle is used. *)
Lemma wait_without_handle_fails wait_ipc r s m v s1 : range_mapped (s_rsi r) SIZEOF_IPC_HANDLE (vm (iu s)) = Ok (m, v) → m ≠ 0 →
  wait_ipc (s32 (s_rdi r)) (s <| iu := iu s <| vm := v |> |>) = Ok (0, s1) → hheap s1 !! 0 = None →
  ∀ res, syscall_ipc_wait wait_ipc r s ≠ Ok res.
Proof.
  intros Hm Hm0 Hw Hn [r' s']. unfold syscall_ipc_wait. cbn zeta. change (s_rsi (r <| s_rdx := 0 |>)) with (s_rsi r).
  change (s_rdi (r <| s_rdx := 0 |>)) with (s_rdi r). mrun (on_iu_vm _ _ _ _ Hm). rewrite (proj2 (Z.eqb_neq m 0) Hm0). mrun Hw.
  intros H2. do 3 (apply bind_inv in H2 as (? & ? & Hx & H2); apply on_iu_heap in Hx; rewrite <-Hx in Hn; clear Hx).
  apply bind_inv in H2 as (h & t & Hx & _). unfold handle_at in Hx. apply bind_inv in Hx as (t1 & t2 & [= <- <-] & Hx). by rewrite Hn in Hx.
Qed.

(** A successful request to the screen's server leaves the error of an earlier one in the handle: the client is told that it failed. *)
Lemma vesa_error_kept wait_ipc info fb s a h s1 s2 : wait_ipc 1 s = Ok (a, s1) → hheap s1 !! a = Some h → ih_operation_type h = IPC_OPERATION_READ →
  SIZEOF_VESA_AREA ≤ u64 (ih_size h) → vesa_serve wait_ipc info fb s = Ok (tt, s2) → hheap s2 = hheap s1.
Proof.
  intros Hwait Hh Hop Hsz. unfold vesa_serve. mrun Hwait. assert (handle_at a s1 = Ok (h, s1)) as E by by apply handle_at_ok. mrun E.
  rewrite Hop. cbn [Z.eqb IPC_OPERATION_READ]. rewrite (proj2 (Z.ltb_ge _ _)) by done.
  intros H2. repeat (apply bind_inv in H2 as (? & ? & Hx & H2); apply on_iu_heap in Hx; rewrite <-Hx; clear Hx). by apply on_iu_heap in H2.
Qed.
End calls.
