(* ===== verification/Smp.v ===== *)
(** * Starting the other processors (sys/smp.c, proc/scheduler.c, io/msr.c)

    The first processor leaves what a new one needs in a mailbox at the physical
    address 0x500, and sends it the interrupts that make it run the trampoline.
    [reply c n] is what processor [c] has left in the mailbox's flag some time
    after the [n]-th attempt (0 when it is silent), and [finishes c] whether it
    gets to the end of [smp_entry_point].  Every interrupt is logged with the
    mailbox at that moment.  Then the entry point of a new processor, with the
    scheduler's set-up, and the interrupts that drive the other processors'
    schedulers. *)

From S2P Require Import Prelude Locks Pmm Frames Bytes CString Blocks Vfs Vmm DList Kernel Stack Proc Sched SleepQueue Ps2 KeyMap Interrupts UserMemory VmmTree VmmSpec VmmTheorems Kmalloc KmallocTheorems UserMemoryTheorems Spaces Buffers Tss Apic.

(** The fields at 0x500, 0x510, ... *)
Record mailbox : Type := mk_mailbox {
  mb_flag : Z;
  mb_cr3 : Z;
  mb_gdt32 : list Z;
  mb_gdt64 : list Z;
  mb_stack : Z;
  mb_entry : Z;
  mb_index : Z
}.
#[export] Instance eta_mailbox : Eta mailbox :=
  λ r, mk_mailbox (mb_flag r) (mb_cr3 r) (mb_gdt32 r) (mb_gdt64 r) (mb_stack r) (mb_entry r) (mb_index r).
Definition empty_mailbox : mailbox := mk_mailbox 0 0 (replicate 6 0) (replicate 10 0) 0 0 0.

(** ** The first processor *)

Record smp_st (F : Type) : Type := mk_smp {
  sm_user : user_st F;
  sm_mailbox : mailbox;
  sm_ipis : list (Z * Z * mailbox);
  cores_booted : Z
}.
Arguments mk_smp {F} _ _ _ _.
Arguments sm_user {F} _.
Arguments sm_mailbox {F} _.
Arguments sm_ipis {F} _.
Arguments cores_booted {F} _.
#[export] Instance eta_smp_st F : Eta (smp_st F) := λ r, mk_smp (sm_user r) (sm_mailbox r) (sm_ipis r) (cores_booted r).

Definition IPI_INIT : Z := 1280. (* 0x500 *)
Definition IPI_STARTUP : Z := 1537. (* 0x600 | 1 *)
Definition AP_STACK : Z := 16384.

Section launch.
Context {F : Type} `{!FrameAlloc F}.
(** This processor's identifier, the bytes of the trampoline and of the two pointers to the descriptor table, the
    addresses [GDT64] and [long_smp_loaded], and what the other processors do. *)
Context (lapic_id : Z) (trampoline gdt_ptr_32 gdt_ptr_64 : list Z) (GDT64 long_smp_loaded : Z) (reply : Z → Z → Z) (finishes : Z → bool).
Abbreviation sM := (stM (smp_st F)).

Definition on_sm {A} (m : stM (user_st F) A) : sM A := zoom sm_user (λ u s, s <| sm_user := u |>) m.
Definition upd_mailbox (f : mailbox → mailbox) : sM unit := modify (λ s, s <| sm_mailbox := f (sm_mailbox s) |>).

(** [send_ipi], which writes the two halves of the command register. *)
Definition send_boot_ipi (ap ipi_number : Z) : sM unit :=
  modify (λ s, s <| sm_ipis := sm_ipis s ++ [(ap, ipi_number, sm_mailbox s)] |>).

(** Two interrupts, and the time the processor is given. *)
Definition boot_attempt (ap attempt : Z) : sM bool :=
  send_boot_ipi ap IPI_INIT ;;
  send_boot_ipi ap IPI_STARTUP ;;
  upd_mailbox (λ m, m <| mb_flag := reply ap attempt |>) ;;
  s ← get;
  mret ((mb_flag (sm_mailbox s) =? 1) || (mb_flag (sm_mailbox s) =? 2)).

(** [while (flag != 2) nop;] *)
Definition wait_finished (ap : Z) : sM unit :=
  s ← get;
  if mb_flag (sm_mailbox s) =? 2 then mret tt
  else if finishes ap then upd_mailbox (λ m, m <| mb_flag := 2 |>) else crashM Hang.

Definition booted (ap : Z) : sM unit :=
  modify (λ s, s <| cores_booted := u8 (cores_booted s + 1) |>) ;; wait_finished ap.

Definition fill_mailbox (i : Z) : sM unit :=
  upd_mailbox (λ _, empty_mailbox) ;;
  base ← on_sm (on_vm vmm_get_base);
  upd_mailbox (λ m, m <| mb_cr3 := u32 base |>) ;;
  upd_mailbox (λ m, m <| mb_gdt32 := gdt_ptr_32 |>) ;;
  upd_mailbox (λ m, m <| mb_gdt64 := gdt_ptr_64 |>) ;;
  stack ← on_sm (kmalloc_bytes AP_STACK);
  upd_mailbox (λ m, m <| mb_stack := u64 (stack + AP_STACK) |>) ;;
  upd_mailbox (λ m, m <| mb_entry := long_smp_loaded |>) ;;
  upd_mailbox (λ m, m <| mb_index := u8 i |>).

Definition launch_cpu (i : Z) (cpu : madt_ent0_t) : sM unit :=
  if negb (apic_id cpu =? lapic_id) && awake cpu then
    fill_mailbox i ;;
    ok ← boot_attempt (apic_id cpu) 0;
    if ok : bool then booted (apic_id cpu)
    else
      ok ← boot_attempt (apic_id cpu) 1;
      if ok : bool then booted (apic_id cpu) else mret tt
  else mret tt.

Fixpoint launch_loop (i : Z) (cpus : list madt_ent0_t) : sM unit :=
  match cpus with
  | [] => mret tt
  | cpu :: cpus' => launch_cpu i cpu ;; launch_loop (i + 1) cpus'
  end.

Definition code_pages : Z := 1 + (u64 (zlen trampoline + 4096 - 1)) / 4096.

Definition launch_cpus (cpus : list madt_ent0_t) : sM unit :=
  on_sm (on_kern (modify (λ k, k <| kmem := store_bytes (kmem k) (4096 + NORMAL_VMA_OFFSET) trampoline |>))) ;;
  upd_mailbox (λ _, empty_mailbox) ;;
  on_sm (on_vm (vmm_remap 0 0 code_pages (Z.lor VMM_WRITE VMM_PRESENT))) ;;
  on_sm (on_vm (vmm_map (u64 (GDT64 - KERNEL_VMA_OFFSET)) (u64 (GDT64 - KERNEL_VMA_OFFSET)) 1 (Z.lor VMM_WRITE VMM_PRESENT))) ;;
  launch_loop 0 cpus ;;
  on_sm (on_vm (vmm_unmap 0 code_pages)) ;;
  on_sm (on_vm (vmm_unmap (u64 (GDT64 - KERNEL_VMA_OFFSET)) 1)) ;;
  mret tt.
End launch.

(** ** A new processor *)

(** Model specific registers. *)
Definition MSR_EFER : Z := 3221225600.
Definition MSR_STAR : Z := 3221225601.
Definition MSR_LSTAR : Z := 3221225602.
Definition MSR_FMASK : Z := 3221225604.
Definition MSR_GS_BASE : Z := 3221225729.

(** The processor's registers, the memory manager, its segment, its interrupt controller, and the table of all [cpu_locals_t]. *)
Record ap_st (F M D : Type) : Type := mk_ap {
  ap_int : int_st;
  ap_vm : vmm_state F;
  ap_msrs : gmap Z Z;
  ap_tss : tss_st;
  ap_apic : apic_st D;
  ap_mailbox : mailbox;
  ap_apic_id : Z;
  cpu_locals_list : option M
}.
Arguments mk_ap {F M D} _ _ _ _ _ _ _ _.
Arguments ap_vm {F M D} _.
Arguments ap_int {F M D} _.
Arguments ap_msrs {F M D} _.
Arguments ap_tss {F M D} _.
Arguments ap_apic {F M D} _.
Arguments ap_mailbox {F M D} _.
Arguments ap_apic_id {F M D} _.
Arguments cpu_locals_list {F M D} _.
#[export] Instance eta_ap_st F M D : Eta (ap_st F M D) :=
  λ r, mk_ap (ap_int r) (ap_vm r) (ap_msrs r) (ap_tss r) (ap_apic r) (ap_mailbox r) (ap_apic_id r) (cpu_locals_list r).

(** [offsetof(cpu_locals_t, tss)] *)
Definition TSS_OFFSET : Z := 4234.

Section processor.
Context {F M D : Type} `{!FrameAlloc F} `{KeyMap M} (tsc_at : nat → Z) (default_sse_state lapic_id syscall_stub idle idt_base : Z) (isr : Z → Z).
Abbreviation pM := (stM (ap_st F M D)).

Definition ap_kernel {A} (m : kM A) : pM A :=
  zoom (λ s, ik (ap_int s)) (λ k s, s <| ap_int := ap_int s <| ik := k |> |>) m.
Definition ap_user {A} (m : stM (user_st F) A) : pM A :=
  zoom (λ s, mk_user (ik (ap_int s)) (ap_vm s)) (λ u s, s <| ap_int := ap_int s <| ik := kern u |> |> <| ap_vm := vm u |>) m.
Definition ap_on_int {A} (m : stM int_st A) : pM A := zoom ap_int (λ i s, s <| ap_int := i |>) m.
Definition ap_on_tss {A} (m : stM tss_st A) : pM A := zoom ap_tss (λ t s, s <| ap_tss := t |>) m.
Definition ap_on_apic {A} (m : stM (apic_st D) A) : pM A := zoom ap_apic (λ t s, s <| ap_apic := t |>) m.

(** The halves that the instructions take and give make up the number. *)
Definition read_msr (msr : Z) : pM Z := gets (λ s, default 0 (ap_msrs s !! msr)).
Definition write_msr (msr data : Z) : pM unit := modify (λ s, s <| ap_msrs := <[msr := data]> (ap_msrs s) |>).

Definition new_cpu_locals : pM Z :=
  s ← get;
  (match cpu_locals_list s with None => modify (λ s, s <| cpu_locals_list := Some km_new |>) | Some _ => mret tt end) ;;
  new_locals ← ap_kernel kalloc;
  ap_kernel (upd_locals (λ _, mk_locals 0 0 0 0 0 0 0 0 0 0 0 0 0)) ;;
  modify (λ s, s <| ap_tss := ap_tss s <| tss_pointer := new_locals + TSS_OFFSET |> |>) ;;
  write_msr MSR_GS_BASE new_locals ;;
  mret new_locals.

Definition init_scheduler_msr : pM unit :=
  v ← read_msr MSR_STAR;
  write_msr MSR_STAR (Z.lor v (Z.shiftl 8 32)) ;;
  v ← read_msr MSR_STAR;
  write_msr MSR_STAR (Z.lor v (Z.shiftl 24 48)) ;;
  write_msr MSR_LSTAR syscall_stub ;;
  write_msr MSR_FMASK 0 ;;
  v ← read_msr MSR_EFER;
  write_msr MSR_EFER (Z.lor v 1).

Definition init_sched_cpu_locals : stM (user_st F) unit :=
  stack ← kcalloc_bytes 4096;
  on_kern (new_idle ← create_thread default_sse_state (chars "Idle thread") idle (stack + 4096) 0;
  upd_thread new_idle (λ t, t <| t_state := BLOCKED |>) ;;
  idle_tid_ ← start_thread new_idle;
  upd_locals (λ l, l <| idle_tid := idle_tid_ |>) ;;
  now ← read_tsc tsc_at;
  upd_locals (λ l, l <| idle_start_tsc := now |>) ;;
  upd_locals (λ l, l <| currently_idle := 1 |>) ;;
  now ← read_tsc tsc_at;
  upd_locals (λ l, l <| total_tsc := now |>)).

(** [scheduler_init_bsp] first saves the SSE state in [default_sse_state]. *)
Definition scheduler_init_ap : pM unit := init_scheduler_msr ;; ap_user init_sched_cpu_locals.

(** Until the flag is set; then the processor waits for interrupts. *)
Definition smp_entry_point : pM unit :=
  cpu_locals ← new_cpu_locals;
  modify (λ s, s <| ap_apic_id := lapic_id |>) ;;
  s ← get;
  ap_kernel (upd_locals (λ l, l <| cpu_index := mb_index (ap_mailbox s) |>)) ;;
  index ← ap_kernel (gets (λ k, cpu_index (locals k)));
  s ← get;
  (match cpu_locals_list s with
   | None => crashM Fault
   | Some m =>
       match km_set index cpu_locals m with
       | Ok (_, m') => modify (λ s, s <| cpu_locals_list := Some m' |>)
       | Crash c => crashM c
       end
   end) ;;
  ap_on_tss load_tss ;;
  stack ← ap_user (kmalloc_bytes 4096);
  ap_on_tss (set_panic_stack (stack + 4096)) ;;
  stack ← ap_user (kmalloc_bytes 4096);
  ap_on_tss (set_kernel_stack (stack + 4096)) ;;
  ap_on_apic configure_apic_ap ;;
  scheduler_init_ap ;;
  ap_on_int (configure_idt isr idt_base) ;;
  modify (λ s, s <| ap_mailbox := ap_mailbox s <| mb_flag := 2 |> |>).
End processor.

(** ** Scheduling on all processors *)

Section schedule.
(** [ran i]: the [i]-th processor runs its scheduler on the interrupt. *)
Context (tsc_at : nat → Z) (lapic_id : Z) (ran : Z → bool).

(** [while (!scheduler_ran) pause; scheduler_ran = 0;] *)
Definition wait_ran (i : Z) : iM unit :=
  if ran i then modify (λ s, s <| scheduler_ran := 0 |>) else crashM Hang.

Fixpoint send_sched_loop (i : Z) (l : list madt_ent0_t) : iM unit :=
  match l with
  | [] => mret tt
  | c :: l' =>
      (if awake c && negb (apic_id c =? lapic_id) then send_ipi (apic_id c) (Z.lor (Z.shiftl 1 14) 253) ;; wait_ran i else mret tt) ;;
      send_sched_loop (i + 1) l'
  end.

Definition send_scheduler_ipis : iM unit := s ← get; send_sched_loop 0 (cpu_vector s).

Definition schedule_bsp (r : int_reg_t) : iM int_reg_t := send_scheduler_ipis ;; on_kernel (schedule_runner tsc_at r).
End schedule.

(** ** Theorems about starting the other processors *)

Section launch.
Context {F : Type} `{!FrameAlloc F} `{!FrameAllocLaws F}.
Context (lapic_id : Z) (gdt_ptr_32 gdt_ptr_64 : list Z) (long_smp_loaded : Z) (reply : Z → Z → Z) (finishes : Z → bool).
Implicit Types (s : smp_st F) (v : vmm_state F) (T : tree).

Definition answers (ap attempt : Z) : bool := (reply ap attempt =? 1) || (reply ap attempt =? 2).
(** A processor to be started, and whether it comes up. *)
Definition other (cpu : madt_ent0_t) : bool := negb (apic_id cpu =? lapic_id) && awake cpu.
Definition comes_up (ap : Z) : bool := answers ap 0 || answers ap 1.

(** The mailbox of the processor with index [i] whose stack is the block at [block]: the stack grows down from the block's end. *)
Definition mailbox_for (base i block : Z) : mailbox :=
  mk_mailbox 0 base gdt_ptr_32 gdt_ptr_64 (block + 16384) long_smp_loaded (u8 i).

(** The interrupts one processor gets, with the mailbox at each: both, and both again when it was silent. *)
Definition boot_calls (base i block ap : Z) : list (Z * Z * mailbox) :=
  let m := mailbox_for base i block in let m1 := m <| mb_flag := reply ap 0 |> in
  [(ap, IPI_INIT, m); (ap, IPI_STARTUP, m)] ++ if answers ap 0 then [] else [(ap, IPI_INIT, m1); (ap, IPI_STARTUP, m1)].

(** Those of all of them, with a block for each. *)
Fixpoint boot_log (base i : Z) (cpus : list madt_ent0_t) (blocks : list Z) : list (Z * Z * mailbox) :=
  match cpus with
  | [] => []
  | cpu :: cpus' =>
      if other cpu then
        match blocks with
        | block :: blocks' => boot_calls base i block (apic_id cpu) ++ boot_log base (i + 1) cpus' blocks'
        | [] => []
        end
      else boot_log base (i + 1) cpus' blocks
  end.

(** The processors that are started, and the number of those that come up. *)
Definition others (cpus : list madt_ent0_t) : list madt_ent0_t := List.filter other cpus.
Definition ups (cpus : list madt_ent0_t) : Z := zlen (List.filter (λ c, other c && comes_up (apic_id c)) cpus).

(** The block of 16 KiB after the guard page [p] is memory that was free in [v], is in use in [v'] and mapped there. *)
Record stack_block v v' (p : Z) : Prop := {
  sb_bound : 0 < p ∧ p + 6 ≤ PHYS_PAGES;
  sb_free : ∀ x, in_buffer 16384 p x → fa_used (frames v) ((x - NORMAL_VMA_OFFSET) / PAGE) = false;
  sb_used : ∀ x, in_buffer 16384 p x → fa_used (frames v') ((x - NORMAL_VMA_OFFSET) / PAGE) = true;
  sb_mapped : ∀ x, in_buffer 16384 p x → ∃ fl, translate v' (cr3 v') x = Some (x - NORMAL_VMA_OFFSET, fl)
}.
Definition apart (p q : Z) : Prop := ∀ x, in_buffer 16384 p x → ¬ in_buffer 16384 q x.

(** A block stays what it is when other memory is taken before or after. *)
Lemma block_grew v0 T0 v v' T' v2 T2 p T : heap_grew v0 T0 v T → stack_block v v' p → heap_ok T' v' → heap_grew v' T' v2 T2 → stack_block v0 v2 p.
Proof.
  intros G0 [(B1 & B2) Hf Hu Hm] Hh G. split; [done| |intros x Hx; by apply (hg_used _ _ _ _ G), Hu|].
  - intros x Hx. destruct (fa_used (frames v0) _) eqn:E; [|done]. apply (hg_used _ _ _ _ G0) in E. by rewrite (Hf x Hx) in E.
  - intros x Hx. destruct (Hm x Hx) as [fl Ht]. exists fl. pose proof (hg_regs _ _ _ _ G) as (-> & _). rewrite (hg_walk _ _ _ _ G); [done|].
    intros q Hq Eq. pose proof (Hu x Hx) as Hux. pose proof (t_alloc _ _ _ (h_tree _ _ Hh)) as Hi.
    pose proof (fa_used_bound _ _ Hi Hq). pose proof (fa_size_bound _ Hi). set (pg := (x - NORMAL_VMA_OFFSET) / PAGE) in *.
    assert (x = kpage pg + x mod PAGE ∧ 0 ≤ pg < PHYS_PAGES) as [Ex Hpg].
    { unfold pg, in_buffer, kpage, NORMAL_VMA_OFFSET, PHYS_PAGES in *. split; dlia. }
    rewrite Ex, kpage_off in Eq by dlia. unfold PHYS_PAGES in *. assert (q = pg) as -> by dlia. congruence.
Qed.

Lemma new_block T v v' T' p : heap_ok T v → heap_grew v T v' T' → buffer AP_STACK p v v' → Kmalloc.owned AP_STACK p v' T' → stack_block v v' p.
Proof.
  intros Hh G B O. pose proof (bf_bound _ _ _ _ B) as (Hp & _ & Hpn & _). change (alloc_pages AP_STACK) with 6 in Hpn. split; [done| | |].
  - intros x Hx. by apply (buffer_free _ _ _ _ _ B).
  - intros x Hx. by apply (buffer_used _ _ _ _ _ B).
  - intros x Hx. set (pg := (x - NORMAL_VMA_OFFSET) / PAGE).
    assert (x = kpage pg + x mod PAGE ∧ p < pg < p + 6 - 1 ∧ x - NORMAL_VMA_OFFSET = pg * PAGE + x mod PAGE) as (Ex & Hpg & ->).
    { unfold pg, in_buffer, kpage, NORMAL_VMA_OFFSET in *. split_and!; dlia. }
    destruct (ow_body _ _ _ _ O pg Hpg (x mod PAGE) ltac:(dlia)) as [fl Hd]. exists fl. by rewrite <-Ex in Hd.
Qed.

Lemma block_range v v' p : stack_block v v' p → is_u64 (kpage (p + 1) + 16384).
Proof. intros [[B1 B2] _ _ _]. unfold is_u64, kpage, NORMAL_VMA_OFFSET, PHYS_PAGES in *. lia. Qed.

(** ** One processor *)

Lemma on_sm_ok {A} (m : stM (user_st F) A) s a u : m (sm_user s) = Ok (a, u) → on_sm m s = Ok (a, s <| sm_user := u |>).
Proof. intros E. unfold on_sm. by apply (zoom_ok sm_user (λ u s, s <| sm_user := u |>)). Qed.

(** What a step of the loop does to the rest of the kernel: it takes memory, of which there is enough for [n] stacks more. *)
Definition grew T s s' T' : Prop := kern (sm_user s') = kern (sm_user s) ∧ heap_grew (vm (sm_user s)) T (vm (sm_user s')) T'.
Definition room (n : nat) s : Prop := enough (frames (vm (sm_user s))) (18 * n) 18.

Lemma fill_mailbox_steps k v m l c i : fill_mailbox gdt_ptr_32 gdt_ptr_64 long_smp_loaded i (mk_smp (mk_user k v) m l c) =
  match on_sm (kmalloc_bytes AP_STACK) (mk_smp (mk_user k v) (mk_mailbox 0 (u32 (cr3 v)) gdt_ptr_32 gdt_ptr_64 0 0 0) l c) with
  | Ok (stack, s) => Ok (tt, s <| sm_mailbox := sm_mailbox s <| mb_stack := u64 (stack + AP_STACK) |> <| mb_entry := long_smp_loaded |> <| mb_index := u8 i |> |>)
  | Crash e => Crash e
  end.
Proof.
  transitivity ((stack ← on_sm (kmalloc_bytes AP_STACK); upd_mailbox (λ m, m <| mb_stack := u64 (stack + AP_STACK) |>) ;;
    upd_mailbox (λ m, m <| mb_entry := long_smp_loaded |>) ;; upd_mailbox (λ m, m <| mb_index := u8 i |>))
    (mk_smp (mk_user k v) (mk_mailbox 0 (u32 (cr3 v)) gdt_ptr_32 gdt_ptr_64 0 0 0) l c)); [reflexivity|].
  destruct (on_sm _ _) as [[stack s]|e] eqn:E; [|unfold mbind, stM_bind; by rewrite E]. rewrite (bind_ok _ _ _ _ _ E). by destruct s.
Qed.

Lemma fill_mailbox_ok T i s n : heap_ok T (vm (sm_user s)) → 0 ≤ cr3 (vm (sm_user s)) < 4294967296 → room (S n) s →
  ∃ p T' s', fill_mailbox gdt_ptr_32 gdt_ptr_64 long_smp_loaded i s = Ok (tt, s') ∧ grew T s s' T' ∧ room n s' ∧
    stack_block (vm (sm_user s)) (vm (sm_user s')) p ∧ sm_mailbox s' = mailbox_for (cr3 (vm (sm_user s))) i (kpage (p + 1)) ∧
    sm_ipis s' = sm_ipis s ∧ cores_booted s' = cores_booted s.
Proof.
  destruct s as [[k v] m l c]. unfold room. cbn [sm_user vm kern sm_ipis cores_booted]. intros Hh Hcr Hr.
  destruct (enough_alloc T v AP_STACK (18 * n) 18 Hh) as (H1 & H2 & H3); [done..|by replace (_ + 18 * n)%nat with (18 * S n)%nat by (change (Z.to_nat (alloc_pages AP_STACK) + 12)%nat with 18%nat; lia)|].
  destruct (kmalloc_bytes_ok T (mk_user k v) AP_STACK Hh) as (p & T' & v' & E & G & B & K & O); [done..|].
  pose proof (new_block T v v' T' p Hh G B O) as Hb. pose proof (block_range _ _ _ Hb) as Hx.
  set (s1 := mk_smp (mk_user k v) (mk_mailbox 0 (cr3 v) gdt_ptr_32 gdt_ptr_64 0 0 0) l c).
  set (s2 := mk_smp (mk_user k v') (mk_mailbox 0 (cr3 v) gdt_ptr_32 gdt_ptr_64 0 0 0) l c).
  assert (on_sm (kmalloc_bytes AP_STACK) s1 = Ok (kpage (p + 1), s2)) as E1 by exact (on_sm_ok _ s1 _ _ E).
  exists p, T', (mk_smp (mk_user k v') (mailbox_for (cr3 v) i (kpage (p + 1))) l c). split.
  - pose proof (fill_mailbox_steps k v m l c i) as Ef. unfold u32 in Ef. rewrite (Z.mod_small (cr3 v)) in Ef by lia. fold s1 in Ef.
    rewrite E1 in Ef. etransitivity; [exact Ef|]. cbn. unfold mailbox_for. by rewrite (u64_small (kpage (p + 1) + AP_STACK)) by done.
  - split; [by split|]. split; [by apply H3|]. by split_and!.
Qed.

Lemma boot_attempt_ok ap n s : boot_attempt reply ap n s =
  Ok (answers ap n, s <| sm_ipis := sm_ipis s ++ [(ap, IPI_INIT, sm_mailbox s); (ap, IPI_STARTUP, sm_mailbox s)] |>
                      <| sm_mailbox := sm_mailbox s <| mb_flag := reply ap n |> |>).
Proof. destruct s as [u m l c]. cbn. unfold boot_attempt. do 4 mstep. cbn. by rewrite <-app_assoc. Qed.

Lemma booted_ok ap s : mb_flag (sm_mailbox s) = 2 ∨ finishes ap = true →
  ∃ s', booted finishes ap s = Ok (tt, s') ∧ sm_user s' = sm_user s ∧ sm_ipis s' = sm_ipis s ∧ cores_booted s' = u8 (cores_booted s + 1).
Proof.
  intros Hf. unfold booted. mstep. unfold wait_finished. mstep. cbn [sm_mailbox]. destruct s as [u m l c]. cbn in *.
  destruct (mb_flag m =? 2) eqn:E; zbool; [by eexists|]. destruct Hf as [Hf| ->]; [done|]. by eexists.
Qed.

(** The attempts, once the mailbox is filled. *)
Lemma attempts_ok ap s base i block : (∀ n, reply ap n = 1 → finishes ap = true) → sm_mailbox s = mailbox_for base i block →
  ∃ s', (ok ← boot_attempt reply ap 0; if ok : bool then booted finishes ap
         else ok ← boot_attempt reply ap 1; if ok : bool then booted finishes ap else mret tt) s = Ok (tt, s') ∧
    sm_user s' = sm_user s ∧ sm_ipis s' = sm_ipis s ++ boot_calls base i block ap ∧
    cores_booted s' = (if comes_up ap then u8 (cores_booted s + 1) else cores_booted s).
Proof.
  intros Hfin Hm. mrun (boot_attempt_ok ap 0 s). set (s2 := _ <| sm_mailbox := _ |>). unfold boot_calls, comes_up. rewrite <-Hm.
  assert (∀ n (t : smp_st F), answers ap n = true → mb_flag (sm_mailbox t) = reply ap n → mb_flag (sm_mailbox t) = 2 ∨ finishes ap = true) as Hb.
  { intros n t Ha Ht. unfold answers in Ha. destruct (reply ap n =? 1) eqn:E1; zbool; [right; by apply (Hfin n)|].
    cbn in Ha. apply Z.eqb_eq in Ha. left. congruence. }
  destruct (answers ap 0) eqn:E0; cbn [orb].
  - destruct (booted_ok ap s2) as (s' & E & Hu & Hi & Hc); [by apply (Hb 0)|]. exists s'. split; [done|]. by rewrite Hu, Hi, Hc, app_nil_r.
  - mrun (boot_attempt_ok ap 1 s2). set (s3 := _ <| sm_mailbox := _ |>). destruct (answers ap 1) eqn:E1; cbn [orb].
    + destruct (booted_ok ap s3) as (s' & E & Hu & Hi & Hc); [by apply (Hb 1)|]. exists s'. split; [done|]. rewrite Hu, Hi, Hc.
      split_and!; try done. unfold s3. cbn. by rewrite <-app_assoc.
    + exists s3. split; [done|]. split_and!; try done. unfold s3. cbn. by rewrite <-app_assoc.
Qed.

Lemma launch_cpu_ok T i cpu s n : (∀ n, reply (apic_id cpu) n = 1 → finishes (apic_id cpu) = true) → other cpu = true →
  heap_ok T (vm (sm_user s)) → 0 ≤ cr3 (vm (sm_user s)) < 4294967296 → room (S n) s →
  ∃ p T' s', launch_cpu lapic_id gdt_ptr_32 gdt_ptr_64 long_smp_loaded reply finishes i cpu s = Ok (tt, s') ∧
    sm_ipis s' = sm_ipis s ++ boot_calls (cr3 (vm (sm_user s))) i (kpage (p + 1)) (apic_id cpu) ∧ grew T s s' T' ∧ room n s' ∧
    stack_block (vm (sm_user s)) (vm (sm_user s')) p ∧
    cores_booted s' = (if comes_up (apic_id cpu) then u8 (cores_booted s + 1) else cores_booted s).
Proof.
  intros Hfin Ho Hh Hcr Hr. unfold launch_cpu. unfold other in Ho. rewrite Ho.
  destruct (fill_mailbox_ok T i s n Hh Hcr Hr) as (p & T' & s1 & E & G & R & B & M & I & C). mrun E.
  destruct (attempts_ok (apic_id cpu) s1 _ _ _ Hfin M) as (s' & E' & Hu & Hi & Hc).
  exists p, T', s'. unfold grew, room in *. rewrite Hu, Hi, Hc, I, C. split; [exact E'|]. split; [done|]. split; [exact G|]. split; [exact R|]. split; [exact B|]. reflexivity.
Qed.

(** ** All of them *)

Lemma grew_trans T s1 T1 s2 s3 T3 : grew T s1 s2 T1 → grew T1 s2 s3 T3 → grew T s1 s3 T3.
Proof. intros [K1 G1] [K2 G2]. split; [congruence|by eapply heap_grew_trans]. Qed.

Lemma apart_new v0 v p v' q : stack_block v0 v p → stack_block v v' q → apart p q.
Proof. intros B1 B2 x H1 H2. pose proof (sb_used _ _ _ B1 x H1) as Hu. by rewrite (sb_free _ _ _ B2 x H2) in Hu. Qed.

Lemma launch_loop_ok cpus : ∀ T i s, (∀ c n, c ∈ cpus → reply (apic_id c) n = 1 → finishes (apic_id c) = true) →
  heap_ok T (vm (sm_user s)) → 0 ≤ cr3 (vm (sm_user s)) < 4294967296 → room (length (others cpus)) s →
  ∃ ps T' s', launch_loop lapic_id gdt_ptr_32 gdt_ptr_64 long_smp_loaded reply finishes i cpus s = Ok (tt, s') ∧
    sm_ipis s' = sm_ipis s ++ boot_log (cr3 (vm (sm_user s))) i cpus (map (λ p, kpage (p + 1)) ps) ∧ length ps = length (others cpus) ∧
    Forall (stack_block (vm (sm_user s)) (vm (sm_user s'))) ps ∧ ForallOrdPairs apart ps ∧ grew T s s' T' ∧
    u8 (cores_booted s') = u8 (cores_booted s + ups cpus).
Proof.
  induction cpus as [|cpu cpus IH]; intros T i s Hfin Hh Hcr Hr; cbn [launch_loop boot_log].
  { exists [], T, s. rewrite app_nil_r. change (ups []) with 0. rewrite Z.add_0_r. do 3 (split; [done|]). split; [constructor|]. split; [constructor|]. split; [split; [done|by apply heap_grew_refl]|done]. }
  assert (∀ c n, c ∈ cpus → reply (apic_id c) n = 1 → finishes (apic_id c) = true) as Hfin' by (intros; eapply Hfin; [set_solver|done]).
  unfold others, ups in *. cbn [List.filter] in *. destruct (other cpu) eqn:Ho; cbn [andb].
  - cbn [length] in *. destruct (launch_cpu_ok T i cpu s (length (others cpus))) as (p & T1 & s1 & E1 & I1 & G1 & R1 & B1 & C1);
      [intros n; apply Hfin; set_solver|done..|]. mrun E1.
    pose proof G1 as [K1 H1]. pose proof (hg_regs _ _ _ _ H1) as (Rc & _).
    destruct (IH T1 (i + 1) s1 Hfin' (hg_heap _ _ _ _ H1)) as (ps & T' & s' & E & I & L & B & A & G & C); [by rewrite Rc|exact R1|].
    exists (p :: ps), T', s'. split; [done|]. cbn [map length]. rewrite I, I1, Rc, <-app_assoc, L. split; [done|]. split; [done|].
    split; [|split; [|split]].
    + constructor.
      * eapply block_grew; [by apply heap_grew_refl|exact B1|apply H1|apply G].
      * eapply Forall_impl; [exact B|]. intros q Bq. eapply block_grew; [exact H1|exact Bq|apply G|apply heap_grew_refl, G].
    + constructor; [|done]. eapply Forall_impl; [exact B|]. intros q Bq. by eapply apart_new.
    + by eapply grew_trans.
    + rewrite C. destruct (comes_up (apic_id cpu)); rewrite C1; [|done]. unfold zlen. cbn [length]. unfold u8. rewrite Z.add_mod_idemp_l by lia. f_equal. lia.
  - assert (launch_cpu lapic_id gdt_ptr_32 gdt_ptr_64 long_smp_loaded reply finishes i cpu s = Ok (tt, s)) as E1.
    { unfold launch_cpu. unfold other in Ho. by rewrite Ho. }
    mrun E1. destruct (IH T (i + 1) s Hfin' Hh Hcr Hr) as (ps & T' & s' & E & R). exists ps, T', s'. split; [exact E|exact R].
Qed.

(** C40: starting the processors.  When every processor that starts also gets to the end of its entry point, the kernel's top table is
    below 4 GiB and there is memory for the stacks, the loop ends.  It has sent
    exactly the interrupts of the start-up protocol, INIT and STARTUP to every usable processor but this one, and both again to those
    that were silent ([boot_log]).  At each of them the mailbox holds the address of the kernel's page tables, both pointers to the
    descriptor table, the kernel's entry point, the processor's index in the table (its low byte), and the end of a block of 16 KiB: the
    blocks were free memory, are mapped and in use, and no two processors get overlapping ones.  [cores_booted] is raised by the number of
    processors that answered, and nothing but heap memory is taken. *)
Theorem launch_correct T i cpus s : (∀ c n, c ∈ cpus → reply (apic_id c) n = 1 → finishes (apic_id c) = true) →
  heap_ok T (vm (sm_user s)) → 0 ≤ cr3 (vm (sm_user s)) < 4294967296 →
  enough (frames (vm (sm_user s))) (18 * length (others cpus)) 18 →
  ∃ ps T' s', launch_loop lapic_id gdt_ptr_32 gdt_ptr_64 long_smp_loaded reply finishes i cpus s = Ok (tt, s') ∧
    sm_ipis s' = sm_ipis s ++ boot_log (cr3 (vm (sm_user s))) i cpus (map (λ p, kpage (p + 1)) ps) ∧
    length ps = length (others cpus) ∧ Forall (stack_block (vm (sm_user s)) (vm (sm_user s'))) ps ∧ ForallOrdPairs apart ps ∧
    u8 (cores_booted s') = u8 (cores_booted s + ups cpus) ∧
    kern (sm_user s') = kern (sm_user s) ∧ heap_grew (vm (sm_user s)) T (vm (sm_user s')) T'.
Proof.
  intros Hfin Hh Hcr Hr. destruct (launch_loop_ok cpus T i s Hfin Hh Hcr Hr) as (ps & T' & s' & E & I & L & B & A & [K G] & C).
  exists ps, T', s'. by split_and!.
Qed.
End launch.

(** Three processors: this one, one that comes up at the second attempt, and one that is disabled. *)
Definition demo_cpus : list madt_ent0_t := [mk_cpu0 0 0 1; mk_cpu0 1 4 1; mk_cpu0 2 6 0].
Definition demo_smp : smp_st pmm_state := mk_smp (mk_user demo_kernel big_demo) empty_mailbox [] 1.

Lemma launch_correct_witness : ∃ p s', launch_loop 0 [1] [2] 8192 (λ _ n, if n =? 0 then 0 else 1) (λ _, true) 0 demo_cpus demo_smp = Ok (tt, s') ∧
  map fst (sm_ipis s') = [(4, IPI_INIT); (4, IPI_STARTUP); (4, IPI_INIT); (4, IPI_STARTUP)] ∧
  Forall (λ e, e.2 = mk_mailbox 0 4096 [1] [2] (kpage (p + 1) + 16384) 8192 1) (sm_ipis s') ∧ u8 (cores_booted s') = 2.
Proof.
  destruct (launch_correct 0 [1] [2] 8192 (λ _ n, if n =? 0 then 0 else 1) (λ _, true) big_tree 0 demo_cpus demo_smp) as (ps & T' & s' & E & I & L & _ & _ & C & _).
  - done.
  - exact big_demo_ok.
  - by vm_compute.
  - cbn. intros f Hf. destruct (big_enough 18 ltac:(done) f Hf) as [q Hq]. exists q. intros k Hk. apply Hq. lia.
  - destruct ps as [|p [|]]; [done| |done]. exists p, s'. split; [exact E|]. rewrite I. split; [reflexivity|]. split; [|exact C]. repeat constructor.
Defined.

(** The top table's address is cut to 32 bits: above 4 GiB the new processor would load another one. *)
Definition high_demo : smp_st pmm_state :=
  mk_smp (mk_user demo_kernel (mk_vmm heap_pmm (λ a, heap_mem (if a <? 4294967296 then a else a - 4294967296)) 4294971392 0 [] 0 0)) empty_mailbox [] 1.
Lemma cr3_truncated : outcome (λ _ s, mb_cr3 (sm_mailbox s)) (fill_mailbox [] [] 8192 1 high_demo) = Some 4096.
Proof. vm_compute. reflexivity. Qed.
