(* ===== verification/Timer.v ===== *)
(** * The timer's set-up, short delays, and the serial line's set-up (drivers/pit.c, drivers/serial.c)

    What goes to the ports, in order, and the loop that waits for ticks: the
    value of [global_ticks] at its [n]-th look is [clock n]. *)

From S2P Require Import Prelude.

Abbreviation portM := (stM (list (Z * Z))).
Definition port_outb (port data : Z) : portM unit := modify (λ l, l ++ [(port, u8 data)]).

Definition PIT_DIVISOR : Z := 1193.
Definition set_pit_freq : portM unit :=
  let low := u8 (Z.land PIT_DIVISOR 255) in
  let high := u8 (Z.land (Z.shiftr PIT_DIVISOR 8) 255) in
  port_outb 67 54 ;; port_outb 64 low ;; port_outb 64 high.

Definition SERIAL_DLAB : Z := 128.
Definition SERIAL_RATE_38400_LO : Z := 3.
Definition SERIAL_RATE_38400_HI : Z := 0.
Definition init_serial (com_port : Z) : portM unit :=
  port_outb (u16 (com_port + 1)) 0 ;;
  port_outb (u16 (com_port + 3)) SERIAL_DLAB ;;
  port_outb com_port SERIAL_RATE_38400_LO ;;
  port_outb (u16 (com_port + 1)) SERIAL_RATE_38400_HI ;;
  port_outb (u16 (com_port + 3)) 3 ;;
  port_outb (u16 (com_port + 2)) 199 ;;
  port_outb (u16 (com_port + 4)) 11.

Section delay.
Context (clock : nat → Z).

(** [while (global_ticks < ticks + start_ticks) pause;]: the number of looks. *)
Fixpoint delay_loop (fuel n : nat) (until : Z) : res nat :=
  match fuel with
  | O => Crash Hang
  | S fuel' => if clock n <? until then delay_loop fuel' (S n) until else Ok n
  end.

(** The first look is the start. *)
Definition sleep_no_task (fuel : nat) (ticks : Z) : res nat := delay_loop fuel 1 (u64 (ticks + clock O)).

Definition stopwatch_start (n : nat) : Z := clock n.
Definition stopwatch_stop (n : nat) (start : Z) : Z := u64 (clock n - start).

(** When the clock gets there, the delay ends at the first look at which it has, and not before the ticks have passed. *)
Lemma sleep_no_task_ok ticks k : 0 ≤ ticks → 0 ≤ clock O → ticks + clock O < U64_MOD → ticks + clock O ≤ clock (S k) →
  (∀ n, (n < k)%nat → clock (S n) < ticks + clock O) → sleep_no_task (S k) ticks = Ok (S k) ∧ stopwatch_stop (S k) (clock O) = u64 (clock (S k) - clock O).
Proof.
  intros Ht H0 Hm Hk Hb. split; [|done]. unfold sleep_no_task. rewrite u64_small by (unfold is_u64; lia).
  assert (∀ j m, (j + m = k)%nat → delay_loop (S m) (S j) (ticks + clock O) = Ok (S k)) as Hl.
  { intros j m. revert j. induction m as [|m IH]; intros j Hj; cbn [delay_loop].
    - replace j with k by lia. by rewrite (proj2 (Z.ltb_ge _ _)) by lia.
    - rewrite (proj2 (Z.ltb_lt _ _)) by (apply Hb; lia). apply IH. lia. }
  by apply (Hl O k).
Qed.
End delay.

(** The counter runs at 1193182 Hz: the two bytes set a rate of one thousand ticks a second. *)
Lemma pit_rate : ∃ low high, set_pit_freq [] = Ok (tt, [(67, 54); (64, low); (64, high)]) ∧
  let divisor := low + 256 * high in 1000 * divisor ≤ 1193182 < 1001 * divisor.
Proof. exists 169, 4. vm_compute. by repeat split. Qed.
